(* ===== verification/_CoqProject ===== *)
-Q . S2P
Prelude.v
CString.v
CFile.v
Db.v
DbLayout.v
DbBytes.v
DbChain.v
DbSpec.v
DbRefine.v
DbTheorems.v
Dll.v
PrintJobs.v
PrintQueue.v
PrintWorkers.v
PrintIpp.v
PrintNet.v
PrintClient.v
PrintStatus.v
PrintThread.v
PrintCmd.v
Inet4.v
Inet6.v
Inet6Proof.v
Fmemopen.v
Readline.v
Gai.v
GaiHeap.v
GaiLists.v
GaiSpec.v
GaiTheorems.v
GetNameInfo.v
Cksum.v
RwQueue.v
Barrier.v
NonBlock.v
RefTable.v
RefHeap.v
RefSteps.v
RefProgram.v
Mutex2.v
Mutex3.v
EventLoop.v
EchoSelect.v
EchoPoll.v
OpenPass.v
OpenReq.v
OpenTable.v
OpenLoop.v
OpenSelect.v
OpenPoll.v
Ftw.v
WebThreads.v
Ring.v
SigIo.v
ThreadPool.v
Bounded.v
UdpFile.v
SockTcp.v
UdpPacket.v
Packet.v
Icmp.v
Icmpd.v
IcmpdRounds.v
IcmpdTheorems.v
Traceroute.v
Ping.v
RelReq.v
Route.v
IfNames.v
IfInfo.v
IfInfoTheorems.v
