(* ===== verification/Prelude.v ===== *)
(** * A verification library for the C programs of the minions repository

    The repository collects programs worked out along two books on Unix
    programming, and small applications.  This library models those C programs
    that have state and logic of their own, and proves what makes them correct.
    Paths below are under src/c/edu.

    ** How programs are modelled

    A piece of C code on a state [S] is a value of [M S A] (this file): a
    function to an outcome, which is a result with the new state ([Ret]), the
    death of the process ([Died]), an access the C standard leaves undefined
    ([Undef]), or a loop that has used up its bound ([NoFuel]).  A theorem that
    a run is [Ret] therefore says that the code returns, that every access is
    inside its object, and that the bound was enough.  Integers are [Z] with
    the wrap-around of their width written out ([wrapu], [wraps]), memory is
    byte lists with explicit bounds or a finite map from addresses to blocks,
    NULL being 0, and what the code calls but the repository does not hold
    (the kernel, the resolver, the sort of the C library) is an argument.
    Fuel is always a quantity of the state that bounds the loop (the size of a
    file, of the heap, of what can still arrive), and the theorems show that it
    is not used up.  Constants are those of the system the repository is
    configured for (unpv13e/config.h: Darwin, with [sa_len]).

    ** Shared files

    - [Prelude]: outcomes, the state monad, rules to run it, machine integers.
    - [CString], [CFile]: C strings, [atol], decimal output; buffers updated in
      place and regular files.
    - [Dll]: doubly linked lists in memory over any structure with two pointers
      (class [Node]), with insertion at both ends and removal; the spooler and
      the reader-writer queue are its instances.

    ** The database library: apue.3e/db (db.c, t4.c)

    [Db] translates db.c function by function over the bytes of the index and
    the data file, with the counters and the record locks as a trace.
    [DbLayout] says which bytes represent a table of records, [DbBytes] what
    the readers and writers do to them, [DbChain] what relinking does to the
    hash chains and the free list, [DbSpec] and [DbRefine] prove each operation
    against this representation, and [DbTheorems] states the contract: an open
    database is a finite map from keys to values under any sequence of
    operations, the scan enumerates it, locks are given back, errors leave it
    alone.  Hypotheses bound the sizes so that the pointers keep to their
    seven digits; keys of blanks are stored but not enumerated.  The code
    erases a record with an [sprintf] of a buffer into itself, which C leaves
    undefined: whether the system extends the string in place is an argument
    of the model ([Libc]), and the sessions that erase are covered only where
    it does ([InPlace]).

    ** The print spooler: apue.3e/printer (printd.c, print.c, util.c, ipp.h)

    [PrintJobs] and [PrintQueue] are the job list and the job counter,
    [PrintWorkers] the list of worker threads, [PrintNet] the timed reads and
    the configuration file of util.c, [PrintIpp] the IPP and HTTP headers,
    [PrintClient] the thread that serves a client and the restart from the
    spool directory, [PrintStatus] the parser of the printer's response,
    [PrintThread] a round of the printer thread, [PrintCmd] the command that
    submits a file.  The parts are composed as the program composes them: the
    state of the daemon holds the queue, the workers, the files and the
    network, and the code of a part runs on its component ([zoom]).  The
    theorems show that the queue is a list, that a job is neither lost nor
    duplicated from the command to the printer in any round that returns,
    whatever fails, and when a round does return (the parser of the response
    has inputs on which it does not), that the headers have the bytes of the
    protocol, and that responses are judged by their status.  The threads are verified one at a time between their lock
    operations.

    ** Addresses and names: unpv13e/libfree, unpv13e/libgai

    [Inet4], [Inet6] and [Inet6Proof] are the conversions between addresses and
    texts: equivalence with a definition of dotted quads, round trips, safety on
    any text.  [Gai] is [getaddrinfo] with all its parts and [freeaddrinfo],
    over a heap and a [malloc] that may fail at any call; [GaiHeap] and
    [GaiLists] relate the memory to lists of structures with their footprint,
    [GaiSpec] says which list is promised, and [GaiTheorems] proves that the
    code computes it, that no block is freed twice, and that the only block
    ever lost is a canonical name, when an error follows it.  [GetNameInfo]
    is the way back, with the round trip.

    ** Streams and loops

    [Fmemopen] (apue.3e/exercises/fmemopen.c): memory streams behave as bounded
    files.  [Readline] (unpv13e/test, server, threads): six versions of
    readline agree, whatever the reads return.  [NonBlock]
    (unpv13e/nonblock/strclinonb.c): the client with non-blocking descriptors
    relays both directions in order, inside its buffers, and keeps in them
    what it has not passed on (what is left for the terminal when the server
    closes is thrown away).  [SockTcp] (unpv13e/sock: looptcp.c, crlf.c, write.c,
    writen.c): the relay loop of the sock tool, with its conversion of line ends,
    as long as standard output reports no error.  [Ftw]
    (apue.3e/filedir/ftw8.c): the walk of a file hierarchy in one path buffer
    counts the entries of the tree.

    ** Servers around one loop

    [EventLoop] is what such servers share: the kernel's answers of a round are
    an argument, the system calls made are a trace, and a table of clients is a
    list whose free entries hold a negative descriptor.  A server that treats
    some answers as fatal is stated with [wpd] (this file): the run returns
    with the property or the process dies, and is never undefined.
    [EchoSelect] and [EchoPoll] (unpv13e/tcpcliserv/tcpservselect01.c,
    tcpservpoll01.c) refine one abstract echo server.

    The open server (apue.3e/ipc2): [OpenPass] is the passing of descriptors
    (sendfd2.c, recvfd2.c), [OpenReq] the requests (opend/request.c, cliargs.c;
    opend.fe/request.c, main.c; the clients open/open.c, open.fe/open.c),
    [OpenTable] the table of clients (opend/client.c), [OpenLoop] the events
    both loops share, the class [Handler] of what a loop relies on in the
    handler of requests, and the abstract server; [OpenSelect] and [OpenPoll]
    are loop.select.c and loop.poll.c, proved against that interface.  The
    library routines that are not in the repository (buf_args, send_err,
    recv_fd, path_alloc) are arguments.

    [SigIo] (unpv13e/sigio/dgecho01.c): datagrams read in a signal handler into
    a circular queue are echoed in order, wherever the signal arrives, and
    neither the loop nor the handler leaves the queue.
    [UdpFile] (unpv13e/udpfileserv): a file sent in datagrams combined with a
    key.  [RelReq] (unpv13e/rtt): requests that are sent again until an answer
    with their sequence number comes, run against the server of the same
    directory on a network that loses, repeats and reorders; the estimator of round-trip times is the
    class [Rtt] with the laws [RttLaws], since its source is not in the
    repository.

    ** Packets

    [UdpPacket] (unpv13e/udpcksum): a DNS query built for a raw socket, with
    its checksum, and the check of the captured answer.  [Packet] is reading and
    writing fields of a packet in a buffer, within its bounds.  [Icmp] holds
    what the programs that read ICMP share: the layout of an error that quotes
    a UDP datagram.  [Icmpd], [IcmpdRounds] and
    [IcmpdTheorems] are the daemon of unpv13e/icmpd: rounds of its loop keep an
    abstract table of clients, serve each ready descriptor, tell an error to
    the clients registered for its port, and leave no received descriptor
    open.  [Traceroute] (unpv13e/traceroute) has the loops over TTLs and probes
    and the functions that wait for an answer, with alarms and late answers;
    [Ping] (unpv13e/ping) sends echo requests and judges what arrives, run
    against a host that answers the packets sent.  [Cksum] is the checksum they
    use, proved to verify in the sense of RFC 1071.

    [Route] (unpv13e/libroute: get_rtaddrs.c, net_rt_iflist.c, net_rt_dump.c)
    is the messages of a routing socket: their layout, what is read of them,
    and the loop over them.  [IfNames] (if_nametoindex.c, if_indextoname.c,
    if_nameindex.c and unpv13e/route/prifnameindex.c) finds interfaces by name
    and by index; the test program is proved to find no contradiction.
    [IfInfo] and [IfInfoTheorems] (unpv13e/route/get_ifi_info.c) build and free
    the list of interfaces with their addresses, which is the list the messages
    describe as long as no interface that is down has addresses.

    ** Threads

    [RwQueue] (apue.3e/threads/rwlock.c): the queue under a reader-writer lock
    is a list.  [Barrier] (apue.3e/threads/barrier.c): threads sort sections
    in any order, the counting barrier holds the merge back until all are
    done, and the merge gives a sorted permutation.

    [Ring] is an array used as a circular queue.  [ThreadPool]
    (unpv13e/server/serv08.c, pthread08.c) and [Bounded]
    (unpv13e/threads/example03.c) hand items from producers to consumers
    through one under a mutex and condition variables: in any interleaving
    every item is taken once and in order.  [WebThreads]
    (unpv13e/threads/web03.c) bounds the threads that fetch files; a run in
    which the program waits for ever is exhibited.

    [RefTable], [RefHeap], [RefSteps], [RefProgram], [Mutex2] and [Mutex3] are
    the table of reference-counted objects (apue.3e/threads/mutex2.c and
    mutex3.c) run by any number of threads in any interleaving.  [RefTable] is
    the machine that runs threads ([sys_step], with an executable [schedule])
    and the atomic table both programs implement; a caller keeps the contract
    of reference counts (it releases and holds only what it has a reference
    to, and there are at most INT_MAX references, [room]).  [RefHeap] is the
    memory of the programs, where a mutex misused, an access to a freed object
    or a counter that overflows is [Undef], with the invariant that ties it to
    the table; [RefSteps] has the lemmas on the kinds of statements both
    programs are made of, [RefProgram] the interface ([Implements]) a program
    discharges and the theorems it then has: refinement of the atomic table,
    absence of undefined behaviour and of data races, a bound on the steps
    with absence of deadlock, and no leaks.  A step is one statement; locking
    a mutex that is taken is no step.  What malloc and pthread_mutex_init
    answer is an argument ([world]); [pthread_mutex_lock], [_unlock] and
    [_destroy] are taken to succeed when used as their documentation asks.

    ** Not modelled

    System calls themselves, the set-up code of the daemons (sockets, signals,
    privileges), terminal handling and formatted output; the samples that show
    a single call; third-party code kept in the repository (the getaddrinfo.c
    of libfree, bsdping.c, savecopy.c); programs in other languages.  mutex1.c
    is the first part of mutex2.c (one object, no table).  Of the programs
    modelled in part: the options, sockets and UDP loops of the sock tool, the
    main programs of ping, traceroute and the open server, the client of icmpd,
    and rtt.c, which the repository does not hold; of the programs on routing
    sockets, those that print messages (prifinfo.c, mynetstat.c, getrt.c).
    The command runner of memo is helpers of an Objective-C program around
    calls of the system.  What each component leaves out is said in its file.

    This file: outcomes, the state monad and its rules, machine integers,
    bytes. *)
From Stdlib Require Import ZArith Lia.
From stdpp Require Import base list strings gmap numbers.

Declare Scope c_scope.
Delimit Scope c_scope with c.

Open Scope Z_scope.
Set Default Proof Using "Type".

(** * Outcomes of C code *)

(** What running a piece of C code on a state can give: a result with the
    new state; the death of the process ([err_dump], [err_quit], [err_sys],
    [log_quit], [exit]) with the message and the state at that moment; an
    access the C standard leaves undefined; or a loop that has used up the
    bound given to it. *)
Inductive outcome (S A : Type) : Type :=
| Ret (a : A) (s : S)
| Died (msg : string) (s : S)
| Undef (why : string)
| NoFuel.
Arguments Ret {S A} a s.
Arguments Died {S A} msg s.
Arguments Undef {S A} why.
Arguments NoFuel {S A}.

Definition M (S A : Type) : Type := S -> outcome S A.

Definition ret {S A} (a : A) : M S A := fun s => Ret a s.
Definition bind {S A B} (m : M S A) (k : A -> M S B) : M S B :=
  fun s =>
    match m s with
    | Ret a s' => k a s'
    | Died e s' => Died e s'
    | Undef w => Undef w
    | NoFuel => NoFuel
    end.
Definition gets {S A} (f : S -> A) : M S A := fun s => Ret (f s) s.
Definition modify {S} (f : S -> S) : M S unit := fun s => Ret tt (f s).
Definition die {S A} (msg : string) : M S A := fun s => Died msg s.
Definition undef {S A} (why : string) : M S A := fun _ => Undef why.
Definition nofuel {S A} : M S A := fun _ => NoFuel.
Definition skip {S} : M S unit := ret tt.
(** [if (c) err_dump(msg);] *)
Definition die_if {S} (c : bool) (msg : string) : M S unit :=
  if c then die msg else skip.

Notation "'let*' x ':=' m 'in' k" := (bind m (fun x => k))
  (at level 10, x name, m at level 100, k at level 200,
   format "'[v' 'let*'  x  ':='  m  'in' '/' k ']'") : c_scope.
Notation "m ;;; k" := (bind m (fun _ => k))
  (at level 100, k at level 200, right associativity,
   format "'[v' m  ;;; '/' k ']'") : c_scope.

(** Total correctness of a piece of code from a state: it returns, and the
    result and new state satisfy [Q]. *)
Definition wp {S A} (m : M S A) (Q : A -> S -> Prop) (s : S) : Prop :=
  match m s with Ret a s' => Q a s' | _ => False end.

Section wp_rules.
Context {S : Type}.

Lemma wp_bind {A B} (m : M S A) (k : A -> M S B) Q s :
  wp m (fun a s' => wp (k a) Q s') s -> wp (bind m k) Q s.
Proof. unfold wp, bind. destruct (m s); tauto. Qed.

Lemma wp_mono {A} (m : M S A) (P Q : A -> S -> Prop) s :
  wp m P s -> (forall a s', P a s' -> Q a s') -> wp m Q s.
Proof. unfold wp. destruct (m s); auto. Qed.

Lemma wp_ret {A} (a : A) (Q : A -> S -> Prop) s : Q a s -> wp (ret a) Q s.
Proof. done. Qed.

Lemma wp_gets {A} (f : S -> A) (Q : A -> S -> Prop) s :
  Q (f s) s -> wp (gets f) Q s.
Proof. done. Qed.

Lemma wp_modify (f : S -> S) (Q : unit -> S -> Prop) s :
  Q tt (f s) -> wp (modify f) Q s.
Proof. done. Qed.

Lemma wp_die_if (c : bool) msg (Q : unit -> S -> Prop) s :
  c = false -> Q tt s -> wp (die_if c msg) Q s.
Proof. by intros ->. Qed.

Lemma wp_run {A} (m : M S A) Q s :
  wp m Q s <-> exists a s', m s = Ret a s' /\ Q a s'.
Proof.
  unfold wp. split.
  - destruct (m s); [eauto | done..].
  - by intros (a & s' & -> & H).
Qed.
End wp_rules.

(** Running straight-line code one call at a time. *)
Section run_rules.
Context {S : Type}.

Lemma bind_run {A B} (m : M S A) (k : A -> M S B) s a s' :
  m s = Ret a s' -> bind m k s = k a s'.
Proof. unfold bind. by intros ->. Qed.

(** Appending a state update to code that returns. *)
Lemma bind_last {A} (m : M S A) (f : S -> S) s a s' :
  m s = Ret a s' -> bind m (fun _ => modify f) s = Ret tt (f s').
Proof. unfold bind. by intros ->. Qed.

Lemma bind_modify {B} (f : S -> S) (k : unit -> M S B) s : bind (modify f) k s = k tt (f s).
Proof. done. Qed.

Lemma bind_gets {A B} (f : S -> A) (k : A -> M S B) s : bind (gets f) k s = k (f s) s.
Proof. done. Qed.

Lemma bind_assoc {A B C} (m : M S A) (k : A -> M S B) (j : B -> M S C) s :
  bind (bind m k) j s = bind m (fun a => bind (k a) j) s.
Proof. unfold bind. by destruct (m s). Qed.

(** What a run that returned went through. *)
Lemma bind_ret_inv {A B} (m : M S A) (k : A -> M S B) s b s2 :
  bind m k s = Ret b s2 -> exists a s1, m s = Ret a s1 /\ k a s1 = Ret b s2.
Proof. unfold bind. destruct (m s); try done. eauto. Qed.
End run_rules.

(** Code on a part of the state, run on the whole. *)
Definition zoom {S T A} (get : S -> T) (put : T -> S -> S) (m : M T A) : M S A :=
  fun s =>
    match m (get s) with
    | Ret a t => Ret a (put t s)
    | Died e t => Died e (put t s)
    | Undef w => Undef w
    | NoFuel => NoFuel
    end.

Lemma zoom_run {S T A} (get : S -> T) (put : T -> S -> S) (m : M T A) s a t :
  m (get s) = Ret a t -> zoom get put m s = Ret a (put t s).
Proof. unfold zoom. by intros ->. Qed.

(** * Code that may die *)

(** The code returns, with [Q], or ends the process, with [D]. *)
Definition wpd {S A} (m : M S A) (Q : A -> S -> Prop) (D : S -> Prop) (s : S) : Prop :=
  match m s with Ret a s' => Q a s' | Died _ s' => D s' | _ => False end.

Definition returns {S A} (m : M S A) (s : S) : bool := match m s with Ret _ _ => true | _ => false end.

Section wpd.
Context {S : Type}.

Lemma wpd_returns {A} (m : M S A) (Q : A -> S -> Prop) D s :
  wpd m Q D s -> returns m s = true -> exists a s', m s = Ret a s' /\ Q a s'.
Proof. unfold wpd, returns. destruct (m s); try done. eauto. Qed.

Lemma wpd_bind {A B} (m : M S A) (k : A -> M S B) Q D s :
  wpd m (fun a s' => wpd (k a) Q D s') D s -> wpd (bind m k) Q D s.
Proof. unfold wpd, bind. by destruct (m s). Qed.

Lemma wpd_assoc {A B C} (m : M S A) (k : A -> M S B) (j : B -> M S C) Q (D : S -> Prop) s :
  wpd (bind (bind m k) j) Q D s -> wpd (bind m (fun a => bind (k a) j)) Q D s.
Proof. unfold wpd, bind. by destruct (m s). Qed.

Lemma wpd_ret {A} (a : A) (Q : A -> S -> Prop) (D : S -> Prop) s : Q a s -> wpd (ret a) Q D s.
Proof. done. Qed.

Lemma wpd_gets {A} (f : S -> A) (Q : A -> S -> Prop) (D : S -> Prop) s : Q (f s) s -> wpd (gets f) Q D s.
Proof. done. Qed.

Lemma wpd_modify (f : S -> S) (Q : unit -> S -> Prop) (D : S -> Prop) s : Q tt (f s) -> wpd (modify f) Q D s.
Proof. done. Qed.

Lemma wpd_mono {A} (m : M S A) (P Q : A -> S -> Prop) D s :
  wpd m P D s -> (forall a s', P a s' -> Q a s') -> wpd m Q D s.
Proof. unfold wpd. destruct (m s); auto. Qed.

Lemma wpd_conseq {A} (m : M S A) (P Q : A -> S -> Prop) (D E : S -> Prop) s :
  wpd m P D s -> (forall a s', P a s' -> Q a s') -> (forall s', D s' -> E s') -> wpd m Q E s.
Proof. unfold wpd. destruct (m s); auto. Qed.

Lemma wpd_die_if (c : bool) msg (Q : unit -> S -> Prop) D s :
  (c = true -> D s) -> (c = false -> Q tt s) -> wpd (die_if c msg) Q D s.
Proof. unfold die_if. destruct c; cbn; auto. Qed.

Lemma wpd_of_wp {A} (m : M S A) (Q : A -> S -> Prop) (D : S -> Prop) s : wp m Q s -> wpd m Q D s.
Proof. unfold wpd, wp. by destruct (m s). Qed.

Lemma wpd_zoom {T A} (get : S -> T) (put : T -> S -> S) (m : M T A) (Q : A -> S -> Prop) (D : S -> Prop) s :
  wpd m (fun a t => Q a (put t s)) (fun t => D (put t s)) (get s) -> wpd (zoom get put m) Q D s.
Proof. unfold wpd, zoom. by destruct (m (get s)). Qed.

Lemma wpd_run {A} (m : M S A) (Q : A -> S -> Prop) D s a s' : m s = Ret a s' -> Q a s' -> wpd m Q D s.
Proof. unfold wpd. by intros ->. Qed.

Lemma wpd_call {A B} (m : M S A) (k : A -> M S B) Q (D : S -> Prop) s a s' :
  m s = Ret a s' -> wpd (bind m k) Q D s = wpd (k a) Q D s'.
Proof. unfold wpd. intros E. by rewrite (bind_run _ _ _ _ _ E). Qed.

Lemma wpd_wp {A} (m : M S A) (Q : A -> S -> Prop) s : wpd m Q (fun _ => False) s <-> wp m Q s.
Proof. unfold wpd, wp. by destruct (m s). Qed.
End wpd.

(** [step] runs the next state access; [to_state d] names the state the code
    has reached; [call E] runs a call whose result is the equation [E]. *)
Ltac step := first [rewrite bind_modify | rewrite bind_gets | rewrite bind_assoc]; cbv beta.
Ltac to_state d := match goal with |- ?k _ = ?r => change (k d = r) end.
Ltac call E := rewrite (bind_run _ _ _ _ _ E); cbv beta.

(** Steps through straight-line monadic code. *)
Ltac wp_step :=
  lazymatch goal with
  | |- wp (bind _ _) _ _ => apply wp_bind
  | |- wp (ret _) _ _ => apply wp_ret
  | |- wp skip _ _ => apply wp_ret
  | |- wp (gets _) _ _ => apply wp_gets
  | |- wp (modify _) _ _ => apply wp_modify
  end.
Ltac wp_steps := repeat (wp_step; cbv beta).

(** * Machine integers *)

(** Values reduced to [w] bits, unsigned and two's complement. *)
Definition wrapu (w : Z) (x : Z) : Z := x mod 2 ^ w.
Definition wraps (w : Z) (x : Z) : Z := (x + 2 ^ (w - 1)) mod 2 ^ w - 2 ^ (w - 1).
Abbreviation u8 := (wrapu 8).
Abbreviation u16 := (wrapu 16).
Abbreviation u32 := (wrapu 32).
Abbreviation u64 := (wrapu 64).
Abbreviation i8 := (wraps 8).
Abbreviation i16 := (wraps 16).
Abbreviation i32 := (wraps 32).
Abbreviation i64 := (wraps 64).

Lemma wrapu_range w x : 0 <= w -> 0 <= wrapu w x < 2 ^ w.
Proof. intros. apply Z.mod_pos_bound. by apply Z.pow_pos_nonneg. Qed.

Lemma wrapu_small w x : 0 <= x < 2 ^ w -> wrapu w x = x.
Proof. intros. by apply Z.mod_small. Qed.

Lemma wraps_small w x :
  0 < w -> - 2 ^ (w - 1) <= x < 2 ^ (w - 1) -> wraps w x = x.
Proof.
  intros Hw Hx. unfold wraps.
  assert (2 ^ w = 2 * 2 ^ (w - 1)) as E.
  { rewrite <-Z.pow_succ_r by lia. f_equal. lia. }
  rewrite Z.mod_small; lia.
Qed.

Lemma wraps_mod w x : 0 < w -> wraps w (x mod 2 ^ w) = wraps w x.
Proof.
  intros H. unfold wraps. rewrite Zplus_mod_idemp_l. done.
Qed.

Lemma wraps_range w x :
  0 < w -> - 2 ^ (w - 1) <= wraps w x < 2 ^ (w - 1).
Proof.
  intros Hw. unfold wraps.
  assert (2 ^ w = 2 * 2 ^ (w - 1)) as E.
  { rewrite <-Z.pow_succ_r by lia. f_equal. lia. }
  pose proof (Z.mod_pos_bound (x + 2 ^ (w - 1)) (2 ^ w)
                ltac:(apply Z.pow_pos_nonneg; lia)). lia.
Qed.

(** A value keeps its low bits when it wraps at their width or at a multiple. *)
Lemma u32_i32 x : u32 (i32 x) = u32 x.
Proof. unfold wrapu, wraps. rewrite Zminus_mod_idemp_l. f_equal. lia. Qed.

Lemma u16_u32 x y : u32 x = u32 y -> u16 x = u16 y.
Proof.
  unfold wrapu. intros E. rewrite <-(Z.mod_mod_divide x (2 ^ 32) (2 ^ 16)), <-(Z.mod_mod_divide y (2 ^ 32) (2 ^ 16)), E by (by exists (2 ^ 16)).
  done.
Qed.

(** [htons] and [ntohs] on a host that stores the low byte first. *)
Definition htons (v : Z) : Z := 256 * (v mod 256) + v / 256 mod 256.

Lemma htons_bytes v : htons v mod 256 = v / 256 mod 256 /\ htons v / 256 mod 256 = v mod 256.
Proof.
  unfold htons. pose proof (Z.mod_pos_bound (v / 256) 256 ltac:(lia)). rewrite Z.add_comm, Z.mul_comm. split.
  - by rewrite Z_mod_plus_full, Z.mod_mod by lia.
  - rewrite Z.div_add, (Z.div_small (v / 256 mod 256)) by lia. by rewrite Z.add_0_l, Z.mod_mod by lia.
Qed.

Lemma htons_range v : 0 <= htons v < 65536.
Proof.
  unfold htons. pose proof (Z.mod_pos_bound v 256 ltac:(lia)). pose proof (Z.mod_pos_bound (v / 256) 256 ltac:(lia)). lia.
Qed.

Lemma htons_htons v : 0 <= v < 65536 -> htons (htons v) = v.
Proof.
  intros H. destruct (htons_bytes v) as [E1 E2]. unfold htons at 1. rewrite E1, E2.
  rewrite (Z.mod_small (v / 256)) by (split; [apply Z.div_pos; lia|apply Z.div_lt_upper_bound; lia]).
  symmetry. apply Z_div_mod_eq_full.
Qed.

(** * Bytes and C strings *)

(** A byte is an integer in [0, 256); a byte string is a list of them. *)
Definition is_byte (b : Z) : Prop := 0 <= b < 256.
Definition is_byteb (b : Z) : bool := (0 <=? b) && (b <? 256).
Abbreviation bytes := (list Z).

(** The bytes of a Rocq string literal. *)
Fixpoint str (s : string) : bytes :=
  match s with
  | EmptyString => []
  | String c s' => Z.of_N (Ascii.N_of_ascii c) :: str s'
  end.

Definition NUL : Z := 0.
Definition c_nl : Z := 10.
Definition c_cr : Z := 13.
Definition c_space : Z := 32.
Definition c_zero : Z := 48.
Definition c_colon : Z := 58.
Definition c_dot : Z := 46.
Definition c_minus : Z := 45.
Definition c_plus : Z := 43.
