(* ===== verification/CString.v ===== *)
(** The part of the C string library the sources use: NUL-terminated
    strings inside byte buffers, [strlen], [strchr], [strcmp], [atol],
    [isspace], [isdigit], and the decimal and hexadecimal conversions of
    [sprintf], with the round trips between printing and [atol]. *)
From Stdlib Require Import ZArith Lia.
From stdpp Require Import base list strings numbers.
From S2P Require Import Prelude.

(** The string a [char *] denotes: the bytes before the first NUL. *)
Fixpoint cstr (b : bytes) : bytes :=
  match b with
  | [] => []
  | c :: r => if c =? 0 then [] else c :: cstr r
  end.

Definition strlen (b : bytes) : Z := Z.of_nat (length (cstr b)).

(** [strcmp(a, b) == 0] *)
Definition streq (a b : bytes) : bool := bool_decide (cstr a = cstr b).

(** [strchr(b, c)] for a string without the terminator: the index of the
    first occurrence. *)
Fixpoint find_byte (c : Z) (b : bytes) : option nat :=
  match b with
  | [] => None
  | x :: r => if x =? c then Some O else S <$> find_byte c r
  end.
Definition strchr (c : Z) (b : bytes) : option nat := find_byte c (cstr b).

Definition isspace (c : Z) : bool := (c =? 32) || ((9 <=? c) && (c <=? 13)).
Definition isdigit (c : Z) : bool := (48 <=? c) && (c <=? 57).

Fixpoint skip_while (p : Z -> bool) (b : bytes) : bytes :=
  match b with
  | [] => []
  | c :: r => if p c then skip_while p r else b
  end.
Fixpoint take_while (p : Z -> bool) (b : bytes) : bytes :=
  match b with
  | [] => []
  | c :: r => if p c then c :: take_while p r else []
  end.

(** The value of a digit string after the prefix of value [acc]. *)
Fixpoint dval (acc : Z) (b : bytes) : Z :=
  match b with
  | [] => acc
  | d :: r => dval (acc * 10 + (d - 48)) r
  end.

Definition LONG_MAX : Z := 2 ^ 63 - 1.
Definition clamp64 (x : Z) : Z := Z.max (- 2 ^ 63) (Z.min LONG_MAX x).

(** [atol]: [strtol(s, NULL, 10)], which saturates. *)
Definition atol (b : bytes) : Z :=
  match skip_while isspace b with
  | c :: r =>
      if c =? c_minus then clamp64 (- dval 0 (take_while isdigit r))
      else if c =? c_plus then clamp64 (dval 0 (take_while isdigit r))
      else clamp64 (dval 0 (take_while isdigit (c :: r)))
  | [] => 0
  end.
(** [atoi]: [(int) strtol(s, NULL, 10)]. *)
Definition atoi (b : bytes) : Z := i32 (atol b).

(** The conversions of [sprintf]. *)
Fixpoint udec_aux (fuel : nat) (n : Z) (acc : bytes) : bytes :=
  match fuel with
  | O => acc
  | S f =>
      let acc' := (48 + n mod 10) :: acc in
      if n / 10 =? 0 then acc' else udec_aux f (n / 10) acc'
  end.
(** ["%u"] *)
Definition udec (n : Z) : bytes := udec_aux (S (Z.to_nat (Z.log2 n))) n [].
(** ["%d"] *)
Definition sdec (n : Z) : bytes := if n <? 0 then c_minus :: udec (- n) else udec n.
(** ["%*d"] with width [w] *)
Definition padl (w : nat) (b : bytes) : bytes := replicate (w - length b) c_space ++ b.

Section cstr_facts.
Implicit Types (b : bytes) (c : Z).

Lemma cstr_app_nul b r : Forall (fun c => c <> 0) b -> cstr (b ++ 0 :: r) = b.
Proof.
  induction 1 as [|c b Hc _ IH]; simpl; [done|].
  apply Z.eqb_neq in Hc. by rewrite Hc, IH.
Qed.

Lemma cstr_app a b : Forall (fun c => c <> 0) a -> cstr (a ++ b) = a ++ cstr b.
Proof.
  induction 1 as [|c a Hc _ IH]; simpl; [done|].
  apply Z.eqb_neq in Hc. by rewrite Hc, IH.
Qed.

Lemma cstr_id b : Forall (fun c => c <> 0) b -> cstr b = b.
Proof.
  induction 1 as [|c b Hc _ IH]; simpl; [done|].
  apply Z.eqb_neq in Hc. by rewrite Hc, IH.
Qed.

Lemma cstr_nonul b : Forall (fun c => c <> 0) (cstr b).
Proof.
  induction b as [|c b IH]; simpl; [done|].
  destruct (Z.eqb_spec c 0); [done|]. by constructor.
Qed.

Lemma cstr_length_le b : (length (cstr b) <= length b)%nat.
Proof. induction b as [|c b IH]; cbn [cstr length]; [lia|]. destruct (c =? 0); cbn [length]; lia. Qed.

Lemma find_byte_app c b r :
  Forall (fun x => x <> c) b -> find_byte c (b ++ c :: r) = Some (length b).
Proof.
  induction 1 as [|x b Hx _ IH]; simpl.
  - by rewrite Z.eqb_refl.
  - apply Z.eqb_neq in Hx. by rewrite Hx, IH.
Qed.

Lemma find_byte_None c b : Forall (fun x => x <> c) b -> find_byte c b = None.
Proof.
  induction 1 as [|x b Hx _ IH]; simpl; [done|].
  apply Z.eqb_neq in Hx. by rewrite Hx, IH.
Qed.

Lemma take_while_app_stop p b r :
  Forall (fun c => p c = true) b -> (forall c, head r = Some c -> p c = false) ->
  take_while p (b ++ r) = b.
Proof.
  induction 1 as [|c b Hc _ IH]; simpl; intros Hr.
  - destruct r as [|c r]; simpl; [done|]. by rewrite Hr.
  - by rewrite Hc, IH.
Qed.

Lemma skip_while_app_stop p b r :
  Forall (fun c => p c = true) b -> (forall c, head r = Some c -> p c = false) ->
  skip_while p (b ++ r) = r.
Proof.
  induction 1 as [|c b Hc _ IH]; simpl; intros Hr.
  - destruct r as [|c r]; simpl; [done|]. by rewrite Hr.
  - by rewrite Hc, IH.
Qed.
End cstr_facts.

(** ** Decimal printing *)
Section decimal.
Definition digits (b : bytes) : Prop := Forall (fun c => isdigit c = true) b.

Lemma isdigit_spec c : isdigit c = true <-> 48 <= c <= 57.
Proof. unfold isdigit. rewrite andb_true_iff, !Z.leb_le. done. Qed.

Lemma isdigit_not_space c : isdigit c = true -> isspace c = false.
Proof.
  rewrite isdigit_spec. intros. unfold isspace.
  apply orb_false_iff; split; [|apply andb_false_iff; right]; lia.
Qed.

Lemma dval_app a b acc : dval acc (a ++ b) = dval (dval acc a) b.
Proof. revert acc. induction a; simpl; auto. Qed.

Lemma udec_aux_spec fuel n acc :
  0 <= n -> (Z.to_nat (Z.log2 n) < fuel)%nat ->
  exists ds, udec_aux fuel n acc = ds ++ acc /\ ds <> [] /\ digits ds /\
    dval 0 ds = n.
Proof.
  revert n acc. induction fuel as [|f IH]; intros n acc Hn Hf; [lia|].
  cbn [udec_aux]. destruct (Z.eqb_spec (n / 10) 0) as [E|E].
  - exists [48 + n mod 10]. split; [done|]. split; [done|].
    pose proof (Z.mod_pos_bound n 10 ltac:(lia)).
    split; [repeat constructor; apply isdigit_spec; lia|].
    simpl. pose proof (Z.div_mod n 10 ltac:(lia)). lia.
  - assert (0 < n / 10) by (pose proof (Z.div_pos n 10 Hn ltac:(lia)); lia).
    assert (Z.log2 (n / 10) < Z.log2 n) as Hlog.
    { apply Z.log2_lt_pow2; [lia|].
      apply Z.lt_le_trans with (m := n / 2 + 0).
      - rewrite Z.add_0_r.
        assert (10 <= n) by (destruct (Z_lt_le_dec n 10); [|lia];
           rewrite Z.div_small in E; lia).
        apply Z.div_lt_upper_bound; [lia|].
        pose proof (Z.div_mod n 2 ltac:(lia)).
        pose proof (Z.mod_pos_bound n 2 ltac:(lia)). lia.
      - rewrite Z.add_0_r.
        assert (0 < n) by (destruct (Z.eq_dec n 0); [subst; done|lia]).
        pose proof (Z.log2_spec n ltac:(lia)) as [_ Hup].
        assert (1 <= Z.log2 n).
        { apply Z.log2_le_pow2; [lia|]. rewrite Z.pow_1_r.
          destruct (Z_lt_le_dec n 2); [|lia].
          rewrite Z.div_small in E; lia. }
        apply Z.lt_succ_r, Z.div_lt_upper_bound; [lia|].
        rewrite Z.pow_succ_r in Hup by lia. lia. }
    destruct (IH (n / 10) ((48 + n mod 10) :: acc)) as (ds & -> & Hne & Hd & Hv);
      [lia| |].
    { pose proof (Z.log2_nonneg (n / 10)). pose proof (Z.log2_nonneg n). lia. }
    exists (ds ++ [48 + n mod 10]). split; [by rewrite <-app_assoc|].
    split; [by destruct ds|].
    pose proof (Z.mod_pos_bound n 10 ltac:(lia)).
    split; [apply Forall_app; split; [done|]; repeat constructor; apply isdigit_spec; lia|].
    rewrite dval_app, Hv. cbn [dval].
    pose proof (Z.div_mod n 10 ltac:(lia)). lia.
Qed.

Lemma udec_spec n : 0 <= n ->
  udec n <> [] /\ digits (udec n) /\ dval 0 (udec n) = n.
Proof.
  intros Hn. unfold udec.
  destruct (udec_aux_spec (S (Z.to_nat (Z.log2 n))) n []) as (ds & -> & ?); [lia..|].
  by rewrite app_nil_r.
Qed.

Lemma udec_aux_length fuel n acc k :
  0 <= n < 10 ^ Z.of_nat (S k) ->
  (length (udec_aux fuel n acc) <= S k + length acc)%nat.
Proof.
  revert n acc k. induction fuel as [|f IH]; intros n acc k Hn; simpl; [lia|].
  destruct (Z.eqb_spec (n / 10) 0) as [E|E]; simpl; [lia|].
  destruct k as [|k].
  { change (10 ^ Z.of_nat 1) with 10 in Hn. rewrite Z.div_small in E; lia. }
  etransitivity; [apply (IH _ _ k)|simpl; lia].
  split; [apply Z.div_pos; lia|]. apply Z.div_lt_upper_bound; [lia|].
  rewrite <-Z.pow_succ_r by lia. rewrite <-Nat2Z.inj_succ. lia.
Qed.

Lemma udec_length n k : 0 <= n < 10 ^ Z.of_nat (S k) -> (length (udec n) <= S k)%nat.
Proof. intros. unfold udec. pose proof (udec_aux_length (S (Z.to_nat (Z.log2 n))) n [] k). simpl in *. lia. Qed.

Lemma padl_length w b : (length b <= w)%nat -> length (padl w b) = w.
Proof. intros. unfold padl. rewrite length_app, length_replicate. lia. Qed.

Lemma clamp64_small x : - 2 ^ 63 <= x <= LONG_MAX -> clamp64 x = x.
Proof. unfold clamp64. lia. Qed.

Lemma atol_digits b r :
  b <> [] -> digits b -> (forall c, head r = Some c -> isdigit c = false) ->
  atol (b ++ r) = clamp64 (dval 0 b).
Proof.
  intros Hne Hd Hr. destruct b as [|d b]; [done|].
  assert (isdigit d = true) as Hdig by (by inversion Hd).
  unfold atol. cbn [app skip_while].
  rewrite isdigit_not_space by done.
  apply isdigit_spec in Hdig as Hrange.
  destruct (Z.eqb_spec d c_minus); [unfold c_minus in *; lia|].
  destruct (Z.eqb_spec d c_plus); [unfold c_plus in *; lia|].
  change (d :: b ++ r) with ((d :: b) ++ r).
  by rewrite take_while_app_stop.
Qed.

Lemma atol_spaces k b : atol (replicate k c_space ++ b) = atol b.
Proof. induction k as [|k IH]; [done|]. exact IH. Qed.

(** Printing a non-negative number in a field of any width and reading it
    back with [atol] gives the number. *)
Lemma atol_padl w n r :
  0 <= n <= LONG_MAX -> (forall c, head r = Some c -> isdigit c = false) ->
  atol (padl w (udec n) ++ r) = n.
Proof.
  intros Hn Hr. unfold padl. rewrite <-app_assoc, atol_spaces.
  destruct (udec_spec n) as (Hne & Hd & Hv); [lia|].
  rewrite atol_digits, Hv by done. apply clamp64_small. unfold LONG_MAX in *. lia.
Qed.

Lemma digits_not c b : isdigit c = false -> digits b -> Forall (fun x => x <> c) b.
Proof.
  intros Hc Hb. eapply Forall_impl; [|exact Hb]. simpl. intros x Hx ->. congruence.
Qed.
End decimal.
