(* ===== verification/CFile.v ===== *)
(** Byte buffers updated in place, and the POSIX calls on a regular file
    ([lseek], [read], [write], [readv], [writev]) that [db.c] and the
    spooler use: a file is its contents and the offset of the descriptor. *)
From Stdlib Require Import ZArith Lia.
From stdpp Require Import base list strings numbers.
From S2P Require Import Prelude CString.

(** Overwriting [length bs] bytes at offset [off]; a write past the end
    leaves a hole of zeros, as a file does. *)
Definition splice (off : nat) (bs : bytes) (b : bytes) : bytes :=
  take off b ++ replicate (off - length b) 0 ++ bs ++ drop (off + length bs) b.

Definition slice (off n : nat) (b : bytes) : bytes := take n (drop off b).

Inductive whence := SEEK_SET | SEEK_CUR | SEEK_END.

Record file := mk_file { f_data : bytes; f_pos : nat }.

Definition f_size (f : file) : nat := length (f_data f).

(** [lseek]: the new offset, or [None] (-1 with [EINVAL]) when it would be
    negative. *)
Definition lseek (f : file) (off : Z) (w : whence) : option (Z * file) :=
  let p := match w with
           | SEEK_SET => off
           | SEEK_CUR => Z.of_nat (f_pos f) + off
           | SEEK_END => Z.of_nat (f_size f) + off
           end in
  if p <? 0 then None else Some (p, mk_file (f_data f) (Z.to_nat p)).

(** [read]: the bytes from the offset on, fewer than asked for only at the
    end of the file. *)
Definition fread (f : file) (n : nat) : bytes * file :=
  let bs := slice (f_pos f) n (f_data f) in
  (bs, mk_file (f_data f) (f_pos f + length bs)).

(** [write] (and [writev], with the concatenation of its parts). *)
Definition fwrite (f : file) (bs : bytes) : file :=
  match bs with
  | [] => f
  | _ => mk_file (splice (f_pos f) bs (f_data f)) (f_pos f + length bs)
  end.

Section splice_facts.
Implicit Types (b bs : bytes).

Lemma splice_length off bs b :
  (off + length bs <= length b)%nat -> length (splice off bs b) = length b.
Proof.
  intros. unfold splice.
  rewrite !length_app, length_take, length_replicate, length_drop. lia.
Qed.

(** Splicing inside a decomposed buffer replaces the middle part. *)
Lemma splice_mid pre old post bs :
  length old = length bs ->
  splice (length pre) bs (pre ++ old ++ post) = pre ++ bs ++ post.
Proof.
  intros H. unfold splice.
  rewrite take_app_length, length_app.
  replace (length pre - _)%nat with 0%nat by lia.
  rewrite <-H. cbn [replicate app].
  do 2 f_equal. rewrite app_assoc, drop_app_length'; [done|].
  rewrite length_app. lia.
Qed.

Lemma splice_end b bs : splice (length b) bs b = b ++ bs.
Proof.
  unfold splice. rewrite take_ge by lia.
  replace (length b - length b)%nat with 0%nat by lia.
  rewrite drop_ge by lia. cbn [replicate app]. by rewrite app_nil_r.
Qed.

Lemma slice_mid pre mid post :
  slice (length pre) (length mid) (pre ++ mid ++ post) = mid.
Proof. unfold slice. by rewrite drop_app_length, take_app_length. Qed.

Lemma fread_mid f pre mid post n :
  f_data f = pre ++ mid ++ post -> f_pos f = length pre -> n = length mid ->
  fread f n = (mid, mk_file (f_data f) (length pre + n)).
Proof. intros E P ->. unfold fread. rewrite P, E, slice_mid. done. Qed.

Lemma slice_nil_end off n b : (length b <= off)%nat -> slice off n b = [].
Proof. intros. unfold slice. rewrite drop_ge by lia. apply take_nil. Qed.

Lemma lseek_set f off : 0 <= off ->
  lseek f off SEEK_SET = Some (off, mk_file (f_data f) (Z.to_nat off)).
Proof. intros. unfold lseek. destruct (Z.ltb_spec off 0); [lia|done]. Qed.

Lemma lseek_end f : lseek f 0 SEEK_END =
  Some (Z.of_nat (f_size f), mk_file (f_data f) (f_size f)).
Proof.
  unfold lseek. rewrite Z.add_0_r.
  destruct (Z.ltb_spec (Z.of_nat (f_size f)) 0); [lia|]. by rewrite Nat2Z.id.
Qed.

Lemma lseek_cur f : lseek f 0 SEEK_CUR = Some (Z.of_nat (f_pos f), f).
Proof.
  unfold lseek. rewrite Z.add_0_r.
  destruct (Z.ltb_spec (Z.of_nat (f_pos f)) 0); [lia|]. rewrite Nat2Z.id.
  by destruct f.
Qed.
End splice_facts.

(** * Arrays of characters *)

(** [b\[i\] = c] *)
Definition poke (i : nat) (c : Z) : M bytes unit := fun b =>
  if (i <? length b)%nat then Ret tt (<[i := c]> b) else Undef "buf[]".

Lemma buf_poke_run i c b : (i < length b)%nat -> poke i c b = Ret tt (<[i := c]> b).
Proof. intros H. unfold poke. by rewrite (proj2 (Nat.ltb_lt _ _) H). Qed.

(** What [read] does with its argument, and what [write] does: an access that
    is not inside the buffer is undefined. *)
Definition store (i : nat) (l : bytes) : M bytes unit := fun b =>
  if (i + length l <=? length b)%nat then Ret tt (splice i l b) else Undef "buf[]".
Definition fetch (i n : nat) : M bytes bytes := fun b =>
  if (i + n <=? length b)%nat then Ret (slice i n b) b else Undef "buf[]".

Lemma store_run i l b : (i + length l <= length b)%nat -> store i l b = Ret tt (splice i l b).
Proof. intros H. unfold store. by rewrite (proj2 (Nat.leb_le _ _) H). Qed.

Lemma fetch_run i n b : (i + n <= length b)%nat -> fetch i n b = Ret (slice i n b) b.
Proof. intros H. unfold fetch. by rewrite (proj2 (Nat.leb_le _ _) H). Qed.

Lemma buf_splice_nil i b : (i <= length b)%nat -> splice i [] b = b.
Proof.
  intros H. unfold splice. cbn [length app]. rewrite Nat.add_0_r. replace (i - length b)%nat with 0%nat by lia. apply take_drop.
Qed.

Lemma splice_insert i c l b : (i < length b)%nat -> splice (S i) l (<[i := c]> b) = splice i (c :: l) b.
Proof.
  intros H. unfold splice. rewrite length_insert. replace (S i - length b)%nat with 0%nat by lia. replace (i - length b)%nat with 0%nat by lia.
  cbn [replicate app length]. assert (E : take (S i) (<[i := c]> b) = take i b ++ [c]).
  { rewrite (take_S_r _ _ c) by by apply list_lookup_insert_eq. by rewrite take_insert_ge. }
  rewrite E, <-app_assoc. cbn [app]. do 3 f_equal. rewrite drop_insert_lt by lia. f_equal. lia.
Qed.

Lemma splice_all l b : length l = length b -> splice 0 l b = l.
Proof. intros H. unfold splice. cbn [take Nat.sub replicate app]. rewrite drop_ge by lia. apply app_nil_r. Qed.

(** Data read to the start of a buffer. *)
Lemma splice_front (d b : bytes) : splice 0 d b = d ++ drop (length d) b.
Proof. done. Qed.

(** * Numbers in memory *)

(** The bytes of an unsigned number, the low one first, and their value. *)
Fixpoint int_bytes (n : nat) (v : Z) : bytes := match n with O => [] | S n => v mod 256 :: int_bytes n (v / 256) end.
Fixpoint bytes_int (l : bytes) : Z := match l with [] => 0 | b :: l => b + 256 * bytes_int l end.

Lemma int_bytes_length n v : length (int_bytes n v) = n.
Proof. revert v. induction n as [|n IH]; intros v; [done|]. cbn [int_bytes length]. by rewrite IH. Qed.

Lemma int_bytes_byte n v : Forall is_byte (int_bytes n v).
Proof.
  revert v. induction n as [|n IH]; intros v; cbn [int_bytes]; constructor; [|apply IH].
  unfold is_byte. pose proof (Z.mod_pos_bound v 256 ltac:(lia)). lia.
Qed.

Lemma bytes_int_bytes n v : bytes_int (int_bytes n v) = v mod 2 ^ (8 * Z.of_nat n).
Proof.
  revert v. induction n as [|n IH]; intros v; [by rewrite Z.mod_1_r|]. cbn [int_bytes bytes_int]. rewrite IH.
  replace (8 * Z.of_nat (S n)) with (8 + 8 * Z.of_nat n) by lia. rewrite Z.pow_add_r by lia. change (2 ^ 8) with 256.
  rewrite Z.rem_mul_r; lia.
Qed.
