(* ===== verification/Db.v ===== *)
(** The key-value database of [db.c]: an index file with a hash table of
    chains and a free list, a data file, and the handle [DB] with the
    operations on it.  Every file access goes through the byte-level calls
    of [CFile]; pointers and lengths are stored in the index file as ASCII
    decimals, exactly as the source prints and parses them. *)
From Stdlib Require Import ZArith Lia.
From stdpp Require Import base list strings gmap numbers.
From S2P Require Import Prelude CString CFile.
Local Open Scope c_scope.

(** * Constants of [db.c] and [apue_db.h] *)
Definition IDXLEN_SZ : nat := 4.
Definition SEP : Z := 58.
Definition SPACE : Z := 32.
Definition NEWLINE : Z := 10.
Definition PTR_SZ : nat := 7.
Definition PTR_MAX : Z := 9999999.
Definition NHASH_DEF : Z := 137.
Definition FREE_OFF : Z := 0.
Definition HASH_OFF : Z := Z.of_nat PTR_SZ.
Definition IDXLEN_MIN : Z := 6.
Definition IDXLEN_MAX : Z := 1024.
Definition DATLEN_MIN : Z := 2.
Definition DATLEN_MAX : Z := 1024.
Definition DB_INSERT : Z := 1.
Definition DB_REPLACE : Z := 2.
Definition DB_STORE : Z := 3.
Definition EINVAL : Z := 22.
Definition ENOENT : Z := 2.

(** Record locks: the calls [readw_lock], [writew_lock] and [un_lock] the
    handle has made, latest first. *)
Inductive lock_type := RDLCK | WRLCK | UNLCK.
Inductive which_fd := IdxFd | DatFd.
Record lock_ev := mk_lock { l_type : lock_type; l_fd : which_fd; l_off : Z; l_len : Z }.

(** * The handle *)

(** [DB]: the two descriptors with their files, the two buffers, the fields
    of the record last located and the counters; [errno] and the calls to
    [lock_reg] are the process state the functions touch besides. *)
Record DB := mk_DB {
  idxfd : file;
  datfd : file;
  idxbuf : bytes;
  datbuf : bytes;
  name : bytes;
  idxoff : Z;
  idxlen : Z;
  datoff : Z;
  datlen : Z;
  ptrval : Z;
  ptroff : Z;
  chainoff : Z;
  hashoff : Z;
  nhash : Z;
  cnt_delok : Z;
  cnt_delerr : Z;
  cnt_fetchok : Z;
  cnt_fetcherr : Z;
  cnt_nextrec : Z;
  cnt_stor1 : Z;
  cnt_stor2 : Z;
  cnt_stor3 : Z;
  cnt_stor4 : Z;
  cnt_storerr : Z;
  errno : Z;
  locks : list lock_ev
}.

Definition set_idxfd (v : file) (d : DB) : DB :=
  mk_DB v (datfd d) (idxbuf d) (datbuf d) (name d) (idxoff d) (idxlen d) (datoff d) (datlen d) (ptrval d) (ptroff d) (chainoff d) (hashoff d) (nhash d) (cnt_delok d) (cnt_delerr d) (cnt_fetchok d) (cnt_fetcherr d) (cnt_nextrec d) (cnt_stor1 d) (cnt_stor2 d) (cnt_stor3 d) (cnt_stor4 d) (cnt_storerr d) (errno d) (locks d).
Definition set_datfd (v : file) (d : DB) : DB :=
  mk_DB (idxfd d) v (idxbuf d) (datbuf d) (name d) (idxoff d) (idxlen d) (datoff d) (datlen d) (ptrval d) (ptroff d) (chainoff d) (hashoff d) (nhash d) (cnt_delok d) (cnt_delerr d) (cnt_fetchok d) (cnt_fetcherr d) (cnt_nextrec d) (cnt_stor1 d) (cnt_stor2 d) (cnt_stor3 d) (cnt_stor4 d) (cnt_storerr d) (errno d) (locks d).
Definition set_idxbuf (v : bytes) (d : DB) : DB :=
  mk_DB (idxfd d) (datfd d) v (datbuf d) (name d) (idxoff d) (idxlen d) (datoff d) (datlen d) (ptrval d) (ptroff d) (chainoff d) (hashoff d) (nhash d) (cnt_delok d) (cnt_delerr d) (cnt_fetchok d) (cnt_fetcherr d) (cnt_nextrec d) (cnt_stor1 d) (cnt_stor2 d) (cnt_stor3 d) (cnt_stor4 d) (cnt_storerr d) (errno d) (locks d).
Definition set_datbuf (v : bytes) (d : DB) : DB :=
  mk_DB (idxfd d) (datfd d) (idxbuf d) v (name d) (idxoff d) (idxlen d) (datoff d) (datlen d) (ptrval d) (ptroff d) (chainoff d) (hashoff d) (nhash d) (cnt_delok d) (cnt_delerr d) (cnt_fetchok d) (cnt_fetcherr d) (cnt_nextrec d) (cnt_stor1 d) (cnt_stor2 d) (cnt_stor3 d) (cnt_stor4 d) (cnt_storerr d) (errno d) (locks d).
Definition set_idxoff (v : Z) (d : DB) : DB :=
  mk_DB (idxfd d) (datfd d) (idxbuf d) (datbuf d) (name d) v (idxlen d) (datoff d) (datlen d) (ptrval d) (ptroff d) (chainoff d) (hashoff d) (nhash d) (cnt_delok d) (cnt_delerr d) (cnt_fetchok d) (cnt_fetcherr d) (cnt_nextrec d) (cnt_stor1 d) (cnt_stor2 d) (cnt_stor3 d) (cnt_stor4 d) (cnt_storerr d) (errno d) (locks d).
Definition set_idxlen (v : Z) (d : DB) : DB :=
  mk_DB (idxfd d) (datfd d) (idxbuf d) (datbuf d) (name d) (idxoff d) v (datoff d) (datlen d) (ptrval d) (ptroff d) (chainoff d) (hashoff d) (nhash d) (cnt_delok d) (cnt_delerr d) (cnt_fetchok d) (cnt_fetcherr d) (cnt_nextrec d) (cnt_stor1 d) (cnt_stor2 d) (cnt_stor3 d) (cnt_stor4 d) (cnt_storerr d) (errno d) (locks d).
Definition set_datoff (v : Z) (d : DB) : DB :=
  mk_DB (idxfd d) (datfd d) (idxbuf d) (datbuf d) (name d) (idxoff d) (idxlen d) v (datlen d) (ptrval d) (ptroff d) (chainoff d) (hashoff d) (nhash d) (cnt_delok d) (cnt_delerr d) (cnt_fetchok d) (cnt_fetcherr d) (cnt_nextrec d) (cnt_stor1 d) (cnt_stor2 d) (cnt_stor3 d) (cnt_stor4 d) (cnt_storerr d) (errno d) (locks d).
Definition set_datlen (v : Z) (d : DB) : DB :=
  mk_DB (idxfd d) (datfd d) (idxbuf d) (datbuf d) (name d) (idxoff d) (idxlen d) (datoff d) v (ptrval d) (ptroff d) (chainoff d) (hashoff d) (nhash d) (cnt_delok d) (cnt_delerr d) (cnt_fetchok d) (cnt_fetcherr d) (cnt_nextrec d) (cnt_stor1 d) (cnt_stor2 d) (cnt_stor3 d) (cnt_stor4 d) (cnt_storerr d) (errno d) (locks d).
Definition set_ptrval (v : Z) (d : DB) : DB :=
  mk_DB (idxfd d) (datfd d) (idxbuf d) (datbuf d) (name d) (idxoff d) (idxlen d) (datoff d) (datlen d) v (ptroff d) (chainoff d) (hashoff d) (nhash d) (cnt_delok d) (cnt_delerr d) (cnt_fetchok d) (cnt_fetcherr d) (cnt_nextrec d) (cnt_stor1 d) (cnt_stor2 d) (cnt_stor3 d) (cnt_stor4 d) (cnt_storerr d) (errno d) (locks d).
Definition set_ptroff (v : Z) (d : DB) : DB :=
  mk_DB (idxfd d) (datfd d) (idxbuf d) (datbuf d) (name d) (idxoff d) (idxlen d) (datoff d) (datlen d) (ptrval d) v (chainoff d) (hashoff d) (nhash d) (cnt_delok d) (cnt_delerr d) (cnt_fetchok d) (cnt_fetcherr d) (cnt_nextrec d) (cnt_stor1 d) (cnt_stor2 d) (cnt_stor3 d) (cnt_stor4 d) (cnt_storerr d) (errno d) (locks d).
Definition set_chainoff (v : Z) (d : DB) : DB :=
  mk_DB (idxfd d) (datfd d) (idxbuf d) (datbuf d) (name d) (idxoff d) (idxlen d) (datoff d) (datlen d) (ptrval d) (ptroff d) v (hashoff d) (nhash d) (cnt_delok d) (cnt_delerr d) (cnt_fetchok d) (cnt_fetcherr d) (cnt_nextrec d) (cnt_stor1 d) (cnt_stor2 d) (cnt_stor3 d) (cnt_stor4 d) (cnt_storerr d) (errno d) (locks d).
Definition set_hashoff (v : Z) (d : DB) : DB :=
  mk_DB (idxfd d) (datfd d) (idxbuf d) (datbuf d) (name d) (idxoff d) (idxlen d) (datoff d) (datlen d) (ptrval d) (ptroff d) (chainoff d) v (nhash d) (cnt_delok d) (cnt_delerr d) (cnt_fetchok d) (cnt_fetcherr d) (cnt_nextrec d) (cnt_stor1 d) (cnt_stor2 d) (cnt_stor3 d) (cnt_stor4 d) (cnt_storerr d) (errno d) (locks d).
Definition set_nhash (v : Z) (d : DB) : DB :=
  mk_DB (idxfd d) (datfd d) (idxbuf d) (datbuf d) (name d) (idxoff d) (idxlen d) (datoff d) (datlen d) (ptrval d) (ptroff d) (chainoff d) (hashoff d) v (cnt_delok d) (cnt_delerr d) (cnt_fetchok d) (cnt_fetcherr d) (cnt_nextrec d) (cnt_stor1 d) (cnt_stor2 d) (cnt_stor3 d) (cnt_stor4 d) (cnt_storerr d) (errno d) (locks d).
Definition set_cnt_delok (v : Z) (d : DB) : DB :=
  mk_DB (idxfd d) (datfd d) (idxbuf d) (datbuf d) (name d) (idxoff d) (idxlen d) (datoff d) (datlen d) (ptrval d) (ptroff d) (chainoff d) (hashoff d) (nhash d) v (cnt_delerr d) (cnt_fetchok d) (cnt_fetcherr d) (cnt_nextrec d) (cnt_stor1 d) (cnt_stor2 d) (cnt_stor3 d) (cnt_stor4 d) (cnt_storerr d) (errno d) (locks d).
Definition set_cnt_delerr (v : Z) (d : DB) : DB :=
  mk_DB (idxfd d) (datfd d) (idxbuf d) (datbuf d) (name d) (idxoff d) (idxlen d) (datoff d) (datlen d) (ptrval d) (ptroff d) (chainoff d) (hashoff d) (nhash d) (cnt_delok d) v (cnt_fetchok d) (cnt_fetcherr d) (cnt_nextrec d) (cnt_stor1 d) (cnt_stor2 d) (cnt_stor3 d) (cnt_stor4 d) (cnt_storerr d) (errno d) (locks d).
Definition set_cnt_fetchok (v : Z) (d : DB) : DB :=
  mk_DB (idxfd d) (datfd d) (idxbuf d) (datbuf d) (name d) (idxoff d) (idxlen d) (datoff d) (datlen d) (ptrval d) (ptroff d) (chainoff d) (hashoff d) (nhash d) (cnt_delok d) (cnt_delerr d) v (cnt_fetcherr d) (cnt_nextrec d) (cnt_stor1 d) (cnt_stor2 d) (cnt_stor3 d) (cnt_stor4 d) (cnt_storerr d) (errno d) (locks d).
Definition set_cnt_fetcherr (v : Z) (d : DB) : DB :=
  mk_DB (idxfd d) (datfd d) (idxbuf d) (datbuf d) (name d) (idxoff d) (idxlen d) (datoff d) (datlen d) (ptrval d) (ptroff d) (chainoff d) (hashoff d) (nhash d) (cnt_delok d) (cnt_delerr d) (cnt_fetchok d) v (cnt_nextrec d) (cnt_stor1 d) (cnt_stor2 d) (cnt_stor3 d) (cnt_stor4 d) (cnt_storerr d) (errno d) (locks d).
Definition set_cnt_nextrec (v : Z) (d : DB) : DB :=
  mk_DB (idxfd d) (datfd d) (idxbuf d) (datbuf d) (name d) (idxoff d) (idxlen d) (datoff d) (datlen d) (ptrval d) (ptroff d) (chainoff d) (hashoff d) (nhash d) (cnt_delok d) (cnt_delerr d) (cnt_fetchok d) (cnt_fetcherr d) v (cnt_stor1 d) (cnt_stor2 d) (cnt_stor3 d) (cnt_stor4 d) (cnt_storerr d) (errno d) (locks d).
Definition set_cnt_stor1 (v : Z) (d : DB) : DB :=
  mk_DB (idxfd d) (datfd d) (idxbuf d) (datbuf d) (name d) (idxoff d) (idxlen d) (datoff d) (datlen d) (ptrval d) (ptroff d) (chainoff d) (hashoff d) (nhash d) (cnt_delok d) (cnt_delerr d) (cnt_fetchok d) (cnt_fetcherr d) (cnt_nextrec d) v (cnt_stor2 d) (cnt_stor3 d) (cnt_stor4 d) (cnt_storerr d) (errno d) (locks d).
Definition set_cnt_stor2 (v : Z) (d : DB) : DB :=
  mk_DB (idxfd d) (datfd d) (idxbuf d) (datbuf d) (name d) (idxoff d) (idxlen d) (datoff d) (datlen d) (ptrval d) (ptroff d) (chainoff d) (hashoff d) (nhash d) (cnt_delok d) (cnt_delerr d) (cnt_fetchok d) (cnt_fetcherr d) (cnt_nextrec d) (cnt_stor1 d) v (cnt_stor3 d) (cnt_stor4 d) (cnt_storerr d) (errno d) (locks d).
Definition set_cnt_stor3 (v : Z) (d : DB) : DB :=
  mk_DB (idxfd d) (datfd d) (idxbuf d) (datbuf d) (name d) (idxoff d) (idxlen d) (datoff d) (datlen d) (ptrval d) (ptroff d) (chainoff d) (hashoff d) (nhash d) (cnt_delok d) (cnt_delerr d) (cnt_fetchok d) (cnt_fetcherr d) (cnt_nextrec d) (cnt_stor1 d) (cnt_stor2 d) v (cnt_stor4 d) (cnt_storerr d) (errno d) (locks d).
Definition set_cnt_stor4 (v : Z) (d : DB) : DB :=
  mk_DB (idxfd d) (datfd d) (idxbuf d) (datbuf d) (name d) (idxoff d) (idxlen d) (datoff d) (datlen d) (ptrval d) (ptroff d) (chainoff d) (hashoff d) (nhash d) (cnt_delok d) (cnt_delerr d) (cnt_fetchok d) (cnt_fetcherr d) (cnt_nextrec d) (cnt_stor1 d) (cnt_stor2 d) (cnt_stor3 d) v (cnt_storerr d) (errno d) (locks d).
Definition set_cnt_storerr (v : Z) (d : DB) : DB :=
  mk_DB (idxfd d) (datfd d) (idxbuf d) (datbuf d) (name d) (idxoff d) (idxlen d) (datoff d) (datlen d) (ptrval d) (ptroff d) (chainoff d) (hashoff d) (nhash d) (cnt_delok d) (cnt_delerr d) (cnt_fetchok d) (cnt_fetcherr d) (cnt_nextrec d) (cnt_stor1 d) (cnt_stor2 d) (cnt_stor3 d) (cnt_stor4 d) v (errno d) (locks d).
Definition set_errno (v : Z) (d : DB) : DB :=
  mk_DB (idxfd d) (datfd d) (idxbuf d) (datbuf d) (name d) (idxoff d) (idxlen d) (datoff d) (datlen d) (ptrval d) (ptroff d) (chainoff d) (hashoff d) (nhash d) (cnt_delok d) (cnt_delerr d) (cnt_fetchok d) (cnt_fetcherr d) (cnt_nextrec d) (cnt_stor1 d) (cnt_stor2 d) (cnt_stor3 d) (cnt_stor4 d) (cnt_storerr d) v (locks d).
Definition set_locks (v : list lock_ev) (d : DB) : DB :=
  mk_DB (idxfd d) (datfd d) (idxbuf d) (datbuf d) (name d) (idxoff d) (idxlen d) (datoff d) (datlen d) (ptrval d) (ptroff d) (chainoff d) (hashoff d) (nhash d) (cnt_delok d) (cnt_delerr d) (cnt_fetchok d) (cnt_fetcherr d) (cnt_nextrec d) (cnt_stor1 d) (cnt_stor2 d) (cnt_stor3 d) (cnt_stor4 d) (cnt_storerr d) (errno d) v.

Definition lock_reg (t : lock_type) (w : which_fd) (off len : Z) : M DB unit :=
  modify (fun d => set_locks (mk_lock t w off len :: locks d) d).
Definition readw_lock := lock_reg RDLCK.
Definition writew_lock := lock_reg WRLCK.
Definition un_lock := lock_reg UNLCK.

(** * Reading *)

(** [hval += c * i] for the bytes of the key, [char] being signed; the
    accumulator is an [unsigned long]. *)
Fixpoint hash_loop (hval i : Z) (key : bytes) : Z :=
  match key with
  | [] => hval
  | c :: r => hash_loop (u64 (hval + u64 (i8 c * i))) (i + 1) r
  end.
Definition _db_hash (d : DB) (key : bytes) : Z := hash_loop 0 1 key mod nhash d.

Definition _db_readptr (offset : Z) : M DB Z :=
  let* f := gets idxfd in
  match lseek f offset SEEK_SET with
  | None => die "_db_readptr: lseek error to ptr field"
  | Some (_, f1) =>
      let '(asciiptr, f2) := fread f1 PTR_SZ in
      modify (set_idxfd f2) ;;;
      die_if (negb (length asciiptr =? PTR_SZ)%nat) "_db_readptr: read error of ptr field" ;;;
      ret (atol (cstr asciiptr))
  end.

(** The separators of the record in [idxbuf]: the buffer with both replaced
    by NUL and the positions of the two fields after the key. *)
Definition split_idx : M DB (nat * nat) :=
  let* b := gets idxbuf in
  match strchr SEP b with
  | None => die "_db_readidx: missing first separator"
  | Some i1 =>
      let b1 := <[i1 := 0]> b in
      let ptr1 := S i1 in
      modify (set_idxbuf b1) ;;;
      match strchr SEP (drop ptr1 b1) with
      | None => die "_db_readidx: missing second separator"
      | Some i2 =>
          let b2 := <[(ptr1 + i2)%nat := 0]> b1 in
          let ptr2 := S (ptr1 + i2) in
          modify (set_idxbuf b2) ;;;
          match strchr SEP (drop ptr2 b2) with
          | Some _ => die "_db_readidx: too many separators"
          | None => ret (ptr1, ptr2)
          end
      end
  end.

Definition _db_readidx (offset : Z) : M DB Z :=
  let* f := gets idxfd in
  match lseek f offset (if offset =? 0 then SEEK_CUR else SEEK_SET) with
  | None => die "_db_readidx: lseek error"
  | Some (off, f1) =>
      modify (set_idxoff off) ;;;
      let '(hdr, f2) := fread f1 (PTR_SZ + IDXLEN_SZ) in
      modify (set_idxfd f2) ;;;
      if negb (length hdr =? PTR_SZ + IDXLEN_SZ)%nat then
        if (length hdr =? 0)%nat && (offset =? 0) then ret (-1)
        else die "_db_readidx: readv error of index record"
      else
        modify (set_ptrval (atol (cstr (take PTR_SZ hdr)))) ;;;
        modify (set_idxlen (u64 (atoi (cstr (drop PTR_SZ hdr))))) ;;;
        let* len := gets idxlen in
        die_if ((len <? IDXLEN_MIN) || (len >? IDXLEN_MAX)) "_db_readidx: invalid length" ;;;
        let '(rec, f3) := fread f2 (Z.to_nat len) in
        modify (set_idxfd f3) ;;;
        modify (fun d => set_idxbuf (splice 0 rec (idxbuf d)) d) ;;;
        die_if (negb (Z.of_nat (length rec) =? len)) "_db_readidx: read error of index record" ;;;
        let* b := gets idxbuf in
        die_if (negb (default 0 (b !! Z.to_nat (len - 1)) =? NEWLINE)) "_db_readidx: missing newline" ;;;
        modify (set_idxbuf (<[Z.to_nat (len - 1) := 0]> b)) ;;;
        let* p := split_idx in
        let* b := gets idxbuf in
        modify (set_datoff (atol (cstr (drop p.1 b)))) ;;;
        let* o := gets datoff in
        die_if (o <? 0) "_db_readidx: starting offset < 0" ;;;
        modify (set_datlen (u64 (atol (cstr (drop p.2 b))))) ;;;
        let* l := gets datlen in
        die_if ((l =? 0) || (l >? DATLEN_MAX)) "_db_readidx: invalid length" ;;;
        gets ptrval
  end.

Definition _db_readdat : M DB bytes :=
  let* f := gets datfd in
  let* off := gets datoff in
  let* len := gets datlen in
  match lseek f off SEEK_SET with
  | None => die "_db_readdat: lseek error"
  | Some (_, f1) =>
      let '(rec, f2) := fread f1 (Z.to_nat len) in
      modify (set_datfd f2) ;;;
      modify (fun d => set_datbuf (splice 0 rec (datbuf d)) d) ;;;
      die_if (negb (Z.of_nat (length rec) =? len)) "_db_readdat: read error" ;;;
      let* b := gets datbuf in
      die_if (negb (default 0 (b !! Z.to_nat (len - 1)) =? NEWLINE)) "_db_readdat: missing newline" ;;;
      modify (set_datbuf (<[Z.to_nat (len - 1) := 0]> b)) ;;;
      gets (fun d => cstr (datbuf d))
  end.

(** The loop of [_db_find_and_lock] from the record at [offset]. *)
Fixpoint find_loop (fuel : nat) (key : bytes) (offset : Z) : M DB Z :=
  if offset =? 0 then ret 0
  else match fuel with
  | O => nofuel
  | S f =>
      let* nextoffset := _db_readidx offset in
      let* b := gets idxbuf in
      if streq b key then ret offset
      else modify (set_ptroff offset) ;;; find_loop f key nextoffset
  end.

(** A chain of the index file cannot have more records than the file has
    bytes without repeating one, and then the loop would never end. *)
Definition chain_fuel (d : DB) : nat := f_size (idxfd d).

Definition _db_find_and_lock (key : bytes) (writelock : bool) : M DB Z :=
  modify (fun d => set_chainoff (_db_hash d key * Z.of_nat PTR_SZ + hashoff d) d) ;;;
  modify (fun d => set_ptroff (chainoff d) d) ;;;
  let* co := gets chainoff in
  (if writelock then writew_lock IdxFd co 1 else readw_lock IdxFd co 1) ;;;
  let* po := gets ptroff in
  let* offset := _db_readptr po in
  let* fuel := gets chain_fuel in
  let* offset := find_loop fuel key offset in
  ret (if offset =? 0 then -1 else 0).

Definition db_fetch (key : bytes) : M DB (option bytes) :=
  let* rc := _db_find_and_lock key false in
  let* ptr :=
    (if rc <? 0 then
       modify (fun d => set_cnt_fetcherr (u64 (cnt_fetcherr d + 1)) d) ;;; ret None
     else
       let* p := _db_readdat in
       modify (fun d => set_cnt_fetchok (u64 (cnt_fetchok d + 1)) d) ;;; ret (Some p)) in
  let* co := gets chainoff in
  un_lock IdxFd co 1 ;;;
  ret ptr.

(** * Writing *)

Definition _db_writedat (data : bytes) (offset : Z) (w : whence) : M DB unit :=
  let append := match w with SEEK_END => true | _ => false end in
  (if append then writew_lock DatFd 0 0 else skip) ;;;
  let* f := gets datfd in
  match lseek f offset w with
  | None => die "_db_writedat: lseek error"
  | Some (off, f1) =>
      modify (set_datoff off) ;;;
      modify (set_datlen (Z.of_nat (length data) + 1)) ;;;
      modify (set_datfd (fwrite f1 (data ++ [NEWLINE]))) ;;;
      (if append then un_lock DatFd 0 0 else skip)
  end.

(** [sprintf] that copies a string onto itself is undefined (C11 7.21.6.6), and
    the deletion of a record does so.  Whether the C library of the system
    extends the string in place nevertheless is an argument of the model. *)
Class Libc := { sprintf_in_place : bool }.
Class InPlace (L : Libc) : Prop := in_place : sprintf_in_place = true.

(** The key given to [_db_writeidx]: a string of the caller, or [db->idxbuf],
    into which the record is printed. *)
Inductive key_arg := Caller (key : bytes) | In_idxbuf.
Definition key_text (key : key_arg) (d : DB) : bytes :=
  match key with Caller k => k | In_idxbuf => cstr (idxbuf d) end.
Definition overlaps (key : key_arg) : bool := match key with Caller _ => false | In_idxbuf => true end.

(** The text of an index record after its two fixed-width fields. *)
Definition idx_text (key : bytes) (off len : Z) : bytes :=
  key ++ [SEP] ++ sdec off ++ [SEP] ++ sdec len ++ [NEWLINE].

Definition _db_writeidx {L : Libc} (key : key_arg) (offset : Z) (w : whence) (ptr : Z) : M DB unit :=
  modify (set_ptrval ptr) ;;;
  die_if ((ptr <? 0) || (ptr >? PTR_MAX)) "_db_writeidx: invalid ptr" ;;;
  (if overlaps key && negb sprintf_in_place then undef "sprintf of idxbuf into itself" else skip) ;;;
  let* rec := gets (fun d => idx_text (key_text key d) (datoff d) (datlen d)) in
  let* b := gets idxbuf in
  if (length b <? length rec + 1)%nat then undef "sprintf past the end of idxbuf"
  else
    modify (set_idxbuf (splice 0 (rec ++ [0]) b)) ;;;
    let* len := gets (fun d => strlen (idxbuf d)) in
    die_if ((len <? IDXLEN_MIN) || (len >? IDXLEN_MAX)) "_db_writeidx: invalid length" ;;;
    let asciiptrlen := padl PTR_SZ (sdec ptr) ++ padl IDXLEN_SZ (sdec len) in
    let append := match w with SEEK_END => true | _ => false end in
    let* nh := gets nhash in
    let start := (nh + 1) * Z.of_nat PTR_SZ + 1 in
    (if append then writew_lock IdxFd start 0 else skip) ;;;
    let* f := gets idxfd in
    match lseek f offset w with
    | None => die "_db_writeidx: lseek error"
    | Some (off, f1) =>
        modify (set_idxoff off) ;;;
        let* b := gets idxbuf in
        modify (set_idxfd (fwrite f1 (take (PTR_SZ + IDXLEN_SZ) asciiptrlen
                                        ++ take (Z.to_nat len) b))) ;;;
        (if append then un_lock IdxFd start 0 else skip)
    end.

Definition _db_writeptr (offset ptr : Z) : M DB unit :=
  die_if ((ptr <? 0) || (ptr >? PTR_MAX)) "_db_writeptr: invalid ptr" ;;;
  let* f := gets idxfd in
  match lseek f offset SEEK_SET with
  | None => die "_db_writeptr: lseek error to ptr field"
  | Some (_, f1) =>
      modify (set_idxfd (fwrite f1 (take PTR_SZ (padl PTR_SZ (sdec ptr)))))
  end.

Definition _db_dodelete {L : Libc} : M DB unit :=
  modify (fun d => let n := Z.to_nat (datlen d - 1) in
                   set_datbuf (splice 0 (replicate n SPACE ++ [0]) (datbuf d)) d) ;;;
  modify (fun d => let n := length (cstr (idxbuf d)) in
                   set_idxbuf (splice 0 (replicate n SPACE) (idxbuf d)) d) ;;;
  writew_lock IdxFd FREE_OFF 1 ;;;
  let* data := gets (fun d => cstr (datbuf d)) in
  let* o := gets datoff in
  _db_writedat data o SEEK_SET ;;;
  let* freeptr := _db_readptr FREE_OFF in
  let* saveptr := gets ptrval in
  let* io := gets idxoff in
  _db_writeidx In_idxbuf io SEEK_SET freeptr ;;;
  let* io := gets idxoff in
  _db_writeptr FREE_OFF io ;;;
  let* po := gets ptroff in
  _db_writeptr po saveptr ;;;
  un_lock IdxFd FREE_OFF 1.

Definition db_delete {L : Libc} (key : bytes) : M DB Z :=
  let* r := _db_find_and_lock key true in
  let* rc :=
    (if r =? 0 then
       _db_dodelete ;;;
       modify (fun d => set_cnt_delok (u64 (cnt_delok d + 1)) d) ;;; ret 0
     else
       modify (fun d => set_cnt_delerr (u64 (cnt_delerr d + 1)) d) ;;; ret (-1)) in
  let* co := gets chainoff in
  un_lock IdxFd co 1 ;;;
  ret rc.

(** The loop of [_db_findfree]: the offset found (0 when none fits) and the
    offset of the chain pointer that points to it. *)
Fixpoint findfree_loop (fuel : nat) (keylen dlen : Z) (saveoffset offset : Z) : M DB (Z * Z) :=
  if offset =? 0 then ret (0, saveoffset)
  else match fuel with
  | O => nofuel
  | S f =>
      let* nextoffset := _db_readidx offset in
      let* d := gets (fun d => (strlen (idxbuf d) =? keylen) && (datlen d =? dlen)) in
      if d : bool then ret (offset, saveoffset)
      else findfree_loop f keylen dlen offset nextoffset
  end.

Definition _db_findfree (keylen dlen : Z) : M DB Z :=
  writew_lock IdxFd FREE_OFF 1 ;;;
  let* offset := _db_readptr FREE_OFF in
  let* fuel := gets chain_fuel in
  let* r := findfree_loop fuel keylen dlen FREE_OFF offset in
  let* rc :=
    (if r.1 =? 0 then ret (-1)
     else
       let* p := gets ptrval in
       _db_writeptr r.2 p ;;; ret 0) in
  un_lock IdxFd FREE_OFF 1 ;;;
  ret rc.

(** The branch of [db_store] for a key that is not in its chain. *)
Definition store_new {L : Libc} (key data : bytes) (keylen dlen : Z) : M DB unit :=
  let* co := gets chainoff in
  let* ptr := _db_readptr co in
  let* r := _db_findfree keylen dlen in
  if r <? 0 then
    _db_writedat data 0 SEEK_END ;;;
    _db_writeidx (Caller key) 0 SEEK_END ptr ;;;
    let* co := gets chainoff in
    let* io := gets idxoff in
    _db_writeptr co io ;;;
    modify (fun d => set_cnt_stor1 (u64 (cnt_stor1 d + 1)) d)
  else
    let* o := gets datoff in
    _db_writedat data o SEEK_SET ;;;
    let* io := gets idxoff in
    _db_writeidx (Caller key) io SEEK_SET ptr ;;;
    let* co := gets chainoff in
    let* io := gets idxoff in
    _db_writeptr co io ;;;
    modify (fun d => set_cnt_stor2 (u64 (cnt_stor2 d + 1)) d).

(** The branch of [db_store] that replaces the record found. *)
Definition store_replace {L : Libc} (key data : bytes) (dlen : Z) : M DB unit :=
  let* old := gets datlen in
  if negb (dlen =? old) then
    _db_dodelete ;;;
    let* co := gets chainoff in
    let* ptr := _db_readptr co in
    _db_writedat data 0 SEEK_END ;;;
    _db_writeidx (Caller key) 0 SEEK_END ptr ;;;
    let* co := gets chainoff in
    let* io := gets idxoff in
    _db_writeptr co io ;;;
    modify (fun d => set_cnt_stor3 (u64 (cnt_stor3 d + 1)) d)
  else
    let* o := gets datoff in
    _db_writedat data o SEEK_SET ;;;
    modify (fun d => set_cnt_stor4 (u64 (cnt_stor4 d + 1)) d).

Definition db_store {L : Libc} (key data : bytes) (flag : Z) : M DB Z :=
  if negb (flag =? DB_INSERT) && negb (flag =? DB_REPLACE) && negb (flag =? DB_STORE) then
    modify (set_errno EINVAL) ;;; ret (-1)
  else
    let keylen := Z.of_nat (length key) in
    let dlen := Z.of_nat (length data) + 1 in
    die_if ((dlen <? DATLEN_MIN) || (dlen >? DATLEN_MAX)) "db_store: invalid data length" ;;;
    let* r := _db_find_and_lock key true in
    let* rc :=
      (if r <? 0 then
         if flag =? DB_REPLACE then
           modify (fun d => set_cnt_storerr (u64 (cnt_storerr d + 1)) d) ;;;
           modify (set_errno ENOENT) ;;; ret (-1)
         else store_new key data keylen dlen ;;; ret 0
       else if flag =? DB_INSERT then
         modify (fun d => set_cnt_storerr (u64 (cnt_storerr d + 1)) d) ;;; ret 1
       else store_replace key data dlen ;;; ret 0) in
    let* co := gets chainoff in
    un_lock IdxFd co 1 ;;;
    ret rc.

(** * Sequential access *)

Definition db_rewind : M DB unit :=
  let* nh := gets nhash in
  let* f := gets idxfd in
  match lseek f ((nh + 1) * Z.of_nat PTR_SZ + 1) SEEK_SET with
  | None => die "db_rewind: lseek error"
  | Some (off, f1) => modify (set_idxfd f1) ;;; modify (set_idxoff off)
  end.

Definition blank (b : bytes) : bool := forallb (fun c => c =? SPACE) b.

(** The [do ... while] of [db_nextrec]: [false] at the end of the file. *)
Fixpoint nextrec_loop (fuel : nat) : M DB bool :=
  match fuel with
  | O => nofuel
  | S f =>
      let* r := _db_readidx 0 in
      if r <? 0 then ret false
      else
        let* key := gets (fun d => cstr (idxbuf d)) in
        if blank key then nextrec_loop f else ret true
  end.

(** The key copied to the caller and the data; [None] at the end. *)
Definition db_nextrec : M DB (option (bytes * bytes)) :=
  readw_lock IdxFd FREE_OFF 1 ;;;
  let* fuel := gets (fun d => S (chain_fuel d)) in
  let* more := nextrec_loop fuel in
  let* res :=
    (if more : bool then
       let* key := gets (fun d => cstr (idxbuf d)) in
       let* data := _db_readdat in
       modify (fun d => set_cnt_nextrec (u64 (cnt_nextrec d + 1)) d) ;;;
       ret (Some (key, data))
     else ret None) in
  un_lock IdxFd FREE_OFF 1 ;;;
  ret res.

(** * Opening and closing *)

(** The flags of [open] the database looks at or passes on. *)
Record oflags := mk_oflags { o_creat : bool; o_trunc : bool; o_excl : bool }.

(** Files by path; [open] gives the contents seen through the descriptor
    and the directory afterwards. *)
Definition open_file (fs : gmap bytes bytes) (path : bytes) (fl : oflags)
  : option bytes * gmap bytes bytes :=
  match fs !! path with
  | Some c =>
      if o_creat fl && o_excl fl then (None, fs)
      else let c' := if o_trunc fl then [] else c in (Some c', <[path := c']> fs)
  | None => if o_creat fl then (Some [], <[path := []]> fs) else (None, fs)
  end.

(** [_db_alloc]: a zeroed structure and two buffers whose memory, [idxmem]
    and [datmem], [malloc] does not initialise; the descriptors are opened
    by the caller. *)
Definition _db_alloc (idxmem datmem nm : bytes) (fi fd : file) : DB :=
  mk_DB fi fd idxmem datmem nm 0 0 0 0 0 0 0 0 0 0 0 0 0 0 0 0 0 0 0 0 [].

(** The initial contents of the index file: the free list pointer and the
    hash table, all chains empty. *)
Definition empty_table : bytes :=
  mjoin (replicate (Z.to_nat (NHASH_DEF + 1)) (padl PTR_SZ (sdec 0))) ++ [NEWLINE].

Definition init_index (fl : oflags) : M DB unit :=
  if o_creat fl && o_trunc fl then
    writew_lock IdxFd 0 0 ;;;
    let* f := gets idxfd in
    (if (f_size f =? 0)%nat then modify (set_idxfd (fwrite f empty_table)) else skip) ;;;
    un_lock IdxFd 0 0
  else skip.

(** [None] is the NULL handle. *)
Definition db_open (idxmem datmem : bytes) (fs : gmap bytes bytes) (pathname : bytes) (fl : oflags)
  : option (outcome DB unit) * gmap bytes bytes :=
  let '(ci, fs1) := open_file fs (pathname ++ str ".idx") fl in
  let '(cd, fs2) := open_file fs1 (pathname ++ str ".dat") fl in
  match ci, cd with
  | Some bi, Some bd =>
      let d := _db_alloc idxmem datmem (pathname ++ str ".dat") (mk_file bi 0) (mk_file bd 0) in
      let d := set_hashoff HASH_OFF (set_nhash NHASH_DEF d) in
      (Some ((init_index fl ;;; db_rewind) d), fs2)
  | _, _ => (None, fs2)
  end.

(** [_db_free]: the descriptors are closed and the memory released; what is
    left of the handle is the contents of the two files on disk. *)
Definition _db_free (d : DB) (pathname : bytes) (fs : gmap bytes bytes) : gmap bytes bytes :=
  <[pathname ++ str ".dat" := f_data (datfd d)]>
    (<[pathname ++ str ".idx" := f_data (idxfd d)]> fs).
Definition db_close := _db_free.
