(* ===== verification/DbLayout.v ===== *)
(** The on-disk layout of the database of [db.c]: the index and data files
    as the encoding of a table of chain pointers and a list of record
    slots, and what the byte-level routines of [Db] do to it. *)
From Stdlib Require Import ZArith Lia.
From stdpp Require Import base list strings gmap numbers.
From S2P Require Import Prelude CString CFile Db.

(** * Logical layout *)

(** A slot is an index record together with its data record. *)
Record slot := mk_slot { s_next : Z; s_key : bytes; s_dat : bytes }.

Definition dat_size (s : slot) : Z := Z.of_nat (length (s_dat s)) + 1.
Definition slot_text (off : Z) (s : slot) : bytes := idx_text (s_key s) off (dat_size s).
Definition ptr_field (p : Z) : bytes := padl PTR_SZ (sdec p).
Definition len_field (n : Z) : bytes := padl IDXLEN_SZ (sdec n).
Definition enc_idx (off : Z) (s : slot) : bytes :=
  ptr_field (s_next s) ++ len_field (Z.of_nat (length (slot_text off s))) ++ slot_text off s.

(** Index records in file order, the first with its data at [off]. *)
Fixpoint enc_slots (off : Z) (l : list slot) : bytes :=
  match l with
  | [] => []
  | s :: r => enc_idx off s ++ enc_slots (off + dat_size s) r
  end.
Definition enc_heads (hs : list Z) : bytes := mjoin (ptr_field <$> hs) ++ [NEWLINE].
Definition enc_index (hs : list Z) (l : list slot) : bytes := enc_heads hs ++ enc_slots 0 l.
Definition enc_dat (s : slot) : bytes := s_dat s ++ [NEWLINE].
Definition enc_data (l : list slot) : bytes := mjoin (enc_dat <$> l).

(** Offsets of slot [i] in the two files. *)
Definition TABLE_SZ : Z := 967.
Fixpoint dsum (l : list slot) : Z :=
  match l with [] => 0 | s :: r => dat_size s + dsum r end.
Definition doff (l : list slot) (i : nat) : Z := dsum (take i l).
Fixpoint isum (off : Z) (l : list slot) : Z :=
  match l with
  | [] => 0
  | s :: r => 11 + Z.of_nat (length (slot_text off s)) + isum (off + dat_size s) r
  end.
Definition ioff (l : list slot) (i : nat) : Z := TABLE_SZ + isum 0 (take i l).

(** A chain pointer is in the table or in a slot. *)
Inductive loc := LHead (h : nat) | LSlot (j : nat).
Definition loc_off (l : list slot) (p : loc) : Z :=
  match p with LHead h => Z.of_nat h * 7 | LSlot j => ioff l j end.
Definition set_next (v : Z) (s : slot) : slot := mk_slot v (s_key s) (s_dat s).
Definition put_head (p : loc) (v : Z) (hs : list Z) : list Z :=
  match p with LHead h => <[h := v]> hs | LSlot _ => hs end.
Definition put_slot (p : loc) (v : Z) (l : list slot) : list slot :=
  match p with
  | LHead _ => l
  | LSlot j => match l !! j with Some s => <[j := set_next v s]> l | None => l end
  end.

(** * Well-formed layouts *)

Definition nonul (b : bytes) : Prop := Forall (fun c => c <> 0) b.
Definition nosep (b : bytes) : Prop := Forall (fun c => c <> SEP) b.
Definition ok_ptr (p : Z) : Prop := 0 <= p <= PTR_MAX.
Definition ok_len (off : Z) (s : slot) : Prop :=
  IDXLEN_MIN <= Z.of_nat (length (slot_text off s)) <= IDXLEN_MAX.

Record wf_slot (off : Z) (s : slot) : Prop := {
  wf_next : ok_ptr (s_next s);
  wf_key : nonul (s_key s) /\ nosep (s_key s);
  wf_dat : nonul (s_dat s);
  wf_size : DATLEN_MIN <= dat_size s <= DATLEN_MAX;
  wf_len : ok_len off s;
  wf_off : 0 <= off <= LONG_MAX
}.

Record wf_layout (hs : list Z) (l : list slot) : Prop := {
  wl_heads : length hs = 138%nat;
  wl_ptrs : Forall ok_ptr hs;
  wl_slots : forall i s, l !! i = Some s -> wf_slot (doff l i) s
}.

Section layout.
Implicit Types (l : list slot) (hs : list Z) (s : slot).

Lemma sdec_udec n : 0 <= n -> sdec n = udec n.
Proof. intros. unfold sdec. destruct (Z.ltb_spec n 0); [lia|done]. Qed.

Lemma ptr_field_length p : ok_ptr p -> length (ptr_field p) = 7%nat.
Proof.
  intros [??]. unfold ptr_field. rewrite sdec_udec by lia. apply padl_length.
  apply (udec_length p 6). unfold PTR_MAX in *. change (10 ^ Z.of_nat 7) with 10000000. lia.
Qed.

Lemma len_field_length n : 0 <= n <= IDXLEN_MAX -> length (len_field n) = 4%nat.
Proof.
  intros ?. unfold len_field. rewrite sdec_udec by lia. apply padl_length.
  apply (udec_length n 3). unfold IDXLEN_MAX in *. change (10 ^ Z.of_nat 4) with 10000. lia.
Qed.

Lemma nonul_udec n : 0 <= n -> nonul (udec n).
Proof. intros. apply digits_not; [done|]. by apply udec_spec. Qed.
Lemma nosep_udec n : 0 <= n -> nosep (udec n).
Proof. intros. apply digits_not; [done|]. by apply udec_spec. Qed.

Lemma nonul_padl w n : 0 <= n -> nonul (padl w (sdec n)).
Proof.
  intros. rewrite sdec_udec by done. apply Forall_app; split.
  - by apply Forall_replicate.
  - by apply nonul_udec.
Qed.

Lemma atol_field w n : 0 <= n <= LONG_MAX -> atol (cstr (padl w (sdec n))) = n.
Proof.
  intros. rewrite cstr_id by (apply nonul_padl; lia).
  rewrite sdec_udec by lia. rewrite <-(app_nil_r (padl _ _)). by apply atol_padl.
Qed.

Lemma atol_sdec n r : 0 <= n <= LONG_MAX -> atol (cstr (sdec n ++ 0 :: r)) = n.
Proof.
  intros. rewrite sdec_udec by lia. rewrite cstr_app_nul by (apply nonul_udec; lia).
  rewrite <-(app_nil_r (udec n)).
  replace (udec n) with (padl 0 (udec n)) by done. by apply atol_padl.
Qed.

Lemma atoi_field w n : 0 <= n <= IDXLEN_MAX -> atoi (cstr (padl w (sdec n))) = n.
Proof.
  unfold IDXLEN_MAX. intros. unfold atoi. rewrite atol_field by (unfold LONG_MAX; lia).
  apply wraps_small; simpl; lia.
Qed.

(** ** Sizes and decomposition of the files *)

Lemma ptrs_length hs :
  Forall ok_ptr hs -> length (mjoin (ptr_field <$> hs)) = (length hs * 7)%nat.
Proof.
  induction 1 as [|p hs Hp _ IH]; [done|].
  change (mjoin (ptr_field <$> p :: hs)) with (ptr_field p ++ mjoin (ptr_field <$> hs)).
  rewrite length_app, IH, ptr_field_length by done. simpl. lia.
Qed.

Lemma enc_heads_length hs :
  length hs = 138%nat -> Forall ok_ptr hs -> length (enc_heads hs) = 967%nat.
Proof.
  intros Hl Hp. unfold enc_heads. rewrite length_app, ptrs_length, Hl by done. done.
Qed.

Lemma enc_slots_app off l1 l2 :
  enc_slots off (l1 ++ l2) = enc_slots off l1 ++ enc_slots (off + dsum l1) l2.
Proof.
  revert off. induction l1 as [|s l1 IH]; intros off; simpl.
  - f_equal. lia.
  - rewrite IH, <-app_assoc. do 3 f_equal. lia.
Qed.

Lemma enc_data_app l1 l2 : enc_data (l1 ++ l2) = enc_data l1 ++ enc_data l2.
Proof. unfold enc_data. by rewrite fmap_app, join_app. Qed.

Lemma enc_data_length l : Z.of_nat (length (enc_data l)) = dsum l.
Proof.
  induction l as [|s l IH]; [done|]. change (s :: l) with ([s] ++ l).
  rewrite enc_data_app, length_app, Nat2Z.inj_add, IH.
  unfold enc_data. simpl. rewrite app_nil_r. unfold enc_dat, dat_size.
  rewrite length_app. simpl. lia.
Qed.

Lemma dsum_app l1 l2 : dsum (l1 ++ l2) = dsum l1 + dsum l2.
Proof. induction l1; simpl; lia. Qed.

Lemma dsum_nonneg l : 0 <= dsum l.
Proof. induction l as [|s l IH]; simpl; unfold dat_size in *; lia. Qed.

Lemma isum_nonneg off l : 0 <= isum off l.
Proof. revert off. induction l as [|s l IH]; intros; simpl; [done|]. specialize (IH (off + dat_size s)). lia. Qed.

Lemma isum_app off l1 l2 : isum off (l1 ++ l2) = isum off l1 + isum (off + dsum l1) l2.
Proof.
  revert off. induction l1 as [|s l1 IH]; intros off; simpl.
  - by rewrite Z.add_0_r.
  - rewrite IH. replace (off + (dat_size s + dsum l1)) with (off + dat_size s + dsum l1) by lia. lia.
Qed.

Lemma ioff_bound l i : TABLE_SZ <= ioff l i.
Proof. unfold ioff. pose proof (isum_nonneg 0 (take i l)). lia. Qed.

(** ** Shapes: what the offsets depend on *)

Definition same_shape (s s' : slot) : Prop :=
  length (s_key s') = length (s_key s) /\ length (s_dat s') = length (s_dat s).

Lemma same_shape_text off s s' :
  same_shape s s' -> length (slot_text off s') = length (slot_text off s).
Proof.
  intros [Hk Hd]. unfold slot_text, idx_text, dat_size. rewrite !length_app, Hk, Hd. done.
Qed.

Lemma same_shape_size s s' : same_shape s s' -> dat_size s' = dat_size s.
Proof. intros [_ H]. unfold dat_size. by rewrite H. Qed.

Lemma enc_idx_length off s :
  ok_ptr (s_next s) -> ok_len off s ->
  length (enc_idx off s) = (11 + length (slot_text off s))%nat.
Proof.
  intros Hp Hl. unfold enc_idx. rewrite !length_app, ptr_field_length by done.
  rewrite len_field_length; [lia|]. destruct Hl. lia.
Qed.

Lemma dsum_shape l l' : Forall2 same_shape l l' -> dsum l' = dsum l.
Proof. induction 1; simpl; [done|]. erewrite same_shape_size by done. lia. Qed.

Lemma isum_shape off l l' : Forall2 same_shape l l' -> isum off l' = isum off l.
Proof.
  intros H. revert off. induction H as [|s s' l l' Hs _ IH]; intros off; simpl; [done|].
  erewrite same_shape_text, same_shape_size by done. by rewrite IH.
Qed.

Lemma doff_shape l l' i : Forall2 same_shape l l' -> doff l' i = doff l i.
Proof. intros. by apply dsum_shape, Forall2_take. Qed.
Lemma ioff_shape l l' i : Forall2 same_shape l l' -> ioff l' i = ioff l i.
Proof. intros. unfold ioff. by erewrite isum_shape by (apply Forall2_take; eassumption). Qed.

#[global] Instance same_shape_refl : Reflexive same_shape.
Proof. by split. Qed.

#[global] Instance same_shape_trans : Transitive same_shape.
Proof. intros ? ? ? [? ?] [? ?]. split; congruence. Qed.

Lemma shape_refl l : Forall2 same_shape l l.
Proof. by apply Forall_Forall2_diag, Forall_true. Qed.

Lemma shape_insert l i s s' :
  l !! i = Some s -> same_shape s s' -> Forall2 same_shape l (<[i := s']> l).
Proof.
  intros Hi Hs. rewrite <-(list_insert_id l i s Hi) at 1.
  apply Forall2_insert; [apply shape_refl|done].
Qed.

Lemma shape_put l p v : Forall2 same_shape l (put_slot p v l).
Proof.
  destruct p as [h|j]; simpl; [apply shape_refl|].
  destruct (l !! j) as [s|] eqn:E.
  - by eapply shape_insert.
  - apply shape_refl.
Qed.

(** The file really has slot [i] at [ioff l i]. *)
Lemma enc_slots_length off l :
  (forall i s, l !! i = Some s -> ok_ptr (s_next s) /\ ok_len (off + doff l i) s) ->
  Z.of_nat (length (enc_slots off l)) = isum off l.
Proof.
  revert off. induction l as [|s l IH]; intros off H; simpl; [done|].
  rewrite length_app, Nat2Z.inj_add, enc_idx_length, IH.
  - lia.
  - intros i s' Hi. destruct (H (S i) s' Hi) as [? Hl]. split; [done|].
    unfold doff in *. simpl in Hl. by rewrite Z.add_assoc in Hl.
  - by destruct (H 0%nat s).
  - destruct (H 0%nat s) as [_ Hl]; [done|]. unfold doff in Hl. simpl in Hl.
    by rewrite Z.add_0_r in Hl.
Qed.

Lemma lookup_split l i s :
  l !! i = Some s -> exists l1 l2, l = l1 ++ s :: l2 /\ length l1 = i.
Proof.
  intros H. exists (take i l), (drop (S i) l). split.
  - symmetry. by apply take_drop_middle.
  - rewrite length_take. apply lookup_lt_Some in H. lia.
Qed.

(** The index file around slot [i]: a prefix of length [ioff l i], the
    encoded record, the rest; likewise the data file. *)
Lemma enc_index_split hs l1 s l2 :
  enc_index hs (l1 ++ s :: l2) =
    (enc_heads hs ++ enc_slots 0 l1) ++ enc_idx (dsum l1) s
      ++ enc_slots (dsum l1 + dat_size s) l2.
Proof. unfold enc_index. rewrite enc_slots_app, <-!app_assoc. simpl. by rewrite Z.add_0_l. Qed.

Lemma enc_data_split l1 s l2 :
  enc_data (l1 ++ s :: l2) = enc_data l1 ++ enc_dat s ++ enc_data l2.
Proof. rewrite enc_data_app. done. Qed.
End layout.

Global Arguments enc_idx : simpl never.
Global Arguments slot_text : simpl never.
Global Arguments idx_text : simpl never.
Global Arguments ptr_field : simpl never.
Global Arguments len_field : simpl never.
Global Arguments dat_size : simpl never.
