(* ===== verification/DbBytes.v ===== *)
(** What each byte-level routine of [Db] does on files that encode a layout:
    reading a chain pointer or an index record gives the fields of the
    layout, and writing one gives the encoding of the updated layout. *)
From Stdlib Require Import ZArith Lia.
From stdpp Require Import base list strings gmap numbers.
From S2P Require Import Prelude CString CFile Db DbLayout.

(** * The files around a pointer or a record *)
Section split.
Implicit Types (l : list slot) (hs : list Z) (s : slot).

Lemma wl_slot hs l1 s l2 :
  wf_layout hs (l1 ++ s :: l2) -> wf_slot (dsum l1) s.
Proof.
  intros W. pose proof (wl_slots _ _ W (length l1) s) as H.
  rewrite list_lookup_middle in H by done. specialize (H eq_refl).
  unfold doff in H. by rewrite take_app_length in H.
Qed.

Lemma wl_prefix_length hs l1 l2 :
  wf_layout hs (l1 ++ l2) ->
  Z.of_nat (length (enc_heads hs ++ enc_slots 0 l1)) = ioff (l1 ++ l2) (length l1).
Proof.
  intros [Hl Hp Hs]. rewrite length_app, enc_heads_length by done.
  unfold ioff. rewrite take_app_length, Nat2Z.inj_add, enc_slots_length; [done|].
  intros i s Hi. specialize (Hs i s). rewrite lookup_app_l in Hs
    by (by eapply lookup_lt_Some). destruct (Hs Hi) as [Ha _ _ _ Hb _].
  split; [done|]. unfold doff in *. rewrite take_app_le in Hb; [done|].
  apply lookup_lt_Some in Hi. lia.
Qed.

Lemma heads_split hs h p l :
  hs !! h = Some p -> Forall ok_ptr hs ->
  exists pre post, enc_index hs l = pre ++ ptr_field p ++ post /\
    length pre = (h * 7)%nat /\
    forall p', enc_index (<[h := p']> hs) l = pre ++ ptr_field p' ++ post.
Proof.
  intros Hh Hp.
  exists (mjoin (ptr_field <$> take h hs)),
    (mjoin (ptr_field <$> drop (S h) hs) ++ [NEWLINE] ++ enc_slots 0 l).
  assert (forall p', enc_index (<[h := p']> hs) l =
    mjoin (ptr_field <$> take h hs) ++ ptr_field p' ++
    mjoin (ptr_field <$> drop (S h) hs) ++ [NEWLINE] ++ enc_slots 0 l) as E.
  { intros p'. unfold enc_index, enc_heads.
    rewrite insert_take_drop by (by eapply lookup_lt_Some).
    rewrite fmap_app, join_app, fmap_cons. rewrite <-!app_assoc. f_equal.
    change (mjoin (ptr_field p' :: ?x)) with (ptr_field p' ++ mjoin x).
    by rewrite <-!app_assoc. }
  split; [rewrite <-E; by rewrite list_insert_id|]. split; [|done].
  rewrite ptrs_length by (by apply Forall_take).
  rewrite length_take. apply lookup_lt_Some in Hh. lia.
Qed.
End split.

(** * Chain pointers *)
Section pointers.
Implicit Types (l : list slot) (hs : list Z) (s : slot) (d : DB).

Lemma take_padl_ptr v : ok_ptr v -> take PTR_SZ (padl PTR_SZ (sdec v)) = ptr_field v.
Proof. intros. apply take_ge. fold (ptr_field v). by rewrite ptr_field_length. Qed.

Lemma ok_ptr_test v : ok_ptr v -> (v <? 0) || (v >? PTR_MAX) = false.
Proof. unfold ok_ptr, PTR_MAX. intros. apply orb_false_iff; lia. Qed.

Lemma readptr_head d hs l h p :
  f_data (idxfd d) = enc_index hs l -> hs !! h = Some p -> Forall ok_ptr hs ->
  exists f, f_data f = enc_index hs l /\
    _db_readptr (Z.of_nat h * 7) d = Ret p (set_idxfd f d).
Proof.
  intros Hd Hh Hp. destruct (heads_split hs h p l Hh Hp) as (pre & post & E & Hlen & _).
  assert (ok_ptr p) as Hok by (by eapply Forall_lookup_1).
  exists (mk_file (enc_index hs l) (h * 7 + 7)). split; [done|].
  unfold _db_readptr, bind, gets. rewrite lseek_set by lia. rewrite Hd.
  unfold fread. cbn [f_pos f_data].
  replace (Z.to_nat (Z.of_nat h * 7)) with (length pre) by lia.
  rewrite E.
  assert (slice (length pre) PTR_SZ (pre ++ ptr_field p ++ post) = ptr_field p) as ->.
  { rewrite <-(ptr_field_length p Hok) at 1. apply slice_mid. }
  unfold modify, die_if. rewrite ptr_field_length by done. cbn.
  unfold ptr_field. rewrite atol_field by (unfold ok_ptr, PTR_MAX, LONG_MAX in *; lia).
  by rewrite Hlen.
Qed.

Lemma writeptr_mid d off v pre old post :
  ok_ptr v -> f_data (idxfd d) = pre ++ old ++ post ->
  length old = 7%nat -> off = Z.of_nat (length pre) ->
  exists f, f_data f = pre ++ ptr_field v ++ post /\
    _db_writeptr off v d = Ret tt (set_idxfd f d).
Proof.
  intros Hok Hd Hold ->. eexists. split; cycle 1.
  - unfold _db_writeptr, bind, gets. rewrite ok_ptr_test by done.
    unfold die_if, skip, ret. rewrite lseek_set by lia.
    rewrite take_padl_ptr by done. reflexivity.
  - unfold fwrite. destruct (ptr_field v) eqn:E.
    { apply ptr_field_length in Hok. by rewrite E in Hok. }
    rewrite <-E. cbn [f_data f_pos]. rewrite Hd, Nat2Z.id.
    apply splice_mid. by rewrite ptr_field_length.
Qed.

(** Writing a chain pointer, wherever it is, updates the layout there. *)
Lemma writeptr_loc d hs l p v :
  wf_layout hs l -> f_data (idxfd d) = enc_index hs l -> ok_ptr v ->
  match p with LHead h => (h < 138)%nat | LSlot j => (j < length l)%nat end ->
  exists f, f_data f = enc_index (put_head p v hs) (put_slot p v l) /\
    _db_writeptr (loc_off l p) v d = Ret tt (set_idxfd f d).
Proof.
  intros W Hd Hv Hp. destruct p as [h|j]; simpl.
  - destruct (lookup_lt_is_Some_2 hs h) as [p Hh]; [by rewrite (wl_heads _ _ W)|].
    destruct (heads_split hs h p l Hh (wl_ptrs _ _ W)) as (pre & post & E & Hlen & E').
    rewrite E'. eapply writeptr_mid; [done|by rewrite Hd| |lia].
    apply ptr_field_length. eapply Forall_lookup_1; [apply W|done].
  - destruct (lookup_lt_is_Some_2 l j) as [s Hj]; [done|]. rewrite Hj.
    destruct (lookup_split l j s Hj) as (l1 & l2 & -> & <-).
    rewrite insert_app_r_alt, Nat.sub_diag by lia. simpl.
    rewrite !enc_index_split. unfold enc_idx.
    change (slot_text (dsum l1) (set_next v s)) with (slot_text (dsum l1) s).
    change (dat_size (set_next v s)) with (dat_size s).
    rewrite <-(app_assoc (ptr_field v)).
    eapply writeptr_mid; [done| | |].
    + rewrite Hd, enc_index_split. unfold enc_idx. by rewrite <-(app_assoc (ptr_field (s_next s))).
    + apply ptr_field_length. by eapply wl_slot in W as [? _ _ _ _ _].
    + symmetry. by eapply wl_prefix_length.
Qed.
End pointers.

(** * Index records *)
Section records.
Implicit Types (l : list slot) (hs : list Z) (s : slot) (d : DB).

Lemma insert_mid {A} (a b : list A) (x y : A) :
  <[length a := y]> (a ++ x :: b) = a ++ y :: b.
Proof. rewrite insert_app_r_alt, Nat.sub_diag by lia. done. Qed.

Lemma insert_at {A} (a b : list A) (x y : A) n :
  n = length a -> <[n := y]> (a ++ x :: b) = a ++ y :: b.
Proof. intros ->. apply insert_mid. Qed.

Lemma drop_at {A} (a b : list A) n : n = length a -> drop n (a ++ b) = b.
Proof. intros ->. apply drop_app_length. Qed.

Lemma splice_0 bs b : splice 0 bs b = bs ++ drop (length bs) b.
Proof. done. Qed.

Lemma read_ptr_field p : ok_ptr p -> atol (cstr (ptr_field p)) = p.
Proof. intros. apply atol_field. unfold ok_ptr, PTR_MAX, LONG_MAX in *. lia. Qed.

Lemma read_len_field n : 0 <= n <= IDXLEN_MAX -> u64 (atoi (cstr (len_field n))) = n.
Proof.
  intros. unfold len_field. rewrite atoi_field by done.
  apply wrapu_small. unfold IDXLEN_MAX in *. simpl. lia.
Qed.

(** Cutting the text of a record at its separators. *)
Lemma split_idx_ok d k D L r :
  nonul k -> nosep k -> nonul D -> nosep D -> nonul L -> nosep L ->
  idxbuf d = k ++ SEP :: D ++ SEP :: L ++ 0 :: r ->
  split_idx d = Ret (S (length k), S (S (length k) + length D))
                  (set_idxbuf (k ++ 0 :: D ++ 0 :: L ++ 0 :: r) d).
Proof.
  intros Hk Hk' HD HD' HL HL' Hb.
  assert (nonul [SEP]) as Hs by by repeat constructor.
  assert (forall a t, nonul a -> cstr (a ++ SEP :: t) = a ++ SEP :: cstr t) as Hc.
  { intros a t. induction 1 as [|c a Hne _ IH]; [done|]. simpl.
    apply Z.eqb_neq in Hne. by rewrite Hne, IH. }
  unfold split_idx, bind, gets. rewrite Hb. unfold strchr at 1.
  rewrite Hc, find_byte_app by done.
  unfold modify. cbn [idxbuf]. rewrite insert_mid.
  assert (drop (S (length k)) (k ++ 0 :: D ++ SEP :: L ++ 0 :: r) = D ++ SEP :: L ++ 0 :: r) as ->.
  { rewrite cons_middle, app_assoc. apply drop_at. rewrite length_app. simpl. lia. }
  unfold strchr at 1. rewrite Hc, find_byte_app by done.
  assert (<[(S (length k) + length D)%nat:=0]> (k ++ 0 :: D ++ SEP :: L ++ 0 :: r)
          = k ++ 0 :: D ++ 0 :: L ++ 0 :: r) as ->.
  { rewrite (cons_middle 0 k), (cons_middle 0 k), !(app_assoc k), !(app_assoc (k ++ [0])).
    apply insert_at. rewrite !length_app. simpl. lia. }
  assert (drop (S (S (length k) + length D)) (k ++ 0 :: D ++ 0 :: L ++ 0 :: r) = L ++ 0 :: r) as ->.
  { replace (k ++ 0 :: D ++ 0 :: L ++ 0 :: r) with ((k ++ [0] ++ D ++ [0]) ++ L ++ 0 :: r)
      by (rewrite <-!app_assoc; done).
    apply drop_at. rewrite !length_app. simpl. lia. }
  unfold strchr. rewrite cstr_app_nul, find_byte_None by done.
  unfold ret. by destruct d.
Qed.

Definition readidx_st d (f : file) (off len : Z) (b : bytes) (nx o n : Z) : DB :=
  set_datlen n (set_datoff o (set_idxbuf b (set_idxfd f
    (set_idxlen len (set_ptrval nx (set_idxoff off d)))))).

(** Reading an index record, from wherever [lseek] has positioned the
    file, gives the fields of the slot there. *)
Lemma readidx_core d hs l1 s l2 offset f0 :
  wf_layout hs (l1 ++ s :: l2) ->
  (1026 <= length (idxbuf d))%nat ->
  let l := l1 ++ s :: l2 in let i := length l1 in
  lseek (idxfd d) offset (if offset =? 0 then SEEK_CUR else SEEK_SET) = Some (ioff l i, f0) ->
  f_data f0 = enc_index hs l -> f_pos f0 = Z.to_nat (ioff l i) ->
  exists f b len, _db_readidx offset d =
      Ret (s_next s) (readidx_st d f (ioff l i) len b (s_next s) (doff l i) (dat_size s)) /\
    f_data f = enc_index hs l /\ f_pos f = Z.to_nat (ioff l (S i)) /\
    cstr b = s_key s /\ length b = length (idxbuf d).
Proof.
  intros W Hbuf l i Hseek Hf0 Hp0. subst l i.
  pose proof (wl_slot _ _ _ _ W) as [Wn [Wk Wk'] Wd Wsz Wl Wo].
  pose proof (wl_prefix_length _ _ _ W) as Hpre.
  pose proof Wl as Wl0. unfold ok_len in Wl.
  set (T := slot_text (dsum l1) s) in *.
  set (pre := enc_heads hs ++ enc_slots 0 l1) in *.
  assert (enc_index hs (l1 ++ s :: l2) = pre ++ enc_idx (dsum l1) s ++ enc_slots (dsum l1 + dat_size s) l2)
    as Hfile by apply enc_index_split.
  assert (f_pos f0 = length pre) as Hpos by lia.
  assert (length (enc_idx (dsum l1) s) = 11 + length T)%nat as Hei by by apply enc_idx_length.
  assert (enc_idx (dsum l1) s = (ptr_field (s_next s) ++ len_field (Z.of_nat (length T))) ++ T)
    as Henc by (unfold enc_idx; by rewrite <-app_assoc).
  assert (length (ptr_field (s_next s)) = 7%nat) as Hpl by by apply ptr_field_length.
  assert (length (len_field (Z.of_nat (length T))) = 4%nat) as Hll
    by (apply len_field_length; lia).
  assert (0 <= Z.of_nat (length T) <= IDXLEN_MAX) as HT by lia.
  assert (6 <= length T)%nat as HT6 by (unfold IDXLEN_MIN in Wl; lia).
  pose (D := sdec (dsum l1)). pose (L := sdec (dat_size s)).
  assert (T = (s_key s ++ SEP :: D ++ SEP :: L) ++ [NEWLINE]) as HTe.
  { unfold T, slot_text, idx_text. rewrite <-app_assoc. cbn [app].
    by rewrite <-app_assoc. }
  set (K := s_key s ++ SEP :: D ++ SEP :: L) in *.
  assert (length T = S (length K)) as HKl by (rewrite HTe, length_app; simpl; lia).
  pose (r := drop (length T) (idxbuf d)).
  assert (1 <= dat_size s) by (unfold DATLEN_MIN in Wsz; lia).
  assert (nonul D /\ nosep D /\ nonul L /\ nosep L) as (HD & HD' & HL & HL').
  { unfold D, L. rewrite !sdec_udec by lia.
    split_and!; (apply nonul_udec || apply nosep_udec); lia. }
  eexists (mk_file (enc_index hs (l1 ++ s :: l2)) (length pre + 11 + length T)),
    (s_key s ++ 0 :: D ++ 0 :: L ++ 0 :: r), (Z.of_nat (length T)).
  split; [|split; [done|split; [|split]]].
  - unfold _db_readidx, bind, gets, modify. rewrite Hseek.
    rewrite (fread_mid f0 pre (ptr_field (s_next s) ++ len_field (Z.of_nat (length T)))
               (T ++ enc_slots (dsum l1 + dat_size s) l2)); cycle 1.
    { rewrite Hf0, Hfile, Henc. by rewrite <-!app_assoc. }
    { done. }
    { by rewrite length_app, Hpl, Hll. }
    rewrite length_app, Hpl, Hll. change (7 + 4 =? PTR_SZ + IDXLEN_SZ)%nat with true. cbn [negb].
    rewrite take_app_length', drop_app_length' by (unfold PTR_SZ; lia).
    rewrite (read_ptr_field _ Wn), (read_len_field _ HT).
    cbn [idxlen set_idxlen].
    replace ((Z.of_nat (length T) <? IDXLEN_MIN) || (Z.of_nat (length T) >? IDXLEN_MAX)) with false
      by (symmetry; apply orb_false_iff; unfold IDXLEN_MIN, IDXLEN_MAX in *; lia).
    unfold die_if, skip, ret. rewrite Nat2Z.id.
    rewrite (fread_mid _ (pre ++ ptr_field (s_next s) ++ len_field (Z.of_nat (length T))) T
               (enc_slots (dsum l1 + dat_size s) l2)); cycle 1.
    { cbn [f_data]. rewrite Hf0, Hfile, Henc. by rewrite <-!app_assoc. }
    { cbn [f_pos]. rewrite !length_app, Hpl, Hll. unfold PTR_SZ, IDXLEN_SZ. lia. }
    { done. }
    rewrite Z.eqb_refl. cbn [negb idxbuf set_idxbuf set_idxfd set_idxlen set_ptrval set_idxoff].
    replace (Z.to_nat (Z.of_nat (length T) - 1)) with (length K) by lia.
    assert (splice 0 T (idxbuf d) = K ++ NEWLINE :: r) as ->.
    { rewrite splice_0. fold r. rewrite HTe at 1. by rewrite <-app_assoc. }
    rewrite list_lookup_middle by done.
    change (negb (default 0 (Some NEWLINE) =? NEWLINE)) with false. cbv iota.
    rewrite insert_mid.
    erewrite split_idx_ok with (k := s_key s) (D := D) (L := L) (r := r); try done; cycle 1.
    { unfold K. cbn [idxbuf set_idxbuf]. rewrite <-app_assoc. cbn [app].
      by rewrite <-app_assoc. }
    cbn [fst snd idxbuf set_idxbuf datoff set_datoff].
    assert (drop (S (length (s_key s))) (s_key s ++ 0 :: D ++ 0 :: L ++ 0 :: r) = D ++ 0 :: L ++ 0 :: r) as ->.
    { rewrite cons_middle, app_assoc. apply drop_at. rewrite length_app. simpl. lia. }
    assert (drop (S (S (length (s_key s)) + length D)) (s_key s ++ 0 :: D ++ 0 :: L ++ 0 :: r)
            = L ++ 0 :: r) as ->.
    { replace (s_key s ++ 0 :: D ++ 0 :: L ++ 0 :: r)
        with ((s_key s ++ [0] ++ D ++ [0]) ++ L ++ 0 :: r) by (rewrite <-!app_assoc; done).
      apply drop_at. rewrite !length_app. simpl. lia. }
    assert (atol (cstr (D ++ 0 :: L ++ 0 :: r)) = dsum l1) as -> by by apply atol_sdec.
    assert (u64 (atol (cstr (L ++ 0 :: r))) = dat_size s) as HaL.
    { unfold L. rewrite atol_sdec by (unfold DATLEN_MAX, LONG_MAX in *; lia).
      apply wrapu_small. unfold DATLEN_MAX in *. simpl. lia. }
    rewrite !HaL.
    replace (dsum l1 <? 0) with false by lia. cbn [datlen set_datlen].
    replace ((dat_size s =? 0) || (dat_size s >? DATLEN_MAX)) with false
      by (symmetry; apply orb_false_iff; lia).
    cbv iota. f_equal. unfold readidx_st, doff. rewrite take_app_length.
    rewrite !length_app, Hpl, Hll, Hf0. destruct d; cbv -[Nat.add enc_index app length Z.of_nat ioff dsum dat_size].
    do 2 f_equal.
  - cbn [f_pos]. unfold ioff in *.
    replace (take (S (length l1)) (l1 ++ s :: l2)) with (l1 ++ [s]).
    + rewrite isum_app. rewrite take_app_length in Hpre. cbn [isum]. rewrite Z.add_0_l. fold T. lia.
    + replace (l1 ++ s :: l2) with ((l1 ++ [s]) ++ l2) by (by rewrite <-app_assoc).
      rewrite take_app_length'; [done|]. rewrite length_app. simpl. lia.
  - by apply cstr_app_nul.
  - assert (length T = S (length (s_key s) + S (length D + S (length L)))) as HTl.
    { rewrite HTe. unfold K. rewrite !length_app. simpl. rewrite length_app. simpl. lia. }
    unfold r. rewrite !length_app. simpl. rewrite length_app. simpl. rewrite length_app. simpl.
    rewrite length_drop. unfold IDXLEN_MAX in HT. lia.
Qed.
End records.

Section record_ops.
Implicit Types (l : list slot) (hs : list Z) (s : slot) (d : DB).

(** Reading the index record at its offset. *)
Lemma readidx_slot d hs l i s :
  wf_layout hs l -> (1026 <= length (idxbuf d))%nat ->
  f_data (idxfd d) = enc_index hs l -> l !! i = Some s ->
  exists f b len, _db_readidx (ioff l i) d =
      Ret (s_next s) (readidx_st d f (ioff l i) len b (s_next s) (doff l i) (dat_size s)) /\
    f_data f = enc_index hs l /\ cstr b = s_key s /\ length b = length (idxbuf d).
Proof.
  intros W Hb Hf Hi. destruct (lookup_split _ _ _ Hi) as (l1 & l2 & -> & <-).
  pose proof (ioff_bound (l1 ++ s :: l2) (length l1)) as Hio. unfold TABLE_SZ in Hio.
  destruct (readidx_core d hs l1 s l2 (ioff (l1 ++ s :: l2) (length l1))
    (mk_file (f_data (idxfd d)) (Z.to_nat (ioff (l1 ++ s :: l2) (length l1)))) W Hb)
    as (f & b & len & E & ? & _ & ? & ?); [|done..|by eauto 10].
  destruct (Z.eqb_spec (ioff (l1 ++ s :: l2) (length l1)) 0); [lia|].
  apply lseek_set. lia.
Qed.

(** Reading the next index record in file order. *)
Lemma readidx_next d hs l i s :
  wf_layout hs l -> (1026 <= length (idxbuf d))%nat ->
  f_data (idxfd d) = enc_index hs l -> l !! i = Some s ->
  f_pos (idxfd d) = Z.to_nat (ioff l i) ->
  exists f b len, _db_readidx 0 d =
      Ret (s_next s) (readidx_st d f (ioff l i) len b (s_next s) (doff l i) (dat_size s)) /\
    f_data f = enc_index hs l /\ f_pos f = Z.to_nat (ioff l (S i)) /\
    cstr b = s_key s /\ length b = length (idxbuf d).
Proof.
  intros W Hb Hf Hi Hp. destruct (lookup_split _ _ _ Hi) as (l1 & l2 & -> & <-).
  pose proof (ioff_bound (l1 ++ s :: l2) (length l1)) as Hio. unfold TABLE_SZ in Hio.
  apply (readidx_core d hs l1 s l2 0 (idxfd d) W Hb); [|done..].
  simpl. rewrite lseek_cur. do 2 f_equal. lia.
Qed.

Lemma ioff_end hs l : wf_layout hs l ->
  ioff l (length l) = Z.of_nat (length (enc_index hs l)).
Proof.
  intros W. pose proof (wl_prefix_length hs l []) as H. rewrite app_nil_r in H.
  rewrite <-H by done. done.
Qed.

(** At the end of the index file the sequential read stops. *)
Lemma readidx_eof d hs l :
  wf_layout hs l -> f_data (idxfd d) = enc_index hs l ->
  f_pos (idxfd d) = Z.to_nat (ioff l (length l)) ->
  exists f, _db_readidx 0 d = Ret (-1) (set_idxfd f (set_idxoff (ioff l (length l)) d)) /\
    f_data f = enc_index hs l /\ f_pos f = f_pos (idxfd d).
Proof.
  intros W Hf Hp. pose proof (ioff_end hs l W) as He.
  exists (mk_file (f_data (idxfd d)) (f_pos (idxfd d) + 0)).
  split; [|split; [done|simpl; lia]].
  unfold _db_readidx, bind, gets, modify. cbn [Z.eqb]. rewrite lseek_cur.
  unfold fread. rewrite slice_nil_end by (rewrite Hf, Hp, He; lia).
  cbn [length Nat.eqb negb PTR_SZ IDXLEN_SZ Nat.add andb].
  unfold ret. rewrite Hp, Z2Nat.id; [done|].
  pose proof (ioff_bound l (length l)). unfold TABLE_SZ in *. lia.
Qed.

(** Reading the data record of a slot. *)
Lemma readdat_slot d l i s :
  (1026 <= length (datbuf d))%nat ->
  f_data (datfd d) = enc_data l -> l !! i = Some s -> nonul (s_dat s) ->
  dat_size s <= DATLEN_MAX ->
  datoff d = doff l i -> datlen d = dat_size s ->
  exists f b, _db_readdat d = Ret (s_dat s) (set_datbuf b (set_datfd f d)) /\
    f_data f = enc_data l /\ length b = length (datbuf d).
Proof.
  intros Hb Hf Hi Hn Hsz Ho Hl.
  destruct (lookup_split _ _ _ Hi) as (l1 & l2 & -> & <-).
  unfold doff in Ho. rewrite take_app_length in Ho.
  pose proof (enc_data_length l1) as Hlen. pose proof (dsum_nonneg l1).
  assert (Z.to_nat (dat_size s) = length (enc_dat s)) as Hds.
  { unfold dat_size, enc_dat. rewrite length_app. simpl. lia. }
  pose (r := drop (length (enc_dat s)) (datbuf d)).
  exists (mk_file (enc_data (l1 ++ s :: l2)) (length (enc_data l1) + length (enc_dat s))),
    (s_dat s ++ 0 :: r).
  split; [|split; [done|]].
  - unfold _db_readdat, bind, gets, modify. rewrite Ho, lseek_set by lia.
    rewrite Hl, Hds. rewrite (fread_mid _ (enc_data l1) (enc_dat s) (enc_data l2)); cycle 1.
    { cbn [f_data]. by rewrite Hf, enc_data_split. }
    { cbn [f_pos]. lia. }
    { done. }
    cbn [datbuf set_datfd set_datbuf].
    assert (splice 0 (enc_dat s) (datbuf d) = s_dat s ++ NEWLINE :: r) as ->.
    { rewrite splice_0. unfold enc_dat at 1. by rewrite <-app_assoc. }
    assert (1 <= dat_size s) by (unfold dat_size; lia).
    replace (Z.of_nat (length (enc_dat s)) =? dat_size s) with true by lia.
    unfold die_if, skip, ret. cbn [negb datbuf set_datbuf].
    replace (Z.to_nat (dat_size s - 1)) with (length (s_dat s)) by (unfold dat_size; lia).
    rewrite list_lookup_middle by done.
    change (negb (default 0 (Some NEWLINE) =? NEWLINE)) with false. cbv iota.
    rewrite insert_mid. cbn [datbuf set_datbuf]. rewrite cstr_app_nul by done.
    rewrite Hf. by destruct d.
  - rewrite length_app. unfold r. simpl. rewrite length_drop.
    unfold enc_dat in *. rewrite length_app in *. simpl in *. unfold DATLEN_MAX in *. lia.
Qed.
End record_ops.

(** * Writing records *)
Section writes.
Implicit Types (l : list slot) (hs : list Z) (s : slot) (d : DB).

(** The lock calls of an appending write, none for an overwrite. *)
Definition append_locks (w : whence) (fd : which_fd) (start : Z) d : list lock_ev :=
  match w with
  | SEEK_END => mk_lock UNLCK fd start 0 :: mk_lock WRLCK fd start 0 :: locks d
  | _ => locks d
  end.

Definition writedat_st d (w : whence) (f : file) (o n : Z) : DB :=
  set_locks (append_locks w DatFd 0 d) (set_datfd f (set_datlen n (set_datoff o d))).

Lemma writedat_core d data offset w o f1 :
  lseek (datfd d) offset w = Some (o, f1) ->
  _db_writedat data offset w d =
    Ret tt (writedat_st d w (fwrite f1 (data ++ [NEWLINE])) o (Z.of_nat (length data) + 1)).
Proof.
  intros H. unfold _db_writedat, bind, gets, modify, writedat_st.
  destruct w; cbn -[lseek]; rewrite H; by destruct d.
Qed.

Lemma fwrite_data f bs : bs <> [] -> f_data (fwrite f bs) = splice (f_pos f) bs (f_data f).
Proof. by destruct bs. Qed.

(** Overwriting the data of a slot with data of the same length. *)
Lemma writedat_over d l i s s' :
  f_data (datfd d) = enc_data l -> l !! i = Some s ->
  length (s_dat s') = length (s_dat s) ->
  exists f, _db_writedat (s_dat s') (doff l i) SEEK_SET d =
      Ret tt (writedat_st d SEEK_SET f (doff l i) (dat_size s)) /\
    f_data f = enc_data (<[i := s']> l).
Proof.
  intros Hf Hi Hlen. destruct (lookup_split _ _ _ Hi) as (l1 & l2 & -> & <-).
  pose proof (enc_data_length l1) as Hl1. pose proof (dsum_nonneg l1).
  unfold doff. rewrite take_app_length.
  eexists. split.
  - rewrite (writedat_core d _ _ _ _ _ (lseek_set _ _ H)). unfold dat_size. by rewrite Hlen.
  - rewrite fwrite_data by by destruct (s_dat s'). cbn [f_pos f_data].
    rewrite Hf, insert_mid, !enc_data_split.
    replace (Z.to_nat (dsum l1)) with (length (enc_data l1)) by lia.
    apply splice_mid. unfold enc_dat. rewrite !length_app. by rewrite Hlen.
Qed.

(** Appending a data record. *)
Lemma writedat_append d l s' :
  f_data (datfd d) = enc_data l ->
  exists f, _db_writedat (s_dat s') 0 SEEK_END d =
      Ret tt (writedat_st d SEEK_END f (dsum l) (dat_size s')) /\
    f_data f = enc_data (l ++ [s']).
Proof.
  intros Hf.
  exists (fwrite (mk_file (f_data (datfd d)) (f_size (datfd d))) (s_dat s' ++ [NEWLINE])). split.
  - rewrite (writedat_core d _ _ _ _ _ (lseek_end _)).
    replace (Z.of_nat (f_size (datfd d))) with (dsum l); [done|].
    unfold f_size. by rewrite Hf, enc_data_length.
  - rewrite fwrite_data by by destruct (s_dat s'). cbn [f_pos f_data].
    unfold f_size. rewrite splice_end, Hf, enc_data_app. f_equal.
    unfold enc_data, enc_dat. simpl. by rewrite app_nil_r.
Qed.

Definition writeidx_st d (w : whence) (f : file) (off : Z) (b : bytes) (ptr : Z) : DB :=
  set_locks (append_locks w IdxFd ((nhash d + 1) * Z.of_nat PTR_SZ + 1) d)
    (set_idxfd f (set_idxoff off (set_idxbuf b (set_ptrval ptr d)))).

(** A key argument that can be printed. *)
Definition printable {L : Libc} (ka : key_arg) (d : DB) (k : bytes) : Prop :=
  key_text ka d = k /\ (ka = In_idxbuf -> sprintf_in_place = true).

Lemma caller_printable {L : Libc} k d : printable (Caller k) d k.
Proof. done. Qed.

Lemma writeidx_core {L : Libc} ka d s offset w o f1 :
  printable ka d (s_key s) ->
  lseek (idxfd d) offset w = Some (o, f1) ->
  (1026 <= length (idxbuf d))%nat ->
  ok_ptr (s_next s) -> nonul (s_key s) -> 0 <= datoff d -> datlen d = dat_size s ->
  ok_len (datoff d) s ->
  exists b, _db_writeidx ka offset w (s_next s) d =
      Ret tt (writeidx_st d w (fwrite f1 (enc_idx (datoff d) s)) o b (s_next s)) /\
    length b = length (idxbuf d).
Proof.
  intros [Hka Hin] Hs Hb Hp Hk Ho Hn Hl. pose proof Hl as [Hl1 Hl2].
  assert (overlaps ka && negb sprintf_in_place = false) as Hov by (destruct ka; [done|by rewrite Hin]).
  set (T := slot_text (datoff d) s) in *.
  assert (idx_text (s_key s) (datoff d) (datlen d) = T) as HT by by rewrite Hn.
  assert (nonul T) as HnT.
  { unfold T, slot_text, idx_text, dat_size. rewrite !sdec_udec by lia.
    repeat (apply Forall_app; split); try done; try (apply nonul_udec; lia); by repeat constructor. }
  unfold IDXLEN_MAX, IDXLEN_MIN in *.
  exists (splice 0 (T ++ [0]) (idxbuf d)). split; cycle 1.
  { apply splice_length. rewrite length_app. simpl. lia. }
  assert (splice 0 (T ++ [0]) (idxbuf d) = T ++ 0 :: drop (length (T ++ [0])) (idxbuf d)) as Hsp.
  { rewrite splice_0. by rewrite <-app_assoc. }
  unfold _db_writeidx, bind, gets, modify. rewrite ok_ptr_test by done.
  unfold die_if at 1, skip, ret. rewrite Hov. cbn [datoff datlen idxbuf set_ptrval].
  change (key_text ka (set_ptrval (s_next s) d)) with (key_text ka d). rewrite Hka, HT. replace (length (idxbuf d) <? length T + 1)%nat with false
    by (symmetry; apply Nat.ltb_ge; lia).
  cbn [idxbuf set_idxbuf]. unfold strlen. rewrite Hsp, cstr_app_nul by done.
  replace ((Z.of_nat (length T) <? IDXLEN_MIN) || (Z.of_nat (length T) >? IDXLEN_MAX)) with false
    by (symmetry; apply orb_false_iff; unfold IDXLEN_MIN, IDXLEN_MAX; lia).
  unfold die_if. cbv iota. unfold skip, ret.
  fold (ptr_field (s_next s)). fold (len_field (Z.of_nat (length T))).
  rewrite (take_ge (_ ++ _)); cycle 1.
  { rewrite length_app, ptr_field_length, len_field_length by (unfold IDXLEN_MAX; lia || done).
    unfold PTR_SZ, IDXLEN_SZ. lia. }
  unfold writeidx_st, enc_idx. fold T. rewrite app_assoc.
  destruct w; cbn -[lseek fwrite Z.to_nat Z.of_nat take app]; rewrite Hs;
    cbn [idxbuf set_idxoff set_idxbuf set_locks]; rewrite Nat2Z.id, take_app_length; by destruct d.
Qed.

(** Overwriting an index record with one of the same shape. *)
Lemma writeidx_over {L : Libc} ka d hs l i s s' :
  printable ka d (s_key s') ->
  wf_layout hs l -> (1026 <= length (idxbuf d))%nat ->
  f_data (idxfd d) = enc_index hs l -> l !! i = Some s ->
  same_shape s s' -> ok_ptr (s_next s') -> nonul (s_key s') ->
  datoff d = doff l i -> datlen d = dat_size s ->
  exists f b, _db_writeidx ka (ioff l i) SEEK_SET (s_next s') d =
      Ret tt (writeidx_st d SEEK_SET f (ioff l i) b (s_next s')) /\
    f_data f = enc_index hs (<[i := s']> l) /\ length b = length (idxbuf d).
Proof.
  intros Hka W Hb Hf Hi Hsh Hp Hk Ho Hn.
  destruct (lookup_split _ _ _ Hi) as (l1 & l2 & -> & <-).
  pose proof (wl_slot _ _ _ _ W) as [Wn _ _ _ Wl Wo].
  pose proof (wl_prefix_length _ _ _ W) as Hpre.
  pose proof (ioff_bound (l1 ++ s :: l2) (length l1)) as Hio. unfold TABLE_SZ in Hio.
  unfold doff in Ho. rewrite take_app_length in Ho.
  assert (ok_len (datoff d) s') as Wl'.
  { unfold ok_len. by rewrite Ho, (same_shape_text _ _ _ Hsh). }
  assert (0 <= ioff (l1 ++ s :: l2) (length l1)) as Hio0 by lia.
  destruct (writeidx_core ka d s' (ioff (l1 ++ s :: l2) (length l1)) SEEK_SET _ _ Hka
              (lseek_set (idxfd d) _ Hio0)) as (b & E & Hbl); try done.
  { lia. } { by rewrite Hn, (same_shape_size _ _ Hsh). }
  eexists _, b. split; [exact E|]. split; [|done].
  assert (length (enc_idx (dsum l1) s') = length (enc_idx (dsum l1) s)) as Hel.
  { rewrite Ho in Wl'. rewrite !enc_idx_length by done. by rewrite (same_shape_text _ _ _ Hsh). }
  rewrite fwrite_data, Hf, Ho, insert_mid, !enc_index_split.
  - cbn [f_pos f_data]. rewrite <-Hpre, Nat2Z.id, (same_shape_size _ _ Hsh).
    by apply splice_mid.
  - intros Hnil. apply (f_equal length) in Hnil. rewrite enc_idx_length in Hnil by done. done.
Qed.

(** Appending an index record. *)
Lemma writeidx_append {L : Libc} d hs l s' :
  wf_layout hs l -> (1026 <= length (idxbuf d))%nat ->
  f_data (idxfd d) = enc_index hs l ->
  ok_ptr (s_next s') -> nonul (s_key s') ->
  datoff d = dsum l -> datlen d = dat_size s' -> ok_len (dsum l) s' ->
  exists f b, _db_writeidx (Caller (s_key s')) 0 SEEK_END (s_next s') d =
      Ret tt (writeidx_st d SEEK_END f (ioff l (length l)) b (s_next s')) /\
    f_data f = enc_index hs (l ++ [s']) /\ length b = length (idxbuf d).
Proof.
  intros W Hb Hf Hp Hk Ho Hn Hl. pose proof (dsum_nonneg l).
  assert (printable (Caller (s_key s')) d (s_key s')) as Hka by done.
  destruct (writeidx_core (Caller (s_key s')) d s' 0 SEEK_END _ _ Hka (lseek_end (idxfd d))) as (b & E & Hbl);
    try done; [lia|by rewrite Ho|].
  rewrite (ioff_end hs l W), <-Hf.
  eexists _, b. split; [exact E|]. split; [|done].
  rewrite fwrite_data, Ho.
  - cbn [f_pos f_data]. unfold f_size. rewrite splice_end, Hf. unfold enc_index.
    rewrite enc_slots_app. simpl. by rewrite app_nil_r, <-app_assoc.
  - rewrite Ho. intros Hnil. apply (f_equal length) in Hnil.
    rewrite enc_idx_length in Hnil by done. done.
Qed.
End writes.
