(* ===== verification/DbChain.v ===== *)
(** The hash chains and the free list of the index file as lists of slots:
    the invariant of the layout, the map of keys to data it stands for, and
    how taking a record out of a chain and putting one at the front of a
    chain change both. *)
From Stdlib Require Import ZArith Lia.
From stdpp Require Import base list strings gmap numbers.
From S2P Require Import Prelude CString CFile Db DbLayout.

(** The records reached from chain pointer [p], in order. *)
Fixpoint chain (l : list slot) (p : Z) (ks : list nat) : Prop :=
  match ks with
  | [] => p = 0
  | i :: ks' => exists s, l !! i = Some s /\ p = ioff l i /\ chain l (s_next s) ks'
  end.

Definition hash_key (k : bytes) : Z := hash_loop 0 1 k mod NHASH_DEF.

(** Pointer 0 of the table is the free list; pointer [S h] heads the chain
    of the keys of hash [h]. *)
Definition fits (h : nat) (k : bytes) : Prop :=
  match h with
  | O => blank k = true
  | S h' => hash_key k = Z.of_nat h'
  end.

(** [css] lists the records of each chain, [loose] those in no chain. *)
Record store_ok (hs : list Z) (l : list slot) (css : list (list nat)) (loose : list nat) : Prop := {
  st_wf : wf_layout hs l;
  st_len : length css = 138%nat;
  st_chain : forall h p ks, hs !! h = Some p -> css !! h = Some ks -> chain l p ks;
  st_perm : mjoin css ++ loose ≡ₚ seq 0 (length l);
  st_fits : forall h ks i s, css !! h = Some ks -> i ∈ ks -> l !! i = Some s -> fits h (s_key s);
  st_keys : forall h ks i j s t, css !! S h = Some ks -> i ∈ ks -> j ∈ ks ->
    l !! i = Some s -> l !! j = Some t -> s_key s = s_key t -> i = j
}.

(** A live record: in the chain of some hash, with this key and data. *)
Definition live (l : list slot) (css : list (list nat)) (k v : bytes) : Prop :=
  exists h ks i s, css !! S h = Some ks /\ i ∈ ks /\ l !! i = Some s /\ s_key s = k /\ s_dat s = v.

(** The map the layout stands for. *)
Definition absmap (l : list slot) (css : list (list nat)) (m : gmap bytes bytes) : Prop :=
  forall k v, m !! k = Some v <-> live l css k v.

(** The pointer that precedes a record in chain [h] after the records [a]. *)
Definition pred (h : nat) (a : list nat) : loc :=
  match list.last a with None => LHead h | Some j => LSlot j end.

Section join.
Implicit Types (css : list (list nat)).

Lemma mjoin_insert css h ks ks' :
  css !! h = Some ks ->
  exists r, mjoin css ≡ₚ ks ++ r /\ mjoin (<[h := ks']> css) ≡ₚ ks' ++ r.
Proof.
  intros H. exists (mjoin (take h css) ++ mjoin (drop (S h) css)).
  assert (forall x, mjoin (take h css ++ x :: drop (S h) css)
                    ≡ₚ x ++ mjoin (take h css) ++ mjoin (drop (S h) css)) as E.
  { intros x. rewrite join_app. change (mjoin (x :: ?y)) with (x ++ mjoin y).
    rewrite !app_assoc. apply Permutation_app; [apply Permutation_app_comm|done]. }
  split.
  - rewrite <-(take_drop_middle css h ks H) at 1. apply E.
  - rewrite insert_take_drop by (by eapply lookup_lt_Some). apply E.
Qed.

Lemma mjoin_remove css h a i b :
  css !! h = Some (a ++ i :: b) -> i :: mjoin (<[h := a ++ b]> css) ≡ₚ mjoin css.
Proof.
  intros H. destruct (mjoin_insert css h _ (a ++ b) H) as (r & -> & ->).
  rewrite <-!app_assoc. simpl. by rewrite Permutation_middle.
Qed.

Lemma mjoin_push css h i ks :
  css !! h = Some ks -> mjoin (<[h := i :: ks]> css) ≡ₚ i :: mjoin css.
Proof. intros H. by destruct (mjoin_insert css h _ (i :: ks) H) as (r & -> & ->). Qed.

Lemma elem_of_join css h ks i : css !! h = Some ks -> i ∈ ks -> i ∈ mjoin css.
Proof. intros. apply list_elem_of_join. exists ks. split; [done|]. by eapply list_elem_of_lookup_2. Qed.

(** A record is in one chain only. *)
Lemma join_unique css h1 h2 ks1 ks2 i :
  NoDup (mjoin css) -> css !! h1 = Some ks1 -> css !! h2 = Some ks2 ->
  i ∈ ks1 -> i ∈ ks2 -> h1 = h2.
Proof.
  intros Hnd H1 H2 Hi1 Hi2. destruct (decide (h1 = h2)) as [|Hne]; [done|exfalso].
  destruct (mjoin_insert css h1 ks1 [] H1) as (r & E & E').
  rewrite E in Hnd. apply list.NoDup_app in Hnd as (_ & Hdis & _).
  apply (Hdis i Hi1). simpl in E'. rewrite <-E'.
  apply (elem_of_join _ h2 ks2); [|done]. by rewrite list_lookup_insert_ne.
Qed.
End join.

Section chains.
Implicit Types (l : list slot) (hs : list Z) (s : slot).

Lemma chain_ext l l' p ks :
  (forall j, (j < length l)%nat -> ioff l' j = ioff l j) ->
  (forall i s, i ∈ ks -> l !! i = Some s -> exists s', l' !! i = Some s' /\ s_next s' = s_next s) ->
  chain l p ks -> chain l' p ks.
Proof.
  intros Ho. revert p. induction ks as [|i ks IH]; intros p Hl; simpl; [done|].
  intros (s & Hi & -> & Hc). destruct (Hl i s) as (s' & Hi' & Hn); [set_solver|done|].
  exists s'. split_and!; [done|symmetry; apply Ho; by eapply lookup_lt_Some|].
  rewrite Hn. apply IH; [|done]. intros j t Hj. apply Hl. set_solver.
Qed.

Lemma chain_lookup l p ks i : chain l p ks -> i ∈ ks -> is_Some (l !! i).
Proof.
  revert p. induction ks as [|j ks IH]; intros p; simpl; [set_solver|].
  intros (s & Hj & _ & Hc) [->|Hi]%elem_of_cons; [by eexists|by eapply IH].
Qed.

Lemma chain_insert_ne l p ks i s s' :
  l !! i = Some s -> same_shape s s' -> i ∉ ks -> chain l p ks -> chain (<[i := s']> l) p ks.
Proof.
  intros Hi Hs Hn. apply chain_ext.
  - intros j _. by apply ioff_shape, (shape_insert _ _ s).
  - intros j t Hj Ht. exists t. split; [|done].
    rewrite list_lookup_insert_ne; [done|]. intros ->. set_solver.
Qed.

(** Replacing what follows record [j], when the records before it keep
    their pointers. *)
Lemma chain_relink l l' p a j ks ks' sj :
  (forall i, ioff l' i = ioff l i) ->
  (forall i s, i ∈ a -> l !! i = Some s -> exists s', l' !! i = Some s' /\ s_next s' = s_next s) ->
  l' !! j = Some sj -> chain l' (s_next sj) ks' ->
  chain l p (a ++ j :: ks) -> chain l' p (a ++ j :: ks').
Proof.
  intros Ho Hl Hj Hks. revert p. induction a as [|i a IH]; intros p; simpl.
  - intros (s & _ & -> & _). exists sj. by rewrite Ho.
  - intros (s & Hi & -> & Hc). destruct (Hl i s) as (s' & Hi' & Hn); [set_solver|done|].
    exists s'. split_and!; [done|by rewrite Ho|]. rewrite Hn. apply IH; [|done].
    intros i' t Hi''. apply Hl. set_solver.
Qed.

Lemma chain_suffix l p a i b :
  chain l p (a ++ i :: b) -> exists s, l !! i = Some s /\ chain l (s_next s) b /\
    (a = [] -> p = ioff l i).
Proof.
  revert p. induction a as [|j a IH]; intros p; simpl.
  - intros (s & Hi & -> & Hc). by exists s.
  - intros (s & _ & _ & Hc). destruct (IH _ Hc) as (t & ? & ? & _). by exists t.
Qed.

Lemma pred_cases h a : (a = [] /\ pred h a = LHead h) \/
  (exists a' j, a = a' ++ [j] /\ pred h a = LSlot j).
Proof.
  unfold pred. destruct (list.last a) as [j|] eqn:E.
  - right. apply last_Some in E as [a' ->]. by exists a', j.
  - left. by apply last_None in E.
Qed.

(** Taking record [i] out of its chain. *)
Lemma chain_remove l p h a i b s :
  chain l p (a ++ i :: b) -> l !! i = Some s -> NoDup (a ++ i :: b) ->
  chain (put_slot (pred h a) (s_next s) l)
    (match pred h a with LHead _ => s_next s | LSlot _ => p end) (a ++ b).
Proof.
  intros Hc Hi Hnd. destruct (chain_suffix _ _ _ _ _ Hc) as (t & Hi' & Hb & _).
  simplify_eq. destruct (pred_cases h a) as [[-> ->]|(a' & j & -> & ->)]; [done|].
  rewrite <-app_assoc in *. simpl in *.
  destruct (chain_suffix _ _ _ _ _ Hc) as (sj & Hj & _ & _). rewrite Hj.
  apply list.NoDup_app in Hnd as (_ & Hdis & Hnd).
  apply list.NoDup_cons in Hnd as [Hjn _].
  assert (same_shape sj (set_next (s_next s) sj)) as Hsh by done.
  eapply (chain_relink l _ p a' j (i :: b) b (set_next (s_next s) sj)); [| | | |done].
  - intros k. by apply ioff_shape, (shape_insert _ _ sj).
  - intros k u Hk Hu. exists u. split; [|done].
    rewrite list_lookup_insert_ne; [done|]. intros ->. apply (Hdis k Hk). set_solver.
  - apply list_lookup_insert_eq. by eapply lookup_lt_Some.
  - simpl. eapply chain_insert_ne; [done|done| |done]. set_solver.
Qed.
End chains.

(** * Updating a well-formed layout *)
Section wf_updates.
Implicit Types (l : list slot) (hs : list Z) (s : slot).

Lemma wf_insert hs l i s s' :
  wf_layout hs l -> l !! i = Some s -> same_shape s s' -> wf_slot (doff l i) s' ->
  wf_layout hs (<[i := s']> l).
Proof.
  intros [Hl Hp Hs] Hi Hsh Hw. split; [done|done|].
  intros j t Hj. rewrite (doff_shape l) by (by eapply shape_insert).
  destruct (decide (i = j)) as [->|Hne].
  - rewrite list_lookup_insert_eq in Hj by (by eapply lookup_lt_Some). by simplify_eq.
  - rewrite list_lookup_insert_ne in Hj by done. by apply Hs.
Qed.

Lemma wf_head hs l h v : wf_layout hs l -> ok_ptr v -> wf_layout (<[h := v]> hs) l.
Proof.
  intros [Hl Hp Hs] Hv. split; [by rewrite length_insert| |done].
  by apply Forall_insert.
Qed.

Lemma wf_set_next off v s : ok_ptr v -> wf_slot off s -> wf_slot off (set_next v s).
Proof. intros Hv [? ? ? ? ? ?]. by split. Qed.

Lemma wf_put hs l p v :
  wf_layout hs l -> ok_ptr v -> wf_layout (put_head p v hs) (put_slot p v l).
Proof.
  intros W Hv. destruct p as [h|j]; simpl; [by apply wf_head|].
  destruct (l !! j) as [s|] eqn:Hj; [|done].
  eapply wf_insert; [done|done|done|]. apply wf_set_next; [done|]. by apply W.
Qed.

Lemma doff_app l1 l2 j : (j <= length l1)%nat -> doff (l1 ++ l2) j = doff l1 j.
Proof. intros. unfold doff. by rewrite take_app_le. Qed.
Lemma ioff_app l1 l2 j : (j <= length l1)%nat -> ioff (l1 ++ l2) j = ioff l1 j.
Proof. intros. unfold ioff. by rewrite take_app_le. Qed.

Lemma wf_snoc hs l s : wf_layout hs l -> wf_slot (dsum l) s -> wf_layout hs (l ++ [s]).
Proof.
  intros [Hl Hp Hs] Hw. split; [done|done|]. intros j t Hj.
  apply lookup_app_Some in Hj as [Hj|[Hlen Hj]].
  - apply lookup_lt_Some in Hj as Hlt. rewrite doff_app by lia. by apply Hs.
  - apply list_lookup_singleton_Some in Hj as [Hz <-].
    replace j with (length l) by lia. rewrite doff_app by lia.
    unfold doff. by rewrite take_ge by lia.
Qed.

Lemma put_slot_lookup p v l i s :
  l !! i = Some s -> exists s', put_slot p v l !! i = Some s' /\ s_key s' = s_key s /\
    s_dat s' = s_dat s /\ (p <> LSlot i -> s' = s).
Proof.
  intros Hi. destruct p as [h|j]; simpl; [by exists s|].
  destruct (l !! j) as [t|] eqn:Hj; [|by exists s].
  destruct (decide (j = i)) as [->|Hne].
  - simplify_eq. rewrite list_lookup_insert_eq by (by eapply lookup_lt_Some).
    by exists (set_next v s).
  - rewrite list_lookup_insert_ne by done. by exists s.
Qed.

Lemma put_slot_lookup_inv p v l i s' :
  put_slot p v l !! i = Some s' -> exists s, l !! i = Some s /\ s_key s' = s_key s /\
    s_dat s' = s_dat s.
Proof.
  intros H. destruct (l !! i) as [s|] eqn:Hi.
  - destruct (put_slot_lookup p v l i s Hi) as (t & Ht & ? & ? & _). simplify_eq. by exists s.
  - apply lookup_lt_Some in H. apply lookup_ge_None in Hi.
    destruct p as [h|j]; simpl in H; [lia|].
    destruct (l !! j); [rewrite length_insert in H|]; lia.
Qed.

Lemma put_slot_length p v l : length (put_slot p v l) = length l.
Proof. symmetry. eapply Forall2_length, shape_put. Qed.
End wf_updates.

(** * Taking records out of chains and putting them in *)
Section store.
Implicit Types (l : list slot) (hs : list Z) (s : slot) (css : list (list nat)).

Lemma st_nodup hs l css loose : store_ok hs l css loose -> NoDup (mjoin css ++ loose).
Proof. intros St. rewrite (st_perm _ _ _ _ St). apply NoDup_seq. Qed.

Lemma st_lt hs l css loose h ks i :
  store_ok hs l css loose -> css !! h = Some ks -> i ∈ ks -> (i < length l)%nat.
Proof.
  intros St Hh Hi. assert (i ∈ mjoin css ++ loose) as H.
  { apply elem_of_app. left. by eapply elem_of_join. }
  rewrite (st_perm _ _ _ _ St) in H. apply elem_of_seq in H. lia.
Qed.

Lemma st_chain_nodup hs l css loose h ks :
  store_ok hs l css loose -> css !! h = Some ks -> NoDup ks.
Proof.
  intros St Hh. pose proof (st_nodup _ _ _ _ St) as Hnd.
  apply list.NoDup_app in Hnd as (Hnd & _ & _).
  destruct (mjoin_insert css h ks [] Hh) as (r & E & _). rewrite E in Hnd.
  by apply list.NoDup_app in Hnd as (? & _ & _).
Qed.

Lemma st_unique hs l css loose h1 h2 ks1 ks2 i :
  store_ok hs l css loose -> css !! h1 = Some ks1 -> css !! h2 = Some ks2 ->
  i ∈ ks1 -> i ∈ ks2 -> h1 = h2.
Proof.
  intros St. apply join_unique. apply st_nodup in St.
  by apply list.NoDup_app in St as (? & _ & _).
Qed.

Lemma st_loose hs l css loose h ks i :
  store_ok hs l css loose -> css !! h = Some ks -> i ∈ loose -> i ∉ ks.
Proof.
  intros St Hh Hi Hk. apply st_nodup in St.
  apply list.NoDup_app in St as (_ & Hd & _). apply (Hd i); [|done]. by eapply elem_of_join.
Qed.

(** Records in chains have representable offsets. *)
Lemma chain_ok_ptr hs l p ks i :
  wf_layout hs l -> ok_ptr p -> chain l p ks -> i ∈ ks -> ok_ptr (ioff l i).
Proof.
  intros W. revert p. induction ks as [|j ks IH]; intros p Hp; simpl; [set_solver|].
  intros (s & Hj & -> & Hc) [->|Hi]%elem_of_cons; [done|].
  eapply IH; [|done|done]. by apply (wl_slots _ _ W) in Hj as [? _ _ _ _ _].
Qed.

Lemma st_ok_ptr hs l css loose h ks i :
  store_ok hs l css loose -> css !! h = Some ks -> i ∈ ks -> ok_ptr (ioff l i).
Proof.
  intros St Hh Hi. pose proof (st_wf _ _ _ _ St) as W.
  destruct (lookup_lt_is_Some_2 hs h) as [p Hp].
  { rewrite (wl_heads _ _ W), <-(st_len _ _ _ _ St). by eapply lookup_lt_Some. }
  eapply chain_ok_ptr; [done| |by eapply st_chain|done].
  eapply Forall_lookup_1; [apply W|done].
Qed.

Lemma store_remove hs l css loose h a i b s :
  store_ok hs l css loose -> css !! h = Some (a ++ i :: b) -> l !! i = Some s ->
  store_ok (put_head (pred h a) (s_next s) hs) (put_slot (pred h a) (s_next s) l)
    (<[h := a ++ b]> css) (i :: loose).
Proof.
  intros St Hh Hi. pose proof (st_wf _ _ _ _ St) as W.
  pose proof (st_chain_nodup _ _ _ _ _ _ St Hh) as Hnd.
  apply (wl_slots _ _ W) in Hi as Hw. destruct Hw as [Hn _ _ _ _ _].
  assert (forall j, pred h a = LSlot j -> j ∈ a) as Hpred.
  { intros j Hj. destruct (pred_cases h a) as [[_ E]|(a' & j' & -> & E)]; [congruence|].
    rewrite Hj in E. simplify_eq. set_solver. }
  apply lookup_lt_Some in Hh as Hhlt.
  split.
  - by apply wf_put.
  - by rewrite length_insert, (st_len _ _ _ _ St).
  - intros h' p ks Hp Hks. destruct (decide (h' = h)) as [->|Hne].
    + rewrite list_lookup_insert_eq in Hks by done. simplify_eq.
      destruct (lookup_lt_is_Some_2 hs h) as [p0 Hp0].
      { by rewrite (wl_heads _ _ W), <-(st_len _ _ _ _ St). }
      pose proof (chain_remove l p0 h a i b s (st_chain _ _ _ _ St _ _ _ Hp0 Hh) Hi Hnd) as Hc.
      destruct (pred_cases h a) as [[_ E]|(a' & j & _ & E)]; rewrite E in *; simpl in *.
      * rewrite list_lookup_insert_eq in Hp by (by eapply lookup_lt_Some). by simplify_eq.
      * by simplify_eq.
    + rewrite list_lookup_insert_ne in Hks by done.
      assert (hs !! h' = Some p) as Hp'.
      { destruct (pred_cases h a) as [[_ E]|(a' & j & _ & E)]; rewrite E in Hp; simpl in Hp; [|done].
        by rewrite list_lookup_insert_ne in Hp by done. }
      eapply chain_ext; [| |by eapply st_chain].
      * intros j _. apply ioff_shape, shape_put.
      * intros j t Hj Ht. destruct (put_slot_lookup (pred h a) (s_next s) l j t Ht) as (t' & ? & _ & _ & E).
        exists t'. split; [done|]. rewrite E; [done|]. intros Hpj. apply Hne.
        eapply st_unique; [done|done|exact Hh|exact Hj|]. apply elem_of_app. left. by apply Hpred.
  - rewrite put_slot_length, <-(st_perm _ _ _ _ St), <-(mjoin_remove css h a i b Hh).
    by rewrite <-Permutation_middle.
  - intros h' ks j t Hks Hj Ht. apply put_slot_lookup_inv in Ht as (t0 & Ht0 & -> & _).
    destruct (decide (h' = h)) as [->|Hne].
    + rewrite list_lookup_insert_eq in Hks by done. simplify_eq.
      eapply st_fits; [done|exact Hh| |done]. set_solver.
    + rewrite list_lookup_insert_ne in Hks by done. by eapply st_fits.
  - intros h' ks j1 j2 t1 t2 Hks Hj1 Hj2 Ht1 Ht2 Heq.
    apply put_slot_lookup_inv in Ht1 as (u1 & Hu1 & E1 & _).
    apply put_slot_lookup_inv in Ht2 as (u2 & Hu2 & E2 & _).
    destruct (decide (S h' = h)) as [<-|Hne].
    + rewrite list_lookup_insert_eq in Hks by done. simplify_eq.
      eapply st_keys; [done|exact Hh|..]; [set_solver|set_solver|done|done|congruence].
    + rewrite list_lookup_insert_ne in Hks by done.
      eapply st_keys; [done|exact Hks|..]; [done..|congruence].
Qed.
End store.

Section store_more.
Implicit Types (l : list slot) (hs : list Z) (s : slot) (css : list (list nat)).

(** A key that no record of chain [h] has; the free list takes any. *)
Definition fresh (l : list slot) (h : nat) (ks : list nat) (k : bytes) : Prop :=
  h <> O -> forall j t, j ∈ ks -> l !! j = Some t -> s_key t <> k.

(** Rewriting the loose record [i] and putting it at the front of chain
    [h]. *)
Lemma store_push hs l css loose h p ks i s s' :
  store_ok hs l css (i :: loose) -> css !! h = Some ks -> hs !! h = Some p ->
  l !! i = Some s -> same_shape s s' -> s_next s' = p -> wf_slot (doff l i) s' ->
  fits h (s_key s') -> fresh l h ks (s_key s') -> ok_ptr (ioff l i) ->
  store_ok (<[h := ioff l i]> hs) (<[i := s']> l) (<[h := i :: ks]> css) loose.
Proof.
  intros St Hh Hp Hi Hsh Hn Hw Hfit Hfr Hok.
  pose proof (st_wf _ _ _ _ St) as W.
  assert (forall h' ks', css !! h' = Some ks' -> i ∉ ks') as Hni.
  { intros h' ks' Hk. eapply st_loose; [done|done|set_solver]. }
  apply lookup_lt_Some in Hh as Hhlt. apply lookup_lt_Some in Hi as Hilt.
  apply lookup_lt_Some in Hp as Hplt.
  assert (forall j t h' ks', css !! h' = Some ks' -> j ∈ ks' -> <[i := s']> l !! j = Some t ->
            l !! j = Some t) as Hold.
  { intros j t h' ks' Hk Hj Ht. rewrite list_lookup_insert_ne in Ht; [done|].
    intros ->. by apply (Hni h' ks'). }
  split.
  - apply wf_head; [|done]. by eapply wf_insert.
  - by rewrite length_insert, (st_len _ _ _ _ St).
  - intros h' q ks' Hq Hks. destruct (decide (h' = h)) as [->|Hne].
    + rewrite list_lookup_insert_eq in Hks by done. rewrite list_lookup_insert_eq in Hq by done.
      simplify_eq. exists s'. split; [by apply list_lookup_insert_eq|].
      split; [symmetry; by apply ioff_shape, (shape_insert _ _ s)|].
      eapply chain_insert_ne; [done|done|by eapply Hni|by eapply st_chain].
    + rewrite list_lookup_insert_ne in Hks by done. rewrite list_lookup_insert_ne in Hq by done.
      eapply chain_insert_ne; [done|done|by eapply Hni|by eapply st_chain].
  - rewrite length_insert, <-(st_perm _ _ _ _ St), (mjoin_push css h i ks Hh). simpl.
    by rewrite <-Permutation_middle.
  - intros h' ks' j t Hks Hj Ht. destruct (decide (h' = h)) as [->|Hne].
    + rewrite list_lookup_insert_eq in Hks by done. simplify_eq.
      apply elem_of_cons in Hj as [->|Hj].
      * rewrite list_lookup_insert_eq in Ht by done. by simplify_eq.
      * eapply st_fits; [done|exact Hh|exact Hj|by eapply Hold].
    + rewrite list_lookup_insert_ne in Hks by done.
      eapply st_fits; [done|exact Hks|exact Hj|by eapply Hold].
  - intros h' ks' j1 j2 t1 t2 Hks Hj1 Hj2 Ht1 Ht2 Heq.
    destruct (decide (S h' = h)) as [<-|Hne]; cycle 1.
    { rewrite list_lookup_insert_ne in Hks by done.
      eapply st_keys; [done|exact Hks|exact Hj1|exact Hj2|by eapply Hold|by eapply Hold|done]. }
    rewrite list_lookup_insert_eq in Hks by done. simplify_eq.
    apply elem_of_cons in Hj1 as [->|Hj1]; apply elem_of_cons in Hj2 as [->|Hj2]; [done|..].
    + rewrite list_lookup_insert_eq in Ht1 by done. simplify_eq.
      exfalso. eapply Hfr; [done|exact Hj2|by eapply Hold|done].
    + rewrite list_lookup_insert_eq in Ht2 by done. simplify_eq.
      exfalso. eapply Hfr; [done|exact Hj1|by eapply Hold|done].
    + eapply st_keys; [done|exact Hh|exact Hj1|exact Hj2|by eapply Hold|by eapply Hold|done].
Qed.

(** Appending a record, not yet in a chain. *)
Lemma store_grow hs l css loose s :
  store_ok hs l css loose -> wf_slot (dsum l) s ->
  store_ok hs (l ++ [s]) css (length l :: loose).
Proof.
  intros St Hw.
  assert (forall j t h ks, css !! h = Some ks -> j ∈ ks -> (l ++ [s]) !! j = Some t ->
            l !! j = Some t) as Hold.
  { intros j t h ks Hk Hj Ht. rewrite lookup_app_l in Ht; [done|]. by eapply st_lt. }
  split.
  - apply wf_snoc; [apply St|done].
  - apply St.
  - intros h p ks Hp Hks. eapply chain_ext; [| |by eapply st_chain].
    + intros j Hj. apply ioff_app. lia.
    + intros j t Hj Ht. exists t. by rewrite lookup_app_l by (by eapply lookup_lt_Some).
  - rewrite length_app, seq_app. simpl. rewrite <-(st_perm _ _ _ _ St).
    rewrite <-app_assoc. apply Permutation_app_head. by rewrite Permutation_cons_append.
  - intros h ks j t Hks Hj Ht. eapply st_fits; [done|exact Hks|exact Hj|by eapply Hold].
  - intros h ks j1 j2 t1 t2 Hks Hj1 Hj2 Ht1 Ht2 Heq.
    eapply st_keys; [done|exact Hks|exact Hj1|exact Hj2|by eapply Hold|by eapply Hold|done].
Qed.

(** Replacing the data of a record by data of the same length. *)
Lemma store_set_dat hs l css loose i s s' :
  store_ok hs l css loose -> l !! i = Some s -> same_shape s s' ->
  s_next s' = s_next s -> s_key s' = s_key s -> wf_slot (doff l i) s' ->
  store_ok hs (<[i := s']> l) css loose.
Proof.
  intros St Hi Hsh Hn Hk Hw. apply lookup_lt_Some in Hi as Hilt.
  assert (forall j t, <[i := s']> l !! j = Some t -> exists t0, l !! j = Some t0 /\ s_key t = s_key t0) as Hold.
  { intros j t Ht. destruct (decide (i = j)) as [->|Hne].
    - rewrite list_lookup_insert_eq in Ht by done. simplify_eq. by exists s.
    - rewrite list_lookup_insert_ne in Ht by done. by exists t. }
  split.
  - eapply wf_insert; [apply St|done..].
  - apply St.
  - intros h p ks Hp Hks. eapply chain_ext; [| |by eapply st_chain].
    + intros j _. by apply ioff_shape, (shape_insert _ _ s).
    + intros j t Hj Ht. destruct (decide (i = j)) as [->|Hne].
      * simplify_eq. exists s'. by rewrite list_lookup_insert_eq by done.
      * exists t. by rewrite list_lookup_insert_ne by done.
  - rewrite length_insert. apply St.
  - intros h ks j t Hks Hj Ht. apply Hold in Ht as (t0 & Ht0 & ->). by eapply st_fits.
  - intros h ks j1 j2 t1 t2 Hks Hj1 Hj2 Ht1 Ht2 Heq.
    apply Hold in Ht1 as (u1 & Hu1 & E1). apply Hold in Ht2 as (u2 & Hu2 & E2).
    eapply st_keys; [done|exact Hks|exact Hj1|exact Hj2|done|done|congruence].
Qed.
End store_more.

(** * The map a layout stands for *)
Section abs.
Implicit Types (l : list slot) (hs : list Z) (s : slot) (css : list (list nat)) (m : gmap bytes bytes).

Lemma live_in l css h ks i s :
  css !! S h = Some ks -> i ∈ ks -> l !! i = Some s -> live l css (s_key s) (s_dat s).
Proof. intros. by exists h, ks, i, s. Qed.

(** [live] sees only the keys and data of the records in the hash chains. *)
Lemma live_ext l l' css k v :
  (forall h ks i s, css !! S h = Some ks -> i ∈ ks -> l !! i = Some s ->
     exists s', l' !! i = Some s' /\ s_key s' = s_key s /\ s_dat s' = s_dat s) ->
  live l css k v -> live l' css k v.
Proof.
  intros H (h & ks & i & s & Hh & Hi & Hs & <- & <-).
  destruct (H h ks i s Hh Hi Hs) as (s' & Hs' & <- & <-). by eapply live_in.
Qed.

Lemma live_key_unique hs l css loose k v h ks i s :
  store_ok hs l css loose -> css !! S h = Some ks -> i ∈ ks -> l !! i = Some s -> s_key s = k ->
  live l css k v -> v = s_dat s.
Proof.
  intros St Hh Hi Hs <- (h' & ks' & i' & s' & Hh' & Hi' & Hs' & Hk & <-).
  pose proof (st_fits _ _ _ _ St _ _ _ _ Hh Hi Hs) as F.
  pose proof (st_fits _ _ _ _ St _ _ _ _ Hh' Hi' Hs') as F'. simpl in F, F'.
  rewrite Hk in F'. assert (h' = h) as -> by lia. simplify_eq.
  pose proof (st_keys _ _ _ _ St _ _ _ _ _ _ Hh Hi' Hi Hs' Hs Hk). by simplify_eq.
Qed.

Lemma absmap_found l css m h ks i s :
  absmap l css m -> css !! S h = Some ks -> i ∈ ks -> l !! i = Some s ->
  m !! s_key s = Some (s_dat s).
Proof. intros A Hh Hi Hs. apply A. by eapply live_in. Qed.

Lemma absmap_none hs l css loose m h ks k :
  store_ok hs l css loose -> absmap l css m -> css !! S h = Some ks -> hash_key k = Z.of_nat h ->
  (forall j t, j ∈ ks -> l !! j = Some t -> s_key t <> k) -> m !! k = None.
Proof.
  intros St A Hh Hk Hno. apply eq_None_not_Some. intros [v Hv].
  apply A in Hv as (h' & ks' & i & s & Hh' & Hi & Hs & Hsk & _).
  pose proof (st_fits _ _ _ _ St _ _ _ _ Hh' Hi Hs) as F. simpl in F.
  rewrite Hsk in F. assert (h' = h) as -> by lia. simplify_eq. by eapply Hno.
Qed.

Lemma absmap_put l css m p v : absmap l css m -> absmap (put_slot p v l) css m.
Proof.
  intros A k w. rewrite (A k w). split; apply live_ext.
  - intros h ks i s _ _ Hs. destruct (put_slot_lookup p v l i s Hs) as (s' & ? & ? & ? & _). by exists s'.
  - intros h ks i s _ _ Hs. apply put_slot_lookup_inv in Hs as (s' & ? & -> & ->). by exists s'.
Qed.

Lemma absmap_free l css m ks : absmap l css m -> absmap l (<[0%nat := ks]> css) m.
Proof.
  intros A k v. rewrite (A k v).
  split; intros (h & ks' & i & s & Hh & H); exists h, ks', i, s;
    (split; [|exact H]); by rewrite list_lookup_insert_ne in * by done.
Qed.

Lemma absmap_loose hs l css loose m i s s' :
  store_ok hs l css loose -> i ∈ loose -> l !! i = Some s ->
  absmap l css m -> absmap (<[i := s']> l) css m.
Proof.
  intros St Hi Hs A k v. rewrite (A k v). apply lookup_lt_Some in Hs as Hlt.
  split; apply live_ext; intros h ks j t Hh Hj Ht;
    assert (i <> j) by (intros ->; by eapply st_loose).
  - exists t. by rewrite list_lookup_insert_ne.
  - rewrite list_lookup_insert_ne in Ht by done. by exists t.
Qed.

Lemma absmap_grow hs l css loose m s :
  store_ok hs l css loose -> absmap l css m -> absmap (l ++ [s]) css m.
Proof.
  intros St A k v. rewrite (A k v). split; apply live_ext; intros h ks j t Hh Hj Ht; exists t.
  - by rewrite lookup_app_l by (by eapply lookup_lt_Some).
  - by rewrite lookup_app_l in Ht by (by eapply st_lt).
Qed.

Lemma absmap_remove hs l css loose m h a i b s :
  store_ok hs l css loose -> absmap l css m -> css !! S h = Some (a ++ i :: b) -> l !! i = Some s ->
  absmap l (<[S h := a ++ b]> css) (delete (s_key s) m).
Proof.
  intros St A Hh Hs k v. rewrite lookup_delete_Some, (A k v).
  apply lookup_lt_Some in Hh as Hlt. split.
  - intros (Hne & h' & ks & j & t & Hh' & Hj & Ht & <- & <-).
    destruct (decide (h' = h)) as [->|Hneh].
    + exists h, (a ++ b), j, t. rewrite list_lookup_insert_eq by done.
      split_and!; try done. simplify_eq. rewrite elem_of_app, elem_of_cons in Hj.
      rewrite elem_of_app. destruct Hj as [|[->|]]; [tauto| |tauto]. simplify_eq.
    + eapply (live_in _ _ h'); [|done|done]. by rewrite list_lookup_insert_ne by congruence.
  - intros (h' & ks & j & t & Hh' & Hj & Ht & <- & <-).
    destruct (decide (h' = h)) as [->|Hneh].
    + rewrite list_lookup_insert_eq in Hh' by done. simplify_eq.
      assert (j ∈ a ++ i :: b) as Hj' by (rewrite elem_of_app in *; rewrite elem_of_cons; tauto).
      split; [|by eapply live_in]. intros Heq.
      assert (i = j) as ->.
      { eapply st_keys; [done|exact Hh| |exact Hj'|done|done|done].
        apply elem_of_app. right. by left. }
      pose proof (st_chain_nodup _ _ _ _ _ _ St Hh) as Hnd.
      apply list.NoDup_app in Hnd as (_ & Hd & Hnd). apply list.NoDup_cons in Hnd as [Hnb _].
      apply elem_of_app in Hj as [Hj|Hj]; [apply (Hd j Hj); by left|done].
    + rewrite list_lookup_insert_ne in Hh' by congruence.
      split; [|by eapply live_in]. intros Heq. apply Hneh.
      assert (i ∈ a ++ i :: b) as Hia by (apply elem_of_app; right; by left).
      pose proof (st_fits _ _ _ _ St _ _ _ _ Hh' Hj Ht) as F1.
      pose proof (st_fits _ _ _ _ St _ _ _ _ Hh Hia Hs) as F2.
      simpl in F1, F2. rewrite Heq in F2. lia.
Qed.

Lemma absmap_push hs l css loose m h i ks s s' :
  store_ok hs l css (i :: loose) -> absmap l css m -> css !! S h = Some ks -> l !! i = Some s ->
  m !! s_key s' = None ->
  absmap (<[i := s']> l) (<[S h := i :: ks]> css) (<[s_key s' := s_dat s']> m).
Proof.
  intros St A Hh Hs Hnew k v.
  assert (absmap (<[i := s']> l) css m) as A'
    by (eapply absmap_loose; [done|by left|done|done]).
  clear A. apply lookup_lt_Some in Hh as Hlt. apply lookup_lt_Some in Hs as Hilt.
  rewrite lookup_insert_Some, (A' k v). split.
  - intros [[<- <-]|[Hne (h' & ks' & j & t & Hh' & Hj & Ht & <- & <-)]].
    + eapply live_in; [by apply list_lookup_insert_eq|by left|by apply list_lookup_insert_eq].
    + destruct (decide (h' = h)) as [->|Hneh].
      * simplify_eq. eapply live_in; [by apply list_lookup_insert_eq|by right|done].
      * eapply (live_in _ _ h'); [|done|done]. by rewrite list_lookup_insert_ne by congruence.
  - intros (h' & ks' & j & t & Hh' & Hj & Ht & <- & <-).
    destruct (decide (j = i)) as [->|Hji].
    + rewrite list_lookup_insert_eq in Ht by done. simplify_eq. by left.
    + right. destruct (decide (h' = h)) as [->|Hneh].
      * rewrite list_lookup_insert_eq in Hh' by done. simplify_eq.
        apply elem_of_cons in Hj as [->|Hj]; [done|].
        split; [|by eapply live_in]. intros Heq.
        assert (live (<[i := s']> l) css (s_key t) (s_dat t)) as HL by by eapply live_in.
        apply A' in HL. congruence.
      * rewrite list_lookup_insert_ne in Hh' by congruence.
        assert (live (<[i := s']> l) css (s_key t) (s_dat t)) as HL by by eapply live_in.
        split; [|done]. intros Heq. apply A' in HL. congruence.
Qed.

Lemma absmap_set_dat hs l css loose m h ks i s s' :
  store_ok hs l css loose -> absmap l css m -> css !! S h = Some ks -> i ∈ ks ->
  l !! i = Some s -> s_key s' = s_key s ->
  absmap (<[i := s']> l) css (<[s_key s := s_dat s']> m).
Proof.
  intros St A Hh Hi Hs Hk k v. apply lookup_lt_Some in Hs as Hilt.
  rewrite lookup_insert_Some, (A k v). split.
  - intros [[<- <-]|[Hne (h' & ks' & j & t & Hh' & Hj & Ht & <- & <-)]].
    + rewrite <-Hk. eapply live_in; [done|done|]. by apply list_lookup_insert_eq.
    + eapply live_in; [done|done|]. rewrite list_lookup_insert_ne; [done|].
      intros ->. simplify_eq.
  - intros (h' & ks' & j & t & Hh' & Hj & Ht & <- & <-).
    destruct (decide (j = i)) as [->|Hji].
    + rewrite list_lookup_insert_eq in Ht by done. simplify_eq. by left.
    + rewrite list_lookup_insert_ne in Ht by done. right.
      split; [|by eapply live_in]. intros Heq. apply Hji.
      pose proof (st_fits _ _ _ _ St _ _ _ _ Hh' Hj Ht) as F1.
      pose proof (st_fits _ _ _ _ St _ _ _ _ Hh Hi Hs) as F2. simpl in F1, F2.
      rewrite Heq in F2. assert (h' = h) as -> by lia. simplify_eq.
      by eapply st_keys.
Qed.
End abs.
