(* ===== verification/DbSpec.v ===== *)
(** The database operations of [Db] on files that encode a well-formed
    store: what [_db_find_and_lock], [_db_dodelete], [_db_findfree] and the
    two branches of [db_store] do to the layout, to the chain of the key and
    to the map it stands for. *)
From Stdlib Require Import ZArith Lia.
From stdpp Require Import base list strings gmap numbers.
From S2P Require Import Prelude CString CFile Db DbLayout DbBytes DbChain.

(** A handle whose index file encodes [li] with table [hs] and whose data
    file encodes [ld] (the two differ between the writes of one operation). *)
Record good (d : DB) (hs : list Z) (li ld : list slot) : Prop := {
  g_nhash : nhash d = NHASH_DEF;
  g_hashoff : hashoff d = HASH_OFF;
  g_idxbuf : (1026 <= length (idxbuf d))%nat;
  g_datbuf : (1026 <= length (datbuf d))%nat;
  g_idx : f_data (idxfd d) = enc_index hs li;
  g_dat : f_data (datfd d) = enc_data ld
}.

(** The fields of the handle after locating slot [i]. *)
Record located (d : DB) (l : list slot) (i : nat) (s : slot) : Prop := {
  lc_idxoff : idxoff d = ioff l i;
  lc_datoff : datoff d = doff l i;
  lc_datlen : datlen d = dat_size s;
  lc_ptrval : ptrval d = s_next s;
  lc_key : cstr (idxbuf d) = s_key s
}.

(** What an operation leaves alone, and the lock calls it makes. *)
Definition keep (ls : list lock_ev) (d d' : DB) : Prop :=
  chainoff d' = chainoff d /\ locks d' = ls ++ locks d.

Ltac run_db := cbn [idxfd datfd idxbuf datbuf name idxoff idxlen datoff datlen ptrval ptroff
  chainoff hashoff nhash errno locks
  set_idxfd set_datfd set_idxbuf set_datbuf set_idxoff set_idxlen set_datoff set_datlen
  set_ptrval set_ptroff set_chainoff set_errno set_locks
  set_cnt_delok set_cnt_delerr set_cnt_fetchok set_cnt_fetcherr set_cnt_nextrec
  set_cnt_stor1 set_cnt_stor2 set_cnt_stor3 set_cnt_stor4 set_cnt_storerr
  readidx_st writedat_st writeidx_st append_locks] in *.

Section find.
Implicit Types (l : list slot) (hs : list Z) (s : slot) (d : DB) (css : list (list nat)).

Lemma readidx_good d hs l i s :
  good d hs l l -> wf_layout hs l -> l !! i = Some s ->
  exists d', _db_readidx (ioff l i) d = Ret (s_next s) d' /\ good d' hs l l /\
    keep [] d d' /\ located d' l i s /\ ptroff d' = ptroff d.
Proof.
  intros [G1 G2 G3 G4 G5 G6] W Hi.
  destruct (readidx_slot d hs l i s W G3 G5 Hi) as (f & b & len & E & Hf & Hb & Hbl).
  eexists. split; [exact E|]. repeat split; try done. run_db. lia.
Qed.

Lemma find_loop_spec fuel k d hs l p ks :
  good d hs l l -> wf_layout hs l -> nonul k -> chain l p ks -> (length ks <= fuel)%nat ->
  exists d' r, find_loop fuel k p d = Ret r d' /\ good d' hs l l /\ keep [] d d' /\
    ((r = 0 /\ forall j t, j ∈ ks -> l !! j = Some t -> s_key t <> k) \/
     exists a i b s, ks = a ++ i :: b /\ l !! i = Some s /\ s_key s = k /\ r = ioff l i /\
       located d' l i s /\
       ptroff d' = match list.last a with None => ptroff d | Some j => ioff l j end).
Proof.
  intros G W Hk. revert p ks d G. induction fuel as [|fuel IH]; intros p ks d G Hc Hlen.
  - destruct ks; [|simpl in Hlen; lia]. simpl in Hc. subst p.
    exists d, 0. repeat split; try done; try apply G. left. set_solver.
  - destruct ks as [|i ks].
    { simpl in Hc. subst p. exists d, 0. repeat split; try done; try apply G. left. set_solver. }
    destruct Hc as (s & Hi & -> & Hc). cbn [find_loop].
    pose proof (ioff_bound l i) as Hio. unfold TABLE_SZ in Hio.
    destruct (Z.eqb_spec (ioff l i) 0) as [|_]; [lia|].
    destruct (readidx_good d hs l i s G W Hi) as (d1 & E1 & G1 & [K1 K2] & L1 & P1).
    unfold bind. rewrite E1. unfold gets. unfold streq. rewrite (lc_key _ _ _ _ L1), (cstr_id k Hk).
    destruct (bool_decide_reflect (s_key s = k)) as [<-|Hne].
    + exists d1, (ioff l i). repeat split; try done; try apply G1. right.
      by exists [], i, ks, s.
    + unfold modify. simpl in Hlen.
      destruct (IH (s_next s) ks (set_ptroff (ioff l i) d1)) as (d2 & r & E2 & G2 & [K3 K4] & D).
      { destruct G1. by split. } { done. } { lia. }
      exists d2, r. split; [exact E2|]. split; [done|]. run_db.
      split; [split; cbn [app] in *; congruence|].
      destruct D as [[-> Hno]|(a & j & b & t & -> & Hj & Ht & -> & L2 & P2)]; [left|right].
      * split; [done|]. intros j t [->|Hj]%elem_of_cons Ht; [congruence|by eapply Hno].
      * exists (i :: a), j, b, t. split_and!; try done. rewrite P2. destruct a as [|x a]; [done|].
        cbn [list.last]. destruct (list.last (x :: a)) eqn:El; [done|]. by apply last_None in El.
Qed.

Lemma hash_key_range k : 0 <= hash_key k < 137.
Proof. apply Z.mod_pos_bound. done. Qed.

Lemma isum_length off l : 11 * Z.of_nat (length l) <= isum off l.
Proof.
  revert off. induction l as [|s l IH]; intros off; simpl; [done|].
  specialize (IH (off + dat_size s)). lia.
Qed.

Lemma chain_fuel_ok d hs l css loose h ks :
  good d hs l l -> store_ok hs l css loose -> css !! h = Some ks ->
  (length ks <= chain_fuel d)%nat.
Proof.
  intros G St Hh. pose proof (st_wf _ _ _ _ St) as W.
  destruct (mjoin_insert css h ks [] Hh) as (r & E & _).
  pose proof (st_perm _ _ _ _ St) as P. rewrite E in P.
  apply Permutation_length in P. rewrite !length_app, length_seq in P.
  unfold chain_fuel, f_size. rewrite (g_idx _ _ _ _ G).
  pose proof (ioff_end hs l W) as He. unfold ioff in He. rewrite take_ge in He by lia.
  pose proof (isum_length 0 l). unfold TABLE_SZ in *. lia.
Qed.

(** The chain a key belongs to. *)
Definition hidx (k : bytes) : nat := S (Z.to_nat (hash_key k)).

Lemma hidx_lt k : (hidx k < 138)%nat.
Proof. unfold hidx. pose proof (hash_key_range k). lia. Qed.

Lemma find_and_lock_spec k w d hs l css loose :
  good d hs l l -> store_ok hs l css loose -> nonul k ->
  exists d' ks, css !! hidx k = Some ks /\ good d' hs l l /\
    chainoff d' = Z.of_nat (hidx k) * 7 /\
    locks d' = mk_lock (if w : bool then WRLCK else RDLCK) IdxFd (chainoff d') 1 :: locks d /\
    ((_db_find_and_lock k w d = Ret (-1) d' /\
        forall j t, j ∈ ks -> l !! j = Some t -> s_key t <> k) \/
     exists a i b s, _db_find_and_lock k w d = Ret 0 d' /\ ks = a ++ i :: b /\
       l !! i = Some s /\ s_key s = k /\ located d' l i s /\
       ptroff d' = loc_off l (pred (hidx k) a)).
Proof.
  intros G St Hk. pose proof (st_wf _ _ _ _ St) as W.
  destruct (lookup_lt_is_Some_2 css (hidx k)) as [ks Hks].
  { rewrite (st_len _ _ _ _ St). apply hidx_lt. }
  destruct (lookup_lt_is_Some_2 hs (hidx k)) as [p Hp].
  { rewrite (wl_heads _ _ W). apply hidx_lt. }
  set (co := Z.of_nat (hidx k) * 7).
  set (d1 := set_locks (mk_lock (if w then WRLCK else RDLCK) IdxFd co 1 :: locks d)
               (set_ptroff co (set_chainoff co d))).
  assert (good d1 hs l l) as G1 by (destruct G; by split).
  destruct (readptr_head d1 hs l (hidx k) p (g_idx _ _ _ _ G1) Hp (wl_ptrs _ _ W)) as (f & Hf & E2).
  set (d2 := set_idxfd f d1) in *.
  assert (good d2 hs l l) as G2 by (destruct G1; by split).
  destruct (find_loop_spec (chain_fuel d2) k d2 hs l p ks G2 W Hk)
    as (d3 & r & E3 & G3 & [K1 K2] & D).
  { eapply st_chain; done. } { by eapply chain_fuel_ok. }
  exists d3, ks. split; [done|]. split; [done|].
  change (chainoff d2) with co in K1. split; [done|]. rewrite K1. split; [done|].
  assert (_db_find_and_lock k w d = Ret (if r =? 0 then -1 else 0) d3) as E.
  { assert (_db_hash d k * Z.of_nat PTR_SZ + hashoff d = co) as Hco.
    { unfold _db_hash. rewrite (g_nhash _ _ _ _ G), (g_hashoff _ _ _ _ G).
      unfold co, hidx. pose proof (hash_key_range k). unfold hash_key, HASH_OFF, PTR_SZ in *. lia. }
    unfold _db_find_and_lock, bind, modify, gets. rewrite Hco.
    replace ((if w then writew_lock IdxFd else readw_lock IdxFd) (chainoff (set_chainoff co d)))
      with (lock_reg (if w then WRLCK else RDLCK) IdxFd co) by by destruct w.
    destruct w; cbn -[_db_readptr find_loop chain_fuel]; fold d1; unfold co in *; rewrite E2;
      cbn -[find_loop chain_fuel]; fold d2; rewrite E3; done. }
  destruct D as [[-> Hno]|(a & i & b & s & -> & Hi & Hs & -> & L & P)]; [left|right].
  - by rewrite E.
  - pose proof (ioff_bound l i) as Hio. unfold TABLE_SZ in Hio.
    destruct (Z.eqb_spec (ioff l i) 0) as [|_]; [lia|].
    exists a, i, b, s. split_and!; try done.
    rewrite P. unfold pred. by destruct (list.last a).
Qed.
End find.

(** * Pointer writes and deletion *)
Section delete.
Implicit Types (l : list slot) (hs : list Z) (s : slot) (d : DB) (css : list (list nat)).

Definition valid_loc (l : list slot) (p : loc) : Prop :=
  match p with LHead h => (h < 138)%nat | LSlot j => (j < length l)%nat end.

Lemma writeptr_good d hs li ld p v :
  good d hs li ld -> wf_layout hs li -> ok_ptr v -> valid_loc li p ->
  exists f, _db_writeptr (loc_off li p) v d = Ret tt (set_idxfd f d) /\
    good (set_idxfd f d) (put_head p v hs) (put_slot p v li) ld.
Proof.
  intros G W Hv Hp. destruct (writeptr_loc d hs li p v W (g_idx _ _ _ _ G) Hv Hp) as (f & Hf & E).
  exists f. split; [done|]. destruct G. by split.
Qed.

Lemma readptr_good d hs li ld h p :
  good d hs li ld -> wf_layout hs li -> hs !! h = Some p ->
  exists f, _db_readptr (Z.of_nat h * 7) d = Ret p (set_idxfd f d) /\
    good (set_idxfd f d) hs li ld.
Proof.
  intros G W Hp. destruct (readptr_head d hs li h p (g_idx _ _ _ _ G) Hp (wl_ptrs _ _ W)) as (f & Hf & E).
  exists f. split; [done|]. destruct G. by split.
Qed.

Lemma enc_data_put p v l : enc_data (put_slot p v l) = enc_data l.
Proof.
  destruct p as [h|j]; simpl; [done|]. destruct (l !! j) as [s|] eqn:Hj; [|done].
  destruct (lookup_split _ _ _ Hj) as (l1 & l2 & -> & <-).
  by rewrite insert_mid, !enc_data_split.
Qed.

Lemma loc_off_shape l l' p : Forall2 same_shape l l' -> loc_off l' p = loc_off l p.
Proof. intros. destruct p; simpl; [done|]. by apply ioff_shape. Qed.

Lemma cstr_rest b : cstr (drop (length (cstr b)) b) = [].
Proof.
  induction b as [|c b IH]; simpl; [done|]. destruct (Z.eqb_spec c 0) as [->|]; simpl; [done|].
  exact IH.
Qed.

Lemma nonul_blanks n : nonul (replicate n SPACE).
Proof. by apply Forall_replicate. Qed.

(** The record that deletion leaves in the free list. *)
Definition blanked (fp : Z) (s : slot) : slot :=
  mk_slot fp (replicate (length (s_key s)) SPACE) (replicate (length (s_dat s)) SPACE).

Lemma blanked_shape fp s : same_shape s (blanked fp s).
Proof. split; simpl; apply length_replicate. Qed.

Lemma blanked_wf off fp s : ok_ptr fp -> wf_slot off s -> wf_slot off (blanked fp s).
Proof.
  intros Hfp [Wn Wk Wd Wsz Wl Wo]. pose proof (blanked_shape fp s) as Hsh. split; try done.
  - split; by apply Forall_replicate.
  - apply nonul_blanks.
  - by rewrite (same_shape_size _ _ Hsh).
  - unfold ok_len. by rewrite (same_shape_text _ _ _ Hsh).
Qed.

Lemma blanked_blank fp s : blank (s_key (blanked fp s)) = true.
Proof. simpl. unfold blank. induction (length (s_key s)); simpl; [done|]. done. Qed.

(** [_db_dodelete] up to the call of [_db_writeidx]. *)
Definition dodelete_rest {L : Libc} (io fp save : Z) : M DB unit :=
  bind (_db_writeidx In_idxbuf io SEEK_SET fp) (fun _ => bind (gets idxoff) (fun io => bind (_db_writeptr FREE_OFF io)
    (fun _ => bind (gets ptroff) (fun po => bind (_db_writeptr po save) (fun _ => un_lock IdxFd FREE_OFF 1))))).

Lemma dodelete_start {L : Libc} d hs l i s fp :
  good d hs l l -> wf_layout hs l -> l !! i = Some s -> located d l i s -> hs !! 0%nat = Some fp ->
  exists d3, _db_dodelete d = dodelete_rest (ioff l i) fp (s_next s) d3 /\
    good d3 hs l (<[i := blanked fp s]> l) /\ cstr (idxbuf d3) = s_key (blanked fp s) /\
    datoff d3 = doff l i /\ datlen d3 = dat_size s /\ ptroff d3 = ptroff d /\
    keep [mk_lock WRLCK IdxFd FREE_OFF 1] d d3.
Proof.
  intros G W Hi [L1 L2 L3 L4 L5] Hfp. set (s' := blanked fp s).
  pose proof (wl_slots _ _ W i s Hi) as [_ _ _ Wsz _ _].
  pose proof (blanked_shape fp s) as Hsh. fold s' in Hsh.
  set (d1 := set_locks (mk_lock WRLCK IdxFd FREE_OFF 1 :: locks d)
    (set_idxbuf (splice 0 (s_key s') (idxbuf d)) (set_datbuf (splice 0 (s_dat s' ++ [0]) (datbuf d)) d))).
  assert (cstr (datbuf d1) = s_dat s') as Hcd.
  { change (datbuf d1) with (splice 0 (s_dat s' ++ [0]) (datbuf d)).
    rewrite splice_0, <-app_assoc. apply cstr_app_nul, nonul_blanks. }
  assert (cstr (idxbuf d1) = s_key s') as Hck.
  { change (idxbuf d1) with (splice 0 (s_key s') (idxbuf d)).
    rewrite splice_0, cstr_app by apply nonul_blanks.
    unfold s' at 2. simpl. rewrite length_replicate, <-L5, cstr_rest. apply app_nil_r. }
  assert (good d1 hs l l) as G1.
  { destruct G as [G1 G2 G3 G4 G5 G6]. split; try done.
    - change (idxbuf d1) with (splice 0 (s_key s') (idxbuf d)).
      rewrite splice_0, length_app, length_drop. lia.
    - change (datbuf d1) with (splice 0 (s_dat s' ++ [0]) (datbuf d)).
      rewrite splice_0, length_app, length_drop. lia. }
  destruct (writedat_over d1 l i s s' (g_dat _ _ _ _ G1) Hi (proj2 Hsh)) as (f2 & E2 & Hf2).
  set (d2 := writedat_st d1 SEEK_SET f2 (doff l i) (dat_size s)) in *.
  assert (good d2 hs l (<[i := s']> l)) as G2 by (destruct G1; by split).
  destruct (readptr_good d2 hs l _ 0 fp G2 W Hfp) as (f3 & E3 & G3).
  exists (set_idxfd f3 d2). split_and!; try done.
  unfold _db_dodelete, writew_lock, lock_reg. do 3 step.
  assert (Z.to_nat (datlen d - 1) = length (s_dat s)) as -> by (rewrite L3; unfold dat_size; lia).
  cbn [idxbuf set_datbuf]. rewrite L5. to_state d1. do 2 step. rewrite Hcd.
  change (datoff d1) with (datoff d). rewrite L2. call E2. to_state d2.
  change FREE_OFF with (Z.of_nat 0 * 7). call E3. to_state (set_idxfd f3 d2).
  do 2 step. change (ptrval (set_idxfd f3 d2)) with (ptrval d). rewrite L4.
  change (idxoff (set_idxfd f3 d2)) with (idxoff d). by rewrite L1.
Qed.

(** Where [sprintf] does not copy in place, it ends there. *)
Lemma dodelete_undef {L : Libc} d hs l i s fp :
  sprintf_in_place = false ->
  good d hs l l -> wf_layout hs l -> l !! i = Some s -> located d l i s -> hs !! 0%nat = Some fp ->
  exists w, _db_dodelete d = Undef w.
Proof.
  intros Hin G W Hi Hl Hfp. destruct (dodelete_start d hs l i s fp G W Hi Hl Hfp) as (d3 & -> & _).
  assert (ok_ptr fp) as Hokf by (eapply Forall_lookup_1; [apply W|done]).
  unfold dodelete_rest, _db_writeidx, bind, modify. rewrite ok_ptr_test by done.
  unfold die_if at 1, skip, ret. cbn [overlaps andb]. rewrite Hin. cbn [negb]. by eexists.
Qed.

Lemma dodelete_spec {L : Libc} {I : InPlace L} d hs l i s pl fp :
  good d hs l l -> wf_layout hs l -> l !! i = Some s -> located d l i s ->
  ptroff d = loc_off l pl -> valid_loc l pl -> hs !! 0%nat = Some fp -> ok_ptr (ioff l i) ->
  exists d', _db_dodelete d = Ret tt d' /\
    (let l1 := <[i := blanked fp s]> l in
     let hs2 := put_head pl (s_next s) (<[0%nat := ioff l i]> hs) in
     let l2 := put_slot pl (s_next s) l1 in
     good d' hs2 l2 l2) /\
    keep [mk_lock UNLCK IdxFd FREE_OFF 1; mk_lock WRLCK IdxFd FREE_OFF 1] d d'.
Proof.
  intros G W Hi Hloc Hpl Hv Hfp Hok.
  pose proof (wl_slots _ _ W i s Hi) as Ws. pose proof Ws as [Wn _ _ _ _ _].
  assert (ok_ptr fp) as Hokf by (eapply Forall_lookup_1; [apply W|done]).
  pose proof (blanked_wf _ fp s Hokf Ws) as Wb. pose proof (blanked_shape fp s) as Hsh.
  destruct (dodelete_start d hs l i s fp G W Hi Hloc Hfp) as (d3 & E & G3 & Hck & Ho3 & Hn3 & Hp3 & [K1 K2]).
  set (s' := blanked fp s) in *.
  assert (printable In_idxbuf d3 (s_key s')) as Hka by (split; [done|by intros _; apply in_place]).
  destruct (writeidx_over In_idxbuf d3 hs l i s s' Hka W (g_idxbuf _ _ _ _ G3) (g_idx _ _ _ _ G3) Hi Hsh)
    as (f4 & b4 & E4 & Hf4 & Hb4); [apply Wb|apply nonul_blanks|done|done|].
  set (d4 := writeidx_st d3 SEEK_SET f4 (ioff l i) b4 (s_next s')) in *.
  assert (wf_layout hs (<[i := s']> l)) as W4 by (by eapply wf_insert).
  assert (good d4 hs (<[i := s']> l) (<[i := s']> l)) as G4.
  { destruct G3. split; try done. change (idxbuf d4) with b4. lia. }
  destruct (writeptr_good d4 hs _ _ (LHead 0) (ioff l i) G4 W4 Hok) as (f5 & E5 & G5); [simpl; lia|].
  simpl in G5. set (d5 := set_idxfd f5 d4) in *.
  assert (Forall2 same_shape l (<[i := s']> l)) as Hshl by by eapply shape_insert.
  destruct (writeptr_good d5 (<[0%nat := ioff l i]> hs) _ _ pl (s_next s) G5) as (f6 & E6 & G6).
  { by apply wf_head. } { done. }
  { destruct pl; simpl in *; [done|]. by rewrite length_insert. }
  set (d6 := set_idxfd f6 d5) in *.
  exists (set_locks (mk_lock UNLCK IdxFd FREE_OFF 1 :: locks d6) d6). split; [|split].
  - rewrite E. unfold dodelete_rest, un_lock, lock_reg. change fp with (s_next s') at 1.
    call E4. to_state d4. step. change (idxoff d4) with (ioff l i).
    change FREE_OFF with (Z.of_nat 0 * 7) at 1. call E5. to_state d5.
    step. change (ptroff d5) with (ptroff d3). rewrite Hp3, Hpl, <-(loc_off_shape _ _ pl Hshl).
    call E6. done.
  - cbv zeta. destruct G6. split; try done. by rewrite enc_data_put.
  - split; [exact K1|]. cbn. by rewrite K2.
Qed.
End delete.

(** * The free list *)
Section freelist.
Implicit Types (l : list slot) (hs : list Z) (s : slot) (d : DB) (css : list (list nat)).

Lemma findfree_loop_spec fuel kl dl d hs l p ks save :
  good d hs l l -> wf_layout hs l -> chain l p ks -> (length ks <= fuel)%nat ->
  exists d' r, findfree_loop fuel kl dl save p d = Ret r d' /\ good d' hs l l /\ keep [] d d' /\
    (r.1 = 0 \/
     exists a i b s, ks = a ++ i :: b /\ l !! i = Some s /\
       Z.of_nat (length (s_key s)) = kl /\ dat_size s = dl /\
       r = (ioff l i, match list.last a with None => save | Some j => ioff l j end) /\
       located d' l i s).
Proof.
  intros G W. revert p ks d save G. induction fuel as [|fuel IH]; intros p ks d save G Hc Hlen.
  - destruct ks; [|simpl in Hlen; lia]. simpl in Hc. subst p.
    exists d, (0, save). repeat split; try done; try apply G. by left.
  - destruct ks as [|i ks].
    { simpl in Hc. subst p. exists d, (0, save). repeat split; try done; try apply G. by left. }
    destruct Hc as (s & Hi & -> & Hc). cbn [findfree_loop].
    pose proof (ioff_bound l i) as Hio. unfold TABLE_SZ in Hio.
    destruct (Z.eqb_spec (ioff l i) 0) as [|_]; [lia|].
    destruct (readidx_good d hs l i s G W Hi) as (d1 & E1 & G1 & [K1 K2] & L1 & P1).
    call E1. step. unfold strlen. rewrite (lc_key _ _ _ _ L1), (lc_datlen _ _ _ _ L1).
    destruct ((Z.of_nat (length (s_key s)) =? kl) && (dat_size s =? dl)) eqn:Et.
    + apply andb_true_iff in Et as [<-%Z.eqb_eq <-%Z.eqb_eq].
      exists d1, (ioff l i, save). repeat split; try done; try apply G1. right.
      by exists [], i, ks, s.
    + simpl in Hlen.
      destruct (IH (s_next s) ks d1 (ioff l i) G1 Hc) as (d2 & r & E2 & G2 & [K3 K4] & D); [lia|].
      exists d2, r. split; [exact E2|]. split; [done|].
      split; [split; cbn [app] in *; congruence|].
      destruct D as [?|(a & j & b & t & -> & Hj & ? & ? & -> & L2)]; [by left|right].
      exists (i :: a), j, b, t. split_and!; try done.
      destruct a as [|x a]; [done|]. cbn [list.last].
      destruct (list.last (x :: a)) eqn:El; [done|]. by apply last_None in El.
Qed.

Definition free_locks : list lock_ev :=
  [mk_lock UNLCK IdxFd FREE_OFF 1; mk_lock WRLCK IdxFd FREE_OFF 1].

Lemma pred_valid l h a ks css hs loose :
  store_ok hs l css loose -> css !! h = Some (a ++ ks) -> valid_loc l (pred h a).
Proof.
  intros St Hh. destruct (pred_cases h a) as [[_ ->]|(a' & j & -> & ->)]; simpl.
  - apply lookup_lt_Some in Hh. by rewrite (st_len _ _ _ _ St) in Hh.
  - eapply st_lt; [done|done|]. set_solver.
Qed.

Lemma findfree_spec kl dl d hs l css loose ks :
  good d hs l l -> store_ok hs l css loose -> css !! 0%nat = Some ks ->
  exists d', keep free_locks d d' /\
    ((_db_findfree kl dl d = Ret (-1) d' /\ good d' hs l l) \/
     exists a i b s, _db_findfree kl dl d = Ret 0 d' /\
       ks = a ++ i :: b /\ l !! i = Some s /\ Z.of_nat (length (s_key s)) = kl /\ dat_size s = dl /\
       located d' l i s /\
       let l' := put_slot (pred 0 a) (s_next s) l in
       good d' (put_head (pred 0 a) (s_next s) hs) l' l').
Proof.
  intros G St Hks. pose proof (st_wf _ _ _ _ St) as W.
  destruct (lookup_lt_is_Some_2 hs 0) as [p Hp]; [rewrite (wl_heads _ _ W); lia|].
  set (d1 := set_locks (mk_lock WRLCK IdxFd FREE_OFF 1 :: locks d) d).
  assert (good d1 hs l l) as G1 by (destruct G; by split).
  destruct (readptr_good d1 hs l l 0 p G1 W Hp) as (f & E2 & G2). set (d2 := set_idxfd f d1) in *.
  destruct (findfree_loop_spec (chain_fuel d2) kl dl d2 hs l p ks FREE_OFF G2 W)
    as (d3 & r & E3 & G3 & [K1 K2] & D).
  { by eapply st_chain. } { by eapply chain_fuel_ok. }
  assert (_db_findfree kl dl d =
    bind (if r.1 =? 0 then ret (-1)
          else bind (gets ptrval) (fun p => bind (_db_writeptr r.2 p) (fun _ => ret 0)))
      (fun rc => bind (un_lock IdxFd FREE_OFF 1) (fun _ => ret rc)) d3) as E.
  { unfold _db_findfree, writew_lock, lock_reg. step. to_state d1.
    change FREE_OFF with (Z.of_nat 0 * 7). call E2. to_state d2. step.
    change (Z.of_nat 0 * 7) with FREE_OFF. by call E3. }
  destruct D as [Hr|(a & i & b & s & -> & Hi & Hkl & Hdl & -> & L)].
  - exists (set_locks (mk_lock UNLCK IdxFd FREE_OFF 1 :: locks d3) d3).
    split; [split; [exact K1|]; cbn; unfold free_locks; rewrite K2; done|]. left.
    rewrite E, Hr. split; [done|]. destruct G3; by split.
  - pose proof (ioff_bound l i) as Hio. unfold TABLE_SZ in Hio.
    destruct (writeptr_good d3 hs l l (pred 0 a) (s_next s) G3 W) as (f4 & E4 & G4).
    { by apply (wl_slots _ _ W) in Hi as [? _ _ _ _ _]. }
    { by eapply pred_valid. }
    set (d4 := set_idxfd f4 d3) in *.
    exists (set_locks (mk_lock UNLCK IdxFd FREE_OFF 1 :: locks d4) d4).
    split; [split; [exact K1|]; cbn; unfold free_locks; rewrite K2; done|]. right. exists a, i, b, s.
    split; [|split_and!; try done].
    + rewrite E. cbn [fst snd]. destruct (Z.eqb_spec (ioff l i) 0) as [|_]; [lia|].
      step. step. rewrite (lc_ptrval _ _ _ _ L).
      replace (match list.last a with Some j => ioff l j | None => FREE_OFF end)
        with (loc_off l (pred 0 a)) by (unfold pred; by destruct (list.last a)).
      step. call E4. done.
    + by destruct L.
    + destruct G4. split; try done. by rewrite enc_data_put.
Qed.
End freelist.

(** * Storing *)

(** Well-bracketed lock calls (latest first): every lock taken is released,
    locks taken in between first. *)
Inductive bracketed : list lock_ev -> Prop :=
| br_nil : bracketed []
| br_app a b : bracketed a -> bracketed b -> bracketed (a ++ b)
| br_wrap t fd off len ls : t <> UNLCK -> bracketed ls ->
    bracketed (mk_lock UNLCK fd off len :: ls ++ [mk_lock t fd off len]).

Create HintDb db.
#[export] Hint Constructors bracketed : db.

(** The C strings that may be keys, and the data records. *)
Definition ok_key (k : bytes) : Prop := nonul k /\ nosep k.
Definition ok_data (v : bytes) : Prop :=
  nonul v /\ DATLEN_MIN <= Z.of_nat (length v) + 1 <= DATLEN_MAX.

(** Room for one more record at the end of the two files: its text has a
    legal length and its offset fits in a chain pointer. *)
Definition room (d : DB) (k v : bytes) : Prop :=
  let off := Z.of_nat (f_size (datfd d)) in
  IDXLEN_MIN <= Z.of_nat (length (idx_text k off (Z.of_nat (length v) + 1))) <= IDXLEN_MAX /\
  off <= LONG_MAX /\ Z.of_nat (f_size (idxfd d)) <= PTR_MAX.

Section storing.
Implicit Types (l : list slot) (hs : list Z) (s : slot) (d : DB) (css : list (list nat)).

Lemma bracketed_wrap1 t fd off len : t <> UNLCK ->
  bracketed [mk_lock UNLCK fd off len; mk_lock t fd off len].
Proof. intros. apply (br_wrap t fd off len []); [done|constructor]. Qed.

Lemma room_slot d hs l k v p :
  good d hs l l -> wf_layout hs l -> ok_key k -> ok_data v -> room d k v -> ok_ptr p ->
  wf_slot (dsum l) (mk_slot p k v) /\ ok_ptr (ioff l (length l)).
Proof.
  intros G W [Hk1 Hk2] [Hv Hvl] (R1 & R2 & R3) Hp. unfold f_size in *.
  rewrite (g_dat _ _ _ _ G), enc_data_length in R1, R2.
  rewrite (g_idx _ _ _ _ G), <-(ioff_end hs l W) in R3.
  pose proof (ioff_bound l (length l)). unfold TABLE_SZ in *. pose proof (dsum_nonneg l).
  split; [|split; lia]. split; try done.
Qed.

(** Appending a record and putting it at the front of its chain. *)
Lemma append_spec {L : Libc} d hs l css m k v p ks :
  good d hs l l -> store_ok hs l css [] -> absmap l css m ->
  ok_key k -> ok_data v -> room d k v -> m !! k = None ->
  hs !! hidx k = Some p -> css !! hidx k = Some ks -> chainoff d = Z.of_nat (hidx k) * 7 ->
  exists d' hs' l' css' ls,
    bind (_db_writedat v 0 SEEK_END) (fun _ => bind (_db_writeidx (Caller k) 0 SEEK_END p) (fun _ =>
      bind (gets chainoff) (fun co => bind (gets idxoff) (fun io => _db_writeptr co io)))) d
      = Ret tt d' /\
    good d' hs' l' l' /\ store_ok hs' l' css' [] /\ absmap l' css' (<[k := v]> m) /\
    keep ls d d' /\ bracketed ls /\ (length l' <= S (length l))%nat.
Proof.
  intros G St A Hk Hv R Hm Hp Hks Hco. pose proof (st_wf _ _ _ _ St) as W.
  assert (ok_ptr p) as Hpp by (eapply Forall_lookup_1; [apply W|done]).
  destruct (room_slot d hs l k v p G W Hk Hv R Hpp) as [Ws Hio].
  set (s' := mk_slot p k v) in *.
  destruct (writedat_append d l s' (g_dat _ _ _ _ G)) as (f1 & E1 & Hf1).
  set (d1 := writedat_st d SEEK_END f1 (dsum l) (dat_size s')) in *.
  assert (good d1 hs l (l ++ [s'])) as G1 by (destruct G; by split).
  destruct (writeidx_append d1 hs l s' W (g_idxbuf _ _ _ _ G1) (g_idx _ _ _ _ G1))
    as (f2 & b2 & E2 & Hf2 & Hb2); [done|apply Hk|done|done|apply Ws|].
  set (d2 := writeidx_st d1 SEEK_END f2 (ioff l (length l)) b2 (s_next s')) in *.
  assert (good d2 hs (l ++ [s']) (l ++ [s'])) as G2.
  { destruct G1. split; try done. change (idxbuf d2) with b2. lia. }
  pose proof (store_grow _ _ _ _ s' St Ws) as St2.
  destruct (writeptr_good d2 hs _ _ (LHead (hidx k)) (ioff l (length l)) G2 (st_wf _ _ _ _ St2) Hio)
    as (f3 & E3 & G3); [simpl; apply hidx_lt|]. simpl in G3.
  set (d3 := set_idxfd f3 d2) in *.
  assert ((l ++ [s']) !! length l = Some s') as Hlast by by apply list_lookup_middle.
  assert (ioff (l ++ [s']) (length l) = ioff l (length l)) as Hioff by (by apply ioff_app).
  assert (hash_key k = Z.of_nat (Z.to_nat (hash_key k))) as Hh by (pose proof (hash_key_range k); lia).
  exists d3, (<[hidx k := ioff l (length l)]> hs), (l ++ [s']), (<[hidx k := length l :: ks]> css).
  eexists. split; [|split; [done|split; [|split; [|split; [split|split]]]]].
  - call E1. to_state d1. call E2. to_state d2. do 2 step.
    change (chainoff d2) with (chainoff d). rewrite Hco. exact E3.
  - rewrite <-Hioff. rewrite <-(list_insert_id (l ++ [s']) (length l) s' Hlast) at 2.
    eapply store_push; [exact St2|done|done|done|done|done| |done| |by rewrite Hioff].
    + rewrite doff_app by done. unfold doff. by rewrite take_ge by done.
    + intros _ j t Hj Ht Hkt. rewrite lookup_app_l in Ht by (by eapply st_lt).
      pose proof (absmap_found _ _ _ _ _ _ _ A Hks Hj Ht) as Hf. simpl in *. congruence.
  - rewrite <-(list_insert_id (l ++ [s']) (length l) s' Hlast).
    change k with (s_key s') at 2. change v with (s_dat s').
    eapply absmap_push; [exact St2|by eapply absmap_grow|done|done|done].
  - done.
  - change (locks d3) with ([mk_lock UNLCK IdxFd ((nhash d + 1) * Z.of_nat PTR_SZ + 1) 0;
      mk_lock WRLCK IdxFd ((nhash d + 1) * Z.of_nat PTR_SZ + 1) 0;
      mk_lock UNLCK DatFd 0 0; mk_lock WRLCK DatFd 0 0] ++ locks d). reflexivity.
  - apply (br_app [_; _] [_; _]); by apply bracketed_wrap1.
  - rewrite length_app. simpl. lia.
Qed.
End storing.

Section branches.
Implicit Types (l : list slot) (hs : list Z) (s : slot) (d : DB) (css : list (list nat)).

Lemma hidx_fits k : fits (hidx k) k.
Proof. simpl. pose proof (hash_key_range k). lia. Qed.

(** Writing a free record over and putting it at the front of the chain of
    its new key. *)
Lemma reuse_spec {L : Libc} d hs l css m k v p i s ks :
  good d hs l l -> store_ok hs l css [i] -> absmap l css m ->
  ok_key k -> ok_data v -> m !! k = None -> l !! i = Some s -> located d l i (mk_slot (ptrval d) (s_key s) (s_dat s)) ->
  length (s_key s) = length k -> length (s_dat s) = length v -> ok_ptr (ioff l i) ->
  hs !! hidx k = Some p -> css !! hidx k = Some ks -> chainoff d = Z.of_nat (hidx k) * 7 ->
  exists d' hs' l' css',
    bind (gets datoff) (fun o => bind (_db_writedat v o SEEK_SET) (fun _ =>
      bind (gets idxoff) (fun io => bind (_db_writeidx (Caller k) io SEEK_SET p) (fun _ =>
      bind (gets chainoff) (fun co => bind (gets idxoff) (fun io => _db_writeptr co io)))))) d
      = Ret tt d' /\
    good d' hs' l' l' /\ store_ok hs' l' css' [] /\ absmap l' css' (<[k := v]> m) /\ keep [] d d' /\
    length l' = length l.
Proof.
  intros G St A [Hk Hk'] [Hv Hvl] Hm Hi [L1 L2 L3 _ _] Hlk Hlv Hok Hp Hks Hco.
  pose proof (st_wf _ _ _ _ St) as W.
  assert (ok_ptr p) as Hpp by (eapply Forall_lookup_1; [apply W|done]).
  set (s' := mk_slot p k v).
  assert (same_shape s s') as Hsh by done.
  assert (wf_slot (doff l i) s') as Ws.
  { pose proof (wl_slots _ _ W i s Hi) as [_ _ _ _ Wl Wo]. split; try done.
    unfold ok_len. by rewrite (same_shape_text _ _ _ Hsh). }
  destruct (writedat_over d l i s s' (g_dat _ _ _ _ G) Hi (proj2 Hsh)) as (f1 & E1 & Hf1).
  set (d1 := writedat_st d SEEK_SET f1 (doff l i) (dat_size s)) in *.
  assert (good d1 hs l (<[i := s']> l)) as G1 by (destruct G; by split).
  destruct (writeidx_over (Caller k) d1 hs l i s s' (caller_printable k d1) W (g_idxbuf _ _ _ _ G1) (g_idx _ _ _ _ G1) Hi Hsh)
    as (f2 & b2 & E2 & Hf2 & Hb2); [done|done|done|done|].
  set (d2 := writeidx_st d1 SEEK_SET f2 (ioff l i) b2 (s_next s')) in *.
  assert (good d2 hs (<[i := s']> l) (<[i := s']> l)) as G2.
  { destruct G1. split; try done. change (idxbuf d2) with b2. lia. }
  destruct (writeptr_good d2 hs _ _ (LHead (hidx k)) (ioff l i) G2) as (f3 & E3 & G3);
    [by eapply wf_insert|done|apply hidx_lt|]. simpl in G3.
  set (d3 := set_idxfd f3 d2) in *.
  exists d3, (<[hidx k := ioff l i]> hs), (<[i := s']> l), (<[hidx k := i :: ks]> css).
  split; [|split; [done|split; [|split; [|split; [done|apply length_insert]]]]].
  - step. rewrite L2. call E1. to_state d1. step. change (idxoff d1) with (idxoff d). rewrite L1.
    call E2. to_state d2. do 2 step. change (chainoff d2) with (chainoff d). rewrite Hco. exact E3.
  - eapply store_push; [exact St|done|done|done|done|done|done|apply hidx_fits| |done].
    intros _ j t Hj Ht Hkt.
    pose proof (absmap_found _ _ _ _ _ _ _ A Hks Hj Ht) as Hf. simpl in *. congruence.
  - by eapply (absmap_push _ _ _ _ _ _ _ _ _ s' St A Hks Hi).
Qed.

Lemma store_new_spec {L : Libc} d hs l css m k v :
  good d hs l l -> store_ok hs l css [] -> absmap l css m ->
  ok_key k -> ok_data v -> room d k v -> m !! k = None -> chainoff d = Z.of_nat (hidx k) * 7 ->
  exists d' hs' l' css' ls,
    store_new k v (Z.of_nat (length k)) (Z.of_nat (length v) + 1) d = Ret tt d' /\
    good d' hs' l' l' /\ store_ok hs' l' css' [] /\ absmap l' css' (<[k := v]> m) /\
    keep ls d d' /\ bracketed ls /\ (length l' <= S (length l))%nat.
Proof.
  intros G St A Hk Hv R Hm Hco. pose proof (st_wf _ _ _ _ St) as W.
  destruct (lookup_lt_is_Some_2 hs (hidx k)) as [p Hp]; [rewrite (wl_heads _ _ W); apply hidx_lt|].
  destruct (lookup_lt_is_Some_2 css (hidx k)) as [ks Hks]; [rewrite (st_len _ _ _ _ St); apply hidx_lt|].
  destruct (lookup_lt_is_Some_2 css 0) as [fr Hfr]; [rewrite (st_len _ _ _ _ St); lia|].
  destruct (readptr_good d hs l l (hidx k) p G W Hp) as (f1 & E1 & G1).
  set (d1 := set_idxfd f1 d) in *.
  assert (room d1 k v) as R1.
  { unfold room, f_size in *. by rewrite (g_idx _ _ _ _ G1), <-(g_idx _ _ _ _ G). }
  destruct (findfree_spec (Z.of_nat (length k)) (Z.of_nat (length v) + 1) d1 hs l css [] fr G1 St Hfr)
    as (d2 & [K1 K2] & [[E2 G2]|(a & i & b & s & E2 & -> & Hi & Hsk & Hsd & L2 & G2)]);
    change (chainoff d1) with (chainoff d) in K1; change (locks d1) with (locks d) in K2.
  - assert (room d2 k v) as R2.
    { unfold room, f_size in *.
      by rewrite (g_idx _ _ _ _ G2), (g_dat _ _ _ _ G2), <-(g_idx _ _ _ _ G1), <-(g_dat _ _ _ _ G1). }
    destruct (append_spec d2 hs l css m k v p ks G2 St A Hk Hv R2 Hm Hp Hks) as
      (d3 & hs' & l' & css' & ls & E3 & G3 & St3 & A3 & [K3 K4] & B3 & Len); [congruence|].
    exists (set_cnt_stor1 (u64 (cnt_stor1 d3 + 1)) d3), hs', l', css', (ls ++ free_locks).
    split_and!; try done.
    + unfold store_new. step. rewrite Hco. call E1. to_state d1. call E2.
      change (-1 <? 0) with true. cbv iota.
      apply (bind_last _ (fun d => set_cnt_stor1 (u64 (cnt_stor1 d + 1)) d)) in E3.
      rewrite <-E3. clear E3. unfold bind, gets.
      destruct (_db_writedat v 0 SEEK_END d2) as [[] d4| | |]; try done.
      by destruct (_db_writeidx (Caller k) 0 SEEK_END p d4) as [[] d5| | |].
    + by destruct G3.
    + split; run_db; [congruence|]. by rewrite K4, K2, <-app_assoc.
    + apply br_app; [done|]. by apply bracketed_wrap1.
  - pose proof (store_remove _ _ _ _ 0 a i b s St Hfr Hi) as St2.
    pose proof (absmap_put _ _ _ (pred 0 a) (s_next s) (absmap_free _ _ _ (a ++ b) A)) as A2.
    set (l2 := put_slot (pred 0 a) (s_next s) l) in *.
    set (hs2 := put_head (pred 0 a) (s_next s) hs) in *. cbv zeta in G2.
    assert (Forall2 same_shape l l2) as Hsh by apply shape_put.
    destruct (put_slot_lookup (pred 0 a) (s_next s) l i s Hi) as (s2 & Hi2 & Hk2 & Hd2 & _). fold l2 in Hi2.
    assert (hs2 !! hidx k = Some p) as Hp2.
    { unfold hs2. destruct (pred_cases 0 a) as [[_ ->]|(? & ? & _ & ->)]; simpl; [|done].
      by rewrite list_lookup_insert_ne by done. }
    destruct (reuse_spec d2 hs2 l2 (<[0%nat := a ++ b]> css) m k v p i s2 ks G2 St2 A2 Hk Hv Hm Hi2)
      as (d3 & hs' & l' & css' & E3 & G3 & St3 & A3 & [K3 K4] & Len).
    { destruct L2 as [X1 X2 X3 X4 X5]. unfold l2.
      split; simpl; rewrite ?(ioff_shape l), ?(doff_shape l) by apply shape_put; try done.
      - rewrite X3. unfold dat_size. simpl. by rewrite Hd2.
      - by rewrite X5. }
    { rewrite Hk2. lia. } { rewrite Hd2. unfold dat_size in Hsd. lia. }
    { unfold l2. rewrite (ioff_shape l) by apply shape_put.
      eapply st_ok_ptr; [exact St|exact Hfr|]. apply elem_of_app. right. by left. }
    { done. } { by rewrite list_lookup_insert_ne by done. } { congruence. }
    exists (set_cnt_stor2 (u64 (cnt_stor2 d3 + 1)) d3), hs', l', css', free_locks.
    split_and!; try done.
    + unfold store_new. step. rewrite Hco. call E1. to_state d1. call E2.
      change (0 <? 0) with false. cbv iota.
      apply (bind_last _ (fun d => set_cnt_stor2 (u64 (cnt_stor2 d + 1)) d)) in E3.
      rewrite <-E3. clear E3. unfold bind, gets.
      destruct (_db_writedat v (datoff d2) SEEK_SET d2) as [[] d4| | |]; try done.
      by destruct (_db_writeidx (Caller k) (idxoff d4) SEEK_SET p d4) as [[] d5| | |].
    + by destruct G3.
    + split; run_db; [congruence|]. cbn [app] in K4. by rewrite K4, K2.
    + by apply bracketed_wrap1.
    + rewrite Len. unfold l2. rewrite put_slot_length. lia.
Qed.
End branches.

Section removal.
Implicit Types (l : list slot) (hs : list Z) (s : slot) (d : DB) (css : list (list nat)).

Lemma put_slot_insert p v i s' l :
  p <> LSlot i -> put_slot p v (<[i := s']> l) = <[i := s']> (put_slot p v l).
Proof.
  intros Hp. destruct p as [h|j]; simpl; [done|].
  rewrite list_lookup_insert_ne by congruence.
  destruct (l !! j); [|done]. apply list_insert_insert_ne. congruence.
Qed.

(** Moving the record found for a key to the free list. *)
Lemma delete_store hs l css m h a i b s fp fr :
  store_ok hs l css [] -> absmap l css m -> css !! S h = Some (a ++ i :: b) -> l !! i = Some s ->
  hs !! 0%nat = Some fp -> css !! 0%nat = Some fr ->
  let pl := pred (S h) a in
  let l2 := put_slot pl (s_next s) (<[i := blanked fp s]> l) in
  let css2 := <[0%nat := i :: fr]> (<[S h := a ++ b]> css) in
  store_ok (put_head pl (s_next s) (<[0%nat := ioff l i]> hs)) l2 css2 [] /\
  absmap l2 css2 (delete (s_key s) m).
Proof.
  intros St A Hh Hi Hfp Hfr pl l2 css2. pose proof (st_wf _ _ _ _ St) as W.
  assert (pl <> LSlot i) as Hpl.
  { intros E. pose proof (st_chain_nodup _ _ _ _ _ _ St Hh) as Hnd.
    apply list.NoDup_app in Hnd as (_ & Hd & _). unfold pl in E.
    destruct (pred_cases (S h) a) as [[_ E']|(a' & j & Ha & E')]; [congruence|].
    apply (Hd i); [|by left]. rewrite Ha. assert (i = j) as -> by congruence. apply elem_of_app. right. by left. }
  pose proof (store_remove _ _ _ _ (S h) a i b s St Hh Hi) as St1. fold pl in St1.
  destruct (put_slot_lookup pl (s_next s) l i s Hi) as (s1 & Hi1 & _ & _ & Hs1).
  rewrite (Hs1 Hpl) in Hi1. clear s1 Hs1.
  pose proof (absmap_remove _ _ _ _ _ _ _ _ _ _ St A Hh Hi) as A1.
  apply (absmap_put _ _ _ pl (s_next s)) in A1.
  set (l1 := put_slot pl (s_next s) l) in *.
  assert (ioff l1 i = ioff l i) as Ho by apply ioff_shape, shape_put.
  assert (ok_ptr fp) as Hokf by (eapply Forall_lookup_1; [apply W|done]).
  assert (wf_slot (doff l1 i) (blanked fp s)) as Wb.
  { apply blanked_wf; [done|]. by apply (wl_slots _ _ (st_wf _ _ _ _ St1)). }
  assert (l2 = <[i := blanked fp s]> l1) as El2 by (by apply put_slot_insert).
  assert (put_head pl (s_next s) (<[0%nat := ioff l i]> hs) =
          <[0%nat := ioff l1 i]> (put_head pl (s_next s) hs)) as Eh.
  { rewrite Ho. unfold pl. destruct (pred_cases (S h) a) as [[_ ->]|(? & ? & _ & ->)]; simpl; [|done].
    by apply list_insert_insert_ne. }
  rewrite Eh, El2. split.
  - eapply store_push; [exact St1| | |done|apply blanked_shape|done|done|apply blanked_blank|by intros []|].
    + by rewrite list_lookup_insert_ne by done.
    + unfold pl. destruct (pred_cases (S h) a) as [[_ ->]|(? & ? & _ & ->)]; simpl; [|done].
      by rewrite list_lookup_insert_ne by done.
    + rewrite Ho. eapply st_ok_ptr; [exact St|exact Hh|]. apply elem_of_app. right. by left.
  - apply absmap_free. eapply absmap_loose; [exact St1|by left|done|done].
Qed.

Lemma delete_found_spec {L : Libc} {I : InPlace L} d hs l css m k a i b s :
  good d hs l l -> store_ok hs l css [] -> absmap l css m ->
  css !! hidx k = Some (a ++ i :: b) -> l !! i = Some s -> s_key s = k ->
  located d l i s -> ptroff d = loc_off l (pred (hidx k) a) ->
  exists d' hs' l' css', _db_dodelete d = Ret tt d' /\
    good d' hs' l' l' /\ store_ok hs' l' css' [] /\ absmap l' css' (delete k m) /\
    keep free_locks d d' /\ length (enc_index hs' l') = length (enc_index hs l) /\ dsum l' = dsum l /\
    length l' = length l.
Proof.
  intros G St A Hh Hi <- Loc P. pose proof (st_wf _ _ _ _ St) as W.
  destruct (lookup_lt_is_Some_2 hs 0) as [fp Hfp]; [rewrite (wl_heads _ _ W); lia|].
  destruct (lookup_lt_is_Some_2 css 0) as [fr Hfr]; [rewrite (st_len _ _ _ _ St); lia|].
  destruct (dodelete_spec d hs l i s (pred (hidx (s_key s)) a) fp G W Hi Loc P) as (d' & E & G' & K);
    [by eapply pred_valid|done| |].
  { eapply st_ok_ptr; [exact St|exact Hh|]. apply elem_of_app. right. by left. }
  destruct (delete_store hs l css m _ a i b s fp fr St A Hh Hi Hfp Hfr) as [St' A'].
  fold (hidx (s_key s)) in St', A'.
  assert (Forall2 same_shape l (put_slot (pred (hidx (s_key s)) a) (s_next s) (<[i := blanked fp s]> l))) as Hsh.
  { etransitivity; [eapply shape_insert; [exact Hi|apply blanked_shape]|apply shape_put]. }
  eexists d', _, _, _. split_and!; [exact E|exact G'|exact St'|exact A'|exact K| | |].
  - apply Nat2Z.inj. rewrite <-(ioff_end _ _ (st_wf _ _ _ _ St')), <-(ioff_end _ _ W).
    rewrite <-(Forall2_length Hsh). by apply ioff_shape.
  - by apply dsum_shape.
  - symmetry. by eapply Forall2_length.
Qed.

Lemma store_replace_spec {L : Libc} d hs l css m k v a i b s :
  (length v <> length (s_dat s) -> InPlace L) -> good d hs l l -> store_ok hs l css [] -> absmap l css m ->
  ok_key k -> ok_data v -> room d k v ->
  css !! hidx k = Some (a ++ i :: b) -> l !! i = Some s -> s_key s = k ->
  located d l i s -> ptroff d = loc_off l (pred (hidx k) a) -> chainoff d = Z.of_nat (hidx k) * 7 ->
  exists d' hs' l' css' ls,
    store_replace k v (Z.of_nat (length v) + 1) d = Ret tt d' /\
    good d' hs' l' l' /\ store_ok hs' l' css' [] /\ absmap l' css' (<[k := v]> m) /\
    keep ls d d' /\ bracketed ls /\ (length l' <= S (length l))%nat.
Proof.
  intros Hin G St A Hk Hv R Hh Hi Hsk Loc P Hco. pose proof (st_wf _ _ _ _ St) as W.
  unfold store_replace. destruct (Z.eqb_spec (Z.of_nat (length v) + 1) (datlen d)) as [El|El].
  - rewrite (lc_datlen _ _ _ _ Loc) in El. set (s' := mk_slot (s_next s) (s_key s) v).
    assert (length v = length (s_dat s)) as Hlv by (unfold dat_size in El; lia).
    destruct (writedat_over d l i s s' (g_dat _ _ _ _ G) Hi Hlv) as (f1 & E1 & Hf1).
    assert (same_shape s s') as Hsh by done.
    assert (wf_slot (doff l i) s') as Ws.
    { pose proof (wl_slots _ _ W i s Hi) as [? ? ? Wsz Wl ?]. destruct Hv. split; try done.
      unfold ok_len. by rewrite (same_shape_text _ _ _ Hsh). }
    eexists _, hs, (<[i := s']> l), css, []. split_and!.
    + step. replace (Z.of_nat (length v) + 1 =? datlen d) with true
        by (rewrite (lc_datlen _ _ _ _ Loc); lia). cbn [negb].
      step. rewrite (lc_datoff _ _ _ _ Loc). change v with (s_dat s') at 1. call E1. reflexivity.
    + destruct G. split; try done. run_db. rewrite g_idx0.
      destruct (lookup_split _ _ _ Hi) as (l1 & l2 & -> & <-).
      rewrite insert_mid, !enc_index_split. unfold enc_idx, slot_text. simpl.
      by rewrite (same_shape_size _ _ Hsh).
    + by eapply store_set_dat.
    + rewrite <-Hsk. change v with (s_dat s'). eapply absmap_set_dat; [exact St|done|exact Hh| |done|done].
      apply elem_of_app. right. by left.
    + done.
    + constructor.
    + rewrite length_insert. lia.
  - assert (InPlace L) as I by (apply Hin; rewrite (lc_datlen _ _ _ _ Loc) in El; unfold dat_size in El; lia).
    destruct (delete_found_spec d hs l css m k a i b s G St A Hh Hi Hsk Loc P) as
      (d1 & hs1 & l1 & css1 & E1 & G1 & St1 & A1 & [K1 K2] & Sz & Ds & Le).
    pose proof (st_wf _ _ _ _ St1) as W1.
    destruct (lookup_lt_is_Some_2 hs1 (hidx k)) as [p Hp]; [rewrite (wl_heads _ _ W1); apply hidx_lt|].
    destruct (lookup_lt_is_Some_2 css1 (hidx k)) as [ks Hks]; [rewrite (st_len _ _ _ _ St1); apply hidx_lt|].
    destruct (readptr_good d1 hs1 l1 l1 (hidx k) p G1 W1 Hp) as (f2 & E2 & G2).
    set (d2 := set_idxfd f2 d1) in *.
    assert (room d2 k v) as R2.
    { unfold room, f_size in *. rewrite (g_idx _ _ _ _ G2), (g_dat _ _ _ _ G2), Sz, enc_data_length, Ds.
      by rewrite <-enc_data_length, <-(g_idx _ _ _ _ G), <-(g_dat _ _ _ _ G). }
    destruct (append_spec d2 hs1 l1 css1 (delete k m) k v p ks G2 St1 A1 Hk Hv R2) as
      (d3 & hs' & l' & css' & ls & E3 & G3 & St3 & A3 & [K3 K4] & B3 & Len);
      [apply lookup_delete_eq|done|done|change (chainoff d2) with (chainoff d1); congruence|].
    change (chainoff d2) with (chainoff d1) in K3. change (locks d2) with (locks d1) in K4.
    rewrite insert_delete_eq in A3.
    exists (set_cnt_stor3 (u64 (cnt_stor3 d3 + 1)) d3), hs', l', css', (ls ++ free_locks).
    split_and!; try done.
    + step. replace (Z.of_nat (length v) + 1 =? datlen d) with false by lia. cbn [negb].
      call E1. step. rewrite K1, Hco. call E2. to_state d2.
      apply (bind_last _ (fun d => set_cnt_stor3 (u64 (cnt_stor3 d + 1)) d)) in E3.
      rewrite <-E3. clear E3. unfold bind, gets.
      destruct (_db_writedat v 0 SEEK_END d2) as [[] d4| | |]; try done.
      by destruct (_db_writeidx (Caller k) 0 SEEK_END p d4) as [[] d5| | |].
    + by destruct G3.
    + split; run_db; [congruence|]. by rewrite K4, K2, <-app_assoc.
    + apply br_app; [done|]. by apply bracketed_wrap1.
    + by rewrite <-Le.
Qed.
End removal.
