(* ===== verification/DbRefine.v ===== *)
(** The contract of the database library of [db.c] and its proof: a handle
    stands for a finite map from keys to data, and every operation returns
    what the map operation returns and leaves a handle that stands for the
    resulting map. *)
From Stdlib Require Import ZArith Lia.
From stdpp Require Import base list strings gmap numbers.
From S2P Require Import Prelude CString CFile Db DbLayout DbBytes DbChain DbSpec.
Local Open Scope c_scope.

(** The handle [d] stands for the map [m], and its files hold at most [n]
    records, live and free. *)
Definition Rep (n : nat) (d : DB) (m : gmap bytes bytes) : Prop :=
  exists hs l css, good d hs l l /\ store_ok hs l css [] /\ absmap l css m /\ (length l <= n)%nat.

(** The lock calls an operation makes are well bracketed. *)
Definition lock_safe (d d' : DB) : Prop :=
  exists ls, locks d' = ls ++ locks d /\ bracketed ls.

(** * The abstract operations *)
Definition valid_flag (flag : Z) : bool :=
  (flag =? DB_INSERT) || (flag =? DB_REPLACE) || (flag =? DB_STORE).

Definition spec_store (flag : Z) (k v : bytes) (m : gmap bytes bytes) : Z * gmap bytes bytes :=
  if negb (valid_flag flag) then (-1, m)
  else match m !! k with
       | None => if flag =? DB_REPLACE then (-1, m) else (0, <[k := v]> m)
       | Some _ => if flag =? DB_INSERT then (1, m) else (0, <[k := v]> m)
       end.

Definition spec_delete (k : bytes) (m : gmap bytes bytes) : Z * gmap bytes bytes :=
  (match m !! k with Some _ => 0 | None => -1 end, delete k m).

(** The calls.  A session is a list of calls; what it returns and what it leaves is
    settled by the interface alone. *)
Inductive op :=
| OFetch (k : bytes)
| OStore (k v : bytes) (flag : Z)
| ODelete (k : bytes).
(** The calls that erase a record: the deletion of a key that is stored, and
    a replacement of its datum by one of another length. *)
Definition erases (o : op) (m : gmap bytes bytes) : bool :=
  match o with
  | OFetch _ => false
  | OStore k v flag =>
      match m !! k with
      | Some old => valid_flag flag && negb (flag =? DB_INSERT) && negb (length v =? length old)%nat
      | None => false
      end
  | ODelete k => bool_decide (is_Some (m !! k))
  end.

(** What the library promises to its callers; [kv_erase] is what it takes to
    erase a record. *)
Class KVStore (St : Type) := {
  kv_rep : nat -> St -> gmap bytes bytes -> Prop;
  kv_fits : nat -> bytes -> bytes -> Prop;
  kv_erase : Prop;
  kv_fetch : bytes -> M St (option bytes);
  kv_store : bytes -> bytes -> Z -> M St Z;
  kv_delete : bytes -> M St Z;
  kv_fetch_ok : forall n s m k, kv_rep n s m -> nonul k ->
    exists s', kv_fetch k s = Ret (m !! k) s' /\ kv_rep n s' m;
  kv_store_ok : forall n s m k v flag, kv_rep n s m -> kv_fits n k v ->
    (erases (OStore k v flag) m = true -> kv_erase) ->
    exists s', kv_store k v flag s = Ret (spec_store flag k v m).1 s' /\
      kv_rep (S n) s' (spec_store flag k v m).2;
  kv_delete_ok : forall n s m k, kv_rep n s m -> nonul k -> (erases (ODelete k) m = true -> kv_erase) ->
    exists s', kv_delete k s = Ret (spec_delete k m).1 s' /\ kv_rep n s' (spec_delete k m).2
}.

(** * Clients of the interface *)

Inductive answer := AData (v : option bytes) | ACode (rc : Z).

Definition spec_op (o : op) (m : gmap bytes bytes) : answer * gmap bytes bytes :=
  match o with
  | OFetch k => (AData (m !! k), m)
  | OStore k v flag => let '(rc, m') := spec_store flag k v m in (ACode rc, m')
  | ODelete k => let '(rc, m') := spec_delete k m in (ACode rc, m')
  end.
Fixpoint spec_run (ops : list op) (m : gmap bytes bytes) : list answer * gmap bytes bytes :=
  match ops with
  | [] => ([], m)
  | o :: r => let '(a, m1) := spec_op o m in
              let '(l, m2) := spec_run r m1 in (a :: l, m2)
  end.
(** Records used after one more call. *)
Definition grow (n : nat) (o : op) : nat := match o with OStore _ _ _ => S n | _ => n end.

Section client.
Context {St : Type} {K : KVStore St}.

Definition do_op (o : op) : M St answer :=
  match o with
  | OFetch k => let* r := kv_fetch k in ret (AData r)
  | OStore k v flag => let* rc := kv_store k v flag in ret (ACode rc)
  | ODelete k => let* rc := kv_delete k in ret (ACode rc)
  end.
Fixpoint run_ops (ops : list op) : M St (list answer) :=
  match ops with
  | [] => ret []
  | o :: r => let* a := do_op o in let* l := run_ops r in ret (a :: l)
  end.

(** What a call has to keep to on a map, and the calls of a session. *)
Definition op_ok (n : nat) (m : gmap bytes bytes) (o : op) : Prop :=
  match o with
  | OFetch k | ODelete k => nonul k
  | OStore k v _ => kv_fits n k v
  end /\ (erases o m = true -> kv_erase).
Fixpoint ops_ok (n : nat) (m : gmap bytes bytes) (ops : list op) : Prop :=
  match ops with [] => True | o :: r => op_ok n m o /\ ops_ok (grow n o) (spec_op o m).2 r end.

Lemma do_op_run n s m o : kv_rep n s m -> op_ok n m o ->
  exists s', do_op o s = Ret (spec_op o m).1 s' /\ kv_rep (grow n o) s' (spec_op o m).2.
Proof.
  intros R [H He]. destruct o as [k|k v flag|k]; cbn [do_op spec_op grow] in *.
  - destruct (kv_fetch_ok n s m k R H) as (s' & E & R'). exists s'. split; [by call E|done].
  - destruct (kv_store_ok n s m k v flag R H He) as (s' & E & R'). exists s'.
    destruct (spec_store flag k v m). split; [by call E|done].
  - destruct (kv_delete_ok n s m k R H He) as (s' & E & R'). exists s'. split; [by call E|done].
Qed.

Lemma run_ops_run n s m ops : kv_rep n s m -> ops_ok n m ops ->
  exists s', run_ops ops s = Ret (spec_run ops m).1 s' /\
    kv_rep (foldl grow n ops) s' (spec_run ops m).2.
Proof.
  revert n s m. induction ops as [|o ops IH]; intros n s m R H; [by exists s|].
  destruct H as [Ho Hr]. destruct (do_op_run n s m o R Ho) as (s1 & E1 & R1).
  destruct (IH _ _ _ R1 Hr) as (s2 & E2 & R2). exists s2. simpl.
  destruct (spec_op o m) as [a m1]. simpl in *. destruct (spec_run ops m1). split; [|done].
  call E1. by call E2.
Qed.
End client.

(** * The implementation *)
Section refine.
Implicit Types (d : DB) (m : gmap bytes bytes).

Lemma db_fetch_run n d m k :
  Rep n d m -> nonul k ->
  exists d', db_fetch k d = Ret (m !! k) d' /\ Rep n d' m /\ lock_safe d d' /\
    f_data (idxfd d') = f_data (idxfd d) /\ f_data (datfd d') = f_data (datfd d).
Proof.
  intros (hs & l & css & G & St & A & Len) Hk.
  destruct (find_and_lock_spec k false d hs l css [] G St Hk) as (d1 & ks & Hks & G1 & Hco & Hlk & D).
  assert (forall d2 co, good d2 hs l l -> locks d2 = locks d1 -> co = chainoff d1 ->
    let d3 := set_locks (mk_lock UNLCK IdxFd co 1 :: locks d2) d2 in
    Rep n d3 m /\ lock_safe d d3 /\
    f_data (idxfd d3) = f_data (idxfd d) /\ f_data (datfd d3) = f_data (datfd d)) as Hfin.
  { intros d2 co G2 Hl2 -> d3. split_and!.
    - exists hs, l, css. split_and!; [|done..]. destruct G2. by split.
    - eexists. split; [|apply (bracketed_wrap1 RDLCK IdxFd (chainoff d1) 1); done].
      cbn. rewrite Hl2, Hlk. done.
    - cbn. by rewrite (g_idx _ _ _ _ G2), (g_idx _ _ _ _ G).
    - cbn. by rewrite (g_dat _ _ _ _ G2), (g_dat _ _ _ _ G). }
  destruct D as [[E Hno]|(a & i & b & s & E & -> & Hi & Hsk & Loc & _)].
  - rewrite (absmap_none _ _ _ _ _ _ _ k St A Hks) by (done || apply hidx_fits).
    set (d2 := set_cnt_fetcherr (u64 (cnt_fetcherr d1 + 1)) d1).
    eexists. split; [unfold db_fetch; by call E|].
    apply (Hfin d2); [|done|done]. destruct G1. by split.
  - pose proof (wl_slots _ _ (st_wf _ _ _ _ St) i s Hi) as [_ _ Wd Wsz _ _].
    destruct (readdat_slot d1 l i s (g_datbuf _ _ _ _ G1) (g_dat _ _ _ _ G1) Hi Wd)
      as (f & bb & E2 & Hf & Hb); [lia|apply Loc|apply Loc|].
    assert (m !! k = Some (s_dat s)) as ->.
    { rewrite <-Hsk. eapply absmap_found; [done|exact Hks| |done]. apply elem_of_app. right. by left. }
    set (d2 := set_cnt_fetchok (u64 (cnt_fetchok d1 + 1)) (set_datbuf bb (set_datfd f d1))).
    eexists. split.
    + unfold db_fetch. call E. change (0 <? 0) with false. cbv iota. step. call E2. reflexivity.
    + apply (Hfin d2); [|done|done]. destruct G1. split; try done. change (datbuf d2) with bb. lia.
Qed.

Lemma unlock_rep n d d1 d2 m ls hs l css :
  good d2 hs l l -> store_ok hs l css [] -> absmap l css m -> (length l <= n)%nat ->
  chainoff d2 = chainoff d1 -> locks d2 = ls ++ locks d1 -> bracketed ls ->
  locks d1 = mk_lock WRLCK IdxFd (chainoff d1) 1 :: locks d ->
  Rep n (set_locks (mk_lock UNLCK IdxFd (chainoff d2) 1 :: locks d2) d2) m /\
  lock_safe d (set_locks (mk_lock UNLCK IdxFd (chainoff d2) 1 :: locks d2) d2).
Proof.
  intros G St A Len Hc Hl B H1. split.
  - exists hs, l, css. split_and!; [|done..]. destruct G. by split.
  - exists (mk_lock UNLCK IdxFd (chainoff d2) 1 :: ls ++ [mk_lock WRLCK IdxFd (chainoff d2) 1]).
    split; [|by apply br_wrap]. cbn. rewrite Hl, H1, Hc, <-app_assoc. done.
Qed.

Lemma delete_run {L : Libc} n d m k :
  (is_Some (m !! k) -> InPlace L) -> Rep n d m -> nonul k ->
  exists d', db_delete k d = Ret (spec_delete k m).1 d' /\ Rep n d' (spec_delete k m).2 /\ lock_safe d d'.
Proof.
  intros Hin (hs & l & css & G & St & A & Len) Hk. unfold spec_delete. cbn [fst snd].
  destruct (find_and_lock_spec k true d hs l css [] G St Hk) as (d1 & ks & Hks & G1 & Hco & Hlk & D).
  destruct D as [[E Hno]|(a & i & b & s & E & -> & Hi & Hsk & Loc & P)].
  - assert (m !! k = None) as Hm by (eapply (absmap_none _ _ _ _ _ _ _ k St A Hks); done || apply hidx_fits).
    rewrite Hm, delete_id by done.
    set (d2 := set_cnt_delerr (u64 (cnt_delerr d1 + 1)) d1).
    eexists. split; [unfold db_delete; by call E|].
    apply (unlock_rep _ d d1 d2 m [] hs l css); try done; [|constructor]. destruct G1. by split.
  - assert (m !! k = Some (s_dat s)) as Hm.
    { rewrite <-Hsk. eapply absmap_found; [done|exact Hks| |done]. apply elem_of_app. right. by left. }
    rewrite Hm. assert (InPlace L) as I by by apply Hin.
    destruct (delete_found_spec d1 hs l css m k a i b s G1 St A Hks Hi Hsk Loc P) as
      (d2 & hs' & l' & css' & E2 & G2 & St2 & A2 & [K1 K2] & _ & _ & Len2).
    set (d3 := set_cnt_delok (u64 (cnt_delok d2 + 1)) d2).
    eexists. split.
    + unfold db_delete. call E. change (0 =? 0) with true. cbv iota. step. call E2. reflexivity.
    + apply (unlock_rep _ d d1 d3 (delete k m) free_locks hs' l' css'); try done.
      * destruct G2. by split.
      * by rewrite Len2.
      * by apply bracketed_wrap1.
Qed.

Lemma room_sizes d d' k v :
  f_size (idxfd d') = f_size (idxfd d) -> f_size (datfd d') = f_size (datfd d) ->
  room d k v -> room d' k v.
Proof. unfold room. by intros -> ->. Qed.

Lemma db_store_run {L : Libc} n d m k v flag :
  (erases (OStore k v flag) m = true -> InPlace L) -> Rep n d m -> ok_key k -> ok_data v -> room d k v ->
  exists d', db_store k v flag d = Ret (spec_store flag k v m).1 d' /\
    Rep (S n) d' (spec_store flag k v m).2 /\ lock_safe d d'.
Proof.
  intros Hin R0 Hk Hv R. pose proof R0 as (hs & l & css & G & St & A & Len).
  assert (length l <= S n)%nat as LenS by lia.
  unfold db_store, spec_store, valid_flag. rewrite !negb_orb.
  destruct (negb (flag =? DB_INSERT) && negb (flag =? DB_REPLACE) && negb (flag =? DB_STORE)) eqn:Ef.
  { eexists. split; [reflexivity|]. split.
    - exists hs, l, css. split_and!; [|done..]. destruct G. by split.
    - exists []. split; [done|constructor]. }
  replace ((Z.of_nat (length v) + 1 <? DATLEN_MIN) || (Z.of_nat (length v) + 1 >? DATLEN_MAX)) with false
    by (symmetry; apply orb_false_iff; destruct Hv; lia).
  unfold die_if. rewrite (bind_run skip _ d tt d eq_refl).
  destruct (find_and_lock_spec k true d hs l css [] G St (proj1 Hk)) as (d1 & ks & Hks & G1 & Hco & Hlk & D).
  assert (room d1 k v) as R1.
  { eapply room_sizes; [| |exact R]; unfold f_size.
    - by rewrite (g_idx _ _ _ _ G1), (g_idx _ _ _ _ G).
    - by rewrite (g_dat _ _ _ _ G1), (g_dat _ _ _ _ G). }
  destruct D as [[E Hno]|(a & i & b & s & E & -> & Hi & Hsk & Loc & P)]; call E.
  - assert (m !! k = None) as Hm by (eapply (absmap_none _ _ _ _ _ _ _ k St A Hks); done || apply hidx_fits).
    rewrite Hm. change (-1 <? 0) with true. cbv iota. destruct (flag =? DB_REPLACE).
    + set (d2 := set_errno ENOENT (set_cnt_storerr (u64 (cnt_storerr d1 + 1)) d1)).
      eexists. split; [reflexivity|].
      apply (unlock_rep _ d d1 d2 m [] hs l css); try done; [|constructor]. destruct G1. by split.
    + destruct (store_new_spec d1 hs l css m k v G1 St A Hk Hv R1 Hm Hco) as
        (d2 & hs' & l' & css' & ls & E2 & G2 & St2 & A2 & [K1 K2] & B2 & Len2).
      eexists. split; [step; call E2; reflexivity|].
      apply (unlock_rep _ d d1 d2 (<[k := v]> m) ls hs' l' css'); (done || lia).
  - assert (m !! k = Some (s_dat s)) as Hm.
    { rewrite <-Hsk. eapply absmap_found; [done|exact Hks| |done]. apply elem_of_app. right. by left. }
    rewrite Hm in *. change (0 <? 0) with false. cbv iota. destruct (Z.eqb_spec flag DB_INSERT).
    + set (d2 := set_cnt_storerr (u64 (cnt_storerr d1 + 1)) d1).
      eexists. split; [reflexivity|].
      apply (unlock_rep _ d d1 d2 m [] hs l css); try done; [|constructor]. destruct G1. by split.
    + assert (length v <> length (s_dat s) -> InPlace L) as Hin'.
      { intros Hne. apply Hin. unfold erases, valid_flag. rewrite Hm, (proj2 (Nat.eqb_neq _ _) Hne), (proj2 (Z.eqb_neq flag DB_INSERT)) by done.
        by destruct (flag =? DB_REPLACE), (flag =? DB_STORE). }
      destruct (store_replace_spec d1 hs l css m k v a i b s Hin' G1 St A Hk Hv R1 Hks Hi Hsk Loc P Hco) as
        (d2 & hs' & l' & css' & ls & E2 & G2 & St2 & A2 & [K1 K2] & B2 & Len2).
      eexists. split; [step; call E2; reflexivity|].
      apply (unlock_rep _ d d1 d2 (<[k := v]> m) ls hs' l' css'); (done || lia).
Qed.
End refine.

(** * Room *)

(** Records the store takes when its files hold at most [n] records
    already: the index file is at most 967 + 9000 * 1035 bytes, so every
    offset fits in the seven digits of a chain pointer. *)
Definition db_fits (n : nat) (k v : bytes) : Prop :=
  ok_key k /\ ok_data v /\ 1 <= Z.of_nat (length k) <= 1000 /\ Z.of_nat n < 9000.

Section room.
Implicit Types (d : DB) (m : gmap bytes bytes) (l : list slot).

Lemma dsum_upper l :
  (forall s, s ∈ l -> dat_size s <= DATLEN_MAX) -> dsum l <= 1024 * Z.of_nat (length l).
Proof.
  induction l as [|s l IH]; intros H; simpl; [lia|].
  pose proof (H s ltac:(by left)). assert (dsum l <= 1024 * Z.of_nat (length l)).
  { apply IH. intros t Ht. apply H. by right. }
  unfold DATLEN_MAX in *. lia.
Qed.

Lemma isum_upper off l :
  (forall i s, l !! i = Some s -> ok_len (off + doff l i) s) -> isum off l <= 1035 * Z.of_nat (length l).
Proof.
  revert off. induction l as [|s l IH]; intros off H; simpl; [lia|].
  pose proof (H 0%nat s eq_refl) as H0. unfold doff in H0. simpl in H0. rewrite Z.add_0_r in H0.
  assert (isum (off + dat_size s) l <= 1035 * Z.of_nat (length l)).
  { apply IH. intros i t Hi. specialize (H (S i) t Hi). unfold doff in *. simpl in H.
    by rewrite Z.add_assoc in H. }
  unfold ok_len, IDXLEN_MAX in *. lia.
Qed.

Lemma idx_text_length k off n :
  0 <= off < 10 ^ 8 -> 0 <= n < 10 ^ 4 ->
  (length k + 5 <= length (idx_text k off n) <= length k + 15)%nat.
Proof.
  intros Ho Hn. unfold idx_text. rewrite !sdec_udec by lia.
  pose proof (udec_length off 7 Ho). pose proof (udec_length n 3 Hn).
  destruct (udec_spec off) as [H1 _]; [lia|]. destruct (udec_spec n) as [H2 _]; [lia|].
  destruct (udec off), (udec n); simplify_eq. rewrite !length_app in *. simpl in *.
  rewrite ?length_app in *. simpl in *. lia.
Qed.

Lemma fits_room n d m k v : Rep n d m -> db_fits n k v -> room d k v.
Proof.
  intros (hs & l & css & G & St & _ & Len) (Hk & [Hv Hvl] & Hkl & Hn).
  pose proof (st_wf _ _ _ _ St) as W. unfold room, f_size. rewrite (g_dat _ _ _ _ G), (g_idx _ _ _ _ G).
  rewrite enc_data_length, <-(ioff_end _ _ W). unfold ioff. rewrite take_ge by lia.
  assert (dsum l <= 1024 * Z.of_nat (length l)).
  { apply dsum_upper. intros s [i Hi]%list_elem_of_lookup_1. apply (wl_slots _ _ W i s Hi). }
  assert (isum 0 l <= 1035 * Z.of_nat (length l)).
  { apply isum_upper. intros i s Hi. apply (wl_slots _ _ W i s Hi). }
  pose proof (dsum_nonneg l). unfold TABLE_SZ, PTR_MAX, LONG_MAX, DATLEN_MIN, DATLEN_MAX, IDXLEN_MIN, IDXLEN_MAX in *.
  pose proof (idx_text_length k (dsum l) (Z.of_nat (length v) + 1)). lia.
Qed.
End room.

#[export] Program Instance db_kv {L : Libc} : KVStore DB := {|
  kv_rep := Rep; kv_fits := db_fits; kv_erase := InPlace L;
  kv_fetch := db_fetch; kv_store := db_store; kv_delete := db_delete
|}.
Next Obligation. intros. edestruct db_fetch_run as (d' & ? & ? & _); eauto. Qed.
Next Obligation.
  intros L n d m k v flag R F Hin.
  edestruct (db_store_run n d m k v flag) as (d' & ? & ? & _); eauto using fits_room; apply F.
Qed.
Next Obligation.
  intros L n d m k R Hk Hin. edestruct (delete_run n d m k) as (d' & ? & ? & _); eauto.
  intros H. apply Hin. cbn. by apply bool_decide_eq_true.
Qed.

(** * Opening, closing and scanning *)
Section open_close.
Implicit Types (d : DB) (m : gmap bytes bytes).

Lemma empty_store : store_ok (replicate 138 0) [] (replicate 138 []) [].
Proof.
  split; try done.
  - split; [done| |done]. apply Forall_replicate. unfold ok_ptr, PTR_MAX. lia.
  - intros h p ks [-> _]%lookup_replicate_1 [-> _]%lookup_replicate_1. done.
Qed.

Lemma rewind_run d : nhash d = NHASH_DEF ->
  exists f, db_rewind d = Ret tt (set_idxoff TABLE_SZ (set_idxfd f d)) /\
    f_data f = f_data (idxfd d) /\ f_pos f = Z.to_nat TABLE_SZ.
Proof.
  intros Hn. exists (mk_file (f_data (idxfd d)) (Z.to_nat TABLE_SZ)). split; [|done].
  unfold db_rewind. do 2 step. rewrite Hn, lseek_set by done. reflexivity.
Qed.

Lemma good_idxoff d hs li ld v : good d hs li ld -> good (set_idxoff v d) hs li ld.
Proof. intros []. by split. Qed.

Lemma idx_dat_path p : p ++ str ".idx" <> p ++ str ".dat".
Proof. intros H. apply app_inv_head in H. discriminate. Qed.

Lemma open_run idxmem datmem fs path :
  (1026 <= length idxmem)%nat -> (1026 <= length datmem)%nat ->
  exists d fs', db_open idxmem datmem fs path (mk_oflags true true false) = (Some (Ret tt d), fs') /\
    Rep 0 d ∅ /\ lock_safe (_db_alloc idxmem datmem [] (mk_file [] 0) (mk_file [] 0)) d.
Proof.
  intros Hi Hd. unfold db_open.
  assert (forall fs p, exists fs', open_file fs p (mk_oflags true true false) = (Some [], fs')) as Ho.
  { intros fs0 p. unfold open_file. destruct (fs0 !! p); by eexists. }
  destruct (Ho fs (path ++ str ".idx")) as (fs1 & ->).
  destruct (Ho fs1 (path ++ str ".dat")) as (fs2 & ->).
  set (d0 := set_hashoff HASH_OFF _).
  set (d1 := set_locks [mk_lock UNLCK IdxFd 0 0; mk_lock WRLCK IdxFd 0 0]
               (set_idxfd (fwrite (mk_file [] 0) empty_table) d0)).
  destruct (rewind_run d1 eq_refl) as (f & E & Hf & _).
  assert (init_index (mk_oflags true true false) d0 = Ret tt d1) as E0 by reflexivity.
  exists (set_idxoff TABLE_SZ (set_idxfd f d1)), fs2. split; [by rewrite (bind_run _ _ _ _ _ E0), E|].
  split.
  - exists (replicate 138 0), [], (replicate 138 []). split_and!; [..|done].
    + apply good_idxoff. by split.
    + apply empty_store.
    + intros k v. rewrite lookup_empty. split; [done|].
      intros (h & ks & i & s & [-> _]%lookup_replicate_1 & Hin & _). set_solver.
  - exists (locks d1). split; [done|]. by apply bracketed_wrap1.
Qed.

Lemma reopen_run n d m path fs idxmem datmem :
  Rep n d m -> (1026 <= length idxmem)%nat -> (1026 <= length datmem)%nat ->
  exists d' fs', db_open idxmem datmem (db_close d path fs) path (mk_oflags false false false)
      = (Some (Ret tt d'), fs') /\ Rep n d' m.
Proof.
  intros (hs & l & css & G & St & A & Len) Hi Hd. unfold db_open, db_close, _db_free, open_file.
  pose proof (idx_dat_path path) as Hne.
  cbn [o_creat o_trunc o_excl andb].
  rewrite lookup_insert_ne by done. rewrite lookup_insert_eq. cbn [o_creat o_trunc o_excl andb].
  rewrite lookup_insert_ne by done. rewrite lookup_insert_eq.
  set (d0 := set_hashoff HASH_OFF _).
  destruct (rewind_run d0 eq_refl) as (f & E & Hf & _).
  eexists (set_idxoff TABLE_SZ (set_idxfd f d0)), _. split.
  { rewrite (bind_run (init_index (mk_oflags false false false)) _ d0 tt d0 eq_refl), E. reflexivity. }
  exists hs, l, css. split_and!; [|done..]. apply good_idxoff.
  split; try done.
  - cbn [idxfd set_idxfd]. rewrite Hf. apply G.
  - apply G.
Qed.
End open_close.

(** Reading every record in file order, as a caller of [db_nextrec] does. *)
Fixpoint scan (n : nat) : M DB (list (bytes * bytes)) :=
  match n with
  | O => nofuel
  | S n' =>
      let* r := db_nextrec in
      match r with
      | None => ret []
      | Some kv => let* rest := scan n' in ret (kv :: rest)
      end
  end.

Definition records (l : list slot) : list (bytes * bytes) :=
  omap (fun s => if blank (s_key s) then None else Some (s_key s, s_dat s)) l.

Section scanning.
Implicit Types (d : DB) (m : gmap bytes bytes) (l : list slot).

(** From the position of slot [i], the loop stops at the first slot whose
    key is not blank. *)
Lemma nextrec_loop_spec fuel d hs l i :
  good d hs l l -> wf_layout hs l -> f_pos (idxfd d) = Z.to_nat (ioff l i) ->
  (i <= length l)%nat -> (length l - i < fuel)%nat ->
  exists d', good d' hs l l /\ keep [] d d' /\
    ((nextrec_loop fuel d = Ret false d' /\ records (drop i l) = []) \/
     exists j s, nextrec_loop fuel d = Ret true d' /\ l !! j = Some s /\ (i <= j)%nat /\
       records (drop i l) = (s_key s, s_dat s) :: records (drop (S j) l) /\
       located d' l j s /\ f_pos (idxfd d') = Z.to_nat (ioff l (S j))).
Proof.
  revert d i. induction fuel as [|fuel IH]; intros d i G W Hp Hi Hf; [lia|].
  cbn [nextrec_loop]. destruct (decide (i = length l)) as [->|Hne].
  - destruct (readidx_eof d hs l W (g_idx _ _ _ _ G) Hp) as (f & E & Hfd & _).
    exists (set_idxfd f (set_idxoff (ioff l (length l)) d)).
    split; [destruct G; by split|]. split; [done|]. left. call E.
    split; [done|]. by rewrite drop_all.
  - destruct (lookup_lt_is_Some_2 l i) as [s Hs]; [lia|].
    destruct (readidx_next d hs l i s W (g_idxbuf _ _ _ _ G) (g_idx _ _ _ _ G) Hs Hp)
      as (f & b & len & E & Hfd & Hfp & Hb & Hbl).
    call E. set (d1 := readidx_st d f (ioff l i) len b (s_next s) (doff l i) (dat_size s)).
    assert (good d1 hs l l) as G1.
    { destruct G. split; try done. change (idxbuf d1) with b. lia. }
    pose proof (wl_slots _ _ W i s Hs) as [[Wn _] _ _ _ _ _].
    destruct (Z.ltb_spec (s_next s) 0); [lia|]. step.
    change (idxbuf d1) with b. rewrite Hb.
    assert (records (drop i l) = (if blank (s_key s) then [] else [(s_key s, s_dat s)]) ++ records (drop (S i) l)) as Hrec.
    { rewrite (drop_S l s i Hs). unfold records. cbn [omap list_omap].
      by destruct (blank (s_key s)). }
    destruct (blank (s_key s)).
    + destruct (IH d1 (S i) G1 W Hfp) as (d2 & G2 & [K1 K2] & D); [lia|lia|].
      exists d2. split; [done|]. split; [by split|].
      destruct D as [[E2 HR]|(j & t & E2 & Ht & Hj & HR & L2 & P2)]; [left|right].
      * by rewrite Hrec.
      * exists j, t. rewrite Hrec. split_and!; try done. lia.
    + exists d1. split; [done|]. split; [done|]. right. exists i, s.
      split_and!; try done.
Qed.

Lemma nextrec_spec d hs l i :
  good d hs l l -> wf_layout hs l -> f_pos (idxfd d) = Z.to_nat (ioff l i) -> (i <= length l)%nat ->
  exists d', good d' hs l l /\ lock_safe d d' /\
    ((db_nextrec d = Ret None d' /\ records (drop i l) = []) \/
     exists j kv, db_nextrec d = Ret (Some kv) d' /\ (j < length l)%nat /\
       records (drop i l) = kv :: records (drop (S j) l) /\
       f_pos (idxfd d') = Z.to_nat (ioff l (S j))).
Proof.
  intros G W Hp Hi.
  set (d1 := set_locks (mk_lock RDLCK IdxFd FREE_OFF 1 :: locks d) d).
  assert (good d1 hs l l) as G1 by (destruct G; by split).
  assert (length l - i < S (chain_fuel d1))%nat as Hfuel.
  { unfold chain_fuel, f_size. rewrite (g_idx _ _ _ _ G1).
    pose proof (ioff_end hs l W) as He. unfold ioff in He. rewrite take_ge in He by lia.
    pose proof (isum_length 0 l). unfold TABLE_SZ in *. lia. }
  destruct (nextrec_loop_spec _ d1 hs l i G1 W Hp Hi Hfuel) as (d2 & G2 & [_ K2] & D).
  assert (forall d3, locks d3 = locks d2 ->
    lock_safe d (set_locks (mk_lock UNLCK IdxFd FREE_OFF 1 :: locks d3) d3)) as HL.
  { intros d3 H3. eexists. split; [|apply (bracketed_wrap1 RDLCK IdxFd FREE_OFF 1); done].
    cbn. by rewrite H3, K2. }
  destruct D as [[E HR]|(j & s & E & Hs & Hj & HR & L & P)].
  - exists (set_locks (mk_lock UNLCK IdxFd FREE_OFF 1 :: locks d2) d2).
    split; [destruct G2; by split|]. split; [by apply HL|]. left. split; [|done].
    unfold db_nextrec, readw_lock, lock_reg. step. to_state d1. step. by call E.
  - pose proof (wl_slots _ _ W j s Hs) as [_ _ Wd Wsz _ _].
    destruct (readdat_slot d2 l j s (g_datbuf _ _ _ _ G2) (g_dat _ _ _ _ G2) Hs Wd)
      as (f & b & E2 & Hf & Hb); [lia|apply L|apply L|].
    set (d3 := set_cnt_nextrec (u64 (cnt_nextrec d2 + 1)) (set_datbuf b (set_datfd f d2))).
    exists (set_locks (mk_lock UNLCK IdxFd FREE_OFF 1 :: locks d3) d3).
    split; [destruct G2; split; try done; change (datbuf _) with b; lia|]. split; [by apply HL|].
    right. exists j, (s_key s, s_dat s). split; [|split_and!; try done].
    + unfold db_nextrec, readw_lock, lock_reg. step. to_state d1. step. call E. do 2 step.
      rewrite (lc_key _ _ _ _ L). step. by call E2.
    + by eapply lookup_lt_Some.
Qed.

Lemma scan_spec n d hs l i :
  good d hs l l -> wf_layout hs l -> f_pos (idxfd d) = Z.to_nat (ioff l i) -> (i <= length l)%nat ->
  (length (records (drop i l)) < n)%nat ->
  exists d', scan n d = Ret (records (drop i l)) d' /\ good d' hs l l /\ lock_safe d d'.
Proof.
  revert d i. induction n as [|n IH]; intros d i G W Hp Hi Hn; [lia|]. cbn [scan].
  destruct (nextrec_spec d hs l i G W Hp Hi) as (d1 & G1 & (ls & L1 & B1) & D).
  destruct D as [[E HR]|(j & kv & E & Hj & HR & P)]; call E; rewrite HR in *.
  - exists d1. split; [done|]. split; [done|]. by exists ls.
  - destruct (IH d1 (S j) G1 W P) as (d2 & E2 & G2 & (ls2 & L2 & B2)); [lia|simpl in Hn; lia|].
    call E2. exists d2. split; [done|]. split; [done|].
    exists (ls2 ++ ls). split; [by rewrite L2, L1, app_assoc|by constructor].
Qed.

Lemma nonblank_live hs l css i s :
  store_ok hs l css [] -> l !! i = Some s -> blank (s_key s) = false ->
  exists h ks, css !! S h = Some ks /\ i ∈ ks.
Proof.
  intros St Hi Hb. assert (i ∈ mjoin css) as Hin.
  { rewrite <-(app_nil_r (mjoin css)), (st_perm _ _ _ _ St). apply elem_of_seq.
    apply lookup_lt_Some in Hi. lia. }
  apply list_elem_of_join in Hin as (ks & Hik & Hks). apply list_elem_of_lookup_1 in Hks as [[|h] Hh].
  - pose proof (st_fits _ _ _ _ St _ _ _ _ Hh Hik Hi) as F. simpl in F. congruence.
  - by exists h, ks.
Qed.

Lemma nonblank_inj hs l css i j s t :
  store_ok hs l css [] -> l !! i = Some s -> l !! j = Some t -> blank (s_key s) = false ->
  s_key s = s_key t -> i = j.
Proof.
  intros St Hi Hj Hb Hk.
  destruct (nonblank_live _ _ _ _ _ St Hi Hb) as (h & ks & Hh & Hik).
  rewrite Hk in Hb. destruct (nonblank_live _ _ _ _ _ St Hj Hb) as (h' & ks' & Hh' & Hjk).
  pose proof (st_fits _ _ _ _ St _ _ _ _ Hh Hik Hi) as F1.
  pose proof (st_fits _ _ _ _ St _ _ _ _ Hh' Hjk Hj) as F2. simpl in F1, F2.
  rewrite Hk in F1. assert (h' = h) as -> by lia. simplify_eq. by eapply st_keys.
Qed.

Lemma elem_of_records l k v :
  (k, v) ∈ records l <-> exists i s, l !! i = Some s /\ blank (s_key s) = false /\ s_key s = k /\ s_dat s = v.
Proof.
  unfold records. rewrite list_elem_of_omap. split.
  - intros (s & Hs & Hf). apply list_elem_of_lookup_1 in Hs as [i Hi].
    destruct (blank (s_key s)) eqn:E; [done|]. simplify_eq. by exists i, s.
  - intros (i & s & Hi & Hb & <- & <-). exists s. rewrite Hb. split; [|done].
    by eapply list_elem_of_lookup_2.
Qed.

Lemma records_nodup l :
  (forall i j s t, l !! i = Some s -> l !! j = Some t -> blank (s_key s) = false ->
     s_key s = s_key t -> i = j) -> NoDup (records l).
Proof.
  induction l as [|s l IH]; intros H; [constructor|].
  assert (NoDup (records l)) as Hl.
  { apply IH. intros i j t u Hi Hj Hb Hk. enough (S i = S j) by lia. by eapply (H (S i) (S j)). }
  change (records (s :: l)) with (match (if blank (s_key s) then None else Some (s_key s, s_dat s)) with
    | Some y => y :: records l | None => records l end).
  destruct (blank (s_key s)) eqn:Eb; [done|]. apply NoDup_cons_2; [|done].
  rewrite elem_of_records. intros (i & t & Hi & _ & Hk & _).
  by specialize (H O (S i) s t eq_refl Hi Eb (eq_sym Hk)).
Qed.

(** The records of the file with keys that are not blank are the bindings of
    the map with such keys. *)
Definition nonblank (m : gmap bytes bytes) : gmap bytes bytes := filter (fun kv => blank kv.1 = false) m.

Lemma records_map hs l css m :
  store_ok hs l css [] -> absmap l css m -> records l ≡ₚ map_to_list (nonblank m).
Proof.
  intros St A. apply NoDup_Permutation.
  - apply records_nodup. intros. by eapply nonblank_inj.
  - apply NoDup_map_to_list.
  - intros [k v]. rewrite elem_of_records, elem_of_map_to_list. unfold nonblank.
    rewrite map_lookup_filter_Some, (A k v). cbn [fst]. split.
    + intros (i & s & Hi & Hbl & <- & <-). split; [|done].
      destruct (nonblank_live _ _ _ _ _ St Hi Hbl) as (h & ks & Hh & Hik). by eapply live_in.
    + intros [HL Hbl]. pose proof HL as (h & ks & i & s & Hh & Hik & Hi & Hk & Hv).
      exists i, s. split_and!; try done. by rewrite Hk.
Qed.

Lemma nonblank_size m : (size (nonblank m) <= size m)%nat.
Proof. apply map_subseteq_size, map_filter_subseteq. Qed.
End scanning.
