(* ===== verification/DbTheorems.v ===== *)
(** The theorems about the database library of [db.c], and the program
    [t4.c] that uses it. *)
From Stdlib Require Import ZArith Lia.
From stdpp Require Import base list strings gmap numbers.
From S2P Require Import Prelude CString CFile Db DbLayout DbBytes DbChain DbSpec DbRefine.
Local Open Scope c_scope.

(** * The program [t4.c] *)

(** [if (rc != 0) err_quit(msg);] *)
Definition expect0 (msg : string) (m : M DB Z) : M DB unit :=
  let* rc := m in die_if (negb (rc =? 0)) msg.

Definition t4_stores {L : Libc} : M DB unit :=
  expect0 "db_store error for alpha" (db_store (str "Alpha") (str "data1") DB_INSERT) ;;;
  expect0 "db_store error for beta" (db_store (str "beta") (str "Data for beta") DB_INSERT) ;;;
  expect0 "db_store error for gamma" (db_store (str "gamma") (str "record3") DB_INSERT).

(** The files after [main], or [None] when it does not exit with 0. *)
Definition t4_main {L : Libc} (idxmem datmem : bytes) (fs : gmap bytes bytes) : option (gmap bytes bytes) :=
  match db_open idxmem datmem fs (str "db4") (mk_oflags true true false) with
  | (Some (Ret _ d), fs1) =>
      match t4_stores d with
      | Ret _ d' => Some (db_close d' (str "db4") fs1)
      | _ => None
      end
  | _ => None
  end.

(** * Sample handles *)

(** A C library whose [sprintf] extends a string in place. *)
#[local] Instance in_place_libc : Libc := {| sprintf_in_place := true |}.
#[local] Instance in_place_libc_ok : InPlace in_place_libc := eq_refl.

(** Memory as [malloc] may give it. *)
Definition raw : bytes := replicate 1026 170.

Definition fresh_db : DB :=
  match (db_open raw raw ∅ (str "db") (mk_oflags true true false)).1 with
  | Some (Ret _ d) => d
  | _ => _db_alloc [] [] [] (mk_file [] 0) (mk_file [] 0)
  end.
Definition one_db : DB :=
  match db_store (str "Alpha") (str "data1") DB_INSERT fresh_db with
  | Ret _ d => d
  | _ => fresh_db
  end.

Section samples.
Lemma fresh_rep : Rep 0 fresh_db ∅.
Proof.
  destruct (open_run raw raw ∅ (str "db")) as (d & fs & E & R & _); [by vm_compute; lia..|].
  unfold fresh_db. by rewrite E.
Qed.

Definition sample_key_ok (k v : bytes) : bool :=
  forallb (fun c => negb (c =? 0) && negb (c =? SEP)) k && forallb (fun c => negb (c =? 0)) v &&
  (1 <=? Z.of_nat (length k)) && (Z.of_nat (length k) <=? 1000) &&
  (1 <=? Z.of_nat (length v)) && (Z.of_nat (length v) <=? 1023).

Lemma fits_check n k v : sample_key_ok k v = true -> Z.of_nat n < 9000 -> db_fits n k v.
Proof.
  unfold sample_key_ok. rewrite !andb_true_iff, !Z.leb_le, !forallb_forall.
  intros (((((Hk & Hv) & ?) & ?) & ?) & ?) Hn. unfold db_fits, ok_key, ok_data, DATLEN_MIN, DATLEN_MAX.
  split_and!; try lia; apply List.Forall_forall.
  - intros c Hc. apply Hk in Hc. lia.
  - intros c Hc. apply Hk in Hc. lia.
  - intros c Hc. apply Hv in Hc. lia.
Qed.

Lemma one_rep : Rep 1 one_db {[ str "Alpha" := str "data1" ]}.
Proof.
  assert (db_fits 0 (str "Alpha") (str "data1")) as F by (by apply fits_check).
  destruct (kv_store_ok (KVStore:=db_kv) 0 fresh_db ∅ (str "Alpha") (str "data1") DB_INSERT fresh_rep F (fun _ => in_place_libc_ok)) as (d & E & R).
  unfold one_db. change (kv_store ?a ?b ?c ?d) with (db_store a b c d) in E. rewrite E.
  by rewrite <-insert_empty.
Qed.
End samples.

Section lock_replay.
Definition same_region (e f : lock_ev) : bool :=
  match l_fd e, l_fd f with
  | IdxFd, IdxFd | DatFd, DatFd => (l_off e =? l_off f) && (l_len e =? l_len f)
  | _, _ => false
  end.

Lemma same_region_refl e : same_region e e = true.
Proof. unfold same_region. destruct (l_fd e); rewrite !Z.eqb_refl; done. Qed.

(** The latest event on the region of [e] among [ls] (latest first). *)
Definition last_on (e : lock_ev) (ls : list lock_ev) : option lock_ev :=
  List.find (same_region e) ls.

Lemma last_on_app e a b :
  last_on e (a ++ b) = match last_on e a with Some x => Some x | None => last_on e b end.
Proof.
  unfold last_on. induction a as [|x a IH]; simpl; [done|]. by destruct (same_region e x).
Qed.

Lemma bracketed_last e ls x : bracketed ls -> last_on e ls = Some x -> l_type x = UNLCK.
Proof.
  intros B. revert x. induction B as [|a b _ IHa _ IHb|t fd off len ls _ _ IH]; intros x Hx; [done| |].
  - rewrite last_on_app in Hx. destruct (last_on e a) as [y|]; simplify_eq; auto.
  - change (mk_lock UNLCK fd off len :: ls ++ [mk_lock t fd off len])
      with ([mk_lock UNLCK fd off len] ++ ls ++ [mk_lock t fd off len]) in Hx.
    rewrite !last_on_app in Hx. unfold last_on at 1 in Hx. simpl in Hx.
    destruct (same_region e (mk_lock UNLCK fd off len)) eqn:E; [by simplify_eq|].
    destruct (last_on e ls) as [y|] eqn:El; [by simplify_eq; apply IH|].
    unfold last_on in Hx. simpl in Hx. unfold same_region in E, Hx. simpl in *.
    by rewrite E in Hx.
Qed.
End lock_replay.

(** * The contract *)

(** C1: the library is a map.  Take a new database, created by [db_open] with
    O_CREAT and O_TRUNC on any directory, and any session of fetches, stores
    (with any flag) and deletes in which the keys and data stored are within the
    limits of [db_fits]: keys of 1 to 1000 bytes without NUL and ':', data of 1
    to 1023 bytes without NUL, fewer than 9000 stores.  In the session no record
    is erased, neither by a deletion nor by a replacement of another length
    ([erases]), unless the [sprintf] of the system extends a string in place
    ([InPlace]): the C standard does not promise that, and elsewhere erasing a
    record is undefined ([db_delete_undef]).  Then the calls return, one by one,
    exactly what a finite map returns, no call dies or loops or reaches
    undefined behaviour, and after [db_close] and a second [db_open] the handle
    stands for the final map. *)
Theorem db_session_is_map {L : Libc} idxmem datmem fs path ops :
  1026 <= Z.of_nat (length idxmem) -> 1026 <= Z.of_nat (length datmem) ->
  ops_ok (K:=db_kv) 0 ∅ ops ->
  exists d fs1 d1 d2 fs2,
    db_open idxmem datmem fs path (mk_oflags true true false) = (Some (Ret tt d), fs1) /\
    run_ops (K:=db_kv) ops d = Ret (spec_run ops ∅).1 d1 /\
    db_open idxmem datmem (db_close d1 path fs1) path (mk_oflags false false false)
      = (Some (Ret tt d2), fs2) /\
    Rep (foldl grow 0%nat ops) d2 (spec_run ops ∅).2.
Proof.
  intros Hi Hd Hops.
  destruct (open_run idxmem datmem fs path) as (d & fs1 & E & R & _); [lia..|].
  destruct (run_ops_run (K:=db_kv) 0 d ∅ ops R Hops) as (d1 & E1 & R1).
  destruct (reopen_run _ d1 _ path fs1 idxmem datmem R1) as (d2 & fs2 & E2 & R2); [lia..|].
  by exists d, fs1, d1, d2, fs2.
Qed.

(** A session that erases twice, where [sprintf] extends a string in place,
    and one that does not erase, where it does not. *)
Lemma db_session_is_map_witness :
  (let ops := [OStore (str "Alpha") (str "data1") DB_INSERT; OStore (str "Alpha") (str "x") DB_REPLACE;
               OFetch (str "Alpha"); ODelete (str "Alpha"); ODelete (str "Alpha")] in
   exists d fs1 d1 d2 fs2,
    db_open raw raw ∅ (str "db") (mk_oflags true true false) = (Some (Ret tt d), fs1) /\
    run_ops (K:=db_kv) ops d = Ret (spec_run ops ∅).1 d1 /\
    db_open raw raw (db_close d1 (str "db") fs1) (str "db") (mk_oflags false false false)
      = (Some (Ret tt d2), fs2) /\
    Rep (foldl grow 0%nat ops) d2 (spec_run ops ∅).2) /\
  (let strict := {| sprintf_in_place := false |} in
   exists d d1, run_ops (K:=db_kv (L:=strict))
     [OStore (str "Alpha") (str "data1") DB_INSERT; OStore (str "Alpha") (str "DATA2") DB_REPLACE; ODelete (str "beta"); OFetch (str "Alpha")] d =
     Ret [ACode 0; ACode 0; ACode (-1); AData (Some (str "DATA2"))] d1).
Proof.
  split.
  - intros ops. apply (db_session_is_map raw raw ∅ (str "db") ops).
    + vm_compute. discriminate.
    + vm_compute. discriminate.
    + repeat split; try (by apply fits_check); repeat constructor; discriminate.
  - intros strict. destruct (db_session_is_map (L:=strict) raw raw ∅ (str "db") [OStore (str "Alpha") (str "data1") DB_INSERT;
      OStore (str "Alpha") (str "DATA2") DB_REPLACE; ODelete (str "beta"); OFetch (str "Alpha")]) as (d & _ & d1 & _ & _ & _ & E & _).
    + vm_compute. discriminate.
    + vm_compute. discriminate.
    + repeat split; try (by apply fits_check); try (repeat constructor; discriminate); by vm_compute.
    + exists d, d1. exact E.
Defined.

(** [db_fetch] returns the datum stored under the key, or NULL when there
    is none, and changes neither file. *)
Theorem db_fetch_refines n d m k :
  Rep n d m -> nonul k ->
  exists d', db_fetch k d = Ret (m !! k) d' /\ Rep n d' m /\
    f_data (idxfd d') = f_data (idxfd d) /\ f_data (datfd d') = f_data (datfd d).
Proof. intros R Hk. destruct (db_fetch_run n d m k R Hk) as (d' & ? & ? & _ & ? & ?). eauto. Qed.

Lemma db_fetch_refines_witness :
  exists d', db_fetch (str "Alpha") one_db = Ret (Some (str "data1")) d' /\
    f_data (idxfd d') = f_data (idxfd one_db).
Proof.
  destruct (db_fetch_refines 1 one_db {[ str "Alpha" := str "data1" ]} (str "Alpha")) as (d' & E & _ & F & _).
  - apply one_rep.
  - repeat constructor; discriminate.
  - exists d'. split; [|exact F]. rewrite E. by vm_compute.
Defined.

(** [db_store] with any flag behaves as the map operation of that flag:
    DB_INSERT refuses an existing key with 1, DB_REPLACE refuses a missing
    one with -1, an unknown flag gives -1, and otherwise the binding is
    written and 0 returned; whether the record reuses a deleted one, is
    appended, or overwrites the old data. *)
Theorem db_store_refines {L : Libc} {I : InPlace L} n d m k v flag :
  Rep n d m -> ok_key k -> ok_data v -> room d k v ->
  exists d', db_store k v flag d = Ret (spec_store flag k v m).1 d' /\
    Rep (S n) d' (spec_store flag k v m).2.
Proof. intros R Hk Hv Hr. destruct (db_store_run n d m k v flag (fun _ => I) R Hk Hv Hr) as (d' & ? & ? & _). eauto. Qed.

Lemma db_store_refines_witness :
  exists d', db_store (str "Alpha") (str "longer data") DB_REPLACE one_db = Ret 0 d' /\
    Rep 2 d' {[ str "Alpha" := str "longer data" ]}.
Proof.
  assert (db_fits 1 (str "Alpha") (str "longer data")) as F by (by apply fits_check).
  destruct (db_store_refines 1 one_db {[ str "Alpha" := str "data1" ]} (str "Alpha") (str "longer data")
              DB_REPLACE one_rep) as (d' & E & R); [apply F|apply F|by apply (fits_room 1 _ _ _ _ one_rep)|].
  exists d'. split; [by rewrite E|]. change (spec_store _ _ _ _).2 with
    (<[str "Alpha" := str "longer data"]> ({[ str "Alpha" := str "data1" ]} : gmap bytes bytes)) in R.
  by rewrite insert_singleton_eq in R.
Defined.

(** [db_delete] removes the binding and returns 0, or returns -1 and
    removes nothing when the key is not stored. *)
Theorem db_delete_refines {L : Libc} {I : InPlace L} n d m k :
  Rep n d m -> nonul k ->
  exists d', db_delete k d = Ret (match m !! k with Some _ => 0 | None => -1 end) d' /\
    Rep n d' (delete k m).
Proof. intros R Hk. destruct (delete_run n d m k (fun _ => I) R Hk) as (d' & ? & ? & _). eauto. Qed.

Lemma db_delete_refines_witness :
  exists d', db_delete (str "Alpha") one_db = Ret 0 d' /\ Rep 1 d' ∅.
Proof.
  destruct (db_delete_refines 1 one_db {[ str "Alpha" := str "data1" ]} (str "Alpha")) as (d' & E & R).
  - apply one_rep.
  - repeat constructor; discriminate.
  - exists d'. split; [rewrite E; by vm_compute|]. by rewrite delete_singleton_eq in R.
Defined.

(** C2: [db_rewind] followed by calls of [db_nextrec] until it returns NULL
    gives every binding of the map whose key is not made of blanks only, once,
    and nothing else; and it leaves the map as it is.  Keys of blanks are not
    told from deleted records and are skipped ([db_key_limits]). *)
Theorem db_scan_complete n d m fuel :
  Rep n d m -> (size m < fuel)%nat ->
  exists l d', (let* _ := db_rewind in scan fuel) d = Ret l d' /\ l ≡ₚ map_to_list (nonblank m) /\ Rep n d' m.
Proof.
  intros (hs & l & css & G & St & A & Len) Hf. pose proof (st_wf _ _ _ _ St) as W.
  destruct (rewind_run d (g_nhash _ _ _ _ G)) as (f & E & Hfd & Hfp).
  set (d1 := set_idxoff TABLE_SZ (set_idxfd f d)) in *.
  assert (good d1 hs l l) as G1.
  { apply good_idxoff. destruct G. split; try done. cbn. by rewrite Hfd. }
  pose proof (records_map hs l css m St A) as HP. pose proof (nonblank_size m) as Hsz.
  destruct (scan_spec fuel d1 hs l 0 G1 W) as (d2 & E2 & G2 & _).
  - cbn. rewrite Hfp. unfold ioff. simpl. by rewrite Z.add_0_r.
  - lia.
  - rewrite drop_0, HP, length_map_to_list. lia.
  - rewrite drop_0 in E2. exists (records l), d2. split_and!; [by call E|done|].
    by exists hs, l, css.
Qed.

Lemma two_rep : exists d, Rep 2 d {[ str "  " := str "x"; str "Alpha" := str "data1" ]}.
Proof.
  assert (db_fits 1 (str "  ") (str "x")) as F by (by apply fits_check).
  destruct (db_store_refines 1 one_db {[ str "Alpha" := str "data1" ]} (str "  ") (str "x") DB_INSERT one_rep) as (d & _ & R);
    [apply F|apply F|by apply (fits_room 1 _ _ _ _ one_rep)|]. by exists d.
Qed.

Lemma db_scan_complete_witness :
  (exists l d', (let* _ := db_rewind in scan 2) one_db = Ret l d' /\
    l ≡ₚ map_to_list ({[ str "Alpha" := str "data1" ]} : gmap bytes bytes)) /\
  exists d l d', Rep 2 d {[ str "  " := str "x"; str "Alpha" := str "data1" ]} /\
    (let* _ := db_rewind in scan 3) d = Ret l d' /\ l ≡ₚ map_to_list ({[ str "Alpha" := str "data1" ]} : gmap bytes bytes).
Proof.
  split.
  - destruct (db_scan_complete 1 one_db {[ str "Alpha" := str "data1" ]} 2 one_rep) as (l & d' & E & P & _).
    + rewrite map_size_singleton. lia.
    + exists l, d'. split; [exact E|exact P].
  - destruct two_rep as [d R].
    destruct (db_scan_complete 2 d _ 3 R) as (l & d' & E & P & _).
    + by vm_compute.
    + exists d, l, d'. split; [exact R|]. split; [exact E|exact P].
Defined.

(** Whatever operation is called, when it returns every region of the two
    files it has locked is unlocked again: the latest lock call on that
    region is an unlock. *)
Theorem db_locks_released {L : Libc} {I : InPlace L} n d m k v flag :
  Rep n d m -> ok_key k -> ok_data v -> room d k v ->
  forall r d', (exists o, In o [OFetch k; OStore k v flag; ODelete k] /\ do_op (K:=db_kv) o d = Ret r d') ->
  exists ls, locks d' = ls ++ locks d /\
    forall e, In e ls -> exists x, last_on e ls = Some x /\ l_type x = UNLCK.
Proof.
  intros R Hk Hv Hr r d' (o & Ho & E).
  assert (lock_safe d d') as (ls & Hls & B).
  { destruct Ho as [<-|[<-|[<-|[]]]]; simpl in E.
    - destruct (db_fetch_run n d m k R (proj1 Hk)) as (d1 & E1 & _ & Ls & _).
      rewrite (bind_run _ _ _ _ _ E1) in E. unfold ret in E. by simplify_eq.
    - destruct (db_store_run n d m k v flag (fun _ => I) R Hk Hv Hr) as (d1 & E1 & _ & Ls).
      rewrite (bind_run _ _ _ _ _ E1) in E. unfold ret in E. by simplify_eq.
    - destruct (delete_run n d m k (fun _ => I) R (proj1 Hk)) as (d1 & E1 & _ & Ls).
      rewrite (bind_run _ _ _ _ _ E1) in E. unfold ret in E. by simplify_eq. }
  exists ls. split; [done|]. intros e He. destruct (last_on e ls) as [x|] eqn:Hx.
  - exists x. split; [done|]. by eapply bracketed_last.
  - unfold last_on in Hx. apply (List.find_none _ _ Hx) in He. by rewrite same_region_refl in He.
Qed.

Lemma db_locks_released_witness :
  exists d', db_delete (str "Alpha") one_db = Ret 0 d' /\
  exists ls, locks d' = ls ++ locks one_db /\
    forall e, In e ls -> exists x, last_on e ls = Some x /\ l_type x = UNLCK.
Proof.
  assert (db_fits 1 (str "Alpha") (str "data1")) as F by (by apply fits_check).
  destruct (delete_run 1 one_db _ (str "Alpha") (fun _ => _) one_rep) as (d' & E & _ & _); [apply F|].
  exists d'. split; [rewrite E; by vm_compute|].
  apply (db_locks_released 1 one_db {[ str "Alpha" := str "data1" ]} (str "Alpha") (str "data1") DB_STORE
           one_rep (proj1 F) (proj1 (proj2 F)) (fits_room 1 _ _ _ _ one_rep F) (ACode 0) d').
  exists (ODelete (str "Alpha")). split; [right; right; left; reflexivity|].
  change (do_op (ODelete (str "Alpha")) one_db)
    with (bind (db_delete (str "Alpha")) (fun rc => ret (ACode rc)) one_db).
  rewrite (bind_run _ _ _ _ _ E). by vm_compute.
Defined.

(** The program [t4.c], run in any directory, exits with 0, and what it
    leaves in db4.idx and db4.dat opens again as the database of the three
    records. *)
Theorem t4_leaves_three_records {L : Libc} idxmem datmem fs :
  1026 <= Z.of_nat (length idxmem) -> 1026 <= Z.of_nat (length datmem) ->
  exists fs1 d fs2,
    t4_main idxmem datmem fs = Some fs1 /\
    db_open idxmem datmem fs1 (str "db4") (mk_oflags false false false) = (Some (Ret tt d), fs2) /\
    Rep 3 d (<[str "gamma" := str "record3"]> (<[str "beta" := str "Data for beta"]>
              (<[str "Alpha" := str "data1"]> ∅))).
Proof.
  intros Hi Hd. destruct (open_run idxmem datmem fs (str "db4")) as (d0 & fs1 & E & R & _); [lia..|].
  assert (forall n d m k v, Rep n d m -> m !! k = None -> db_fits n k v ->
    exists d', db_store k v DB_INSERT d = Ret 0 d' /\ Rep (S n) d' (<[k := v]> m)) as Hs.
  { intros n d m k v R1 Hm F. destruct (db_store_run n d m k v DB_INSERT) as (d' & E1 & R' & _);
      [unfold erases; by rewrite Hm|done|apply F|apply F|by eapply fits_room|].
    exists d'. unfold spec_store in *. change (valid_flag DB_INSERT) with true in *. simpl in *.
    rewrite Hm in *. by split. }
  destruct (Hs _ _ _ (str "Alpha") (str "data1") R) as (d1 & E1 & R1); [done|by apply fits_check|].
  destruct (Hs _ _ _ (str "beta") (str "Data for beta") R1) as (d2 & E2 & R2); [done|by apply fits_check|].
  destruct (Hs _ _ _ (str "gamma") (str "record3") R2) as (d3 & E3 & R3); [done|by apply fits_check|].
  destruct (reopen_run _ d3 _ (str "db4") fs1 idxmem datmem R3) as (d4 & fs2 & E4 & R4); [lia..|].
  exists (db_close d3 (str "db4") fs1), d4, fs2. split_and!; [|done|done].
  unfold t4_main. rewrite E. unfold t4_stores, expect0.
  unfold bind. rewrite E1. cbn [negb Z.eqb die_if skip ret]. rewrite E2.
  cbn [negb Z.eqb die_if skip ret]. by rewrite E3.
Qed.

Lemma t4_leaves_three_records_witness :
  exists fs1 d fs2,
    t4_main raw raw ∅ = Some fs1 /\
    db_open raw raw fs1 (str "db4") (mk_oflags false false false) = (Some (Ret tt d), fs2) /\
    Rep 3 d (<[str "gamma" := str "record3"]> (<[str "beta" := str "Data for beta"]>
              (<[str "Alpha" := str "data1"]> ∅))).
Proof. apply (t4_leaves_three_records raw raw ∅); vm_compute; discriminate. Defined.

(** * Errors *)

(** A flag other than the three of [apue_db.h] is refused with -1 and
    EINVAL before anything is locked, read or written; data of a length
    outside 2 to 1024 (terminating NUL counted) kills the process instead. *)
Theorem db_store_bad_arguments d k v flag :
  (valid_flag flag = false -> db_store k v flag d = Ret (-1) (set_errno EINVAL d)) /\
  (valid_flag flag = true ->
     (Z.of_nat (length v) + 1 < DATLEN_MIN \/ Z.of_nat (length v) + 1 > DATLEN_MAX) ->
     db_store k v flag d = Died "db_store: invalid data length" d).
Proof.
  unfold db_store, valid_flag. split.
  - intros E. rewrite <-!negb_orb, E. done.
  - intros E H. rewrite <-!negb_orb, E. cbn [negb].
    replace ((Z.of_nat (length v) + 1 <? DATLEN_MIN) || (Z.of_nat (length v) + 1 >? DATLEN_MAX)) with true; [done|].
    symmetry. apply orb_true_iff. lia.
Qed.

Lemma db_store_bad_arguments_witness :
  db_store (str "k") (str "v") 7 fresh_db = Ret (-1) (set_errno EINVAL fresh_db) /\
  db_store (str "k") [] DB_STORE fresh_db = Died "db_store: invalid data length" fresh_db.
Proof.
  split.
  - apply (proj1 (db_store_bad_arguments fresh_db (str "k") (str "v") 7)). reflexivity.
  - apply (proj2 (db_store_bad_arguments fresh_db (str "k") [] DB_STORE)); [reflexivity|left; by vm_compute].
Defined.

(** What the theorems above exclude. *)

(** Where [sprintf] does not extend a string in place, deleting any record
    that is there is undefined: [_db_dodelete] hands [db->idxbuf] to
    [_db_writeidx] as the key, which prints it into [db->idxbuf]. *)
Theorem db_delete_undef {L : Libc} n d m k :
  sprintf_in_place = false -> Rep n d m -> nonul k -> is_Some (m !! k) -> exists w, db_delete k d = Undef w.
Proof.
  intros Hin (hs & l & css & G & St & A & Len) Hk [v Hv].
  destruct (find_and_lock_spec k true d hs l css [] G St Hk) as (d1 & ks & Hks & G1 & _ & _ & D).
  destruct D as [[_ Hno]|(a & i & b & s & E & -> & Hi & _ & Loc & _)].
  { rewrite (absmap_none _ _ _ _ _ _ _ k St A Hks) in Hv by (done || apply hidx_fits). done. }
  pose proof (st_wf _ _ _ _ St) as W.
  destruct (lookup_lt_is_Some_2 hs 0) as [fp Hfp]; [rewrite (wl_heads _ _ W); lia|].
  destruct (dodelete_undef d1 hs l i s fp Hin G1 W Hi Loc Hfp) as [w Ew]. exists w.
  unfold db_delete. call E. change (0 =? 0) with true. cbv iota. unfold bind. by rewrite Ew.
Qed.

Lemma db_delete_undef_witness : exists w, db_delete (L := {| sprintf_in_place := false |}) (str "Alpha") one_db = Undef w.
Proof.
  apply (db_delete_undef (L := {| sprintf_in_place := false |}) 1 one_db {[ str "Alpha" := str "data1" ]}).
  - reflexivity.
  - apply one_rep.
  - repeat constructor; discriminate.
  - by exists (str "data1").
Defined.

Definition after {A} (o : outcome DB A) : DB := match o with Ret _ d => d | _ => fresh_db end.

(** The limits of the contract are real: a key with a ':' is stored with
    return code 0 and then every look-up that meets it kills the process; a
    key longer than the index buffer overruns it in [_db_writeidx] before any
    length check; a key of blanks is fetched but [db_nextrec] never returns
    it. *)
Theorem db_key_limits :
  (exists d, db_store (str "a:b") (str "x") DB_INSERT fresh_db = Ret 0 d /\
     exists d', db_fetch (str "a:b") d = Died "_db_readidx: too many separators" d') /\
  (exists w, db_store (replicate 1030 65) (str "x") DB_INSERT fresh_db = Undef w) /\
  (exists d, db_store (str "  ") (str "x") DB_INSERT fresh_db = Ret 0 d /\
     (exists d', db_fetch (str "  ") d = Ret (Some (str "x")) d') /\
     exists d', (let* _ := db_rewind in scan 5) d = Ret [] d').
Proof.
  split; [|split].
  - exists (after (db_store (str "a:b") (str "x") DB_INSERT fresh_db)). split; [by vm_compute|].
    eexists. by vm_compute.
  - eexists. by vm_compute.
  - exists (after (db_store (str "  ") (str "x") DB_INSERT fresh_db)). split; [by vm_compute|].
    split; eexists; by vm_compute.
Qed.
