(* ===== verification/Dll.v ===== *)
(** Doubly linked lists in memory, as [printd.c] keeps them for its jobs and
    its worker threads: a heap of nodes by address, 0 being NULL, and list
    segments with their forward and backward pointers. *)
From Stdlib Require Import ZArith Lia.
From stdpp Require Import base list strings gmap numbers.
From S2P Require Import Prelude.
Local Open Scope c_scope.

Abbreviation addr := Z.
Definition NULL : addr := 0.

(** A structure with [next] and [prev] members. *)
Class Node (N : Type) := {
  nxt : N -> addr;
  prv : N -> addr;
  set_nxt : addr -> N -> N;
  set_prv : addr -> N -> N;
  nxt_set_nxt : forall a n, nxt (set_nxt a n) = a;
  prv_set_nxt : forall a n, prv (set_nxt a n) = prv n;
  nxt_set_prv : forall a n, nxt (set_prv a n) = nxt n;
  prv_set_prv : forall a n, prv (set_prv a n) = a
}.

(** An address [malloc] returns: not NULL and not in use. *)
Definition new_addr {A} (h : gmap Z A) : addr := 1 + map_fold (fun k _ acc => Z.max k acc) 0 h.

Lemma new_addr_bound {A} (h : gmap Z A) :
  0 <= map_fold (fun k _ acc => Z.max k acc) 0 h /\
  forall a, is_Some (h !! a) -> a <= map_fold (fun k _ acc => Z.max k acc) 0 h.
Proof.
  apply (map_fold_weak_ind (fun r h => 0 <= r /\ forall a, is_Some (h !! a) -> a <= r)).
  - split; [done|]. intros a [x Hx]. by rewrite lookup_empty in Hx.
  - intros k x m r _ [H0 H]. split; [lia|]. intros a [y Hy].
    apply lookup_insert_Some in Hy as [[-> _]|[_ Hy]]; [lia|].
    specialize (H a ltac:(eauto)). lia.
Qed.

Lemma new_addr_fresh {A} (h : gmap Z A) : h !! new_addr h = None /\ new_addr h <> NULL.
Proof.
  pose proof (new_addr_bound h) as [H0 H]. unfold new_addr, NULL. split; [|lia].
  destruct (h !! _) eqn:E; [|done]. specialize (H _ ltac:(eauto)). lia.
Qed.

Lemma alter_known {A} (f : A -> A) (h : gmap Z A) a n :
  h !! a = Some n -> alter f a h = <[a := f n]> h.
Proof.
  intros E. apply map_eq. intros b. destruct (decide (a = b)) as [->|Hne].
  - by rewrite lookup_alter_eq, lookup_insert_eq, E.
  - by rewrite lookup_alter_ne, lookup_insert_ne.
Qed.

Section dll.
Context {N : Type} `{Node N}.
Implicit Types (h : gmap Z N) (l : list addr) (n : N).

(** From [p], whose back pointer is [pr], through the nodes [l], to the
    address [q] with the last node at [la]. *)
Fixpoint seg h (p pr q la : addr) l : Prop :=
  match l with
  | [] => p = q /\ pr = la
  | a :: r => p = a /\ a <> NULL /\ exists n, h !! a = Some n /\ prv n = pr /\ seg h (nxt n) a q la r
  end.

(** A whole list from its head and tail pointers. *)
Definition dll h (head tail : addr) l : Prop := seg h head NULL NULL tail l /\ NoDup l.

Lemma seg_app h p pr q la l1 l2 :
  seg h p pr q la (l1 ++ l2) <-> exists m k, seg h p pr m k l1 /\ seg h m k q la l2.
Proof.
  revert p pr. induction l1 as [|a l1 IH]; intros p pr; simpl.
  - split; [intros; by exists p, pr|]. by intros (? & ? & [-> ->] & ?).
  - split.
    + intros (-> & Ha & n & Hn & Hp & S). apply IH in S as (m & k & S1 & S2).
      exists m, k. split; [|done]. split; [done|]. split; [done|]. by exists n.
    + intros (m & k & (-> & Ha & n & Hn & Hp & S1) & S2). split; [done|]. split; [done|].
      exists n. split; [done|]. split; [done|]. apply IH. by exists m, k.
Qed.

Lemma seg_frame h h' p pr q la l :
  (forall a, a ∈ l -> h' !! a = h !! a) -> seg h p pr q la l -> seg h' p pr q la l.
Proof.
  revert p pr. induction l as [|a l IH]; intros p pr Hf; simpl; [done|].
  intros (-> & Ha & n & Hn & Hp & S). split; [done|]. split; [done|]. exists n.
  rewrite Hf by (by left). split; [done|]. split; [done|]. apply IH; [|done].
  intros b Hb. apply Hf. by right.
Qed.

Lemma seg_insert_ne h p pr q la l b n :
  b ∉ l -> seg h p pr q la l -> seg (<[b := n]> h) p pr q la l.
Proof. intros Hb. apply seg_frame. intros a Ha. rewrite lookup_insert_ne; [done|]. by intros ->. Qed.

Lemma seg_delete_ne h p pr q la l b :
  b ∉ l -> seg h p pr q la l -> seg (delete b h) p pr q la l.
Proof. intros Hb. apply seg_frame. intros a Ha. rewrite lookup_delete_ne; [done|]. by intros ->. Qed.

Lemma seg_mem h p pr q la l a : seg h p pr q la l -> a ∈ l -> is_Some (h !! a).
Proof.
  revert p pr. induction l as [|b l IH]; intros p pr S Ha; [by apply elem_of_nil in Ha|].
  destruct S as (-> & Hb & n & Hn & Hp & S). apply elem_of_cons in Ha as [->|Ha]; [by exists n|by eapply IH].
Qed.

Lemma seg_single h p pr q la n :
  p <> NULL -> h !! p = Some n -> prv n = pr -> nxt n = q -> p = la -> seg h p pr q la [p].
Proof. intros Hp Hn Hpr Hq <-. split; [done|]. split; [done|]. exists n. by rewrite Hq. Qed.

(** Writing the last node's [next]: the segment now leads to [q']. *)
Lemma seg_set_next h p pr q la l n q' :
  seg h p pr q la (l ++ [la]) -> h !! la = Some n -> la ∉ l ->
  seg (<[la := set_nxt q' n]> h) p pr q' la (l ++ [la]).
Proof.
  rewrite !seg_app. intros (m & k & S1 & (-> & Hm & n' & Hn' & Hp & _)) Hn Hl. simplify_eq.
  exists la, (prv n'). split; [by apply seg_insert_ne|].
  apply (seg_single _ _ _ _ _ (set_nxt q' n')); [done|by rewrite lookup_insert_eq| | |done].
  - apply prv_set_nxt.
  - apply nxt_set_nxt.
Qed.

(** Writing the first node's [prev]. *)
Lemma seg_set_prev h p pr q la l n pr' :
  seg h p pr q la (p :: l) -> h !! p = Some n -> p ∉ l ->
  seg (<[p := set_prv pr' n]> h) p pr' q la (p :: l).
Proof.
  intros (_ & Hp & n' & Hn' & _ & S) Hn Hl. simplify_eq. split; [done|]. split; [done|].
  exists (set_prv pr' n'). rewrite lookup_insert_eq, prv_set_prv, nxt_set_prv.
  split; [done|]. split; [done|]. by apply seg_insert_ne.
Qed.

Lemma seg_nil_next h p pr q la a l : seg h p pr q la (a :: l) -> p = a /\ p <> NULL.
Proof. by intros (-> & ? & _). Qed.

(** The tail pointer of a non-empty list is its last node. *)
Lemma seg_last h p pr q la l a : seg h p pr q la (l ++ [a]) -> la = a /\ a <> NULL.
Proof. rewrite seg_app. intros (m & k & _ & (-> & Ha & n & _ & _ & [_ Hl])). done. Qed.
End dll.

(** * Insertion at the ends and removal *)
Section lists.
Context {N : Type} `{Node N}.
Implicit Types (h : gmap Z N) (ads : list addr) (j : N).

Lemma tail_null h head tail ads :
  dll h head tail ads -> (tail = NULL /\ ads = []) \/
    exists b, ads = b ++ [tail] /\ tail <> NULL /\ is_Some (h !! tail).
Proof.
  intros [S _]. destruct ads as [|x b] using rev_ind; [left; by destruct S as [_ <-]|right].
  pose proof (seg_last _ _ _ _ _ _ _ S) as [-> Hx]. exists b. split; [done|]. split; [done|].
  eapply seg_mem; [exact S|]. apply elem_of_app. right. by left.
Qed.

Lemma head_null h head tail ads :
  dll h head tail ads -> (head = NULL /\ ads = []) \/
    exists b, ads = head :: b /\ head <> NULL /\ is_Some (h !! head).
Proof.
  intros [S _]. destruct ads as [|x b]; [left; by destruct S as [-> _]|right].
  destruct (seg_nil_next _ _ _ _ _ _ _ S) as [-> Hx]. exists b. split; [done|]. split; [done|].
  eapply seg_mem; [exact S|]. by left.
Qed.

Lemma nodup_snoc (ads : list addr) a : NoDup ads -> a ∉ ads -> NoDup (ads ++ [a]).
Proof.
  intros Hn Ha. apply list.NoDup_app. split; [done|]. split; [|by apply NoDup_singleton].
  intros x Hx ->%list_elem_of_singleton. done.
Qed.

Lemma nodup_snoc_inv (ads : list addr) a : NoDup (ads ++ [a]) -> a ∉ ads.
Proof. intros (_ & Hd & _)%list.NoDup_app Ha. by apply (Hd a Ha), list_elem_of_singleton. Qed.

(** Linking the new node [a] behind the tail, or in front of the head. *)
Lemma dll_snoc h head tail ads a j :
  dll h head tail ads -> a <> NULL -> a ∉ ads -> h !! a = Some j -> nxt j = NULL -> prv j = tail ->
  (tail = NULL /\ dll h a a (ads ++ [a])) \/
  (tail <> NULL /\ exists t, h !! tail = Some t /\ dll (<[tail := set_nxt a t]> h) head a (ads ++ [a])).
Proof.
  intros D Ha Hin Hj Hx Hp. pose proof D as [S Hn].
  destruct (tail_null _ _ _ _ D) as [[-> ->]|(b & -> & Ht & [t Hb])]; [left|right].
  - split; [done|]. split; [|by apply NoDup_singleton]. by apply (seg_single _ _ _ _ _ j).
  - split; [done|]. exists t. split; [done|]. split; [|by apply nodup_snoc].
    rewrite seg_app. exists a, tail. split.
    + eapply seg_set_next; [exact S|done|]. by apply nodup_snoc_inv.
    + apply (seg_single _ _ _ _ _ j); try done. rewrite lookup_insert_ne; [done|].
      intros ->. apply Hin, elem_of_app. right. by left.
Qed.

Lemma dll_cons h head tail ads a j :
  dll h head tail ads -> a <> NULL -> a ∉ ads -> h !! a = Some j -> nxt j = head -> prv j = NULL ->
  (head = NULL /\ dll h a a (a :: ads)) \/
  (head <> NULL /\ exists t, h !! head = Some t /\ dll (<[head := set_prv a t]> h) a tail (a :: ads)).
Proof.
  intros D Ha Hin Hj Hx Hp. pose proof D as [S Hn].
  destruct (head_null _ _ _ _ D) as [[-> ->]|(b & -> & Ht & [t Hb])]; [left|right].
  - split; [done|]. split; [|by apply NoDup_singleton]. by apply (seg_single _ _ _ _ _ j).
  - split; [done|]. exists t. split; [done|]. split; [|by apply NoDup_cons_2].
    split; [done|]. split; [done|]. exists j. rewrite lookup_insert_ne by (intros ->; apply Hin; by left).
    split; [done|]. split; [done|]. rewrite Hx. eapply seg_set_prev; [exact S|done|].
    by apply list.NoDup_cons in Hn as [? _].
Qed.

(** What unlinking a node does to the memory: the neighbours of [a] point past
    it, and the head or the tail when there is no neighbour. *)
Definition unlink_next h (a : addr) j := if nxt j =? NULL then h else alter (set_prv (prv j)) (nxt j) h.
Definition unlink h (a : addr) j :=
  let h1 := unlink_next h a j in if prv j =? NULL then h1 else alter (set_nxt (nxt j)) (prv j) h1.

Lemma dll_middle h head tail (l1 : list addr) a (l2 : list addr) :
  dll h head tail (l1 ++ a :: l2) -> exists j, h !! a = Some j /\ a <> NULL /\
    seg h head NULL a (prv j) l1 /\ seg h (nxt j) a NULL tail l2.
Proof.
  intros [S _]. apply seg_app in S as (m & k & S1 & (-> & Ha & j & Hj & <- & S2)). eauto 6.
Qed.

Lemma dll_unlink h head tail (l1 : list addr) a (l2 : list addr) j :
  dll h head tail (l1 ++ a :: l2) -> h !! a = Some j ->
  dll (unlink h a j) (if prv j =? NULL then nxt j else head) (if nxt j =? NULL then prv j else tail) (l1 ++ l2).
Proof.
  intros D Hj. pose proof D as [_ Hn]. destruct (dll_middle _ _ _ _ _ _ D) as (j' & Hj' & Ha & S1 & S2).
  simplify_eq. apply list.NoDup_app in Hn as (N1 & Hd & N2). apply list.NoDup_cons in N2 as [Ha2 N2].
  split; [|apply list.NoDup_app; split; [done|split; [|done]]; intros x Hx Hx2; apply (Hd x Hx); by right].
  assert (seg (unlink_next h a j) (nxt j) (prv j) NULL (if nxt j =? NULL then prv j else tail) l2 /\
          seg (unlink_next h a j) head NULL a (prv j) l1) as [T2 T1].
  { unfold unlink_next. destruct l2 as [|b l2].
    - destruct S2 as [-> <-]. rewrite Z.eqb_refl. split; done.
    - destruct (seg_nil_next _ _ _ _ _ _ _ S2) as [E Hb]. apply Z.eqb_neq in Hb. rewrite Hb.
      pose proof S2 as (_ & _ & n & Hnb & _ & _). rewrite <-E in *. rewrite (alter_known _ _ _ n) by done.
      split.
      + eapply seg_set_prev; [exact S2|done|]. by apply list.NoDup_cons in N2 as [? _].
      + apply seg_insert_ne; [|done]. intros Hx. apply (Hd _ Hx). right. by left. }
  unfold unlink. apply seg_app. destruct l1 as [|c l1 _] using rev_ind.
  - destruct S1 as [-> Hpj]. rewrite <-Hpj in *. rewrite Z.eqb_refl. exists (nxt j), NULL. by split.
  - destruct (seg_last _ _ _ _ _ _ _ T1) as [E Hc]. subst c. pose proof (Z.eqb_neq (prv j) NULL) as [_ Hq].
    rewrite (Hq Hc). pose proof (nodup_snoc_inv _ _ N1) as Hc1.
    destruct (seg_mem _ _ _ _ _ _ (prv j) T1) as [n Hnc]; [apply elem_of_app; right; by left|].
    rewrite (alter_known _ _ _ n) by done. exists (nxt j), (prv j). split.
    + eapply seg_set_next; [exact T1|done|done].
    + apply seg_insert_ne; [|done]. intros Hx. apply (Hd (prv j)); [|by right].
      apply elem_of_app. right. by left.
Qed.
End lists.
