(* ===== verification/PrintJobs.v ===== *)
(** The job queue of the print spooler [printd.c]: the doubly linked list of
    pending jobs, the job counter and its file, with the operations
    [add_job], [replace_job], [remove_job], [get_newjobno], [update_jobno]
    and [init_request], and the part of [printer_thread] that takes a job. *)
From Stdlib Require Import ZArith Lia.
From stdpp Require Import base list strings gmap numbers.
From S2P Require Import Prelude CString CFile Dll.
Local Open Scope c_scope.

(** * Constants of [print.h] *)
Definition SPOOLDIR : bytes := str "/var/spool/printer".
Definition JOBFILE : bytes := str "jobno".
Definition DATADIR : bytes := str "data".
Definition REQDIR : bytes := str "reqs".
Definition FILENMSZ : nat := 64.
Definition USERNM_MAX : nat := 64.
Definition JOBNM_MAX : nat := 256.
Definition MSGLEN_MAX : nat := 512.
Definition PR_TEXT : Z := 1.
Definition slash : bytes := str "/".

(** [struct printreq]; the names are the whole arrays. *)
Record printreq := mk_req { rq_size : Z; rq_flags : Z; usernm : bytes; jobnm : bytes }.

(** [struct job] *)
Record job := mk_job { j_next : addr; j_prev : addr; jobid : Z; j_req : printreq }.

#[export] Program Instance job_node : Node job := {|
  nxt := j_next; prv := j_prev;
  set_nxt a j := mk_job a (j_prev j) (jobid j) (j_req j);
  set_prv a j := mk_job (j_next j) a (jobid j) (j_req j)
|}.
Solve All Obligations with done.

(** The globals [jobhead], [jobtail], [jobfd], [nextjob] and [joblock], the
    heap of jobs, whether [malloc] can give memory, and the number of
    signals sent to [jobwait]. *)
Record jobq := mk_jobq {
  jmem : gmap addr job;
  jobhead : addr;
  jobtail : addr;
  jobfd : file;
  nextjob : Z;
  joblock : bool;
  jobwait : nat;
  j_oom : bool
}.

Definition set_jmem v s := mk_jobq v (jobhead s) (jobtail s) (jobfd s) (nextjob s) (joblock s) (jobwait s) (j_oom s).
Definition set_jobhead v s := mk_jobq (jmem s) v (jobtail s) (jobfd s) (nextjob s) (joblock s) (jobwait s) (j_oom s).
Definition set_jobtail v s := mk_jobq (jmem s) (jobhead s) v (jobfd s) (nextjob s) (joblock s) (jobwait s) (j_oom s).
Definition set_jobfd v s := mk_jobq (jmem s) (jobhead s) (jobtail s) v (nextjob s) (joblock s) (jobwait s) (j_oom s).
Definition set_nextjob v s := mk_jobq (jmem s) (jobhead s) (jobtail s) (jobfd s) v (joblock s) (jobwait s) (j_oom s).
Definition set_joblock v s := mk_jobq (jmem s) (jobhead s) (jobtail s) (jobfd s) (nextjob s) v (jobwait s) (j_oom s).
Definition set_jobwait v s := mk_jobq (jmem s) (jobhead s) (jobtail s) (jobfd s) (nextjob s) (joblock s) v (j_oom s).

(** * Memory and the mutex *)
Definition load (a : addr) : M jobq job :=
  let* h := gets jmem in
  match h !! a with Some j => ret j | None => undef "bad job pointer" end.
Definition update (a : addr) (f : job -> job) : M jobq unit :=
  let* j := load a in modify (fun s => set_jmem (<[a := f j]> (jmem s)) s).
Definition new_job (j : job) : M jobq addr :=
  let* full := gets j_oom in
  die_if full "malloc failed" ;;;
  let* a := gets (fun s => new_addr (jmem s)) in
  modify (fun s => set_jmem (<[a := j]> (jmem s)) s) ;;;
  ret a.
Definition free_job (a : addr) : M jobq unit :=
  let* _ := load a in modify (fun s => set_jmem (delete a (jmem s)) s).

(** Locking a mutex that is held, or unlocking one that is not, is not a
    state the model goes on from. *)
Definition lock_jobs : M jobq unit :=
  let* b := gets joblock in
  if b : bool then undef "joblock is held" else modify (set_joblock true).
Definition unlock_jobs : M jobq unit :=
  let* b := gets joblock in
  if b : bool then modify (set_joblock false) else undef "joblock is not held".

(** * The job counter *)

(** [jobid = nextjob++], with the overflow of [int32_t] undefined. *)
Definition get_newjobno : M jobq Z :=
  lock_jobs ;;;
  let* id := gets nextjob in
  (if id =? 2 ^ 31 - 1 then undef "signed overflow of nextjob" else skip) ;;;
  modify (set_nextjob (id + 1)) ;;;
  let* n := gets nextjob in
  (if n <=? 0 then modify (set_nextjob 1) else skip) ;;;
  unlock_jobs ;;;
  ret id.

Definition update_jobno : M jobq unit :=
  let* f := gets jobfd in
  match lseek f 0 SEEK_SET with
  | None => die "can't seek in job file"
  | Some (_, f1) =>
      let* n := gets nextjob in
      modify (set_jobfd (fwrite f1 (sdec n)))
  end.

(** [init_request] on the file the path [jobno] names ([None]: it is created);
    [locked] says that another daemon holds the record lock.  The counter is
    read over the path in [name]: [atol] meets the rest of the path after the
    digits. *)
Definition init_request (contents : option bytes) (locked : bool) : M jobq unit :=
  let name := (SPOOLDIR ++ slash ++ JOBFILE) ++ [0] in
  modify (set_jobfd (mk_file (default [] contents) 0)) ;;;
  die_if locked "daemon already running" ;;;
  let* f := gets jobfd in
  let '(bs, f1) := fread f FILENMSZ in
  modify (set_jobfd f1) ;;;
  if (length bs =? 0)%nat then modify (set_nextjob 1)
  else modify (set_nextjob (i32 (atol (cstr (splice 0 bs name))))).

(** * The queue *)

Definition add_job (reqp : printreq) (id : Z) : M jobq unit :=
  let* jp := new_job (mk_job NULL NULL id reqp) in
  lock_jobs ;;;
  let* t := gets jobtail in
  update jp (set_prv t) ;;;
  (if t =? NULL then modify (set_jobhead jp) else update t (set_nxt jp)) ;;;
  modify (set_jobtail jp) ;;;
  unlock_jobs ;;;
  modify (fun s => set_jobwait (S (jobwait s)) s).

Definition replace_job (jp : addr) : M jobq unit :=
  lock_jobs ;;;
  update jp (set_prv NULL) ;;;
  let* h := gets jobhead in
  update jp (set_nxt h) ;;;
  (if h =? NULL then modify (set_jobtail jp) else update h (set_prv jp)) ;;;
  modify (set_jobhead jp) ;;;
  unlock_jobs.

Definition remove_job (target : addr) : M jobq unit :=
  let* t := load target in
  (if negb (j_next t =? NULL) then update (j_next t) (set_prv (j_prev t))
   else modify (set_jobtail (j_prev t))) ;;;
  let* t := load target in
  (if negb (j_prev t =? NULL) then update (j_prev t) (set_nxt (j_next t))
   else modify (set_jobhead (j_next t))).

(** The first lines of the loop of [printer_thread]: [None] when the thread
    has to wait on [jobwait], which releases the mutex. *)
Definition take_job : M jobq (option addr) :=
  lock_jobs ;;;
  let* h := gets jobhead in
  if h =? NULL then unlock_jobs ;;; ret None
  else
    remove_job h ;;;
    let* _ := load h in
    unlock_jobs ;;;
    ret (Some h).

(** * The queue as a list *)

Definition entry (h : gmap addr job) (a : addr) : option (Z * printreq) :=
  (fun j => (jobid j, j_req j)) <$> h !! a.

(** The pending jobs are [l], at the addresses [ads], and no thread holds
    the lock. *)
Record queue (s : jobq) (ads : list addr) (l : list (Z * printreq)) : Prop := {
  q_dll : dll (jmem s) (jobhead s) (jobtail s) ads;
  q_ent : entry (jmem s) <$> ads = Some <$> l;
  q_lock : joblock s = false
}.

Section queue_facts.
Implicit Types (s : jobq) (h : gmap addr job) (ads : list addr) (l : list (Z * printreq)) (j : job).

Lemma update_run a f s j :
  jmem s !! a = Some j -> update a f s = Ret tt (set_jmem (<[a := f j]> (jmem s)) s).
Proof. intros E. unfold update, load. do 2 step. by rewrite E. Qed.

Lemma load_run a s j : jmem s !! a = Some j -> load a s = Ret j s.
Proof. intros E. unfold load. step. by rewrite E. Qed.

Lemma entry_set h a j j' b :
  h !! a = Some j -> jobid j' = jobid j -> j_req j' = j_req j ->
  entry (<[a := j']> h) b = entry h b.
Proof.
  intros Ha Hi Hr. unfold entry. destruct (decide (a = b)) as [->|Hne].
  - rewrite lookup_insert_eq, Ha. simpl. by rewrite Hi, Hr.
  - by rewrite lookup_insert_ne.
Qed.

Lemma ent_frame h h' ads l :
  (forall a, a ∈ ads -> entry h' a = entry h a) ->
  entry h <$> ads = Some <$> l -> entry h' <$> ads = Some <$> l.
Proof.
  intros Hf <-. apply list_fmap_ext. intros i a Hi. apply Hf. by eapply list_elem_of_lookup_2.
Qed.

End queue_facts.

(** The queue operations leave the counter and its file alone. *)
Definition jkeep (s s' : jobq) : Prop :=
  nextjob s' = nextjob s /\ jobfd s' = jobfd s /\ j_oom s' = j_oom s.

(** A job that is in memory but not in the list, as the printer thread holds
    one. *)
Definition held_job (s : jobq) (ads : list addr) (a : addr) (e : Z * printreq) : Prop :=
  a <> NULL /\ (a ∉ ads) /\ entry (jmem s) a = Some e.

Section queue_ops.
Implicit Types (s : jobq) (ads : list addr) (l : list (Z * printreq)).

Lemma lock_run s : joblock s = false -> lock_jobs s = Ret tt (set_joblock true s).
Proof. intros E. unfold lock_jobs. step. by rewrite E. Qed.
Lemma unlock_run s : joblock s = true -> unlock_jobs s = Ret tt (set_joblock false s).
Proof. intros E. unfold unlock_jobs. step. by rewrite E. Qed.

Lemma new_job_run j s : j_oom s = false ->
  new_job j s = Ret (new_addr (jmem s)) (set_jmem (<[new_addr (jmem s) := j]> (jmem s)) s).
Proof. intros E. unfold new_job. step. by rewrite E. Qed.

Lemma entry_known (h : gmap addr job) a j : h !! a = Some j -> entry h a = Some (jobid j, j_req j).
Proof. unfold entry. by intros ->. Qed.

Lemma add_job_run s ads l r id :
  queue s ads l -> j_oom s = false ->
  exists s' a, add_job r id s = Ret tt s' /\ queue s' (ads ++ [a]) (l ++ [(id, r)]) /\
    jobwait s' = S (jobwait s) /\ jkeep s s' /\
    (forall b, is_Some (jmem s !! b) -> b <> a /\ entry (jmem s') b = entry (jmem s) b).
Proof.
  intros [D E L] Ho. destruct (new_addr_fresh (jmem s)) as [Hf Ha0]. set (a := new_addr (jmem s)) in *.
  assert (a ∉ ads) as Hin.
  { intros Hx. destruct D as [S _]. destruct (seg_mem _ _ _ _ _ _ a S Hx). congruence. }
  set (j := mk_job NULL NULL id r). set (j' := mk_job NULL (jobtail s) id r).
  set (h := <[a := j']> (<[a := j]> (jmem s))).
  assert (h !! a = Some j') as Hj by apply lookup_insert_eq.
  assert (dll h (jobhead s) (jobtail s) ads) as D'.
  { destruct D as [S N]. split; [|done]. apply seg_insert_ne; [done|]. by apply seg_insert_ne. }
  assert (forall b, b <> a -> h !! b = jmem s !! b) as Hh.
  { intros b Hb. unfold h. by rewrite !lookup_insert_ne. }
  assert (forall h' : gmap addr job, (forall b, entry h' b = entry h b) ->
    entry h' <$> ads ++ [a] = Some <$> l ++ [(id, r)]) as Hent.
  { intros h' He. rewrite !fmap_app. simpl. rewrite He, (entry_known h a j' Hj). f_equal.
    apply (ent_frame (jmem s)); [|done]. intros b Hb. rewrite He. unfold entry. rewrite Hh; [done|]. by intros ->. }
  assert (forall h' : gmap addr job, (forall b, entry h' b = entry h b) ->
    forall b, is_Some (jmem s !! b) -> b <> a /\ entry h' b = entry (jmem s) b) as Hfr.
  { intros h' He b [x Hb]. assert (b <> a) by congruence. split; [done|]. rewrite He. unfold entry. by rewrite Hh. }
  set (s1 := set_jmem h (set_joblock true s)).
  destruct (dll_snoc h _ _ ads a j' D' Ha0 Hin Hj eq_refl eq_refl) as [[Ht D2]|(Ht & t & Ht2 & D2)].
  - exists (mk_jobq h a a (jobfd s) (nextjob s) false (S (jobwait s)) (j_oom s)), a. split_and!; try done.
    + unfold add_job. call (new_job_run j s Ho). call (lock_run (set_jmem (<[a := j]> (jmem s)) s) L). step.
      call (update_run a (set_prv (jobtail s)) (set_joblock true (set_jmem (<[a := j]> (jmem s)) s)) j (lookup_insert_eq _ _ _)).
      change (jobtail _) with (jobtail s). apply Z.eqb_eq in Ht. by rewrite Ht.
    + split; [done| |done]. by apply Hent.
    + by apply Hfr.
  - assert (forall b, entry (<[jobtail s := set_nxt a t]> h) b = entry h b) as He.
    { intros b. by apply (entry_set _ _ t). }
    exists (mk_jobq (<[jobtail s := set_nxt a t]> h) (jobhead s) a (jobfd s) (nextjob s) false (S (jobwait s)) (j_oom s)), a.
    split_and!; try done.
    + unfold add_job. call (new_job_run j s Ho). call (lock_run (set_jmem (<[a := j]> (jmem s)) s) L). step.
      call (update_run a (set_prv (jobtail s)) (set_joblock true (set_jmem (<[a := j]> (jmem s)) s)) j (lookup_insert_eq _ _ _)).
      change (jobtail _) with (jobtail s). apply Z.eqb_neq in Ht. rewrite Ht.
      by call (update_run (jobtail s) (set_nxt a) s1 t Ht2).
    + split; [done| |done]. by apply Hent.
    + by apply Hfr.
Qed.

Lemma replace_job_run s ads l a e :
  queue s ads l -> held_job s ads a e ->
  exists s', replace_job a s = Ret tt s' /\ queue s' (a :: ads) (e :: l) /\ jkeep s s'.
Proof.
  intros [D E L] (Ha0 & Hin & He). unfold entry in He. destruct (jmem s !! a) as [j|] eqn:Hj; [|done].
  simpl in He. simplify_eq.
  set (j1 := set_prv NULL j). set (j2 := mk_job (jobhead s) NULL (jobid j) (j_req j)).
  set (h := <[a := j2]> (<[a := j1]> (jmem s))).
  assert (h !! a = Some j2) as Hj2 by apply lookup_insert_eq.
  assert (dll h (jobhead s) (jobtail s) ads) as D'.
  { destruct D as [S N]. split; [|done]. apply seg_insert_ne; [done|]. by apply seg_insert_ne. }
  assert (forall b, entry h b = entry (jmem s) b) as Hh.
  { intros b. unfold h. rewrite (entry_set _ a j1) by (apply lookup_insert_eq || done). by rewrite (entry_set _ a j). }
  assert (forall h' : gmap addr job, (forall b, entry h' b = entry h b) ->
    entry h' <$> a :: ads = Some <$> (jobid j, j_req j) :: l) as Hent.
  { intros h' He. rewrite !fmap_cons. rewrite He, (entry_known h a j2 Hj2). f_equal.
    apply (ent_frame (jmem s)); [|done]. intros b Hb. by rewrite He. }
  set (s1 := set_jmem h (set_joblock true s)).
  assert (replace_job a s =
    ((if jobhead s =? NULL then modify (set_jobtail a) else update (jobhead s) (set_prv a)) ;;;
     modify (set_jobhead a) ;;; unlock_jobs) s1) as R1.
  { unfold replace_job. call (lock_run s L). call (update_run a (set_prv NULL) (set_joblock true s) j Hj). step.
    by call (update_run a (set_nxt (jobhead s)) (set_jmem (<[a := j1]> (jmem s)) (set_joblock true s)) j1 (lookup_insert_eq _ _ _)). }
  destruct (dll_cons h _ _ ads a j2 D' Ha0 Hin Hj2 eq_refl eq_refl) as [[Ht D2]|(Ht & t & Ht2 & D2)].
  - eexists (mk_jobq h a a (jobfd s) (nextjob s) false (jobwait s) (j_oom s)). split_and!; try done.
    + rewrite R1. apply Z.eqb_eq in Ht. by rewrite Ht.
    + split; [done| |done]. by apply Hent.
  - eexists (mk_jobq (<[jobhead s := set_prv a t]> h) a (jobtail s) (jobfd s) (nextjob s) false (jobwait s) (j_oom s)).
    split_and!; try done.
    + rewrite R1. apply Z.eqb_neq in Ht. rewrite Ht. by call (update_run (jobhead s) (set_prv a) s1 t Ht2).
    + split; [done| |done]. apply Hent. intros b. by apply (entry_set _ _ t).
Qed.

Lemma entry_alter f (h : gmap addr job) a b :
  (forall j, jobid (f j) = jobid j /\ j_req (f j) = j_req j) -> entry (alter f a h) b = entry h b.
Proof.
  intros Hf. unfold entry. destruct (decide (a = b)) as [->|Hne].
  - rewrite lookup_alter_eq. destruct (h !! b) as [j|]; simpl; [|done]. by destruct (Hf j) as [-> ->].
  - by rewrite lookup_alter_ne.
Qed.

Lemma update_alter a f s : is_Some (jmem s !! a) ->
  update a f s = Ret tt (set_jmem (alter f a (jmem s)) s).
Proof. intros [j Hj]. by rewrite (alter_known _ _ _ j), (update_run a f s j). Qed.

(** Both pointers of the target survive the first assignment, because its
    successor is another node. *)
Lemma remove_job_run s (l1 : list addr) a (l2 : list addr) j :
  dll (jmem s) (jobhead s) (jobtail s) (l1 ++ a :: l2) -> jmem s !! a = Some j ->
  remove_job a s = Ret tt (mk_jobq (unlink (jmem s) a j) (if prv j =? NULL then nxt j else jobhead s)
    (if nxt j =? NULL then prv j else jobtail s) (jobfd s) (nextjob s) (joblock s) (jobwait s) (j_oom s)).
Proof.
  intros D Hj. pose proof D as [_ Hn]. destruct (dll_middle _ _ _ _ _ _ D) as (j' & Hj' & Ha & S1 & S2).
  simplify_eq. apply list.NoDup_app in Hn as (N1 & Hd & N2). apply list.NoDup_cons in N2 as [Ha2 N2].
  set (s1 := mk_jobq (unlink_next (jmem s) a j) (jobhead s) (if nxt j =? NULL then prv j else jobtail s)
    (jobfd s) (nextjob s) (joblock s) (jobwait s) (j_oom s)).
  assert ((if negb (j_next j =? NULL) then update (j_next j) (set_prv (j_prev j))
           else modify (set_jobtail (j_prev j))) s = Ret tt s1) as E1.
  { unfold s1, unlink_next. simpl. destruct (Z.eqb_spec (j_next j) NULL) as [|Hx]; simpl.
    - by destruct s.
    - rewrite update_alter; [done|]. destruct l2 as [|b l2]; [by destruct S2|].
      destruct (seg_nil_next _ _ _ _ _ _ _ S2) as [E _]. simpl in E. rewrite E.
      eapply seg_mem; [exact S2|by left]. }
  assert (jmem s1 !! a = Some j) as Hj1.
  { unfold s1, unlink_next. simpl. destruct (Z.eqb_spec (j_next j) NULL) as [|Hx]; [done|].
    rewrite lookup_alter_ne; [done|]. intros E. destruct l2 as [|b l2]; [by destruct S2|].
    destruct (seg_nil_next _ _ _ _ _ _ _ S2) as [E' _]. simpl in E'. apply Ha2. rewrite <-E, E'. by left. }
  unfold remove_job. call (load_run a s j Hj). call E1. call (load_run a s1 j Hj1).
  unfold unlink. simpl. destruct (Z.eqb_spec (j_prev j) NULL) as [|Hx]; simpl; [done|].
  rewrite update_alter; [done|]. change (jmem s1) with (unlink_next (jmem s) a j).
  assert (is_Some (jmem s !! j_prev j)) as [x Hp].
  { destruct l1 as [|c l1 _] using rev_ind; [by destruct S1|].
    destruct (seg_last _ _ _ _ _ _ _ S1) as [E' _]. simpl in E'. rewrite E'.
    eapply seg_mem; [exact S1|]. apply elem_of_app. right. by left. }
  unfold unlink_next. destruct (nxt j =? NULL); [by exists x|]. apply lookup_alter_is_Some. by exists x.
Qed.

Lemma entry_unlink (h : gmap addr job) a j b : entry (unlink h a j) b = entry h b.
Proof.
  unfold unlink, unlink_next. destruct (prv j =? NULL), (nxt j =? NULL); rewrite ?entry_alter; done.
Qed.

Lemma take_job_empty s l : queue s [] l -> take_job s = Ret None s.
Proof.
  intros [D E L]. destruct D as [[Hh Ht] _]. unfold take_job. call (lock_run s L). step.
  change (jobhead (set_joblock true s)) with (jobhead s). rewrite Hh. destruct s. simpl in *. by subst.
Qed.

Lemma take_job_run s a ads e l :
  queue s (a :: ads) (e :: l) ->
  exists s', take_job s = Ret (Some a) s' /\ queue s' ads l /\ held_job s' ads a e /\ jkeep s s'.
Proof.
  intros [D E L]. rewrite !fmap_cons in E. injection E as He El.
  destruct (dll_middle _ _ _ [] a ads D) as (j & Hj & Ha & S1 & S2).
  pose proof (dll_unlink _ _ _ [] a ads j D Hj) as D2.
  pose proof (remove_job_run (set_joblock true s) [] a ads j D Hj) as R.
  destruct S1 as [Hh Hp]. rewrite <-Hp in D2, R. rewrite Z.eqb_refl in D2, R.
  set (s1 := mk_jobq _ _ _ _ _ _ _ _) in R.
  exists (set_joblock false s1). split_and!.
  - unfold take_job. call (lock_run s L). step. change (jobhead (set_joblock true s)) with (jobhead s). rewrite Hh.
    apply Z.eqb_neq in Ha. rewrite Ha. call R.
    assert (is_Some (jmem s1 !! a)) as [j' Hj'].
    { apply fmap_is_Some with (f := fun j => (jobid j, j_req j)). change (is_Some (entry (jmem s1) a)).
      change (jmem s1) with (unlink (jmem s) a j). rewrite entry_unlink, He. by eexists. }
    by call (load_run a s1 j' Hj').
  - split; [exact D2| |done]. apply (ent_frame (jmem s)); [|done].
    intros b Hb. apply entry_unlink.
  - split; [done|]. split; [|by rewrite <-He; apply entry_unlink]. by destruct D as [_ [? _]%list.NoDup_cons].
  - done.
Qed.
Lemma get_newjobno_run s :
  joblock s = false -> 1 <= nextjob s < 2 ^ 31 - 1 ->
  get_newjobno s = Ret (nextjob s) (set_nextjob (nextjob s + 1) s).
Proof.
  intros L Hn. unfold get_newjobno. call (lock_run s L). step.
  change (nextjob (set_joblock true s)) with (nextjob s).
  destruct (Z.eqb_spec (nextjob s) (2 ^ 31 - 1)); [lia|].
  rewrite (bind_run skip _ _ tt _ eq_refl). do 2 step.
  change (nextjob _) with (nextjob s + 1) at 1. destruct (Z.leb_spec (nextjob s + 1) 0); [lia|].
  destruct s. simpl in *. subst. reflexivity.
Qed.

End queue_ops.
