(* ===== verification/PrintQueue.v ===== *)
(** Theorems about the job queue of [printd.c]: any sequence of submissions,
    pick-ups, deferrals and completions is a sequence of list operations,
    and the job numbers and their file. *)
From Stdlib Require Import ZArith Lia.
From stdpp Require Import base list strings gmap numbers.
From S2P Require Import Prelude CString CFile Dll PrintJobs.
Local Open Scope c_scope.

(** * Sequences of queue operations *)

(** The steps client threads and the printer thread take under [joblock]:
    [add_job], taking the first job, putting the job taken back with
    [replace_job], and freeing it once it is printed. *)
Inductive qop := QAdd (id : Z) (r : printreq) | QTake | QDefer | QDone.

(** The address the printer thread holds is its local variable [jp]. *)
Definition do_qop (jp : option addr) (o : qop) : M jobq (option addr) :=
  match o, jp with
  | QAdd id r, _ => add_job r id ;;; ret jp
  | QTake, None => take_job
  | QDefer, Some a => replace_job a ;;; ret None
  | QDone, Some a => free_job a ;;; ret None
  | _, _ => ret jp
  end.
Fixpoint run_qops (jp : option addr) (ops : list qop) : M jobq (option addr) :=
  match ops with
  | [] => ret jp
  | o :: r => let* jp' := do_qop jp o in run_qops jp' r
  end.

(** The same steps on a list of pending jobs, the job being printed and the
    jobs printed so far. *)
Record spooler := mk_spooler { pending : list (Z * printreq); printing : option (Z * printreq); printed : list (Z * printreq) }.
Definition spec_qop (o : qop) (q : spooler) : spooler :=
  match o, printing q with
  | QAdd id r, p => mk_spooler (pending q ++ [(id, r)]) p (printed q)
  | QTake, None => match pending q with
                   | [] => q
                   | e :: l => mk_spooler l (Some e) (printed q)
                   end
  | QDefer, Some e => mk_spooler (e :: pending q) None (printed q)
  | QDone, Some e => mk_spooler (pending q) None (printed q ++ [e])
  | _, _ => q
  end.
Definition added (ops : list qop) : list (Z * printreq) :=
  omap (fun o => match o with QAdd id r => Some (id, r) | _ => None end) ops.
Definition all_jobs (q : spooler) : list (Z * printreq) :=
  pending q ++ option_list (printing q) ++ printed q.

(** [s] with the pointer [jp] stands for [q]. *)
Definition spools (s : jobq) (jp : option addr) (q : spooler) : Prop :=
  j_oom s = false /\
  exists ads, queue s ads (pending q) /\
    match jp, printing q with
    | None, None => True
    | Some a, Some e => held_job s ads a e
    | _, _ => False
    end.

Definition no_jobs (f : file) : jobq := mk_jobq ∅ NULL NULL f 1 false 0 false.

Section sequences.
Implicit Types (s : jobq) (q : spooler).

Lemma free_job_run s ads l a e :
  queue s ads l -> held_job s ads a e ->
  exists s', free_job a s = Ret tt s' /\ queue s' ads l /\ j_oom s' = j_oom s.
Proof.
  intros [D E L] (Ha0 & Hin & He). unfold entry in He. destruct (jmem s !! a) as [j|] eqn:Hj; [|done].
  exists (set_jmem (delete a (jmem s)) s). split_and!; [|split|done].
  - unfold free_job. by call (load_run a s j Hj).
  - destruct D as [S N]. split; [|done]. by apply seg_delete_ne.
  - apply (ent_frame (jmem s)); [|done]. intros b Hb. unfold entry. simpl.
    rewrite lookup_delete_ne; [done|]. by intros ->.
  - done.
Qed.

Lemma do_qop_run s jp q o : spools s jp q ->
  exists s' jp', do_qop jp o s = Ret jp' s' /\ spools s' jp' (spec_qop o q).
Proof.
  intros (Ho & ads & Q & HP). destruct o as [id r| | |].
  - destruct (add_job_run s ads (pending q) r id Q Ho) as (s' & a & E & Q' & _ & (_ & _ & Ho') & Hf).
    exists s', jp. split; [unfold do_qop; by call E|].
    split; [by rewrite Ho'|]. exists (ads ++ [a]). simpl. split; [done|].
    destruct jp as [b|], (printing q) as [e|]; try done. destruct HP as (Hb0 & Hbi & Hbe).
    destruct (Hf b) as [Hba Hbf]; [unfold entry in Hbe; by destruct (jmem s !! b); eauto|].
    split; [done|]. split; [|by rewrite Hbf]. rewrite elem_of_app, list_elem_of_singleton. tauto.
  - destruct jp as [b|], (printing q) as [e|] eqn:Ep; try done.
    { exists s, (Some b). unfold spec_qop. rewrite Ep. split; [done|]. split; [done|]. exists ads. by rewrite Ep. }
    unfold spec_qop. rewrite Ep. destruct (pending q) as [|e l] eqn:El.
    + assert (ads = []) as ->.
      { destruct ads; [done|]. by destruct Q as [_ ? _]. }
      exists s, None. split; [by eapply take_job_empty|]. split; [done|]. exists []. by rewrite El, Ep.
    + destruct ads as [|a ads]; [by destruct Q as [_ ? _]|].
      destruct (take_job_run s a ads e l Q) as (s' & E & Q' & H' & (_ & _ & Ho')).
      exists s', (Some a). split; [done|]. split; [by rewrite Ho'|]. by exists ads.
  - destruct jp as [b|], (printing q) as [e|] eqn:Ep; try done; unfold spec_qop; rewrite Ep.
    + destruct (replace_job_run s ads (pending q) b e Q HP) as (s' & E & Q' & (_ & _ & Ho')).
      exists s', None. split; [unfold do_qop; by call E|]. split; [by rewrite Ho'|]. by exists (b :: ads).
    + exists s, None. split; [done|]. split; [done|]. exists ads. by rewrite Ep.
  - destruct jp as [b|], (printing q) as [e|] eqn:Ep; try done; unfold spec_qop; rewrite Ep.
    + destruct (free_job_run s ads (pending q) b e Q HP) as (s' & E & Q' & Ho').
      exists s', None. split; [unfold do_qop; by call E|]. split; [by rewrite Ho'|]. by exists ads.
    + exists s, None. split; [done|]. split; [done|]. exists ads. by rewrite Ep.
Qed.

Lemma spec_conserve o q : all_jobs (spec_qop o q) ≡ₚ all_jobs q ++ added [o].
Proof.
  unfold all_jobs. destruct q as [l p d], o as [id r| | |], p as [e|]; simpl;
    rewrite ?app_nil_r; try done.
  - rewrite <-!app_assoc. apply Permutation_app_head, Permutation_app_comm.
  - rewrite <-!app_assoc. apply Permutation_app_head, Permutation_app_comm.
  - destruct l as [|e l]; simpl; [done|]. by rewrite <-Permutation_middle.
  - apply Permutation_middle.
  - apply Permutation_app_head. symmetry. apply Permutation_cons_append.
Qed.

Lemma added_cons o ops : added (o :: ops) = added [o] ++ added ops.
Proof. by destruct o. Qed.

Lemma run_qops_run s jp q ops : spools s jp q ->
  exists s' jp', run_qops jp ops s = Ret jp' s' /\ spools s' jp' (foldl (fun q o => spec_qop o q) q ops) /\
    all_jobs (foldl (fun q o => spec_qop o q) q ops) ≡ₚ all_jobs q ++ added ops.
Proof.
  revert s jp q. induction ops as [|o ops IH]; intros s jp q H.
  - exists s, jp. split; [done|]. split; [done|]. by rewrite app_nil_r.
  - destruct (do_qop_run s jp q o H) as (s1 & jp1 & E1 & H1).
    destruct (IH s1 jp1 _ H1) as (s2 & jp2 & E2 & H2 & P2).
    exists s2, jp2. split; [rewrite <-E2; exact (bind_run _ (fun jp' => run_qops jp' ops) _ _ _ E1)|]. split; [done|].
    cbn [foldl]. rewrite (added_cons o ops), P2, (spec_conserve o q), app_assoc. reflexivity.
Qed.

Lemma no_jobs_spools f : spools (no_jobs f) None (mk_spooler [] None []).
Proof. split; [done|]. exists []. split; [|done]. split; [|done|done]. split; [by split|constructor]. Qed.
End sequences.

(** C3: starting from the empty queue, any sequence of submissions by client
    threads and pick-ups, deferrals and completions by the printer thread
    runs without touching an invalid pointer and without blocking on
    [joblock], the linked list is always the list of pending jobs in order
    (first in first out, a deferred job first), and no job is lost or
    duplicated: the jobs pending, being printed and printed are exactly the
    jobs submitted. *)
Theorem job_queue_is_list f ops :
  exists s jp q, run_qops None ops (no_jobs f) = Ret jp s /\
    q = foldl (fun q o => spec_qop o q) (mk_spooler [] None []) ops /\
    spools s jp q /\ all_jobs q ≡ₚ added ops.
Proof.
  destruct (run_qops_run (no_jobs f) None _ ops (no_jobs_spools f)) as (s & jp & E & H & P). eauto 7.
Qed.

(** [remove_job] applied to any job of the list, at the head, at the
    tail or between two others, leaves the other jobs in their order, the
    head and tail pointers included. *)
Theorem remove_job_anywhere s l1 a l2 l :
  dll (jmem s) (jobhead s) (jobtail s) (l1 ++ a :: l2) ->
  entry (jmem s) <$> l1 ++ l2 = Some <$> l ->
  exists s', remove_job a s = Ret tt s' /\
    dll (jmem s') (jobhead s') (jobtail s') (l1 ++ l2) /\ entry (jmem s') <$> l1 ++ l2 = Some <$> l /\
    joblock s' = joblock s.
Proof.
  intros D E. destruct (dll_middle _ _ _ _ _ _ D) as (j & Hj & _).
  pose proof (remove_job_run s l1 a l2 j D Hj) as R. eexists. split; [exact R|].
  split; [exact (dll_unlink _ _ _ _ _ _ j D Hj)|]. split; [|done].
  apply (ent_frame (jmem s)); [|done]. intros b _. apply entry_unlink.
Qed.

Definition some_req : printreq := mk_req 5 0 (str "root" ++ replicate 60 0) (str "a.txt" ++ replicate 251 0).
Definition three_jobs : jobq :=
  match run_qops None [QAdd 1 some_req; QAdd 2 some_req; QAdd 3 some_req] (no_jobs (mk_file [] 0)) with
  | Ret _ s => s
  | _ => no_jobs (mk_file [] 0)
  end.

Lemma remove_job_anywhere_witness :
  exists s', remove_job 2 three_jobs = Ret tt s' /\
    dll (jmem s') (jobhead s') (jobtail s') [1; 3] /\
    entry (jmem s') <$> [1; 3] = Some <$> [(1, some_req); (3, some_req)].
Proof.
  destruct (remove_job_anywhere three_jobs [1] 2 [3] [(1, some_req); (3, some_req)]) as (s' & E & D & En & _).
  - split; [|by apply (bool_decide_unpack (NoDup [1; 2; 3])); vm_compute].
    split; [reflexivity|]. split; [discriminate|]. exists (mk_job 2 0 1 some_req). split; [reflexivity|].
    split; [reflexivity|]. split; [reflexivity|]. split; [discriminate|].
    exists (mk_job 3 1 2 some_req). split; [reflexivity|]. split; [reflexivity|].
    split; [reflexivity|]. split; [discriminate|]. exists (mk_job 0 2 3 some_req).
    split; [reflexivity|]. split; [reflexivity|]. split; reflexivity.
  - reflexivity.
  - exists s'. split; [exact E|]. split; [exact D|exact En].
Defined.

(** * Job numbers *)

Fixpoint newjobnos (n : nat) : M jobq (list Z) :=
  match n with
  | O => ret []
  | S k => let* id := get_newjobno in let* r := newjobnos k in ret (id :: r)
  end.

Section numbers.
Implicit Types (s : jobq).

Lemma seqZ_more n k : seqZ n (Z.of_nat (S k)) = n :: seqZ (n + 1) (Z.of_nat k).
Proof. rewrite seqZ_cons by lia. f_equal. f_equal; lia. Qed.

Lemma newjobnos_run n s :
  joblock s = false -> 1 <= nextjob s -> nextjob s + Z.of_nat n < 2 ^ 31 ->
  newjobnos n s = Ret (seqZ (nextjob s) (Z.of_nat n)) (set_nextjob (nextjob s + Z.of_nat n) s).
Proof.
  revert s. induction n as [|n IH]; intros s L H1 H2.
  - cbn [newjobnos]. rewrite Z.add_0_r. by destruct s.
  - cbn [newjobnos]. rewrite (bind_run _ _ _ _ _ (get_newjobno_run s L ltac:(lia))).
    set (s1 := set_nextjob (nextjob s + 1) s).
    assert (newjobnos n s1 = _) as E by (apply IH; [done|simpl; lia|simpl; lia]).
    rewrite (bind_run _ _ _ _ _ E), seqZ_more. simpl. unfold ret. f_equal.
    destruct s. unfold set_nextjob. simpl. f_equal. lia.
Qed.

Lemma path_no_digit k c : (1 <= k)%nat ->
  head (cstr (drop k (SPOOLDIR ++ slash ++ JOBFILE ++ [0]))) = Some c -> isdigit c = false.
Proof.
  intros Hk H. do 25 (destruct k as [|k]; [first [lia | by vm_compute in H; simplify_eq]|]).
  rewrite drop_ge in H by (vm_compute; lia). done.
Qed.

(** Reading the counter over the path: the digits end where the path goes
    on. *)
Lemma init_read n :
  1 <= n < 2 ^ 31 ->
  i32 (atol (cstr (splice 0 (udec n) ((SPOOLDIR ++ slash ++ JOBFILE) ++ [0])))) = n.
Proof.
  intros Hn. destruct (udec_spec n) as (Hne & Hd & Hv); [lia|].
  unfold splice. cbn [take]. rewrite app_nil_l, Nat.add_0_l, <-app_assoc, <-app_assoc.
  change (replicate (0 - _) 0) with (@nil Z). rewrite app_nil_l.
  rewrite cstr_app by (by apply digits_not).
  rewrite atol_digits; [|done|done|].
  - rewrite Hv, clamp64_small by (unfold LONG_MAX; lia). apply wraps_small; lia.
  - intros c. apply path_no_digit. destruct (udec n); [done|simpl; lia].
Qed.

Lemma update_jobno_run s :
  1 <= nextjob s -> (f_size (jobfd s) <= length (udec (nextjob s)))%nat ->
  exists f, update_jobno s = Ret tt (set_jobfd f s) /\ f_data f = udec (nextjob s).
Proof.
  intros Hn Hl. destruct (udec_spec (nextjob s)) as (Hne & _ & _); [lia|].
  unfold update_jobno. step. rewrite lseek_set by lia. step.
  unfold sdec. destruct (Z.ltb_spec (nextjob s) 0); [lia|].
  eexists. split; [reflexivity|]. unfold fwrite. destruct (udec (nextjob s)) as [|c r]; [done|].
  simpl f_data. unfold splice. cbn [take]. unfold f_size in Hl.
  rewrite drop_ge by (simpl in *; lia). rewrite app_nil_r. done.
Qed.

Lemma init_request_run s c :
  init_request (Some c) false s =
    match c with
    | [] => Ret tt (set_nextjob 1 (set_jobfd (mk_file [] 0) s))
    | _ => Ret tt (set_nextjob (i32 (atol (cstr (splice 0 (take FILENMSZ c) ((SPOOLDIR ++ slash ++ JOBFILE) ++ [0])))))
             (set_jobfd (mk_file c (length (take FILENMSZ c))) s))
    end.
Proof. by destruct c. Qed.
End numbers.

(** Any run of calls of [get_newjobno], whatever threads make them, hands
    out consecutive and so distinct job numbers, until the counter reaches
    the largest [int32_t]; there the increment overflows, which the test for
    wrap-around that follows it comes too late for. *)
Theorem job_numbers_distinct s n :
  joblock s = false -> 1 <= nextjob s -> nextjob s + Z.of_nat n < 2 ^ 31 ->
  exists ids, newjobnos n s = Ret ids (set_nextjob (nextjob s + Z.of_nat n) s) /\
    ids = seqZ (nextjob s) (Z.of_nat n) /\ NoDup ids /\
    get_newjobno (set_nextjob (2 ^ 31 - 1) s) = Undef "signed overflow of nextjob".
Proof.
  intros L H1 H2. eexists. split; [by apply newjobnos_run|]. split; [done|]. split; [apply NoDup_seqZ|].
  unfold get_newjobno. by rewrite (bind_run _ _ _ _ _ (lock_run (set_nextjob (2 ^ 31 - 1) s) L)).
Qed.

Lemma job_numbers_distinct_witness :
  exists ids, newjobnos 4 (no_jobs (mk_file [] 0)) = Ret ids (set_nextjob 5 (no_jobs (mk_file [] 0))) /\
    ids = [1; 2; 3; 4] /\ NoDup ids.
Proof.
  destruct (job_numbers_distinct (no_jobs (mk_file [] 0)) 4) as (ids & E & I & N & _).
  - reflexivity.
  - vm_compute. discriminate.
  - vm_compute. reflexivity.
  - exists ids. split; [exact E|]. split; [exact I|exact N].
Defined.

(** The counter survives a restart: what [update_jobno] writes when the
    printer thread takes a job, [init_request] of the next daemon reads back,
    although the file is not truncated and the number is read over the path
    in an unterminated buffer; a number taken since then is not on disk, and
    the next daemon gives it out again. *)
Theorem job_counter_persists s s2 :
  joblock s = false -> 1 <= nextjob s < 2 ^ 31 - 1 -> (f_size (jobfd s) <= length (udec (nextjob s)))%nat ->
  exists s1, update_jobno s = Ret tt s1 /\ nextjob s1 = nextjob s /\
    (exists s3, init_request (Some (f_data (jobfd s1))) false s2 = Ret tt s3 /\ nextjob s3 = nextjob s) /\
    exists s4 s5, get_newjobno s1 = Ret (nextjob s) s4 /\
      init_request (Some (f_data (jobfd s4))) false s2 = Ret tt s5 /\ nextjob s5 = nextjob s.
Proof.
  intros L Hn Hl. destruct (update_jobno_run s) as (f & E & Hf); [lia|done|].
  exists (set_jobfd f s). split; [done|]. split; [done|].
  assert (exists s3, init_request (Some (udec (nextjob s))) false s2 = Ret tt s3 /\ nextjob s3 = nextjob s) as H3.
  { destruct (udec_spec (nextjob s)) as (Hne & _ & _); [lia|].
    rewrite init_request_run. destruct (udec (nextjob s)) as [|c r] eqn:Eu; [done|]. rewrite <-Eu.
    eexists. split; [reflexivity|]. simpl. rewrite take_ge; [apply init_read; lia|].
    pose proof (udec_length (nextjob s) 9 ltac:(simpl; lia)). unfold FILENMSZ. lia. }
  split; [by simpl; rewrite Hf|].
  destruct H3 as (s5 & E5 & H5). exists (set_nextjob (nextjob s + 1) (set_jobfd f s)), s5.
  split; [exact (get_newjobno_run (set_jobfd f s) L Hn)|]. simpl. by rewrite Hf.
Qed.

Lemma job_counter_persists_witness :
  let s := no_jobs (mk_file (str "1") 1) in
  exists s1, update_jobno s = Ret tt s1 /\
    (exists s3, init_request (Some (f_data (jobfd s1))) false s = Ret tt s3 /\ nextjob s3 = 1).
Proof.
  intros s. destruct (job_counter_persists s s) as (s1 & E & _ & H & _).
  - reflexivity.
  - vm_compute. split; [discriminate|reflexivity].
  - vm_compute. apply le_n.
  - exists s1. split; [exact E|exact H].
Defined.
