(* ===== verification/PrintWorkers.v ===== *)
(** The list of worker threads of [printd.c]: [add_worker], [kill_workers],
    [client_cleanup] and the signal thread that uses them. *)
From Stdlib Require Import ZArith Lia.
From stdpp Require Import base list strings gmap numbers.
From S2P Require Import Prelude CString CFile Dll.
Local Open Scope c_scope.

(** [struct worker_thread] *)
Record worker_thread := mk_worker { w_next : addr; w_prev : addr; w_tid : Z; w_sockfd : Z }.

#[export] Program Instance worker_node : Node worker_thread := {|
  nxt := w_next; prv := w_prev;
  set_nxt a w := mk_worker a (w_prev w) (w_tid w) (w_sockfd w);
  set_prv a w := mk_worker (w_next w) a (w_tid w) (w_sockfd w)
|}.
Solve All Obligations with done.

(** The globals [workers] and [workerlock] with the heap of workers, the
    threads cancelled and the sockets closed so far (latest first), and
    whether [malloc] can give memory. *)
Record workerq := mk_workerq {
  wmem : gmap addr worker_thread;
  workers : addr;
  workerlock : bool;
  cancelled : list Z;
  closed : list Z;
  w_oom : bool
}.

Definition set_wmem v s := mk_workerq v (workers s) (workerlock s) (cancelled s) (closed s) (w_oom s).
Definition set_workers v s := mk_workerq (wmem s) v (workerlock s) (cancelled s) (closed s) (w_oom s).
Definition set_workerlock v s := mk_workerq (wmem s) (workers s) v (cancelled s) (closed s) (w_oom s).
Definition set_cancelled v s := mk_workerq (wmem s) (workers s) (workerlock s) v (closed s) (w_oom s).
Definition set_closed v s := mk_workerq (wmem s) (workers s) (workerlock s) (cancelled s) v (w_oom s).

Definition wload (a : addr) : M workerq worker_thread :=
  let* h := gets wmem in
  match h !! a with Some w => ret w | None => undef "bad worker pointer" end.
Definition wupdate (a : addr) (f : worker_thread -> worker_thread) : M workerq unit :=
  let* w := wload a in modify (fun s => set_wmem (<[a := f w]> (wmem s)) s).
Definition lock_workers : M workerq unit :=
  let* b := gets workerlock in
  if b : bool then undef "workerlock is held" else modify (set_workerlock true).
Definition unlock_workers : M workerq unit :=
  let* b := gets workerlock in
  if b : bool then modify (set_workerlock false) else undef "workerlock is not held".

(** [false]: no memory, the thread exits. *)
Definition add_worker (tid sockfd : Z) : M workerq bool :=
  let* full := gets w_oom in
  if full : bool then ret false
  else
    let* wtp := gets (fun s => new_addr (wmem s)) in
    modify (fun s => set_wmem (<[wtp := mk_worker NULL NULL tid sockfd]> (wmem s)) s) ;;;
    lock_workers ;;;
    wupdate wtp (set_prv NULL) ;;;
    let* ws := gets workers in
    wupdate wtp (set_nxt ws) ;;;
    (if ws =? NULL then modify (set_workers wtp) else wupdate ws (set_prv wtp)) ;;;
    unlock_workers ;;;
    ret true.

(** The loops over the list visit each node once: as many rounds as there
    are nodes in memory are enough. *)
Definition list_fuel (s : workerq) : nat := S (size (wmem s)).

Fixpoint kill_loop (fuel : nat) (wtp : addr) : M workerq unit :=
  if wtp =? NULL then skip
  else match fuel with
  | O => nofuel
  | S f =>
      let* w := wload wtp in
      modify (fun s => set_cancelled (w_tid w :: cancelled s) s) ;;;
      kill_loop f (w_next w)
  end.
Definition kill_workers : M workerq unit :=
  lock_workers ;;;
  let* ws := gets workers in
  let* fuel := gets list_fuel in
  kill_loop fuel ws ;;;
  unlock_workers.

(** The search of [client_cleanup]: the node of [tid], or NULL. *)
Fixpoint find_worker (fuel : nat) (tid : Z) (wtp : addr) : M workerq addr :=
  if wtp =? NULL then ret NULL
  else match fuel with
  | O => nofuel
  | S f =>
      let* w := wload wtp in
      if w_tid w =? tid then ret wtp else find_worker f tid (w_next w)
  end.
Definition client_cleanup (tid : Z) : M workerq unit :=
  lock_workers ;;;
  let* ws := gets workers in
  let* fuel := gets list_fuel in
  let* wtp := find_worker fuel tid ws in
  (if wtp =? NULL then skip
   else
     let* w := wload wtp in
     (if negb (w_next w =? NULL) then wupdate (w_next w) (set_prv (w_prev w)) else skip) ;;;
     let* w := wload wtp in
     (if negb (w_prev w =? NULL) then wupdate (w_prev w) (set_nxt (w_next w))
      else modify (set_workers (w_next w)))) ;;;
  unlock_workers ;;;
  if wtp =? NULL then skip
  else
    let* w := wload wtp in
    modify (fun s => set_closed (w_sockfd w :: closed s) s) ;;;
    modify (fun s => set_wmem (delete wtp (wmem s)) s).

(** * Signals *)
Definition SIGHUP : Z := 1.
Definition SIGTERM : Z := 15.

(** One round of [signal_thread] on the workers and on [reread] (whose lock,
    [configlock], is taken and released around the assignment): the error of
    [sigwait], or the signal. *)
Definition signal_step (r : Z + Z) : M (workerq * Z) unit :=
  match r with
  | inl err => die "sigwait failed"
  | inr signo =>
      if signo =? SIGHUP then modify (fun s => (s.1, 1))
      else
        zoom fst (fun w s => (w, s.2)) kill_workers ;;;
        if signo =? SIGTERM then die "terminate with signal" else die "unexpected signal"
  end.

(** * What the list holds *)

(** The nodes on the way from [p] along [next] to NULL. *)
Fixpoint reach (h : gmap addr worker_thread) (p : addr) (l : list addr) : Prop :=
  match l with
  | [] => p = NULL
  | a :: r => p = a /\ a <> NULL /\ exists w, h !! a = Some w /\ reach h (w_next w) r
  end.
Definition tids (h : gmap addr worker_thread) (l : list addr) : list Z :=
  omap (fun a => w_tid <$> h !! a) l.

Section workers.
Implicit Types (s : workerq) (h : gmap addr worker_thread) (l : list addr).

Lemma reach_frame h h' p l :
  (forall a, a ∈ l -> w_next <$> h' !! a = w_next <$> h !! a) -> reach h p l -> reach h' p l.
Proof.
  revert p. induction l as [|a l IH]; intros p Hf; simpl; [done|].
  intros (-> & Ha & w & Hw & R). split; [done|]. split; [done|].
  pose proof (Hf a ltac:(by left)) as E. rewrite Hw in E. destruct (h' !! a) as [w'|]; [|done].
  simpl in E. exists w'. split; [done|]. injection E as ->. apply IH; [|done]. intros b Hb. apply Hf. by right.
Qed.

Lemma tids_cons h a l :
  tids h (a :: l) = match w_tid <$> h !! a with Some t => t :: tids h l | None => tids h l end.
Proof. done. Qed.

Lemma tids_frame h h' l :
  (forall a, a ∈ l -> w_tid <$> h' !! a = w_tid <$> h !! a) -> tids h' l = tids h l.
Proof.
  induction l as [|a l IH]; intros Hf; [done|].
  rewrite !tids_cons, (Hf a) by (by left). rewrite IH; [done|]. intros b Hb. apply Hf. by right.
Qed.

Lemma reach_mem h p l a : reach h p l -> a ∈ l -> is_Some (h !! a).
Proof.
  revert p. induction l as [|b l IH]; intros p R Ha; [by apply elem_of_nil in Ha|].
  destruct R as (-> & Hb & w & Hw & R). apply elem_of_cons in Ha as [->|Ha]; [by exists w|by eapply IH].
Qed.

Lemma reach_suffix h p l1 l2 : reach h p (l1 ++ l2) -> exists q, reach h q l2.
Proof.
  revert p. induction l1 as [|a l1 IH]; intros p R; [by exists p|].
  destruct R as (_ & _ & w & _ & R). by eapply IH.
Qed.

Lemma reach_fun h p l l' : reach h p l -> reach h p l' -> l = l'.
Proof.
  revert p l'. induction l as [|a l IH]; intros p [|b l'] R R'; simpl in *.
  - done.
  - destruct R' as (-> & ? & _). done.
  - destruct R as (-> & ? & _). done.
  - destruct R as (-> & _ & w & Hw & R). destruct R' as (<- & _ & w' & Hw' & R'). simplify_eq.
    f_equal. by eapply IH.
Qed.

(** A list that ends in NULL visits no node twice. *)
Lemma reach_nodup h p l : reach h p l -> NoDup l.
Proof.
  revert p. induction l as [|a l IH]; intros p R; [constructor|].
  pose proof R as (-> & Ha & w & Hw & R'). apply NoDup_cons_2; [|by eapply IH].
  intros Hin. apply list_elem_of_split in Hin as (l1 & l2 & ->).
  destruct (reach_suffix _ _ _ _ R') as (q & R2). pose proof R2 as (-> & _).
  pose proof (reach_fun _ _ _ _ R R2) as E. apply (f_equal length) in E.
  rewrite length_cons, length_app in E. simpl in E. lia.
Qed.

Lemma reach_size h p l : reach h p l -> (length l <= size h)%nat.
Proof.
  intros R. pose proof (reach_nodup _ _ _ R) as N.
  rewrite <-(size_list_to_set (C := gset addr)) by done. rewrite <-size_dom.
  apply subseteq_size. intros a Ha. apply elem_of_list_to_set in Ha.
  apply elem_of_dom. by eapply reach_mem.
Qed.

Lemma kill_loop_run fuel s p l :
  reach (wmem s) p l -> (length l <= fuel)%nat ->
  kill_loop fuel p s = Ret tt (set_cancelled (rev (tids (wmem s) l) ++ cancelled s) s).
Proof.
  revert s p l. induction fuel as [|fuel IH]; intros s p l R Hf.
  - destruct l; [|simpl in Hf; lia]. simpl in R. subst p. by destruct s.
  - cbn [kill_loop]. destruct l as [|a l]; [simpl in R; subst p; by destruct s|].
    destruct R as (-> & Ha & w & Hw & R). destruct (Z.eqb_spec a NULL); [done|].
    unfold wload. do 2 step. rewrite Hw. rewrite (bind_run (ret w) _ _ w _ eq_refl). step.
    rewrite (IH _ _ l) by (done || simpl in Hf; lia).
    destruct s. unfold set_cancelled, tids. simpl in *. rewrite Hw. simpl.
    by rewrite <-app_assoc.
Qed.

Lemma find_worker_run fuel s p l tid :
  reach (wmem s) p l -> (length l <= fuel)%nat -> tid ∉ tids (wmem s) l ->
  find_worker fuel tid p s = Ret NULL s.
Proof.
  revert p l. induction fuel as [|fuel IH]; intros p l R Hf Ht.
  - destruct l; [|simpl in Hf; lia]. simpl in R. by subst p.
  - cbn [find_worker]. destruct l as [|a l]; [simpl in R; by subst p|].
    destruct R as (-> & Ha & w & Hw & R). destruct (Z.eqb_spec a NULL); [done|].
    unfold wload. do 2 step. rewrite Hw. rewrite (bind_run (ret w) _ _ w _ eq_refl).
    unfold tids in Ht. simpl in Ht. rewrite Hw in Ht. simpl in Ht. apply not_elem_of_cons in Ht as [Hne Ht].
    destruct (Z.eqb_spec (w_tid w) tid); [by subst|]. eapply IH; [exact R|simpl in Hf; lia|done].
Qed.

Lemma lock_w s : workerlock s = false -> lock_workers s = Ret tt (set_workerlock true s).
Proof. intros E. unfold lock_workers. step. by rewrite E. Qed.
Lemma unlock_w s : workerlock s = true -> unlock_workers s = Ret tt (set_workerlock false s).
Proof. intros E. unfold unlock_workers. step. by rewrite E. Qed.
Lemma wload_run a s w : wmem s !! a = Some w -> wload a s = Ret w s.
Proof. intros E. unfold wload. step. by rewrite E. Qed.
Lemma wupdate_run a f s w :
  wmem s !! a = Some w -> wupdate a f s = Ret tt (set_wmem (<[a := f w]> (wmem s)) s).
Proof. intros E. unfold wupdate, wload. do 2 step. by rewrite E. Qed.

Lemma kill_workers_run s l :
  reach (wmem s) (workers s) l -> workerlock s = false ->
  kill_workers s = Ret tt (set_cancelled (rev (tids (wmem s) l) ++ cancelled s) s).
Proof.
  intros R L. unfold kill_workers. call (lock_w s L). do 2 step.
  pose proof (reach_size _ _ _ R). unfold list_fuel. simpl.
  rewrite (bind_run _ _ _ _ _ (kill_loop_run (S (size (wmem s))) (set_workerlock true s) _ l R ltac:(simpl; lia))).
  destruct s. simpl in *. by subst.
Qed.

Lemma cleanup_absent s l tid :
  reach (wmem s) (workers s) l -> workerlock s = false -> tid ∉ tids (wmem s) l ->
  client_cleanup tid s = Ret tt s.
Proof.
  intros R L Ht. unfold client_cleanup. call (lock_w s L). do 2 step.
  pose proof (reach_size _ _ _ R). unfold list_fuel. simpl.
  rewrite (bind_run _ _ _ _ _ (find_worker_run (S (size (wmem s))) (set_workerlock true s) _ l tid R ltac:(simpl; lia) Ht)).
  destruct s. simpl in *. by subst.
Qed.

(** [add_worker] when the list is not empty: the new node is in front of the
    list but [workers] still points behind it. *)
Lemma add_worker_second s a l tid fd :
  reach (wmem s) (workers s) (a :: l) -> workerlock s = false -> w_oom s = false ->
  exists s', add_worker tid fd s = Ret true s' /\ workers s' = workers s /\
    reach (wmem s') (workers s') (a :: l) /\ tids (wmem s') (a :: l) = tids (wmem s) (a :: l) /\
    closed s' = closed s /\ cancelled s' = cancelled s /\ workerlock s' = false /\ w_oom s' = false.
Proof.
  intros R L O. pose proof R as (Hw & Ha & w & Hwa & _).
  destruct (new_addr_fresh (wmem s)) as [Hf Hn]. set (b := new_addr (wmem s)) in *.
  assert (a <> b) as Hab by congruence.
  set (n0 := mk_worker NULL NULL tid fd). set (n1 := mk_worker a NULL tid fd).
  set (h1 := <[b := n1]> (<[b := n0]> (<[b := n0]> (wmem s)))).
  assert (h1 !! a = Some w) as Hwa1 by (unfold h1; by rewrite !lookup_insert_ne).
  set (h2 := <[a := set_prv b w]> h1).
  assert (forall c, c ∈ a :: l -> h2 !! c = if decide (c = a) then Some (set_prv b w) else wmem s !! c) as Hh2.
  { intros c Hc. unfold h2. destruct (decide (c = a)) as [->|Hca]; [by rewrite lookup_insert_eq|].
    rewrite lookup_insert_ne by done. unfold h1. rewrite !lookup_insert_ne; [done|..];
      (intros <-; destruct (reach_mem _ _ _ _ R Hc); congruence). }
  exists (mk_workerq h2 (workers s) false (cancelled s) (closed s) (w_oom s)). split_and!; try done.
  - unfold add_worker. step. rewrite O. do 2 step.
    call (lock_w (set_wmem (<[b := n0]> (wmem s)) s) L).
    call (wupdate_run b (set_prv NULL) (set_workerlock true (set_wmem (<[b := n0]> (wmem s)) s)) n0 (lookup_insert_eq _ _ _)).
    step. change (workers (set_wmem _ _)) with (workers s). rewrite Hw.
    to_state (set_wmem (<[b := n0]> (<[b := n0]> (wmem s))) (set_workerlock true s)).
    call (wupdate_run b (set_nxt a) (set_wmem (<[b := n0]> (<[b := n0]> (wmem s))) (set_workerlock true s)) n0 (lookup_insert_eq _ _ _)).
    destruct (Z.eqb_spec a NULL); [done|].
    to_state (set_wmem h1 (set_workerlock true s)).
    call (wupdate_run a (set_prv b) (set_wmem h1 (set_workerlock true s)) w Hwa1).
    destruct s. simpl in *. by subst.
  - apply (reach_frame (wmem s) h2); [|exact R]. intros c Hc. rewrite Hh2 by done.
    destruct (decide (c = a)) as [->|]; [by rewrite Hwa|done].
  - apply tids_frame. intros c Hc. cbn [wmem]. rewrite Hh2 by done. destruct (decide (c = a)) as [->|]; [by rewrite Hwa|done].
Qed.
End workers.

(** A worker that starts while another one is in the list is never
    listed: [add_worker] does not make [workers] point to it.  So
    [kill_workers] does not cancel it, and when it ends [client_cleanup]
    does not find it: nothing is freed and its socket is never closed. *)
Theorem second_worker_is_lost s a l tid fd :
  reach (wmem s) (workers s) (a :: l) -> workerlock s = false -> w_oom s = false ->
  tid ∉ tids (wmem s) (a :: l) ->
  exists s', add_worker tid fd s = Ret true s' /\
    kill_workers s' = Ret tt (set_cancelled (rev (tids (wmem s) (a :: l)) ++ cancelled s) s') /\
    client_cleanup tid s' = Ret tt s' /\ closed s' = closed s.
Proof.
  intros R L O Ht. destruct (add_worker_second s a l tid fd R L O) as (s' & E & _ & R' & T' & C' & K' & L' & _).
  exists s'. split; [done|]. rewrite <-K', <-T' in *. split_and!; [by apply kill_workers_run| |done].
  by eapply cleanup_absent.
Qed.

Definition no_workers : workerq := mk_workerq ∅ NULL false [] [] false.
Definition one_worker : workerq :=
  match add_worker 101 7 no_workers with Ret _ s => s | _ => no_workers end.

Lemma second_worker_is_lost_witness :
  exists s', add_worker 102 8 one_worker = Ret true s' /\
    kill_workers s' = Ret tt (set_cancelled [101] s') /\
    client_cleanup 102 s' = Ret tt s' /\ closed s' = [].
Proof.
  apply (second_worker_is_lost one_worker 1 [] 102 8).
  - split; [reflexivity|]. split; [discriminate|]. exists (mk_worker 0 0 101 7). split; reflexivity.
  - reflexivity.
  - reflexivity.
  - intros H. change (tids _ _) with [101] in H. apply list_elem_of_singleton in H. discriminate.
Defined.

(** One worker alone: listed while it runs, and taken out by its clean-up. *)
Lemma single_worker_run s tid fd :
  workers s = NULL -> workerlock s = false -> w_oom s = false ->
  exists s1, add_worker tid fd s = Ret true s1 /\
    kill_workers s1 = Ret tt (set_cancelled (tid :: cancelled s) s1) /\
    client_cleanup tid s1 = Ret tt (set_closed (fd :: closed s) s).
Proof.
  intros W L O. destruct (new_addr_fresh (wmem s)) as [Hf Hn]. set (b := new_addr (wmem s)) in *.
  set (n := mk_worker NULL NULL tid fd). set (h := <[b := n]> (<[b := n]> (<[b := n]> (wmem s)))).
  set (s1 := mk_workerq h b false (cancelled s) (closed s) (w_oom s)).
  assert (h !! b = Some n) as Hb by apply lookup_insert_eq.
  assert (add_worker tid fd s = Ret true s1) as E.
  { unfold add_worker. step. rewrite O. do 2 step.
    call (lock_w (set_wmem (<[b := n]> (wmem s)) s) L).
    call (wupdate_run b (set_prv NULL) (set_workerlock true (set_wmem (<[b := n]> (wmem s)) s)) n (lookup_insert_eq _ _ _)).
    step. change (workers (set_wmem _ _)) with (workers s). rewrite W.
    to_state (set_wmem (<[b := n]> (<[b := n]> (wmem s))) (set_workerlock true s)).
    call (wupdate_run b (set_nxt NULL) (set_wmem (<[b := n]> (<[b := n]> (wmem s))) (set_workerlock true s)) n (lookup_insert_eq _ _ _)).
    destruct s. simpl in *. by subst. }
  assert (reach (wmem s1) (workers s1) [b]) as R by (split; [done|]; split; [done|]; by exists n).
  exists s1. split; [done|]. split.
  - rewrite (kill_workers_run s1 [b] R eq_refl). unfold tids. simpl. by rewrite Hb.
  - unfold client_cleanup. call (lock_w s1 eq_refl). do 2 step.
    set (s2 := set_workerlock true s1).
    assert (find_worker (list_fuel s2) tid (workers s2) s2 = Ret b s2) as Ef.
    { unfold list_fuel. cbn [find_worker]. change (workers s2) with b. destruct (Z.eqb_spec b NULL); [done|].
      unfold wload. do 2 step. change (wmem s2) with h. rewrite Hb.
      rewrite (bind_run (ret n) _ _ n _ eq_refl). simpl. by rewrite Z.eqb_refl. }
    assert (wload b s2 = Ret n s2) as El by (unfold wload; step; change (wmem s2) with h; by rewrite Hb).
    call Ef. apply Z.eqb_neq in Hn. rewrite Hn.
    assert ((let* w := wload b in
             (if negb (w_next w =? NULL) then wupdate (w_next w) (set_prv (w_prev w)) else skip) ;;;
             let* w := wload b in
             (if negb (w_prev w =? NULL) then wupdate (w_prev w) (set_nxt (w_next w))
              else modify (set_workers (w_next w)))) s2 = Ret tt (set_workers NULL s2)) as Eu.
    { call El. simpl. rewrite (bind_run skip _ s2 tt s2 eq_refl). call El. reflexivity. }
    call Eu. call (unlock_w (set_workers NULL s2) eq_refl).
    rewrite (bind_run _ _ _ _ _ (wload_run b (set_workerlock false (set_workers NULL s2)) n Hb)). step.
    unfold modify. f_equal.
    destruct s. unfold set_wmem, set_closed. simpl in *. subst.
    f_equal. unfold h. by rewrite !delete_insert_eq, delete_id.
Qed.

(** As long as clients come one at a time the list is right: the worker
    is listed while it runs, so that a SIGTERM cancels it, and its clean-up
    takes it out, closes its socket and frees its node. *)
Theorem single_worker_cleaned_up s tid fd :
  workers s = NULL -> workerlock s = false -> w_oom s = false ->
  exists s1, add_worker tid fd s = Ret true s1 /\
    kill_workers s1 = Ret tt (set_cancelled (tid :: cancelled s) s1) /\
    client_cleanup tid s1 = Ret tt (set_closed (fd :: closed s) s).
Proof. exact (single_worker_run s tid fd). Qed.

Lemma single_worker_cleaned_up_witness :
  exists s1, add_worker 5 9 no_workers = Ret true s1 /\
    client_cleanup 5 s1 = Ret tt (set_closed [9] no_workers).
Proof.
  destruct (single_worker_cleaned_up no_workers 5 9) as (s1 & E & _ & C); [reflexivity..|].
  exists s1. split; [exact E|exact C].
Defined.

(** Two clients that overlap corrupt the list: when the first one ends,
    [workers] keeps pointing to its freed node, and the next client, whatever
    its thread and socket, makes [add_worker] write into freed memory. *)
Theorem overlapping_workers_use_after_free t1 t2 t3 f1 f2 f3 :
  (let* _ := add_worker t1 f1 in
   let* _ := add_worker t2 f2 in
   let* _ := client_cleanup t1 in
   add_worker t3 f3) no_workers = Undef "bad worker pointer".
Proof.
  set (s1 := mk_workerq (<[1 := mk_worker 0 0 t1 f1]> ∅) 1 false [] [] false).
  set (s2 := mk_workerq (<[1 := mk_worker 0 2 t1 f1]> (<[2 := mk_worker 1 0 t2 f2]>
               (<[1 := mk_worker 0 0 t1 f1]> ∅))) 1 false [] [] false).
  assert (add_worker t1 f1 no_workers = Ret true s1) as E1 by reflexivity.
  assert (add_worker t2 f2 s1 = Ret true s2) as E2 by reflexivity.
  set (s3 := set_workerlock true s2).
  assert (find_worker (list_fuel s3) t1 (workers s3) s3 = Ret 1 s3) as E3.
  { change (list_fuel s3) with 3%nat. cbn [find_worker]. change (workers s3 =? NULL) with false. cbv iota.
    call (wload_run 1 s3 (mk_worker 0 2 t1 f1) eq_refl). simpl. by rewrite Z.eqb_refl. }
  assert (client_cleanup t1 s2 = Ret tt (mk_workerq (delete 1 (<[2 := mk_worker 0 0 t2 f2]> (wmem s2)))
            1 false [] [f1] false)) as E4.
  { unfold client_cleanup. call (lock_w s2 eq_refl). do 2 step. call E3. reflexivity. }
  call E1. call E2. call E4. reflexivity.
Qed.
