(* ===== verification/PrintIpp.v ===== *)
(** The request [printd.c] sends to the printer: [add_option] and the code
    of [printer_thread] that lays out the IPP and the HTTP header in
    [ibuf] and [hbuf]. *)
From Stdlib Require Import ZArith Lia.
From stdpp Require Import base list strings gmap numbers.
From S2P Require Import Prelude CString CFile Dll PrintJobs.
Local Open Scope c_scope.

Definition IBUFSZ : nat := 512.
Definition HBUFSZ : nat := 512.
Definition IPP_PORT : Z := 631.
(** Operation and tag numbers of [ipp.h]. *)
Definition OP_PRINT_JOB : Z := 2.
Definition TAG_OPERATION_ATTR : Z := 1.
Definition TAG_END_OF_ATTR : Z := 3.
Definition TAG_NAMEWOLANG : Z := 66.
Definition TAG_URI : Z := 69.
Definition TAG_CHARSET : Z := 71.
Definition TAG_NATULANG : Z := 72.
Definition TAG_MIMETYPE : Z := 73.

(** Integers in network byte order. *)
Definition be16 (x : Z) : bytes := [Z.shiftr (u16 x) 8; Z.land (u16 x) 255].
Definition be32 (x : Z) : bytes :=
  [Z.land (Z.shiftr (u32 x) 24) 255; Z.land (Z.shiftr (u32 x) 16) 255;
   Z.land (Z.shiftr (u32 x) 8) 255; Z.land (u32 x) 255].

(** Code that writes into one buffer: a store past its end is undefined. *)
Definition poke (cp : nat) (bs : bytes) : M bytes unit :=
  let* n := gets (@length Z) in
  if (cp + length bs <=? n)%nat then modify (splice cp bs) else undef "buffer overflow".
(** [strcpy], the terminator included. *)
Definition strcpy (cp : nat) (s : bytes) : M bytes unit := poke cp (s ++ [0]).

(** The string at the start of an array, when there is a terminator. *)
Definition c_string (b : bytes) : option bytes :=
  if bool_decide (0 ∈ b) then Some (cstr b) else None.

Definition add_option (cp : nat) (tag : Z) (optname optval : bytes) : M bytes nat :=
  poke cp [u8 tag] ;;;
  let n := length optname in
  poke (cp + 1) (be16 (Z.of_nat n)) ;;;
  strcpy (cp + 3) optname ;;;
  let n2 := length optval in
  poke (cp + 3 + n) (be16 (Z.of_nat n2)) ;;;
  strcpy (cp + 5 + n) optval ;;;
  ret (cp + 5 + n + n2)%nat.

(** The lines of [printer_thread] that fill [ibuf]: the result is [ilen].
    [usernm] and [jobnm] are adjacent members: a user name without a
    terminator runs into the job name. *)
Definition ipp_header (printer_name : bytes) (id : Z) (req : printreq) : M bytes nat :=
  poke 0 [1; 1] ;;;
  poke 2 (be16 OP_PRINT_JOB) ;;;
  poke 4 (be32 id) ;;;
  poke 8 [TAG_OPERATION_ATTR] ;;;
  let* icp := add_option 9 TAG_CHARSET (str "attributes-charset") (str "utf-8") in
  let* icp := add_option icp TAG_NATULANG (str "attributes-natural-language") (str "en-us") in
  let uri := str "http://" ++ printer_name ++ str "/ipp" in
  (if (length uri + 1 <=? 64)%nat then skip else undef "overflow of str") ;;;
  let* icp := add_option icp TAG_URI (str "printer-uri") uri in
  match c_string (usernm req ++ jobnm req), c_string (jobnm req) with
  | Some user, Some jname =>
      let* icp := add_option icp TAG_NAMEWOLANG (str "requesting-user-name") user in
      let* icp := add_option icp TAG_NAMEWOLANG (str "job-name") jname in
      let p := if Z.testbit (rq_flags req) 0 then str "text/plain" else str "application/postscript" in
      let* icp := add_option icp TAG_MIMETYPE (str "document-format") p in
      poke icp [TAG_END_OF_ATTR] ;;;
      ret (icp + 1)%nat
  | _, _ => undef "name without terminator"
  end.

Definition crlf : bytes := [c_cr; c_nl].

(** The lines that fill [hbuf]; [sprintf] terminates what it prints. *)
Definition http_header (printer_name : bytes) (len : Z) : M bytes nat :=
  let l1 := str "POST /ipp HTTP/1.1" ++ crlf in
  strcpy 0 l1 ;;;
  let l2 := str "Content-Length: " ++ sdec len ++ crlf in
  strcpy (length l1) l2 ;;;
  let l3 := str "Content-Type: application/ipp" ++ crlf in
  strcpy (length l1 + length l2) l3 ;;;
  let l4 := str "Host: " ++ printer_name ++ str ":" ++ sdec IPP_PORT ++ crlf in
  strcpy (length l1 + length l2 + length l3) l4 ;;;
  let hcp := (length l1 + length l2 + length l3 + length l4)%nat in
  poke hcp [c_cr] ;;;
  poke (hcp + 1) [c_nl] ;;;
  ret (hcp + 2)%nat.

(** * What the headers are *)

(** An attribute as it is meant, and its encoding (RFC 2910, section 3.1). *)
Record attr := mk_attr { a_tag : Z; a_name : bytes; a_val : bytes }.
Definition enc_attr (a : attr) : bytes :=
  [u8 (a_tag a)] ++ be16 (Z.of_nat (length (a_name a))) ++ a_name a ++
  be16 (Z.of_nat (length (a_val a))) ++ a_val a.

Definition job_attrs (printer_name user jname : bytes) (text : bool) : list attr :=
  [mk_attr TAG_CHARSET (str "attributes-charset") (str "utf-8");
   mk_attr TAG_NATULANG (str "attributes-natural-language") (str "en-us");
   mk_attr TAG_URI (str "printer-uri") (str "http://" ++ printer_name ++ str "/ipp");
   mk_attr TAG_NAMEWOLANG (str "requesting-user-name") user;
   mk_attr TAG_NAMEWOLANG (str "job-name") jname;
   mk_attr TAG_MIMETYPE (str "document-format")
     (if text then str "text/plain" else str "application/postscript")].
Definition enc_ipp (id : Z) (l : list attr) : bytes :=
  [1; 1] ++ be16 OP_PRINT_JOB ++ be32 id ++ [TAG_OPERATION_ATTR] ++ mjoin (enc_attr <$> l) ++ [TAG_END_OF_ATTR].

(** A receiver's decoder of the attributes: the list and what follows the
    end tag. *)
Definition get16 (b : bytes) : option (nat * bytes) :=
  match b with h :: l :: r => Some (Z.to_nat (h * 256 + l), r) | _ => None end.
Definition get_str (n : nat) (b : bytes) : option (bytes * bytes) :=
  if (n <=? length b)%nat then Some (take n b, drop n b) else None.
Fixpoint dec_attrs (fuel : nat) (b : bytes) : option (list attr * bytes) :=
  match fuel, b with
  | S f, t :: r =>
      if t =? TAG_END_OF_ATTR then Some ([], r)
      else
        '(n, r1) ← get16 r; '(nm, r2) ← get_str n r1;
        '(m, r3) ← get16 r2; '(v, r4) ← get_str m r3;
        '(l, r5) ← dec_attrs f r4;
        Some (mk_attr t nm v :: l, r5)
  | _, _ => None
  end.

Section buffers.
Implicit Types (b pre old post bs : bytes).

Lemma poke_run cp bs b : (cp + length bs <= length b)%nat -> poke cp bs b = Ret tt (splice cp bs b).
Proof. intros H. unfold poke. step. apply Nat.leb_le in H. by rewrite H. Qed.

Lemma poke_over cp bs b : (length b < cp + length bs)%nat -> poke cp bs b = Undef "buffer overflow".
Proof. intros H. unfold poke. step. apply Nat.leb_gt in H. by rewrite H. Qed.

(** Writing right behind what has been written. *)
Lemma splice_next pre post bs : (length bs <= length post)%nat ->
  splice (length pre) bs (pre ++ post) = pre ++ bs ++ drop (length bs) post.
Proof.
  intros H. rewrite <-(take_drop (length bs) post) at 1.
  apply splice_mid. rewrite length_take. lia.
Qed.

Lemma poke_next pre post bs : (length bs <= length post)%nat ->
  poke (length pre) bs (pre ++ post) = Ret tt ((pre ++ bs) ++ drop (length bs) post).
Proof. intros H. rewrite poke_run by (rewrite length_app; lia). by rewrite splice_next, app_assoc by done. Qed.

Lemma be16_length x : length (be16 x) = 2%nat.
Proof. done. Qed.

Lemma enc_attr_length a : length (enc_attr a) = (5 + length (a_name a) + length (a_val a))%nat.
Proof. unfold enc_attr. rewrite !length_app. simpl. lia. Qed.

(** Code that writes forward in a buffer: with enough room it returns [a] and
    the buffer holds [bs] behind [pre]; without it, it overflows the
    buffer.  [extra] counts the terminator [strcpy] adds. *)
Definition emits {A} (m : M bytes A) pre bs (extra : nat) (a : A) : Prop :=
  forall post, if (length bs + extra <=? length post)%nat
    then exists post', m (pre ++ post) = Ret a ((pre ++ bs) ++ post') /\ (length post' + length bs = length post)%nat
    else m (pre ++ post) = Undef "buffer overflow".

Lemma poke_emits n pre bs : n = length pre -> emits (poke n bs) pre bs 0 tt.
Proof.
  intros -> post. destruct (Nat.leb_spec (length bs + 0) (length post)).
  - eexists. split; [apply poke_next; lia|]. rewrite length_drop. lia.
  - apply poke_over. rewrite length_app. lia.
Qed.

Lemma strcpy_emits n pre bs : n = length pre -> emits (strcpy n bs) pre bs 1 tt.
Proof.
  intros -> post. unfold strcpy. destruct (Nat.leb_spec (length bs + 1) (length post)).
  - eexists (0 :: drop (length bs + 1) post). rewrite poke_next by (rewrite length_app; simpl; lia).
    rewrite length_app. simpl. rewrite length_drop. split; [|lia]. by rewrite <-!app_assoc.
  - apply poke_over. rewrite !length_app. simpl. lia.
Qed.

(** Two pieces of code in a row: the second one overwrites the spare byte of
    the first. *)
Lemma emits_bind {A B} (m : M bytes A) (k : A -> M bytes B) pre b1 b2 e1 e2 a (b : B) :
  emits m pre b1 e1 a -> (e1 <= length b2 + e2)%nat -> emits (k a) (pre ++ b1) b2 e2 b ->
  emits (bind m k) pre (b1 ++ b2) e2 b.
Proof.
  intros H1 He H2 post. specialize (H1 post). rewrite length_app.
  destruct (Nat.leb_spec (length b1 + e1) (length post)) as [L1|L1].
  - destruct H1 as (p1 & E1 & Hp1). specialize (H2 p1). call E1.
    destruct (Nat.leb_spec (length b2 + e2) (length p1)) as [L2|L2].
    + destruct H2 as (p2 & E2 & Hp2). destruct (Nat.leb_spec (length b1 + length b2 + e2) (length post)); [|lia].
      exists p2. rewrite E2, <-!app_assoc. split; [done|lia].
    + destruct (Nat.leb_spec (length b1 + length b2 + e2) (length post)); [lia|done].
  - destruct (Nat.leb_spec (length b1 + length b2 + e2) (length post)); [lia|].
    unfold bind. by rewrite H1.
Qed.

Lemma emits_ret {A B} (m : M bytes A) pre bs e (a : A) (b b' : B) :
  emits m pre bs e a -> b = b' -> emits (m ;;; ret b) pre bs e b'.
Proof.
  intros H <- post. specialize (H post). destruct (_ <=? _)%nat.
  - destruct H as (p & E & Hp). exists p. split; [|done]. by call E.
  - unfold bind. by rewrite H.
Qed.

Lemma emits_skip {B} (k : M bytes B) pre bs e (b : B) : emits k pre bs e b -> emits (skip ;;; k) pre bs e b.
Proof. done. Qed.

Lemma add_option_emits n pre tag nm v :
  n = length pre ->
  emits (add_option n tag nm v) pre (enc_attr (mk_attr tag nm v)) 1
    (length (pre ++ enc_attr (mk_attr tag nm v))).
Proof.
  intros ->. unfold add_option, enc_attr. simpl a_tag. simpl a_name. simpl a_val.
  eapply emits_bind; [by apply poke_emits|lia|].
  eapply emits_bind; [apply poke_emits; by rewrite length_app|lia|].
  eapply emits_bind; [apply strcpy_emits; rewrite !length_app; simpl; lia|simpl; lia|].
  eapply emits_bind; [apply poke_emits; rewrite !length_app; simpl; lia|lia|].
  eapply emits_ret; [apply strcpy_emits; rewrite !length_app; simpl; lia|].
  rewrite !length_app. simpl. lia.
Qed.

Lemma enc_ipp6 id a1 a2 a3 a4 a5 a6 :
  enc_ipp id [a1; a2; a3; a4; a5; a6] =
    [1; 1] ++ be16 OP_PRINT_JOB ++ be32 id ++ [TAG_OPERATION_ATTR] ++ enc_attr a1 ++ enc_attr a2 ++
    enc_attr a3 ++ enc_attr a4 ++ enc_attr a5 ++ enc_attr a6 ++ [TAG_END_OF_ATTR].
Proof. unfold enc_ipp. cbn [fmap list_fmap mjoin list_join]. by rewrite <-!app_assoc. Qed.

Lemma ipp_header_emits pn id req user jname :
  (length pn <= 52)%nat -> c_string (usernm req ++ jobnm req) = Some user -> c_string (jobnm req) = Some jname ->
  let e := enc_ipp id (job_attrs pn user jname (Z.testbit (rq_flags req) 0)) in
  emits (ipp_header pn id req) [] e 0 (length e).
Proof.
  intros Hpn Hu Hj e. unfold ipp_header. rewrite Hu, Hj.
  replace (length (str "http://" ++ pn ++ str "/ipp") + 1 <=? 64)%nat with true
    by (symmetry; apply Nat.leb_le; rewrite !length_app; simpl; lia).
  unfold e at 1, job_attrs. rewrite enc_ipp6.
  eapply emits_bind; [by apply poke_emits|lia|].
  eapply emits_bind; [by apply poke_emits|lia|].
  eapply emits_bind; [by apply poke_emits|lia|].
  eapply emits_bind; [by apply poke_emits|lia|].
  eapply emits_bind; [by apply add_option_emits|rewrite length_app, enc_attr_length; lia|].
  eapply emits_bind; [by apply add_option_emits|rewrite length_app, enc_attr_length; lia|].
  eapply emits_skip. 
  eapply emits_bind; [by apply add_option_emits|rewrite length_app, enc_attr_length; lia|].
  eapply emits_bind; [by apply add_option_emits|rewrite length_app, enc_attr_length; lia|].
  eapply emits_bind; [by apply add_option_emits|rewrite length_app, enc_attr_length; lia|].
  eapply emits_bind; [by apply add_option_emits|simpl; lia|].
  eapply emits_ret; [by apply poke_emits|].
  unfold e, job_attrs. rewrite enc_ipp6, !length_app. cbn [length]. lia.
Qed.

Lemma http_header_emits pn len :
  let t := (str "POST /ipp HTTP/1.1" ++ crlf) ++ (str "Content-Length: " ++ sdec len ++ crlf) ++
    (str "Content-Type: application/ipp" ++ crlf) ++
    (str "Host: " ++ pn ++ str ":" ++ sdec IPP_PORT ++ crlf) ++ [c_cr] ++ [c_nl] in
  emits (http_header pn len) [] t 0 (length t).
Proof.
  intros t. unfold http_header, t.
  set (l1 := str "POST /ipp HTTP/1.1" ++ crlf). set (l2 := str "Content-Length: " ++ sdec len ++ crlf).
  set (l3 := str "Content-Type: application/ipp" ++ crlf).
  set (l4 := str "Host: " ++ pn ++ str ":" ++ sdec IPP_PORT ++ crlf).
  eapply emits_bind; [by apply strcpy_emits|rewrite length_app; unfold l2; rewrite length_app; simpl; lia|].
  eapply emits_bind; [by apply strcpy_emits|rewrite length_app; unfold l3; rewrite length_app; simpl; lia|].
  eapply emits_bind; [apply strcpy_emits; by rewrite app_nil_l, length_app|
    rewrite length_app; unfold l4; rewrite length_app; simpl; lia|].
  eapply emits_bind; [apply strcpy_emits; by rewrite app_nil_l, !length_app|simpl; lia|].
  eapply emits_bind; [apply poke_emits; by rewrite app_nil_l, !length_app|simpl; lia|].
  eapply emits_ret; [apply poke_emits; by rewrite app_nil_l, !length_app|].
  rewrite !length_app. simpl. lia.
Qed.
End buffers.

Section decoding.
Implicit Types (b r : bytes) (l : list attr).

Lemma get16_be16 n r : (Z.of_nat n < 65536) -> get16 (be16 (Z.of_nat n) ++ r) = Some (n, r).
Proof.
  intros H. unfold get16, be16. cbn [app]. rewrite wrapu_small by lia.
  rewrite Z.shiftr_div_pow2 by lia. change 255 with (Z.ones 8). rewrite Z.land_ones by lia.
  change (2 ^ 8) with 256. f_equal. f_equal.
  pose proof (Z.div_mod (Z.of_nat n) 256 ltac:(lia)). lia.
Qed.

Lemma get_str_app b r : get_str (length b) (b ++ r) = Some (b, r).
Proof.
  unfold get_str. rewrite take_app_length, drop_app_length.
  replace (length b <=? length (b ++ r))%nat with true; [done|].
  symmetry. apply Nat.leb_le. rewrite length_app. lia.
Qed.

Definition ok_attr (a : attr) : Prop :=
  0 <= a_tag a < 256 /\ a_tag a <> TAG_END_OF_ATTR /\
  Z.of_nat (length (a_name a)) < 65536 /\ Z.of_nat (length (a_val a)) < 65536.

Lemma dec_enc fuel l r :
  Forall ok_attr l -> (length l < fuel)%nat ->
  dec_attrs fuel (mjoin (enc_attr <$> l) ++ [TAG_END_OF_ATTR] ++ r) = Some (l, r).
Proof.
  intros H. revert fuel. induction H as [|a l (Ht & Hne & Hn & Hv) _ IH]; intros [|fuel] Hf; try (simpl in Hf; lia); [done|].
  rewrite fmap_cons. cbn [mjoin list_join]. unfold enc_attr at 1. rewrite <-!app_assoc. cbn [app dec_attrs].
  rewrite (wrapu_small 8) by lia. destruct (Z.eqb_spec (a_tag a) TAG_END_OF_ATTR); [done|].
  rewrite get16_be16 by done. cbn [mbind option_bind]. rewrite get_str_app. cbn [mbind option_bind].
  rewrite get16_be16 by done. cbn [mbind option_bind]. rewrite get_str_app. cbn [mbind option_bind].
  rewrite IH by (simpl in Hf; lia). cbn [mbind option_bind]. by destruct a.
Qed.
End decoding.

Definition ipp_size (pn user jname : bytes) (text : bool) : nat :=
  ((if text then 170 else 182) + length pn + length user + length jname)%nat.

Lemma enc_ipp_size id pn user jname text :
  length (enc_ipp id (job_attrs pn user jname text)) = ipp_size pn user jname text.
Proof.
  unfold job_attrs. rewrite enc_ipp6, !length_app, !enc_attr_length. cbn [a_name a_val length].
  rewrite !length_app. unfold ipp_size. destruct text; simpl; lia.
Qed.

(** The IPP header is right exactly when it fits.  With a printer name
    that fits in [str] and terminated names, the code fills [ibuf] with the
    encoding of the six attributes and a receiver decodes them, the request
    identifier being the job number; when 182 (170 for text) plus the three
    names exceeds the 512 bytes of [ibuf], it writes past its end, which a
    user name of 63, a job name of 255 and a printer name of 13 bytes do. *)
Theorem ipp_header_exact buf pn id req user jname :
  length buf = IBUFSZ -> (length pn <= 52)%nat ->
  c_string (usernm req ++ jobnm req) = Some user -> c_string (jobnm req) = Some jname ->
  let text := Z.testbit (rq_flags req) 0 in
  if (ipp_size pn user jname text <=? IBUFSZ)%nat
  then exists buf', ipp_header pn id req buf = Ret (ipp_size pn user jname text) buf' /\
    let sent := take (ipp_size pn user jname text) buf' in
    take 8 sent = [1; 1] ++ be16 OP_PRINT_JOB ++ be32 id /\
    dec_attrs 7 (drop 9 sent) = Some (job_attrs pn user jname text, [])
  else ipp_header pn id req buf = Undef "buffer overflow".
Proof.
  intros Hb Hpn Hu Hj text.
  pose proof (ipp_header_emits pn id req user jname Hpn Hu Hj) as H. cbv zeta in H. fold text in H.
  specialize (H buf). rewrite enc_ipp_size, Nat.add_0_r, Hb in H.
  destruct (Nat.leb_spec (ipp_size pn user jname text) IBUFSZ) as [L|L]; [|exact H].
  destruct H as (post & E & _). rewrite !app_nil_l in E. eexists. split; [exact E|].
  rewrite <-(enc_ipp_size id), take_app_length. split; [done|].
  assert (drop 9 (enc_ipp id (job_attrs pn user jname text)) =
    mjoin (enc_attr <$> job_attrs pn user jname text) ++ [TAG_END_OF_ATTR] ++ []) as -> by reflexivity.
  unfold ipp_size, IBUFSZ in L. apply dec_enc; [|simpl; lia].
  assert (forall t n v, 0 <= t < 256 /\ t <> TAG_END_OF_ATTR /\ Z.of_nat (length n) < 65536 ->
    (length v <= 1000)%nat -> ok_attr (mk_attr t n v)) as Hok by (unfold ok_attr; simpl; intros; lia).
  unfold job_attrs. repeat (apply List.Forall_cons; [apply Hok; [by vm_compute|]|]); [..|constructor].
  - simpl. lia.
  - simpl. lia.
  - rewrite !length_app. simpl. lia.
  - lia.
  - lia.
  - destruct text; simpl; lia.
Qed.

Definition long_req : printreq := mk_req 0 0 (replicate 63 97 ++ [0]) (replicate 255 98 ++ [0]).

Lemma ipp_header_exact_witness :
  (exists buf', ipp_header (str "lp") 7 (mk_req 3 1 (str "joe" ++ replicate 61 0) (str "f" ++ replicate 255 0)) (replicate 512 0)
     = Ret (ipp_size (str "lp") (str "joe") (str "f") true) buf' /\
     let sent := take (ipp_size (str "lp") (str "joe") (str "f") true) buf' in
     take 8 sent = [1; 1] ++ be16 OP_PRINT_JOB ++ be32 7 /\
     dec_attrs 7 (drop 9 sent) = Some (job_attrs (str "lp") (str "joe") (str "f") true, [])) /\
  ipp_header (str "printer.local") 7 long_req (replicate 512 0) = Undef "buffer overflow".
Proof.
  split.
  - apply (ipp_header_exact (replicate 512 0) (str "lp") 7
      (mk_req 3 1 (str "joe" ++ replicate 61 0) (str "f" ++ replicate 255 0)) (str "joe") (str "f")).
    + reflexivity.
    + vm_compute. lia.
    + reflexivity.
    + reflexivity.
  - apply (ipp_header_exact (replicate 512 0) (str "printer.local") 7 long_req (replicate 63 97) (replicate 255 98)).
    + reflexivity.
    + vm_compute. lia.
    + reflexivity.
    + reflexivity.
Defined.
