(* ===== verification/PrintNet.v ===== *)
(** The helpers of the printer programs, [printer/util.c]: timed reads from a
    socket, [tread] and [treadn], and the configuration file,
    [scan_configfile]. *)
From Stdlib Require Import ZArith Lia.
From stdpp Require Import base list strings gmap numbers.
From S2P Require Import Prelude CString CFile.
Local Open Scope c_scope.

(** * Sockets *)

(** What the next [select] and [read] on a socket meet: bytes that have
    arrived, a time-out, an error of [select] or of [read]; when nothing is
    left the peer has closed the connection. *)
Inductive rd := RData (bs : bytes) | RTimeout | RSelErr (e : Z) | RErr (e : Z).
Definition ETIME : Z := 62.
Definition EIO : Z := 5.

Record net := mk_net { n_in : list rd; n_errno : Z }.

(** [tread]: [None] is -1 with [errno] set. *)
Definition tread (nbytes : nat) : M net (option bytes) := fun s =>
  match n_in s with
  | [] => Ret (Some []) s
  | RTimeout :: r => Ret None (mk_net r ETIME)
  | RSelErr e :: r => Ret None (mk_net r e)
  | RErr e :: r => Ret None (mk_net r e)
  | RData bs :: r =>
      if (length bs <=? nbytes)%nat then Ret (Some bs) (mk_net r (n_errno s))
      else Ret (Some (take nbytes bs)) (mk_net (RData (drop nbytes bs) :: r) (n_errno s))
  end.

(** The loop of [treadn] with [got] read so far; every round reads at least
    one byte, so [nleft] rounds are enough. *)
Fixpoint treadn_loop (fuel nleft : nat) (got : bytes) : M net (option bytes) :=
  match nleft with
  | O => ret (Some got)
  | _ =>
      match fuel with
      | O => nofuel
      | S f =>
          let* r := tread nleft in
          match r with
          | None => ret (if (length got =? 0)%nat then None else Some got)
          | Some [] => ret (Some got)
          | Some bs => treadn_loop f (nleft - length bs) (got ++ bs)
          end
      end
  end.
Definition treadn (nbytes : nat) : M net (option bytes) := treadn_loop nbytes nbytes [].

(** * The configuration file *)
Definition MAXCFGLINE : nat := 512.
Definition MAXKWLEN : nat := 16.

(** [fgets(line, n, fp)]: at most [n - 1] bytes, up to and with a newline;
    [None] at the end of the file. *)
Fixpoint line_of (n : nat) (b : bytes) : bytes * bytes :=
  match n, b with
  | S k, c :: r => if c =? c_nl then ([c], r) else let '(l, r') := line_of k r in (c :: l, r')
  | _, _ => ([], b)
  end.
Definition fgets (n : nat) (b : bytes) : option (bytes * bytes) :=
  match b with [] => None | _ => Some (line_of (n - 1) b) end.

(** [sscanf] with a pattern of two string conversions of widths [w1] and
    [w2]: the strings converted. *)
Definition conv_s (w : nat) (b : bytes) : option (bytes * bytes) :=
  let b1 := skip_while isspace b in
  let t := take w (take_while (fun c => negb (isspace c)) b1) in
  match t with [] => None | _ => Some (t, drop (length t) b1) end.
Definition sscanf2 (w1 w2 : nat) (line : bytes) : option (bytes * bytes) :=
  '(k, r) ← conv_s w1 line; '(v, _) ← conv_s w2 r; Some (k, v).

(** The loop reads one line per round, and a line has at least one byte. *)
Fixpoint scan_loop (fuel : nat) (keyword b : bytes) : option bytes :=
  match fuel with
  | O => None
  | S f =>
      match fgets MAXCFGLINE b with
      | None => None
      | Some (line, r) =>
          match sscanf2 (MAXKWLEN - 1) (MAXCFGLINE - 1) (cstr line) with
          | Some (keybuf, valbuf) =>
              if streq keyword keybuf then Some valbuf else scan_loop f keyword r
          | None => scan_loop f keyword r
          end
      end
  end.
(** [None] for the file: it cannot be opened and the process dies. *)
Definition scan_configfile (file : option bytes) (keyword : bytes) : option (option bytes) :=
  match file with
  | None => None
  | Some b => Some (scan_loop (S (length b)) keyword b)
  end.
Definition get_printserver (file : option bytes) := scan_configfile file (str "printserver").

Section get_printaddr.
(** [getaddrinfo] for a host and a service: its address list, or an error. *)
Context {A : Type} (getaddrinfo : bytes -> bytes -> Z + A).

Definition getaddrlist (host service : bytes) : Z + A := getaddrinfo host service.
Definition get_printaddr (file : option bytes) : option (option A) :=
  match scan_configfile file (str "printer") with
  | None => None
  | Some (Some p) => match getaddrlist p (str "ipp") with inr ai => Some (Some ai) | inl _ => Some None end
  | Some None => Some None
  end.
End get_printaddr.

(** * What a socket delivers *)

(** The bytes that arrive before the first event that is not data, and what
    follows them; an empty segment is the end of the stream. *)
Fixpoint arriving (l : list rd) : bytes * list rd :=
  match l with
  | RData [] :: _ => ([], l)
  | RData bs :: r => let '(b, t) := arriving r in (bs ++ b, t)
  | _ => ([], l)
  end.

(** How a stream ends after its bytes. *)
Definition stops_with_error (l : list rd) : bool :=
  match l with RTimeout :: _ | RSelErr _ :: _ | RErr _ :: _ => true | _ => false end.

Section reading.
Implicit Types (s : net) (l : list rd).

Lemma treadn_loop_spec fuel nleft got s b t :
  (nleft <= fuel)%nat -> arriving (n_in s) = (b, t) ->
  exists s', treadn_loop fuel nleft got s =
      Ret (if (nleft <=? length b)%nat then Some (got ++ take nleft b)
           else if stops_with_error t && (length (got ++ b) =? 0)%nat then None
           else Some (got ++ b)) s' /\
    ((nleft <= length b)%nat -> (exists b', arriving (n_in s') = (b', t) /\ b = take nleft b ++ b')).
Proof.
  revert nleft got s b t. induction fuel as [|fuel IH]; intros nleft got s b t Hf Ha.
  { destruct nleft; [|lia]. exists s. rewrite app_nil_r. split; [done|]. intros _. by exists b. }
  destruct nleft as [|nleft].
  { exists s. rewrite app_nil_r. split; [done|]. intros _. by exists b. }
  set (n := S nleft) in *.
  change (treadn_loop (S fuel) n got s) with
    ((let* r := tread n in
      match r with
      | None => ret (if (length got =? 0)%nat then None else Some got)
      | Some [] => ret (Some got)
      | Some bs => treadn_loop fuel (n - length bs) (got ++ bs)
      end) s).
  unfold bind at 1, tread. destruct (n_in s) as [|[bs| |e|e] r] eqn:Ein; simpl in Ha.
  - simplify_eq. simpl. rewrite app_nil_r. eexists. split; [done|lia].
  - destruct (Nat.leb_spec (length bs) n) as [L|L].
    + destruct bs as [|c bs].
      { simplify_eq. simpl. rewrite app_nil_r. eexists. split; [done|lia]. }
      destruct (arriving r) as [b1 t1] eqn:Er. simplify_eq.
      destruct (IH (n - length (c :: bs))%nat (got ++ c :: bs) (mk_net r (n_errno s)) b1 t) as (s' & E & H);
        [simpl in *; lia|done|].
      exists s'. rewrite E. rewrite <-!app_assoc, !length_app. split.
      * destruct (Nat.leb_spec (n - length (c :: bs)) (length b1)) as [L1|L1];
          destruct (Nat.leb_spec n (length (c :: bs) + length b1)) as [L2|L2]; try lia.
        -- by rewrite take_app_ge by lia.
        -- done.
      * intros L2. rewrite take_app_ge by lia. destruct H as (b' & H1 & H2); [lia|].
        exists b'. split; [done|]. rewrite <-app_assoc. by f_equal.
    + destruct bs as [|c bs]; [simpl in L; lia|]. destruct (arriving r) as [b1 t1] eqn:Er. simplify_eq.
      set (m := c :: bs) in *. rewrite length_app.
      destruct (Nat.leb_spec n (length m + length b1)); [|lia].
      assert (exists x y, take n m = x :: y) as (x & y & Et) by (unfold n, m; simpl; eauto). rewrite Et, <-Et.
      rewrite length_take. replace (n - n `min` length m)%nat with 0%nat by lia.
      rewrite take_app_le by lia.
      exists (mk_net (RData (drop n m) :: r) (n_errno s)). split; [by destruct fuel|].
      intros _. exists (drop n m ++ b1). split; [|by rewrite app_assoc, take_drop].
      assert (length (drop n m) <> 0%nat) as Hd by (rewrite length_drop; lia).
      cbn [n_in arriving]. destruct (drop n m) as [|z zs]; [done|by rewrite Er].
  - simplify_eq. simpl. rewrite app_nil_r. eexists. split; [done|lia].
  - simplify_eq. simpl. rewrite app_nil_r. eexists. split; [done|lia].
  - simplify_eq. simpl. rewrite app_nil_r. eexists. split; [done|lia].
Qed.
End reading.

(** [treadn] gives the caller exactly the bytes asked for, however the
    peer's bytes are split into segments, and leaves the following bytes in
    the socket; when the stream ends first it gives what there is, and -1
    only when an error or a time-out came before the first byte.  It always
    returns. *)
Theorem treadn_exact s n b t :
  arriving (n_in s) = (b, t) ->
  exists s', treadn n s =
      Ret (if (n <=? length b)%nat then Some (take n b)
           else if stops_with_error t && (length b =? 0)%nat then None else Some b) s' /\
    ((n <= length b)%nat -> exists b', arriving (n_in s') = (b', t) /\ b = take n b ++ b').
Proof. intros H. unfold treadn. apply (treadn_loop_spec n n [] s b t); [lia|done]. Qed.

Lemma treadn_exact_witness :
  exists s', treadn 4 (mk_net [RData [1; 2]; RData [3]; RData [4; 5]; RTimeout] 0) = Ret (Some [1; 2; 3; 4]) s' /\
    exists b', arriving (n_in s') = (b', [RTimeout]).
Proof.
  destruct (treadn_exact (mk_net [RData [1; 2]; RData [3]; RData [4; 5]; RTimeout] 0) 4 [1; 2; 3; 4; 5] [RTimeout])
    as (s' & E & H).
  - reflexivity.
  - exists s'. split; [exact E|]. destruct H as (b' & H & _); [simpl; lia|]. exists b'. exact H.
Defined.

Section config.
Definition word (w : bytes) : Prop := w <> [] /\ Forall (fun c => isspace c = false /\ c <> 0 /\ c <> c_nl) w.

(** The text of a configuration file with one keyword and value per line. *)
Definition config_line (kv : bytes * bytes) : bytes := kv.1 ++ [c_space] ++ kv.2 ++ [c_nl].
Definition config_text (l : list (bytes * bytes)) : bytes := mjoin (config_line <$> l).
Definition ok_entry (kv : bytes * bytes) : Prop :=
  word kv.1 /\ word kv.2 /\ (length kv.1 <= 15)%nat /\ (length kv.1 + length kv.2 <= 500)%nat.
(** The value of the first entry with that keyword. *)
Fixpoint assoc (k : bytes) (l : list (bytes * bytes)) : option bytes :=
  match l with [] => None | (k', v) :: r => if bool_decide (k = k') then Some v else assoc k r end.

Lemma line_of_app n l r :
  Forall (fun c => c <> c_nl) l -> (length l < n)%nat -> line_of n (l ++ c_nl :: r) = (l ++ [c_nl], r).
Proof.
  intros H. revert n. induction H as [|c l Hc _ IH]; intros [|n] Hn; simpl in *; try lia; [done|].
  destruct (Z.eqb_spec c c_nl); [done|]. by rewrite IH by lia.
Qed.

Lemma take_word w c r : word w -> isspace c = true ->
  take_while (fun c => negb (isspace c)) (w ++ c :: r) = w /\ skip_while isspace (w ++ c :: r) = w ++ c :: r.
Proof.
  intros [Hne H] Hc. split.
  - clear Hne. induction H as [|x w (Hx & _) _ IH]; simpl; [by rewrite Hc|]. by rewrite Hx, IH.
  - destruct w as [|x w]; [done|]. inversion H as [|? ? [Hx _] _]. simpl. by rewrite Hx.
Qed.

Lemma conv_word w n c r : word w -> (length w <= n)%nat -> isspace c = true ->
  conv_s n (w ++ c :: r) = Some (w, c :: r).
Proof.
  intros Hw Hn Hc. unfold conv_s. destruct (take_word w c r Hw Hc) as [E1 E2].
  rewrite E2, E1, take_ge by lia. rewrite drop_app_length.
  destruct w; [by destruct Hw|done].
Qed.

Lemma sscanf_line k v : ok_entry (k, v) ->
  sscanf2 (MAXKWLEN - 1) (MAXCFGLINE - 1) (k ++ [c_space] ++ v ++ [c_nl]) = Some (k, v).
Proof.
  intros (Hk & Hv & H1 & H2). simpl in *. unfold sscanf2. cbn [app].
  rewrite conv_word; [|done|unfold MAXKWLEN; lia|done]. cbn [mbind option_bind].
  change (conv_s ?n (c_space :: ?x)) with (conv_s n x).
  rewrite conv_word; [done|done|unfold MAXCFGLINE; lia|done].
Qed.

Lemma word_cstr w : word w -> cstr w = w.
Proof. intros [_ H]. apply cstr_id. eapply Forall_impl; [|exact H]. simpl. tauto. Qed.

Lemma line_of_config n k v r : ok_entry (k, v) -> (length k + length v + 1 < n)%nat ->
  line_of n (config_line (k, v) ++ r) = (config_line (k, v), r).
Proof.
  intros (Hk & Hv & _) Hn. unfold config_line. cbn [fst snd] in *.
  replace ((k ++ [c_space] ++ v ++ [c_nl]) ++ r) with ((k ++ c_space :: v) ++ c_nl :: r)
    by (rewrite <-!app_assoc; done).
  rewrite line_of_app; [by rewrite <-app_assoc| |rewrite length_app; simpl; lia].
  apply Forall_app. split; [|constructor; [done|]]; (eapply Forall_impl; [|apply Hk || apply Hv]); simpl; tauto.
Qed.

Lemma scan_loop_spec fuel k l :
  Forall ok_entry l -> (length l < fuel)%nat -> word k ->
  scan_loop fuel k (config_text l) = assoc k l.
Proof.
  intros H Hf Hk. revert fuel Hf. induction H as [|[k' v] l He _ IH]; intros [|fuel] Hf; try (simpl in Hf; lia); [done|].
  pose proof He as (Hk' & Hv & H1 & H2). simpl in Hk', Hv, H1, H2.
  cbn [scan_loop]. change (config_text ((k', v) :: l)) with (config_line (k', v) ++ config_text l).
  assert (fgets MAXCFGLINE (config_line (k', v) ++ config_text l) = Some (config_line (k', v), config_text l)) as ->.
  { unfold fgets. destruct (config_line (k', v) ++ config_text l) as [|z zs] eqn:E.
    { apply (f_equal length) in E. unfold config_line in E. rewrite !length_app in E. simpl in E. lia. }
    rewrite <-E. f_equal. apply line_of_config; [done|]. unfold MAXCFGLINE. lia. }
  rewrite cstr_id.
  2:{ unfold config_line. cbn [fst snd]. rewrite !Forall_app. split_and!; [|by repeat constructor| |by repeat constructor];
      (eapply Forall_impl; [|apply Hk' || apply Hv]); simpl; tauto. }
  unfold config_line at 1. cbn [fst snd]. rewrite sscanf_line by done. unfold streq.
  rewrite !word_cstr by done. cbn [assoc]. destruct (bool_decide (k = k')); [done|].
  apply IH. simpl in Hf. lia.
Qed.
End config.

(** [scan_configfile] on a file of lines with a keyword of at most 15
    bytes, a blank and a value returns the value of the first line with the
    keyword, and NULL when there is none. *)
Theorem scan_configfile_assoc l k :
  Forall ok_entry l -> word k -> scan_configfile (Some (config_text l)) k = Some (assoc k l).
Proof.
  intros H Hk. unfold scan_configfile. f_equal. apply scan_loop_spec; [done| |done].
  enough (length l <= length (config_text l))%nat by lia. clear H. unfold config_text.
  induction l as [|kv l IH]; [done|].
  change (mjoin (config_line <$> kv :: l)) with (config_line kv ++ mjoin (config_line <$> l)).
  unfold config_line at 1. rewrite !length_app. simpl. lia.
Qed.

Lemma scan_configfile_assoc_witness :
  scan_configfile (Some (config_text [(str "printserver", str "blade"); (str "printer", str "lp1")])) (str "printer")
    = Some (Some (str "lp1")).
Proof.
  apply (scan_configfile_assoc [(str "printserver", str "blade"); (str "printer", str "lp1")] (str "printer")).
  - repeat constructor; try discriminate; vm_compute; lia.
  - repeat constructor; discriminate.
Defined.
