(* ===== verification/PrintClient.v ===== *)
(** The thread of [printd.c] that takes a job from a client,
    [client_thread], with the spool directory and its two files per job, and
    [build_qonstart], which reads the directory when the daemon starts. *)
From Stdlib Require Import ZArith Lia.
From stdpp Require Import base list strings gmap numbers.
From S2P Require Import Prelude CString CFile Dll PrintJobs PrintWorkers PrintNet.
Local Open Scope c_scope.

Definition IOBUFSZ : nat := Z.to_nat 8192.
Definition REQSZ : nat := 328.

(** * Integers in memory: the host is little-endian *)
Definition le32 (x : Z) : bytes :=
  [Z.land (u32 x) 255; Z.land (Z.shiftr (u32 x) 8) 255;
   Z.land (Z.shiftr (u32 x) 16) 255; Z.land (Z.shiftr (u32 x) 24) 255].
Definition get_le32 (b : bytes) : Z :=
  match b with
  | b0 :: b1 :: b2 :: b3 :: _ => b0 + 256 * b1 + 65536 * b2 + 16777216 * b3
  | _ => 0
  end.
(** [htonl] and [ntohl] *)
Definition htonl (x : Z) : Z := get_le32 (rev (le32 x)).
Definition ntohl : Z -> Z := htonl.

(** [struct printreq] as it lies in memory, and back. *)
Definition enc_req (r : printreq) : bytes := le32 (rq_size r) ++ le32 (rq_flags r) ++ usernm r ++ jobnm r.
Definition dec_req (b : bytes) : printreq :=
  mk_req (get_le32 b) (get_le32 (drop 4 b)) (slice 8 USERNM_MAX b) (slice 72 JOBNM_MAX b).

(** [struct printresp] *)
Record printresp := mk_resp { rs_retcode : Z; rs_jobid : Z; rs_msg : bytes }.

(** * The daemon as a client thread sees it *)

(** The queues, the client's socket (what will arrive, [errno], the
    responses written), the files of the spool directory, and what the file
    system answers to [creat] and to a [write] of so many bytes at some
    offset: an error number or the count. *)
Record daemon := mk_daemon {
  d_jobs : jobq;
  d_workers : workerq;
  d_net : net;
  d_out : list printresp;
  d_files : gmap bytes bytes;
  d_creat : bytes -> option Z;
  d_write : bytes -> nat -> nat -> Z + nat
}.
Definition set_jobs v d := mk_daemon v (d_workers d) (d_net d) (d_out d) (d_files d) (d_creat d) (d_write d).
Definition set_wq v d := mk_daemon (d_jobs d) v (d_net d) (d_out d) (d_files d) (d_creat d) (d_write d).
Definition set_net v d := mk_daemon (d_jobs d) (d_workers d) v (d_out d) (d_files d) (d_creat d) (d_write d).
Definition set_out v d := mk_daemon (d_jobs d) (d_workers d) (d_net d) v (d_files d) (d_creat d) (d_write d).
Definition set_files v d := mk_daemon (d_jobs d) (d_workers d) (d_net d) (d_out d) v (d_creat d) (d_write d).

Definition on_jobs {A} : M jobq A -> M daemon A := zoom d_jobs set_jobs.
Definition on_workers {A} : M workerq A -> M daemon A := zoom d_workers set_wq.
Definition on_net {A} : M net A -> M daemon A := zoom d_net set_net.

Definition job_path (dir : bytes) (id : Z) : bytes := SPOOLDIR ++ slash ++ dir ++ slash ++ sdec id.

(** [creat]: the error number when it fails. *)
Definition creat (name : bytes) : M daemon (option Z) :=
  let* c := gets d_creat in
  match c name with
  | Some e => ret (Some e)
  | None => modify (fun d => set_files (<[name := []]> (d_files d)) d) ;;; ret None
  end.
(** [write] at the end of what this thread has written to the file. *)
Definition write_file (name bs : bytes) : M daemon (Z + nat) :=
  let* d := gets id in
  let old := default [] (d_files d !! name) in
  match d_write d name (length old) (length bs) with
  | inl e => ret (inl e)
  | inr n => modify (fun d => set_files (<[name := old ++ take n bs]> (d_files d)) d) ;;; ret (inr (n `min` length bs)%nat)
  end.
Definition unlink_file (name : bytes) : M daemon unit :=
  modify (fun d => set_files (delete name (d_files d)) d).

(** [strncpy] of a string into an array of [n] bytes. *)
Definition strncpy (n : nat) (s : bytes) : bytes := take n s ++ replicate (n - length s) 0.

(** * The thread *)
Section client.
(** The text of an error number. *)
Context (strerror : Z -> bytes).

(** The answer to a request that failed with [e]: the error number is put in
    network order before its text is looked up. *)
Definition refuse (e : Z) : M daemon unit :=
  let rc := htonl e in
  modify (fun d => set_out (d_out d ++ [mk_resp rc 0 (strncpy MSGLEN_MAX (strerror rc))]) d).

(** The error of a [write] that did not write [nr] bytes. *)
Definition write_error (nr : nat) (r : Z + nat) : option Z :=
  match r with
  | inl e => Some e
  | inr nw => if (nw =? nr)%nat then None else Some EIO
  end.

(** The loop that copies the document to [name]: the flags and [None], or
    the error of a write.  [buf] keeps its bytes from round to round. *)
Fixpoint copy_loop (fuel : nat) (name : bytes) (first : bool) (buf : bytes) (flags : Z) : M daemon (Z * option Z) :=
  match fuel with
  | O => nofuel
  | S f =>
      let* r := on_net (tread IOBUFSZ) in
      match r with
      | None | Some [] => ret (flags, None)
      | Some bs =>
          let buf := splice 0 bs buf in
          let flags := if first && negb (bool_decide (take 4 buf = str "%!PS")) then Z.lor flags PR_TEXT else flags in
          let* w := write_file name bs in
          match write_error (length bs) w with
          | Some e => ret (flags, Some e)
          | None => copy_loop f name false buf flags
          end
      end
  end.

(** Every round takes at least a byte or an event from the socket. *)
Fixpoint events_fuel (l : list rd) : nat :=
  match l with
  | [] => 1
  | RData bs :: r => S (length bs) + events_fuel r
  | _ :: r => S (events_fuel r)
  end.
Definition net_fuel (n : net) : nat := events_fuel (n_in n).

(** The request as the daemon queues it. *)
Definition accepted (h : bytes) (fl : Z) : printreq :=
  mk_req (ntohl (rq_size (dec_req h))) fl (usernm (dec_req h)) (jobnm (dec_req h)).

(** Storing the job, once the header [h] has been read. *)
Definition store_job (resmem bufmem h : bytes) (jobid : Z) : M daemon Z :=
  let name := job_path DATADIR jobid in
  let* c := creat name in
  match c with
  | Some e => refuse e ;;; ret 1
  | None =>
      let* fuel := gets (fun d => net_fuel (d_net d)) in
      let* res := copy_loop fuel name true bufmem (ntohl (rq_flags (dec_req h))) in
      match res.2 with
      | Some e => refuse e ;;; unlink_file name ;;; ret 1
      | None =>
          let rname := job_path REQDIR jobid in
          let* c := creat rname in
          match c with
          | Some e => refuse e ;;; unlink_file name ;;; ret 1
          | None =>
              let* w := write_file rname (enc_req (accepted h res.1)) in
              match write_error REQSZ w with
              | Some e => refuse e ;;; unlink_file rname ;;; unlink_file name ;;; ret 1
              | None =>
                  let msg := splice 0 ((str "request ID " ++ sdec jobid) ++ [0]) resmem in
                  modify (fun d => set_out (d_out d ++ [mk_resp 0 (htonl jobid) msg]) d) ;;;
                  on_jobs (add_job (accepted h res.1) jobid) ;;;
                  ret 0
              end
          end
      end
  end.

(** The body between registering the worker and the clean-up; [resmem] and
    [bufmem] are what the stack holds where [res] and [buf] are. *)
Definition client_body (resmem bufmem : bytes) : M daemon Z :=
  let* hdr := on_net (treadn REQSZ) in
  let* err := gets (fun d => n_errno (d_net d)) in
  match hdr with
  | None => refuse err ;;; ret 1
  | Some h =>
      if negb (length h =? REQSZ)%nat then refuse EIO ;;; ret 1
      else let* jobid := on_jobs get_newjobno in store_job resmem bufmem h jobid
  end.

(** [client_thread]: the clean-up handler runs on every exit. *)
Definition client_thread (tid sockfd : Z) (resmem bufmem : bytes) : M daemon Z :=
  let* ok := on_workers (add_worker tid sockfd) in
  let* rc := (if ok : bool then client_body resmem bufmem else ret 1) in
  on_workers (client_cleanup tid) ;;;
  ret rc.
End client.

(** * Starting up *)

(** [build_qonstart] on the entries [readdir] returns, in its order: a
    request file that cannot be opened is left alone, one that has not the
    size of a request is removed together with its document. *)
Section startup.
(** What [open] and [read] of a request file give: [None] when it cannot be
    opened, an error number, or bytes. *)
Context (read_req : bytes -> option (Z + bytes)).

Definition qonstart_entry (d_name : bytes) : M daemon unit :=
  if streq d_name (str ".") || streq d_name (str "..") then skip
  else
    let fname := SPOOLDIR ++ slash ++ REQDIR ++ slash ++ d_name in
    if (FILENMSZ <=? length fname)%nat then undef "overflow of fname"
    else
      match read_req fname with
      | None => skip
      | Some (inr bs) =>
          if (length bs =? REQSZ)%nat
          then on_jobs (add_job (dec_req bs) (i32 (atol d_name)))
          else unlink_file fname ;;; unlink_file (SPOOLDIR ++ slash ++ DATADIR ++ slash ++ d_name)
      | Some (inl _) => unlink_file fname ;;; unlink_file (SPOOLDIR ++ slash ++ DATADIR ++ slash ++ d_name)
      end.
Fixpoint build_qonstart (entries : list bytes) : M daemon unit :=
  match entries with
  | [] => skip
  | e :: r => qonstart_entry e ;;; build_qonstart r
  end.
End startup.

(** * The copy of the document *)

(** [d'] differs from [d] in the socket and in the file [name] only. *)
Definition only_file (name : bytes) (d d' : daemon) : Prop :=
  d_jobs d' = d_jobs d /\ d_workers d' = d_workers d /\ d_out d' = d_out d /\
  d_creat d' = d_creat d /\ d_write d' = d_write d /\
  forall p, p <> name -> d_files d' !! p = d_files d !! p.

(** No [creat] and no [write] fails. *)
Definition disk_ok (d : daemon) : Prop :=
  (forall p, d_creat d p = None) /\ forall p o n, d_write d p o n = inr n.

Section copying.
Implicit Types (d : daemon) (name : bytes).

Lemma only_file_refl name d : only_file name d d.
Proof. done. Qed.

Lemma only_file_trans name d1 d2 d3 : only_file name d1 d2 -> only_file name d2 d3 -> only_file name d1 d3.
Proof.
  intros (? & ? & ? & ? & ? & F1) (? & ? & ? & ? & ? & F2).
  split_and!; try congruence. intros p Hp. by rewrite F2, F1.
Qed.

Lemma only_file_net name d n : only_file name d (set_net n d).
Proof. done. Qed.

Lemma only_file_ins name d b : only_file name d (set_files (<[name := b]> (d_files d)) d).
Proof. split_and!; try done. intros p Hp. simpl. by rewrite lookup_insert_ne. Qed.

Lemma iobuf_pos : (0 < IOBUFSZ)%nat.
Proof. unfold IOBUFSZ. lia. Qed.

(** A read that gives bytes takes them from the front of what arrives, and
    makes the fuel of the rest smaller. *)
Lemma tread_step n k r n' : (0 < k)%nat -> tread k n = Ret r n' ->
  match r with
  | Some (c :: bs) => (net_fuel n' < net_fuel n)%nat /\ (arriving (n_in n)).1 = (c :: bs) ++ (arriving (n_in n')).1
  | _ => (arriving (n_in n)).1 = []
  end.
Proof.
  intros Hk. unfold tread. destruct (n_in n) as [|[bs| |e|e] l] eqn:Ein; intros H; simplify_eq; try done.
  destruct (Nat.leb_spec (length bs) k) as [L|L]; simplify_eq.
  - destruct bs as [|c bs]; [done|]. simpl. destruct (arriving l) as [b t]. split; [|done].
    unfold net_fuel. rewrite Ein. simpl. lia.
  - destruct bs as [|c bs]; [simpl in L; lia|]. destruct k as [|k]; [lia|]. cbn [take drop].
    simpl in L. split.
    + unfold net_fuel. rewrite Ein. simpl. rewrite length_drop. lia.
    + simpl. destruct (arriving l) as [b t] eqn:El. simpl.
      assert (length (drop k bs) <> 0%nat) by (rewrite length_drop; lia).
      destruct (drop k bs) as [|z zs] eqn:Ed; [done|].
      simpl. f_equal. rewrite app_comm_cons, <-Ed, app_assoc, take_drop. done.
Qed.

Lemma copy_loop_run fuel name first buf flags d :
  (net_fuel (d_net d) <= fuel)%nat ->
  exists fl e d', copy_loop fuel name first buf flags d = Ret (fl, e) d' /\ only_file name d d' /\
    (is_Some (d_files d !! name) -> is_Some (d_files d' !! name)) /\
    (disk_ok d -> forall old, d_files d !! name = Some old ->
       e = None /\ d_files d' !! name = Some (old ++ (arriving (n_in (d_net d))).1) /\
       (fl = flags \/ fl = Z.lor flags PR_TEXT)).
Proof.
  revert first buf flags d. induction fuel as [|fuel IH]; intros first buf flags d Hf.
  { unfold net_fuel in Hf. by destruct (n_in (d_net d)) as [|[]]; simpl in Hf; lia. }
  cbn [copy_loop]. destruct (tread IOBUFSZ (d_net d)) as [r n'| | |] eqn:Et.
  2-4: by unfold tread in Et; destruct (n_in (d_net d)) as [|[bs| |e|e] l]; try done; destruct (_ <=? _)%nat.
  rewrite (bind_run _ _ _ _ _ (zoom_run d_net set_net _ _ _ _ Et)).
  pose proof (tread_step _ _ _ _ iobuf_pos Et) as Hs. set (d1 := set_net n' d).
  destruct r as [[|c bs]|].
  - exists flags, None, d1. split_and!; try done. intros _ old Ho. rewrite Hs, app_nil_r. auto.
  - destruct Hs as [Hfl Harr]. set (bb := c :: bs) in *.
    set (fl1 := if first && _ then _ else flags).
    unfold write_file. do 2 step. change (id d1) with d1. set (old1 := default [] (d_files d1 !! name)).
    destruct (d_write d1 name (length old1) (length bb)) as [e|n] eqn:Ew; change (d_write d1) with (d_write d) in Ew.
    + exists fl1, (Some e), d1. split_and!; try done. intros [_ Hw]. by rewrite Hw in Ew.
    + do 2 step. set (d2 := set_files _ _). rewrite (bind_run (ret _) _ d2 _ d2 eq_refl). cbn [write_error].
      assert (only_file name d d2) as O2 by (eapply only_file_trans; [apply only_file_net|apply only_file_ins]).
      assert (d_files d2 !! name = Some (old1 ++ take n bb)) as F2 by apply lookup_insert_eq.
      destruct (Nat.eqb_spec (n `min` length bb) (length bb)) as [Hn|Hn].
      * destruct (IH false (splice 0 bb buf) fl1 d2) as (fl & e & d3 & E3 & O3 & S3 & G3);
          [change (d_net d2) with n'; lia|].
        exists fl, e, d3. split_and!; [done|by eapply only_file_trans|intros _; apply S3; by eexists|].
        intros Hok old Ho. destruct (G3 Hok _ F2) as (-> & F3 & Hfl3). split; [done|]. split.
        -- rewrite F3. change (d_net d2) with n'. rewrite Harr. unfold old1. change (d_files d1) with (d_files d).
           rewrite Ho. simpl. rewrite take_ge by lia. by rewrite <-app_assoc.
        -- unfold fl1 in Hfl3. destruct (first && _); [|done].
           destruct Hfl3 as [->| ->]; [by right|right]. by rewrite <-Z.lor_assoc, Z.lor_diag.
      * exists fl1, (Some EIO), d2. split_and!; [done|done|intros _; by eexists|].
        intros [_ Hw]. rewrite Hw in Ew. simplify_eq. lia.
  - exists flags, None, d1. split_and!; try done. intros _ old Ho. rewrite Hs, app_nil_r. auto.
Qed.
End copying.

Section accept.
Context (strerror : Z -> bytes).
Implicit Types (d : daemon) (name : bytes).

Lemma refuse_run e d :
  refuse strerror e d = Ret tt (set_out (d_out d ++ [mk_resp (htonl e) 0 (strncpy MSGLEN_MAX (strerror (htonl e)))]) d).
Proof. done. Qed.

(** A file made and removed again leaves the directory as it was. *)
Lemma delete_only name d d' :
  only_file name d d' -> d_files d !! name = None -> delete name (d_files d') = d_files d.
Proof.
  intros (_ & _ & _ & _ & _ & H) Hn. apply map_eq. intros p. destruct (decide (p = name)) as [->|Hp].
  - by rewrite lookup_delete_eq, Hn.
  - by rewrite lookup_delete_ne, H.
Qed.

Lemma insert_only name d d' b :
  only_file name d d' -> d_files d' !! name = Some b -> d_files d' = <[name := b]> (d_files d).
Proof.
  intros (_ & _ & _ & _ & _ & H) Hb. apply map_eq. intros p. destruct (decide (p = name)) as [->|Hp].
  - by rewrite lookup_insert_eq.
  - by rewrite lookup_insert_ne, H.
Qed.

Lemma creat_run name d :
  creat name d = match d_creat d name with
                 | Some e => Ret (Some e) d
                 | None => Ret None (set_files (<[name := []]> (d_files d)) d)
                 end.
Proof. unfold creat. step. by destruct (d_creat d name). Qed.

Lemma write_file_run name bs d :
  exists w d', write_file name bs d = Ret w d' /\ only_file name d d' /\
    (write_error (length bs) w = None ->
       d_files d' !! name = Some (default [] (d_files d !! name) ++ bs)) /\
    (disk_ok d -> write_error (length bs) w = None).
Proof.
  unfold write_file. step. change (id d) with d. set (old := default [] _).
  destruct (d_write d name (length old) (length bs)) as [e|n] eqn:E.
  - exists (inl e), d. split_and!; try done. intros [_ H]. by rewrite H in E.
  - eexists _, _. split; [reflexivity|]. split; [apply only_file_ins|]. split.
    + simpl. destruct (Nat.eqb_spec (n `min` length bs) (length bs)); [|done]. intros _.
      rewrite lookup_insert_eq, take_ge by lia. done.
    + intros [_ H]. rewrite H in E. simplify_eq. simpl. by rewrite Nat.min_id, Nat.eqb_refl.
Qed.

Lemma enc_req_length h sz fl : length h = REQSZ ->
  length (enc_req (mk_req sz fl (usernm (dec_req h)) (jobnm (dec_req h)))) = REQSZ.
Proof.
  intros H. unfold enc_req, dec_req, slice. rewrite !length_app. cbn [rq_size rq_flags usernm jobnm].
  rewrite !length_take, !length_drop, H. reflexivity.
Qed.

Lemma sdec_inj_dirs id : job_path DATADIR id <> job_path REQDIR id.
Proof.
  unfold job_path. intros H. apply app_inv_head in H. apply app_inv_head in H. discriminate.
Qed.

(** A run that ends in a refusal: nothing is stored or queued. *)
Definition refused (d d' : daemon) : Prop :=
  d_jobs d' = d_jobs d /\ d_workers d' = d_workers d /\ d_files d' = d_files d /\
  exists e, d_out d' = d_out d ++ [mk_resp (htonl e) 0 (strncpy MSGLEN_MAX (strerror (htonl e)))].

(** A run that ends in a job: both files, the queue entry and the answer. *)
Definition stored (resmem h : bytes) (id : Z) (ads : list addr) (l : list (Z * printreq)) (d d' : daemon) (fl : Z) (doc : bytes) : Prop :=
  d_workers d' = d_workers d /\
  d_files d' = <[job_path REQDIR id := enc_req (accepted h fl)]> (<[job_path DATADIR id := doc]> (d_files d)) /\
  (exists a, queue (d_jobs d') (ads ++ [a]) (l ++ [(id, accepted h fl)])) /\
  d_out d' = d_out d ++ [mk_resp 0 (htonl id) (splice 0 ((str "request ID " ++ sdec id) ++ [0]) resmem)].

Lemma store_job_run resmem bufmem h id d ads l :
  length h = REQSZ -> queue (d_jobs d) ads l -> j_oom (d_jobs d) = false ->
  d_files d !! job_path DATADIR id = None -> d_files d !! job_path REQDIR id = None ->
  exists rc d', store_job strerror resmem bufmem h id d = Ret rc d' /\
    ((rc = 1 /\ refused d d' /\ ~ disk_ok d) \/
     (rc = 0 /\ exists fl doc, stored resmem h id ads l d d' fl doc /\
        (disk_ok d -> doc = (arriving (n_in (d_net d))).1 /\
           (fl = ntohl (rq_flags (dec_req h)) \/ fl = Z.lor (ntohl (rq_flags (dec_req h))) PR_TEXT)))).
Proof.
  intros Hh Q Ho Hd Hr. unfold store_job. set (name := job_path DATADIR id) in *. set (rname := job_path REQDIR id) in *.
  assert (name <> rname) as Hne by apply sdec_inj_dirs.
  pose proof (creat_run name d) as E1. destruct (d_creat d name) as [e|] eqn:C1.
  { eexists 1, _. split; [by call E1|]. left. split; [done|]. split; [split_and!; try done; by eexists|].
    intros [H _]. by rewrite H in C1. }
  call E1. step. set (d1 := set_files _ d) in *.
  destruct (copy_loop_run (net_fuel (d_net d1)) name true bufmem (ntohl (rq_flags (dec_req h))) d1 (le_n _))
    as (fl & e2 & d2 & E2 & O2 & S2 & G2).
  assert (only_file name d d2) as O12 by (eapply only_file_trans; [apply only_file_ins|exact O2]).
  assert (is_Some (d_files d2 !! name)) as [doc Hdoc] by (apply S2; eexists; apply lookup_insert_eq).
  pose proof (insert_only _ _ _ _ O12 Hdoc) as F2.
  pose proof O12 as (J2 & W2 & U2 & K2 & V2 & P2).
  assert (disk_ok d -> disk_ok d2) as Hok2 by (unfold disk_ok; by rewrite K2, V2).
  assert (disk_ok d -> e2 = None /\ doc = (arriving (n_in (d_net d))).1 /\
    (fl = ntohl (rq_flags (dec_req h)) \/ fl = Z.lor (ntohl (rq_flags (dec_req h))) PR_TEXT)) as HG.
  { intros Hok. destruct (G2 Hok [] (lookup_insert_eq _ _ _)) as (He & Hf & Hfl).
    rewrite Hdoc in Hf. simpl in Hf. by simplify_eq. }
  call E2. cbn [fst snd]. destruct e2 as [e|].
  { eexists 1, _. split; [reflexivity|]. left. split; [done|]. split.
    - split_and!; [done|done|exact (delete_only name d d2 O12 Hd)|]. simpl. rewrite U2. by eexists.
    - intros Hok. by destruct (HG Hok). }
  pose proof (creat_run rname d2) as E3. destruct (d_creat d2 rname) as [e|] eqn:C3.
  { eexists 1, _. split; [by call E3|]. left. split; [done|]. split.
    - split_and!; [done|done|exact (delete_only name d d2 O12 Hd)|]. simpl. rewrite U2. by eexists.
    - intros [H _]. by rewrite K2, H in C3. }
  call E3. set (d3 := set_files _ d2) in *.
  destruct (write_file_run rname (enc_req (accepted h fl)) d3) as (w & d4 & E4 & O4 & F4 & G4).
  unfold accepted in F4, G4. rewrite (enc_req_length h) in F4, G4 by done. fold (accepted h fl) in F4, G4.
  assert (only_file rname d2 d4) as O24 by (eapply only_file_trans; [apply only_file_ins|exact O4]).
  pose proof O24 as (J4 & W4 & U4 & K4 & V4 & P4).
  assert (d_files d2 !! rname = None) as Hr2 by (by rewrite P2).
  call E4. destruct (write_error REQSZ w) as [e|] eqn:Ew.
  { eexists 1, _. split; [reflexivity|]. left. split; [done|]. split.
    - split_and!; simpl; try congruence.
      + rewrite (delete_only _ d2 d4) by done. exact (delete_only name d d2 O12 Hd).
      + rewrite U4, U2. by eexists.
    - intros Hok. by specialize (G4 (Hok2 Hok)). }
  specialize (F4 eq_refl). unfold d3 in F4. simpl in F4. rewrite lookup_insert_eq in F4. simpl in F4.
  pose proof (insert_only _ _ _ _ O24 F4) as F24. step.
  set (d5 := set_out _ d4).
  destruct (add_job_run (d_jobs d5) ads l (accepted h fl) id) as (j6 & a & E6 & Q6 & _).
  { simpl. by rewrite J4, J2. } { simpl. by rewrite J4, J2. }
  eexists 0, _. split.
  { rewrite (bind_run _ _ _ _ _ (zoom_run d_jobs set_jobs _ _ _ _ E6)). reflexivity. }
  right. split; [done|]. exists fl, doc. split; [|by intros Hok; destruct (HG Hok) as (_ & ? & ?)].
  split_and!; simpl; [congruence|by rewrite F24, F2|by exists a|by rewrite U4, U2].
Qed.

Lemma newjob_queue s ads l : queue s ads l -> queue (set_nextjob (nextjob s + 1) s) ads l.
Proof. by intros [? ? ?]. Qed.

(** What a client connection comes to, whatever arrives and whatever the
    file system does. *)
Lemma client_body_run resmem bufmem d ads l :
  queue (d_jobs d) ads l -> j_oom (d_jobs d) = false -> 1 <= nextjob (d_jobs d) < 2 ^ 31 - 1 ->
  let id := nextjob (d_jobs d) in
  d_files d !! job_path DATADIR id = None -> d_files d !! job_path REQDIR id = None ->
  exists rc d', client_body strerror resmem bufmem d = Ret rc d' /\ d_workers d' = d_workers d /\
    ((rc = 1 /\ d_files d' = d_files d /\ queue (d_jobs d') ads l /\
        (exists e, d_out d' = d_out d ++ [mk_resp (htonl e) 0 (strncpy MSGLEN_MAX (strerror (htonl e)))]) /\
        (disk_ok d -> (length (arriving (n_in (d_net d))).1 < REQSZ)%nat)) \/
     (rc = 0 /\ exists h fl doc d0, length h = REQSZ /\ d_files d0 = d_files d /\ d_out d0 = d_out d /\
        d_workers d0 = d_workers d /\ stored resmem h id ads l d0 d' fl doc /\
        (disk_ok d -> (arriving (n_in (d_net d))).1 = h ++ doc /\
           (fl = ntohl (rq_flags (dec_req h)) \/ fl = Z.lor (ntohl (rq_flags (dec_req h))) PR_TEXT)))).
Proof.
  intros Q Ho Hn id Hd Hr. unfold client_body.
  destruct (arriving (n_in (d_net d))) as [b t] eqn:Ea.
  destruct (treadn_loop_spec REQSZ REQSZ [] (d_net d) b t (le_n _) Ea) as (n1 & E1 & H1).
  change (treadn_loop REQSZ REQSZ []) with (treadn REQSZ) in E1. cbn [app] in E1.
  rewrite (bind_run _ _ _ _ _ (zoom_run d_net set_net _ _ _ _ E1)). step. set (d1 := set_net n1 d).
  destruct (Nat.leb_spec REQSZ (length b)) as [L|L]; cycle 1.
  { assert (forall e, exists rc d', (refuse strerror e ;;; ret 1) d1 = Ret rc d' /\ d_workers d' = d_workers d /\
      rc = 1 /\ d_files d' = d_files d /\ queue (d_jobs d') ads l /\
      exists e, d_out d' = d_out d ++ [mk_resp (htonl e) 0 (strncpy MSGLEN_MAX (strerror (htonl e)))]) as Href.
    { intros e. eexists _, _. split; [reflexivity|]. split_and!; try done. by eexists. }
    destruct (stops_with_error t && (length b =? 0)%nat).
    - destruct (Href (n_errno (d_net d1))) as (rc & d' & E & W & R & F & Q' & O).
      exists rc, d'. split; [exact E|]. split; [done|]. left. split_and!; done.
    - replace (length b =? REQSZ)%nat with false by (symmetry; apply Nat.eqb_neq; lia). cbn [negb].
      destruct (Href EIO) as (rc & d' & E & W & R & F & Q' & O).
      exists rc, d'. split; [exact E|]. split; [done|]. left. split_and!; done. }
  destruct (H1 L) as (b' & Ha' & Hb). set (h := take REQSZ b) in *.
  assert (length h = REQSZ) as Hh by (unfold h; rewrite length_take; lia).
  rewrite Hh, Nat.eqb_refl. cbn [negb].
  pose proof (get_newjobno_run (d_jobs d1) (q_lock _ _ _ Q) Hn) as E2.
  rewrite (bind_run _ _ _ _ _ (zoom_run d_jobs set_jobs _ _ _ _ E2)). set (d2 := set_jobs _ d1).
  change (nextjob (d_jobs d1)) with id.
  destruct (store_job_run resmem bufmem h id d2 ads l Hh (newjob_queue _ _ _ Q) Ho Hd Hr) as (rc & d' & E & D).
  exists rc, d'. split; [exact E|]. destruct D as [(-> & (J & W & F & e & O) & Hno)|(-> & fl & doc & S & G)].
  - split; [done|]. left. split_and!; [done|done|rewrite J; by apply newjob_queue|by exists e|by intros Hok; destruct Hno].
  - split; [apply S|]. right. split; [done|]. exists h, fl, doc, d2. split_and!; try done.
    intros Hok. destruct (G Hok) as [Hdoc Hfl]. split; [|done]. rewrite Hb, Hdoc. simpl.
    change (d_net d2) with n1. by rewrite Ha'.
Qed.
End accept.

(** * Theorems *)

(** A daemon with an empty spool directory and a disk that never fails. *)
Definition idle_daemon (input : list rd) : daemon :=
  mk_daemon (mk_jobq ∅ NULL NULL (mk_file [] 0) 1 false 0 false) (mk_workerq ∅ NULL false [] [] false)
    (mk_net input 0) [] ∅ (fun _ => None) (fun _ _ n => inr n).
Lemma idle_queue input : queue (d_jobs (idle_daemon input)) [] [].
Proof. split; [|done|done]. split; [by split|constructor]. Qed.
Definition sample_header : bytes := enc_req (mk_req 0 0 (str "joe" ++ replicate 61 0) (str "f" ++ replicate 255 0)).
(** Two error texts, and any other number. *)
Definition sample_strerror (e : Z) : bytes := if e =? EIO then str "I/O error" else str "Unknown error".

(** A client thread that runs alone, with nothing of its job in the spool
    directory yet. *)
Record ready (d : daemon) (ads : list addr) (l : list (Z * printreq)) : Prop := {
  rdy_queue : queue (d_jobs d) ads l;
  rdy_mem : j_oom (d_jobs d) = false;
  rdy_num : 1 <= nextjob (d_jobs d) < 2 ^ 31 - 1;
  rdy_data : d_files d !! job_path DATADIR (nextjob (d_jobs d)) = None;
  rdy_req : d_files d !! job_path REQDIR (nextjob (d_jobs d)) = None;
  rdy_workers : workers (d_workers d) = NULL;
  rdy_wlock : workerlock (d_workers d) = false;
  rdy_wmem : w_oom (d_workers d) = false
}.

Lemma idle_ready input : ready (idle_daemon input) [] [].
Proof. split; try done. apply idle_queue. Qed.

(** The whole thread from the run of its body. *)
Lemma client_thread_run strerror tid fd resmem bufmem d ads l :
  ready d ads l ->
  exists w1 rc d', add_worker tid fd (d_workers d) = Ret true w1 /\
    client_body strerror resmem bufmem (set_wq w1 d) = Ret rc d' /\ d_workers d' = w1 /\
    client_thread strerror tid fd resmem bufmem d =
      Ret rc (set_wq (set_closed (fd :: closed (d_workers d)) (d_workers d)) d').
Proof.
  intros [Q Ho Hn Hd Hr W L O].
  destruct (single_worker_run (d_workers d) tid fd W L O) as (w1 & E1 & _ & E3).
  destruct (client_body_run strerror resmem bufmem (set_wq w1 d) ads l Q Ho Hn Hd Hr) as (rc & d' & E2 & W2 & _).
  exists w1, rc, d'. split; [done|]. split; [done|]. split; [done|].
  unfold client_thread, on_workers. rewrite (bind_run _ _ _ _ _ (zoom_run d_workers set_wq _ _ _ _ E1)). cbv iota.
  rewrite (bind_run _ _ _ _ _ E2). change (d_workers (set_wq w1 d)) with w1 in W2. rewrite <-W2 in E3.
  by rewrite (bind_run _ _ _ _ _ (zoom_run d_workers set_wq _ _ _ _ E3)).
Qed.

Lemma accepts_run strerror tid fd resmem bufmem d ads l h doc t :
  ready d ads l -> disk_ok d ->
  arriving (n_in (d_net d)) = (h ++ doc, t) -> length h = REQSZ ->
  exists d' a fl, client_thread strerror tid fd resmem bufmem d = Ret 0 d' /\
    (fl = ntohl (rq_flags (dec_req h)) \/ fl = Z.lor (ntohl (rq_flags (dec_req h))) PR_TEXT) /\
    d_files d' !! job_path DATADIR (nextjob (d_jobs d)) = Some doc /\
    d_files d' !! job_path REQDIR (nextjob (d_jobs d)) = Some (enc_req (accepted h fl)) /\
    queue (d_jobs d') (ads ++ [a]) (l ++ [(nextjob (d_jobs d), accepted h fl)]) /\
    rs_retcode <$> list.last (d_out d') = Some 0 /\ rs_jobid <$> list.last (d_out d') = Some (htonl (nextjob (d_jobs d))) /\
    closed (d_workers d') = fd :: closed (d_workers d).
Proof.
  intros Hrdy Hok Ha Hh. destruct (client_thread_run strerror tid fd resmem bufmem d ads l Hrdy) as (w1 & rc & d1 & E1 & E2 & W2 & E3).
  destruct Hrdy as [Q Ho Hn Hd Hr _ _ _].
  destruct (client_body_run strerror resmem bufmem (set_wq w1 d) ads l Q Ho Hn Hd Hr) as (rc' & d2 & E2' & _ & D).
  clear W2. rewrite E2 in E2'. simplify_eq.
  change (n_in (d_net (set_wq w1 d))) with (n_in (d_net d)) in D. rewrite Ha in D. cbn [fst] in D.
  destruct D as [(_ & _ & _ & _ & G)|(-> & h' & fl & doc' & d0 & Hh' & _ & _ & _ & (_ & F & [a Qa] & O) & G)].
  { specialize (G Hok). rewrite length_app in G. lia. }
  destruct (G Hok) as [Hhd Hfl]. apply app_inj_1 in Hhd as [-> ->]; [|lia].
  eexists _, a, fl. split; [exact E3|]. split; [done|]. simpl d_files. simpl d_out. rewrite F, O, last_snoc.
  rewrite lookup_insert_eq, lookup_insert_ne by (symmetry; apply sdec_inj_dirs). rewrite lookup_insert_eq. done.
Qed.

(** A client that sends a request header and a document, in segments of
    any size, gets its job: the document is in the data directory byte for
    byte, the request file holds the header in host order with the text flag
    set or not, the job is last in the queue under the number the answer
    names, and the worker is cleaned up.  This holds however the stream
    ends: a connection that breaks or times out in the middle of the
    document is taken for its end, and the truncated job is accepted. *)
Theorem client_thread_accepts strerror tid fd resmem bufmem d ads l h doc t :
  ready d ads l -> disk_ok d ->
  arriving (n_in (d_net d)) = (h ++ doc, t) -> length h = REQSZ ->
  exists d' a fl, client_thread strerror tid fd resmem bufmem d = Ret 0 d' /\
    (fl = ntohl (rq_flags (dec_req h)) \/ fl = Z.lor (ntohl (rq_flags (dec_req h))) PR_TEXT) /\
    d_files d' !! job_path DATADIR (nextjob (d_jobs d)) = Some doc /\
    d_files d' !! job_path REQDIR (nextjob (d_jobs d)) = Some (enc_req (accepted h fl)) /\
    queue (d_jobs d') (ads ++ [a]) (l ++ [(nextjob (d_jobs d), accepted h fl)]) /\
    rs_retcode <$> list.last (d_out d') = Some 0 /\ rs_jobid <$> list.last (d_out d') = Some (htonl (nextjob (d_jobs d))) /\
    closed (d_workers d') = fd :: closed (d_workers d).
Proof. exact (accepts_run strerror tid fd resmem bufmem d ads l h doc t). Qed.

Lemma client_thread_accepts_witness :
  let d := idle_daemon [RData (take 100 sample_header); RData (drop 100 sample_header ++ str "he"); RData (str "llo"); RTimeout] in
  exists d' a fl, client_thread sample_strerror 1 7 (replicate 512 0) (replicate IOBUFSZ 0) d = Ret 0 d' /\
    d_files d' !! job_path DATADIR 1 = Some (str "hello") /\
    queue (d_jobs d') ([] ++ [a]) ([] ++ [(1, accepted sample_header fl)]).
Proof.
  intros d. destruct (client_thread_accepts sample_strerror 1 7 (replicate 512 0) (replicate IOBUFSZ 0) d [] []
    sample_header (str "hello") [RTimeout] (idle_ready _)) as (d' & a & fl & E & _ & F & _ & Q & _).
  - split; reflexivity.
  - reflexivity.
  - reflexivity.
  - exists d', a, fl. split; [exact E|]. split; [exact F|exact Q].
Defined.

(** C4: whatever the client sends and whatever the disk does, the thread
    returns and a job exists completely or not at all: either the answer is
    a refusal, the spool directory and the queue are as before, or both files
    are there, the job is queued and the answer is its number. *)
Theorem client_thread_all_or_nothing strerror tid fd resmem bufmem d ads l :
  ready d ads l ->
  exists rc d', client_thread strerror tid fd resmem bufmem d = Ret rc d' /\
    ((rc = 1 /\ d_files d' = d_files d /\ queue (d_jobs d') ads l /\
      exists e, d_out d' = d_out d ++ [mk_resp (htonl e) 0 (strncpy MSGLEN_MAX (strerror (htonl e)))]) \/
     (rc = 0 /\ exists req doc a,
        d_files d' = <[job_path REQDIR (nextjob (d_jobs d)) := enc_req req]>
                       (<[job_path DATADIR (nextjob (d_jobs d)) := doc]> (d_files d)) /\
        queue (d_jobs d') (ads ++ [a]) (l ++ [(nextjob (d_jobs d), req)]) /\
        exists msg, d_out d' = d_out d ++ [mk_resp 0 (htonl (nextjob (d_jobs d))) msg])).
Proof.
  intros Hrdy. destruct (client_thread_run strerror tid fd resmem bufmem d ads l Hrdy) as (w1 & rc & d1 & E1 & E2 & W2 & E3).
  destruct Hrdy as [Q Ho Hn Hd Hr _ _ _].
  destruct (client_body_run strerror resmem bufmem (set_wq w1 d) ads l Q Ho Hn Hd Hr) as (rc' & d2 & E2' & _ & D).
  clear W2. rewrite E2 in E2'. simplify_eq. eexists rc', _. split; [exact E3|].
  destruct D as [(-> & F & Q' & [e O] & _)|(-> & h' & fl & doc' & d0 & _ & F0 & O0 & _ & (_ & F & [a Qa] & O) & _)].
  - left. split_and!; try done. by exists e.
  - right. split; [done|]. exists (accepted h' fl), doc', a. simpl. rewrite F, F0, O, O0. split_and!; try done. by eexists.
Qed.

Lemma client_thread_all_or_nothing_witness :
  let d := idle_daemon [RData [1; 2; 3]] in
  exists rc d', client_thread sample_strerror 1 7 (replicate 512 0) (replicate IOBUFSZ 0) d = Ret rc d' /\
    ((rc = 1 /\ d_files d' = ∅ /\ queue (d_jobs d') [] [] /\
      exists e, d_out d' = d_out d ++ [mk_resp (htonl e) 0 (strncpy MSGLEN_MAX (sample_strerror (htonl e)))]) \/
     (rc = 0 /\ exists req doc a,
        d_files d' = <[job_path REQDIR 1 := enc_req req]> (<[job_path DATADIR 1 := doc]> ∅) /\
        queue (d_jobs d') ([] ++ [a]) ([] ++ [(1, req)]) /\
        exists msg, d_out d' = d_out d ++ [mk_resp 0 (htonl 1) msg])).
Proof.
  intros d. exact (client_thread_all_or_nothing sample_strerror 1 7 (replicate 512 0) (replicate IOBUFSZ 0) d [] [] (idle_ready _)).
Defined.

(** The text of a refusal is that of the wrong error: [strerror] is
    applied to the error number in network byte order, so a client whose
    header is cut short is told about error 83886080 and not about EIO. *)
Theorem refusal_text_of_swapped_error strerror tid fd resmem bufmem d ads l b :
  ready d ads l -> arriving (n_in (d_net d)) = (b, []) -> (length b < REQSZ)%nat ->
  exists d', client_thread strerror tid fd resmem bufmem d = Ret 1 d' /\
    d_out d' = d_out d ++ [mk_resp 83886080 0 (strncpy MSGLEN_MAX (strerror 83886080))].
Proof.
  intros Hrdy Ha Hl. destruct (client_thread_run strerror tid fd resmem bufmem d ads l Hrdy) as (w1 & rc & d1 & E1 & E2 & W2 & E3).
  destruct (treadn_loop_spec REQSZ REQSZ [] (d_net d) b [] (le_n _) Ha) as (n1 & En & _).
  change (treadn_loop REQSZ REQSZ []) with (treadn REQSZ) in En. cbn [app stops_with_error andb] in En.
  apply Nat.leb_gt in Hl as Hl'. rewrite Hl' in En.
  unfold client_body in E2.
  rewrite (bind_run _ _ _ _ _ (zoom_run d_net set_net _ (set_wq w1 d) _ _ En)) in E2. rewrite bind_gets in E2.
  replace (length b =? REQSZ)%nat with false in E2 by (symmetry; apply Nat.eqb_neq; lia). cbn [negb] in E2.
  clear W2. unfold bind, refuse, modify, ret in E2. simplify_eq. eexists. split; [exact E3|]. reflexivity.
Qed.

Lemma refusal_text_of_swapped_error_witness :
  exists d', client_thread sample_strerror 1 7 (replicate 512 0) (replicate IOBUFSZ 0) (idle_daemon [RData [1; 2; 3]]) = Ret 1 d' /\
    d_out d' = [] ++ [mk_resp 83886080 0 (strncpy MSGLEN_MAX (str "Unknown error"))].
Proof.
  apply (refusal_text_of_swapped_error sample_strerror 1 7 (replicate 512 0) (replicate IOBUFSZ 0)
           (idle_daemon [RData [1; 2; 3]]) [] [] [1; 2; 3]).
  - apply idle_ready.
  - reflexivity.
  - vm_compute. lia.
Defined.

(** * Recovery *)
Section recovery.
Context (read_req : bytes -> option (Z + bytes)).
Implicit Types (d : daemon).

Record wf_req (r : printreq) : Prop := {
  wr_size : 0 <= rq_size r < 2 ^ 32;
  wr_flags : 0 <= rq_flags r < 2 ^ 32;
  wr_user : length (usernm r) = USERNM_MAX;
  wr_job : length (jobnm r) = JOBNM_MAX
}.

Lemma get_le32_le32 x r : 0 <= x < 2 ^ 32 -> get_le32 (le32 x ++ r) = x.
Proof.
  intros H. unfold get_le32, le32. cbn [app]. rewrite wrapu_small by done.
  change 255 with (Z.ones 8). rewrite !Z.land_ones, !Z.shiftr_div_pow2 by lia.
  change (2 ^ 8) with 256. change (2 ^ 16) with (256 * 256). change (2 ^ 24) with (256 * 256 * 256).
  rewrite <-!Z.div_div by lia. change (2 ^ 32) with (256 * 256 * 256 * 256) in H.
  pose proof (Z.div_mod x 256 ltac:(lia)). pose proof (Z.div_mod (x / 256) 256 ltac:(lia)).
  pose proof (Z.div_mod (x / 256 / 256) 256 ltac:(lia)).
  assert (0 <= x / 256 / 256 / 256 < 256).
  { rewrite !Z.div_div by lia. split; [apply Z.div_pos; lia|apply Z.div_lt_upper_bound; lia]. }
  rewrite (Z.mod_small (x / 256 / 256 / 256)) by lia. lia.
Qed.

Lemma dec_enc_req r : wf_req r -> dec_req (enc_req r) = r.
Proof.
  intros [Hs Hf Hu Hj]. unfold dec_req, enc_req, slice.
  rewrite get_le32_le32 by done.
  change (drop 4 (le32 (rq_size r) ++ ?x)) with x. rewrite get_le32_le32 by done.
  change (drop 8 (le32 (rq_size r) ++ le32 (rq_flags r) ++ ?x)) with x.
  change (drop 72 (le32 (rq_size r) ++ le32 (rq_flags r) ++ ?x)) with (drop 64 x).
  change 64%nat with USERNM_MAX. rewrite <-Hu, take_app_length, drop_app_length, <-Hj, firstn_all. by destruct r.
Qed.

Definition saved (j : Z * printreq) : Prop :=
  0 <= j.1 < 2 ^ 31 /\ wf_req j.2 /\ read_req (job_path REQDIR j.1) = Some (inr (enc_req j.2)).

Lemma qonstart_entry_run d ads l id r :
  saved (id, r) -> queue (d_jobs d) ads l -> j_oom (d_jobs d) = false ->
  exists d' a, qonstart_entry read_req (sdec id) d = Ret tt d' /\ queue (d_jobs d') (ads ++ [a]) (l ++ [(id, r)]) /\
    d_files d' = d_files d /\ j_oom (d_jobs d') = false.
Proof.
  intros (Hid & Hw & Hr) Q Ho. simpl in *.
  assert (sdec id = udec id) as Es by (unfold sdec; destruct (Z.ltb_spec id 0); [lia|done]).
  destruct (udec_spec id) as (Hne & Hd & Hv); [lia|].
  assert (cstr (udec id) = udec id) as Hc by (apply cstr_id; by apply digits_not).
  assert (forall b, isdigit (default 0 (head b)) = false -> cstr b = b -> streq (sdec id) b = false) as Hne2.
  { intros b Hb Hcb. unfold streq. rewrite Es, Hc, Hcb. apply bool_decide_eq_false. intros <-.
    destruct (udec id) as [|c u]; [done|]. inversion Hd. simpl in Hb. congruence. }
  unfold qonstart_entry. rewrite !Hne2 by done. cbn [orb].
  fold (job_path REQDIR id). rewrite Hr.
  assert ((FILENMSZ <=? length (job_path REQDIR id))%nat = false) as ->.
  { apply Nat.leb_gt. unfold job_path. rewrite !length_app, Es. pose proof (udec_length id 9 ltac:(simpl; lia)).
    unfold FILENMSZ. simpl. lia. }
  assert (length (enc_req r) = REQSZ) as ->.
  { unfold enc_req. rewrite !length_app, (wr_user _ Hw), (wr_job _ Hw). reflexivity. }
  rewrite Nat.eqb_refl, (dec_enc_req r Hw).
  assert (i32 (atol (sdec id)) = id) as ->.
  { rewrite Es, <-(app_nil_r (udec id)), atol_digits, Hv by done. rewrite clamp64_small by (unfold LONG_MAX; lia).
    apply wraps_small; lia. }
  destruct (add_job_run (d_jobs d) ads l r id Q Ho) as (s' & a & E & Q' & _ & (_ & _ & Ho') & _).
  exists (set_jobs s' d), a. split; [by apply zoom_run|]. split; [done|]. split; [done|]. simpl. by rewrite Ho'.
Qed.

Lemma build_qonstart_run d ads l jobs :
  Forall saved jobs -> queue (d_jobs d) ads l -> j_oom (d_jobs d) = false ->
  exists d' ads', build_qonstart read_req ((fun j => sdec j.1) <$> jobs) d = Ret tt d' /\
    queue (d_jobs d') ads' (l ++ jobs) /\ d_files d' = d_files d.
Proof.
  intros H. revert d ads l. induction H as [|[id r] jobs Hj _ IH]; intros d ads l Q Ho.
  - exists d, ads. rewrite app_nil_r. by split.
  - destruct (qonstart_entry_run d ads l id r Hj Q Ho) as (d1 & a & E1 & Q1 & F1 & O1).
    destruct (IH d1 _ _ Q1 O1) as (d2 & ads2 & E2 & Q2 & F2). exists d2, ads2.
    rewrite <-app_assoc in Q2. split; [|split; [done|congruence]].
    rewrite fmap_cons. cbn [build_qonstart fst]. by rewrite (bind_run _ _ _ _ _ E1).
Qed.
End recovery.

(** C5: a daemon that starts finds every job that was accepted and not
    printed: when the request files of the spool directory hold what
    [client_thread] wrote, [build_qonstart] queues exactly those jobs with
    their numbers, names and flags, in the order of the directory, and
    removes no file. *)
Theorem build_qonstart_recovers read_req d jobs :
  Forall (saved read_req) jobs -> queue (d_jobs d) [] [] -> j_oom (d_jobs d) = false ->
  exists d' ads, build_qonstart read_req (str "." :: str ".." :: ((fun j => sdec j.1) <$> jobs)) d = Ret tt d' /\
    queue (d_jobs d') ads jobs /\ d_files d' = d_files d.
Proof. intros H Q Ho. exact (build_qonstart_run read_req d [] [] jobs H Q Ho). Qed.

Definition sample_job : printreq := mk_req 5 1 (str "joe" ++ replicate 61 0) (str "f" ++ replicate 255 0).

Lemma build_qonstart_recovers_witness :
  exists d' ads, build_qonstart (fun _ => Some (inr (enc_req sample_job)))
      (str "." :: str ".." :: ((fun j => sdec j.1) <$> [(12, sample_job)])) (idle_daemon []) = Ret tt d' /\
    queue (d_jobs d') ads [(12, sample_job)] /\ d_files d' = ∅.
Proof.
  apply (build_qonstart_recovers (fun _ => Some (inr (enc_req sample_job))) (idle_daemon []) [(12, sample_job)]).
  - repeat constructor; discriminate.
  - apply idle_queue.
  - reflexivity.
Defined.
