(* ===== verification/PrintStatus.v ===== *)
(** The printer's answer in [printd.c]: [readmore] and [printer_status],
    which reads and parses the HTTP and IPP response.  The buffer is the
    memory [bp] points to; every access is checked against its size. *)
From Stdlib Require Import ZArith Lia.
From stdpp Require Import base list strings gmap numbers.
From S2P Require Import Prelude CString CFile PrintNet PrintClient.
Local Open Scope c_scope.

(** The buffer ([bufsz] is its length) and the socket. *)
Record pstat := mk_pstat { bp : bytes; p_net : net }.
Definition set_bp v s := mk_pstat v (p_net s).
Definition set_pnet v s := mk_pstat (bp s) v.

Definition HTTP_INFO (x : Z) : bool := (100 <=? x) && (x <=? 199).
Definition HTTP_SUCCESS (x : Z) : bool := (200 <=? x) && (x <=? 299).
Definition STATCLASS_OK (x : Z) : bool := (0 <=? x) && (x <=? 255).

(** [bp[i]] *)
Definition peek (i : nat) : M pstat Z :=
  let* b := gets bp in
  match b !! i with Some c => ret c | None => undef "read past the buffer" end.
(** [bp[i] = c] *)
Definition set_byte (i : nat) (c : Z) : M pstat unit :=
  let* b := gets bp in
  if (i <? length b)%nat then modify (set_bp (<[i := c]> b)) else undef "write past the buffer".

(** [while (p( *cp )) cp++;] from [i] *)
Fixpoint while_at (fuel : nat) (p : Z -> bool) (i : nat) : M pstat nat :=
  match fuel with
  | O => nofuel
  | S f => let* c := peek i in if p c then while_at f p (S i) else ret i
  end.
(** Such a loop stops at the end of the buffer at the latest. *)
Definition while_char (p : Z -> bool) (i : nat) : M pstat nat :=
  let* n := gets (fun s => S (length (bp s))) in while_at n p i.

(** [atoi(&bp[i])] *)
Definition atoi_at (i : nat) : M pstat Z := gets (fun s => atoi (cstr (drop i (bp s)))).

Definition tolower (c : Z) : Z := if (65 <=? c) && (c <=? 90) then c + 32 else c.
(** [strncasecmp(&bp[i], pat, strlen(pat)) == 0], byte by byte. *)
Fixpoint casecmp_at (i : nat) (pat : bytes) : M pstat bool :=
  match pat with
  | [] => ret true
  | p :: r =>
      let* c := peek i in
      if negb (tolower c =? tolower p) then ret false else casecmp_at (S i) r
  end.

Section status.
(** What the memory holds that [realloc] adds to the buffer. *)
Context (newmem : bytes).

(** [readmore]: the end of the data, or [None] for -1. *)
Definition readmore (off : nat) : M pstat (option nat) :=
  let* bsz := gets (fun s => length (bp s)) in
  (if (bsz <=? off)%nat then modify (fun s => set_bp (bp s ++ newmem) s) else skip) ;;;
  let* bsz := gets (fun s => length (bp s)) in
  let* r := zoom p_net set_pnet (tread (bsz - off)) in
  match r with
  | None | Some [] => ret None
  | Some bs =>
      modify (fun s => set_bp (splice off bs (bp s)) s) ;;;
      ret (Some (off + length bs)%nat)
  end.

(** [if (i >= datsz) { if ((nr = readmore(sfd, &bp, i, &bufsz)) < 0) goto out;
    ... datsz += nr; }]: the new [datsz], or [None] for the jump. *)
Definition more_header (i : nat) (datsz : Z) : M pstat (option Z) :=
  if datsz <=? Z.of_nat i then
    let* nr := readmore i in
    ret ((fun n => datsz + Z.of_nat n) <$> nr)
  else ret (Some datsz).

(** [while ( *cp != 'C' && *cp != 'c' && i < datsz) { cp++; i++; }]: [*cp] is
    read before [i] is compared. *)
Fixpoint skip_to_c (fuel i : nat) (datsz : Z) : M pstat nat :=
  match fuel with
  | O => nofuel
  | S f =>
      let* c := peek i in
      if negb (c =? 67) && negb (c =? 99) && (Z.of_nat i <? datsz) then skip_to_c f (S i) datsz else ret i
  end.

(** The search for the Content-Length header: [i], [datsz] and [len]. *)
Fixpoint content_loop (fuel i : nat) (datsz : Z) : M pstat (option (nat * Z * Z)) :=
  match fuel with
  | O => nofuel
  | S f =>
      let* n := gets (fun s => S (length (bp s))) in
      let* i := skip_to_c n i datsz in
      let* d := more_header i datsz in
      match d with
      | None => ret None
      | Some datsz =>
          let* eq := casecmp_at i (str "Content-Length:") in
          if eq : bool then
            let* i1 := while_char isspace (i + 15) in
            let* i2 := while_char isdigit i1 in
            set_byte i2 0 ;;;
            let* len := atoi_at i1 in
            ret (Some (S i2, datsz, len))
          else content_loop f (S i) datsz
      end
  end.

(** The inner loop of the search for the empty line. *)
Fixpoint end_inner (fuel i : nat) (datsz : Z) : M pstat (bool * nat) :=
  if Z.of_nat i <? datsz - 2 then
    match fuel with
    | O => nofuel
    | S f =>
        let* c0 := peek i in
        if negb (c0 =? c_nl) then end_inner f (S i) datsz
        else
          let* c1 := peek (i + 1) in
          if negb (c1 =? c_cr) then end_inner f (S i) datsz
          else
            let* c2 := peek (i + 2) in
            if negb (c2 =? c_nl) then end_inner f (S i) datsz
            else ret (true, (i + 3)%nat)
    end
  else ret (false, i).
Fixpoint end_loop (fuel i : nat) (datsz : Z) : M pstat (option (nat * Z)) :=
  match fuel with
  | O => nofuel
  | S f =>
      let* r := end_inner (Z.to_nat datsz) i datsz in
      let* d := more_header r.2 datsz in
      match d with
      | None => ret None
      | Some datsz => if r.1 : bool then ret (Some (r.2, datsz)) else end_loop f r.2 datsz
      end
  end.

(** The IPP status and request identifier at [i]. *)
Definition get_be (b : bytes) : Z := foldl (fun a c => a * 256 + c) 0 b.
Definition ipp_fields (i : nat) : M pstat (Z * Z) :=
  let* b := gets bp in
  if (i + 8 <=? length b)%nat
  then ret (get_be (slice (i + 2) 2 b), i32 (get_be (slice (i + 4) 4 b)))
  else undef "read past the buffer".

(** What one response leads to: leave the loop with this result, or go on. *)
Definition parse_response (fuel : nat) (datsz : Z) (jobid : Z) : M pstat (option bool) :=
  let* statcode := while_char isspace 8 in
  let* cp := while_char isdigit statcode in
  if (cp =? statcode)%nat then ret None
  else
    set_byte cp 0 ;;;
    let* cp := while_char (fun c => negb (c =? c_cr) && negb (c =? c_nl)) (S cp) in
    set_byte cp 0 ;;;
    let* code := atoi_at statcode in
    if HTTP_INFO code then ret None
    else if negb (HTTP_SUCCESS code) then set_byte (Z.to_nat datsz) 0 ;;; ret (Some false)
    else
      let* c := content_loop fuel cp datsz in
      match c with
      | None => ret (Some false)
      | Some (i, datsz, len) =>
          let* d := more_header i datsz in
          match d with
          | None => ret (Some false)
          | Some datsz =>
              let* e := end_loop fuel i datsz in
              match e with
              | None => ret (Some false)
              | Some (i, datsz) =>
                  let* ok := (if datsz - Z.of_nat i <? len then
                                let* nr := readmore i in ret (match nr with None => false | Some _ => true end)
                              else ret true) in
                  if negb ok then ret (Some false)
                  else
                    let* f := ipp_fields i in
                    if negb (f.2 =? jobid) then ret (Some false)
                    else ret (Some (STATCLASS_OK f.1))
              end
          end
      end.

(** [printer_status] for the job of number [jobid]; [mem] is the memory of
    the first buffer. *)
Fixpoint status_loop (fuel : nat) (jobid : Z) : M pstat bool :=
  match fuel with
  | O => nofuel
  | S f =>
      let* bufsz := gets (fun s => length (bp s)) in
      let* r := zoom p_net set_pnet (tread bufsz) in
      match r with
      | None | Some [] => ret false
      | Some bs =>
          modify (fun s => set_bp (splice 0 bs (bp s)) s) ;;;
          let* p := parse_response f (Z.of_nat (length bs)) jobid in
          match p with
          | Some success => ret success
          | None => status_loop f jobid
          end
      end
  end.
Definition printer_status (fuel : nat) (mem : bytes) (jobid : Z) (n : net) : outcome pstat bool :=
  status_loop fuel jobid (mk_pstat mem n).
End status.

(** * Scanning *)

(** [pat] is a prefix of [b] up to case. *)
Fixpoint ci_prefix (pat b : bytes) : bool :=
  match pat, b with
  | [], _ => true
  | p :: pr, c :: r => (tolower c =? tolower p) && ci_prefix pr r
  | _, [] => false
  end.

Section scanning.
Implicit Types (s : pstat) (a m r b : bytes) (i k : nat).

Lemma peek_run s i c : bp s !! i = Some c -> peek i s = Ret c s.
Proof. intros E. unfold peek. step. by rewrite E. Qed.

Lemma peek_mid s a c r : bp s = a ++ c :: r -> peek (length a) s = Ret c s.
Proof. intros E. apply peek_run. rewrite E. by apply list_lookup_middle. Qed.

Lemma set_byte_mid s a c c' r n :
  bp s = a ++ c :: r -> n = length a -> set_byte n c' s = Ret tt (set_bp (a ++ c' :: r) s).
Proof.
  intros E ->. unfold set_byte. step. rewrite E.
  replace (length a <? length (a ++ c :: r))%nat with true
    by (symmetry; apply Nat.ltb_lt; rewrite length_app; simpl; lia).
  unfold modify. by rewrite insert_app_r_alt, Nat.sub_diag by lia.
Qed.

Lemma while_at_run fuel p s a m c r :
  bp s = a ++ m ++ c :: r -> Forall (fun x => p x = true) m -> p c = false -> (length m < fuel)%nat ->
  while_at fuel p (length a) s = Ret (length a + length m)%nat s.
Proof.
  revert fuel a. induction m as [|x m IH]; intros [|fuel] a E H Hc Hf; try (simpl in Hf; lia); cbn [while_at].
  - simpl in E. rewrite (bind_run _ _ _ _ _ (peek_mid s a c r E)), Hc. by rewrite Nat.add_0_r.
  - inversion H as [|? ? Hx Hm]; subst. cbn [app] in E. rewrite (bind_run _ _ _ _ _ (peek_mid s a x _ E)), Hx.
    replace (S (length a)) with (length (a ++ [x])) by (rewrite length_app; simpl; lia).
    rewrite IH; [|by rewrite <-app_assoc|done|done|simpl in Hf; lia].
    rewrite length_app. simpl. f_equal. lia.
Qed.

Lemma while_char_run p s a m c r n :
  bp s = a ++ m ++ c :: r -> Forall (fun x => p x = true) m -> p c = false -> n = length a ->
  while_char p n s = Ret (n + length m)%nat s.
Proof.
  intros E H Hc ->. unfold while_char. step. eapply while_at_run; [exact E|done|done|].
  rewrite E, !length_app. simpl. lia.
Qed.

Lemma casecmp_run s i pat :
  (i + length pat <= length (bp s))%nat -> casecmp_at i pat s = Ret (ci_prefix pat (drop i (bp s))) s.
Proof.
  revert i. induction pat as [|p pat IH]; intros i H; [done|]. cbn [casecmp_at]. simpl in H.
  destruct (lookup_lt_is_Some_2 (bp s) i) as [c Hc]; [lia|].
  rewrite (bind_run _ _ _ _ _ (peek_run s i c Hc)), (drop_S _ c i Hc). cbn [ci_prefix].
  destruct (tolower c =? tolower p); cbn [negb andb]; [apply IH; lia|done].
Qed.

(** From [i] the loop stops at a 'C' or 'c', at [k] at the latest when there
    is one there. *)
Lemma skip_to_c_run fuel s i k datsz c :
  (i <= k)%nat -> bp s !! k = Some c -> (c = 67 \/ c = 99) -> Z.of_nat k < datsz -> (k - i < fuel)%nat ->
  exists j, (i <= j <= k)%nat /\ skip_to_c fuel i datsz s = Ret j s.
Proof.
  revert i. induction fuel as [|fuel IH]; intros i Hik Hk Hc Hd Hf; [lia|]. cbn [skip_to_c].
  destruct (lookup_lt_is_Some_2 (bp s) i) as [x Hx]; [apply lookup_lt_Some in Hk; lia|].
  rewrite (bind_run _ _ _ _ _ (peek_run s i x Hx)).
  destruct (negb (x =? 67) && negb (x =? 99) && (Z.of_nat i <? datsz)) eqn:E.
  - assert (i <> k).
    { intros ->. rewrite Hx in Hk. simplify_eq. destruct Hc; subst; done. }
    destruct (IH (S i)) as (j & Hj & Ej); [lia|done|done|done|lia|]. exists j. split; [lia|done].
  - exists i. split; [lia|done].
Qed.

Lemma end_inner_run fuel s a x r datsz :
  bp s = a ++ [c_nl; c_cr; c_nl] ++ r -> (x <= length a)%nat ->
  (forall j, (x <= j < length a)%nat -> take 3 (drop j (bp s)) <> [c_nl; c_cr; c_nl]) ->
  Z.of_nat (length a) < datsz - 2 -> (length a - x < fuel)%nat ->
  end_inner fuel x datsz s = Ret (true, (length a + 3)%nat) s.
Proof.
  revert x. induction fuel as [|fuel IH]; intros x E Hx Hno Hd Hf; [lia|]. cbn [end_inner].
  destruct (Z.ltb_spec (Z.of_nat x) (datsz - 2)); [|lia].
  assert (forall k, (k < 3)%nat -> is_Some (bp s !! (x + k)%nat)) as Hk.
  { intros k Hk. apply lookup_lt_is_Some_2. rewrite E, !length_app. simpl. lia. }
  destruct (Hk 0%nat) as [c0 H0]; [lia|]. destruct (Hk 1%nat) as [c1 H1]; [lia|]. destruct (Hk 2%nat) as [c2 H2]; [lia|].
  rewrite Nat.add_0_r in H0.
  assert (take 3 (drop x (bp s)) = [c0; c1; c2]) as Ht.
  { rewrite (drop_S _ c0 x H0), (drop_S _ c1 (S x)) by (by replace (S x) with (x + 1)%nat by lia).
    rewrite (drop_S _ c2 (S (S x))) by (by replace (S (S x)) with (x + 2)%nat by lia). done. }
  rewrite (bind_run _ _ _ _ _ (peek_run s x c0 H0)).
  assert (x = length a \/ end_inner fuel (S x) datsz s = Ret (true, (length a + 3)%nat) s) as Hrec.
  { destruct (decide (x = length a)); [by left|right]. apply IH; [done|lia| |done|lia].
    intros j Hj. apply Hno. lia. }
  assert (x = length a -> c0 = c_nl /\ c1 = c_cr /\ c2 = c_nl) as Heq.
  { intros ->. rewrite E, drop_app_length in Ht. simpl in Ht. by simplify_eq. }
  destruct (Z.eqb_spec c0 c_nl) as [->|N0]; cbn [negb]; [|destruct Hrec as [Hx'|]; [by destruct (Heq Hx')|done]].
  rewrite (bind_run _ _ _ _ _ (peek_run s (x + 1) c1 H1)).
  destruct (Z.eqb_spec c1 c_cr) as [->|N1]; cbn [negb]; [|destruct Hrec as [Hx'|]; [by destruct (Heq Hx') as (_ & ? & _)|done]].
  rewrite (bind_run _ _ _ _ _ (peek_run s (x + 2) c2 H2)).
  destruct (Z.eqb_spec c2 c_nl) as [->|N2]; cbn [negb]; [|destruct Hrec as [Hx'|]; [by destruct (Heq Hx') as (_ & _ & ?)|done]].
  destruct (decide (x = length a)) as [->|Hne]; [done|]. exfalso. apply (Hno x); [lia|done].
Qed.

(** The search stops for no reason before the end of the data. *)
Lemma end_loop_spins newmem fuel i datsz s :
  datsz - 2 <= Z.of_nat i < datsz -> end_loop newmem fuel i datsz s = NoFuel.
Proof.
  intros H. induction fuel as [|fuel IH]; [done|]. cbn [end_loop].
  assert (end_inner (Z.to_nat datsz) i datsz s = Ret (false, i) s) as E.
  { destruct (Z.to_nat datsz); cbn [end_inner]; destruct (Z.ltb_spec (Z.of_nat i) (datsz - 2)); (lia || done). }
  rewrite (bind_run _ _ _ _ _ E). unfold more_header. simpl. destruct (Z.leb_spec datsz (Z.of_nat i)); [lia|].
  exact IH.
Qed.

Lemma tolower_c c : tolower c = 99 -> c = 67 \/ c = 99.
Proof. unfold tolower. destruct ((65 <=? c) && (c <=? 90)) eqn:E; lia. Qed.

Lemma ci_prefix_c b : ci_prefix (str "Content-Length:") b = true -> exists c r, b = c :: r /\ (c = 67 \/ c = 99).
Proof.
  destruct b as [|c r]; [done|]. cbn [ci_prefix str]. intros [H _]%andb_true_iff. exists c, r. split; [done|].
  apply tolower_c. apply Z.eqb_eq in H. rewrite H. reflexivity.
Qed.

Lemma digit_not_space c : isdigit c = true -> isspace c = false.
Proof. unfold isdigit, isspace. intros H. destruct ((c =? 32) || ((9 <=? c) && (c <=? 13))) eqn:E; lia. Qed.

(** The number after the header name, and the byte after it overwritten. *)
Lemma number_run s a sp digs y r n :
  bp s = a ++ sp ++ digs ++ y :: r -> n = length a ->
  Forall (fun x => isspace x = true) sp -> digs <> [] -> Forall (fun x => isdigit x = true) digs -> isdigit y = false ->
  (let* i1 := while_char isspace n in
   let* i2 := while_char isdigit i1 in
   set_byte i2 0 ;;; let* len := atoi_at i1 in ret (i2, len)) s =
  Ret ((n + length sp + length digs)%nat, i32 (clamp64 (dval 0 digs))) (set_bp (a ++ sp ++ digs ++ 0 :: r) s).
Proof.
  intros E -> Hsp Hne Hd Hy. destruct digs as [|d digs]; [done|]. pose proof Hd as Hd'. inversion Hd' as [|? ? Hd0 _]; subst.
  cbn [app] in E. rewrite (bind_run _ _ _ _ _ (while_char_run _ s a sp d _ _ E Hsp (digit_not_space _ Hd0) eq_refl)).
  assert (bp s = (a ++ sp) ++ (d :: digs) ++ y :: r) as E2 by (rewrite <-app_assoc; done).
  rewrite (bind_run _ _ _ _ _ (while_char_run _ s (a ++ sp) (d :: digs) y r _ E2 Hd Hy ltac:(by rewrite length_app))).
  assert (bp s = ((a ++ sp) ++ d :: digs) ++ y :: r) as E3 by (rewrite <-app_assoc; done).
  rewrite (bind_run _ _ _ _ _ (set_byte_mid s _ y 0 r _ E3 ltac:(by rewrite !length_app))).
  unfold atoi_at. step. unfold ret. cbn [bp set_bp]. unfold atoi.
  rewrite <-app_assoc, <-length_app, drop_app_length, cstr_app_nul.
  2:{ eapply Forall_impl; [|exact Hd]. simpl. intros x Hx ->. done. }
  rewrite <-(app_nil_r (d :: digs)) at 2. rewrite (atol_digits (d :: digs) []) by done.
  f_equal. by rewrite <-!app_assoc.
Qed.

Lemma content_loop_run newmem fuel s i pre cl sp digs y r datsz :
  bp s = pre ++ cl ++ sp ++ digs ++ y :: r -> length cl = 15%nat ->
  ci_prefix (str "Content-Length:") (cl ++ sp ++ digs ++ y :: r) = true -> (i <= length pre)%nat ->
  (forall j, (i <= j < length pre)%nat -> ci_prefix (str "Content-Length:") (drop j (bp s)) = false) ->
  Z.of_nat (length pre) < datsz ->
  Forall (fun x => isspace x = true) sp -> digs <> [] -> Forall (fun x => isdigit x = true) digs -> isdigit y = false ->
  (length pre - i < fuel)%nat ->
  content_loop newmem fuel i datsz s =
    Ret (Some (S (length pre + 15 + length sp + length digs), datsz, i32 (clamp64 (dval 0 digs))))
      (set_bp (pre ++ cl ++ sp ++ digs ++ 0 :: r) s).
Proof.
  intros E Hcl Hci Hi Hno Hd Hsp Hne Hdg Hy. revert i Hi Hno. induction fuel as [|fuel IH]; intros i Hi Hno Hf; [lia|].
  cbn [content_loop]. step.
  destruct (ci_prefix_c _ Hci) as (c & cr & Hc & Hcc).
  assert (bp s !! length pre = Some c) as Hk by (rewrite E, Hc; by apply list_lookup_middle).
  assert (length pre + 15 <= length (bp s))%nat as Hlen by (rewrite E, !length_app; lia).
  destruct (skip_to_c_run (S (length (bp s))) s i (length pre) datsz c Hi Hk Hcc Hd) as (j & Hj & Ej); [lia|].
  rewrite (bind_run _ _ _ _ _ Ej). unfold more_header at 1. destruct (Z.leb_spec datsz (Z.of_nat j)); [lia|].
  rewrite (bind_run (ret (Some datsz)) _ s _ s eq_refl).
  rewrite (bind_run _ _ _ _ _ (casecmp_run s j (str "Content-Length:") ltac:(simpl; lia))).
  destruct (decide (j = length pre)) as [->|Hjk].
  - rewrite E, drop_app_length, Hci.
    assert (bp s = (pre ++ cl) ++ sp ++ digs ++ y :: r) as E2 by (by rewrite <-app_assoc).
    pose proof (number_run s (pre ++ cl) sp digs y r (length pre + 15) E2 ltac:(rewrite length_app; lia) Hsp Hne Hdg Hy) as N.
    unfold bind in N |- *. destruct (while_char isspace (length pre + 15) s) as [i1 s1| | |]; try done.
    destruct (while_char isdigit i1 s1) as [i2 s2| | |]; try done.
    destruct (set_byte i2 0 s2) as [[] s3| | |]; try done.
    destruct (atoi_at i1 s3) as [len s4| | |]; try done. unfold ret in *. simplify_eq. by rewrite <-!app_assoc.
  - rewrite Hno by lia. rewrite (IH (S j)) by (first [lia | intros; apply Hno; lia]). done.
Qed.
End scanning.

(** * A whole response *)

(** A response in its parts: the version, the status code and reason, the
    headers before Content-Length, its value, the headers after it up to the
    empty line, and the body. *)
Record response := mk_response {
  r_version : bytes;   (* HTTP/x.y *)
  r_gap : bytes;
  r_code : bytes;
  r_sep : Z;           (* the byte after the code *)
  r_reason : bytes;
  r_eol : Z;           (* the first byte of the end of the line *)
  r_before : bytes;
  r_name : bytes;      (* Content-Length: in any case *)
  r_gap2 : bytes;
  r_len : bytes;
  r_sep2 : Z;
  r_after : bytes;
  r_body : bytes
}.
Definition eoh : bytes := [c_nl; c_cr; c_nl].
Definition response_text (p : response) : bytes :=
  r_version p ++ r_gap p ++ r_code p ++ r_sep p :: r_reason p ++ r_eol p :: r_before p ++
  r_name p ++ r_gap2 p ++ r_len p ++ r_sep2 p :: r_after p ++ eoh ++ r_body p.

(** [pat] occurs in [b ++ pat'] nowhere before the end of [b]. *)
Definition no_match (f : bytes -> bool) (b c : bytes) : Prop :=
  forall j, (j < length b)%nat -> f (drop j (b ++ c)) = false.
Definition is_eoh (b : bytes) : bool := bool_decide (take 3 b = eoh).

Record wf_response (p : response) : Prop := {
  wf_version : length (r_version p) = 8%nat;
  wf_gap : Forall (fun x => isspace x = true) (r_gap p);
  wf_code : Forall (fun x => isdigit x = true) (r_code p) /\ 200 <= dval 0 (r_code p) <= 299;
  wf_sep : isdigit (r_sep p) = false;
  wf_reason : Forall (fun x => x <> c_cr /\ x <> c_nl) (r_reason p);
  wf_eol : r_eol p = c_cr \/ r_eol p = c_nl;
  wf_name : length (r_name p) = 15%nat /\ ci_prefix (str "Content-Length:") (r_name p) = true;
  wf_before : no_match (ci_prefix (str "Content-Length:")) (r_before p) (r_name p);
  wf_gap2 : Forall (fun x => isspace x = true) (r_gap2 p);
  wf_lend : r_len p <> [] /\ Forall (fun x => isdigit x = true) (r_len p);
  wf_sep2 : isdigit (r_sep2 p) = false;
  wf_after : no_match is_eoh (r_after p) eoh;
  wf_body : (8 <= length (r_body p))%nat /\ dval 0 (r_len p) <= Z.of_nat (length (r_body p)) < 2 ^ 31
}.

(** What the body says about the job. *)
Definition ipp_status (b : bytes) : Z := get_be (slice 2 2 b).
Definition ipp_request_id (b : bytes) : Z := i32 (get_be (slice 4 4 b)).

Section whole.
Implicit Types (s : pstat) (p : response).

Lemma ci_prefix_app pat b z : (length pat <= length b)%nat -> ci_prefix pat (b ++ z) = ci_prefix pat b.
Proof.
  revert b. induction pat as [|q pat IH]; intros b H; [done|]. destruct b as [|c b]; [simpl in H; lia|].
  simpl in *. rewrite IH by lia. done.
Qed.

Lemma dval_nonempty b : dval 0 b <> 0 -> b <> [].
Proof. by intros H ->. Qed.

Lemma dval_nonneg acc b : 0 <= acc -> Forall (fun x => isdigit x = true) b -> 0 <= dval acc b.
Proof.
  intros Ha H. revert acc Ha. induction H as [|x b Hx _ IH]; intros acc Ha; simpl; [done|].
  apply IH. unfold isdigit in Hx. lia.
Qed.

Lemma not_eol x : x <> c_cr -> x <> c_nl -> negb (x =? c_cr) && negb (x =? c_nl) = true.
Proof. intros H1 H2. apply Z.eqb_neq in H1, H2. by rewrite H1, H2. Qed.

Lemma response_text_app p tail :
  response_text p ++ tail = r_version p ++ r_gap p ++ r_code p ++ r_sep p :: r_reason p ++ r_eol p ::
    (r_before p ++ r_name p ++ r_gap2 p ++ r_len p ++ r_sep2 p :: r_after p ++ eoh ++ r_body p ++ tail).
Proof. unfold response_text. repeat (rewrite <-!app_assoc; cbn [app]). done. Qed.

(** After the status line: the bytes that end the code and the reason are
    overwritten, and the search for Content-Length starts at the second. *)
Lemma status_line_run newmem fuel s p tail datsz jobid :
  wf_response p -> bp s = response_text p ++ tail ->
  let h := r_version p ++ r_gap p ++ r_code p ++ 0 :: r_reason p in
  let rest := r_before p ++ r_name p ++ r_gap2 p ++ r_len p ++ r_sep2 p :: r_after p ++ eoh ++ r_body p ++ tail in
  let s1 := set_bp (h ++ 0 :: rest) s in
  parse_response newmem fuel datsz jobid s =
    (let* c := content_loop newmem fuel (length h) datsz in
      match c with
      | None => ret (Some false)
      | Some (i, datsz, len) =>
          let* d := more_header newmem i datsz in
          match d with
          | None => ret (Some false)
          | Some datsz =>
              let* e := end_loop newmem fuel i datsz in
              match e with
              | None => ret (Some false)
              | Some (i, datsz) =>
                  let* ok := (if datsz - Z.of_nat i <? len then
                                let* nr := readmore newmem i in ret (match nr with None => false | Some _ => true end)
                              else ret true) in
                  if negb ok then ret (Some false)
                  else
                    let* f := ipp_fields i in
                    if negb (f.2 =? jobid) then ret (Some false)
                    else ret (Some (STATCLASS_OK f.1))
              end
          end
      end) s1.
Proof.
  intros W E h rest s1. destruct W as [W1 W2 [W3 W3'] W4 W5 W6 _ _ _ _ _ _ _].
  rewrite response_text_app in E. fold rest in E. unfold parse_response.
  assert (exists d ds, r_code p = d :: ds) as (d & ds & Ec).
  { destruct (r_code p); [simpl in W3'; lia|eauto]. }
  assert (isdigit d = true) as Hd by (rewrite Ec in W3; by inversion W3).
  assert (bp s = r_version p ++ r_gap p ++ d :: (ds ++ r_sep p :: r_reason p ++ r_eol p :: rest)) as E1.
  { by rewrite E, Ec. }
  rewrite (bind_run _ _ _ _ _ (while_char_run _ s _ _ d _ 8 E1 W2 (digit_not_space _ Hd) (eq_sym W1))).
  assert (bp s = (r_version p ++ r_gap p) ++ r_code p ++ r_sep p :: r_reason p ++ r_eol p :: rest) as E2.
  { rewrite E1, Ec, <-!app_assoc. done. }
  assert ((8 + length (r_gap p))%nat = length (r_version p ++ r_gap p)) as L2 by (rewrite length_app; lia).
  rewrite (bind_run _ _ _ _ _ (while_char_run _ s _ _ (r_sep p) _ _ E2 W3 W4 L2)).
  destruct (Nat.eqb_spec (8 + length (r_gap p) + length (r_code p)) (8 + length (r_gap p))) as [X|_];
    [rewrite Ec in X; simpl in X; lia|].
  assert (bp s = ((r_version p ++ r_gap p) ++ r_code p) ++ r_sep p :: r_reason p ++ r_eol p :: rest) as E3 by (by rewrite <-app_assoc).
  assert ((8 + length (r_gap p) + length (r_code p))%nat = length ((r_version p ++ r_gap p) ++ r_code p)) as L3
    by (rewrite !length_app; lia).
  rewrite (bind_run _ _ _ _ _ (set_byte_mid s _ _ 0 _ _ E3 L3)).
  set (s2 := set_bp _ s).
  assert (bp s2 = (((r_version p ++ r_gap p) ++ r_code p) ++ [0]) ++ r_reason p ++ r_eol p :: rest) as E4 by (by rewrite <-app_assoc).
  assert (S (8 + length (r_gap p) + length (r_code p)) = length (((r_version p ++ r_gap p) ++ r_code p) ++ [0])) as L4
    by (rewrite !length_app; simpl; lia).
  rewrite (bind_run _ _ _ _ _ (while_char_run _ s2 _ _ (r_eol p) _ _ E4
    ltac:(eapply Forall_impl; [|exact W5]; simpl; intros x [? ?]; by apply not_eol)
    ltac:(destruct W6 as [-> | ->]; reflexivity) L4)).
  assert (bp s2 = h ++ r_eol p :: rest) as E5 by (rewrite E4; unfold h; by rewrite <-!app_assoc).
  assert ((S (8 + length (r_gap p) + length (r_code p)) + length (r_reason p))%nat = length h) as L5
    by (unfold h; rewrite !length_app; simpl; lia).
  rewrite (bind_run _ _ _ _ _ (set_byte_mid s2 _ _ 0 _ _ E5 L5)). change (set_bp (h ++ 0 :: rest) s2) with s1.
  assert (atoi_at (8 + length (r_gap p)) s1 = Ret (dval 0 (r_code p)) s1) as E6.
  { unfold atoi_at, gets. f_equal. unfold s1. cbn [bp set_bp]. unfold h.
    replace ((r_version p ++ r_gap p ++ r_code p ++ 0 :: r_reason p) ++ 0 :: rest)
      with ((r_version p ++ r_gap p) ++ r_code p ++ 0 :: r_reason p ++ 0 :: rest) by (repeat (rewrite <-!app_assoc; cbn [app]); done).
    rewrite L2, drop_app_length, cstr_app_nul.
    2:{ eapply Forall_impl; [|exact W3]. simpl. by intros x Hx ->. }
    unfold atoi. rewrite <-(app_nil_r (r_code p)), atol_digits; [|by rewrite Ec|done|done].
    rewrite app_nil_r, clamp64_small by (unfold LONG_MAX; lia). apply wraps_small; lia. }
  rewrite (bind_run _ _ _ _ _ E6), L5.
  unfold HTTP_INFO, HTTP_SUCCESS.
  destruct (Z.leb_spec (dval 0 (r_code p)) 199); [lia|]. rewrite andb_false_r.
  destruct (Z.leb_spec 200 (dval 0 (r_code p))); [|lia]. destruct (Z.leb_spec (dval 0 (r_code p)) 299); [|lia].
  reflexivity.
Qed.

(** No header between the status line and Content-Length looks like it. *)
Lemma before_no_match p (h z : bytes) j :
  wf_response p -> (length h <= j < length (h ++ 0%Z :: r_before p))%nat ->
  ci_prefix (str "Content-Length:") (drop j (h ++ 0 :: r_before p ++ r_name p ++ z)) = false.
Proof.
  intros W Hj. rewrite length_app in Hj. simpl in Hj. rewrite drop_app_ge by lia.
  destruct (j - length h)%nat as [|n] eqn:En; [done|]. cbn [drop].
  assert (n < length (r_before p))%nat as Hn by lia.
  rewrite app_assoc, drop_app_le by (rewrite length_app; lia).
  rewrite ci_prefix_app; [by apply (wf_before _ W)|].
  rewrite length_drop, length_app, (proj1 (wf_name _ W)). simpl. lia.
Qed.

Lemma after_no_match p (h z : bytes) j :
  wf_response p -> (length h <= j < length (h ++ r_after p))%nat ->
  take 3 (drop j (h ++ r_after p ++ eoh ++ z)) <> eoh.
Proof.
  intros W Hj. rewrite length_app in Hj. rewrite drop_app_ge by lia.
  pose proof (wf_after _ W (j - length h)%nat ltac:(lia)) as H. unfold is_eoh in H. apply bool_decide_eq_false in H.
  rewrite app_assoc, drop_app_le by (rewrite length_app; lia). rewrite take_app_le; [done|].
  rewrite length_drop, length_app. simpl. lia.
Qed.

Lemma slice_body (a b tail : bytes) (i n : nat) :
  (i + n <= length b)%nat -> slice (length a + i) n (a ++ b ++ tail) = slice i n b.
Proof.
  intros H. unfold slice. rewrite <-drop_drop, drop_app_length.
  rewrite drop_app_le by lia. rewrite take_app_le; [done|]. rewrite length_drop. lia.
Qed.

Lemma parse_response_run newmem fuel s p tail jobid :
  wf_response p -> bp s = response_text p ++ tail -> (length (response_text p) < fuel)%nat ->
  exists s', parse_response newmem fuel (Z.of_nat (length (response_text p))) jobid s =
    Ret (Some ((ipp_request_id (r_body p) =? jobid) && STATCLASS_OK (ipp_status (r_body p)))) s'.
Proof.
  intros W E Hf. pose proof W as [W1 _ _ _ _ _ [W7 W7'] W8 W9 [W10 W10'] W11 W12 [W13 W13']].
  rewrite (status_line_run newmem fuel s p tail _ jobid W E). cbv zeta.
  set (h := r_version p ++ r_gap p ++ r_code p ++ 0 :: r_reason p).
  set (datsz := Z.of_nat (length (response_text p))). set (s1 := set_bp _ s).
  set (pre := h ++ 0 :: r_before p).
  set (tl := r_after p ++ eoh ++ r_body p ++ tail).
  assert (bp s1 = pre ++ r_name p ++ r_gap2 p ++ r_len p ++ r_sep2 p :: tl) as E1.
  { unfold s1, pre. cbn [bp set_bp]. rewrite <-app_assoc. done. }
  set (a := pre ++ r_name p ++ r_gap2 p ++ r_len p ++ [0]).
  assert (length (response_text p) = length a + length (r_after p) + 3 + length (r_body p))%nat as Hsz.
  { unfold a, pre, h, response_text. repeat (rewrite !length_app; cbn [length]). simpl. lia. }
  assert (length a = S (length pre + 15 + length (r_gap2 p) + length (r_len p))) as La.
  { unfold a. rewrite !length_app. simpl. lia. }
  pose proof (dval_nonneg 0 (r_len p) ltac:(lia) W10') as Hlen.
  assert (i32 (clamp64 (dval 0 (r_len p))) = dval 0 (r_len p)) as Hval.
  { rewrite clamp64_small by (unfold LONG_MAX; lia). apply wraps_small; lia. }
  assert (content_loop newmem fuel (length h) datsz s1 = Ret (Some (length a, datsz, dval 0 (r_len p)))
    (set_bp (a ++ tl) s1)) as E2.
  { rewrite (content_loop_run newmem fuel s1 (length h) pre (r_name p) (r_gap2 p) (r_len p) (r_sep2 p) tl datsz E1 W7);
      [|by rewrite ci_prefix_app by (simpl; lia)|unfold pre; rewrite length_app; simpl; lia| |
       unfold datsz; lia|done|done|done|done|lia].
    - rewrite La, Hval. unfold a. by rewrite <-!app_assoc.
    - intros j Hj. rewrite E1. unfold pre. rewrite <-app_assoc. cbn [app]. by apply before_no_match. }
  rewrite (bind_run _ _ _ _ _ E2). unfold more_header at 1.
  destruct (Z.leb_spec datsz (Z.of_nat (length a))); [unfold datsz in *; lia|].
  set (s2 := set_bp (a ++ tl) s1). rewrite (bind_run (ret (Some datsz)) _ s2 _ s2 eq_refl).
  assert (bp s2 = (a ++ r_after p) ++ eoh ++ r_body p ++ tail) as E3 by (unfold s2, tl; cbn [bp set_bp]; by rewrite <-app_assoc).
  assert (end_loop newmem fuel (length a) datsz s2 = Ret (Some ((length (a ++ r_after p) + 3)%nat, datsz)) s2) as E4.
  { destruct fuel as [|fuel]; [lia|]. cbn [end_loop].
    rewrite (bind_run _ _ _ _ _ (end_inner_run (Z.to_nat datsz) s2 (a ++ r_after p) (length a) (r_body p ++ tail) datsz E3
      ltac:(rewrite length_app; lia)
      ltac:(intros j Hj; rewrite E3, <-app_assoc; by apply after_no_match)
      ltac:(rewrite length_app; unfold datsz; lia) ltac:(rewrite length_app; unfold datsz; lia))).
    unfold more_header. cbn [fst snd].
    destruct (Z.leb_spec datsz (Z.of_nat (length (a ++ r_after p) + 3))) as [X|X]; [rewrite length_app in X; unfold datsz in X; lia|].
    reflexivity. }
  rewrite (bind_run _ _ _ _ _ E4). rewrite length_app.
  destruct (Z.ltb_spec (datsz - Z.of_nat (length a + length (r_after p) + 3)) (dval 0 (r_len p))); [unfold datsz in *; lia|].
  rewrite (bind_run (ret true) _ s2 _ s2 eq_refl). cbn [negb].
  set (a3 := (a ++ r_after p) ++ eoh).
  assert ((length a + length (r_after p) + 3)%nat = length a3) as -> by (unfold a3; rewrite !length_app; simpl; lia).
  assert (bp s2 = a3 ++ r_body p ++ tail) as E5 by (unfold a3; by rewrite <-app_assoc).
  assert (ipp_fields (length a3) s2 = Ret (ipp_status (r_body p), ipp_request_id (r_body p)) s2) as E6.
  { unfold ipp_fields. step. rewrite E5. replace (length a3 + 8 <=? length (a3 ++ r_body p ++ tail))%nat with true
      by (symmetry; apply Nat.leb_le; rewrite !length_app; lia).
    rewrite !slice_body by lia. reflexivity. }
  exists s2. rewrite (bind_run _ _ _ _ _ E6). cbn [fst snd].
  by destruct (ipp_request_id (r_body p) =? jobid).
Qed.
End whole.

Lemma status_one_run newmem fuel mem jobid p rest :
  wf_response p -> (length (response_text p) <= length mem)%nat -> (length (response_text p) + 1 < fuel)%nat ->
  exists s', printer_status newmem fuel mem jobid (mk_net (RData (response_text p) :: rest) 0) =
    Ret ((ipp_request_id (r_body p) =? jobid) && STATCLASS_OK (ipp_status (r_body p))) s'.
Proof.
  intros W Hm Hf. unfold printer_status. destruct fuel as [|fuel]; [lia|]. cbn [status_loop]. step. cbn [bp].
  assert (tread (length mem) (mk_net (RData (response_text p) :: rest) 0) = Ret (Some (response_text p)) (mk_net rest 0)) as E.
  { unfold tread. cbn [n_in]. apply Nat.leb_le in Hm. by rewrite Hm. }
  rewrite (bind_run _ _ _ _ _ (zoom_run p_net set_pnet _ (mk_pstat mem _) _ _ E)).
  assert (response_text p <> []) as Hne.
  { intros X. apply (f_equal length) in X. unfold response_text in X. rewrite length_app, (wf_version _ W) in X. simpl in X. lia. }
  set (s1 := set_bp (splice 0 (response_text p) mem) (mk_pstat mem (mk_net rest 0))).
  destruct (parse_response_run newmem fuel s1 p (drop (length (response_text p)) mem) jobid W) as (s' & E2).
  - unfold s1, splice. cbn [bp set_bp take]. rewrite Nat.add_0_l. done.
  - lia.
  - exists s'. destruct (response_text p) as [|c r] eqn:Er; [done|]. step. cbn [bp].
    to_state s1. rewrite (bind_run _ _ _ _ _ E2). done.
Qed.

(** A well-formed response that arrives in one segment decides the job
    correctly: [printer_status] returns 1 exactly when the request identifier
    of the IPP body is the job's number and its status is of the successful
    class; the headers may come in any order and case. *)
Theorem printer_status_one_segment newmem fuel mem jobid p rest :
  wf_response p -> (length (response_text p) <= length mem)%nat -> (length (response_text p) + 1 < fuel)%nat ->
  exists s', printer_status newmem fuel mem jobid (mk_net (RData (response_text p) :: rest) 0) =
    Ret ((ipp_request_id (r_body p) =? jobid) && STATCLASS_OK (ipp_status (r_body p))) s'.
Proof. exact (status_one_run newmem fuel mem jobid p rest). Qed.

Definition sample_response : response :=
  mk_response (str "HTTP/1.1") (str " ") (str "200") 32 (str "OK") 13
    ([10] ++ str "Content-Type: application/ipp" ++ [13; 10]) (str "Content-length:") (str " ") (str "8") 13
    [] [1; 1; 0; 0; 0; 0; 0; 7].

Definition no_matchb (f : bytes -> bool) (b c : bytes) : bool :=
  forallb (fun j => negb (f (drop j (b ++ c)))) (seq 0 (length b)).
Lemma no_match_check f b c : no_matchb f b c = true -> no_match f b c.
Proof.
  unfold no_matchb. rewrite forallb_forall. intros H j Hj.
  apply negb_true_iff, (H j), in_seq. lia.
Qed.

Lemma sample_wf : wf_response sample_response.
Proof.
  constructor.
  - reflexivity.
  - repeat constructor.
  - split; [repeat constructor|]. vm_compute. split; discriminate.
  - reflexivity.
  - repeat constructor; discriminate.
  - by left.
  - split; reflexivity.
  - by apply no_match_check.
  - repeat constructor.
  - split; [discriminate|]. repeat constructor.
  - reflexivity.
  - by apply no_match_check.
  - split; [vm_compute; lia|]. vm_compute. split; [discriminate|reflexivity].
Qed.

Lemma printer_status_one_segment_witness :
  exists s', printer_status [] 200 (replicate IOBUFSZ 170) 7 (mk_net [RData (response_text sample_response)] 0) = Ret true s'.
Proof.
  apply (printer_status_one_segment [] 200 (replicate IOBUFSZ 170) 7 sample_response []).
  - apply sample_wf.
  - rewrite length_replicate. vm_compute. lia.
  - vm_compute. lia.
Defined.

Definition cut_response : bytes :=
  str "HTTP/1.1 200 OK" ++ [13; 10] ++ str "Content-Length: 8" ++ [13; 10].

(** [printer_status] does not end when the first segment ends before the
    empty line of the header: the inner loop stops two bytes before the end
    of the data, where more is not yet read, and the outer loop repeats it
    for ever.  Whatever the printer sends afterwards, no number of rounds is
    enough. *)
Theorem printer_status_spins newmem fuel jobid rest :
  printer_status newmem fuel (replicate IOBUFSZ 0) jobid (mk_net (RData cut_response :: rest) 0) = NoFuel.
Proof.
  destruct fuel as [|fuel]; [done|]. unfold printer_status. cbn [status_loop].
  set (z := replicate (IOBUFSZ - 36) 0).
  set (s1 := mk_pstat (cut_response ++ z) (mk_net rest 0)).
  set (s1b := mk_pstat (str "HTTP/1.1 200" ++ [0] ++ str "OK" ++ [13; 10] ++ str "Content-Length: 8" ++ [13; 10] ++ z) (mk_net rest 0)).
  set (l0 := str "HTTP/1.1 200" ++ [0] ++ str "OK" ++ [0]).
  set (s2 := mk_pstat ((l0 ++ [10]) ++ str "Content-Length:" ++ str " " ++ str "8" ++ 13 :: 10 :: z) (mk_net rest 0)).
  set (s3 := mk_pstat ((l0 ++ [10]) ++ str "Content-Length:" ++ str " " ++ str "8" ++ 0 :: 10 :: z) (mk_net rest 0)).
  assert (parse_response newmem fuel 36 jobid s1 = NoFuel) as E.
  { unfold parse_response.
    rewrite (bind_run (while_char isspace 8) _ s1 9%nat s1 ltac:(vm_compute; reflexivity)).
    rewrite (bind_run (while_char isdigit 9) _ s1 12%nat s1 ltac:(vm_compute; reflexivity)). cbn [Nat.eqb].
    rewrite (bind_run (set_byte 12 0) _ s1 tt s1b ltac:(reflexivity)).
    rewrite (bind_run (while_char (fun c => negb (c =? c_cr) && negb (c =? c_nl)) 13) _ s1b 15%nat s1b ltac:(reflexivity)).
    rewrite (bind_run (set_byte 15 0) _ s1b tt s2 ltac:(reflexivity)).
    rewrite (bind_run (atoi_at 9) _ s2 200 s2 ltac:(vm_compute; reflexivity)). change (HTTP_INFO 200) with false. change (HTTP_SUCCESS 200) with true. cbv iota. cbn [negb].
    destruct fuel as [|[|[|fuel]]]; [reflexivity..|].
    assert (content_loop newmem (S (S (S fuel))) 15 36 s2 = Ret (Some (35%nat, 36, 8)) s3) as E1.
    { apply (content_loop_run newmem _ s2 15 (l0 ++ [10]) (str "Content-Length:") (str " ") (str "8") 13 (10 :: z) 36).
      - reflexivity.
      - reflexivity.
      - reflexivity.
      - simpl. lia.
      - intros j Hj. simpl in Hj. assert (j = 15 \/ j = 16)%nat as [-> | ->] by lia; reflexivity.
      - reflexivity.
      - repeat constructor.
      - discriminate.
      - repeat constructor.
      - reflexivity.
      - simpl. lia. }
    rewrite (bind_run _ _ _ _ _ E1). rewrite (bind_run (more_header newmem 35 36) _ s3 (Some 36) s3 eq_refl).
    unfold bind. by rewrite end_loop_spins by lia. }
  assert (tread IOBUFSZ (mk_net (RData cut_response :: rest) 0) = Ret (Some cut_response) (mk_net rest 0)) as Et by reflexivity.
  step. cbn [bp]. rewrite length_replicate.
  rewrite (bind_run _ _ _ _ _ (zoom_run p_net set_pnet _ (mk_pstat (replicate IOBUFSZ 0) _) _ _ Et)).
  change cut_response with (72 :: tail cut_response) at 1. cbv iota beta. step.
  change (72 :: tail cut_response) with cut_response.
  replace (set_bp _ _) with s1 by reflexivity.
  change (Z.of_nat (length cut_response)) with 36. unfold bind. by rewrite E.
Qed.
