(* ===== verification/PrintThread.v ===== *)
(** The printer thread of [printd.c]: one round of the loop of
    [printer_thread], from taking a job to removing or deferring it, and
    [init_printer]. *)
From Stdlib Require Import ZArith Lia.
From stdpp Require Import base list strings gmap numbers.
From S2P Require Import Prelude CString CFile Dll PrintJobs PrintQueue PrintIpp PrintNet PrintClient PrintStatus.
Local Open Scope c_scope.

(** The queue, the files of the spool directory, the configuration flag and
    the printer's name, the bytes sent to the printer, what the next writes
    to the socket return (a full write once the list is used up), and what
    the printer sends. *)
Record pthread := mk_pthread {
  t_jobs : jobq;
  t_files : gmap bytes bytes;
  t_reread : bool;
  t_name : bytes;
  t_sent : bytes;
  t_rets : list Z;
  t_net : net
}.
Definition t_set_jobs v t := mk_pthread v (t_files t) (t_reread t) (t_name t) (t_sent t) (t_rets t) (t_net t).
Definition t_set_files v t := mk_pthread (t_jobs t) v (t_reread t) (t_name t) (t_sent t) (t_rets t) (t_net t).
Definition t_set_name v t := mk_pthread (t_jobs t) (t_files t) (t_reread t) v (t_sent t) (t_rets t) (t_net t).
Definition t_set_reread v t := mk_pthread (t_jobs t) (t_files t) v (t_name t) (t_sent t) (t_rets t) (t_net t).
Definition t_set_sent v t := mk_pthread (t_jobs t) (t_files t) (t_reread t) (t_name t) v (t_rets t) (t_net t).
Definition t_set_rets v t := mk_pthread (t_jobs t) (t_files t) (t_reread t) (t_name t) (t_sent t) v (t_net t).
Definition t_set_net v t := mk_pthread (t_jobs t) (t_files t) (t_reread t) (t_name t) (t_sent t) (t_rets t) v.
Definition on_queue {A} : M jobq A -> M pthread A := zoom t_jobs t_set_jobs.

(** What the thread meets in one round: whether the job file can be written,
    the answer of [get_printaddr] (NULL, or the canonical name that may be
    missing), whether [open] of a document that is there, [fstat], [connect]
    and the reads of the document succeed (after how many it fails), the
    memory of its buffers, and a bound on the rounds of [printer_status]. *)
Record penv := mk_penv {
  e_jobfile : bool;
  e_open : bool;
  e_printaddr : option (option bytes);
  e_fstat : bool;
  e_connect : bool;
  e_read : option nat;
  e_ibuf : bytes;
  e_hbuf : bytes;
  e_bp : bytes;
  e_more : bytes;
  e_fuel : nat
}.

(** [write], [writev] and [writen]: the value they return. *)
Definition send (bs : bytes) : M pthread Z :=
  let* rs := gets t_rets in
  match rs with
  | [] => modify (fun t => t_set_sent (t_sent t ++ bs) t) ;;; ret (Z.of_nat (length bs))
  | r :: rest =>
      modify (t_set_rets rest) ;;;
      if r <? 0 then ret (-1)
      else modify (fun t => t_set_sent (t_sent t ++ take (Z.to_nat r) bs) t) ;;;
           ret (Z.min r (Z.of_nat (length bs)))
  end.

(** Code on a local buffer. *)
Definition locally {B A} (m : M B A) (b : B) : M pthread (A * B) := fun t =>
  match m b with
  | Ret a b' => Ret (a, b') t
  | Died e _ => Died e t
  | Undef w => Undef w
  | NoFuel => NoFuel
  end.

(** [init_printer] *)
Definition init_printer (a : option (option bytes)) : M pthread unit :=
  match a with
  | None => die "exit(1)"
  | Some canonname => modify (t_set_name (default (str "printer") canonname))
  end.

(** The copy of the document in pieces of [IOBUFSZ] bytes; [false] jumps to
    [defer]. *)
Fixpoint send_doc (fuel : nat) (reads : option nat) (doc : bytes) : M pthread bool :=
  match reads with
  | Some O => ret false
  | _ =>
      match doc with
      | [] => ret true
      | _ =>
          match fuel with
          | O => nofuel
          | S f =>
              let chunk := take IOBUFSZ doc in
              let* nw := send chunk in
              if negb (nw =? Z.of_nat (length chunk)) then ret false
              else send_doc f (Nat.pred <$> reads) (drop IOBUFSZ doc)
          end
      end
  end.

Inductive verdict := Canceled | Printed | Deferred.

(** From "Set up the IPP header" to the call of [printer_status]: [true] when
    the printer has taken the job. *)
Definition talk (e : penv) (id : Z) (req : printreq) (doc : bytes) : M pthread bool :=
  let* pn := gets t_name in
  let* i := locally (ipp_header pn id req) (e_ibuf e) in
  let ilen := i.1 in
  let text := Z.testbit (rq_flags req) 0 in
  let extra := if text then 1 else 0 in
  let* h := locally (http_header pn (Z.of_nat (length doc) + Z.of_nat ilen + extra)) (e_hbuf e) in
  let hlen := h.1 in
  let* nw := send (take hlen h.2 ++ take ilen i.2) in
  if negb (nw =? Z.of_nat (hlen + ilen)) then ret false
  else
    let* ok := (if text then let* nw := send [8] in ret (nw =? 1) else ret true) in
    if negb ok then ret false
    else
      let* ok := send_doc (S (length doc)) (e_read e) doc in
      if negb ok then ret false
      else
        let* n := gets t_net in
        let* r := locally (status_loop (e_more e) (e_fuel e) id) (mk_pstat (e_bp e) n) in
        modify (t_set_net (p_net r.2)) ;;;
        ret r.1.

(** The body of the loop once the job at [jp] is taken. *)
Definition print_job (e : penv) (jp : addr) : M pthread verdict :=
  die_if (negb (e_jobfile e)) "can't update job file" ;;;
  on_queue update_jobno ;;;
  let* again := gets t_reread in
  (if again : bool then
     modify (t_set_reread false) ;;; init_printer (e_printaddr e)
   else skip) ;;;
  let* j := on_queue (load jp) in
  let name := job_path DATADIR (jobid j) in
  let* fs := gets t_files in
  match (if e_open e then fs !! name else None) with
  | None => on_queue (free_job jp) ;;; ret Canceled
  | Some doc =>
      if negb (e_fstat e) then on_queue (free_job jp) ;;; ret Canceled
      else
        let* done := (if negb (e_connect e) then ret false else talk e (jobid j) (j_req j) doc) in
        if done : bool then
          modify (fun t => t_set_files (delete (job_path REQDIR (jobid j)) (delete name (t_files t))) t) ;;;
          on_queue (free_job jp) ;;;
          ret Printed
        else on_queue (replace_job jp) ;;; ret Deferred
  end.

(** One round of [printer_thread]; [None] when there is no job. *)
Definition printer_round (e : penv) : M pthread (option verdict) :=
  let* jp := on_queue take_job in
  match jp with
  | None => ret None
  | Some a => let* v := print_job e a in ret (Some v)
  end.

(** * Lemmas *)
Section rounds.
Implicit Types (t : pthread) (s : jobq) (e : penv).

Lemma update_jobno_total s : exists f, update_jobno s = Ret tt (set_jobfd f s).
Proof. unfold update_jobno. step. rewrite lseek_set by lia. step. by eexists. Qed.

Lemma queue_jobfd s f ads l : queue s ads l -> queue (set_jobfd f s) ads l.
Proof. by intros [? ? ?]. Qed.

Lemma send_full t bs : t_rets t = [] ->
  send bs t = Ret (Z.of_nat (length bs)) (t_set_sent (t_sent t ++ bs) t).
Proof. intros E. unfold send. step. by rewrite E. Qed.

Lemma locally_run {B A} (m : M B A) b a b' t : m b = Ret a b' -> locally m b t = Ret (a, b') t.
Proof. unfold locally. by intros ->. Qed.

Lemma send_doc_full fuel doc t : t_rets t = [] -> (length doc < fuel)%nat ->
  send_doc fuel None doc t = Ret true (t_set_sent (t_sent t ++ doc) t).
Proof.
  revert doc t. induction fuel as [|fuel IH]; intros doc t E Hf; [lia|]. cbn [send_doc].
  destruct doc as [|c doc]; [rewrite app_nil_r; by destruct t|].
  set (d := c :: doc) in *. rewrite (bind_run _ _ _ _ _ (send_full t (take IOBUFSZ d) E)).
  rewrite Z.eqb_refl. cbn [negb].
  rewrite IH; [|done|rewrite length_drop; pose proof iobuf_pos; unfold d in *; simpl in *; lia].
  unfold t_set_sent. cbn [t_jobs t_files t_reread t_name t_sent t_rets t_net].
  by rewrite <-app_assoc, take_drop.
Qed.

(** The pieces of code that only send leave the queue, the files and the
    printer's name alone. *)
Definition sends t t' : Prop :=
  t_jobs t' = t_jobs t /\ t_files t' = t_files t /\ t_name t' = t_name t /\ t_reread t' = t_reread t.

Lemma sends_refl t : sends t t.
Proof. done. Qed.
Lemma sends_trans t1 t2 t3 : sends t1 t2 -> sends t2 t3 -> sends t1 t3.
Proof. intros (? & ? & ? & ?) (? & ? & ? & ?). split_and!; congruence. Qed.

Lemma send_sends bs t r t' : send bs t = Ret r t' -> sends t t'.
Proof.
  unfold send, bind, gets, modify, ret. destruct (t_rets t) as [|z zs]; [intros H; by simplify_eq|].
  destruct (z <? 0); intros H; by simplify_eq.
Qed.

Lemma locally_same {B A} (m : M B A) b x t t' : locally m b t = Ret x t' -> t' = t.
Proof. unfold locally. destruct (m b); intros; by simplify_eq. Qed.

Lemma send_doc_sends fuel reads doc t r t' : send_doc fuel reads doc t = Ret r t' -> sends t t'.
Proof.
  revert reads doc t. induction fuel as [|fuel IH]; intros reads doc t H.
  - cbn [send_doc] in H. destruct reads as [[|n]|]; destruct doc; unfold ret, nofuel in H; by simplify_eq.
  - cbn [send_doc] in H.
    assert (forall rd, (let* nw := send (take IOBUFSZ doc) in
       if negb (nw =? Z.of_nat (length (take IOBUFSZ doc))) then ret false
       else send_doc fuel rd (drop IOBUFSZ doc)) t = Ret r t' -> sends t t') as Hs.
    { intros rd. unfold bind. destruct (send (take IOBUFSZ doc) t) as [nw t1| | |] eqn:E; try done.
      pose proof (send_sends _ _ _ _ E) as S1. destruct (negb _); intros X; [by unfold ret in X; simplify_eq|].
      eapply sends_trans; [exact S1|]. by eapply IH. }
    destruct reads as [[|n]|]; [unfold ret in H; by simplify_eq| |];
      (destruct doc as [|c doc]; [unfold ret in H; by simplify_eq|by eapply Hs]).
Qed.

Lemma talk_sends e id req doc t r t' : talk e id req doc t = Ret r t' -> sends t t'.
Proof.
  unfold talk. rewrite bind_gets. intros (i & t1 & E1 & H)%bind_ret_inv. apply locally_same in E1 as ->.
  apply bind_ret_inv in H as (h & t2 & E2 & H). apply locally_same in E2 as ->.
  apply bind_ret_inv in H as (nw & t3 & E3 & H). pose proof (send_sends _ _ _ _ E3) as S3.
  destruct (negb _); [unfold ret in H; by simplify_eq|].
  apply bind_ret_inv in H as (ok & t4 & E4 & H).
  assert (sends t t4) as S4.
  { destruct (Z.testbit (rq_flags req) 0); [|unfold ret in E4; by simplify_eq].
    apply bind_ret_inv in E4 as (nw2 & t5 & E5 & H5). unfold ret in H5. simplify_eq.
    eapply sends_trans; [exact S3|]. by eapply send_sends. }
  destruct (negb ok); [unfold ret in H; by simplify_eq|].
  apply bind_ret_inv in H as (ok2 & t5 & E5 & H). pose proof (send_doc_sends _ _ _ _ _ _ E5) as S5.
  assert (sends t t5) as S45 by (by eapply sends_trans).
  destruct (negb ok2); [unfold ret in H; by simplify_eq|].
  rewrite bind_gets in H. apply bind_ret_inv in H as (x & t6 & E6 & H). apply locally_same in E6 as ->.
  rewrite bind_modify in H. unfold ret in H. by simplify_eq.
Qed.

(** The round up to the point where the document has been looked up. *)
Lemma print_job_start e a ads id req l t :
  queue (t_jobs t) ads l -> held_job (t_jobs t) ads a (id, req) -> e_jobfile e = true ->
  (t_reread t = false \/ exists nm, e_printaddr e = Some nm) ->
  exists t1, queue (t_jobs t1) ads l /\ held_job (t_jobs t1) ads a (id, req) /\ t_files t1 = t_files t /\
    t_sent t1 = t_sent t /\ t_rets t1 = t_rets t /\ t_net t1 = t_net t /\
    t_name t1 = (if t_reread t then default (str "printer") (default None (e_printaddr e)) else t_name t) /\
    print_job e a t =
      (match (if e_open e then t_files t !! job_path DATADIR id else None) with
       | None => on_queue (free_job a) ;;; ret Canceled
       | Some doc =>
           if negb (e_fstat e) then on_queue (free_job a) ;;; ret Canceled
           else
             let* done := (if negb (e_connect e) then ret false else talk e id req doc) in
             if done : bool then
               modify (fun t => t_set_files (delete (job_path REQDIR id) (delete (job_path DATADIR id) (t_files t))) t) ;;;
               on_queue (free_job a) ;;;
               ret Printed
             else on_queue (replace_job a) ;;; ret Deferred
       end) t1.
Proof.
  intros Q H Hu Hr. destruct (update_jobno_total (t_jobs t)) as [f Ef].
  set (t1 := t_set_jobs (set_jobfd f (t_jobs t)) t).
  assert (exists nm, (if t_reread t1 then modify (t_set_reread false) ;;; init_printer (e_printaddr e) else skip) t1 =
    Ret tt (mk_pthread (t_jobs t1) (t_files t) false nm (t_sent t) (t_rets t) (t_net t)) /\
    nm = (if t_reread t then default (str "printer") (default None (e_printaddr e)) else t_name t)) as (nm & E2 & Hnm).
  { change (t_reread t1) with (t_reread t). destruct (t_reread t) eqn:Et.
    - destruct Hr as [?|[nm Hn]]; [done|]. rewrite Hn. by eexists.
    - exists (t_name t). split; [|done]. destruct t. simpl in *. by subst. }
  set (t2 := mk_pthread (t_jobs t1) (t_files t) false nm (t_sent t) (t_rets t) (t_net t)) in E2.
  assert (exists j, load a (t_jobs t2) = Ret j (t_jobs t2) /\ jobid j = id /\ j_req j = req) as (j & El & Hj1 & Hj2).
  { destruct H as (_ & _ & He). unfold entry in He. change (jmem (t_jobs t2)) with (jmem (t_jobs t)).
    destruct (jmem (t_jobs t) !! a) as [j|] eqn:Hj; [|done]. simpl in He. simplify_eq.
    exists j. split; [by apply load_run|done]. }
  exists t2. split_and!; try done; [by apply queue_jobfd|]. unfold print_job, on_queue. rewrite Hu. cbn [negb die_if].
  rewrite (bind_run skip _ t tt t eq_refl).
  rewrite (bind_run _ _ _ _ _ (zoom_run t_jobs t_set_jobs _ t _ _ Ef)). fold t1. step. rewrite (bind_run _ _ _ _ _ E2).
  rewrite (bind_run _ _ _ _ _ (zoom_run t_jobs t_set_jobs _ t2 _ _ El)). rewrite Hj1, Hj2. step. reflexivity.
Qed.

(** What each way out of the round does to the queue. *)
Lemma finish_free a ads id req l t (v : verdict) : queue (t_jobs t) ads l -> held_job (t_jobs t) ads a (id, req) ->
  exists t', (on_queue (free_job a) ;;; ret v) t = Ret v t' /\ queue (t_jobs t') ads l /\ t_files t' = t_files t /\
    t_sent t' = t_sent t.
Proof.
  intros Q H. destruct (free_job_run _ _ _ _ _ Q H) as (s' & E & Q' & _).
  exists (t_set_jobs s' t). split; [|done]. unfold on_queue.
  by rewrite (bind_run _ _ _ _ _ (zoom_run t_jobs t_set_jobs _ t _ _ E)).
Qed.

Lemma finish_defer a ads id req l t : queue (t_jobs t) ads l -> held_job (t_jobs t) ads a (id, req) ->
  exists t', (on_queue (replace_job a) ;;; ret Deferred) t = Ret Deferred t' /\
    queue (t_jobs t') (a :: ads) ((id, req) :: l) /\ t_files t' = t_files t.
Proof.
  intros Q H. destruct (replace_job_run _ _ _ _ _ Q H) as (s' & E & Q' & _).
  exists (t_set_jobs s' t). split; [|done]. unfold on_queue.
  by rewrite (bind_run _ _ _ _ _ (zoom_run t_jobs t_set_jobs _ t _ _ E)).
Qed.

Lemma take_round e a ads id req l t :
  queue (t_jobs t) (a :: ads) ((id, req) :: l) ->
  exists t1, queue (t_jobs t1) ads l /\ held_job (t_jobs t1) ads a (id, req) /\
    t_files t1 = t_files t /\ t_sent t1 = t_sent t /\ t_rets t1 = t_rets t /\ t_net t1 = t_net t /\
    t_name t1 = t_name t /\ t_reread t1 = t_reread t /\
    printer_round e t = (let* v := print_job e a in ret (Some v)) t1.
Proof.
  intros Q. destruct (take_job_run _ _ _ _ _ Q) as (s' & E & Q' & H' & _).
  exists (t_set_jobs s' t). split_and!; try done. unfold printer_round, on_queue.
  by rewrite (bind_run _ _ _ _ _ (zoom_run t_jobs t_set_jobs _ t _ _ E)).
Qed.
End rounds.

(** The bytes of the request on the wire. *)
Definition http_text (pn : bytes) (len : Z) : bytes :=
  (str "POST /ipp HTTP/1.1" ++ crlf) ++ (str "Content-Length: " ++ sdec len ++ crlf) ++
  (str "Content-Type: application/ipp" ++ crlf) ++
  (str "Host: " ++ pn ++ str ":" ++ sdec IPP_PORT ++ crlf) ++ [c_cr] ++ [c_nl].
Definition request_body (pn : bytes) (id : Z) (user jname : bytes) (text : bool) (doc : bytes) : bytes :=
  enc_ipp id (job_attrs pn user jname text) ++ (if text then [8] else []) ++ doc.

Section success.
Implicit Types (t : pthread) (e : penv).

Lemma emits_run {A} (m : M bytes A) bs (a : A) buf :
  emits m [] bs 0 a -> (length bs <= length buf)%nat -> exists rest, m buf = Ret a (bs ++ rest).
Proof.
  intros H Hl. specialize (H buf). rewrite Nat.add_0_r in H. apply Nat.leb_le in Hl. rewrite Hl in H.
  destruct H as (p & E & _). exists p. exact E.
Qed.

Lemma http_text_length pn len : (length pn <= 52)%nat -> 0 <= len < 10 ^ 19 -> (length (http_text pn len) <= HBUFSZ)%nat.
Proof.
  intros Hp Hl. unfold http_text. rewrite !length_app. pose proof (udec_length len 18 Hl) as H.
  assert (sdec len = udec len) as -> by (unfold sdec; destruct (Z.ltb_spec len 0); [lia|done]).
  unfold HBUFSZ. simpl. lia.
Qed.

Lemma talk_run e id req doc t user jname p rest :
  t_rets t = [] -> e_read e = None -> length (e_ibuf e) = IBUFSZ -> length (e_hbuf e) = HBUFSZ ->
  (length (t_name t) <= 52)%nat ->
  c_string (usernm req ++ jobnm req) = Some user -> c_string (jobnm req) = Some jname ->
  (ipp_size (t_name t) user jname (Z.testbit (rq_flags req) 0) <= IBUFSZ)%nat ->
  Z.of_nat (length doc) < 2 ^ 62 ->
  t_net t = mk_net (RData (response_text p) :: rest) 0 -> wf_response p ->
  (length (response_text p) <= length (e_bp e))%nat -> (length (response_text p) + 1 < e_fuel e)%nat ->
  let text := Z.testbit (rq_flags req) 0 in
  let body := request_body (t_name t) id user jname text doc in
  exists t', talk e id req doc t =
      Ret ((ipp_request_id (r_body p) =? id) && STATCLASS_OK (ipp_status (r_body p))) t' /\
    sends t t' /\ t_sent t' = t_sent t ++ http_text (t_name t) (Z.of_nat (length body)) ++ body.
Proof.
  intros Hr He Hi Hh Hn Hu Hj Hsz Hd Hnet W Hbp Hfu text body.
  fold text in Hsz. set (pn := t_name t) in *. set (enc := enc_ipp id (job_attrs pn user jname text)).
  assert (length enc = ipp_size pn user jname text) as Henc by apply enc_ipp_size.
  destruct (emits_run _ enc (length enc) (e_ibuf e) (ipp_header_emits pn id req user jname Hn Hu Hj)) as [r1 E1]; [lia|].
  set (len := Z.of_nat (length doc) + Z.of_nat (length enc) + (if text then 1 else 0)).
  assert (Z.of_nat (length body) = len) as Hlen.
  { unfold body, request_body. fold enc. rewrite !length_app. unfold len. destruct text; simpl; lia. }
  assert (length (http_text pn len) <= HBUFSZ)%nat as Hhl.
  { apply http_text_length; [done|]. unfold len. unfold IBUFSZ in *. destruct text; lia. }
  destruct (emits_run _ _ _ (e_hbuf e) (http_header_emits pn len)) as [r2 E2]; [by fold (http_text pn len); lia|].
  fold (http_text pn len) in E2. set (ht := http_text pn len) in *.
  assert (exists t3, sends t t3 /\ t_rets t3 = [] /\ t_net t3 = t_net t /\
    t_sent t3 = t_sent t ++ ht ++ enc ++ (if text then [8] else []) /\
    talk e id req doc t = (let* ok := send_doc (S (length doc)) (e_read e) doc in
      if negb ok then ret false
      else let* n := gets t_net in
        let* r := locally (status_loop (e_more e) (e_fuel e) id) (mk_pstat (e_bp e) n) in
        modify (t_set_net (p_net r.2)) ;;; ret r.1) t3) as (t3 & S3 & R3 & N3 & X3 & E3).
  { unfold talk. step. fold pn. rewrite (bind_run _ _ _ _ _ (locally_run _ _ _ _ t E1)). cbn [fst snd].
    fold text. fold len. rewrite (bind_run _ _ _ _ _ (locally_run _ _ _ _ t E2)). cbn [fst snd].
    rewrite !take_app_length. rewrite (bind_run _ _ _ _ _ (send_full t (ht ++ enc) Hr)).
    rewrite length_app, Z.eqb_refl. cbn [negb]. set (t1 := t_set_sent _ t).
    destruct text.
    - exists (t_set_sent (t_sent t1 ++ [8]) t1). split_and!; try done; [by unfold t1; cbn [t_sent t_set_sent]; rewrite <-!app_assoc|].
      rewrite bind_assoc. by rewrite (bind_run _ _ _ _ _ (send_full t1 [8] Hr)).
    - exists t1. split_and!; try done. unfold t1. cbn [t_sent t_set_sent]. by rewrite app_nil_r. }
  rewrite E3, He. rewrite (bind_run _ _ _ _ _ (send_doc_full (S (length doc)) doc t3 R3 (le_n _))). cbn [negb]. step.
  set (t4 := t_set_sent _ t3). change (t_net t4) with (t_net t3). rewrite N3, Hnet.
  assert (exists s', status_loop (e_more e) (e_fuel e) id (mk_pstat (e_bp e) (mk_net (RData (response_text p) :: rest) 0)) =
    Ret ((ipp_request_id (r_body p) =? id) && STATCLASS_OK (ipp_status (r_body p))) s') as [s' Es].
  { exact (status_one_run (e_more e) (e_fuel e) (e_bp e) id p rest W Hbp Hfu). }
  rewrite (bind_run _ _ _ _ _ (locally_run _ _ _ _ t4 Es)). cbn [fst snd].
  eexists. split; [reflexivity|]. split; [done|]. cbn [t_sent t_set_net]. unfold t4. cbn [t_sent t_set_sent]. rewrite X3, Hlen. fold ht. unfold body, request_body. fold enc.
  by rewrite <-!app_assoc.
Qed.
End success.

(** * Rounds that end *)

(** Whether [printer_status] returns on what the printer sends. *)
Definition status_returns (e : penv) (id : Z) (n : net) : bool :=
  match printer_status (e_more e) (e_fuel e) (e_bp e) id n with Ret _ _ => true | _ => false end.

(** The names fit in the buffers of the thread. *)
Definition names_fit (pn : bytes) (req : printreq) : Prop :=
  (length pn <= 52)%nat /\ exists user jname, c_string (usernm req ++ jobnm req) = Some user /\ c_string (jobnm req) = Some jname /\
    (ipp_size pn user jname (Z.testbit (rq_flags req) 0) <= IBUFSZ)%nat.

Section rounds_end.
Implicit Types (t : pthread) (e : penv).

Lemma send_total bs t : exists r t', send bs t = Ret r t' /\ t_net t' = t_net t.
Proof.
  unfold send. rewrite bind_gets. destruct (t_rets t) as [|r rs]; [by eexists _, _|]. rewrite bind_modify.
  destruct (r <? 0); by eexists _, _.
Qed.

Lemma send_doc_total fuel : forall reads doc t, (length doc < fuel)%nat ->
  exists b t', send_doc fuel reads doc t = Ret b t' /\ t_net t' = t_net t.
Proof.
  induction fuel as [|fuel IH]; intros reads doc t Hf; [lia|]. cbn [send_doc].
  assert (Step : forall rd, doc <> [] -> exists b t', (let* nw := send (take IOBUFSZ doc) in
     if negb (nw =? Z.of_nat (length (take IOBUFSZ doc))) then ret false else send_doc fuel rd (drop IOBUFSZ doc)) t = Ret b t' /\
     t_net t' = t_net t).
  { intros rd Hne. destruct (send_total (take IOBUFSZ doc) t) as (r & t1 & E & N). rewrite (bind_run _ _ _ _ _ E).
    destruct (negb _); [by eexists _, _|]. destruct (IH rd (drop IOBUFSZ doc) t1) as (b & t2 & E2 & N2).
    - rewrite length_drop. pose proof iobuf_pos. destruct doc; [done|]. cbn [length] in *. lia.
    - exists b, t2. split; [done|]. by rewrite N2. }
  destruct reads as [[|k]|]; [by eexists _, _| |]; (destruct doc; [by eexists _, _|by apply Step]).
Qed.

(** Setting up the headers and sending them, with the document, always ends;
    it then rests with [printer_status]. *)
Lemma talk_total e id req doc t : names_fit (t_name t) req -> length (e_ibuf e) = IBUFSZ -> length (e_hbuf e) = HBUFSZ ->
  Z.of_nat (length doc) < 2 ^ 62 -> status_returns e id (t_net t) = true -> exists b t', talk e id req doc t = Ret b t'.
Proof.
  intros (Hn & user & jname & Hu & Hj & Hsz) Hi Hh Hd Hs. set (pn := t_name t) in *. set (text := Z.testbit (rq_flags req) 0) in *.
  pose proof (enc_ipp_size id pn user jname text) as Henc.
  destruct (emits_run _ _ _ (e_ibuf e) (ipp_header_emits pn id req user jname Hn Hu Hj)) as [r1 E1]; [by fold text; lia|].
  fold text in E1. set (enc := enc_ipp id (job_attrs pn user jname text)) in *.
  set (len := Z.of_nat (length doc) + Z.of_nat (length enc) + (if text then 1 else 0)).
  assert (length (http_text pn len) <= HBUFSZ)%nat as Hhl.
  { apply http_text_length; [done|]. unfold len. unfold IBUFSZ in *. destruct text; lia. }
  destruct (emits_run _ _ _ (e_hbuf e) (http_header_emits pn len)) as [r2 E2]; [by fold (http_text pn len); lia|].
  fold (http_text pn len) in E2. unfold talk. step. fold pn.
  rewrite (bind_run _ _ _ _ _ (locally_run _ _ _ _ t E1)). cbn [fst snd]. fold text. fold len.
  rewrite (bind_run _ _ _ _ _ (locally_run _ _ _ _ t E2)). cbn [fst snd].
  destruct (send_total (take (length (http_text pn len)) (http_text pn len ++ r2) ++ take (length enc) (enc ++ r1)) t) as (w & t1 & X1 & N1).
  rewrite (bind_run _ _ _ _ _ X1). destruct (negb _); [by eexists _, _|].
  assert (exists b t2, (if text then let* nw := send [8] in ret (nw =? 1) else ret true) t1 = Ret b t2 /\ t_net t2 = t_net t1)
    as (b & t2 & X2 & N2).
  { destruct text; [|by eexists _, _]. destruct (send_total [8] t1) as (r & t2 & X2 & N2). exists (r =? 1), t2.
    by rewrite (bind_run _ _ _ _ _ X2). }
  rewrite (bind_run _ _ _ _ _ X2). destruct (negb b); [by eexists _, _|].
  destruct (send_doc_total (S (length doc)) (e_read e) doc t2 ltac:(lia)) as (b3 & t3 & X3 & N3).
  rewrite (bind_run _ _ _ _ _ X3). destruct (negb b3); [by eexists _, _|]. step. rewrite N3, N2, N1.
  unfold status_returns, printer_status in Hs.
  destruct (status_loop (e_more e) (e_fuel e) id (mk_pstat (e_bp e) (t_net t))) as [v s'| | |] eqn:Es; try done.
  rewrite (bind_run _ _ _ _ _ (locally_run _ _ _ _ t3 Es)). by eexists _, _.
Qed.

(** What a round that returns has done. *)
Definition round_kept (e : penv) (t : pthread) (a : addr) (ads : list addr) (id : Z) (req : printreq) (l : list (Z * printreq))
    (v : verdict) (t' : pthread) : Prop :=
  match v with
  | Printed => queue (t_jobs t') ads l /\
      t_files t' = delete (job_path REQDIR id) (delete (job_path DATADIR id) (t_files t))
  | Deferred => queue (t_jobs t') (a :: ads) ((id, req) :: l) /\ t_files t' = t_files t
  | Canceled => queue (t_jobs t') ads l /\ t_files t' = t_files t /\
      (t_files t !! job_path DATADIR id = None \/ e_open e = false \/ e_fstat e = false)
  end.

Lemma cancel_kept e a ads id req l t t2 : queue (t_jobs t2) ads l -> held_job (t_jobs t2) ads a (id, req) -> t_files t2 = t_files t ->
  (t_files t !! job_path DATADIR id = None \/ e_open e = false \/ e_fstat e = false) ->
  exists t', (on_queue (free_job a) ;;; ret Canceled) t2 = Ret Canceled t' /\ round_kept e t a ads id req l Canceled t'.
Proof.
  intros Q H F Hc. destruct (finish_free a ads id req l t2 Canceled Q H) as (t3 & E3 & Q3 & F3 & _).
  exists t3. split; [done|]. split_and!; [done|congruence|done].
Qed.

Lemma settle_kept e a ads id req l t t3 (d : bool) : queue (t_jobs t3) ads l -> held_job (t_jobs t3) ads a (id, req) -> t_files t3 = t_files t ->
  exists v t', (if d then
      modify (fun t => t_set_files (delete (job_path REQDIR id) (delete (job_path DATADIR id) (t_files t))) t) ;;;
      on_queue (free_job a) ;;; ret Printed
    else on_queue (replace_job a) ;;; ret Deferred) t3 = Ret v t' /\ round_kept e t a ads id req l v t'.
Proof.
  intros Q H F. destruct d.
  - rewrite bind_modify. set (t5 := t_set_files _ t3). destruct (finish_free a ads id req l t5 Printed Q H) as (t6 & E6 & Q6 & F6 & _).
    exists Printed, t6. split; [done|]. split; [done|]. rewrite F6. unfold t5. simpl. by rewrite F.
  - destruct (finish_defer a ads id req l t3 Q H) as (t4 & E4 & Q4 & F4). exists Deferred, t4. split; [done|].
    split; [done|]. congruence.
Qed.

(** The round returns as soon as its talk with the printer does. *)
Lemma round_of_talk e t a ads id req l :
  queue (t_jobs t) (a :: ads) ((id, req) :: l) -> e_jobfile e = true ->
  (t_reread t = false \/ exists nm, e_printaddr e = Some nm) ->
  exists t2, t_net t2 = t_net t /\
    t_name t2 = (if t_reread t then default (str "printer") (default None (e_printaddr e)) else t_name t) /\
    forall (P : outcome pthread (option verdict) -> Prop),
      (forall v t', round_kept e t a ads id req l v t' -> P (Ret (Some v) t')) ->
      (forall doc, t_files t !! job_path DATADIR id = Some doc -> e_connect e = true ->
         match talk e id req doc t2 with Ret _ _ => True | Died m s => P (Died m s) | Undef w => P (Undef w) | NoFuel => P NoFuel end) ->
      P (printer_round e t).
Proof.
  intros Q Hu Hr. destruct (take_round e a ads id req l t Q) as (t1 & Q1 & H1 & F1 & _ & _ & N1 & M1 & R1 & E1).
  destruct (print_job_start e a ads id req l t1 Q1 H1 Hu) as (t2 & Q2 & H2 & F2 & _ & _ & N2 & M2 & E2); [by rewrite R1|].
  exists t2. split; [congruence|]. split; [by rewrite M2, R1, M1|]. intros P HP HT. rewrite E1. clear E1.
  unfold bind at 1. rewrite E2, F1. clear E2. rewrite F1 in F2.
  assert (HC : (t_files t !! job_path DATADIR id = None \/ e_open e = false \/ e_fstat e = false) ->
    P (match (on_queue (free_job a) ;;; ret Canceled) t2 with
       | Ret v t' => ret (Some v) t' | Died m s => Died m s | Undef w => Undef w | NoFuel => NoFuel end)).
  { intros Hc. destruct (cancel_kept e a ads id req l t t2 Q2 H2 F2 Hc) as (t' & -> & K). by apply (HP Canceled). }
  destruct (e_open e) eqn:Ho; [|apply HC; by right; left].
  destruct (t_files t !! job_path DATADIR id) as [doc|] eqn:Hdoc; [|apply HC; by left].
  destruct (e_fstat e) eqn:Hfs; cbn [negb]; [|apply HC; by right; right].
  assert (HS : forall d t3, t_jobs t3 = t_jobs t2 -> t_files t3 = t_files t2 ->
    P (match (if d : bool then
        modify (fun t => t_set_files (delete (job_path REQDIR id) (delete (job_path DATADIR id) (t_files t))) t) ;;;
        on_queue (free_job a) ;;; ret Printed
      else on_queue (replace_job a) ;;; ret Deferred) t3 with
       | Ret v t' => ret (Some v) t' | Died m s => Died m s | Undef w => Undef w | NoFuel => NoFuel end)).
  { intros d t3 S1 S2. destruct (settle_kept e a ads id req l t t3 d) as (v & t' & -> & K); [by rewrite S1|by rewrite S1|congruence|].
    by apply (HP v). }
  destruct (e_connect e) eqn:Hco; cbn [negb]; [|by apply (HS false t2)].
  specialize (HT doc eq_refl eq_refl). unfold bind at 1. destruct (talk e id req doc t2) as [d t3|m s|w|] eqn:Et; try exact HT.
  destruct (talk_sends _ _ _ _ _ _ _ Et) as (S1 & S2 & _). by apply (HS d t3).
Qed.
End rounds_end.

(** C6: a round of the printer thread never loses a job, whatever the open,
    the connection, the writes and the reads of the document do: when it
    returns, the job it took is printed and both its files are removed, or it
    is deferred and is first in the queue again with its files untouched, or it
    was canceled because its document could not be opened or examined.  And it
    returns, if the job file can be written, the names fit in the buffers and
    [printer_status] returns on what the printer sends (there are responses on
    which it does not: [printer_status_spins]). *)
Theorem printer_round_conserves e t a ads id req l :
  queue (t_jobs t) (a :: ads) ((id, req) :: l) -> e_jobfile e = true ->
  (t_reread t = false \/ exists nm, e_printaddr e = Some nm) ->
  (forall r t', printer_round e t = Ret r t' -> exists v, r = Some v /\ round_kept e t a ads id req l v t') /\
  (names_fit (if t_reread t then default (str "printer") (default None (e_printaddr e)) else t_name t) req ->
   length (e_ibuf e) = IBUFSZ -> length (e_hbuf e) = HBUFSZ ->
   (forall doc, t_files t !! job_path DATADIR id = Some doc -> Z.of_nat (length doc) < 2 ^ 62) ->
   (e_connect e = true -> status_returns e id (t_net t) = true) ->
   exists v t', printer_round e t = Ret (Some v) t').
Proof.
  intros Q Hu Hr. destruct (round_of_talk e t a ads id req l Q Hu Hr) as (t2 & N2 & M2 & R). split.
  - apply R.
    + intros v t' K r t0 [= <- <-]. by exists v.
    + intros doc _ _. destruct (talk e id req doc t2); [done|by intros ..].
  - rewrite <-M2, <-N2. intros Hn Hi Hh Hd Hs. apply R; [by intros v t' _; exists v, t'|].
    intros doc Hdoc Hco. destruct (talk_total e id req doc t2 Hn Hi Hh (Hd doc Hdoc) (Hs Hco)) as (b & t' & ->). done.
Qed.

(** C7: a job whose names fit goes to the printer as it should: one HTTP
    request whose Content-Length is the exact number of bytes that follow
    the header (the IPP attributes, the extra byte for a text document, the
    document), and when the printer answers with the job's number and a
    successful status the job and its two files are gone and the other jobs
    are left in order. *)
Theorem printer_round_prints e t a ads id req l doc user jname p rest :
  queue (t_jobs t) (a :: ads) ((id, req) :: l) -> t_reread t = false ->
  t_files t !! job_path DATADIR id = Some doc -> Z.of_nat (length doc) < 2 ^ 62 ->
  e_jobfile e = true -> e_open e = true -> e_fstat e = true -> e_connect e = true -> e_read e = None -> t_rets t = [] ->
  length (e_ibuf e) = IBUFSZ -> length (e_hbuf e) = HBUFSZ -> (length (t_name t) <= 52)%nat ->
  c_string (usernm req ++ jobnm req) = Some user -> c_string (jobnm req) = Some jname ->
  (ipp_size (t_name t) user jname (Z.testbit (rq_flags req) 0) <= IBUFSZ)%nat ->
  t_net t = mk_net (RData (response_text p) :: rest) 0 -> wf_response p ->
  (length (response_text p) <= length (e_bp e))%nat -> (length (response_text p) + 1 < e_fuel e)%nat ->
  ipp_request_id (r_body p) = id -> STATCLASS_OK (ipp_status (r_body p)) = true ->
  let body := request_body (t_name t) id user jname (Z.testbit (rq_flags req) 0) doc in
  exists t', printer_round e t = Ret (Some Printed) t' /\ queue (t_jobs t') ads l /\
    t_files t' = delete (job_path REQDIR id) (delete (job_path DATADIR id) (t_files t)) /\
    t_sent t' = t_sent t ++ http_text (t_name t) (Z.of_nat (length body)) ++ body.
Proof.
  intros Q Hre Hdoc Hdl Hjf Hop Hfs Hco Hrd Hrets Hib Hhb Hn Hu Hj Hsz Hnet W Hbp Hfu Hid Hst body.
  destruct (take_round e a ads id req l t Q) as (t1 & Q1 & H1 & F1 & X1 & R1 & N1 & M1 & V1 & E1).
  destruct (print_job_start e a ads id req l t1 Q1 H1 Hjf) as (t2 & Q2 & H2 & F2 & X2 & R2 & N2 & M2 & E2); [left; congruence|].
  rewrite V1, Hre, M1 in M2. rewrite <-M2 in Hn, Hsz.
  destruct (talk_run e id req doc t2 user jname p rest) as (t3 & E3 & (J3 & F3 & _) & X3); try done; try congruence.
  rewrite Hid, Z.eqb_refl, Hst in E3. cbn [andb] in E3.
  set (t4 := t_set_files (delete (job_path REQDIR id) (delete (job_path DATADIR id) (t_files t3))) t3).
  destruct (finish_free a ads id req l t4 Printed) as (t5 & E5 & Q5 & F5 & X5); [simpl; by rewrite J3|simpl; by rewrite J3|].
  exists t5. split_and!; [|done|rewrite F5; simpl; congruence|].
  - rewrite E1. assert (print_job e a t1 = Ret Printed t5) as E6; [|by rewrite (bind_run _ _ _ _ _ E6)].
    rewrite E2, F1, Hop, Hdoc, Hfs, Hco. cbn [negb]. rewrite (bind_run _ _ _ _ _ E3). step. exact E5.
  - rewrite X5. unfold t4. cbn [t_sent t_set_files]. rewrite X3, X2, X1, M2. reflexivity.
Qed.

(** A printer that cannot be reached defers the job: whatever is queued,
    the round returns, the job is first in the queue again and its files are
    kept. *)
Theorem printer_round_defers e t a ads id req l doc :
  queue (t_jobs t) (a :: ads) ((id, req) :: l) -> t_reread t = false ->
  t_files t !! job_path DATADIR id = Some doc -> e_jobfile e = true -> e_open e = true -> e_fstat e = true -> e_connect e = false ->
  exists t', printer_round e t = Ret (Some Deferred) t' /\
    queue (t_jobs t') (a :: ads) ((id, req) :: l) /\ t_files t' = t_files t.
Proof.
  intros Q Hre Hdoc Hjf Hop Hfs Hco.
  destruct (take_round e a ads id req l t Q) as (t1 & Q1 & H1 & F1 & _ & _ & _ & _ & V1 & E1).
  destruct (print_job_start e a ads id req l t1 Q1 H1 Hjf) as (t2 & Q2 & H2 & F2 & _ & _ & _ & _ & E2); [left; congruence|].
  destruct (finish_defer a ads id req l t2 Q2 H2) as (t3 & E3 & Q3 & F3).
  exists t3. split_and!; [|done|congruence].
  rewrite E1. assert (print_job e a t1 = Ret Deferred t3) as E6; [|by rewrite (bind_run _ _ _ _ _ E6)].
  rewrite E2, F1, Hop, Hdoc, Hfs, Hco. exact E3.
Qed.

(** * Sample rounds *)
Definition queued_job : jobq :=
  match add_job sample_job 7 (no_jobs (mk_file [] 0)) with Ret _ s => s | _ => no_jobs (mk_file [] 0) end.
Lemma queued_queue : queue queued_job [1] [(7, sample_job)].
Proof.
  split; [|reflexivity|reflexivity]. split; [|apply NoDup_singleton].
  split; [reflexivity|]. split; [discriminate|]. exists (mk_job 0 0 7 sample_job).
  split; [reflexivity|]. split; [reflexivity|]. split; reflexivity.
Qed.
Definition sample_thread : pthread :=
  mk_pthread queued_job {[ job_path DATADIR 7 := str "hello"; job_path REQDIR 7 := enc_req sample_job ]} false
    (str "lp") [] [] (mk_net [RData (response_text sample_response)] 0).
Definition sample_env (up : bool) : penv :=
  mk_penv true true None true up None (replicate 512 1) (replicate 512 2) (replicate IOBUFSZ 3) [] 200.

Lemma printer_round_conserves_witness :
  (exists v t', printer_round (sample_env true) sample_thread = Ret (Some v) t' /\
     round_kept (sample_env true) sample_thread 1 [] 7 sample_job [] v t') /\
  exists t', printer_round (sample_env false) sample_thread = Ret (Some Deferred) t' /\
    round_kept (sample_env false) sample_thread 1 [] 7 sample_job [] Deferred t'.
Proof.
  split.
  - destruct (printer_round_conserves (sample_env true) sample_thread 1 [] 7 sample_job [] queued_queue eq_refl) as [K R]; [by left|].
    destruct R as (v & t' & E).
    + split; [vm_compute; lia|]. exists (str "joe"), (str "f"). split; [reflexivity|]. split; [reflexivity|vm_compute; lia].
    + reflexivity.
    + reflexivity.
    + intros doc [= <-]. vm_compute. reflexivity.
    + intros _. vm_compute. reflexivity.
    + exists v, t'. split; [exact E|]. destruct (K _ _ E) as (v' & [= <-] & H). exact H.
  - destruct (printer_round (sample_env false) sample_thread) as [r t'| | |] eqn:E; try (vm_compute in E; discriminate E).
    destruct (printer_round_conserves (sample_env false) sample_thread 1 [] 7 sample_job [] queued_queue eq_refl) as [K _]; [by left|].
    destruct (K _ _ E) as (v & -> & H). assert (v = Deferred) as -> by (vm_compute in E; by injection E as <- _).
    exists t'. split; [reflexivity|exact H].
Defined.

Lemma printer_round_prints_witness :
  exists t', printer_round (sample_env true) sample_thread = Ret (Some Printed) t' /\ queue (t_jobs t') [] [].
Proof.
  destruct (printer_round_prints (sample_env true) sample_thread 1 [] 7 sample_job [] (str "hello") (str "joe") (str "f")
    sample_response []) as (t' & E & Q & _).
  - apply queued_queue.
  - reflexivity.
  - reflexivity.
  - reflexivity.
  - reflexivity.
  - reflexivity.
  - reflexivity.
  - reflexivity.
  - reflexivity.
  - reflexivity.
  - reflexivity.
  - reflexivity.
  - vm_compute. lia.
  - reflexivity.
  - reflexivity.
  - vm_compute. lia.
  - reflexivity.
  - apply sample_wf.
  - unfold sample_env. cbn [e_bp]. rewrite length_replicate. vm_compute. lia.
  - vm_compute. lia.
  - reflexivity.
  - reflexivity.
  - exists t'. split; [exact E|exact Q].
Defined.

Lemma printer_round_defers_witness :
  exists t', printer_round (sample_env false) sample_thread = Ret (Some Deferred) t' /\
    queue (t_jobs t') [1] [(7, sample_job)] /\ t_files t' = t_files sample_thread.
Proof.
  apply (printer_round_defers (sample_env false) sample_thread 1 [] 7 sample_job [] (str "hello")).
  - apply queued_queue.
  - reflexivity.
  - reflexivity.
  - reflexivity.
  - reflexivity.
  - reflexivity.
  - reflexivity.
Defined.
