(* ===== verification/PrintCmd.v ===== *)
(** The client command [print.c]: the request header it builds from the user
    and the file name, and [submit_file], which sends it with the document
    and reads the daemon's answer. *)
From Stdlib Require Import ZArith Lia.
From stdpp Require Import base list strings gmap numbers.
From S2P Require Import Prelude CString CFile Dll PrintJobs PrintIpp PrintNet PrintWorkers PrintClient.
Local Open Scope c_scope.

Definition RESPSZ : nat := 520.

(** The bytes sent to the daemon and what the next calls of [writen]
    return (a full write once the list is used up). *)
Record cmd := mk_cmd { c_sent : bytes; c_rets : list Z }.
Definition writen (bs : bytes) : M cmd Z := fun s =>
  match c_rets s with
  | [] => Ret (Z.of_nat (length bs)) (mk_cmd (c_sent s ++ bs) [])
  | r :: rest =>
      if r <? 0 then Ret (-1) (mk_cmd (c_sent s) rest)
      else Ret (Z.min r (Z.of_nat (length bs))) (mk_cmd (c_sent s ++ take (Z.to_nat r) bs) rest)
  end.

(** [strcpy] into an array. *)
Definition set_str (arr s : bytes) : bytes := splice 0 (s ++ [0]) arr.

(** [req.usernm] from the password entry, if there is one. *)
Definition user_array (arr : bytes) (pw_name : option bytes) : bytes :=
  match pw_name with
  | None => set_str arr (str "unknown")
  | Some n => <[(USERNM_MAX - 1)%nat := 0]> (splice 0 (strncpy (USERNM_MAX - 1) n) arr)
  end.

(** [req.jobnm]: a name that does not fit is cut at the front; [strncat]
    appends at most [JOBNM_MAX - 5] bytes and a terminator. *)
Definition job_array (arr fname : bytes) : bytes :=
  let len := length fname in
  if (JOBNM_MAX <=? len)%nat
  then set_str arr (str "... " ++ take (JOBNM_MAX - 5) (drop (len - JOBNM_MAX + 5) fname))
  else set_str arr fname.

(** The header, from the memory of [req]. *)
Definition build_header (umem jmem : bytes) (pw_name : option bytes) (fname : bytes) (nbytes : Z) (text : bool) : printreq :=
  mk_req (htonl nbytes) (if text then htonl PR_TEXT else 0) (user_array umem pw_name) (job_array jmem fname).

(** The loop over the document: the reads that return data ([None]: -1,
    whose count is handed to [writen] as it is), then the end of the file. *)
Fixpoint send_file (reads : list (option bytes)) : M cmd unit :=
  match reads with
  | [] => skip
  | None :: _ => undef "writen of -1 bytes"
  | Some bs :: r =>
      let* nw := writen bs in
      if negb (nw =? Z.of_nat (length bs)) then
        if nw <? 0 then die "can't write to print server" else die "short write to print server"
      else send_file r
  end.

(** [submit_file]: the job number printed, or the message of a rejection
    before [exit(1)]; [answer] is what [readn] gets from the daemon. *)
Definition submit_file (umem jmem : bytes) (pw_name : option bytes) (fname : bytes) (nbytes : Z) (text : bool)
  (reads : list (option bytes)) (answer : bytes) : M cmd (bytes + Z) :=
  let req := build_header umem jmem pw_name fname nbytes text in
  let* nw := writen (enc_req req) in
  (if negb (nw =? Z.of_nat REQSZ) then
     if nw <? 0 then die "can't write to print server" else die "short write to print server"
   else skip) ;;;
  send_file reads ;;;
  die_if (negb (length answer =? RESPSZ)%nat) "can't read response from server" ;;;
  if negb (get_le32 answer =? 0) then ret (inl (cstr (drop 8 answer)))
  else ret (inr (ntohl (get_le32 (drop 4 answer)))).

Section header.
Implicit Types (arr s fname : bytes).

Lemma set_str_length arr s : (length s < length arr)%nat -> length (set_str arr s) = length arr.
Proof. intros H. unfold set_str. apply splice_length. rewrite length_app. simpl. lia. Qed.

Lemma set_str_cstr arr s : Forall (fun c => c <> 0) s -> c_string (set_str arr s) = Some s.
Proof.
  intros H. unfold set_str, splice, c_string. cbn [take]. rewrite app_nil_l, Nat.sub_0_l. cbn [replicate app].
  rewrite <-app_assoc. cbn [app].
  rewrite bool_decide_true by (apply elem_of_app; right; by left). by rewrite cstr_app_nul.
Qed.

(** The job name: the file name, or its end behind three dots. *)
Definition job_name fname : bytes :=
  if (JOBNM_MAX <=? length fname)%nat then str "... " ++ drop (length fname - 251) fname else fname.

Lemma job_name_length fname : (length (job_name fname) < JOBNM_MAX)%nat.
Proof.
  unfold job_name. destruct (Nat.leb_spec JOBNM_MAX (length fname)); [|done].
  rewrite length_app, length_drop. unfold JOBNM_MAX in *. simpl. lia.
Qed.

Lemma job_array_spec arr fname : length arr = JOBNM_MAX -> Forall (fun c => c <> 0) fname ->
  length (job_array arr fname) = JOBNM_MAX /\ c_string (job_array arr fname) = Some (job_name fname).
Proof.
  intros Ha H. pose proof (job_name_length fname) as Hl. unfold job_array, job_name in *.
  destruct (Nat.leb_spec JOBNM_MAX (length fname)) as [L|L].
  - replace (length fname - JOBNM_MAX + 5)%nat with (length fname - 251)%nat by (unfold JOBNM_MAX in *; lia).
    rewrite take_ge by (rewrite length_drop; unfold JOBNM_MAX; lia).
    split; [rewrite set_str_length; lia|]. apply set_str_cstr, Forall_app. split; [by repeat constructor|by apply Forall_drop].
  - split; [rewrite set_str_length; lia|]. by apply set_str_cstr.
Qed.

Definition user_name (pw_name : option bytes) : bytes :=
  match pw_name with None => str "unknown" | Some n => take (USERNM_MAX - 1) n end.

Lemma user_array_spec arr pw : length arr = USERNM_MAX ->
  match pw with Some n => Forall (fun c => c <> 0) n | None => True end ->
  length (user_array arr pw) = USERNM_MAX /\ c_string (user_array arr pw) = Some (user_name pw).
Proof.
  intros Ha H. destruct pw as [n|]; cbn [user_array user_name]; [|split; [rewrite set_str_length; [done|rewrite Ha; vm_compute; lia]|apply set_str_cstr; by repeat constructor]].
  set (k := (USERNM_MAX - 1)%nat) in *.
  assert (length (strncpy k n) = k) as Hk.
  { unfold strncpy. rewrite length_app, length_take, length_replicate. lia. }
  assert (splice 0 (strncpy k n) arr = strncpy k n ++ drop k arr) as ->.
  { unfold splice. cbn [take]. by rewrite app_nil_l, Nat.sub_0_l, Nat.add_0_l, Hk. }
  rewrite insert_app_r_alt by lia. rewrite Hk, Nat.sub_diag.
  assert (exists z, drop k arr = [z]) as [z ->].
  { assert (length (drop k arr) = 1%nat) by (rewrite length_drop, Ha; done). destruct (drop k arr) as [|z [|]]; try done. by exists z. }
  cbn [insert list_insert]. split; [rewrite length_app, Hk; reflexivity|].
  unfold c_string. rewrite bool_decide_true by (apply elem_of_app; right; by left). f_equal.
  unfold strncpy. rewrite <-app_assoc. destruct (replicate (k - length n) 0) as [|x r] eqn:Er.
  - apply cstr_app_nul. by apply Forall_take.
  - assert (x = 0) as ->.
    { assert (x ∈ replicate (k - length n) 0) as Hx by (rewrite Er; by left). by apply elem_of_replicate in Hx as [-> _]. }
    apply cstr_app_nul. by apply Forall_take.
Qed.
End header.

Section byte_order.
Lemma byte_of x k : 0 <= k -> 0 <= Z.land (Z.shiftr x k) 255 < 256.
Proof. intros. change 255 with (Z.ones 8). rewrite Z.land_ones by lia. apply Z.mod_pos_bound. done. Qed.

Lemma le32_bytes x : exists b0 b1 b2 b3, le32 x = [b0; b1; b2; b3] /\
  0 <= b0 < 256 /\ 0 <= b1 < 256 /\ 0 <= b2 < 256 /\ 0 <= b3 < 256.
Proof.
  unfold le32. do 4 eexists. split; [reflexivity|].
  pose proof (byte_of (u32 x) 0 ltac:(lia)). rewrite Z.shiftr_0_r in *.
  split_and!; try apply byte_of; lia.
Qed.

Lemma le32_get b0 b1 b2 b3 :
  0 <= b0 < 256 -> 0 <= b1 < 256 -> 0 <= b2 < 256 -> 0 <= b3 < 256 ->
  le32 (get_le32 [b0; b1; b2; b3]) = [b0; b1; b2; b3].
Proof.
  intros H0 H1 H2 H3. cbn [get_le32]. set (x := b0 + 256 * b1 + 65536 * b2 + 16777216 * b3).
  unfold le32. rewrite wrapu_small by (unfold x; lia).
  change 255 with (Z.ones 8). rewrite !Z.land_ones, !Z.shiftr_div_pow2 by lia.
  change (2 ^ 8) with 256. change (2 ^ 16) with 65536. change (2 ^ 24) with 16777216.
  assert (x / 256 = b1 + 256 * b2 + 65536 * b3) as ->.
  { symmetry. apply (Z.div_unique _ _ _ b0); unfold x; lia. }
  assert (x / 65536 = b2 + 256 * b3) as ->.
  { symmetry. apply (Z.div_unique _ _ _ (b0 + 256 * b1)); unfold x; lia. }
  assert (x / 16777216 = b3) as ->.
  { symmetry. apply (Z.div_unique _ _ _ (b0 + 256 * b1 + 65536 * b2)); unfold x; lia. }
  repeat f_equal.
  - symmetry. apply (Z.mod_unique _ _ (b1 + 256 * b2 + 65536 * b3)); unfold x; lia.
  - symmetry. apply (Z.mod_unique _ _ (b2 + 256 * b3)); lia.
  - symmetry. apply (Z.mod_unique _ _ b3); lia.
  - apply Z.mod_small. lia.
Qed.

Lemma htonl_range x : 0 <= htonl x < 2 ^ 32.
Proof.
  unfold htonl. destruct (le32_bytes x) as (b0 & b1 & b2 & b3 & -> & ?). cbn [rev app get_le32]. lia.
Qed.

Lemma ntohl_htonl x : 0 <= x < 2 ^ 32 -> ntohl (htonl x) = x.
Proof.
  intros Hx. unfold ntohl, htonl. destruct (le32_bytes x) as (b0 & b1 & b2 & b3 & E & ? & ? & ? & ?).
  rewrite E. cbn [rev app]. rewrite le32_get by done. cbn [rev app]. rewrite <-E, <-(app_nil_r (le32 x)).
  by apply get_le32_le32.
Qed.
End byte_order.

Section sending.
Lemma send_file_run docs s : c_rets s = [] ->
  send_file (Some <$> docs) s = Ret tt (mk_cmd (c_sent s ++ mjoin docs) []).
Proof.
  revert s. induction docs as [|b docs IH]; intros s E.
  - destruct s. simpl in E. subst. simpl. by rewrite app_nil_r.
  - rewrite fmap_cons. cbn [send_file].
    assert (writen b s = Ret (Z.of_nat (length b)) (mk_cmd (c_sent s ++ b) [])) as Ew by (unfold writen; by rewrite E).
    call Ew. rewrite Z.eqb_refl. cbn [negb]. rewrite IH by done. cbn [c_sent].
    change (mjoin (b :: docs)) with (b ++ mjoin docs). by rewrite app_assoc.
Qed.
End sending.

(** C8: the command and the daemon agree.  What [submit_file] sends for a
    file, however the network splits it, makes [client_thread] queue a job
    with the file's size, the text flag if it was asked for, the user's name
    (cut to 63 bytes) and the file name (or its last 251 bytes behind
    three dots), with the document stored byte for byte. *)
Theorem print_end_to_end umem jmem pw fname nbytes text docs answer strerror tid fd resmem bufmem d ads l t :
  length umem = USERNM_MAX -> length jmem = JOBNM_MAX -> 0 <= nbytes < 2 ^ 32 ->
  match pw with Some n => Forall (fun c => c <> 0) n | None => True end -> Forall (fun c => c <> 0) fname ->
  length answer = RESPSZ -> ready d ads l -> disk_ok d ->
  (forall sent r, submit_file umem jmem pw fname nbytes text (Some <$> docs) answer (mk_cmd [] []) = Ret r (mk_cmd sent []) ->
     arriving (n_in (d_net d)) = (sent, t)) ->
  exists r sent d' a req, submit_file umem jmem pw fname nbytes text (Some <$> docs) answer (mk_cmd [] []) = Ret r (mk_cmd sent []) /\
    client_thread strerror tid fd resmem bufmem d = Ret 0 d' /\
    queue (d_jobs d') (ads ++ [a]) (l ++ [(nextjob (d_jobs d), req)]) /\
    rq_size req = nbytes /\ (text = true -> Z.testbit (rq_flags req) 0 = true) /\
    c_string (usernm req) = Some (user_name pw) /\ c_string (jobnm req) = Some (job_name fname) /\
    d_files d' !! job_path DATADIR (nextjob (d_jobs d)) = Some (mjoin docs).
Proof.
  intros Hu Hj Hn Hpw Hf Hans Hrdy Hok Hnet.
  set (req := build_header umem jmem pw fname nbytes text).
  destruct (user_array_spec umem pw Hu Hpw) as [Lu Cu]. destruct (job_array_spec jmem fname Hj Hf) as [Lj Cj].
  assert (wf_req req) as W.
  { split; [apply htonl_range| |done|done]. unfold req. cbn [rq_flags build_header]. destruct text; [apply htonl_range|lia]. }
  assert (length (enc_req req) = REQSZ) as Lr.
  { unfold enc_req. rewrite !length_app, (wr_user _ W), (wr_job _ W). reflexivity. }
  assert (exists r, submit_file umem jmem pw fname nbytes text (Some <$> docs) answer (mk_cmd [] []) =
    Ret r (mk_cmd (enc_req req ++ mjoin docs) [])) as [r E].
  { unfold submit_file. fold req.
    rewrite (bind_run (writen (enc_req req)) _ (mk_cmd [] []) (Z.of_nat (length (enc_req req))) (mk_cmd (enc_req req) []) eq_refl). rewrite Lr, Z.eqb_refl. cbn [negb].
    rewrite (bind_run skip _ _ tt _ eq_refl). rewrite (bind_run _ _ _ _ _ (send_file_run docs (mk_cmd (enc_req req) []) eq_refl)).
    rewrite Hans, Nat.eqb_refl. cbn [negb die_if c_sent]. rewrite (bind_run skip _ _ tt _ eq_refl).
    destruct (negb _); by eexists. }
  destruct (accepts_run strerror tid fd resmem bufmem d ads l (enc_req req) (mjoin docs) t Hrdy Hok (Hnet _ _ E) Lr)
    as (d' & a & fl & E2 & Hfl & F & _ & Q & _).
  unfold accepted in Q, Hfl. rewrite (dec_enc_req req W) in Q, Hfl.
  exists r, (enc_req req ++ mjoin docs), d', a, (mk_req (ntohl (rq_size req)) fl (usernm req) (jobnm req)).
  split_and!; try done.
  - cbn [rq_size]. unfold req, build_header. cbn [rq_size]. by apply ntohl_htonl.
  - intros ->. cbn [rq_flags]. unfold req, build_header in Hfl. cbn [rq_flags] in Hfl.
    rewrite (ntohl_htonl PR_TEXT) in Hfl by (vm_compute; split; [discriminate|done]).
    destruct Hfl as [-> | ->]; reflexivity.
Qed.

Lemma print_end_to_end_witness :
  exists r sent d' a req,
    submit_file (replicate 64 9) (replicate 256 9) (Some (str "joe")) (str "a.txt") 5 true [Some (str "hello")] (replicate 520 0)
      (mk_cmd [] []) = Ret r (mk_cmd sent []) /\
    client_thread sample_strerror 1 7 (replicate 512 0) (replicate IOBUFSZ 0)
      (idle_daemon [RData (enc_req (build_header (replicate 64 9) (replicate 256 9) (Some (str "joe")) (str "a.txt") 5 true) ++ str "hello")])
      = Ret 0 d' /\
    queue (d_jobs d') ([] ++ [a]) ([] ++ [(1, req)]) /\ c_string (jobnm req) = Some (str "a.txt").
Proof.
  destruct (print_end_to_end (replicate 64 9) (replicate 256 9) (Some (str "joe")) (str "a.txt") 5 true [str "hello"] (replicate 520 0)
    sample_strerror 1 7 (replicate 512 0) (replicate IOBUFSZ 0)
    (idle_daemon [RData (enc_req (build_header (replicate 64 9) (replicate 256 9) (Some (str "joe")) (str "a.txt") 5 true) ++ str "hello")])
    [] [] []) as (r & sent & d' & a & req & E1 & E2 & Q & _ & _ & _ & J & _).
  - reflexivity.
  - reflexivity.
  - lia.
  - repeat constructor; discriminate.
  - repeat constructor; discriminate.
  - reflexivity.
  - apply idle_ready.
  - split; reflexivity.
  - intros sent r E. vm_compute in E. injection E as _ <-. vm_compute. reflexivity.
  - exists r, sent, d', a, req. split; [exact E1|]. split; [exact E2|]. split; [exact Q|exact J].
Defined.
