(* ===== verification/Inet4.v ===== *)
(** IPv4 addresses as text, [unpv13e/libfree]: [inet_pton4] and [inet_ntop4]
    of [inet_pton.c] and [inet_ntop.c], the IPv4-only versions of
    [inet_pton_ipv4.c] and [inet_ntop_ipv4.c], and [inet_aton.c]. *)
From Stdlib Require Import ZArith Lia.
From stdpp Require Import base list strings gmap numbers.
From S2P Require Import Prelude CString CFile.
Local Open Scope c_scope.

Definition INADDRSZ : nat := 4.
Definition INET_ADDRSTRLEN : nat := 16.
Definition ENOSPC : Z := 28.
Definition EAFNOSUPPORT : Z := 47.
Definition AF_INET : Z := 2.

(** * Parsing *)

(** A store through a pointer into an array. *)
Definition store (i : nat) (v : Z) (arr : bytes) : M unit bytes :=
  if (i <? length arr)%nat then ret (<[i := v]> arr) else undef "write past the array".
Definition fetch (i : nat) (arr : bytes) : M unit Z :=
  match arr !! i with Some v => ret v | None => undef "read past the array" end.

(** The loop of [inet_pton4] over the string, with [tmp], the index [tp],
    [octets] and [saw_digit]; [None] is the return value 0. *)
Fixpoint pton4_loop (src : bytes) (tmp : bytes) (tp octets : nat) (saw_digit : bool) : M unit (option bytes) :=
  match src with
  | [] => if (octets <? 4)%nat then ret None else ret (Some (take INADDRSZ tmp))
  | ch :: r =>
      if isdigit ch then
        let* cur := fetch tp tmp in
        let new := cur * 10 + (ch - 48) in
        if new >? 255 then ret None
        else
          let* tmp := store tp new tmp in
          if saw_digit then pton4_loop r tmp tp octets true
          else if (4 <? S octets)%nat then ret None
          else pton4_loop r tmp tp (S octets) true
      else if (ch =? c_dot) && saw_digit then
        if (octets =? 4)%nat then ret None
        else
          let* tmp := store (S tp) 0 tmp in
          pton4_loop r tmp (S tp) octets false
      else ret None
  end.
(** [tmpmem] is the memory of [tmp]; the result is what is copied to [dst]. *)
Definition inet_pton4 (tmpmem src : bytes) : M unit (option bytes) :=
  let* tmp := store 0 0 tmpmem in pton4_loop src tmp 0 0 false.

(** * Printing *)
Definition quad_text (a b c d : Z) : bytes :=
  udec a ++ [c_dot] ++ udec b ++ [c_dot] ++ udec c ++ [c_dot] ++ udec d.

(** [inet_ntop4] into a buffer [dst] whose size the caller gives as [size]:
    the buffer, or [None] for NULL with [ENOSPC]. *)
Definition inet_ntop4 (src dst : bytes) (size : nat) : M unit (option bytes) :=
  match src with
  | a :: b :: c :: d :: _ =>
      let tmp := quad_text a b c d in
      if (16 <? length tmp + 1)%nat then undef "overflow of tmp"
      else if (size <? length tmp)%nat then ret None
      else if (length dst <? length tmp + 1)%nat then undef "strcpy past dst"
      else ret (Some (splice 0 (tmp ++ [0]) dst))
  | _ => undef "read past src"
  end.

(** [inet_ntop] of [inet_ntop_ipv4.c], where the terminator is counted; the
    second component is [errno]. *)
Definition inet_ntop_v4only (family : Z) (src dst : bytes) (len : nat) : M unit (option bytes * Z) :=
  if family =? AF_INET then
    match src with
    | a :: b :: c :: d :: _ =>
        let temp := take (INET_ADDRSTRLEN - 1) (quad_text a b c d) in
        if (len <=? length temp)%nat then ret (None, ENOSPC)
        else if (length dst <? length temp + 1)%nat then undef "strcpy past dst"
        else ret (Some (splice 0 (temp ++ [0]) dst), 0)
    | _ => undef "read past src"
    end
  else ret (None, EAFNOSUPPORT).

(** * [inet_aton] *)

(** The loop, one call per character, the terminator included; [acc] and
    [addr] are [u_long]s. *)
Fixpoint aton_loop (cp : bytes) (dots : nat) (acc addr : Z) : option (nat * Z) :=
  match cp with
  | [] => if acc >? 255 then None else Some (dots, Z.lor (u64 (Z.shiftl addr 8)) acc)
  | cc :: r =>
      if isdigit cc then aton_loop r dots (u64 (acc * 10 + (cc - 48))) addr
      else if cc =? c_dot then
        if (3 <? S dots)%nat then None
        else if acc >? 255 then None
        else aton_loop r (S dots) 0 (Z.lor (u64 (Z.shiftl addr 8)) acc)
      else None
  end.
(** The address as an integer before [htonl]; [None] is the return value 0. *)
Definition inet_aton (cp : bytes) : option Z :=
  match aton_loop cp 0 0 0 with
  | None => None
  | Some (dots, addr) =>
      Some (u32 (if (dots <? 3)%nat then u64 (Z.shiftl addr (8 * (3 - Z.of_nat dots))) else addr))
  end.

(** [inet_pton] of [inet_pton_ipv4.c]: the return value, the address and
    [errno]. *)
Definition inet_pton_v4only (family : Z) (src : bytes) : Z * option Z * Z :=
  if family =? AF_INET then
    match inet_aton src with Some a => (1, Some a, 0) | None => (0, None, 0) end
  else (-1, None, EAFNOSUPPORT).

(** * What a dotted quad is *)

(** The fields between dots. *)
Fixpoint split_dots (s : bytes) : list bytes :=
  match s with
  | [] => [[]]
  | c :: r =>
      if c =? c_dot then [] :: split_dots r
      else match split_dots r with f :: fs => (c :: f) :: fs | [] => [[c]] end
  end.
Definition field_ok (f : bytes) : bool :=
  negb (bool_decide (f = [])) && forallb isdigit f && (dval 0 f <=? 255).
Definition dotted_quad (s : bytes) : option bytes :=
  let fs := split_dots s in
  if forallb field_ok fs && (length fs =? 4)%nat then Some (dval 0 <$> fs) else None.

Section quad.
Implicit Types (s p f acc tmp : bytes).

Lemma split_nonempty s : exists f fs, split_dots s = f :: fs.
Proof.
  induction s as [|c s (f & fs & E)]; simpl; [eauto|]. destruct (c =? c_dot); [eauto|]. rewrite E. eauto.
Qed.

Lemma field_ok_nil : field_ok [] = false.
Proof. done. Qed.

Lemma dval_snoc a p c : dval a (p ++ [c]) = dval a p * 10 + (c - 48).
Proof. revert a. induction p as [|x p IH]; intros a; simpl; [done|apply IH]. Qed.

Lemma dval_mono a b : 0 <= a -> forallb isdigit b = true -> a <= dval a b.
Proof.
  revert a. induction b as [|x b IH]; intros a Ha H; simpl in *; [lia|].
  apply andb_true_iff in H as [Hx Hb]. unfold isdigit in Hx. etransitivity; [|apply IH; [lia|done]]. lia.
Qed.

Lemma dval_app_ge a p q : 0 <= a -> forallb isdigit p = true -> forallb isdigit q = true -> dval a p <= dval a (p ++ q).
Proof.
  intros Ha Hp Hq. assert (dval a (p ++ q) = dval (dval a p) q) as ->.
  { clear. revert a. induction p as [|x p IH]; intros a; simpl; [done|apply IH]. }
  apply dval_mono; [|done]. transitivity a; [done|by apply dval_mono].
Qed.

(** The invariant of the loop: [acc] holds the finished fields, [p] the
    digits of the current one. *)
Record inv (tmp acc p : bytes) (tp octets : nat) (saw : bool) : Prop := {
  inv_tmp : take (S tp) tmp = acc ++ [dval 0 p];
  inv_len : length tmp = 4%nat;
  inv_tp : length acc = tp;
  inv_lt : (tp < 4)%nat;
  inv_p : forallb isdigit p = true;
  inv_v : dval 0 p <= 255;
  inv_saw : saw = negb (bool_decide (p = []));
  inv_oct : octets = if saw then S tp else tp
}.

Lemma inv_cur tmp acc p tp octets saw : inv tmp acc p tp octets saw -> tmp !! tp = Some (dval 0 p).
Proof.
  intros [T L A Lt _ _ _ _]. rewrite <-(take_drop (S tp) tmp), T, <-app_assoc, <-A. by apply list_lookup_middle.
Qed.

Lemma inv_digit tmp acc p tp octets saw ch :
  inv tmp acc p tp octets saw -> isdigit ch = true -> dval 0 p * 10 + (ch - 48) <= 255 ->
  inv (<[tp := dval 0 p * 10 + (ch - 48)]> tmp) acc (p ++ [ch]) tp (S tp) true.
Proof.
  intros [T L A Lt P V S O] Hc Hv. split; try done.
  - rewrite take_insert_lt, T, insert_app_r_alt by lia. rewrite A, Nat.sub_diag. simpl. by rewrite dval_snoc.
  - by rewrite length_insert.
  - rewrite forallb_app, P. simpl. by rewrite Hc.
  - by rewrite dval_snoc.
  - rewrite bool_decide_false; [done|]. by destruct p.
Qed.

Lemma inv_dot tmp acc p tp octets :
  inv tmp acc p tp octets true -> octets <> 4%nat ->
  inv (<[S tp := 0]> tmp) (acc ++ [dval 0 p]) [] (S tp) octets false.
Proof.
  intros [T L A Lt P V S O] Ho. split; try done.
  - rewrite (take_S_r _ _ 0) by (apply list_lookup_insert_eq; lia). by rewrite take_insert_ge, T by lia.
  - by rewrite length_insert.
  - rewrite length_app. simpl. lia.
  - lia.
Qed.

(** From any point of the string the loop computes the quad. *)
Lemma pton4_loop_spec s tmp acc p tp octets saw :
  inv tmp acc p tp octets saw ->
  pton4_loop s tmp tp octets saw tt =
    Ret (match split_dots s with
         | f :: fs => if forallb field_ok ((p ++ f) :: fs) && (S tp + length fs =? 4)%nat
                      then Some (acc ++ (dval 0 <$> ((p ++ f) :: fs))) else None
         | [] => None
         end) tt.
Proof.
  revert tmp acc p tp octets saw. induction s as [|ch s IH]; intros tmp acc p tp octets saw I.
  - simpl. rewrite app_nil_r, andb_true_r. destruct I as [T L A Lt P V S O].
    assert (field_ok p = saw) as Hok.
    { unfold field_ok. rewrite P, <-S. apply Z.leb_le in V. by rewrite V, !andb_true_r. }
    rewrite Hok. destruct saw; subst octets.
    + destruct (Nat.ltb_spec (Datatypes.S tp) 4); destruct (Nat.eqb_spec (tp + 0) 3); try lia; simpl; [done|].
      assert (tp = 3%nat) as E by lia. rewrite E in T. change INADDRSZ with 4%nat. by rewrite T.
    + destruct (Nat.ltb_spec tp 4); [done|lia].
  - cbn [pton4_loop split_dots]. destruct (isdigit ch) eqn:Ed.
    + assert (ch <> c_dot) as Hnd by (unfold isdigit, c_dot in *; lia). apply Z.eqb_neq in Hnd. rewrite Hnd.
      destruct (split_nonempty s) as (f & fs & Es). rewrite Es.
      unfold fetch. rewrite (inv_cur _ _ _ _ _ _ I), (bind_run (ret _) _ tt _ tt eq_refl).
      destruct (Z.gtb_spec (dval 0 p * 10 + (ch - 48)) 255) as [G|G].
      * cbn [forallb]. replace (field_ok (p ++ ch :: f)) with false; [done|]. symmetry. unfold field_ok.
        destruct (forallb isdigit (p ++ ch :: f)) eqn:Ef; [|by rewrite andb_false_r].
        rewrite andb_true_r. apply andb_false_iff. right. apply Z.leb_gt.
        rewrite cons_middle, app_assoc in Ef |- *. rewrite forallb_app in Ef. apply andb_true_iff in Ef as [E1 E2].
        pose proof (dval_app_ge 0 (p ++ [ch]) f ltac:(lia) E1 E2) as X. rewrite dval_snoc in X. lia.
      * pose proof (inv_digit _ _ _ _ _ _ ch I Ed G) as I'. unfold store.
        pose proof I as [_ L _ Lt _ _ _ O]. replace (tp <? length tmp)%nat with true by (symmetry; apply Nat.ltb_lt; lia).
        rewrite (bind_run (ret _) _ tt _ tt eq_refl). pose proof (IH _ _ _ _ _ _ I') as IHs. rewrite Es in IHs.
        rewrite <-app_assoc in IHs. cbn [app] in IHs. destruct saw; subst octets; [exact IHs|].
        destruct (Nat.ltb_spec 4 (S tp)); [lia|exact IHs].
    + destruct (Z.eqb_spec ch c_dot) as [->|Hnd]; cbn [andb].
      * pose proof I as [_ L _ Lt P V S O]. rewrite app_nil_r. cbn [forallb fmap list_fmap].
        assert (field_ok p = saw) as Hok.
        { unfold field_ok. rewrite P, <-S. apply Z.leb_le in V. by rewrite V, !andb_true_r. }
        rewrite Hok. destruct saw; cbn [andb]; [|done]. destruct (split_nonempty s) as (f & fs & Es).
        destruct (Nat.eqb_spec octets 4) as [E4|N4].
        -- rewrite Es. cbn [length]. destruct (Nat.eqb_spec (Datatypes.S tp + Datatypes.S (length fs)) 4); [lia|].
           by rewrite andb_false_r.
        -- pose proof (inv_dot _ _ _ _ _ I N4) as I'. unfold store.
           replace (Datatypes.S tp <? length tmp)%nat with true by (symmetry; apply Nat.ltb_lt; lia).
           rewrite (bind_run (ret _) _ tt _ tt eq_refl), (IH _ _ _ _ _ _ I'), Es. cbn [app length].
           replace (Datatypes.S (Datatypes.S tp) + length fs)%nat with (Datatypes.S tp + Datatypes.S (length fs))%nat by lia.
           rewrite <-app_assoc. done.
      * destruct (split_nonempty s) as (f & fs & Es). rewrite Es. cbn [forallb].
        replace (field_ok (p ++ ch :: f)) with false; [done|]. symmetry. unfold field_ok.
        rewrite forallb_app. simpl. rewrite Ed. by rewrite andb_false_r, andb_false_r.
Qed.

Lemma pton4_run tmpmem src : length tmpmem = INADDRSZ -> inet_pton4 tmpmem src tt = Ret (dotted_quad src) tt.
Proof.
  intros L. unfold inet_pton4, store. rewrite L. change (0 <? INADDRSZ)%nat with true. cbv iota. rewrite (bind_run (ret _) _ tt _ tt eq_refl).
  rewrite (pton4_loop_spec _ _ [] []).
  - unfold dotted_quad. destruct (split_nonempty src) as (f & fs & ->). done.
  - split; try done.
    + destruct tmpmem; [done|]. done.
    + by rewrite length_insert, L.
    + lia.
Qed.

Lemma split_app f s : forallb isdigit f = true -> split_dots (f ++ c_dot :: s) = f :: split_dots s.
Proof.
  induction f as [|c f IH]; intros H; [done|]. simpl in *. apply andb_true_iff in H as [Hc Hf].
  assert (c <> c_dot) as Hn by (unfold isdigit, c_dot in *; lia). apply Z.eqb_neq in Hn. by rewrite Hn, IH.
Qed.

Lemma split_last f : forallb isdigit f = true -> split_dots f = [f].
Proof.
  induction f as [|c f IH]; intros H; [done|]. simpl in *. apply andb_true_iff in H as [Hc Hf].
  assert (c <> c_dot) as Hn by (unfold isdigit, c_dot in *; lia). apply Z.eqb_neq in Hn. by rewrite Hn, IH.
Qed.

Lemma udec_field n : 0 <= n <= 255 -> forallb isdigit (udec n) = true /\ field_ok (udec n) = true /\
  dval 0 (udec n) = n /\ (1 <= length (udec n) <= 3)%nat.
Proof.
  intros Hn. destruct (udec_spec n) as (Hne & Hd & Hv); [lia|].
  assert (forallb isdigit (udec n) = true) as Hf by (by apply forallb_forall, List.Forall_forall).
  pose proof (udec_length n 2 ltac:(simpl; lia)). split_and!; try done.
  - unfold field_ok. rewrite Hf, Hv. rewrite bool_decide_false by done. simpl. apply Z.leb_le. lia.
  - destruct (udec n); [done|simpl; lia].
Qed.

Lemma quad_text_run a b c d : 0 <= a <= 255 -> 0 <= b <= 255 -> 0 <= c <= 255 -> 0 <= d <= 255 ->
  dotted_quad (quad_text a b c d) = Some [a; b; c; d] /\ (7 <= length (quad_text a b c d) <= 15)%nat.
Proof.
  intros Ha Hb Hc Hd. destruct (udec_field a Ha) as (A1 & A2 & A3 & A4). destruct (udec_field b Hb) as (B1 & B2 & B3 & B4).
  destruct (udec_field c Hc) as (C1 & C2 & C3 & C4). destruct (udec_field d Hd) as (D1 & D2 & D3 & D4).
  unfold dotted_quad, quad_text. cbn [app]. rewrite !split_app, split_last by done. cbn [forallb].
  rewrite A2, B2, C2, D2. simpl. rewrite A3, B3, C3, D3. split; [done|].
  repeat (rewrite length_app; simpl). lia.
Qed.

Lemma quad_text_nonul a b c d : 0 <= a <= 255 -> 0 <= b <= 255 -> 0 <= c <= 255 -> 0 <= d <= 255 ->
  Forall (fun x => x <> 0) (quad_text a b c d).
Proof.
  intros Ha Hb Hc Hd. unfold quad_text.
  assert (forall n, 0 <= n <= 255 -> Forall (fun x => x <> 0) (udec n)) as H.
  { intros n Hn. destruct (udec_spec n) as (_ & D & _); [lia|]. eapply Forall_impl; [|exact D]. by intros x Hx ->. }
  rewrite !Forall_app. split_and!; auto; by repeat constructor.
Qed.
End quad.

(** C9: [inet_pton4] accepts exactly the dotted quads: four fields of
    decimal digits, none empty and none above 255, with single dots between
    them; it returns their values and touches nothing outside its array, on
    every string. *)
Theorem inet_pton4_exact tmpmem src :
  length tmpmem = INADDRSZ -> inet_pton4 tmpmem src tt = Ret (dotted_quad src) tt.
Proof. apply pton4_run. Qed.

Lemma inet_pton4_exact_witness :
  inet_pton4 [9; 9; 9; 9] (str "192.168.010.255") tt = Ret (Some [192; 168; 10; 255]) tt.
Proof. apply (inet_pton4_exact [9; 9; 9; 9] (str "192.168.010.255")). reflexivity. Defined.

Definition byte4 (l : bytes) : Prop := length l = 4%nat /\ Forall (fun x => 0 <= x <= 255) l.

(** Printing and parsing an IPv4 address gives the address back, when
    the buffer has room for the text and its terminator. *)
Theorem inet4_round_trip tmpmem addr dst :
  byte4 addr -> length tmpmem = INADDRSZ -> (INET_ADDRSTRLEN <= length dst)%nat ->
  exists out, inet_ntop4 addr dst (length dst) tt = Ret (Some out) tt /\
    inet_pton4 tmpmem (cstr out) tt = Ret (Some addr) tt.
Proof.
  intros [La Fa] Lt Ld. destruct addr as [|a [|b [|c [|d [|]]]]]; try done.
  rewrite !list.Forall_cons in Fa. destruct Fa as (Ha & Hb & Hc & Hd & _).
  destruct (quad_text_run a b c d Ha Hb Hc Hd) as [Q L]. unfold inet_ntop4, INET_ADDRSTRLEN in *.
  destruct (Nat.ltb_spec 16 (length (quad_text a b c d) + 1)); [lia|].
  destruct (Nat.ltb_spec (length dst) (length (quad_text a b c d))); [lia|].
  destruct (Nat.ltb_spec (length dst) (length (quad_text a b c d) + 1)); [lia|].
  eexists. split; [reflexivity|]. rewrite pton4_run by done. f_equal.
  assert (cstr (splice 0 (quad_text a b c d ++ [0]) dst) = quad_text a b c d) as ->; [|done].
  unfold splice. cbn [take]. rewrite app_nil_l, Nat.sub_0_l. cbn [replicate app]. rewrite <-app_assoc.
  apply cstr_app_nul. by apply quad_text_nonul.
Qed.

Lemma inet4_round_trip_witness :
  exists out, inet_ntop4 [127; 0; 0; 1] (replicate 16 7) 16 tt = Ret (Some out) tt /\
    inet_pton4 [9; 9; 9; 9] (cstr out) tt = Ret (Some [127; 0; 0; 1]) tt.
Proof.
  apply (inet4_round_trip [9; 9; 9; 9] [127; 0; 0; 1] (replicate 16 7)).
  - split; [reflexivity|]. repeat constructor; lia.
  - reflexivity.
  - vm_compute. lia.
Defined.

(** The size check of [inet_ntop4] is off by one: it refuses a buffer
    shorter than the text, but with a buffer of exactly the length of the
    text [strcpy] writes the terminator past its end; the version of
    [inet_ntop_ipv4.c] counts the terminator and refuses that buffer. *)
Theorem inet_ntop4_off_by_one a b c d dst :
  byte4 [a; b; c; d] ->
  let n := length (quad_text a b c d) in
  inet_ntop4 [a; b; c; d] dst (length dst) tt =
    (if (length dst <? n)%nat then Ret None tt
     else if (length dst =? n)%nat then Undef "strcpy past dst"
     else Ret (Some (splice 0 (quad_text a b c d ++ [0]) dst)) tt) /\
  inet_ntop_v4only AF_INET [a; b; c; d] dst (length dst) tt =
    (if (length dst <=? n)%nat then Ret (None, ENOSPC) tt
     else Ret (Some (splice 0 (quad_text a b c d ++ [0]) dst), 0) tt).
Proof.
  intros [_ F] n. rewrite !list.Forall_cons in F. destruct F as (Ha & Hb & Hc & Hd & _).
  destruct (quad_text_run a b c d Ha Hb Hc Hd) as [_ L]. fold n in L. split.
  - unfold inet_ntop4. fold n. destruct (Nat.ltb_spec 16 (n + 1)); [lia|].
    destruct (Nat.ltb_spec (length dst) n); [done|]. destruct (Nat.eqb_spec (length dst) n).
    + destruct (Nat.ltb_spec (length dst) (n + 1)); [done|lia].
    + destruct (Nat.ltb_spec (length dst) (n + 1)); [lia|done].
  - unfold inet_ntop_v4only. change (AF_INET =? AF_INET) with true. cbv iota.
    rewrite take_ge by (fold n; unfold INET_ADDRSTRLEN; lia). fold n.
    destruct (Nat.leb_spec (length dst) n); [done|]. destruct (Nat.ltb_spec (length dst) (n + 1)); [lia|done].
Qed.

Lemma inet_ntop4_off_by_one_witness :
  inet_ntop4 [127; 0; 0; 1] (replicate 9 7) 9 tt = Undef "strcpy past dst" /\
  inet_ntop_v4only AF_INET [127; 0; 0; 1] (replicate 9 7) 9 tt = Ret (None, ENOSPC) tt.
Proof.
  apply (inet_ntop4_off_by_one 127 0 0 1 (replicate 9 7)). split; [reflexivity|]. repeat constructor; lia.
Defined.

Section aton.
Implicit Types (f s : bytes).

Lemma lor_shift8 a b : 0 <= b < 256 -> Z.lor (Z.shiftl a 8) b = a * 256 + b.
Proof.
  intros Hb. assert (Z.land (Z.shiftl a 8) b = 0) as E.
  { apply Z.bits_inj'. intros n Hn. rewrite Z.land_spec, Z.bits_0. destruct (Z.lt_ge_cases n 8).
    - by rewrite Z.shiftl_spec_low.
    - rewrite <-(Z.mod_small b (2 ^ 8)) by (simpl; lia). by rewrite Z.mod_pow2_bits_high, andb_false_r by lia. }
  pose proof (Z.add_lor_land (Z.shiftl a 8) b) as H. rewrite E, Z.shiftl_mul_pow2 in H by lia.
  rewrite Z.shiftl_mul_pow2 by lia. change (2 ^ 8) with 256 in *. lia.
Qed.

(** Reading one field: the accumulator never wraps while it stays below
    256. *)
Lemma aton_field f s dots acc addr :
  forallb isdigit f = true -> 0 <= acc -> dval acc f <= 255 ->
  aton_loop (f ++ s) dots acc addr = aton_loop s dots (dval acc f) addr.
Proof.
  revert acc. induction f as [|c f IH]; intros acc Hf Ha Hv; [done|]. cbn [app aton_loop dval] in *. simpl in Hf.
  apply andb_true_iff in Hf as [Hc Hf]. rewrite Hc.
  assert (0 <= acc * 10 + (c - 48)) by (unfold isdigit in Hc; lia).
  pose proof (dval_mono (acc * 10 + (c - 48)) f ltac:(done) Hf).
  rewrite wrapu_small by (simpl; lia). by apply IH.
Qed.

Lemma aton_dot f s dots addr :
  forallb isdigit f = true -> dval 0 f <= 255 -> (dots < 3)%nat -> 0 <= addr < 2 ^ 32 ->
  aton_loop (f ++ c_dot :: s) dots 0 addr = aton_loop s (S dots) 0 (addr * 256 + dval 0 f).
Proof.
  intros Hf Hv Hd Ha. rewrite aton_field by (done || lia). cbn [aton_loop]. change (isdigit c_dot) with false.
  change (c_dot =? c_dot) with true. cbv iota. destruct (Nat.ltb_spec 3 (S dots)); [lia|].
  destruct (Z.gtb_spec (dval 0 f) 255); [lia|]. pose proof (dval_mono 0 f ltac:(lia) Hf).
  rewrite wrapu_small by (rewrite Z.shiftl_mul_pow2 by lia; simpl; lia). by rewrite lor_shift8 by lia.
Qed.

Lemma aton_end f dots addr :
  forallb isdigit f = true -> dval 0 f <= 255 -> 0 <= addr < 2 ^ 32 ->
  aton_loop f dots 0 addr = Some (dots, addr * 256 + dval 0 f).
Proof.
  intros Hf Hv Ha. rewrite <-(app_nil_r f) at 1. rewrite aton_field by (done || lia). cbn [aton_loop].
  destruct (Z.gtb_spec (dval 0 f) 255); [lia|]. pose proof (dval_mono 0 f ltac:(lia) Hf).
  rewrite wrapu_small by (rewrite Z.shiftl_mul_pow2 by lia; simpl; lia). by rewrite lor_shift8 by lia.
Qed.

(** A string is its fields with dots between them. *)
Lemma split_join s : exists f fs, split_dots s = f :: fs /\ s = f ++ mjoin ((fun g => c_dot :: g) <$> fs).
Proof.
  induction s as [|c s (f & fs & E & H)]; [by exists [], []|]. cbn [split_dots].
  destruct (Z.eqb_spec c c_dot) as [->|].
  - exists [], (f :: fs). split; [by rewrite E|]. rewrite H at 1. done.
  - exists (c :: f), fs. rewrite E. split; [done|]. by rewrite H at 1.
Qed.

Lemma field_ok_inv f : field_ok f = true -> forallb isdigit f = true /\ dval 0 f <= 255.
Proof. unfold field_ok. intros [[_ H]%andb_true_iff V]%andb_true_iff. split; [done|]. by apply Z.leb_le. Qed.
End aton.

(** [inet_aton] reads every dotted quad as the same address as
    [inet_pton4], but it accepts more than the addresses: the empty string,
    a single number (as the first byte, not the last), and a field that wraps
    around the accumulator. *)
Theorem inet_aton_extends src a b c d :
  dotted_quad src = Some [a; b; c; d] ->
  inet_aton src = Some (((a * 256 + b) * 256 + c) * 256 + d) /\
  inet_aton [] = Some 0 /\ inet_aton (str "1") = Some (2 ^ 24) /\
  inet_aton (str "18446744073709551617.0.0.1") = Some (2 ^ 24 + 1) /\
  dotted_quad [] = None /\ dotted_quad (str "1") = None /\ dotted_quad (str "18446744073709551617.0.0.1") = None.
Proof.
  intros H. split; [|vm_compute; repeat split; reflexivity]. unfold dotted_quad in H.
  destruct (split_join src) as (f1 & fs & E & Hs). rewrite E in H.
  destruct (forallb field_ok (f1 :: fs) && (length (f1 :: fs) =? 4)%nat) eqn:Ok; [|done].
  apply andb_true_iff in Ok as [Hok Hl]. destruct fs as [|f2 [|f3 [|f4 [|]]]]; try done.
  cbn [forallb] in Hok. rewrite !andb_true_iff in Hok. destruct Hok as (K1 & K2 & K3 & K4 & _).
  apply field_ok_inv in K1 as [F1 V1], K2 as [F2 V2], K3 as [F3 V3], K4 as [F4 V4].
  pose proof (dval_mono 0 f1 ltac:(lia) F1). pose proof (dval_mono 0 f2 ltac:(lia) F2).
  pose proof (dval_mono 0 f3 ltac:(lia) F3). pose proof (dval_mono 0 f4 ltac:(lia) F4).
  cbn [fmap list_fmap] in H. injection H as <- <- <- <-.
  assert (src = f1 ++ c_dot :: f2 ++ c_dot :: f3 ++ c_dot :: f4) as ->.
  { rewrite Hs. simpl. by rewrite app_nil_r. }
  unfold inet_aton. rewrite (aton_dot f1) by (done || lia). rewrite (aton_dot f2) by (done || lia).
  rewrite (aton_dot f3) by (done || lia). rewrite (aton_end f4) by (done || lia).
  cbn [Nat.ltb Nat.leb]. rewrite wrapu_small by lia. done.
Qed.

Lemma inet_aton_extends_witness :
  inet_aton (str "10.1.2.3") = Some (((10 * 256 + 1) * 256 + 2) * 256 + 3).
Proof. apply (inet_aton_extends (str "10.1.2.3") 10 1 2 3). reflexivity. Defined.
