(* ===== verification/Inet6.v ===== *)
(** IPv6 addresses as text, [unpv13e/libfree]: [inet_pton6], [inet_ntop6]
    and the dispatchers [inet_pton] and [inet_ntop] of [inet_pton.c] and
    [inet_ntop.c]. *)
From Stdlib Require Import ZArith Lia.
From stdpp Require Import base list strings gmap numbers.
From S2P Require Import Prelude CString CFile Inet4.
Local Open Scope c_scope.

Definition IN6ADDRSZ : nat := 16.
Definition AF_INET6 : Z := 30.

(** * Parsing *)

(** [strchr] in the two digit strings. *)
Definition hexval (ch : Z) : option Z :=
  if isdigit ch then Some (ch - 48)
  else if (97 <=? ch) && (ch <=? 102) then Some (ch - 87)
  else if (65 <=? ch) && (ch <=? 70) then Some (ch - 55)
  else None.

(** The variables of the loop: [tmp], [tp], [colonp], [saw_xdigit], [val]. *)
Record p6 := mk_p6 { tmp6 : bytes; tp6 : nat; colonp : option nat; saw_xdigit : bool; val6 : Z }.

(** [*tp++ = (val >> 8) & 0xff; *tp++ = val & 0xff;] *)
Definition flush (s : p6) : M unit p6 :=
  let* t := store (tp6 s) (Z.land (u8 (Z.shiftr (val6 s) 8)) 255) (tmp6 s) in
  let* t := store (S (tp6 s)) (Z.land (u8 (val6 s)) 255) t in
  ret (mk_p6 t (tp6 s + 2) (colonp s) false 0).

(** The loop over the string; [curtok] is the text from the current token
    on, [mem4] the memory of [inet_pton4].  [None] is the return value 0. *)
Fixpoint pton6_loop (mem4 src curtok : bytes) (s : p6) : M unit (option p6) :=
  match src with
  | [] => ret (Some s)
  | ch :: r =>
      match hexval ch with
      | Some d =>
          let val := Z.lor (u32 (Z.shiftl (val6 s) 4)) d in
          if val >? 65535 then ret None
          else pton6_loop mem4 r curtok (mk_p6 (tmp6 s) (tp6 s) (colonp s) true val)
      | None =>
          if ch =? c_colon then
            if negb (saw_xdigit s) then
              match colonp s with
              | Some _ => ret None
              | None => pton6_loop mem4 r r (mk_p6 (tmp6 s) (tp6 s) (Some (tp6 s)) (saw_xdigit s) (val6 s))
              end
            else if (IN6ADDRSZ <? tp6 s + 2)%nat then ret None
            else let* s := flush s in pton6_loop mem4 r r s
          else if (ch =? c_dot) && (tp6 s + INADDRSZ <=? IN6ADDRSZ)%nat then
            let* q := inet_pton4 mem4 curtok in
            match q with
            | Some b => ret (Some (mk_p6 (splice (tp6 s) b (tmp6 s)) (tp6 s + INADDRSZ) (colonp s) false (val6 s)))
            | None => ret None
            end
          else ret None
      end
  end.

(** The shift by hand, rounds [i] to [n]. *)
Fixpoint shift_loop (k i n c : nat) (t : bytes) : M unit bytes :=
  match k with
  | O => ret t
  | S k =>
      let* v := fetch (c + (n - i)) t in
      let* t := store (IN6ADDRSZ - i) v t in
      let* t := store (c + (n - i)) 0 t in
      shift_loop k (S i) n c t
  end.

(** After the loop. *)
Definition pton6_finish (s : p6) : M unit (option bytes) :=
  let* s := (if saw_xdigit s then
               if (IN6ADDRSZ <? tp6 s + 2)%nat then ret None else (let* s := flush s in ret (Some s))
             else ret (Some s)) in
  match s with
  | None => ret None
  | Some s =>
      match colonp s with
      | Some c =>
          let n := (tp6 s - c)%nat in
          let* t := shift_loop n 1 n c (tmp6 s) in
          ret (Some t)
      | None => if (tp6 s =? IN6ADDRSZ)%nat then ret (Some (tmp6 s)) else ret None
      end
  end.

Definition inet_pton6 (mem4 src : bytes) : M unit (option bytes) :=
  let start (src : bytes) :=
    let* r := pton6_loop mem4 src src (mk_p6 (replicate IN6ADDRSZ 0) 0 None false 0) in
    match r with None => ret None | Some s => pton6_finish s end in
  match src with
  | c :: r =>
      if c =? c_colon then
        match r with
        | c' :: _ => if c' =? c_colon then start r else ret None
        | [] => ret None
        end
      else start src
  | [] => start src
  end.

(** [inet_pton]: the return value, the address when it is 1, and [errno]
    when it is -1. *)
Definition inet_pton (mem4 : bytes) (af : Z) (src : bytes) : M unit (Z * option bytes * Z) :=
  let result (m : M unit (option bytes)) :=
    let* r := m in ret (match r with Some b => (1, Some b, 0) | None => (0, None, 0) end) in
  if af =? AF_INET then result (inet_pton4 mem4 src)
  else if af =? AF_INET6 then result (inet_pton6 mem4 src)
  else ret (-1, None, EAFNOSUPPORT).

(** * Printing *)

(** ["%x"] *)
Definition hexdigit (d : Z) : Z := if d <? 10 then 48 + d else 87 + d.
Fixpoint xdec_aux (fuel : nat) (n : Z) (acc : bytes) : bytes :=
  match fuel with
  | O => acc
  | S f =>
      let acc' := hexdigit (n mod 16) :: acc in
      if n / 16 =? 0 then acc' else xdec_aux f (n / 16) acc'
  end.
Definition xdec (n : Z) : bytes := xdec_aux 8 n [].

(** [words[i / 2] |= src[i] << ((1 - (i % 2)) << 3)] over the bytes. *)
Fixpoint words_of (src : bytes) : list Z :=
  match src with
  | h :: l :: r => Z.lor (Z.shiftl h 8) l :: words_of r
  | _ => []
  end.

(** A run of zero words: its base and length. *)
Definition run := option (nat * nat).
Definition longer (best cur : run) : run :=
  match cur with
  | None => best
  | Some (_, cl) => match best with
                    | None => cur
                    | Some (_, bl) => if (bl <? cl)%nat then cur else best
                    end
  end.
Fixpoint scan_runs (i : nat) (ws : list Z) (best cur : run) : run :=
  match ws with
  | [] => longer best cur
  | w :: r =>
      if w =? 0 then
        scan_runs (S i) r best (match cur with None => Some (i, 1%nat) | Some (b, l) => Some (b, S l) end)
      else scan_runs (S i) r (longer best cur) None
  end.
Definition best_run (ws : list Z) : run :=
  match scan_runs 0 ws None None with
  | Some (b, l) => if (l <? 2)%nat then None else Some (b, l)
  | None => None
  end.

Definition in_run (best : run) (i : nat) : bool :=
  match best with Some (b, l) => (b <=? i)%nat && (i <? b + l)%nat | None => false end.
(** [i == 6 && best.base == 0 && (best.len == 6 || (best.len == 5 && words[5]
    == 0xffff))] *)
Definition encapsulated (best : run) (i : nat) (w5 : Z) : bool :=
  (i =? 6)%nat &&
  match best with Some (b, l) => (b =? 0)%nat && ((l =? 6)%nat || ((l =? 5)%nat && (w5 =? 65535))) | None => false end.

(** The text of the words from [i] on; [quad] is the text of the last four
    bytes as an IPv4 address. *)
Fixpoint format_loop (i : nat) (ws : list Z) (best : run) (w5 : Z) (quad : bytes) : bytes :=
  match ws with
  | [] => []
  | w :: r =>
      if in_run best i then
        (match best with Some (b, _) => if (i =? b)%nat then [c_colon] else [] | None => [] end) ++
        format_loop (S i) r best w5 quad
      else
        (if (i =? 0)%nat then [] else [c_colon]) ++
        (if encapsulated best i w5 then quad else xdec w ++ format_loop (S i) r best w5 quad)
  end.
Definition format6 (src : bytes) : bytes :=
  let ws := words_of src in
  let best := best_run ws in
  let quad := match drop 12 src with a :: b :: c :: d :: _ => quad_text a b c d | _ => [] end in
  format_loop 0 ws best (default 0 (ws !! 5%nat)) quad ++
  (match best with Some (b, l) => if (b + l =? 8)%nat then [c_colon] else [] | None => [] end).

(** [inet_ntop6]; the array [tmp] has 46 bytes. *)
Definition inet_ntop6 (src dst : bytes) (size : nat) : M unit (option bytes) :=
  if negb (length src =? IN6ADDRSZ)%nat then undef "read past src"
  else
    let text := format6 src in
    if (46 <? length text + 1)%nat then undef "overflow of tmp"
    else if (size <? length text + 1)%nat then ret None
    else if (length dst <? length text + 1)%nat then undef "strcpy past dst"
    else ret (Some (splice 0 (text ++ [0]) dst)).

Definition inet_ntop (af : Z) (src dst : bytes) (size : nat) : M unit (option bytes * Z) :=
  let result (m : M unit (option bytes)) :=
    let* r := m in ret (match r with Some b => (Some b, 0) | None => (None, ENOSPC) end) in
  if af =? AF_INET then result (inet_ntop4 src dst size)
  else if af =? AF_INET6 then result (inet_ntop6 src dst size)
  else ret (None, EAFNOSUPPORT).
