(* ===== verification/Inet6Proof.v ===== *)
(** The round trip of [inet_ntop6] and [inet_pton6]: the text the printer
    writes, as a list of words around the run it abbreviates, and what the
    parser does with such a text. *)
From Stdlib Require Import ZArith Lia.
From stdpp Require Import base list strings gmap numbers.
From S2P Require Import Prelude CString CFile Inet4 Inet6.
Local Open Scope c_scope.

(** * The parser on the text of words *)

Definition word (w : Z) : Prop := 0 <= w < 65536.
(** The two bytes of a word, in network order. *)
Definition bs (w : Z) : bytes := [w / 256; w mod 256].
Definition bytes_of (ws : list Z) : bytes := mjoin (bs <$> ws).
(** Words, each followed by a colon; words separated by colons. *)
Definition jtext (ws : list Z) : bytes := mjoin ((fun w => xdec w ++ [c_colon]) <$> ws).
Definition ctext (ws : list Z) : bytes := mjoin ((fun w => c_colon :: xdec w) <$> ws).
Definition join6 (ws : list Z) : bytes := match ws with [] => [] | w :: r => xdec w ++ ctext r end.

(** The parser's variables after it stored the bytes [A]. *)
Definition st (A : bytes) (c : option nat) (saw : bool) (v : Z) : p6 :=
  mk_p6 (A ++ replicate (16 - length A) 0) (length A) c saw v.

Definition hex (d : Z) : Prop := 0 <= d < 16.
Definition hval (v : Z) (ds : list Z) : Z := fold_left (fun a d => a * 16 + d) ds v.

Section parser.
Implicit Types (A B ds rest cur : bytes) (ws : list Z) (w v d : Z) (c : option nat) (mem : bytes).

Lemma hexval_digit d : hex d -> hexval (hexdigit d) = Some d.
Proof.
  intros H. unfold hex, hexval, hexdigit, isdigit in *.
  destruct (Z.ltb_spec d 10); repeat case_match; try lia; f_equal; lia.
Qed.

Lemma lor_shift4 v d : 0 <= v < 2 ^ 28 -> hex d -> Z.lor (u32 (Z.shiftl v 4)) d = v * 16 + d.
Proof.
  intros Hv Hd. unfold u32, wrapu, hex in *. rewrite Z.shiftl_mul_pow2 by lia. change (2 ^ 4) with 16.
  rewrite Z.mod_small by lia. rewrite <-Z.add_lor_land.
  assert (Z.land (v * 16) d = 0) as ->; [|lia].
  apply Z.bits_inj'. intros n Hn. rewrite Z.land_spec, Z.bits_0. destruct (Z.lt_ge_cases n 4).
  - change 16 with (2 ^ 4). by rewrite Z.mul_pow2_bits_low.
  - rewrite (Z.bits_above_log2 d n), andb_false_r; [done|lia|].
    destruct (Z.eq_dec d 0) as [->|]; [simpl; lia|]. apply Z.log2_lt_pow2; [lia|].
    apply Z.lt_le_trans with (2 ^ 4); [lia|]. by apply Z.pow_le_mono_r.
Qed.

Lemma hval_ge ds v : 0 <= v -> Forall hex ds -> v <= hval v ds.
Proof.
  intros Hv H. revert v Hv. induction H as [|d ds Hd _ IH]; intros v Hv; simpl; [lia|].
  unfold hex in *. etransitivity; [|apply IH; lia]. lia.
Qed.

(** Hexadecimal digits shift into [val]. *)
Lemma digits6 mem ds : Forall hex ds -> forall rest cur A c saw v,
  0 <= v -> hval v ds <= 65535 ->
  pton6_loop mem (map hexdigit ds ++ rest) cur (st A c saw v) =
  pton6_loop mem rest cur (st A c (saw || negb (bool_decide (ds = []))) (hval v ds)).
Proof.
  induction 1 as [|d ds Hd Hds IH]; intros rest cur A c saw v Hv Hb.
  { simpl. by rewrite orb_false_r. }
  cbn [map app pton6_loop]. rewrite hexval_digit by done. cbn [val6 tmp6 tp6 colonp st].
  simpl in Hb. pose proof (hval_ge ds (v * 16 + d) ltac:(unfold hex in *; lia) Hds).
  unfold hex in Hd. unfold st at 1. cbn [val6 tmp6 tp6 colonp]. rewrite lor_shift4 by (unfold hex; lia).
  destruct (Z.gtb_spec (v * 16 + d) 65535); [unfold hval in *; lia|].
  fold (st A c true (v * 16 + d)). rewrite IH by (unfold hval in *; lia || done).
  rewrite orb_true_l, orb_true_r. done.
Qed.

Lemma xdec_digits w : word w -> exists ds, xdec w = map hexdigit ds /\ Forall hex ds /\ ds <> [] /\ hval 0 ds = w /\ (length ds <= 4)%nat.
Proof.
  intros H. unfold word in H. unfold xdec. cbn [xdec_aux].
  assert (forall n, 0 <= n mod 16 < 16) as M by (intros; apply Z.mod_pos_bound; lia).
  assert (forall n, n = 16 * (n / 16) + n mod 16) as D by (intros; apply Z.div_mod; lia).
  pose proof (D w). pose proof (D (w / 16)). pose proof (D (w / 16 / 16)). pose proof (D (w / 16 / 16 / 16)).
  pose proof (M w). pose proof (M (w / 16)). pose proof (M (w / 16 / 16)). pose proof (M (w / 16 / 16 / 16)).
  assert (w / 16 / 16 / 16 / 16 = 0) as E4.
  { rewrite !Z.div_div by lia. apply Z.div_small. lia. }
  rewrite E4. change (0 =? 0) with true. cbv iota.
  destruct (Z.eqb_spec (w / 16) 0); [exists [w mod 16]|
  destruct (Z.eqb_spec (w / 16 / 16) 0); [exists [w / 16 mod 16; w mod 16]|
  destruct (Z.eqb_spec (w / 16 / 16 / 16) 0); [exists [w / 16 / 16 mod 16; w / 16 mod 16; w mod 16]|
   exists [w / 16 / 16 / 16 mod 16; w / 16 / 16 mod 16; w / 16 mod 16; w mod 16]]]];
  (split; [done|split; [repeat constructor; apply M|split; [done|split; [|simpl; lia]]]]); unfold hval; cbn [fold_left]; lia.
Qed.

Lemma udec_hex n : 0 <= n <= 255 -> exists ds, udec n = map hexdigit ds /\ Forall hex ds /\ ds <> [] /\ hval 0 ds <= 65535.
Proof.
  intros Hn. destruct (udec_field n Hn) as (Hd & _ & _ & Hl).
  assert (forall t, forallb isdigit t = true -> exists ds, t = map hexdigit ds /\ Forall (fun d => 0 <= d < 10) ds) as X.
  { induction t as [|x t IH]; simpl; intros H; [by exists []|]. apply andb_true_iff in H as [Hx Ht].
    destruct (IH Ht) as (ds & -> & F). exists (x - 48 :: ds). unfold isdigit in Hx. simpl. split; [|constructor; [lia|done]].
    f_equal. unfold hexdigit. destruct (Z.ltb_spec (x - 48) 10); lia. }
  destruct (X _ Hd) as (ds & E & F). exists ds. rewrite E, length_map in Hl.
  split; [done|]. split; [eapply Forall_impl; [|exact F]; unfold hex; simpl; lia|]. split; [by intros ->; simpl in Hl; lia|].
  clear E Hd X. do 4 (destruct ds as [|? ds]; [repeat match goal with H : Forall _ (_ :: _) |- _ => apply list.Forall_cons in H as [? H] end; unfold hval; simpl in *; lia|]).
  simpl in Hl. lia.
Qed.

Lemma word_run mem w rest cur A c : word w ->
  pton6_loop mem (xdec w ++ rest) cur (st A c false 0) = pton6_loop mem rest cur (st A c true w).
Proof.
  intros Hw. destruct (xdec_digits w Hw) as (ds & -> & F & Hne & Hv & _). rewrite digits6; [|done|lia|unfold word in Hw; lia].
  rewrite Hv. by rewrite bool_decide_eq_false_2 by done.
Qed.

Lemma store_mid i pre x post v : i = length pre -> store i v (pre ++ x :: post) = ret (pre ++ v :: post).
Proof.
  intros ->. unfold store. rewrite length_app. cbn [length].
  destruct (Nat.ltb_spec (length pre) (length pre + S (length post))); [|lia].
  rewrite insert_app_r_alt by lia. rewrite Nat.sub_diag. done.
Qed.

Lemma ret_bind {S X Y : Type} (x : X) (f : X -> M S Y) : (let* y := ret x in f y) = f x.
Proof. done. Qed.

Lemma flush_st A c w saw : word w -> (length A + 2 <= 16)%nat -> flush (st A c saw w) = ret (st (A ++ bs w) c false 0).
Proof.
  intros Hw HA. unfold word in Hw. unfold flush, st. cbn [tmp6 tp6 colonp val6].
  replace (16 - length A)%nat with (2 + (16 - length (A ++ bs w)))%nat by (rewrite length_app; simpl; lia).
  cbn [Nat.add replicate]. rewrite store_mid by done. rewrite ret_bind.
  rewrite (cons_middle _ A), app_assoc, store_mid by (rewrite length_app; simpl; lia). rewrite ret_bind.
  f_equal. f_equal; [|rewrite length_app; done]. unfold bs. rewrite <-!app_assoc. cbn [app]. f_equal.
  unfold u8, wrapu. rewrite Z.shiftr_div_pow2 by lia. change 255 with (Z.ones 8). rewrite !Z.land_ones by lia.
  change (2 ^ 8) with 256. rewrite !Zmod_mod. f_equal. apply Z.mod_small. split; [apply Z.div_pos; lia|].
  apply Z.div_lt_upper_bound; lia.
Qed.

(** A colon after a word stores it. *)
Lemma colon_run mem w rest cur A c : word w -> (length A + 2 <= 16)%nat ->
  pton6_loop mem (c_colon :: rest) cur (st A c true w) = pton6_loop mem rest rest (st (A ++ bs w) c false 0).
Proof.
  intros Hw HA. cbn [pton6_loop]. change (hexval c_colon) with (@None Z). change (c_colon =? c_colon) with true. cbv iota.
  change (saw_xdigit (st A c true w)) with true. cbv [negb]. cbv iota. change (tp6 (st A c true w)) with (length A).
  destruct (Nat.ltb_spec IN6ADDRSZ (length A + 2)); [unfold IN6ADDRSZ in *; lia|]. rewrite flush_st by done. apply ret_bind.
Qed.

Lemma bytes_of_length ws : length (bytes_of ws) = (2 * length ws)%nat.
Proof. induction ws as [|w ws IH]; [done|]. change (S (S (length (bytes_of ws))) = (2 * S (length ws))%nat). lia. Qed.

Lemma words_run mem ws rest A c : Forall word ws -> (length A + 2 * length ws <= 16)%nat ->
  pton6_loop mem (jtext ws ++ rest) (jtext ws ++ rest) (st A c false 0) =
  pton6_loop mem rest rest (st (A ++ bytes_of ws) c false 0).
Proof.
  intros H. revert A. induction H as [|w ws Hw _ IH]; intros A HA; simpl in HA.
  { unfold bytes_of. simpl. by rewrite app_nil_r. }
  unfold jtext. cbn [fmap list_fmap mjoin list_join]. rewrite <-!app_assoc. rewrite word_run by done. cbn [app].
  rewrite colon_run by (done || lia). fold (jtext ws). rewrite IH by (rewrite length_app; simpl; lia).
  rewrite <-app_assoc. done.
Qed.

(** The hand-written shift opens a gap of zeros, when there is one. *)
Lemma shift_run g A B B' :
  (length A + length B + S g + length B' = 16)%nat ->
  shift_loop (length B) (S (length B')) (length B + length B') (length A) (A ++ B ++ replicate (S g) 0 ++ B') =
  ret (A ++ replicate (S g) 0 ++ B ++ B').
Proof.
  revert B'. induction B as [|x B IH] using rev_ind; intros B' HL; [done|].
  rewrite length_app in *. cbn [length] in *. rewrite Nat.add_1_r. cbn [shift_loop].
  replace (length A + (S (length B) + length B' - S (length B')))%nat with (length (A ++ B)) by (rewrite length_app; lia).
  replace (A ++ (B ++ [x]) ++ replicate (S g) 0 ++ B') with ((A ++ B) ++ x :: replicate (S g) 0 ++ B') by (by rewrite <-!app_assoc).
  unfold fetch. rewrite list_lookup_middle by done. rewrite ret_bind.
  rewrite replicate_S_end.
  replace ((A ++ B) ++ x :: (replicate g 0 ++ [0]) ++ B') with (((A ++ B) ++ x :: replicate g 0) ++ 0 :: B')
    by (rewrite <-!app_assoc; cbn [app]; done).
  rewrite store_mid by (rewrite !length_app; cbn [length]; rewrite length_replicate; unfold IN6ADDRSZ; lia). rewrite ret_bind.
  rewrite <-(app_assoc (A ++ B)). cbn [app]. rewrite store_mid by done. rewrite ret_bind.
  replace (S (length B) + length B')%nat with (length B + length (x :: B'))%nat by (simpl; lia).
  replace ((A ++ B) ++ 0 :: replicate g 0 ++ x :: B') with (A ++ B ++ replicate (S g) 0 ++ (x :: B')) by (by rewrite <-!app_assoc).
  change (S (S (length B'))) with (S (length (x :: B'))). rewrite IH by (simpl; lia).
  rewrite replicate_S_end, <-!app_assoc. done.
Qed.

Lemma finish_full A : length A = 16%nat -> pton6_finish (st A None false 0) = ret (Some A).
Proof.
  intros L. unfold pton6_finish, st. cbn [saw_xdigit]. rewrite ret_bind. cbn [colonp tp6 tmp6]. rewrite L.
  change (16 =? IN6ADDRSZ)%nat with true. cbv iota. simpl. by rewrite app_nil_r.
Qed.

Lemma finish_gap A B v : (length A + length B < 16)%nat ->
  pton6_finish (st (A ++ B) (Some (length A)) false v) = ret (Some (A ++ replicate (16 - length A - length B) 0 ++ B)).
Proof.
  intros L. unfold pton6_finish, st. cbn [saw_xdigit]. rewrite ret_bind. cbn [colonp tp6 tmp6].
  rewrite length_app. replace (length A + length B - length A)%nat with (length B) by lia.
  destruct (16 - length A - length B)%nat as [|g] eqn:Eg; [lia|].
  replace (16 - (length A + length B))%nat with (S g) by lia. rewrite <-app_assoc.
  pose proof (shift_run g A B [] ltac:(simpl; lia)) as E. rewrite Nat.add_0_r, !app_nil_r in E. change (S (length (@nil Z))) with 1%nat in E. rewrite E. rewrite ret_bind. done.
Qed.

(** The last word has no colon after it. *)
Lemma finish_last A c w : word w -> (length A + 2 <= 16)%nat ->
  pton6_finish (st A c true w) = pton6_finish (st (A ++ bs w) c false 0).
Proof.
  intros Hw HA. unfold pton6_finish at 1. change (saw_xdigit (st A c true w)) with true. cbv iota.
  change (tp6 (st A c true w)) with (length A).
  destruct (Nat.ltb_spec IN6ADDRSZ (length A + 2)); [unfold IN6ADDRSZ in *; lia|]. rewrite flush_st by done. done.
Qed.

Lemma ctext_snoc ws w : ctext (ws ++ [w]) = c_colon :: jtext ws ++ xdec w.
Proof.
  induction ws as [|v ws IH]; [unfold ctext; simpl; by rewrite app_nil_r|].
  change (ctext ((v :: ws) ++ [w])) with (c_colon :: xdec v ++ ctext (ws ++ [w])). rewrite IH.
  unfold jtext. cbn [fmap list_fmap mjoin list_join]. by rewrite <-!app_assoc.
Qed.

Lemma join6_snoc ws w : join6 (ws ++ [w]) = jtext ws ++ xdec w.
Proof.
  destruct ws as [|v ws]; [unfold join6, ctext; simpl; by rewrite app_nil_r|].
  change (join6 ((v :: ws) ++ [w])) with (xdec v ++ ctext (ws ++ [w])). rewrite ctext_snoc.
  unfold jtext. cbn [fmap list_fmap mjoin list_join]. by rewrite <-!app_assoc.
Qed.

Lemma bytes_of_app ws1 ws2 : bytes_of (ws1 ++ ws2) = bytes_of ws1 ++ bytes_of ws2.
Proof. unfold bytes_of. by rewrite fmap_app, join_app. Qed.

(** The parser from the state at the start of a token: the loop and what
    follows it. *)
Definition parse6 mem src (s : p6) : M unit (option bytes) :=
  let* r := pton6_loop mem src src s in match r with None => ret None | Some s => pton6_finish s end.

Lemma parse_words mem ws A c : Forall word ws -> ws <> [] -> (length A + 2 * length ws <= 16)%nat ->
  parse6 mem (join6 ws) (st A c false 0) = pton6_finish (st (A ++ bytes_of ws) c false 0).
Proof.
  intros H Hne HA. destruct (exists_last Hne) as (ws' & w & ->). rewrite length_app in HA. simpl in HA.
  apply Forall_app in H as [H1 H2%Forall_inv]. rewrite join6_snoc. unfold parse6. rewrite words_run by (done || lia).
  rewrite <-(app_nil_r (xdec w)) at 1. rewrite word_run by done. cbn [pton6_loop]. rewrite ret_bind.
  rewrite finish_last by (rewrite ?length_app, ?bytes_of_length; done || lia).
  rewrite bytes_of_app, <-app_assoc. done.
Qed.

(** The double colon after the words [pre]. *)
Lemma parse_gap_start mem pre rest : Forall word pre -> (2 * length pre <= 16)%nat ->
  parse6 mem (jtext pre ++ c_colon :: rest) (st [] None false 0) =
  parse6 mem rest (st (bytes_of pre) (Some (length (bytes_of pre))) false 0).
Proof. intros H HA. unfold parse6. rewrite words_run by done. done. Qed.

Lemma parse_gap mem pre post : Forall word pre -> Forall word post -> (length pre + length post < 8)%nat ->
  parse6 mem (jtext pre ++ c_colon :: join6 post) (st [] None false 0) =
  ret (Some (bytes_of pre ++ replicate (16 - 2 * length pre - 2 * length post) 0 ++ bytes_of post)).
Proof.
  intros H1 H2 HL. rewrite parse_gap_start by (done || lia).
  assert (parse6 mem (join6 post) (st (bytes_of pre) (Some (length (bytes_of pre))) false 0) =
    pton6_finish (st (bytes_of pre ++ bytes_of post) (Some (length (bytes_of pre))) false 0)) as ->.
  { destruct post as [|p post]; [change (bytes_of []) with (@nil Z); by rewrite app_nil_r|].
    apply parse_words; [done..|rewrite bytes_of_length; lia]. }
  rewrite finish_gap by (rewrite !bytes_of_length; lia). by rewrite !bytes_of_length.
Qed.

(** The dotted quad at the end. *)
Lemma parse_quad mem pre (a b c d : Z) :
  Forall word pre -> (length pre <= 5)%nat -> length mem = INADDRSZ ->
  0 <= a <= 255 -> 0 <= b <= 255 -> 0 <= c <= 255 -> 0 <= d <= 255 ->
  parse6 mem (c_colon :: jtext pre ++ quad_text a b c d) (st [] None false 0) tt =
  Ret (Some (replicate (12 - 2 * length pre) 0 ++ bytes_of pre ++ [a; b; c; d])) tt.
Proof.
  intros H1 HL Hm Ha Hb Hc Hd. change (c_colon :: jtext pre ++ quad_text a b c d) with (jtext [] ++ c_colon :: jtext pre ++ quad_text a b c d).
  rewrite parse_gap_start by (simpl; done || lia).
  change (bytes_of []) with (@nil Z). unfold parse6. rewrite words_run by (simpl; done || lia). cbn [app length].
  destruct (udec_hex a Ha) as (ds & E & F & Hne & Hv).
  unfold quad_text at 1. rewrite E. rewrite digits6 by (done || lia). rewrite bool_decide_eq_false_2 by done.
  cbn [app pton6_loop]. change (hexval c_dot) with (@None Z). change (c_dot =? c_colon) with false. cbv iota.
  change (c_dot =? c_dot) with true. cbn [andb]. unfold st at 1. cbn [tp6].
  rewrite bytes_of_length. destruct (Nat.leb_spec (2 * length pre + INADDRSZ) IN6ADDRSZ); [|unfold INADDRSZ, IN6ADDRSZ in *; lia].
  pose proof (pton4_run mem (quad_text a b c d) Hm) as P. destruct (quad_text_run a b c d Ha Hb Hc Hd) as [Q _]. rewrite Q in P.
  rewrite bind_assoc, (bind_run _ _ _ _ _ P), ret_bind. unfold st. cbn [tp6 tmp6 colonp val6].
  replace (16 - length (bytes_of pre))%nat with (4 + (16 - length (bytes_of pre ++ [a; b; c; d])))%nat
    by (rewrite length_app, bytes_of_length; simpl; lia).
  rewrite replicate_add, splice_mid by done. rewrite app_assoc.
  pose proof (finish_gap [] (bytes_of pre ++ [a; b; c; d]) (hval 0 ds)) as G. unfold st in G.
  rewrite !length_app, !bytes_of_length in G. cbn [app length] in G. rewrite !Nat.add_0_l in G. rewrite !length_app, bytes_of_length. cbn [length].
  change (2 * length pre + INADDRSZ)%nat with (2 * length pre + 4)%nat. rewrite G by lia.
  unfold ret. do 3 f_equal. f_equal. lia.
Qed.
End parser.

(** * What the printer writes *)
Section printer.
Implicit Types (ws pre post p : list Z) (w : Z) (best cur : run) (q : bytes).

Definition run_of p best : Prop :=
  match best with
  | Some (b, l) => exists pre post, p = pre ++ replicate l 0 ++ post /\ length pre = b
  | None => True
  end.
Definition run_at_end p cur : Prop :=
  match cur with
  | Some (b, l) => exists pre, p = pre ++ replicate l 0 /\ length pre = b
  | None => True
  end.

Lemma run_at_end_of p cur : run_at_end p cur -> run_of p cur.
Proof. destruct cur as [[b l]|]; [|done]. intros (pre & -> & ?). exists pre, []. by rewrite app_nil_r. Qed.

Lemma run_of_longer p best cur : run_of p best -> run_of p cur -> run_of p (longer best cur).
Proof. intros. destruct cur as [[b l]|]; [|done]. destruct best as [[b' l']|]; [|done]. simpl. by case_match. Qed.

Lemma run_of_snoc p w best : run_of p best -> run_of (p ++ [w]) best.
Proof.
  destruct best as [[b l]|]; [|done]. intros (pre & post & -> & ?). exists pre, (post ++ [w]). by rewrite <-!app_assoc.
Qed.

Lemma scan_runs_sound ws : forall p best cur, run_of p best -> run_at_end p cur ->
  run_of (p ++ ws) (scan_runs (length p) ws best cur).
Proof.
  induction ws as [|w ws IH]; intros p best cur Hb Hc; cbn [scan_runs].
  { rewrite app_nil_r. apply run_of_longer; [done|by apply run_at_end_of]. }
  rewrite cons_middle, app_assoc. replace (S (length p)) with (length (p ++ [w])) by (rewrite length_app; simpl; lia).
  destruct (Z.eqb_spec w 0) as [->|]; apply IH.
  - by apply run_of_snoc.
  - destruct cur as [[b l]|]; simpl in *; [|by exists p].
    destruct Hc as (pre & -> & ?). exists pre. change (0 :: replicate l 0) with (replicate (S l) 0). by rewrite replicate_S_end, <-app_assoc.
  - apply run_of_snoc, run_of_longer; [done|by apply run_at_end_of].
  - done.
Qed.

(** The abbreviated run is a run of at least two zero words. *)
Lemma best_run_sound ws b l : best_run ws = Some (b, l) ->
  (2 <= l)%nat /\ exists pre post, ws = pre ++ replicate l 0 ++ post /\ length pre = b.
Proof.
  unfold best_run. pose proof (scan_runs_sound ws [] None None I I) as H. cbn [app length] in H.
  destruct (scan_runs 0 ws None None) as [[b' l']|]; [|done].
  destruct (Nat.ltb_spec l' 2); [done|]. intros [= <- <-]. done.
Qed.

Lemma format_app ws1 : forall i ws2 best w5 q, (i + length ws1 <= 6)%nat ->
  format_loop i (ws1 ++ ws2) best w5 q = format_loop i ws1 best w5 q ++ format_loop (i + length ws1) ws2 best w5 q.
Proof.
  induction ws1 as [|w ws1 IH]; intros i ws2 best w5 q H; simpl in H.
  { simpl. by rewrite Nat.add_0_r. }
  cbn [app format_loop length]. rewrite IH by lia. replace (S i + length ws1)%nat with (i + S (length ws1))%nat by lia.
  case_match; [by rewrite <-app_assoc|].
  assert (encapsulated best i w5 = false) as ->.
  { unfold encapsulated. destruct (Nat.eqb_spec i 6); [lia|done]. }
  by rewrite <-!app_assoc.
Qed.

(** Outside the run the words are written in full. *)
Lemma format_head ws : forall i best w5 q,
  (forall j, (i <= j < i + length ws)%nat -> in_run best j = false) -> (i + length ws <= 6 \/ encapsulated best 6 w5 = false)%nat ->
  format_loop i ws best w5 q = if (i =? 0)%nat then join6 ws else ctext ws.
Proof.
  induction ws as [|w ws IH]; intros i best w5 q Hr He; [by destruct (i =? 0)%nat|]. cbn [format_loop length] in *. rewrite Hr by lia.
  assert (encapsulated best i w5 = false) as ->.
  { destruct He as [|He]; [|destruct (Nat.eqb_spec i 6) as [->|]; [done|]]; unfold encapsulated; destruct (Nat.eqb_spec i 6); done || lia. }
  rewrite IH; [|intros; apply Hr; lia|destruct He; [left; lia|by right]]. by destruct (i =? 0)%nat.
Qed.

(** Of the run itself only the first colon is written. *)
Lemma format_run b l w5 q ws : forall k i, (b <= i)%nat -> (i + k = b + l)%nat ->
  format_loop i (replicate k 0 ++ ws) (Some (b, l)) w5 q =
  (if (i =? b)%nat && (0 <? k)%nat then [c_colon] else []) ++ format_loop (b + l) ws (Some (b, l)) w5 q.
Proof.
  induction k as [|k IH]; intros i Hb Hk.
  { rewrite Nat.add_0_r in Hk. subst i. by rewrite andb_false_r. }
  cbn [replicate app format_loop]. unfold in_run at 1.
  destruct (Nat.leb_spec b i), (Nat.ltb_spec i (b + l)); try lia. cbn [andb].
  rewrite IH by lia. destruct (Nat.eqb_spec (S i) b); [lia|]. rewrite andb_true_r. done.
Qed.
End printer.

(** * The round trip *)
Section round_trip.
Implicit Types (ws pre post : list Z) (w a b c d : Z) (mem src dst addr : bytes).

Definition addr6 addr : Prop := length addr = IN6ADDRSZ /\ Forall (fun x => 0 <= x <= 255) addr.

Lemma words_of_spec n : forall addr, length addr = (2 * n)%nat -> Forall (fun x => 0 <= x <= 255) addr ->
  Forall word (words_of addr) /\ bytes_of (words_of addr) = addr /\ length (words_of addr) = n.
Proof.
  induction n as [|n IH]; intros addr L F; [by destruct addr|].
  destruct addr as [|x [|y addr]]; try (simpl in L; lia).
  apply list.Forall_cons in F as [Hx F]. apply list.Forall_cons in F as [Hy F].
  destruct (IH addr) as (W & B & E); [simpl in L; lia|done|]. cbn [words_of]. rewrite lor_shift8 by lia.
  split; [constructor; [unfold word; lia|done]|]. split; [|simpl; lia].
  change (bytes_of (x * 256 + y :: words_of addr)) with (bs (x * 256 + y) ++ bytes_of (words_of addr)). rewrite B.
  unfold bs. rewrite Z.div_add_l, Z.div_small, Z.add_0_r by lia.
  rewrite Z.add_comm, Z.mod_add, Z.mod_small by lia. done.
Qed.

(** Texts: no NUL, and bounded. *)
Definition text_ok (n : nat) (t : bytes) : Prop := Forall (fun x => x <> 0) t /\ (length t <= n)%nat.

Lemma text_app n m t u : text_ok n t -> text_ok m u -> text_ok (n + m) (t ++ u).
Proof. intros [? ?] [? ?]. split; [by apply Forall_app|rewrite length_app; lia]. Qed.
Lemma text_cons n x t : x <> 0 -> text_ok n t -> text_ok (1 + n) (x :: t).
Proof. intros ? [? ?]. split; [by constructor|simpl; lia]. Qed.
Lemma text_char x : x <> 0 -> text_ok 1 [x].
Proof. intros. split; [by repeat constructor|done]. Qed.
Lemma text_le n m t : (n <= m)%nat -> text_ok n t -> text_ok m t.
Proof. intros ? [? ?]. split; [done|lia]. Qed.

Lemma text_xdec w : word w -> text_ok 4 (xdec w).
Proof.
  intros Hw. destruct (xdec_digits w Hw) as (ds & -> & F & _ & _ & L). split; [|by rewrite length_map].
  apply Forall_map. eapply Forall_impl; [|exact F]. intros x Hx. unfold hex, hexdigit in *. simpl. destruct (x <? 10); lia.
Qed.

Lemma text_jtext ws : Forall word ws -> text_ok (5 * length ws) (jtext ws).
Proof.
  induction 1 as [|w ws Hw _ IH]; [by split|]. change (jtext (w :: ws)) with ((xdec w ++ [c_colon]) ++ jtext ws).
  apply (text_le (4 + 1 + 5 * length ws)); [simpl; lia|]. apply text_app; [apply text_app|done]; [by apply text_xdec|by apply text_char].
Qed.

Lemma text_join6 ws : Forall word ws -> text_ok (5 * length ws) (join6 ws).
Proof.
  intros H. destruct (decide (ws = [])) as [->|Hne]; [by split|]. destruct (exists_last Hne) as (ws' & w & ->).
  apply Forall_app in H as [H1 H2%Forall_inv]. rewrite join6_snoc, length_app.
  apply (text_le (5 * length ws' + 4)); [simpl; lia|]. apply text_app; [by apply text_jtext|by apply text_xdec].
Qed.

Lemma join6_colon ws : ws <> [] -> join6 ws ++ [c_colon] = jtext ws.
Proof.
  intros Hne. destruct (exists_last Hne) as (ws' & w & ->). rewrite join6_snoc. unfold jtext.
  rewrite fmap_app, join_app. simpl. by rewrite app_nil_r, <-app_assoc.
Qed.

(** The leading colon. *)
Lemma pton6_double mem src : inet_pton6 mem (c_colon :: c_colon :: src) = parse6 mem (c_colon :: src) (st [] None false 0).
Proof. done. Qed.

Lemma pton6_word mem w src : word w -> inet_pton6 mem (xdec w ++ src) = parse6 mem (xdec w ++ src) (st [] None false 0).
Proof.
  intros Hw. destruct (xdec_digits w Hw) as (ds & -> & F & Hne & _). destruct ds as [|x ds]; [done|].
  apply list.Forall_cons in F as [Hx _]. cbn [map app]. unfold inet_pton6.
  assert (hexdigit x <> c_colon) as Hn%Z.eqb_neq.
  { unfold hexdigit, hex, c_colon in *. destruct (Z.ltb_spec x 10); lia. }
  rewrite Hn. done.
Qed.

Lemma pton6_words mem pre src : Forall word pre -> pre <> [] ->
  inet_pton6 mem (jtext pre ++ src) = parse6 mem (jtext pre ++ src) (st [] None false 0).
Proof.
  intros W Hne. destruct pre as [|p pre]; [done|]. change (jtext (p :: pre)) with ((xdec p ++ [c_colon]) ++ jtext pre).
  rewrite <-!app_assoc. apply pton6_word. by inversion W.
Qed.

(** The three shapes of the text. *)
Inductive shape6 addr : bytes -> Prop :=
  | shape_full ws : Forall word ws -> length ws = 8%nat -> addr = bytes_of ws -> shape6 addr (join6 ws)
  | shape_gap pre post l : Forall word pre -> Forall word post -> (2 <= l)%nat -> (length pre + l + length post = 8)%nat ->
      addr = bytes_of (pre ++ replicate l 0 ++ post) ->
      shape6 addr ((if bool_decide (pre = []) then [c_colon] else jtext pre) ++ c_colon :: join6 post)
  | shape_quad pre a b c d : Forall word pre -> (length pre <= 1)%nat ->
      0 <= a <= 255 -> 0 <= b <= 255 -> 0 <= c <= 255 -> 0 <= d <= 255 ->
      addr = replicate (12 - 2 * length pre) 0 ++ bytes_of pre ++ [a; b; c; d] ->
      shape6 addr (c_colon :: c_colon :: jtext pre ++ quad_text a b c d).

Lemma shape_parses mem addr src : length mem = INADDRSZ -> shape6 addr src -> inet_pton6 mem src tt = Ret (Some addr) tt.
Proof.
  intros Hm [ws F L ->|pre post l F1 F2 Hl L ->|pre a b c d F L Ha Hb Hc Hd ->].
  - destruct ws as [|w ws]; [done|]. cbn [join6]. rewrite pton6_word by (by inversion F).
    change (xdec w ++ ctext ws) with (join6 (w :: ws)). rewrite parse_words by (done || (rewrite L; simpl; lia)).
    rewrite finish_full by (cbn [app]; rewrite bytes_of_length; lia). done.
  - assert (inet_pton6 mem ((if bool_decide (pre = []) then [c_colon] else jtext pre) ++ c_colon :: join6 post) =
      parse6 mem (jtext pre ++ c_colon :: join6 post) (st [] None false 0)) as ->.
    { case_bool_decide; [subst; apply pton6_double|]. by apply pton6_words. }
    rewrite parse_gap by (done || lia). rewrite !bytes_of_app. unfold ret. do 4 f_equal.
    replace (16 - 2 * length pre - 2 * length post)%nat with (2 * l)%nat by lia.
    clear. induction l as [|l IH]; [done|]. replace (2 * S l)%nat with (2 + 2 * l)%nat by lia.
    change (bytes_of (replicate (S l) 0)) with (0 :: 0 :: bytes_of (replicate l 0)). rewrite <-IH. done.
  - rewrite pton6_double, parse_quad by (done || lia). done.
Qed.

Lemma shape_text addr src : shape6 addr src -> text_ok 45 src.
Proof.
  intros [ws F L _|pre post l F1 F2 Hl L _|pre a b c d F L Ha Hb Hc Hd _].
  - eapply text_le; [|by apply text_join6]. lia.
  - apply (text_le ((1 + 5 * length pre) + (1 + 5 * length post))); [lia|].
    apply text_app; [|apply text_cons; [done|by apply text_join6]].
    case_bool_decide; [apply (text_le 1); [lia|by apply text_char]|]. eapply text_le; [|by apply text_jtext]. lia.
  - apply (text_le (1 + (1 + (5 * length pre + 15)))); [lia|].
    apply text_cons; [done|]. apply text_cons; [done|].
    apply text_app; [by apply text_jtext|]. split; [by apply quad_text_nonul|].
    destruct (quad_text_run a b c d Ha Hb Hc Hd) as [_ ?]. lia.
Qed.

Lemma encapsulated_inv best w5 : encapsulated best 6 w5 = true -> best = Some (0, 6)%nat \/ (best = Some (0, 5)%nat /\ w5 = 65535).
Proof.
  unfold encapsulated. destruct best as [[b l]|]; [|done]. cbn [Nat.eqb andb].
  destruct (Nat.eqb_spec b 0) as [->|]; [|done]. destruct (Nat.eqb_spec l 6) as [->|]; [by left|].
  destruct (Nat.eqb_spec l 5) as [->|]; [|done]. intros E. right. split; [done|]. by apply Z.eqb_eq.
Qed.

(** The text around an abbreviated run, without an encapsulated address. *)
Lemma format_gap pre post (l : nat) w5 (q : bytes) :
  (2 <= l)%nat -> (length pre + l + length post = 8)%nat -> encapsulated (Some (length pre, l)) 6 w5 = false ->
  format_loop 0 (pre ++ replicate l 0 ++ post) (Some (length pre, l)) w5 q ++ (if (length pre + l =? 8)%nat then [c_colon] else []) =
  (if bool_decide (pre = []) then [c_colon] else jtext pre) ++ c_colon :: join6 post.
Proof.
  intros Hl L He. rewrite format_app by lia. cbn [Nat.add]. rewrite format_run by lia.
  rewrite Nat.eqb_refl. destruct (Nat.ltb_spec 0 l); [|lia]. cbn [andb].
  rewrite !format_head; [|intros; unfold in_run; destruct (Nat.ltb_spec j (length pre + l)); [lia|by rewrite andb_false_r]|by right|
    intros; unfold in_run; destruct (Nat.leb_spec (length pre) j); [lia|done]|left; lia].
  destruct (Nat.eqb_spec (length pre + l) 0); [lia|]. cbn [Nat.eqb].
  assert (ctext post ++ (if (length pre + l =? 8)%nat then [c_colon] else []) = c_colon :: join6 post) as E.
  { destruct post as [|p post]; simpl in L.
    - destruct (Nat.eqb_spec (length pre + l) 8); [done|lia].
    - destruct (Nat.eqb_spec (length pre + l) 8); [lia|]. rewrite app_nil_r. done. }
  rewrite <-!app_assoc, E. case_bool_decide as Hp; [by subst|]. rewrite <-(join6_colon pre) by done. by rewrite <-app_assoc.
Qed.

Lemma split12 addr : addr6 addr -> exists a b c d, drop 12 addr = [a; b; c; d] /\ addr = take 12 addr ++ [a; b; c; d] /\
  0 <= a <= 255 /\ 0 <= b <= 255 /\ 0 <= c <= 255 /\ 0 <= d <= 255.
Proof.
  intros [L F]. unfold IN6ADDRSZ in L. do 16 (destruct addr as [|? addr]; [done|]). destruct addr; [|done].
  repeat match goal with H : Forall _ (_ :: _) |- _ => apply list.Forall_cons in H as [? H] end. cbn [drop take app]. eauto 12.
Qed.

Lemma format_shape addr : addr6 addr -> shape6 addr (format6 addr).
Proof.
  intros HA. destruct (split12 addr HA) as (a & b & c & d & D & S & Ha & Hb & Hc & Hd).
  destruct HA as [L F]. destruct (words_of_spec 8 addr L F) as (W & B & N). unfold format6. cbv zeta. rewrite D.
  set (ws := words_of addr) in *. set (w5 := default 0 (ws !! 5%nat)).
  destruct (best_run ws) as [[b0 l]|] eqn:R.
  - destruct (best_run_sound _ _ _ R) as (Hl & pre & post & E & Hb0). subst b0.
    assert (length pre + l + length post = 8)%nat as HL by (rewrite E, !length_app, length_replicate in N; lia).
    rewrite E in W. apply Forall_app in W as [W1 [W2 W3]%Forall_app].
    destruct (encapsulated (Some (length pre, l)) 6 w5) eqn:En.
    + apply encapsulated_inv in En as [[= Hp ->]|[[= Hp ->] E5]]; (destruct pre; [|done]); cbn [app length] in *.
      * destruct post as [|p6 [|p7 [|]]]; try (simpl in HL; lia). rewrite E. cbn. rewrite app_nil_r.
        apply (shape_quad addr []); [done|simpl; lia|done..|]. rewrite S at 1. f_equal. by rewrite <-B, E.
      * destruct post as [|p5 [|p6 [|p7 [|]]]]; try (simpl in HL; lia).
        assert (p5 = 65535) as -> by (subst w5; by rewrite E in E5). subst w5. rewrite E. cbn -[xdec]. rewrite app_nil_r.
        apply (shape_quad addr [65535]); [by repeat constructor|done|done..|]. rewrite S at 1. by rewrite <-B, E.
    + rewrite E, format_gap by done. by apply shape_gap with l; rewrite <-?E.
  - rewrite format_head by (done || by right). rewrite app_nil_r. by apply shape_full.
Qed.

Lemma ntop6_run addr dst : addr6 addr -> (46 <= length dst)%nat ->
  inet_ntop6 addr dst (length dst) tt = Ret (Some (splice 0 (format6 addr ++ [0]) dst)) tt /\
  cstr (splice 0 (format6 addr ++ [0]) dst) = format6 addr.
Proof.
  intros HA Hd. destruct (shape_text _ _ (format_shape _ HA)) as [Hn Hl]. destruct HA as [L F]. split.
  - unfold inet_ntop6. rewrite L. cbn [Nat.eqb negb IN6ADDRSZ].
    repeat match goal with |- context [(?x <? ?y)%nat] => destruct (Nat.ltb_spec x y); [lia|] end. done.
  - unfold splice. cbn [take app]. rewrite <-app_assoc. by apply cstr_app_nul.
Qed.

(** With no gap to open the shift clears what follows the double colon. *)
Lemma shift_clears (A B : bytes) (k : nat) : (length A + length B + k = 16)%nat ->
  shift_loop (length B) (S k) (length B + k) (length A) (A ++ B ++ replicate k 0) = ret (A ++ replicate (length B + k) 0).
Proof.
  revert k. induction B as [|x B IH] using rev_ind; intros k HL; [done|].
  rewrite length_app in *. cbn [length] in *. rewrite Nat.add_1_r. cbn [shift_loop].
  replace (length A + (S (length B) + k - S k))%nat with (length (A ++ B)) by (rewrite length_app; lia).
  replace (IN6ADDRSZ - S k)%nat with (length (A ++ B)) by (rewrite length_app; unfold IN6ADDRSZ; lia).
  replace (A ++ (B ++ [x]) ++ replicate k 0) with ((A ++ B) ++ x :: replicate k 0) by (by rewrite <-!app_assoc).
  unfold fetch. rewrite list_lookup_middle by done. rewrite ret_bind, store_mid, ret_bind, store_mid, ret_bind by done.
  rewrite <-app_assoc. replace (S (length B) + k)%nat with (length B + S k)%nat by lia. apply IH. lia.
Qed.

Lemma finish_no_gap (A B : bytes) v : (length A + length B = 16)%nat ->
  pton6_finish (st (A ++ B) (Some (length A)) false v) = ret (Some (A ++ replicate (length B) 0)).
Proof.
  intros L. unfold pton6_finish, st. cbn [saw_xdigit]. rewrite ret_bind. cbn [colonp tp6 tmp6].
  rewrite length_app, L, Nat.sub_diag, app_nil_r. replace (16 - length A)%nat with (length B) by lia.
  pose proof (shift_clears A B 0 ltac:(lia)) as E. rewrite Nat.add_0_r, app_nil_r in E. rewrite E, ret_bind. done.
Qed.
End round_trip.

(** C10: printing any IPv6 address and parsing the text gives the address
    back, whichever of the forms the printer chose: the eight words, a run
    of zero words abbreviated, or a dotted quad at the end.  The text always
    fits the 46 bytes of [tmp]. *)
Theorem inet6_round_trip mem4 addr dst :
  addr6 addr -> length mem4 = INADDRSZ -> (46 <= length dst)%nat ->
  exists out, inet_ntop AF_INET6 addr dst (length dst) tt = Ret (Some out, 0) tt /\
    inet_pton mem4 AF_INET6 (cstr out) tt = Ret (1, Some addr, 0) tt.
Proof.
  intros HA Hm Hd. destruct (ntop6_run addr dst HA Hd) as [E C]. eexists. split.
  - unfold inet_ntop. cbn [Z.eqb]. change (AF_INET6 =? AF_INET) with false. change (AF_INET6 =? AF_INET6) with true. cbv iota.
    by rewrite (bind_run _ _ _ _ _ E).
  - rewrite C. pose proof (shape_parses mem4 _ _ Hm (format_shape _ HA)) as P. unfold inet_pton.
    change (AF_INET6 =? AF_INET) with false. change (AF_INET6 =? AF_INET6) with true. cbv iota.
    by rewrite (bind_run _ _ _ _ _ P).
Qed.

Lemma inet6_round_trip_witness :
  exists out, inet_ntop AF_INET6 [32; 1; 0; 0; 0; 0; 0; 0; 0; 0; 0; 0; 0; 0; 0; 1] (replicate 46 7) 46 tt = Ret (Some out, 0) tt /\
    inet_pton [9; 9; 9; 9] AF_INET6 (cstr out) tt = Ret (1, Some [32; 1; 0; 0; 0; 0; 0; 0; 0; 0; 0; 0; 0; 0; 0; 1], 0) tt.
Proof.
  apply (inet6_round_trip [9; 9; 9; 9] [32; 1; 0; 0; 0; 0; 0; 0; 0; 0; 0; 0; 0; 0; 0; 1] (replicate 46 7)).
  - split; [reflexivity|]. repeat constructor; discriminate.
  - reflexivity.
  - simpl. lia.
Defined.

(** [inet_pton6] takes two malformed forms.  A full address followed by
    a colon is accepted as the address.  A double colon in a text that
    already has eight words is not ignored: every word after it is replaced
    by zero. *)
Theorem inet_pton6_lenient mem4 ws pre post :
  Forall word ws -> length ws = 8%nat ->
  Forall word pre -> Forall word post -> pre <> [] -> post <> [] -> (length pre + length post = 8)%nat ->
  inet_pton6 mem4 (join6 ws ++ [c_colon]) tt = Ret (Some (bytes_of ws)) tt /\
  inet_pton6 mem4 (jtext pre ++ c_colon :: join6 post) tt = Ret (Some (bytes_of pre ++ replicate (2 * length post) 0)) tt.
Proof.
  intros W L W1 W2 Hpre Hpost HL. split.
  - assert (ws <> []) by (by intros ->). rewrite join6_colon by done. rewrite <-(app_nil_r (jtext ws)), pton6_words by done.
    unfold parse6. rewrite words_run by (done || rewrite L; simpl; lia). cbn [pton6_loop].
    rewrite ret_bind, finish_full by (cbn [app]; rewrite bytes_of_length, L; done). done.
  - rewrite pton6_words by done. rewrite parse_gap_start by (done || lia).
    rewrite parse_words by (done || (rewrite bytes_of_length; lia)).
    rewrite finish_no_gap by (rewrite !bytes_of_length; lia). by rewrite bytes_of_length.
Qed.

Lemma inet_pton6_lenient_witness :
  inet_pton6 [9; 9; 9; 9] (str "1:2:3:4:5:6:7:8:") tt = Ret (Some [0; 1; 0; 2; 0; 3; 0; 4; 0; 5; 0; 6; 0; 7; 0; 8]) tt /\
  inet_pton6 [9; 9; 9; 9] (str "1:2:3:4:5:6:7::8") tt = Ret (Some [0; 1; 0; 2; 0; 3; 0; 4; 0; 5; 0; 6; 0; 7; 0; 0]) tt.
Proof.
  apply (inet_pton6_lenient [9; 9; 9; 9] [1; 2; 3; 4; 5; 6; 7; 8] [1; 2; 3; 4; 5; 6; 7] [8]);
    try discriminate; try reflexivity; repeat constructor; discriminate.
Defined.

(** * Any text *)
Section total.
Implicit Types (t A B : bytes) (s : p6).

(** The address being built: 16 bytes, and the pointers inside. *)
Definition p6_ok s : Prop :=
  length (tmp6 s) = IN6ADDRSZ /\ Forall is_byte (tmp6 s) /\ (tp6 s <= IN6ADDRSZ)%nat /\ (forall c, colonp s = Some c -> (c <= tp6 s)%nat).

Lemma land_byte x : is_byte (Z.land x 255).
Proof. change 255 with (Z.ones 8). rewrite Z.land_ones by lia. unfold is_byte. apply Z.mod_pos_bound. lia. Qed.

Lemma store_byte t (i : nat) (v : Z) : length t = IN6ADDRSZ -> Forall is_byte t -> (i < IN6ADDRSZ)%nat -> is_byte v ->
  exists t', store i v t = ret t' /\ length t' = IN6ADDRSZ /\ Forall is_byte t'.
Proof.
  intros L F Hi Hv. unfold store. rewrite L. destruct (Nat.ltb_spec i IN6ADDRSZ); [|lia].
  eexists. split; [done|]. rewrite length_insert. split; [done|]. by apply Forall_insert.
Qed.

Lemma flush_total s : p6_ok s -> (tp6 s + 2 <= IN6ADDRSZ)%nat -> exists s', flush s = ret s' /\ p6_ok s'.
Proof.
  intros (L & F & Ht & Hc) H. unfold flush.
  destruct (store_byte _ (tp6 s) _ L F ltac:(lia) (land_byte (u8 (Z.shiftr (val6 s) 8)))) as (t1 & -> & L1 & F1). rewrite ret_bind.
  destruct (store_byte _ (S (tp6 s)) _ L1 F1 ltac:(lia) (land_byte (u8 (val6 s)))) as (t2 & -> & L2 & F2). rewrite ret_bind.
  eexists. split; [done|]. split; [done|]. split; [done|]. cbn [tp6 colonp]. split; [lia|]. intros c E. specialize (Hc c E). lia.
Qed.

Lemma dotted_quad_bytes src b : dotted_quad src = Some b -> length b = INADDRSZ /\ Forall is_byte b.
Proof.
  unfold dotted_quad. destruct (forallb field_ok (split_dots src) && (length (split_dots src) =? 4)%nat) eqn:E; [|done].
  intros [= <-]. apply andb_true_iff in E as [E1 E2]. apply Nat.eqb_eq in E2. rewrite length_fmap. split; [done|].
  apply Forall_fmap, list.Forall_forall. intros f Hf. apply list_elem_of_In in Hf. rewrite forallb_forall in E1. specialize (E1 f Hf).
  destruct (field_ok_inv f E1) as [Hd Hv]. split; [|lia]. by apply (dval_mono 0 f).
Qed.

Lemma pton6_loop_total mem src : length mem = INADDRSZ -> forall cur s, p6_ok s ->
  exists o, pton6_loop mem src cur s tt = Ret o tt /\ (forall s', o = Some s' -> p6_ok s').
Proof.
  intros Hm. induction src as [|ch src IH]; intros cur s Hs; cbn [pton6_loop].
  { eexists. split; [done|]. by intros s' [= <-]. }
  pose proof Hs as (L & F & Ht & Hc).
  assert (exists o : option p6, (ret None : M unit (option p6)) tt = Ret o tt /\ (forall s', o = Some s' -> p6_ok s')) as No by (by eexists).
  destruct (hexval ch) as [d|].
  - cbv zeta. destruct (_ >? 65535); [done|]. by apply IH.
  - destruct (ch =? c_colon).
    + destruct (saw_xdigit s); cbn [negb].
      * destruct (Nat.ltb_spec IN6ADDRSZ (tp6 s + 2)); [done|]. destruct (flush_total s Hs) as (s' & -> & Hs'); [lia|]. rewrite ret_bind. by apply IH.
      * destruct (colonp s) eqn:E; [done|]. apply IH. split; [done|]. split; [done|]. split; [done|]. cbn. by intros c [= <-].
    + destruct ((ch =? c_dot) && (tp6 s + INADDRSZ <=? IN6ADDRSZ)%nat) eqn:E; [|done].
      apply andb_true_iff in E as [_ E]. apply Nat.leb_le in E. rewrite (bind_run _ _ _ _ _ (pton4_run mem cur Hm)).
      destruct (dotted_quad cur) as [b|] eqn:Eq; [|done]. destruct (dotted_quad_bytes _ _ Eq) as [Lb Fb].
      eexists. split; [done|]. intros s' [= <-]. split; [|split; [|split]]; cbn [tmp6 tp6 colonp].
      * rewrite splice_length; [done|]. by rewrite Lb, L.
      * unfold splice. rewrite !Forall_app. split; [by apply Forall_take|]. split.
        { apply Forall_replicate. unfold is_byte. lia. }
        split; [done|]. by apply Forall_drop.
      * done.
      * intros c Ec. specialize (Hc c Ec). lia.
Qed.

Lemma shift_total (c : nat) (n : nat) : (c + n <= IN6ADDRSZ)%nat -> forall k i t, (i + k = S n)%nat -> (1 <= i)%nat -> length t = IN6ADDRSZ -> Forall is_byte t ->
  exists t', shift_loop k i n c t = ret t' /\ length t' = IN6ADDRSZ /\ Forall is_byte t'.
Proof.
  intros Hcn k. induction k as [|k IH]; intros i t Hi H1 L F; [by exists t|]. cbn [shift_loop].
  unfold fetch. destruct (lookup_lt_is_Some_2 t (c + (n - i))) as [v Ev]; [rewrite L; lia|]. rewrite Ev, ret_bind.
  assert (is_byte v) as Hv by (rewrite list.Forall_forall in F; apply F; by eapply list_elem_of_lookup_2).
  destruct (store_byte t (IN6ADDRSZ - i) v L F) as (t1 & -> & L1 & F1); [unfold IN6ADDRSZ in *; lia|done|]. rewrite ret_bind.
  destruct (store_byte t1 (c + (n - i)) 0 L1 F1) as (t2 & -> & L2 & F2); [lia|unfold is_byte; lia|]. rewrite ret_bind.
  apply IH; [lia|lia|done|done].
Qed.

Lemma finish_total s : p6_ok s -> exists o, pton6_finish s tt = Ret o tt /\ (forall b, o = Some b -> length b = IN6ADDRSZ /\ Forall is_byte b).
Proof.
  intros Hs. unfold pton6_finish.
  assert (exists o, (if saw_xdigit s then if (IN6ADDRSZ <? tp6 s + 2)%nat then ret None else (let* s := flush s in ret (Some s)) else ret (Some s)) tt = Ret o tt /\
    (forall s', o = Some s' -> p6_ok s')) as (o & E & Ho).
  { destruct (saw_xdigit s); [|eexists; split; [done|]; by intros ? [= <-]].
    destruct (Nat.ltb_spec IN6ADDRSZ (tp6 s + 2)); [by eexists|]. destruct (flush_total s Hs) as (s' & -> & Hs'); [lia|].
    eexists. split; [done|]. by intros ? [= <-]. }
  rewrite (bind_run _ _ _ _ _ E). destruct o as [s1|]; [|by eexists]. destruct (Ho s1 eq_refl) as (L & F & Ht & Hc).
  destruct (colonp s1) as [c|].
  - specialize (Hc c eq_refl). destruct (shift_total c (tp6 s1 - c) ltac:(lia) (tp6 s1 - c) 1 (tmp6 s1)) as (t & E1 & L1 & F1); [lia|lia|done|done|].
    cbv zeta. rewrite E1, ret_bind. eexists. split; [done|]. by intros b [= <-].
  - destruct (Nat.eqb_spec (tp6 s1) IN6ADDRSZ); [|by eexists]. eexists. split; [done|]. by intros b [= <-].
Qed.

Lemma pton6_total mem src : length mem = INADDRSZ ->
  exists o, inet_pton6 mem src tt = Ret o tt /\ (forall b, o = Some b -> length b = IN6ADDRSZ /\ Forall is_byte b).
Proof.
  intros Hm. assert (forall x, exists o, (let* r := pton6_loop mem x x (mk_p6 (replicate IN6ADDRSZ 0) 0 None false 0) in
    match r with None => ret None | Some s => pton6_finish s end) tt = Ret o tt /\ (forall b, o = Some b -> length b = IN6ADDRSZ /\ Forall is_byte b)) as Start.
  { intros x. destruct (pton6_loop_total mem x Hm x (mk_p6 (replicate IN6ADDRSZ 0) 0 None false 0)) as (o & E & Ho).
    { split; [done|]. split; [apply Forall_replicate; unfold is_byte; lia|]. split; [cbn; lia|done]. }
    rewrite (bind_run _ _ _ _ _ E). destruct o as [s|]; [|by eexists]. apply finish_total. by apply Ho. }
  unfold inet_pton6. destruct src as [|ch src]; [apply Start|]. cbv zeta. destruct (ch =? c_colon); [|apply Start].
  destruct src as [|ch' src]; [by eexists|]. destruct (ch' =? c_colon); [apply Start|by eexists].
Qed.

(** The dispatcher, for both families. *)
Lemma pton_total mem (af : Z) src : length mem = INADDRSZ -> af = AF_INET \/ af = AF_INET6 ->
  exists o, inet_pton mem af src tt = Ret (match o with Some b => (1, Some b, 0) | None => (0, None, 0) end) tt /\
    (forall b, o = Some b -> length b = (if (af =? AF_INET)%Z then INADDRSZ else IN6ADDRSZ) /\ Forall is_byte b).
Proof.
  intros Hm [-> | ->]; unfold inet_pton.
  - exists (dotted_quad src). change (AF_INET =? AF_INET) with true. cbv iota. split; [by rewrite (bind_run _ _ _ _ _ (pton4_run mem src Hm))|]. intros b. apply dotted_quad_bytes.
  - destruct (pton6_total mem src Hm) as (o & E & Ho). exists o. change (AF_INET6 =? AF_INET) with false. change (AF_INET6 =? AF_INET6) with true. cbv iota.
    split; [by rewrite (bind_run _ _ _ _ _ E)|done].
Qed.
End total.

(** C14: [inet_pton] is safe on any text: for each of the two families it
    returns, never writing outside the arrays, and the result is 1 with an
    address of the family's size, all of whose elements are bytes, or 0. *)
Theorem inet_pton_safe mem4 (af : Z) src : length mem4 = INADDRSZ -> af = AF_INET \/ af = AF_INET6 ->
  exists rc o, inet_pton mem4 af src tt = Ret (rc, o, 0) tt /\
    ((rc = 0 /\ o = None) \/
     (rc = 1 /\ exists b, o = Some b /\ length b = (if af =? AF_INET then INADDRSZ else IN6ADDRSZ) /\ Forall is_byte b)).
Proof.
  intros Hm Ha. destruct (pton_total mem4 af src Hm Ha) as ([b|] & E & H); [exists 1, (Some b)|exists 0, None]; (split; [exact E|]); [right|left; done].
  split; [done|]. exists b. split; [done|]. by apply H.
Qed.

Lemma inet_pton_safe_witness :
  exists rc o, inet_pton [9; 9; 9; 9] AF_INET6 (str "::1.2.3.4.5") tt = Ret (rc, o, 0) tt /\
    ((rc = 0 /\ o = None) \/ (rc = 1 /\ exists b, o = Some b /\ length b = IN6ADDRSZ /\ Forall is_byte b)).
Proof. apply (inet_pton_safe [9; 9; 9; 9] AF_INET6 (str "::1.2.3.4.5")); [reflexivity|by right]. Defined.
