(* ===== verification/Fmemopen.v ===== *)
(** The memory stream of [apue.3e/exercises/fmemopen.c]: [fmemopen] over
    [funopen], with the stream's read, write, seek and close functions, and
    the refinement of a stream open for reading and writing to a bounded
    file. *)
From Stdlib Require Import ZArith Lia.
From stdpp Require Import base list strings numbers.
From S2P Require Import Prelude CString CFile.
Local Open Scope c_scope.

(** [buf] with its bytes; [rsize], [vsize] and [curpos] are [size_t]. *)
Record memstream := mk_ms { ms_buf : bytes; rsize : Z; vsize : Z; curpos : Z; ms_flags : Z }.

Definition MS_READ : Z := 1.
Definition MS_WRITE : Z := 2.
Definition MS_APPEND : Z := 4.
Definition MS_TRUNCATE : Z := 8.
Definition MS_MYBUF : Z := 16.
Definition EBADF : Z := 9.
Definition ENOMEM : Z := 12.
Definition EINVAL : Z := 22.

(** The process: the allocated structure, whether the buffer it allocated is
    live, and [errno]. *)
Record mproc := mk_mproc { m_ms : option memstream; m_mybuf : bool; m_errno : Z }.

Definition set_ms (v : option memstream) (s : mproc) : mproc := mk_mproc v (m_mybuf s) (m_errno s).
Definition set_mybuf (v : bool) (s : mproc) : mproc := mk_mproc (m_ms s) v (m_errno s).
Definition set_merrno (v : Z) (s : mproc) : mproc := mk_mproc (m_ms s) (m_mybuf s) v.
Definition the_ms : M mproc memstream := fun s =>
  match m_ms s with Some ms => Ret ms s | None => Undef "memstream used after free" end.
Definition put_ms (ms : memstream) : M mproc unit := modify (set_ms (Some ms)).
Definition free_ms : M mproc unit := let* _ := the_ms in modify (set_ms None).
Definition free_buf : M mproc unit := fun s =>
  if m_mybuf s then Ret tt (set_mybuf false s) else Undef "free of a buffer not allocated".

(** [flags & bits], as a condition. *)
Definition has (flags bits : Z) : bool := negb (Z.land flags bits =? 0).
Definition RDWR : Z := Z.lor MS_READ MS_WRITE.
Definition min_ (a b : Z) : Z := if a <? b then a else b.

(** The loop of [type_to_flags] with the flags so far; the string without
    its terminator. *)
Fixpoint type_loop (flags : Z) (cp : bytes) : Z :=
  match cp with
  | [] => flags
  | c :: r =>
      if c =? 114 then (if negb (flags =? 0) then 0 else type_loop (Z.lor flags MS_READ) r)
      else if c =? 119 then (if negb (flags =? 0) then 0 else type_loop (Z.lor flags (Z.lor MS_WRITE MS_TRUNCATE)) r)
      else if c =? 97 then (if negb (flags =? 0) then 0 else type_loop (Z.lor flags MS_APPEND) r)
      else if c =? c_plus then (if flags =? 0 then 0 else type_loop (Z.lor flags RDWR) r)
      else if c =? 98 then (if flags =? 0 then 0 else type_loop flags r)
      else 0
  end.
Definition type_to_flags (type : bytes) : Z := type_loop 0 type.

(** [find_end] over the first [len] bytes. *)
Fixpoint find_end (buf : bytes) (len : nat) : M mproc Z :=
  match len with
  | O => ret 0
  | S n =>
      match buf with
      | [] => undef "read past buf"
      | c :: r => if c =? 0 then ret 0 else let* k := find_end r n in ret (1 + k)
      end
  end.

(** [fmemopen]: [ms_mem] says whether the structure can be allocated,
    [buf_mem] is what [malloc(size)] gives, [fp_ok] whether [funopen]
    succeeds.  [true] is a stream. *)
Definition fmemopen (ms_mem : bool) (buf_mem : option bytes) (fp_ok : bool)
    (buf : option bytes) (size : Z) (type : bytes) : M mproc bool :=
  let fail (e : Z) : M mproc bool := modify (set_merrno e);;; ret false in
  if size =? 0 then fail EINVAL
  else if negb ms_mem then fail ENOMEM
  else
    let fl := type_to_flags type in
    put_ms (mk_ms [] 0 0 0 fl);;;
    if fl =? 0 then modify (set_merrno EINVAL);;; free_ms;;; ret false
    else
      let* r := (match buf with
                 | None =>
                     if negb (Z.land fl RDWR =? RDWR) then modify (set_merrno EINVAL);;; free_ms;;; ret None
                     else match buf_mem with
                          | None => modify (set_merrno ENOMEM);;; free_ms;;; ret None
                          | Some b => modify (set_mybuf true);;; ret (Some (b, Z.lor fl MS_MYBUF, 0))
                          end
                 | Some b =>
                     if has fl MS_APPEND then let* e := find_end b (Z.to_nat size) in ret (Some (b, fl, e))
                     else ret (Some (b, fl, 0))
                 end) in
      match r with
      | None => ret false
      | Some (b, fl, pos) =>
          put_ms (mk_ms b size (if has fl MS_APPEND then pos else if has fl MS_TRUNCATE then 0 else size) pos fl);;;
          if negb fp_ok then (if has fl MS_MYBUF then free_buf else skip);;; free_ms;;; ret false
          else ret true
      end.

(** [mstream_read] into a buffer of [len] bytes: the value, and the bytes
    copied. *)
Definition mstream_read (len : Z) : M mproc (Z * bytes) :=
  let* ms := the_ms in
  if negb (has (ms_flags ms) MS_READ) then modify (set_merrno EBADF);;; ret (-1, [])
  else if curpos ms >=? vsize ms then ret (0, [])
  else
    let nr := i32 (min_ (u64 len) (u64 (vsize ms - curpos ms))) in
    if (nr <? 0) || (len <? nr) then undef "memcpy past the caller's buffer"
    else if Z.of_nat (length (ms_buf ms)) <? curpos ms + nr then undef "memcpy past buf"
    else put_ms (mk_ms (ms_buf ms) (rsize ms) (vsize ms) (u64 (curpos ms + nr)) (ms_flags ms));;;
         ret (nr, slice (Z.to_nat (curpos ms)) (Z.to_nat nr) (ms_buf ms)).

(** [ms->buf[i] = 0] *)
Definition poke0 (i : Z) (b : bytes) : M mproc bytes :=
  if (0 <=? i) && (i <? Z.of_nat (length b)) then ret (<[Z.to_nat i := 0]> b) else undef "write past buf".

(** [mstream_write] of the [len] bytes of [src]. *)
Definition mstream_write (src : bytes) (len : Z) : M mproc Z :=
  let* ms := the_ms in
  let fl := ms_flags ms in
  if negb (has fl (Z.lor MS_APPEND MS_WRITE)) then modify (set_merrno EBADF);;; ret (-1)
  else
    let off := i32 (if has fl MS_APPEND then vsize ms else curpos ms) in
    let nw := i32 (min_ (u64 len) (u64 (rsize ms - off))) in
    if (nw <? 0) || (Z.of_nat (length src) <? nw) then undef "memcpy past the caller's buffer"
    else if (off <? 0) || (Z.of_nat (length (ms_buf ms)) <? off + nw) || (2 ^ 31 <=? off + nw) then undef "memcpy past buf"
    else
      let buf := splice (Z.to_nat off) (take (Z.to_nat nw) src) (ms_buf ms) in
      let curpos := off + nw in
      let* bv := (if curpos >? vsize ms then
                    if (Z.land fl RDWR =? RDWR) && (curpos <? rsize ms)
                    then let* b := poke0 curpos buf in ret (b, curpos) else ret (buf, curpos)
                  else ret (buf, vsize ms)) in
      let* b := (if has fl (Z.lor MS_WRITE MS_APPEND) && negb (has fl MS_READ) then
                   if curpos <? rsize ms then poke0 curpos bv.1 else poke0 (rsize ms - 1) bv.1
                 else ret bv.1) in
      put_ms (mk_ms b (rsize ms) bv.2 curpos fl);;; ret nw.

(** [mstream_seek]; [off] is an [int], [pos] 64 bits wide. *)
Definition mstream_seek (pos : Z) (w : whence) : M mproc Z :=
  let* ms := the_ms in
  let off := i32 (match w with
                  | SEEK_SET => pos
                  | SEEK_END => u64 (vsize ms + pos)
                  | SEEK_CUR => u64 (curpos ms + pos)
                  end) in
  if (off <? 0) || (off >? vsize ms) then modify (set_merrno EINVAL);;; ret (-1)
  else put_ms (mk_ms (ms_buf ms) (rsize ms) (vsize ms) off (ms_flags ms));;; ret off.

Definition mstream_close : M mproc Z :=
  let* ms := the_ms in
  (if has (ms_flags ms) MS_MYBUF then free_buf else skip);;; free_ms;;; ret 0.

(** * The bounded file a stream is *)

(** The calls stdio makes on the stream. *)
Inductive mop := ORead (n : nat) | OWrite (bs : bytes) | OSeek (pos : Z) (w : whence).
Definition INT_MAX : Z := 2 ^ 31 - 1.
Definition op_ok (o : mop) : Prop :=
  match o with
  | ORead n => Z.of_nat n <= INT_MAX
  | OWrite bs => Z.of_nat (length bs) <= INT_MAX
  | OSeek pos _ => - 2 ^ 31 <= pos <= INT_MAX
  end.

Definition run_op (o : mop) : M mproc (Z * bytes) :=
  match o with
  | ORead n => mstream_read (Z.of_nat n)
  | OWrite bs => let* n := mstream_write bs (Z.of_nat (length bs)) in ret (n, [])
  | OSeek pos w => let* n := mstream_seek pos w in ret (n, [])
  end.
Fixpoint run_ops (os : list mop) : M mproc (list (Z * bytes)) :=
  match os with
  | [] => ret []
  | o :: os => let* r := run_op o in let* rs := run_ops os in ret (r :: rs)
  end.

(** The same calls on a file of at most [cap] bytes, whose writes go to the
    end when [app] is set, and whose offset may not pass the end. *)
Definition file_op (cap : nat) (app : bool) (o : mop) (f : file) : (Z * bytes) * file :=
  match o with
  | ORead n => let r := fread f n in ((Z.of_nat (length r.1), r.1), r.2)
  | OWrite bs =>
      let f := if app then mk_file (f_data f) (f_size f) else f in
      let w := take (cap - f_pos f) bs in
      ((Z.of_nat (length w), []), fwrite f w)
  | OSeek pos w =>
      match lseek f pos w with
      | Some (p, f') => if Z.of_nat (f_size f) <? p then ((-1, []), f) else ((p, []), f')
      | None => ((-1, []), f)
      end
  end.
Fixpoint file_ops (cap : nat) (app : bool) (os : list mop) (f : file) : list (Z * bytes) * file :=
  match os with
  | [] => ([], f)
  | o :: os => let r := file_op cap app o f in let rs := file_ops cap app os r.2 in (r.1 :: rs.1, rs.2)
  end.

Section stream.
Implicit Types (ms : memstream) (f : file) (s : mproc) (buf : bytes).

Record ms_inv ms : Prop := {
  inv_len : Z.of_nat (length (ms_buf ms)) = rsize ms;
  inv_cap : 0 < rsize ms <= INT_MAX;
  inv_pos : 0 <= curpos ms <= vsize ms;
  inv_end : vsize ms <= rsize ms }.

(** The stream as a file: the first [vsize] bytes of the buffer. *)
Definition view ms : file := mk_file (take (Z.to_nat (vsize ms)) (ms_buf ms)) (Z.to_nat (curpos ms)).

Lemma i32_small x : - 2 ^ 31 <= x <= INT_MAX -> i32 x = x.
Proof. intros. apply wraps_small; unfold INT_MAX in *; lia. Qed.
Lemma u64_small x : 0 <= x <= 2 ^ 32 -> u64 x = x.
Proof. intros. apply wrapu_small. lia. Qed.

Lemma min_spec a b : min_ a b = Z.min a b.
Proof. unfold min_. destruct (Z.ltb_spec a b); lia. Qed.

Lemma view_size ms : ms_inv ms -> f_size (view ms) = Z.to_nat (vsize ms).
Proof. intros [L C P E]. unfold f_size, view. cbn [f_data]. rewrite length_take. lia. Qed.

Lemma read_run s ms (n : nat) : m_ms s = Some ms -> ms_inv ms -> has (ms_flags ms) MS_READ = true -> Z.of_nat n <= INT_MAX ->
  exists ms', mstream_read (Z.of_nat n) s = Ret (file_op (Z.to_nat (rsize ms)) false (ORead n) (view ms)).1 (set_ms (Some ms') s) /\
    ms_inv ms' /\ view ms' = (fread (view ms) n).2 /\ ms_flags ms' = ms_flags ms /\ rsize ms' = rsize ms.
Proof.
  intros Es Hi Hf Hn. pose proof Hi as [L C P E]. unfold mstream_read, the_ms.
  rewrite (bind_run _ _ _ ms s) by (by rewrite Es). rewrite Hf. cbn [negb]. unfold file_op, fread. cbn [f_pos f_data view fst snd].
  rewrite Z.geb_leb. destruct (Z.leb_spec (vsize ms) (curpos ms)).
  - exists ms. assert (slice (Z.to_nat (curpos ms)) n (take (Z.to_nat (vsize ms)) (ms_buf ms)) = []) as ->.
    { unfold slice. rewrite drop_ge; [by rewrite take_nil|]. rewrite length_take. lia. }
    split; [by destruct s; simpl in *; subst|]. split; [done|]. split; [|done]. unfold view. simpl. f_equal. lia.
  - rewrite (u64_small (Z.of_nat n)), (u64_small (vsize ms - curpos ms)), min_spec by (unfold INT_MAX in *; lia).
    rewrite i32_small by lia. set (nr := Z.min _ _).
    destruct (Z.ltb_spec nr 0), (Z.ltb_spec (Z.of_nat n) nr); try lia. cbn [orb].
    destruct (Z.ltb_spec (Z.of_nat (length (ms_buf ms))) (curpos ms + nr)); [lia|].
    assert (slice (Z.to_nat (curpos ms)) n (take (Z.to_nat (vsize ms)) (ms_buf ms)) = slice (Z.to_nat (curpos ms)) (Z.to_nat nr) (ms_buf ms)) as Es2.
    { unfold slice. rewrite skipn_firstn_comm, take_take. f_equal. lia. }
    rewrite Es2. assert (length (slice (Z.to_nat (curpos ms)) (Z.to_nat nr) (ms_buf ms)) = Z.to_nat nr) as Lr.
    { unfold slice. rewrite length_take, length_drop. lia. }
    rewrite Lr, Z2Nat.id by lia. rewrite u64_small by (unfold INT_MAX in *; lia).
    eexists. split; [reflexivity|]. split; [split; cbn; lia|]. split; [|done]. unfold view. cbn. f_equal. lia.
Qed.

Lemma take_splice (off v : nat) (w buf : bytes) : (off <= v)%nat -> (v <= length buf)%nat -> (off + length w <= length buf)%nat ->
  take (Nat.max v (off + length w)) (splice off w buf) = splice off w (take v buf).
Proof.
  intros H1 H2 H3. unfold splice. rewrite length_take. replace (off - length buf)%nat with 0%nat by lia.
  replace (off - v `min` length buf)%nat with 0%nat by lia. cbn [replicate app].
  rewrite take_app, !take_take, length_take, skipn_firstn_comm.
  replace ((v `max` (off + length w)) `min` off)%nat with off by lia. replace (off `min` v)%nat with off by lia.
  f_equal. rewrite take_app, (take_ge w) by lia. f_equal. f_equal. lia.
Qed.

Lemma fwrite_splice f (w : bytes) : (f_pos f <= f_size f)%nat ->
  fwrite f w = mk_file (splice (f_pos f) w (f_data f)) (f_pos f + length w).
Proof.
  destruct f as [b o]. unfold fwrite, f_size. cbn [f_pos f_data]. intros H. destruct w; [|done].
  cbn [length]. rewrite Nat.add_0_r. unfold splice. replace (o - length b)%nat with 0%nat by lia.
  cbn [replicate app length]. by rewrite Nat.add_0_r, take_drop.
Qed.

Lemma rdwr_flags fl : Z.land fl RDWR = RDWR -> has fl MS_READ = true /\ has fl (Z.lor MS_APPEND MS_WRITE) = true.
Proof.
  intros H. assert (Z.testbit fl 0 = true /\ Z.testbit fl 1 = true) as [H0 H1].
  { split; [pose proof (f_equal (fun x => Z.testbit x 0) H) as E|pose proof (f_equal (fun x => Z.testbit x 1) H) as E];
    cbv beta in E; rewrite Z.land_spec in E; change (Z.testbit RDWR 0) with true in E; change (Z.testbit RDWR 1) with true in E;
    by rewrite andb_true_r in E. }
  unfold has. split; apply negb_true_iff, Z.eqb_neq; intros E.
  - pose proof (f_equal (fun x => Z.testbit x 0) E) as E'. cbv beta in E'. by rewrite Z.land_spec, H0 in E'.
  - pose proof (f_equal (fun x => Z.testbit x 1) E) as E'. cbv beta in E'. by rewrite Z.land_spec, H1 in E'.
Qed.

(** Where a write starts, and how much of it fits. *)
Definition wr_off ms : Z := if has (ms_flags ms) MS_APPEND then vsize ms else curpos ms.
Definition wr_len ms (src : bytes) : Z := Z.min (Z.of_nat (length src)) (rsize ms - wr_off ms).
Definition wr_buf ms (src : bytes) : bytes := splice (Z.to_nat (wr_off ms)) (take (Z.to_nat (wr_len ms src)) src) (ms_buf ms).

Lemma wr_facts ms src : ms_inv ms -> Z.of_nat (length src) <= INT_MAX ->
  0 <= wr_off ms <= vsize ms /\ 0 <= wr_len ms src /\ wr_off ms + wr_len ms src <= rsize ms /\
  length (take (Z.to_nat (wr_len ms src)) src) = Z.to_nat (wr_len ms src) /\ Z.of_nat (length (wr_buf ms src)) = rsize ms.
Proof.
  intros [L C P E] Hs. unfold wr_buf.
  assert (0 <= wr_off ms <= vsize ms) as Ho by (unfold wr_off; case_match; lia).
  assert (0 <= wr_len ms src /\ wr_off ms + wr_len ms src <= rsize ms /\ wr_len ms src <= Z.of_nat (length src)) as Hl by (unfold wr_len; lia).
  assert (length (take (Z.to_nat (wr_len ms src)) src) = Z.to_nat (wr_len ms src)) as Lt by (rewrite length_take; lia).
  repeat split; try lia; try done. rewrite splice_length; lia.
Qed.

(** Both ways of ending a write, as far as the first part. *)
Lemma write_prefix s ms src : m_ms s = Some ms -> ms_inv ms -> Z.of_nat (length src) <= INT_MAX ->
  has (ms_flags ms) (Z.lor MS_APPEND MS_WRITE) = true ->
  mstream_write src (Z.of_nat (length src)) s =
    (let cp := wr_off ms + wr_len ms src in
     let* bv := (if cp >? vsize ms then
                   if (Z.land (ms_flags ms) RDWR =? RDWR) && (cp <? rsize ms)
                   then let* b := poke0 cp (wr_buf ms src) in ret (b, cp) else ret (wr_buf ms src, cp)
                 else ret (wr_buf ms src, vsize ms)) in
     let* b := (if has (ms_flags ms) (Z.lor MS_WRITE MS_APPEND) && negb (has (ms_flags ms) MS_READ) then
                  if cp <? rsize ms then poke0 cp bv.1 else poke0 (rsize ms - 1) bv.1
                else ret bv.1) in
     put_ms (mk_ms b (rsize ms) bv.2 cp (ms_flags ms));;; ret (wr_len ms src)) s.
Proof.
  intros Es Hi Hs Hf. destruct (wr_facts ms src Hi Hs) as (Ho & Hl & Hle & Lt & _). pose proof Hi as [L C P E].
  unfold mstream_write, the_ms. rewrite (bind_run _ _ _ ms s) by (by rewrite Es). rewrite Hf. cbn [negb].
  fold (wr_off ms). rewrite (i32_small (wr_off ms)) by lia. cbv zeta.
  rewrite (u64_small (Z.of_nat (length src))), (u64_small (rsize ms - wr_off ms)), min_spec by (unfold INT_MAX in *; lia).
  fold (wr_len ms src). rewrite i32_small by (unfold INT_MAX in *; lia).
  destruct (Z.ltb_spec (wr_len ms src) 0), (Z.ltb_spec (Z.of_nat (length src)) (wr_len ms src)); try lia; [unfold wr_len in *; lia|]. cbn [orb].
  destruct (Z.ltb_spec (wr_off ms) 0), (Z.ltb_spec (Z.of_nat (length (ms_buf ms))) (wr_off ms + wr_len ms src)),
    (Z.leb_spec (2 ^ 31) (wr_off ms + wr_len ms src)); try (unfold INT_MAX in *; lia). done.
Qed.

Lemma poke0_run i b s : 0 <= i < Z.of_nat (length b) -> poke0 i b s = Ret (<[Z.to_nat i := 0]> b) s.
Proof. intros H. unfold poke0. by destruct (Z.leb_spec 0 i), (Z.ltb_spec i (Z.of_nat (length b))); try lia. Qed.

Lemma write_run s ms src : m_ms s = Some ms -> ms_inv ms -> Z.land (ms_flags ms) RDWR = RDWR -> Z.of_nat (length src) <= INT_MAX ->
  exists ms', let r := file_op (Z.to_nat (rsize ms)) (has (ms_flags ms) MS_APPEND) (OWrite src) (view ms) in
    mstream_write src (Z.of_nat (length src)) s = Ret r.1.1 (set_ms (Some ms') s) /\
    ms_inv ms' /\ view ms' = r.2 /\ ms_flags ms' = ms_flags ms /\ rsize ms' = rsize ms.
Proof.
  intros Es Hi Hf Hs. destruct (wr_facts ms src Hi Hs) as (Ho & Hl & Hle & Lt & Lb). pose proof Hi as [L C P E].
  destruct (rdwr_flags _ Hf) as [Hr Hw]. rewrite (write_prefix s ms src) by done. cbv zeta. rewrite Hr, andb_false_r, Hf, Z.eqb_refl. cbn [andb].
  set (cp := wr_off ms + wr_len ms src) in *.
  set (buf := if (cp >? vsize ms) && (cp <? rsize ms) then <[Z.to_nat cp := 0]> (wr_buf ms src) else wr_buf ms src).
  exists (mk_ms buf (rsize ms) (Z.max (vsize ms) cp) cp (ms_flags ms)).
  assert (Z.of_nat (length buf) = rsize ms) as Lbuf by (unfold buf; case_match; rewrite ?length_insert; done).
  assert (take (Z.to_nat (Z.max (vsize ms) cp)) buf = splice (Z.to_nat (wr_off ms)) (take (Z.to_nat (wr_len ms src)) src) (f_data (view ms))) as Hd.
  { cbn [f_data view]. rewrite <-take_splice by (rewrite ?Lt; lia). fold (wr_buf ms src). rewrite Lt.
    replace (Z.to_nat (Z.max (vsize ms) cp)) with (Nat.max (Z.to_nat (vsize ms)) (Z.to_nat (wr_off ms) + Z.to_nat (wr_len ms src))) by lia.
    unfold buf. case_match eqn:Hc; [|done]. apply andb_true_iff in Hc as [Hc _]. rewrite take_insert_ge by lia. done. }
  assert (bind (if cp >? vsize ms then if cp <? rsize ms then let* b := poke0 cp (wr_buf ms src) in ret (b, cp)
             else ret (wr_buf ms src, cp) else ret (wr_buf ms src, vsize ms))
           (fun bv => let* b := ret bv.1 in put_ms (mk_ms b (rsize ms) bv.2 cp (ms_flags ms));;; ret (wr_len ms src)) s =
         Ret (wr_len ms src) (set_ms (Some (mk_ms buf (rsize ms) (Z.max (vsize ms) cp) cp (ms_flags ms))) s)) as ->.
  { unfold buf. rewrite Z.gtb_ltb. destruct (Z.ltb_spec (vsize ms) cp); cbn [andb].
    - rewrite Z.max_r by lia. destruct (Z.ltb_spec cp (rsize ms)); [|done]. rewrite bind_assoc, (bind_run _ _ _ _ _ (poke0_run cp (wr_buf ms src) s ltac:(lia))). done.
    - by rewrite Z.max_l by lia. }
  unfold file_op. cbv zeta. cbn [fst snd].
  set (f0 := if has (ms_flags ms) MS_APPEND then _ else _).
  assert (f_pos f0 = Z.to_nat (wr_off ms) /\ f_data f0 = f_data (view ms)) as [E1 E2].
  { unfold f0, wr_off. case_match; [|done]. split; [|done]. by apply view_size. }
  assert (take (Z.to_nat (rsize ms) - f_pos f0) src = take (Z.to_nat (wr_len ms src)) src) as ->.
  { rewrite E1. unfold wr_len. destruct (Z.min_spec (Z.of_nat (length src)) (rsize ms - wr_off ms)) as [[? ->]|[? ->]].
    - rewrite !take_ge by lia. done.
    - f_equal. lia. }
  rewrite Lt, Z2Nat.id by done. split; [done|]. split; [split; cbn; lia|]. split; [|done].
  rewrite fwrite_splice, E1, E2, Lt.
  - unfold view at 1. cbn [vsize ms_buf curpos]. rewrite Hd. f_equal. lia.
  - unfold f_size. rewrite E1, E2. pose proof (view_size ms Hi) as V. unfold f_size in V. lia.
Qed.

Lemma seek_run s ms pos w : m_ms s = Some ms -> ms_inv ms -> - 2 ^ 31 <= pos <= INT_MAX ->
  exists ms' e, let r := file_op (Z.to_nat (rsize ms)) false (OSeek pos w) (view ms) in
    mstream_seek pos w s = Ret r.1.1 (set_merrno e (set_ms (Some ms') s)) /\ r.1.2 = [] /\
    ms_inv ms' /\ view ms' = r.2 /\ ms_flags ms' = ms_flags ms /\ rsize ms' = rsize ms.
Proof.
  intros Es Hi Hp. pose proof Hi as [L C P E]. unfold mstream_seek, the_ms.
  rewrite (bind_run _ _ _ ms s) by (by rewrite Es). unfold file_op, lseek. rewrite (view_size ms Hi). cbv zeta.
  cbn [f_pos view]. rewrite !Z2Nat.id by lia.
  set (p := match w with SEEK_SET => pos | SEEK_CUR => curpos ms + pos | SEEK_END => vsize ms + pos end).
  assert (exists k, i32 (match w with SEEK_SET => pos | SEEK_END => u64 (vsize ms + pos) | SEEK_CUR => u64 (curpos ms + pos) end) = p + k * 2 ^ 32
    /\ - 2 ^ 31 <= p + k * 2 ^ 32 < 2 ^ 31) as (k & Ek & Rk).
  { assert (forall x y, (exists j, x = y + j * 2 ^ 64) -> exists k, i32 x = y + k * 2 ^ 32 /\ - 2 ^ 31 <= y + k * 2 ^ 32 < 2 ^ 31) as X.
    { intros x y [j ->]. pose proof (wraps_range 32 (y + j * 2 ^ 64) ltac:(lia)) as R. unfold wraps in *. change (2 ^ (32 - 1)) with (2 ^ 31) in *.
      exists (j * 2 ^ 32 - (y + j * 2 ^ 64 + 2 ^ 31) / 2 ^ 32).
      pose proof (Z.div_mod (y + j * 2 ^ 64 + 2 ^ 31) (2 ^ 32) ltac:(lia)). lia. }
    assert (forall y, exists j, u64 y = y + j * 2 ^ 64) as U.
    { intros y. exists (- (y / 2 ^ 64)). unfold wrapu. pose proof (Z.div_mod y (2 ^ 64) ltac:(lia)). lia. }
    destruct w; apply X; [exists 0; unfold p; lia|apply U..]. }
  rewrite Ek. assert (- 2 ^ 31 <= p < 2 ^ 32) as Rp by (unfold p, INT_MAX in *; destruct w; lia).
  destruct (Z.ltb_spec p 0).
  - exists ms, EINVAL. destruct (Z.ltb_spec (p + k * 2 ^ 32) 0); [|lia]. destruct s; simpl in *; subst. done.
  - destruct (Z.ltb_spec (vsize ms) p).
    + exists ms, EINVAL. assert ((p + k * 2 ^ 32 <? 0) || (p + k * 2 ^ 32 >? vsize ms) = true) as ->.
      { apply orb_true_iff. rewrite Z.gtb_ltb, !Z.ltb_lt. unfold INT_MAX in *. lia. }
      destruct s; simpl in *; subst. done.
    + assert (k = 0) as -> by (unfold INT_MAX in *; lia). rewrite Z.add_0_r, Z.gtb_ltb.
      destruct (Z.ltb_spec p 0), (Z.ltb_spec (vsize ms) p); try lia. cbn [orb].
      eexists (mk_ms _ _ _ _ _), (m_errno s). split; [reflexivity|]. split; [done|]. split; [split; cbn; lia|]. done.
Qed.

(** The stream [s] holds is the file [f], of at most [cap] bytes. *)
Definition stream_is s (cap : nat) (app : bool) f : Prop :=
  exists ms, m_ms s = Some ms /\ ms_inv ms /\ Z.land (ms_flags ms) RDWR = RDWR /\
    has (ms_flags ms) MS_APPEND = app /\ Z.to_nat (rsize ms) = cap /\ view ms = f.

Lemma op_run s cap app f o : stream_is s cap app f -> op_ok o ->
  exists s', run_op o s = Ret (file_op cap app o f).1 s' /\ stream_is s' cap app (file_op cap app o f).2.
Proof.
  intros (ms & Es & Hi & Hf & <- & <- & <-) Ho. destruct o as [n|bs|pos w]; cbn [run_op op_ok] in *.
  - destruct (read_run s ms n Es Hi) as (ms' & E & Hi' & V & F & R); [by apply rdwr_flags|done|].
    eexists. split; [exact E|]. exists ms'. rewrite F, R. done.
  - destruct (write_run s ms bs Es Hi Hf Ho) as (ms' & E & Hi' & V & F & R). eexists. split; [by rewrite (bind_run _ _ _ _ _ E)|].
    exists ms'. rewrite F, R. done.
  - destruct (seek_run s ms pos w Es Hi Ho) as (ms' & e & E & E2 & Hi' & V & F & R). eexists. split.
    + rewrite (bind_run _ _ _ _ _ E). unfold ret. f_equal. rewrite <-E2. symmetry. apply surjective_pairing.
    + exists ms'. rewrite F, R. done.
Qed.

Lemma ops_run cap app os : Forall op_ok os -> forall s f, stream_is s cap app f ->
  exists s', run_ops os s = Ret (file_ops cap app os f).1 s' /\ stream_is s' cap app (file_ops cap app os f).2.
Proof.
  induction 1 as [|o os Ho _ IH]; intros s f H; [by exists s|]. cbn [run_ops file_ops].
  destruct (op_run s cap app f o H Ho) as (s1 & E1 & H1). destruct (IH _ _ H1) as (s2 & E2 & H2).
  exists s2. split; [|done]. rewrite (bind_run _ _ _ _ _ E1), (bind_run _ _ _ _ _ E2). done.
Qed.

Lemma find_end_run s buf : forall n, (n <= length buf)%nat -> find_end buf n s = Ret (Z.of_nat (length (cstr (take n buf)))) s.
Proof.
  induction buf as [|c buf IH]; intros [|n] H; simpl in H; try done; [lia|]. cbn [find_end take cstr].
  destruct (c =? 0); [done|]. rewrite (bind_run _ _ _ _ _ (IH n ltac:(lia))). unfold ret. f_equal. cbn [length]. lia.
Qed.

(** What a stream over the caller's buffer starts with. *)
Definition opened (fl : Z) buf : file :=
  if has fl MS_APPEND then mk_file (cstr buf) (length (cstr buf))
  else if has fl MS_TRUNCATE then mk_file [] 0 else mk_file buf 0.

Lemma cstr_prefix buf : cstr buf = take (length (cstr buf)) buf.
Proof. induction buf as [|c buf IH]; [done|]. cbn [cstr]. destruct (c =? 0); [done|]. cbn [length take]. by rewrite <-IH. Qed.
Lemma cstr_le buf : (length (cstr buf) <= length buf)%nat.
Proof. rewrite cstr_prefix, length_take. lia. Qed.

Lemma fmem_open_run buf_mem buf type s : let fl := type_to_flags type in
  fl <> 0 -> 0 < Z.of_nat (length buf) <= INT_MAX ->
  exists ms, fmemopen true buf_mem true (Some buf) (Z.of_nat (length buf)) type s = Ret true (set_ms (Some ms) s) /\
    ms_inv ms /\ ms_flags ms = fl /\ rsize ms = Z.of_nat (length buf) /\ ms_buf ms = buf /\ view ms = opened fl buf /\ curpos ms = (if has fl MS_APPEND then vsize ms else 0).
Proof.
  intros fl Hf Hl. unfold fmemopen. fold fl. destruct (Z.eqb_spec (Z.of_nat (length buf)) 0); [lia|]. cbn [negb].
  unfold put_ms. rewrite bind_modify. destruct (Z.eqb_spec fl 0); [done|].
  pose proof (cstr_le buf) as Hc. unfold opened. destruct (has fl MS_APPEND) eqn:Ha.
  - rewrite bind_assoc, (bind_run _ _ _ _ _ (find_end_run _ buf (Z.to_nat (Z.of_nat (length buf))) ltac:(lia))). rewrite Nat2Z.id, take_ge by lia.
    rewrite (bind_run (ret _) _ _ _ _ eq_refl). cbv iota beta. rewrite Ha. eexists. split; [by destruct s|]. split; [split; cbn; lia|].
    cbn. repeat split. unfold view. cbn. rewrite Nat2Z.id, <-cstr_prefix. done.
  - rewrite (bind_run (ret _) _ _ _ _ eq_refl). cbv iota beta. rewrite Ha. eexists. split; [by destruct s|].
    split; [split; cbn; try case_match; lia|]. cbn. repeat split. unfold view. cbn. case_match; [done|]. by rewrite Nat2Z.id, take_ge by lia.
Qed.
End stream.

(** C17: a stream [fmemopen] opens for reading and writing over a caller's
    buffer is a file of bounded size: it starts with the buffer, with
    nothing, or with the string in the buffer as the mode says, and any
    sequence of reads, writes and seeks returns what the file returns and
    leaves the file's contents and offset in the stream. *)
Theorem fmemopen_is_bounded_file buf_mem buf type os s :
  let fl := type_to_flags type in
  Z.land fl RDWR = RDWR -> 0 < Z.of_nat (length buf) <= INT_MAX -> Forall op_ok os ->
  let f := file_ops (length buf) (has fl MS_APPEND) os (opened fl buf) in
  exists s', (fmemopen true buf_mem true (Some buf) (Z.of_nat (length buf)) type;;; run_ops os) s = Ret f.1 s' /\
    stream_is s' (length buf) (has fl MS_APPEND) f.2.
Proof.
  intros fl Hf Hl Ho f. destruct (fmem_open_run buf_mem buf type s) as (ms & E & Hi & F & R & _ & V & _); [by intros H; fold fl in H; rewrite H in Hf|done|].
  destruct (ops_run (length buf) (has fl MS_APPEND) os Ho (set_ms (Some ms) s) (opened fl buf)) as (s' & E' & H').
  { exists ms. fold fl in F. rewrite F, R, Nat2Z.id. done. }
  exists s'. split; [|done]. rewrite (bind_run _ _ _ _ _ E). exact E'.
Qed.

Lemma fmemopen_is_bounded_file_witness :
  exists s', (fmemopen true None true (Some (replicate 6 7)) 6 (str "w+b");;;
     run_ops [OWrite (str "hello"); OSeek (-4) SEEK_CUR; OWrite (str "EL"); OSeek 0 SEEK_SET; ORead 9; OWrite (str "abc")])
     (mk_mproc None false 0) =
    Ret [(5, []); (1, []); (2, []); (0, []); (5, str "hELlo"); (1, [])] s' /\ stream_is s' 6 false (mk_file (str "hELloa") 6).
Proof.
  apply (fmemopen_is_bounded_file None (replicate 6 7) (str "w+b")
    [OWrite (str "hello"); OSeek (-4) SEEK_CUR; OWrite (str "EL"); OSeek 0 SEEK_SET; ORead 9; OWrite (str "abc")] (mk_mproc None false 0)).
  - reflexivity.
  - vm_compute. split; [reflexivity|discriminate].
  - repeat constructor; vm_compute; discriminate.
Defined.

(** * Streams open for writing only *)

(** Writes one after the other; the sum of what they report. *)
Fixpoint write_all (ds : list bytes) : M mproc Z :=
  match ds with
  | [] => ret 0
  | d :: ds => let* n := mstream_write d (Z.of_nat (length d)) in let* k := write_all ds in ret (n + k)
  end.

Section write_only.
Implicit Types (ms : memstream) (s : mproc) (t d : bytes).

Definition wronly (fl : Z) : Prop := has fl (Z.lor MS_APPEND MS_WRITE) = true /\ has fl MS_READ = false.

(** The text [t] has been written: it is in the buffer, less the byte a full
    buffer gives to the terminator. *)
Record wrote ms t : Prop := {
  wr_inv : ms_inv ms;
  wr_flags : wronly (ms_flags ms);
  wr_pos : curpos ms = Z.of_nat (length t);
  wr_vsz : vsize ms = Z.of_nat (length t);
  wr_text : take (Nat.min (length t) (Z.to_nat (rsize ms) - 1)) (ms_buf ms) = take (Z.to_nat (rsize ms) - 1) t }.

Lemma wronly_not_rdwr fl : wronly fl -> (Z.land fl RDWR =? RDWR) = false.
Proof. intros [_ H]. apply Z.eqb_neq. intros E. destruct (rdwr_flags fl E) as [E' _]. congruence. Qed.

(** The modes [type_to_flags] knows. *)
Definition mode_flags (fl : Z) : Prop := fl = 0 \/ fl = 1 \/ fl = 3 \/ fl = 10 \/ fl = 11 \/ fl = 4 \/ fl = 7.

Lemma type_flags type : mode_flags (type_to_flags type).
Proof.
  assert (mode_flags 0) as H0 by (by left).
  assert (forall cp fl, mode_flags fl -> mode_flags (type_loop fl cp)) as H; [|by apply H].
  induction cp as [|c cp IH]; intros fl Hf; [done|]. cbn [type_loop].
  assert (forall k, mode_flags k -> mode_flags (if negb (fl =? 0) then 0 else type_loop (Z.lor fl k) cp)) as K.
  { intros k Hk. destruct (Z.eqb_spec fl 0) as [->|]; [|done]. by apply IH. }
  assert (mode_flags (Z.lor fl RDWR) \/ fl = 0) as P.
  { destruct Hf as [->|[->|[->|[->|[->|[->| ->]]]]]]; [by right|left; vm_compute; tauto..]. }
  destruct (c =? 114); [apply K; vm_compute; tauto|]. destruct (c =? 119); [apply K; vm_compute; tauto|].
  destruct (c =? 97); [apply K; vm_compute; tauto|].
  destruct (c =? c_plus), (c =? 98), (Z.eqb_spec fl 0); try done; apply IH; tauto.
Qed.

Lemma wronly_modes type : wronly (type_to_flags type) -> type_to_flags type = 10 \/ type_to_flags type = 4.
Proof.
  intros [H1 H2]. destruct (type_flags type) as [E|[E|[E|[E|[E|[E|E]]]]]]; rewrite E in *; try discriminate; auto.
Qed.

(** One write: what it reports, the text after it, and the terminator. *)
Lemma wronly_write s ms t d : m_ms s = Some ms -> wrote ms t -> Z.of_nat (length d) <= INT_MAX ->
  exists ms', let t' := take (Z.to_nat (rsize ms)) (t ++ d) in
    mstream_write d (Z.of_nat (length d)) s = Ret (Z.of_nat (length t' - length t)) (set_ms (Some ms') s) /\
    wrote ms' t' /\ rsize ms' = rsize ms /\ ms_buf ms' !! Nat.min (length t') (Z.to_nat (rsize ms) - 1) = Some 0.
Proof.
  intros Es [Hi Hf Hp Hv Ht] Hd. destruct (wr_facts ms d Hi Hd) as (Ho & Hl & Hle & Lt & Lb). pose proof Hi as [L C P E].
  pose proof Hf as [Hf1 Hf2]. rewrite (write_prefix s ms d) by done. cbv zeta. rewrite (wronly_not_rdwr _ Hf), Hf2. cbn [andb negb].
  change (has (ms_flags ms) (Z.lor MS_WRITE MS_APPEND)) with (has (ms_flags ms) (Z.lor MS_APPEND MS_WRITE)). rewrite Hf1. cbn [andb].
  assert (wr_off ms = Z.of_nat (length t)) as Eo by (unfold wr_off; case_match; lia).
  set (cp := wr_off ms + wr_len ms d). set (R := Z.to_nat (rsize ms)) in *.
  assert (length (take R (t ++ d)) = Z.to_nat cp) as Lt' by (rewrite length_take, length_app; unfold cp, wr_len; lia).
  assert (take R (t ++ d) = t ++ take (Z.to_nat (wr_len ms d)) d) as Et.
  { rewrite take_app, take_ge by lia. f_equal. unfold wr_len. destruct (Z.min_spec (Z.of_nat (length d)) (rsize ms - wr_off ms)) as [[? ->]|[? ->]].
    - rewrite !take_ge by lia. done.
    - f_equal. lia. }
  set (m := Z.to_nat (Z.min cp (rsize ms - 1))).
  exists (mk_ms (<[m := 0]> (wr_buf ms d)) (rsize ms) cp cp (ms_flags ms)). rewrite !Lt'.
  replace (Z.to_nat cp `min` (R - 1))%nat with m by lia. split; [|split; [|split]].
  - rewrite (bind_run (if cp >? vsize ms then ret (wr_buf ms d, cp) else ret (wr_buf ms d, vsize ms)) _ s (wr_buf ms d, cp) s).
    2:{ rewrite Z.gtb_ltb. destruct (Z.ltb_spec (vsize ms) cp); [done|]. unfold ret. do 2 f_equal. lia. }
    cbn [fst snd]. rewrite (bind_run _ _ s (<[m := 0]> (wr_buf ms d)) s).
    2:{ destruct (Z.ltb_spec cp (rsize ms)); rewrite poke0_run by lia; unfold m; repeat f_equal; lia. }
    unfold put_ms. rewrite bind_modify. unfold ret. f_equal. unfold cp. lia.
  - split; cbn [ms_flags curpos vsize rsize ms_buf].
    + split; cbn; rewrite ?length_insert; lia.
    + done.
    + rewrite Lt'. lia.
    + rewrite Lt'. lia.
    + rewrite Lt'. fold R. replace (Z.to_nat cp `min` (R - 1))%nat with m by lia. rewrite take_insert_ge by lia. rewrite Et.
      unfold wr_buf, splice. rewrite Eo, Nat2Z.id. replace (length t - length (ms_buf ms))%nat with 0%nat by lia. cbn [replicate app].
      destruct (decide (length t <= R - 1)%nat) as [Hc|Hc].
      * rewrite Nat.min_l, (take_ge t) in Ht by lia. rewrite Ht, app_assoc, take_app_le by (rewrite length_app, Lt; lia).
        destruct (decide (m = R - 1)%nat) as [->|]; [done|]. rewrite (take_ge (t ++ _) m), (take_ge (t ++ _) (R - 1)); [done|rewrite length_app, Lt; lia..].
      * assert (wr_len ms d = 0) as -> by lia. assert (m = (R - 1)%nat) as -> by lia. change (take (Z.to_nat 0) d) with (@nil Z). cbn [app length]. rewrite app_nil_r.
        cbn [length]. rewrite Nat.add_0_r, take_drop. rewrite Nat.min_r in Ht by lia. done.
  - done.
  - cbn [ms_buf]. apply list_lookup_insert_eq. lia.
Qed.

Definition ended ms t : Prop := ms_buf ms !! Nat.min (length t) (Z.to_nat (rsize ms) - 1) = Some 0.

Lemma write_all_run (R : Z) ds : Forall (fun d => Z.of_nat (length d) <= INT_MAX) ds ->
  forall s ms t, m_ms s = Some ms -> wrote ms t -> rsize ms = R -> (ds = [] -> ended ms t) ->
  let t' := take (Z.to_nat R) (t ++ mjoin ds) in
  exists ms', write_all ds s = Ret (Z.of_nat (length t') - Z.of_nat (length t)) (set_ms (Some ms') s) /\
    wrote ms' t' /\ rsize ms' = R /\ ended ms' t'.
Proof.
  induction 1 as [|d ds Hd _ IH]; intros s ms t Es W <- He t'.
  - assert (t' = t) as ->.
    { unfold t'. simpl. rewrite app_nil_r, take_ge; [done|]. destruct W as [[? ? ? ?] _ ? ? _]. lia. }
    exists ms. rewrite Z.sub_diag. split; [destruct s; simpl in *; by subst|]. eauto.
  - destruct (wronly_write s ms t d Es W Hd) as (ms1 & E1 & W1 & R1 & H1).
    set (t1 := take (Z.to_nat (rsize ms)) (t ++ d)) in *. cbv zeta in *.
    assert (ended ms1 t1) as He1 by (unfold ended; by rewrite R1).
    destruct (IH (set_ms (Some ms1) s) ms1 t1 eq_refl W1 R1 (fun _ => He1)) as (ms' & E' & W' & R' & H'). cbv zeta in *.
    assert (take (Z.to_nat (rsize ms)) (t1 ++ mjoin ds) = t') as Et.
    { unfold t1, t'. simpl. rewrite (app_assoc t d). generalize (t ++ d) as u. intros u.
      destruct (Nat.le_ge_cases (length u) (Z.to_nat (rsize ms))); [by rewrite (take_ge u) by done|].
      rewrite !take_app_le by (rewrite ?length_take; lia). by rewrite take_take, Nat.min_id. }
    rewrite Et in *. exists ms'. split; [|done]. cbn [write_all]. rewrite (bind_run _ _ _ _ _ E1), (bind_run _ _ _ _ _ E').
    destruct W as [[? ? ? ?] _ ? ? _]. assert (length t <= length t1)%nat by (unfold t1; rewrite length_take, length_app; lia).
    unfold ret. f_equal. lia.
Qed.

Lemma ended_text ms t : wrote ms t -> ended ms t -> Forall (fun c => c <> 0) t ->
  cstr (ms_buf ms) = take (Z.to_nat (rsize ms) - 1) t.
Proof.
  intros [_ _ _ _ Ht] He Hn. unfold ended in He. rewrite <-(take_drop_middle _ _ _ He), cstr_app_nul; [done|]. rewrite Ht. by apply Forall_take.
Qed.
End write_only.

(** A stream open for writing only keeps its buffer a C string: after
    one or more writes of text the buffer holds what was there before and
    the text, cut to one byte less than its size.  The writes report the
    bytes up to the full size, so that the last byte of a write that fills
    the buffer is reported and then lost to the terminator. *)
Theorem write_only_text buf_mem buf type ds s :
  let fl := type_to_flags type in
  wronly fl -> 0 < Z.of_nat (length buf) <= INT_MAX -> ds <> [] ->
  Forall (fun d => Z.of_nat (length d) <= INT_MAX /\ Forall (fun c => c <> 0) d) ds ->
  let t := if has fl MS_APPEND then cstr buf else [] in
  exists ms, (fmemopen true buf_mem true (Some buf) (Z.of_nat (length buf)) type;;; write_all ds) s =
      Ret (Z.of_nat (Nat.min (length buf) (length (t ++ mjoin ds))) - Z.of_nat (length t)) (set_ms (Some ms) s) /\
    cstr (ms_buf ms) = take (length buf - 1) (t ++ mjoin ds).
Proof.
  intros fl Hf Hl Hne Hds t. destruct (fmem_open_run buf_mem buf type s) as (ms0 & E0 & Hi & F & R & B & V & P).
  { intros H. fold fl in H. rewrite H in Hf. destruct Hf. done. }
  { done. }
  fold fl in F, V, P. assert (fl = 10 \/ fl = 4) as Hm by (by apply wronly_modes). clearbody fl. assert (vsize ms0 = Z.of_nat (length t)) as Hv.
  { pose proof (view_size ms0 Hi) as S. rewrite V in S. destruct Hi as [? ? ? ?]. unfold opened, f_size, t in *.
    clear F V P. destruct Hm as [E|E]; subst fl.
    - change (has 10 MS_APPEND) with false in *. change (has 10 MS_TRUNCATE) with true in *. cbn in *. lia.
    - change (has 4 MS_APPEND) with true in *. cbn in *. lia. }
  assert (wrote ms0 t) as W.
  { pose proof Hi as [? ? ? ?]. split; try done; [by rewrite F|rewrite P; clear F V; unfold t; destruct Hm as [E|E]; subst fl; done|].
    rewrite R, B, Nat2Z.id. unfold t. destruct (has fl MS_APPEND); [|cbn [length]; by rewrite Nat.min_0_l, take_nil].
    rewrite Nat.min_comm, <-take_take, <-cstr_prefix. done. }
  destruct (write_all_run (rsize ms0) ds ltac:(eapply Forall_impl; [|exact Hds]; tauto) (set_ms (Some ms0) s) ms0 t eq_refl W eq_refl) as (ms & E & W' & R' & He);
    [done|]. cbv zeta in *. rewrite R, Nat2Z.id in *. exists ms. split.
  - rewrite (bind_run _ _ _ _ _ E0), E, length_take. done.
  - rewrite (ended_text _ _ W' He), R', Nat2Z.id, take_take, Nat.min_l; [done|lia|].
    apply Forall_take, Forall_app. split; [unfold t; case_match; [apply cstr_nonul|done]|].
    clear -Hds. induction Hds as [|d ds [_ Hd] _ IH]; [done|]. by apply Forall_app.
Qed.

Lemma write_only_text_witness :
  exists ms, (fmemopen true None true (Some [97; 0; 9; 9]) 4 (str "a");;; write_all [str "b"; str "cd"]) (mk_mproc None false 0) =
      Ret 3 (set_ms (Some ms) (mk_mproc None false 0)) /\ cstr (ms_buf ms) = str "abc".
Proof.
  apply (write_only_text None [97; 0; 9; 9] (str "a") [str "b"; str "cd"] (mk_mproc None false 0)).
  - split; reflexivity.
  - vm_compute. split; [reflexivity|discriminate].
  - discriminate.
  - repeat constructor; vm_compute; discriminate.
Defined.

(** * Memory *)

Section memory.
Definition clean (s : mproc) : Prop := m_ms s = None /\ m_mybuf s = false.

Lemma type_not_mybuf type : has (type_to_flags type) MS_MYBUF = false.
Proof. by destruct (type_flags type) as [E|[E|[E|[E|[E|[E|E]]]]]]; rewrite E. Qed.

Lemma has_mybuf fl : has (Z.lor fl MS_MYBUF) MS_MYBUF = true.
Proof.
  unfold has. apply negb_true_iff, Z.eqb_neq. intros E. pose proof (f_equal (fun x => Z.testbit x 4) E) as E'. cbv beta in E'.
  rewrite Z.land_spec, Z.lor_spec in E'. change (Z.testbit MS_MYBUF 4) with true in E'. by rewrite orb_true_r in E'.
Qed.

(** Giving back the stream, and its buffer when it was allocated here. *)
Lemma release_run {A} (a : A) s ms : m_ms s = Some ms -> m_mybuf s = has (ms_flags ms) MS_MYBUF ->
  exists s', ((if has (ms_flags ms) MS_MYBUF then free_buf else skip);;; free_ms;;; ret a) s = Ret a s' /\ clean s'.
Proof.
  destruct s as [m b e]. cbn. intros -> ->. destruct (has (ms_flags ms) MS_MYBUF) eqn:E.
  - unfold free_buf, free_ms, the_ms, bind. cbn. eexists. split; [done|]. by split.
  - eexists. split; [done|]. split; [done|]. done.
Qed.

(** The end of [fmemopen], and a close. *)
Lemma open_tail (fp_ok : bool) s ms : m_mybuf s = has (ms_flags ms) MS_MYBUF ->
  exists r s', (put_ms ms;;; if negb fp_ok then (if has (ms_flags ms) MS_MYBUF then free_buf else skip);;; free_ms;;; ret false else ret true) s = Ret r s' /\
    if r then exists s2, mstream_close s' = Ret 0 s2 /\ clean s2 else clean s'.
Proof.
  intros Hb. unfold put_ms. rewrite bind_modify. destruct fp_ok; cbn [negb].
  - exists true, (set_ms (Some ms) s). split; [done|]. unfold mstream_close, the_ms.
    rewrite (bind_run _ _ _ ms (set_ms (Some ms) s)) by done. by apply release_run.
  - destruct (release_run false (set_ms (Some ms) s) ms eq_refl Hb) as (s' & E & C). by exists false, s'.
Qed.
End memory.

(** [fmemopen] and [mstream_close] neither leak nor free twice: whatever
    fails, a call that gives no stream leaves no block behind, and a stream
    that was opened and is closed leaves none either. *)
Theorem fmemopen_no_leak ms_mem buf_mem fp_ok buf size type s :
  clean s -> 0 <= size -> (forall b, buf = Some b -> size <= Z.of_nat (length b)) ->
  exists r s', fmemopen ms_mem buf_mem fp_ok buf size type s = Ret r s' /\
    if r then exists s2, mstream_close s' = Ret 0 s2 /\ clean s2 else clean s'.
Proof.
  intros [Cm Cb] Hs Hb. unfold fmemopen. set (fl := type_to_flags type). pose proof (type_not_mybuf type) as Hn. fold fl in Hn.
  destruct (size =? 0); [by eexists false, _|]. destruct ms_mem; cbn [negb]; [|by eexists false, _].
  unfold put_ms at 1. rewrite bind_modify. destruct (fl =? 0); [by eexists false, _|].
  destruct buf as [b|].
  - specialize (Hb b eq_refl). destruct (has fl MS_APPEND) eqn:Ha.
    + rewrite bind_assoc, (bind_run _ _ _ _ _ (find_end_run _ b (Z.to_nat size) ltac:(lia))), (bind_run (ret _) _ _ _ _ eq_refl). cbv iota beta.
      match goal with |- context [put_ms ?m] => apply (open_tail fp_ok _ m) end. cbn. by rewrite Hn.
    + rewrite (bind_run (ret _) _ _ _ _ eq_refl). cbv iota beta.
      match goal with |- context [put_ms ?m] => apply (open_tail fp_ok _ m) end. cbn. by rewrite Hn.
  - destruct (negb (Z.land fl RDWR =? RDWR)); [by eexists false, _|]. destruct buf_mem as [b|]; [|by eexists false, _].
    rewrite bind_assoc, bind_modify, (bind_run (ret _) _ _ _ _ eq_refl). cbv iota beta.
    match goal with |- context [put_ms ?m] => apply (open_tail fp_ok _ m) end. cbn. by rewrite has_mybuf.
Qed.

Lemma fmemopen_no_leak_witness :
  exists r s', fmemopen true (Some [1; 2; 3]) true None 3 (str "r+") (mk_mproc None false 0) = Ret r s' /\
    if r then exists s2, mstream_close s' = Ret 0 s2 /\ clean s2 else clean s'.
Proof.
  apply (fmemopen_no_leak true (Some [1; 2; 3]) true None 3 (str "r+") (mk_mproc None false 0)).
  - split; reflexivity.
  - lia.
  - discriminate.
Defined.
