(* ===== verification/Readline.v ===== *)
(** Reading a line from a descriptor, [unpv13e]: the byte-at-a-time versions
    ([test/readline1.c], [server/readline.c]), the version with a static
    buffer ([test/readline2.c]), the re-entrant versions
    ([test/readline3.c], [server/readline_r.c]) and the version with
    thread-specific data ([threads/readline.c]).  The loop they share is
    verified against an interface to the function that gives the next byte,
    which each version's [my_read] then implements. *)
From Stdlib Require Import ZArith Lia.
From stdpp Require Import base list strings gmap numbers.
From S2P Require Import Prelude CString CFile.
Local Open Scope c_scope.

Definition MAXLINE : nat := Z.to_nat 4096.
Definition EINTR : Z := 4.

(** * The descriptor *)

(** What the coming [read]s find: bytes, an error (a signal is [EINTR]), or
    nothing more, which is end of file. *)
Inductive ev := Data (bs : bytes) | Err (e : Z).
Record fdesc := mk_fd { f_evs : list ev; f_errno : Z }.

(** [read(fd, buf, n)]: the value and the bytes. *)
Definition sys_read (n : nat) : M fdesc (Z * bytes) := fun s =>
  match f_evs s with
  | [] => Ret (0, []) s
  | Err e :: r => Ret (-1, []) (mk_fd r e)
  | Data bs :: r =>
      Ret (Z.of_nat (length (take n bs)), take n bs)
          (mk_fd (match drop n bs with [] => r | more => Data more :: r end) (f_errno s))
  end.

(** * Buffered bytes *)

(** The variables [rl_cnt], [rl_bufptr] (an index into the buffer) and
    [rl_buf]. *)
Record Rline := mk_rline { rl_cnt : Z; rl_bufptr : nat; rl_buf : bytes }.
Record rstate := mk_rst { r_line : Rline; r_fd : fdesc }.
Definition set_rline (v : Rline) (s : rstate) : rstate := mk_rst v (r_fd s).
Definition set_rfd (v : fdesc) (s : rstate) : rstate := mk_rst (r_line s) v.
Definition on_fd {A} : M fdesc A -> M rstate A := zoom r_fd set_rfd.

(** [readline_rinit]: the buffer keeps what memory holds. *)
Definition readline_rinit : M rstate unit := modify (fun s => set_rline (mk_rline 0 0 (rl_buf (r_line s))) s).

(** The label [again] of [my_read] with the [read] after it; [None] when the
    function goes on, the value it returns otherwise. *)
Fixpoint refill (fuel : nat) : M rstate (option Z) :=
  match fuel with
  | O => nofuel
  | S fuel =>
      let* r := on_fd (sys_read MAXLINE) in
      let* l := gets r_line in
      modify (set_rline (mk_rline r.1 (rl_bufptr l) (splice 0 r.2 (rl_buf l))));;;
      if r.1 <? 0 then
        let* e := gets (fun s => f_errno (r_fd s)) in
        if e =? EINTR then refill fuel else ret (Some (-1))
      else if r.1 =? 0 then ret (Some 0)
      else modify (set_rline (mk_rline r.1 0 (splice 0 r.2 (rl_buf l))));;; ret None
  end.

(** [rl_cnt--; *ptr = *rl_bufptr++ & 255; return(1);] *)
Definition take_byte : M rstate (Z * Z) :=
  let* l := gets r_line in
  match rl_buf l !! rl_bufptr l with
  | None => undef "read past rl_buf"
  | Some c => modify (set_rline (mk_rline (rl_cnt l - 1) (S (rl_bufptr l)) (rl_buf l)));;; ret (1, Z.land c 255)
  end.

(** [my_read]: the value, and the byte stored when it is 1. *)
Definition my_read : M rstate (Z * Z) :=
  let* l := gets r_line in
  let* r := (if rl_cnt l <=? 0 then let* n := gets (fun s => length (f_evs (r_fd s))) in refill (S n) else ret None) in
  match r with
  | Some rc => ret (rc, 0)
  | None => take_byte
  end.

(** [my_read] of [readline2.c]: an error ends the process, [EINTR] too. *)
Definition my_read_static : M rstate (Z * Z) :=
  let* l := gets r_line in
  let* eof := (if rl_cnt l <=? 0 then
                 let* r := on_fd (sys_read MAXLINE) in
                 modify (set_rline (mk_rline r.1 (rl_bufptr l) (splice 0 r.2 (rl_buf l))));;;
                 if r.1 <? 0 then die "read error"
                 else if r.1 =? 0 then ret true
                 else modify (set_rline (mk_rline r.1 0 (splice 0 r.2 (rl_buf l))));;; ret false
               else ret false) in
  if eof : bool then ret (0, 0) else take_byte.

(** [read(fd, &c, 1)], and the same with the label [again] of
    [readline1.c]. *)
Definition read1 : M fdesc (Z * Z) := let* r := sys_read 1 in ret (r.1, default 0 (head r.2)).
Fixpoint read1_again (fuel : nat) : M fdesc (Z * Z) :=
  match fuel with
  | O => nofuel
  | S fuel =>
      let* r := read1 in
      if (r.1 =? 1) || (r.1 =? 0) then ret r
      else let* e := gets f_errno in if e =? EINTR then read1_again fuel else ret (-1, 0)
  end.

(** * The loop *)

(** [*ptr = c] into the caller's array. *)
Definition put {S} (i : nat) (c : Z) (arr : bytes) : M S bytes :=
  if (i <? length arr)%nat then ret (<[i := c]> arr) else undef "write past the line".

Section loop.
Context {St : Type} (next : M St (Z * Z)).

(** [for (n = 1; n < maxlen; n++)], with [k] the rounds left, [n] the
    counter and [ptr = n - 1].  [late] is the server's treatment of end of
    file: 0 when nothing was read, else out of the loop. *)
Fixpoint line_loop (late : bool) (k n : nat) (arr : bytes) : M St (Z * bytes) :=
  match k with
  | O => let* arr := put (n - 1) 0 arr in ret (Z.of_nat n, arr)
  | S k =>
      let* r := next in
      if r.1 =? 1 then
        let* arr := put (n - 1) r.2 arr in
        if r.2 =? c_nl then let* arr := put n 0 arr in ret (Z.of_nat n, arr)
        else line_loop late k (S n) arr
      else if r.1 =? 0 then
        if late then
          if (n =? 1)%nat then ret (0, arr)
          else let* arr := put (n - 1) 0 arr in ret (Z.of_nat n, arr)
        else let* arr := put (n - 1) 0 arr in ret (Z.of_nat n - 1, arr)
      else ret (-1, arr)
  end.
Definition readline_with (late : bool) (maxlen : nat) (arr : bytes) : M St (Z * bytes) := line_loop late (maxlen - 1) 1 arr.
(** The wrappers [Readline]: [-1] ends the process. *)
Definition Readline_with (late : bool) (maxlen : nat) (arr : bytes) : M St (Z * bytes) :=
  let* r := readline_with late maxlen arr in
  if r.1 =? -1 then die "readline error" else ret r.
End loop.

(** [my_read_r] of [server/readline_r.c] and [my_read] of
    [threads/readline.c] are the text of [my_read] again. *)
Definition my_read_r : M rstate (Z * Z) := my_read.
Definition my_read_tsd : M rstate (Z * Z) := my_read.

(** The six functions. *)
Definition readline1 (maxlen : nat) (arr : bytes) : M fdesc (Z * bytes) :=
  readline_with (let* n := gets (fun s => length (f_evs s)) in read1_again (S n)) false maxlen arr.
Definition readline2 : nat -> bytes -> M rstate (Z * bytes) := readline_with my_read_static false.
Definition readline_r : nat -> bytes -> M rstate (Z * bytes) := readline_with my_read false.
Definition server_readline : nat -> bytes -> M fdesc (Z * bytes) := readline_with read1 true.
Definition server_readline_r : nat -> bytes -> M rstate (Z * bytes) := readline_with my_read_r true.

(** The threads' version: each thread's [Rline], allocated and cleared at
    its first call, and the descriptor they share. *)
Record tstate := mk_tst { t_tsd : gmap Z Rline; t_fd : fdesc }.
Definition readline_t (tid : Z) (maxlen : nat) (arr : bytes) : M tstate (Z * bytes) :=
  (fun s => match t_tsd s !! tid with
            | Some _ => Ret tt s
            | None => Ret tt (mk_tst (<[tid := mk_rline 0 0 (replicate MAXLINE 0)]> (t_tsd s)) (t_fd s))
            end);;;
  zoom (fun s => mk_rst (default (mk_rline 0 0 []) (t_tsd s !! tid)) (t_fd s))
       (fun r s => mk_tst (<[tid := r_line r]> (t_tsd s)) (r_fd r))
       (readline_with my_read_tsd false maxlen arr).

(** The wrappers. *)
Definition Readline1 (maxlen : nat) (arr : bytes) : M fdesc (Z * bytes) :=
  Readline_with (let* n := gets (fun s => length (f_evs s)) in read1_again (S n)) false maxlen arr.
Definition Readline2 : nat -> bytes -> M rstate (Z * bytes) := Readline_with my_read_static false.
Definition server_Readline : nat -> bytes -> M fdesc (Z * bytes) := Readline_with read1 true.
Definition server_Readline_r : nat -> bytes -> M rstate (Z * bytes) := Readline_with my_read_r true.
Definition Readline_t (tid : Z) (maxlen : nat) (arr : bytes) : M tstate (Z * bytes) :=
  let* r := readline_t tid maxlen arr in
  if r.1 =? -1 then die "readline error" else ret r.

(** * What the functions read *)

(** The descriptor as a sequence of bytes, errors and ends of file; [retry]
    drops the interruptions. *)
Inductive item := IByte (c : Z) | IErr | IEof.
Fixpoint items (retry : bool) (evs : list ev) : list item :=
  match evs with
  | [] => []
  | Data [] :: r => IEof :: items retry r
  | Data bs :: r => (IByte <$> bs) ++ items retry r
  | Err e :: r => if retry && (e =? EINTR) then items retry r else IErr :: items retry r
  end.
Definition next_item (its : list item) : (Z * Z) * list item :=
  match its with
  | [] => ((0, 0), [])
  | IEof :: r => ((0, 0), r)
  | IErr :: r => ((-1, 0), r)
  | IByte c :: r => ((1, c), r)
  end.

(** The interface between the loop and the function that gives it bytes:
    from a state that satisfies [src_ok] the call gives the next item. *)
Class ByteSource {St} (next : M St (Z * Z)) (src_ok : St -> Prop) (src_items : St -> list item) := {
  next_spec : forall s, src_ok s ->
    exists s', next s = Ret (next_item (src_items s)).1 s' /\ src_ok s' /\ src_items s' = (next_item (src_items s)).2 }.

(** ** The loop against the interface *)

Inductive ending := Newline | Full | AtEof | Failed.
(** A line of at most [k] bytes: how it ended, its bytes, what is left. *)
Fixpoint spec_line (k : nat) (its : list item) : ending * bytes * list item :=
  match k with
  | O => (Full, [], its)
  | S k =>
      match its with
      | [] => (AtEof, [], [])
      | IEof :: r => (AtEof, [], r)
      | IErr :: r => (Failed, [], r)
      | IByte c :: r =>
          if c =? c_nl then (Newline, [c], r)
          else let '(e, l, r') := spec_line k r in (e, c :: l, r')
      end
  end.
(** The value returned for a line. *)
Definition line_value (late : bool) (e : ending) (l : bytes) : Z :=
  match e with
  | Newline => Z.of_nat (length l)
  | Full => Z.of_nat (length l) + 1
  | AtEof => if late && negb (bool_decide (l = [])) then Z.of_nat (length l) + 1 else Z.of_nat (length l)
  | Failed => -1
  end.
(** The caller's array after it. *)
Definition line_array (late : bool) (e : ending) (l arr : bytes) : bytes :=
  match e with
  | Failed => splice 0 l arr
  | AtEof => if late && bool_decide (l = []) then arr else splice 0 (l ++ [0]) arr
  | _ => splice 0 (l ++ [0]) arr
  end.

Section loop_spec.
Context {St : Type} (next : M St (Z * Z)) (src_ok : St -> Prop) (src_items : St -> list item)
  `{!ByteSource next src_ok src_items}.
Implicit Types (s : St) (arr l acc : bytes).

Lemma splice_start l arr : splice 0 l arr = l ++ drop (length l) arr.
Proof. done. Qed.

Lemma put_next acc c arr s : (length acc < length arr)%nat ->
  put (length acc) c (splice 0 acc arr) s = Ret (splice 0 (acc ++ [c]) arr) s.
Proof.
  intros H. unfold put. rewrite splice_length by lia. destruct (Nat.ltb_spec (length acc) (length arr)); [|lia].
  rewrite !splice_start. destruct (drop (length acc) arr) as [|x r] eqn:E.
  { apply (f_equal length) in E. rewrite length_drop in E. simpl in E. lia. }
  rewrite insert_app_r_alt, Nat.sub_diag by lia. cbn [list_insert insert].
  rewrite length_app, <-drop_drop, E, <-app_assoc. done.
Qed.

Lemma line_loop_run late k : forall acc arr s, src_ok s -> (length acc + k < length arr)%nat ->
  let '(e, l, r) := spec_line k (src_items s) in
  exists s', line_loop next late k (S (length acc)) (splice 0 acc arr) s =
      Ret (line_value late e (acc ++ l), line_array late e (acc ++ l) arr) s' /\ src_ok s' /\ src_items s' = r.
Proof.
  induction k as [|k IH]; intros acc arr s Hs HL; cbn [spec_line line_loop].
  { replace (S (length acc) - 1)%nat with (length acc) by lia. exists s.
    rewrite (bind_run _ _ _ _ _ (put_next acc 0 arr s ltac:(lia))), app_nil_r. unfold ret. split; [|done]. do 2 f_equal. cbn. lia. }
  destruct (next_spec s Hs) as (s1 & E1 & Hs1 & I1). replace (S (length acc) - 1)%nat with (length acc) by lia.
  assert (forall e : Z, e = -1 -> exists s', (ret (e, splice 0 acc arr) : M St _) s1 =
    Ret (line_value late Failed (acc ++ []), line_array late Failed (acc ++ []) arr) s' /\ src_ok s' /\ src_items s' = src_items s1) as HF.
  { intros e ->. exists s1. by rewrite app_nil_r. }
  assert (exists s', (if late then if (S (length acc) =? 1)%nat then ret (0, splice 0 acc arr)
         else let* arr := put (length acc) 0 (splice 0 acc arr) in ret (Z.of_nat (S (length acc)), arr)
       else let* arr := put (length acc) 0 (splice 0 acc arr) in ret (Z.of_nat (S (length acc)) - 1, arr)) s1 =
    Ret (line_value late AtEof (acc ++ []), line_array late AtEof (acc ++ []) arr) s' /\ src_ok s' /\ src_items s' = src_items s1) as HE.
  { exists s1. split; [|done]. rewrite app_nil_r. unfold line_value, line_array.
    destruct late; cbn [andb].
    - destruct acc as [|a acc]; [done|]. rewrite bool_decide_eq_false_2 by done. cbn [negb].
      change (S (length (a :: acc)) =? 1)%nat with false. cbv iota.
      rewrite (bind_run _ _ _ _ _ (put_next (a :: acc) 0 arr s1 ltac:(lia))). unfold ret. do 2 f_equal. cbn [length]. lia.
    - rewrite (bind_run _ _ _ _ _ (put_next acc 0 arr s1 ltac:(lia))). unfold ret. do 2 f_equal. lia. }
  rewrite (bind_run _ _ _ _ _ E1). destruct (src_items s) as [|[c| |] its]; cbn [next_item fst snd] in *.
  - rewrite I1 in HE. exact HE.
  - change (1 =? 1) with true. cbv iota. rewrite (bind_run _ _ _ _ _ (put_next acc c arr s1 ltac:(lia))).
    destruct (c =? c_nl).
    + exists s1. replace (S (length acc)) with (length (acc ++ [c])) by (rewrite length_app; simpl; lia).
      rewrite (bind_run _ _ _ _ _ (put_next (acc ++ [c]) 0 arr s1 ltac:(rewrite length_app; simpl; lia))). done.
    + specialize (IH (acc ++ [c]) arr s1 Hs1 ltac:(rewrite length_app; simpl; lia)). rewrite I1 in IH.
      replace (S (length (acc ++ [c]))) with (S (S (length acc))) in IH by (rewrite length_app; simpl; lia).
      destruct (spec_line k its) as [[e l] r]. rewrite <-app_assoc in IH. exact IH.
  - rewrite I1 in HF. apply HF. done.
  - rewrite I1 in HE. exact HE.
Qed.

Lemma readline_run late maxlen arr s : src_ok s -> (1 <= maxlen <= length arr)%nat ->
  let '(e, l, r) := spec_line (maxlen - 1) (src_items s) in
  exists s', readline_with next late maxlen arr s = Ret (line_value late e l, line_array late e l arr) s' /\
    src_ok s' /\ src_items s' = r.
Proof. intros Hs HL. apply (line_loop_run late (maxlen - 1) [] arr s Hs). simpl. lia. Qed.
End loop_spec.

(** ** The implementations of the interface *)
Section sources.
Implicit Types (evs : list ev) (bs : bytes) (f : fdesc) (s : rstate).

Definition ev_ok (x : ev) : Prop := match x with Data bs => Forall is_byte bs | Err _ => True end.
Definition fd_ok f : Prop := Forall ev_ok (f_evs f).
Definition fd_items (retry : bool) f : list item := items retry (f_evs f).

Lemma items_data retry bs evs : bs <> [] -> items retry (Data bs :: evs) = (IByte <$> bs) ++ items retry evs.
Proof. by destruct bs. Qed.

Lemma items_more retry bs evs : items retry (match bs with [] => evs | z :: l => Data (z :: l) :: evs end) = (IByte <$> bs) ++ items retry evs.
Proof. by destruct bs. Qed.

Lemma more_ok bs evs : Forall is_byte bs -> Forall ev_ok evs -> Forall ev_ok (match bs with [] => evs | z :: l => Data (z :: l) :: evs end).
Proof. intros. destruct bs; [done|]. by constructor. Qed.

#[export] Instance read1_source : ByteSource read1 fd_ok (fd_items false).
Proof.
  split. intros [evs e] Hs. unfold fd_ok, fd_items in *. cbn [f_evs] in *.
  destruct evs as [|[[|b bs]|x] evs]; try (apply list.Forall_cons in Hs as [Hb Hs]).
  - by exists (mk_fd [] e).
  - by exists (mk_fd evs e).
  - cbn [ev_ok] in Hb. apply list.Forall_cons in Hb as [? Hb].
    exists (mk_fd (match bs with [] => evs | z :: l => Data (z :: l) :: evs end) e). cbn [f_evs]. split; [by destruct bs|]. split; [by apply more_ok|].
    by rewrite items_more.
  - by exists (mk_fd evs x).
Qed.

Lemma read1_again_run e n : forall evs, Forall ev_ok evs -> (length evs < n)%nat ->
  exists f', read1_again n (mk_fd evs e) = Ret (next_item (items true evs)).1 f' /\ fd_ok f' /\ items true (f_evs f') = (next_item (items true evs)).2.
Proof.
  revert e. induction n as [|n IH]; intros e evs Hs Hn; [lia|]. cbn [read1_again].
  destruct (next_spec (mk_fd evs e) Hs) as (f1 & E1 & H1 & I1).
  destruct evs as [|[[|b bs]|x] evs]; cbn [fd_items f_evs items next_item fst snd] in *.
  - rewrite (bind_run _ _ _ _ _ E1). exists f1. split; [done|]. split; [done|]. injection E1 as <-. done.
  - rewrite (bind_run _ _ _ _ _ E1). exists f1. injection E1 as <-. done.
  - rewrite (bind_run _ _ _ _ _ E1). exists f1. split; [done|]. split; [done|]. injection E1 as <-. by destruct bs.
  - rewrite (bind_run _ _ _ _ _ E1). injection E1 as <-. cbn [andb next_item fst].
    change ((-1 =? 1) || (-1 =? 0)) with false. cbv iota. rewrite bind_gets. cbn [f_errno]. destruct (x =? EINTR); [|by exists (mk_fd evs x)].
    apply IH; [by inversion Hs|simpl in Hn; lia].
Qed.

#[export] Instance read1_again_source : ByteSource (let* n := gets (fun f => length (f_evs f)) in read1_again (S n)) fd_ok (fd_items true).
Proof. split. intros [evs e] Hs. rewrite bind_gets. apply read1_again_run; [done|cbn; lia]. Qed.

(** The bytes in the buffer, then the descriptor's. *)
Definition pending (l : Rline) : bytes := slice (rl_bufptr l) (Z.to_nat (rl_cnt l)) (rl_buf l).
Record line_ok (l : Rline) : Prop := {
  lo_len : length (rl_buf l) = MAXLINE;
  lo_cnt : 0 < rl_cnt l -> (rl_bufptr l + Z.to_nat (rl_cnt l) <= MAXLINE)%nat;
  lo_bytes : Forall is_byte (pending l) }.
Definition rl_ok s : Prop := line_ok (r_line s) /\ fd_ok (r_fd s).
Definition rl_items s : list item := (IByte <$> pending (r_line s)) ++ fd_items true (r_fd s).

Lemma byte_land c : is_byte c -> Z.land c 255 = c.
Proof. intros [? ?]. change 255 with (Z.ones 8). rewrite Z.land_ones by lia. by apply Z.mod_small. Qed.

Lemma pending_cons l : line_ok l -> 0 < rl_cnt l -> exists c,
  rl_buf l !! rl_bufptr l = Some c /\ is_byte c /\
  pending l = c :: pending (mk_rline (rl_cnt l - 1) (S (rl_bufptr l)) (rl_buf l)) /\
  line_ok (mk_rline (rl_cnt l - 1) (S (rl_bufptr l)) (rl_buf l)).
Proof.
  intros [L C B] Hc. specialize (C Hc). destruct (lookup_lt_is_Some_2 (rl_buf l) (rl_bufptr l)) as [c E]; [lia|].
  assert (pending l = c :: pending (mk_rline (rl_cnt l - 1) (S (rl_bufptr l)) (rl_buf l))) as P.
  { unfold pending, slice. cbn [rl_cnt rl_bufptr rl_buf]. rewrite (drop_S _ _ _ E).
    replace (Z.to_nat (rl_cnt l)) with (S (Z.to_nat (rl_cnt l - 1))) by lia. done. }
  exists c. rewrite P in B. apply list.Forall_cons in B as [Hb B]. split; [done|]. split; [done|]. split; [done|]. split; cbn; [done|lia|done].
Qed.

(** Taking the next byte of a buffer that has one. *)
Lemma take_run s : rl_ok s -> 0 < rl_cnt (r_line s) -> exists s',
  take_byte s = Ret (next_item (rl_items s)).1 s' /\ rl_ok s' /\ rl_items s' = (next_item (rl_items s)).2 /\ r_fd s' = r_fd s.
Proof.
  intros [Hl Hf] Hc. unfold take_byte. rewrite bind_gets. destruct (pending_cons _ Hl Hc) as (c & E & Hb & P & Hl'). rewrite E, bind_modify.
  exists (set_rline (mk_rline (rl_cnt (r_line s) - 1) (S (rl_bufptr (r_line s))) (rl_buf (r_line s))) s).
  split; [unfold rl_items; rewrite P, byte_land by done; done|]. split; [done|]. split; [|done]. unfold rl_items. by rewrite P.
Qed.

(** A buffer just filled. *)
Lemma filled_ok l bs : line_ok l -> Forall is_byte bs -> (length bs <= MAXLINE)%nat ->
  line_ok (mk_rline (Z.of_nat (length bs)) 0 (splice 0 bs (rl_buf l))) /\
  pending (mk_rline (Z.of_nat (length bs)) 0 (splice 0 bs (rl_buf l))) = bs.
Proof.
  intros [L C B] Hb HL.
  assert (pending (mk_rline (Z.of_nat (length bs)) 0 (splice 0 bs (rl_buf l))) = bs) as P.
  { unfold pending, slice. cbn [rl_cnt rl_bufptr rl_buf]. rewrite Nat2Z.id, drop_0, splice_start. apply take_app_length. }
  split; [|done]. split; cbn [rl_cnt rl_bufptr rl_buf]; [rewrite splice_length; lia|lia|by rewrite P].
Qed.

Lemma empty_ok l (n : Z) (k : nat) : n <= 0 -> line_ok l -> line_ok (mk_rline n k (rl_buf l)) /\ pending (mk_rline n k (rl_buf l)) = [].
Proof.
  intros Hn [L _ _]. assert (pending (mk_rline n k (rl_buf l)) = []) as P.
  { unfold pending, slice. cbn [rl_cnt rl_bufptr rl_buf]. replace (Z.to_nat n) with 0%nat by lia. done. }
  split; [|done]. split; cbn; [done|lia|by rewrite P].
Qed.

Lemma pending_empty l : rl_cnt l <= 0 -> pending l = [].
Proof. intros H. unfold pending, slice. replace (Z.to_nat (rl_cnt l)) with 0%nat by lia. done. Qed.

Definition no_err (x : ev) : Prop := match x with Data _ => True | Err _ => False end.

(** One [read] into the buffer, by what the descriptor finds. *)
Lemma fill_run s : rl_ok s -> rl_cnt (r_line s) <= 0 ->
  let l := r_line s in
  let step (v : Z * bytes) (g : fdesc) := on_fd (sys_read MAXLINE) s = Ret v (set_rfd g s) /\ fd_ok g /\
    (Forall no_err (f_evs (r_fd s)) -> Forall no_err (f_evs g)) in
  match f_evs (r_fd s) with
  | [] => step (0, []) (r_fd s)
  | Data [] :: r => step (0, []) (mk_fd r (f_errno (r_fd s)))
  | Err e :: r => step (-1, []) (mk_fd r e)
  | Data bs :: r => exists bs' g, step (Z.of_nat (length bs'), bs') g /\ bs' <> [] /\ Forall is_byte bs' /\ (length bs' <= MAXLINE)%nat /\
      items true (Data bs :: r) = (IByte <$> bs') ++ items true (f_evs g)
  end.
Proof.
  intros [_ Hf] Hc. cbv zeta. destruct s as [l [evs e]]. unfold fd_ok in *. cbn [r_fd f_evs f_errno] in *.
  destruct evs as [|[[|b bs]|x] evs]; try (apply list.Forall_cons in Hf as [Hb Hf]); try done;
    [split; [done|]; split; [done|]; by intros [_ H]%list.Forall_cons| |split; [done|]; split; [done|]; by intros [_ H]%list.Forall_cons].
  exists (take MAXLINE (b :: bs)), (mk_fd (match drop MAXLINE (b :: bs) with [] => evs | z :: r => Data (z :: r) :: evs end) e).
  cbn [ev_ok f_evs] in *. split; [split; [done|split; [by apply more_ok; [apply Forall_drop|]|]]|].
  { intros [_ H]%list.Forall_cons. case_match; [done|by constructor]. }
  split; [done|]. split; [by apply Forall_take|]. split; [rewrite length_take; lia|].
  rewrite items_more, items_data by done. by rewrite app_assoc, <-fmap_app, take_drop.
Qed.

(** The outcome of filling the buffer: bytes in it, or the value that
    [my_read] returns. *)
Definition fill_post s (r : option Z) s' : Prop :=
  rl_ok s' /\
  match r with
  | None => 0 < rl_cnt (r_line s') /\ rl_items s' = rl_items s
  | Some rc => (rc, 0) = (next_item (rl_items s)).1 /\ rl_items s' = (next_item (rl_items s)).2
  end.

Lemma splice_nil b : splice 0 [] b = b.
Proof. done. Qed.

Lemma refill_run n : forall s, rl_ok s -> rl_cnt (r_line s) <= 0 -> (length (f_evs (r_fd s)) < n)%nat ->
  exists r s', refill n s = Ret r s' /\ fill_post s r s'.
Proof.
  induction n as [|n IH]; intros s Hs Hc Hn; [lia|]. pose proof (fill_run s Hs Hc) as F. pose proof (pending_empty _ Hc) as P.
  destruct Hs as [Hl Hf]. cbn [refill].
  assert (forall (g : fdesc) k, fd_ok g -> k <= 0 -> rl_ok (set_rline (mk_rline k (rl_bufptr (r_line s)) (splice 0 [] (rl_buf (r_line s)))) (set_rfd g s)) /\
    rl_items (set_rline (mk_rline k (rl_bufptr (r_line s)) (splice 0 [] (rl_buf (r_line s)))) (set_rfd g s)) = fd_items true g) as Z.
  { intros g k Hg Hk. destruct (empty_ok _ k (rl_bufptr (r_line s)) Hk Hl) as [O P']. split; [done|]. unfold rl_items. cbn [r_line r_fd set_rline set_rfd]. rewrite splice_nil. by rewrite P'. }
  assert (rl_items s = items true (f_evs (r_fd s))) as I by (unfold rl_items; by rewrite P).
  destruct (f_evs (r_fd s)) as [|[[|b bs]|e] evs] eqn:Ev.
  - destruct F as (E & Hg & _). rewrite (bind_run _ _ _ _ _ E), bind_gets, bind_modify. eexists (Some 0), _. split; [done|].
    unfold fill_post. rewrite I. destruct (Z (r_fd s) 0 Hg) as [O Q]; [lia|]. split; [exact O|]. split; [done|].
    etransitivity; [exact Q|]. unfold fd_items. by rewrite Ev.
  - destruct F as (E & Hg & _). rewrite (bind_run _ _ _ _ _ E), bind_gets, bind_modify. eexists (Some 0), _. split; [done|].
    unfold fill_post. rewrite I. destruct (Z _ 0 Hg) as [O Q]; [lia|]. split; [exact O|]. split; [done|exact Q].
  - destruct F as (bs' & g & (E & Hg & _) & Hne & Hb & HL & It). rewrite (bind_run _ _ _ _ _ E), bind_gets, bind_modify. cbn [fst snd].
    assert (0 < length bs')%nat by (destruct bs'; [done|simpl; lia]).
    destruct (Z.ltb_spec (Z.of_nat (length bs')) 0), (Z.eqb_spec (Z.of_nat (length bs')) 0); try lia. rewrite bind_modify.
    destruct (filled_ok _ bs' Hl Hb HL) as [O P']. eexists None, _. split; [done|]. unfold fill_post, rl_items. cbn [r_line r_fd set_rline set_rfd].
    split; [done|]. cbn [rl_cnt]. split; [lia|]. rewrite P'. rewrite P. cbn [fmap list_fmap app]. unfold fd_items. rewrite Ev, It. done.
  - destruct F as (E & Hg & _). rewrite (bind_run _ _ _ _ _ E), bind_gets, bind_modify. cbn [fst snd]. change (-1 <? 0) with true. cbv iota.
    rewrite bind_gets. cbn [r_fd set_rline set_rfd f_errno]. destruct (Z _ (-1) Hg) as [O Q]; [lia|].
    destruct (e =? EINTR) eqn:Ee.
    + match goal with |- exists r s', refill n ?s1 = _ /\ _ => destruct (IH s1) as (r & s' & E' & O' & R') end; [exact O|cbn; lia|cbn in *; lia|].
      exists r, s'. split; [exact E'|]. split; [done|].
      match type of R' with context [rl_items (set_rline ?x ?y)] => replace (rl_items (set_rline x y)) with (rl_items s) in R' end; [done|].
      etransitivity; [|symmetry; exact Q]. rewrite I. cbn [items]. by rewrite Ee.
    + eexists (Some (-1)), _. split; [done|]. split; [exact O|]. rewrite I. cbn [items andb]. rewrite Ee. split; [done|exact Q].
Qed.

#[export] Instance my_read_source : ByteSource my_read rl_ok rl_items.
Proof.
  split. intros s Hs. unfold my_read. rewrite bind_gets. destruct (Z.leb_spec (rl_cnt (r_line s)) 0) as [Hc|Hc].
  - rewrite bind_assoc, bind_gets. destruct (refill_run (S (length (f_evs (r_fd s)))) s Hs Hc ltac:(lia)) as (r & s1 & E & O & R).
    rewrite (bind_run _ _ _ _ _ E). destruct r as [rc|].
    + destruct R as [E1 E2]. exists s1. by rewrite <-E1.
    + destruct R as [Hc1 E1]. rewrite <-E1. destruct (take_run s1 O Hc1) as (s' & ? & ? & ? & _). by exists s'.
  - rewrite (bind_run (ret None) _ s None s eq_refl). destruct (take_run s Hs Hc) as (s' & ? & ? & ? & _). by exists s'.
Qed.

(** The static buffer, as long as no [read] fails. *)
Definition st_ok s : Prop := rl_ok s /\ Forall no_err (f_evs (r_fd s)).

#[export] Instance my_read_static_source : ByteSource my_read_static st_ok rl_items.
Proof.
  split. intros s [Hs He]. unfold my_read_static. rewrite bind_gets. destruct (Z.leb_spec (rl_cnt (r_line s)) 0) as [Hc|Hc].
  2:{ rewrite (bind_run (ret false) _ s false s eq_refl). destruct (take_run s Hs Hc) as (s' & E & O & I & R). exists s'.
      split; [exact E|]. split; [split; [done|by rewrite R]|done]. }
  pose proof (fill_run s Hs Hc) as F. pose proof (pending_empty _ Hc) as P. pose proof Hs as [Hl Hf].
  assert (rl_items s = items true (f_evs (r_fd s))) as I by (unfold rl_items; by rewrite P). rewrite bind_assoc.
  assert (forall g : fdesc, fd_ok g -> rl_ok (set_rline (mk_rline 0 (rl_bufptr (r_line s)) (rl_buf (r_line s))) (set_rfd g s)) /\
    rl_items (set_rline (mk_rline 0 (rl_bufptr (r_line s)) (rl_buf (r_line s))) (set_rfd g s)) = fd_items true g) as Z.
  { intros g Hg. destruct (empty_ok _ 0 (rl_bufptr (r_line s)) ltac:(lia) Hl) as [O P']. split; [done|]. unfold rl_items. cbn [r_line r_fd set_rline set_rfd]. by rewrite P'. }
  destruct (f_evs (r_fd s)) as [|[[|b bs]|e] evs] eqn:Ev.
  - destruct F as (E & Hg & Hn). rewrite (bind_run _ _ _ _ _ E), bind_assoc, bind_modify. eexists. split; [by rewrite I|].
    destruct (Z _ Hg) as [O Q]. split; [split; [exact O|by apply Hn]|]. rewrite I. etransitivity; [exact Q|]. unfold fd_items. by rewrite Ev.
  - destruct F as (E & Hg & Hn). rewrite (bind_run _ _ _ _ _ E), bind_assoc, bind_modify. eexists. split; [by rewrite I|].
    destruct (Z _ Hg) as [O Q]. split; [split; [exact O|by apply Hn]|]. rewrite I. exact Q.
  - destruct F as (bs' & g & (E & Hg & Hn) & Hne & Hb & HL & It). rewrite (bind_run _ _ _ _ _ E), bind_assoc, bind_modify. cbn [fst snd].
    assert (0 < length bs')%nat by (destruct bs'; [done|simpl; lia]).
    destruct (Z.ltb_spec (Z.of_nat (length bs')) 0), (Z.eqb_spec (Z.of_nat (length bs')) 0); try lia. rewrite bind_assoc, bind_modify.
    destruct (filled_ok _ bs' Hl Hb HL) as [O P']. rewrite (bind_run (ret false) _ _ false _ eq_refl).
    match goal with |- context [take_byte ?s1] => destruct (take_run s1) as (s' & E' & O' & I' & R'); [split; [exact O|exact Hg]|cbn; lia|];
      assert (rl_items s1 = rl_items s) as I1 end.
    { rewrite I, It. unfold rl_items. cbn [r_line r_fd set_rline set_rfd]. by rewrite P'. }
    rewrite I1 in *. exists s'. split; [exact E'|]. split; [split; [done|]|done]. rewrite R'. by apply Hn.
  - by apply list.Forall_cons in He as [[] _].
Qed.
End sources.

(** * Sequences of calls *)

(** Calls with the given [maxlen]s and arrays, one after the other. *)
Fixpoint calls {St} (f : nat -> bytes -> M St (Z * bytes)) (cs : list (nat * bytes)) : M St (list (Z * bytes)) :=
  match cs with
  | [] => ret []
  | c :: cs => let* r := f c.1 c.2 in let* rs := calls f cs in ret (r :: rs)
  end.
Fixpoint spec_calls (late : bool) (cs : list (nat * bytes)) (its : list item) : list (Z * bytes) :=
  match cs with
  | [] => []
  | c :: cs =>
      let '(e, l, r) := spec_line (c.1 - 1) its in
      (line_value late e l, line_array late e l c.2) :: spec_calls late cs r
  end.
Definition call_ok (c : nat * bytes) : Prop := (1 <= c.1 <= length c.2)%nat.

Section sessions.
(** A function that reads lines: each call gives the next line. *)
Definition reads_lines {St} (f : nat -> bytes -> M St (Z * bytes)) (late : bool) (ok : St -> Prop) (its : St -> list item) : Prop :=
  forall m arr s, ok s -> call_ok (m, arr) ->
    let '(e, l, r) := spec_line (m - 1) (its s) in
    exists s', f m arr s = Ret (line_value late e l, line_array late e l arr) s' /\ ok s' /\ its s' = r.

Lemma source_reads_lines {St} (next : M St (Z * Z)) ok its late : ByteSource next ok its -> reads_lines (readline_with next late) late ok its.
Proof. intros B m arr s Hs Hc. by apply readline_run. Qed.

Lemma calls_run {St} (f : nat -> bytes -> M St (Z * bytes)) late ok its cs : reads_lines f late ok its -> Forall call_ok cs ->
  forall s, ok s -> exists s', calls f cs s = Ret (spec_calls late cs (its s)) s' /\ ok s'.
Proof.
  intros Hf. induction 1 as [|[m arr] cs Hc _ IH]; intros s Hs; [by exists s|]. cbn [calls spec_calls fst snd].
  specialize (Hf m arr s Hs Hc). destruct (spec_line (m - 1) (its s)) as [[e l] r]. destruct Hf as (s1 & E1 & Hs1 & <-).
  destruct (IH s1 Hs1) as (s2 & E2 & Hs2). exists s2. split; [|done]. rewrite (bind_run _ _ _ _ _ E1), (bind_run _ _ _ _ _ E2). done.
Qed.

(** A thread's buffer, empty before its first call. *)
Definition tsd_line (s : tstate) (tid : Z) : Rline := default (mk_rline 0 0 (replicate MAXLINE 0)) (t_tsd s !! tid).
Definition tsd_ok (tid : Z) (s : tstate) : Prop := rl_ok (mk_rst (tsd_line s tid) (t_fd s)).
Definition tsd_items (tid : Z) (s : tstate) : list item := rl_items (mk_rst (tsd_line s tid) (t_fd s)).

Lemma readline_t_run tid : reads_lines (readline_t tid) false (tsd_ok tid) (tsd_items tid).
Proof.
  intros m arr s Hs Hc. unfold tsd_items. pose proof (source_reads_lines my_read rl_ok rl_items false _ m arr _ Hs Hc) as H.
  destruct (spec_line _ _) as [[e l] r]. destruct H as (r' & E & O & I).
  exists (mk_tst (<[tid := r_line r']> (t_tsd s)) (r_fd r')). split; [|].
  - unfold readline_t, my_read_tsd, tsd_line in *. destruct (t_tsd s !! tid) as [x|] eqn:Ex.
    + rewrite (bind_run _ _ s tt s) by (by rewrite Ex).
      unfold zoom. cbn [t_tsd t_fd]. rewrite Ex. cbn [default] in *. by rewrite E.
    + rewrite (bind_run _ _ s tt (mk_tst (<[tid := mk_rline 0 0 (replicate MAXLINE 0)]> (t_tsd s)) (t_fd s))) by (by rewrite Ex).
      erewrite zoom_run; [|cbn [t_tsd t_fd]; rewrite lookup_insert_eq; exact E]. cbn [t_tsd]. by rewrite insert_insert_eq.
  - unfold tsd_ok, tsd_line. cbn [t_tsd t_fd]. rewrite lookup_insert_eq. cbn [default]. by destruct r'.
Qed.
End sessions.

(** The versions of [readline] agree.  For any pattern of data, errors
    and interruptions on the descriptor and any sequence of calls, the
    byte-at-a-time version, the re-entrant version after
    [readline_rinit] and the thread-specific version return the same values
    and leave the same arrays; so does the version with the static buffer
    when no [read] fails.  Buffering is not visible to the caller. *)
Theorem readline_versions_agree evs cs tid (r : Rline) :
  Forall ev_ok evs -> Forall call_ok cs -> length (rl_buf r) = MAXLINE ->
  let want := spec_calls false cs (items true evs) in
  (exists s', calls readline1 cs (mk_fd evs 0) = Ret want s') /\
  (exists s', (readline_rinit;;; calls readline_r cs) (mk_rst r (mk_fd evs 0)) = Ret want s') /\
  (exists s', calls (readline_t tid) cs (mk_tst ∅ (mk_fd evs 0)) = Ret want s') /\
  (Forall no_err evs -> exists s', calls readline2 cs (mk_rst (mk_rline 0 0 (rl_buf r)) (mk_fd evs 0)) = Ret want s').
Proof.
  intros He Hc Hr want.
  assert (forall b, length b = MAXLINE -> line_ok (mk_rline 0 0 b) /\ pending (mk_rline 0 0 b) = []) as Hi.
  { intros b Hb. split; [|done]. split; [done|cbn; lia|done]. }
  split; [|split; [|split]].
  - destruct (calls_run readline1 false fd_ok (fd_items true) cs (source_reads_lines _ _ _ _ _) Hc (mk_fd evs 0) He) as (s' & E & _). by exists s'.
  - unfold readline_rinit. rewrite bind_modify. destruct (Hi _ Hr) as [O P].
    destruct (calls_run readline_r false rl_ok rl_items cs (source_reads_lines _ _ _ _ _) Hc (mk_rst (mk_rline 0 0 (rl_buf r)) (mk_fd evs 0))) as (s' & E & _); [done|].
    unfold rl_items in E. cbn [r_line] in E. rewrite P in E. by exists s'.
  - destruct (Hi (replicate MAXLINE 0)) as [O P]; [by rewrite length_replicate|].
    destruct (calls_run (readline_t tid) false (tsd_ok tid) (tsd_items tid) cs (readline_t_run tid) Hc (mk_tst ∅ (mk_fd evs 0))) as (s' & E & _).
    { unfold tsd_ok, tsd_line. cbn [t_tsd t_fd]. by rewrite lookup_empty. }
    unfold tsd_items, tsd_line, rl_items in E. cbn [t_tsd t_fd r_line] in E. rewrite lookup_empty in E. cbn [default] in E. rewrite P in E. by exists s'.
  - intros Hn. destruct (Hi _ Hr) as [O P].
    destruct (calls_run readline2 false st_ok rl_items cs (source_reads_lines _ _ _ _ _) Hc (mk_rst (mk_rline 0 0 (rl_buf r)) (mk_fd evs 0))) as (s' & E & _); [done|].
    unfold rl_items in E. cbn [r_line] in E. rewrite P in E. by exists s'.
Qed.

Lemma readline_versions_agree_witness :
  exists s', calls readline1 [(6%nat, replicate 6 9); (6%nat, replicate 6 9); (6%nat, replicate 6 9)]
      (mk_fd [Data (str "ab"); Err 4; Data [99; 10; 100]; Err 5] 0) =
    Ret [(4, [97; 98; 99; 10; 0; 9]); (-1, [100; 9; 9; 9; 9; 9]); (0, [0; 9; 9; 9; 9; 9])] s'.
Proof.
  apply (readline_versions_agree [Data (str "ab"); Err 4; Data [99; 10; 100]; Err 5]
    [(6%nat, replicate 6 9); (6%nat, replicate 6 9); (6%nat, replicate 6 9)] 7 (mk_rline 0 0 (replicate MAXLINE 0))).
  - repeat constructor; vm_compute; discriminate.
  - repeat constructor; simpl; lia.
  - apply length_replicate.
Defined.

Section counts.
Lemma spec_line_full l rest k : Forall (fun c => c <> c_nl) l -> length l = k ->
  spec_line k ((IByte <$> l) ++ rest) = (Full, l, rest).
Proof.
  intros H. revert k. induction H as [|c l Hc _ IH]; intros k <-; [done|]. cbn [length fmap list_fmap app spec_line].
  apply Z.eqb_neq in Hc. by rewrite Hc, IH.
Qed.
Lemma spec_line_eof l k : Forall (fun c => c <> c_nl) l -> (length l < k)%nat -> spec_line k (IByte <$> l) = (AtEof, l, []).
Proof.
  intros H. revert k. induction H as [|c l Hc _ IH]; intros [|k] Hk; simpl in Hk; try lia; [done|]. cbn [fmap list_fmap spec_line].
  apply Z.eqb_neq in Hc. by rewrite Hc, IH by lia.
Qed.
End counts.

(** The counts [readline] returns.  When a line does not fit, all
    versions store [maxlen - 1] bytes and return [maxlen], one more than
    they stored.  For a last line without a newline the server's versions
    return one more than the length, where the others return the length. *)
Theorem readline_counts l rest maxlen arr :
  Forall is_byte (l ++ rest) -> Forall (fun c => c <> c_nl) l -> l <> [] -> (maxlen <= length arr)%nat ->
  ((length l = maxlen - 1)%nat -> exists s',
     readline1 maxlen arr (mk_fd [Data (l ++ rest)] 0) = Ret (Z.of_nat (length l) + 1, splice 0 (l ++ [0]) arr) s') /\
  ((length l < maxlen - 1)%nat -> exists s1 s2,
     readline1 maxlen arr (mk_fd [Data l] 0) = Ret (Z.of_nat (length l), splice 0 (l ++ [0]) arr) s1 /\
     server_readline maxlen arr (mk_fd [Data l] 0) = Ret (Z.of_nat (length l) + 1, splice 0 (l ++ [0]) arr) s2).
Proof.
  intros Hb Hn Hne Hm. assert (0 < length l)%nat by (destruct l; [done|simpl; lia]).
  assert (Forall is_byte l) as Hl by (by apply Forall_app in Hb as [? _]). split; intros HL.
  - pose proof (source_reads_lines _ fd_ok (fd_items true) false read1_again_source maxlen arr (mk_fd [Data (l ++ rest)] 0)) as R.
    unfold fd_items in R. cbn [f_evs] in R. rewrite items_data in R by (by destruct l). rewrite fmap_app, <-app_assoc, spec_line_full in R by done.
    destruct R as (s' & E & _); [by repeat constructor|split; simpl; lia|]. by exists s'.
  - pose proof (source_reads_lines _ fd_ok (fd_items true) false read1_again_source maxlen arr (mk_fd [Data l] 0)) as R.
    pose proof (source_reads_lines _ fd_ok (fd_items false) true read1_source maxlen arr (mk_fd [Data l] 0)) as R'.
    unfold fd_items in R, R'. cbn [f_evs] in R, R'. rewrite items_data in R, R' by done. cbn [items] in R, R'. rewrite app_nil_r in R, R'.
    rewrite spec_line_eof in R, R' by done. destruct R as (s1 & E1 & _); [by repeat constructor|split; simpl; lia|].
    destruct R' as (s2 & E2 & _); [by repeat constructor|split; simpl; lia|].
    exists s1, s2. split; [exact E1|]. unfold line_value, line_array in E2. rewrite bool_decide_eq_false_2 in E2 by done. exact E2.
Qed.

Lemma readline_counts_witness :
  (exists s', readline1 3 [9; 9; 9; 9] (mk_fd [Data (str "abc")] 0) = Ret (3, [97; 98; 0; 9]) s').
Proof.
  apply (readline_counts (str "ab") (str "c") 3 [9; 9; 9; 9]).
  - repeat constructor; vm_compute; discriminate.
  - repeat constructor; vm_compute; discriminate.
  - discriminate.
  - simpl. lia.
  - reflexivity.
Defined.
