(* ===== verification/Gai.v ===== *)
(** [getaddrinfo] and [freeaddrinfo] of [unpv13e/libgai], over a heap of the
    three kinds of block they allocate and a [malloc] that may fail: the
    checks of the arguments, the list of searches, the structures built for
    each address, the copies made for each socket type, and the service
    names.  The resolver and the services database are parameters. *)
From Stdlib Require Import ZArith Lia.
From stdpp Require Import base list strings gmap numbers.
From S2P Require Import Prelude CString CFile Dll Inet4 Inet6.
Local Open Scope c_scope.

(** * Data *)

Definition AI_PASSIVE : Z := 1.
Definition AI_CANONNAME : Z := 2.
(** The internal flag. *)
Definition AI_CLONE : Z := 4.
Definition EAI_ADDRFAMILY : Z := 1.
Definition EAI_AGAIN : Z := 2.
Definition EAI_BADFLAGS : Z := 3.
Definition EAI_FAIL : Z := 4.
Definition EAI_FAMILY : Z := 5.
Definition EAI_MEMORY : Z := 6.
Definition EAI_NODATA : Z := 7.
Definition EAI_NONAME : Z := 8.
Definition EAI_SERVICE : Z := 9.
Definition EAI_SOCKTYPE : Z := 10.
Definition EAI_SYSTEM : Z := 11.
Definition AF_UNSPEC : Z := 0.
Definition AF_LOCAL : Z := 1.
Definition SOCK_STREAM : Z := 1.
Definition SOCK_DGRAM : Z := 2.
Definition SOCK_RAW : Z := 3.

(** The three socket address structures: [sa_data] is the address in network
    order, or [sun_path]; [sa_port] is in network byte order;
    [sa_flowinfo] and [sa_scope_id] are [sin6_flowinfo] and [sin6_scope_id]
    (0 in the structures without them). *)
Record sockaddr := mk_sa { sa_len : Z; sa_family : Z; sa_port : Z; sa_data : bytes; sa_flowinfo : Z; sa_scope_id : Z }.
Definition sizeof_in : Z := 16.
Definition sizeof_in6 : Z := 28.
Definition sizeof_un : Z := 106.
Definition SUN_PATH : nat := 104.

Record addrinfo := mk_ai {
  ai_flags : Z; ai_family : Z; ai_socktype : Z; ai_protocol : Z;
  ai_addrlen : Z; ai_canonname : addr; ai_addr : addr; ai_next : addr }.
Definition zero_ai : addrinfo := mk_ai 0 0 0 0 0 NULL NULL NULL.
(** The members of the hints that are read. *)
Record hint := mk_hint { h_flags : Z; h_family : Z; h_socktype : Z; h_protocol : Z }.

(** Memory: what a block holds; the outcomes of the coming [malloc]s (none
    left: all succeed); the variables [aihead], [aipnext] (NULL for
    [&aihead], else the node whose [ai_next] it points to) and [canon]; the
    paths removed by [unlink]. *)
Inductive blk := BInfo (ai : addrinfo) | BSock (sa : sockaddr) | BStr (s : bytes).
Record gst := mk_gst {
  g_heap : gmap addr blk; g_malloc : list bool;
  g_head : addr; g_tail : addr; g_canon : addr; g_unlinked : list bytes }.

Definition set_heap v s := mk_gst v (g_malloc s) (g_head s) (g_tail s) (g_canon s) (g_unlinked s).
Definition set_malloc v s := mk_gst (g_heap s) v (g_head s) (g_tail s) (g_canon s) (g_unlinked s).
Definition set_head v s := mk_gst (g_heap s) (g_malloc s) v (g_tail s) (g_canon s) (g_unlinked s).
Definition set_tail v s := mk_gst (g_heap s) (g_malloc s) (g_head s) v (g_canon s) (g_unlinked s).
Definition set_canon v s := mk_gst (g_heap s) (g_malloc s) (g_head s) (g_tail s) v (g_unlinked s).
Definition set_unlinked v s := mk_gst (g_heap s) (g_malloc s) (g_head s) (g_tail s) (g_canon s) v.

(** ** Memory operations *)

Definition alloc (b : blk) : M gst addr := fun s =>
  match g_malloc s with
  | false :: r => Ret NULL (set_malloc r s)
  | l => let a := new_addr (g_heap s) in Ret a (set_malloc (tail l) (set_heap (<[a := b]> (g_heap s)) s))
  end.
Definition load_ai (a : addr) : M gst addrinfo := fun s =>
  match g_heap s !! a with Some (BInfo ai) => Ret ai s | _ => Undef "bad addrinfo pointer" end.
Definition load_sa (a : addr) : M gst sockaddr := fun s =>
  match g_heap s !! a with Some (BSock sa) => Ret sa s | _ => Undef "bad sockaddr pointer" end.
Definition put_blk (a : addr) (b : blk) : M gst unit := modify (fun s => set_heap (<[a := b]> (g_heap s)) s).
Definition update_ai (a : addr) (f : addrinfo -> addrinfo) : M gst unit :=
  let* ai := load_ai a in put_blk a (BInfo (f ai)).
Definition update_sa (a : addr) (f : sockaddr -> sockaddr) : M gst unit :=
  let* sa := load_sa a in put_blk a (BSock (f sa)).
Definition free (a : addr) : M gst unit := fun s =>
  match g_heap s !! a with
  | Some _ => Ret tt (set_heap (delete a (g_heap s)) s)
  | None => Undef "free of a block that is not allocated"
  end.

Definition with_flags v ai := mk_ai v (ai_family ai) (ai_socktype ai) (ai_protocol ai) (ai_addrlen ai) (ai_canonname ai) (ai_addr ai) (ai_next ai).
Definition with_socktype v ai := mk_ai (ai_flags ai) (ai_family ai) v (ai_protocol ai) (ai_addrlen ai) (ai_canonname ai) (ai_addr ai) (ai_next ai).
Definition with_canon v ai := mk_ai (ai_flags ai) (ai_family ai) (ai_socktype ai) (ai_protocol ai) (ai_addrlen ai) v (ai_addr ai) (ai_next ai).
Definition with_addr v n ai := mk_ai (ai_flags ai) (ai_family ai) (ai_socktype ai) (ai_protocol ai) n (ai_canonname ai) v (ai_next ai).
Definition with_next v ai := mk_ai (ai_flags ai) (ai_family ai) (ai_socktype ai) (ai_protocol ai) (ai_addrlen ai) (ai_canonname ai) (ai_addr ai) v.
Definition with_port v sa := mk_sa (sa_len sa) (sa_family sa) (u16 v) (sa_data sa) (sa_flowinfo sa) (sa_scope_id sa).

(** Running the address conversions, which use no memory of ours. *)
Definition pure_call {A} (m : M unit A) : M gst A := fun s =>
  match m tt with
  | Ret a _ => Ret a s
  | Died e _ => Died e s
  | Undef w => Undef w
  | NoFuel => NoFuel
  end.

(** * Argument checks *)

(** [flags & bit] *)
Definition has_flag (flags bit : Z) : bool := negb (Z.land flags bit =? 0).

Definition blank (name : option bytes) : bool := match name with None => true | Some b => bool_decide (b = []) end.

Definition ga_echeck (hostname servname : option bytes) (flags family socktype protocol : Z) : Z :=
  if negb (Z.land flags (Z.lnot (Z.lor AI_PASSIVE AI_CANONNAME)) =? 0) then EAI_BADFLAGS
  else if blank hostname && blank servname then EAI_NONAME
  else if family =? AF_UNSPEC then 0
  else if (family =? AF_INET) || (family =? AF_INET6) then
    if negb (socktype =? 0) && (negb (socktype =? SOCK_STREAM) && negb (socktype =? SOCK_DGRAM) && negb (socktype =? SOCK_RAW))
    then EAI_SOCKTYPE else 0
  else if family =? AF_LOCAL then
    if negb (socktype =? 0) && (negb (socktype =? SOCK_STREAM) && negb (socktype =? SOCK_DGRAM)) then EAI_SOCKTYPE else 0
  else EAI_FAMILY.

(** [ga_nsearch]: the array [search]. *)
Definition ga_nsearch (hostname : option bytes) (h : hint) : M gst (list (bytes * Z)) :=
  let pick (v4 v6 : bytes) :=
    if h_family h =? AF_INET then [(v4, AF_INET)]
    else if h_family h =? AF_INET6 then [(v6, AF_INET6)]
    else if h_family h =? AF_UNSPEC then [(v6, AF_INET6); (v4, AF_INET)]
    else [] in
  let search :=
    match hostname with
    | Some (c :: r) => pick (c :: r) (c :: r)
    | _ => if has_flag (h_flags h) AI_PASSIVE then pick (str "0.0.0.0") (str "0::0") else pick (str "localhost") (str "0::1")
    end in
  if (length search <? 1)%nat || (2 <? length search)%nat then die "nsearch = 0" else ret search.

(** * The list *)

(** [**paipnext = ai; *paipnext = &ai->ai_next;] *)
Definition link_ai (ai : addr) : M gst unit :=
  let* t := gets g_tail in
  (if t =? NULL then modify (set_head ai) else update_ai t (with_next ai));;;
  modify (set_tail ai).

Definition ga_aistruct (h : hint) (address : bytes) (family : Z) : M gst Z :=
  let* ai := alloc (BInfo zero_ai) in
  if ai =? NULL then ret EAI_MEMORY
  else
    update_ai ai (fun x => with_canon NULL (with_next NULL x));;;
    link_ai ai;;;
    update_ai ai (with_socktype (h_socktype h));;;
    (if h_socktype h =? 0 then update_ai ai (fun x => with_flags (Z.lor (ai_flags x) AI_CLONE) x) else skip);;;
    update_ai ai (fun x => mk_ai (ai_flags x) family (ai_socktype x) (h_protocol h) (ai_addrlen x) (ai_canonname x) (ai_addr x) (ai_next x));;;
    if family =? AF_INET then
      let* p := alloc (BSock (mk_sa sizeof_in AF_INET 0 (take 4 address) 0 0)) in
      if p =? NULL then ret EAI_MEMORY
      else if (length address <? 4)%nat then undef "read past the address"
      else update_ai ai (with_addr p sizeof_in);;; ret 0
    else if family =? AF_INET6 then
      let* p := alloc (BSock (mk_sa sizeof_in6 AF_INET6 0 (take 16 address) 0 0)) in
      if p =? NULL then ret EAI_MEMORY
      else if (length address <? 16)%nat then undef "read past the address"
      else update_ai ai (with_addr p sizeof_in6);;; ret 0
    else if family =? AF_LOCAL then
      if (SUN_PATH <=? length address)%nat then ret EAI_SERVICE
      else
        let* p := alloc (BSock (mk_sa (2 + Z.of_nat (length address)) AF_LOCAL 0 address 0 0)) in
        if p =? NULL then ret EAI_MEMORY
        else
          update_ai ai (with_addr p sizeof_un);;;
          (if has_flag (h_flags h) AI_PASSIVE then modify (fun s => set_unlinked (g_unlinked s ++ [address]) s) else skip);;;
          ret 0
    else ret 0.

Definition ga_clone (ai : addr) : M gst addr :=
  let* new := alloc (BInfo zero_ai) in
  if new =? NULL then ret NULL
  else
    let* x := load_ai ai in
    update_ai new (with_next (ai_next x));;;
    update_ai ai (with_next new);;;
    update_ai new (fun n => mk_ai 0 (ai_family x) (ai_socktype x) (ai_protocol x) (ai_addrlen x) NULL (ai_addr n) (ai_next n));;;
    let* sa := load_sa (ai_addr x) in
    let* p := alloc (BSock sa) in
    if p =? NULL then ret NULL
    else update_ai new (fun n => with_addr p (ai_addrlen n) n);;; ret new.

(** The body of the loop of [ga_port] from the assignment to [ai_socktype]
    on: the number to add to [nfound]. *)
Definition set_port (ai port socktype : Z) : M gst Z :=
  update_ai ai (with_socktype socktype);;;
  let* x := load_ai ai in
  if (ai_family x =? AF_INET) || (ai_family x =? AF_INET6)
  then update_sa (ai_addr x) (with_port port);;; ret 1
  else ret 0.

Fixpoint ga_port_loop (fuel : nat) (ai port socktype nfound : Z) : M gst Z :=
  if ai =? NULL then ret nfound
  else
    match fuel with
    | O => nofuel
    | S fuel =>
        let* x := load_ai ai in
        let go (a : addr) : M gst Z :=
          let* k := set_port a port socktype in
          let* y := load_ai a in
          ga_port_loop fuel (ai_next y) port socktype (nfound + k) in
        if has_flag (ai_flags x) AI_CLONE then
          if negb (ai_socktype x =? 0) then
            let* c := ga_clone ai in
            if c =? NULL then ret (-1) else go c
          else go ai
        else if negb (ai_socktype x =? socktype) then ga_port_loop fuel (ai_next x) port socktype nfound
        else go ai
    end.
Definition ga_port (aihead port socktype : Z) : M gst Z :=
  let* n := gets (fun s => size (g_heap s)) in ga_port_loop n aihead port socktype 0.

Section resolver.
(** [getservbyname(name, protocol)]: the port in network order. *)
Context (getservbyname : bytes -> bytes -> option Z).

Definition ga_serv (aihead : addr) (h : hint) (serv : bytes) : M gst Z :=
  let add (nfound port socktype : Z) (k : Z -> M gst Z) : M gst Z :=
    let* rc := ga_port aihead port socktype in
    if rc <? 0 then ret EAI_MEMORY else k (nfound + rc) in
  let finish (nfound : Z) : M gst Z :=
    if nfound =? 0 then ret (if h_socktype h =? 0 then EAI_NONAME else EAI_SERVICE) else ret 0 in
  if isdigit (default 0 (head serv)) then
    let port := htons (u16 (atoi serv)) in
    if negb (h_socktype h =? 0) then add 0 port (h_socktype h) finish
    else add 0 port SOCK_STREAM (fun n => add n port SOCK_DGRAM finish)
  else
    let tcp (k : Z -> M gst Z) : M gst Z :=
      if (h_socktype h =? 0) || (h_socktype h =? SOCK_STREAM) then
        match getservbyname serv (str "tcp") with Some p => add 0 p SOCK_STREAM k | None => k 0 end
      else k 0 in
    let udp (n : Z) : M gst Z :=
      if (h_socktype h =? 0) || (h_socktype h =? SOCK_DGRAM) then
        match getservbyname serv (str "udp") with Some p => add n p SOCK_DGRAM finish | None => finish n end
      else finish n in
    tcp udp.

(** The node name of [uname], if the call succeeds. *)
Context (uname : option bytes).

(** The value and, when it is 0, the list. *)
Definition ga_unix (path : bytes) (h : hint) : M gst (Z * addr) :=
  if negb (h_family h =? AF_UNSPEC) && negb (h_family h =? AF_LOCAL) then ret (EAI_ADDRFAMILY, NULL)
  else
    let last (h : hint) : M gst (Z * addr) :=
      let* rc := ga_aistruct h path AF_LOCAL in
      if negb (rc =? 0) then ret (rc, NULL)
      else
        let* a := gets g_head in
        if has_flag (h_flags h) AI_CANONNAME then
          match uname with
          | None => ret (EAI_SYSTEM, NULL)
          | Some n =>
              let* c := alloc (BStr n) in
              update_ai a (with_canon c);;;
              if c =? NULL then ret (EAI_MEMORY, NULL) else ret (0, a)
          end
        else ret (0, a) in
    if h_socktype h =? 0 then
      let* rc := ga_aistruct (mk_hint (h_flags h) (h_family h) SOCK_STREAM (h_protocol h)) path AF_LOCAL in
      if negb (rc =? 0) then ret (rc, NULL)
      else last (mk_hint (h_flags h) (h_family h) SOCK_DGRAM (h_protocol h))
    else last h.

Fixpoint free_loop (fuel : nat) (ai : addr) : M gst unit :=
  if ai =? NULL then skip
  else
    match fuel with
    | O => nofuel
    | S fuel =>
        let* x := load_ai ai in
        (if negb (ai_addr x =? NULL) then free (ai_addr x) else skip);;;
        (if negb (ai_canonname x =? NULL) then free (ai_canonname x) else skip);;;
        free ai;;;
        free_loop fuel (ai_next x)
    end.
Definition freeaddrinfo (aihead : addr) : M gst unit :=
  let* n := gets (fun s => size (g_heap s)) in free_loop n aihead.

(** What the resolver knows of a name: [struct hostent]. *)
Record hostent := mk_host { h_name : bytes; h_addrtype : Z; h_addr_list : list bytes }.
Inductive h_errno := HOST_NOT_FOUND | TRY_AGAIN | NO_RECOVERY | NO_DATA | OTHER_ERROR.
(** [gethostbyname2(name, family)] and [gethostbyname(name)] with or without
    [RES_USE_INET6]. *)
Context (gethostbyname2 : bytes -> Z -> option hostent).
Context (gethostbyname : bytes -> bool -> h_errno + hostent).
(** The memory of the four bytes [tmp] in [inet_pton4]. *)
Context (tmp4 : bytes).

Definition eai_of (e : h_errno) : Z :=
  match e with
  | HOST_NOT_FOUND => EAI_NONAME | TRY_AGAIN => EAI_AGAIN | NO_RECOVERY => EAI_FAIL | NO_DATA => EAI_NODATA
  | OTHER_ERROR => EAI_NONAME
  end.
Definition isxdigit (c : Z) : bool := match hexval c with Some _ => true | None => false end.

(** One structure for each address; [None]: the loop goes on. *)
Fixpoint add_all (h : hint) (addrs : list bytes) (family : Z) : M gst (option Z) :=
  match addrs with
  | [] => ret None
  | a :: r =>
      let* rc := ga_aistruct h a family in
      if negb (rc =? 0) then ret (Some rc) else add_all h r family
  end.

(** A numeric host: [None] when it is not an address of the family, [Some r]
    for the rest of the iteration. *)
Definition numeric (h : hint) (host : bytes) (sfamily family : Z) : M gst (option (option Z)) :=
  let* r := pure_call (inet_pton tmp4 family host) in
  match r with
  | (1, Some a, _) =>
      if negb (h_family h =? AF_UNSPEC) && negb (h_family h =? family) then ret (Some (Some EAI_ADDRFAMILY))
      else if negb (sfamily =? family) then ret (Some None)
      else
        let* rc := ga_aistruct h a family in
        ret (Some (if negb (rc =? 0) then Some rc else None))
  | _ => ret None
  end.

(** The resolver's part of the iteration. *)
Definition resolve (named : bool) (h : hint) (nsearch : nat) (host : bytes) (family : Z) : M gst (option Z) :=
  let hptr := if (nsearch =? 2)%nat then match gethostbyname2 host family with Some p => inr p | None => inl None end
              else match gethostbyname host (family =? AF_INET6) with inr p => inr p | inl e => inl (Some e) end in
  match hptr with
  | inl None => ret None
  | inl (Some e) => ret (Some (eai_of e))
  | inr p =>
      if negb (h_family h =? AF_UNSPEC) && negb (h_family h =? h_addrtype p) then ret (Some EAI_ADDRFAMILY)
      else
        let* canon := gets g_canon in
        let* bad := (if named && has_flag (h_flags h) AI_CANONNAME && (canon =? NULL) then
                       let* c := alloc (BStr (h_name p)) in
                       modify (set_canon c);;; ret (c =? NULL)
                     else ret false) in
        if bad : bool then ret (Some EAI_MEMORY) else add_all h (h_addr_list p) (h_addrtype p)
  end.

(** One iteration: [Some e] is an error. *)
Definition search_one (named : bool) (h : hint) (nsearch : nat) (host : bytes) (family : Z) : M gst (option Z) :=
  let c0 := default 0 (head host) in
  let v6 : M gst (option Z) :=
    if (isxdigit c0 || (c0 =? c_colon)) && bool_decide (c_colon ∈ host) then
      let* r := numeric h host family AF_INET6 in
      match r with Some e => ret e | None => resolve named h nsearch host family end
    else resolve named h nsearch host family in
  if isdigit c0 then
    let* r := numeric h host family AF_INET in
    match r with Some e => ret e | None => v6 end
  else v6.
Fixpoint search_loop (named : bool) (h : hint) (nsearch : nat) (search : list (bytes * Z)) : M gst (option Z) :=
  match search with
  | [] => ret None
  | (host, family) :: r =>
      let* e := search_one named h nsearch host family in
      match e with Some e => ret (Some e) | None => search_loop named h nsearch r end
  end.

(** The label [bad]. *)
Definition bad (e : Z) : M gst (Z * addr) :=
  let* a := gets g_head in freeaddrinfo a;;; ret (e, NULL).

(** From the label ga5 on. *)
Definition finish_gai (named : bool) (h : hint) (host0 : bytes) (servname : option bytes) : M gst (Z * addr) :=
  let* a := gets g_head in
  if a =? NULL then bad EAI_NONAME
  else
    let* nomem := (if named && has_flag (h_flags h) AI_CANONNAME then
                     let* canon := gets g_canon in
                     if negb (canon =? NULL) then update_ai a (with_canon canon);;; ret false
                     else
                       let* c := alloc (BStr host0) in
                       update_ai a (with_canon c);;; ret (c =? NULL)
                   else ret false) in
    if nomem : bool then bad EAI_MEMORY
    else
      let* rc := (match servname with Some (c :: r) => ga_serv a h (c :: r) | _ => ret 0 end) in
      if negb (rc =? 0) then bad rc else ret (0, a).

Definition is_local (hostname servname : option bytes) : bool :=
  match hostname, servname with
  | Some n, Some (c :: _) => (bool_decide (n = str "/local") || bool_decide (n = str "/unix")) && (c =? 47)
  | _, _ => false
  end.

(** [getaddrinfo]: the value and, when it is 0, the list. *)
Definition getaddrinfo (hostname servname : option bytes) (hints : option hint) : M gst (Z * addr) :=
  modify (fun s => set_head NULL (set_tail NULL (set_canon NULL s)));;;
  let h := default (mk_hint 0 AF_UNSPEC 0 0) hints in
  let rc := ga_echeck hostname servname (h_flags h) (h_family h) (h_socktype h) (h_protocol h) in
  if negb (rc =? 0) then bad rc
  else if is_local hostname servname then ga_unix (default [] servname) h
  else
    let* search := ga_nsearch hostname h in
    let named := negb (blank hostname) in
    let* e := search_loop named h (length search) search in
    match e with
    | Some e => bad e
    | None => finish_gai named h (default [] (fst <$> head search)) servname
    end.
End resolver.
