(* ===== verification/GaiHeap.v ===== *)
(** The memory of [libgai] as lists of nodes: ownership of blocks relative to
    the heap at the start, well-formed [addrinfo] chains, and the rules of
    the memory operations for them. *)
From Stdlib Require Import ZArith Lia.
From stdpp Require Import base list strings gmap numbers.
From S2P Require Import Prelude CString CFile Dll Inet4 Inet6 Gai.
Local Open Scope c_scope.

(** * Ownership *)
Section owns.
Implicit Types (h : gmap addr blk) (fp : list addr) (a : addr) (b : blk).

(** [h] is [h0] and the blocks [fp], which were allocated since. *)
Record owns h0 h fp : Prop := {
  own_nodup : NoDup fp;
  own_null : NULL ∉ fp;
  own_new : forall a, a ∈ fp -> h0 !! a = None /\ is_Some (h !! a);
  own_old : forall a, a ∉ fp -> h !! a = h0 !! a }.

#[export] Instance owns_perm h0 h : Proper ((≡ₚ) ==> iff) (owns h0 h).
Proof.
  assert (forall fp fp', (fp ≡ₚ fp') -> owns h0 h fp -> owns h0 h fp') as H.
  { intros fp fp' P [N U W O]. split; [by rewrite <-P|by rewrite <-P|intros a; rewrite <-P; auto|intros a; rewrite <-P; auto]. }
  intros fp fp' P. split; apply H; done.
Qed.

Lemma owns_refl h : owns h h [].
Proof. split; [constructor|by intros ?%elem_of_nil|by intros ? ?%elem_of_nil|done]. Qed.

Lemma owns_nil h0 h : owns h0 h [] -> h = h0.
Proof. intros [_ _ _ O]. apply map_eq. intros a. apply O. by intros ?%elem_of_nil. Qed.

Lemma owns_fresh h0 h fp b : owns h0 h fp -> (new_addr h ∉ fp) /\ new_addr h <> NULL /\ owns h0 (<[new_addr h := b]> h) (new_addr h :: fp).
Proof.
  intros [N U W O]. destruct (new_addr_fresh h) as [F Hn]. assert (new_addr h ∉ fp) as Hi.
  { intros Ha. destruct (W _ Ha) as [_ [x E]]. congruence. }
  split; [done|]. split; [done|]. split.
  - by apply list.NoDup_cons.
  - rewrite not_elem_of_cons. done.
  - intros a [->|Ha]%elem_of_cons; [rewrite lookup_insert_eq, <-O by done; eauto|].
    rewrite lookup_insert_ne by (by intros <-). by apply W.
  - intros a [Hne Ha]%not_elem_of_cons. rewrite lookup_insert_ne by done. by apply O.
Qed.

Lemma owns_put h0 h fp a b : a ∈ fp -> owns h0 h fp -> owns h0 (<[a := b]> h) fp.
Proof.
  intros Ha [N U W O]. split; [done|done| |].
  - intros c Hc. destruct (W _ Hc) as [? ?]. split; [done|]. destruct (decide (a = c)) as [->|]; [rewrite lookup_insert_eq; eauto|by rewrite lookup_insert_ne].
  - intros c Hc. rewrite lookup_insert_ne by (by intros ->). by apply O.
Qed.

Lemma owns_delete h0 h fp a : owns h0 h (a :: fp) -> owns h0 (delete a h) fp.
Proof.
  intros [N U W O]. apply list.NoDup_cons in N as [Ha N]. apply not_elem_of_cons in U as [_ U]. split; [done|done| |].
  - intros c Hc. destruct (W c) as [? ?]; [by right|]. split; [done|]. by rewrite lookup_delete_ne by (by intros ->).
  - intros c Hc. destruct (decide (a = c)) as [->|].
    + rewrite lookup_delete_eq. destruct (W c) as [? _]; [by left|]. done.
    + rewrite lookup_delete_ne by done. apply O. by apply not_elem_of_cons.
Qed.
End owns.

(** * Nodes *)

(** What a pointer that may be NULL points to, and the block it owns. *)
Definition holds (h : gmap addr blk) (p : addr) (o : option blk) : Prop :=
  match o with None => p = NULL | Some b => h !! p = Some b end.
Definition cell {A} (p : addr) (o : option A) : list addr := match o with None => [] | Some _ => [p] end.

(** A structure with its address, and what its two pointers point to. *)
Record node := mk_node { n_at : addr; n_ai : addrinfo; n_sa : option sockaddr; n_canon : option bytes }.
Definition cells (n : node) : list addr := n_at n :: cell (ai_addr (n_ai n)) (n_sa n) ++ cell (ai_canonname (n_ai n)) (n_canon n).
Definition foot (l : list node) : list addr := mjoin (cells <$> l).
Record node_ok (h : gmap addr blk) (n : node) : Prop := {
  nk_at : h !! n_at n = Some (BInfo (n_ai n));
  nk_sa : holds h (ai_addr (n_ai n)) (BSock <$> n_sa n);
  nk_canon : holds h (ai_canonname (n_ai n)) (BStr <$> n_canon n) }.

(** The chain of the [ai_next]s from [p] to [q]. *)
Fixpoint links (p : addr) (l : list node) (q : addr) : Prop :=
  match l with
  | [] => p = q
  | n :: r => p = n_at n /\ links (ai_next (n_ai n)) r q
  end.
Definition last_at (l : list node) : addr := match list.last l with Some n => n_at n | None => NULL end.

(** A chain in memory, with the blocks [ex] besides it. *)
Record chain (h0 h : gmap addr blk) (ex : list addr) (p : addr) (l : list node) : Prop := {
  ch_owns : owns h0 h (ex ++ foot l);
  ch_nodes : Forall (node_ok h) l;
  ch_links : links p l NULL }.

(** The structures without their pointers. *)
Record ent := mk_ent {
  e_flags : Z; e_family : Z; e_socktype : Z; e_protocol : Z; e_addrlen : Z; e_sa : option sockaddr; e_canon : option bytes }.
Definition ent_of (n : node) : ent :=
  let x := n_ai n in mk_ent (ai_flags x) (ai_family x) (ai_socktype x) (ai_protocol x) (ai_addrlen x) (n_sa n) (n_canon n).

Section nodes.
Implicit Types (h : gmap addr blk) (n : node) (l : list node) (ex : list addr) (a p q : addr) (s : gst).

Lemma holds_frame h h' p o : holds h p o -> (forall a, a ∈ cell p o -> h' !! a = h !! a) -> holds h' p o.
Proof. destruct o; simpl; [|done]. intros H F. rewrite F by (by left). done. Qed.

Lemma cell_fmap {A B} (f : A -> B) p (o : option A) : cell p (f <$> o) = cell p o.
Proof. by destruct o. Qed.

Lemma node_frame h h' n : node_ok h n -> (forall a, a ∈ cells n -> h' !! a = h !! a) -> node_ok h' n.
Proof.
  intros [A S C] F. split.
  - rewrite F; [done|]. by left.
  - apply (holds_frame h); [done|]. intros a. rewrite cell_fmap. intros Ha. apply F. unfold cells. set_solver.
  - apply (holds_frame h); [done|]. intros a. rewrite cell_fmap. intros Ha. apply F. unfold cells. set_solver.
Qed.

Lemma foot_app l1 l2 : foot (l1 ++ l2) = foot l1 ++ foot l2.
Proof. unfold foot. by rewrite fmap_app, join_app. Qed.

Lemma elem_of_foot a l : a ∈ foot l <-> exists n, n ∈ l /\ a ∈ cells n.
Proof. unfold foot. rewrite list_elem_of_join. setoid_rewrite list_elem_of_fmap. naive_solver. Qed.

Lemma nodes_frame h h' l : Forall (node_ok h) l -> (forall a, a ∈ foot l -> h' !! a = h !! a) -> Forall (node_ok h') l.
Proof.
  intros H F. apply list.Forall_forall. intros n Hn. rewrite list.Forall_forall in H. apply (node_frame h); [by apply H|].
  intros a Ha. apply F, elem_of_foot. eauto.
Qed.

Lemma links_app p l1 l2 q : links p (l1 ++ l2) q <-> exists m, links p l1 m /\ links m l2 q.
Proof.
  revert p. induction l1 as [|n l1 IH]; intros p; simpl; [naive_solver|]. rewrite IH. naive_solver.
Qed.

(** Writing a block of the footprint leaves the nodes that do not own it. *)
Lemma nodes_put h0 h ex l1 n l2 a b : owns h0 h (ex ++ foot (l1 ++ n :: l2)) -> a ∈ cells n ->
  Forall (node_ok h) l1 -> Forall (node_ok h) l2 -> Forall (node_ok (<[a := b]> h)) l1 /\ Forall (node_ok (<[a := b]> h)) l2.
Proof.
  intros [N _ _ _] Ha F1 F2. rewrite foot_app in N. change (foot (n :: l2)) with (cells n ++ foot l2) in N.
  apply list.NoDup_app in N as (_ & _ & N). apply list.NoDup_app in N as (_ & N1 & N). apply list.NoDup_app in N as (_ & N2 & _).
  split; (eapply nodes_frame; [done|]); intros c Hc; apply lookup_insert_ne; intros <-.
  - eapply N1; [done|]. apply elem_of_app. by left.
  - by eapply N2.
Qed.

Lemma foot_mid l1 n l2 : foot (l1 ++ n :: l2) ≡ₚ cells n ++ foot (l1 ++ l2).
Proof. rewrite !foot_app. change (foot (n :: l2)) with (cells n ++ foot l2). solve_Permutation. Qed.

(** A write into a node, which may take over blocks held on the side. *)
Lemma chain_set h0 h ex' ex p l1 n n' l2 a b : chain h0 h (ex' ++ ex) p (l1 ++ n :: l2) ->
  n_at n' = n_at n -> ai_next (n_ai n') = ai_next (n_ai n) -> cells n' ≡ₚ ex' ++ cells n -> a ∈ cells n ->
  node_ok (<[a := b]> h) n' -> chain h0 (<[a := b]> h) ex p (l1 ++ n' :: l2).
Proof.
  intros [O N L] Ea En Ec Ha Hn. apply Forall_app in N as [N1 N]. apply list.Forall_cons in N as [_ N2].
  destruct (nodes_put h0 h (ex' ++ ex) l1 n l2 a b O Ha N1 N2) as [N1' N2']. split.
  - rewrite foot_mid, Ec. rewrite foot_mid in O. apply (owns_put _ _ _ a b) in O; [|rewrite !elem_of_app; auto].
    revert O. apply owns_perm. solve_Permutation.
  - apply Forall_app. split; [done|]. by constructor.
  - apply links_app in L as (m & L1 & L2 & L3). apply links_app. exists m. split; [done|]. rewrite <-Ea in L2. split; [done|]. by rewrite En.
Qed.

(** Putting a structure held on the side into the chain after a node. *)
Lemma chain_insert h0 h ex p l1 n l2 new y : chain h0 h (new :: ex) p (l1 ++ n :: l2) ->
  h !! new = Some (BInfo y) -> ai_addr y = NULL -> ai_canonname y = NULL -> ai_next y = ai_next (n_ai n) ->
  chain h0 (<[n_at n := BInfo (with_next new (n_ai n))]> h) ex p
    (l1 ++ mk_node (n_at n) (with_next new (n_ai n)) (n_sa n) (n_canon n) :: mk_node new y None None :: l2).
Proof.
  intros C Hy Ha Hc Hx. pose proof C as [O N L]. apply Forall_app in N as [N1 N]. apply list.Forall_cons in N as [Hn N2].
  assert (n_at n ∈ cells n) as Hi by (by left). assert (new ∉ foot (l1 ++ n :: l2)) as Hf.
  { destruct O as [D _ _ _]. cbn [app] in D. apply list.NoDup_cons in D as [D _]. by apply not_elem_of_app in D as [_ D]. }
  rewrite foot_mid in Hf. apply not_elem_of_app in Hf as [Hf _].
  assert (n_at n <> new) as Hne by (intros E; rewrite E in Hi; done).
  destruct (nodes_put h0 h (new :: ex) l1 n l2 (n_at n) (BInfo (with_next new (n_ai n))) O Hi N1 N2) as [N1' N2']. split.
  - rewrite foot_mid in O. apply (owns_put _ _ _ (n_at n) (BInfo (with_next new (n_ai n)))) in O; [|rewrite !elem_of_app; auto].
    revert O. apply owns_perm. rewrite foot_mid. rewrite foot_mid. unfold cells at 2. cbn [n_at n_ai n_sa n_canon cell app].
    change (cells (mk_node (n_at n) (with_next new (n_ai n)) (n_sa n) (n_canon n))) with (cells n). solve_Permutation.
  - apply Forall_app. split; [done|]. constructor; [|constructor; [|done]].
    + destruct O as [D _ _ _]. rewrite foot_mid in D. apply list.NoDup_app in D as (_ & _ & D). apply list.NoDup_app in D as (D & _ & _).
      destruct Hn as [A S K]. unfold cells in D. apply list.NoDup_cons in D as [D _].
      split; cbn [n_at n_ai n_sa n_canon with_next]; [by rewrite lookup_insert_eq|..];
        (apply (holds_frame h); [done|]; intros a; rewrite cell_fmap; intros Hin; apply lookup_insert_ne; intros <-; apply D; rewrite elem_of_app; auto).
    + split; cbn [n_at n_ai n_sa n_canon]; [by rewrite lookup_insert_ne|done..].
  - apply links_app in L as (m & L1 & L2 & L3). apply links_app. exists m. split; [done|]. split; [done|]. cbn [n_ai n_at ai_next with_next links].
    split; [done|]. by rewrite Hx.
Qed.

(** Allocation. *)
Lemma chain_alloc h0 h ex p l b : chain h0 h ex p l -> chain h0 (<[new_addr h := b]> h) (new_addr h :: ex) p l /\ new_addr h <> NULL.
Proof.
  intros [O N L]. destruct (owns_fresh h0 h _ b O) as (Hi & Hn & O'). split; [|done]. split; [done| |done].
  eapply nodes_frame; [done|]. intros a Ha. apply lookup_insert_ne. intros <-. apply Hi, elem_of_app. by right.
Qed.

(** A write to a block held on the side. *)
Lemma chain_side h0 h ex p l a b : chain h0 h ex p l -> a ∈ ex -> chain h0 (<[a := b]> h) ex p l.
Proof.
  intros [O N L] Ha. split; [apply owns_put; [apply elem_of_app; by left|done]| |done].
  eapply nodes_frame; [done|]. intros c Hc. apply lookup_insert_ne. intros <-. destruct O as [D _ _ _].
  apply list.NoDup_app in D as (_ & D & _). by eapply D.
Qed.
End nodes.
