(* ===== verification/GaiLists.v ===== *)
(** What the list operations of [libgai] do: [ga_aistruct] adds one
    structure at the end, [ga_port] is a map over the list that copies each
    structure whose socket type is open, [freeaddrinfo] gives every block
    back, whatever [malloc] answers. *)
From Stdlib Require Import ZArith Lia.
From stdpp Require Import base list strings gmap numbers.
From S2P Require Import Prelude CString CFile Dll Inet4 Inet6 Gai GaiHeap.
Local Open Scope c_scope.

(** * The lists the code makes *)

(** The structure for an address; its socket type is open when the caller
    gave none. *)
Definition new_sa (family : Z) (address : bytes) : sockaddr :=
  if family =? AF_INET then mk_sa sizeof_in AF_INET 0 (take 4 address) 0 0
  else if family =? AF_INET6 then mk_sa sizeof_in6 AF_INET6 0 (take 16 address) 0 0
  else mk_sa (2 + Z.of_nat (length address)) AF_LOCAL 0 address 0 0.
Definition new_len (family : Z) : Z :=
  if family =? AF_INET then sizeof_in else if family =? AF_INET6 then sizeof_in6 else sizeof_un.
Definition new_ent (h : hint) (address : bytes) (family : Z) : ent :=
  mk_ent (if h_socktype h =? 0 then AI_CLONE else 0) family (h_socktype h) (h_protocol h) (new_len family)
    (Some (new_sa family address)) None.

Definition ent_socktype (v : Z) (e : ent) : ent :=
  mk_ent (e_flags e) (e_family e) v (e_protocol e) (e_addrlen e) (e_sa e) (e_canon e).
Definition ent_port (v : Z) (e : ent) : ent :=
  mk_ent (e_flags e) (e_family e) (e_socktype e) (e_protocol e) (e_addrlen e) (with_port v <$> e_sa e) (e_canon e).
Definition ent_clone (e : ent) : ent :=
  mk_ent 0 (e_family e) (e_socktype e) (e_protocol e) (e_addrlen e) (e_sa e) None.
(** One pass of [ga_port] over one structure, and how many ports it sets. *)
Definition port_one (port st : Z) (e : ent) : list ent :=
  if has_flag (e_flags e) AI_CLONE then
    if negb (e_socktype e =? 0) then [e; ent_port port (ent_socktype st (ent_clone e))]
    else [ent_port port (ent_socktype st e)]
  else if negb (e_socktype e =? st) then [e]
  else [ent_port port (ent_socktype st e)].
Definition port_hits (st : Z) (e : ent) : Z :=
  if has_flag (e_flags e) AI_CLONE then 1 else if e_socktype e =? st then 1 else 0.
Definition port_all (port st : Z) (l : list ent) : list ent := mjoin (port_one port st <$> l).
Definition hits (st : Z) (l : list ent) : Z := foldr (fun e k => port_hits st e + k) 0 l.

(** * Single writes *)

(** The state of [getaddrinfo]'s list between calls. *)
Record good (h0 : gmap addr blk) (ex : list addr) (s : gst) (l : list node) : Prop := {
  gd_chain : chain h0 (g_heap s) ex (g_head s) l;
  gd_tail : g_tail s = last_at l }.

Definition set_ai (f : addrinfo -> addrinfo) (n : node) : node := mk_node (n_at n) (f (n_ai n)) (n_sa n) (n_canon n).
Definition keeps (f : addrinfo -> addrinfo) (x : addrinfo) : Prop :=
  ai_addr (f x) = ai_addr x /\ ai_canonname (f x) = ai_canonname x /\ ai_next (f x) = ai_next x.

(** A step that touches the heap and the supply of memory only. *)
Definition heap_step (s s' : gst) : Prop :=
  g_head s' = g_head s /\ g_tail s' = g_tail s /\ g_canon s' = g_canon s /\ g_unlinked s' = g_unlinked s /\
  (g_malloc s = [] -> g_malloc s' = []).

Section writes.
Implicit Types (s : gst) (n : node) (l : list node) (ex : list addr) (a p : addr) (e : ent).

Lemma heap_step_refl s : heap_step s s.
Proof. done. Qed.
Lemma heap_step_trans s1 s2 s3 : heap_step s1 s2 -> heap_step s2 s3 -> heap_step s1 s3.
Proof. unfold heap_step. naive_solver congruence. Qed.
Lemma heap_step_heap v s : heap_step s (set_heap v s).
Proof. done. Qed.

Lemma last_at_snoc l n : last_at (l ++ [n]) = n_at n.
Proof. unfold last_at. by rewrite last_snoc. Qed.

Lemma load_ai_run s n : node_ok (g_heap s) n -> load_ai (n_at n) s = Ret (n_ai n) s.
Proof. intros [E _ _]. unfold load_ai. by rewrite E. Qed.

Lemma update_ai_run s n f : node_ok (g_heap s) n ->
  update_ai (n_at n) f s = Ret tt (set_heap (<[n_at n := BInfo (f (n_ai n))]> (g_heap s)) s).
Proof. intros H. unfold update_ai. rewrite (bind_run _ _ _ _ _ (load_ai_run s n H)). done. Qed.

Lemma chain_node h0 h ex p l1 n l2 : chain h0 h ex p (l1 ++ n :: l2) -> node_ok h n.
Proof. intros [_ N _]. apply Forall_app in N as [_ N]. by apply list.Forall_cons in N as [? _]. Qed.

(** The blocks of a node are different. *)
Lemma chain_cells h0 h ex p l1 n l2 : chain h0 h ex p (l1 ++ n :: l2) -> NoDup (cells n).
Proof.
  intros [[D _ _ _] _ _]. rewrite foot_mid in D. apply list.NoDup_app in D as (_ & _ & D). by apply list.NoDup_app in D as (D & _ & _).
Qed.

Lemma node_ok_set h n f : node_ok h n -> NoDup (cells n) -> keeps f (n_ai n) -> node_ok (<[n_at n := BInfo (f (n_ai n))]> h) (set_ai f n).
Proof.
  intros [A S C] D K. destruct K as (K1 & K2 & _). unfold cells in D. apply list.NoDup_cons in D as [D _].
  split; cbn [n_at n_ai n_sa n_canon set_ai]; [by rewrite lookup_insert_eq|rewrite K1|rewrite K2];
    (apply (holds_frame h); [done|]; intros a; rewrite cell_fmap; intros Ha; apply lookup_insert_ne; intros <-; apply D; rewrite elem_of_app; auto).
Qed.

Lemma cells_set n f : keeps f (n_ai n) -> cells (set_ai f n) = cells n.
Proof. intros K. destruct K as (K1 & K2 & _). unfold cells. cbn [n_at n_ai n_sa n_canon set_ai]. by rewrite K1, K2. Qed.

Lemma chain_update h0 h ex p l1 n l2 f : chain h0 h ex p (l1 ++ n :: l2) -> keeps f (n_ai n) ->
  chain h0 (<[n_at n := BInfo (f (n_ai n))]> h) ex p (l1 ++ set_ai f n :: l2).
Proof.
  intros C K. apply (chain_set h0 h [] ex p l1 n); [done|done|apply K|by rewrite cells_set|by left|].
  apply node_ok_set; [by eapply chain_node|by eapply chain_cells|done].
Qed.

(** The same for the last node of the list being built. *)
Lemma good_update h0 ex s l n f : good h0 ex s (l ++ [n]) -> keeps f (n_ai n) -> exists s',
  update_ai (n_at n) f s = Ret tt s' /\ good h0 ex s' (l ++ [set_ai f n]) /\ heap_step s s'.
Proof.
  intros [C T] K. eexists. split; [apply update_ai_run; by eapply chain_node|]. split; [|done]. split; [by apply chain_update|].
  cbn [g_tail set_heap]. rewrite T, !last_at_snoc. done.
Qed.

(** Memory is given out, or not. *)
Lemma alloc_run s b : exists s', heap_step s s' /\
  ((alloc b s = Ret NULL s' /\ g_heap s' = g_heap s /\ g_malloc s <> []) \/
   (alloc b s = Ret (new_addr (g_heap s)) s' /\ g_heap s' = <[new_addr (g_heap s) := b]> (g_heap s))).
Proof.
  unfold alloc. destruct (g_malloc s) as [|[|] m] eqn:E.
  - eexists. split; [|by right]. done.
  - eexists. split; [|by right]. split; [done|]. rewrite E. done.
  - eexists. split; [|by left]. split; [done|]. rewrite E. done.
Qed.

Lemma good_step h0 ex s s' l : good h0 ex s l -> heap_step s s' -> g_heap s' = g_heap s -> good h0 ex s' l.
Proof. intros [C T] (E1 & E2 & _) Eh. split; [by rewrite Eh, E1|by rewrite E2]. Qed.
End writes.

(** * [ga_aistruct] *)
Section aistruct.
Implicit Types (s : gst) (n : node) (l : list node) (ex : list addr) (a p : addr) (e : ent).

(** Linking a cleared structure at the end. *)
Lemma link_run h0 ex s l a : good h0 (a :: ex) s l -> a <> NULL -> g_heap s !! a = Some (BInfo zero_ai) ->
  exists s' l', link_ai a s = Ret tt s' /\ good h0 ex s' (l' ++ [mk_node a zero_ai None None]) /\
    ent_of <$> l' = ent_of <$> l /\ g_canon s' = g_canon s /\ g_malloc s' = g_malloc s.
Proof.
  intros [C T] Ha Hz. unfold link_ai. rewrite bind_gets, T. destruct l as [|n l _] using rev_ind.
  - exists (set_tail a (set_head a s)), []. split; [done|]. split; [|done]. split; [|done].
    destruct C as [O N L]. split; [|constructor; [by split|done]|done].
    revert O. apply owns_perm. unfold foot, cells. cbn. solve_Permutation.
  - rewrite last_at_snoc. assert (n_at n <> NULL) as Hn.
    { intros E. destruct C as [[_ U _ _] _ _]. rewrite foot_mid in U. apply U. rewrite <-E, !elem_of_app. right. left. by left. }
    destruct (Z.eqb_spec (n_at n) NULL); [done|]. rewrite (bind_run _ _ _ _ _ (update_ai_run s n (with_next a) (chain_node _ _ _ _ _ _ _ C))).
    assert (ai_next (n_ai n) = NULL) as En.
    { destruct C as [_ _ L]. apply links_app in L as (m & _ & _ & L). done. }
    eexists _, (l ++ [_]). split; [done|]. split.
    + split; [|by rewrite last_at_snoc]. rewrite <-app_assoc. cbn [app]. eapply (chain_insert _ _ _ _ l n []); [exact C|done|done|done|done].
    + rewrite !fmap_app. done.
Qed.

(** Giving a structure its socket address. *)
Lemma attach_chain {A} h0 ex p s l1 n l2 (sa : sockaddr) (len : Z) (bad : A) (f : addr -> addrinfo -> addrinfo) (k : M gst A) :
  chain h0 (g_heap s) ex p (l1 ++ n :: l2) -> n_sa n = None -> (forall q, f q (n_ai n) = with_addr q len (n_ai n)) ->
  exists (rc : bool) s' (nd : node), (let* q := alloc (BSock sa) in if q =? NULL then ret bad else update_ai (n_at n) (f q);;; k) s = 
      (if rc then k s' else Ret bad s') /\ chain h0 (g_heap s') ex p (l1 ++ nd :: l2) /\ n_at nd = n_at n /\ heap_step s s' /\
    (rc = false -> g_malloc s <> []) /\
    (rc = true -> let x := n_ai n in ent_of nd = mk_ent (ai_flags x) (ai_family x) (ai_socktype x) (ai_protocol x) len (Some sa) (n_canon n)).
Proof.
  intros C Hn Hf. destruct (alloc_run s (BSock sa)) as (s1 & St & [(E & Eh & Hm)|(E & Eh)]).
  - exists false, s1, n. rewrite (bind_run _ _ _ _ _ E). split; [done|]. split; [by rewrite Eh|]. by split.
  - destruct (chain_alloc _ _ _ _ _ (BSock sa) C) as [C1 Hne]. set (q := new_addr (g_heap s)) in *.
    rewrite (bind_run _ _ _ _ _ E). destruct (Z.eqb_spec q NULL); [done|]. rewrite <-Eh in C1.
    pose proof (chain_node _ _ _ _ _ _ _ C1) as Nn. pose proof (chain_cells _ _ _ _ _ _ _ C1) as Dn.
    rewrite (bind_run _ _ _ _ _ (update_ai_run s1 n (f q) Nn)), Hf.
    set (n' := mk_node (n_at n) (with_addr q len (n_ai n)) (Some sa) (n_canon n)).
    eexists true, _, n'. split; [done|]. split; [|split; [done|]].
    + cbn [g_heap set_heap]. apply (chain_set h0 (g_heap s1) [q] ex _ l1 n n'); try done.
      * unfold cells, n'. cbn [n_at n_ai n_sa n_canon ai_addr ai_canonname with_addr cell]. rewrite Hn. cbn [cell app]. solve_Permutation.
      * by left.
      * destruct Nn as [A0 S0 K].
        assert (n_at n <> q) as Hp.
        { intros Ep. destruct C1 as [[D _ _ _] _ _]. cbn [app] in D. apply list.NoDup_cons in D as [D _]. apply D. rewrite <-Ep, foot_mid, !elem_of_app. right. left. by left. }
        split; cbn [n_at n_ai n_sa n_canon with_addr n' ai_addr ai_canonname fmap option_fmap option_map holds].
        -- by rewrite lookup_insert_eq.
        -- rewrite lookup_insert_ne by done. by rewrite Eh, lookup_insert_eq.
        -- apply (holds_frame (g_heap s1)); [done|]. intros a. rewrite cell_fmap. intros Ha. apply lookup_insert_ne. intros <-.
           unfold cells in Dn. apply list.NoDup_cons in Dn as [Dn _]. apply Dn. rewrite elem_of_app. auto.
    + split; [by eapply heap_step_trans; [exact St|apply heap_step_heap]|]. done.
Qed.

Lemma attach_run h0 ex s l n (sa : sockaddr) (len : Z) (k : M gst Z) :
  good h0 ex s (l ++ [n]) -> n_sa n = None ->
  exists (rc : bool) s' (nd : node), (let* p := alloc (BSock sa) in if p =? NULL then ret EAI_MEMORY else update_ai (n_at n) (with_addr p len);;; k) s = 
      (if rc then k s' else Ret EAI_MEMORY s') /\ good h0 ex s' (l ++ [nd]) /\ heap_step s s' /\ (rc = false -> g_malloc s <> []) /\
    (rc = true -> let x := n_ai n in ent_of nd = mk_ent (ai_flags x) (ai_family x) (ai_socktype x) (ai_protocol x) len (Some sa) (n_canon n)).
Proof.
  intros [C T] Hn. destruct (attach_chain h0 ex _ s l n [] sa len EAI_MEMORY (fun q => with_addr q len) k C Hn) as (rc & s' & nd & E & C' & En & St & R); [done|].
  exists rc, s', nd. split; [exact E|]. split; [|done]. pose proof St as (H1 & H2 & _). split; [by rewrite H1|].
  rewrite H2, T, !last_at_snoc. done.
Qed.

(** An address a structure can be made for. *)
Definition addr_fits (family : Z) (address : bytes) : Prop :=
  (family = AF_INET /\ (4 <= length address)%nat) \/ (family = AF_INET6 /\ (16 <= length address)%nat).

(** The structure before it has a socket address, from a cleared one. *)
Lemma gai_fill_run h0 ex s l a (h : hint) (family : Z) (k : M gst Z) :
  good h0 ex s (l ++ [mk_node a zero_ai None None]) ->
  exists s' n, (update_ai a (with_socktype (h_socktype h));;;
    (if h_socktype h =? 0 then update_ai a (fun x => with_flags (Z.lor (ai_flags x) AI_CLONE) x) else skip);;;
    update_ai a (fun x => mk_ai (ai_flags x) family (ai_socktype x) (h_protocol h) (ai_addrlen x) (ai_canonname x) (ai_addr x) (ai_next x));;; k) s = k s' /\
  good h0 ex s' (l ++ [n]) /\ heap_step s s' /\ n_at n = a /\
  ent_of n = mk_ent (if h_socktype h =? 0 then AI_CLONE else 0) family (h_socktype h) (h_protocol h) 0 None None.
Proof.
  intros G. destruct (good_update _ _ _ _ _ (with_socktype (h_socktype h)) G) as (s1 & E1 & G1 & T1); [done|]. cbn [n_at] in E1.
  rewrite (bind_run _ _ _ _ _ E1).
  assert (exists s2 n, (if h_socktype h =? 0 then update_ai a (fun x => with_flags (Z.lor (ai_flags x) AI_CLONE) x) else skip) s1 = Ret tt s2 /\
    good h0 ex s2 (l ++ [n]) /\ heap_step s1 s2 /\ n_at n = a /\
    ent_of n = mk_ent (if h_socktype h =? 0 then AI_CLONE else 0) 0 (h_socktype h) 0 0 None None) as (s2 & n & E2 & G2 & T2 & En & V2).
  { destruct (h_socktype h =? 0).
    - destruct (good_update _ _ _ _ _ (fun x => with_flags (Z.lor (ai_flags x) AI_CLONE) x) G1) as (s2 & E2 & G2 & T2); [done|].
      eexists s2, _. split; [exact E2|]. split; [exact G2|]. done.
    - eexists s1, _. split; [done|]. split; [exact G1|]. done. }
  rewrite (bind_run _ _ _ _ _ E2).
  destruct (good_update _ _ _ _ _ (fun x => mk_ai (ai_flags x) family (ai_socktype x) (h_protocol h) (ai_addrlen x) (ai_canonname x) (ai_addr x) (ai_next x)) G2) as (s3 & E3 & G3 & T3); [done|].
  rewrite En in E3. rewrite (bind_run _ _ _ _ _ E3). eexists s3, _. split; [done|]. split; [exact G3|].
  split; [eapply heap_step_trans; [exact T1|]; by eapply heap_step_trans|]. split; [done|].
  destruct n as [? x ? ?]. unfold ent_of in *. cbn in *. by inversion V2; subst.
Qed.

(** [ga_aistruct] adds the structure for the address at the end of the
    list; it can only fail for want of memory. *)
Lemma ga_aistruct_run h0 ex s l (h : hint) (address : bytes) (family : Z) :
  good h0 ex s l -> addr_fits family address ->
  exists rc s' l', ga_aistruct h address family s = Ret rc s' /\ good h0 ex s' l' /\ g_canon s' = g_canon s /\
    (g_malloc s = [] -> g_malloc s' = []) /\
    ((rc = 0 /\ ent_of <$> l' = (ent_of <$> l) ++ [new_ent h address family]) \/ (rc = EAI_MEMORY /\ g_malloc s <> [])).
Proof.
  intros G Hf. unfold ga_aistruct. destruct (alloc_run s (BInfo zero_ai)) as (s1 & T1 & [(E1 & Eh & Hm)|(E1 & Eh)]); rewrite (bind_run _ _ _ _ _ E1).
  { exists EAI_MEMORY, s1, l. split; [done|]. split; [by eapply good_step|]. destruct T1 as (_ & _ & ? & _ & ?). auto. }
  destruct G as [C T]. destruct (chain_alloc _ _ _ _ _ (BInfo zero_ai) C) as [C1 Hne]. set (a := new_addr (g_heap s)) in *.
  destruct (Z.eqb_spec a NULL) as [|_]; [done|]. rewrite <-Eh in C1.
  assert (g_heap s1 !! a = Some (BInfo zero_ai)) as Ez by (by rewrite Eh, lookup_insert_eq).
  assert (update_ai a (fun x => with_canon NULL (with_next NULL x)) s1 = Ret tt s1) as E2.
  { unfold update_ai, load_ai. unfold bind at 1. rewrite Ez. cbn. unfold put_blk, modify. f_equal.
    destruct s1; unfold set_heap; cbn in *. f_equal. by apply insert_id. }
  rewrite (bind_run _ _ _ _ _ E2). destruct T1 as (H1 & H2 & H3 & H4 & H5).
  assert (good h0 (a :: ex) s1 l) as G1 by (split; [by rewrite H1|by rewrite H2]).
  destruct (link_run _ _ _ _ _ G1 Hne Ez) as (s2 & l2 & E3 & G2 & V2 & Hc2 & Hm2). rewrite (bind_run _ _ _ _ _ E3).
  destruct (gai_fill_run h0 ex s2 l2 a h family
    (if family =? AF_INET then
      let* p := alloc (BSock (mk_sa sizeof_in AF_INET 0 (take 4 address) 0 0)) in
      if p =? NULL then ret EAI_MEMORY
      else if (length address <? 4)%nat then undef "read past the address"
      else update_ai a (with_addr p sizeof_in);;; ret 0
    else if family =? AF_INET6 then
      let* p := alloc (BSock (mk_sa sizeof_in6 AF_INET6 0 (take 16 address) 0 0)) in
      if p =? NULL then ret EAI_MEMORY
      else if (length address <? 16)%nat then undef "read past the address"
      else update_ai a (with_addr p sizeof_in6);;; ret 0
    else if family =? AF_LOCAL then
      if (SUN_PATH <=? length address)%nat then ret EAI_SERVICE
      else
        let* p := alloc (BSock (mk_sa (2 + Z.of_nat (length address)) AF_LOCAL 0 address 0 0)) in
        if p =? NULL then ret EAI_MEMORY
        else
          update_ai a (with_addr p sizeof_un);;;
          (if has_flag (h_flags h) AI_PASSIVE then modify (fun s => set_unlinked (g_unlinked s ++ [address]) s) else skip);;;
          ret 0
    else ret 0) G2) as (s3 & n & -> & G3 & T3 & En & Vn).
  assert (forall sa len (m : M gst Z), new_sa family address = sa -> new_len family = len ->
    m = (let* p := alloc (BSock sa) in if p =? NULL then ret EAI_MEMORY else update_ai (n_at n) (with_addr p len);;; ret 0) ->
    exists rc s' l', m s3 = Ret rc s' /\ good h0 ex s' l' /\ g_canon s' = g_canon s /\
    (g_malloc s = [] -> g_malloc s' = []) /\
    ((rc = 0 /\ ent_of <$> l' = (ent_of <$> l) ++ [new_ent h address family]) \/ (rc = EAI_MEMORY /\ g_malloc s <> []))) as Fin.
  { intros sa len m Es El ->. assert (n_sa n = None) as Hsa by (by inversion Vn).
    destruct (attach_run h0 ex s3 l2 n sa len (ret 0) G3 Hsa) as (rc & s4 & n4 & E4 & G4 & T4 & Bad & Ok).
    destruct T3 as (_ & _ & K3 & _ & M3). destruct T4 as (_ & _ & K4 & _ & M4).
    assert (g_malloc s = [] -> g_malloc s3 = []) as M by (intros; apply M3; rewrite Hm2; auto).
    exists (if rc then 0 else EAI_MEMORY), s4, (l2 ++ [n4]). split; [by destruct rc|]. split; [done|]. split; [congruence|]. split; [auto|].
    destruct rc; [left|right; split; [done|]; intros Hs; by apply Bad, M]. split; [done|]. rewrite fmap_app, V2. f_equal. cbn [fmap list_fmap]. f_equal.
    rewrite Ok by done. unfold new_ent. rewrite Es, El. unfold ent_of in Vn. by inversion Vn. }
  rewrite En in Fin. destruct Hf as [[-> Hl]|[-> Hl]]; [destruct (Nat.ltb_spec (length address) 4)|destruct (Nat.ltb_spec (length address) 16)];
    try lia; by eapply Fin.
Qed.
End aistruct.

(** * [ga_port] *)
Section port.
Implicit Types (s : gst) (n : node) (l : list node) (ex : list addr) (a p : addr) (e : ent).

Lemma load_sa_run s n (sa : sockaddr) : node_ok (g_heap s) n -> n_sa n = Some sa -> load_sa (ai_addr (n_ai n)) s = Ret sa s.
Proof. intros [_ S _] E. rewrite E in S. cbn in S. unfold load_sa. by rewrite S. Qed.

Lemma ga_clone_run h0 ex p s l1 n l2 (sa : sockaddr) : chain h0 (g_heap s) ex p (l1 ++ n :: l2) -> n_sa n = Some sa ->
  exists r s', ga_clone (n_at n) s = Ret r s' /\ heap_step s s' /\
    ((r = NULL /\ g_malloc s <> [] /\ exists l', chain h0 (g_heap s') ex p l') \/
     (r <> NULL /\ exists n' c, chain h0 (g_heap s') ex p (l1 ++ n' :: c :: l2) /\ n_at n' = n_at n /\ n_at c = r /\
        ent_of n' = ent_of n /\ ent_of c = ent_clone (ent_of n))).
Proof.
  intros C Hsa. unfold ga_clone. destruct (alloc_run s (BInfo zero_ai)) as (s1 & T1 & [(E1 & Eh & Hm)|(E1 & Eh)]); rewrite (bind_run _ _ _ _ _ E1).
  { exists NULL, s1. split; [done|]. split; [done|]. left. split; [done|]. split; [done|]. exists (l1 ++ n :: l2). by rewrite Eh. }
  destruct (chain_alloc _ _ _ _ _ (BInfo zero_ai) C) as [C1 Hne]. set (new := new_addr (g_heap s)) in *.
  destruct (Z.eqb_spec new NULL) as [|_]; [done|]. rewrite <-Eh in C1.
  rewrite (bind_run _ _ _ _ _ (load_ai_run s1 n (chain_node _ _ _ _ _ _ _ C1))). set (x := n_ai n) in *.
  assert (g_heap s1 !! new = Some (BInfo zero_ai)) as Ez by (by rewrite Eh, lookup_insert_eq).
  assert (update_ai new (with_next (ai_next x)) s1 = Ret tt (set_heap (<[new := BInfo (with_next (ai_next x) zero_ai)]> (g_heap s1)) s1)) as E2.
  { unfold update_ai, load_ai. unfold bind at 1. by rewrite Ez. }
  rewrite (bind_run _ _ _ _ _ E2). set (s2 := set_heap _ s1).
  assert (chain h0 (g_heap s2) (new :: ex) p (l1 ++ n :: l2)) as C2 by (apply chain_side; [done|by left]).
  rewrite (bind_run _ _ _ _ _ (update_ai_run s2 n (with_next new) (chain_node _ _ _ _ _ _ _ C2))). set (s3 := set_heap _ s2).
  assert (chain h0 (g_heap s3) ex p ((l1 ++ [mk_node (n_at n) (with_next new x) (n_sa n) (n_canon n)]) ++
      mk_node new (with_next (ai_next x) zero_ai) None None :: l2)) as C3.
  { rewrite <-app_assoc. cbn [app]. apply chain_insert; [done| |done..]. cbn [g_heap s2 set_heap]. by rewrite lookup_insert_eq. }
  set (c0 := mk_node new (with_next (ai_next x) zero_ai) None None) in *. set (n' := mk_node (n_at n) (with_next new x) (n_sa n) (n_canon n)) in *.
  set (f := fun (y : addrinfo) => mk_ai 0 (ai_family x) (ai_socktype x) (ai_protocol x) (ai_addrlen x) NULL (ai_addr y) (ai_next y)).
  pose proof (update_ai_run s3 c0 f (chain_node _ _ _ _ _ _ _ C3)) as E4. cbn [n_at c0] in E4. rewrite (bind_run _ _ _ _ _ E4). set (s4 := set_heap _ s3).
  assert (chain h0 (g_heap s4) ex p ((l1 ++ [n']) ++ set_ai f c0 :: l2)) as C4 by (by apply chain_update).
  assert (load_sa (ai_addr x) s4 = Ret sa s4) as E5.
  { apply (load_sa_run s4 n' sa); [|done]. rewrite <-app_assoc in C4. by eapply chain_node. }
  rewrite (bind_run _ _ _ _ _ E5).
  destruct (attach_chain h0 ex p s4 (l1 ++ [n']) (set_ai f c0) l2 sa (ai_addrlen x) NULL (fun q (y : addrinfo) => with_addr q (ai_addrlen y) y) (ret new)) as (rc & s5 & c & E6 & C6 & Ec & T6 & Bad & Ok); [done..|].
  cbn [n_at set_ai c0] in E6. exists (if rc then new else NULL), s5. split; [rewrite E6; by destruct rc|].
  split; [by eapply heap_step_trans|]. destruct rc.
  - right. split; [done|]. exists n', c. split; [by rewrite <-app_assoc in C6|]. split; [done|]. split; [done|]. split; [done|].
    rewrite Ok by done. unfold ent_clone, ent_of. cbn. by rewrite Hsa.
  - left. split; [done|]. split; [|eauto]. intros Hs. apply (Bad eq_refl). cbn [g_malloc s4 s3 s2 set_heap]. by apply T1.
Qed.

(** Structures with an internet address, which [ga_port] can set. *)
Definition ip_ent e : Prop := (e_family e = AF_INET \/ e_family e = AF_INET6) /\ is_Some (e_sa e).

Lemma set_port_run h0 ex p s l1 n l2 (port st : Z) : chain h0 (g_heap s) ex p (l1 ++ n :: l2) -> ip_ent (ent_of n) ->
  exists s' n', set_port (n_at n) port st s = Ret 1 s' /\ heap_step s s' /\ chain h0 (g_heap s') ex p (l1 ++ n' :: l2) /\
    n_at n' = n_at n /\ ent_of n' = ent_port port (ent_socktype st (ent_of n)) /\ ai_next (n_ai n') = ai_next (n_ai n).
Proof.
  intros C [Hf [sa Hsa]]. cbn [e_family e_sa ent_of] in Hf, Hsa. unfold set_port.
  rewrite (bind_run _ _ _ _ _ (update_ai_run s n (with_socktype st) (chain_node _ _ _ _ _ _ _ C))). set (s1 := set_heap _ s).
  assert (chain h0 (g_heap s1) ex p (l1 ++ set_ai (with_socktype st) n :: l2)) as C1 by (by apply chain_update).
  set (n1 := set_ai (with_socktype st) n) in *. pose proof (chain_node _ _ _ _ _ _ _ C1) as N1.
  pose proof (load_ai_run s1 n1 N1) as E2. cbn [n_at n1 set_ai] in E2. rewrite (bind_run _ _ _ _ _ E2). cbn [ai_family with_socktype n_ai n1 set_ai].
  assert ((ai_family (n_ai n) =? AF_INET) || (ai_family (n_ai n) =? AF_INET6) = true) as -> by (destruct Hf as [-> | ->]; done).
  unfold update_sa. rewrite bind_assoc.
  pose proof (load_sa_run s1 n1 sa N1 Hsa) as E3. cbn [n_ai n1 set_ai] in E3. rewrite (bind_run _ _ _ _ _ E3). unfold put_blk. rewrite bind_modify.
  set (n2 := mk_node (n_at n) (with_socktype st (n_ai n)) (Some (with_port port sa)) (n_canon n)).
  eexists _, n2. split; [done|]. split; [done|]. split; [|split; [done|split; [|done]]].
  - cbn [g_heap set_heap]. apply (chain_set h0 (g_heap s1) [] ex p l1 n1 n2); try done.
    + unfold cells, n2. cbn [n_at n_ai n_sa n_canon n1 set_ai app]. by rewrite Hsa.
    + unfold cells. cbn [n_at n_ai n_sa n_canon n1 set_ai]. rewrite Hsa. right. by left.
    + pose proof (chain_cells _ _ _ _ _ _ _ C1) as D. unfold cells in D. cbn [n_at n_ai n_sa n_canon n1 set_ai] in D. rewrite Hsa in D. cbn [cell app] in D.
      apply list.NoDup_cons in D as [D1 D]. apply list.NoDup_cons in D as [D2 _]. destruct N1 as [A S K].
      split; cbn [n_at n_ai n_sa n_canon n2].
      * rewrite lookup_insert_ne; [exact A|]. intros E. apply D1. rewrite <-E. by left.
      * cbn. by rewrite lookup_insert_eq.
      * apply (holds_frame (g_heap s1)); [exact K|]. intros a. rewrite cell_fmap. intros Ha. apply lookup_insert_ne. intros <-. apply D2. exact Ha.
  - unfold ent_of. cbn. by rewrite Hsa.
Qed.

(** The address a chain starts at. *)
Definition front l : addr := match l with [] => NULL | n :: _ => n_at n end.

Lemma chain_next h0 h ex p l1 n l2 : chain h0 h ex p (l1 ++ n :: l2) -> ai_next (n_ai n) = front l2.
Proof. intros [_ _ L]. apply links_app in L as (m & _ & _ & L). destruct l2; [done|]. by destruct L. Qed.

Lemma chain_not_null h0 h ex p l1 n l2 : chain h0 h ex p (l1 ++ n :: l2) -> n_at n <> NULL.
Proof. intros [[_ U _ _] _ _] E. rewrite foot_mid in U. apply U. rewrite <-E, !elem_of_app. right. left. by left. Qed.

Lemma chain_front h0 h ex p l : chain h0 h ex p l -> p = front l.
Proof. intros [_ _ L]. destruct l; [done|]. by destruct L. Qed.

(** The result of a pass over [l2], after [l1] and counting from [k]. *)
Definition port_post h0 ex p l1 (es : list ent) (k : Z) s (r : Z) s' : Prop :=
  heap_step s s' /\
  ((r = -1 /\ g_malloc s <> [] /\ exists l', chain h0 (g_heap s') ex p l') \/
   (exists l', chain h0 (g_heap s') ex p (l1 ++ l') /\ ent_of <$> l' = es /\ r = k)).

Lemma port_post_step h0 ex p l1 l1' es es' k s s1 r s' : port_post h0 ex p (l1 ++ l1') es' k s1 r s' ->
  heap_step s s1 -> es = (ent_of <$> l1') ++ es' -> port_post h0 ex p l1 es k s r s'.
Proof.
  intros [T [(E & M & l' & C)|(l' & C & V & R)]] T1 ->; (split; [by eapply heap_step_trans|]).
  - left. split; [done|]. split; [|eauto]. intros Hs. apply M. by apply T1.
  - right. exists (l1' ++ l'). rewrite <-app_assoc in C. split; [done|]. by rewrite fmap_app, V.
Qed.

Lemma ga_port_loop_run h0 ex p (port st : Z) fuel : forall l2 l1 s (k : Z), chain h0 (g_heap s) ex p (l1 ++ l2) ->
  Forall (fun n => ip_ent (ent_of n)) l2 -> (length l2 <= fuel)%nat ->
  exists r s', ga_port_loop fuel (front l2) port st k s = Ret r s' /\
    port_post h0 ex p l1 (port_all port st (ent_of <$> l2)) (k + hits st (ent_of <$> l2)) s r s'.
Proof.
  assert (forall f l1 s (k : Z), chain h0 (g_heap s) ex p (l1 ++ []) -> exists r s', ga_port_loop f NULL port st k s = Ret r s' /\
    port_post h0 ex p l1 [] (k + 0) s r s') as Nil.
  { intros f l1 s k C. exists k, s. split; [by destruct f|]. split; [done|]. right. exists []. split; [done|]. split; [done|]. lia. }
  induction fuel as [|fuel IH]; intros l2 l1 s k C F Hl; (destruct l2 as [|n l2]; [by apply Nil|]); simpl in Hl; [lia|].
  apply list.Forall_cons in F as [Fn F]. cbn [front ga_port_loop fmap list_fmap].
  pose proof (chain_not_null _ _ _ _ _ _ _ C) as Hn. destruct (Z.eqb_spec (n_at n) NULL) as [|_]; [done|].
  assert (forall s1 pre m, chain h0 (g_heap s1) ex p (pre ++ m :: l2) -> ip_ent (ent_of m) -> exists r s',
    (let* k0 := set_port (n_at m) port st in let* y := load_ai (n_at m) in ga_port_loop fuel (ai_next y) port st (k + k0)) s1 = Ret r s' /\
    port_post h0 ex p pre (ent_port port (ent_socktype st (ent_of m)) :: port_all port st (ent_of <$> l2)) (k + (1 + hits st (ent_of <$> l2))) s1 r s') as Go.
  { intros s1 pre m C1 Fm. destruct (set_port_run _ _ _ _ _ _ _ port st C1 Fm) as (s2 & m' & E2 & T2 & C2 & Em & Vm & Nm).
    rewrite (bind_run _ _ _ _ _ E2). pose proof (load_ai_run s2 m' (chain_node _ _ _ _ _ _ _ C2)) as E3. rewrite Em in E3.
    rewrite (bind_run _ _ _ _ _ E3), (chain_next _ _ _ _ _ _ _ C2). rewrite cons_middle, app_assoc in C2.
    destruct (IH l2 (pre ++ [m']) s2 (k + 1) C2 F ltac:(lia)) as (r & s' & E & P). exists r, s'. split; [done|].
    rewrite Z.add_assoc. eapply port_post_step; [exact P|exact T2|]. cbn. by rewrite Vm. }
  rewrite (bind_run _ _ _ _ _ (load_ai_run s n (chain_node _ _ _ _ _ _ _ C))).
  unfold port_all. cbn [fmap list_fmap mjoin list_join hits foldr]. fold (port_all port st (ent_of <$> l2)). fold (hits st (ent_of <$> l2)).
  unfold port_one, port_hits. cbn [e_flags e_socktype ent_of].
  destruct (has_flag (ai_flags (n_ai n)) AI_CLONE).
  - destruct (negb (ai_socktype (n_ai n) =? 0)).
    + destruct Fn as [Hf [sa Hsa]]. destruct (ga_clone_run _ _ _ _ _ _ _ sa C Hsa) as (c & s1 & E1 & T1 & [(-> & M & l' & C')|(Hc & n' & m & C' & En & <- & V' & Vm)]);
        rewrite (bind_run _ _ _ _ _ E1).
      { exists (-1), s1. split; [done|]. split; [done|]. left. eauto. }
      destruct (Z.eqb_spec (n_at m) NULL) as [|_]; [done|]. rewrite cons_middle, app_assoc in C'.
      destruct (Go s1 (l1 ++ [n']) m C') as (r & s' & E & P).
      { rewrite Vm. split; [done|]. by exists sa. }
      exists r, s'. split; [done|]. eapply port_post_step; [exact P|done|]. cbn. by rewrite V', Vm.
    + exact (Go s l1 n C Fn).
  - destruct (ai_socktype (n_ai n) =? st); cbn [negb]; [exact (Go s l1 n C Fn)|].
    rewrite (chain_next _ _ _ _ _ _ _ C). rewrite cons_middle, app_assoc in C.
    destruct (IH l2 (l1 ++ [n]) s k C F ltac:(lia)) as (r & s' & E & P). exists r, s'. split; [done|].
    rewrite Z.add_0_l. eapply port_post_step; [exact P|done|done].
Qed.

(** The structures are in memory, so there are no more of them than blocks. *)
Lemma chain_size h0 h ex p l : chain h0 h ex p l -> (length l <= size h)%nat.
Proof.
  intros [[D _ _ _] N _]. assert (NoDup (n_at <$> l)) as Dn.
  { apply list.NoDup_app in D as (_ & _ & D). clear N. induction l as [|n l IH]; [constructor|]. cbn [fmap list_fmap].
    change (foot (n :: l)) with (cells n ++ foot l) in D. apply list.NoDup_app in D as (_ & D1 & D). apply list.NoDup_cons. split; [|by apply IH].
    intros (m & Em & Hm)%list_elem_of_fmap. apply (D1 (n_at n)); [by left|]. apply elem_of_foot. exists m. split; [done|]. rewrite Em. by left. }
  replace (length l) with (size (list_to_set (C := gset addr) (n_at <$> l))) by (by rewrite size_list_to_set, length_fmap).
  rewrite <-size_dom. apply subseteq_size. intros a. rewrite elem_of_list_to_set, list_elem_of_fmap. intros (n & -> & Hn).
  rewrite list.Forall_forall in N. destruct (N n Hn) as [E _ _]. apply elem_of_dom. eauto.
Qed.

Lemma ga_port_run h0 ex p l s (port st : Z) : chain h0 (g_heap s) ex p l -> Forall (fun n => ip_ent (ent_of n)) l ->
  exists r s', ga_port p port st s = Ret r s' /\ port_post h0 ex p [] (port_all port st (ent_of <$> l)) (hits st (ent_of <$> l)) s r s'.
Proof.
  intros C F. unfold ga_port. rewrite bind_gets.
  destruct (ga_port_loop_run h0 ex p port st (size (g_heap s)) l [] s 0 C F (chain_size _ _ _ _ _ C)) as (r & s' & E & P).
  rewrite <-(chain_front _ _ _ _ _ C) in E. by exists r, s'.
Qed.
End port.

(** * [freeaddrinfo] *)
Section freeing.
Implicit Types (s : gst) (n : node) (l : list node) (ex : list addr) (a p : addr).

Lemma free_run h0 fp s a : owns h0 (g_heap s) (a :: fp) -> free a s = Ret tt (set_heap (delete a (g_heap s)) s) /\ owns h0 (delete a (g_heap s)) fp.
Proof.
  intros O. split; [|by apply owns_delete]. destruct O as [_ _ W _]. destruct (W a) as [_ [b E]]; [by left|]. unfold free. by rewrite E.
Qed.

Lemma free_cell_run {A} h0 fp s p (o : option A) : owns h0 (g_heap s) (cell p o ++ fp) -> (o = None -> p = NULL) ->
  exists h', (if negb (p =? NULL) then free p else skip) s = Ret tt (set_heap h' s) /\ owns h0 h' fp /\
    (forall a, a ∈ fp -> h' !! a = g_heap s !! a).
Proof.
  intros O Hn. destruct o as [x|]; cbn [cell app] in O.
  - assert (p <> NULL) as Hp by (intros ->; apply (own_null _ _ _ O); by left). apply Z.eqb_neq in Hp. rewrite Hp. cbn [negb].
    destruct (free_run _ _ _ _ O) as [E O']. eexists. split; [exact E|]. split; [done|]. intros a Ha.
    apply lookup_delete_ne. intros ->. pose proof (own_nodup _ _ _ O) as D. by apply list.NoDup_cons in D as [D _].
  - rewrite Hn by done. exists (g_heap s). split; [by destruct s|]. done.
Qed.

(** The structure at the front is given back with what it owns. *)
Lemma free_node_run h0 p s n l (k : M gst unit) : chain h0 (g_heap s) [] p (n :: l) -> exists h',
  ((if negb (ai_addr (n_ai n) =? NULL) then free (ai_addr (n_ai n)) else skip);;;
   (if negb (ai_canonname (n_ai n) =? NULL) then free (ai_canonname (n_ai n)) else skip);;;
   free (n_at n);;; k) s = k (set_heap h' s) /\ chain h0 h' [] (ai_next (n_ai n)) l.
Proof.
  intros [O N L]. apply list.Forall_cons in N as [[Na Ns Nc] N]. destruct L as [_ L]. cbn [app] in O.
  change (foot (n :: l)) with (cells n ++ foot l) in O. unfold cells in O.
  assert (n_sa n = None -> ai_addr (n_ai n) = NULL) as Hs by (intros E; rewrite E in Ns; exact Ns).
  assert (n_canon n = None -> ai_canonname (n_ai n) = NULL) as Hc by (intros E; rewrite E in Nc; exact Nc).
  destruct (free_cell_run h0 (cell (ai_canonname (n_ai n)) (n_canon n) ++ n_at n :: foot l) s (ai_addr (n_ai n)) (n_sa n)) as (h1 & E1 & O1 & F1); [|done|].
  { revert O. apply owns_perm. solve_Permutation. }
  destruct (free_cell_run h0 (n_at n :: foot l) (set_heap h1 s) (ai_canonname (n_ai n)) (n_canon n)) as (h2 & E2 & O2 & F2); [exact O1|done|].
  destruct (free_run h0 (foot l) (set_heap h2 (set_heap h1 s)) (n_at n) O2) as [E3 O3].
  rewrite (bind_run _ _ _ _ _ E1), (bind_run _ _ _ _ _ E2), (bind_run _ _ _ _ _ E3). eexists. split; [done|]. split; [exact O3| |done].
  eapply nodes_frame; [exact N|]. intros a Ha. rewrite lookup_delete_ne.
  - cbn [g_heap set_heap] in *. rewrite F2 by (by right). apply F1. apply elem_of_app. right. by right.
  - intros <-. pose proof (own_nodup _ _ _ O2) as D. by apply list.NoDup_cons in D as [D _].
Qed.

Lemma free_loop_run h0 fuel : forall l p s, chain h0 (g_heap s) [] p l -> (length l <= fuel)%nat -> free_loop fuel p s = Ret tt (set_heap h0 s).
Proof.
  induction fuel as [|fuel IH]; intros l p s C Hl; destruct l as [|n l]; cbn [length] in Hl; try lia.
  1, 2: (destruct C as [O _ L]; cbn in L; subst p; apply owns_nil in O; simpl; rewrite <-O; by destruct s).
  pose proof (chain_front _ _ _ _ _ C) as ->. cbn [front free_loop]. pose proof (chain_not_null _ _ _ _ [] _ _ C) as Hn.
  apply Z.eqb_neq in Hn. rewrite Hn. rewrite (bind_run _ _ _ _ _ (load_ai_run s n (chain_node _ _ _ _ [] _ _ C))).
  destruct (free_node_run _ _ _ _ _ (free_loop fuel (ai_next (n_ai n))) C) as (h' & E & C'). rewrite E. by rewrite (IH l) by (done || lia).
Qed.

Lemma freeaddrinfo_run h0 l p s : chain h0 (g_heap s) [] p l -> freeaddrinfo p s = Ret tt (set_heap h0 s).
Proof. intros C. unfold freeaddrinfo. rewrite bind_gets. apply (free_loop_run h0 _ l); [done|]. by eapply chain_size. Qed.
End freeing.
