(* ===== verification/GaiSpec.v ===== *)
(** What [getaddrinfo] is for: the list of structures it promises, as a
    function of the arguments, the resolver and the services database on
    plain lists, and the proof that the code of [libgai] computes it with
    every block accounted for, whichever calls of [malloc] fail. *)
From Stdlib Require Import ZArith Lia.
From stdpp Require Import base list strings gmap numbers.
From S2P Require Import Prelude CString CFile Dll Inet4 Inet6 Inet6Proof Gai GaiHeap GaiLists.
Local Open Scope c_scope.

(** * The specification *)

Section spec.
Context (getservbyname : bytes -> bytes -> option Z).
Context (gethostbyname2 : bytes -> Z -> option hostent).
Context (gethostbyname : bytes -> bool -> h_errno + hostent).
Context (tmp4 : bytes).

(** The ports of a service, with the socket types they are for, in order. *)
Definition serv_ports (h : hint) (serv : bytes) : list (Z * Z) :=
  let st := h_socktype h in
  let by_name (proto : bytes) (v : Z) :=
    if (st =? 0) || (st =? v) then match getservbyname serv proto with Some p => [(p, v)] | None => [] end else [] in
  if isdigit (default 0 (head serv)) then
    let port := htons (u16 (atoi serv)) in
    if st =? 0 then [(port, SOCK_STREAM); (port, SOCK_DGRAM)] else [(port, st)]
  else by_name (str "tcp") SOCK_STREAM ++ by_name (str "udp") SOCK_DGRAM.
Definition apply_ports (ps : list (Z * Z)) (l : list ent) : list ent :=
  fold_left (fun l p => port_all p.1 p.2 l) ps l.
Fixpoint found (ps : list (Z * Z)) (l : list ent) : Z :=
  match ps with [] => 0 | p :: r => hits p.2 l + found r (port_all p.1 p.2 l) end.
Definition serv_spec (h : hint) (serv : bytes) (l : list ent) : Z + list ent :=
  if found (serv_ports h serv) l =? 0 then inl (if h_socktype h =? 0 then EAI_NONAME else EAI_SERVICE)
  else inr (apply_ports (serv_ports h serv) l).

(** The lookups: what is asked for and in which families. *)
Definition searches (hostname : option bytes) (h : hint) : list (bytes * Z) :=
  let texts := match hostname with
               | Some (c :: r) => (c :: r, c :: r)
               | _ => if has_flag (h_flags h) AI_PASSIVE then (str "0.0.0.0", str "0::0") else (str "localhost", str "0::1")
               end in
  filter (fun p => h_family h = AF_UNSPEC \/ h_family h = p.2) [(texts.2, AF_INET6); (texts.1, AF_INET)].

(** The address a text is for a family. *)
Definition pton (family : Z) (host : bytes) : option bytes :=
  match inet_pton tmp4 family host tt with Ret (1, Some a, _) _ => Some a | _ => None end.

(** What one lookup does to the structures found so far and the canonical
    name: the error, if any, the structures and the name. *)
Definition look : Type := option Z * list ent * option bytes.
Definition add_literal (h : hint) (sfamily family : Z) (a : bytes) (es : list ent) (canon : option bytes) : look :=
  if negb (h_family h =? AF_UNSPEC) && negb (h_family h =? family) then (Some EAI_ADDRFAMILY, es, canon)
  else if negb (sfamily =? family) then (None, es, canon)
  else (None, es ++ [new_ent h a family], canon).
Definition add_host (named : bool) (h : hint) (p : hostent) (es : list ent) (canon : option bytes) : look :=
  if negb (h_family h =? AF_UNSPEC) && negb (h_family h =? h_addrtype p) then (Some EAI_ADDRFAMILY, es, canon)
  else (None, es ++ ((fun a => new_ent h a (h_addrtype p)) <$> h_addr_list p),
        if named && has_flag (h_flags h) AI_CANONNAME then Some (default (h_name p) canon) else canon).
Definition lookup_host (named : bool) (h : hint) (nsearch : nat) (host : bytes) (family : Z) (es : list ent) (canon : option bytes) : look :=
  if (nsearch =? 2)%nat then
    match gethostbyname2 host family with Some p => add_host named h p es canon | None => (None, es, canon) end
  else
    match gethostbyname host (family =? AF_INET6) with inr p => add_host named h p es canon | inl e => (Some (eai_of e), es, canon) end.
Definition is_v4_text (host : bytes) : bool := isdigit (default 0 (head host)).
Definition is_v6_text (host : bytes) : bool :=
  let c0 := default 0 (head host) in (isxdigit c0 || (c0 =? c_colon)) && bool_decide (c_colon ∈ host).
Definition search_spec (named : bool) (h : hint) (nsearch : nat) (host : bytes) (family : Z) (es : list ent) (canon : option bytes) : look :=
  match (if is_v4_text host then pton AF_INET host else None), (if is_v6_text host then pton AF_INET6 host else None) with
  | Some a, _ => add_literal h family AF_INET a es canon
  | None, Some a => add_literal h family AF_INET6 a es canon
  | None, None => lookup_host named h nsearch host family es canon
  end.
Fixpoint search_all (named : bool) (h : hint) (nsearch : nat) (l : list (bytes * Z)) (es : list ent) (canon : option bytes) : look :=
  match l with
  | [] => (None, es, canon)
  | (host, family) :: r =>
      match search_spec named h nsearch host family es canon with
      | (Some e, es, canon) => (Some e, es, canon)
      | (None, es, canon) => search_all named h nsearch r es canon
      end
  end.

(** The outcome: a list, or an error, and in that case the canonical name
    whose memory is lost. *)
Inductive gai_result := Found (l : list ent) | Failed (e : Z) (lost : option bytes).
Definition ent_name (v : bytes) (e : ent) : ent :=
  mk_ent (e_flags e) (e_family e) (e_socktype e) (e_protocol e) (e_addrlen e) (e_sa e) (Some v).
Definition finish_spec (named : bool) (h : hint) (host0 : bytes) (servname : option bytes) (es : list ent) (canon : option bytes) : gai_result :=
  match es with
  | [] => Failed EAI_NONAME canon
  | e :: r =>
      let es := if named && has_flag (h_flags h) AI_CANONNAME then ent_name (default host0 canon) e :: r else e :: r in
      match servname with
      | Some (c :: s) => match serv_spec h (c :: s) es with inl e => Failed e None | inr l => Found l end
      | _ => Found es
      end
  end.
Definition gai_spec (hostname servname : option bytes) (hints : option hint) : gai_result :=
  let h := default (mk_hint 0 AF_UNSPEC 0 0) hints in
  let rc := ga_echeck hostname servname (h_flags h) (h_family h) (h_socktype h) (h_protocol h) in
  if negb (rc =? 0) then Failed rc None
  else
    let l := searches hostname h in
    match search_all (negb (blank hostname)) h (length l) l [] None with
    | (Some e, _, canon) => Failed e canon
    | (None, es, canon) => finish_spec (negb (blank hostname)) h (default [] (fst <$> head l)) servname es canon
    end.
End spec.

(** * Service names *)

Lemma hits_nonneg (st : Z) (l : list ent) : 0 <= hits st l.
Proof.
  induction l as [|e l IH]; [done|]. cbn [hits foldr]. fold (hits st l). unfold port_hits.
  destruct (has_flag _ _); [lia|]. destruct (_ =? _); lia.
Qed.

Lemma port_all_ip (port st : Z) (l : list ent) : Forall ip_ent l -> Forall ip_ent (port_all port st l).
Proof.
  intros F. unfold port_all. apply Forall_join, Forall_fmap. revert F. apply Forall_impl. intros e [Hf [sa Hsa]].
  assert (forall v e', e_family e' = e_family e -> e_sa e' = e_sa e -> ip_ent (ent_port port (ent_socktype v e'))) as W.
  { intros v e' E1 E2. split; cbn; [by rewrite E1|]. rewrite E2, Hsa. eauto. }
  unfold compose, port_one. assert (ip_ent e) by (split; eauto).
  destruct (has_flag _ _), (negb (e_socktype e =? 0)), (negb (e_socktype e =? st)); rewrite ?list.Forall_cons, ?Forall_nil;
    repeat split; try done; apply W; done.
Qed.

Section serv.
Context (getservbyname : bytes -> bytes -> option Z).
Implicit Types (h : hint) (l : list node) (es : list ent) (p : addr) (ps : list (Z * Z)) (s : gst) (k : Z -> M gst Z).

Definition serv_code h (n : Z) : Z := if n =? 0 then (if h_socktype h =? 0 then EAI_NONAME else EAI_SERVICE) else 0.
Definition serv_post (h0 : gmap addr blk) h p ps es (n r : Z) s s' : Prop :=
  heap_step s s' /\
  ((r = EAI_MEMORY /\ g_malloc s <> [] /\ exists l', chain h0 (g_heap s') [] p l') \/
   (exists l', chain h0 (g_heap s') [] p l' /\ ent_of <$> l' = apply_ports ps es /\ r = serv_code h (n + found ps es))).

Lemma serv_finish_run (h0 : gmap addr blk) h p l s (n : Z) : chain h0 (g_heap s) [] p l -> exists r s',
  (if n =? 0 then ret (if h_socktype h =? 0 then EAI_NONAME else EAI_SERVICE) else ret 0) s = Ret r s' /\
  serv_post h0 h p [] (ent_of <$> l) n r s s'.
Proof.
  intros C. exists (serv_code h n), s. split; [unfold serv_code; by destruct (n =? 0)|]. split; [done|]. right. exists l.
  split; [done|]. split; [done|]. cbn [found]. by rewrite Z.add_0_r.
Qed.

Lemma serv_add_run (h0 : gmap addr blk) h p l s (n port st : Z) ps k : chain h0 (g_heap s) [] p l -> Forall ip_ent (ent_of <$> l) ->
  (forall s1 l1 (n1 : Z), chain h0 (g_heap s1) [] p l1 -> Forall ip_ent (ent_of <$> l1) ->
    exists r s', k n1 s1 = Ret r s' /\ serv_post h0 h p ps (ent_of <$> l1) n1 r s1 s') ->
  exists r s', (let* rc := ga_port p port st in if rc <? 0 then ret EAI_MEMORY else k (n + rc)) s = Ret r s' /\
    serv_post h0 h p ((port, st) :: ps) (ent_of <$> l) n r s s'.
Proof.
  intros C F K. destruct (ga_port_run _ _ _ _ _ port st C (proj1 (Forall_fmap _ _ _) F)) as (rc & s1 & E & T & P).
  rewrite (bind_run _ _ _ _ _ E). destruct P as [(-> & M & C')|(l1 & C1 & V & ->)].
  { exists EAI_MEMORY, s1. split; [done|]. split; [done|]. left. done. }
  pose proof (hits_nonneg st (ent_of <$> l)) as Hn. destruct (Z.ltb_spec (hits st (ent_of <$> l)) 0) as [|_]; [lia|].
  destruct (K s1 l1 (n + hits st (ent_of <$> l)) C1) as (r & s' & E' & T' & P'); [rewrite V; by apply port_all_ip|].
  exists r, s'. split; [done|]. split; [by eapply heap_step_trans|]. destruct P' as [(-> & M & C')|(l' & C' & V' & ->)]; [left|right].
  - split; [done|]. split; [|done]. intros Hs. apply M. by apply T.
  - exists l'. split; [done|]. cbn [apply_ports fold_left found fst snd]. rewrite <-V. split; [done|]. f_equal. lia.
Qed.

Lemma ga_serv_run (h0 : gmap addr blk) h p l s serv : chain h0 (g_heap s) [] p l -> Forall ip_ent (ent_of <$> l) -> exists rc s',
  ga_serv getservbyname p h serv s = Ret rc s' /\ serv_post h0 h p (serv_ports getservbyname h serv) (ent_of <$> l) 0 rc s s'.
Proof.
  intros C F. unfold ga_serv, serv_ports.
  set (fin := fun nfound => if nfound =? 0 then ret (if h_socktype h =? 0 then EAI_NONAME else EAI_SERVICE) else ret 0 : M gst Z).
  set (add := fun (nfound port socktype : Z) (k : Z -> M gst Z) => let* rc := ga_port p port socktype in if rc <? 0 then ret EAI_MEMORY else k (nfound + rc)).
  assert (forall s l (n : Z), chain h0 (g_heap s) [] p l -> Forall ip_ent (ent_of <$> l) -> exists r s',
    fin n s = Ret r s' /\ serv_post h0 h p [] (ent_of <$> l) n r s s') as Fin by (intros; by apply serv_finish_run).
  assert (forall (port st : Z) s l (n : Z), chain h0 (g_heap s) [] p l -> Forall ip_ent (ent_of <$> l) -> exists r s',
    add n port st fin s = Ret r s' /\ serv_post h0 h p [(port, st)] (ent_of <$> l) n r s s') as One.
  { intros port st s1 l1 n C1 F1. apply (serv_add_run _ _ _ _ _ _ _ _ _ fin); done. }
  destruct (isdigit _).
  - destruct (h_socktype h =? 0); cbn [negb]; cbv zeta; [|by apply One].
    apply (serv_add_run _ _ _ _ _ _ _ _ _ (fun n => add n (htons (u16 (atoi serv))) SOCK_DGRAM fin)); [done|done|]. intros. by apply One.
  - set (udp := fun n : Z => if (h_socktype h =? 0) || (h_socktype h =? SOCK_DGRAM) then
      match getservbyname serv (str "udp") with Some q => add n q SOCK_DGRAM fin | None => fin n end else fin n).
    assert (forall s l (n : Z), chain h0 (g_heap s) [] p l -> Forall ip_ent (ent_of <$> l) -> exists r s',
      udp n s = Ret r s' /\ serv_post h0 h p (if (h_socktype h =? 0) || (h_socktype h =? SOCK_DGRAM) then
         match getservbyname serv (str "udp") with Some q => [(q, SOCK_DGRAM)] | None => [] end else []) (ent_of <$> l) n r s s') as Udp.
    { intros s1 l1 n C1 F1. unfold udp. destruct (_ || _); [|by apply Fin].
      destruct (getservbyname serv (str "udp")); [by apply One|by apply Fin]. }
    cbv zeta. destruct (_ || (h_socktype h =? SOCK_STREAM)); [|exact (Udp s l 0 C F)].
    destruct (getservbyname serv (str "tcp")); [|exact (Udp s l 0 C F)].
    apply (serv_add_run _ _ _ _ _ _ _ _ _ udp); [done|done|]. intros. by apply Udp.
Qed.
End serv.

(** * The lookups *)

Section lookups.
Context (getservbyname : bytes -> bytes -> option Z) (uname : option bytes).
Context (gethostbyname2 : bytes -> Z -> option hostent) (gethostbyname : bytes -> bool -> h_errno + hostent).
Context (tmp4 : bytes).

(** The resolver gives addresses of the type it says they have. *)
Definition host_ok (p : hostent) : Prop := Forall (addr_fits (h_addrtype p)) (h_addr_list p).
Hypothesis hosts2_ok : forall n f p, gethostbyname2 n f = Some p -> host_ok p.
Hypothesis hosts_ok : forall n v6 p, gethostbyname n v6 = inr p -> host_ok p.
Hypothesis tmp4_ok : length tmp4 = INADDRSZ.

Implicit Types (h : gmap addr blk) (l : list node) (es : list ent) (p : addr) (s : gst) (canon : option bytes) (flag named : bool).

(** The heap at the start, with the copy of the canonical name. *)
Definition base h0 (c : addr) canon : gmap addr blk := match canon with None => h0 | Some n => <[c := BStr n]> h0 end.
(** Between two lookups: the list holds [es]; [flag] says that a canonical
    name is wanted. *)
Definition plain (e : ent) : Prop := ip_ent e /\ e_canon e = None.
Record inv h0 flag s l canon : Prop := {
  iv_good : good (base h0 (g_canon s) canon) [] s l;
  iv_canon : match canon with
             | None => g_canon s = NULL
             | Some _ => flag = true /\ g_canon s <> NULL /\ h0 !! g_canon s = None
             end }.
(** After a piece of the search, specified by [r]. *)
Definition looked h0 flag (r : look) s (e : option Z) s' : Prop :=
  (g_malloc s = [] -> g_malloc s' = []) /\
  ((exists l, inv h0 flag s' l r.2 /\ ent_of <$> l = r.1.2 /\ Forall plain r.1.2 /\ e = r.1.1) \/
   (e = Some EAI_MEMORY /\ g_malloc s <> [] /\ exists l canon, inv h0 flag s' l canon)).

Lemma looked_here h0 flag s l canon (e : option Z) : inv h0 flag s l canon -> Forall plain (ent_of <$> l) ->
  looked h0 flag (e, ent_of <$> l, canon) s e s.
Proof. intros I F. split; [done|]. left. by exists l. Qed.

Lemma new_ent_plain (h : hint) (a : bytes) (family : Z) : addr_fits family a -> plain (new_ent h a family).
Proof. intros H. split; [|done]. split; [|cbn; eauto]. cbn. destruct H as [[-> _]|[-> _]]; auto. Qed.

Lemma inv_good h0 flag s s' l l' canon : inv h0 flag s l canon -> g_canon s' = g_canon s ->
  good (base h0 (g_canon s) canon) [] s' l' -> inv h0 flag s' l' canon.
Proof. intros [G C] E G'. split; rewrite E; done. Qed.

Lemma pton_run (family : Z) (host : bytes) : family = AF_INET \/ family = AF_INET6 ->
  (pure_call (inet_pton tmp4 family host) : M gst _) = (fun s => Ret (match pton tmp4 family host with Some b => (1, Some b, 0) | None => (0, None, 0) end) s) /\
  (forall a, pton tmp4 family host = Some a -> addr_fits family a).
Proof.
  intros Hf. destruct (pton_total tmp4 family host tmp4_ok Hf) as (o & E & Ho). unfold pure_call, pton. rewrite E. split; [by destruct o|].
  intros a Ha. destruct o as [b|]; inversion Ha; subst. destruct (Ho a eq_refl) as [L _]. destruct Hf as [-> | ->]; [left|right]; rewrite L; done.
Qed.

(** One structure for a literal address. *)
Lemma literal_run h0 flag s l canon (h : hint) (sfamily family : Z) (a : bytes) :
  inv h0 flag s l canon -> Forall plain (ent_of <$> l) -> addr_fits family a -> exists e s',
  (if negb (h_family h =? AF_UNSPEC) && negb (h_family h =? family) then ret (Some (Some EAI_ADDRFAMILY))
   else if negb (sfamily =? family) then ret (Some None)
   else let* rc := ga_aistruct h a family in ret (Some (if negb (rc =? 0) then Some rc else None))) s = Ret (Some e) s' /\
  looked h0 flag (add_literal h sfamily family a (ent_of <$> l) canon) s e s'.
Proof.
  intros I F Ha. unfold add_literal. destruct (_ && _).
  { eexists _, s. split; [done|]. by apply looked_here. }
  destruct (negb _).
  { eexists _, s. split; [done|]. by apply looked_here. }
  destruct (ga_aistruct_run _ _ _ _ h a family (iv_good _ _ _ _ _ I) Ha) as (rc & s' & l' & E & G & Hc & Hm & R).
  rewrite (bind_run _ _ _ _ _ E). eexists _, s'. split; [done|]. split; [done|]. pose proof (inv_good _ _ _ _ _ _ _ I Hc G) as I'.
  destruct R as [[-> V]|[-> M]]; [left; exists l'|right; eauto]. split; [done|]. split; [done|]. split; [|done].
  apply Forall_app. split; [done|]. constructor; [by apply new_ent_plain|done].
Qed.

Lemma numeric_run h0 flag s l canon (h : hint) (host : bytes) (sfamily family : Z) :
  inv h0 flag s l canon -> Forall plain (ent_of <$> l) -> family = AF_INET \/ family = AF_INET6 ->
  match pton tmp4 family host with
  | None => numeric tmp4 h host sfamily family s = Ret None s
  | Some a => exists e s', numeric tmp4 h host sfamily family s = Ret (Some e) s' /\
      looked h0 flag (add_literal h sfamily family a (ent_of <$> l) canon) s e s'
  end.
Proof.
  intros I F Hf. destruct (pton_run family host Hf) as [E Ha]. unfold numeric. rewrite E. unfold bind at 1.
  destruct (pton tmp4 family host) as [a|]; [|done]. destruct (literal_run _ _ _ _ _ h sfamily family a I F (Ha a eq_refl)) as (e & s' & E' & L).
  exists e, s'. split; [|done]. exact E'.
Qed.

Lemma add_all_run h0 flag (h : hint) (family : Z) addrs : Forall (addr_fits family) addrs -> forall s l canon,
  inv h0 flag s l canon -> Forall plain (ent_of <$> l) -> exists e s',
  add_all h addrs family s = Ret e s' /\ looked h0 flag (None, (ent_of <$> l) ++ ((fun a => new_ent h a family) <$> addrs), canon) s e s'.
Proof.
  induction 1 as [|a addrs Ha _ IH]; intros s l canon I F; cbn [add_all].
  { rewrite app_nil_r. eexists _, s. split; [done|]. by apply looked_here. }
  destruct (ga_aistruct_run _ _ _ _ h a family (iv_good _ _ _ _ _ I) Ha) as (rc & s1 & l1 & E & G & Hc & Hm & R).
  rewrite (bind_run _ _ _ _ _ E). pose proof (inv_good _ _ _ _ _ _ _ I Hc G) as I1. destruct R as [[-> V]|[-> M]]; cbn [negb Z.eqb].
  - destruct (IH s1 l1 canon I1) as (e & s2 & E2 & M2 & R2).
    { rewrite V. apply Forall_app. split; [done|]. constructor; [by apply new_ent_plain|done]. }
    exists e, s2. split; [done|]. split; [auto|]. rewrite V, <-app_assoc in R2. destruct R2 as [R2|(? & M & ?)]; [left; exact R2|right]. split; [done|].
    split; [|done]. auto.
  - eexists _, s1. split; [done|]. split; [done|]. right. eauto.
Qed.

(** A block that belongs to nobody is taken into the heap at the start. *)
Lemma chain_base h0 h p l (c : addr) b : chain h0 h [] p l -> h !! c = None -> chain (<[c := b]> h0) (<[c := b]> h) [] p l /\ h0 !! c = None.
Proof.
  intros [[D U W O] N L] E. cbn [app] in *.
  assert (c ∉ foot l) as Hc by (intros Hc; destruct (W c Hc) as [_ [x Ex]]; congruence).
  split; [|by rewrite <-O]. split; [split; cbn [app]| |done].
  - done.
  - done.
  - intros a Ha. assert (a <> c) by (by intros ->). rewrite !lookup_insert_ne by done. by apply W.
  - intros a Ha. destruct (decide (a = c)) as [->|]; [by rewrite !lookup_insert_eq|]. rewrite !lookup_insert_ne by done. by apply O.
  - eapply nodes_frame; [done|]. intros a Ha. apply lookup_insert_ne. by intros <-.
Qed.

Lemma strdup_run h0 flag s l (name : bytes) : inv h0 flag s l None -> flag = true -> exists c s',
  alloc (BStr name) s = Ret c s' /\ (g_malloc s = [] -> g_malloc s' = []) /\
  ((c = NULL /\ g_malloc s <> [] /\ inv h0 flag (set_canon c s') l None) \/ (c <> NULL /\ inv h0 flag (set_canon c s') l (Some name))).
Proof.
  intros [[C T] Hc] ->. cbn [base] in C. destruct (alloc_run s (BStr name)) as (s' & (T1 & T2 & T3 & T4 & T5) & [(E & Eh & M)|(E & Eh)]).
  - exists NULL, s'. split; [done|]. split; [done|]. left. split; [done|]. split; [done|]. split; [|done].
    split; cbn [base g_canon set_canon g_heap g_head g_tail]; [by rewrite Eh, T1|by rewrite T2].
  - destruct (new_addr_fresh (g_heap s)) as [F Hn]. eexists _, s'. split; [exact E|]. split; [done|]. right. split; [done|].
    destruct (chain_base _ _ _ _ _ (BStr name) C F) as [C' H0]. split; [|done].
    split; cbn [base g_canon set_canon g_heap g_head g_tail]; [by rewrite Eh, T1|by rewrite T2].
Qed.

Lemma add_host_run h0 named s l canon (h : hint) (p : hostent) : inv h0 (named && has_flag (h_flags h) AI_CANONNAME) s l canon ->
  Forall plain (ent_of <$> l) -> host_ok p -> exists e s',
  (if negb (h_family h =? AF_UNSPEC) && negb (h_family h =? h_addrtype p) then ret (Some EAI_ADDRFAMILY)
   else
     let* canon := gets g_canon in
     let* bad := (if named && has_flag (h_flags h) AI_CANONNAME && (canon =? NULL) then
                    let* c := alloc (BStr (h_name p)) in
                    modify (set_canon c);;; ret (c =? NULL)
                  else ret false) in
     if bad : bool then ret (Some EAI_MEMORY) else add_all h (h_addr_list p) (h_addrtype p)) s = Ret e s' /\
  looked h0 (named && has_flag (h_flags h) AI_CANONNAME) (add_host named h p (ent_of <$> l) canon) s e s'.
Proof.
  intros I F Hp. unfold add_host. destruct (negb _ && negb _); [eexists _, s; split; [done|]; by apply looked_here|].
  rewrite bind_gets. set (flag := named && has_flag (h_flags h) AI_CANONNAME) in *.
  destruct canon as [n|].
  - destruct (iv_canon _ _ _ _ _ I) as (Hfl & Hn & _). apply Z.eqb_neq in Hn. rewrite Hn, andb_false_r. rewrite (bind_run (ret false) _ s _ _ eq_refl).
    assert ((if flag then Some (default (h_name p) (Some n)) else Some n) = Some n) as -> by (by destruct flag). by apply add_all_run.
  - rewrite (iv_canon _ _ _ _ _ I). change (NULL =? NULL) with true. rewrite andb_true_r. destruct flag eqn:Hfl.
    + destruct (strdup_run _ _ _ _ (h_name p) I eq_refl) as (c & s1 & E & Hm & R). rewrite bind_assoc, (bind_run _ _ _ _ _ E), bind_assoc, bind_modify.
      rewrite (bind_run (ret _) _ _ _ _ eq_refl). destruct R as [(-> & M & I1)|(Hn & I1)].
      * eexists _, _. split; [done|]. split; [done|]. right. eauto.
      * apply Z.eqb_neq in Hn. rewrite Hn. cbn [default from_option id].
        destruct (add_all_run _ _ h _ _ Hp _ _ _ I1 F) as (e & s2 & E2 & M2 & R2). exists e, s2. split; [done|]. split; [auto|].
        destruct R2 as [R2|(? & M & ?)]; [left; exact R2|right]. split; [done|]. split; [|done]. cbn [g_malloc set_canon] in M. auto.
    + rewrite (bind_run (ret false) _ s _ _ eq_refl). by apply add_all_run.
Qed.

Lemma resolve_run h0 named s l canon (h : hint) (nsearch : nat) (host : bytes) (family : Z) :
  inv h0 (named && has_flag (h_flags h) AI_CANONNAME) s l canon -> Forall plain (ent_of <$> l) -> exists e s',
  resolve gethostbyname2 gethostbyname named h nsearch host family s = Ret e s' /\
  looked h0 (named && has_flag (h_flags h) AI_CANONNAME) (lookup_host gethostbyname2 gethostbyname named h nsearch host family (ent_of <$> l) canon) s e s'.
Proof.
  intros I F. unfold resolve, lookup_host. destruct (nsearch =? 2)%nat; [destruct (gethostbyname2 host family) eqn:E|destruct (gethostbyname host _) eqn:E].
  - apply add_host_run; [done|done|eauto].
  - eexists _, s. split; [done|]. by apply looked_here.
  - eexists _, s. split; [done|]. by apply looked_here.
  - apply add_host_run; [done|done|eauto].
Qed.

Lemma search_one_run h0 named s l canon (h : hint) (nsearch : nat) (host : bytes) (family : Z) :
  inv h0 (named && has_flag (h_flags h) AI_CANONNAME) s l canon -> Forall plain (ent_of <$> l) -> exists e s',
  search_one gethostbyname2 gethostbyname tmp4 named h nsearch host family s = Ret e s' /\
  looked h0 (named && has_flag (h_flags h) AI_CANONNAME)
    (search_spec gethostbyname2 gethostbyname tmp4 named h nsearch host family (ent_of <$> l) canon) s e s'.
Proof.
  intros I F. unfold search_one, search_spec. cbv zeta. fold (is_v4_text host). fold (is_v6_text host).
  set (v6 := (if is_v6_text host then _ else _) : M gst (option Z)).
  assert (exists e s', v6 s = Ret e s' /\ looked h0 (named && has_flag (h_flags h) AI_CANONNAME)
    match (if is_v6_text host then pton tmp4 AF_INET6 host else None) with
    | Some a => add_literal h family AF_INET6 a (ent_of <$> l) canon
    | None => lookup_host gethostbyname2 gethostbyname named h nsearch host family (ent_of <$> l) canon
    end s e s') as V6.
  { unfold v6. destruct (is_v6_text host); [|by apply resolve_run].
    pose proof (numeric_run _ _ _ _ _ h host family AF_INET6 I F (or_intror eq_refl)) as Nu.
    destruct (pton tmp4 AF_INET6 host); [destruct Nu as (e & s' & -> & L) || destruct Nu as (e & s' & E & L)|].
    - exists e, s'. by rewrite (bind_run _ _ _ _ _ E).
    - rewrite (bind_run _ _ _ _ _ Nu). by apply resolve_run. }
  destruct (is_v4_text host); [|exact V6].
  pose proof (numeric_run _ _ _ _ _ h host family AF_INET I F (or_introl eq_refl)) as Nu.
  destruct (pton tmp4 AF_INET host).
  - destruct Nu as (e & s' & E & L). exists e, s'. by rewrite (bind_run _ _ _ _ _ E).
  - by rewrite (bind_run _ _ _ _ _ Nu).
Qed.

Lemma search_loop_run h0 named (h : hint) (nsearch : nat) searches : forall s l canon,
  inv h0 (named && has_flag (h_flags h) AI_CANONNAME) s l canon -> Forall plain (ent_of <$> l) -> exists e s',
  search_loop gethostbyname2 gethostbyname tmp4 named h nsearch searches s = Ret e s' /\
  looked h0 (named && has_flag (h_flags h) AI_CANONNAME)
    (search_all gethostbyname2 gethostbyname tmp4 named h nsearch searches (ent_of <$> l) canon) s e s'.
Proof.
  induction searches as [|[host family] r IH]; intros s l canon I F; cbn [search_loop search_all].
  { eexists _, s. split; [done|]. by apply looked_here. }
  destruct (search_one_run _ _ _ _ _ h nsearch host family I F) as (e & s1 & E & M1 & R). rewrite (bind_run _ _ _ _ _ E).
  destruct (search_spec _ _ _ _ _ _ _ _ _ _) as [[e1 es1] canon1]. destruct R as [(l1 & I1 & V & F1 & ->)|(-> & M & R)]; cbn [fst snd] in *.
  - subst es1. destruct e1 as [x|]; [by eexists _, s1; split; [done|]; split; [done|]; left; exists l1|].
    destruct (IH s1 l1 canon1 I1 F1) as (e & s2 & E2 & M2 & R2). exists e, s2. split; [done|]. split; [auto|].
    destruct R2 as [R2|(? & M & ?)]; [left; exact R2|right]. split; [done|]. split; [|done]. auto.
  - eexists _, s1. split; [done|]. split; [done|]. by right.
Qed.
End lookups.
