(* ===== verification/GaiTheorems.v ===== *)
(** The theorems about [getaddrinfo] and [freeaddrinfo]: the code implements
    the specification of [GaiSpec], and what follows for its callers. *)
From Stdlib Require Import ZArith Lia.
From stdpp Require Import base list strings gmap numbers.
From S2P Require Import Prelude CString CFile Dll Inet4 Inet6 Inet6Proof Gai GaiHeap GaiLists GaiSpec.
Local Open Scope c_scope.

(** * The end of a call *)

(** The heap after an error: as it was, but for a canonical name. *)
Definition lost_only (h0 : gmap addr blk) (lost : option bytes) (h : gmap addr blk) : Prop :=
  match lost with None => h = h0 | Some n => exists c, c <> NULL /\ h0 !! c = None /\ h = <[c := BStr n]> h0 end.

(** A call that ended as [spec] says, or failed for want of memory, which
    needs a [malloc] that did. *)
Definition ended (h0 : gmap addr blk) (spec : gai_result) (s : gst) (r : Z * addr) (s' : gst) : Prop :=
  match spec with
  | Found es => exists p l, r = (0, p) /\ chain h0 (g_heap s') [] p l /\ ent_of <$> l = es
  | Failed e lost => r = (e, NULL) /\ lost_only h0 lost (g_heap s')
  end \/
  (r = (EAI_MEMORY, NULL) /\ g_malloc s <> [] /\ exists lost, lost_only h0 lost (g_heap s')).

Section ends.
Implicit Types (h : gmap addr blk) (l : list node) (es : list ent) (p : addr) (s : gst) (canon : option bytes) (flag named : bool).

Lemma inv_lost h0 flag s l canon : inv h0 flag s l canon -> lost_only h0 canon (base h0 (g_canon s) canon).
Proof. intros [_ C]. destruct canon; [|done]. destruct C as (_ & Hn & H0). by exists (g_canon s). Qed.

Lemma bad_run h0 s l (e : Z) : chain h0 (g_heap s) [] (g_head s) l -> bad e s = Ret (e, NULL) (set_heap h0 s).
Proof. intros C. unfold bad. rewrite bind_gets. by rewrite (bind_run _ _ _ _ _ (freeaddrinfo_run _ _ _ _ C)). Qed.

(** The canonical name becomes a block of the list. *)
Lemma chain_unbase h0 h p l (c : addr) (n : bytes) : chain (<[c := BStr n]> h0) h [] p l -> c <> NULL -> h0 !! c = None ->
  chain h0 h [c] p l /\ h !! c = Some (BStr n).
Proof.
  intros [[D U W O] N L] Hn H0. cbn [app] in *.
  assert (c ∉ foot l) as Hc by (intros Hc; destruct (W c Hc) as [E _]; rewrite lookup_insert_eq in E; done).
  pose proof (O c Hc) as Ec. rewrite lookup_insert_eq in Ec. split; [|done]. split; [split; cbn [app]|done|done].
  - by apply list.NoDup_cons.
  - by apply not_elem_of_cons.
  - intros a [->|Ha]%elem_of_cons; [split; eauto|]. destruct (W a Ha) as [E S]. rewrite lookup_insert_ne in E by (by intros <-). done.
  - intros a [Hne Ha]%not_elem_of_cons. rewrite O by done. by apply lookup_insert_ne.
Qed.

Lemma canon_chain h0 h p n l (c : addr) (name : bytes) : chain h0 h [c] p (n :: l) -> h !! c = Some (BStr name) -> n_canon n = None ->
  chain h0 (<[n_at n := BInfo (with_canon c (n_ai n))]> h) [] p (mk_node (n_at n) (with_canon c (n_ai n)) (n_sa n) (Some name) :: l).
Proof.
  intros C Ec Hc. pose proof (chain_node _ _ _ _ [] _ _ C) as [A S K].
  assert (n_at n <> c) as Hne.
  { destruct C as [[D _ _ _] _ _]. cbn [app] in D. apply list.NoDup_cons in D as [D _]. intros E. apply D. rewrite <-E. apply elem_of_app. left. by left. }
  apply (chain_set h0 h [c] [] p [] n); [done|done|done| |by left|].
  - unfold cells. cbn. rewrite Hc. cbn. solve_Permutation.
  - split; cbn [n_at n_ai n_sa n_canon].
    + by rewrite lookup_insert_eq.
    + apply (holds_frame h); [exact S|]. intros a. rewrite cell_fmap. intros Ha. apply lookup_insert_ne. intros <-.
      pose proof (chain_cells _ _ _ _ [] _ _ C) as D. unfold cells in D. apply list.NoDup_cons in D as [D _]. apply D. apply elem_of_app. by left.
    + cbn. by rewrite lookup_insert_ne.
Qed.

(** From the label ga5 to the service: the list gets its name. *)
Lemma name_run h0 named (h : hint) s n l canon (host0 : bytes) :
  inv h0 (named && has_flag (h_flags h) AI_CANONNAME) s (n :: l) canon -> n_canon n = None ->
  exists (nomem : bool) s' l', (if named && has_flag (h_flags h) AI_CANONNAME then
     let* canon := gets g_canon in
     if negb (canon =? NULL) then update_ai (n_at n) (with_canon canon);;; ret false
     else
       let* c := alloc (BStr host0) in
       update_ai (n_at n) (with_canon c);;; ret (c =? NULL)
   else ret false) s = Ret nomem s' /\
  chain h0 (g_heap s') [] (g_head s') l' /\ g_head s' = g_head s /\ (g_malloc s = [] -> g_malloc s' = []) /\
  if nomem then g_malloc s <> [] else
  ent_of <$> l' = (if named && has_flag (h_flags h) AI_CANONNAME then ent_name (default host0 canon) (ent_of n) :: (ent_of <$> l) else ent_of <$> n :: l).
Proof.
  intros [[C T] Hc] Hn. destruct (_ && _) eqn:Hfl.
  - rewrite bind_gets. destruct canon as [nm|]; cbn [base] in *.
    + destruct Hc as (_ & Hne & H0). pose proof (Z.eqb_neq (g_canon s) NULL) as [_ Eq]. rewrite (Eq Hne). cbn [negb].
      destruct (chain_unbase _ _ _ _ _ _ C Hne H0) as [C1 Ec].
      rewrite (bind_run _ _ _ _ _ (update_ai_run s n _ (chain_node _ _ _ _ [] _ _ C))).
      exists false. do 2 eexists. split; [done|]. split; [by apply (canon_chain h0 (g_heap s) (g_head s) n l _ nm)|]. done.
    + rewrite Hc. change (NULL =? NULL) with true. cbn [negb]. destruct (alloc_run s (BStr host0)) as (s1 & (T1 & T2 & T3 & T4 & T5) & [(E & Eh & M)|(E & Eh)]).
      * rewrite (bind_run _ _ _ _ _ E). rewrite <-Eh, <-T1 in C. rewrite (bind_run _ _ _ _ _ (update_ai_run s1 n _ (chain_node _ _ _ _ [] _ _ C))).
        eexists true, _, (set_ai (with_canon NULL) n :: l). split; [done|]. split; [|done].
        apply (chain_update _ _ _ _ [] n l); [exact C|]. split; [done|]. split; [|done]. cbn.
        pose proof (chain_node _ _ _ _ [] _ _ C) as [_ _ K]. rewrite Hn in K. by rewrite K.
      * rewrite (bind_run _ _ _ _ _ E). destruct (chain_alloc _ _ _ _ _ (BStr host0) C) as [C1 Hne]. rewrite <-Eh, <-T1 in C1.
        rewrite (bind_run _ _ _ _ _ (update_ai_run s1 n _ (chain_node _ _ _ _ [] _ _ C1))).
        pose proof (proj2 (Z.eqb_neq _ _) Hne) as ->. exists false. do 2 eexists. split; [done|].
        split; [apply (canon_chain h0 (g_heap s1) (g_head s1) n l _ host0); [exact C1|by rewrite Eh, lookup_insert_eq|done]|]. done.
  - destruct canon; [by destruct Hc|]. exists false, s, (n :: l). done.
Qed.

Lemma finish_gai_run h0 (getservbyname : bytes -> bytes -> option Z) named (h : hint) s l canon (host0 : bytes) (servname : option bytes) :
  inv h0 (named && has_flag (h_flags h) AI_CANONNAME) s l canon -> Forall plain (ent_of <$> l) ->
  exists r s', finish_gai getservbyname named h host0 servname s = Ret r s' /\
    ended h0 (finish_spec getservbyname named h host0 servname (ent_of <$> l) canon) s r s'.
Proof.
  intros I F. unfold finish_gai. rewrite bind_gets. pose proof (gd_chain _ _ _ _ (iv_good _ _ _ _ _ I)) as C. rewrite (chain_front _ _ _ _ _ C).
  destruct l as [|n l].
  { change (front [] =? NULL) with true. cbv iota. rewrite (bad_run _ _ _ _ C). eexists _, _. split; [done|]. left. split; [done|]. by eapply inv_lost. }
  cbn [front]. pose proof (chain_not_null _ _ _ _ [] _ _ C) as Hn. rewrite (proj2 (Z.eqb_neq _ _) Hn).
  pose proof F as F'. cbn in F'. apply list.Forall_cons in F' as [[_ Hc] _].
  destruct (name_run _ _ _ _ _ _ _ host0 I Hc) as (nomem & s1 & l1 & E & C1 & Eh & M1 & V). rewrite (bind_run _ _ _ _ _ E).
  destruct nomem.
  { rewrite (bad_run _ _ _ _ C1). eexists _, _. split; [done|]. right. split; [done|]. split; [done|]. by exists None. }
  cbn [finish_spec fmap list_fmap]. set (es := (if named && _ then _ else _) : list ent).
  assert (ent_of <$> l1 = es) as V1 by (rewrite V; unfold es; by destruct (_ && _)).
  assert (Forall ip_ent es) as Fe.
  { unfold es. assert (Forall ip_ent (ent_of <$> n :: l)) as F0 by (revert F; apply Forall_impl; by intros ? [? _]).
    cbn in F0. apply list.Forall_cons in F0 as [? ?]. destruct (_ && _); by constructor. }
  assert (n_at n = g_head s1) as ->.
  { rewrite Eh. by rewrite (chain_front _ _ _ _ _ C). }
  assert (exists rc s', (match servname with Some (c :: r) => ga_serv getservbyname (g_head s1) h (c :: r) | _ => ret 0 end) s1 = Ret rc s' /\
    g_head s' = g_head s1 /\
    ((rc = EAI_MEMORY /\ g_malloc s1 <> [] /\ exists l', chain h0 (g_heap s') [] (g_head s1) l') \/
     exists l', chain h0 (g_heap s') [] (g_head s1) l' /\
       match (match servname with Some (c :: r) => serv_spec getservbyname h (c :: r) es | _ => inr es end) with
       | inl e => rc = e /\ rc <> 0
       | inr es' => rc = 0 /\ ent_of <$> l' = es'
       end)) as (rc & s2 & E2 & H2 & R).
  { destruct servname as [[|c r]|].
    - exists 0, s1. split; [done|]. split; [done|]. right. eauto.
    - rewrite <-V1 in Fe. destruct (ga_serv_run getservbyname _ h _ _ _ (c :: r) C1 Fe) as (rc & s2 & E2 & T & R). exists rc, s2. split; [done|].
      split; [apply T|]. destruct R as [R|(l' & C' & V' & ->)]; [by left|right]. exists l'. split; [done|]. rewrite V1 in *. unfold serv_spec, serv_code. rewrite Z.add_0_l.
      destruct (found _ es =? 0); [by destruct (h_socktype h =? 0)|done].
    - exists 0, s1. split; [done|]. split; [done|]. right. eauto. }
  rewrite (bind_run _ _ _ _ _ E2).
  destruct R as [(-> & M & l' & C')|(l' & C' & R)].
  - rewrite <-H2 in C'. change (negb (EAI_MEMORY =? 0)) with true. cbv iota. rewrite (bad_run _ _ _ _ C'). eexists _, _. split; [done|].
    right. split; [done|]. split; [auto|]. by exists None.
  - replace (match servname with Some (c :: s0) => match serv_spec getservbyname h (c :: s0) es with inl e => Failed e None | inr l0 => Found l0 end | _ => Found es end)
      with (match (match servname with Some (c :: r) => serv_spec getservbyname h (c :: r) es | _ => inr es end) with inl e => Failed e None | inr l0 => Found l0 end)
      by (by destruct servname as [[|? ?]|]).
    destruct (match servname with Some (c :: r) => serv_spec getservbyname h (c :: r) es | _ => inr es end) as [e|es'].
    + destruct R as [-> Hr]. rewrite (proj2 (Z.eqb_neq _ _) Hr). cbn [negb]. rewrite <-H2 in C'. rewrite (bad_run _ _ _ _ C').
      eexists _, _. split; [done|]. by left.
    + destruct R as [-> V']. eexists _, _. split; [done|]. left. eauto.
Qed.
End ends.

(** * Whole calls *)

Lemma echeck_family (hostname servname : option bytes) (flags family socktype protocol : Z) :
  ga_echeck hostname servname flags family socktype protocol = 0 ->
  family = AF_UNSPEC \/ family = AF_INET \/ family = AF_INET6 \/ family = AF_LOCAL.
Proof.
  unfold ga_echeck. destruct (negb _); [done|]. destruct (blank _ && blank _); [done|].
  destruct (Z.eqb_spec family AF_UNSPEC); [auto|]. destruct (Z.eqb_spec family AF_INET); [auto|]. destruct (Z.eqb_spec family AF_INET6); [auto|].
  cbn [orb]. destruct (Z.eqb_spec family AF_LOCAL); [auto|done].
Qed.

Lemma ga_nsearch_run (hostname : option bytes) (h : hint) s :
  h_family h = AF_UNSPEC \/ h_family h = AF_INET \/ h_family h = AF_INET6 -> ga_nsearch hostname h s = Ret (searches hostname h) s.
Proof.
  intros Hf. unfold ga_nsearch, searches.
  destruct hostname as [[|c r]|]; destruct Hf as [-> | [-> | ->]]; destruct (has_flag (h_flags h) AI_PASSIVE); done.
Qed.

Section calls.
Context (getservbyname : bytes -> bytes -> option Z) (uname : option bytes).
Context (gethostbyname2 : bytes -> Z -> option hostent) (gethostbyname : bytes -> bool -> h_errno + hostent).
Context (tmp4 : bytes).
Hypothesis hosts2_ok : forall n f p, gethostbyname2 n f = Some p -> host_ok p.
Hypothesis hosts_ok : forall n v6 p, gethostbyname n v6 = inr p -> host_ok p.
Hypothesis tmp4_ok : length tmp4 = INADDRSZ.
Implicit Types (s : gst) (hostname servname : option bytes) (hints : option hint).

Lemma getaddrinfo_run s hostname servname hints :
  is_local hostname servname = false -> h_family (default (mk_hint 0 AF_UNSPEC 0 0) hints) <> AF_LOCAL ->
  exists r s', getaddrinfo getservbyname uname gethostbyname2 gethostbyname tmp4 hostname servname hints s = Ret r s' /\
    ended (g_heap s) (gai_spec getservbyname gethostbyname2 gethostbyname tmp4 hostname servname hints) s r s'.
Proof.
  intros Hl Hf. unfold getaddrinfo, gai_spec. rewrite bind_modify. cbv zeta. set (h := default _ hints) in *.
  set (s0 := set_head _ _).
  assert (inv (g_heap s) (negb (blank hostname) && has_flag (h_flags h) AI_CANONNAME) s0 [] None) as I.
  { split; [|done]. split; [|done]. split; [|constructor|done]. apply owns_refl. }
  destruct (Z.eqb_spec (ga_echeck hostname servname (h_flags h) (h_family h) (h_socktype h) (h_protocol h)) 0) as [E|E]; cbn [negb].
  - rewrite Hl. rewrite (bind_run _ _ _ _ _ (ga_nsearch_run hostname h s0 ltac:(destruct (echeck_family _ _ _ _ _ _ E) as [?|[?|[?|?]]]; auto; done))).
    destruct (search_loop_run _ _ _ hosts2_ok hosts_ok tmp4_ok _ _ h (length (searches hostname h)) (searches hostname h) s0 [] None I) as (e & s1 & E1 & M & R); [constructor|].
    rewrite (bind_run _ _ _ _ _ E1). cbn [fmap list_fmap] in R. change (ent_of <$> []) with (@nil ent) in R.
    destruct (search_all _ _ _ _ _ _ _ _ _) as [[e1 es] canon]. destruct R as [(l & I1 & V & F & ->)|(-> & Hm & l & c & I1)]; cbn [fst snd] in *.
    + destruct e1 as [x|].
      * rewrite (bad_run _ _ _ _ (gd_chain _ _ _ _ (iv_good _ _ _ _ _ I1))). eexists _, _. split; [done|]. left. split; [done|]. by eapply inv_lost.
      * rewrite <-V in *. destruct (finish_gai_run _ getservbyname _ _ _ _ _ (default [] (fst <$> head (searches hostname h))) servname I1 F) as (r & s2 & E2 & [P|(-> & Hm & P)]); exists r, s2 || exists (EAI_MEMORY, NULL), s2.
        -- split; [done|]. by left.
        -- split; [done|]. right. split; [done|]. split; [auto|done].
    + rewrite (bad_run _ _ _ _ (gd_chain _ _ _ _ (iv_good _ _ _ _ _ I1))). eexists _, _. split; [done|]. right. split; [done|]. split; [done|].
      exists c. by eapply inv_lost.
  - rewrite (bad_run _ _ _ _ (gd_chain _ _ _ _ (iv_good _ _ _ _ _ I))). eexists _, _. split; [done|]. by left.
Qed.
End calls.

(** * Errors are not 0 *)
Section codes.
Context (getservbyname : bytes -> bytes -> option Z).
Context (gethostbyname2 : bytes -> Z -> option hostent) (gethostbyname : bytes -> bool -> h_errno + hostent).
Context (tmp4 : bytes).





End codes.

(** * Theorems *)

(** A resolver and a services database to run the code on. *)
Definition demo_host2 (n : bytes) (f : Z) : option hostent :=
  if bool_decide (n = str "www") then
    (if f =? AF_INET then Some (mk_host (str "www.example.org") AF_INET [[10; 0; 0; 1]; [10; 0; 0; 2]]) else None)
  else None.
Definition demo_host (n : bytes) (v6 : bool) : h_errno + hostent :=
  if v6 then inl NO_DATA else match demo_host2 n AF_INET with Some p => inr p | None => inl HOST_NOT_FOUND end.
Definition demo_serv (n proto : bytes) : option Z := if bool_decide (n = str "http") && bool_decide (proto = str "tcp") then Some (htons 80) else None.
Definition empty_gst (m : list bool) : gst := mk_gst ∅ m NULL NULL NULL [].

Lemma demo_host2_ok n f p : demo_host2 n f = Some p -> host_ok p.
Proof.
  unfold demo_host2. destruct (bool_decide _); [|done]. destruct (f =? AF_INET); [|done]. intros [= <-].
  unfold host_ok. cbn. repeat constructor.
Qed.
Lemma demo_host_ok n v6 p : demo_host n v6 = inr p -> host_ok p.
Proof. unfold demo_host. destruct v6; [done|]. destruct (demo_host2 n AF_INET) eqn:E; [|done]. intros [= <-]. by eapply demo_host2_ok. Qed.

(** C11: [getaddrinfo] computes the specified list.  Whatever calls of
    [malloc] fail, a call that is not for a Unix domain name returns: the
    list in memory is the one [gai_spec] gives, made of new blocks only, with
    nothing else allocated; or the error of [gai_spec]; or [EAI_MEMORY], only
    when some [malloc] was to fail.  After an error the memory is as it was
    except that a canonical name that had been copied by then is still
    allocated ([lost_only]): [freeaddrinfo(aihead)] does not see it. *)
Theorem getaddrinfo_refines getservbyname uname gethostbyname2 gethostbyname tmp4 s hostname servname (hints : option hint) :
  (forall n f p, gethostbyname2 n f = Some p -> host_ok p) ->
  (forall n v6 p, gethostbyname n v6 = inr p -> host_ok p) -> length tmp4 = INADDRSZ ->
  is_local hostname servname = false -> h_family (default (mk_hint 0 AF_UNSPEC 0 0) hints) <> AF_LOCAL ->
  exists r s', getaddrinfo getservbyname uname gethostbyname2 gethostbyname tmp4 hostname servname hints s = Ret r s' /\
    ended (g_heap s) (gai_spec getservbyname gethostbyname2 gethostbyname tmp4 hostname servname hints) s r s'.
Proof. intros H2 H1 H4 Hl Hf. by apply getaddrinfo_run. Qed.

Lemma getaddrinfo_refines_witness :
  exists r s', getaddrinfo demo_serv None demo_host2 demo_host [9; 9; 9; 9] (Some (str "www")) (Some (str "http")) None (empty_gst [true; true; false]) = Ret r s' /\
    ended ∅ (gai_spec demo_serv demo_host2 demo_host [9; 9; 9; 9] (Some (str "www")) (Some (str "http")) None) (empty_gst [true; true; false]) r s'.
Proof.
  apply (getaddrinfo_refines demo_serv None demo_host2 demo_host [9; 9; 9; 9] (empty_gst [true; true; false]) (Some (str "www")) (Some (str "http")) None).
  - exact demo_host2_ok.
  - exact demo_host_ok.
  - reflexivity.
  - reflexivity.
  - discriminate.
Defined.


