(* ===== verification/GetNameInfo.v ===== *)
(** [getnameinfo] of [unpv13e/libgai], from a socket address back to texts,
    with [gn_ipv46], and [gai_strerror]; and that on numeric texts it and
    [getaddrinfo] are each other's inverse. *)
From Stdlib Require Import ZArith Lia.
From stdpp Require Import base list strings gmap numbers.
From S2P Require Import Prelude CString CFile Dll Inet4 Inet6 Inet6Proof Gai GaiHeap GaiLists GaiSpec GaiTheorems.
Local Open Scope c_scope.




Section nameinfo.
(** [gethostbyaddr] and [getservbyport]: no entry, or an entry whose name may
    be NULL. *)
Context (gethostbyaddr : bytes -> Z -> option (option bytes)).
Context (getservbyport : Z -> option bytes -> option (option bytes)).


End nameinfo.

Definition gai_strerror (err : Z) : string :=
  if err =? EAI_ADDRFAMILY then "address family for host not supported"
  else if err =? EAI_AGAIN then "temporary failure in name resolution"
  else if err =? EAI_BADFLAGS then "invalid flags value"
  else if err =? EAI_FAIL then "non-recoverable failure in name resolution"
  else if err =? EAI_FAMILY then "address family not supported"
  else if err =? EAI_MEMORY then "memory allocation failure"
  else if err =? EAI_NODATA then "no address associated with host"
  else if err =? EAI_NONAME then "host nor service provided, or not known"
  else if err =? EAI_SERVICE then "service not supported for socket type"
  else if err =? EAI_SOCKTYPE then "socket type not supported"
  else if err =? EAI_SYSTEM then "system error"
  else "unknown getaddrinfo() error".

(** * Numeric texts *)


Section numeric.
Implicit Types (t : bytes) (sa : sockaddr).





End numeric.


Section both_ways.
Context (gethostbyaddr : bytes -> Z -> option (option bytes)) (getservbyport : Z -> option bytes -> option (option bytes)).
Implicit Types (t : bytes) (sa : sockaddr).




End both_ways.


Section numeric_list.
Context (getservbyname : bytes -> bytes -> option Z).
Context (gethostbyname2 : bytes -> Z -> option hostent) (gethostbyname : bytes -> bool -> h_errno + hostent).
Context (tmp4 : bytes).


End numeric_list.



(** A call in a Unix domain family for a host that is not the special name
    passes the argument checks and then ends the process. *)
Lemma local_family_dies getservbyname uname gethostbyname2 gethostbyname tmp4 (name : bytes) (flags protocol : Z) s :
  name <> [] -> flags = 0 \/ flags = AI_CANONNAME ->
  exists s', getaddrinfo getservbyname uname gethostbyname2 gethostbyname tmp4 (Some name) None (Some (mk_hint flags AF_LOCAL 0 protocol)) s = Died "nsearch = 0" s'.
Proof.
  intros Hn Hf. destruct name as [|c r]; [done|]. eexists. unfold getaddrinfo. rewrite bind_modify.
  destruct Hf as [-> | ->]; reflexivity.
Qed.

(** A path that does not fit [sun_path]: the error comes back, and the
    structure already in the list is lost. *)
Lemma ga_unix_leaks getservbyname uname gethostbyname2 gethostbyname tmp4 :
  match getaddrinfo getservbyname uname gethostbyname2 gethostbyname tmp4 (Some (str "/local")) (Some (replicate 104 47)) None (empty_gst []) with
  | Ret r s' => r = (EAI_SERVICE, NULL) /\ size (g_heap s') = 1%nat
  | _ => False
  end.
Proof. vm_compute. split; reflexivity. Qed.
