(* ===== verification/Cksum.v ===== *)
(** The Internet checksum, [in_cksum] of [unpv13e/libfree/in_cksum.c]: its
    value in one's complement arithmetic, and what a receiver can conclude
    from it. *)
From Stdlib Require Import ZArith Lia.
From stdpp Require Import base list strings numbers.
From S2P Require Import Prelude.
Local Open Scope c_scope.

(** [while (nleft > 1)]: what is left of the memory, [nleft] and [sum].  A
    word is read in the byte order of the host, low byte first. *)
Fixpoint cksum_loop (w : bytes) (nleft sum : Z) : M unit (bytes * Z * Z) :=
  if nleft >? 1 then
    match w with
    | lo :: hi :: r => cksum_loop r (nleft - 2) (u32 (sum + (lo + 256 * hi)))
    | _ => undef "read past the data"
    end
  else ret (w, nleft, sum).

Definition in_cksum (addr : bytes) (len : Z) : M unit Z :=
  let* r := cksum_loop addr len 0 in
  let '(w, nleft, sum) := r in
  let* sum := (if nleft =? 1 then
                 match w with b :: _ => ret (u32 (sum + b)) | [] => undef "read past the data" end
               else ret sum) in
  let sum := u32 (Z.shiftr sum 16 + Z.land sum 65535) in
  let sum := u32 (sum + Z.shiftr sum 16) in
  ret (u16 (Z.lnot sum)).

(** * In one's complement *)

(** The 16-bit words, an odd byte at the end taken as a word. *)
Fixpoint words16 (l : bytes) : list Z :=
  match l with
  | lo :: hi :: r => (lo + 256 * hi) :: words16 r
  | [b] => [b]
  | [] => []
  end.
Definition total (ws : list Z) : Z := foldr Z.add 0 ws.
(** The sum of words in one's complement: 0 only for no bits at all. *)
Definition ones_sum (ws : list Z) : Z := if total ws =? 0 then 0 else (total ws - 1) mod 65535 + 1.
(** What a receiver requires (RFC 1071): the one's complement sum over the
    packet and its checksum has all bits set. *)
Definition verifies (l : bytes) : bool := negb (total (words16 l) =? 0) && (total (words16 l) mod 65535 =? 0).

Section sums.
Implicit Types (l : bytes) (ws : list Z).

(** Induction by two bytes. *)
Lemma pair_ind (P : bytes -> Prop) : P [] -> (forall b, P [b]) -> (forall a b l, P l -> P (a :: b :: l)) -> forall l, P l.
Proof. intros H0 H1 H2. fix IH 1. intros [|a [|b l]]; [apply H0|apply H1|apply H2, IH]. Qed.

Lemma words16_app l1 l2 : Nat.Even (length l1) -> words16 (l1 ++ l2) = words16 l1 ++ words16 l2.
Proof.
  intros E. induction l1 as [|b|a b l1 IH] using pair_ind; [done| |].
  - by destruct E as [k Hk]; simpl in Hk; lia.
  - cbn [app words16]. rewrite IH; [done|]. destruct E as [k Hk]. exists (k - 1)%nat. simpl in Hk. lia.
Qed.

Lemma total_app ws1 ws2 : total (ws1 ++ ws2) = total ws1 + total ws2.
Proof. induction ws1 as [|w ws IH]; [done|]. cbn [app total foldr]. fold (total (ws ++ ws2)) (total ws). lia. Qed.

(** The sum stays within 32 bits for up to 128 kilobytes. *)
Lemma words16_bound l : Forall is_byte l -> 0 <= total (words16 l) /\ 2 * total (words16 l) <= 65535 * (Z.of_nat (length l) + 1).
Proof.
  induction l as [|b|a b l IH] using pair_ind; intros F; [done| |].
  - apply list.Forall_cons in F as [? _]. unfold is_byte in *. cbn. lia.
  - apply list.Forall_cons in F as [? F]. apply list.Forall_cons in F as [? F]. specialize (IH F). unfold is_byte in *.
    cbn [words16 total foldr length]. fold (total (words16 l)). lia.
Qed.

Lemma cksum_loop_run l : forall sum, Forall is_byte l -> 0 <= sum -> sum + total (words16 l) < 2 ^ 32 -> exists w nleft sum',
  cksum_loop l (Z.of_nat (length l)) sum tt = Ret (w, nleft, sum') tt /\
  ((nleft = 0 /\ sum' = sum + total (words16 l)) \/
   (nleft = 1 /\ exists b, w = [b] /\ sum' + b = sum + total (words16 l))) /\ 0 <= sum'.
Proof.
  induction l as [|b|a b l IH] using pair_ind; intros sum F Hs Hb.
  - exists [], 0, sum. split; [done|]. split; [|done]. left. cbn. lia.
  - exists [b], 1, sum. split; [done|]. split; [|done]. right. split; [done|]. exists b. cbn. split; [done|]. lia.
  - apply list.Forall_cons in F as [? F]. apply list.Forall_cons in F as [? F]. pose proof (words16_bound l F) as B. unfold is_byte in *.
    cbn [words16 total foldr] in *. fold (total (words16 l)) in *. cbn [length cksum_loop].
    destruct (Z.gtb_spec (Z.of_nat (S (S (length l)))) 1); [|lia].
    rewrite wrapu_small by lia. replace (Z.of_nat (S (S (length l))) - 2) with (Z.of_nat (length l)) by lia.
    destruct (IH (sum + (a + 256 * b)) F) as (w & nleft & sum' & E & R & P); [lia|lia|].
    exists w, nleft, sum'. split; [exact E|]. split; [|done]. destruct R as [[-> R]|(-> & x & -> & R)]; [left|right]; [lia|].
    split; [done|]. exists x. split; [done|]. lia.
Qed.

(** Folding the carries. *)
Lemma fold_carries (x : Z) : 0 <= x < 2 ^ 32 ->
  let s := u32 (Z.shiftr x 16 + Z.land x 65535) in
  u16 (Z.lnot (u32 (s + Z.shiftr s 16))) = 65535 - (if x =? 0 then 0 else (x - 1) mod 65535 + 1).
Proof.
  intros H. cbv zeta. change 65535 with (Z.ones 16) at 1 2. rewrite !Z.land_ones, !Z.shiftr_div_pow2 by lia.
  change (2 ^ 16) with 65536. pose proof (Z.div_mod x 65536 ltac:(lia)) as D. pose proof (Z.mod_pos_bound x 65536 ltac:(lia)) as B.
  set (a := x / 65536) in *. set (b := x mod 65536) in *. assert (0 <= a < 65536) as Ha by (unfold a; split; [apply Z.div_pos; lia|apply Z.div_lt_upper_bound; lia]).
  rewrite (wrapu_small 32 (a + b)) by lia.
  assert (exists y, u32 (a + b + (a + b) / 65536) = a + b + y /\ (a + b + y) mod 65536 = (if x =? 0 then 0 else (x - 1) mod 65535 + 1)) as (y & -> & Hy).
  { destruct (Z.lt_ge_cases (a + b) 65536) as [Hlt|Hge].
    - exists 0. rewrite (Z.div_small (a + b)) by lia. rewrite wrapu_small by lia. split; [done|]. rewrite Z.add_0_r, Z.mod_small by lia.
      destruct (Z.eqb_spec x 0); [lia|]. replace (x - 1) with (a + b - 1 + a * 65535) by lia. rewrite Z_mod_plus_full, Z.mod_small; lia.
    - exists 1. assert ((a + b) / 65536 = 1) as -> by (symmetry; apply (Z.div_unique _ _ _ (a + b - 65536)); lia).
      rewrite wrapu_small by lia. split; [done|]. replace (a + b + 1) with (a + b + 1 - 65536 + 1 * 65536) by lia. rewrite Z_mod_plus_full, Z.mod_small by lia.
      destruct (Z.eqb_spec x 0); [lia|]. replace (x - 1) with (a + b + 1 - 65536 - 1 + (a + 1) * 65535) by lia. rewrite Z_mod_plus_full, Z.mod_small; lia. }
  rewrite <-Hy. unfold wrapu. change (2 ^ 16) with 65536. pose proof (Z.div_mod (a + b + y) 65536 ltac:(lia)) as D2. pose proof (Z.mod_pos_bound (a + b + y) 65536 ltac:(lia)) as B2.
  symmetry. change (Z.ones 16) with 65535. apply (Z.mod_unique _ _ (- 1 - (a + b + y) / 65536)); [lia|]. unfold Z.lnot. lia.
Qed.

Lemma in_cksum_run l : Forall is_byte l -> Z.of_nat (length l) <= 131072 ->
  in_cksum l (Z.of_nat (length l)) tt = Ret (65535 - ones_sum (words16 l)) tt.
Proof.
  intros F Hl. pose proof (words16_bound l F) as B.
  assert (total (words16 l) < 2 ^ 32) as Ht by lia.
  destruct (cksum_loop_run l 0 F) as (w & nleft & sum & E & R & P); [lia|lia|]. unfold in_cksum. rewrite (bind_run _ _ _ _ _ E).
  rewrite Z.add_0_l in R. unfold ones_sum. destruct R as [[-> ->]|(-> & b & -> & R)]; cbv beta iota.
  - change (0 =? 1) with false. cbv iota. unfold ret, bind. f_equal. apply fold_carries. lia.
  - assert (u32 (sum + b) = total (words16 l)) as Es by (rewrite R; apply wrapu_small; lia).
    change (1 =? 1) with true. cbv iota. unfold ret, bind. rewrite Es. f_equal. apply fold_carries. lia.
Qed.

(** The memory behind the data is not looked at. *)
Lemma cksum_loop_app l r sum w n sum' :
  cksum_loop l (Z.of_nat (length l)) sum tt = Ret (w, n, sum') tt -> cksum_loop (l ++ r) (Z.of_nat (length l)) sum tt = Ret (w ++ r, n, sum') tt.
Proof.
  revert sum. induction l as [|b|a b l IH] using pair_ind; intros sum.
  - intros [= <- <- <-]. by destruct r as [|? [|? r]].
  - intros [= <- <- <-]. by destruct r.
  - cbn [app length cksum_loop]. destruct (Z.gtb_spec (Z.of_nat (S (S (length l)))) 1); [|lia].
    replace (Z.of_nat (S (S (length l))) - 2) with (Z.of_nat (length l)) by lia. apply IH.
Qed.

Lemma in_cksum_app l r : Forall is_byte l -> Z.of_nat (length l) <= 131072 ->
  in_cksum (l ++ r) (Z.of_nat (length l)) tt = Ret (65535 - ones_sum (words16 l)) tt.
Proof.
  intros F Hl. rewrite <-in_cksum_run by done. pose proof (words16_bound l F) as B.
  destruct (cksum_loop_run l 0 F) as (w & nleft & sum & E & R & _); [lia|lia|]. unfold in_cksum.
  rewrite (bind_run _ _ _ _ _ E), (bind_run _ _ _ _ _ (cksum_loop_app _ r _ _ _ _ E)).
  destruct R as [[-> _]|(-> & b & -> & _)]; done.
Qed.
End sums.

(** * Theorems *)

Section detect.
Implicit Types (pre post : bytes).

(** The sum with one word singled out. *)
Lemma words16_mid pre (a b : Z) post : Nat.Even (length pre) ->
  total (words16 (pre ++ a :: b :: post)) = total (words16 (pre ++ 0 :: 0 :: post)) + (a + 256 * b).
Proof. intros E. rewrite !words16_app, !total_app by done. cbn. lia. Qed.

Lemma ones_sum_full (ws : list Z) : 65535 - ones_sum ws = 0 <-> total ws <> 0 /\ total ws mod 65535 = 0.
Proof.
  unfold ones_sum. destruct (Z.eqb_spec (total ws) 0) as [->|Hn]; [split; [lia|by intros [? _]]|].
  pose proof (Z.mod_pos_bound (total ws - 1) 65535 ltac:(lia)). pose proof (Z.div_mod (total ws - 1) 65535 ltac:(lia)) as D.
  split.
  - intros E. split; [done|]. symmetry. apply (Z.mod_unique _ _ ((total ws - 1) / 65535 + 1)); lia.
  - intros [_ E]. pose proof (Z.div_mod (total ws) 65535 ltac:(lia)) as D2. rewrite E in D2.
    assert ((total ws - 1) mod 65535 = 65534); [|lia]. symmetry. apply (Z.mod_unique _ _ (total ws / 65535 - 1)); lia.
Qed.

(** A checksum of 0 over the whole packet is what a receiver requires. *)
Lemma in_cksum_verifies l : Forall is_byte l -> Z.of_nat (length l) <= 131072 ->
  in_cksum l (Z.of_nat (length l)) tt = Ret 0 tt <-> verifies l = true.
Proof.
  intros F Hl. rewrite in_cksum_run by done. unfold verifies. rewrite andb_true_iff, negb_true_iff, Z.eqb_neq, Z.eqb_eq, <-ones_sum_full.
  split; [by intros [= E]|by intros ->].
Qed.
End detect.

Section stored.
Context (pre post : bytes).
Hypothesis bytes_ok : Forall is_byte (pre ++ 0 :: 0 :: post).
Hypothesis even_offset : Nat.Even (length pre).
Hypothesis len_ok : Z.of_nat (length (pre ++ 0 :: 0 :: post)) <= 131072.

Lemma in_cksum_mid x y : is_byte x -> is_byte y ->
  in_cksum (pre ++ x :: y :: post) (Z.of_nat (length (pre ++ 0 :: 0 :: post))) tt =
    Ret (65535 - ones_sum (words16 (pre ++ x :: y :: post))) tt.
Proof using bytes_ok len_ok.
  intros Hx Hy. replace (length (pre ++ 0 :: 0 :: post)) with (length (pre ++ x :: y :: post)) in * by (rewrite !length_app; done).
  apply in_cksum_run; [|done]. rewrite !Forall_app, !list.Forall_cons in *. naive_solver.
Qed.

(** The checksum of a packet, stored in its zero field, verifies. *)
Lemma in_cksum_stored : total (words16 (pre ++ 0 :: 0 :: post)) <> 0 ->
  exists c, in_cksum (pre ++ 0 :: 0 :: post) (Z.of_nat (length (pre ++ 0 :: 0 :: post))) tt = Ret c tt /\
    is_byte (c mod 256) /\ is_byte (c / 256) /\
    in_cksum (pre ++ c mod 256 :: c / 256 :: post) (Z.of_nat (length (pre ++ 0 :: 0 :: post))) tt = Ret 0 tt.
Proof using bytes_ok even_offset len_ok.
  intros Hn. set (T := total (words16 (pre ++ 0 :: 0 :: post))) in *. assert (0 <= T) as HT by (by apply words16_bound).
  set (c := 65535 - ones_sum (words16 (pre ++ 0 :: 0 :: post))).
  assert (0 <= c < 65535 /\ (T + c) mod 65535 = 0) as [Hc Hm].
  { unfold c, ones_sum. fold T. destruct (Z.eqb_spec T 0); [done|]. pose proof (Z.mod_pos_bound (T - 1) 65535 ltac:(lia)).
    split; [lia|]. pose proof (Z.div_mod (T - 1) 65535 ltac:(lia)). symmetry. apply (Z.mod_unique _ _ ((T - 1) / 65535 + 1)); lia. }
  pose proof (Z.div_mod c 256 ltac:(lia)) as D. pose proof (Z.mod_pos_bound c 256 ltac:(lia)) as B.
  assert (is_byte (c / 256)) as Hc2 by (split; [apply Z.div_pos; lia|apply Z.div_lt_upper_bound; lia]).
  exists c. split; [apply in_cksum_mid; unfold is_byte; lia|]. split; [done|]. split; [done|].
  rewrite in_cksum_mid by done. f_equal. apply ones_sum_full. rewrite words16_mid by done. fold T.
  replace (c mod 256 + 256 * (c / 256)) with c by lia. split; [lia|done].
Qed.
End stored.

(** A checksum that is stored verifies, and guards against a changed
    word.  With the result for a packet stored in its zero field, at an even
    offset and low byte first, [in_cksum] of the packet is 0 (unless it is all
    zeros); and then it is not 0 for any packet that differs from it in one
    word, except that the two representations of zero are the same. *)
Theorem in_cksum_detects pre post (a b a' b' : Z) :
  Forall is_byte (pre ++ 0 :: 0 :: post) -> Nat.Even (length pre) -> Z.of_nat (length (pre ++ 0 :: 0 :: post)) <= 131072 ->
  total (words16 (pre ++ 0 :: 0 :: post)) <> 0 ->
  is_byte a -> is_byte b -> is_byte a' -> is_byte b' -> (a', b') <> (a, b) ->
  (a + 256 * b = 0 -> a' + 256 * b' <> 65535) -> (a + 256 * b = 65535 -> a' + 256 * b' <> 0) ->
  exists c, in_cksum (pre ++ 0 :: 0 :: post) (Z.of_nat (length (pre ++ 0 :: 0 :: post))) tt = Ret c tt /\
    is_byte (c mod 256) /\ is_byte (c / 256) /\
    in_cksum (pre ++ c mod 256 :: c / 256 :: post) (Z.of_nat (length (pre ++ 0 :: 0 :: post))) tt = Ret 0 tt /\
    (in_cksum (pre ++ a :: b :: post) (Z.of_nat (length (pre ++ 0 :: 0 :: post))) tt = Ret 0 tt ->
     exists r, in_cksum (pre ++ a' :: b' :: post) (Z.of_nat (length (pre ++ 0 :: 0 :: post))) tt = Ret r tt /\ r <> 0).
Proof.
  intros F Ev Hl Hn Ha Hb Ha' Hb' Hne Hz Hf.
  destruct (in_cksum_stored pre post F Ev Hl Hn) as (c & E1 & E2 & E3 & E4). exists c. split; [done|]. split; [done|]. split; [done|]. split; [done|].
  clear c E1 E2 E3 E4. pose proof (in_cksum_mid pre post F Hl) as Run.
  set (T := total (words16 (pre ++ 0 :: 0 :: post))) in *. assert (0 <= T) as HT by (by apply words16_bound).
  assert (forall x y, total (words16 (pre ++ x :: y :: post)) = T + (x + 256 * y)) as Mid by (intros; by apply words16_mid).
  intros E. eexists. split; [by apply Run|]. intros E'%ones_sum_full. rewrite Run in E by done. injection E as E%ones_sum_full.
  rewrite Mid in E, E'. destruct E as [_ E], E' as [_ E']. unfold is_byte in *.
  assert ((a' + 256 * b' - (a + 256 * b)) mod 65535 = 0) as Ed.
  { replace (a' + 256 * b' - (a + 256 * b)) with (T + (a' + 256 * b') - (T + (a + 256 * b))) by lia. by rewrite Zminus_mod, E, E'. }
  pose proof (Z.div_mod (a' + 256 * b' - (a + 256 * b)) 65535 ltac:(lia)) as D2. rewrite Ed in D2.
  assert (a' + 256 * b' = a + 256 * b \/ a' + 256 * b' = a + 256 * b + 65535 \/ a' + 256 * b' = a + 256 * b - 65535) as [?|[?|?]] by lia; [|lia..].
  apply Hne. f_equal; lia.
Qed.

Lemma in_cksum_detects_witness :
  exists c, in_cksum ([69; 0; 0; 20] ++ 0 :: 0 :: [1; 2; 3]) 9 tt = Ret c tt /\ is_byte (c mod 256) /\ is_byte (c / 256) /\
    in_cksum ([69; 0; 0; 20] ++ c mod 256 :: c / 256 :: [1; 2; 3]) 9 tt = Ret 0 tt /\
    (in_cksum ([69; 0; 0; 20] ++ 182 :: 233 :: [1; 2; 3]) 9 tt = Ret 0 tt ->
     exists r, in_cksum ([69; 0; 0; 20] ++ 182 :: 234 :: [1; 2; 3]) 9 tt = Ret r tt /\ r <> 0).
Proof.
  apply (in_cksum_detects [69; 0; 0; 20] [1; 2; 3] 182 233 182 234); unfold is_byte; try lia; try discriminate.
  - repeat constructor; discriminate.
  - by exists 2%nat.
Defined.
