(* ===== verification/RwQueue.v ===== *)
(** The job queue of [apue.3e/threads/rwlock.c]: a doubly linked list of
    jobs the callers allocate, under a reader-writer lock, and that its
    operations are those of a list. *)
From Stdlib Require Import ZArith Lia.
From stdpp Require Import base list strings gmap numbers.
From S2P Require Import Prelude Dll.
Local Open Scope c_scope.

(** [struct job] *)
Record rjob := mk_rjob { r_next : addr; r_prev : addr; r_id : Z }.

#[export] Program Instance rjob_node : Node rjob := {|
  nxt := r_next; prv := r_prev;
  set_nxt a j := mk_rjob a (r_prev j) (r_id j);
  set_prv a j := mk_rjob (r_next j) a (r_id j)
|}.
Solve All Obligations with done.

(** The lock of a queue: free, held for writing, or by some readers. *)
Inductive rwlock := Free | Writing | Reading (n : nat).

(** [struct queue], and the memory of the jobs. *)
Record rqueue := mk_rq { rmem : gmap addr rjob; q_head : addr; q_tail : addr; q_lock : rwlock }.
Definition set_rmem v s := mk_rq v (q_head s) (q_tail s) (q_lock s).
Definition set_head v s := mk_rq (rmem s) v (q_tail s) (q_lock s).
Definition set_tail v s := mk_rq (rmem s) (q_head s) v (q_lock s).
Definition set_lock v s := mk_rq (rmem s) (q_head s) (q_tail s) v.

Definition rload (a : addr) : M rqueue rjob := fun s =>
  match rmem s !! a with Some j => Ret j s | None => Undef "bad job pointer" end.
Definition rupdate (a : addr) (f : rjob -> rjob) : M rqueue unit :=
  let* j := rload a in modify (fun s => set_rmem (<[a := f j]> (rmem s)) s).

(** The lock calls of a thread that finds the lock in the given state; when
    it would have to wait the model does not go on. *)
Definition wrlock : M rqueue unit :=
  let* l := gets q_lock in
  match l with Free => modify (set_lock Writing) | _ => undef "the lock is held" end.
Definition rdlock : M rqueue unit :=
  let* l := gets q_lock in
  match l with
  | Free => modify (set_lock (Reading 1))
  | Reading n => modify (set_lock (Reading (S n)))
  | Writing => undef "the lock is held"
  end.
Definition unlock : M rqueue unit :=
  let* l := gets q_lock in
  match l with
  | Writing | Reading 1 => modify (set_lock Free)
  | Reading (S n) => modify (set_lock (Reading n))
  | _ => undef "the lock is not held"
  end.

(** [err] is what [pthread_rwlock_init] returns. *)
Definition queue_init (err : Z) : M rqueue Z :=
  modify (set_head NULL);;;
  modify (set_tail NULL);;;
  if err =? 0 then modify (set_lock Free);;; ret 0 else ret err.

Definition job_insert (jp : addr) : M rqueue unit :=
  wrlock;;;
  let* h := gets q_head in
  rupdate jp (set_nxt h);;;
  rupdate jp (set_prv NULL);;;
  let* h := gets q_head in
  (if negb (h =? NULL) then rupdate h (set_prv jp) else modify (set_tail jp));;;
  modify (set_head jp);;;
  unlock.

Definition job_append (jp : addr) : M rqueue unit :=
  wrlock;;;
  rupdate jp (set_nxt NULL);;;
  let* t := gets q_tail in
  rupdate jp (set_prv t);;;
  let* t := gets q_tail in
  (if negb (t =? NULL) then rupdate t (set_nxt jp) else modify (set_head jp));;;
  modify (set_tail jp);;;
  unlock.

Definition job_remove (jp : addr) : M rqueue unit :=
  wrlock;;;
  let* h := gets q_head in
  let* t := gets q_tail in
  (if jp =? h then
     let* j := rload jp in
     modify (set_head (r_next j));;;
     (if t =? jp then modify (set_tail NULL)
      else let* j := rload jp in rupdate (r_next j) (set_prv (r_prev j)))
   else if jp =? t then
     let* j := rload jp in
     modify (set_tail (r_prev j));;;
     let* j := rload jp in
     rupdate (r_prev j) (set_nxt (r_next j))
   else
     let* j := rload jp in
     rupdate (r_prev j) (set_nxt (r_next j));;;
     let* j := rload jp in
     rupdate (r_next j) (set_prv (r_prev j)));;;
  unlock.

(** The loop of [job_find]; a list has no more jobs than the memory. *)
Fixpoint rfind_loop (fuel : nat) (jp id : Z) : M rqueue addr :=
  if jp =? NULL then ret NULL
  else
    match fuel with
    | O => nofuel
    | S f => let* j := rload jp in if r_id j =? id then ret jp else rfind_loop f (r_next j) id
    end.
(** [locked]: whether [pthread_rwlock_rdlock] succeeds. *)
Definition job_find (locked : bool) (id : Z) : M rqueue addr :=
  if locked then
    rdlock;;;
    let* h := gets q_head in
    let* n := gets (fun s => size (rmem s)) in
    let* jp := rfind_loop n h id in
    unlock;;;
    ret jp
  else ret NULL.

(** * The queue as a list *)

(** Calls on a queue; the jobs are named by their addresses. *)
Inductive rop := Insert (a : addr) | Append (a : addr) | Remove (a : addr) | Find (locked : bool) (id : Z).
Definition do_rop (o : rop) : M rqueue addr :=
  match o with
  | Insert a => job_insert a;;; ret NULL
  | Append a => job_append a;;; ret NULL
  | Remove a => job_remove a;;; ret NULL
  | Find locked id => job_find locked id
  end.
Fixpoint run_rops (ops : list rop) : M rqueue (list addr) :=
  match ops with [] => ret [] | o :: r => let* a := do_rop o in let* l := run_rops r in ret (a :: l) end.

(** What a call does to the list of the jobs in the queue, when it is legal:
    a job is inserted that exists and is not in the queue, and removed when
    it is.  [ids] are the threads of the jobs. *)
Definition first_of (ids : gmap addr Z) (id : Z) (l : list addr) : addr :=
  default NULL (head (filter (fun a => ids !! a = Some id) l)).
Definition spec_rop (ids : gmap addr Z) (o : rop) (l : list addr) : option (addr * list addr) :=
  match o with
  | Insert a => if bool_decide (is_Some (ids !! a)) && bool_decide (a ∉ l) then Some (NULL, a :: l) else None
  | Append a => if bool_decide (is_Some (ids !! a)) && bool_decide (a ∉ l) then Some (NULL, l ++ [a]) else None
  | Remove a => if bool_decide (a ∈ l) then Some (NULL, filter (fun b => b <> a) l) else None
  | Find locked id => Some (if locked then first_of ids id l else NULL, l)
  end.
Fixpoint spec_rops (ids : gmap addr Z) (ops : list rop) (l : list addr) : option (list addr * list addr) :=
  match ops with
  | [] => Some ([], l)
  | o :: r =>
      match spec_rop ids o l with
      | Some (a, l) => match spec_rops ids r l with Some (outs, l) => Some (a :: outs, l) | None => None end
      | None => None
      end
  end.

(** The queue [s] holds the jobs [l]. *)
Record holds_jobs (ids : gmap addr Z) (s : rqueue) (l : list addr) : Prop := {
  hj_dll : dll (rmem s) (q_head s) (q_tail s) l;
  hj_ids : r_id <$> rmem s = ids;
  hj_null : ids !! NULL = None;
  hj_lock : q_lock s = Free }.

Section rw.
Implicit Types (s : rqueue) (l ads : list addr) (a b : addr) (j : rjob) (ids : gmap addr Z).

Lemma rload_run s a j : rmem s !! a = Some j -> rload a s = Ret j s.
Proof. intros E. unfold rload. by rewrite E. Qed.

Lemma rupdate_run s a f : is_Some (rmem s !! a) -> rupdate a f s = Ret tt (set_rmem (alter f a (rmem s)) s).
Proof.
  intros [j E]. unfold rupdate. rewrite (bind_run _ _ _ _ _ (rload_run s a j E)). by rewrite (alter_known _ _ _ j).
Qed.

Lemma ids_alter f (h : gmap addr rjob) a : (forall j, r_id (f j) = r_id j) -> r_id <$> alter f a h = r_id <$> h.
Proof.
  intros Hf. apply map_eq. intros b. rewrite !lookup_fmap. destruct (decide (a = b)) as [->|].
  - rewrite lookup_alter_eq. destruct (h !! b); cbn; [by rewrite Hf|done].
  - by rewrite lookup_alter_ne.
Qed.
Lemma ids_nxt a b (h : gmap addr rjob) : r_id <$> alter (set_nxt b) a h = r_id <$> h.
Proof. by apply ids_alter. Qed.
Lemma ids_prv a b (h : gmap addr rjob) : r_id <$> alter (set_prv b) a h = r_id <$> h.
Proof. by apply ids_alter. Qed.

Lemma ids_some ids (h : gmap addr rjob) a : r_id <$> h = ids -> is_Some (ids !! a) -> is_Some (h !! a).
Proof. intros <-. rewrite lookup_fmap. by intros ?%fmap_is_Some. Qed.

(** Filling the pointers of a job that is not in the list. *)
Lemma fill_node h head tail l a (f g : rjob -> rjob) j : dll h head tail l -> (a ∉ l) -> h !! a = Some j ->
  dll (alter g a (alter f a h)) head tail l /\ alter g a (alter f a h) !! a = Some (g (f j)).
Proof.
  intros [S N] Ha E. split; [|by rewrite !lookup_alter_eq, E].
  split; [|done]. eapply seg_frame; [|exact S]. intros b Hb. by rewrite !lookup_alter_ne by (by intros ->).
Qed.

Lemma job_insert_run ids s l a : holds_jobs ids s l -> is_Some (ids !! a) -> a ∉ l ->
  exists s', job_insert a s = Ret tt s' /\ holds_jobs ids s' (a :: l).
Proof.
  intros [D I Nu L] Hi Ha. destruct (ids_some _ _ _ I Hi) as [j Ej].
  assert (a <> NULL) as Hn by (intros ->; rewrite Nu in Hi; by destruct Hi).
  destruct (fill_node _ _ _ _ a (set_nxt (q_head s)) (set_prv NULL) j D Ha Ej) as [D1 E1]. set (h1 := alter _ _ _) in *.
  unfold job_insert, wrlock. rewrite bind_assoc, bind_gets, L. rewrite bind_modify, bind_gets.
  rewrite (bind_run _ _ _ _ _ (rupdate_run (set_lock Writing s) a (set_nxt (q_head s)) ltac:(cbn; eauto))).
  rewrite (bind_run _ _ _ _ _ (rupdate_run (set_rmem (alter (set_nxt (q_head s)) a (rmem s)) (set_lock Writing s)) a (set_prv NULL) ltac:(cbn; rewrite lookup_alter_eq, Ej; cbn; eauto))).
  rewrite bind_gets. cbn [q_head set_rmem set_lock rmem].
  assert (r_id <$> h1 = ids) as I1 by (unfold h1; by rewrite ids_prv, ids_nxt).
  destruct (dll_cons _ _ _ _ a _ D1 Hn Ha E1 eq_refl eq_refl) as [[Hh D2]|(Hh & t & Et & D2)].
  - rewrite (proj2 (Z.eqb_eq _ _) Hh). cbn [negb]. eexists. split; [reflexivity|]. by split.
  - rewrite (proj2 (Z.eqb_neq _ _) Hh). cbn [negb]. fold h1.
    rewrite (bind_run _ _ _ _ _ (rupdate_run (set_rmem h1 (set_rmem (alter (set_nxt (q_head s)) a (rmem s)) (set_lock Writing s))) (q_head s) (set_prv a) ltac:(cbn; eauto))).
    eexists. split; [reflexivity|]. split; [|exact (eq_trans (ids_prv _ _ _) I1)|done|done]. rewrite <-(alter_known _ _ _ t Et) in D2. exact D2.
Qed.

Lemma job_append_run ids s l a : holds_jobs ids s l -> is_Some (ids !! a) -> a ∉ l ->
  exists s', job_append a s = Ret tt s' /\ holds_jobs ids s' (l ++ [a]).
Proof.
  intros [D I Nu L] Hi Ha. destruct (ids_some _ _ _ I Hi) as [j Ej].
  assert (a <> NULL) as Hn by (intros ->; rewrite Nu in Hi; by destruct Hi).
  destruct (fill_node _ _ _ _ a (set_nxt NULL) (set_prv (q_tail s)) j D Ha Ej) as [D1 E1]. set (h1 := alter _ _ _) in *.
  unfold job_append, wrlock. rewrite bind_assoc, bind_gets, L. rewrite bind_modify.
  rewrite (bind_run _ _ _ _ _ (rupdate_run (set_lock Writing s) a (set_nxt NULL) ltac:(cbn; eauto))), bind_gets.
  rewrite (bind_run _ _ _ _ _ (rupdate_run (set_rmem (alter (set_nxt NULL) a (rmem s)) (set_lock Writing s)) a (set_prv (q_tail s)) ltac:(cbn; rewrite lookup_alter_eq, Ej; cbn; eauto))).
  rewrite bind_gets. cbn [q_tail set_rmem set_lock rmem].
  assert (r_id <$> h1 = ids) as I1 by (unfold h1; by rewrite ids_prv, ids_nxt).
  destruct (dll_snoc _ _ _ _ a _ D1 Hn Ha E1 eq_refl eq_refl) as [[Hh D2]|(Hh & t & Et & D2)].
  - rewrite (proj2 (Z.eqb_eq _ _) Hh). cbn [negb]. eexists. split; [reflexivity|]. by split.
  - rewrite (proj2 (Z.eqb_neq _ _) Hh). cbn [negb]. fold h1.
    rewrite (bind_run _ _ _ _ _ (rupdate_run (set_rmem h1 (set_rmem (alter (set_nxt NULL) a (rmem s)) (set_lock Writing s))) (q_tail s) (set_nxt a) ltac:(cbn; eauto))).
    eexists. split; [reflexivity|]. split; [|exact (eq_trans (ids_nxt _ _ _) I1)|done|done]. rewrite <-(alter_known _ _ _ t Et) in D2. exact D2.
Qed.

(** Which end of the list a job is at, from its pointers. *)
Lemma dll_ends (h : gmap addr rjob) head tail (l1 : list addr) a (l2 : list addr) j : dll h head tail (l1 ++ a :: l2) -> h !! a = Some j ->
  (l1 = [] /\ head = a /\ r_prev j = NULL \/ l1 <> [] /\ head <> a /\ r_prev j <> NULL /\ (r_prev j ∈ l1) /\ is_Some (h !! r_prev j)) /\
  (l2 = [] /\ tail = a /\ r_next j = NULL \/ l2 <> [] /\ tail <> a /\ r_next j <> NULL /\ (r_next j ∈ l2) /\ is_Some (h !! r_next j)).
Proof.
  intros D Ej. pose proof D as [_ N]. destruct (dll_middle _ _ _ _ _ _ D) as (j' & Ej' & Ha & S1 & S2). rewrite Ej in Ej'. injection Ej' as <-. cbn in S1, S2.
  apply list.NoDup_app in N as (N1 & Hd & N2). apply list.NoDup_cons in N2 as [Ha2 N2]. split.
  - destruct l1 as [|x l1 _] using rev_ind; [destruct S1 as [-> <-]; auto|]. right. destruct (seg_last _ _ _ _ _ _ _ S1) as [E Hx].
    split; [by destruct l1|]. assert (r_prev j ∈ l1 ++ [x]) as Hi by (rewrite E; apply elem_of_app; right; by left).
    split; [|split; [by rewrite E|split; [done|by eapply seg_mem]]]. intros ->. apply (Hd a); [|by left].
    destruct l1 as [|y l1]; cbn in S1; destruct S1 as [-> _]; by left.
  - destruct l2 as [|x l2]; [destruct S2 as [-> <-]; auto|]. right. destruct (seg_nil_next _ _ _ _ _ _ _ S2) as [E Hx].
    split; [done|]. split; [|split; [done|split; [rewrite E; by left|eapply seg_mem; [exact S2|rewrite E; by left]]]].
    intros ->. destruct (exists_last (l := x :: l2)) as (l3 & y & E3); [done|]. rewrite E3 in S2. destruct (seg_last _ _ _ _ _ _ _ S2) as [-> _].
    apply Ha2. rewrite E3. apply elem_of_app. right. by left.
Qed.

Lemma filter_out (l1 : list addr) a (l2 : list addr) : NoDup (l1 ++ a :: l2) -> filter (fun b => b <> a) (l1 ++ a :: l2) = l1 ++ l2.
Proof.
  intros (_ & Hd & [Ha _]%list.NoDup_cons)%list.NoDup_app. rewrite list.filter_app, filter_cons_False by (by intros ?).
  assert (forall l : list addr, a ∉ l -> filter (fun b => b <> a) l = l) as F.
  { induction l as [|b l IH]; [done|]. intros [Hn Hl]%not_elem_of_cons. rewrite filter_cons_True by (by intros ->). f_equal. by apply IH. }
  rewrite !F; [done|done|]. intros Hi. apply (Hd a Hi). by left.
Qed.

Lemma job_remove_run ids s l a : holds_jobs ids s l -> a ∈ l ->
  exists s', job_remove a s = Ret tt s' /\ holds_jobs ids s' (filter (fun b => b <> a) l).
Proof.
  intros [D I Nu L] Ha. apply list_elem_of_split in Ha as (l1 & l2 & ->). pose proof D as [_ N]. rewrite filter_out by done.
  destruct (dll_middle _ _ _ _ _ _ D) as (j & Ej & _). pose proof (dll_unlink _ _ _ _ _ _ j D Ej) as U.
  destruct (dll_ends _ _ _ _ _ _ j D Ej) as [P Q].
  assert ((a ∉ l1) /\ (a ∉ l2) /\ forall b, b ∈ l1 -> b ∉ l2) as (Na1 & Na2 & Nb).
  { apply list.NoDup_app in N as (_ & Hd & [? _]%list.NoDup_cons). split; [intros Hi; apply (Hd a Hi); by left|]. split; [done|].
    intros b Hb Hb2. apply (Hd b Hb). by right. }
  unfold job_remove, wrlock. rewrite bind_assoc, bind_gets, L. rewrite bind_modify, !bind_gets. cbn [q_head q_tail set_lock].
  set (s1 := set_lock Writing s). assert (rmem s1 = rmem s) as Em by done.
  unfold unlink, unlink_next in U. cbn [nxt prv rjob_node] in U.
  destruct P as [(-> & Eh & Ep)|(Hl1 & Eh & Ep & Hp & Sp)].
  - rewrite Eh, Z.eqb_refl. rewrite Ep in U. change (NULL =? NULL) with true in U. cbv iota in U.
    rewrite !bind_assoc, (bind_run _ _ _ _ _ (rload_run s1 a j Ej)). rewrite bind_assoc, bind_modify.
    destruct Q as [(-> & Et & En)|(Hl2 & Et & En & Hn & Sn)].
    + rewrite Et, Z.eqb_refl. rewrite En in *. rewrite bind_modify. eexists. split; [reflexivity|]. by split.
    + rewrite (proj2 (Z.eqb_neq _ _) Et). rewrite (proj2 (Z.eqb_neq _ _) En) in U.
      rewrite bind_assoc, (bind_run _ _ _ _ _ (rload_run (set_head (r_next j) s1) a j Ej)), Ep.
      rewrite (bind_run _ _ _ _ _ (rupdate_run (set_head (r_next j) s1) (r_next j) (set_prv NULL) Sn)).
      eexists. split; [reflexivity|]. split; [exact U|exact (eq_trans (ids_prv _ _ _) I)|done|done].
  - rewrite (proj2 (Z.eqb_neq _ _) (fun E => Eh (eq_sym E))). rewrite (proj2 (Z.eqb_neq _ _) Ep) in U.
    destruct Q as [(-> & Et & En)|(Hl2 & Et & En & Hn & Sn)].
    + rewrite Et, Z.eqb_refl. rewrite En in *. change (NULL =? NULL) with true in U. cbv iota in U.
      rewrite !bind_assoc, (bind_run _ _ _ _ _ (rload_run s1 a j Ej)). rewrite bind_assoc, bind_modify.
      rewrite bind_assoc, (bind_run _ _ _ _ _ (rload_run (set_tail (r_prev j) s1) a j Ej)), En.
      rewrite (bind_run _ _ _ _ _ (rupdate_run (set_tail (r_prev j) s1) (r_prev j) (set_nxt NULL) Sp)).
      eexists. split; [reflexivity|]. split; [exact U|exact (eq_trans (ids_nxt _ _ _) I)|done|done].
    + rewrite (proj2 (Z.eqb_neq _ _) (fun E => Et (eq_sym E))). rewrite (proj2 (Z.eqb_neq _ _) En) in U.
      assert (r_prev j <> r_next j) as Hne by (intros E; apply (Nb _ Hp); by rewrite E).
      rewrite !bind_assoc, (bind_run _ _ _ _ _ (rload_run s1 a j Ej)). rewrite bind_assoc.
      rewrite (bind_run _ _ _ _ _ (rupdate_run s1 (r_prev j) (set_nxt (r_next j)) Sp)). set (s2 := set_rmem _ s1).
      assert (rmem s2 !! a = Some j) as Ej2 by (cbn; rewrite lookup_alter_ne; [done|]; by intros E; rewrite E in Hp).
      rewrite bind_assoc, (bind_run _ _ _ _ _ (rload_run s2 a j Ej2)).
      rewrite (bind_run _ _ _ _ _ (rupdate_run s2 (r_next j) (set_prv (r_prev j)) ltac:(unfold s2; cbn [rmem set_rmem]; by rewrite lookup_alter_ne))).
      eexists. split; [reflexivity|]. rewrite alter_alter_ne in U by done.
      split; [exact U|exact (eq_trans (ids_prv _ _ _) (eq_trans (ids_nxt _ _ _) I))|done|done].
Qed.

Lemma rfind_loop_run ids s (id : Z) fuel : r_id <$> rmem s = ids -> forall p (pr tail : addr) l, seg (rmem s) p pr NULL tail l -> (length l <= fuel)%nat ->
  rfind_loop fuel p id s = Ret (first_of ids id l) s.
Proof.
  intros I. induction fuel as [|fuel IH]; intros p pr tail l S Hl; destruct l as [|a l]; cbn [length] in Hl; try lia.
  - by destruct S as [-> _].
  - by destruct S as [-> _].
  - destruct S as (-> & Ha & j & Ej & _ & S). cbn [rfind_loop]. rewrite (proj2 (Z.eqb_neq _ _) Ha).
    rewrite (bind_run _ _ _ _ _ (rload_run s a j Ej)). unfold first_of.
    assert (ids !! a = Some (r_id j)) as Ei by (by rewrite <-I, lookup_fmap, Ej).
    destruct (Z.eqb_spec (r_id j) id) as [Hid|Hid].
    + by rewrite filter_cons_True by congruence.
    + rewrite filter_cons_False by congruence. by apply (IH _ a tail); [|lia].
Qed.

Lemma list_size (h : gmap addr rjob) p pr q la l : seg h p pr q la l -> NoDup l -> (length l <= size h)%nat.
Proof.
  intros S N. replace (length l) with (size (list_to_set (C := gset addr) l)) by (by rewrite size_list_to_set).
  rewrite <-size_dom. apply subseteq_size. intros a. rewrite elem_of_list_to_set. intros Ha. apply elem_of_dom. by eapply seg_mem.
Qed.

Lemma job_find_run ids s l (locked : bool) (id : Z) : holds_jobs ids s l ->
  job_find locked id s = Ret (if locked then first_of ids id l else NULL) s.
Proof.
  intros [[S N] I Nu L]. unfold job_find. destruct locked; [|done]. unfold rdlock. rewrite bind_assoc, bind_gets, L. rewrite bind_modify, !bind_gets.
  rewrite (bind_run _ _ _ _ _ (rfind_loop_run ids (set_lock (Reading 1) s) id _ I _ _ _ _ S (list_size _ _ _ _ _ _ S N))).
  destruct s as [mem hd tl lk]. cbn in L. by subst lk.
Qed.

Lemma do_rop_run ids s l (o : rop) (r : addr) l' : holds_jobs ids s l -> spec_rop ids o l = Some (r, l') ->
  exists s', do_rop o s = Ret r s' /\ holds_jobs ids s' l'.
Proof.
  intros H E. destruct o as [a|a|a|locked id]; cbn [spec_rop do_rop] in *.
  - destruct (decide (is_Some (ids !! a))) as [Hi|]; [|by rewrite (bool_decide_false (is_Some _)) in E].
    destruct (decide (a ∉ l)) as [Ha|]; [|by rewrite (bool_decide_false (a ∉ l)), andb_false_r in E].
    rewrite !bool_decide_true in E by done. injection E as <- <-. destruct (job_insert_run _ _ _ _ H Hi Ha) as (s' & E & H').
    exists s'. by rewrite (bind_run _ _ _ _ _ E).
  - destruct (decide (is_Some (ids !! a))) as [Hi|]; [|by rewrite (bool_decide_false (is_Some _)) in E].
    destruct (decide (a ∉ l)) as [Ha|]; [|by rewrite (bool_decide_false (a ∉ l)), andb_false_r in E].
    rewrite !bool_decide_true in E by done. injection E as <- <-. destruct (job_append_run _ _ _ _ H Hi Ha) as (s' & E & H').
    exists s'. by rewrite (bind_run _ _ _ _ _ E).
  - case_bool_decide as Ha; [|done]. injection E as <- <-. destruct (job_remove_run _ _ _ _ H Ha) as (s' & E & H').
    exists s'. by rewrite (bind_run _ _ _ _ _ E).
  - injection E as <- <-. exists s. split; [by apply job_find_run|done].
Qed.
End rw.

(** The queue behaves as a list.  Initialised, it is empty; and any
    sequence of legal calls returns what the same calls on a list of jobs
    return, with the queue holding the jobs of that list, in order, and the
    lock free, at the end.  In particular every walk of [job_find] ends. *)
Theorem rw_queue_is_list ids s ops outs l :
  r_id <$> rmem s = ids -> ids !! NULL = None -> spec_rops ids ops [] = Some (outs, l) ->
  exists s', (queue_init 0;;; run_rops ops) s = Ret outs s' /\ holds_jobs ids s' l.
Proof.
  intros I Nu E. unfold queue_init. rewrite !bind_assoc, bind_modify, bind_assoc, bind_modify.
  change (0 =? 0) with true. cbv iota. rewrite bind_assoc, bind_modify. rewrite (bind_run (ret 0) _ _ _ _ eq_refl).
  set (s0 := set_lock Free _). assert (holds_jobs ids s0 []) as H by (by split; [split; [|constructor]|..]).
  clearbody s0. revert s0 outs E H. generalize (@nil addr). induction ops as [|o ops IH]; intros l0 s0 outs E H; cbn [spec_rops run_rops] in *.
  - injection E as <- <-. by exists s0.
  - destruct (spec_rop ids o l0) as [[r l1]|] eqn:E1; [|done]. destruct (spec_rops ids ops l1) as [[outs1 l2]|] eqn:E2; [|done]. injection E as <- <-.
    destruct (do_rop_run _ _ _ _ _ _ H E1) as (s1 & R1 & H1). rewrite (bind_run _ _ _ _ _ R1).
    destruct (IH _ _ _ E2 H1) as (s2 & R2 & H2). rewrite (bind_run _ _ _ _ _ R2). by exists s2.
Qed.

Definition three_jobs : gmap addr rjob := <[1 := mk_rjob 0 0 7]> (<[2 := mk_rjob 0 0 8]> {[3 := mk_rjob 0 0 7]}).
Lemma rw_queue_is_list_witness :
  exists s', (queue_init 0;;; run_rops [Append 1; Insert 2; Append 3; Remove 1; Find true 7]) (mk_rq three_jobs 9 9 Writing) =
    Ret [0; 0; 0; 0; 3] s' /\ holds_jobs (r_id <$> three_jobs) s' [2; 3].
Proof. apply (rw_queue_is_list (r_id <$> three_jobs) (mk_rq three_jobs 9 9 Writing)); reflexivity. Defined.
