(* ===== verification/Barrier.v ===== *)
(** The parallel sort of [apue.3e/threads/barrier.c]: threads that each sort
    a section of an array, a barrier, and the merge of the sections. *)
From Stdlib Require Import ZArith Lia.
From stdpp Require Import base list strings sorting numbers.
From S2P Require Import Prelude CString CFile.
Local Open Scope c_scope.

(** Compare two long integers. *)
Definition complong (l1 l2 : Z) : Z := if l1 =? l2 then 0 else if l1 <? l2 then -1 else 1.

(** The two global arrays. *)
Record bar := mk_bar { nums : list Z; snums : list Z }.
Definition set_nums v s := mk_bar v (snums s).
Definition set_snums v s := mk_bar (nums s) v.

Definition elem {A} (l : list A) (i : nat) : M bar A :=
  match l !! i with Some x => ret x | None => undef "read past the array" end.

Section program.
(** The numbers of threads and of numbers for each; the program has 8 and
    1000000. *)
Context (NTHR TNUM : nat).
Definition NUMNUM : nat := (NTHR * TNUM)%nat.
(** [heapsort] of the C library. *)
Context (heapsort : (Z -> Z -> Z) -> list Z -> list Z).

(** The thread that sorts the section at [idx], up to the barrier. *)
Definition thr_fn (idx : nat) : M bar unit :=
  let* a := gets nums in
  if (length a <? idx + TNUM)%nat then undef "section past the array"
  else modify (set_nums (splice idx (heapsort complong (slice idx TNUM a)) a)).

(** The loop over the sections, [k] of them from [i] on, for the least of
    their first numbers; [minidx] has no value at first. *)
Fixpoint min_loop (k i : nat) (idx : list nat) (num : Z) (minidx : option nat) : M bar (Z * option nat) :=
  match k with
  | O => ret (num, minidx)
  | S k =>
      let* p := elem idx i in
      if (p <? (i + 1) * TNUM)%nat then
        let* a := gets nums in
        let* v := elem a p in
        if v <? num then min_loop k (S i) idx v (Some i) else min_loop k (S i) idx num minidx
      else min_loop k (S i) idx num minidx
  end.

(** The loop over [snums], [k] times from [sidx] on. *)
Fixpoint merge_loop (k sidx : nat) (idx : list nat) (minidx : option nat) : M bar unit :=
  match k with
  | O => skip
  | S k =>
      let* r := min_loop NTHR 0 idx LONG_MAX minidx in
      match r.2 with
      | None => undef "minidx is not set"
      | Some m =>
          let* p := elem idx m in
          let* a := gets nums in
          let* v := elem a p in
          let* out := gets snums in
          (if (sidx <? length out)%nat then modify (set_snums (<[sidx := v]> out)) else undef "write past snums");;;
          merge_loop k (S sidx) (<[m := S p]> idx) (Some m)
      end
  end.
Definition merge : M bar unit := merge_loop NUMNUM 0 ((fun i => i * TNUM)%nat <$> seq 0 NTHR) None.

(** The barrier: how many threads it waits for, and how many have called
    [pthread_barrier_wait].  A caller waits for the round its call is in, and
    a round is over when as many calls as the barrier counts have been made. *)
Record barrier := mk_barrier { b_count : nat; b_calls : nat }.
Definition round_of (calls : nat) (b : barrier) : nat := (calls / b_count b)%nat.
Definition round_over (round : nat) (b : barrier) : bool := (S round * b_count b <=? b_calls b)%nat.

(** Where [main] is: creating its threads, waiting in a round, done. *)
Inductive main_pc := Creating | Waiting (round : nat) | Merged.
#[export] Instance main_pc_eq_dec : EqDecision main_pc.
Proof. solve_decision. Defined.

(** The program: the arrays, [b], the threads that have called
    [pthread_barrier_wait] (nothing follows it in [thr_fn]), and [main]. *)
Record prog := mk_prog { arrays : bar; b : barrier; called : list bool; at_main : main_pc }.
Definition set_arrays v p := mk_prog v (b p) (called p) (at_main p).
Definition set_b v p := mk_prog (arrays p) v (called p) (at_main p).
Definition set_called v p := mk_prog (arrays p) (b p) v (at_main p).
Definition set_at_main v p := mk_prog (arrays p) (b p) (called p) v.

(** The call of [pthread_barrier_wait], up to the wait; gives the round. *)
Definition barrier_call : M prog nat :=
  let* b := gets b in
  modify (set_b (mk_barrier (b_count b) (S (b_calls b))));;;
  ret (round_of (b_calls b) b).

(** A turn of a thread, up to where it may have to wait. *)
Inductive who := Worker (i : nat) | Main.
Definition turn (w : who) : M prog unit :=
  match w with
  | Worker i =>
      let* c := gets called in
      match c !! i with
      | Some false =>
          zoom arrays set_arrays (thr_fn (i * TNUM));;;
          let* _ := barrier_call in
          modify (set_called (<[i := true]> c))
      | _ => skip
      end
  | Main =>
      let* m := gets at_main in
      match m with
      | Creating => let* round := barrier_call in modify (set_at_main (Waiting round))
      | Waiting round =>
          let* b := gets b in
          if round_over round b then zoom arrays set_arrays merge;;; modify (set_at_main Merged) else skip
      | Merged => skip
      end
  end.

(** [main] after the array is filled, and the threads, as they are scheduled. *)
Fixpoint turns (sched : list who) : M prog unit :=
  match sched with [] => skip | w :: r => turn w;;; turns r end.
Definition barrier_init (count : nat) : barrier := mk_barrier count 0.
Definition sort_main (sched : list who) (arr : bar) : outcome prog unit :=
  turns sched (mk_prog arr (barrier_init (NTHR + 1)) (replicate NTHR false) Creating).

(** * Correctness *)

(** What the C library promises. *)
Hypothesis heapsort_sorts : forall l, StronglySorted (fun a b => complong a b <= 0) (heapsort complong l) /\ heapsort complong l ≡ₚ l.

Implicit Types (a : list Z) (segs rem : list (list Z)) (s : bar).

Lemma complong_le (x y : Z) : complong x y <= 0 <-> x <= y.
Proof. unfold complong. destruct (Z.eqb_spec x y); [lia|]. destruct (Z.ltb_spec x y); lia. Qed.

Lemma heapsort_run l : StronglySorted Z.le (heapsort complong l) /\ heapsort complong l ≡ₚ l.
Proof.
  destruct (heapsort_sorts l) as [S P]. split; [|done]. clear P. induction S as [|x l' S IH F]; constructor; [done|].
  revert F. apply Forall_impl. intros y. apply complong_le.
Qed.

(** An array as its sections. *)
Definition sections segs a : Prop := a = mjoin segs /\ length segs = NTHR /\ Forall (fun l => length l = TNUM) segs.

Lemma mjoin_split segs (i : nat) l : segs !! i = Some l -> mjoin segs = mjoin (take i segs) ++ l ++ mjoin (drop (S i) segs).
Proof. intros E. rewrite <-(take_drop_middle segs i l E) at 1. by rewrite join_app. Qed.

Lemma mjoin_take_length segs (i : nat) : (i <= length segs)%nat -> Forall (fun l => length l = TNUM) segs -> length (mjoin (take i segs)) = (i * TNUM)%nat.
Proof.
  revert i. induction segs as [|l segs IH]; intros [|i] Hi F; cbn in *; try done; [lia|]. apply list.Forall_cons in F as [Hl F].
  change (length (l ++ mjoin (take i segs)) = S i * TNUM)%nat. rewrite length_app, IH by (done || lia). lia.
Qed.

(** A thread sorts its section. *)
Lemma thr_run s segs (i : nat) l : sections segs (nums s) -> segs !! i = Some l ->
  thr_fn (i * TNUM) s = Ret tt (set_nums (mjoin (<[i := heapsort complong l]> segs)) s) /\
  sections (<[i := heapsort complong l]> segs) (mjoin (<[i := heapsort complong l]> segs)).
Proof.
  intros (Ea & Hn & F) El. pose proof (lookup_lt_Some _ _ _ El) as Hi. pose proof (mjoin_split _ _ _ El) as Em.
  pose proof (mjoin_take_length segs i ltac:(lia) F) as Lp. assert (length l = TNUM) as Ll by (rewrite list.Forall_forall in F; apply F; by eapply list_elem_of_lookup_2).
  destruct (heapsort_run l) as [_ P]. pose proof (Permutation_length P) as Lh. split.
  - unfold thr_fn. rewrite bind_gets, Ea, Em.
    rewrite !length_app, Lp, Ll. destruct (Nat.ltb_spec (i * TNUM + (TNUM + length (mjoin (drop (S i) segs)))) (i * TNUM + TNUM)); [lia|].
    unfold modify. do 2 f_equal. rewrite <-Lp. rewrite <-Ll at 1. rewrite slice_mid, splice_mid by done.
    rewrite (mjoin_split (<[i := heapsort complong l]> segs) i (heapsort complong l)) by (by rewrite list_lookup_insert_eq).
    rewrite take_insert_ge, drop_insert_lt by lia. done.
  - split; [done|]. split; [by rewrite length_insert|]. apply Forall_insert; [done|]. by rewrite Lh.
Qed.

(** After the threads, in any order: sorted sections with the same numbers. *)
Lemma insert_perm segs (i : nat) l l' : segs !! i = Some l -> l' ≡ₚ l -> mjoin (<[i := l']> segs) ≡ₚ mjoin segs.
Proof.
  intros E P. rewrite (mjoin_split segs i l E). pose proof (lookup_lt_Some _ _ _ E).
  rewrite (mjoin_split (<[i := l']> segs) i l') by (by rewrite list_lookup_insert_eq).
  rewrite take_insert_ge, drop_insert_lt by lia. by rewrite P.
Qed.

(** What is left to merge: section [i] is [pre ++ rem_i], and [idx[i]]
    points behind [pre]. *)
Definition at_rem segs rem (idx : list nat) : Prop :=
  length rem = NTHR /\
  forall i r, rem !! i = Some r -> exists l pre, segs !! i = Some l /\ l = pre ++ r /\ idx !! i = Some (i * TNUM + length pre)%nat.

(** The element [idx[i]] points to, if it is inside its section. *)
Lemma rem_head segs a rem (idx : list nat) (i : nat) r : sections segs a -> at_rem segs rem idx -> rem !! i = Some r -> exists p,
  idx !! i = Some p /\ (p <? (i + 1) * TNUM)%nat = negb (bool_decide (r = [])) /\ (forall x r', r = x :: r' -> a !! p = Some x).
Proof.
  intros (Ea & Hn & F) [_ R] E. destruct (R i r E) as (l & pre & El & -> & Ei). eexists. split; [exact Ei|].
  rewrite list.Forall_forall in F. pose proof (F _ (list_elem_of_lookup_2 _ _ _ El)) as Hl. rewrite length_app in Hl. split.
  - destruct r as [|x r]; cbn [length] in Hl; [rewrite bool_decide_true by done|rewrite bool_decide_false by done].
    + destruct (Nat.ltb_spec (i * TNUM + length pre) ((i + 1) * TNUM)); [lia|done].
    + destruct (Nat.ltb_spec (i * TNUM + length pre) ((i + 1) * TNUM)); [done|lia].
  - intros x r' ->. rewrite Ea. cbn [length] in Hl. apply (join_lookup_Some_same_length' TNUM); [by apply list.Forall_forall|lia|].
    exists (pre ++ x :: r'). split; [done|]. by apply list_lookup_middle.
Qed.

(** The inner loop finds the least of the first elements from [i] on, if it
    is below [num]. *)
Lemma min_loop_run segs rem (idx : list nat) s : sections segs (nums s) -> at_rem segs rem idx -> forall k i (num : Z) (mi : option nat), (i + k = NTHR)%nat ->
  exists num' mi', min_loop k i idx num mi s = Ret (num', mi') s /\ num' <= num /\
    (forall j x r, (i <= j)%nat -> rem !! j = Some (x :: r) -> num' <= x) /\
    ((num' = num /\ mi' = mi) \/ (exists m r, mi' = Some m /\ rem !! m = Some (num' :: r) /\ num' < num)).
Proof.
  intros S R k. induction k as [|k IH]; intros i num mi Hk; cbn [min_loop].
  { exists num, mi. split; [done|]. split; [lia|]. split; [|by left]. intros j x r Hj E. apply lookup_lt_Some in E. destruct R as [L _]. lia. }
  destruct (lookup_lt_is_Some_2 rem i) as [r Er]; [destruct R as [L _]; lia|].
  destruct (rem_head _ _ _ _ _ _ S R Er) as (p & Ep & Hp & Hh).
  assert (elem idx i s = Ret p s) as E1 by (unfold elem; by rewrite Ep). rewrite (bind_run _ _ _ _ _ E1), Hp.
  destruct r as [|x r].
  - rewrite bool_decide_true by done. cbn [negb]. destruct (IH (Datatypes.S i) num mi ltac:(lia)) as (n & m & E & H1 & H2 & H3).
    exists n, m. split; [done|]. split; [done|]. split; [|done]. intros j y r' Hj Ej. apply (H2 j y r'); [|done].
    destruct (decide (j = i)) as [->|]; [congruence|lia].
  - rewrite bool_decide_false by done. cbn [negb]. rewrite bind_gets. pose proof (Hh x r eq_refl) as Ex.
    assert (elem (nums s) p s = Ret x s) as E2 by (unfold elem; by rewrite Ex). rewrite (bind_run _ _ _ _ _ E2).
    destruct (Z.ltb_spec x num).
    + destruct (IH (Datatypes.S i) x (Some i) ltac:(lia)) as (n & m & E & H1 & H2 & H3). exists n, m. split; [done|]. split; [lia|].
      split.
      * intros j y r' Hj Ej. destruct (decide (j = i)) as [->|]; [assert (y = x) by congruence; lia|]. apply (H2 j y r'); [lia|done].
      * right. destruct H3 as [[-> ->]|(m' & r' & -> & Em & Hlt)]; [by exists i, r|]. exists m', r'. split; [done|]. split; [done|lia].
    + destruct (IH (Datatypes.S i) num mi ltac:(lia)) as (n & m & E & H1 & H2 & H3). exists n, m. split; [done|]. split; [done|]. split; [|done].
      intros j y r' Hj Ej. destruct (decide (j = i)) as [->|]; [assert (y = x) by congruence; lia|]. apply (H2 j y r'); [lia|done].
Qed.

Lemma rem_sorted rem (m : nat) x r : Forall (StronglySorted Z.le) rem -> rem !! m = Some (x :: r) -> Forall (StronglySorted Z.le) (<[m := r]> rem) /\ Forall (Z.le x) r.
Proof.
  intros F E. pose proof E as E'. apply list_elem_of_lookup_2 in E'. rewrite list.Forall_forall in F. pose proof (F _ E') as So.
  apply sorting.StronglySorted_cons in So as [Hx So]. split; [|done]. apply Forall_insert; [by apply list.Forall_forall|done].
Qed.

Lemma rem_perm rem (m : nat) x r : rem !! m = Some (x :: r) -> mjoin rem ≡ₚ x :: mjoin (<[m := r]> rem).
Proof.
  intros E. rewrite (mjoin_split rem m _ E). pose proof (lookup_lt_Some _ _ _ E).
  rewrite (mjoin_split (<[m := r]> rem) m r) by (by rewrite list_lookup_insert_eq). rewrite take_insert_ge, drop_insert_lt by lia.
  cbn [app]. symmetry. apply Permutation_middle.
Qed.

(** The least first element is the least of all that is left. *)
Lemma least_of_all rem (m : nat) x r : Forall (StronglySorted Z.le) rem -> rem !! m = Some (x :: r) ->
  (forall j y r', rem !! j = Some (y :: r') -> x <= y) -> Forall (Z.le x) (mjoin rem).
Proof.
  intros F Em Hm. apply list.Forall_forall. intros y (l & Hy & Hl)%list_elem_of_join. apply list_elem_of_lookup in Hl as [j Ej].
  destruct l as [|z l]; [by apply elem_of_nil in Hy|]. specialize (Hm _ _ _ Ej). destruct (rem_sorted rem j z l F Ej) as [_ Hz].
  apply elem_of_cons in Hy as [->|Hy]; [done|]. rewrite list.Forall_forall in Hz. specialize (Hz _ Hy). lia.
Qed.

Lemma merge_loop_run segs k : forall (sidx : nat) rem (idx : list nat) (mi : option nat) s out (rest : list Z),
  sections segs (nums s) -> at_rem segs rem idx -> Forall (StronglySorted Z.le) rem -> Forall (fun x => x < LONG_MAX) (mjoin rem) ->
  length (mjoin rem) = k -> snums s = out ++ rest -> length out = sidx -> length rest = k ->
  StronglySorted Z.le out -> (forall x, x ∈ out -> Forall (Z.le x) (mjoin rem)) ->
  exists out', merge_loop k sidx idx mi s = Ret tt (set_snums out' s) /\ StronglySorted Z.le out' /\ out' ≡ₚ out ++ mjoin rem.
Proof.
  induction k as [|k IH]; intros sidx rem idx mi s out rest S R F B Hk Es Ho Hr So Hle; cbn [merge_loop].
  { apply length_zero_iff_nil in Hk, Hr. rewrite Hk, Hr, app_nil_r in *. exists out. split; [|by split].
    rewrite <-Es. by destruct s. }
  destruct (min_loop_run _ _ _ s S R NTHR 0 LONG_MAX mi eq_refl) as (x & mi' & E1 & _ & Hm & C). rewrite (bind_run _ _ _ _ _ E1). cbn [snd].
  assert (exists m r, mi' = Some m /\ rem !! m = Some (x :: r)) as (m & r & -> & Em).
  { destruct C as [[-> _]|(m & r & -> & Em & _)]; [exfalso|eauto]. destruct (mjoin rem) as [|y l] eqn:Ej; [done|].
    assert (y ∈ mjoin rem) as Hy by (rewrite Ej; by left). apply list_elem_of_join in Hy as (lr & Hy & Hl). apply list_elem_of_lookup in Hl as [j Hj].
    destruct lr as [|z lr]; [by apply elem_of_nil in Hy|]. specialize (Hm j z lr ltac:(lia) Hj). rewrite <-Ej in B. rewrite list.Forall_forall in B.
    assert (z < LONG_MAX); [|lia]. apply B, list_elem_of_join. exists (z :: lr). split; [by left|]. by eapply list_elem_of_lookup_2. }
  destruct (rem_head _ _ _ _ _ _ S R Em) as (p & Ep & _ & Hh). pose proof (Hh x r eq_refl) as Ex.
  assert (elem idx m s = Ret p s) as E2 by (unfold elem; by rewrite Ep). rewrite (bind_run _ _ _ _ _ E2), bind_gets.
  assert (elem (nums s) p s = Ret x s) as E3 by (unfold elem; by rewrite Ex). rewrite (bind_run _ _ _ _ _ E3), bind_gets.
  destruct rest as [|z rest]; [done|]. rewrite Es. rewrite length_app, Ho. cbn [length].
  destruct (Nat.ltb_spec sidx (sidx + Datatypes.S (length rest))); [|lia]. rewrite bind_modify.
  assert (<[sidx := x]> (out ++ z :: rest) = (out ++ [x]) ++ rest) as Ei.
  { rewrite insert_app_r_alt by lia. rewrite Ho, Nat.sub_diag, <-app_assoc. done. }
  rewrite Ei. set (rem' := <[m := r]> rem). destruct (rem_sorted _ _ _ _ F Em) as [F' Hxr]. pose proof (rem_perm _ _ _ _ Em) as P. fold rem' in F', P.
  pose proof (least_of_all _ _ _ _ F Em (fun j y r' => Hm j y r' ltac:(lia))) as Hall. rewrite P in Hall, B. apply list.Forall_cons in Hall as [_ Hall].
  apply list.Forall_cons in B as [_ B].
  destruct (IH (Datatypes.S sidx) rem' (<[m := Datatypes.S p]> idx) (Some m) (set_snums ((out ++ [x]) ++ rest) s) (out ++ [x]) rest) as (out' & E & So' & P'); try done.
  - destruct R as [L R]. split; [by rewrite <-L; apply length_insert|]. intros i ri Hi. unfold rem' in Hi.
    destruct (decide (i = m)) as [->|Hne].
    + rewrite list_lookup_insert_eq in Hi by (by eapply lookup_lt_Some). injection Hi as <-. destruct (R m _ Em) as (l & pre & El & -> & Epre).
      exists (pre ++ x :: r), (pre ++ [x]). split; [done|]. split; [by rewrite <-app_assoc|]. rewrite list_lookup_insert_eq by (by eapply lookup_lt_Some).
      rewrite Ep in Epre. injection Epre as ->. rewrite length_app. cbn [length]. f_equal. lia.
    + rewrite list_lookup_insert_ne in Hi by done. destruct (R i ri Hi) as (l & pre & El & -> & Epre). exists (pre ++ ri), pre.
      rewrite list_lookup_insert_ne by done. done.
  - apply Permutation_length in P. cbn [length] in P. lia.
  - rewrite length_app. cbn [length]. lia.
  - cbn [length] in Hr. lia.
  - apply sorting.StronglySorted_app. split; [|split; [done|repeat constructor]]. intros y w Hy Hw. apply list_elem_of_singleton in Hw as ->.
    specialize (Hle y Hy). rewrite P in Hle. by apply list.Forall_cons in Hle as [? _].
  - intros y [Hy|Hy%list_elem_of_singleton]%elem_of_app; [|by subst]. specialize (Hle y Hy). rewrite P in Hle. by apply list.Forall_cons in Hle as [_ ?].
  - exists out'. split; [exact E|]. split; [done|]. rewrite P', P, <-app_assoc. done.
Qed.

Lemma sections_exist n : forall a, length a = (n * TNUM)%nat -> exists segs, a = mjoin segs /\ length segs = n /\ Forall (fun l => length l = TNUM) segs.
Proof.
  induction n as [|n IH]; intros a Ha.
  - exists []. by destruct a.
  - destruct (IH (drop TNUM a)) as (segs & E & L & F); [rewrite length_drop; lia|]. exists (take TNUM a :: segs).
    split; [change (a = take TNUM a ++ mjoin segs); by rewrite <-E, take_drop|]. split; [cbn; lia|]. constructor; [rewrite length_take; lia|done].
Qed.

Lemma start_rem segs : length segs = NTHR -> at_rem segs segs ((fun i => i * TNUM)%nat <$> seq 0 NTHR).
Proof.
  intros L. split; [done|]. intros i r E. exists r, []. split; [done|]. split; [done|]. rewrite list_lookup_fmap, lookup_seq_lt by (apply lookup_lt_Some in E; lia).
  cbn. f_equal. lia.
Qed.
(** The merge of sections that are sorted. *)
Lemma merge_run segs s a : sections segs (nums s) -> Forall (StronglySorted Z.le) segs -> nums s ≡ₚ a ->
  length (snums s) = NUMNUM -> Forall (fun x => x < LONG_MAX) a ->
  exists out, merge s = Ret tt (set_snums out s) /\ StronglySorted Z.le out /\ out ≡ₚ a.
Proof.
  intros S F P Lo B. pose proof S as (E & L & F').
  destruct (merge_loop_run segs NUMNUM 0 segs ((fun i => i * TNUM)%nat <$> seq 0 NTHR) None s [] (snums s)) as (out & E2 & So & P2); try done.
  - by apply start_rem.
  - by rewrite <-E, P.
  - rewrite <-(firstn_all segs), mjoin_take_length, L by done. done.
  - constructor.
  - by intros x ?%elem_of_nil.
  - exists out. split; [exact E2|]. split; [done|]. by rewrite P2, <-E.
Qed.

(** * The barrier *)

(** How many threads have called [pthread_barrier_wait]. *)
Definition trues (c : list bool) : nat := length (filter (fun x => x = true) c).

Lemma trues_le c : (trues c <= length c)%nat.
Proof. apply length_filter. Qed.
Lemma trues_call c : forall i, c !! i = Some false -> trues (<[i := true]> c) = S (trues c).
Proof.
  unfold trues. induction c as [|x c IH]; intros [|i] E; cbn in E; try done.
  - injection E as ->. done.
  - change (<[S i := true]> (x :: c)) with (x :: <[i := true]> c). rewrite !filter_cons.
    destruct (decide (x = true)); cbn [length]; by rewrite IH.
Qed.
Lemma trues_all c : trues c = length c -> forall i, (i < length c)%nat -> c !! i = Some true.
Proof.
  induction c as [|x c IH]; intros E i Hi; cbn [length] in *; [lia|]. pose proof (trues_le c) as Hle.
  unfold trues in *. rewrite filter_cons in E. destruct (decide (x = true)) as [->|]; cbn [length] in E; [|lia].
  destruct i as [|i]; [done|]. apply IH; lia.
Qed.
Lemma all_trues c : (forall i, (i < length c)%nat -> c !! i = Some true) -> trues c = length c.
Proof.
  induction c as [|x c IH]; intros H; [done|]. pose proof (H 0%nat ltac:(cbn; lia)) as [= ->].
  unfold trues in *. rewrite filter_cons_True by done. cbn [length]. f_equal. apply IH. intros i Hi. apply (H (S i)). cbn. lia.
Qed.

Section runs.
Context (nums0 snums0 : list Z).
Hypothesis snums0_length : length snums0 = NUMNUM.
Hypothesis nums0_small : Forall (fun x => x < LONG_MAX) nums0.

(** The sections of the threads that have called are sorted, and [main] is
    in the first round of the barrier, which its own call belongs to. *)
Definition inv (p : prog) : Prop :=
  exists segs, sections segs (nums (arrays p)) /\ nums (arrays p) ≡ₚ nums0 /\ length (called p) = NTHR /\
    (forall i l, called p !! i = Some true -> segs !! i = Some l -> StronglySorted Z.le l) /\
    b_count (b p) = (NTHR + 1)%nat /\
    match at_main p with
    | Creating => b_calls (b p) = trues (called p) /\ snums (arrays p) = snums0
    | Waiting round => b_calls (b p) = S (trues (called p)) /\ round = 0%nat /\ snums (arrays p) = snums0
    | Merged => StronglySorted Z.le (snums (arrays p)) /\ snums (arrays p) ≡ₚ nums0
    end.

(** No turn is taken back. *)
Definition keeps (p p' : prog) : Prop :=
  (forall i, called p !! i = Some true -> called p' !! i = Some true) /\
  (at_main p <> Creating -> at_main p' <> Creating) /\ (at_main p = Merged -> at_main p' = Merged).
(** What a thread has done by the end of its first turn. *)
Definition did (w : who) (p : prog) : Prop :=
  match w with Worker i => (i < NTHR)%nat -> called p !! i = Some true | Main => at_main p <> Creating end.

Lemma keeps_refl p : keeps p p.
Proof. done. Qed.
Lemma keeps_trans p1 p2 p3 : keeps p1 p2 -> keeps p2 p3 -> keeps p1 p3.
Proof. unfold keeps. naive_solver. Qed.
Lemma keeps_did w p p' : keeps p p' -> did w p -> did w p'.
Proof. unfold keeps, did. destruct w; naive_solver. Qed.

Lemma worker_turn i p : inv p -> exists p', turn (Worker i) p = Ret tt p' /\ inv p' /\ keeps p p' /\ did (Worker i) p'.
Proof.
  intros (segs & S & P & Lc & So & Bc & M). cbn [turn]. rewrite bind_gets. destruct (called p !! i) as [[]|] eqn:E.
  - exists p. split; [done|]. split; [by exists segs|]. split; [apply keeps_refl|]. by intros _.
  - pose proof (lookup_lt_Some _ _ _ E) as Hi. pose proof S as (En & Ls & _). destruct (lookup_lt_is_Some_2 segs i) as [l El]; [lia|].
    destruct (thr_run (arrays p) segs i l S El) as [E1 S1]. rewrite (bind_run _ _ _ _ _ (zoom_run arrays set_arrays _ _ _ _ E1)).
    destruct (heapsort_run l) as [Sl Pl]. eexists. split; [reflexivity|]. split; [|split].
    + exists (<[i := heapsort complong l]> segs). cbn [arrays called at_main b b_count b_calls set_called set_b set_arrays nums set_nums snums]. split; [done|]. split; [rewrite (insert_perm segs i l _ El Pl), <-En; done|].
      split; [by rewrite length_insert|]. split; [|split; [done|]].
      * intros k lk Hk Hl. destruct (decide (k = i)) as [->|Hne].
        -- rewrite list_lookup_insert_eq in Hl by lia. by injection Hl as <-.
        -- rewrite list_lookup_insert_ne in Hk by done. rewrite list_lookup_insert_ne in Hl by done. by apply (So k).
      * rewrite (trues_call _ _ E). destruct (at_main p); [|naive_solver..]. by destruct M as [-> M].
    + split; [|by split]. intros k Hk. cbn. destruct (decide (k = i)) as [->|]; [congruence|]. by rewrite list_lookup_insert_ne.
    + intros _. cbn. by apply list_lookup_insert_eq.
  - exists p. split; [done|]. split; [by exists segs|]. split; [done|]. intros Hi. apply lookup_ge_None in E. lia.
Qed.

Lemma main_turn p : inv p -> exists p', turn Main p = Ret tt p' /\ inv p' /\ keeps p p' /\ did Main p' /\
  (did Main p -> (forall i, did (Worker i) p) -> at_main p' = Merged).
Proof.
  intros I. pose proof I as (segs & S & P & Lc & So & Bc & M). cbn [turn]. rewrite bind_gets. pose proof (trues_le (called p)) as Hle.
  destruct (at_main p) as [|round|] eqn:Em.
  - eexists. split; [reflexivity|]. destruct M as [Mc Ms]. split; [|split; [|split]].
    + exists segs. cbn. split_and!; try done; [by rewrite Mc|]. unfold round_of. rewrite Bc, Mc. apply Nat.div_small. lia.
    + unfold keeps; cbn; rewrite ?Em; by split_and!.
    + by cbn.
    + intros H. by destruct H.
  - destruct M as (Mc & -> & Ms). rewrite bind_gets. unfold round_over. rewrite Bc, Mc.
    destruct (Nat.leb_spec (1 * (NTHR + 1)) (Datatypes.S (trues (called p)))) as [H|H].
    + assert (forall i, (i < length (called p))%nat -> called p !! i = Some true) as Hall by (apply trues_all; lia).
      destruct (merge_run segs (arrays p) nums0 S) as (out & E & Sm & Pm); try done; [|by rewrite Ms|].
      { apply list.Forall_forall. intros l Hl. apply list_elem_of_lookup in Hl as [i Hi]. apply (So i); [|done]. apply Hall.
        destruct S as (_ & Ls & _). apply lookup_lt_Some in Hi. lia. }
      rewrite (bind_run _ _ _ _ _ (zoom_run arrays set_arrays _ _ _ _ E)). eexists. split; [reflexivity|]. split; [by exists segs|]. split; [by split|]. by cbn.
    + exists p. split; [done|]. split; [done|]. split; [done|]. split; [cbn; by rewrite Em|]. intros _ Hd. exfalso.
      rewrite (all_trues (called p)) in H; [lia|]. intros i Hi. apply (Hd i). lia.
  - exists p. split; [done|]. split; [done|]. split; [done|]. split; [cbn; by rewrite Em|]. done.
Qed.

Lemma turns_run sched : forall p, inv p -> exists p', turns sched p = Ret tt p' /\ inv p' /\ keeps p p' /\ forall w, w ∈ sched -> did w p'.
Proof.
  induction sched as [|w sched IH]; intros p I; cbn [turns].
  { exists p. split; [done|]. split; [done|]. split; [done|]. by intros w ?%elem_of_nil. }
  assert (exists p1, turn w p = Ret tt p1 /\ inv p1 /\ keeps p p1 /\ did w p1) as (p1 & E1 & I1 & K1 & D1).
  { destruct w as [i|]; [by apply worker_turn|]. destruct (main_turn p I) as (p1 & ? & ? & ? & ? & _). eauto. }
  rewrite (bind_run _ _ _ _ _ E1). destruct (IH p1 I1) as (p' & E & I' & K & D). exists p'. split; [done|]. split; [done|].
  split; [by eapply keeps_trans|]. intros w' [->|Hw]%elem_of_cons; [by eapply keeps_did|by apply D].
Qed.

Lemma turns_app pre : forall post p p1, turns pre p = Ret tt p1 -> turns (pre ++ post) p = turns post p1.
Proof.
  induction pre as [|w pre IH]; intros post p p1 E; cbn [turns app] in *; [by injection E as ->|].
  unfold bind in *. destruct (turn w p); try done. by apply IH.
Qed.

Lemma turns_merge pre post p : inv p -> Main ∈ pre -> (forall i, (i < NTHR)%nat -> Worker i ∈ pre) ->
  exists p', turns (pre ++ [Main] ++ post) p = Ret tt p' /\ at_main p' = Merged.
Proof.
  intros I Hm Hw. destruct (turns_run pre p I) as (p1 & E1 & I1 & _ & D1). rewrite (turns_app _ _ _ _ E1). cbn [app turns].
  destruct (main_turn p1 I1) as (p2 & E2 & I2 & _ & _ & H2). rewrite (bind_run _ _ _ _ _ E2).
  destruct (turns_run post p2 I2) as (p3 & E3 & _ & (_ & _ & K3) & _). exists p3. split; [done|]. apply K3, H2; [by apply D1|].
  intros i Hi. apply (D1 (Worker i)); [by apply Hw|done].
Qed.

Lemma inv_start : length nums0 = NUMNUM -> inv (mk_prog (mk_bar nums0 snums0) (barrier_init (NTHR + 1)) (replicate NTHR false) Creating).
Proof.
  intros La. destruct (sections_exist NTHR nums0 La) as (segs & E & L & F). exists segs. cbn. split; [by split|]. split; [done|].
  split; [by rewrite length_replicate|]. split; [intros i l Hi _; by apply lookup_replicate_1 in Hi as [? _]|].
  split; [done|]. split; [|done]. unfold trues. symmetry. apply length_zero_iff_nil.
  clear. induction NTHR as [|n IH]; [done|]. cbn [replicate]. by rewrite filter_cons_False.
Qed.
End runs.
End program.

(** C16: the parallel sort sorts.  However the threads and [main] are
    scheduled, every array access is inside its array, and [snums] is either
    as it was or, once [main] has passed the barrier and merged, the numbers
    of [nums], sorted; and [main] does get there, when each thread has had
    its turn and [main] two, the second after all of those.  The numbers have
    to be below [LONG_MAX], as those of [random] are. *)
Theorem barrier_sorts (NTHR TNUM : nat) heapsort (sched : list who) a out :
  (forall l, StronglySorted (fun x y => complong x y <= 0) (heapsort complong l) /\ heapsort complong l ≡ₚ l) ->
  length a = NUMNUM NTHR TNUM -> length out = NUMNUM NTHR TNUM -> Forall (fun x => x < LONG_MAX) a ->
  exists p, sort_main NTHR TNUM heapsort sched (mk_bar a out) = Ret tt p /\
    (if decide (at_main p = Merged) then StronglySorted Z.le (snums (arrays p)) /\ snums (arrays p) ≡ₚ a else snums (arrays p) = out) /\
    (forall pre post, sched = pre ++ [Main] ++ post -> Main ∈ pre -> (forall i, (i < NTHR)%nat -> Worker i ∈ pre) -> at_main p = Merged).
Proof.
  intros Hs La Lo B. pose proof (inv_start NTHR TNUM a out La) as I.
  destruct (turns_run NTHR TNUM heapsort Hs a out Lo B sched _ I) as (p & E & (segs & _ & _ & _ & _ & _ & M) & _).
  exists p. split; [exact E|]. split.
  - destruct (at_main p); [rewrite decide_False by done; tauto..|by rewrite decide_True].
  - intros pre post -> Hm Hw. destruct (turns_merge NTHR TNUM heapsort Hs a out Lo B pre post _ I Hm Hw) as (p' & E' & H).
    rewrite E in E'. by injection E' as <-.
Qed.
(** A sort that keeps the promise. *)
Definition cmp_le (cmp : Z -> Z -> Z) (x y : Z) : Prop := cmp x y <= 0.
#[export] Instance cmp_le_dec cmp : RelDecision (cmp_le cmp) := fun x y => decide (cmp x y <= 0).
Definition sort_lib (cmp : Z -> Z -> Z) (l : list Z) : list Z := merge_sort (cmp_le cmp) l.
Lemma sort_lib_sorts l : StronglySorted (fun x y => complong x y <= 0) (sort_lib complong l) /\ sort_lib complong l ≡ₚ l.
Proof.
  split; [|apply merge_sort_Permutation].
  assert (Transitive (cmp_le complong)) by (intros x y z; unfold cmp_le; rewrite !complong_le; lia).
  assert (Total (cmp_le complong)) by (intros x y; unfold cmp_le; rewrite !complong_le; lia).
  exact (StronglySorted_merge_sort (cmp_le complong) l).
Qed.

Lemma barrier_sorts_witness :
  let sched := [Worker 2; Main; Worker 0; Main; Worker 1; Main] in
  exists p, sort_main 3 2 sort_lib sched (mk_bar [5; 3; 9; 1; 4; 1] [0; 0; 0; 0; 0; 0]) = Ret tt p /\
    at_main p = Merged /\ StronglySorted Z.le (snums (arrays p)) /\ snums (arrays p) ≡ₚ [5; 3; 9; 1; 4; 1].
Proof.
  intros sched. destruct (barrier_sorts 3 2 sort_lib sched [5; 3; 9; 1; 4; 1] [0; 0; 0; 0; 0; 0]) as (p & E & H & M);
    [exact sort_lib_sorts|reflexivity|reflexivity|repeat constructor|].
  assert (at_main p = Merged) as Em.
  { apply (M [Worker 2; Main; Worker 0; Main; Worker 1] []); [reflexivity|auto using list_elem_of_here, list_elem_of_further|].
    intros i Hi. do 3 (destruct i as [|i]; [auto 6 using list_elem_of_here, list_elem_of_further|]). lia. }
  rewrite decide_True in H by exact Em. by exists p.
Defined.

(** [main] waits while a thread has not called, and a barrier that counts
    one call less would let it merge too early. *)
Example main_waits :
  match sort_main 2 1 sort_lib [Main; Worker 1; Main] (mk_bar [2; 1] [0; 0]) with Ret _ p => at_main p = Waiting 0 | _ => False end.
Proof. vm_compute. reflexivity. Qed.
