(* ===== verification/NonBlock.v ===== *)
(** The client loop with non-blocking descriptors,
    [unpv13e/nonblock/strclinonb.c]: two buffers between the terminal and a
    socket, with [select], [read] and [write] answering as they please. *)
From Stdlib Require Import ZArith Lia.
From stdpp Require Import base list strings numbers.
From S2P Require Import Prelude CFile.
Local Open Scope c_scope.

Definition MAXLINE : nat := 4096.
Definition EWOULDBLOCK : Z := 35.

(** The variables of [str_cli], with pointers into the buffers as offsets;
    and what has passed through the descriptors: what was read from the
    terminal and from the socket, what was written to them, and how many
    times [Shutdown] was called. *)
Record cli := mk_cli {
  to : bytes; toiptr : nat; tooptr : nat;
  fr : bytes; friptr : nat; froptr : nat;
  stdineof : bool;
  typed : bytes; received : bytes; sent : bytes; shown : bytes; fins : nat }.

Definition set_to b i o s := mk_cli b i o (fr s) (friptr s) (froptr s) (stdineof s) (typed s) (received s) (sent s) (shown s) (fins s).
Definition set_fr b i o s := mk_cli (to s) (toiptr s) (tooptr s) b i o (stdineof s) (typed s) (received s) (sent s) (shown s) (fins s).
Definition set_eof s := mk_cli (to s) (toiptr s) (tooptr s) (fr s) (friptr s) (froptr s) true (typed s) (received s) (sent s) (shown s) (fins s).
Definition set_typed v s := mk_cli (to s) (toiptr s) (tooptr s) (fr s) (friptr s) (froptr s) (stdineof s) v (received s) (sent s) (shown s) (fins s).
Definition set_received v s := mk_cli (to s) (toiptr s) (tooptr s) (fr s) (friptr s) (froptr s) (stdineof s) (typed s) v (sent s) (shown s) (fins s).
Definition set_sent v s := mk_cli (to s) (toiptr s) (tooptr s) (fr s) (friptr s) (froptr s) (stdineof s) (typed s) (received s) v (shown s) (fins s).
Definition set_shown v s := mk_cli (to s) (toiptr s) (tooptr s) (fr s) (friptr s) (froptr s) (stdineof s) (typed s) (received s) (sent s) v (fins s).
Definition set_fins v s := mk_cli (to s) (toiptr s) (tooptr s) (fr s) (friptr s) (froptr s) (stdineof s) (typed s) (received s) (sent s) (shown s) v.

(** One answer of the system for each call a round can make: the descriptors
    that are ready, the error or the bytes there are to read, the error or
    the number of bytes a write takes. *)
Record answers := mk_answers {
  ready_in : bool; ready_sock : bool; ready_out : bool; ready_sockw : bool;
  read_in : Z + bytes; read_sock : Z + bytes; write_out : Z + nat; write_sock : Z + nat }.

(** Accesses to the buffers. *)
Definition on_to {A} (m : M bytes A) : M cli A := zoom to (fun b s => set_to b (toiptr s) (tooptr s) s) m.
Definition on_fr {A} (m : M bytes A) : M cli A := zoom fr (fun b s => set_fr b (friptr s) (froptr s) s) m.

Definition Shutdown : M cli unit := modify (fun s => set_fins (S (fins s)) s).

(** The four parts of the body; a read or write that would block is tried
    again in a later round.  Each is given its bit of the sets [select]
    returned; the reads return the bit of the write set for the other side. *)
Definition from_stdin (isset : bool) (wset : bool) (r : Z + bytes) : M cli bool :=
  if isset then
    let* i := gets toiptr in
    if (MAXLINE <? i)%nat then undef "negative size"
    else
      match r with
      | inl e => if negb (e =? EWOULDBLOCK) then die "read error on stdin" else ret wset
      | inr bs =>
          let bs := take (MAXLINE - i) bs in
          if (length bs =? 0)%nat then
            modify set_eof;;;
            let* o := gets tooptr in
            (if (o =? i)%nat then Shutdown else skip);;;
            ret wset
          else
            on_to (store i bs);;;
            modify (fun s => set_typed (typed s ++ bs) (set_to (to s) (i + length bs) (tooptr s) s));;;
            ret true
      end
  else ret wset.

(** [None] when the function returns. *)
Definition from_sock (isset : bool) (wset : bool) (r : Z + bytes) : M cli (option bool) :=
  if isset then
    let* i := gets friptr in
    if (MAXLINE <? i)%nat then undef "negative size"
    else
      match r with
      | inl e => if negb (e =? EWOULDBLOCK) then die "read error on socket" else ret (Some wset)
      | inr bs =>
          let bs := take (MAXLINE - i) bs in
          if (length bs =? 0)%nat then
            let* eof := gets stdineof in
            if eof : bool then ret None else die "str_cli: server terminated prematurely"
          else
            on_fr (store i bs);;;
            modify (fun s => set_received (received s ++ bs) (set_fr (fr s) (i + length bs) (froptr s) s));;;
            ret (Some true)
      end
  else ret (Some wset).

Definition to_stdout (isset : bool) (w : Z + nat) : M cli unit :=
  let* i := gets friptr in
  let* o := gets froptr in
  if isset && (o <? i)%nat then
    let* data := on_fr (fetch o (i - o)) in
    match w with
    | inl e => if negb (e =? EWOULDBLOCK) then die "write error to stdout" else skip
    | inr nw =>
        let nw := Nat.min nw (i - o) in
        modify (fun s => set_shown (shown s ++ take nw data) (set_fr (fr s) i (o + nw) s));;;
        (if (o + nw =? i)%nat then modify (fun s => set_fr (fr s) 0 0 s) else skip)
    end
  else skip.

Definition to_sock (isset : bool) (w : Z + nat) : M cli unit :=
  let* i := gets toiptr in
  let* o := gets tooptr in
  if isset && (o <? i)%nat then
    let* data := on_to (fetch o (i - o)) in
    match w with
    | inl e => if negb (e =? EWOULDBLOCK) then die "write error to socket" else skip
    | inr nw =>
        let nw := Nat.min nw (i - o) in
        modify (fun s => set_sent (sent s ++ take nw data) (set_to (to s) i (o + nw) s));;;
        (if (o + nw =? i)%nat then
           modify (fun s => set_to (to s) 0 0 s);;;
           let* eof := gets stdineof in
           if eof : bool then Shutdown else skip
         else skip)
    end
  else skip.

(** One round; [false] when [str_cli] returns. *)
Definition round (a : answers) : M cli bool :=
  let* s := gets id in
  let rin := negb (stdineof s) && (toiptr s <? MAXLINE)%nat && ready_in a in
  let rsock := (friptr s <? MAXLINE)%nat && ready_sock a in
  let wsock := negb (tooptr s =? toiptr s)%nat && ready_sockw a in
  let wout := negb (froptr s =? friptr s)%nat && ready_out a in
  let* wsock := from_stdin rin wsock (read_in a) in
  let* wout := from_sock rsock wout (read_sock a) in
  match wout with
  | None => ret false
  | Some wout => to_stdout wout (write_out a);;; to_sock wsock (write_sock a);;; ret true
  end.
(** The loop for as many rounds as there are answers; [true] when it is still
    running after them. *)
Fixpoint str_cli_loop (l : list answers) : M cli bool :=
  match l with
  | [] => ret true
  | a :: r => let* go := round a in if go : bool then str_cli_loop r else ret false
  end.
Definition str_cli (tomem frmem : bytes) (l : list answers) : M cli bool :=
  modify (fun _ => mk_cli tomem 0 0 frmem 0 0 false [] [] [] [] 0);;; str_cli_loop l.

(** * Nothing is lost, nothing is made up *)

(** What is in a buffer and has not been written. *)
Definition to_send (s : cli) : bytes := slice (tooptr s) (toiptr s - tooptr s) (to s).
Definition to_show (s : cli) : bytes := slice (froptr s) (friptr s - froptr s) (fr s).

Record cli_ok (s : cli) : Prop := {
  ck_to : length (to s) = MAXLINE /\ (tooptr s <= toiptr s)%nat /\ (toiptr s <= MAXLINE)%nat;
  ck_fr : length (fr s) = MAXLINE /\ (froptr s <= friptr s)%nat /\ (friptr s <= MAXLINE)%nat;
  ck_reset : (tooptr s = toiptr s -> toiptr s = 0%nat) /\ (froptr s = friptr s -> friptr s = 0%nat);
  ck_typed : typed s = sent s ++ to_send s;
  ck_received : received s = shown s ++ to_show s;
  ck_fin : fins s = (if stdineof s && (tooptr s =? toiptr s)%nat then 1 else 0)%nat }.

(** What the errors that end the process are. *)
Definition cli_error (msg : string) (a : answers) (s : cli) : Prop :=
  (msg = "read error on stdin" /\ exists e, read_in a = inl e /\ e <> EWOULDBLOCK) \/
  (msg = "read error on socket" /\ exists e, read_sock a = inl e /\ e <> EWOULDBLOCK) \/
  (msg = "str_cli: server terminated prematurely" /\ read_sock a = inr [] /\ stdineof s = false) \/
  (msg = "write error to stdout" /\ exists e, write_out a = inl e /\ e <> EWOULDBLOCK) \/
  (msg = "write error to socket" /\ exists e, write_sock a = inl e /\ e <> EWOULDBLOCK).

Section relay.
#[local] Arguments slice : simpl never.
#[local] Arguments to_send : simpl never.
#[local] Arguments to_show : simpl never.
Implicit Types (s : cli) (a : answers) (b bs : bytes).

(** One of the buffers is left alone. *)
Definition same_to s s' : Prop := toiptr s' = toiptr s /\ tooptr s' = tooptr s.
Definition same_fr s s' : Prop := friptr s' = friptr s /\ froptr s' = froptr s.

Lemma slice_grow b bs (o i : nat) : (o <= i)%nat -> (i + length bs <= length b)%nat ->
  slice o (i + length bs - o) (splice i bs b) = slice o (i - o) b ++ bs.
Proof.
  intros H1 H2. unfold slice, splice. replace (i - length b)%nat with 0%nat by lia. cbn [replicate app].
  rewrite drop_app_le by (rewrite length_take; lia). replace (i + length bs - o)%nat with ((i - o) + length bs)%nat by lia.
  assert (drop o (take i b) = take (i - o) (drop o b)) as -> by (rewrite take_drop_commute; do 2 f_equal; lia).
  assert (length (take (i - o) (drop o b)) = i - o)%nat as El by (rewrite length_take, length_drop; lia).
  rewrite take_app_ge by lia. rewrite El. replace (i - o + length bs - (i - o))%nat with (length bs) by lia.
  rewrite take_app_le, (take_ge bs) by lia. done.
Qed.

Lemma slice_split b (o n m : nat) : slice o (n + m) b = slice o n b ++ slice (o + n) m b.
Proof. unfold slice. rewrite <-drop_drop. symmetry. apply take_take_drop. Qed.

Lemma take_slice b (o n k : nat) : (k <= n)%nat -> take k (slice o n b) = slice o k b.
Proof. intros H. unfold slice. rewrite take_take. f_equal. lia. Qed.

(** Accesses inside the buffers. *)
Lemma on_to_store s i bs : (i + length bs <= length (to s))%nat ->
  on_to (store i bs) s = Ret tt (set_to (splice i bs (to s)) (toiptr s) (tooptr s) s).
Proof. intros H. unfold on_to. by rewrite (zoom_run _ _ _ _ _ _ (store_run i bs (to s) H)). Qed.
Lemma on_fr_store s i bs : (i + length bs <= length (fr s))%nat ->
  on_fr (store i bs) s = Ret tt (set_fr (splice i bs (fr s)) (friptr s) (froptr s) s).
Proof. intros H. unfold on_fr. by rewrite (zoom_run _ _ _ _ _ _ (store_run i bs (fr s) H)). Qed.
Lemma on_to_fetch s i n : (i + n <= length (to s))%nat -> on_to (fetch i n) s = Ret (slice i n (to s)) s.
Proof. intros H. unfold on_to. rewrite (zoom_run _ _ _ _ _ _ (fetch_run i n (to s) H)). by destruct s. Qed.
Lemma on_fr_fetch s i n : (i + n <= length (fr s))%nat -> on_fr (fetch i n) s = Ret (slice i n (fr s)) s.
Proof. intros H. unfold on_fr. rewrite (zoom_run _ _ _ _ _ _ (fetch_run i n (fr s) H)). by destruct s. Qed.

Lemma from_stdin_run s a (isset wset : bool) : cli_ok s -> (isset = true -> stdineof s = false /\ (toiptr s < MAXLINE)%nat) ->
  (exists w s', from_stdin isset wset (read_in a) s = Ret w s' /\ cli_ok s' /\ same_fr s s' /\ (w = true \/ (w = wset /\ same_to s s'))) \/
  (exists msg s', from_stdin isset wset (read_in a) s = Died msg s' /\ cli_error msg a s').
Proof.
  intros C Hset. pose proof C as [[L [Hoi Hi]] F [R1 R2] T V N]. unfold from_stdin.
  destruct isset; [|left; exists wset, s; split_and!; try done; by right].
  destruct (Hset eq_refl) as [He Hlt]. rewrite bind_gets. destruct (Nat.ltb_spec MAXLINE (toiptr s)); [lia|].
  destruct (read_in a) as [e|bs] eqn:Er.
  { destruct (Z.eqb_spec e EWOULDBLOCK); cbn [negb]; [left; exists wset, s; split_and!; try done; by right|].
    right. eexists _, s. split; [done|]. left. eauto. }
  set (bs' := take (MAXLINE - toiptr s) bs). assert (toiptr s + length bs' <= MAXLINE)%nat as Hb by (unfold bs'; rewrite length_take; lia).
  rewrite He in N. cbn [andb] in N. left. destruct (Nat.eqb_spec (length bs') 0) as [E|E].
  - rewrite bind_modify, bind_gets. change (tooptr (set_eof s)) with (tooptr s).
    exists wset, (if (tooptr s =? toiptr s)%nat then set_fins (S (fins s)) (set_eof s) else set_eof s).
    destruct (Nat.eqb_spec (tooptr s) (toiptr s)) as [Eo|Eo]; (split; [done|]); (split; [|by split; [|right]]); split; try done; cbn.
    + by rewrite Eo, Nat.eqb_refl, N.
    + by rewrite (proj2 (Nat.eqb_neq _ _) Eo).
  - clearbody bs'. rewrite (bind_run _ _ _ _ _ (on_to_store s (toiptr s) bs' ltac:(lia))), bind_modify. eexists true, _. split; [done|]. split; [|by split; [|left]]. split; cbn.
    + rewrite splice_length by lia. lia.
    + done.
    + split; [lia|done].
    + rewrite T, <-app_assoc. f_equal. unfold to_send. cbn. by rewrite slice_grow by lia.
    + done.
    + by rewrite He.
Qed.

Lemma from_sock_run s a (isset wset : bool) : cli_ok s -> (isset = true -> (friptr s < MAXLINE)%nat) ->
  (exists w s', from_sock isset wset (read_sock a) s = Ret w s' /\ cli_ok s' /\ same_to s s' /\
     match w with None => stdineof s' = true /\ read_sock a = inr [] | Some w => w = true \/ (w = wset /\ same_fr s s') end) \/
  (exists msg s', from_sock isset wset (read_sock a) s = Died msg s' /\ cli_error msg a s').
Proof.
  intros C Hset. pose proof C as [T [L [Hoi Hi]] [R1 R2] Ty V N]. unfold from_sock.
  destruct isset; [|left; exists (Some wset), s; split_and!; try done; by right].
  specialize (Hset eq_refl). rewrite bind_gets. destruct (Nat.ltb_spec MAXLINE (friptr s)); [lia|].
  destruct (read_sock a) as [e|bs] eqn:Er.
  { destruct (Z.eqb_spec e EWOULDBLOCK); cbn [negb]; [left; exists (Some wset), s; split_and!; try done; by right|].
    right. eexists _, s. split; [done|]. right. left. eauto. }
  set (bs' := take (MAXLINE - friptr s) bs). assert (friptr s + length bs' <= MAXLINE)%nat as Hb by (unfold bs'; rewrite length_take; lia).
  destruct (Nat.eqb_spec (length bs') 0) as [E|E].
  - assert (bs = []) as -> by (unfold bs' in E; rewrite length_take in E; destruct bs; [done|cbn [length] in E; lia]).
    rewrite bind_gets. destruct (stdineof s) eqn:He; [left; by exists None, s|]. right. eexists _, s. split; [done|]. right. right. left. done.
  - left. clearbody bs'. rewrite (bind_run _ _ _ _ _ (on_fr_store s (friptr s) bs' ltac:(lia))), bind_modify. eexists (Some true), _. split; [done|]. split; [|by split; [|left]]. split; cbn.
    + done.
    + rewrite splice_length by lia. lia.
    + split; [done|lia].
    + done.
    + rewrite V, <-app_assoc. f_equal. unfold to_show. cbn. by rewrite slice_grow by lia.
    + done.
Qed.

Lemma to_stdout_run s a (isset : bool) : cli_ok s ->
  (exists s', to_stdout isset (write_out a) s = Ret tt s' /\ cli_ok s' /\ same_to s s' /\
     ((froptr s <> friptr s -> isset = true) -> (exists nw, write_out a = inr nw /\ (MAXLINE <= nw)%nat) -> froptr s' = friptr s')) \/
  (exists msg s', to_stdout isset (write_out a) s = Died msg s' /\ cli_error msg a s').
Proof.
  intros C. pose proof C as [T [L [Hoi Hi]] [R1 R2] Ty V N]. unfold to_stdout. rewrite !bind_gets.
  destruct isset; cbn [andb].
  2: { left. exists s. split_and!; try done. intros H _. destruct (decide (froptr s = friptr s)); [done|]. by apply H in n. }
  destruct (Nat.ltb_spec (froptr s) (friptr s)); [|left; exists s; split_and!; try done; lia].
  rewrite (bind_run _ _ _ _ _ (on_fr_fetch s (froptr s) (friptr s - froptr s) ltac:(lia))). destruct (write_out a) as [e|nw] eqn:Ew.
  { destruct (Z.eqb_spec e EWOULDBLOCK); cbn [negb]; [left; exists s; split_and!; try done; by intros _ (? & ? & _)|].
    right. eexists _, s. split; [done|]. do 3 right. left. eauto. }
  left. rewrite bind_modify. set (k := Nat.min nw (friptr s - froptr s)). rewrite take_slice by (unfold k; lia). assert (k <= friptr s - froptr s)%nat by (unfold k; lia).
  assert ((MAXLINE <= nw)%nat -> froptr s + k = friptr s)%nat as Hk by (unfold k; lia).
  assert (received s = (shown s ++ slice (froptr s) k (fr s)) ++ slice (froptr s + k) (friptr s - (froptr s + k)) (fr s)) as Er.
  { rewrite V, <-app_assoc. f_equal. unfold to_show. rewrite <-slice_split. f_equal. lia. }
  destruct (Nat.eqb_spec (froptr s + k) (friptr s)) as [E|E]; (eexists; split; [done|]).
  - rewrite <-E, Nat.sub_diag in Er. clearbody k. split; [|done]. split; cbn; [done|lia|done|done|exact Er|done].
  - clearbody k. split; [split; cbn; [done|lia|split; [done|lia]|done|exact Er|done]|]. split; [done|]. intros _ (n & [= <-] & Hn). by apply Hk in Hn.
Qed.

Lemma to_sock_run s a (isset : bool) : cli_ok s ->
  (exists s', to_sock isset (write_sock a) s = Ret tt s' /\ cli_ok s' /\ same_fr s s' /\
     ((tooptr s <> toiptr s -> isset = true) -> (exists nw, write_sock a = inr nw /\ (MAXLINE <= nw)%nat) -> tooptr s' = toiptr s')) \/
  (exists msg s', to_sock isset (write_sock a) s = Died msg s' /\ cli_error msg a s').
Proof.
  intros C. pose proof C as [[L [Hoi Hi]] F [R1 R2] Ty V N]. unfold to_sock. rewrite !bind_gets.
  destruct isset; cbn [andb].
  2: { left. exists s. split_and!; try done. intros H _. destruct (decide (tooptr s = toiptr s)); [done|]. by apply H in n. }
  destruct (Nat.ltb_spec (tooptr s) (toiptr s)); [|left; exists s; split_and!; try done; lia].
  rewrite (bind_run _ _ _ _ _ (on_to_fetch s (tooptr s) (toiptr s - tooptr s) ltac:(lia))). destruct (write_sock a) as [e|nw] eqn:Ew.
  { destruct (Z.eqb_spec e EWOULDBLOCK); cbn [negb]; [left; exists s; split_and!; try done; by intros _ (? & ? & _)|].
    right. eexists _, s. split; [done|]. do 4 right. eauto. }
  left. rewrite bind_modify. set (k := Nat.min nw (toiptr s - tooptr s)). rewrite take_slice by (unfold k; lia). assert (k <= toiptr s - tooptr s)%nat by (unfold k; lia).
  assert ((MAXLINE <= nw)%nat -> tooptr s + k = toiptr s)%nat as Hk by (unfold k; lia).
  assert (typed s = (sent s ++ slice (tooptr s) k (to s)) ++ slice (tooptr s + k) (toiptr s - (tooptr s + k)) (to s)) as Er.
  { rewrite Ty, <-app_assoc. f_equal. unfold to_send. rewrite <-slice_split. f_equal. lia. }
  assert (fins s = 0%nat) as N0 by (rewrite N; destruct (Nat.eqb_spec (tooptr s) (toiptr s)); [lia|by rewrite andb_false_r]).
  destruct (Nat.eqb_spec (tooptr s + k) (toiptr s)) as [E|E].
  - rewrite bind_modify, bind_gets. rewrite <-E, Nat.sub_diag in Er. cbn [stdineof set_to set_sent]. clearbody k.
    destruct (stdineof s) eqn:Ee; eexists; (split; [reflexivity|]); (split; [|done]); split; cbn; rewrite ?N0, ?Ee; done || lia || exact Er.
  - eexists. split; [done|]. clearbody k. split; [|split; [done|]; intros _ (n & [= <-] & Hn); by apply Hk in Hn].
    split; cbn; [lia|done|split; [lia|done]|exact Er|done|].
    rewrite N0. destruct (Nat.eqb_spec (tooptr s + k) (toiptr s)); [lia|by rewrite andb_false_r].
Qed.

(** A round; when both outputs take everything, it empties the buffers. *)
Definition outputs_open (a : answers) : Prop :=
  ready_out a = true /\ ready_sockw a = true /\ (exists n, write_out a = inr n /\ (MAXLINE <= n)%nat) /\ (exists n, write_sock a = inr n /\ (MAXLINE <= n)%nat).
Lemma round_run s a : cli_ok s ->
  (exists go s', round a s = Ret go s' /\ cli_ok s' /\
     if go : bool then (outputs_open a -> tooptr s' = toiptr s' /\ froptr s' = friptr s') else stdineof s' = true /\ read_sock a = inr []) \/
  (exists msg s', round a s = Died msg s' /\ cli_error msg a s').
Proof.
  intros C. unfold round. rewrite bind_gets. cbn [id].
  set (rin := negb (stdineof s) && (toiptr s <? MAXLINE)%nat && ready_in a). set (rsock := (friptr s <? MAXLINE)%nat && ready_sock a).
  set (wsock := negb (tooptr s =? toiptr s)%nat && ready_sockw a). set (wout := negb (froptr s =? friptr s)%nat && ready_out a).
  destruct (from_stdin_run s a rin wsock C) as [(w1 & s1 & E1 & C1 & F1 & W1)|(msg & s1 & E1 & D)].
  { unfold rin. intros [[H1 H2]%andb_true_iff _]%andb_true_iff. split; [by destruct (stdineof s)|by apply Nat.ltb_lt]. }
  2: { right. exists msg, s1. split; [|done]. unfold bind. by rewrite E1. }
  rewrite (bind_run _ _ _ _ _ E1).
  destruct (from_sock_run s1 a rsock wout C1) as [(w2 & s2 & E2 & C2 & T2 & W2)|(msg & s2 & E2 & D)].
  { unfold rsock. intros [H1 _]%andb_true_iff. destruct F1 as [-> _]. by apply Nat.ltb_lt. }
  2: { right. exists msg, s2. split; [|done]. unfold bind. by rewrite E2. }
  rewrite (bind_run _ _ _ _ _ E2). destruct w2 as [w2|]; [|left; by exists false, s2].
  destruct (to_stdout_run s2 a w2 C2) as [(s3 & E3 & C3 & T3 & D3)|(msg & s3 & E3 & D)].
  2: { right. exists msg, s3. split; [|done]. unfold bind. by rewrite E3. }
  rewrite (bind_run _ _ _ _ _ E3).
  destruct (to_sock_run s3 a w1 C3) as [(s4 & E4 & C4 & F4 & D4)|(msg & s4 & E4 & D)].
  2: { right. exists msg, s4. split; [|done]. unfold bind. by rewrite E4. }
  rewrite (bind_run _ _ _ _ _ E4). left. exists true, s4. split; [done|]. split; [done|]. intros (O1 & O2 & O3 & O4). split.
  - apply D4; [|done]. intros Hne. destruct W1 as [->|[-> [Ei Eo]]]; [done|]. unfold wsock. rewrite O2, andb_true_r. apply negb_true_iff, Nat.eqb_neq.
    destruct T2 as [? ?], T3 as [? ?]. congruence.
  - destruct F4 as [-> ->]. apply D3; [|done]. intros Hne. destruct W2 as [->|[-> [Ei Eo]]]; [done|]. unfold wout. rewrite O1, andb_true_r. apply negb_true_iff, Nat.eqb_neq.
    destruct F1 as [? ?]. congruence.
Qed.

Lemma start_ok (tomem frmem : bytes) : length tomem = MAXLINE -> length frmem = MAXLINE -> cli_ok (mk_cli tomem 0 0 frmem 0 0 false [] [] [] [] 0).
Proof. intros H1 H2. split; cbn; [lia|lia|done..]. Qed.

Lemma loop_run l : forall s, cli_ok s ->
  (exists go s', str_cli_loop l s = Ret go s' /\ cli_ok s' /\ (go = false -> stdineof s' = true /\ exists a, a ∈ l /\ read_sock a = inr [])) \/
  (exists msg s' a, str_cli_loop l s = Died msg s' /\ a ∈ l /\ cli_error msg a s').
Proof.
  induction l as [|a l IH]; intros s C; cbn [str_cli_loop]; [left; by exists true, s|].
  destruct (round_run s a C) as [(go & s1 & E & C1 & G)|(msg & s1 & E & D)].
  - rewrite (bind_run _ _ _ _ _ E). destruct go.
    + destruct (IH s1 C1) as [(go & s2 & E2 & C2 & G2)|(msg & s2 & b & E2 & Hb & D)]; [left|right].
      * exists go, s2. split; [done|]. split; [done|]. intros Hg. destruct (G2 Hg) as (? & b & Hb & ?). split; [done|]. exists b. split; [by right|done].
      * exists msg, s2, b. split; [done|]. split; [by right|done].
    + left. exists false, s1. split; [done|]. split; [done|]. intros _. destruct G as [? ?]. split; [done|]. exists a. split; [by left|done].
  - right. exists msg, s1, a. split; [unfold bind; by rewrite E|]. split; [by left|done].
Qed.
End relay.

(** C15: the client relays in order and inside its buffers.  Whatever is
    ready in each round and however many bytes each call moves, no read or
    write leaves the buffers; what was typed is what was sent followed by what
    is still buffered, and what was received is what was shown followed by what
    is still buffered; the connection is shut down for writing once, after the
    end of the input and with all of it sent.  The loop is left only when the
    server closes after the end of the input - when what is buffered is not
    shown any more - or with the error some call reported. *)
Theorem nonblock_relays tomem frmem l s0 : length tomem = MAXLINE -> length frmem = MAXLINE ->
  (exists go s', str_cli tomem frmem l s0 = Ret go s' /\ typed s' = sent s' ++ to_send s' /\ received s' = shown s' ++ to_show s' /\
     (fins s' <= 1)%nat /\ (fins s' = 1%nat <-> stdineof s' = true /\ sent s' = typed s') /\
     (go = false -> stdineof s' = true /\ exists a, a ∈ l /\ read_sock a = inr [])) \/
  (exists msg s' a, str_cli tomem frmem l s0 = Died msg s' /\ a ∈ l /\ cli_error msg a s').
Proof.
  intros H1 H2. unfold str_cli. rewrite bind_modify.
  destruct (loop_run l _ (start_ok tomem frmem H1 H2)) as [(go & s' & E & C & G)|D]; [left|by right].
  exists go, s'. split; [exact E|]. destruct C as [[L [Ho Hi]] _ _ T V N]. split; [done|]. split; [done|].
  assert (fins s' = 1%nat <-> stdineof s' = true /\ tooptr s' = toiptr s') as Hf.
  { rewrite N. destruct (stdineof s'); cbn [andb]; [|by split; [|intros [? _]]]. destruct (Nat.eqb_spec (tooptr s') (toiptr s')); split; try done. by intros [_ ?]. }
  split; [rewrite N; destruct (_ && _); lia|]. split; [|done]. rewrite Hf. apply and_iff_compat_l. rewrite T. split.
  - intros E2. unfold to_send. rewrite E2, Nat.sub_diag. unfold slice. by rewrite app_nil_r.
  - intros E2. assert (length (to_send s') = 0)%nat as E3 by (apply (f_equal length) in E2; rewrite length_app in E2; lia).
    unfold to_send, slice in E3. rewrite length_take, length_drop in E3. lia.
Qed.

Lemma nonblock_relays_witness :
  (exists go s', str_cli (replicate MAXLINE 0) (replicate MAXLINE 0) [mk_answers true false false true (inr [104; 105]) (inr []) (inr 0%nat) (inr 1%nat)]
     (mk_cli [] 0 0 [] 0 0 false [] [] [] [] 0) = Ret go s' /\
     typed s' = sent s' ++ to_send s' /\ received s' = shown s' ++ to_show s' /\
     (fins s' <= 1)%nat /\ (fins s' = 1%nat <-> stdineof s' = true /\ sent s' = typed s') /\
     (go = false -> stdineof s' = true /\ exists a, a ∈ [mk_answers true false false true (inr [104; 105]) (inr []) (inr 0%nat) (inr 1%nat)] /\ read_sock a = inr [])) \/
  (exists msg s' a, str_cli (replicate MAXLINE 0) (replicate MAXLINE 0) [mk_answers true false false true (inr [104; 105]) (inr []) (inr 0%nat) (inr 1%nat)]
     (mk_cli [] 0 0 [] 0 0 false [] [] [] [] 0) = Died msg s' /\
     a ∈ [mk_answers true false false true (inr [104; 105]) (inr []) (inr 0%nat) (inr 1%nat)] /\ cli_error msg a s').
Proof.
  apply (nonblock_relays (replicate MAXLINE 0) (replicate MAXLINE 0)); apply length_replicate.
Defined.

(** The client is never stuck.  In every state the loop comes to, it
    waits for some descriptor; and a round in which both outputs take what
    they are given leaves nothing buffered in either direction, with the end
    of the input passed on. *)
Theorem nonblock_drains tomem frmem l s0 s a : length tomem = MAXLINE -> length frmem = MAXLINE ->
  str_cli tomem frmem l s0 = Ret true s -> outputs_open a ->
  (negb (stdineof s) && (toiptr s <? MAXLINE)%nat || (friptr s <? MAXLINE)%nat || negb (tooptr s =? toiptr s)%nat || negb (froptr s =? friptr s)%nat) = true /\
  forall s', round a s = Ret true s' -> sent s' = typed s' /\ shown s' = received s' /\ (stdineof s' = true -> fins s' = 1%nat).
Proof.
  intros H1 H2 E O. unfold str_cli in E. rewrite bind_modify in E.
  destruct (loop_run l _ (start_ok tomem frmem H1 H2)) as [(go & s1 & E1 & C & _)|(msg & s1 & b & E1 & _)]; rewrite E in E1; [|done].
  injection E1 as <- <-. split.
  - destruct C as [_ [_ [_ Hi]] [_ R] _ _ _]. destruct (Nat.eqb_spec (froptr s) (friptr s)) as [Ef|]; [|by rewrite !orb_true_r].
    rewrite (proj2 (Nat.ltb_lt (friptr s) MAXLINE)); [by rewrite orb_true_r|]. rewrite R by done. unfold MAXLINE. lia.
  - intros s' E'. destruct (round_run s a C) as [(go & s1 & E1 & C1 & G)|(msg & s1 & E1 & _)]; rewrite E' in E1; [|done].
    injection E1 as <- <-. destruct (G O) as [Et Ef]. destruct C1 as [_ _ _ T V N]. unfold to_send, to_show, slice in *.
    rewrite Et, Nat.sub_diag, take_0, app_nil_r in T. rewrite Ef, Nat.sub_diag, take_0, app_nil_r in V. split; [done|]. split; [done|].
    intros Hs. rewrite N, Hs, Et, Nat.eqb_refl. done.
Qed.

Definition hello_round : answers := mk_answers true true true true (inr [104; 105]) (inr [111; 107]) (inr MAXLINE) (inr MAXLINE).
Lemma nonblock_drains_witness :
  (negb false && (0 <? MAXLINE)%nat || (0 <? MAXLINE)%nat || negb (0 =? 0)%nat || negb (0 =? 0)%nat) = true /\
  forall s', round hello_round (mk_cli (replicate MAXLINE 0) 0 0 (replicate MAXLINE 0) 0 0 false [] [] [] [] 0) = Ret true s' ->
    sent s' = typed s' /\ shown s' = received s' /\ (stdineof s' = true -> fins s' = 1%nat).
Proof.
  apply (nonblock_drains (replicate MAXLINE 0) (replicate MAXLINE 0) [] (mk_cli [] 0 0 [] 0 0 false [] [] [] [] 0)
    (mk_cli (replicate MAXLINE 0) 0 0 (replicate MAXLINE 0) 0 0 false [] [] [] [] 0) hello_round); try reflexivity; try apply length_replicate.
  unfold outputs_open. repeat split; exists MAXLINE; done.
Defined.

(** When the server closes while the terminal is not ready, what it said last
    is not shown. *)
Lemma nonblock_loses_output :
  match str_cli (replicate MAXLINE 0) (replicate MAXLINE 0)
    [mk_answers true false false false (inr []) (inr []) (inr 0%nat) (inr 0%nat);
     mk_answers false true false false (inr []) (inr [98; 121; 101]) (inl EWOULDBLOCK) (inr 0%nat);
     mk_answers false true false false (inr []) (inr []) (inr 0%nat) (inr 0%nat)]
    (mk_cli [] 0 0 [] 0 0 false [] [] [] [] 0) with
  | Ret go s => go = false /\ received s = [98; 121; 101] /\ shown s = []
  | _ => False
  end.
Proof. vm_compute. auto. Qed.
