(* ===== verification/RefTable.v ===== *)
(** What a table of reference-counted objects promises to the threads that
    share it (apue.3e/threads/mutex2.c and mutex3.c): threads call its
    operations and the operations take effect one at a time.  The machine that
    interleaves threads, the atomic table, its invariant, and the method by
    which code is shown to implement it. *)
From Stdlib Require Import ZArith Lia.
From stdpp Require Import base list strings gmap gmultiset numbers.
From S2P Require Import Prelude Dll.
Local Open Scope c_scope.

(** The operations, and what they return. *)
Inductive op := Alloc (id : Z) | Hold (fp : addr) | Find (id : Z) | Rele (fp : addr).
Inductive reply := Obj (fp : addr) | Void.

#[export] Instance op_dec : EqDecision op.
Proof. solve_decision. Defined.
#[export] Instance reply_dec : EqDecision reply.
Proof. solve_decision. Defined.

(** References: [foo_hold] needs one and gives two, [foo_rele] takes one, the
    other two give one with the object they return. *)
Definition needs (o : op) : gmultiset addr :=
  match o with Hold fp | Rele fp => {[+ fp +]} | _ => ∅ end.
Definition gives (o : op) (r : reply) : gmultiset addr :=
  match o, r with
  | Hold fp, _ => {[+ fp; fp +]}
  | Rele _, _ | _, Void => ∅
  | _, Obj fp => if fp =? NULL then ∅ else {[+ fp +]}
  end.

Definition INT_MAX : Z := 2 ^ 31 - 1.

(** * Threads that call the operations of some code *)

(** [pc] is where a thread can be inside an operation, [sh] what the threads
    share; [exec i p s p' s'] is a step of thread [i]. *)
Class Code (pc sh : Type) := {
  start : op -> pc;
  done_with : pc -> option (op * reply);
  exec : nat -> pc -> sh -> pc -> sh -> Prop
}.

(** [bag] holds the references that no operation in progress has taken. *)
Record sys (pc sh : Type) :=
  Sys { shared : sh; threads : list (option pc); bag : gmultiset addr }.
Arguments Sys {pc sh} _ _ _.
Arguments shared {pc sh} _.
Arguments threads {pc sh} _.
Arguments bag {pc sh} _.

Inductive label := Called (i : nat) (o : op) | Returned (i : nat) (o : op) (r : reply).

Section machine.
Context {pc sh : Type} `{!Code pc sh}.
Implicit Types s : sys pc sh.

(** Callers keep fewer references than an [int] can count. *)
Definition room s : Prop := Z.of_nat (size (bag s)) + 2 * Z.of_nat (length (threads s)) <= INT_MAX.

(** A step of the threads: a call, for which the caller has the reference it
    needs, a step inside an operation, or a return. *)
Inductive sys_step : sys pc sh -> option label -> sys pc sh -> Prop :=
| step_call s i o :
    threads s !! i = Some None -> needs o ⊆ bag s -> room s ->
    sys_step s (Some (Called i o))
      (Sys (shared s) (<[i := Some (start o)]> (threads s)) (bag s ∖ needs o))
| step_exec s i p p' h :
    threads s !! i = Some (Some p) -> exec i p (shared s) p' h ->
    sys_step s None (Sys h (<[i := Some p']> (threads s)) (bag s))
| step_return s i p o r :
    threads s !! i = Some (Some p) -> done_with p = Some (o, r) ->
    sys_step s (Some (Returned i o r))
      (Sys (shared s) (<[i := None]> (threads s)) (bag s ⊎ gives o r)).

(** What an observer sees of a run: the calls and the returns. *)
Inductive runs : sys pc sh -> list label -> sys pc sh -> Prop :=
| runs_nil s : runs s [] s
| runs_tau s1 s2 tr s3 : sys_step s1 None s2 -> runs s2 tr s3 -> runs s1 tr s3
| runs_label s1 l s2 tr s3 : sys_step s1 (Some l) s2 -> runs s2 tr s3 -> runs s1 (l :: tr) s3.

(** [n] threads that have called nothing. *)
Definition idle (n : nat) (h : sh) : sys pc sh := Sys h (replicate n None) ∅.
End machine.
#[export] Hint Constructors runs sys_step : core.

(** * The atomic table *)

(** The objects, the most recent first, and their reference counts. *)
Record table := Table { tab : list (addr * Z); cnt : gmap addr Z }.

Definition find_id (id : Z) (l : list (addr * Z)) : option addr :=
  match filter (fun e => e.2 = id) l with e :: _ => Some e.1 | [] => None end.
Definition drop_fp (fp : addr) (l : list (addr * Z)) : list (addr * Z) :=
  filter (fun e => e.1 <> fp) l.

Inductive answers : op -> table -> reply -> table -> Prop :=
| alloc_fails id t : answers (Alloc id) t (Obj NULL) t
| alloc_adds id t fp :
    fp <> NULL -> (fp ∉ (tab t).*1) ->
    answers (Alloc id) t (Obj fp) (Table ((fp, id) :: tab t) (<[fp := 1]> (cnt t)))
| hold_counts fp t n :
    cnt t !! fp = Some n -> answers (Hold fp) t Void (Table (tab t) (<[fp := n + 1]> (cnt t)))
| find_hit id t fp n :
    find_id id (tab t) = Some fp -> cnt t !! fp = Some n ->
    answers (Find id) t (Obj fp) (Table (tab t) (<[fp := n + 1]> (cnt t)))
| find_miss id t : find_id id (tab t) = None -> answers (Find id) t (Obj NULL) t
| rele_counts fp t n :
    cnt t !! fp = Some n -> n <> 1 ->
    answers (Rele fp) t Void (Table (tab t) (<[fp := n - 1]> (cnt t)))
| rele_removes fp t :
    cnt t !! fp = Some 1 ->
    answers (Rele fp) t Void (Table (drop_fp fp (tab t)) (delete fp (cnt t))).
#[export] Hint Constructors answers : core.

(** A thread inside an operation waits for it to take effect, or has its
    answer; the operation takes effect in one step. *)
Inductive stat := Pending (o : op) | Answered (o : op) (r : reply).

Inductive takes_effect : stat -> table -> stat -> table -> Prop :=
| effect o r t t' : answers o t r t' -> takes_effect (Pending o) t (Answered o r) t'.

#[export] Instance atomic_code : Code stat table := {|
  start := Pending;
  done_with p := match p with Answered o r => Some (o, r) | Pending _ => None end;
  exec _ := takes_effect
|}.

Definition owned (x : option stat) : gmultiset addr :=
  match x with
  | None => ∅ | Some (Pending o) => needs o | Some (Answered o r) => gives o r
  end.
Definition owned_all (l : list (option stat)) : gmultiset addr := ⋃+ (owned <$> l).
(** All references there are. *)
Definition refs (a : sys stat table) : gmultiset addr := bag a ⊎ owned_all (threads a).
(** What operations in progress may give. *)
Definition may_give (l : list (option stat)) : Z :=
  foldr (fun x n => n + match x with None => 0 | Some _ => 2 end) 0 l.

(** Every reference is counted and every object counted is referred to. *)
Record counted (a : sys stat table) : Prop := {
  c_nodup : NoDup (tab (shared a)).*1;
  c_null : NULL ∉ (tab (shared a)).*1;
  c_dom fp : fp ∈ (tab (shared a)).*1 <-> is_Some (cnt (shared a) !! fp);
  c_count fp : default 0 (cnt (shared a) !! fp) = Z.of_nat (multiplicity fp (refs a));
  c_pos fp n : cnt (shared a) !! fp = Some n -> 1 <= n;
  c_bound : Z.of_nat (size (bag a)) + may_give (threads a) <= INT_MAX
}.

(** * The invariant of the atomic table *)

Lemma insert_split {A} (l : list A) i x :
  l !! i = Some x -> exists l1 l2, l = l1 ++ x :: l2 /\ forall y, <[i := y]> l = l1 ++ y :: l2.
Proof.
  intros (l1 & l2 & -> & ->)%list_elem_of_split_length. exists l1, l2. split; [done|].
  intros y. induction l1 as [|z l1 IH]; [done|]. exact (f_equal (cons z) IH).
Qed.

Lemma owned_all_app l1 x l2 :
  owned_all (l1 ++ x :: l2) = owned x ⊎ owned_all (l1 ++ l2).
Proof.
  unfold owned_all. rewrite !fmap_app, fmap_cons, !gmultiset_disj_union_list_app,
    gmultiset_disj_union_list_cons. multiset_solver.
Qed.
Lemma may_give_app l1 x l2 :
  may_give (l1 ++ x :: l2) = may_give (l1 ++ l2) + match x with None => 0 | Some _ => 2 end.
Proof.
  unfold may_give. induction l1 as [|y l1 IH]; [done|]. cbn [app foldr].
  rewrite IH. lia.
Qed.

Lemma gives_size o r : (size (gives o r) <= 2)%nat.
Proof.
  destruct o, r; unfold gives; try destruct (_ =? _); rewrite ?gmultiset_size_disj_union,
    ?gmultiset_size_singleton, ?gmultiset_size_empty; lia.
Qed.
Lemma needs_size o : (size (needs o) <= 1)%nat.
Proof.
  destruct o; unfold needs; rewrite ?gmultiset_size_singleton, ?gmultiset_size_empty; lia.
Qed.
Lemma owned_size x : (size (owned x) <= match x with None => 0 | Some _ => 2 end)%nat.
Proof.
  destruct x as [[o|o r]|]; cbn; [pose proof (needs_size o)|pose proof (gives_size o r)|
    rewrite gmultiset_size_empty]; lia.
Qed.
Lemma owned_all_size l : Z.of_nat (size (owned_all l)) <= may_give l.
Proof.
  induction l as [|x l IH]; [done|].
  change (x :: l) with ([] ++ x :: l). rewrite owned_all_app, may_give_app,
    gmultiset_size_disj_union. cbn [app]. pose proof (owned_size x). destruct x; lia.
Qed.

Lemma multiplicity_size x (X : gmultiset addr) : (multiplicity x X <= size X)%nat.
Proof.
  assert (H : multiplicity x X *: {[+ x +]} ⊆ X) by multiset_solver.
  apply gmultiset_subseteq_size in H.
  rewrite gmultiset_size_scalar_mul, gmultiset_size_singleton in H. lia.
Qed.

Lemma may_give_length l : may_give l <= 2 * Z.of_nat (length l).
Proof.
  induction l as [|x l IH]; [done|]. change (x :: l) with ([] ++ x :: l).
  rewrite may_give_app, length_app. cbn [length app]. destruct x; lia.
Qed.

(** The references of a thread, taken out of the others. *)
Lemma refs_at (a : sys stat table) i x :
  threads a !! i = Some x ->
  exists X n, refs a = bag a ⊎ owned x ⊎ X /\
    may_give (threads a) = match x with None => 0 | Some _ => 2 end + n /\
    Z.of_nat (size X) <= n /\
    forall y h b, refs (Sys h (<[i := y]> (threads a)) b) = b ⊎ owned y ⊎ X /\
      may_give (<[i := y]> (threads a)) = match y with None => 0 | Some _ => 2 end + n.
Proof.
  intros (l1 & l2 & E & H)%insert_split.
  exists (owned_all (l1 ++ l2)), (may_give (l1 ++ l2)).
  unfold refs. cbn -[owned_all may_give].
  rewrite E in H |- *. rewrite owned_all_app, may_give_app. split; [multiset_solver|]. split; [lia|].
  split; [apply owned_all_size|]. intros y h b.
  rewrite H, owned_all_app, may_give_app. split; [multiset_solver|lia].
Qed.

(** The table after an operation: its objects, and what it counts for each. *)
Section counts.
Implicit Types t u : table.

Record well_counted t (X : gmultiset addr) : Prop := {
  w_nodup : NoDup (tab t).*1;
  w_null : NULL ∉ (tab t).*1;
  w_dom fp : fp ∈ (tab t).*1 <-> is_Some (cnt t !! fp);
  w_count fp : default 0 (cnt t !! fp) = Z.of_nat (multiplicity fp X);
  w_pos fp n : cnt t !! fp = Some n -> 1 <= n
}.

Lemma counted_alt (a : sys stat table) :
  counted a <-> well_counted (shared a) (refs a) /\
    Z.of_nat (size (bag a)) + may_give (threads a) <= INT_MAX.
Proof. split; [intros []; split; [constructor|]|intros [[] ?]; constructor]; auto. Qed.

(** A reference keeps its object in the table. *)
Lemma well_counted_live t X fp :
  well_counted t X -> fp ∈ X -> exists n, cnt t !! fp = Some n /\ 1 <= n.
Proof.
  intros W H. pose proof (w_count _ _ W fp) as C.
  destruct (cnt t !! fp) as [n|] eqn:E; [exists n; split; [done|]; by apply (w_pos _ _ W fp)|].
  change (0 = Z.of_nat (multiplicity fp X)) in C. exfalso.
  rewrite elem_of_multiplicity in H. lia.
Qed.

Lemma find_id_elem id l fp : find_id id l = Some fp -> (fp, id) ∈ l.
Proof.
  unfold find_id. destruct (filter _ l) as [|[x y] r] eqn:E; [done|]. intros [= <-].
  assert (H : (x, y) ∈ filter (fun e => e.2 = id) l) by (rewrite E; left).
  apply list_elem_of_filter in H as [H1 H2]. cbn in *. by subst.
Qed.

Lemma drop_fp_elem fp x l : x ∈ (drop_fp fp l).*1 <-> x ∈ l.*1 /\ x <> fp.
Proof.
  unfold drop_fp. rewrite !list_elem_of_fmap. setoid_rewrite list_elem_of_filter.
  split; [intros (e & -> & ? & ?); eauto|intros [(e & -> & ?) ?]; eauto].
Qed.
Lemma drop_fp_nodup fp l : NoDup l.*1 -> NoDup (drop_fp fp l).*1.
Proof.
  unfold drop_fp. induction l as [|e l IH]; [done|]. rewrite fmap_cons, list.NoDup_cons, filter_cons.
  intros [H1 H2]. destruct (decide _); [|auto]. rewrite fmap_cons, list.NoDup_cons. split; [|auto].
  intros H. apply H1. by apply (drop_fp_elem fp) in H as [].
Qed.

Lemma well_counted_update t X fp n n' X' :
  well_counted t X -> cnt t !! fp = Some n -> 1 <= n' ->
  n' - n = Z.of_nat (multiplicity fp X') - Z.of_nat (multiplicity fp X) ->
  (forall x, x <> fp -> multiplicity x X' = multiplicity x X) ->
  well_counted (Table (tab t) (<[fp := n']> (cnt t))) X'.
Proof.
  intros [A B C D E] Hfp Hn Hc Ho. constructor; cbn [tab cnt]; [done|done|..].
  - intros x. rewrite C. destruct (decide (x = fp)) as [->|].
    + rewrite lookup_insert_eq, Hfp. split; eauto.
    + by rewrite lookup_insert_ne by done.
  - intros x. destruct (decide (x = fp)) as [->|].
    + rewrite lookup_insert_eq. specialize (D fp). rewrite Hfp in D.
      change (n = Z.of_nat (multiplicity fp X)) in D. change (n' = Z.of_nat (multiplicity fp X')). lia.
    + rewrite lookup_insert_ne, Ho by done. apply D.
  - intros x m [[<- <-]|[? ?]]%lookup_insert_Some; [done|eauto].
Qed.

Lemma well_counted_remove t X fp X' :
  well_counted t X -> cnt t !! fp = Some 1 -> X = {[+ fp +]} ⊎ X' ->
  well_counted (Table (drop_fp fp (tab t)) (delete fp (cnt t))) X'.
Proof.
  intros [A B C D E] Hfp ->. constructor; cbn [tab cnt].
  - by apply drop_fp_nodup.
  - intros H%drop_fp_elem. tauto.
  - intros x. rewrite drop_fp_elem, C. destruct (decide (x = fp)) as [->|].
    + rewrite lookup_delete_eq. split; [tauto|by intros []].
    + rewrite lookup_delete_ne by done. tauto.
  - intros x. specialize (D x). rewrite multiplicity_disj_union in D.
    destruct (decide (x = fp)) as [->|].
    + rewrite lookup_delete_eq. rewrite Hfp, multiplicity_singleton_eq in D.
      change (1 = Z.of_nat (1 + multiplicity fp X')) in D.
      change (0 = Z.of_nat (multiplicity fp X')). lia.
    + rewrite lookup_delete_ne by done. rewrite multiplicity_singleton_ne in D by done. lia.
  - intros x m [? ?]%lookup_delete_Some. eauto.
Qed.

Lemma well_counted_alloc t X fp id :
  well_counted t X -> fp <> NULL -> (fp ∉ (tab t).*1) ->
  well_counted (Table ((fp, id) :: tab t) (<[fp := 1]> (cnt t))) ({[+ fp +]} ⊎ X).
Proof.
  intros [A B C D E] Hn Hfp.
  assert (Ho : cnt t !! fp = None) by (apply eq_None_not_Some; by rewrite <- C).
  constructor; cbn [tab cnt fmap list_fmap fst].
  - by apply list.NoDup_cons.
  - rewrite elem_of_cons. by intros [?|?].
  - intros x. rewrite elem_of_cons, C. destruct (decide (x = fp)) as [->|].
    + rewrite lookup_insert_eq. split; eauto.
    + rewrite lookup_insert_ne by done. tauto.
  - intros x. rewrite multiplicity_disj_union. specialize (D x). destruct (decide (x = fp)) as [->|].
    + rewrite lookup_insert_eq, multiplicity_singleton_eq. rewrite Ho in D.
      change (0 = Z.of_nat (multiplicity fp X)) in D.
      change (1 = Z.of_nat (1 + multiplicity fp X)). lia.
    + rewrite lookup_insert_ne, multiplicity_singleton_ne by done. done.
  - intros x m [[<- <-]|[? ?]]%lookup_insert_Some; [done|eauto].
Qed.

Ltac multiplicities :=
  [> lia | | intros ? ?];
  rewrite ?multiplicity_disj_union, ?multiplicity_singleton_eq, ?multiplicity_empty,
    ?multiplicity_singleton_ne by done; lia.

Lemma answers_counted t o r t' X :
  well_counted t (needs o ⊎ X) -> answers o t r t' -> well_counted t' (gives o r ⊎ X).
Proof.
  intros W H. assert (N : NULL ∉ (tab t).*1) by apply W.
  destruct H as [id t|id t fp Hn Hf|fp t n Hc|id t fp n Hf Hc|id t Hf|fp t n Hc H1|fp t Hc];
    cbn [needs gives] in *; pose proof (w_pos _ _ W) as P.
  - done.
  - rewrite (proj2 (Z.eqb_neq _ _) Hn). apply well_counted_alloc; [|done..].
    by replace (∅ ⊎ X) with X in W by multiset_solver.
  - specialize (P _ _ Hc).
    apply (well_counted_update _ _ fp n _ _ W Hc); multiplicities.
  - specialize (P _ _ Hc). rewrite (proj2 (Z.eqb_neq _ _)).
    + apply (well_counted_update _ _ fp n _ _ W Hc); multiplicities.
    + intros ->. apply N. apply (w_dom _ _ W). eauto.
  - done.
  - specialize (P _ _ Hc).
    apply (well_counted_update _ _ fp n _ _ W Hc); multiplicities.
  - apply (well_counted_remove _ _ fp _ W Hc). multiset_solver.
Qed.
End counts.

Lemma owned_all_idle n : owned_all (replicate n None) = ∅ /\ may_give (replicate n None) = 0.
Proof.
  induction n as [|n [IH1 IH2]]; [done|].
  change (replicate (S n) None) with ([] ++ None :: replicate n (@None stat)).
  rewrite owned_all_app, may_give_app. cbn [app owned]. rewrite IH1, IH2. split; [|done].
  multiset_solver.
Qed.

Lemma counted_idle n : counted (idle n (Table [] ∅)).
Proof.
  pose proof (owned_all_idle n) as [E1 E2].
  constructor; cbn -[owned_all may_give].
  - constructor.
  - by intros H%elem_of_nil.
  - intros fp. rewrite lookup_empty. split; [by intros ?%elem_of_nil|by intros []].
  - intros fp. rewrite lookup_empty. unfold refs. cbn -[owned_all]. rewrite E1. multiset_solver.
  - intros fp m. by rewrite lookup_empty.
  - by rewrite gmultiset_size_empty, E2.
Qed.

(** Every step keeps the count. *)
Lemma counted_step (a b : sys stat table) l : counted a -> sys_step a l b -> counted b.
Proof.
  rewrite !counted_alt. intros [W B] H. destruct H as [s i o Hi Hn Hr|s i p p' h Hi He|s i p o r Hi Hd].
  - destruct (refs_at s i _ Hi) as (X & n & E1 & E2 & _ & E3).
    destruct (E3 (Some (Pending o)) (shared s) (bag s ∖ needs o)) as [E4 E5].
    cbn [start atomic_code shared bag threads]. rewrite E4, E5. split.
    + replace (_ ⊎ _ ⊎ X) with (refs s); [done|]. rewrite E1. cbn [owned]. multiset_solver.
    + unfold room in Hr. rewrite gmultiset_size_difference by done.
      pose proof (may_give_length (<[i := Some (Pending o)]> (threads s))) as L.
      rewrite E5, length_insert in L. lia.
  - destruct (refs_at s i _ Hi) as (X & n & E1 & E2 & _ & E3).
    cbn in He. destruct He as [o r t t' Ha].
    destruct (E3 (Some (Answered o r)) t' (bag s)) as [E4 E5].
    cbn [shared bag threads]. rewrite E4, E5. split; [|lia].
    rewrite E1 in W. cbn [owned] in *.
    replace (bag s ⊎ gives o r ⊎ X) with (gives o r ⊎ (bag s ⊎ X)) by multiset_solver.
    apply (answers_counted t o r t'); [|done].
    by replace (needs o ⊎ (bag s ⊎ X)) with (bag s ⊎ needs o ⊎ X) by multiset_solver.
  - destruct (refs_at s i _ Hi) as (X & n & E1 & E2 & _ & E3).
    destruct p as [|o' r']; [done|]. injection Hd as -> ->.
    destruct (E3 None (shared s) (bag s ⊎ gives o r)) as [E4 E5].
    cbn [shared bag threads]. rewrite E4, E5. split.
    + replace (_ ⊎ _ ⊎ X) with (refs s); [done|]. rewrite E1. cbn [owned]. multiset_solver.
    + rewrite gmultiset_size_disj_union. pose proof (gives_size o r). lia.
Qed.

Lemma counted_live (a : sys stat table) i x fp :
  counted a -> threads a !! i = Some x -> fp ∈ owned x ->
  exists n, cnt (shared a) !! fp = Some n /\ 1 <= n.
Proof.
  intros [W _]%counted_alt Hi Hfp. destruct (refs_at a i x Hi) as (X & n & E & _).
  apply (well_counted_live _ _ _ W). rewrite E. multiset_solver.
Qed.

Lemma counted_max (a : sys stat table) fp n : counted a -> cnt (shared a) !! fp = Some n -> n <= INT_MAX.
Proof.
  intros C Hn. pose proof (c_count _ C fp) as D. rewrite Hn in D.
  change (n = Z.of_nat (multiplicity fp (refs a))) in D.
  pose proof (c_bound _ C). pose proof (multiplicity_size fp (refs a)) as S.
  unfold refs in *. rewrite gmultiset_size_disj_union in S. pose proof (owned_all_size (threads a)). lia.
Qed.

(** Two threads that hold references to an object are both counted. *)
Lemma counted_two (a : sys stat table) i j x y fp n :
  counted a -> threads a !! i = Some x -> threads a !! j = Some y -> i <> j ->
  fp ∈ owned x -> fp ∈ owned y -> cnt (shared a) !! fp = Some n -> 2 <= n.
Proof.
  intros C Hi Hj N Hx Hy Hn. destruct (refs_at a i x Hi) as (X & m & E & _ & _ & E').
  destruct (E' None (shared a) (bag a)) as [E1 _].
  destruct (refs_at (Sys (shared a) (<[i:=None]> (threads a)) (bag a)) j y) as (Y & m' & E2 & _).
  { cbn. by rewrite list_lookup_insert_ne. }
  pose proof (c_count _ C fp) as D. rewrite Hn in D.
  change (n = Z.of_nat (multiplicity fp (refs a))) in D. rewrite E, !multiplicity_disj_union in D.
  rewrite E2 in E1. cbn [bag owned] in E1.
  assert (M : (multiplicity fp (bag a ⊎ owned y ⊎ Y) = multiplicity fp (bag a ⊎ ∅ ⊎ X))%nat) by by rewrite E1.
  rewrite !multiplicity_disj_union, multiplicity_empty in M.
  rewrite elem_of_multiplicity in Hx, Hy. lia.
Qed.

(** A count that is about to grow is below [INT_MAX]. *)
Lemma counted_room (a : sys stat table) i o fp n :
  counted a -> threads a !! i = Some (Some (Pending o)) -> cnt (shared a) !! fp = Some n ->
  1 <= n /\ n + 1 <= INT_MAX.
Proof.
  intros C Hi Hn. split; [by apply (c_pos _ C fp)|].
  destruct (refs_at a i _ Hi) as (X & m & E & E2 & E3 & _).
  pose proof (c_bound _ C) as B. pose proof (c_count _ C fp) as D. rewrite Hn in D.
  change (n = Z.of_nat (multiplicity fp (refs a))) in D.
  pose proof (multiplicity_size fp (refs a)) as S. rewrite E in S at 2.
  rewrite !gmultiset_size_disj_union in S. pose proof (needs_size o). cbn [owned] in S. lia.
Qed.

Section runs.
Context {pc sh : Type} `{!Code pc sh}.

Lemma runs_app s1 tr1 s2 tr2 s3 :
  runs s1 tr1 s2 -> runs s2 tr2 s3 -> runs s1 (tr1 ++ tr2) s3.
Proof. induction 1; intros; cbn; eauto. Qed.

Lemma runs_snoc_tau s1 tr s2 s3 : runs s1 tr s2 -> sys_step s2 None s3 -> runs s1 tr s3.
Proof. intros R H. rewrite <- (app_nil_r tr). eauto using runs_app. Qed.
Lemma runs_snoc s1 tr s2 l s3 : runs s1 tr s2 -> sys_step s2 (Some l) s3 -> runs s1 (tr ++ [l]) s3.
Proof. eauto using runs_app. Qed.

(** What holds at the start and is kept by steps holds all along. *)
Lemma runs_invariant (P : sys pc sh -> Prop) s tr s' :
  (forall a l b, P a -> sys_step a l b -> P b) -> P s -> runs s tr s' -> P s'.
Proof. intros H P0. induction 1; eauto. Qed.
End runs.

Lemma counted_runs n tr a : runs (idle n (Table [] ∅)) tr a -> counted a.
Proof.
  apply (runs_invariant counted); [|apply counted_idle]. intros; by eapply counted_step.
Qed.

(** * Code that implements the table *)

(** Where an operation has taken effect, an invariant between what the threads
    share and the table, and that a step either leaves the table alone or is
    the one at which the operation of its thread takes effect. *)
Definition stats {pc} (f : pc -> stat) (l : list (option pc)) : list (option stat) :=
  fmap (M := list) (fmap (M := option) f) l.
#[global] Arguments stats : simpl never.

Lemma stats_insert {pc} (f : pc -> stat) l i x :
  stats f (<[i := x]> l) = <[i := fmap (M := option) f x]> (stats f l).
Proof. apply list_fmap_insert. Qed.
Lemma stats_lookup {pc} (f : pc -> stat) l i x :
  l !! i = Some x -> stats f l !! i = Some (fmap (M := option) f x).
Proof. intros E. unfold stats. by rewrite list_lookup_fmap, E. Qed.

Section linearization.
Context {pc sh : Type} `{!Code pc sh}.

Class Linearizable (init : sh) := {
  status : pc -> stat;
  represents : list (option pc) -> sh -> table -> Prop;
  lin_start o : status (start o) = Pending o;
  lin_done p o r : done_with p = Some (o, r) -> status p = Answered o r;
  lin_init n : represents (replicate n None) init (Table [] ∅);
  lin_call l i o h t :
    represents l h t -> l !! i = Some None -> represents (<[i := Some (start o)]> l) h t;
  lin_return l i p o r h t :
    represents l h t -> l !! i = Some (Some p) -> done_with p = Some (o, r) ->
    represents (<[i := None]> l) h t;
  lin_exec l i p h p' h' t b :
    represents l h t -> l !! i = Some (Some p) -> exec i p h p' h' ->
    counted (Sys t (stats status l) b) ->
    exists t', represents (<[i := Some p']> l) h' t' /\
      (status p' = status p /\ t' = t \/ takes_effect (status p) t (status p') t')
}.

Context {init : sh} `{!Linearizable init}.

Definition atomic (s : sys pc sh) (t : table) : sys stat table :=
  Sys t (stats status (threads s)) (bag s).

Lemma linearizable n tr s :
  runs (idle n init) tr s ->
  exists t, runs (idle n (Table [] ∅)) tr (atomic s t) /\ represents (threads s) (shared s) t.
Proof.
  enough (H : forall s0 tr s, runs s0 tr s ->
    forall t0 tr0, runs (idle n (Table [] ∅)) tr0 (atomic s0 t0) ->
      represents (threads s0) (shared s0) t0 ->
      exists t, runs (idle n (Table [] ∅)) (tr0 ++ tr) (atomic s t) /\
        represents (threads s) (shared s) t).
  { intros R. apply (H _ _ _ R (Table [] ∅) []); [|apply lin_init].
    unfold atomic, stats. cbn. rewrite fmap_replicate. apply runs_nil. }
  clear tr s.
  induction 1 as [s|s1 s2 tr s3 Hs R IH|s1 l s2 tr s3 Hs R IH]; intros t0 tr0 R0 I0.
  - rewrite app_nil_r. eauto.
  - remember None as l eqn:El. destruct Hs as [| s i p p' h Hi He|]; [done| |done].
    destruct (lin_exec _ _ _ _ _ _ _ (bag s) I0 Hi He (counted_runs _ _ _ R0))
      as (t' & I & [[E ->]|T]).
    + apply (IH t0); [|done]. unfold atomic in *. cbn.
      rewrite stats_insert. cbn. rewrite E, list_insert_id; [done|]. by apply (stats_lookup _ _ i (Some p)).
    + apply (IH t'); [|done]. apply (runs_snoc_tau _ _ _ _ R0). unfold atomic. cbn.
      rewrite stats_insert. by apply (step_exec (atomic s t0) i (status p) (status p')); [apply (stats_lookup _ _ i (Some p))|].
  - assert (exists t, represents (threads s2) (shared s2) t /\
      sys_step (atomic s1 t0) (Some l) (atomic s2 t)) as (t & I & T).
    { exists t0. remember (Some l) as l' eqn:El.
      destruct Hs as [s i o Hi Hn Hr| |s i p o r Hi Hd]; [|done|]; unfold atomic; cbn [threads shared bag];
        rewrite stats_insert.
      - split; [by apply lin_call|]. cbn [fmap option_fmap option_map]. rewrite lin_start.
        refine (step_call (atomic s t0) i o _ _ _); [apply (stats_lookup _ _ i None Hi)|done|].
        unfold room in *. cbn. unfold stats. by rewrite length_fmap.
      - split; [by eapply lin_return|]. apply lin_done in Hd.
        refine (step_return (atomic s t0) i (status p) o r _ _); [apply (stats_lookup _ _ i (Some p) Hi)|].
        cbn. by rewrite Hd. }
    destruct (IH t (tr0 ++ [l])) as (u & Hu); [by apply (runs_snoc _ _ _ _ _ R0)|done|].
    rewrite <- app_assoc in Hu. eauto.
Qed.
End linearization.

(** When no operation is in progress, all references are in the bag. *)
Lemma refs_idle {pc} (f : pc -> stat) l t b :
  (forall i p, l !! i <> Some (Some p)) -> refs (Sys t (stats f l) b) = b.
Proof.
  intros H. unfold refs. cbn [bag threads].
  replace (owned_all (stats f l)) with (∅ : gmultiset addr); [multiset_solver|].
  induction l as [|x l IH]; [done|]. destruct x as [p|]; [by destruct (H 0%nat p)|].
  change (stats f (None :: l)) with ([] ++ None :: stats f l). rewrite owned_all_app. cbn [app owned].
  rewrite <- IH; [multiset_solver|]. intros i p. apply (H (S i) p).
Qed.

(** * Work left *)

(** A step that is not a new call. *)
Definition works {pc sh : Type} `{!Code pc sh} (s s' : sys pc sh) : Prop :=
  exists l, sys_step s l s' /\ match l with Some (Called _ _) => False | _ => True end.

Definition all_idle {pc sh : Type} (s : sys pc sh) : Prop := forall i p, threads s !! i <> Some (Some p).

Lemma idle_or_not {pc sh : Type} (s : sys pc sh) :
  all_idle s \/ exists i p, threads s !! i = Some (Some p).
Proof.
  unfold all_idle. induction (threads s) as [|[p|] l IH]; [by left|right; by exists 0%nat, p|].
  destruct IH as [H|(i & p & H)]; [left; intros [|i] p; [done|apply H]|right; by exists (S i), p].
Qed.

Lemma works_reached {pc sh : Type} `{!Code pc sh} (init : sh) n tr s k s' :
  runs (idle n init) tr s -> nsteps works k s s' -> exists tr', runs (idle n init) tr' s'.
Proof.
  intros R H. revert tr R. induction H as [|k s1 s2 s3 (l & W & _) H IH]; intros tr R; [eauto|].
  destruct l as [l|]; eapply IH; [by eapply runs_snoc|by eapply runs_snoc_tau].
Qed.

(** The objects there are or may come to be. *)
Definition pending_alloc (x : option stat) : nat :=
  match x with Some (Pending (Alloc _)) => 1%nat | _ => 0%nat end.
Definition most_objects (t : table) (l : list (option stat)) : nat :=
  (length (tab t) + sum_list_with pending_alloc l)%nat.

Lemma sum_insert {A} (f : A -> nat) (l : list A) i x y :
  l !! i = Some x -> (sum_list_with f (<[i := y]> l) + f x = sum_list_with f l + f y)%nat.
Proof.
  intros (l1 & l2 & -> & H)%insert_split. rewrite H, !sum_list_with_app. cbn. lia.
Qed.

Lemma answers_length o t r t' :
  answers o t r t' -> (length (tab t') <= length (tab t) + pending_alloc (Some (Pending o)))%nat.
Proof.
  intros []; cbn [tab length pending_alloc]; try lia. unfold drop_fp.
  etrans; [apply length_filter|lia].
Qed.

Lemma most_objects_effect t l i p t' p' :
  l !! i = Some (Some p) -> takes_effect p t p' t' ->
  (most_objects t' (<[i := Some p']> l) <= most_objects t l)%nat.
Proof.
  intros Hl T. destruct T as [o r t t' A]. pose proof (answers_length _ _ _ _ A).
  pose proof (sum_insert pending_alloc l i _ (Some (Answered o r)) Hl). unfold most_objects.
  cbn [pending_alloc] in *. lia.
Qed.

(** How far a thread is from the end of its operation, when there are at most
    [n] objects; a step of a thread brings it closer, and takes no other one
    back. *)
Section termination.
Context {pc sh : Type} `{!Code pc sh} {init : sh} `{!Linearizable init}.
Variable rank : nat -> table -> pc -> nat.

Definition size_of (t : table) (l : list (option pc)) : nat := most_objects t (stats status l).
Definition work (s : sys pc sh) (t : table) : nat :=
  sum_list_with (fun x => match x with None => 0 | Some p => S (rank (size_of t (threads s)) t p) end%nat)
    (threads s).

Hypothesis rank_step : forall l i p g p' g' t b t',
  represents l g t -> counted (Sys t (stats status l) b) -> l !! i = Some (Some p) -> exec i p g p' g' ->
  represents (<[i := Some p']> l) g' t' ->
  status p' = status p /\ t' = t \/ takes_effect (status p) t (status p') t' ->
  forall n n', (length (tab t) <= n)%nat -> (n' <= n)%nat -> (rank n' t' p' < rank n t p)%nat /\
    forall j q, j <> i -> l !! j = Some (Some q) -> (rank n' t' q <= rank n t q)%nat.
Hypothesis rank_le : forall n n' t p, (n' <= n)%nat -> (rank n' t p <= rank n t p)%nat.

Lemma sum_lt {A} (f g : A -> nat) (l : list A) i x y :
  l !! i = Some x -> (g y < f x)%nat -> (forall j z, j <> i -> l !! j = Some z -> (g z <= f z)%nat) ->
  (sum_list_with g (<[i := y]> l) < sum_list_with f l)%nat.
Proof.
  revert i. induction l as [|z l IH]; intros [|i] Hi; try done.
  - injection Hi as ->. cbn. intros Hy Hz. enough (sum_list_with g l <= sum_list_with f l)%nat by lia.
    clear -Hz. assert (H : forall j z, l !! j = Some z -> (g z <= f z)%nat)
      by (intros j z; exact (Hz (S j) z (Nat.neq_succ_0 j))). clear Hz.
    induction l as [|z l IH]; [done|]. cbn. pose proof (H 0%nat z eq_refl).
    specialize (IH (fun j => H (S j))). lia.
  - intros Hy Hz. pose proof (Hz 0%nat z ltac:(done) eq_refl).
    specialize (IH i Hi Hy (fun j w Hj => Hz (S j) w ltac:(congruence))).
    change (g z + sum_list_with g (<[i := y]> l) < f z + sum_list_with f l)%nat. lia.
Qed.

Lemma works_less n tr s t s' :
  runs (idle n (Table [] ∅)) tr (atomic s t) -> represents (threads s) (shared s) t -> works s s' ->
  exists t' tr', runs (idle n (Table [] ∅)) tr' (atomic s' t') /\ represents (threads s') (shared s') t' /\
    (work s' t' < work s t)%nat.
Proof using rank_step rank_le.
  intros R0 I (l & Hs & Hl). pose proof (counted_runs _ _ _ R0) as C.
  destruct Hs as [s i o Hi Hn Hr|s i p p' h Hi He|s i p o r Hi Hd]; [done|..].
  - destruct (lin_exec _ _ _ _ _ _ _ (bag s) I Hi He C) as (t' & I' & Hp).
    assert (Ha : runs (idle n (Table [] ∅)) tr (atomic (Sys h (<[i:=Some p']> (threads s)) (bag s)) t')).
    { destruct Hp as [[E ->]|T]; unfold atomic in *; cbn [threads shared bag]; rewrite stats_insert; cbn.
      - rewrite E, list_insert_id; [done|]. by apply (stats_lookup _ _ i (Some p)).
      - apply (runs_snoc_tau _ _ _ _ R0).
        by apply (step_exec (atomic s t) i (status p) (status p')); [apply (stats_lookup _ _ i (Some p))|]. }
    exists t', tr. split_and!; [done..|]. unfold work. cbn [threads].
    assert (Hn : (size_of t' (<[i:=Some p']> (threads s)) <= size_of t (threads s))%nat).
    { unfold size_of. rewrite stats_insert. destruct Hp as [[E ->]|T].
      - cbn. rewrite E, list_insert_id; [done|]. by apply (stats_lookup _ _ i (Some p)).
      - apply (most_objects_effect _ _ i (status p)); [by apply (stats_lookup _ _ i (Some p))|done]. }
    destruct (rank_step _ _ _ _ _ _ _ _ _ I C Hi He I' Hp (size_of t (threads s)) _
      ltac:(unfold size_of, most_objects; lia) Hn) as [H1 H2].
    apply (sum_lt _ _ _ i (Some p)); [done|lia|].
    intros j [q|] Hj Hq; [|lia]. specialize (H2 j q Hj Hq). lia.
  - exists t, (tr ++ [Returned i o r]). split_and!.
    + apply (runs_snoc _ _ _ _ _ R0). unfold atomic. cbn [threads shared bag]. rewrite stats_insert.
      apply lin_done in Hd. refine (step_return (atomic s t) i (status p) o r _ _);
        [apply (stats_lookup _ _ i (Some p) Hi)|cbn; by rewrite Hd].
    + by eapply lin_return.
    + unfold work. cbn [threads]. apply (sum_lt _ _ _ i (Some p)); [done|lia|].
      intros j [q|] Hj Hq; [|lia]. apply le_n_S, rank_le. unfold size_of, most_objects.
      rewrite stats_insert. pose proof (sum_insert pending_alloc _ i _ (None) (stats_lookup status _ i _ Hi)).
      cbn [pending_alloc fmap option_fmap option_map] in *. lia.
Qed.

Lemma works_bounded n tr s t k s' :
  runs (idle n (Table [] ∅)) tr (atomic s t) -> represents (threads s) (shared s) t -> nsteps works k s s' ->
  (k <= work s t)%nat.
Proof using rank_step rank_le.
  intros R I H. revert tr t R I. induction H as [|k s1 s2 s3 W H IH]; intros tr t R I; [lia|].
  destruct (works_less _ _ _ _ _ R I W) as (t' & tr' & R' & I' & L). specialize (IH _ _ R' I'). lia.
Qed.
End termination.

(** * Running a schedule *)

(** What a scheduler decides: a thread calls an operation, takes a step with
    what the system answers, or returns. *)
Inductive move (world : Type) := Calls (i : nat) (o : op) | Steps (i : nat) (w : world) | Returns (i : nat).
Arguments Calls {world} i o.
Arguments Steps {world} i w.
Arguments Returns {world} i.

Section schedule.
Context {pc sh world : Type} `{!Code pc sh}.
Variable next : nat -> world -> pc -> sh -> option (pc * sh).
Hypothesis next_exec : forall i w p h p' h', next i w p h = Some (p', h') -> exec i p h p' h'.

Definition do_move (s : sys pc sh) (m : move world) : option (list label * sys pc sh) :=
  match m with
  | Calls i o =>
    match threads s !! i with
    | Some None =>
      if bool_decide (needs o ⊆ bag s) &&
         (Z.of_nat (size (bag s)) + 2 * Z.of_nat (length (threads s)) <=? INT_MAX)
      then Some ([Called i o],
        Sys (shared s) (<[i := Some (start o)]> (threads s)) (bag s ∖ needs o))
      else None
    | _ => None
    end
  | Steps i w =>
    match threads s !! i with
    | Some (Some p) =>
      match next i w p (shared s) with
      | Some (p', h) => Some ([], Sys h (<[i := Some p']> (threads s)) (bag s))
      | None => None
      end
    | _ => None
    end
  | Returns i =>
    match threads s !! i with
    | Some (Some p) =>
      match done_with p with
      | Some (o, r) =>
        Some ([Returned i o r], Sys (shared s) (<[i := None]> (threads s)) (bag s ⊎ gives o r))
      | None => None
      end
    | _ => None
    end
  end.

Fixpoint schedule (s : sys pc sh) (ms : list (move world)) : option (list label * sys pc sh) :=
  match ms with
  | [] => Some ([], s)
  | m :: ms =>
    match do_move s m with
    | Some (tr, s1) =>
      match schedule s1 ms with Some (tr', s2) => Some (tr ++ tr', s2) | None => None end
    | None => None
    end
  end.

Lemma do_move_runs s m tr s' : do_move s m = Some (tr, s') -> runs s tr s'.
Proof using next_exec.
  unfold do_move. destruct m as [i o|i w|i]; destruct (threads s !! i) as [[p|]|] eqn:Hi; try done.
  - destruct (bool_decide _ && _) eqn:E; [|done]. intros [= <- <-].
    apply andb_prop in E as [E1%bool_decide_eq_true E2%Z.leb_le]. eauto.
  - destruct (next i w p (shared s)) as [[p' h]|] eqn:E; [|done]. intros [= <- <-].
    apply next_exec in E. eauto.
  - destruct (done_with p) as [[o r]|] eqn:E; [|done]. intros [= <- <-]. eauto.
Qed.

Lemma schedule_runs ms s tr s' : schedule s ms = Some (tr, s') -> runs s tr s'.
Proof using next_exec.
  revert s tr. induction ms as [|m ms IH]; cbn; intros s tr; [intros [= <- <-]; constructor|].
  destruct (do_move s m) as [[tr1 s1]|] eqn:E; [|done].
  destruct (schedule s1 ms) as [[tr2 s2]|] eqn:E2; [|done]. intros [= <- <-].
  apply do_move_runs in E. eauto using runs_app.
Qed.
End schedule.
