(* ===== verification/RefHeap.v ===== *)
(** The memory of the reference-counted tables of apue.3e/threads (mutex2.c
    and mutex3.c declare the same data): objects, hash chains, mutexes, what
    the calls of the C and thread libraries do to them, and the invariant that
    relates them to the atomic table of [RefTable] while threads are at any
    point of their operations. *)
From Stdlib Require Import ZArith Lia.
From stdpp Require Import base list strings gmap gmultiset numbers.
From S2P Require Import Prelude Dll RefTable.
Local Open Scope c_scope.

(** * Data *)

Definition NHASH : Z := 29.
Definition HASH (id : Z) : Z := u64 id mod NHASH.

(** A mutex is not initialised (or destroyed), free, or held by a thread. *)
Inductive mutex := Uninit | Unlocked | Locked (i : nat).

(** [struct foo] *)
Record foo := mk_foo { f_count : Z; f_lock : mutex; f_id : Z; f_next : addr }.
Definition set_count v o := mk_foo v (f_lock o) (f_id o) (f_next o).
Definition set_mutex v o := mk_foo (f_count o) v (f_id o) (f_next o).
Definition set_id v o := mk_foo (f_count o) (f_lock o) v (f_next o).
Definition set_next v o := mk_foo (f_count o) (f_lock o) (f_id o) v.

(** The memory of the objects, [fh] and [hashlock]. *)
Record globals := Globals { mem : gmap addr foo; fh : list addr; hashlock : mutex }.
Definition set_mem v g := Globals v (fh g) (hashlock g).
Definition set_fh v g := Globals (mem g) v (hashlock g).
Definition set_hashlock v g := Globals (mem g) (fh g) v.

Definition fh_static : globals := Globals ∅ (replicate (Z.to_nat NHASH) NULL) Unlocked.

(** What [malloc] returns and the memory holds, and what [pthread_mutex_init]
    returns, when a thread calls them. *)
Record world := World { w_fp : addr; w_old : foo; w_err : Z }.

(** * Accesses *)

Definition load (fp : addr) : M globals foo := fun g =>
  match mem g !! fp with Some o => Ret o g | None => Undef "bad object pointer" end.
Definition update (fp : addr) (f : foo -> foo) : M globals unit :=
  let* o := load fp in modify (fun g => set_mem (<[fp := f o]> (mem g)) g).
Definition get_fh (idx : Z) : M globals addr := fun g =>
  match fh g !! Z.to_nat idx with Some a => Ret a g | None => Undef "fh out of range" end.
Definition put_fh (idx : Z) (a : addr) : M globals unit :=
  let* _ := get_fh idx in modify (fun g => set_fh (<[Z.to_nat idx := a]> (fh g)) g).
(** [x + 1] and [x - 1] on an [int]. *)
Definition incr (fp : addr) (d : Z) : M globals unit :=
  let* o := load fp in
  if (- 2 ^ 31 <=? f_count o + d) && (f_count o + d <=? INT_MAX)
  then update fp (set_count (f_count o + d)) else undef "signed overflow".
Definition malloc (w : world) : M globals (option addr) :=
  if w_fp w =? NULL then ret (Some NULL)
  else
    let* m := gets mem in
    match m !! w_fp w with
    | Some _ => ret None
    | None => modify (set_mem (<[w_fp w := set_mutex Uninit (w_old w)]> m));;; ret (Some (w_fp w))
    end.
Definition free (fp : addr) : M globals unit :=
  load fp;;; modify (fun g => set_mem (delete fp (mem g)) g).

Section mutexes.
Context {pc : Type}.

(** Goes on at [p]. *)
Definition goto (p : pc) : M globals (option pc) := ret (Some p).

(** [pthread_mutex_lock] by thread [i], which goes on at [p]; [None] when it
    has to wait. *)
Definition lock (i : nat) (m : mutex) (take : M globals unit) (p : pc) : M globals (option pc) :=
  match m with
  | Unlocked => take;;; ret (Some p)
  | Locked j => if Nat.eqb j i then undef "locked twice" else ret None
  | Uninit => undef "not a mutex"
  end.
Definition unlock (i : nat) (m : mutex) (give : M globals unit) (p : pc) : M globals (option pc) :=
  match m with
  | Locked j => if Nat.eqb j i then give;;; ret (Some p) else undef "locked by another thread"
  | _ => undef "not locked"
  end.

Definition lock_hash (i : nat) (p : pc) : M globals (option pc) :=
  let* m := gets hashlock in lock i m (modify (set_hashlock (Locked i))) p.
Definition unlock_hash (i : nat) (p : pc) : M globals (option pc) :=
  let* m := gets hashlock in unlock i m (modify (set_hashlock Unlocked)) p.
Definition lock_fp (i : nat) (fp : addr) (p : pc) : M globals (option pc) :=
  let* o := load fp in lock i (f_lock o) (update fp (set_mutex (Locked i))) p.
Definition unlock_fp (i : nat) (fp : addr) (p : pc) : M globals (option pc) :=
  let* o := load fp in unlock i (f_lock o) (update fp (set_mutex Unlocked)) p.
(** [pthread_mutex_init] and [pthread_mutex_destroy]. *)
Definition mutex_init (w : world) (fp : addr) : M globals Z :=
  if w_err w =? 0 then update fp (set_mutex Unlocked);;; ret 0 else load fp;;; ret (w_err w).
Definition mutex_destroy (fp : addr) : M globals unit :=
  let* o := load fp in
  match f_lock o with
  | Unlocked => update fp (set_mutex Uninit)
  | _ => undef "destroys a mutex in use"
  end.
End mutexes.

(** What each call needs and does. *)
Section rules.
Context {pc : Type}.
Implicit Types (g : globals) (p : pc).

Lemma wp_load fp o g (Q : foo -> globals -> Prop) : mem g !! fp = Some o -> Q o g -> wp (load fp) Q g.
Proof. unfold wp, load. by intros ->. Qed.
Lemma wp_update fp f o g (Q : unit -> globals -> Prop) :
  mem g !! fp = Some o -> Q tt (set_mem (<[fp := f o]> (mem g)) g) -> wp (update fp f) Q g.
Proof. intros H HQ. unfold update. apply wp_bind. by apply (wp_load _ _ _ _ H). Qed.
Lemma wp_get_fh idx a g (Q : addr -> globals -> Prop) :
  fh g !! Z.to_nat idx = Some a -> Q a g -> wp (get_fh idx) Q g.
Proof. unfold wp, get_fh. by intros ->. Qed.
Lemma wp_put_fh idx a b g (Q : unit -> globals -> Prop) :
  fh g !! Z.to_nat idx = Some b -> Q tt (set_fh (<[Z.to_nat idx := a]> (fh g)) g) ->
  wp (put_fh idx a) Q g.
Proof. intros H HQ. unfold put_fh. apply wp_bind. by apply (wp_get_fh _ _ _ _ H). Qed.
Lemma wp_incr fp d o g (Q : unit -> globals -> Prop) :
  mem g !! fp = Some o -> - 2 ^ 31 <= f_count o + d <= INT_MAX ->
  Q tt (set_mem (<[fp := set_count (f_count o + d) o]> (mem g)) g) -> wp (incr fp d) Q g.
Proof.
  intros H [H1 H2] HQ. unfold incr. apply wp_bind. apply (wp_load _ _ _ _ H).
  rewrite (proj2 (Z.leb_le _ _) H1), (proj2 (Z.leb_le _ _) H2). cbn [andb].
  by apply (wp_update _ _ _ _ _ H).
Qed.
Lemma wp_malloc w g (Q : option addr -> globals -> Prop) :
  Q None g -> Q (Some NULL) g ->
  (w_fp w <> NULL -> mem g !! w_fp w = None ->
   Q (Some (w_fp w)) (set_mem (<[w_fp w := set_mutex Uninit (w_old w)]> (mem g)) g)) ->
  wp (malloc w) Q g.
Proof.
  intros H1 H2 H3. unfold malloc, wp. destruct (Z.eqb_spec (w_fp w) NULL) as [E|E]; [done|].
  unfold bind, gets. destruct (mem g !! w_fp w) eqn:E'; [done|]. by apply H3.
Qed.
Lemma wp_free fp o g (Q : unit -> globals -> Prop) :
  mem g !! fp = Some o -> Q tt (set_mem (delete fp (mem g)) g) -> wp (free fp) Q g.
Proof. intros H HQ. unfold free. apply wp_bind. by apply (wp_load _ _ _ _ H). Qed.
Lemma wp_mutex_init w fp o g (Q : Z -> globals -> Prop) :
  mem g !! fp = Some o -> (w_err w <> 0 -> Q (w_err w) g) ->
  Q 0 (set_mem (<[fp := set_mutex Unlocked o]> (mem g)) g) -> wp (mutex_init w fp) Q g.
Proof.
  intros H H1 H2. unfold mutex_init. destruct (Z.eqb_spec (w_err w) 0) as [E|E]; apply wp_bind.
  - by apply (wp_update _ _ _ _ _ H).
  - apply (wp_load _ _ _ _ H). by apply H1.
Qed.
Lemma wp_mutex_destroy fp o g (Q : unit -> globals -> Prop) :
  mem g !! fp = Some o -> f_lock o = Unlocked ->
  Q tt (set_mem (<[fp := set_mutex Uninit o]> (mem g)) g) -> wp (mutex_destroy fp) Q g.
Proof.
  intros H E HQ. unfold mutex_destroy. apply wp_bind, (wp_load _ _ _ _ H). rewrite E.
  by apply (wp_update _ _ _ _ _ H).
Qed.

Lemma wp_lock_hash i p g (Q : option pc -> globals -> Prop) :
  hashlock g <> Uninit -> hashlock g <> Locked i ->
  Q None g -> (hashlock g = Unlocked -> Q (Some p) (set_hashlock (Locked i) g)) ->
  wp (lock_hash i p) Q g.
Proof.
  intros H1 H2 H3 H4. unfold lock_hash, lock, wp, bind, gets.
  destruct (hashlock g) as [| |j]; [done|by apply H4|]. destruct (Nat.eqb_spec j i); [congruence|done].
Qed.
Lemma wp_unlock_hash i p g (Q : option pc -> globals -> Prop) :
  hashlock g = Locked i -> Q (Some p) (set_hashlock Unlocked g) -> wp (unlock_hash i p) Q g.
Proof.
  intros H1 H2. unfold unlock_hash, unlock, wp, bind, gets. rewrite H1, Nat.eqb_refl. done.
Qed.
Lemma wp_lock_fp i fp o p g (Q : option pc -> globals -> Prop) :
  mem g !! fp = Some o -> f_lock o <> Uninit -> f_lock o <> Locked i ->
  Q None g ->
  (f_lock o = Unlocked -> Q (Some p) (set_mem (<[fp := set_mutex (Locked i) o]> (mem g)) g)) ->
  wp (lock_fp i fp p) Q g.
Proof.
  intros H H1 H2 H3 H4. unfold lock_fp. apply wp_bind, (wp_load _ _ _ _ H). unfold lock.
  destruct (f_lock o) as [| |j]; [done| |destruct (Nat.eqb_spec j i); [congruence|done]].
  apply wp_bind, (wp_update _ _ _ _ _ H). by apply H4.
Qed.
Lemma wp_unlock_fp i fp o p g (Q : option pc -> globals -> Prop) :
  mem g !! fp = Some o -> f_lock o = Locked i ->
  Q (Some p) (set_mem (<[fp := set_mutex Unlocked o]> (mem g)) g) -> wp (unlock_fp i fp p) Q g.
Proof.
  intros H H1 H2. unfold unlock_fp. apply wp_bind, (wp_load _ _ _ _ H). unfold unlock.
  rewrite H1, Nat.eqb_refl. by apply wp_bind, (wp_update _ _ _ _ _ H).
Qed.
End rules.

(** * Chains *)

Definition hd_addr (l : list addr) : addr := match l with [] => NULL | x :: _ => x end.
Definition bucket (idx : Z) (l : list (addr * Z)) : list addr :=
  (filter (fun e => HASH e.2 = idx) l).*1.

Fixpoint linked (m : gmap addr foo) (l : list addr) (a : addr) : Prop :=
  match l with
  | [] => a = NULL
  | x :: l' => a = x /\ exists o, m !! x = Some o /\ linked m l' (f_next o)
  end.

Lemma HASH_range id : 0 <= HASH id < NHASH.
Proof. apply Z.mod_pos_bound. done. Qed.

Section chains.
Implicit Types m : gmap addr foo.

Lemma linked_head m l a : linked m l a -> a = hd_addr l.
Proof. destruct l as [|x l]; cbn; [done|tauto]. Qed.

Lemma linked_next m l1 x l2 a :
  linked m (l1 ++ x :: l2) a -> exists o, m !! x = Some o /\ f_next o = hd_addr l2.
Proof.
  revert a. induction l1 as [|y l1 IH]; cbn; intros a [-> (o & Ho & L)]; [|eauto].
  exists o. split; [done|]. by apply linked_head in L.
Qed.

Lemma linked_ext m m' l a :
  (forall x o, x ∈ l -> m !! x = Some o -> exists o', m' !! x = Some o' /\ f_next o' = f_next o) ->
  linked m l a -> linked m' l a.
Proof.
  revert a. induction l as [|x l IH]; cbn; intros a H; [done|]. intros [-> (o & Ho & L)].
  split; [done|]. destruct (H x o) as (o' & Ho' & E); [left|done|].
  exists o'. split; [done|]. rewrite E. apply IH; [|done]. intros y oy Hy. apply H. by right.
Qed.

Lemma linked_insert_other m l a x o :
  (x ∉ l) -> linked m l a -> linked (<[x := o]> m) l a.
Proof.
  intros Hx. apply linked_ext. intros y oy Hy E. exists oy. rewrite lookup_insert_ne; [done|].
  intros <-. done.
Qed.

(** [tfp->f_next = fp->f_next] *)
Lemma linked_cut m l1 t x l2 a ot ox :
  NoDup (l1 ++ t :: x :: l2) -> linked m (l1 ++ t :: x :: l2) a ->
  m !! t = Some ot -> m !! x = Some ox ->
  linked (<[t := set_next (f_next ox) ot]> m) (l1 ++ t :: l2) a.
Proof.
  revert a. induction l1 as [|y l1 IH]; cbn; intros a N [-> (o & Ho & L)] Ht Hx.
  - split; [done|]. exists (set_next (f_next ox) ot). rewrite lookup_insert_eq. split; [done|].
    destruct L as [_ (ox' & Hx' & L)]. simplify_eq. cbn. apply linked_insert_other; [|done].
    apply list.NoDup_cons in N as [N _]. intros H. apply N. by right.
  - split; [done|]. apply list.NoDup_cons in N as [N N'].
    exists o. rewrite lookup_insert_ne; [split; [done|by apply IH]|].
    intros ->. apply N. apply elem_of_app. right. left.
Qed.

Lemma bucket_elem idx fp l :
  fp ∈ bucket idx l <-> exists id, (fp, id) ∈ l /\ HASH id = idx.
Proof.
  unfold bucket. rewrite list_elem_of_fmap. setoid_rewrite list_elem_of_filter. split.
  - intros ([x id] & -> & ? & ?). eauto.
  - intros (id & ? & ?). by exists (fp, id).
Qed.
Lemma filter_bucket id (l : list (addr * Z)) :
  filter (fun e => e.2 = id) (filter (fun e => HASH e.2 = HASH id) l) = filter (fun e => e.2 = id) l.
Proof.
  induction l as [|e l IH]; [done|]. rewrite !filter_cons. destruct (decide (e.2 = id)) as [E|E].
  - rewrite decide_True by by rewrite E. by rewrite filter_cons, decide_True, IH.
  - destruct (decide _); [by rewrite filter_cons, decide_False|done].
Qed.
Lemma filter_none id (l : list (addr * Z)) :
  Forall (fun e => e.2 <> id) l -> filter (fun e => e.2 = id) l = [].
Proof. induction 1 as [|e l H _ IH]; [done|]. by rewrite filter_cons, decide_False. Qed.
Lemma nodup_fst (l : list (addr * Z)) (x a b : Z) : NoDup l.*1 -> (x, a) ∈ l -> (x, b) ∈ l -> a = b.
Proof.
  intros N (j & Hj)%list_elem_of_lookup (k & Hk)%list_elem_of_lookup.
  assert (j = k); [|by simplify_eq].
  apply (NoDup_lookup _ j k x N); by rewrite list_lookup_fmap, ?Hj, ?Hk.
Qed.
Lemma bucket_nodup idx l : NoDup l.*1 -> NoDup (bucket idx l).
Proof.
  unfold bucket. induction l as [|e l IH]; [done|]. rewrite fmap_cons, list.NoDup_cons, filter_cons.
  intros [H1 H2]. destruct (decide _); [|auto]. rewrite fmap_cons, list.NoDup_cons. split; [|auto].
  rewrite list_elem_of_fmap. intros (e' & E & [_ H]%list_elem_of_filter). apply H1.
  rewrite E. by apply list_elem_of_fmap_2.
Qed.
Lemma bucket_drop idx fp l : bucket idx (drop_fp fp l) = filter (fun x => x <> fp) (bucket idx l).
Proof.
  unfold bucket, drop_fp. induction l as [|[x id] l IH]; [done|].
  rewrite !filter_cons. cbn [fst snd].
  destruct (decide (x <> fp)), (decide (HASH id = idx)); rewrite ?filter_cons; cbn [fst snd];
    rewrite ?decide_True by done; rewrite ?decide_False by done; rewrite ?fmap_cons; cbn [fst];
    rewrite ?filter_cons; rewrite ?decide_True by done; rewrite ?decide_False by tauto;
    by rewrite ?IH.
Qed.

Lemma filter_other fp (l : list addr) : (fp ∉ l) -> filter (fun x => x <> fp) l = l.
Proof.
  induction l as [|x l IH]; [done|]. rewrite not_elem_of_cons. intros [H1 H2].
  by rewrite filter_cons, decide_True, IH.
Qed.
Lemma bucket_drop_other idx fp l : (fp ∉ bucket idx l) -> bucket idx (drop_fp fp l) = bucket idx l.
Proof. rewrite bucket_drop. apply filter_other. Qed.
Lemma bucket_drop_split idx fp l l1 l2 :
  NoDup l.*1 -> bucket idx l = l1 ++ fp :: l2 -> bucket idx (drop_fp fp l) = l1 ++ l2.
Proof.
  intros N E. apply (bucket_nodup idx) in N. rewrite E in N.
  apply list.NoDup_app in N as (_ & N1 & N2). apply list.NoDup_cons in N2 as [N2 _].
  assert (N1' : fp ∉ l1) by (intros H; apply (N1 _ H); left).
  rewrite bucket_drop, E, list.filter_app, filter_cons, decide_False by tauto.
  by rewrite !filter_other.
Qed.
Lemma bucket_inj idx idx' fp l : NoDup l.*1 -> fp ∈ bucket idx l -> fp ∈ bucket idx' l -> idx' = idx.
Proof.
  rewrite !bucket_elem. intros N (a & Ha & <-) (b & Hb & <-). by rewrite (nodup_fst l fp a b).
Qed.

(** How many entries of the table are older than [x]; the chains go that way. *)
Fixpoint behind (x : addr) (l : list (addr * Z)) : nat :=
  match l with [] => 0%nat | e :: l => if e.1 =? x then length l else behind x l end.

Lemma behind_lt x l : x ∈ l.*1 -> (behind x l < length l)%nat.
Proof.
  induction l as [|e l IH]; [by intros ?%elem_of_nil|]. cbn. intros H.
  destruct (Z.eqb_spec e.1 x) as [|N]; [lia|].
  apply elem_of_cons in H as [->|H]; [done|]. apply IH in H. lia.
Qed.
Lemma behind_skip e x l : NoDup (e :: l).*1 -> x ∈ l.*1 -> behind x (e :: l) = behind x l.
Proof.
  rewrite fmap_cons, list.NoDup_cons. intros [N _] H. cbn.
  destruct (Z.eqb_spec e.1 x) as [<-|]; done.
Qed.
Lemma bucket_in idx x l : x ∈ bucket idx l -> x ∈ l.*1.
Proof. intros (id & H & _)%bucket_elem. by apply (list_elem_of_fmap_2 fst) in H. Qed.
Lemma behind_next idx l l1 x y l2 :
  NoDup l.*1 -> bucket idx l = l1 ++ x :: y :: l2 -> (behind y l < behind x l)%nat.
Proof.
  revert l1. induction l as [|e l IH]; intros l1 N E; [by destruct l1|].
  pose proof N as N'. rewrite fmap_cons in N'. apply list.NoDup_cons in N' as [Ne Nl].
  assert (Hb : bucket idx (e :: l) = if decide (HASH e.2 = idx) then e.1 :: bucket idx l else bucket idx l)
    by (unfold bucket; rewrite filter_cons; by destruct (decide _)).
  assert (Hin : bucket idx l = l1 ++ x :: y :: l2 \/ (exists l1', l1 = e.1 :: l1' /\ bucket idx l = l1' ++ x :: y :: l2) \/
    l1 = [] /\ x = e.1 /\ bucket idx l = y :: l2).
  { rewrite Hb in E. destruct (decide _); [|by left]. right. destruct l1 as [|z l1]; cbn in E.
    - right. injection E as -> E. done.
    - left. injection E as -> E. by exists l1. }
  assert (Hx : forall l1', bucket idx l = l1' ++ x :: y :: l2 -> x ∈ l.*1 /\ y ∈ l.*1).
  { intros l1' H. split; apply (bucket_in idx); rewrite H, elem_of_app, !elem_of_cons; tauto. }
  destruct Hin as [H|[(l1' & _ & H)|(_ & -> & H)]].
  - destruct (Hx _ H). rewrite !behind_skip by done. by apply (IH l1).
  - destruct (Hx _ H). rewrite !behind_skip by done. by apply (IH l1').
  - assert (Hy : y ∈ l.*1) by (apply (bucket_in idx); rewrite H; left).
    rewrite (behind_skip e y) by done. cbn. rewrite Z.eqb_refl. by apply behind_lt.
Qed.
End chains.

(** * The invariant *)

(** What the point a thread is at says: whether it holds [hashlock]; the
    object whose mutex it holds; the object only it can reach (not yet in the
    table, or no longer); the object whose count it has brought to 0 and that
    it is about to remove; and what it knows of the memory and the table.
    [count_by_hash] says which mutex protects [f_count]. *)
Class Points (pc : Type) := {
  hh : pc -> bool;
  hf : pc -> option addr;
  pv : pc -> option addr;
  dying : pc -> option addr;
  count_by_hash : bool;
  knows : pc -> globals -> table -> Prop
}.

Section invariant.
Context {pc : Type} `{!Points pc}.
Implicit Types (p q : pc) (l : list (option pc)) (g : globals) (t : table).

Definition thread l (i : nat) : option pc := mjoin (l !! i).

Definition hh_of (x : option pc) : bool := match x with Some p => hh p | None => false end.
Definition hf_of (x : option pc) : option addr := x ≫= hf.
Definition pv_of (x : option pc) : option addr := x ≫= pv.
Definition dying_of (x : option pc) : option addr := x ≫= dying.

Definition guards p (fp : addr) : Prop := if count_by_hash then hh p = true else hf p = Some fp.

Record in_memory l g t : Prop := {
  r_fh : length (fh g) = Z.to_nat NHASH;
  r_null : mem g !! NULL = None;
  r_nodup : NoDup (tab t).*1;
  r_chain idx a : 0 <= idx -> fh g !! Z.to_nat idx = Some a ->
    linked (mem g) (bucket idx (tab t)) a;
  r_obj fp id : (fp, id) ∈ tab t -> exists o, mem g !! fp = Some o /\ f_id o = id /\ f_lock o <> Uninit;
  r_count fp o n : fp ∈ (tab t).*1 -> mem g !! fp = Some o -> cnt t !! fp = Some n ->
    (forall i, dying_of (thread l i) <> Some fp) -> f_count o = n;
  r_private i fp : pv_of (thread l i) = Some fp ->
    (fp ∉ (tab t).*1) /\ is_Some (mem g !! fp) /\ forall j, pv_of (thread l j) = Some fp -> j = i;
  r_reach fp o : mem g !! fp = Some o ->
    fp ∈ (tab t).*1 \/ exists i, pv_of (thread l i) = Some fp;
  r_hashlock : hashlock g <> Uninit;
  r_hash i : hashlock g = Locked i <-> hh_of (thread l i) = true;
  r_lock fp o i : mem g !! fp = Some o -> f_lock o = Locked i <-> hf_of (thread l i) = Some fp;
  r_held i fp : hf_of (thread l i) = Some fp -> is_Some (mem g !! fp);
  r_dying i fp : dying_of (thread l i) = Some fp -> hh_of (thread l i) = true;
  r_knows i p : thread l i = Some p -> knows p g t
}.

(** What a thread at [p] can rely on while others step. *)
Record kept p g t g' t' : Prop := {
  k_chain : hh p = true -> fh g' = fh g /\ tab t' = tab t /\
    forall fp o, fp ∈ (tab t).*1 -> mem g !! fp = Some o ->
      exists o', mem g' !! fp = Some o' /\ f_next o' = f_next o /\ f_id o' = f_id o;
  k_count fp o : guards p fp -> fp ∈ (tab t).*1 -> mem g !! fp = Some o ->
    fp ∈ (tab t').*1 /\ cnt t' !! fp = cnt t !! fp /\ exists o', mem g' !! fp = Some o' /\ f_count o' = f_count o;
  k_private fp : pv p = Some fp -> mem g' !! fp = mem g !! fp
}.

Class Stable := stable p g t g' t' : kept p g t g' t' -> knows p g t -> knows p g' t'.
Context `{St : !Stable}.

Lemma thread_insert l i x j :
  (i < length l)%nat -> thread (<[i := x]> l) j = if decide (j = i) then x else thread l j.
Proof.
  intros H. unfold thread. case_decide as E; [subst|].
  - by rewrite list_lookup_insert_eq.
  - by rewrite list_lookup_insert_ne.
Qed.
Lemma thread_some l i x : l !! i = Some x -> thread l i = x /\ (i < length l)%nat.
Proof. intros E. unfold thread. rewrite E. split; [done|by apply lookup_lt_Some in E]. Qed.
Lemma thread_idle n i : thread (replicate n None) i = None.
Proof.
  unfold thread. destruct (_ !! i) eqn:E; [|done]. by apply lookup_replicate in E as [-> _].
Qed.

Lemma in_memory_static n : in_memory (replicate n None) fh_static (Table [] ∅).
Proof.
  constructor; unfold fh_static; cbn [mem fh hashlock tab cnt fmap list_fmap];
    try (intros *; rewrite ?lookup_empty, ?thread_idle; cbn; done).
  - constructor.
  - intros idx a _ E. apply (lookup_replicate (Z.to_nat NHASH)) in E as [-> _]. done.
  - intros fp id H. by apply elem_of_nil in H.
Qed.

Lemma kept_same p g t g' :
  mem g' = mem g -> fh g' = fh g -> kept p g t g' t.
Proof. intros E1 E2. constructor; intros; rewrite ?E1, ?E2; eauto 8. Qed.

(** A step of thread [i] to [x], what it may do and what it has to see to. *)
Lemma in_memory_step l g t i x g' t' :
  in_memory l g t -> (i < length l)%nat ->
  length (fh g') = Z.to_nat NHASH -> mem g' !! NULL = None -> NoDup (tab t').*1 ->
  (forall idx a, 0 <= idx -> fh g' !! Z.to_nat idx = Some a -> linked (mem g') (bucket idx (tab t')) a) ->
  (forall fp id, (fp, id) ∈ tab t' ->
     exists o, mem g' !! fp = Some o /\ f_id o = id /\ f_lock o <> Uninit) ->
  (forall fp o n, fp ∈ (tab t').*1 -> mem g' !! fp = Some o -> cnt t' !! fp = Some n ->
     (forall j, dying_of (thread (<[i := x]> l) j) <> Some fp) -> f_count o = n) ->
  (forall fp, pv_of x = Some fp -> (fp ∉ (tab t').*1) /\ is_Some (mem g' !! fp) /\
     forall j, j <> i -> pv_of (thread l j) <> Some fp) ->
  (forall j fp, j <> i -> pv_of (thread l j) = Some fp -> fp ∉ (tab t').*1) ->
  (forall fp o, mem g' !! fp = Some o ->
     fp ∈ (tab t').*1 \/ pv_of x = Some fp \/ exists j, j <> i /\ pv_of (thread l j) = Some fp) ->
  hashlock g' <> Uninit ->
  (hashlock g' = Locked i <-> hh_of x = true) ->
  (forall j, j <> i -> hashlock g' = Locked j <-> hashlock g = Locked j) ->
  (forall fp o', mem g' !! fp = Some o' -> f_lock o' = Locked i <-> hf_of x = Some fp) ->
  (forall fp o' j, mem g' !! fp = Some o' -> j <> i ->
     f_lock o' = Locked j <-> hf_of (thread l j) = Some fp) ->
  (forall fp, hf_of x = Some fp -> is_Some (mem g' !! fp)) ->
  (forall j fp, j <> i -> hf_of (thread l j) = Some fp -> is_Some (mem g' !! fp)) ->
  (forall fp, dying_of x = Some fp -> hh_of x = true) ->
  (forall p, x = Some p -> knows p g' t') ->
  (forall j q, j <> i -> thread l j = Some q -> kept q g t g' t') ->
  in_memory (<[i := x]> l) g' t'.
Proof.
  intros R Hi H1 H2 H3 H4 H5 H6 H7 H7' H8 H9 H10 H10' H11 H11' H12 H12' H13 H14 H14'.
  assert (K : forall j fp, j <> i -> pv_of (thread l j) = Some fp -> mem g' !! fp = mem g !! fp).
  { intros j fp Hj. destruct (thread l j) as [q|] eqn:E; [cbn|done]. by apply (k_private _ _ _ _ _ (H14' _ _ Hj E)). }
  constructor; [done|done|done|done|done|done|..]; intros *; rewrite ?thread_insert by done.
  - case_decide as E; [subst|]; intros Hp.
    + destruct (H7 _ Hp) as (A & B & C). split_and!; [done|done|]. intros j.
      rewrite thread_insert by done. case_decide; [done|]. intros D. by apply C in D.
    + destruct (r_private _ _ _ R _ _ Hp) as (A & B & C). rewrite (K _ _ E Hp).
      split_and!; [by eapply H7'|done|]. intros j. rewrite thread_insert by done.
      case_decide; [subst|apply C]. intros D. destruct (H7 _ D) as (_ & _ & F). by apply F in Hp.
  - intros Ho. destruct (H8 _ _ Ho) as [?|[?|(j & ? & ?)]]; [by left|right..].
    + exists i. by rewrite thread_insert, decide_True.
    + exists j. by rewrite thread_insert, decide_False.
  - done.
  - case_decide as E; [subst; done|]. rewrite H10' by done. apply R.
  - case_decide as E; [subst|]; eauto.
  - case_decide as E; eauto.
  - case_decide as E; [eauto|]. apply R.
  - case_decide as E; [subst; intros ->; eauto|]. intros Hq. eapply St; [by eapply H14'|]. by apply (r_knows _ _ _ R _ _ Hq).
Qed.

(** ** The actions of the code *)

(** Nothing shared changes. *)
Lemma in_memory_quiet l g t i x :
  in_memory l g t -> (i < length l)%nat ->
  hh_of x = hh_of (thread l i) -> hf_of x = hf_of (thread l i) ->
  pv_of x = pv_of (thread l i) -> dying_of x = dying_of (thread l i) ->
  (forall p, x = Some p -> knows p g t) ->
  in_memory (<[i := x]> l) g t.
Proof.
  intros R Hi E1 E2 E3 E4 Hk. apply (in_memory_step l g t i x g t); try apply R; try done.
  - intros fp o n A B C D. eapply (r_count _ _ _ R); [done..|]. intros j. specialize (D j).
    rewrite thread_insert in D by done. case_decide; [by subst; rewrite <- E4|done].
  - intros fp. rewrite E3. intros Hp. destruct (r_private _ _ _ R _ _ Hp) as (A & B & C).
    split_and!; [done..|]. intros j Hj D. by apply C in D.
  - intros j fp _ H. by destruct (r_private _ _ _ R _ _ H).
  - intros fp o H. destruct (r_reach _ _ _ R _ _ H) as [?|[j Hj]]; [by left|right].
    destruct (decide (j = i)) as [->|]; [left; by rewrite E3|right; eauto].
  - rewrite E1. apply R.
  - intros fp o H. rewrite E2. by apply (r_lock _ _ _ R).
  - intros fp o j H _. by apply (r_lock _ _ _ R).
  - intros fp. rewrite E2. apply R.
  - intros j fp _. apply R.
  - intros fp. rewrite E1, E4. apply R.
  - intros j q _ _. by apply kept_same.
Qed.

(** [hashlock] is taken or given back. *)
Lemma in_memory_hash l g t i x m :
  in_memory l g t -> (i < length l)%nat ->
  hashlock g = Unlocked /\ m = Locked i /\ hh_of x = true \/
  hashlock g = Locked i /\ m = Unlocked /\ hh_of x = false ->
  hf_of x = hf_of (thread l i) -> pv_of x = pv_of (thread l i) ->
  dying_of x = None -> dying_of (thread l i) = None ->
  (forall p, x = Some p -> knows p (set_hashlock m g) t) ->
  in_memory (<[i := x]> l) (set_hashlock m g) t.
Proof.
  intros R Hi Hm E2 E3 E4 E5 Hk.
  apply (in_memory_step l g t i x (set_hashlock m g) t); try apply R; try done; cbn [hashlock set_hashlock mem].
  - intros fp o n A B C D. eapply (r_count _ _ _ R); [done..|]. intros j. specialize (D j).
    rewrite thread_insert in D by done. case_decide; [subst; by rewrite E5|done].
  - intros fp. rewrite E3. intros Hp. destruct (r_private _ _ _ R _ _ Hp) as (A & B & C).
    split_and!; [done..|]. intros j Hj D. by apply C in D.
  - intros j fp _ H. by destruct (r_private _ _ _ R _ _ H).
  - intros fp o H. destruct (r_reach _ _ _ R _ _ H) as [?|[j Hj]]; [by left|right].
    destruct (decide (j = i)) as [->|]; [left; by rewrite E3|right; eauto].
  - destruct Hm as [(_ & -> & _)|(_ & -> & _)]; done.
  - destruct Hm as [(_ & -> & ->)|(_ & -> & ->)]; done.
  - intros j Hj. destruct Hm as [(-> & -> & _)|(-> & -> & _)]; split; congruence.
  - intros fp o H. rewrite E2. by apply (r_lock _ _ _ R).
  - intros fp o j H _. by apply (r_lock _ _ _ R).
  - intros fp. rewrite E2. apply R.
  - intros j fp _. apply R.
  - intros fp. by rewrite E4.
  - intros j q _ _. by apply kept_same.
Qed.

(** An object is written. *)
Lemma in_memory_write l g t i x fp o o' c :
  in_memory l g t -> (i < length l)%nat -> mem g !! fp = Some o ->
  hh_of x = hh_of (thread l i) -> pv_of x = pv_of (thread l i) ->
  (fp ∈ (tab t).*1 -> f_id o' = f_id o /\ f_next o' = f_next o /\ f_lock o' <> Uninit) ->
  fp ∈ (tab t).*1 \/ pv_of x = Some fp ->
  (forall y oy n, y ∈ (tab t).*1 -> <[fp := o']> (mem g) !! y = Some oy -> c !! y = Some n ->
     (forall j, dying_of (thread (<[i := x]> l) j) <> Some y) -> f_count oy = n) ->
  (f_lock o' = Locked i <-> hf_of x = Some fp) ->
  (forall y, y <> fp -> hf_of x = Some y <-> hf_of (thread l i) = Some y) ->
  (forall j, j <> i -> f_lock o' = Locked j <-> f_lock o = Locked j) ->
  f_count o' = f_count o /\ c = cnt t \/ (fp ∉ (tab t).*1) /\ c = cnt t \/
    (forall j q, j <> i -> thread l j = Some q -> ~ guards q fp) /\
    (forall y, y <> fp -> c !! y = cnt t !! y) ->
  (forall y, dying_of x = Some y -> hh_of x = true) ->
  (forall p, x = Some p -> knows p (set_mem (<[fp := o']> (mem g)) g) (Table (tab t) c)) ->
  in_memory (<[i := x]> l) (set_mem (<[fp := o']> (mem g)) g) (Table (tab t) c).
Proof.
  intros R Hi Ho E1 E3 Ht Hfp Hc Hl Hl' Hlj Hk Hd Hx.
  assert (Nn : fp <> NULL) by (intros ->; by rewrite (r_null _ _ _ R) in Ho).
  assert (Np : forall j, j <> i -> pv_of (thread l j) <> Some fp).
  { intros j Hj D. destruct (r_private _ _ _ R _ _ D) as (A & _ & C).
    destruct Hfp as [?|B]; [done|]. rewrite E3 in B. apply C in B. done. }
  assert (Hs : forall y, is_Some (mem g !! y) -> is_Some (<[fp := o']> (mem g) !! y)).
  { intros y Hy. destruct (decide (y = fp)) as [->|]; [by rewrite lookup_insert_eq|by rewrite lookup_insert_ne]. }
  apply (in_memory_step l g t i x _ (Table (tab t) c)); cbn [mem fh hashlock set_mem tab cnt]; try apply R; try done.
  - rewrite lookup_insert_ne by done. apply R.
  - intros idx a H1 H2. pose proof (r_chain _ _ _ R idx a H1 H2) as L. revert L. apply linked_ext.
    intros y oy Hy E. destruct (decide (y = fp)) as [->|]; [|exists oy; by rewrite lookup_insert_ne].
    exists o'. rewrite lookup_insert_eq. split; [done|]. simplify_eq. apply Ht.
    apply bucket_elem in Hy as (id & Hy & _). by apply (list_elem_of_fmap_2 fst) in Hy.
  - intros y id Hy. destruct (r_obj _ _ _ R _ _ Hy) as (oy & A & B & C).
    destruct (decide (y = fp)) as [->|]; [|exists oy; by rewrite lookup_insert_ne].
    simplify_eq. exists o'. rewrite lookup_insert_eq.
    apply (list_elem_of_fmap_2 fst) in Hy. destruct (Ht Hy) as (-> & _ & ?). done.
  - intros y. rewrite E3. intros Hp. destruct (r_private _ _ _ R _ _ Hp) as (A & B & C).
    split_and!; [done|auto|]. intros j Hj D. by apply C in D.
  - intros j y _ H. by destruct (r_private _ _ _ R _ _ H).
  - intros y oy H. assert (H' : is_Some (mem g !! y)).
    { destruct (decide (y = fp)) as [->|]; [by eauto|]. rewrite lookup_insert_ne in H; by eauto. }
    destruct H' as [oy' H']. destruct (r_reach _ _ _ R _ _ H') as [?|[j Hj]]; [by left|right].
    destruct (decide (j = i)) as [->|]; [left; by rewrite E3|right; eauto].
  - rewrite E1. apply R.
  - intros y oy H. destruct (decide (y = fp)) as [->|].
    + rewrite lookup_insert_eq in H. by simplify_eq.
    + rewrite lookup_insert_ne in H by done. rewrite Hl' by done. by apply (r_lock _ _ _ R).
  - intros y oy j H Hj. destruct (decide (y = fp)) as [->|].
    + rewrite lookup_insert_eq in H. simplify_eq. rewrite Hlj by done. by apply (r_lock _ _ _ R).
    + rewrite lookup_insert_ne in H by done. by apply (r_lock _ _ _ R).
  - intros y Hy. apply Hs. destruct (decide (y = fp)) as [->|]; [by eauto|].
    rewrite Hl' in Hy by done. by apply (r_held _ _ _ R) in Hy.
  - intros j y _ Hy. apply Hs. by apply (r_held _ _ _ R) in Hy.
  - intros j q Hj Hq. constructor; cbn [mem fh set_mem tab cnt].
    + intros _. split_and!; [done..|]. intros y oy Hy E.
      destruct (decide (y = fp)) as [->|]; [|exists oy; by rewrite lookup_insert_ne].
      exists o'. rewrite lookup_insert_eq. simplify_eq. split; [done|]. by destruct (Ht Hy) as (-> & -> & _).
    + intros y oy Hg Hy E. destruct (decide (y = fp)) as [->|].
      * simplify_eq. destruct Hk as [[Hk ->]|[[? _]|[Hk _]]]; [|done|by destruct (Hk _ _ Hj Hq)].
        split_and!; [done..|]. exists o'. by rewrite lookup_insert_eq.
      * rewrite lookup_insert_ne by done. split_and!; [done| |by eauto].
        destruct Hk as [[_ ->]|[[_ ->]|[_ Hk]]]; [done|done|by apply Hk].
    + intros y Hy. rewrite lookup_insert_ne; [done|]. intros <-.
      apply (Np j Hj). by rewrite Hq.
Qed.

Lemma r_live l g t fp n :
  in_memory l g t -> fp ∈ (tab t).*1 ->
  exists o id, mem g !! fp = Some o /\ f_id o = id /\ (fp, id) ∈ tab t /\ f_lock o <> Uninit /\
    (cnt t !! fp = Some n -> (forall i, dying_of (thread l i) <> Some fp) -> f_count o = n).
Proof.
  intros R Hfp. apply list_elem_of_fmap in Hfp as Hid. destruct Hid as ([y id] & E & Hid).
  cbn in E. subst y. destruct (r_obj _ _ _ R _ _ Hid) as (o & A & B & C).
  exists o, id. split_and!; [done..|]. intros. by eapply (r_count _ _ _ R).
Qed.

Lemma guards_excl l g t i p fp o j q :
  in_memory l g t -> mem g !! fp = Some o -> thread l i = Some p -> thread l j = Some q ->
  guards p fp -> guards q fp -> j = i.
Proof.
  intros R Ho Hp Hq. unfold guards. destruct count_by_hash; intros A B.
  - assert (hashlock g = Locked i) by (apply (r_hash _ _ _ R); by rewrite Hp).
    assert (hashlock g = Locked j) by (apply (r_hash _ _ _ R); by rewrite Hq). congruence.
  - assert (f_lock o = Locked i) by (apply (r_lock _ _ _ R _ _ _ Ho); by rewrite Hp).
    assert (f_lock o = Locked j) by (apply (r_lock _ _ _ R _ _ _ Ho); by rewrite Hq). congruence.
Qed.

(** A count is unchanged by a write that leaves it alone. *)
Lemma count_kept l g t i x fp o o' y oy n :
  in_memory l g t -> (i < length l)%nat -> mem g !! fp = Some o -> f_count o' = f_count o ->
  dying_of x = dying_of (thread l i) -> y ∈ (tab t).*1 ->
  <[fp := o']> (mem g) !! y = Some oy -> cnt t !! y = Some n ->
  (forall j, dying_of (thread (<[i := x]> l) j) <> Some y) -> f_count oy = n.
Proof.
  intros R Hi Ho E E4 Hy Hoy Hn D.
  assert (D' : forall j, dying_of (thread l j) <> Some y).
  { intros j. specialize (D j). rewrite thread_insert in D by done.
    case_decide; [by subst; rewrite <- E4|done]. }
  apply lookup_insert_Some in Hoy as [[<- <-]|[_ Hoy]]; [rewrite E|]; by eapply (r_count _ _ _ R).
Qed.

Lemma in_memory_acquire l g t i x fp o :
  in_memory l g t -> (i < length l)%nat -> mem g !! fp = Some o -> f_lock o = Unlocked ->
  fp ∈ (tab t).*1 -> hf_of (thread l i) = None -> hf_of x = Some fp ->
  hh_of x = hh_of (thread l i) -> pv_of x = pv_of (thread l i) -> dying_of x = dying_of (thread l i) ->
  (forall p, x = Some p -> knows p (set_mem (<[fp := set_mutex (Locked i) o]> (mem g)) g) t) ->
  in_memory (<[i := x]> l) (set_mem (<[fp := set_mutex (Locked i) o]> (mem g)) g) t.
Proof.
  intros R Hi Ho Hu Hfp E1 E2 E3 E4 E5 Hk. destruct t as [tb c]; cbn [tab cnt] in *.
  apply (in_memory_write l g (Table tb c) i x fp o _ c); cbn [tab cnt]; try done.
  - by left.
  - intros y oy n. by apply (count_kept l g (Table tb c) i x fp o).
  - intros y Hy. rewrite E1, E2. split; [intros [= <-]|]; done.
  - intros j Hj. rewrite Hu. cbn. split; congruence.
  - by left.
  - intros y. rewrite E3, E5. apply R.
Qed.

Lemma in_memory_release l g t i x fp o :
  in_memory l g t -> (i < length l)%nat -> mem g !! fp = Some o -> f_lock o = Locked i ->
  fp ∈ (tab t).*1 \/ pv_of x = Some fp -> hf_of (thread l i) = Some fp -> hf_of x = None ->
  hh_of x = hh_of (thread l i) -> pv_of x = pv_of (thread l i) -> dying_of x = dying_of (thread l i) ->
  (forall p, x = Some p -> knows p (set_mem (<[fp := set_mutex Unlocked o]> (mem g)) g) t) ->
  in_memory (<[i := x]> l) (set_mem (<[fp := set_mutex Unlocked o]> (mem g)) g) t.
Proof.
  intros R Hi Ho Hu Hfp E1 E2 E3 E4 E5 Hk. destruct t as [tb c]; cbn [tab cnt] in *.
  apply (in_memory_write l g (Table tb c) i x fp o _ c); cbn [tab cnt]; try done.
  - intros y oy n. by apply (count_kept l g (Table tb c) i x fp o).
  - rewrite E2. done.
  - intros y Hy. rewrite E1, E2. split; [|intros [= <-]]; done.
  - intros j Hj. rewrite Hu. cbn. split; congruence.
  - by left.
  - intros y. rewrite E3, E5. apply R.
Qed.

Lemma in_memory_private l g t i x fp o o' :
  in_memory l g t -> (i < length l)%nat -> mem g !! fp = Some o ->
  (forall j, f_lock o <> Locked j) -> (forall j, f_lock o' <> Locked j) ->
  pv_of (thread l i) = Some fp -> pv_of x = Some fp ->
  hh_of x = hh_of (thread l i) -> hf_of x = hf_of (thread l i) -> dying_of x = dying_of (thread l i) ->
  (forall p, x = Some p -> knows p (set_mem (<[fp := o']> (mem g)) g) t) ->
  in_memory (<[i := x]> l) (set_mem (<[fp := o']> (mem g)) g) t.
Proof.
  intros R Hi Ho Hu Hu' E1 E2 E3 E4 E5 Hk. destruct t as [tb c]; cbn [tab cnt] in *.
  destruct (r_private _ _ _ R _ _ E1) as (Np & _ & Nj).
  apply (in_memory_write l g (Table tb c) i x fp o _ c); cbn [tab cnt]; try done.
  - by rewrite E2, E1.
  - by right.
  - intros y oy n Hy A B C. apply lookup_insert_Some in A as [[<- _]|[Ny A]]; [done|].
    eapply (r_count _ _ _ R); [done..|]. intros j. specialize (C j).
    rewrite thread_insert in C by done. case_decide; [by subst; rewrite <- E5|done].
  - split; [by intros ?%Hu'|]. rewrite E4. intros H. apply (r_lock _ _ _ R _ _ _ Ho) in H.
    by apply Hu in H.
  - intros y Hy. by rewrite E4.
  - intros j Hj. split; [by intros ?%Hu'|by intros ?%Hu].
  - right. by left.
  - intros y. rewrite E3, E5. apply R.
Qed.

Lemma in_memory_count l g t i p x fp o v c :
  in_memory l g t -> (i < length l)%nat -> thread l i = Some p -> mem g !! fp = Some o ->
  fp ∈ (tab t).*1 -> guards p fp -> f_lock o <> Uninit ->
  hh_of x = hh_of (thread l i) -> hf_of x = hf_of (thread l i) -> pv_of x = pv_of (thread l i) ->
  dying_of (thread l i) = None -> (forall y, y <> fp -> c !! y = cnt t !! y) ->
  dying_of x = Some fp /\ hh_of x = true \/ dying_of x = None /\ c !! fp = Some v ->
  (forall q, x = Some q -> knows q (set_mem (<[fp := set_count v o]> (mem g)) g) (Table (tab t) c)) ->
  in_memory (<[i := x]> l) (set_mem (<[fp := set_count v o]> (mem g)) g) (Table (tab t) c).
Proof.
  intros R Hi Hp Ho Hfp Hg Hu E1 E2 E3 E4 Hc Hd Hk.
  apply (in_memory_write l g t i x fp o _ c); try done.
  - by left.
  - intros y oy n Hy A B D. apply lookup_insert_Some in A as [[<- <-]|[Ny A]].
    + destruct Hd as [[Hd _]|[_ Hd]]; [|cbn; congruence].
      specialize (D i). by rewrite thread_insert, decide_True in D by done.
    + rewrite Hc in B by done. eapply (r_count _ _ _ R); [done..|]. intros j. specialize (D j).
      rewrite thread_insert in D by done. case_decide; [subst; by rewrite E4|done].
  - rewrite E2. exact (r_lock _ _ _ R _ _ _ Ho).
  - intros y _. by rewrite E2.
  - right. right. split; [|done]. intros j q Hj Hq Hg'. apply Hj.
    by apply (guards_excl l g t i p fp o j q).
  - intros y Hy. destruct Hd as [[_ ?]|[Hd _]]; [done|by rewrite Hd in Hy].
Qed.

Lemma in_memory_malloc l g t i x fp o :
  in_memory l g t -> (i < length l)%nat -> mem g !! fp = None -> fp <> NULL ->
  (forall j, f_lock o <> Locked j) -> pv_of (thread l i) = None -> pv_of x = Some fp ->
  hh_of x = hh_of (thread l i) -> hf_of x = hf_of (thread l i) -> dying_of x = dying_of (thread l i) ->
  (forall p, x = Some p -> knows p (set_mem (<[fp := o]> (mem g)) g) t) ->
  in_memory (<[i := x]> l) (set_mem (<[fp := o]> (mem g)) g) t.
Proof.
  intros R Hi Hn Hz Hu E1 E2 E3 E4 E5 Hk.
  assert (Hs : forall y oy, mem g !! y = Some oy -> <[fp := o]> (mem g) !! y = Some oy).
  { intros y oy Hy. rewrite lookup_insert_ne; [done|]. intros <-. congruence. }
  assert (Ht : fp ∉ (tab t).*1).
  { intros H. apply (r_live l g t fp 0 R) in H as (? & ? & ? & _). congruence. }
  assert (Hl : forall j, hf_of (thread l j) <> Some fp).
  { intros j H. apply (r_held _ _ _ R) in H as [? ?]. congruence. }
  apply (in_memory_step l g t i x _ t); cbn [mem fh hashlock set_mem]; try apply R; try done.
  - rewrite lookup_insert_ne by done. apply R.
  - intros idx a H1 H2. pose proof (r_chain _ _ _ R idx a H1 H2) as L. revert L. apply linked_ext. eauto.
  - intros y id Hy. destruct (r_obj _ _ _ R _ _ Hy) as (oy & ? & ? & ?). eauto.
  - intros y oy n A B C D. rewrite lookup_insert_ne in B by (intros ->; done).
    eapply (r_count _ _ _ R); [done..|]. intros j. specialize (D j).
    rewrite thread_insert in D by done. case_decide; [by subst; rewrite <- E5|done].
  - rewrite E2. intros y [= <-]. split_and!; [done|by rewrite lookup_insert_eq|].
    intros j _ H. apply (r_private _ _ _ R) in H as (_ & [? ?] & _). congruence.
  - intros j y _ H. by destruct (r_private _ _ _ R _ _ H).
  - intros y oy. destruct (decide (y = fp)) as [->|]; [by right; left|].
    rewrite lookup_insert_ne by done. intros H. destruct (r_reach _ _ _ R _ _ H) as [?|[j Hj]]; [by left|].
    right; right. exists j. split; [|done]. intros ->. by rewrite E1 in Hj.
  - rewrite E3. apply R.
  - intros y oy [[<- <-]|[Ny A]]%lookup_insert_Some.
    + rewrite E4. split; [by intros ?%Hu|by intros ?%Hl].
    + rewrite E4. by apply (r_lock _ _ _ R).
  - intros y oy j [[<- <-]|[Ny A]]%lookup_insert_Some _.
    + split; [by intros ?%Hu|by intros ?%Hl].
    + by apply (r_lock _ _ _ R).
  - intros y. rewrite E4. intros [oy H]%(r_held _ _ _ R). eauto.
  - intros j y _ [oy H]%(r_held _ _ _ R). eauto.
  - intros y. rewrite E3, E5. apply R.
  - intros j q Hj Hq. constructor; cbn [mem fh set_mem]; [by eauto 10..|].
    intros y Hy. rewrite lookup_insert_ne; [done|]. intros <-.
    assert (H : pv_of (thread l j) = Some fp) by (by rewrite Hq).
    apply (r_private _ _ _ R) in H as (_ & [? ?] & _). congruence.
Qed.

Lemma in_memory_free l g t i x fp o :
  in_memory l g t -> (i < length l)%nat -> mem g !! fp = Some o ->
  (forall j, f_lock o <> Locked j) -> pv_of (thread l i) = Some fp -> pv_of x = None ->
  hh_of x = hh_of (thread l i) -> hf_of x = hf_of (thread l i) -> dying_of x = dying_of (thread l i) ->
  (forall p, x = Some p -> knows p (set_mem (delete fp (mem g)) g) t) ->
  in_memory (<[i := x]> l) (set_mem (delete fp (mem g)) g) t.
Proof.
  intros R Hi Ho Hu E1 E2 E3 E4 E5 Hk.
  destruct (r_private _ _ _ R _ _ E1) as (Ht & _ & Hj).
  assert (Hs : forall y oy, y <> fp -> mem g !! y = Some oy -> delete fp (mem g) !! y = Some oy).
  { intros y oy Ny Hy. by rewrite lookup_delete_ne. }
  assert (Hl : forall j y, hf_of (thread l j) = Some y -> y <> fp).
  { intros j y H ->. apply (r_lock _ _ _ R _ _ _ Ho) in H. by apply Hu in H. }
  apply (in_memory_step l g t i x _ t); cbn [mem fh hashlock set_mem]; try apply R; try done.
  - rewrite lookup_delete_ne; [apply R|]. intros ->. by rewrite (r_null _ _ _ R) in Ho.
  - intros idx a H1 H2. pose proof (r_chain _ _ _ R idx a H1 H2) as L. revert L. apply linked_ext.
    intros y oy Hy A. exists oy. split; [|done]. apply Hs; [|done]. intros ->.
    apply bucket_elem in Hy as (id & Hy & _). by apply (list_elem_of_fmap_2 fst) in Hy.
  - intros y id Hy. destruct (r_obj _ _ _ R _ _ Hy) as (oy & A & ? & ?). exists oy. split; [|done].
    apply Hs; [|done]. intros ->. by apply (list_elem_of_fmap_2 fst) in Hy.
  - intros y oy n A [_ B]%lookup_delete_Some C D.
    eapply (r_count _ _ _ R); [done..|]. intros j. specialize (D j).
    rewrite thread_insert in D by done. case_decide; [by subst; rewrite <- E5|done].
  - intros y. by rewrite E2.
  - intros j y _ H. by destruct (r_private _ _ _ R _ _ H).
  - intros y oy [Ny A]%lookup_delete_Some. destruct (r_reach _ _ _ R _ _ A) as [?|[j H]]; [by left|].
    right; right. exists j. split; [|done]. intros ->. rewrite E1 in H. by simplify_eq.
  - rewrite E3. apply R.
  - intros y oy [_ A]%lookup_delete_Some. rewrite E4. by apply (r_lock _ _ _ R).
  - intros y oy j [_ A]%lookup_delete_Some _. by apply (r_lock _ _ _ R).
  - intros y. rewrite E4. intros H. destruct (r_held _ _ _ R _ _ H) as [oy A]. exists oy. by apply Hs; eauto.
  - intros j y _ H. destruct (r_held _ _ _ R _ _ H) as [oy A]. exists oy. by apply Hs; eauto.
  - intros y. rewrite E3, E5. apply R.
  - intros j q Nj Hq. constructor; cbn [mem fh set_mem].
    + intros _. split_and!; [done..|]. intros y oy Hy A. exists oy. split; [|done].
      apply Hs; [|done]. by intros ->.
    + intros y oy _ Hy A. split_and!; [done..|]. exists oy. split; [|done]. apply Hs; [|done]. by intros ->.
    + intros y Hy. rewrite lookup_delete_ne; [done|]. intros <-.
      apply Nj, Hj. by rewrite Hq.
Qed.

Lemma fh_lookup l g t id : in_memory l g t -> exists a, fh g !! Z.to_nat (HASH id) = Some a.
Proof.
  intros R. apply lookup_lt_is_Some_2. rewrite (r_fh _ _ _ R). pose proof (HASH_range id). lia.
Qed.
Lemma HASH_inj idx id : 0 <= idx -> Z.to_nat (HASH id) = Z.to_nat idx -> HASH id = idx.
Proof. pose proof (HASH_range id). lia. Qed.

(** The chains after an assignment to an entry of [fh]. *)
Lemma linked_fh l g t m id a b bk idx :
  in_memory l g t ->
  (forall idx a, 0 <= idx -> idx <> HASH id -> fh g !! Z.to_nat idx = Some a -> linked m (bk idx) a) ->
  linked m (bk (HASH id)) a ->
  0 <= idx -> <[Z.to_nat (HASH id) := a]> (fh g) !! Z.to_nat idx = Some b -> linked m (bk idx) b.
Proof.
  intros R Ho Ha H0 Hb. destruct (decide (idx = HASH id)) as [->|N].
  - rewrite list_lookup_insert_eq in Hb; [by simplify_eq|]. rewrite (r_fh _ _ _ R).
    pose proof (HASH_range id). lia.
  - rewrite list_lookup_insert_ne in Hb by (intros E; by apply HASH_inj in E). by apply Ho.
Qed.

(** [fh[idx] = fp], the object being ready. *)
Lemma in_memory_publish l g t i p x fp o :
  in_memory l g t -> (i < length l)%nat -> thread l i = Some p -> mem g !! fp = Some o ->
  pv p = Some fp -> hh p = true -> pv_of x = None -> hh_of x = true ->
  hf_of x = hf p -> dying p = None -> dying_of x = None ->
  f_count o = 1 -> f_lock o = Unlocked ->
  fh g !! Z.to_nat (HASH (f_id o)) = Some (f_next o) ->
  let g' := set_fh (<[Z.to_nat (HASH (f_id o)) := fp]> (fh g)) g in
  let t' := Table ((fp, f_id o) :: tab t) (<[fp := 1]> (cnt t)) in
  (forall q, x = Some q -> knows q g' t') ->
  in_memory (<[i := x]> l) g' t'.
Proof.
  intros R Hi Hp Ho P1 P2 E1 E2 E3 P4 E4 Hc Hu Hf g' t' Hk.
  destruct (r_private l g t R i fp) as (Nt & _ & Nj); [by rewrite Hp|].
  assert (Hx : forall j, j <> i -> hh_of (thread l j) <> true).
  { intros j Hj H. apply (r_hash _ _ _ R) in H. assert (H' : hh_of (thread l i) = true) by by rewrite Hp.
    apply (r_hash _ _ _ R) in H'. congruence. }
  apply (in_memory_step l g t i x g' t'); unfold g', t'; cbn [mem fh hashlock set_fh tab cnt fmap list_fmap fst];
    try apply R; try done.
  - rewrite length_insert. apply R.
  - apply list.NoDup_cons. split; [done|apply R].
  - intros idx a. apply (linked_fh l g t (mem g) (f_id o) fp _ (fun idx => bucket idx ((fp, f_id o) :: tab t))); [done|..].
    + intros ix b H0 N Hb. unfold bucket. rewrite filter_cons, decide_False by (cbn; congruence).
      by apply (r_chain _ _ _ R).
    + unfold bucket. rewrite filter_cons, decide_True by done. cbn. split; [done|]. exists o.
      split; [done|]. apply (r_chain _ _ _ R (HASH (f_id o))); [apply HASH_range|done].
  - intros y id [[= -> ->]|Hy]%elem_of_cons; [|by apply (r_obj _ _ _ R)].
    exists o. split_and!; [done..|]. by rewrite Hu.
  - intros y oy n [->|Hy]%elem_of_cons A B D.
    + rewrite lookup_insert_eq in B. congruence.
    + rewrite lookup_insert_ne in B by (intros ->; done). eapply (r_count _ _ _ R); [done..|].
      intros j. specialize (D j). rewrite thread_insert in D by done.
      case_decide; [subst; by rewrite Hp; cbn; rewrite P4|done].
  - by rewrite E1.
  - intros j y Hj H [->|Hy]%elem_of_cons; [by apply Nj in H|]. by destruct (r_private _ _ _ R _ _ H).
  - intros y oy H. destruct (r_reach _ _ _ R _ _ H) as [?|[j Hj]]; [by left; right|].
    destruct (decide (j = i)) as [->|]; [|by eauto 6].
    left. rewrite Hp in Hj. cbn in Hj. rewrite P1 in Hj. simplify_eq. left.
  - assert (H' : hh_of (thread l i) = true) by by rewrite Hp. apply (r_hash _ _ _ R) in H'. by rewrite E2.
  - intros y oy H. rewrite (r_lock _ _ _ R _ _ _ H), Hp, E3. done.
  - intros y oy j H _. by apply (r_lock _ _ _ R).
  - intros y. rewrite E3. intros H. apply (r_held _ _ _ R i). by rewrite Hp.
  - intros j y _. apply R.
  - intros j q Hj Hq. constructor; cbn [mem fh set_fh tab cnt].
    + intros H. destruct (Hx j Hj). by rewrite Hq.
    + intros y oy _ Hy A. rewrite lookup_insert_ne by (intros ->; done).
      split_and!; [by right|done|eauto].
    + done.
Qed.

(** The object leaves its chain; [m] and [f] are the memory and [fh] then. *)
Lemma in_memory_cut l g t i p x fp m f :
  in_memory l g t -> (i < length l)%nat -> thread l i = Some p ->
  fp ∈ (tab t).*1 -> guards p fp -> hh p = true -> hh_of x = true ->
  pv p = None -> pv_of x = Some fp -> hf_of x = hf p -> dying_of x = None ->
  (dying p = None \/ dying p = Some fp) ->
  length f = Z.to_nat NHASH ->
  (forall y, set_next NULL <$> (m !! y) = set_next NULL <$> (mem g !! y)) ->
  (forall y, y ∉ (tab t).*1 -> m !! y = mem g !! y) ->
  (forall idx a, 0 <= idx -> f !! Z.to_nat idx = Some a -> linked m (bucket idx (drop_fp fp (tab t))) a) ->
  let g' := Globals m f (hashlock g) in
  let t' := Table (drop_fp fp (tab t)) (delete fp (cnt t)) in
  (forall q, x = Some q -> knows q g' t') ->
  in_memory (<[i := x]> l) g' t'.
Proof.
  intros R Hi Hp Hfp Hgp P2 E2 P3 E3 E4 E5 P5 Hlen Hm Hm' Hch g' t' Hk.
  assert (Hx : forall j, j <> i -> hh_of (thread l j) <> true).
  { intros j Hj H. apply (r_hash _ _ _ R) in H. assert (H' : hh_of (thread l i) = true) by by rewrite Hp.
    apply (r_hash _ _ _ R) in H'. congruence. }
  assert (S1 : forall y o, mem g !! y = Some o -> exists o', m !! y = Some o' /\
    f_count o' = f_count o /\ f_lock o' = f_lock o /\ f_id o' = f_id o).
  { intros y o H. specialize (Hm y). rewrite H in Hm. destruct (m !! y) as [o'|]; [|done].
    exists o'. cbn in Hm. injection Hm. auto. }
  assert (S2 : forall y o', m !! y = Some o' -> exists o, mem g !! y = Some o /\
    f_count o' = f_count o /\ f_lock o' = f_lock o /\ f_id o' = f_id o).
  { intros y o' H. specialize (Hm y). rewrite H in Hm. destruct (mem g !! y) as [o|]; [|done].
    exists o. cbn in Hm. injection Hm. auto. }
  assert (Sub : forall y, y ∈ (drop_fp fp (tab t)).*1 -> y ∈ (tab t).*1 /\ y <> fp) by
    (intros y; apply drop_fp_elem).
  apply (in_memory_step l g t i x g' t'); unfold g', t'; cbn [mem fh hashlock tab cnt]; try apply R; try done.
  - specialize (Hm NULL). rewrite (r_null _ _ _ R) in Hm. by destruct (m !! NULL).
  - apply drop_fp_nodup, R.
  - intros y id Hy. apply list_elem_of_filter in Hy as [_ Hy].
    destruct (r_obj _ _ _ R _ _ Hy) as (o & A & B & C).
    destruct (S1 _ _ A) as (o' & A' & _ & E & E'). exists o'. rewrite E, E'. done.
  - intros y oy n Hy A B D. apply Sub in Hy as [Hy Ny]. destruct (S2 _ _ A) as (o & A' & -> & _).
    rewrite lookup_delete_ne in B by done. eapply (r_count _ _ _ R); [done..|]. intros j. specialize (D j).
    rewrite thread_insert in D by done. case_decide; [subst|done]. rewrite Hp. cbn.
    destruct P5 as [->| ->]; congruence.
  - rewrite E3. intros y [= <-]. split_and!; [by intros [_ ?]%Sub| |].
    + apply (r_live l g t fp 0 R) in Hfp as (o & _ & A & _). destruct (S1 _ _ A) as (? & ? & _). eauto.
    + intros j _ H. by destruct (r_private _ _ _ R _ _ H).
  - intros j y Hj H [Hy _]%Sub. by destruct (r_private _ _ _ R _ _ H).
  - intros y oy A. destruct (decide (y = fp)) as [->|Ny]; [by right; left|].
    destruct (S2 _ _ A) as (o & A' & _). destruct (r_reach _ _ _ R _ _ A') as [?|[j Hj]].
    + left. by apply drop_fp_elem.
    + right; right. exists j. split; [|done]. intros ->. rewrite Hp in Hj. cbn in Hj. congruence.
  - assert (H' : hh_of (thread l i) = true) by by rewrite Hp. apply (r_hash _ _ _ R) in H'. by rewrite E2.
  - intros y oy H. destruct (S2 _ _ H) as (o & A & _ & -> & _).
    rewrite (r_lock _ _ _ R _ _ _ A), Hp, E4. done.
  - intros y oy j H _. destruct (S2 _ _ H) as (o & A & _ & -> & _). by apply (r_lock _ _ _ R).
  - intros y. rewrite E4. intros H. destruct (r_held l g t R i y) as [o A]; [by rewrite Hp|].
    destruct (S1 _ _ A) as (? & ? & _). eauto.
  - intros j y _ H. destruct (r_held _ _ _ R _ _ H) as [o A]. destruct (S1 _ _ A) as (? & ? & _). eauto.
  - intros j q Hj Hq. constructor; cbn [mem fh tab cnt].
    + intros H. destruct (Hx j Hj). by rewrite Hq.
    + intros y oy Hg Hy A. destruct (S1 _ _ A) as (o' & A' & E & _).
      assert (Ny : fp <> y) by (intros ->; apply Hj; by apply (guards_excl l g t i p y oy j q)).
      split_and!; [by apply drop_fp_elem|by rewrite lookup_delete_ne|eauto].
    + intros y Hy. apply Hm'. assert (H : pv_of (thread l j) = Some y) by by rewrite Hq.
      by destruct (r_private _ _ _ R _ _ H).
Qed.

(** With no operation in progress every mutex is free, and the memory holds
    an object for each address referred to, with its number of references. *)
Lemma memory_idle l g t f b :
  in_memory l g t -> counted (Sys t (stats f l) b) -> (forall i p, l !! i <> Some (Some p)) ->
  hashlock g = Unlocked /\
  forall fp, match mem g !! fp with
             | Some o => f_lock o = Unlocked /\ 1 <= f_count o /\ f_count o = Z.of_nat (multiplicity fp b)
             | None => multiplicity fp b = 0%nat
             end.
Proof.
  intros R C H.
  assert (N : forall i, thread l i = None).
  { intros i. unfold thread. destruct (l !! i) as [[p|]|] eqn:E; [by destruct (H i p)|done..]. }
  split.
  - destruct (hashlock g) as [| |i] eqn:E; [by destruct (r_hashlock _ _ _ R)|done|].
    apply (r_hash _ _ _ R) in E. by rewrite N in E.
  - intros fp. pose proof (c_count _ C fp) as D. rewrite (refs_idle f l t b H) in D.
    cbn [RefTable.shared] in D. destruct (mem g !! fp) as [o|] eqn:E.
    + destruct (r_reach _ _ _ R _ _ E) as [Hfp|[i Hi]]; [|by rewrite N in Hi].
      destruct (proj1 (c_dom _ C fp) Hfp) as [n Hn]. cbn [RefTable.shared] in Hn.
      destruct (r_live l g t fp n R Hfp) as (o' & id & Ho & _ & _ & Hu & Hc). simplify_eq.
      rewrite Hc; [|done|by intros j; rewrite N]. rewrite Hn in D.
      split_and!; [|by apply (c_pos _ C fp)|done].
      destruct (f_lock o) as [| |i] eqn:El; [done|done|].
      apply (r_lock _ _ _ R _ _ _ E) in El. by rewrite N in El.
    + destruct (cnt t !! fp) as [n|] eqn:Hn.
      * assert (Hfp : fp ∈ (tab t).*1) by (apply (c_dom _ C); cbn; by rewrite Hn).
        destruct (r_live l g t fp n R Hfp) as (o' & id & Ho & _). congruence.
      * change (0 = Z.of_nat (multiplicity fp b)) in D. lia.
Qed.
End invariant.
