(* ===== verification/RefSteps.v ===== *)
(** What a statement of the reference-counted tables does to the invariant of
    [RefHeap], in the same terms for every program that keeps it: mutexes
    taken and given back, fields written, chains walked. *)
From Stdlib Require Import ZArith Lia.
From stdpp Require Import base list strings gmap gmultiset numbers.
From S2P Require Import Prelude Dll RefTable RefHeap.
Local Open Scope c_scope.

Definition obj (g : globals) (fp : addr) (P : foo -> Prop) : Prop :=
  exists o, mem g !! fp = Some o /\ P o.
(** An object of the table whose count the thread has read. *)
Definition entry (g : globals) (t : table) (fp : addr) (P : foo -> Prop) : Prop :=
  fp ∈ (tab t).*1 /\ obj g fp P.

(** The search for [id] has come to [fp], which it has not looked at. *)
Definition searched (t : table) (id : Z) (fp : addr) : Prop :=
  exists l1 l2, filter (fun e => HASH e.2 = HASH id) (tab t) = l1 ++ l2 /\
    Forall (fun e => e.2 <> id) l1 /\ fp = hd_addr l2.*1.
(** The walk along a chain has come to [tfp], and [fp] is behind it. *)
Definition walked (t : table) (fp tfp : addr) (next : bool) : Prop :=
  exists idx l1 l2, 0 <= idx < NHASH /\ bucket idx (tab t) = l1 ++ tfp :: l2 /\ fp ∈ l2 /\
    (next = true -> hd_addr l2 <> fp).

(** The memory a statement reads or writes, mutexes apart. *)
Inductive loc := At_fh (idx : nat) | At_count (fp : addr) | At_id (fp : addr) | At_next (fp : addr).

Definition peek (x : loc) (g : globals) : option Z :=
  match x with
  | At_fh idx => fh g !! idx
  | At_count fp => f_count <$> mem g !! fp
  | At_id fp => f_id <$> mem g !! fp
  | At_next fp => f_next <$> mem g !! fp
  end.

(** Runs the step in [H]. *)
Ltac run_step H :=
  revert H; unfold unlock_hash, lock_hash, lock_fp, unlock_fp, lock, unlock, malloc, put_fh, get_fh, incr,
    mutex_init, mutex_destroy, free, update, load, goto, ret, modify, skip, undef, bind, gets;
  repeat (case_match; simplify_eq; try done); intros [= <- <-].

(** Shows that the step in [H] does not have to wait. *)
Ltac never_waits H :=
  exfalso; revert H; unfold unlock_hash, unlock_fp, unlock, bind, gets, load, malloc, update, get_fh, put_fh,
    incr, mutex_init, mutex_destroy, free, bind, load, get_fh, update, goto, ret, modify, skip, undef;
  cbn; repeat (case_match; simplify_eq; try done).

(** Finds what a write left of a place. *)
Ltac peek_written Hx Hv :=
  rewrite ?not_elem_of_cons in Hx; try (intros [= <- <-]; cbn in *; try done);
  repeat match goal with
    | |- context [<[?a := _]> (mem _) !! ?b] =>
      destruct (decide (a = b)) as [<-|?]; [rewrite lookup_insert_eq|by rewrite lookup_insert_ne]
    | |- context [delete ?a (mem _) !! ?b] =>
      destruct (decide (a = b)) as [<-|?]; [rewrite lookup_delete_eq|by rewrite lookup_delete_ne]
    | |- context [<[?a := _]> (fh _) !! ?b] =>
      rewrite list_lookup_insert_ne; [done|by intros <-; tauto]
    end;
  match goal with
    | E : mem _ !! _ = Some _ |- _ => rewrite E in *; first [done | tauto]
    | E : mem _ !! _ = None |- _ => by rewrite E in Hv
  end.

(** The object just written. *)
Ltac written := eexists; split; [by apply lookup_insert_eq|]; by repeat split.

Section step.
Context {pc : Type} `{!Code pc globals} `{!Points pc} `{St : !Stable} (status_of : pc -> stat).
Variables (l : list (option pc)) (i : nat) (p : pc) (g : globals) (t : table) (b : gmultiset addr).
Hypothesis R : in_memory l g t.
Hypothesis Hl : l !! i = Some (Some p).
Hypothesis C : counted (Sys t (stats status_of l) b).

(** What a step from [p] leads to. *)
Definition good (r : option pc) (g' : globals) : Prop :=
  match r with
  | None => True
  | Some p' => exists t', in_memory (<[i := Some p']> l) g' t' /\
      (status_of p' = status_of p /\ t' = t \/ takes_effect (status_of p) t (status_of p') t')
  end.

Lemma at_p : thread l i = Some p /\ (i < length l)%nat.
Proof. by apply thread_some. Qed.

Lemma good_same p' g' :
  in_memory (<[i := Some p']> l) g' t -> status_of p' = status_of p -> good (Some p') g'.
Proof. intros H E. exists t. by split; [|left]. Qed.

Lemma good_effect p' g' t' o r :
  in_memory (<[i := Some p']> l) g' t' -> status_of p = Pending o -> status_of p' = Answered o r ->
  answers o t r t' -> good (Some p') g'.
Proof. intros H E E' A. exists t'. split; [done|right]. rewrite E, E'. by constructor. Qed.

(** An object of the table. *)
Lemma object_of fp :
  fp ∈ (tab t).*1 ->
  exists o n, mem g !! fp = Some o /\ (fp, f_id o) ∈ tab t /\ f_lock o <> Uninit /\
    cnt t !! fp = Some n /\ 1 <= n /\ ((forall j, dying_of (thread l j) <> Some fp) -> f_count o = n).
Proof.
  intros Hfp. destruct (proj1 (c_dom _ C fp) Hfp) as [n Hn].
  destruct (r_live l g t fp n R Hfp) as (o & id & Ho & <- & Hid & Hu & Hc).
  exists o, n. split_and!; try done; [by apply (c_pos _ C fp)|auto].
Qed.

Lemma owned_in_table fp : fp ∈ owned (Some (status_of p)) -> fp ∈ (tab t).*1.
Proof.
  intros H. apply (c_dom _ C). destruct (counted_live _ i (Some (status_of p)) fp C) as (n & Hn & _); [|done|].
  - cbn. by apply (stats_lookup _ _ _ (Some p)).
  - eauto.
Qed.

Lemma held_by_us fp o : mem g !! fp = Some o -> f_lock o = Locked i <-> hf p = Some fp.
Proof.
  intros Ho. rewrite (r_lock _ _ _ R _ _ _ Ho). destruct at_p as [-> _]. done.
Qed.
Lemma hash_by_us : hashlock g = Locked i <-> hh p = true.
Proof. rewrite (r_hash _ _ _ R). destruct at_p as [-> _]. done. Qed.

Lemma quiet p' :
  hh p' = hh p -> hf p' = hf p -> pv p' = pv p -> dying p' = dying p ->
  status_of p' = status_of p -> knows p' g t -> good (Some p') g.
Proof.
  destruct at_p as [E Hi]. intros E1 E2 E3 E5 E4 K. apply good_same; [|done].
  apply in_memory_quiet; rewrite ?E; try done. by intros q [= <-].
Qed.

Lemma locks_hash p' :
  hh p = false -> hh p' = true -> hf p' = hf p -> pv p' = pv p ->
  dying p = None -> dying p' = None -> status_of p' = status_of p -> knows p' (set_hashlock (Locked i) g) t ->
  wp (lock_hash i p') good g.
Proof.
  destruct at_p as [E Hi]. intros E0 E1 E2 E3 E5 E6 E4 K.
  apply wp_lock_hash; [apply R|by rewrite hash_by_us, E0|done|].
  intros Hu. apply good_same; [|done].
  apply in_memory_hash; rewrite ?E; try done; [by left|]. by intros q [= <-].
Qed.

Lemma unlocks_hash p' :
  hh p = true -> hh p' = false -> hf p' = hf p -> pv p' = pv p ->
  dying p = None -> dying p' = None -> status_of p' = status_of p -> knows p' (set_hashlock Unlocked g) t ->
  wp (unlock_hash i p') good g.
Proof.
  destruct at_p as [E Hi]. intros E0 E1 E2 E3 E5 E6 E4 K. apply hash_by_us in E0.
  apply wp_unlock_hash; [done|]. apply good_same; [|done].
  apply in_memory_hash; rewrite ?E; try done; [by right|]. by intros q [= <-].
Qed.

Lemma locks_fp fp p' :
  fp ∈ (tab t).*1 -> hf p = None -> hf p' = Some fp -> hh p' = hh p ->
  pv p' = pv p -> dying p' = dying p -> status_of p' = status_of p ->
  (forall o, mem g !! fp = Some o -> knows p' (set_mem (<[fp := set_mutex (Locked i) o]> (mem g)) g) t) ->
  wp (lock_fp i fp p') good g.
Proof.
  destruct at_p as [E Hi]. intros Hfp E0 E1 E2 E3 E5 E4 K.
  destruct (object_of fp Hfp) as (o & n & Ho & _ & Hu & _).
  apply (wp_lock_fp _ _ _ _ _ _ Ho); [done| |done|].
  - rewrite held_by_us by done. congruence.
  - intros Hun. apply good_same; [|done].
    apply in_memory_acquire; rewrite ?E; try done. intros q [= <-]. by apply K.
Qed.

Lemma unlocks_fp fp p' :
  fp ∈ (tab t).*1 \/ pv p' = Some fp -> hf p = Some fp -> hf p' = None ->
  hh p' = hh p -> pv p' = pv p -> dying p' = dying p -> status_of p' = status_of p ->
  (forall o, mem g !! fp = Some o -> knows p' (set_mem (<[fp := set_mutex Unlocked o]> (mem g)) g) t) ->
  wp (unlock_fp i fp p') good g.
Proof.
  destruct at_p as [E Hi]. intros Hfp E0 E1 E2 E3 E5 E4 K.
  destruct (r_held l g t R i fp) as [o Ho]; [by rewrite E|].
  assert (Hlk : f_lock o = Locked i) by by apply (held_by_us fp).
  apply (wp_unlock_fp _ _ _ _ _ _ Ho); [done|]. apply good_same; [|done].
  apply in_memory_release; rewrite ?E; try done. intros q [= <-]. by apply K.
Qed.

(** A write to an object of the thread's own. *)
Lemma writes_private fp o o' p' :
  mem g !! fp = Some o -> pv p = Some fp -> pv p' = Some fp -> f_lock o = Uninit \/ f_lock o = Unlocked ->
  f_lock o' = Uninit \/ f_lock o' = Unlocked ->
  hh p' = hh p -> hf p' = hf p -> dying p' = dying p -> status_of p' = status_of p ->
  knows p' (set_mem (<[fp := o']> (mem g)) g) t ->
  good (Some p') (set_mem (<[fp := o']> (mem g)) g).
Proof.
  destruct at_p as [E Hi]. intros Ho P1 P2 U U' E2 E3 E5 E4 K. apply good_same; [|done].
  apply (in_memory_private l g t i _ fp o); rewrite ?E; try done.
  - intros j. by destruct U as [-> | ->].
  - intros j. by destruct U' as [-> | ->].
  - by intros q [= <-].
Qed.
End step.


(** ** Chains *)

Section walk.
Context {pc : Type} `{!Points pc}.
Variables (l : list (option pc)) (i : nat) (g : globals) (t : table).
Hypothesis R : in_memory l g t.

Lemma null_not_in : NULL ∉ (tab t).*1.
Proof.
  intros H. destruct (r_live l g t NULL 0 R H) as (o & _ & Ho & _). by rewrite (r_null _ _ _ R) in Ho.
Qed.

Lemma private_in_memory p fp :
  l !! i = Some (Some p) -> pv p = Some fp -> (fp ∉ (tab t).*1) /\ fp <> NULL.
Proof.
  intros Hl E. destruct (at_p l i p Hl) as [Ht _].
  destruct (r_private l g t R i fp) as (A & [o Ho] & _); [by rewrite Ht|].
  split; [done|]. intros ->. by rewrite (r_null _ _ _ R) in Ho.
Qed.

(** The search looks at the next object of the chain. *)
Lemma find_at id l1 l2 :
  filter (fun e => HASH e.2 = HASH id) (tab t) = l1 ++ l2 -> Forall (fun e => e.2 <> id) l1 ->
  find_id id (tab t) = find_id id l2 /\ forall e, e ∈ l2 -> e ∈ tab t.
Proof.
  intros El F. split.
  - unfold find_id. by rewrite <- (filter_bucket id (tab t)), El, list.filter_app, filter_none.
  - intros e He. assert (H : e ∈ filter (fun e => HASH e.2 = HASH id) (tab t)).
    { rewrite El. apply elem_of_app. by right. }
    by apply list_elem_of_filter in H as [_ H].
Qed.

(** The chain of an object of the table. *)
Lemma chain_of fp idx :
  fp ∈ (tab t).*1 -> obj g fp (fun o => idx = HASH (f_id o)) ->
  exists a, fh g !! Z.to_nat idx = Some a /\ a = hd_addr (bucket idx (tab t)) /\ fp ∈ bucket idx (tab t) /\
    linked (mem g) (bucket idx (tab t)) a.
Proof.
  intros Hfp (o & Ho & ->). destruct (r_live l g t fp 0 R Hfp) as (o' & id & Ho' & <- & Hid & _). simplify_eq.
  destruct (fh_lookup l g t (f_id o) R) as [a Ha]. exists a.
  pose proof (r_chain _ _ _ R _ _ (proj1 (HASH_range (f_id o))) Ha) as L.
  split_and!; [done|by apply linked_head in L| |done]. apply bucket_elem. eauto.
Qed.

(** The walk to the object before [fp]. *)
Lemma walked_next fp tfp n :
  walked t fp tfp n -> exists o idx l1 l2, mem g !! tfp = Some o /\ 0 <= idx < NHASH /\
    bucket idx (tab t) = l1 ++ tfp :: l2 /\ fp ∈ l2 /\ f_next o = hd_addr l2 /\
    (n = true -> hd_addr l2 <> fp).
Proof.
  intros (idx & l1 & l2 & H & Eb & Hin & Hne).
  destruct (lookup_lt_is_Some_2 (fh g) (Z.to_nat idx)) as [a Ha].
  { rewrite (r_fh _ _ _ R). lia. }
  pose proof (r_chain _ _ _ R idx a (proj1 H) Ha) as L. rewrite Eb in L.
  apply linked_next in L as (o & Ho & Hn). by exists o, idx, l1, l2.
Qed.

Lemma walked_in_table fp tfp n : walked t fp tfp n -> tfp ∈ (tab t).*1.
Proof.
  intros (idx & l1 & l2 & _ & E & _). assert (H : tfp ∈ bucket idx (tab t)).
  { rewrite E. apply elem_of_app. right. left. }
  apply bucket_elem in H as (id & H & _). by apply (list_elem_of_fmap_2 fst) in H.
Qed.

(** The next object of a chain is an older one. *)
Lemma next_behind idx l1 x l2 o :
  0 <= idx < NHASH -> bucket idx (tab t) = l1 ++ x :: l2 -> mem g !! x = Some o ->
  f_next o = NULL /\ l2 = [] \/ f_next o <> NULL /\ (behind (f_next o) (tab t) < behind x (tab t))%nat.
Proof.
  intros H Eb Ho. destruct (lookup_lt_is_Some_2 (fh g) (Z.to_nat idx)) as [a Ha].
  { rewrite (r_fh _ _ _ R). lia. }
  pose proof (r_chain _ _ _ R idx a (proj1 H) Ha) as L. rewrite Eb in L.
  apply linked_next in L as (o' & Ho' & Hn). assert (o' = o) as -> by congruence.
  destruct l2 as [|y l2]; cbn in Hn; [by left|right]. rewrite Hn. split.
  - intros ->. apply null_not_in, (bucket_in idx). rewrite Eb, elem_of_app, !elem_of_cons. tauto.
  - by apply (behind_next idx _ l1 x y l2), Eb; apply (r_nodup _ _ _ R).
Qed.

End walk.

(** ** Older objects, towards the end of a chain *)

Section older.
Context {pc : Type} `{!Points pc}.
Variables (l : list (option pc)) (g : globals) (t : table).
Hypothesis R : in_memory l g t.

Lemma searched_in_table id fp : searched t id fp -> fp <> NULL -> fp ∈ (tab t).*1.
Proof.
  intros (l1 & l2 & El & F & ->) N. destruct l2 as [|[y m] l2]; [done|].
  destruct (find_at t id l1 _ El F) as [_ Fe]. apply (list_elem_of_fmap_2 fst (tab t) (y, m)), Fe. left.
Qed.

Lemma head_behind idx a :
  0 <= idx -> fh g !! Z.to_nat idx = Some a -> a = NULL \/ (S (behind a (tab t)) <= length (tab t))%nat.
Proof.
  intros H0 Ha. pose proof (r_chain _ _ _ R _ _ H0 Ha) as L. apply linked_head in L.
  destruct (bucket idx (tab t)) as [|x r] eqn:Eb; [by left|right]. subst a.
  apply behind_lt, (bucket_in idx). rewrite Eb. left.
Qed.

Lemma searched_behind id fp o :
  searched t id fp -> fp ∈ (tab t).*1 -> mem g !! fp = Some o ->
  f_next o = NULL \/ f_next o <> NULL /\ (behind (f_next o) (tab t) < behind fp (tab t))%nat.
Proof.
  intros (l1 & l2 & El & F & Efp) Hfp Ho.
  destruct l2 as [|[x m] l2]; cbn in Efp; subst fp; [by apply (null_not_in _ _ _ R) in Hfp|].
  assert (Eb : bucket (HASH id) (tab t) = l1.*1 ++ x :: l2.*1) by (unfold bucket; by rewrite El, fmap_app).
  destruct (next_behind _ _ _ R _ _ _ _ _ (HASH_range id) Eb Ho) as [[? _]|?]; auto.
Qed.

Lemma walked_behind fp tfp o :
  walked t fp tfp true -> mem g !! tfp = Some o -> (behind (f_next o) (tab t) < behind tfp (tab t))%nat.
Proof.
  intros (idx & l1 & l2 & Hi & Eb & Hin & _) Ho.
  destruct (next_behind _ _ _ R _ _ _ _ _ Hi Eb Ho) as [[_ ->]|[_ H]]; [by apply elem_of_nil in Hin|done].
Qed.
End older.

(** ** Waiting *)

Section waiting.
Context {pc : Type}.
Implicit Types p : pc.

Lemma lock_fp_waits i fp p g g' :
  lock_fp i fp p g = Ret None g' -> exists fp o j, mem g !! fp = Some o /\ f_lock o = Locked j.
Proof.
  unfold lock_fp, bind, load, lock. destruct (mem g !! fp) as [o|] eqn:Ho; [|done].
  intros H. exists fp, o. destruct (f_lock o) as [| |j]; [done| |by eauto].
  unfold bind, update, bind, load in H. by rewrite Ho in H.
Qed.
Lemma lock_hash_waits i p g g' : lock_hash i p g = Ret None g' -> exists j, hashlock g = Locked j.
Proof. unfold lock_hash, bind, gets, lock. destruct (hashlock g) as [| |j]; [done..|by eauto]. Qed.
End waiting.

(** ** Races *)

Section races.
Context {pc : Type} `{!Points pc}.

(** What keeps the others away from a place: a mutex, or that only this
    thread knows the object. *)
Definition protected (t : table) (p : pc) (x : loc) : Prop :=
  match x with
  | At_fh _ => hh p = true
  | At_count fp => fp ∈ (tab t).*1 /\ guards p fp \/ pv p = Some fp
  | At_id fp | At_next fp => fp ∈ (tab t).*1 /\ hh p = true \/ pv p = Some fp
  end.

Lemma protected_excl l i j p q g t x :
  in_memory l g t -> l !! i = Some (Some p) -> l !! j = Some (Some q) ->
  protected t p x -> protected t q x -> i = j.
Proof.
  intros R Hp Hq. destruct (at_p _ _ _ Hp) as [Ep _], (at_p _ _ _ Hq) as [Eq _].
  assert (H1 : hh p = true -> hh q = true -> i = j).
  { intros A B. assert (hashlock g = Locked i) by (apply (r_hash _ _ _ R); by rewrite Ep).
    assert (hashlock g = Locked j) by (apply (r_hash _ _ _ R); by rewrite Eq). congruence. }
  assert (H2 : forall fp, fp ∈ (tab t).*1 -> guards p fp -> guards q fp -> i = j).
  { intros fp Hfp A B. destruct (r_live l g t fp 0 R Hfp) as (o & _ & Ho & _).
    symmetry. by apply (guards_excl l g t i p fp o j q). }
  assert (H3 : forall fp, pv p = Some fp -> (fp ∉ (tab t).*1) /\ (pv q = Some fp -> i = j)).
  { intros fp A. destruct (r_private l g t R i fp) as (N & _ & Hj); [by rewrite Ep|].
    split; [done|]. intros B. symmetry. apply Hj. by rewrite Eq. }
  assert (H4 : forall fp, pv q = Some fp -> fp ∉ (tab t).*1).
  { intros fp A. destruct (r_private l g t R j fp) as (N & _ & _); [by rewrite Eq|done]. }
  destruct x as [idx|fp|fp|fp]; cbn; [done|..]; intros [[A A']|A] [[B B']|B]; eauto;
    try (by destruct (H4 _ B)); destruct (H3 _ A) as [N1 N2]; by eauto.
Qed.
End races.

(** ** Objects that come and go *)

Section actions.
Context {pc : Type} `{!Code pc globals} `{!Points pc} `{St : !Stable} (status_of : pc -> stat).
Variables (l : list (option pc)) (i : nat) (p : pc) (g : globals) (t : table).
Hypothesis R : in_memory l g t.
Hypothesis Hl : l !! i = Some (Some p).

Abbreviation good := (good status_of l i p t).

(** [if ((fp = malloc(sizeof(struct foo))) != NULL)] *)
Lemma mallocs w id (k : addr -> pc) p' :
  status_of p = Pending (Alloc id) -> status_of p' = Answered (Alloc id) (Obj NULL) ->
  hh p' = hh p -> hf p' = hf p -> pv p = None -> pv p' = None -> dying p' = dying p -> knows p' g t ->
  (forall fp, hh (k fp) = hh p /\ hf (k fp) = hf p /\ pv (k fp) = Some fp /\ dying (k fp) = dying p /\
     status_of (k fp) = status_of p) ->
  (forall fp o, f_lock o = Uninit -> knows (k fp) (set_mem (<[fp := o]> (mem g)) g) t) ->
  wp (let* r := malloc w in
      match r with
      | None => ret None
      | Some fp => goto (if fp =? NULL then p' else k fp)
      end) good g.
Proof.
  intros S1 S2 F1 F2 F3 F3' F4 K Hk Kk. destruct (at_p _ _ _ Hl) as [E Hi]. apply wp_bind, wp_malloc.
  - done.
  - apply (good_effect _ _ _ _ _ _ _ t (Alloc id) (Obj NULL)); try done.
    apply in_memory_quiet; rewrite ?E; try done; [by rewrite <- F3 in F3'|by intros q [= <-]].
  - intros Hn Hf. rewrite (proj2 (Z.eqb_neq _ _) Hn).
    destruct (Hk (w_fp w)) as (A1 & A2 & A3 & A4 & A5). apply good_same; [|done].
    apply in_memory_malloc; rewrite ?E; try done. intros q [= <-]. by apply Kk.
Qed.

Lemma frees fp o p' :
  mem g !! fp = Some o -> f_lock o = Uninit -> pv p = Some fp -> pv p' = None ->
  hh p' = hh p -> hf p' = hf p -> dying p' = dying p -> status_of p' = status_of p ->
  (forall g', knows p' g' t) -> wp (free fp;;; goto p') good g.
Proof.
  intros Ho Hu F3 F3' F1 F2 F4 S K. destruct (at_p _ _ _ Hl) as [E Hi].
  apply wp_bind, (wp_free _ _ _ _ Ho). apply good_same; [|done].
  apply (in_memory_free l g t i _ fp o); rewrite ?E; try done; [|by intros q [= <-]].
  intros j. by rewrite Hu.
Qed.

(** [fh[idx] = fp] *)
Lemma publishes id fp o p' :
  mem g !! fp = Some o -> f_lock o = Unlocked -> f_count o = 1 -> f_id o = id ->
  fh g !! Z.to_nat (HASH id) = Some (f_next o) ->
  pv p = Some fp -> pv p' = None -> hh p = true -> hh p' = true -> hf p' = hf p ->
  dying p = None -> dying p' = None ->
  status_of p = Pending (Alloc id) -> status_of p' = Answered (Alloc id) (Obj fp) ->
  (fp <> NULL -> forall g' t', knows p' g' t') ->
  wp (put_fh (HASH id) fp;;; goto p') good g.
Proof.
  intros Ho Hu Hc Hid Hf P1 P2 H1 H2 H3 D1 D2 S1 S2 K. destruct (at_p _ _ _ Hl) as [E Hi].
  destruct (private_in_memory _ _ _ _ R _ fp Hl P1) as [Nt Nn].
  apply wp_bind, (wp_put_fh _ _ _ _ _ Hf).
  apply (good_effect _ _ _ _ _ _ _ (Table ((fp, id) :: tab t) (<[fp := 1]> (cnt t))) (Alloc id) (Obj fp));
    try done; [|by constructor].
  subst id. apply (in_memory_publish l g t i _ (Some p') fp o R Hi E Ho); try done.
  intros q [= <-]. by apply K.
Qed.

(** The thread is about to take the object out of its chain. *)
Record removing (fp : addr) (p' : pc) : Prop := {
  m_in : fp ∈ (tab t).*1;
  m_last : cnt t !! fp = Some 1;
  m_guard : guards p fp;
  m_hash : hh p = true /\ hh p' = true;
  m_private : pv p = None /\ pv p' = Some fp;
  m_lock : hf p' = hf p;
  m_dying : dying p' = None /\ (dying p = None \/ dying p = Some fp);
  m_status : status_of p = Pending (Rele fp) /\ status_of p' = Answered (Rele fp) Void;
  m_knows g' t' o o' : mem g !! fp = Some o -> mem g' !! fp = Some o' -> f_lock o' = f_lock o ->
    knows p' g' t'
}.

Lemma removes fp p' m f :
  removing fp p' -> length f = Z.to_nat NHASH ->
  (forall y, set_next NULL <$> (m !! y) = set_next NULL <$> (mem g !! y)) ->
  (forall y, y ∉ (tab t).*1 -> m !! y = mem g !! y) ->
  (forall idx a, 0 <= idx -> f !! Z.to_nat idx = Some a -> linked m (bucket idx (drop_fp fp (tab t))) a) ->
  good (Some p') (Globals m f (hashlock g)).
Proof.
  intros Hr Hf Hm Hm' Hch. destruct (at_p _ _ _ Hl) as [E Hi]. pose proof (m_knows _ _ Hr) as K.
  destruct (r_live l g t fp 0 R (m_in _ _ Hr)) as (o & _ & Ho & _).
  pose proof (Hm fp) as Hf'. rewrite Ho in Hf'. destruct (m !! fp) as [o'|] eqn:Ho'; [|done].
  assert (Hu : f_lock o' = f_lock o) by (cbn in Hf'; by injection Hf').
  destruct Hr, m_hash0, m_private0, m_dying0, m_status0.
  apply (good_effect _ _ _ _ _ _ _ (Table (drop_fp fp (tab t)) (delete fp (cnt t))) (Rele fp) Void); try done.
  - apply (in_memory_cut l g t i p); try done. intros q [= <-]. by apply (K _ _ o o').
  - by constructor.
Qed.

(** [fh[idx] = fp->f_next] *)
Lemma cuts_head fp idx p' :
  removing fp p' -> obj g fp (fun o => idx = HASH (f_id o)) -> fh g !! Z.to_nat idx = Some fp ->
  wp (let* o := load fp in put_fh idx (f_next o);;; goto p') good g.
Proof.
  intros Hr K2 K3. destruct (chain_of _ _ _ R fp idx (m_in _ _ Hr) K2) as (a & Ha & Eh & Hin & L).
  assert (a = fp) as -> by congruence.
  pose proof K2 as (o & Ho & ->). apply wp_bind, (wp_load _ _ _ _ Ho), wp_bind, (wp_put_fh _ _ _ _ _ Ha).
  destruct (bucket _ (tab t)) as [|x l2] eqn:Eb; [by apply elem_of_nil in Hin|]. cbn in Eh. subst x.
  destruct L as [_ (o' & Ho' & L)]. assert (o' = o) as -> by congruence.
  apply (removes fp); try done.
  - rewrite length_insert. apply R.
  - intros ix c. apply (linked_fh l g t (mem g) (f_id o) (f_next o) _ (fun ix => bucket ix (drop_fp fp (tab t))));
      [done|..].
    + intros ix' c' H0 N Hc'. rewrite bucket_drop_other; [by apply (r_chain _ _ _ R)|].
      intros Hin'. apply N. apply (bucket_inj _ _ fp (tab t) (r_nodup _ _ _ R)); [|done]. rewrite Eb. left.
    + by rewrite (bucket_drop_split _ _ _ [] l2 (r_nodup _ _ _ R) Eb).
Qed.

(** [tfp->f_next = fp->f_next], [tfp] being the object before [fp] *)
Lemma cuts fp tfp p' :
  removing fp p' -> (exists idx l1 l2, 0 <= idx < NHASH /\ bucket idx (tab t) = l1 ++ tfp :: fp :: l2) ->
  wp (let* o := load fp in update tfp (set_next (f_next o));;; goto p') good g.
Proof.
  intros Hr (idx & l1 & l2 & H & Eb).
  destruct (r_live l g t fp 0 R (m_in _ _ Hr)) as (o & _ & Ho & _).
  assert (Ht : tfp ∈ bucket idx (tab t)) by (rewrite Eb; apply elem_of_app; right; left).
  pose proof (bucket_in _ _ _ Ht) as Htt. destruct (r_live l g t tfp 0 R Htt) as (ot & _ & Hot & _).
  apply wp_bind, (wp_load _ _ _ _ Ho), wp_bind, (wp_update _ _ _ _ _ Hot).
  assert (Eb' : bucket idx (tab t) = (l1 ++ [tfp]) ++ fp :: l2) by by rewrite <- app_assoc.
  apply (removes fp); try done.
  - apply R.
  - intros y. destruct (decide (y = tfp)) as [->|N]; [by rewrite lookup_insert_eq, Hot|].
    by rewrite lookup_insert_ne.
  - intros y Hy. rewrite lookup_insert_ne; [done|]. by intros <-.
  - intros ix c H0 Hc. pose proof (r_chain _ _ _ R ix c H0 Hc) as L. destruct (decide (ix = idx)) as [->|N].
    + rewrite (bucket_drop_split _ _ _ _ _ (r_nodup _ _ _ R) Eb'), <- app_assoc. rewrite Eb in L.
      apply (linked_cut _ _ _ fp _ _ ot o); try done. rewrite <- Eb. apply bucket_nodup, R.
    + rewrite bucket_drop_other.
      * apply linked_insert_other; [|done]. intros Hin. apply N. by apply (bucket_inj _ _ tfp (tab t) (r_nodup _ _ _ R)).
      * intros Hin. apply N. apply (bucket_inj _ _ fp (tab t) (r_nodup _ _ _ R)); [|done].
        rewrite Eb. apply elem_of_app. right. right. left.
Qed.

(** ** The walk to the object before [fp] *)

(** [tfp = fh[idx]; if (tfp == fp)] *)
Lemma walks_head fp idx p1 (p2 : addr -> pc) (Q : option pc -> globals -> Prop) :
  fp ∈ (tab t).*1 -> obj g fp (fun o => idx = HASH (f_id o)) ->
  (fh g !! Z.to_nat idx = Some fp -> Q (Some p1) g) ->
  (forall tfp, walked t fp tfp false -> Q (Some (p2 tfp)) g) ->
  wp (let* tfp := get_fh idx in goto (if tfp =? fp then p1 else p2 tfp)) Q g.
Proof.
  intros Hfp K2 H1 H2. destruct (chain_of _ _ _ R fp idx Hfp K2) as (a & Ha & Eh & Hin & L).
  apply wp_bind, (wp_get_fh _ _ _ _ Ha). destruct (Z.eqb_spec a fp) as [->|N]; [by apply H1|apply H2].
  destruct (bucket idx (tab t)) as [|x l2] eqn:Eb; [by apply elem_of_nil in Hin|].
  cbn in Eh. subst a. exists idx, [], l2. destruct K2 as (o & Ho & ->).
  split_and!; try apply HASH_range; try done. apply elem_of_cons in Hin as [->|Hin]; done.
Qed.

(** [while (tfp->f_next != fp)] *)
Lemma walks_test fp tfp p1 p2 (Q : option pc -> globals -> Prop) :
  walked t fp tfp false ->
  ((exists idx l1 l2, 0 <= idx < NHASH /\ bucket idx (tab t) = l1 ++ tfp :: fp :: l2) -> Q (Some p1) g) ->
  (walked t fp tfp true -> Q (Some p2) g) ->
  wp (let* o := load tfp in goto (if f_next o =? fp then p1 else p2)) Q g.
Proof.
  intros K H1 H2. destruct (walked_next _ _ _ R _ _ _ K) as (o & idx & l1 & l2 & Ho & H & Eb & Hin & Hn & _).
  apply wp_bind, (wp_load _ _ _ _ Ho). destruct (Z.eqb_spec (f_next o) fp) as [E'|N]; [apply H1|apply H2].
  - destruct l2 as [|y l2]; [by apply elem_of_nil in Hin|]. cbn in Hn. exists idx, l1, l2.
    split; [done|]. congruence.
  - exists idx, l1, l2. split_and!; try done; try apply H. intros _. congruence.
Qed.

(** [tfp = tfp->f_next] *)
Lemma walks_on fp tfp (p1 : addr -> pc) (Q : option pc -> globals -> Prop) :
  walked t fp tfp true -> (forall y, walked t fp y false -> Q (Some (p1 y)) g) ->
  wp (let* o := load tfp in goto (p1 (f_next o))) Q g.
Proof.
  intros K H1. destruct (walked_next _ _ _ R _ _ _ K) as (o & idx & l1 & l2 & Ho & H & Eb & Hin & Hn & Hne).
  apply wp_bind, (wp_load _ _ _ _ Ho). apply H1.
  destruct l2 as [|y l2]; [by apply elem_of_nil in Hin|]. cbn in Hn, Hne. subst y.
  exists idx, (l1 ++ [tfp]), l2. rewrite <- app_assoc. split_and!; try done; try apply H.
  apply elem_of_cons in Hin as [->|Hin]; [by destruct Hne|done].
Qed.

(** ** The search *)

(** [fp = fh[HASH(id)]] *)
Lemma finds_head id (p1 : addr -> pc) (Q : option pc -> globals -> Prop) :
  (forall a, searched t id a -> Q (Some (p1 a)) g) ->
  wp (let* a := get_fh (HASH id) in goto (p1 a)) Q g.
Proof.
  intros H. destruct (fh_lookup l g t id R) as [a Ha]. apply wp_bind, (wp_get_fh _ _ _ _ Ha). apply H.
  exists [], (filter (fun e => HASH e.2 = HASH id) (tab t)). split_and!; [done..|].
  by apply (r_chain _ _ _ R _ _ (proj1 (HASH_range id))), linked_head in Ha.
Qed.

(** [fp != NULL], [if (fp->f_id == id)] *)
Lemma finds_test id fp p1 p2 p3 (Q : option pc -> globals -> Prop) :
  searched t id fp ->
  (fp = NULL -> find_id id (tab t) = None -> Q (Some p1) g) ->
  (find_id id (tab t) = Some fp -> Q (Some p2) g) ->
  (fp ∈ (tab t).*1 -> (fp, id) ∉ tab t -> Q (Some p3) g) ->
  wp (if fp =? NULL then goto p1 else let* o := load fp in goto (if f_id o =? id then p2 else p3)) Q g.
Proof.
  intros (l1 & l2 & El & F & Efp) H1 H2 H3. destruct (find_at _ _ _ _ El F) as [Fi Fe].
  destruct l2 as [|[x n] l2]; cbn in Efp; subst fp; [by apply H1|].
  assert (Hx : (x, n) ∈ tab t) by (apply Fe; left).
  pose proof (list_elem_of_fmap_2 fst _ _ Hx) as Hx1. cbn in Hx1.
  rewrite (proj2 (Z.eqb_neq _ _)) by (intros ->; by apply (null_not_in _ _ _ R) in Hx1).
  destruct (r_obj _ _ _ R _ _ Hx) as (o & Ho & <- & _).
  apply wp_bind, (wp_load _ _ _ _ Ho). destruct (Z.eqb_spec (f_id o) id) as [<-|N].
  - apply H2. rewrite Fi. unfold find_id. by rewrite filter_cons, decide_True.
  - apply H3; [done|]. intros H. apply N. by apply (nodup_fst (tab t) x (f_id o) id (r_nodup _ _ _ R)).
Qed.

(** [fp = fp->f_next] *)
Lemma finds_next id fp (p1 : addr -> pc) (Q : option pc -> globals -> Prop) :
  searched t id fp -> fp ∈ (tab t).*1 -> (fp, id) ∉ tab t ->
  (forall a, searched t id a -> Q (Some (p1 a)) g) ->
  wp (let* o := load fp in goto (p1 (f_next o))) Q g.
Proof.
  intros (l1 & l2 & El & F & Efp) Hfp Nid H. destruct (find_at _ _ _ _ El F) as [_ Fe].
  destruct l2 as [|[x n] l2]; cbn in Efp; subst fp; [by apply (null_not_in _ _ _ R) in Hfp|].
  destruct (fh_lookup l g t id R) as [a Ha].
  pose proof (r_chain _ _ _ R (HASH id) a (proj1 (HASH_range id)) Ha) as L.
  unfold bucket in L. rewrite El, fmap_app in L. apply linked_next in L as (o & Ho & Hn).
  apply wp_bind, (wp_load _ _ _ _ Ho). apply H.
  exists (l1 ++ [(x, n)]), l2. rewrite <- app_assoc. split_and!; [done| |done].
  apply Forall_app. split; [done|]. apply list.Forall_cons. split; [|done]. cbn. intros ->.
  apply Nid, Fe. left.
Qed.
End actions.

(** A write of [foo_alloc] to a field of its object. *)
Ltac fills R Hl o Ho :=
  apply (writes_private _ _ _ _ _ _ R Hl _ o); try done; [by first [left; done|right]|by first [left; done|right]|written].
