(* ===== verification/RefProgram.v ===== *)
(** What a program for the reference-counted table has to show of its
    statements, and what follows for every run of any number of threads:
    atomicity, safety, absence of races, termination, no leaks.  The programs
    of apue.3e/threads are instances of [Implements]. *)
From Stdlib Require Import ZArith Lia.
From stdpp Require Import base list strings gmap gmultiset numbers.
From S2P Require Import Prelude Dll RefTable RefHeap RefSteps.
Local Open Scope c_scope.

(** The code of a thread: what it does at each statement, where an operation
    begins and ends, and what each statement reads and writes. *)
Class Program (pc : Type) := {
  code : nat -> world -> pc -> M globals (option pc);
  begins : op -> pc;
  ends : pc -> option (op * reply);
  accesses : pc -> list loc
}.

#[export] Instance program_code {pc} `{!Program pc} : Code pc globals := {|
  start := begins;
  done_with := ends;
  exec i p g p' g' := exists w, code i w p g = Ret (Some p') g'
|}.

(** The next statement and state, when the thread does not have to wait. *)
Definition next {pc} `{!Program pc} (i : nat) (w : world) (p : pc) (g : globals) : option (pc * globals) :=
  match code i w p g with Ret (Some p') g' => Some (p', g') | _ => None end.

Lemma next_exec {pc} `{!Program pc} i w p g p' g' : next i w p g = Some (p', g') -> exec i p g p' g'.
Proof.
  unfold next. intros H. exists w. destruct (code i w p g) as [[q|] h| | |]; try done. by simplify_eq.
Qed.

(** The run of a schedule from [n] idle threads. *)
Definition run_of {pc} `{!Program pc} (n : nat) (ms : list (move world)) : list label * sys pc globals :=
  default ([], idle 0 fh_static) (schedule next (idle n fh_static) ms).

Lemma run_of_runs {pc} `{!Program pc} n ms :
  schedule next (idle n fh_static) ms <> None ->
  runs (idle n fh_static) (run_of n ms).1 (run_of n ms).2.
Proof.
  unfold run_of. destruct (schedule _ _ ms) as [[tr s]|] eqn:E; [|done]. intros _.
  by apply (schedule_runs next next_exec ms).
Qed.

(** [malloc] fails. *)
Definition no_memory : world := World NULL (mk_foo 0 Uninit 0 0) 0.

Definition quiet_point {pc} `{!Points pc} (p : pc) : Prop :=
  hh p = false /\ hf p = None /\ pv p = None /\ dying p = None.

Class Implements (pc : Type) `{!Program pc} `{!Points pc} `{!Stable} := {
  status_of : pc -> stat;
  begins_ok o : status_of (begins o) = Pending o /\ quiet_point (begins o) /\
    forall g t, knows (begins o) g t;
  ends_ok p o r : ends p = Some (o, r) -> status_of p = Answered o r /\ quiet_point p;
  code_ok l i p g t b w :
    in_memory l g t -> counted (Sys t (stats status_of l) b) -> l !! i = Some (Some p) ->
    wp (code i w p) (good status_of l i p t) g;
  (** Only a mutex holds a thread up, and never one inside an object's. *)
  held_up i p g g' :
    code i no_memory p g = Ret None g' -> ends p = None ->
    hf p = None /\
    (hh p = false /\ (exists j, hashlock g = Locked j) \/
     exists fp o j, mem g !! fp = Some o /\ f_lock o = Locked j);
  access_protected l i p g t b x :
    in_memory l g t -> counted (Sys t (stats status_of l) b) -> l !! i = Some (Some p) ->
    x ∈ accesses p -> protected t p x;
  writes_accessed i w p g p' g' x v :
    code i w p g = Ret (Some p') g' -> peek x g = Some v -> x ∉ accesses p -> peek x g' = Some v;
  (** The objects of the table change only under [hashlock]. *)
  same_objects l i p g w p' g' t t' :
    hh p = false -> l !! i = Some (Some p) -> code i w p g = Ret (Some p') g' ->
    in_memory (<[i := Some p']> l) g' t' -> takes_effect (status_of p) t (status_of p') t' -> tab t' = tab t;
  (** Steps still to take with at most [n] objects. *)
  rank : nat -> table -> pc -> nat;
  rank_le n n' t p : (n' <= n)%nat -> (rank n' t p <= rank n t p)%nat;
  rank_other n t t' p : (hh p = true -> tab t' = tab t) -> rank n t' p = rank n t p;
  rank_answered n t t' p o r : status_of p = Answered o r -> rank n t' p = rank n t p;
  rank_own l i g t b w n n' p p' g' :
    in_memory l g t -> counted (Sys t (stats status_of l) b) ->
    l !! i = Some (Some p) -> code i w p g = Ret (Some p') g' ->
    (length (tab t) <= n)%nat -> (n' <= n)%nat -> (rank n' t p' < rank n t p)%nat
}.

Section implements.
Context {pc : Type} `{!Program pc} `{!Points pc} `{St : !Stable} `{!Implements pc}.

Lemma starts l i o g t :
  in_memory l g t -> l !! i = Some None -> in_memory (<[i := Some (begins o)]> l) g t.
Proof.
  intros R H. destruct (thread_some l i None H) as [E Hi].
  destruct (begins_ok o) as (_ & (A & B & D & F) & K).
  apply in_memory_quiet; rewrite ?E; try done. by intros p [= <-].
Qed.
Lemma returns l i p o r g t :
  in_memory l g t -> l !! i = Some (Some p) -> ends p = Some (o, r) ->
  in_memory (<[i := None]> l) g t.
Proof.
  intros R H (_ & A & B & D & F)%ends_ok. destruct (thread_some l i (Some p) H) as [E Hi].
  apply in_memory_quiet; rewrite ?E; try done.
Qed.
Lemma steps l i p g p' g' t b :
  in_memory l g t -> l !! i = Some (Some p) -> exec i p g p' g' ->
  counted (Sys t (stats status_of l) b) -> good status_of l i p t (Some p') g'.
Proof.
  intros R H [w E] C. pose proof (code_ok l i p g t b w R C H) as Hc.
  apply wp_run in Hc as (a & s & E' & G). rewrite E in E'. by injection E' as <- <-.
Qed.

#[export] Instance program_linearizable : Linearizable fh_static.
Proof.
  refine {| status := status_of; represents l g t := in_memory l g t |}.
  - intros o. apply begins_ok.
  - intros p o r H. by apply ends_ok in H as [? _].
  - intros n. apply in_memory_static.
  - intros. by apply starts.
  - intros. by eapply returns.
  - intros. by eapply steps.
Defined.

Lemma reached n tr (s : sys pc globals) :
  runs (idle n fh_static) tr s ->
  exists t, runs (idle n (Table [] ∅)) tr (atomic s t) /\ in_memory (threads s) (shared s) t /\
    counted (atomic s t).
Proof.
  intros H. destruct (linearizable n tr s H) as (t & A & B). exists t. split_and!; [done..|].
  by apply counted_runs in A.
Qed.

Lemma rank_step l i p g p' g' t b t' :
  in_memory l g t -> counted (Sys t (stats status_of l) b) -> l !! i = Some (Some p) -> exec i p g p' g' ->
  in_memory (<[i := Some p']> l) g' t' ->
  status_of p' = status_of p /\ t' = t \/ takes_effect (status_of p) t (status_of p') t' ->
  forall n n', (length (tab t) <= n)%nat -> (n' <= n)%nat -> (rank n' t' p' < rank n t p)%nat /\
    forall j q, j <> i -> l !! j = Some (Some q) -> (rank n' t' q <= rank n t q)%nat.
Proof.
  intros R C Hl [w H] R' T n n' Hn Hn'. split.
  - assert (E : rank n' t' p' = rank n' t p').
    { destruct T as [[_ ->]|T]; [done|]. inversion T as [o r ? ? A Eo]. by eapply rank_answered. }
    rewrite E. by apply (rank_own l i g t b w n n' p p' g').
  - intros j q Hj Hq. rewrite (rank_other n' t t'); [by apply rank_le|]. intros Hh.
    destruct T as [[_ ->]|T]; [done|]. apply (same_objects l i p g w p' g'); try done.
    destruct (hh p) eqn:Hp; [|done]. exfalso. apply Hj.
    by apply (protected_excl l j i q p g t (At_fh 0)).
Qed.

Lemma can_work (s : sys pc globals) t i p :
  in_memory (threads s) (shared s) t -> counted (atomic s t) -> threads s !! i = Some (Some p) ->
  exists s', works s s'.
Proof.
  intros R C Hi.
  assert (Step : forall j q, threads s !! j = Some (Some q) ->
    (exists s', works s s') \/ exists g', code j no_memory q (shared s) = Ret None g' /\ ends q = None).
  { intros j q Hq. destruct (ends q) as [[o r]|] eqn:D.
    { left. eexists. exists (Some (Returned j o r)). split; [by eapply step_return|done]. }
    pose proof (code_ok _ j q _ t _ no_memory R C Hq) as Hc. apply wp_run in Hc as (r & g' & E & _).
    destruct r as [q'|]; [left|right].
    - eexists. exists None. split; [|done]. apply (step_exec s j q q' g'); [done|]. by exists no_memory.
    - by exists g'. }
  assert (Fp : forall fp o j, mem (shared s) !! fp = Some o -> f_lock o = Locked j -> exists s', works s s').
  { intros fp o j Ho Hl. apply (r_lock _ _ _ R _ _ _ Ho) in Hl. unfold thread in Hl.
    destruct (threads s !! j) as [[q|]|] eqn:Hq; try done.
    destruct (Step j q Hq) as [?|(g' & E & D)]; [done|]. apply held_up in E as [E _]; [|done].
    cbn in Hl. congruence. }
  destruct (Step i p Hi) as [?|(g' & E & D)]; [done|].
  apply held_up in E as [_ [[_ [j Hj]]|(fp & o & j & Ho & Hl)]]; [|by eapply Fp|done].
  apply (r_hash _ _ _ R) in Hj. unfold thread in Hj. destruct (threads s !! j) as [[q|]|] eqn:Hq; try done.
  destruct (Step j q Hq) as [?|(g2 & E & D')]; [done|]. cbn in Hj.
  apply held_up in E as [_ [[E _]|(fp & o & k & Ho & Hl)]]; [congruence|by eapply Fp|done].
Qed.

(** ** What follows *)

Lemma program_atomic n tr (s : sys pc globals) :
  runs (idle n fh_static) tr s -> exists t, runs (idle n (Table [] ∅)) tr (atomic s t).
Proof. intros H. destruct (reached _ _ _ H) as (t & A & _). eauto. Qed.

Lemma program_safe n tr (s : sys pc globals) :
  runs (idle n fh_static) tr s ->
  forall i p, threads s !! i = Some (Some p) ->
    (forall w, exists r g', code i w p (shared s) = Ret r g' /\
       forall p' x v, r = Some p' -> peek x (shared s) = Some v -> x ∉ accesses p -> peek x g' = Some v) /\
    forall j q x, threads s !! j = Some (Some q) -> x ∈ accesses p -> x ∈ accesses q -> j = i.
Proof.
  intros H i p Hi. destruct (reached _ _ _ H) as (t & _ & R & C). split.
  - intros w. pose proof (code_ok _ i p _ t _ w R C Hi) as Hc. apply wp_run in Hc as (r & g' & E & _).
    exists r, g'. split; [done|]. intros p' x v -> Hv Hx. by apply (writes_accessed i w p (shared s) p').
  - intros j q x Hj Hp Hq. apply (protected_excl (threads s) j i q p (shared s) t x R Hj Hi);
      by eapply access_protected.
Qed.

Lemma program_completes n tr (s : sys pc globals) :
  runs (idle n fh_static) tr s ->
  exists K, forall k s', nsteps works k s s' ->
    (k <= K)%nat /\ ((exists s'', works s' s'') \/ all_idle s').
Proof.
  intros H. destruct (reached _ _ _ H) as (t & A & R & C). exists (work rank s t). intros k s' S.
  split; [by apply (works_bounded (Linearizable0 := program_linearizable) rank rank_step rank_le n tr s t k s')|].
  destruct (idle_or_not s') as [?|(i & p & Hp)]; [by right|left].
  destruct (works_reached _ _ _ _ _ _ H S) as [tr' H'].
  destruct (reached _ _ _ H') as (t' & _ & R' & C'). by apply (can_work s' t' i p).
Qed.

Lemma program_memory n tr (s : sys pc globals) :
  runs (idle n fh_static) tr s -> all_idle s ->
  hashlock (shared s) = Unlocked /\
  forall fp, match mem (shared s) !! fp with
             | Some o => f_lock o = Unlocked /\ 1 <= f_count o /\ f_count o = Z.of_nat (multiplicity fp (bag s))
             | None => multiplicity fp (bag s) = 0%nat
             end.
Proof.
  intros H I. destruct (reached _ _ _ H) as (t & _ & R & C).
  by apply (memory_idle _ _ t status_of (bag s) R).
Qed.
End implements.
