(* ===== verification/Mutex2.v ===== *)
(** apue.3e/threads/mutex2.c: a hash table of reference-counted objects under
    two kinds of mutex, one for the table and one in every object, run by any
    number of threads in any interleaving.  The code of each thread, statement
    by statement, and that it implements the atomic table of [RefTable]. *)
From Stdlib Require Import ZArith Lia.
From stdpp Require Import base list strings gmap gmultiset numbers.
From S2P Require Import Prelude Dll RefTable RefHeap RefSteps RefProgram.
Local Open Scope c_scope.

(** Who called [foo_hold]: a thread, or [foo_find]. *)
Inductive caller := Client | Finder (id : Z).

(** The statement a thread is about to execute, with its variables. *)
Inductive pc :=
(* foo_alloc *)
| A_malloc (id : Z) | A_count (id : Z) (fp : addr) | A_id (id : Z) (fp : addr)
| A_init (id : Z) (fp : addr) | A_free (id : Z) (fp : addr) | A_lockhash (id : Z) (fp : addr)
| A_next (id : Z) (fp : addr) | A_head (id : Z) (fp : addr) | A_lock (id : Z) (fp : addr)
| A_unlockhash (id : Z) (fp : addr) | A_unlock (id : Z) (fp : addr)
(* foo_hold *)
| H_lock (k : caller) (fp : addr) | H_incr (k : caller) (fp : addr) | H_unlock (k : caller) (fp : addr)
(* foo_find *)
| F_lockhash (id : Z) | F_head (id : Z) | F_test (id : Z) (fp : addr) | F_next (id : Z) (fp : addr)
| F_unlockhash (id : Z) (fp : addr)
(* foo_rele *)
| R_lock (fp : addr) | R_test (fp : addr)
| R_unlock1 (fp : addr) | R_lockhash (fp : addr) | R_lock2 (fp : addr) | R_recheck (fp : addr)
| R_decr2 (fp : addr) | R_unlock2 (fp : addr) | R_unlockhash2 (fp : addr)
| R_idx (fp : addr) | R_head (fp : addr) (idx : Z) | R_cuthead (fp : addr) (idx : Z)
| R_while (fp tfp : addr) | R_walk (fp tfp : addr) | R_cut (fp tfp : addr)
| R_unlockhash3 (fp : addr) | R_unlock3 (fp : addr) | R_destroy (fp : addr) | R_free (fp : addr)
| R_decr (fp : addr) | R_unlock (fp : addr)
(* the operation returns *)
| Done (o : op) (r : reply).

Definition start_pc (o : op) : pc :=
  match o with
  | Alloc id => A_malloc id
  | Hold fp => H_lock Client fp
  | Find id => F_lockhash id
  | Rele fp => R_lock fp
  end.

(** A step of thread [i] at each statement. *)
Definition foo_alloc_step (i : nat) (w : world) (p : pc) : M globals (option pc) :=
  match p with
  | A_malloc id =>
    let* r := malloc w in
    match r with
    | None => ret None
    | Some fp => goto (if fp =? NULL then Done (Alloc id) (Obj NULL) else A_count id fp)
    end
  | A_count id fp => update fp (set_count 1);;; goto (A_id id fp)
  | A_id id fp => update fp (set_id id);;; goto (A_init id fp)
  | A_init id fp =>
    let* e := mutex_init w fp in
    goto (if e =? 0 then A_lockhash id fp else A_free id fp)
  | A_free id fp => free fp;;; goto (Done (Alloc id) (Obj NULL))
  | A_lockhash id fp => lock_hash i (A_next id fp)
  | A_next id fp =>
    let* a := get_fh (HASH id) in
    update fp (set_next a);;; goto (A_head id fp)
  | A_head id fp => put_fh (HASH id) fp;;; goto (A_lock id fp)
  | A_lock id fp => lock_fp i fp (A_unlockhash id fp)
  | A_unlockhash id fp => unlock_hash i (A_unlock id fp)
  | A_unlock id fp => unlock_fp i fp (Done (Alloc id) (Obj fp))
  | _ => ret None
  end.

Definition foo_hold_step (i : nat) (p : pc) : M globals (option pc) :=
  match p with
  | H_lock k fp => lock_fp i fp (H_incr k fp)
  | H_incr k fp => incr fp 1;;; goto (H_unlock k fp)
  | H_unlock k fp =>
    unlock_fp i fp (match k with Client => Done (Hold fp) Void | Finder id => F_unlockhash id fp end)
  | _ => ret None
  end.

Definition foo_find_step (i : nat) (p : pc) : M globals (option pc) :=
  match p with
  | F_lockhash id => lock_hash i (F_head id)
  | F_head id => let* a := get_fh (HASH id) in goto (F_test id a)
  | F_test id fp =>
    if fp =? NULL then goto (F_unlockhash id fp)
    else
      let* o := load fp in
      goto (if f_id o =? id then H_lock (Finder id) fp else F_next id fp)
  | F_next id fp => let* o := load fp in goto (F_test id (f_next o))
  | F_unlockhash id fp => unlock_hash i (Done (Find id) (Obj fp))
  | _ => ret None
  end.

Definition foo_rele_step (i : nat) (p : pc) : M globals (option pc) :=
  match p with
  | R_lock fp => lock_fp i fp (R_test fp)
  | R_test fp => let* o := load fp in goto (if f_count o =? 1 then R_unlock1 fp else R_decr fp)
  | R_unlock1 fp => unlock_fp i fp (R_lockhash fp)
  | R_lockhash fp => lock_hash i (R_lock2 fp)
  | R_lock2 fp => lock_fp i fp (R_recheck fp)
  | R_recheck fp => let* o := load fp in goto (if f_count o =? 1 then R_idx fp else R_decr2 fp)
  | R_decr2 fp => incr fp (-1);;; goto (R_unlock2 fp)
  | R_unlock2 fp => unlock_fp i fp (R_unlockhash2 fp)
  | R_unlockhash2 fp => unlock_hash i (Done (Rele fp) Void)
  | R_idx fp => let* o := load fp in goto (R_head fp (HASH (f_id o)))
  | R_head fp idx =>
    let* tfp := get_fh idx in
    goto (if tfp =? fp then R_cuthead fp idx else R_while fp tfp)
  | R_cuthead fp idx =>
    let* o := load fp in
    put_fh idx (f_next o);;; goto (R_unlockhash3 fp)
  | R_while fp tfp =>
    let* o := load tfp in goto (if f_next o =? fp then R_cut fp tfp else R_walk fp tfp)
  | R_walk fp tfp => let* o := load tfp in goto (R_while fp (f_next o))
  | R_cut fp tfp =>
    let* o := load fp in
    update tfp (set_next (f_next o));;; goto (R_unlockhash3 fp)
  | R_unlockhash3 fp => unlock_hash i (R_unlock3 fp)
  | R_unlock3 fp => unlock_fp i fp (R_destroy fp)
  | R_destroy fp => mutex_destroy fp;;; goto (R_free fp)
  | R_free fp => free fp;;; goto (Done (Rele fp) Void)
  | R_decr fp => incr fp (-1);;; goto (R_unlock fp)
  | R_unlock fp => unlock_fp i fp (Done (Rele fp) Void)
  | _ => ret None
  end.

Definition thread_step (i : nat) (w : world) (p : pc) : M globals (option pc) :=
  match p with
  | A_malloc _ | A_count _ _ | A_id _ _ | A_init _ _ | A_free _ _ | A_lockhash _ _ | A_next _ _
  | A_head _ _ | A_lock _ _ | A_unlockhash _ _ | A_unlock _ _ => foo_alloc_step i w p
  | H_lock _ _ | H_incr _ _ | H_unlock _ _ => foo_hold_step i p
  | F_lockhash _ | F_head _ | F_test _ _ | F_next _ _ | F_unlockhash _ _ => foo_find_step i p
  | Done _ _ => ret None
  | _ => foo_rele_step i p
  end.

(** The memory each statement reads or writes, mutexes apart. *)
Definition touches (p : pc) : list loc :=
  match p with
  | A_count _ fp | H_incr _ fp | R_test fp | R_recheck fp | R_decr fp | R_decr2 fp => [At_count fp]
  | A_id _ fp | R_idx fp => [At_id fp]
  | A_free _ fp | R_free fp => [At_count fp; At_id fp; At_next fp]
  | A_next id fp => [At_fh (Z.to_nat (HASH id)); At_next fp]
  | A_head id _ | F_head id => [At_fh (Z.to_nat (HASH id))]
  | F_test _ fp => if fp =? NULL then [] else [At_id fp]
  | F_next _ fp => [At_next fp]
  | R_head _ idx => [At_fh (Z.to_nat idx)]
  | R_cuthead fp idx => [At_next fp; At_fh (Z.to_nat idx)]
  | R_while _ tfp | R_walk _ tfp => [At_next tfp]
  | R_cut fp tfp => [At_next fp; At_next tfp]
  | _ => []
  end.

#[export] Instance mutex2_program : Program pc := {|
  code := thread_step;
  begins := start_pc;
  ends p := match p with Done o r => Some (o, r) | _ => None end;
  accesses := touches
|}.

(** * The table it implements *)

Definition caller_op (k : caller) (fp : addr) : op :=
  match k with Client => Hold fp | Finder id => Find id end.

(** Where each operation has taken effect: [foo_alloc] and the last
    [foo_rele] when the chain changes, the others when they count, or when
    the search has come to the end. *)
Definition status (p : pc) : stat :=
  match p with
  | A_malloc id | A_count id _ | A_id id _ | A_init id _ | A_lockhash id _ | A_next id _
  | A_head id _ => Pending (Alloc id)
  | A_free id _ => Answered (Alloc id) (Obj NULL)
  | A_lock id fp | A_unlockhash id fp | A_unlock id fp => Answered (Alloc id) (Obj fp)
  | H_lock k fp | H_incr k fp => Pending (caller_op k fp)
  | H_unlock Client fp => Answered (Hold fp) Void
  | H_unlock (Finder id) fp => Answered (Find id) (Obj fp)
  | F_lockhash id | F_head id | F_test id _ | F_next id _ => Pending (Find id)
  | F_unlockhash id fp => Answered (Find id) (Obj fp)
  | R_lock fp | R_test fp | R_unlock1 fp | R_lockhash fp | R_lock2 fp | R_recheck fp | R_decr2 fp
  | R_idx fp | R_head fp _ | R_cuthead fp _ | R_while fp _ | R_walk fp _ | R_cut fp _
  | R_decr fp => Pending (Rele fp)
  | R_unlock2 fp | R_unlockhash2 fp | R_unlockhash3 fp | R_unlock3 fp | R_destroy fp | R_free fp
  | R_unlock fp => Answered (Rele fp) Void
  | Done o r => Answered o r
  end.

(** Between locking [hashlock] and unlocking it. *)
Definition holds_hash (p : pc) : bool :=
  match p with
  | A_next _ _ | A_head _ _ | A_lock _ _ | A_unlockhash _ _
  | F_head _ | F_test _ _ | F_next _ _ | F_unlockhash _ _
  | H_lock (Finder _) _ | H_incr (Finder _) _ | H_unlock (Finder _) _
  | R_lock2 _ | R_recheck _ | R_decr2 _ | R_unlock2 _ | R_unlockhash2 _ | R_idx _ | R_head _ _
  | R_cuthead _ _ | R_while _ _ | R_walk _ _ | R_cut _ _ | R_unlockhash3 _ => true
  | _ => false
  end.

(** Between locking the [f_lock] of an object and unlocking it. *)
Definition holds_fp (p : pc) : option addr :=
  match p with
  | A_unlockhash _ fp | A_unlock _ fp | H_incr _ fp | H_unlock _ fp | R_test fp | R_unlock1 fp
  | R_recheck fp | R_decr2 fp | R_unlock2 fp | R_idx fp | R_head fp _ | R_cuthead fp _
  | R_while fp _ | R_walk fp _ | R_cut fp _ | R_unlockhash3 fp | R_unlock3 fp | R_decr fp
  | R_unlock fp => Some fp
  | _ => None
  end.

(** An object that is not in the table yet, or no longer. *)
Definition private (p : pc) : option addr :=
  match p with
  | A_count _ fp | A_id _ fp | A_init _ fp | A_free _ fp | A_lockhash _ fp | A_next _ fp | A_head _ fp
  | R_unlockhash3 fp | R_unlock3 fp | R_destroy fp | R_free fp => Some fp
  | _ => None
  end.

Definition knows_of (p : pc) (g : globals) (t : table) : Prop :=
  match p with
  | A_count id fp | A_free id fp => obj g fp (fun o => f_lock o = Uninit)
  | A_id id fp => obj g fp (fun o => f_lock o = Uninit /\ f_count o = 1)
  | A_init id fp => obj g fp (fun o => f_lock o = Uninit /\ f_count o = 1 /\ f_id o = id)
  | A_lockhash id fp | A_next id fp =>
    obj g fp (fun o => f_lock o = Unlocked /\ f_count o = 1 /\ f_id o = id)
  | A_head id fp =>
    obj g fp (fun o => f_lock o = Unlocked /\ f_count o = 1 /\ f_id o = id /\
      fh g !! Z.to_nat (HASH id) = Some (f_next o))
  | A_lock id fp | A_unlockhash id fp | A_unlock id fp => fp <> NULL
  | F_test id fp => searched t id fp
  | F_next id fp => searched t id fp /\ (fp ∈ (tab t).*1) /\ ((fp, id) ∉ tab t)
  | H_lock (Finder id) fp | H_incr (Finder id) fp => find_id id (tab t) = Some fp
  | R_decr fp | R_decr2 fp => entry g t fp (fun o => f_count o <> 1)
  | R_idx fp => entry g t fp (fun o => f_count o = 1)
  | R_head fp idx => entry g t fp (fun o => f_count o = 1) /\ obj g fp (fun o => idx = HASH (f_id o))
  | R_cuthead fp idx =>
    entry g t fp (fun o => f_count o = 1) /\ obj g fp (fun o => idx = HASH (f_id o)) /\
    fh g !! Z.to_nat idx = Some fp
  | R_while fp tfp => entry g t fp (fun o => f_count o = 1) /\ walked t fp tfp false
  | R_walk fp tfp => entry g t fp (fun o => f_count o = 1) /\ walked t fp tfp true
  | R_cut fp tfp =>
    entry g t fp (fun o => f_count o = 1) /\
    exists idx l1 l2, 0 <= idx < NHASH /\ bucket idx (tab t) = l1 ++ tfp :: fp :: l2
  | H_unlock _ fp | R_unlock2 fp | R_unlock fp => entry g t fp (fun _ => True)
  | R_destroy fp => obj g fp (fun o => f_lock o = Unlocked)
  | R_free fp => obj g fp (fun o => f_lock o = Uninit)
  | _ => True
  end.

#[export] Instance mutex2_points : Points pc := {|
  hh := holds_hash; hf := holds_fp; pv := private; dying _ := None;
  count_by_hash := false; knows := knows_of
|}.

Lemma obj_private p g t g' t' fp P :
  kept p g t g' t' -> pv p = Some fp -> obj g fp P -> obj g' fp P.
Proof. intros K E (o & Ho & H). exists o. by rewrite (k_private _ _ _ _ _ K _ E). Qed.

Lemma entry_kept p g t g' t' fp (P : Z -> Prop) :
  kept p g t g' t' -> holds_fp p = Some fp ->
  entry g t fp (fun o => P (f_count o)) -> entry g' t' fp (fun o => P (f_count o)).
Proof.
  intros K E (Hfp & o & Ho & H). destruct (k_count _ _ _ _ _ K fp o E Hfp Ho) as (A & _ & o' & B & C).
  split; [done|]. exists o'. by rewrite C.
Qed.

Lemma obj_id_kept p g t g' t' fp (P : Z -> Prop) :
  kept p g t g' t' -> holds_hash p = true -> fp ∈ (tab t).*1 ->
  obj g fp (fun o => P (f_id o)) -> obj g' fp (fun o => P (f_id o)).
Proof.
  intros K E Hfp (o & Ho & H). destruct (k_chain _ _ _ _ _ K E) as (_ & _ & C).
  destruct (C fp o Hfp Ho) as (o' & A & _ & B). exists o'. by rewrite B.
Qed.

#[export] Instance mutex2_stable : Stable.
Proof.
  intros p g t g' t' K. cbn [knows mutex2_points].
  assert (Ch : holds_hash p = true -> fh g' = fh g /\ tab t' = tab t)
    by (intros E; by destruct (k_chain _ _ _ _ _ K E) as (? & ? & _)).
  destruct p as [| | | | | | | | | | |[|id] fp|[|id] fp| | | | | | | | | | | | | | | | | | | | | | | | | | | |]; cbn [knows_of]; try done;
    try (by apply (obj_private _ _ _ _ _ _ _ K));
    try (destruct Ch as [Cf Ct]; [done|]; unfold searched, walked; rewrite ?Cf, ?Ct; try done).
  all: try (by apply (entry_kept _ _ _ _ _ _ (fun c => c <> 1) K)).
  all: try (by apply (entry_kept _ _ _ _ _ _ (fun c => c = 1) K)).
  all: try (by apply (entry_kept _ _ _ _ _ _ (fun _ => True) K)).
  all: try (intros [H1 H2]; split; [by apply (entry_kept _ _ _ _ _ _ (fun c => c = 1) K)|done]).
  - by apply (obj_private _ _ _ _ _ _ _ K).
  - intros [H1 H2]. split; [by apply (entry_kept _ _ _ _ _ _ (fun c => c = 1) K)|].
    by apply (obj_id_kept _ _ _ _ _ _ (fun n => idx = HASH n) K); [| apply H1|].
  - intros (H1 & H2 & H3). split_and!; [by apply (entry_kept _ _ _ _ _ _ (fun c => c = 1) K)| |done].
    by apply (obj_id_kept _ _ _ _ _ _ (fun n => idx = HASH n) K); [| apply H1|].
Qed.

Abbreviation good := (RefSteps.good status).

Section operations.
Variables (l : list (option pc)) (i : nat) (g : globals) (t : table) (b : gmultiset addr) (w : world).
Hypothesis R : in_memory l g t.
Hypothesis C : counted (Sys t (stats status l) b).

(** An object of the table, with its count. *)
Lemma object fp :
  fp ∈ (tab t).*1 ->
  exists o, mem g !! fp = Some o /\ (fp, f_id o) ∈ tab t /\ f_lock o <> Uninit /\
    cnt t !! fp = Some (f_count o) /\ 1 <= f_count o.
Proof.
  intros Hfp. destruct (object_of _ _ _ _ _ R C fp Hfp) as (o & n & Ho & Hid & Hu & Hn & H1 & Hc).
  exists o. rewrite Hc; [done|]. intros j. by destruct (thread l j).
Qed.

Lemma alloc_malloc id :
  l !! i = Some (Some (A_malloc id)) -> wp (thread_step i w (A_malloc id)) (good l i (A_malloc id) t) g.
Proof.
  intros Hl. apply (mallocs status l i _ g t R Hl w id (A_count id)); try done.
  intros fp o Ho. written.
Qed.

Lemma alloc_fields id fp p :
  p = A_count id fp \/ p = A_id id fp \/ p = A_init id fp \/ p = A_next id fp ->
  l !! i = Some (Some p) -> wp (thread_step i w p) (good l i p t) g.
Proof.
  intros Hp Hl. destruct (at_p _ _ _ Hl) as [E Hi].
  pose proof (r_knows _ _ _ R _ _ E) as K. cbn in K.
  destruct Hp as [-> |[-> |[-> | ->]]]; destruct K as (o & Ho & K).
  - apply wp_bind, (wp_update _ _ _ _ _ Ho). fills R Hl o Ho.
  - destruct K as [K1 K2]. apply wp_bind, (wp_update _ _ _ _ _ Ho).
    fills R Hl o Ho.
  - destruct K as (K1 & K2 & K3). apply wp_bind, (wp_mutex_init _ _ _ _ _ Ho).
    + intros Hw. rewrite (proj2 (Z.eqb_neq _ _) Hw).
      apply (good_effect _ _ _ _ _ _ _ t (Alloc id) (Obj NULL)); try done.
      apply in_memory_quiet; rewrite ?E; try done. intros q [= <-]. by exists o.
    + fills R Hl o Ho.
  - destruct K as (K1 & K2 & K3). destruct (fh_lookup l g t id R) as [a Ha].
    apply wp_bind, (wp_get_fh _ _ _ _ Ha), wp_bind, (wp_update _ _ _ _ _ Ho).
    fills R Hl o Ho.
Qed.

Lemma alloc_free id fp :
  l !! i = Some (Some (A_free id fp)) -> wp (thread_step i w (A_free id fp)) (good l i (A_free id fp) t) g.
Proof.
  intros Hl. destruct (at_p _ _ _ Hl) as [E _]. pose proof (r_knows _ _ _ R _ _ E) as (o & Ho & K).
  by apply (frees status l i _ g t R Hl fp o).
Qed.

Lemma alloc_publish id fp :
  l !! i = Some (Some (A_head id fp)) -> wp (thread_step i w (A_head id fp)) (good l i (A_head id fp) t) g.
Proof.
  intros Hl. destruct (at_p _ _ _ Hl) as [E _].
  pose proof (r_knows _ _ _ R _ _ E) as (o & Ho & K1 & K2 & K3 & K4).
  by apply (publishes status l i _ g t R Hl id fp o).
Qed.

Lemma gave_object id fp : fp <> NULL -> fp ∈ gives (Alloc id) (Obj fp).
Proof. intros N. cbn. rewrite (proj2 (Z.eqb_neq _ _) N). multiset_solver. Qed.

(** ** foo_hold *)

(** The object whose count is to grow. *)
Lemma hold_object k fp p :
  p = H_lock k fp \/ p = H_incr k fp -> l !! i = Some (Some p) -> fp ∈ (tab t).*1.
Proof.
  intros Hp Hl. destruct (at_p _ _ _ Hl) as [E _]. pose proof (r_knows _ _ _ R _ _ E) as K.
  destruct k as [|id].
  - apply (owned_in_table _ _ _ _ _ _ Hl C). destruct Hp as [-> | ->]; cbn; multiset_solver.
  - assert (F : find_id id (tab t) = Some fp) by by destruct Hp as [-> | ->].
    apply find_id_elem in F. by apply (list_elem_of_fmap_2 fst) in F.
Qed.

Lemma hold_incr k fp :
  l !! i = Some (Some (H_incr k fp)) -> wp (thread_step i w (H_incr k fp)) (good l i (H_incr k fp) t) g.
Proof.
  intros Hl. destruct (at_p _ _ _ Hl) as [E Hi]. pose proof (r_knows _ _ _ R _ _ E) as K.
  assert (Hfp : fp ∈ (tab t).*1) by (apply (hold_object k fp (H_incr k fp)); [by right|done]).
  destruct (object _ Hfp) as (o & Ho & _ & Hu & Hc & H1).
  destruct (counted_room _ i (caller_op k fp) fp (f_count o) C) as [_ H2];
    [exact (stats_lookup status _ _ (Some (H_incr k fp)) Hl)|done|].
  apply wp_bind, (wp_incr _ _ _ _ _ Ho); [lia|].
  set (t' := Table (tab t) (<[fp := f_count o + 1]> (cnt t))).
  assert (I : in_memory (<[i := Some (H_unlock k fp)]> l)
    (set_mem (<[fp := set_count (f_count o + 1) o]> (mem g)) g) t').
  { apply (in_memory_count l g t i (H_incr k fp)); rewrite ?E; try done.
    - intros y Ny. by rewrite lookup_insert_ne.
    - right. by rewrite lookup_insert_eq.
    - intros q [= <-]. split; [done|written]. }
  destruct k as [|id].
  - by apply (good_effect _ _ _ _ _ _ _ t' (Hold fp) Void); [..|constructor].
  - by apply (good_effect _ _ _ _ _ _ _ t' (Find id) (Obj fp)); [..|constructor].
Qed.

(** ** foo_find *)

Lemma find_test id fp :
  l !! i = Some (Some (F_test id fp)) -> wp (thread_step i w (F_test id fp)) (good l i (F_test id fp) t) g.
Proof.
  intros Hl. destruct (at_p _ _ _ Hl) as [E Hi]. pose proof (r_knows _ _ _ R _ _ E) as K.
  apply (finds_test _ _ _ R _ _ _ _ _ _ K).
  - intros -> Hn. apply (good_effect _ _ _ _ _ _ _ t (Find id) (Obj NULL)); try done; [|by constructor].
    apply in_memory_quiet; rewrite ?E; try done. by intros q [= <-].
  - intros Hf. by apply (quiet _ _ _ _ _ _ R Hl).
  - intros Hfp Hn. by apply (quiet _ _ _ _ _ _ R Hl).
Qed.

Lemma find_next id fp :
  l !! i = Some (Some (F_next id fp)) -> wp (thread_step i w (F_next id fp)) (good l i (F_next id fp) t) g.
Proof.
  intros Hl. destruct (at_p _ _ _ Hl) as [E _]. pose proof (r_knows _ _ _ R _ _ E) as (K1 & K2 & K3).
  apply (finds_next _ _ _ R id fp (F_test id) _ K1 K2 K3).
  intros a Ha. by apply (quiet _ _ _ _ _ _ R Hl).
Qed.

(** ** foo_rele *)

Lemma rele_object fp p :
  l !! i = Some (Some p) -> status p = Pending (Rele fp) -> fp ∈ (tab t).*1.
Proof.
  intros Hl E. apply (owned_in_table _ _ _ _ _ _ Hl C). rewrite E. cbn. multiset_solver.
Qed.

Lemma rele_tests fp p :
  p = R_test fp \/ p = R_recheck fp -> l !! i = Some (Some p) -> wp (thread_step i w p) (good l i p t) g.
Proof.
  intros Hp Hl. assert (Hfp : fp ∈ (tab t).*1).
  { apply (rele_object fp p Hl). by destruct Hp as [-> | ->]. }
  destruct (object _ Hfp) as (o & Ho & _ & _ & _ & _).
  destruct Hp as [-> | ->]; apply wp_bind, (wp_load _ _ _ _ Ho);
    destruct (Z.eqb_spec (f_count o) 1); apply (quiet _ _ _ _ _ _ R Hl); try done;
    by (split; [|exists o]).
Qed.

Lemma rele_decr fp p :
  p = R_decr fp \/ p = R_decr2 fp -> l !! i = Some (Some p) -> wp (thread_step i w p) (good l i p t) g.
Proof.
  intros Hp Hl. destruct (at_p _ _ _ Hl) as [E Hi]. pose proof (r_knows _ _ _ R _ _ E) as K.
  assert (K' : entry g t fp (fun o => f_count o <> 1)) by (by destruct Hp as [-> | ->]).
  clear K. destruct K' as (Hfp & o & Ho & H1).
  destruct (object _ Hfp) as (o' & Ho' & _ & Hu & Hc & H2). simplify_eq.
  assert (Hmax : f_count o <= INT_MAX) by by apply (counted_max _ fp _ C).
  set (t' := Table (tab t) (<[fp := f_count o - 1]> (cnt t))).
  assert (A : answers (Rele fp) t Void t') by (by constructor).
  destruct Hp as [-> | ->]; apply wp_bind, (wp_incr _ _ _ _ _ Ho); try lia;
    refine (good_effect _ _ _ _ _ _ _ t' (Rele fp) Void _ _ _ A); try done;
    (eapply (in_memory_count l g t i _ _ fp o); [done..| | | | | | | |]; rewrite ?E; try done;
     [intros y Ny; by rewrite lookup_insert_ne|right; by rewrite lookup_insert_eq|intros q [= <-]; split; [done|written]]).
Qed.

Lemma rele_idx fp :
  l !! i = Some (Some (R_idx fp)) -> wp (thread_step i w (R_idx fp)) (good l i (R_idx fp) t) g.
Proof.
  intros Hl. destruct (at_p _ _ _ Hl) as [E Hi]. pose proof (r_knows _ _ _ R _ _ E) as K.
  pose proof K as (_ & o & Ho & _). apply wp_bind, (wp_load _ _ _ _ Ho).
  apply (quiet _ _ _ _ _ _ R Hl); try done. split; [done|]. by exists o.
Qed.

Lemma rele_walks fp p :
  (exists idx, p = R_head fp idx) \/ (exists tfp, p = R_while fp tfp \/ p = R_walk fp tfp) ->
  l !! i = Some (Some p) -> wp (thread_step i w p) (good l i p t) g.
Proof.
  intros Hp Hl. destruct (at_p _ _ _ Hl) as [E _]. pose proof (r_knows _ _ _ R _ _ E) as K.
  destruct Hp as [[idx ->]|[tfp [-> | ->]]]; destruct K as [K1 K2].
  - apply (walks_head _ _ _ R fp idx _ (R_while fp) _ (proj1 K1) K2);
      [intros Hf|intros tfp Ht]; by apply (quiet _ _ _ _ _ _ R Hl).
  - apply (walks_test _ _ _ R _ _ _ _ _ K2); intros Ht; by apply (quiet _ _ _ _ _ _ R Hl).
  - apply (walks_on _ _ _ R _ _ (R_while fp) _ K2). intros y Hy. by apply (quiet _ _ _ _ _ _ R Hl).
Qed.

Lemma rele_cuts fp p :
  (exists idx, p = R_cuthead fp idx) \/ (exists tfp, p = R_cut fp tfp) ->
  l !! i = Some (Some p) -> wp (thread_step i w p) (good l i p t) g.
Proof.
  intros Hp Hl. destruct (at_p _ _ _ Hl) as [E _]. pose proof (r_knows _ _ _ R _ _ E) as K.
  assert (K1 : entry g t fp (fun o => f_count o = 1)) by (by destruct Hp as [[? ->]|[? ->]]; apply K).
  assert (Hr : removing status p g t fp (R_unlockhash3 fp)).
  { destruct K1 as (Hfp & o & Ho & Hc). destruct (object _ Hfp) as (o' & Ho' & _ & _ & Hn & _). simplify_eq.
    rewrite Hc in Hn. destruct Hp as [[? ->]|[? ->]]; constructor; try done; split; try done; by left. }
  destruct Hp as [[idx ->]|[tfp ->]]; destruct K as [_ K].
  - apply (cuts_head status l i _ g t R Hl fp idx _ Hr); apply K.
  - by apply (cuts status l i _ g t R Hl fp tfp _ Hr).
Qed.

Lemma rele_frees fp p :
  p = R_destroy fp \/ p = R_free fp -> l !! i = Some (Some p) -> wp (thread_step i w p) (good l i p t) g.
Proof.
  intros Hp Hl. destruct (at_p _ _ _ Hl) as [E _]. pose proof (r_knows _ _ _ R _ _ E) as K.
  destruct Hp as [-> | ->]; destruct K as (o & Ho & K).
  - apply wp_bind, (wp_mutex_destroy _ _ _ _ Ho); [done|].
    apply (writes_private _ _ _ _ _ _ R Hl _ o); try done; [by right|by left|]. written.
  - by apply (frees status l i _ g t R Hl fp o).
Qed.

(** The mutex calls. *)
Lemma mutex_calls p :
  l !! i = Some (Some p) ->
  match p with
  | A_lockhash _ _ | A_lock _ _ | A_unlockhash _ _ | A_unlock _ _ | H_lock _ _ | H_unlock _ _
  | F_lockhash _ | F_head _ | F_unlockhash _ _ | R_lock _ | R_unlock1 _ | R_lockhash _ | R_lock2 _ | R_unlock2 _
  | R_unlockhash2 _ | R_unlockhash3 _ | R_unlock3 _ | R_unlock _ => wp (thread_step i w p) (good l i p t) g
  | _ => True
  end.
Proof.
  intros Hl. destruct (at_p _ _ _ Hl) as [E _]. pose proof (r_knows _ _ _ R _ _ E) as K.
  pose proof (fun fp => owned_in_table _ _ _ _ _ _ Hl C fp) as L.
  destruct p as [| | | | | | | |id fp| |id fp|k fp| |[|id] fp|id|id| | | | | | | | | | | | | | | | | | | | | | | | |];
    try done; try (by apply (locks_hash _ _ _ _ _ _ R Hl)); try (by apply (unlocks_hash _ _ _ _ _ _ R Hl)).
  all: try (apply (locks_fp _ _ _ _ _ _ _ R Hl C); try done; apply L; cbn; multiset_solver).
  all: try (apply (unlocks_fp _ _ _ _ _ _ R Hl); try done; left; apply L; cbn; multiset_solver).
  all: try (apply (unlocks_fp _ _ _ _ _ _ R Hl); try done; left; apply K).
  - apply (locks_fp _ _ _ _ _ _ _ R Hl C); try done. by apply L, gave_object.
  - apply (unlocks_fp _ _ _ _ _ _ R Hl); try done. left. by apply L, gave_object.
  - apply (locks_fp _ _ _ _ _ _ _ R Hl C); try done.
    by apply (hold_object k fp (H_lock k fp)); [left|].
  - apply (finds_head _ _ _ R id (F_test id)). intros a Ha. by apply (quiet _ _ _ _ _ _ R Hl).
  - apply (unlocks_fp _ _ _ _ _ _ R Hl); try done; [by right|]. intros o Ho. written.
Qed.

(** Every step is defined, and keeps the invariant or implements the table. *)
Lemma thread_ok p : l !! i = Some (Some p) -> wp (thread_step i w p) (good l i p t) g.
Proof.
  intros Hl. pose proof (mutex_calls p Hl) as Hm.
  destruct p; try exact Hm; try done; clear Hm.
  all: first
    [ by apply alloc_malloc | by apply alloc_free | by apply alloc_publish
    | by eapply alloc_fields; [eauto 6|] | by apply hold_incr | by apply find_test | by apply find_next
    | by eapply rele_tests; [eauto|] | by eapply rele_decr; [eauto|] | by apply rele_idx
    | by eapply rele_walks; [eauto|] | by eapply rele_cuts; [eauto|] | by eapply rele_frees; [eauto|] ].
Qed.
End operations.

(** A step is held up only by [malloc] choosing an address in use (which it
    does not) or by a mutex, and never inside an object's mutex. *)
Lemma waits i p g g' :
  thread_step i no_memory p g = Ret None g' -> ends p = None ->
  holds_fp p = None /\
  (holds_hash p = false /\ (exists j, hashlock g = Locked j) \/
   exists fp o j, mem g !! fp = Some o /\ f_lock o = Locked j).
Proof.
  intros H D.
  destruct p; cbn [thread_step foo_alloc_step foo_hold_step foo_find_step foo_rele_step] in H; try done;
    try (split; [done|]; right; by eapply lock_fp_waits); try (split; [done|]; left; split; [done|]; by eapply lock_hash_waits).
  all: never_waits H.
Qed.

(** ** Races *)

Lemma touches_protected l i p g t b x :
  in_memory l g t -> counted (Sys t (stats status l) b) -> l !! i = Some (Some p) ->
  x ∈ accesses p -> protected t p x.
Proof.
  intros R C Hl. destruct (at_p _ _ _ Hl) as [E _]. pose proof (r_knows _ _ _ R _ _ E) as K.
  assert (Lr : forall fp, status p = Pending (Rele fp) -> fp ∈ (tab t).*1)
    by (intros fp; by apply (rele_object l i g t b R C)).
  destruct p; cbn [accesses mutex2_program touches]; rewrite ?elem_of_cons, ?elem_of_nil; try tauto;
    try (intros [-> |[-> | []]]; cbn; by auto); try (intros [-> | []]; cbn; by auto);
    try (intros [-> |[-> |[-> | []]]]; cbn; by auto).
  - intros [-> | []]. left. split; [|done]. by apply (hold_object l i g t b R C k fp (H_incr k fp)); [right|].
  - case_match; [by intros ?%elem_of_nil|]. rewrite elem_of_cons, elem_of_nil. intros [-> | []]. left.
    split; [|done]. apply (searched_in_table t id fp K). intros ->. done.
  - intros [-> | []]. left. by destruct K as (_ & ? & _).
  - intros [-> | []]. left. split; [|done]. by apply (walked_in_table t fp tfp false), K.
  - intros [-> | []]. left. split; [|done]. by apply (walked_in_table t fp tfp true), K.
  - intros [-> |[-> | []]]; left; (split; [|done]); [by apply Lr|].
    destruct K as (_ & idx & l1 & l2 & _ & Eb). apply (bucket_in idx). rewrite Eb, elem_of_app. right. left.
Qed.

(** A step changes nothing but what it accesses. *)
Lemma writes_touched i w p g p' g' x v :
  thread_step i w p g = Ret (Some p') g' -> peek x g = Some v -> x ∉ accesses p -> peek x g' = Some v.
Proof.
  intros H Hv Hx. rewrite <- Hv.
  destruct p; cbn [thread_step foo_alloc_step foo_hold_step foo_find_step foo_rele_step accesses mutex2_program touches] in *.
  all: revert H; unfold unlock_hash, lock_hash, lock_fp, unlock_fp, lock, unlock, malloc, put_fh, get_fh, incr,
    mutex_init, mutex_destroy, free, update, load, goto, ret, modify, skip, undef, bind, gets.
  all: repeat (case_match; simplify_eq; try done).
  all: destruct x; peek_written Hx Hv.
Qed.

(** ** Termination *)

(** Steps a thread still takes at most, when there are at most [n] objects. *)
Definition steps_left (n : nat) (t : table) (p : pc) : nat :=
  match p with
  | A_malloc _ => 11 | A_count _ _ => 10 | A_id _ _ => 9 | A_init _ _ => 8 | A_free _ _ => 1
  | A_lockhash _ _ => 7 | A_next _ _ => 6 | A_head _ _ => 5 | A_lock _ _ => 4
  | A_unlockhash _ _ => 3 | A_unlock _ _ => 2
  | H_lock Client _ => 3 | H_incr Client _ => 2 | H_unlock Client _ => 1
  | H_lock (Finder _) _ => 4 | H_incr (Finder _) _ => 3 | H_unlock (Finder _) _ => 2
  | F_lockhash _ => 7 + 2 * n | F_head _ => 6 + 2 * n
  | F_test _ fp => 5 + (if (fp =? NULL)%Z then 0 else 2 * S (behind fp (tab t)))
  | F_next _ fp => 6 + 2 * behind fp (tab t)
  | F_unlockhash _ _ => 1
  | R_lock _ => 14 + 2 * n | R_test _ => 13 + 2 * n | R_unlock1 _ => 12 + 2 * n
  | R_lockhash _ => 11 + 2 * n | R_lock2 _ => 10 + 2 * n | R_recheck _ => 9 + 2 * n
  | R_decr2 _ => 3 | R_unlock2 _ => 2 | R_unlockhash2 _ => 1
  | R_idx _ => 8 + 2 * n | R_head _ _ => 7 + 2 * n | R_cuthead _ _ => 5
  | R_while _ tfp => 6 + 2 * behind tfp (tab t) | R_walk _ tfp => 5 + 2 * behind tfp (tab t)
  | R_cut _ _ => 5 | R_unlockhash3 _ => 4 | R_unlock3 _ => 3 | R_destroy _ => 2 | R_free _ => 1
  | R_decr _ => 2 | R_unlock _ => 1
  | Done _ _ => 0
  end%nat.

Lemma steps_le n n' t p : (n' <= n)%nat -> (steps_left n' t p <= steps_left n t p)%nat.
Proof. intros H. destruct p as [| | | | | | | | | | |[|] ?|[|] ?|[|] ?| | | | | | | | | | | | | | | | | | | | | | | | | | |]; cbn [steps_left]; lia. Qed.

Lemma steps_other n t t' p :
  (holds_hash p = true -> tab t' = tab t) -> steps_left n t' p = steps_left n t p.
Proof.
  intros H. destruct p as [| | | | | | | | | | |[|] ?|[|] ?|[|] ?| | | | | | | | | | | | | | | | | | | | | | | | | | |];
    cbn [steps_left holds_hash] in *; rewrite ?H; done.
Qed.


Lemma steps_decrease l i g t b w n n' p p' g' :
  in_memory l g t -> counted (Sys t (stats status l) b) ->
  l !! i = Some (Some p) -> thread_step i w p g = Ret (Some p') g' ->
  (length (tab t) <= n)%nat -> (n' <= n)%nat -> (steps_left n' t p' < steps_left n t p)%nat.
Proof.
  intros R C Hl H Hn Hn'. destruct (at_p _ _ _ Hl) as [E _]. pose proof (r_knows _ _ _ R _ _ E) as K.
  destruct p as [ | | | | | | | | | | | [|] ? | [|] ? | [|] ? | | id | id fp | id fp | | | | | | | | | | | | fp idx | | | fp tfp | | | | | | | | ];
    cbn [thread_step foo_alloc_step foo_hold_step foo_find_step foo_rele_step] in *.
  all: try (run_step H; cbn [steps_left]; lia).
  - destruct (fh_lookup l g t id R) as [a Ha]. apply head_behind with (1 := R) in Ha as Hb; [|apply HASH_range].
    run_step H. cbn [steps_left]. destruct Hb as [-> |Hb]; [cbn; lia|]. destruct (_ =? _); lia.
  - destruct (fp =? NULL) eqn:Ez; run_step H; cbn [steps_left]; rewrite ?Ez; lia.
  - destruct K as (K & Hfp & _). run_step H. cbn [steps_left].
    destruct (searched_behind _ _ _ R id fp _ K Hfp ltac:(done)) as [-> |[Nz Hb]]; [cbn; lia|].
    rewrite (proj2 (Z.eqb_neq _ _) Nz). lia.
  - destruct K as [K1 K2]. destruct (chain_of _ _ _ R fp idx (proj1 K1) K2) as (a & Ha & Eh & Hin & _).
    assert (Hb : (behind a (tab t) < length (tab t))%nat).
    { apply behind_lt, (bucket_in idx). destruct (bucket idx (tab t)) as [|x r]; [by apply elem_of_nil in Hin|].
      subst a. left. }
    run_step H; cbn [steps_left]; lia.
  - destruct K as [K1 K2]. run_step H. cbn [steps_left].
    pose proof (walked_behind _ _ _ R fp tfp _ K2 ltac:(done)). lia.
Qed.

Lemma steps_answered n t t' p o r : status p = Answered o r -> steps_left n t' p = steps_left n t p.
Proof. by destruct p as [| | | | | | | | | | |[|] ?|[|] ?|[|] ?| | | | | | | | | | | | | | | | | | | | | | | | | | |]. Qed.

(** The objects of the table change only under [hashlock]. *)
Lemma same_table l i p g w p' g' t t' :
  holds_hash p = false -> l !! i = Some (Some p) -> thread_step i w p g = Ret (Some p') g' ->
  in_memory (<[i := Some p']> l) g' t' -> takes_effect (status p) t (status p') t' -> tab t' = tab t.
Proof.
  intros Hh Hl H R' T. assert (K : knows_of p' g' t').
  { apply (r_knows _ _ _ R' i). unfold thread. apply lookup_lt_Some in Hl. by rewrite list_lookup_insert_eq. }
  destruct p as [| | | | | | | | | | |[|] ?|[|] ?|[|] ?| | | | | | | | | | | | | | | | | | | | | | | | | | |]; try done; try (by inversion T);
    cbn [thread_step foo_alloc_step foo_hold_step foo_find_step foo_rele_step] in *; run_step H.
  all: inversion T as [o r ? ? A]; try done; subst; inversion A; try done; subst.
  destruct K as [K _]. by apply drop_fp_elem in K as [_ ?].
Qed.

#[export] Instance mutex2_implements : Implements pc.
Proof.
  refine {| status_of := status; rank := steps_left |}.
  - by intros [].
  - intros p o r H. destruct p; try done. by injection H as -> ->.
  - intros l i p g t b w R C. by apply (thread_ok l i g t b w R C).
  - apply waits.
  - apply touches_protected.
  - apply writes_touched.
  - apply same_table.
  - apply steps_le.
  - apply steps_other.
  - apply steps_answered.
  - apply steps_decrease.
Defined.

(** * The theorems *)

(** C18: Whatever the interleaving, what callers see of mutex2.c (the calls,
    the returns and their results) is what they see of the atomic table, in
    which each operation happens at one moment between its call and its
    return. *)
Theorem mutex2_atomic n tr (s : sys pc globals) :
  runs (idle n fh_static) tr s -> exists t, runs (idle n (Table [] ∅)) tr (atomic s t).
Proof. apply program_atomic. Qed.

(** C19: No interleaving of the threads of mutex2.c ever does anything
    undefined (no access to freed memory, no mutex misused, no overflow of a
    count), and no two threads are ever about to access the same place, so
    that there are no data races. *)
Theorem mutex2_safe n tr (s : sys pc globals) :
  runs (idle n fh_static) tr s ->
  forall i p, threads s !! i = Some (Some p) ->
    (forall w, exists r g', code i w p (shared s) = Ret r g' /\
       forall p' x v, r = Some p' -> peek x (shared s) = Some v -> x ∉ accesses p -> peek x g' = Some v) /\
    forall j q x, threads s !! j = Some (Some q) -> x ∈ accesses p -> x ∈ accesses q -> j = i.
Proof. apply program_safe. Qed.

(** C20: From any state the operations in progress in mutex2.c all come to
    their end: the threads can only take a bounded number of steps without a
    new call, and as long as one of them is inside an operation some thread
    can step (there is no deadlock). *)
Theorem mutex2_completes n tr (s : sys pc globals) :
  runs (idle n fh_static) tr s ->
  exists K, forall k s', nsteps works k s s' ->
    (k <= K)%nat /\ ((exists s'', works s' s'') \/ all_idle s').
Proof. apply program_completes. Qed.

(** When no operation is in progress, mutex2.c has in memory exactly the
    objects callers still have references to, with their number as count and
    every mutex free: nothing has leaked. *)
Theorem mutex2_memory n tr (s : sys pc globals) :
  runs (idle n fh_static) tr s -> all_idle s ->
  hashlock (shared s) = Unlocked /\
  forall fp, match mem (shared s) !! fp with
             | Some o => f_lock o = Unlocked /\ 1 <= f_count o /\ f_count o = Z.of_nat (multiplicity fp (bag s))
             | None => multiplicity fp (bag s) = 0%nat
             end.
Proof. apply program_memory. Qed.

(** * A run *)

Definition w100 : world := World 100 (mk_foo 5 Uninit 9 77) 0.
(** One thread allocates object 7 and releases it; between its two looks at
    the count the other thread finds the object. *)
Definition demo0 : list (move world) :=
  Calls 0 (Alloc 7) :: replicate 10 (Steps 0 w100) ++ [Returns 0].
Definition demo1 : list (move world) :=
  demo0 ++ [Calls 1 (Find 7); Calls 0 (Rele 100)] ++ replicate 3 (Steps 0 w100) ++ replicate 4 (Steps 1 w100).
(** Then each goes on to the end, and the other releases it too. *)
Definition demo2 : list (move world) :=
  demo1 ++ replicate 3 (Steps 1 w100) ++ [Returns 1] ++ replicate 6 (Steps 0 w100) ++ [Returns 0] ++
  [Calls 1 (Rele 100)] ++ replicate 13 (Steps 1 w100) ++ [Returns 1].

Lemma demo0_runs : schedule (pc := pc) next (idle 2 fh_static) demo0 <> None.
Proof. vm_compute. discriminate. Qed.
Lemma demo1_runs : schedule (pc := pc) next (idle 2 fh_static) demo1 <> None.
Proof. vm_compute. discriminate. Qed.
Lemma demo2_runs : schedule (pc := pc) next (idle 2 fh_static) demo2 <> None.
Proof. vm_compute. discriminate. Qed.

Example demo1_threads :
  threads (run_of (pc := pc) 2 demo1).2 = [Some (R_lockhash 100); Some (H_incr (Finder 7) 100)].
Proof. vm_compute. reflexivity. Qed.
Example demo2_trace :
  (run_of (pc := pc) 2 demo2).1 = [Called 0 (Alloc 7); Returned 0 (Alloc 7) (Obj 100); Called 1 (Find 7); Called 0 (Rele 100);
    Returned 1 (Find 7) (Obj 100); Returned 0 (Rele 100) Void; Called 1 (Rele 100); Returned 1 (Rele 100) Void].
Proof. vm_compute. reflexivity. Qed.
Example demo2_state : (run_of (pc := pc) 2 demo2).2 = idle 2 fh_static.
Proof. vm_compute. reflexivity. Qed.

Lemma mutex2_atomic_witness :
  exists t, runs (idle 2 (Table [] ∅)) (run_of (pc := pc) 2 demo2).1 (atomic (run_of (pc := pc) 2 demo2).2 t).
Proof. apply mutex2_atomic, run_of_runs, demo2_runs. Defined.

Lemma mutex2_safe_witness :
  (forall w, exists r g', code 0 w (R_lockhash 100) (shared (run_of (pc := pc) 2 demo1).2) = Ret r g') /\
  forall x, x ∈ accesses (R_lockhash 100) -> x ∈ accesses (H_incr (Finder 7) 100) -> 1%nat = 0%nat.
Proof.
  destruct (mutex2_safe 2 _ _ (run_of_runs (pc := pc) 2 demo1 demo1_runs) 0 (R_lockhash 100)) as [A B].
  - vm_compute. reflexivity.
  - split; [intros w; destruct (A w) as (r & g' & E & _); eauto|].
    intros x. apply (B 1%nat (H_incr (Finder 7) 100) x). vm_compute. reflexivity.
Defined.

Lemma mutex2_completes_witness :
  exists K, forall k s', nsteps works k (run_of (pc := pc) 2 demo1).2 s' ->
    (k <= K)%nat /\ ((exists s'', works s' s'') \/ all_idle s').
Proof. apply (mutex2_completes 2 (run_of (pc := pc) 2 demo1).1), run_of_runs, demo1_runs. Defined.

Lemma mutex2_memory_witness :
  exists o, mem (shared (run_of (pc := pc) 2 demo0).2) !! 100 = Some o /\ f_count o = 1 /\
    mem (shared (run_of (pc := pc) 2 demo0).2) !! 200 = None.
Proof.
  destruct (mutex2_memory 2 _ _ (run_of_runs (pc := pc) 2 demo0 demo0_runs)) as [_ M].
  - intros [|[|i]] p; vm_compute; discriminate.
  - pose proof (M 100) as M1. destruct (mem _ !! 100) as [o|] eqn:E; [|by vm_compute in M1].
    exists o. split; [done|]. split; [|vm_compute; reflexivity].
    destruct M1 as (_ & _ & ->). vm_compute. reflexivity.
Defined.
