(* ===== verification/Mutex3.v ===== *)
(** apue.3e/threads/mutex3.c: the table of mutex2.c with [hashlock] protecting
    the reference counts as well.  It implements the same atomic table. *)
From Stdlib Require Import ZArith Lia.
From stdpp Require Import base list strings gmap gmultiset numbers.
From S2P Require Import Prelude Dll RefTable RefHeap RefSteps RefProgram.
Local Open Scope c_scope.

(** The statement a thread is about to execute, with its variables. *)
Inductive pc :=
(* foo_alloc *)
| A_malloc (id : Z) | A_count (id : Z) (fp : addr) | A_id (id : Z) (fp : addr)
| A_init (id : Z) (fp : addr) | A_free (id : Z) (fp : addr) | A_lockhash (id : Z) (fp : addr)
| A_next (id : Z) (fp : addr) | A_head (id : Z) (fp : addr) | A_lock (id : Z) (fp : addr)
| A_unlockhash (id : Z) (fp : addr) | A_unlock (id : Z) (fp : addr)
(* foo_hold *)
| H_lockhash (fp : addr) | H_incr (fp : addr) | H_unlockhash (fp : addr)
(* foo_find *)
| F_lockhash (id : Z) | F_head (id : Z) | F_test (id : Z) (fp : addr) | F_next (id : Z) (fp : addr)
| F_incr (id : Z) (fp : addr) | F_unlockhash (id : Z) (fp : addr)
(* foo_rele *)
| R_lockhash (fp : addr) | R_decr (fp : addr)
| R_idx (fp : addr) | R_head (fp : addr) (idx : Z) | R_cuthead (fp : addr) (idx : Z)
| R_while (fp tfp : addr) | R_walk (fp tfp : addr) | R_cut (fp tfp : addr)
| R_unlockhash (fp : addr) | R_destroy (fp : addr) | R_free (fp : addr)
| R_unlockhash2 (fp : addr)
(* the operation returns *)
| Done (o : op) (r : reply).

Definition start_pc (o : op) : pc :=
  match o with
  | Alloc id => A_malloc id
  | Hold fp => H_lockhash fp
  | Find id => F_lockhash id
  | Rele fp => R_lockhash fp
  end.

(** A step of thread [i] at each statement. *)
Definition foo_alloc_step (i : nat) (w : world) (p : pc) : M globals (option pc) :=
  match p with
  | A_malloc id =>
    let* r := malloc w in
    match r with
    | None => ret None
    | Some fp => goto (if fp =? NULL then Done (Alloc id) (Obj NULL) else A_count id fp)
    end
  | A_count id fp => update fp (set_count 1);;; goto (A_id id fp)
  | A_id id fp => update fp (set_id id);;; goto (A_init id fp)
  | A_init id fp =>
    let* e := mutex_init w fp in
    goto (if e =? 0 then A_lockhash id fp else A_free id fp)
  | A_free id fp => free fp;;; goto (Done (Alloc id) (Obj NULL))
  | A_lockhash id fp => lock_hash i (A_next id fp)
  | A_next id fp =>
    let* a := get_fh (HASH id) in
    update fp (set_next a);;; goto (A_head id fp)
  | A_head id fp => put_fh (HASH id) fp;;; goto (A_lock id fp)
  | A_lock id fp => lock_fp i fp (A_unlockhash id fp)
  | A_unlockhash id fp => unlock_hash i (A_unlock id fp)
  | A_unlock id fp => unlock_fp i fp (Done (Alloc id) (Obj fp))
  | _ => ret None
  end.

Definition foo_hold_step (i : nat) (p : pc) : M globals (option pc) :=
  match p with
  | H_lockhash fp => lock_hash i (H_incr fp)
  | H_incr fp => incr fp 1;;; goto (H_unlockhash fp)
  | H_unlockhash fp => unlock_hash i (Done (Hold fp) Void)
  | _ => ret None
  end.

Definition foo_find_step (i : nat) (p : pc) : M globals (option pc) :=
  match p with
  | F_lockhash id => lock_hash i (F_head id)
  | F_head id => let* a := get_fh (HASH id) in goto (F_test id a)
  | F_test id fp =>
    if fp =? NULL then goto (F_unlockhash id fp)
    else
      let* o := load fp in
      goto (if f_id o =? id then F_incr id fp else F_next id fp)
  | F_next id fp => let* o := load fp in goto (F_test id (f_next o))
  | F_incr id fp => incr fp 1;;; goto (F_unlockhash id fp)
  | F_unlockhash id fp => unlock_hash i (Done (Find id) (Obj fp))
  | _ => ret None
  end.

Definition foo_rele_step (i : nat) (p : pc) : M globals (option pc) :=
  match p with
  | R_lockhash fp => lock_hash i (R_decr fp)
  | R_decr fp =>
    incr fp (-1);;;
    let* o := load fp in
    goto (if f_count o =? 0 then R_idx fp else R_unlockhash2 fp)
  | R_idx fp => let* o := load fp in goto (R_head fp (HASH (f_id o)))
  | R_head fp idx =>
    let* tfp := get_fh idx in
    goto (if tfp =? fp then R_cuthead fp idx else R_while fp tfp)
  | R_cuthead fp idx =>
    let* o := load fp in
    put_fh idx (f_next o);;; goto (R_unlockhash fp)
  | R_while fp tfp =>
    let* o := load tfp in goto (if f_next o =? fp then R_cut fp tfp else R_walk fp tfp)
  | R_walk fp tfp => let* o := load tfp in goto (R_while fp (f_next o))
  | R_cut fp tfp =>
    let* o := load fp in
    update tfp (set_next (f_next o));;; goto (R_unlockhash fp)
  | R_unlockhash fp => unlock_hash i (R_destroy fp)
  | R_destroy fp => mutex_destroy fp;;; goto (R_free fp)
  | R_free fp => free fp;;; goto (Done (Rele fp) Void)
  | R_unlockhash2 fp => unlock_hash i (Done (Rele fp) Void)
  | _ => ret None
  end.

Definition thread_step (i : nat) (w : world) (p : pc) : M globals (option pc) :=
  match p with
  | A_malloc _ | A_count _ _ | A_id _ _ | A_init _ _ | A_free _ _ | A_lockhash _ _ | A_next _ _
  | A_head _ _ | A_lock _ _ | A_unlockhash _ _ | A_unlock _ _ => foo_alloc_step i w p
  | H_lockhash _ | H_incr _ | H_unlockhash _ => foo_hold_step i p
  | F_lockhash _ | F_head _ | F_test _ _ | F_next _ _ | F_incr _ _ | F_unlockhash _ _ => foo_find_step i p
  | Done _ _ => ret None
  | _ => foo_rele_step i p
  end.

(** The memory each statement reads or writes, mutexes apart. *)
Definition touches (p : pc) : list loc :=
  match p with
  | A_count _ fp | H_incr fp | F_incr _ fp | R_decr fp => [At_count fp]
  | A_id _ fp | R_idx fp => [At_id fp]
  | A_free _ fp | R_free fp => [At_count fp; At_id fp; At_next fp]
  | A_next id fp => [At_fh (Z.to_nat (HASH id)); At_next fp]
  | A_head id _ | F_head id => [At_fh (Z.to_nat (HASH id))]
  | F_test _ fp => if fp =? NULL then [] else [At_id fp]
  | F_next _ fp => [At_next fp]
  | R_head _ idx => [At_fh (Z.to_nat idx)]
  | R_cuthead fp idx => [At_next fp; At_fh (Z.to_nat idx)]
  | R_while _ tfp | R_walk _ tfp => [At_next tfp]
  | R_cut fp tfp => [At_next fp; At_next tfp]
  | _ => []
  end.

#[export] Instance mutex3_program : Program pc := {|
  code := thread_step;
  begins := start_pc;
  ends p := match p with Done o r => Some (o, r) | _ => None end;
  accesses := touches
|}.

(** * The table it implements *)

(** Where each operation has taken effect. *)
Definition status (p : pc) : stat :=
  match p with
  | A_malloc id | A_count id _ | A_id id _ | A_init id _ | A_lockhash id _ | A_next id _
  | A_head id _ => Pending (Alloc id)
  | A_free id _ => Answered (Alloc id) (Obj NULL)
  | A_lock id fp | A_unlockhash id fp | A_unlock id fp => Answered (Alloc id) (Obj fp)
  | H_lockhash fp | H_incr fp => Pending (Hold fp)
  | H_unlockhash fp => Answered (Hold fp) Void
  | F_lockhash id | F_head id | F_test id _ | F_next id _ | F_incr id _ => Pending (Find id)
  | F_unlockhash id fp => Answered (Find id) (Obj fp)
  | R_lockhash fp | R_decr fp | R_idx fp | R_head fp _ | R_cuthead fp _ | R_while fp _ | R_walk fp _
  | R_cut fp _ => Pending (Rele fp)
  | R_unlockhash fp | R_destroy fp | R_free fp | R_unlockhash2 fp => Answered (Rele fp) Void
  | Done o r => Answered o r
  end.

(** Between locking [hashlock] and unlocking it. *)
Definition holds_hash (p : pc) : bool :=
  match p with
  | A_next _ _ | A_head _ _ | A_lock _ _ | A_unlockhash _ _ | H_incr _ | H_unlockhash _
  | F_head _ | F_test _ _ | F_next _ _ | F_incr _ _ | F_unlockhash _ _
  | R_decr _ | R_idx _ | R_head _ _ | R_cuthead _ _ | R_while _ _ | R_walk _ _ | R_cut _ _
  | R_unlockhash _ | R_unlockhash2 _ => true
  | _ => false
  end.

(** Only [foo_alloc] locks the mutex of an object. *)
Definition holds_fp (p : pc) : option addr :=
  match p with A_unlockhash _ fp | A_unlock _ fp => Some fp | _ => None end.

(** An object that is not in the table yet, or no longer. *)
Definition private (p : pc) : option addr :=
  match p with
  | A_count _ fp | A_id _ fp | A_init _ fp | A_free _ fp | A_lockhash _ fp | A_next _ fp | A_head _ fp
  | R_unlockhash fp | R_destroy fp | R_free fp => Some fp
  | _ => None
  end.

(** An object in the table whose count is 0. *)
Definition counted_out (p : pc) : option addr :=
  match p with
  | R_idx fp | R_head fp _ | R_cuthead fp _ | R_while fp _ | R_walk fp _ | R_cut fp _ => Some fp
  | _ => None
  end.

Definition last_one (g : globals) (t : table) (fp : addr) : Prop :=
  entry g t fp (fun _ => True) /\ cnt t !! fp = Some 1.

Definition knows_of (p : pc) (g : globals) (t : table) : Prop :=
  match p with
  | A_count id fp | A_free id fp => obj g fp (fun o => f_lock o = Uninit)
  | A_id id fp => obj g fp (fun o => f_lock o = Uninit /\ f_count o = 1)
  | A_init id fp => obj g fp (fun o => f_lock o = Uninit /\ f_count o = 1 /\ f_id o = id)
  | A_lockhash id fp | A_next id fp =>
    obj g fp (fun o => f_lock o = Unlocked /\ f_count o = 1 /\ f_id o = id)
  | A_head id fp =>
    obj g fp (fun o => f_lock o = Unlocked /\ f_count o = 1 /\ f_id o = id /\
      fh g !! Z.to_nat (HASH id) = Some (f_next o))
  | A_lock id fp | A_unlockhash id fp | A_unlock id fp => fp <> NULL
  | F_test id fp => searched t id fp
  | F_next id fp => searched t id fp /\ (fp ∈ (tab t).*1) /\ ((fp, id) ∉ tab t)
  | F_incr id fp => find_id id (tab t) = Some fp
  | R_idx fp => last_one g t fp
  | R_head fp idx => last_one g t fp /\ obj g fp (fun o => idx = HASH (f_id o))
  | R_cuthead fp idx =>
    last_one g t fp /\ obj g fp (fun o => idx = HASH (f_id o)) /\ fh g !! Z.to_nat idx = Some fp
  | R_while fp tfp => last_one g t fp /\ walked t fp tfp false
  | R_walk fp tfp => last_one g t fp /\ walked t fp tfp true
  | R_cut fp tfp =>
    last_one g t fp /\
    exists idx l1 l2, 0 <= idx < NHASH /\ bucket idx (tab t) = l1 ++ tfp :: fp :: l2
  | R_unlockhash fp | R_destroy fp => obj g fp (fun o => f_lock o = Unlocked)
  | R_free fp => obj g fp (fun o => f_lock o = Uninit)
  | _ => True
  end.

#[export] Instance mutex3_points : Points pc := {|
  hh := holds_hash; hf := holds_fp; pv := private; dying := counted_out;
  count_by_hash := true; knows := knows_of
|}.

Lemma m3_obj_private p g t g' t' fp P :
  kept p g t g' t' -> pv p = Some fp -> obj g fp P -> obj g' fp P.
Proof.
  intros K E (o & Ho & H). exists o. by rewrite (k_private _ _ _ _ _ K _ E).
Qed.

Lemma last_one_kept p g t g' t' fp :
  kept p g t g' t' -> holds_hash p = true -> last_one g t fp -> last_one g' t' fp.
Proof.
  intros K E ((Hfp & o & Ho & _) & Hn). destruct (k_count _ _ _ _ _ K fp o E Hfp Ho) as (A & B & o' & D & _).
  split; [split; [done|by exists o']|congruence].
Qed.

Lemma m3_obj_id_kept p g t g' t' fp (P : Z -> Prop) :
  kept p g t g' t' -> holds_hash p = true -> fp ∈ (tab t).*1 ->
  obj g fp (fun o => P (f_id o)) -> obj g' fp (fun o => P (f_id o)).
Proof.
  intros K E Hfp (o & Ho & H). destruct (k_chain _ _ _ _ _ K E) as (_ & _ & C).
  destruct (C fp o Hfp Ho) as (o' & A & _ & B). exists o'. by rewrite B.
Qed.

#[export] Instance mutex3_stable : Stable.
Proof.
  intros p g t g' t' K. cbn [knows mutex3_points].
  assert (Ch : holds_hash p = true -> fh g' = fh g /\ tab t' = tab t)
    by (intros E; by destruct (k_chain _ _ _ _ _ K E) as (? & ? & _)).
  destruct p; cbn [knows_of]; try done;
    try (by apply (m3_obj_private _ _ _ _ _ _ _ K));
    try (destruct Ch as [Cf Ct]; [done|]; unfold searched, walked; rewrite ?Cf, ?Ct; try done).
  all: try (by apply (last_one_kept _ _ _ _ _ _ K)).
  all: try (intros [H1 H2]; split; [by apply (last_one_kept _ _ _ _ _ _ K)|done]).
  - by apply (m3_obj_private _ _ _ _ _ _ _ K).
  - intros [H1 H2]. split; [by apply (last_one_kept _ _ _ _ _ _ K)|].
    by apply (m3_obj_id_kept _ _ _ _ _ _ (fun n => idx = HASH n) K); [| apply H1|].
  - intros (H1 & H2 & H3). split_and!; [by apply (last_one_kept _ _ _ _ _ _ K)| |done].
    by apply (m3_obj_id_kept _ _ _ _ _ _ (fun n => idx = HASH n) K); [| apply H1|].
Qed.

Abbreviation good := (RefSteps.good status).

Section operations.
Variables (l : list (option pc)) (i : nat) (g : globals) (t : table) (b : gmultiset addr) (w : world).
Hypothesis R : in_memory l g t.
Hypothesis C : counted (Sys t (stats status l) b).

Lemma owns fp p :
  l !! i = Some (Some p) -> fp ∈ owned (Some (status p)) -> fp ∈ (tab t).*1.
Proof. intros Hl. by apply (owned_in_table _ _ _ _ _ _ Hl C). Qed.

Lemma m3_gave_object id fp : fp <> NULL -> fp ∈ gives (Alloc id) (Obj fp).
Proof. intros N. cbn. rewrite (proj2 (Z.eqb_neq _ _) N). multiset_solver. Qed.

(** ** foo_alloc *)

Lemma m3_alloc_fields id fp p :
  p = A_count id fp \/ p = A_id id fp \/ p = A_init id fp \/ p = A_next id fp ->
  l !! i = Some (Some p) -> wp (thread_step i w p) (good l i p t) g.
Proof.
  intros Hp Hl. destruct (at_p _ _ _ Hl) as [E Hi].
  pose proof (r_knows _ _ _ R _ _ E) as K. cbn in K.
  destruct Hp as [-> |[-> |[-> | ->]]]; destruct K as (o & Ho & K).
  - apply wp_bind, (wp_update _ _ _ _ _ Ho). fills R Hl o Ho.
  - destruct K as [K1 K2]. apply wp_bind, (wp_update _ _ _ _ _ Ho).
    fills R Hl o Ho.
  - destruct K as (K1 & K2 & K3). apply wp_bind, (wp_mutex_init _ _ _ _ _ Ho).
    + intros Hw. rewrite (proj2 (Z.eqb_neq _ _) Hw).
      apply (good_effect _ _ _ _ _ _ _ t (Alloc id) (Obj NULL)); try done.
      apply in_memory_quiet; rewrite ?E; try done. intros q [= <-]. by exists o.
    + fills R Hl o Ho.
  - destruct K as (K1 & K2 & K3). destruct (fh_lookup l g t id R) as [a Ha].
    apply wp_bind, (wp_get_fh _ _ _ _ Ha), wp_bind, (wp_update _ _ _ _ _ Ho).
    fills R Hl o Ho.
Qed.

Lemma alloc_others id fp p :
  p = A_malloc id \/ p = A_free id fp \/ p = A_head id fp ->
  l !! i = Some (Some p) -> wp (thread_step i w p) (good l i p t) g.
Proof.
  intros Hp Hl. destruct (at_p _ _ _ Hl) as [E _]. pose proof (r_knows _ _ _ R _ _ E) as K.
  destruct Hp as [-> |[-> | ->]].
  - apply (mallocs status l i _ g t R Hl w id (A_count id)); try done. intros a o Ho. written.
  - destruct K as (o & Ho & K). by apply (frees status l i _ g t R Hl fp o).
  - destruct K as (o & Ho & K1 & K2 & K3 & K4). by apply (publishes status l i _ g t R Hl id fp o).
Qed.

(** ** The counts *)

(** With [hashlock] held no count is in between. *)
Lemma m3_object fp p :
  l !! i = Some (Some p) -> holds_hash p = true -> counted_out p = None -> fp ∈ (tab t).*1 ->
  exists o, mem g !! fp = Some o /\ (fp, f_id o) ∈ tab t /\ f_lock o <> Uninit /\
    cnt t !! fp = Some (f_count o) /\ 1 <= f_count o.
Proof.
  intros Hl Hh Hd Hfp. destruct (at_p _ _ _ Hl) as [E _].
  destruct (object_of _ _ _ _ _ R C fp Hfp) as (o & n & Ho & Hid & Hu & Hn & H1 & Hc).
  exists o. rewrite Hc; [done|]. intros j Hj. assert (Hi : hashlock g = Locked i)
    by (apply (r_hash _ _ _ R); by rewrite E).
  pose proof (r_dying _ _ _ R _ _ Hj) as Hj'. apply (r_hash _ _ _ R) in Hj'.
  assert (j = i) as -> by congruence. rewrite E in Hj. cbn in Hj. congruence.
Qed.

Lemma increments fp p p' o r :
  l !! i = Some (Some p) -> p = H_incr fp \/ (exists id, p = F_incr id fp) -> fp ∈ (tab t).*1 ->
  status p = Pending o -> status p' = Answered o r ->
  (forall n, cnt t !! fp = Some n -> answers o t r (Table (tab t) (<[fp := n + 1]> (cnt t)))) ->
  holds_hash p' = true -> holds_fp p' = None -> private p' = None -> counted_out p' = None ->
  (forall g t, knows_of p' g t) ->
  wp (incr fp 1;;; goto p') (good l i p t) g.
Proof.
  intros Hl Hp Hfp S1 S2 A F1 F2 F3 F4 K. destruct (at_p _ _ _ Hl) as [E Hi].
  assert (F : holds_hash p = true /\ holds_fp p = None /\ private p = None /\ counted_out p = None)
    by (by destruct Hp as [-> |[id ->]]).
  destruct F as (G1 & G2 & G3 & G4).
  destruct (m3_object fp p Hl G1 G4 Hfp) as (x & Hx & _ & Hu & Hc & H1).
  destruct (counted_room _ i o fp (f_count x) C) as [_ H2].
  { rewrite <- S1. exact (stats_lookup status _ _ (Some p) Hl). }
  { done. }
  apply wp_bind, (wp_incr _ _ _ _ _ Hx); [lia|].
  apply (good_effect _ _ _ _ _ _ _ (Table (tab t) (<[fp := f_count x + 1]> (cnt t))) o r); try done; [|by apply A].
  apply (in_memory_count l g t i p); rewrite ?E; try done; try (cbn; congruence).
  - intros y Ny. by rewrite lookup_insert_ne.
  - right. by rewrite lookup_insert_eq.
  - intros q [= <-]. apply K.
Qed.

Lemma m3_rele_decr fp :
  l !! i = Some (Some (R_decr fp)) -> wp (thread_step i w (R_decr fp)) (good l i (R_decr fp) t) g.
Proof.
  intros Hl. destruct (at_p _ _ _ Hl) as [E Hi].
  assert (Hfp : fp ∈ (tab t).*1) by (apply (owns fp _ Hl); cbn; multiset_solver).
  destruct (m3_object fp _ Hl eq_refl eq_refl Hfp) as (o & Ho & _ & Hu & Hc & H1).
  assert (Hmax : f_count o <= INT_MAX) by by apply (counted_max _ fp _ C).
  apply wp_bind, (wp_incr _ _ _ _ _ Ho); [lia|]. apply wp_bind.
  eapply wp_load; [cbn; by apply lookup_insert_eq|]. cbn [f_count set_count].
  destruct (Z.eqb_spec (f_count o + -1) 0) as [Z|Z].
  - apply good_same; [|done]. destruct t as [tb c]. cbn [tab cnt] in *.
    apply (in_memory_count l g (Table tb c) i (R_decr fp)); rewrite ?E; try done; [by left|].
    intros q [= <-]. split; [split; [done|written]|]. cbn. rewrite Hc. f_equal. lia.
  - apply (good_effect _ _ _ _ _ _ _ (Table (tab t) (<[fp := f_count o - 1]> (cnt t))) (Rele fp) Void); try done.
    + apply (in_memory_count l g t i (R_decr fp)); rewrite ?E; try done.
      * intros y Ny. by rewrite lookup_insert_ne.
      * right. by rewrite lookup_insert_eq.
      * by intros q [= <-].
    + constructor; [done|lia].
Qed.

(** ** foo_hold and foo_find *)

Lemma counts_up fp p :
  p = H_incr fp \/ (exists id, p = F_incr id fp) ->
  l !! i = Some (Some p) -> wp (thread_step i w p) (good l i p t) g.
Proof.
  intros Hp Hl. destruct (at_p _ _ _ Hl) as [E _]. pose proof (r_knows _ _ _ R _ _ E) as K.
  destruct Hp as [-> |[id ->]].
  - apply (increments fp _ (H_unlockhash fp) (Hold fp) Void Hl); try done; [by left| |by constructor].
    apply (owns fp _ Hl). cbn. multiset_solver.
  - apply (increments fp _ (F_unlockhash id fp) (Find id) (Obj fp) Hl); try done; [by right; exists id| |].
    + apply find_id_elem in K. by apply (list_elem_of_fmap_2 fst) in K.
    + intros n Hn. by constructor.
Qed.

Lemma finds id p :
  p = F_head id \/ (exists fp, p = F_test id fp \/ p = F_next id fp) ->
  l !! i = Some (Some p) -> wp (thread_step i w p) (good l i p t) g.
Proof.
  intros Hp Hl. destruct (at_p _ _ _ Hl) as [E Hi]. pose proof (r_knows _ _ _ R _ _ E) as K.
  destruct Hp as [-> |[fp [-> | ->]]].
  - apply (finds_head _ _ _ R id (F_test id)). intros a Ha. by apply (quiet _ _ _ _ _ _ R Hl).
  - apply (finds_test _ _ _ R _ _ _ _ _ _ K).
    + intros -> Hn. apply (good_effect _ _ _ _ _ _ _ t (Find id) (Obj NULL)); try done; [|by constructor].
      apply in_memory_quiet; rewrite ?E; try done. by intros q [= <-].
    + intros Hf. by apply (quiet _ _ _ _ _ _ R Hl).
    + intros Hfp Hn. by apply (quiet _ _ _ _ _ _ R Hl).
  - destruct K as (K1 & K2 & K3). apply (finds_next _ _ _ R id fp (F_test id) _ K1 K2 K3).
    intros a Ha. by apply (quiet _ _ _ _ _ _ R Hl).
Qed.

(** ** foo_rele *)

Lemma m3_rele_walks fp p :
  p = R_idx fp \/ (exists idx, p = R_head fp idx) \/ (exists tfp, p = R_while fp tfp \/ p = R_walk fp tfp) ->
  l !! i = Some (Some p) -> wp (thread_step i w p) (good l i p t) g.
Proof.
  intros Hp Hl. destruct (at_p _ _ _ Hl) as [E _]. pose proof (r_knows _ _ _ R _ _ E) as K.
  destruct Hp as [-> |[[idx ->]|[tfp [-> | ->]]]].
  - pose proof K as ((_ & o & Ho & _) & _). apply wp_bind, (wp_load _ _ _ _ Ho).
    apply (quiet _ _ _ _ _ _ R Hl); try done. split; [done|]. by exists o.
  - destruct K as [K1 K2]. apply (walks_head _ _ _ R fp idx _ (R_while fp) _ (proj1 (proj1 K1)) K2);
      [intros Hf|intros tfp Ht]; by apply (quiet _ _ _ _ _ _ R Hl).
  - destruct K as [K1 K2]. apply (walks_test _ _ _ R _ _ _ _ _ K2); intros Ht; by apply (quiet _ _ _ _ _ _ R Hl).
  - destruct K as [K1 K2]. apply (walks_on _ _ _ R _ _ (R_while fp) _ K2). intros y Hy.
    by apply (quiet _ _ _ _ _ _ R Hl).
Qed.

(** Nobody is left inside the mutex of an object with one reference: only the
    thread that allocates it locks it, and that thread has one too. *)
Lemma mutex_free fp p o :
  l !! i = Some (Some p) -> status p = Pending (Rele fp) -> cnt t !! fp = Some 1 ->
  mem g !! fp = Some o -> f_lock o <> Uninit -> holds_fp p = None -> f_lock o = Unlocked.
Proof.
  intros Hl S Hn Ho Hu Hf. destruct (f_lock o) as [| |j] eqn:El; [done|done|exfalso].
  apply (r_lock _ _ _ R _ _ _ Ho) in El. unfold thread in El.
  destruct (l !! j) as [[q|]|] eqn:Hq; try done. cbn in El.
  assert (N : i <> j) by (intros ->; rewrite Hl in Hq; simplify_eq).
  enough (2 <= 1) by lia.
  apply (counted_two _ i j (Some (status p)) (Some (status q)) fp 1 C); try done.
  - exact (stats_lookup status _ _ (Some p) Hl).
  - exact (stats_lookup status _ _ (Some q) Hq).
  - rewrite S. cbn. multiset_solver.
  - destruct (at_p _ _ _ Hq) as [Eq _]. pose proof (r_knows _ _ _ R _ _ Eq) as K.
    destruct q; try done; cbn in El; injection El as ->; by apply m3_gave_object.
Qed.

Lemma m3_rele_cuts fp p :
  (exists idx, p = R_cuthead fp idx) \/ (exists tfp, p = R_cut fp tfp) ->
  l !! i = Some (Some p) -> wp (thread_step i w p) (good l i p t) g.
Proof.
  intros Hp Hl. destruct (at_p _ _ _ Hl) as [E _]. pose proof (r_knows _ _ _ R _ _ E) as K.
  assert (K1 : last_one g t fp) by (by destruct Hp as [[? ->]|[? ->]]; apply K).
  destruct K1 as ((Hfp & o & Ho & _) & Hn).
  destruct (r_live l g t fp 0 R Hfp) as (o' & _ & Ho' & _ & _ & Hu & _). assert (o' = o) as -> by congruence.
  assert (Hm : f_lock o = Unlocked)
    by (apply (mutex_free fp p o Hl); try done; by destruct Hp as [[? ->]|[? ->]]).
  assert (Hr : removing status p g t fp (R_unlockhash fp)).
  { destruct Hp as [[? ->]|[? ->]]; constructor; try done; try (split; try done; by right);
      intros g' t' y y' Hy Hy' Ey; exists y'; (split; [done|congruence]). }
  destruct Hp as [[idx ->]|[tfp ->]]; destruct K as [_ K].
  - apply (cuts_head status l i _ g t R Hl fp idx _ Hr); apply K.
  - by apply (cuts status l i _ g t R Hl fp tfp _ Hr).
Qed.

Lemma m3_rele_frees fp p :
  p = R_destroy fp \/ p = R_free fp -> l !! i = Some (Some p) -> wp (thread_step i w p) (good l i p t) g.
Proof.
  intros Hp Hl. destruct (at_p _ _ _ Hl) as [E _]. pose proof (r_knows _ _ _ R _ _ E) as K.
  destruct Hp as [-> | ->]; destruct K as (o & Ho & K).
  - apply wp_bind, (wp_mutex_destroy _ _ _ _ Ho); [done|].
    apply (writes_private _ _ _ _ _ _ R Hl _ o); try done; [by right|by left|]. written.
  - by apply (frees status l i _ g t R Hl fp o).
Qed.

(** Every step is defined, and keeps the invariant or implements the table. *)
Lemma m3_thread_ok p : l !! i = Some (Some p) -> wp (thread_step i w p) (good l i p t) g.
Proof.
  intros Hl. destruct (at_p _ _ _ Hl) as [E _]. pose proof (r_knows _ _ _ R _ _ E) as K.
  pose proof (fun fp => owns fp p Hl) as L.
  destruct p; try done;
    try (by apply (locks_hash _ _ _ _ _ _ R Hl)); try (by apply (unlocks_hash _ _ _ _ _ _ R Hl)).
  all: try first
    [ by eapply alloc_others; [eauto|] | by eapply m3_alloc_fields; [eauto 6|] | by eapply counts_up; [eauto|]
    | by eapply finds; [eauto|] | by apply m3_rele_decr | by eapply m3_rele_walks; [eauto 6|]
    | by eapply m3_rele_cuts; [eauto|] | by eapply m3_rele_frees; [eauto|] ].
  - apply (locks_fp _ _ _ _ _ _ _ R Hl C); try done. by apply L, m3_gave_object.
  - apply (unlocks_fp _ _ _ _ _ _ R Hl); try done. left. by apply L, m3_gave_object.
  Unshelve. all: exact NULL.
Qed.
End operations.

(** A step is held up only by a mutex, never inside an object's. *)
Lemma m3_waits i p g g' :
  thread_step i no_memory p g = Ret None g' -> ends p = None ->
  holds_fp p = None /\
  (holds_hash p = false /\ (exists j, hashlock g = Locked j) \/
   exists fp o j, mem g !! fp = Some o /\ f_lock o = Locked j).
Proof.
  intros H D.
  destruct p; cbn [thread_step foo_alloc_step foo_hold_step foo_find_step foo_rele_step] in H; try done;
    try (split; [done|]; right; by eapply lock_fp_waits);
    try (split; [done|]; left; split; [done|]; by eapply lock_hash_waits).
  all: never_waits H.
Qed.

(** ** Races *)

Lemma m3_touches_protected l i p g t b x :
  in_memory l g t -> counted (Sys t (stats status l) b) -> l !! i = Some (Some p) ->
  x ∈ accesses p -> protected t p x.
Proof.
  intros R C Hl. destruct (at_p _ _ _ Hl) as [E _]. pose proof (r_knows _ _ _ R _ _ E) as K.
  pose proof (fun fp => owns l i t b C fp p Hl) as Ow.
  assert (Le : forall fp, last_one g t fp -> fp ∈ (tab t).*1) by (by intros fp [[? _] _]).
  destruct p; cbn [accesses mutex3_program touches]; rewrite ?elem_of_cons, ?elem_of_nil; try tauto;
    try (intros [-> |[-> | []]]; cbn; by auto); try (intros [-> | []]; cbn; by auto);
    try (intros [-> |[-> |[-> | []]]]; cbn; by auto).
  - intros [-> | []]. left. split; [|done]. apply Ow. cbn. multiset_solver.
  - case_match; [by intros ?%elem_of_nil|]. rewrite elem_of_cons, elem_of_nil. intros [-> | []]. left.
    split; [|done]. apply (searched_in_table t id fp K). intros ->. done.
  - intros [-> | []]. left. by destruct K as (_ & ? & _).
  - intros [-> | []]. left. split; [|done]. apply find_id_elem in K. by apply (list_elem_of_fmap_2 fst) in K.
  - intros [-> | []]. left. split; [|done]. apply Ow. cbn. multiset_solver.
  - intros [-> |[-> | []]]; [left|done]. split; [|done]. by apply Le, K.
  - intros [-> | []]. left. split; [|done]. by apply (walked_in_table t fp tfp false), K.
  - intros [-> | []]. left. split; [|done]. by apply (walked_in_table t fp tfp true), K.
  - intros [-> |[-> | []]]; left; (split; [|done]); [by apply Le, K|].
    destruct K as (_ & idx & l1 & l2 & _ & Eb). apply (bucket_in idx). rewrite Eb, elem_of_app. right. left.
Qed.

Lemma m3_writes_touched i w p g p' g' x v :
  thread_step i w p g = Ret (Some p') g' -> peek x g = Some v -> x ∉ accesses p -> peek x g' = Some v.
Proof.
  intros H Hv Hx. rewrite <- Hv.
  destruct p; cbn [thread_step foo_alloc_step foo_hold_step foo_find_step foo_rele_step accesses mutex3_program touches] in *.
  all: revert H; unfold unlock_hash, lock_hash, lock_fp, unlock_fp, lock, unlock, malloc, put_fh, get_fh, incr,
    mutex_init, mutex_destroy, free, update, load, goto, ret, modify, skip, undef, bind, gets.
  all: repeat (case_match; simplify_eq; try done).
  all: destruct x; peek_written Hx Hv.
Qed.

(** The objects of the table change only under [hashlock]. *)
Lemma m3_same_table l i p g w p' g' t t' :
  holds_hash p = false -> l !! i = Some (Some p) -> thread_step i w p g = Ret (Some p') g' ->
  in_memory (<[i := Some p']> l) g' t' -> takes_effect (status p) t (status p') t' -> tab t' = tab t.
Proof.
  intros Hh Hl H R' T.
  destruct p; try done; try (by inversion T);
    cbn [thread_step foo_alloc_step foo_hold_step foo_find_step foo_rele_step] in *; run_step H.
  all: inversion T as [o r ? ? A]; try done; subst; inversion A; try done; subst.
Qed.

(** ** Termination *)

(** Steps a thread still takes at most, when there are at most [n] objects. *)
Definition steps_left (n : nat) (t : table) (p : pc) : nat :=
  match p with
  | A_malloc _ => 11 | A_count _ _ => 10 | A_id _ _ => 9 | A_init _ _ => 8 | A_free _ _ => 1
  | A_lockhash _ _ => 7 | A_next _ _ => 6 | A_head _ _ => 5 | A_lock _ _ => 4
  | A_unlockhash _ _ => 3 | A_unlock _ _ => 2
  | H_lockhash _ => 3 | H_incr _ => 2 | H_unlockhash _ => 1
  | F_lockhash _ => 7 + 2 * n | F_head _ => 6 + 2 * n
  | F_test _ fp => 5 + (if (fp =? NULL)%Z then 0 else 2 * S (behind fp (tab t)))
  | F_next _ fp => 6 + 2 * behind fp (tab t)
  | F_incr _ _ => 2 | F_unlockhash _ _ => 1
  | R_lockhash _ => 11 + 2 * n | R_decr _ => 10 + 2 * n
  | R_idx _ => 8 + 2 * n | R_head _ _ => 7 + 2 * n | R_cuthead _ _ => 5
  | R_while _ tfp => 6 + 2 * behind tfp (tab t) | R_walk _ tfp => 5 + 2 * behind tfp (tab t)
  | R_cut _ _ => 5 | R_unlockhash _ => 3 | R_destroy _ => 2 | R_free _ => 1
  | R_unlockhash2 _ => 1
  | Done _ _ => 0
  end%nat.

Lemma m3_steps_le n n' t p : (n' <= n)%nat -> (steps_left n' t p <= steps_left n t p)%nat.
Proof. intros H. destruct p; cbn [steps_left]; lia. Qed.

Lemma m3_steps_other n t t' p :
  (holds_hash p = true -> tab t' = tab t) -> steps_left n t' p = steps_left n t p.
Proof. intros H. destruct p; cbn [steps_left holds_hash] in *; rewrite ?H; done. Qed.

Lemma m3_steps_answered n t t' p o r : status p = Answered o r -> steps_left n t' p = steps_left n t p.
Proof. by destruct p. Qed.

Lemma m3_steps_decrease l i g t b w n n' p p' g' :
  in_memory l g t -> counted (Sys t (stats status l) b) ->
  l !! i = Some (Some p) -> thread_step i w p g = Ret (Some p') g' ->
  (length (tab t) <= n)%nat -> (n' <= n)%nat -> (steps_left n' t p' < steps_left n t p)%nat.
Proof.
  intros R C Hl H Hn Hn'. destruct (at_p _ _ _ Hl) as [E _]. pose proof (r_knows _ _ _ R _ _ E) as K.
  destruct p; cbn [thread_step foo_alloc_step foo_hold_step foo_find_step foo_rele_step] in *.
  all: try (run_step H; cbn [steps_left]; lia).
  - destruct (fh_lookup l g t id R) as [a Ha]. apply head_behind with (1 := R) in Ha as Hb; [|apply HASH_range].
    run_step H. cbn [steps_left]. destruct Hb as [-> |Hb]; [cbn; lia|]. destruct (_ =? _); lia.
  - destruct (fp =? NULL) eqn:Ez; run_step H; cbn [steps_left]; rewrite ?Ez; lia.
  - destruct K as (K & Hfp & _). run_step H. cbn [steps_left].
    destruct (searched_behind _ _ _ R id fp _ K Hfp ltac:(done)) as [-> |[Nz Hb]]; [cbn; lia|].
    rewrite (proj2 (Z.eqb_neq _ _) Nz). lia.
  - destruct K as [[[Hfp _] _] K2]. destruct (chain_of _ _ _ R fp idx Hfp K2) as (a & Ha & Eh & Hin & _).
    assert (Hb : (behind a (tab t) < length (tab t))%nat).
    { apply behind_lt, (bucket_in idx). destruct (bucket idx (tab t)) as [|x r]; [by apply elem_of_nil in Hin|].
      subst a. left. }
    run_step H; cbn [steps_left]; lia.
  - destruct K as [K1 K2]. run_step H. cbn [steps_left].
    pose proof (walked_behind _ _ _ R fp tfp _ K2 ltac:(done)). lia.
Qed.

#[export] Instance mutex3_implements : Implements pc.
Proof.
  refine {| status_of := status; rank := steps_left |}.
  - by intros [].
  - intros p o r H. destruct p; try done. by injection H as -> ->.
  - intros l i p g t b w R C. by apply (m3_thread_ok l i g t b w R C).
  - apply m3_waits.
  - apply m3_touches_protected.
  - apply m3_writes_touched.
  - apply m3_same_table.
  - apply m3_steps_le.
  - apply m3_steps_other.
  - apply m3_steps_answered.
  - apply m3_steps_decrease.
Defined.

(** * The theorems *)

(** What callers see of mutex3.c under any interleaving is what they see
    of the atomic table, the specification that mutex2.c implements too. *)
Theorem mutex3_atomic n tr (s : sys pc globals) :
  runs (idle n fh_static) tr s -> exists t, runs (idle n (Table [] ∅)) tr (atomic s t).
Proof. apply program_atomic. Qed.

(** In every run of mutex3.c each step of each thread is defined, no two
    threads are about to access the same place, the threads can take only a
    bounded number of steps without a new call and some thread can step as
    long as one is inside an operation; and when none is, memory holds the
    objects referred to with their counts and nothing else. *)
Theorem mutex3_sound n tr (s : sys pc globals) :
  runs (idle n fh_static) tr s ->
  (forall i p, threads s !! i = Some (Some p) ->
     (forall w, exists r g', code i w p (shared s) = Ret r g') /\
     forall j q x, threads s !! j = Some (Some q) -> x ∈ accesses p -> x ∈ accesses q -> j = i) /\
  (exists K, forall k s', nsteps works k s s' ->
     (k <= K)%nat /\ ((exists s'', works s' s'') \/ all_idle s')) /\
  (all_idle s -> forall fp,
     match mem (shared s) !! fp with
     | Some o => 1 <= f_count o /\ f_count o = Z.of_nat (multiplicity fp (bag s))
     | None => multiplicity fp (bag s) = 0%nat
     end).
Proof.
  intros H. split_and!.
  - intros i p Hi. destruct (program_safe n tr s H i p Hi) as [A B]. split; [|done].
    intros w. destruct (A w) as (r & g' & E & _). eauto.
  - by apply (program_completes n tr).
  - intros I fp. destruct (program_memory n tr s H I) as [_ M]. specialize (M fp).
    destruct (mem (shared s) !! fp); [|done]. by destruct M.
Qed.

(** * A run *)

Definition w100 : world := World 100 (mk_foo 5 Uninit 9 77) 0.
Definition w200 : world := World 200 (mk_foo 1 Uninit 2 3) 0.
(** Two objects in one chain; the older is released while the other thread
    waits to find it. *)
Definition demo1 : list (move world) :=
  Calls 0 (Alloc 7) :: replicate 10 (Steps 0 w100) ++ [Returns 0; Calls 0 (Alloc 36)] ++
  replicate 10 (Steps 0 w200) ++ [Returns 0; Calls 0 (Rele 100); Calls 1 (Find 7)] ++ replicate 4 (Steps 0 w100).
Definition demo2 : list (move world) :=
  demo1 ++ replicate 5 (Steps 0 w100) ++ [Returns 0] ++ replicate 6 (Steps 1 w100) ++ [Returns 1].

Lemma m3_demo1_runs : schedule (pc := pc) next (idle 2 fh_static) demo1 <> None.
Proof. vm_compute. discriminate. Qed.
Lemma m3_demo2_runs : schedule (pc := pc) next (idle 2 fh_static) demo2 <> None.
Proof. vm_compute. discriminate. Qed.

Example m3_demo1_threads : threads (run_of (pc := pc) 2 demo1).2 = [Some (R_while 100 200); Some (F_lockhash 7)].
Proof. vm_compute. reflexivity. Qed.
Example m3_demo2_trace :
  (run_of (pc := pc) 2 demo2).1 = [Called 0 (Alloc 7); Returned 0 (Alloc 7) (Obj 100);
    Called 0 (Alloc 36); Returned 0 (Alloc 36) (Obj 200); Called 0 (Rele 100); Called 1 (Find 7);
    Returned 0 (Rele 100) Void; Returned 1 (Find 7) (Obj NULL)].
Proof. vm_compute. reflexivity. Qed.

Lemma mutex3_atomic_witness :
  exists t, runs (idle 2 (Table [] ∅)) (run_of (pc := pc) 2 demo2).1 (atomic (run_of (pc := pc) 2 demo2).2 t).
Proof. apply mutex3_atomic, run_of_runs, m3_demo2_runs. Defined.

Lemma mutex3_sound_witness :
  (forall w, exists r g', code 0 w (R_while 100 200) (shared (run_of (pc := pc) 2 demo1).2) = Ret r g') /\
  (exists K, forall k s', nsteps works k (run_of (pc := pc) 2 demo1).2 s' ->
     (k <= K)%nat /\ ((exists s'', works s' s'') \/ all_idle s')) /\
  exists o, mem (shared (run_of (pc := pc) 2 demo2).2) !! 200 = Some o /\ f_count o = 1.
Proof.
  destruct (mutex3_sound 2 _ _ (run_of_runs (pc := pc) 2 demo1 m3_demo1_runs)) as (A & B & _).
  destruct (mutex3_sound 2 _ _ (run_of_runs (pc := pc) 2 demo2 m3_demo2_runs)) as (_ & _ & M).
  split; [|split; [exact B|]].
  - apply A. vm_compute. reflexivity.
  - assert (I : all_idle (run_of (pc := pc) 2 demo2).2) by (intros [|[|i]] p; vm_compute; discriminate).
    specialize (M I 200). destruct (mem _ !! 200) as [o|] eqn:E; [|by vm_compute in M].
    exists o. split; [done|]. destruct M as [_ ->]. vm_compute. reflexivity.
Defined.
