(* ===== verification/EventLoop.v ===== *)
(** Event loops over descriptors, as the servers built on select and poll
    share them: what the kernel answers in a round, the system calls a round
    makes, and tables of clients whose free entries hold a negative
    descriptor. *)
From Stdlib Require Import ZArith Lia.
From stdpp Require Import base list strings gmap sets numbers.
From S2P Require Import Prelude CFile.
Local Open Scope c_scope.

(** * The kernel *)

(** What [read] returns: data (none at the end of the stream), or an error. *)
Inductive answer := Data (d : bytes) | Failed (errno : Z).

(** The kernel's side of one round: whether waiting fails, which events each
    descriptor has, the descriptor [accept] returns, what [read] returns on
    each descriptor, and whether everything given to [write] is taken. *)
Record kernel := Kernel {
  wait_fails : bool;
  events : Z -> Z;
  newfd : Z;
  reads : Z -> answer;
  writes : Z -> bool
}.

(** The system calls that succeeded, as the program makes them. *)
Inductive call := Accept (fd : Z) | Read (fd : Z) (d : bytes) | Write (fd : Z) (d : bytes) | Close (fd : Z).

#[export] Instance call_eq_dec : EqDecision call.
Proof. solve_decision. Defined.

(** [select] leaves in the set the descriptors below [nfds] that are ready,
    and returns their number. *)
Definition select (k : kernel) (nfds : Z) (rset : gset Z) : gset Z :=
  filter (fun fd => fd < nfds /\ events k fd <> 0) rset.

(** The sets of select are arrays of bits. *)
Definition FD_SETSIZE : Z := 1024.
Definition in_set (fd : Z) : bool := (0 <=? fd) && (fd <? FD_SETSIZE).

(** What the calls of a program did: the descriptors it has open, and what it
    received and sent on each. *)
Fixpoint opened (tr : list call) (s : gset Z) : gset Z :=
  match tr with
  | [] => s
  | Accept fd :: tr => opened tr ({[fd]} ∪ s)
  | Close fd :: tr => opened tr (s ∖ {[fd]})
  | _ :: tr => opened tr s
  end.
Definition received (fd : Z) (tr : list call) : bytes :=
  concat (omap (fun c => match c with Read f d => if f =? fd then Some d else None | _ => None end) tr).
Definition sent (fd : Z) (tr : list call) : bytes :=
  concat (omap (fun c => match c with Write f d => if f =? fd then Some d else None | _ => None end) tr).

Lemma opened_app t1 t2 s : opened (t1 ++ t2) s = opened t2 (opened t1 s).
Proof. revert s. induction t1 as [|[] t1 IH]; intros s; cbn; auto. Qed.
Lemma received_app fd t1 t2 : received fd (t1 ++ t2) = received fd t1 ++ received fd t2.
Proof. unfold received. by rewrite omap_app, concat_app. Qed.
Lemma sent_app fd t1 t2 : sent fd (t1 ++ t2) = sent fd t1 ++ sent fd t2.
Proof. unfold sent. by rewrite omap_app, concat_app. Qed.

(** * Tables of clients *)

Section table.
Context {A : Type} (fd_of : A -> Z).

(** The descriptors in use, in the order of the table. *)
Definition used (l : list A) : list Z := filter (fun fd => 0 <= fd) (fd_of <$> l).

Lemma used_app l1 l2 : used (l1 ++ l2) = used l1 ++ used l2.
Proof. unfold used. by rewrite fmap_app, list.filter_app. Qed.

Lemma used_cons x l : used (x :: l) = (if decide (0 <= fd_of x) then [fd_of x] else []) ++ used l.
Proof. unfold used. cbn [fmap list_fmap]. rewrite filter_cons. by destruct (decide _). Qed.

Lemma elem_of_used fd l : fd ∈ used l <-> exists i x, l !! i = Some x /\ fd_of x = fd /\ 0 <= fd.
Proof.
  unfold used. rewrite list_elem_of_filter, list_elem_of_fmap. split.
  - intros [H (x & -> & [i Hi]%list_elem_of_lookup)]. eauto.
  - intros (i & x & Hi & <- & H). split; [done|]. exists x. split; [done|]. by eapply list_elem_of_lookup_2.
Qed.

Lemma used_split l i x : l !! i = Some x ->
  used l = used (take i l) ++ (if decide (0 <= fd_of x) then [fd_of x] else []) ++ used (drop (S i) l).
Proof.
  intros H. rewrite <-(take_drop_middle _ _ _ H) at 1. by rewrite used_app, used_cons.
Qed.

Lemma used_insert l i x y : l !! i = Some x ->
  used (<[i := y]> l) = used (take i l) ++ (if decide (0 <= fd_of y) then [fd_of y] else []) ++ used (drop (S i) l).
Proof.
  intros H. assert (Hi : (i < length l)%nat) by by eapply lookup_lt_Some.
  rewrite insert_take_drop by done. by rewrite used_app, used_cons.
Qed.

Lemma used_unique l i j x y :
  NoDup (used l) -> l !! i = Some x -> l !! j = Some y -> fd_of x = fd_of y -> 0 <= fd_of x -> i = j.
Proof.
  revert i j. induction l as [|z l IH]; intros [|i] [|j]; cbn [lookup list_lookup]; try done; intros Hn Hi Hj E H0.
  - injection Hi as ->. rewrite used_cons, decide_True in Hn by done. apply list.NoDup_cons in Hn as [N _].
    destruct N. apply elem_of_used. exists j, y. auto.
  - injection Hj as ->. rewrite used_cons, decide_True in Hn by lia. apply list.NoDup_cons in Hn as [N _].
    destruct N. apply elem_of_used. exists i, x. split; [done|]. split; [done|lia].
  - f_equal. apply (IH i j); try done. rewrite used_cons in Hn. by apply list.NoDup_app in Hn as (_ & _ & ?).
Qed.

(** Filling a free entry, and freeing one. *)
Lemma used_fill l i x y : l !! i = Some x -> fd_of x < 0 -> 0 <= fd_of y ->
  used (<[i := y]> l) ≡ₚ fd_of y :: used l.
Proof.
  intros H Hx Hy. rewrite (used_insert _ _ _ _ H), (used_split _ _ _ H).
  rewrite decide_True, decide_False by lia. cbn. by rewrite Permutation_middle.
Qed.

Lemma used_clear l i x y : l !! i = Some x -> 0 <= fd_of x -> fd_of y < 0 ->
  used l ≡ₚ fd_of x :: used (<[i := y]> l).
Proof.
  intros H Hx Hy. rewrite (used_insert _ _ _ _ H), (used_split _ _ _ H).
  rewrite decide_True, decide_False by lia. cbn. by rewrite Permutation_middle.
Qed.

Lemma used_drop_nil l m n : used (drop m l) = [] -> (m <= n)%nat -> used (drop n l) = [].
Proof.
  intros E H. replace n with (m + (n - m))%nat by lia. rewrite <-drop_drop.
  rewrite <-(take_drop (n - m) (drop m l)), used_app in E. by apply app_eq_nil in E as [_ ?].
Qed.

(** A table longer than the descriptors there can be has a free entry. *)
Lemma used_length_range l n : NoDup (used l) -> (forall fd, fd ∈ used l -> fd < Z.of_nat n) -> (length (used l) <= n)%nat.
Proof.
  intros H1 H2. rewrite <-(length_seq n 0), <-(length_fmap Z.of_nat).
  apply submseteq_length, NoDup_submseteq; [done|]. intros fd Hfd.
  pose proof (H2 _ Hfd). apply list_elem_of_filter in Hfd as [H0 _].
  apply list_elem_of_fmap. exists (Z.to_nat fd). split; [lia|]. apply elem_of_seq. lia.
Qed.

Lemma used_free l : (length (used l) < length l)%nat -> exists i x, l !! i = Some x /\ fd_of x < 0.
Proof.
  induction l as [|x l IH]; cbn [length]; [cbn; lia|]. rewrite used_cons, length_app.
  destruct (decide (0 <= fd_of x)) as [Hx|Hx]; cbn [length app]; intros H.
  - destruct IH as (i & y & Hi & Hy); [lia|]. by exists (S i), y.
  - exists 0%nat, x. split; [done|lia].
Qed.
End table.

(** * The abstract echo server *)

Definition MAXLINE : nat := 4096.
#[global] Arguments MAXLINE : simpl never.
Definition ECONNRESET : Z := 54.

(** The listening descriptor is [l]; [o] are the open descriptors. *)
Definition ready (k : kernel) (fd : Z) : Prop := events k fd <> 0.
#[export] Instance ready_dec k fd : Decision (ready k fd).
Proof. unfold ready. apply _. Defined.

Definition ready_clients (l : Z) (k : kernel) (o : gset Z) : gset Z :=
  filter (fun fd => fd <> l /\ ready k fd) o.

(** A client leaves when its stream ends or its connection is reset. *)
Definition leaves (k : kernel) (fd : Z) : Prop := reads k fd = Data [] \/ reads k fd = Failed ECONNRESET.
#[export] Instance leaves_dec k fd : Decision (leaves k fd).
Proof.
  unfold leaves. destruct (reads k fd) as [d|e].
  - destruct (decide (d = [])) as [->|N]; [by left; left|]. by right; intros [[= H]|]; try done.
  - destruct (decide (e = ECONNRESET)) as [->|N]; [by left; right|]. right. intros [|[= H]]; done.
Defined.

(** What is done for a ready client: its data is read and sent back. *)
Definition handled (k : kernel) (fd : Z) : list call :=
  match reads k fd with
  | Data [] => [Read fd []; Close fd]
  | Data d => [Read fd (take MAXLINE d); Write fd (take MAXLINE d)]
  | Failed e => if e =? ECONNRESET then [Close fd] else []
  end.
Definition replies (k : kernel) (fds : list Z) : list call := concat (handled k <$> fds).
Definition arrivals (l : Z) (k : kernel) : list call := if decide (ready k l) then [Accept (newfd k)] else [].

(** The descriptors open after a round. *)
Definition after (l : Z) (k : kernel) (o : gset Z) : gset Z :=
  (if decide (ready k l) then {[newfd k]} else ∅) ∪ (o ∖ filter (leaves k) (ready_clients l k o)).

(** A run of the server: every round takes the connection that is waiting,
    and serves each ready client once. *)
Inductive echoes (l : Z) : list kernel -> gset Z -> list call -> Prop :=
| echoes_nil o : echoes l [] o []
| echoes_round k ks o fds tr :
  fds ≡ₚ elements (ready_clients l k o) ->
  echoes l ks (after l k o) tr ->
  echoes l (k :: ks) o (arrivals l k ++ replies k fds ++ tr).

(** What the kernel promises along such a run, [ok] in each round. *)
Fixpoint keeps (ok : kernel -> gset Z -> Prop) (l : Z) (ks : list kernel) (o : gset Z) : Prop :=
  match ks with [] => True | k :: ks => ok k o /\ keeps ok l ks (after l k o) end.

#[export] Instance keeps_dec (ok : kernel -> gset Z -> Prop) `{!forall k o, Decision (ok k o)} l ks o :
  Decision (keeps ok l ks o).
Proof. revert o. induction ks as [|k ks IH]; intros o; cbn; apply _. Defined.

(** An answer that is an error. *)
Definition fails (k : kernel) : Prop :=
  wait_fails k = true \/ newfd k < 0 \/ exists fd, writes k fd = false \/ exists e, reads k fd = Failed e.

(** Whatever the interleaving of clients, each gets its own data back. *)
Lemma echoes_faithful l ks o tr fd : echoes l ks o tr -> sent fd tr = received fd tr.
Proof.
  induction 1 as [|k ks o fds tr _ _ IH]; [done|]. rewrite !sent_app, !received_app, IH. f_equal.
  { unfold arrivals. by destruct (decide _). }
  f_equal. induction fds as [|f fds IHf]; [done|]. unfold replies in *. cbn [fmap list_fmap concat].
  rewrite sent_app, received_app, IHf. f_equal. unfold handled, sent, received.
  destruct (reads k f) as [[|b d]|e]; cbn; [by destruct (f =? fd)|by destruct (f =? fd)|].
  by destruct (e =? _).
Qed.

Lemma opened_replies k fds o :
  opened (replies k fds) o = o ∖ list_to_set (filter (leaves k) fds).
Proof.
  revert o. induction fds as [|fd fds IH]; intros o; [cbn; set_solver|].
  unfold replies in *. cbn [fmap list_fmap concat]. rewrite opened_app, IH, filter_cons. unfold handled.
  destruct (decide (leaves k fd)) as [H|H].
  - rewrite list_to_set_cons. destruct H as [-> | ->]; cbn; set_solver.
  - destruct (reads k fd) as [[|b d]|e] eqn:E; cbn [opened]; [by destruct H; left|done|].
    destruct (Z.eqb_spec e ECONNRESET) as [->|]; [by destruct H; right|done].
Qed.

Lemma opened_round l k fds o : (newfd k ∉ o) -> fds ≡ₚ elements (ready_clients l k o) ->
  opened (arrivals l k ++ replies k fds) o = after l k o.
Proof.
  intros N E. rewrite opened_app, opened_replies. unfold after.
  assert ((list_to_set (filter (leaves k) fds) : gset Z) = filter (leaves k) (ready_clients l k o)) as ->.
  { apply set_eq. intros x. rewrite elem_of_list_to_set, list_elem_of_filter, elem_of_filter, E. by rewrite elem_of_elements. }
  unfold arrivals. destruct (decide (ready k l)); cbn [opened]; [|set_solver].
  unfold ready_clients. set_solver.
Qed.


(** * Sweeping a table *)

(** A pass over the entries of a table that serves the clients in [rset],
    doing [acts] for each; the entry of a client that leaves is cleared. *)
Section sweep.
Context {A T : Type} (fd_of : A -> Z) (clear : A -> A) (gone : Z -> Prop) `{gone_dec : !forall fd, Decision (gone fd)} (acts : Z -> list T) (rset : gset Z).
Hypothesis clear_free : forall x, fd_of (clear x) < 0.
Hypothesis rset_pos : forall fd, fd ∈ rset -> 0 <= fd.
Implicit Types (l : list A) (tr : list T).

Definition entry_after (x : A) : A := if decide (fd_of x ∈ rset /\ gone (fd_of x)) then clear x else x.
(** The clients still to be served from index [i] on. *)
Definition todo (i : nat) l : list Z := filter (fun fd => fd ∈ rset) (used fd_of (drop i l)).
(** What the pass does from index [i] on. *)
Definition swept (i : nat) l tr l' tr' : Prop :=
  l' = take i l ++ (entry_after <$> drop i l) /\ tr' = tr ++ concat (acts <$> todo i l).

Lemma entry_after_other l : (forall x, x ∈ l -> fd_of x ∉ rset) -> entry_after <$> l = l.
Proof.
  intros H. induction l as [|c l IH]; [done|]. cbn [fmap list_fmap].
  rewrite IH by (intros x Hx; apply H; by right). f_equal.
  unfold entry_after. rewrite decide_False; [done|]. intros [? _]. by apply (H c); [left|].
Qed.

Lemma used_after l : used fd_of (entry_after <$> l) = filter (fun fd => ~ (fd ∈ rset /\ gone fd)) (used fd_of l).
Proof.
  induction l as [|c l IH]; [done|]. cbn [fmap list_fmap]. rewrite !used_cons, list.filter_app, IH. f_equal.
  unfold entry_after. destruct (decide (fd_of c ∈ rset /\ gone (fd_of c))) as [H|H].
  - rewrite decide_False by (pose proof (clear_free c); lia). destruct (decide (0 <= fd_of c)); [|done].
    rewrite filter_cons, decide_False by tauto. done.
  - destruct (decide (0 <= fd_of c)); [|done]. by rewrite filter_cons, decide_True.
Qed.

Lemma todo_step i l c : l !! i = Some c ->
  todo i l = (if decide (fd_of c ∈ rset) then [fd_of c] else []) ++ todo (S i) l.
Proof.
  intros H. unfold todo. rewrite (drop_S _ _ _ H), used_cons, list.filter_app. f_equal.
  destruct (decide (0 <= fd_of c)) as [Hc|Hc].
  - by rewrite filter_cons, filter_nil.
  - rewrite decide_False; [done|]. by intros ?%rset_pos.
Qed.

Lemma todo_nil i l : todo i l = [] -> entry_after <$> drop i l = drop i l.
Proof.
  intros H. apply entry_after_other. intros c [j Hj]%list_elem_of_lookup Hcr. apply (not_elem_of_nil (fd_of c)).
  rewrite <-H. unfold todo. apply list_elem_of_filter. split; [done|]. apply elem_of_used.
  exists j, c. auto.
Qed.

Lemma swept_end i l tr : todo i l = [] -> swept i l tr l tr.
Proof. intros H. unfold swept. rewrite (todo_nil _ _ H), take_drop, H. cbn. by rewrite app_nil_r. Qed.

Lemma swept_skip i l tr l' tr' c :
  l !! i = Some c -> (fd_of c ∉ rset) -> swept (S i) l tr l' tr' -> swept i l tr l' tr'.
Proof.
  intros Hc N [-> ->]. unfold swept. rewrite (todo_step _ _ _ Hc), decide_False by done. split; [|done].
  rewrite (drop_S _ _ _ Hc), (take_S_r _ _ _ Hc), <-app_assoc. cbn [fmap list_fmap app]. do 2 f_equal.
  unfold entry_after. by rewrite decide_False by tauto.
Qed.

(** The table after a client is served. *)
Definition serve_entry (i : nat) (c : A) l : list A := if decide (gone (fd_of c)) then <[i := clear c]> l else l.

Lemma serve_entry_drop i j c l : (i < j)%nat -> drop j (serve_entry i c l) = drop j l.
Proof. intros H. unfold serve_entry. destruct (decide _); [|done]. by rewrite drop_insert_lt. Qed.

Lemma serve_entry_todo i c l : todo (S i) (serve_entry i c l) = todo (S i) l.
Proof. unfold todo. by rewrite serve_entry_drop by lia. Qed.

Lemma serve_entry_length i c l : length (serve_entry i c l) = length l.
Proof. unfold serve_entry. destruct (decide _); [|done]. by rewrite length_insert. Qed.

Lemma serve_entry_used i c l : l !! i = Some c -> 0 <= fd_of c -> used fd_of (serve_entry i c l) ⊆+ used fd_of l.
Proof.
  intros H H0. unfold serve_entry. destruct (decide _); [|done].
  rewrite (used_clear fd_of l i c (clear c)) by done. by apply submseteq_cons.
Qed.

Lemma swept_serve i l tr l' tr' c :
  l !! i = Some c -> fd_of c ∈ rset ->
  swept (S i) (serve_entry i c l) (tr ++ acts (fd_of c)) l' tr' -> swept i l tr l' tr'.
Proof.
  intros Hc H [-> ->]. unfold swept. rewrite serve_entry_todo, serve_entry_drop by lia.
  rewrite (todo_step _ _ _ Hc), decide_True by done. cbn [app fmap list_fmap concat].
  rewrite <-app_assoc. split; [|done]. rewrite (drop_S _ _ _ Hc). cbn [fmap list_fmap].
  assert (take (S i) (serve_entry i c l) = take i l ++ [entry_after c]) as ->; [|by rewrite <-app_assoc].
  unfold serve_entry, entry_after. destruct (decide (gone (fd_of c))) as [L|L].
  - rewrite decide_True by done. rewrite (take_S_r _ _ (clear c)).
    + by rewrite take_insert_ge by lia.
    + rewrite list_lookup_insert_eq; [done|by eapply lookup_lt_Some].
  - rewrite decide_False by tauto. by apply take_S_r.
Qed.

(** Counting what is left tells when to stop. *)
Lemma todo_last i l c : l !! i = Some c -> fd_of c ∈ rset ->
  Z.of_nat (length (todo i l)) - 1 = Z.of_nat (length (todo (S i) l)).
Proof. intros Hc H. rewrite (todo_step _ _ _ Hc), decide_True by done. cbn [app length]. lia. Qed.
End sweep.
