(* ===== verification/EchoSelect.v ===== *)
(** unpv13e/tcpcliserv/tcpservselect01.c: the echo server that waits for all
    its clients with select. *)
From Stdlib Require Import ZArith Lia.
From stdpp Require Import base list strings gmap sets numbers.
From S2P Require Import Prelude CFile EventLoop.
Local Open Scope c_scope.


(** The variables of [main], and the system calls made so far. *)
Record server := Server {
  client : list Z;
  maxi : Z;
  maxfd : Z;
  allset : gset Z;
  buf : bytes;
  trace : list call
}.
Definition set_client v s := Server v (maxi s) (maxfd s) (allset s) (buf s) (trace s).
Definition set_maxi v s := Server (client s) v (maxfd s) (allset s) (buf s) (trace s).
Definition set_maxfd v s := Server (client s) (maxi s) v (allset s) (buf s) (trace s).
Definition set_allset v s := Server (client s) (maxi s) (maxfd s) v (buf s) (trace s).
Definition set_buf v s := Server (client s) (maxi s) (maxfd s) (allset s) v (trace s).
Definition record_call c s := Server (client s) (maxi s) (maxfd s) (allset s) (buf s) (trace s ++ [c]).

(** Before the loop; the array [buf] is not initialised. *)
Definition start (listenfd : Z) (junk : bytes) : server :=
  Server (replicate (Z.to_nat FD_SETSIZE) (-1)) (-1) listenfd {[listenfd]} junk [].

Definition client_at (i : Z) : M server Z := fun s =>
  if i <? 0 then Undef "client[]"
  else match client s !! Z.to_nat i with Some fd => Ret fd s | None => Undef "client[]" end.
Definition put_client (i fd : Z) : M server unit :=
  client_at i;;; modify (fun s => set_client (<[Z.to_nat i := fd]> (client s)) s).

(** The macros on sets index an array of bits. *)
Definition FD_SET (fd : Z) : M server unit :=
  if in_set fd then modify (fun s => set_allset ({[fd]} ∪ allset s) s) else undef "FD_SET".
Definition FD_CLR (fd : Z) : M server unit :=
  if in_set fd then modify (fun s => set_allset (allset s ∖ {[fd]}) s) else undef "FD_CLR".
Definition FD_ISSET (fd : Z) (rset : gset Z) : M server bool :=
  if in_set fd then ret (bool_decide (fd ∈ rset)) else undef "FD_ISSET".

(** The wrappers end the process when the call fails. *)
Definition Accept_ (k : kernel) : M server Z :=
  die_if (newfd k <? 0) "accept error";;;
  modify (record_call (Accept (newfd k)));;; ret (newfd k).
Definition Read_ (k : kernel) (fd : Z) : M server nat :=
  match reads k fd with
  | Failed _ => die "read error"
  | Data d =>
    let d := take MAXLINE d in
    modify (fun s => set_buf (splice 0 d (buf s)) s);;;
    modify (record_call (Read fd d));;; ret (length d)
  end.
Definition Writen_ (k : kernel) (fd : Z) (n : nat) : M server unit :=
  die_if (negb (writes k fd)) "writen error";;;
  modify (fun s => record_call (Write fd (take n (buf s))) s).
Definition Close_ (fd : Z) : M server unit := modify (record_call (Close fd)).

(** [for (i = 0; i < FD_SETSIZE; i++) if (client[i] < 0) ...]; [n] is the
    number of entries left. *)
Fixpoint slot_loop (n : nat) (i connfd : Z) : M server Z :=
  match n with
  | O => ret i
  | S n =>
    let* c := client_at i in
    if c <? 0 then put_client i connfd;;; ret i else slot_loop n (i + 1) connfd
  end.

(** A new connection; [None] is [continue]. *)
Definition accept_client (k : kernel) (nready : Z) : M server (option Z) :=
  let* connfd := Accept_ k in
  let* i := slot_loop (Z.to_nat FD_SETSIZE) 0 connfd in
  die_if (i =? FD_SETSIZE) "too many clients";;;
  FD_SET connfd;;;
  modify (fun s => if connfd >? maxfd s then set_maxfd connfd s else s);;;
  modify (fun s => if i >? maxi s then set_maxi i s else s);;;
  let nready := nready - 1 in
  ret (if nready <=? 0 then None else Some nready).

(** [for (i = 0; i <= maxi; i++)]. *)
Fixpoint serve_loop (k : kernel) (rset : gset Z) (n : nat) (i nready : Z) : M server unit :=
  match n with
  | O => skip
  | S n =>
    let* sockfd := client_at i in
    if sockfd <? 0 then serve_loop k rset n (i + 1) nready
    else
      let* set := FD_ISSET sockfd rset in
      if set then
        let* n' := Read_ k sockfd in
        (if (n' =? 0)%nat then Close_ sockfd;;; FD_CLR sockfd;;; put_client i (-1)
         else Writen_ k sockfd n');;;
        let nready := nready - 1 in
        if nready <=? 0 then skip else serve_loop k rset n (i + 1) nready
      else serve_loop k rset n (i + 1) nready
  end.

Definition round (listenfd : Z) (k : kernel) : M server unit :=
  die_if (wait_fails k) "select error";;;
  let* rset := gets (fun s => select k (maxfd s + 1) (allset s)) in
  let nready := Z.of_nat (size rset) in
  let* set := FD_ISSET listenfd rset in
  let* r := (if set then accept_client k nready else ret (Some nready)) in
  match r with
  | None => skip
  | Some nready =>
    let* m := gets maxi in
    serve_loop k rset (Z.to_nat (m + 1)) 0 nready
  end.

Fixpoint serve (listenfd : Z) (ks : list kernel) : M server unit :=
  match ks with [] => skip | k :: ks => round listenfd k;;; serve listenfd ks end.

(** A run: a client connects, sends, a second connects while the first sends,
    the first leaves. *)
Definition demo_kernel (ev : list Z) (fd : Z) (rd : list (Z * bytes)) : kernel :=
  Kernel false (fun f => if bool_decide (f ∈ ev) then 1 else 0) fd
    (fun f => match list_find (fun p => p.1 = f) rd with Some (_, (_, d)) => Data d | None => Failed 35 end)
    (fun _ => true).
Definition demo : list kernel :=
  [demo_kernel [3] 4 []; demo_kernel [4] 0 [(4, str "one")]; demo_kernel [3; 4] 5 [(4, str "two")];
   demo_kernel [4; 5] 0 [(4, []); (5, str "hi")]; demo_kernel [3] 4 []].

Example demo_trace :
  match serve 3 demo (start 3 (replicate 4096 0)) with
  | Ret _ s => trace s = [Accept 4; Read 4 (str "one"); Write 4 (str "one"); Accept 5; Read 4 (str "two");
      Write 4 (str "two"); Read 4 []; Close 4; Read 5 (str "hi"); Write 5 (str "hi"); Accept 4]
  | _ => False
  end.
Proof. vm_compute. reflexivity. Qed.

(** * A round *)

Abbreviation used := (EventLoop.used id).
Abbreviation todo := (EventLoop.todo id).
Abbreviation swept k := (EventLoop.swept id (fun _ => -1) (leaves k) (handled k)).

Lemma wpd_client_at s i c (P : Z -> server -> Prop) (D : server -> Prop) :
  client s !! i = Some c -> P c s -> wpd (client_at (Z.of_nat i)) P D s.
Proof. intros H HP. unfold wpd, client_at. rewrite (proj2 (Z.ltb_ge _ _)), Nat2Z.id, H by lia. done. Qed.

Lemma wpd_put_client s i c fd (Q : unit -> server -> Prop) (D : server -> Prop) :
  client s !! i = Some c -> Q tt (set_client (<[i := fd]> (client s)) s) -> wpd (put_client (Z.of_nat i) fd) Q D s.
Proof. intros H HQ. apply wpd_bind, (wpd_client_at _ _ _ _ _ H). cbn. by rewrite Nat2Z.id. Qed.

(** Serving one ready client. *)
Lemma serve_one k s i fd (D : server -> Prop) (Q : unit -> server -> Prop) :
  (forall s', fails k -> D s') ->
  client s !! i = Some fd -> 0 <= fd -> in_set fd = true -> length (buf s) = MAXLINE ->
  (forall b, length b = MAXLINE ->
     Q tt (Server (serve_entry id (fun _ => -1) (leaves k) i fd (client s)) (maxi s) (maxfd s)
             (if decide (leaves k fd) then allset s ∖ {[fd]} else allset s) b (trace s ++ handled k fd))) ->
  wpd (let* n' := Read_ k fd in
       if (n' =? 0)%nat then Close_ fd;;; FD_CLR fd;;; put_client (Z.of_nat i) (-1) else Writen_ k fd n') Q D s.
Proof.
  intros HD Hi Hfd Hin Hb HQ. apply wpd_bind. unfold Read_. destruct (reads k fd) as [d|e] eqn:Er;
    [|apply HD; right; right; eauto].
  assert (Hlen : length (splice 0 (take MAXLINE d) (buf s)) = MAXLINE).
  { rewrite splice_length; [done|]. rewrite length_take. lia. }
  apply wpd_bind, wpd_bind, wpd_ret. specialize (HQ _ Hlen). unfold handled, serve_entry, id in HQ. rewrite Er in HQ.
  destruct d as [|x d].
  - assert (leaves k fd) as L by by left. rewrite !decide_True in HQ by done.
    rewrite take_nil. cbn [length Nat.eqb]. unfold FD_CLR. rewrite Hin.
    apply wpd_bind, wpd_modify, wpd_bind, wpd_modify, (wpd_put_client _ i fd); [done|].
    unfold set_client, set_allset, set_buf, record_call. cbn. by rewrite <-app_assoc.
  - assert (~ leaves k fd) as L by (intros [|]; congruence). rewrite !decide_False in HQ by done.
    cbn [take length Nat.eqb MAXLINE].
    apply wpd_bind, wpd_die_if.
    { intros Hw. apply HD. right. right. exists fd. left. by destruct (writes k fd). }
    intros _. unfold wpd, modify, set_buf, record_call. cbn [buf trace client maxi maxfd allset].
    rewrite splice_front in HQ |- *.
    rewrite take_app_length. by rewrite <-app_assoc.
Qed.

(** The loop serves exactly the ready clients, whatever the break on [nready]. *)
Lemma serve_loop_run k rset n i s (D : server -> Prop) :
  (forall s', fails k -> D s') ->
  (forall c, c ∈ rset -> 0 <= c) ->
  (forall c, c ∈ used (client s) -> in_set c = true) ->
  length (buf s) = MAXLINE -> (i + n <= length (client s))%nat -> used (drop (i + n) (client s)) = [] ->
  let fds := todo rset i (client s) in
  wpd (serve_loop k rset n (Z.of_nat i) (Z.of_nat (length fds)))
    (fun _ s' => swept k rset i (client s) (trace s) (client s') (trace s') /\
       maxi s' = maxi s /\ maxfd s' = maxfd s /\ length (buf s') = MAXLINE /\
       allset s' = allset s ∖ list_to_set (filter (leaves k) fds)) D s.
Proof.
  intros HD Hr. revert i s. induction n as [|n IH]; intros i s Hin Hb Hlen Hend fds.
  { assert (fds = []) as E by (unfold fds, EventLoop.todo; by rewrite Nat.add_0_r in Hend; rewrite Hend).
    cbn [serve_loop]. apply wpd_ret. split; [by apply swept_end|]. rewrite E. split_and!; try done. set_solver. }
  destruct (lookup_lt_is_Some_2 (client s) i ltac:(lia)) as [c Hc]. cbn [serve_loop].
  apply wpd_bind, (wpd_client_at _ _ _ _ _ Hc). replace (Z.of_nat i + 1) with (Z.of_nat (S i)) by lia.
  pose proof (todo_step id rset Hr i _ _ Hc) as Hstep. fold fds in Hstep. change (id c) with c in Hstep.
  destruct (decide (c ∈ rset)) as [Hcr|Hcr].
  2:{ (* not ready *) cbn [app] in Hstep. rewrite Hstep.
    assert (W : wpd (serve_loop k rset n (Z.of_nat (S i)) (Z.of_nat (length (todo rset (S i) (client s)))))
      (fun _ s' => swept k rset i (client s) (trace s) (client s') (trace s') /\
         maxi s' = maxi s /\ maxfd s' = maxfd s /\ length (buf s') = MAXLINE /\
         allset s' = allset s ∖ list_to_set (filter (leaves k) (todo rset (S i) (client s)))) D s).
    { eapply wpd_mono; [apply IH; try done; [lia|by rewrite Nat.add_succ_l, <-Nat.add_succ_r]|].
      intros ? s' [H H']. split; [|done]. by apply (swept_skip id _ (leaves k) _ rset Hr i _ _ _ _ c). }
    destruct (Z.ltb_spec c 0) as [Hneg|Hpos]; [done|].
    unfold FD_ISSET. rewrite Hin by (apply elem_of_used; by exists i, c). apply wpd_bind, wpd_ret.
    by rewrite bool_decide_false. }
  assert (Hpos : 0 <= c) by by apply Hr. rewrite (proj2 (Z.ltb_ge c 0)) by lia.
  assert (Hci : in_set c = true) by (apply Hin, elem_of_used; by exists i, c).
  unfold FD_ISSET. rewrite Hci. apply wpd_bind, wpd_ret. rewrite bool_decide_true by done.
  apply wpd_assoc, wpd_bind, (serve_one _ _ _ _ _ _ HD Hc Hpos Hci Hb). intros b Hb'.
  set (s1 := Server _ _ _ _ b _). pose proof (todo_last id rset Hr i _ c Hc Hcr) as Hn. fold fds in Hn. rewrite Hn.
  assert (Ht1 : todo rset (S i) (client s1) = todo rset (S i) (client s)) by apply serve_entry_todo.
  destruct (Z.leb_spec (Z.of_nat (length (todo rset (S i) (client s)))) 0) as [Hlast|Hmore].
  - assert (todo rset (S i) (client s) = []) as E by (apply nil_length_inv; lia).
    apply wpd_ret. split; [|split_and!; try done].
    + apply (swept_serve id _ (leaves k) _ rset Hr i _ _ _ _ c); [done..|]. apply swept_end; [done|]. by rewrite <-E.
    + rewrite Hstep, E. cbn [app allset s1]. rewrite filter_cons. destruct (decide (leaves k c)); [rewrite list_to_set_cons|]; set_solver.
  - rewrite <-Ht1. eapply wpd_mono; [apply (IH (S i) s1)|]; [|done|..].
    + intros c' Hc'. apply Hin. eapply elem_of_submseteq; [exact Hc'|]. by apply serve_entry_used.
    + cbn. rewrite serve_entry_length. lia.
    + cbn [client s1]. rewrite serve_entry_drop by lia. by rewrite Nat.add_succ_l, <-Nat.add_succ_r.
    + intros ? s' (H & -> & -> & Hb2 & ->). split; [|split_and!; try done].
      * by apply (swept_serve id _ (leaves k) _ rset Hr i _ _ _ _ c).
      * rewrite Ht1, Hstep. cbn [app allset s1]. rewrite filter_cons.
        destruct (decide (leaves k c)); [rewrite list_to_set_cons|]; set_solver.
Qed.

(** * The state between rounds *)

Record server_ok (l : Z) (s : server) : Prop := {
  ok_length : length (client s) = Z.to_nat FD_SETSIZE;
  ok_nodup : NoDup (used (client s));
  ok_listen : 0 <= l /\ (l ∉ used (client s));
  ok_allset : allset s = {[l]} ∪ list_to_set (used (client s));
  ok_maxfd : maxfd s < FD_SETSIZE /\ forall fd, fd ∈ allset s -> fd <= maxfd s;
  ok_maxi : -1 <= maxi s < FD_SETSIZE /\ used (drop (Z.to_nat (maxi s + 1)) (client s)) = [];
  ok_buf : length (buf s) = MAXLINE
}.

Lemma in_set_ok l s fd : server_ok l s -> fd ∈ allset s -> in_set fd = true.
Proof.
  intros H Hfd. pose proof (proj2 (ok_maxfd _ _ H) _ Hfd). pose proof (proj1 (ok_maxfd _ _ H)).
  assert (0 <= fd); [|unfold in_set; lia].
  rewrite (ok_allset _ _ H) in Hfd. apply elem_of_union in Hfd as [->%elem_of_singleton|Hfd]; [apply H|].
  apply elem_of_list_to_set, elem_of_used in Hfd as (? & ? & _ & _ & ?). done.
Qed.

(** What the loop will serve is what is ready, apart from the listening descriptor. *)
Lemma todo_ready l s rset : server_ok l s -> rset ⊆ allset s -> todo rset 0 (client s) ≡ₚ elements (rset ∖ {[l]}).
Proof.
  intros H Hr. apply NoDup_Permutation; [apply list.NoDup_filter, H|apply NoDup_elements|].
  intros x. unfold EventLoop.todo. rewrite drop_0, list_elem_of_filter, elem_of_elements. rewrite (ok_allset _ _ H) in Hr.
  pose proof (proj2 (ok_listen _ _ H)). set_solver.
Qed.

Lemma server_start l junk : 0 <= l < FD_SETSIZE -> length junk = MAXLINE -> server_ok l (start l junk).
Proof.
  intros Hl Hj. assert (used (client (start l junk)) = []) as E by by vm_compute.
  constructor; rewrite ?E; try done; cbn [start maxfd maxi allset client].
  - constructor.
  - split; [lia|apply not_elem_of_nil].
  - set_solver.
  - split; [lia|]. intros fd ->%elem_of_singleton. lia.
Qed.

Lemma serve_phase l s k rset (D : server -> Prop) :
  server_ok l s -> rset ⊆ allset s -> (forall s', fails k -> D s') ->
  wpd (serve_loop k rset (Z.to_nat (maxi s + 1)) 0 (Z.of_nat (size (rset ∖ {[l]}))))
    (fun _ s' => server_ok l s' /\ allset s' = allset s ∖ filter (leaves k) (rset ∖ {[l]}) /\
       exists fds, fds ≡ₚ elements (rset ∖ {[l]}) /\ trace s' = trace s ++ replies k fds) D s.
Proof.
  intros H Hr HD. pose proof (todo_ready _ _ _ H Hr) as Ht.
  assert (length (elements (rset ∖ {[l]})) = length (todo rset 0 (client s))) as E by by rewrite Ht.
  change (size (rset ∖ {[l]})) with (length (elements (rset ∖ {[l]}))). rewrite E. destruct (ok_maxi _ _ H) as [Hm1 Hm2]. pose proof (ok_length _ _ H) as Hl.
  eapply wpd_mono; [apply (serve_loop_run k rset _ 0 s)|]; try done.
  - intros c Hc. pose proof (in_set_ok _ _ c H (Hr _ Hc)) as Hi. unfold in_set in Hi. lia.
  - intros c Hc. apply (in_set_ok l s c H). rewrite (ok_allset _ _ H). set_solver.
  - apply H.
  - lia.
  - intros ? s' ([Hc Htr] & Hi & Hf & Hb & Ha). rewrite take_0, app_nil_l, drop_0 in Hc.
    assert (Hleft : (list_to_set (filter (leaves k) (todo rset 0 (client s))) : gset Z) = filter (leaves k) (rset ∖ {[l]})).
    { apply set_eq. intros x. rewrite elem_of_list_to_set, list_elem_of_filter, Ht, elem_of_elements, elem_of_filter. done. }
    rewrite Hleft in Ha. split_and!; [|done|eauto].
    assert (Hu : used (client s') = filter (fun c => ~ (c ∈ rset /\ leaves k c)) (used (client s))) by (rewrite Hc; by apply used_after).
    constructor.
    + rewrite Hc, length_fmap. apply H.
    + rewrite Hu. apply list.NoDup_filter, H.
    + split; [apply H|]. rewrite Hu, list_elem_of_filter. intros [_ ?]. by apply (ok_listen _ _ H).
    + rewrite Ha, Hu, (ok_allset _ _ H). apply set_eq. intros x.
      rewrite elem_of_difference, elem_of_filter, !elem_of_union, elem_of_difference, !elem_of_list_to_set, list_elem_of_filter, elem_of_singleton.
      pose proof (proj2 (ok_listen _ _ H)) as N. split; [|destruct (decide (x = l)) as [->|]; [tauto|tauto]].
      intros [[->|?] ?]; [by left|]. right. split; [|done]. intros [? ?].
      assert (x <> l) by by intros ->. tauto.
    + rewrite Hf. split; [apply H|]. intros fd Hfd. apply (ok_maxfd _ _ H). rewrite Ha in Hfd. set_solver.
    + rewrite Hi. split; [done|]. rewrite Hc, <-fmap_drop, used_after, Hm2; done.
    + done.
Qed.

(** The first free entry takes the new connection. *)
Lemma slot_loop_run n i connfd s (D : server -> Prop) :
  (i + n = length (client s))%nat -> (exists j c, (i <= j)%nat /\ client s !! j = Some c /\ c < 0) ->
  wpd (slot_loop n (Z.of_nat i) connfd)
    (fun r s' => exists j c, r = Z.of_nat j /\ client s !! j = Some c /\ c < 0 /\
       s' = set_client (<[j := connfd]> (client s)) s) D s.
Proof.
  revert i. induction n as [|n IH]; intros i Hlen (j & c & Hij & Hj & Hc).
  { apply lookup_lt_Some in Hj. lia. }
  destruct (lookup_lt_is_Some_2 (client s) i ltac:(lia)) as [d Hd]. cbn [slot_loop].
  apply wpd_bind, (wpd_client_at _ _ _ _ _ Hd). destruct (Z.ltb_spec d 0) as [Hneg|Hpos].
  - apply wpd_bind, (wpd_put_client _ _ d); [done|]. apply wpd_ret. eauto 8.
  - replace (Z.of_nat i + 1) with (Z.of_nat (S i)) by lia. apply IH; [lia|]. exists j, c. split; [|done].
    destruct (decide (i = j)) as [->|]; [|lia]. rewrite Hd in Hj. injection Hj as ->. lia.
Qed.

(** There are not as many descriptors as entries: a free one is always left. *)
Lemma free_entry l s : server_ok l s -> exists j c, client s !! j = Some c /\ c < 0.
Proof.
  intros H. apply (used_free id). rewrite (ok_length _ _ H).
  assert (length (l :: used (client s)) <= Z.to_nat FD_SETSIZE)%nat; [|cbn in *; lia].
  assert (E : l :: used (client s) = EventLoop.used id (l :: client s)).
  { rewrite used_cons. unfold id. by rewrite decide_True by apply H. }
  assert (Hin : forall fd, fd ∈ l :: used (client s) -> fd ∈ allset s).
  { intros fd Hfd. rewrite (ok_allset _ _ H). set_solver. }
  rewrite E. apply used_length_range; rewrite <-E.
  - constructor; apply H.
  - intros fd Hfd. pose proof (in_set_ok _ _ _ H (Hin _ Hfd)) as Hi. unfold in_set in Hi. lia.
Qed.

Lemma accept_phase l s k nready :
  server_ok l s -> (newfd k ∉ allset s) -> newfd k < FD_SETSIZE ->
  wpd (accept_client k nready)
    (fun r s' => server_ok l s' /\ allset s' = {[newfd k]} ∪ allset s /\ trace s' = trace s ++ [Accept (newfd k)] /\
       r = if nready - 1 <=? 0 then None else Some (nready - 1)) (fun _ => fails k) s.
Proof.
  intros H Hnew Hlim. unfold accept_client, Accept_.
  apply wpd_bind, wpd_bind, wpd_die_if; [intros ?; right; left; lia|]. intros Hpos.
  apply wpd_bind, wpd_modify, wpd_ret, wpd_bind. set (s0 := record_call _ s).
  eapply wpd_mono; [apply (slot_loop_run _ 0)|].
  { by rewrite <-(ok_length _ _ H). }
  { destruct (free_entry _ _ H) as (j & c & ? & ?). exists j, c. split; [lia|done]. }
  intros i s1 (j & c & -> & Hj & Hc & ->). cbn in Hj. pose proof (lookup_lt_Some _ _ _ Hj) as Hlt.
  rewrite (ok_length _ _ H) in Hlt. apply wpd_bind, wpd_die_if; [unfold FD_SETSIZE in *; lia|]. intros _.
  apply wpd_bind. unfold FD_SET. replace (in_set (newfd k)) with true by (unfold in_set; lia).
  apply wpd_modify, wpd_bind, wpd_modify, wpd_bind, wpd_modify, wpd_ret.
  assert (P : used (<[j := newfd k]> (client s)) ≡ₚ newfd k :: used (client s)) by (apply (used_fill id _ _ c); [done|done|cbn; lia]).
  destruct (ok_maxfd _ _ H) as [Hm1 Hm2]. destruct (ok_maxi _ _ H) as [Hi1 Hi2].
  destruct (ok_listen _ _ H) as [Hl1 Hl2]. rewrite (ok_allset _ _ H) in Hnew.
  split_and!; [|by repeat case_match|by repeat case_match|done].
  set (s2 := if _ >? _ then _ else _).
  assert (E : client s2 = <[j := newfd k]> (client s) /\ allset s2 = {[newfd k]} ∪ allset s /\ buf s2 = buf s /\
    maxfd s2 = Z.max (newfd k) (maxfd s) /\ maxi s2 = Z.max (Z.of_nat j) (maxi s)).
  { subst s2. repeat case_match; cbn in *; split_and!; try done; lia. }
  destruct E as (E1 & E2 & E3 & E4 & E5). constructor; rewrite ?E1, ?E2, ?E3, ?E4, ?E5.
  - rewrite length_insert. apply H.
  - rewrite P. constructor; [set_solver|apply H].
  - split; [done|]. rewrite P. set_solver.
  - rewrite (ok_allset _ _ H). apply set_eq. intros x. rewrite !elem_of_union, !elem_of_list_to_set, P, elem_of_cons, !elem_of_singleton. tauto.
  - split; [lia|]. intros fd [->%elem_of_singleton|Hfd]%elem_of_union; [lia|]. apply Hm2 in Hfd. lia.
  - split; [lia|]. rewrite drop_insert_lt by lia. apply (used_drop_nil id _ _ _ Hi2). lia.
  - apply H.
Qed.

Lemma round_ok l s k :
  server_ok l s -> (newfd k ∉ allset s) -> newfd k < FD_SETSIZE ->
  wpd (round l k)
    (fun _ s' => server_ok l s' /\ allset s' = after l k (allset s) /\
       exists fds, fds ≡ₚ elements (ready_clients l k (allset s)) /\
         trace s' = trace s ++ arrivals l k ++ replies k fds) (fun _ => fails k) s.
Proof.
  intros H Hnew Hlim. apply wpd_bind, wpd_die_if; [by left|]. intros _. apply wpd_bind, wpd_gets.
  set (rset := select k (maxfd s + 1) (allset s)).
  assert (Hr : forall fd, fd ∈ rset <-> fd ∈ allset s /\ ready k fd).
  { intros fd. unfold rset, select, ready. rewrite elem_of_filter.
    pose proof (proj2 (ok_maxfd _ _ H) fd). intuition lia. }
  assert (Hrc : rset ∖ {[l]} = ready_clients l k (allset s)).
  { apply set_eq. intros x. unfold ready_clients. rewrite elem_of_difference, Hr, elem_of_filter, elem_of_singleton. tauto. }
  assert (Hl : l ∈ allset s) by (rewrite (ok_allset _ _ H); set_solver).
  unfold FD_ISSET. rewrite (in_set_ok _ _ _ H Hl). apply wpd_bind, wpd_ret, wpd_bind.
  unfold after, arrivals. rewrite <-Hrc. destruct (decide (ready k l)) as [Hrl|Hrl].
  - rewrite bool_decide_true by by apply Hr.
    eapply wpd_mono; [by apply (accept_phase l)|]. intros r s1 (H1 & E1 & E2 & ->).
    assert (Hsz : Z.of_nat (size rset) - 1 = Z.of_nat (size (rset ∖ {[l]}))).
    { rewrite size_difference, size_singleton; [|set_solver].
      assert (size rset <> 0%nat); [|lia]. apply size_non_empty_iff. set_solver. }
    destruct (Z.leb_spec (Z.of_nat (size rset) - 1) 0) as [Hz|Hz].
    + apply wpd_ret. assert (rset ∖ {[l]} = ∅) as -> by (apply leibniz_equiv, size_empty_iff; lia).
      split_and!; [done|rewrite E1; set_solver|]. exists []. by rewrite elements_empty.
    + apply wpd_bind, wpd_gets. rewrite Hsz. eapply wpd_mono; [apply (serve_phase l s1 k rset); [done| |done]|].
      { rewrite E1. set_solver. }
      intros ? s' (H' & Ea & fds & Hp & Ht). split_and!; [done|rewrite Ea, E1|].
      * assert (newfd k ∉ rset) by set_solver. set_solver.
      * exists fds. split; [done|]. by rewrite Ht, E2, <-app_assoc.
  - rewrite bool_decide_false by (rewrite Hr; tauto). apply wpd_ret, wpd_bind, wpd_gets.
    assert (rset ∖ {[l]} = rset) as Hrl' by (apply set_eq; intros x; rewrite elem_of_difference, elem_of_singleton, Hr; naive_solver).
    rewrite <-Hrl' at 2. eapply wpd_mono; [apply (serve_phase l s k rset); [done|set_solver|done]|].
    intros ? s' (H' & Ea & fds & Hp & Ht). split_and!; [done|rewrite Ea; set_solver|]. by exists fds.
Qed.

(** Which kernels the loop works with: [accept] returns a new descriptor, that
    fits in a set. *)
Definition fits (k : kernel) (o : gset Z) : Prop := (newfd k ∉ o) /\ newfd k < FD_SETSIZE.

Lemma serve_ok l ks s :
  server_ok l s -> keeps fits l ks (allset s) ->
  wpd (serve l ks) (fun _ s' => server_ok l s' /\
      exists tr, trace s' = trace s ++ tr /\ echoes l ks (allset s) tr /\ opened tr (allset s) = allset s')
    (fun _ => Exists fails ks) s.
Proof.
  revert s. induction ks as [|k ks IH]; intros s H.
  { intros _. apply wpd_ret. split; [done|]. exists []. rewrite app_nil_r. by split_and!; [|constructor|]. }
  intros Hks. cbn [keeps] in Hks. destruct Hks as [[Hnew Hlim] Hks]. apply wpd_bind.
  eapply wpd_conseq; [by apply (round_ok l s k)| |by intros; apply Exists_cons_hd].
  intros ? s1 (H1 & E1 & fds & Hp & Ht). rewrite <-E1 in Hks.
  eapply wpd_conseq; [by apply (IH s1)| |by intros; apply Exists_cons_tl].
  intros ? s2 (H2 & tr & E2 & He & Ho). split; [done|]. exists (arrivals l k ++ replies k fds ++ tr). split_and!.
  - by rewrite E2, Ht, <-!app_assoc.
  - constructor; [done|]. by rewrite <-E1.
  - by rewrite app_assoc, opened_app, (opened_round _ _ _ _ Hnew Hp), <-E1.
Qed.

(** * The theorem *)

(** Along any run in which descriptors fit in a set, tcpservselect01.c
    either ends because a call failed, or has behaved as the abstract echo
    server (every round takes the connection that waits and serves each ready
    client once, although it stops looking when it has counted enough of
    them); its table holds exactly the descriptors that are open, and each
    client has been sent exactly what it sent. *)
Theorem select_server_echoes l ks junk :
  0 <= l < FD_SETSIZE -> length junk = MAXLINE -> keeps fits l ks {[l]} ->
  wpd (serve l ks)
    (fun _ s => echoes l ks {[l]} (trace s) /\
       opened (trace s) {[l]} = {[l]} ∪ list_to_set (used (client s)) /\ NoDup (l :: used (client s)) /\
       forall fd, sent fd (trace s) = received fd (trace s))
    (fun _ => Exists fails ks) (start l junk).
Proof.
  intros Hl Hj Hk. eapply wpd_mono; [apply (serve_ok l); [by apply server_start|done]|].
  intros ? s (H & tr & -> & He & Ho). cbn in He, Ho |- *. split_and!; [done| | |].
  - by rewrite Ho, (ok_allset _ _ H).
  - constructor; apply H.
  - intros fd. by apply (echoes_faithful l ks {[l]}).
Qed.

(** A connection whose descriptor does not fit in a set makes
    tcpservselect01.c write outside it: nothing compares the descriptor with
    FD_SETSIZE, and the test on the number of clients can not be reached. *)
Theorem select_server_overruns l k s :
  server_ok l s -> ready k l -> wait_fails k = false -> FD_SETSIZE <= newfd k ->
  round l k s = Undef "FD_SET".
Proof.
  intros H Hr Hw Hfd. unfold round. rewrite Hw. cbn [die_if]. unfold bind at 1, skip, ret. rewrite bind_gets.
  assert (Hl : l ∈ allset s) by (rewrite (ok_allset _ _ H); set_solver).
  unfold FD_ISSET. rewrite (in_set_ok _ _ _ H Hl), bool_decide_true.
  2:{ apply elem_of_filter. split; [|done]. split; [pose proof (proj2 (ok_maxfd _ _ H) _ Hl); lia|done]. }
  set (n := Z.of_nat (size _)). clearbody n. unfold bind at 1, ret at 1. unfold bind at 1.
  assert (E : accept_client k n s = Undef "FD_SET"); [|by rewrite E].
  unfold accept_client. rewrite (bind_run _ _ s (newfd k) (record_call (Accept (newfd k)) s)).
  2:{ unfold Accept_. by rewrite (proj2 (Z.ltb_ge _ _)) by (unfold FD_SETSIZE in *; lia). }
  destruct (free_entry _ _ H) as (j & c & Hj & Hc). set (s0 := record_call _ s).
  pose proof (slot_loop_run (Z.to_nat FD_SETSIZE) 0 (newfd k) s0 (fun _ => False) (eq_sym (ok_length _ _ H))) as Hs.
  apply wpd_wp, wp_run in Hs as (r & s1 & E & i & d & -> & Hi & _); [|exists j, c; split; [lia|done]].
  call E. apply lookup_lt_Some in Hi. cbn in Hi. rewrite (ok_length _ _ H) in Hi.
  rewrite (proj2 (Z.eqb_neq _ _)) by (unfold FD_SETSIZE in *; lia). cbn [die_if]. unfold bind at 1, skip, ret.
  unfold FD_SET, in_set. by rewrite (proj2 (Z.ltb_ge (newfd k) _)), andb_false_r by lia.
Qed.

#[export] Instance fits_dec k o : Decision (fits k o).
Proof. unfold fits. apply _. Defined.

Lemma select_demo_returns : returns (serve 3 demo) (start 3 (replicate MAXLINE 0)) = true.
Proof. vm_compute. reflexivity. Qed.

Lemma select_server_echoes_witness :
  exists s, serve 3 demo (start 3 (replicate MAXLINE 0)) = Ret tt s /\ echoes 3 demo {[3]} (trace s).
Proof.
  assert (K : keeps fits 3 demo {[3]}) by (apply (bool_decide_unpack _); vm_compute; done).
  pose proof (select_server_echoes 3 demo (replicate MAXLINE 0) ltac:(done) ltac:(by rewrite length_replicate) K) as W.
  apply wpd_returns in W as ([] & s & E & W); [|exact select_demo_returns]. exists s. split; [done|apply W].
Defined.

Lemma select_server_overruns_witness :
  round 3 (demo_kernel [3] 1024 []) (start 3 (replicate MAXLINE 0)) = Undef "FD_SET".
Proof.
  apply select_server_overruns; [|vm_compute; discriminate|done|vm_compute; discriminate].
  apply server_start; [done|by rewrite length_replicate].
Defined.
