(* ===== verification/EchoPoll.v ===== *)
(** unpv13e/tcpcliserv/tcpservpoll01.c: the echo server that waits for all
    its clients with poll. *)
From Stdlib Require Import ZArith Lia.
From stdpp Require Import base list strings gmap sets numbers.
From S2P Require Import Prelude CFile EventLoop.
Local Open Scope c_scope.

Definition OPEN_MAX : Z := 10240.
Definition POLLERR : Z := 8.
Definition POLLHUP : Z := 16.
Definition POLLNVAL : Z := 32.
Definition POLLRDNORM : Z := 64.

(** An element of the array [client]; a field that was never assigned is
    [None]. *)
Record pollfd := Pollfd { fd : Z; wanted : option Z; revents : option Z }.

Record server := Server {
  client : list pollfd;
  maxi : Z;
  buf : bytes;
  trace : list call
}.
Definition set_client v s := Server v (maxi s) (buf s) (trace s).
Definition set_maxi v s := Server (client s) v (buf s) (trace s).
Definition set_buf v s := Server (client s) (maxi s) v (trace s).
Definition record_call c s := Server (client s) (maxi s) (buf s) (trace s ++ [c]).

(** Before the loop: only the first element has [events]. *)
Definition start (listenfd : Z) (junk : bytes) : server :=
  Server (Pollfd listenfd (Some POLLRDNORM) None :: replicate (Z.to_nat (OPEN_MAX - 1)) (Pollfd (-1) None None))
    0 junk [].

Definition client_at (i : Z) : M server pollfd := fun s =>
  if i <? 0 then Undef "client[]"
  else match client s !! Z.to_nat i with Some p => Ret p s | None => Undef "client[]" end.
Definition put_client (i : Z) (f : pollfd -> pollfd) : M server unit :=
  let* p := client_at i in
  modify (fun s => set_client (<[Z.to_nat i := f p]> (client s)) s).
Definition with_fd v p := Pollfd v (wanted p) (revents p).
Definition with_wanted v p := Pollfd (fd p) (Some v) (revents p).
(** Reading [revents]. *)
Definition revents_of (p : pollfd) : M server Z :=
  match revents p with Some v => ret v | None => undef "revents not initialised" end.

(** [poll] sets [revents] in the first [nfds] elements: zero for a negative
    descriptor, otherwise the events asked for and the errors; it returns how
    many are not zero. *)
Definition poll_entry (k : kernel) (p : pollfd) : option pollfd :=
  if fd p <? 0 then Some (Pollfd (fd p) (wanted p) (Some 0))
  else match wanted p with
       | None => None
       | Some w => Some (Pollfd (fd p) (Some w)
           (Some (Z.land (events k (fd p)) (Z.lor w (Z.lor POLLERR (Z.lor POLLHUP POLLNVAL))))))
       end.
Definition positive (p : pollfd) : Prop := revents p <> Some 0.
#[export] Instance positive_dec p : Decision (positive p).
Proof. unfold positive. apply _. Defined.
Definition poll (k : kernel) (nfds : Z) : M server Z := fun s =>
  if (length (client s) <? Z.to_nat nfds)%nat then Undef "poll"
  else match mapM (poll_entry k) (take (Z.to_nat nfds) (client s)) with
       | None => Undef "events not initialised"
       | Some l => Ret (Z.of_nat (length (filter positive l)))
                     (set_client (l ++ drop (Z.to_nat nfds) (client s)) s)
       end.

Definition Accept_ (k : kernel) : M server Z :=
  die_if (newfd k <? 0) "accept error";;;
  modify (record_call (Accept (newfd k)));;; ret (newfd k).
Definition Writen_ (k : kernel) (fd : Z) (n : nat) : M server unit :=
  die_if (negb (writes k fd)) "writen error";;;
  modify (fun s => record_call (Write fd (take n (buf s))) s).
Definition Close_ (fd : Z) : M server unit := modify (record_call (Close fd)).

(** [for (i = 1; i < OPEN_MAX; i++) if (client[i].fd < 0) ...]. *)
Fixpoint slot_loop (n : nat) (i connfd : Z) : M server Z :=
  match n with
  | O => ret i
  | S n =>
    let* p := client_at i in
    if fd p <? 0 then put_client i (with_fd connfd);;; ret i else slot_loop n (i + 1) connfd
  end.

(** A new connection; [None] is [continue]. *)
Definition accept_client (k : kernel) (nready : Z) : M server (option Z) :=
  let* connfd := Accept_ k in
  let* i := slot_loop (Z.to_nat (OPEN_MAX - 1)) 1 connfd in
  die_if (i =? OPEN_MAX) "too many clients";;;
  put_client i (with_wanted POLLRDNORM);;;
  modify (fun s => if i >? maxi s then set_maxi i s else s);;;
  let nready := nready - 1 in
  ret (if nready <=? 0 then None else Some nready).

(** Reading from a client that has events. *)
Definition serve_client (k : kernel) (i sockfd : Z) : M server unit :=
  match reads k sockfd with
  | Failed errno =>
    if errno =? ECONNRESET then Close_ sockfd;;; put_client i (with_fd (-1))
    else die "read error"
  | Data d =>
    let d := take MAXLINE d in
    modify (fun s => set_buf (splice 0 d (buf s)) s);;;
    modify (record_call (Read sockfd d));;;
    if (length d =? 0)%nat then Close_ sockfd;;; put_client i (with_fd (-1))
    else Writen_ k sockfd (length d)
  end.

(** [for (i = 1; i <= maxi; i++)]. *)
Fixpoint serve_loop (k : kernel) (n : nat) (i nready : Z) : M server unit :=
  match n with
  | O => skip
  | S n =>
    let* p := client_at i in
    let sockfd := fd p in
    if sockfd <? 0 then serve_loop k n (i + 1) nready
    else
      let* r := revents_of p in
      if negb (Z.land r (Z.lor POLLRDNORM POLLERR) =? 0) then
        serve_client k i sockfd;;;
        let nready := nready - 1 in
        if nready <=? 0 then skip else serve_loop k n (i + 1) nready
      else serve_loop k n (i + 1) nready
  end.

Definition round (k : kernel) : M server unit :=
  die_if (wait_fails k) "poll error";;;
  let* m := gets maxi in
  let* nready := poll k (m + 1) in
  let* p := client_at 0 in
  let* r0 := revents_of p in
  let* r := (if negb (Z.land r0 POLLRDNORM =? 0) then accept_client k nready else ret (Some nready)) in
  match r with
  | None => skip
  | Some nready =>
    let* m := gets maxi in
    serve_loop k (Z.to_nat m) 1 nready
  end.

Fixpoint serve (ks : list kernel) : M server unit :=
  match ks with [] => skip | k :: ks => round k;;; serve ks end.

(** A client connects, sends, a second connects while the first sends, the
    first leaves; a third takes its entry, and the second is reset. *)
Definition demo_kernel (ev : list Z) (new : Z) (rd : list (Z * answer)) : kernel :=
  Kernel false (fun f => if bool_decide (f ∈ ev) then POLLRDNORM else 0) new
    (fun f => match list_find (fun p => p.1 = f) rd with Some (_, (_, a)) => a | None => Failed 35 end)
    (fun _ => true).
Definition demo : list kernel :=
  [demo_kernel [3] 4 []; demo_kernel [4] 6 [(4, Data (str "one"))]; demo_kernel [3; 4] 5 [(4, Data (str "two"))];
   demo_kernel [4; 5] 6 [(4, Data []); (5, Data (str "hi"))]; demo_kernel [3; 5] 4 [(5, Failed ECONNRESET)]].

Example poll_demo_trace :
  match serve demo (start 3 (replicate MAXLINE 0)) with
  | Ret _ s => trace s = [Accept 4; Read 4 (str "one"); Write 4 (str "one"); Accept 5; Read 4 (str "two");
      Write 4 (str "two"); Read 4 []; Close 4; Read 5 (str "hi"); Write 5 (str "hi"); Accept 4; Close 5]
  | _ => False
  end.
Proof. vm_compute. reflexivity. Qed.

(** * Polling *)

Abbreviation used := (EventLoop.used fd).
Abbreviation todo := (EventLoop.todo fd).
Abbreviation swept k := (EventLoop.swept fd (with_fd (-1)) (leaves k) (handled k)).

Lemma poll_wpd_client_at s i p (P : pollfd -> server -> Prop) (D : server -> Prop) :
  client s !! i = Some p -> P p s -> wpd (client_at (Z.of_nat i)) P D s.
Proof. intros H HP. unfold wpd, client_at. rewrite (proj2 (Z.ltb_ge _ _)), Nat2Z.id, H by lia. done. Qed.

Lemma poll_wpd_put_client s i p f (Q : unit -> server -> Prop) (D : server -> Prop) :
  client s !! i = Some p -> Q tt (set_client (<[i := f p]> (client s)) s) -> wpd (put_client (Z.of_nat i) f) Q D s.
Proof. intros H HQ. apply wpd_bind, (poll_wpd_client_at _ _ _ _ _ H). cbn. by rewrite Nat2Z.id. Qed.

Definition mask (k : kernel) (f : Z) : Z :=
  Z.land (events k f) (Z.lor POLLRDNORM (Z.lor POLLERR (Z.lor POLLHUP POLLNVAL))).
Definition polled (k : kernel) (p : pollfd) : pollfd :=
  Pollfd (fd p) (wanted p) (Some (if fd p <? 0 then 0 else mask k (fd p))).

Lemma used_polled k l : used (polled k <$> l) = used l.
Proof. unfold EventLoop.used. by rewrite <-list_fmap_compose. Qed.

Lemma poll_entries k l : (forall p, p ∈ l -> 0 <= fd p -> wanted p = Some POLLRDNORM) ->
  mapM (poll_entry k) l = Some (polled k <$> l).
Proof.
  intros H. apply mapM_Some. induction l as [|p l IH]; [done|]. constructor; [|apply IH; intros; apply H; [by right|done]].
  unfold poll_entry, polled. destruct (Z.ltb_spec (fd p) 0) as [Hp|Hp]; [done|].
  by rewrite (H p) by first [by left|lia].
Qed.

(** What the kernel reports: a new descriptor is really new, the listening
    descriptor has POLLRDNORM when anything is reported for it, a client
    POLLRDNORM or POLLERR. *)
Definition reports (l : Z) (k : kernel) (o : gset Z) : Prop :=
  (newfd k ∉ o) /\
  set_Forall (fun f => ready k f -> Z.land (events k f) (if f =? l then POLLRDNORM else Z.lor POLLRDNORM POLLERR) <> 0) o.

Lemma mask_test l k o f : reports l k o -> f ∈ o ->
  (mask k f <> 0 <-> ready k f) /\
  (Z.land (mask k f) (if f =? l then POLLRDNORM else Z.lor POLLRDNORM POLLERR) <> 0 <-> ready k f).
Proof.
  intros [_ H] Hf. specialize (H f Hf). cbn beta in H.
  assert (E : Z.land (mask k f) (if f =? l then POLLRDNORM else Z.lor POLLRDNORM POLLERR) =
    Z.land (events k f) (if f =? l then POLLRDNORM else Z.lor POLLRDNORM POLLERR)).
  { unfold mask. rewrite <-Z.land_assoc. f_equal. by destruct (f =? l). }
  rewrite E. unfold ready in *. split; split.
  - intros Hm E0. apply Hm. unfold mask. by rewrite E0.
  - intros Hr Hm. apply (H Hr). rewrite <-E, Hm. done.
  - intros Hm E0. apply Hm. by rewrite E0.
  - done.
Qed.

Lemma positive_polled k l : (forall f, f ∈ used l -> mask k f <> 0 <-> ready k f) ->
  length (filter positive (polled k <$> l)) = length (filter (ready k) (used l)).
Proof.
  induction l as [|p l IH]; intros H; [done|]. cbn [fmap list_fmap]. rewrite filter_cons, used_cons, list.filter_app, length_app.
  rewrite <-IH by (intros f Hf; apply H; rewrite used_cons; set_solver).
  destruct (Z.ltb_spec (fd p) 0) as [Hp|Hp].
  - rewrite !decide_False; [done|lia|]. unfold positive, polled. cbn. rewrite (proj2 (Z.ltb_lt _ _)) by done. tauto.
  - assert (Hm : mask k (fd p) <> 0 <-> ready k (fd p)).
    { apply H. rewrite used_cons, decide_True by done. by left. }
    assert (Hpos : positive (polled k p) <-> mask k (fd p) <> 0).
    { unfold positive, polled. cbn. rewrite (proj2 (Z.ltb_ge _ _)) by lia. split; congruence. }
    rewrite (decide_True (P := 0 <= fd p)) by done. rewrite filter_cons, filter_nil.
    destruct (decide (positive (polled k p))), (decide (ready k (fd p))); tauto || done.
Qed.

(** * Serving *)

Definition stops (k : kernel) : Prop :=
  wait_fails k = true \/ newfd k < 0 \/
  exists f, writes k f = false \/ exists e, reads k f = Failed e /\ e <> ECONNRESET.

Lemma poll_serve_one k s i p (D : server -> Prop) (Q : unit -> server -> Prop) :
  (forall s', stops k -> D s') ->
  client s !! i = Some p -> length (buf s) = MAXLINE ->
  (forall b, length b = MAXLINE ->
     Q tt (Server (serve_entry fd (with_fd (-1)) (leaves k) i p (client s)) (maxi s) b (trace s ++ handled k (fd p)))) ->
  wpd (serve_client k (Z.of_nat i) (fd p)) Q D s.
Proof.
  intros HD Hi Hb HQ. unfold serve_client. unfold handled, serve_entry in HQ.
  destruct (reads k (fd p)) as [d|e] eqn:Er.
  - assert (Hlen : length (splice 0 (take MAXLINE d) (buf s)) = MAXLINE).
    { rewrite splice_length; [done|]. rewrite length_take. lia. }
    specialize (HQ _ Hlen). apply wpd_bind, wpd_modify, wpd_bind, wpd_modify. destruct d as [|x d].
    + assert (leaves k (fd p)) as L by by left. rewrite decide_True in HQ by done.
      rewrite take_nil. cbn [length Nat.eqb]. apply wpd_bind, wpd_modify, (poll_wpd_put_client _ i p); [done|].
      unfold set_client, set_buf, record_call. cbn. by rewrite <-app_assoc.
    + assert (~ leaves k (fd p)) as L by (intros [|]; congruence). rewrite decide_False in HQ by done.
      cbn [take length Nat.eqb MAXLINE]. apply wpd_bind, wpd_die_if.
      { intros Hw. apply HD. right. right. exists (fd p). left. by destruct (writes k (fd p)). }
      intros _. unfold wpd, modify, set_buf, record_call. cbn [buf trace client maxi].
      rewrite splice_front in HQ |- *. rewrite take_app_length. by rewrite <-app_assoc.
  - specialize (HQ _ Hb). destruct (Z.eqb_spec e ECONNRESET) as [->|Hne].
    + assert (leaves k (fd p)) as L by by right. rewrite decide_True in HQ by done.
      apply wpd_bind, wpd_modify, (poll_wpd_put_client _ i p); [done|]. done.
    + apply HD. right. right. eauto.
Qed.

(** Every entry from [i] on has the events of its client, unless the clients
    left to serve all come before it. *)
Definition reported (rset : gset Z) (i : nat) (l : list pollfd) : Prop :=
  forall j p, (i <= j)%nat -> l !! j = Some p -> 0 <= fd p ->
    (exists r, revents p = Some r /\ (Z.land r (Z.lor POLLRDNORM POLLERR) <> 0 <-> fd p ∈ rset)) \/
    (todo rset j l = [] /\ todo rset i l <> []).

Lemma poll_serve_loop_run k rset n i s (D : server -> Prop) :
  (forall s', stops k -> D s') ->
  (forall c, c ∈ rset -> 0 <= c) ->
  length (buf s) = MAXLINE -> (i + n <= length (client s))%nat -> used (drop (i + n) (client s)) = [] ->
  reported rset i (client s) ->
  wpd (serve_loop k n (Z.of_nat i) (Z.of_nat (length (todo rset i (client s)))))
    (fun _ s' => swept k rset i (client s) (trace s) (client s') (trace s') /\
       maxi s' = maxi s /\ length (buf s') = MAXLINE) D s.
Proof.
  intros HD Hr. revert i s. induction n as [|n IH]; intros i s Hb Hlen Hend Hrep.
  { cbn [serve_loop]. apply wpd_ret. split; [|done]. apply swept_end; [done|].
    unfold EventLoop.todo. rewrite Nat.add_0_r in Hend. by rewrite Hend. }
  destruct (lookup_lt_is_Some_2 (client s) i ltac:(lia)) as [p Hp]. cbn [serve_loop].
  apply wpd_bind, (poll_wpd_client_at _ _ _ _ _ Hp). cbv zeta. replace (Z.of_nat i + 1) with (Z.of_nat (S i)) by lia.
  pose proof (todo_step fd rset Hr i _ _ Hp) as Hstep.
  assert (Hskip : (fd p ∉ rset) ->
    wpd (serve_loop k n (Z.of_nat (S i)) (Z.of_nat (length (todo rset i (client s)))))
      (fun _ s' => swept k rset i (client s) (trace s) (client s') (trace s') /\
       maxi s' = maxi s /\ length (buf s') = MAXLINE) D s).
  { intros N. rewrite decide_False in Hstep by done. cbn [app] in Hstep. rewrite Hstep.
    eapply wpd_mono; [apply IH; try done; [lia|by rewrite Nat.add_succ_l, <-Nat.add_succ_r|]|].
    - intros j q Hj Hq Hpos. destruct (Hrep j q ltac:(lia) Hq Hpos) as [|[A B]]; [by left|right]. by rewrite <-Hstep.
    - intros ? s' [H H']. split; [|done]. by apply (swept_skip fd _ (leaves k) _ rset Hr i _ _ _ _ p). }
  destruct (Z.ltb_spec (fd p) 0) as [Hneg|Hpos]; [apply Hskip; intros ?%Hr; lia|].
  destruct (Hrep i p ltac:(lia) Hp Hpos) as [(r & Er & Hrr)|[? ?]]; [|done].
  unfold revents_of. rewrite Er. apply wpd_bind, wpd_ret.
  destruct (Z.eqb_spec (Z.land r (Z.lor POLLRDNORM POLLERR)) 0) as [E0|N0]; [apply Hskip; tauto|]. cbn [negb].
  apply Hrr in N0 as Hin. clear Hskip. apply wpd_bind, (poll_serve_one _ _ _ _ _ _ HD Hp Hb). intros b Hb'.
  set (s1 := Server _ _ b _). rewrite (todo_last fd rset Hr i _ p Hp Hin).
  assert (Ht1 : todo rset (S i) (client s1) = todo rset (S i) (client s)) by apply serve_entry_todo.
  destruct (Z.leb_spec (Z.of_nat (length (todo rset (S i) (client s)))) 0) as [Hlast|Hmore].
  - assert (todo rset (S i) (client s) = []) as E by (apply nil_length_inv; lia).
    apply wpd_ret. split; [|done].
    apply (swept_serve fd _ (leaves k) _ rset Hr i _ _ _ _ p); [done..|]. apply swept_end; [done|]. by rewrite <-E.
  - rewrite <-Ht1. eapply wpd_mono; [apply (IH (S i) s1)|]; [done|..].
    + cbn. rewrite serve_entry_length. lia.
    + cbn [client s1]. rewrite serve_entry_drop by lia. by rewrite Nat.add_succ_l, <-Nat.add_succ_r.
    + intros j q Hj Hq Hq0. cbn [client s1] in Hq.
      assert (client s !! j = Some q).
      { replace j with (S i + (j - S i))%nat in Hq |- * by lia. rewrite <-lookup_drop in Hq |- *. by rewrite serve_entry_drop in Hq by lia. }
      destruct (Hrep j q ltac:(lia) ltac:(done) Hq0) as [|[A B]]; [by left|right]. rewrite Ht1. split.
      * cbn [client s1]. unfold EventLoop.todo in *. by rewrite serve_entry_drop by lia.
      * intros E. rewrite E in Hmore. cbn in Hmore. lia.
    + intros ? s' (H & -> & Hb2). split; [|done]. by apply (swept_serve fd _ (leaves k) _ rset Hr i _ _ _ _ p).
Qed.

(** * The state between rounds *)

Record server_ok (l : Z) (s : server) : Prop := {
  ok_length : length (client s) = Z.to_nat OPEN_MAX;
  ok_listen : 0 <= l /\ exists p, client s !! 0%nat = Some p /\ fd p = l;
  ok_nodup : NoDup (used (client s));
  ok_wanted : forall i p, client s !! i = Some p -> 0 <= fd p -> wanted p = Some POLLRDNORM;
  ok_maxi : 0 <= maxi s < OPEN_MAX /\ used (drop (Z.to_nat (maxi s + 1)) (client s)) = [];
  ok_buf : length (buf s) = MAXLINE
}.

(** The descriptors of the table. *)
Definition conns (s : server) : gset Z := list_to_set (used (client s)).

Lemma used_listen l s : server_ok l s -> used (client s) = l :: used (drop 1 (client s)).
Proof.
  intros H. destruct (ok_listen _ _ H) as (H0 & p & Hp & E). rewrite (used_split fd _ _ _ Hp), E.
  by rewrite decide_True.
Qed.

Lemma poll_server_start l junk : 0 <= l -> length junk = MAXLINE -> server_ok l (start l junk).
Proof.
  intros Hl Hj. assert (U : used (drop 1 (client (start l junk))) = []) by by vm_compute.
  assert (E : used (client (start l junk)) = [l]).
  { change (client (start l junk)) with (Pollfd l (Some POLLRDNORM) None :: drop 1 (client (start l junk))).
    rewrite used_cons, U. cbn. by rewrite decide_True. }
  constructor; rewrite ?E; try done.
  - split; [done|]. by eexists.
  - apply NoDup_singleton.
  - intros [|i] p; cbn [start client lookup list_lookup]; [by intros [= <-]|].
    intros [-> _]%lookup_replicate_1. cbn. lia.
Qed.

Lemma polled_ok l s m k : server_ok l s ->
  server_ok l (set_client ((polled k <$> take m (client s)) ++ drop m (client s)) s).
Proof.
  intros H. set (s' := set_client _ s).
  assert (E : forall n, used (drop n (client s')) = used (drop n (client s))).
  { intros n. cbn [s' client set_client]. rewrite <-(take_drop m (client s)) at 3. unfold EventLoop.used.
    rewrite !fmap_drop, !fmap_app, <-list_fmap_compose. done. }
  assert (F : forall i p', client s' !! i = Some p' -> exists p, client s !! i = Some p /\ fd p' = fd p /\ wanted p' = wanted p).
  { intros i p'. cbn [s' client set_client]. intros [Hi|[Hle Hi]]%lookup_app_Some.
    - apply list_lookup_fmap_Some in Hi as (p & -> & Hi). apply lookup_take_Some in Hi as [Hi _]. by exists p.
    - rewrite length_fmap, lookup_drop in Hi. rewrite length_fmap in Hle. exists p'. split; [|done].
      rewrite length_take in Hi, Hle. pose proof (lookup_lt_Some _ _ _ Hi).
      replace (m + (i - m `min` length (client s)))%nat with i in Hi; [done|]. lia. }
  constructor.
  - cbn [s' client set_client]. rewrite length_app, length_fmap, length_take, length_drop, <-(ok_length _ _ H). lia.
  - split; [apply H|]. destruct (ok_listen _ _ H) as (_ & p & Hp & Hl).
    destruct (lookup_lt_is_Some_2 (client s') 0) as [p' Hp'].
    { pose proof (lookup_lt_Some _ _ _ Hp). cbn [s' client set_client]. rewrite length_app, length_fmap, length_take, length_drop. lia. }
    exists p'. split; [done|]. destruct (F _ _ Hp') as (q & Hq & -> & _). congruence.
  - rewrite <-(drop_0 (client s')), E, drop_0. apply H.
  - intros i p' Hi Hpos. destruct (F _ _ Hi) as (p & Hp & E1 & E2). rewrite E2. apply (ok_wanted _ _ H i p Hp). by rewrite <-E1.
  - rewrite E. apply H.
  - apply H.
Qed.

Lemma poll_slot_loop_run n i connfd s (D : server -> Prop) :
  (i + n = length (client s))%nat ->
  wpd (slot_loop n (Z.of_nat i) connfd)
    (fun r s' => (r = Z.of_nat (length (client s)) /\ s' = s /\ forall j p, (i <= j)%nat -> client s !! j = Some p -> 0 <= fd p) \/
       exists j p, (i <= j)%nat /\ r = Z.of_nat j /\ client s !! j = Some p /\ fd p < 0 /\
       s' = set_client (<[j := with_fd connfd p]> (client s)) s) D s.
Proof.
  revert i. induction n as [|n IH]; intros i Hlen.
  { cbn [slot_loop]. apply wpd_ret. left. split; [lia|]. split; [done|]. intros j p Hj ?%lookup_lt_Some. lia. }
  destruct (lookup_lt_is_Some_2 (client s) i ltac:(lia)) as [d Hd]. cbn [slot_loop].
  apply wpd_bind, (poll_wpd_client_at _ _ _ _ _ Hd). destruct (Z.ltb_spec (fd d) 0) as [Hneg|Hpos].
  - apply wpd_bind, (poll_wpd_put_client _ _ d); [done|]. apply wpd_ret. right. exists i, d. by split_and!.
  - replace (Z.of_nat i + 1) with (Z.of_nat (S i)) by lia. eapply wpd_mono; [apply IH; lia|].
    intros r s' [(-> & -> & Hall)|(j & p & Hj & H)]; [left|right].
    + split_and!; [done..|]. intros j p Hj Hp. destruct (decide (i = j)) as [->|]; [congruence|]. apply (Hall j p); [lia|done].
    + exists j, p. split; [lia|done].
Qed.

(** The table is full. *)
Definition full (s : server) : Prop := forall p, p ∈ client s -> 0 <= fd p.

Lemma poll_accept_phase l s k nready :
  server_ok l s -> (newfd k ∉ conns s) ->
  wpd (accept_client k nready)
    (fun r s' => server_ok l s' /\ trace s' = trace s ++ [Accept (newfd k)] /\
       r = (if nready - 1 <=? 0 then None else Some (nready - 1)) /\
       exists j p, (1 <= j)%nat /\ client s !! j = Some p /\ fd p < 0 /\ 0 <= newfd k /\
         client s' = <[j := with_wanted POLLRDNORM (with_fd (newfd k) p)]> (client s) /\
         maxi s' = Z.max (Z.of_nat j) (maxi s)) (fun s' => stops k \/ full s') s.
Proof.
  intros H Hnew. unfold accept_client, Accept_. unfold conns in Hnew. rewrite elem_of_list_to_set in Hnew.
  apply wpd_bind, wpd_bind, wpd_die_if; [intros ?; left; right; left; lia|]. intros Hpos.
  apply wpd_bind, wpd_modify, wpd_ret, wpd_bind. set (s0 := record_call _ s). pose proof (ok_length _ _ H) as HL.
  eapply wpd_mono; [apply (poll_slot_loop_run _ 1)|].
  { cbn [s0 client record_call]. rewrite HL. unfold OPEN_MAX. lia. }
  intros i s1 [(-> & -> & Hall)|(j & p & Hj1 & -> & Hj & Hneg & ->)]; cbn [s0 client record_call] in *.
  { apply wpd_bind, wpd_die_if; [|by rewrite HL, Z2Nat.id, Z.eqb_refl by done]. intros _. right.
    intros p [j Hj]%list_elem_of_lookup. destruct j as [|j]; [|apply (Hall (S j) p); [lia|done]].
    destruct (ok_listen _ _ H) as (H0 & q & Hq & E). cbn in Hj. rewrite Hq in Hj. injection Hj as <-. lia. }
  pose proof (lookup_lt_Some _ _ _ Hj) as Hlt. rewrite HL in Hlt.
  apply wpd_bind, wpd_die_if; [unfold OPEN_MAX in *; lia|]. intros _.
  apply wpd_bind, (poll_wpd_put_client _ _ (with_fd (newfd k) p)); [by apply list_lookup_insert_eq; lia|].
  apply wpd_bind, wpd_modify, wpd_ret. cbn [client set_client]. rewrite list_insert_insert_eq.
  set (p2 := with_wanted _ _). set (s2 := if _ >? _ then _ else _).
  assert (E : client s2 = <[j := p2]> (client s) /\ buf s2 = buf s /\ maxi s2 = Z.max (Z.of_nat j) (maxi s) /\
    trace s2 = trace s ++ [Accept (newfd k)]).
  { subst s2. case_match; cbn in *; split_and!; try done; lia. }
  destruct E as (E1 & E2 & E3 & E4).
  assert (P : used (client s2) ≡ₚ newfd k :: used (client s)) by (rewrite E1; apply (used_fill fd _ _ p); [done|done|cbn; lia]).
  destruct (ok_maxi _ _ H) as [Hi1 Hi2]. split_and!; [|done|done|exists j, p; split_and!; [done..|lia|done|done]].
  constructor; rewrite ?P; rewrite ?E1, ?E2, ?E3.
  - by rewrite length_insert.
  - split; [apply H|]. rewrite list_lookup_insert_ne by lia. apply H.
  - constructor; [done|apply H].
  - intros i q. destruct (decide (i = j)) as [->|]; [|rewrite list_lookup_insert_ne by done; apply H].
    rewrite list_lookup_insert_eq by lia. by intros [= <-].
  - split; [unfold OPEN_MAX in *; lia|]. rewrite drop_insert_lt by lia. apply (used_drop_nil fd _ _ _ Hi2). lia.
  - apply H.
Qed.

Lemma poll_serve_phase l s k rset (D : server -> Prop) :
  server_ok l s -> rset ⊆ conns s -> (l ∉ rset) -> reported rset 1 (client s) -> (forall s', stops k -> D s') ->
  wpd (serve_loop k (Z.to_nat (maxi s)) 1 (Z.of_nat (size rset)))
    (fun _ s' => server_ok l s' /\ conns s' = conns s ∖ filter (leaves k) rset /\
       exists fds, fds ≡ₚ elements rset /\ trace s' = trace s ++ replies k fds) D s.
Proof.
  intros H Hr Hl Hrep HD. unfold conns in Hr. pose proof (used_listen _ _ H) as Hu.
  pose proof (ok_nodup _ _ H) as Hnd. pose proof Hnd as Hnd'. rewrite Hu in Hnd'. apply list.NoDup_cons in Hnd' as [Hl' Hnd'].
  assert (Ht : todo rset 1 (client s) ≡ₚ elements rset).
  { apply NoDup_Permutation; [by apply list.NoDup_filter|apply NoDup_elements|]. intros x. unfold EventLoop.todo.
    rewrite list_elem_of_filter, elem_of_elements. rewrite Hu in Hr. split; [tauto|]. intros Hx. split; [done|].
    pose proof (Hr _ Hx) as Hx'. by apply elem_of_list_to_set, elem_of_cons in Hx' as [->|]. }
  change (size rset) with (length (elements rset)). rewrite <-Ht.
  destruct (ok_maxi _ _ H) as [Hm1 Hm2]. pose proof (ok_length _ _ H) as HL.
  eapply wpd_mono; [apply (poll_serve_loop_run k rset _ 1 s)|]; try done.
  - intros c Hc. apply Hr, elem_of_list_to_set, elem_of_used in Hc as (? & ? & _ & _ & ?). done.
  - apply H.
  - lia.
  - by replace (1 + Z.to_nat (maxi s))%nat with (Z.to_nat (maxi s + 1)) by lia.
  - intros ? s' ([Hc Htr] & Hi & Hb).
    destruct (ok_listen _ _ H) as (H0 & p & Hp & El).
    assert (E1 : client s = p :: drop 1 (client s)) by (by destruct (client s) as [|q cs]; [done|injection Hp as ->]).
    assert (E : client s' = p :: (entry_after fd (with_fd (-1)) (leaves k) rset <$> drop 1 (client s))) by (rewrite Hc, E1; done).
    assert (Hu' : used (client s') = l :: filter (fun c => ~ (c ∈ rset /\ leaves k c)) (used (drop 1 (client s)))).
    { rewrite E, used_cons, used_after by done. rewrite El. by rewrite decide_True. }
    split_and!; [|unfold conns; apply set_eq; intros x|eauto].
    + constructor; rewrite ?Hu'.
      * rewrite E. cbn [length]. by rewrite length_fmap, <-HL, E1.
      * split; [done|]. exists p. by rewrite E.
      * constructor; [rewrite list_elem_of_filter; tauto|]. by apply list.NoDup_filter.
      * intros [|j] q; rewrite E; cbn [lookup list_lookup].
        { intros [= <-]. apply (ok_wanted _ _ H _ _ Hp). }
        intros (x & -> & Hx)%list_lookup_fmap_Some. rewrite lookup_drop in Hx. unfold entry_after.
        destruct (decide _); [cbn; lia|]. apply (ok_wanted _ _ H _ _ Hx).
      * rewrite Hi. split; [done|]. rewrite E. replace (Z.to_nat (maxi s + 1)) with (S (Z.to_nat (maxi s))) in Hm2 |- * by lia.
        cbn [drop]. rewrite <-fmap_drop, used_after, drop_drop by done. cbn [Nat.add]. by rewrite Hm2.
      * done.
    + rewrite Hu', Hu. rewrite elem_of_difference, !elem_of_list_to_set, elem_of_filter, !elem_of_cons, list_elem_of_filter.
      destruct (decide (x = l)) as [->|]; tauto.
Qed.

(** [poll] on a table between rounds. *)
Lemma poll_run l k s : server_ok l s -> reports l k (conns s) ->
  exists s1, poll k (maxi s + 1) s = Ret (Z.of_nat ((if decide (ready k l) then 1 else 0) + size (ready_clients l k (conns s)))) s1 /\
    s1 = set_client ((polled k <$> take (Z.to_nat (maxi s + 1)) (client s)) ++ drop (Z.to_nat (maxi s + 1)) (client s)) s.
Proof.
  intros H Hk. set (m := Z.to_nat (maxi s + 1)). eexists. split; [|done]. unfold poll. fold m.
  destruct (ok_maxi _ _ H) as [Hm1 Hm2]. fold m in Hm2. pose proof (ok_length _ _ H) as HL.
  replace (length (client s) <? m)%nat with false by (symmetry; apply Nat.ltb_ge; lia).
  rewrite poll_entries.
  2:{ intros p [i Hi]%list_elem_of_lookup. apply lookup_take_Some in Hi as [Hi _]. by apply (ok_wanted _ _ H i). }
  assert (E : used (take m (client s)) = used (client s)).
  { rewrite <-(take_drop m (client s)) at 2. by rewrite used_app, Hm2, app_nil_r. }
  rewrite positive_polled; rewrite E.
  2:{ intros f Hf. apply (mask_test l k (conns s) f Hk). by apply elem_of_list_to_set. }
  f_equal. pose proof (ok_nodup _ _ H) as Hnd. rewrite (used_listen _ _ H) in *. apply list.NoDup_cons in Hnd as [Hl Hnd].
  rewrite filter_cons. change (size (ready_clients l k (conns s))) with (length (elements (ready_clients l k (conns s)))).
  assert (P : filter (ready k) (used (drop 1 (client s))) ≡ₚ elements (ready_clients l k (conns s))).
  { apply NoDup_Permutation; [by apply list.NoDup_filter|apply NoDup_elements|]. intros x. unfold ready_clients, conns.
    rewrite list_elem_of_filter, elem_of_elements, elem_of_filter, elem_of_list_to_set, (used_listen _ _ H), elem_of_cons.
    split; [|tauto]. intros [? ?]. split_and!; [by intros ->|done|by right]. }
  rewrite <-P. by destruct (decide (ready k l)).
Qed.

(** After [poll], and after a connection has been put in the table. *)
Lemma polled_reported l k s i : server_ok l s -> reports l k (conns s) -> (1 <= i)%nat ->
  forall j p, (i <= j)%nat ->
    ((polled k <$> take (Z.to_nat (maxi s + 1)) (client s)) ++ drop (Z.to_nat (maxi s + 1)) (client s)) !! j = Some p -> 0 <= fd p ->
    exists r, revents p = Some r /\ (Z.land r (Z.lor POLLRDNORM POLLERR) <> 0 <-> fd p ∈ ready_clients l k (conns s)).
Proof.
  intros H Hk Hi j p Hj Hp Hpos. destruct (ok_maxi _ _ H) as [Hm1 Hm2]. pose proof (ok_length _ _ H) as HL.
  apply lookup_app_Some in Hp as [Hp|[_ Hp]].
  - apply list_lookup_fmap_Some in Hp as (q & -> & Hq). cbn [polled fd revents] in *.
    rewrite (proj2 (Z.ltb_ge (fd q) 0)) by done. eexists. split; [done|]. apply lookup_take_Some in Hq as [Hq _].
    assert (Hqc : fd q ∈ conns s) by (apply elem_of_list_to_set, elem_of_used; by exists j, q).
    assert (Hne : fd q <> l).
    { intros E. pose proof (ok_nodup _ _ H) as Hnd. rewrite (used_listen _ _ H) in Hnd. apply list.NoDup_cons in Hnd as [N _].
      apply N. rewrite <-E. apply elem_of_used. exists (j - 1)%nat, q. rewrite lookup_drop.
      by replace (1 + (j - 1))%nat with j by lia. }
    pose proof (proj2 (mask_test l k _ _ Hk Hqc)) as T. rewrite (proj2 (Z.eqb_neq _ _) Hne) in T. rewrite T.
    unfold ready_clients. rewrite elem_of_filter. tauto.
  - exfalso. apply (not_elem_of_nil (fd p)). rewrite <-Hm2. apply elem_of_used. eauto.
Qed.

Lemma poll_round_ok l s k :
  server_ok l s -> reports l k (conns s) ->
  wpd (round k)
    (fun _ s' => server_ok l s' /\ conns s' = after l k (conns s) /\
       exists fds, fds ≡ₚ elements (ready_clients l k (conns s)) /\
         trace s' = trace s ++ arrivals l k ++ replies k fds) (fun s' => stops k \/ full s') s.
Proof.
  intros H Hk. apply wpd_bind, wpd_die_if; [by left; left|]. intros _. apply wpd_bind, wpd_gets, wpd_bind.
  set (rset := ready_clients l k (conns s)).
  destruct (poll_run _ _ _ H Hk) as (s1 & E & Hs1). unfold wpd at 1. rewrite E. fold rset. clear E.
  assert (H1 : server_ok l s1) by (rewrite Hs1; by apply polled_ok).
  assert (Hc1 : conns s1 = conns s).
  { unfold conns. rewrite Hs1. cbn [client set_client].
    by rewrite used_app, used_polled, <-used_app, take_drop. }
  assert (Hmx : maxi s1 = maxi s /\ trace s1 = trace s) by by rewrite Hs1. destruct Hmx as [Hmx Htr].
  assert (Hl : l ∈ conns s) by (unfold conns; rewrite (used_listen _ _ H); set_solver).
  assert (Hlr : l ∉ rset) by (unfold rset, ready_clients; rewrite elem_of_filter; tauto).
  assert (Hsub : rset ⊆ conns s) by (unfold rset, ready_clients; set_solver).
  assert (Hrep : forall j p, (1 <= j)%nat -> client s1 !! j = Some p -> 0 <= fd p ->
    exists r, revents p = Some r /\ (Z.land r (Z.lor POLLRDNORM POLLERR) <> 0 <-> fd p ∈ rset)).
  { intros j p Hj. rewrite Hs1. by apply (polled_reported l k s 1). }
  destruct (ok_maxi _ _ H) as [Hm1 Hm2]. pose proof (ok_length _ _ H) as HL.
  destruct (ok_listen _ _ H) as (H0 & p & Hp & El).
  apply wpd_bind, (poll_wpd_client_at _ 0 (polled k p)).
  { rewrite Hs1. cbn [client set_client]. rewrite lookup_app_l by (rewrite length_fmap, length_take; lia).
    apply list_lookup_fmap_Some. exists p. split; [done|]. apply lookup_take_Some. split; [done|lia]. }
  unfold revents_of, polled. cbn [revents]. rewrite El, (proj2 (Z.ltb_ge l 0)) by done. apply wpd_bind, wpd_ret, wpd_bind.
  pose proof (proj2 (mask_test l k _ _ Hk Hl)) as T. rewrite Z.eqb_refl in T. unfold after, arrivals. fold rset.
  destruct (decide (ready k l)) as [Hrl|Hrl].
  - rewrite (proj2 (Z.eqb_neq _ _)) by tauto. cbn [negb].
    eapply wpd_mono; [apply (poll_accept_phase l s1 k); [done|rewrite Hc1; apply Hk]|].
    intros r s2 (H2 & Htr2 & -> & j & q & Hj & Hq & Hq0 & Hpos & E2 & Em2). rewrite Htr in Htr2.
    assert (Hnew : newfd k ∉ rset) by (intros ?%Hsub; by apply Hk).
    assert (Hc2 : conns s2 = {[newfd k]} ∪ conns s).
    { unfold conns. rewrite E2. apply set_eq. intros x.
      rewrite elem_of_list_to_set, (used_fill fd _ _ q) by (done || cbn; lia).
      rewrite elem_of_cons, elem_of_union, elem_of_singleton. unfold conns in Hc1. by rewrite <-Hc1, elem_of_list_to_set. }
    replace (Z.of_nat (1 + size rset) - 1) with (Z.of_nat (size rset)) by lia.
    destruct (Z.leb_spec (Z.of_nat (size rset)) 0) as [Hz|Hz].
    + apply wpd_ret. assert (rset = ∅) as -> by (apply leibniz_equiv, size_empty_iff; lia).
      split_and!; [done|rewrite Hc2; set_solver|]. exists []. by rewrite elements_empty.
    + apply wpd_bind, wpd_gets. eapply wpd_mono; [apply (poll_serve_phase l s2 k rset)|]; [done|set_solver|done| |by left|].
      * intros i x Hi. rewrite E2. destruct (decide (i = j)) as [->|Hne]; [|rewrite list_lookup_insert_ne by done].
        2:{ intros Hx Hx0. left. by apply (Hrep i x). }
        rewrite list_lookup_insert_eq by by eapply lookup_lt_Some. intros [= <-] _. cbn [fd with_wanted with_fd revents].
        destruct (decide (j < Z.to_nat (maxi s + 1))%nat) as [Hjm|Hjm].
        -- left. rewrite Hs1 in Hq. cbn [client set_client] in Hq.
           rewrite lookup_app_l in Hq by (rewrite length_fmap, length_take; lia).
           apply list_lookup_fmap_Some in Hq as (q' & -> & _). cbn [polled revents fd] in *.
           rewrite (proj2 (Z.ltb_lt _ _)) by done. exists 0. split; [done|]. cbn. tauto.
        -- right. assert (Ht : todo rset j (<[j := with_wanted POLLRDNORM (with_fd (newfd k) q)]> (client s1)) = []).
           { unfold EventLoop.todo.
             rewrite (drop_S _ (with_wanted POLLRDNORM (with_fd (newfd k) q))) by (apply list_lookup_insert_eq; by eapply lookup_lt_Some).
             rewrite drop_insert_lt by lia. rewrite used_cons, (used_drop_nil fd (client s1) (Z.to_nat (maxi s1 + 1)) (S j)).
             - rewrite app_nil_r. cbn [fd with_wanted with_fd]. rewrite decide_True by done. by rewrite filter_cons, decide_False.
             - apply H1.
             - rewrite Hmx. lia. }
           split; [done|]. intros E. assert (exists x, x ∈ rset) as [x Hx] by (apply size_pos_elem_of; lia).
           apply (not_elem_of_nil x). rewrite <-E. unfold EventLoop.todo. apply list_elem_of_filter. split; [done|].
           assert (Hxc : x ∈ conns s2) by set_solver. unfold conns in Hxc. rewrite elem_of_list_to_set, (used_listen _ _ H2), E2, elem_of_cons in Hxc.
           destruct Hxc as [->|]; done.
      * intros ? s' (H' & Ea & fds & Hpf & Ht). split_and!; [done|rewrite Ea, Hc2; set_solver|].
        exists fds. split; [done|]. by rewrite Ht, Htr2, <-app_assoc.
  - assert (Z.land (mask k l) POLLRDNORM = 0) as -> by (destruct (decide (Z.land (mask k l) POLLRDNORM = 0)); tauto).
    cbn [Z.eqb negb]. apply wpd_ret, wpd_bind, wpd_gets. rewrite Nat.add_0_l.
    eapply wpd_mono; [apply (poll_serve_phase l s1 k rset)|]; [done|by rewrite Hc1|done| |by left|].
    + intros j x Hj Hx Hx0. left. by apply (Hrep j x).
    + intros ? s' (H' & Ea & fds & Hpf & Ht). split_and!; [done|rewrite Ea, Hc1; set_solver|].
      exists fds. by rewrite Ht, Htr.
Qed.

Lemma poll_serve_ok l ks s :
  server_ok l s -> keeps (reports l) l ks (conns s) ->
  wpd (serve ks) (fun _ s' => server_ok l s' /\
      exists tr, trace s' = trace s ++ tr /\ echoes l ks (conns s) tr /\ opened tr (conns s) = conns s')
    (fun s' => Exists stops ks \/ full s') s.
Proof.
  revert s. induction ks as [|k ks IH]; intros s H.
  { intros _. apply wpd_ret. split; [done|]. exists []. rewrite app_nil_r. by split_and!; [|constructor|]. }
  intros Hks. cbn [keeps] in Hks. destruct Hks as [Hk Hks]. apply wpd_bind.
  eapply wpd_conseq; [by apply (poll_round_ok l s k)| |intros ? [|]; [by left; apply Exists_cons_hd|by right]].
  intros ? s1 (H1 & E1 & fds & Hp & Ht). rewrite <-E1 in Hks.
  eapply wpd_conseq; [by apply (IH s1)| |intros ? [|]; [by left; apply Exists_cons_tl|by right]].
  intros ? s2 (H2 & tr & E2 & He & Ho). split; [done|]. exists (arrivals l k ++ replies k fds ++ tr). split_and!.
  - by rewrite E2, Ht, <-!app_assoc.
  - constructor; [done|]. by rewrite <-E1.
  - by rewrite app_assoc, opened_app, (opened_round _ _ _ _ (proj1 Hk) Hp), <-E1.
Qed.

(** * The theorems *)

(** Along any run in which the kernel reports POLLRDNORM or POLLERR for
    what is ready, tcpservpoll01.c either ends because a call failed or its
    table is full, or has behaved as the abstract echo server, the same that
    tcpservselect01.c implements; a reset connection counts as closed.  It
    never reads an entry of its table that was not initialised, although it
    leaves the events of a new entry unset: the count of ready descriptors
    stops the loop before. *)
Theorem poll_server_echoes l ks junk :
  0 <= l -> length junk = MAXLINE -> keeps (reports l) l ks {[l]} ->
  wpd (serve ks)
    (fun _ s => echoes l ks {[l]} (trace s) /\
       opened (trace s) {[l]} = list_to_set (used (client s)) /\ NoDup (used (client s)) /\
       forall f, sent f (trace s) = received f (trace s))
    (fun s => Exists stops ks \/ full s) (start l junk).
Proof.
  intros Hl Hj Hk. pose proof (poll_server_start l junk Hl Hj) as H.
  assert (E : conns (start l junk) = {[l]}).
  { unfold conns. rewrite (used_listen _ _ H). assert (used (drop 1 (client (start l junk))) = []) as -> by by vm_compute.
    set_solver. }
  eapply wpd_mono; [apply (poll_serve_ok l); [done|by rewrite E]|].
  intros ? s (H' & tr & -> & He & Ho). rewrite E in He, Ho. cbn [start trace app]. split_and!; [done|done|apply H'|].
  intros f. by apply (echoes_faithful l ks {[l]}).
Qed.

#[export] Instance reports_dec l k o : Decision (reports l k o).
Proof. unfold reports. apply _. Defined.

Lemma poll_demo_returns : returns (serve demo) (start 3 (replicate MAXLINE 0)) = true.
Proof. vm_compute. reflexivity. Qed.

Lemma poll_server_echoes_witness :
  exists s, serve demo (start 3 (replicate MAXLINE 0)) = Ret tt s /\ echoes 3 demo {[3]} (trace s).
Proof.
  assert (K : keeps (reports 3) 3 demo {[3]}) by (apply (bool_decide_unpack _); vm_compute; done).
  pose proof (poll_server_echoes 3 demo (replicate MAXLINE 0) ltac:(done) ltac:(by rewrite length_replicate) K) as W.
  apply wpd_returns in W as ([] & s & E & W); [|exact poll_demo_returns]. exists s. split; [done|apply W].
Defined.

(** A client that has hung up without anything else to report is counted as
    ready but not served, so the loop goes on to the new entry. *)
Definition hung_up : list kernel :=
  [demo_kernel [3] 4 [];
   Kernel false (fun f => if f =? 3 then POLLRDNORM else if f =? 4 then POLLHUP else 0) 5 (fun _ => Data []) (fun _ => true)].
Example poll_reads_unset : serve hung_up (start 3 (replicate MAXLINE 0)) = Undef "revents not initialised".
Proof. vm_compute. reflexivity. Qed.
