(* ===== verification/OpenPass.v ===== *)
(** Passing descriptors between processes: apue.3e/ipc2/sendfd2.c and
    recvfd2.c, with the two-byte protocol both ends share. *)
From Stdlib Require Import ZArith Lia.
From stdpp Require Import base list strings numbers.
From S2P Require Import Prelude CString CFile EventLoop.
Local Open Scope c_scope.

(** Control data of a message: a descriptor, the credentials of the sender,
    or something else. *)
Inductive cmsg := Rights (fd : Z) | Creds (uid : Z) | Other.

(** A message on a socket: its bytes, and its control data when they have the
    length CONTROLLEN. *)
Record message := Message { m_data : bytes; m_control : option (list cmsg) }.

(** * send_fd *)

(** The sender: whether the static buffer [cmptr] has been allocated, and the
    messages sent. *)
Record sender := Sender { cmptr : bool; sent_msgs : list message }.

(** What the system answers: whether malloc and sendmsg succeed, and the
    identity it puts in the credentials. *)
Record send_env := SendEnv { malloc_ok : bool; sendmsg_ok : bool; my_uid : Z }.

(** The status byte: [buf[1] = -fd_to_send; if (buf[1] == 0) buf[1] = 1]. *)
Definition status_byte (fd_to_send : Z) : Z :=
  let b := u8 (- fd_to_send) in if b =? 0 then 1 else b.

Definition send_fd (e : send_env) (fd_to_send : Z) : M sender Z := fun s =>
  let sendmsg m s := if sendmsg_ok e then Ret 0 (Sender (cmptr s) (sent_msgs s ++ [m])) else Ret (-1) s in
  if fd_to_send =? - 2 ^ 31 then Undef "-fd_to_send overflows"
  else if fd_to_send <? 0 then sendmsg (Message [0; status_byte fd_to_send] None) s
  else if negb (cmptr s) && negb (malloc_ok e) then Ret (-1) s
  else sendmsg (Message [0; 0] (Some [Rights fd_to_send; Creds (my_uid e)])) (Sender true (sent_msgs s)).

(** * recv_ufd *)

(** The receiver: the static buffer, the local variables, the identity stored
    for the caller, and what was given to [userfunc]. *)
Record receiver := Receiver {
  r_cmptr : bool;
  newfd : Z;
  status : Z;
  uid : option Z;
  shown : bytes
}.
Definition set_newfd v r := Receiver (r_cmptr r) v (status r) (uid r) (shown r).
Definition set_status v r := Receiver (r_cmptr r) (newfd r) v (uid r) (shown r).
Definition set_uid v r := Receiver (r_cmptr r) (newfd r) (status r) (Some v) (shown r).
Definition set_shown v r := Receiver (r_cmptr r) (newfd r) (status r) (uid r) v.
Definition set_r_cmptr v r := Receiver v (newfd r) (status r) (uid r) (shown r).

(** One answer of the system: whether malloc would succeed, what recvmsg
    returns ([None]: an error; no data: the end of the stream), and whether
    [userfunc] takes everything. *)
Record recv_env := RecvEnv { r_malloc_ok : bool; r_msg : option message; r_user_ok : bool }.

(** The control headers in order. *)
Fixpoint take_control (l : list cmsg) : M receiver unit :=
  match l with
  | [] => skip
  | Rights fd :: l => modify (set_newfd fd);;; take_control l
  | Creds u :: l => modify (set_uid u);;; take_control l
  | Other :: l => take_control l
  end.

(** [for (ptr = buf; ptr < &buf[nr]; )]: returns the new [nr]. *)
Fixpoint scan_loop (fuel : nat) (m : message) (ptr nr : nat) : M receiver nat :=
  match fuel with
  | O => nofuel
  | S fuel =>
    if (ptr <? nr)%nat then
      match m_data m !! ptr with
      | None => undef "buf"
      | Some c =>
        let ptr := S ptr in
        if c =? 0 then
          die_if (negb (S ptr =? nr)%nat) "message format error";;;
          match m_data m !! ptr with
          | None => undef "buf"
          | Some st =>
            let st := Z.land st 255 in
            modify (set_status st);;;
            (if st =? 0 then
               match m_control m with
               | None => die "status = 0 but no fd"
               | Some l => take_control l
               end
             else modify (set_newfd (- st)));;;
            scan_loop fuel m ptr (nr - 2)
          end
        else scan_loop fuel m ptr nr
      end
    else ret nr
  end.

(** The loop over messages; without a further answer of the system the call
    blocks, which is [NoFuel] here. *)
Fixpoint recv_loop (env : list recv_env) : M receiver Z :=
  match env with
  | [] => nofuel
  | e :: env =>
    let* c := gets r_cmptr in
    if negb c && negb (r_malloc_ok e) then ret (-1)
    else
      modify (set_r_cmptr true);;;
      match r_msg e with
      | None => ret (-1)
      | Some m =>
        let m := Message (take MAXLINE (m_data m)) (m_control m) in
        let nr := length (m_data m) in
        if (nr =? 0)%nat then ret (-1)
        else
          let* nr := scan_loop (S nr) m 0 nr in
          (if (0 <? nr)%nat then modify (fun r => set_shown (shown r ++ take nr (m_data m)) r) else skip);;;
          if (0 <? nr)%nat && negb (r_user_ok e) then ret (-1)
          else
            let* st := gets status in
            if 0 <=? st then gets newfd else recv_loop env
      end
  end.

Definition recv_ufd (env : list recv_env) : M receiver Z := fun r =>
  recv_loop env (Receiver (r_cmptr r) (-1) (-1) (uid r) (shown r)).

(** * What a stream of messages means *)

Definition nonul (b : bytes) : Prop := Forall (fun c => c <> 0) b.

Lemma scan_text fuel m ptr r :
  nonul (m_data m) -> (ptr <= length (m_data m))%nat -> (length (m_data m) < ptr + fuel)%nat ->
  scan_loop fuel m ptr (length (m_data m)) r = Ret (length (m_data m)) r.
Proof.
  intros Hn. revert ptr. induction fuel as [|fuel IH]; intros ptr Hp Hf; [lia|]. cbn [scan_loop].
  destruct (Nat.ltb_spec ptr (length (m_data m))) as [Hlt|]; [|by replace ptr with (length (m_data m)) by lia].
  destruct (lookup_lt_is_Some_2 _ _ Hlt) as [c Hc]. rewrite Hc.
  rewrite (proj2 (Z.eqb_neq c 0)); [apply IH; lia|]. by apply (Forall_lookup_1 _ _ _ _ Hn Hc).
Qed.

(** What the end of a reply leaves: the descriptor and the identity of the
    control data, or the negated status. *)
Definition control_step (r : receiver) (c : cmsg) : receiver :=
  match c with Rights fd => set_newfd fd r | Creds u => set_uid u r | Other => r end.
Definition final_of (st : Z) (ctl : option (list cmsg)) (r : receiver) : option receiver :=
  if st =? 0 then (fun l => foldl control_step (set_status st r) l) <$> ctl
  else Some (set_newfd (- st) (set_status st r)).

Lemma take_control_run l r : take_control l r = Ret tt (foldl control_step r l).
Proof. revert r. induction l as [|[] l IH]; intros r; cbn; [done|apply IH..]. Qed.

(** The last message of a reply: text, a null byte, the status. *)
Lemma scan_final fuel text st ctl ptr r r' :
  nonul text -> (ptr <= length text)%nat -> (length text + 1 < ptr + fuel)%nat -> 0 <= st < 256 ->
  final_of st ctl r = Some r' ->
  scan_loop fuel (Message (text ++ [0; st]) ctl) ptr (length text + 2) r = Ret (length text) r'.
Proof.
  intros Hn Hp Hf Hst Hr. revert ptr Hp Hf. induction fuel as [|fuel IH]; intros ptr Hp Hf; [lia|]. cbn [scan_loop m_data].
  rewrite (proj2 (Nat.ltb_lt _ _)) by lia.
  destruct (decide (ptr = length text)) as [->|Hne].
  - rewrite lookup_app_r, Nat.sub_diag by lia. cbn [lookup list_lookup Z.eqb].
    replace (S (S (length text)) =? length text + 2)%nat with true by (symmetry; apply Nat.eqb_eq; lia).
    cbn [negb die_if]. rewrite lookup_app_r by lia. replace (S (length text) - length text)%nat with 1%nat by lia.
    cbn [lookup list_lookup]. change 255 with (Z.ones 8). rewrite Z.land_ones, Z.mod_small by lia.
    replace (length text + 2 - 2)%nat with (length text) by lia.
    assert (E : (if st =? 0 then match ctl with None => die "status = 0 but no fd" | Some l => take_control l end
                 else modify (set_newfd (- st))) (set_status st r) = Ret tt r').
    { unfold final_of in Hr. destruct (st =? 0); [|by injection Hr as <-].
      destruct ctl as [l|]; [|done]. injection Hr as <-. by rewrite take_control_run. }
    rewrite (bind_run skip _ r tt r) by done. rewrite bind_modify. cbn [m_control]. call E. destruct fuel as [|fuel]; [lia|].
    cbn [scan_loop]. by rewrite (proj2 (Nat.ltb_ge _ _)) by lia.
  - rewrite lookup_app_l by lia. destruct (lookup_lt_is_Some_2 text ptr ltac:(lia)) as [c Hc]. rewrite Hc.
    rewrite (proj2 (Z.eqb_neq c 0)) by by apply (Forall_lookup_1 _ _ _ _ Hn Hc). apply IH; lia.
Qed.

(** A message of text only, and the last one, as the system delivers them. *)
Definition text_env (e : recv_env) (t : bytes) : Prop :=
  r_malloc_ok e = true /\ r_user_ok e = true /\ nonul t /\ (0 < length t <= MAXLINE)%nat /\
  exists ctl, r_msg e = Some (Message t ctl).
Definition final_env (e : recv_env) (t : bytes) (st : Z) (ctl : option (list cmsg)) : Prop :=
  r_malloc_ok e = true /\ r_user_ok e = true /\ nonul t /\ (length t + 2 <= MAXLINE)%nat /\
  r_msg e = Some (Message (t ++ [0; st]) ctl).

Lemma recv_reply es ts e t st ctl rest r r' :
  Forall2 text_env es ts -> final_env e t st ctl -> 0 <= st < 256 -> status r < 0 ->
  final_of st ctl (Receiver true (newfd r) (status r) (uid r) (shown r ++ concat ts)) = Some r' ->
  recv_loop (es ++ e :: rest) r = Ret (newfd r') (set_shown (shown r' ++ t) r').
Proof.
  intros Hes (Hm & Hu & Hn & Hlen & He) Hst. revert r. induction Hes as [|e1 t1 es ts (M1 & U1 & N1 & L1 & ctl1 & E1) _ IH]; intros r Hsr Hf.
  - cbn [app recv_loop]. rewrite bind_gets, Hm, andb_false_r, bind_modify, He. cbn [m_data m_control].
    rewrite take_ge by (rewrite length_app; cbn; lia). rewrite length_app. cbn [length].
    rewrite (proj2 (Nat.eqb_neq (length t + 2) 0)) by lia. cbn [concat] in Hf. rewrite app_nil_r in Hf.
    assert (E : scan_loop (S (length t + 2)) (Message (t ++ [0; st]) ctl) 0 (length t + 2) (set_r_cmptr true r) = Ret (length t) r')
      by (apply scan_final; [done|lia|lia|done|done]).
    call E. rewrite take_app_length, Hu, andb_false_r.
    assert (Hstat : 0 <= status r').
    { unfold final_of in Hf. destruct (Z.eqb_spec st 0) as [E0|]; [|injection Hf as <-; cbn; lia].
      destruct ctl as [l|]; [|done]. injection Hf as <-.
      assert (forall l r, status (foldl control_step r l) = status r) as ->; [|cbn; lia].
      clear. induction l as [|[] l IH]; intros r; cbn; [done|by rewrite IH..]. }
    destruct (Nat.ltb_spec 0 (length t)) as [Hp|Hz]; unfold bind, modify, skip, ret, gets; cbn [status set_shown newfd];
      rewrite (proj2 (Z.leb_le _ _)) by done; [done|].
    apply Nat.le_0_r, nil_length_inv in Hz as ->. rewrite app_nil_r. by destruct r'.
  - cbn [app recv_loop]. rewrite bind_gets, M1, andb_false_r, bind_modify, E1. cbn [m_data m_control].
    rewrite take_ge by lia. rewrite (proj2 (Nat.eqb_neq (length t1) 0)) by lia.
    assert (E : scan_loop (S (length t1)) (Message t1 ctl1) 0 (length t1) (set_r_cmptr true r) = Ret (length t1) (set_r_cmptr true r))
      by (apply (scan_text _ (Message t1 ctl1)); cbn; [done|lia|lia]).
    call E. rewrite (proj2 (Nat.ltb_lt 0 (length t1))), U1, firstn_all by lia. cbn [negb andb].
    rewrite bind_modify, bind_gets. cbn [status set_shown set_r_cmptr]. rewrite (proj2 (Z.leb_gt _ _)) by lia.
    apply IH; [done|]. cbn [newfd status uid shown set_shown set_r_cmptr]. cbn [concat] in Hf. by rewrite app_assoc in Hf.
Qed.

(** Whatever arrives, the scan stays inside the message. *)
Lemma scan_safe fuel m ptr nr r :
  (nr <= length (m_data m))%nat -> (nr < ptr + fuel)%nat -> (0 < fuel)%nat ->
  wpd (scan_loop fuel m ptr nr) (fun n _ => (n <= nr)%nat) (fun _ => True) r.
Proof.
  revert ptr nr r. induction fuel as [|fuel IH]; intros ptr nr r Hn Hf H0; [lia|]. cbn [scan_loop].
  destruct (Nat.ltb_spec ptr nr) as [Hlt|]; [|by apply wpd_ret].
  destruct (lookup_lt_is_Some_2 (m_data m) ptr ltac:(lia)) as [c Hc]. rewrite Hc.
  destruct (c =? 0); [|apply IH; lia].
  apply wpd_bind, wpd_die_if; [done|]. intros E%negb_false_iff%Nat.eqb_eq.
  destruct (lookup_lt_is_Some_2 (m_data m) (S ptr) ltac:(lia)) as [st Hst]. rewrite Hst.
  apply wpd_bind, wpd_modify, wpd_bind. set (r1 := set_status _ r). clearbody r1.
  assert (W : forall r2, wpd (scan_loop fuel m (S ptr) (nr - 2)) (fun n _ => (n <= nr)%nat) (fun _ => True) r2).
  { intros r2. eapply wpd_mono; [apply IH; lia|]. cbn. lia. }
  destruct (_ =? 0); [|by apply wpd_modify].
  destruct (m_control m) as [l|]; [|done]. unfold wpd at 1. by rewrite take_control_run.
Qed.

(** * The theorems *)

(** What send_fd and the text before it put on a socket, recv_ufd turns
    into the descriptor, or the status that was sent, whatever pieces the
    system delivers the bytes in, as long as the two bytes of the end stay
    together: the text is given to [userfunc] in order, and with a descriptor
    comes the identity of the sender. *)
Theorem pass_round_trip e x s s' m text es ts last t fd' rest r :
  send_fd e x s = Ret 0 s' -> sent_msgs s' = sent_msgs s ++ [m] ->
  nonul text -> text = concat ts ++ t -> Forall2 text_env es ts ->
  final_env last t (nth 1 (m_data m) 0)
    (if x <? 0 then m_control m else Some [Rights fd'; Creds (my_uid e)]) ->
  exists r', recv_ufd (es ++ last :: rest) r =
    Ret (if x <? 0 then if - x <? 256 then x else - status_byte x else fd') r' /\
    shown r' = shown r ++ text /\ (0 <= x -> uid r' = Some (my_uid e)).
Proof.
  intros Hs Hm Hn -> Hes Hl. unfold send_fd in Hs. destruct (x =? - 2 ^ 31); [done|].
  assert (Hd : m_data m = [0; if x <? 0 then status_byte x else 0]).
  { destruct (x <? 0); [|destruct (negb (cmptr s) && negb (malloc_ok e)); [done|]];
      (destruct (sendmsg_ok e); [|done]); injection Hs as <-; cbn in Hm; by apply app_inj_2 in Hm as [_ [= <-]]. }
  rewrite Hd in Hl. cbn [nth] in Hl. unfold recv_ufd. set (r0 := Receiver _ (-1) _ _ _).
  destruct (Z.ltb_spec x 0) as [Hneg|Hpos].
  - assert (Hst : 0 < status_byte x < 256).
    { unfold status_byte. pose proof (wrapu_range 8 (- x) ltac:(done)). destruct (Z.eqb_spec (u8 (- x)) 0); lia. }
    erewrite (recv_reply es ts last t (status_byte x) (m_control m) rest r0);
      [|done|done|lia|done|unfold final_of; rewrite (proj2 (Z.eqb_neq _ _)) by lia; reflexivity].
    eexists. split; [f_equal|cbn; split; [by rewrite app_assoc|lia]].
    cbn. destruct (Z.ltb_spec (- x) 256); [|done].
    unfold status_byte. rewrite wrapu_small by lia. rewrite (proj2 (Z.eqb_neq _ _)) by lia. lia.
  - erewrite (recv_reply es ts last t 0 (Some [Rights fd'; Creds (my_uid e)]) rest r0); [|done|done|lia|done|reflexivity].
    eexists. split; [done|]. cbn. by rewrite app_assoc.
Qed.

(** No message makes recv_ufd read or write outside its buffer: whatever
    the system delivers, it returns or ends the process, unless it has only
    got text so far and waits for more. *)
Theorem recv_ufd_inside env r :
  match recv_ufd env r with
  | Ret _ _ | Died _ _ => True
  | Undef _ => False
  | NoFuel => forall e, e ∈ env -> exists m, r_msg e = Some m /\ m_data m <> []
  end.
Proof.
  unfold recv_ufd. generalize (Receiver (r_cmptr r) (-1) (-1) (uid r) (shown r)). clear r.
  induction env as [|e env IH]; intros r; cbn [recv_loop]; [by intros e ?%not_elem_of_nil|].
  rewrite bind_gets. destruct (negb (r_cmptr r) && negb (r_malloc_ok e)); [done|]. rewrite bind_modify.
  set (r1 := set_r_cmptr true r). clearbody r1. clear r.
  destruct (r_msg e) as [m|] eqn:Em; [|done]. set (m' := Message (take MAXLINE (m_data m)) (m_control m)).
  destruct (Nat.eqb_spec (length (m_data m')) 0) as [|Hne]; [done|].
  pose proof (scan_safe (S (length (m_data m'))) m' 0 (length (m_data m')) r1 ltac:(lia) ltac:(lia) ltac:(lia)) as W.
  unfold bind at 1. unfold wpd in W. destruct (scan_loop _ m' 0 _ r1) as [nr r2| | |]; try done. clear W.
  assert (Hd : m_data m <> []) by (intros E; apply Hne; cbn; by rewrite E, take_nil).
  assert (W : forall r3, match recv_loop env r3 with
    | Ret _ _ | Died _ _ => True | Undef _ => False
    | NoFuel => forall e', e' ∈ e :: env -> exists m, r_msg e' = Some m /\ m_data m <> [] end).
  { intros r3. specialize (IH r3). destruct (recv_loop env r3); try done. intros e' [-> |He]%elem_of_cons; [eauto|by apply IH]. }
  destruct (Nat.ltb_spec 0 nr); [rewrite bind_modify|unfold bind at 1, skip, ret];
    (destruct (_ && negb (r_user_ok e)); [done|]); rewrite bind_gets; (destruct (0 <=? _); [done|apply W]).
Qed.

(** The two bytes of the end in separate messages are a format error. *)
Lemma end_apart_dies e text ctl env r :
  r_malloc_ok e = true -> nonul text -> (length text < MAXLINE)%nat -> r_msg e = Some (Message (text ++ [0]) ctl) ->
  exists r', recv_ufd (e :: env) r = Died "message format error" r'.
Proof.
  intros Hm Hn Hl He. unfold recv_ufd. set (r0 := Receiver _ _ _ _ _). cbn [recv_loop].
  rewrite bind_gets, Hm, andb_false_r, bind_modify, He. cbn [m_data m_control].
  rewrite take_ge, length_app by (rewrite length_app; cbn; lia). cbn [length].
  rewrite (proj2 (Nat.eqb_neq (length text + 1) 0)) by lia.
  assert (E : forall fuel ptr r, (ptr <= length text)%nat -> (length text < ptr + fuel)%nat ->
    exists r', scan_loop fuel (Message (text ++ [0]) ctl) ptr (length text + 1) r = Died "message format error" r').
  { induction fuel as [|fuel IH]; intros ptr r1 Hp Hf; [lia|]. cbn [scan_loop m_data].
    rewrite (proj2 (Nat.ltb_lt _ _)) by lia. destruct (decide (ptr = length text)) as [->|Hne].
    - rewrite lookup_app_r, Nat.sub_diag by lia. cbn [lookup list_lookup Z.eqb].
      replace (S (S (length text)) =? length text + 1)%nat with false by (symmetry; apply Nat.eqb_neq; lia). by eexists.
    - rewrite lookup_app_l by lia. destruct (lookup_lt_is_Some_2 text ptr ltac:(lia)) as [c Hc]. rewrite Hc.
      rewrite (proj2 (Z.eqb_neq c 0)) by by apply (Forall_lookup_1 _ _ _ _ Hn Hc). apply IH; lia. }
  destruct (E (S (length text + 1)) 0%nat (set_r_cmptr true r0) ltac:(lia) ltac:(lia)) as [r' E'].
  exists r'. unfold bind. by rewrite E'.
Qed.

(** An error with its text in two pieces. *)
Definition demo_env (d : bytes) : recv_env := RecvEnv true (Some (Message d None)) true.
Lemma pass_round_trip_witness :
  exists r', recv_ufd [demo_env (str "no such "); demo_env (str "file" ++ [0; 2])] (Receiver false 7 0 None []) = Ret (-2) r' /\
    shown r' = str "no such file".
Proof.
  destruct (pass_round_trip (SendEnv true true 501) (-2) (Sender false []) (Sender false [Message [0; 2] None]) (Message [0; 2] None)
    (str "no such file") [demo_env (str "no such ")] [str "no such "] (demo_env (str "file" ++ [0; 2])) (str "file") 0 []
    (Receiver false 7 0 None [])) as (r' & E & Hs & _).
  - reflexivity.
  - reflexivity.
  - unfold nonul. vm_compute. repeat (constructor; [discriminate|]). constructor.
  - reflexivity.
  - repeat constructor; vm_compute; (discriminate || reflexivity || lia || eauto).
  - repeat constructor; vm_compute; (discriminate || lia || reflexivity).
  - exists r'. split; [exact E|exact Hs].
Defined.
