(* ===== verification/OpenReq.v ===== *)
(** The open server's requests: apue.3e/ipc2/opend/request.c and cliargs.c,
    the version for a pipe (opend.fe/request.c, main.c), and the clients that
    write the requests (open/open.c, open.fe/open.c). *)
From Stdlib Require Import ZArith Lia.
From stdpp Require Import base list strings numbers.
From S2P Require Import Prelude CString CFile EventLoop OpenPass.
Local Open Scope c_scope.

Definition CL_OPEN : bytes := str "open".
Definition usage : bytes := str "usage: <pathname> <oflag>" ++ [c_nl].

(** The globals of the server, the static buffer of [send_fd], the messages
    sent on each descriptor, the files open, and the log. *)
Record daemon := Daemon {
  errmsg : bytes;
  pathname : bytes;
  oflag : Z;
  cm : bool;
  out : list (Z * message);
  files : list Z;
  log : list bytes
}.
Definition set_errmsg v d := Daemon v (pathname d) (oflag d) (cm d) (out d) (files d) (log d).
Definition set_pathname v d := Daemon (errmsg d) v (oflag d) (cm d) (out d) (files d) (log d).
Definition set_oflag v d := Daemon (errmsg d) (pathname d) v (cm d) (out d) (files d) (log d).
Definition set_cm v d := Daemon (errmsg d) (pathname d) (oflag d) v (out d) (files d) (log d).
Definition set_out v d := Daemon (errmsg d) (pathname d) (oflag d) (cm d) v (files d) (log d).
Definition set_files v d := Daemon (errmsg d) (pathname d) (oflag d) (cm d) (out d) v (log d).
Definition set_log v d := Daemon (errmsg d) (pathname d) (oflag d) (cm d) (out d) (files d) v.

(** [strcpy(errmsg, t)] and [snprintf(errmsg, MAXLINE-1, ...)]. *)
Definition copy_errmsg (t : bytes) : M daemon unit := fun d =>
  if (length t <? length (errmsg d))%nat then Ret tt (set_errmsg (splice 0 (t ++ [0]) (errmsg d)) d)
  else Undef "strcpy".
Definition print_errmsg (t : bytes) : M daemon unit :=
  modify (fun d => set_errmsg (splice 0 (take (MAXLINE - 2) t ++ [0]) (errmsg d)) d).

(** A format without conversions: every percent sign is doubled. *)
Fixpoint plain_format (f : bytes) : bool :=
  match f with
  | [] => true
  | c :: r => if c =? 37 then match r with c' :: r' => (c' =? 37) && plain_format r' | [] => false end
              else plain_format r
  end.
(** [log_msg(fmt)] with no further argument: a conversion would take one. *)
Definition log_format (f : bytes) : M daemon unit :=
  if plain_format f then modify (fun d => set_log (log d ++ [f]) d) else undef "log_msg: no argument for a conversion".
Definition log_msg (t : bytes) : M daemon unit := modify (fun d => set_log (log d ++ [t]) d).

Section request.
(** The system: [open], [strerror], what [buf_args] makes of a string (the
    array of arguments, or [None] when it fails), and the answers to
    [send_fd]; and [send_err] of the book's library. *)
Context (open_ : bytes -> Z -> Z + Z) (strerror : Z -> bytes) (argv_of : bytes -> option (list bytes))
  (senv : send_env) (send_err : Z -> Z -> bytes -> M daemon unit).

Definition cli_args (argv : list bytes) : M daemon Z :=
  match argv with
  | [a0; a1; a2] =>
    if negb (streq a0 CL_OPEN) then copy_errmsg usage;;; ret (-1)
    else
      modify (set_pathname a1);;;
      modify (set_oflag (atoi a2));;;
      ret 0
  | _ => copy_errmsg usage;;; ret (-1)
  end.

(** [buf_args(buf, cli_args)]. *)
Definition buf_args (buf : bytes) : M daemon Z :=
  match argv_of (cstr buf) with None => ret (-1) | Some argv => cli_args argv end.

Definition send_fd_to (clifd fd : Z) : M daemon Z :=
  zoom (fun d => Sender (cm d) [])
    (fun s d => set_cm (cmptr s) (set_out (out d ++ (pair clifd <$> sent_msgs s)) d)) (send_fd senv fd).

Definition open_file (path : bytes) (flag : Z) : M daemon (Z + Z) :=
  match open_ path flag with
  | inl fd => modify (fun d => set_files (fd :: files d) d);;; ret (inl fd)
  | inr e => ret (inr e)
  end.
Definition close_file (fd : Z) : M daemon unit :=
  modify (fun d => set_files (filter (fun f => f <> fd) (files d)) d).

(** ["%*.*s"] with [nread] for width and precision. *)
Definition unterminated (buf : bytes) (nread : nat) : bytes := padl nread (cstr (take nread buf)).

(** [send_err(clifd, -1, errmsg); log_msg(errmsg);]. *)
Definition refuse (clifd : Z) : M daemon unit :=
  let* t := gets (fun d => cstr (errmsg d)) in
  send_err clifd (-1) t;;;
  log_format t.

(** The end of [handle_request]: the file is opened, sent and closed. *)
Definition send_file (clifd : Z) : M daemon unit :=
  let* path := gets pathname in
  let* flag := gets oflag in
  let* f := open_file path flag in
  match f with
  | inr e =>
    print_errmsg (str "can't open " ++ path ++ str ": " ++ strerror e ++ [c_nl]);;;
    refuse clifd
  | inl fd =>
    let* r := send_fd_to clifd fd in
    die_if (r <? 0) "send_fd error";;;
    log_msg (str "sent fd " ++ sdec fd ++ str " over fd " ++ sdec clifd ++ str " for " ++ path);;;
    close_file fd
  end.

Definition handle_request (buf : bytes) (nread : nat) (clifd uid : Z) : M daemon unit :=
  match (if (nread =? 0)%nat then None else buf !! (nread - 1)%nat) with
  | None => undef "buf[nread-1]"
  | Some c =>
    if negb (c =? 0) then
      print_errmsg (str "request from uid " ++ sdec (i32 uid) ++ str " not null terminated: " ++
                    unterminated buf nread ++ [c_nl]);;;
      let* t := gets (fun d => cstr (errmsg d)) in
      send_err clifd (-1) t
    else
      log_msg (str "request: " ++ cstr buf ++ str ", from uid " ++ sdec (i32 uid));;;
      let* r := buf_args buf in
      if r <? 0 then refuse clifd else send_file clifd
  end.

(** opend.fe/request.c: no log, and the descriptor is the standard output. *)
Definition handle_request_fe (buf : bytes) (nread : nat) (fd : Z) : M daemon unit :=
  match (if (nread =? 0)%nat then None else buf !! (nread - 1)%nat) with
  | None => undef "buf[nread-1]"
  | Some c =>
    if negb (c =? 0) then
      print_errmsg (str "request not null terminated: " ++ unterminated buf nread ++ [c_nl]);;;
      let* t := gets (fun d => cstr (errmsg d)) in
      send_err fd (-1) t
    else
      let* r := buf_args buf in
      if r <? 0 then
        let* t := gets (fun d => cstr (errmsg d)) in
        send_err fd (-1) t
      else
        let* path := gets pathname in
        let* flag := gets oflag in
        let* f := open_file path flag in
        match f with
        | inr e =>
          print_errmsg (str "can't open " ++ path ++ str ": " ++ strerror e ++ [c_nl]);;;
          let* t := gets (fun d => cstr (errmsg d)) in
          send_err fd (-1) t
        | inl newfd =>
          let* r := send_fd_to fd newfd in
          die_if (r <? 0) "send_fd error";;;
          close_file newfd
        end
  end.

(** opend.fe/main.c: one request after the other until the end of the stream;
    [None] is an error of [read]. *)
Fixpoint serve_pipe (buf : bytes) (reads : list (option bytes)) : M daemon unit :=
  match reads with
  | [] => nofuel
  | None :: _ => die "read error on stream pipe"
  | Some d :: reads =>
    let d := take MAXLINE d in
    let buf := splice 0 d buf in
    if (length d =? 0)%nat then skip
    else handle_request_fe buf (length d) 1;;; serve_pipe buf reads
  end.
End request.

(** * The clients *)

(** The static descriptors of [csopen], what was written on the connection,
    and the state of the receiver. *)
Record client := Client { csfd : Z; written : list bytes; rcv : receiver }.
Definition set_csfd v c := Client v (written c) (rcv c).
Definition set_written v c := Client (csfd c) v (rcv c).
Definition set_rcv v c := Client (csfd c) (written c) v.

(** Formatting the flag into [char buf\[size\]], sending the three parts, and
    waiting for the answer. *)
Definition ask (size : nat) (writev_ok : bool) (recv_fd : M receiver Z) (name : bytes) (oflag : Z) : M client Z :=
  let buf := [c_space] ++ sdec oflag in
  if (size <? length buf + 1)%nat then undef "sprintf"
  else if negb writev_ok then ret (-1)
  else
    modify (fun c => set_written (written c ++ [(CL_OPEN ++ [c_space]) ++ name ++ (buf ++ [0])]) c);;;
    zoom rcv set_rcv recv_fd.

(** open/open.c: connects to the server once. *)
Definition csopen (cli_conn : Z) (writev_ok : bool) (recv_fd : M receiver Z) (name : bytes) (oflag : Z) : M client Z :=
  let* fd := gets csfd in
  if fd <? 0 then
    modify (set_csfd cli_conn);;;
    if cli_conn <? 0 then ret (-1) else ask 12 writev_ok recv_fd name oflag
  else ask 12 writev_ok recv_fd name oflag.

(** open.fe/open.c: starts the server once, at the other end of a pipe; the
    child's side is not modelled. *)
Definition csopen_fe (fd_pipe : option Z) (fork : Z) (writev_ok : bool) (recv_fd : M receiver Z)
    (name : bytes) (oflag : Z) : M client Z :=
  let* fd := gets csfd in
  if fd <? 0 then
    match fd_pipe with
    | None => ret (-1)
    | Some p =>
      modify (set_csfd p);;;
      if fork <? 0 then ret (-1) else ask 10 writev_ok recv_fd name oflag
    end
  else ask 10 writev_ok recv_fd name oflag.

(** * What a request gets *)

Lemma atoi_udec n : 0 <= n < 2 ^ 31 -> atoi (udec n) = n.
Proof.
  intros Hn. unfold atoi. change (udec n) with (padl 0 (udec n)). rewrite <-(app_nil_r (padl 0 (udec n))).
  rewrite atol_padl; [|unfold LONG_MAX; lia|done]. apply wraps_small; lia.
Qed.

(** The messages that refuse a request with a text, as [send_err] sends them:
    the text, and the end with the status 1. *)
Definition refusal (text : bytes) : list message :=
  (if decide (text = []) then [] else [Message text None]) ++ [Message [0; status_byte (-1)] None].
Definition grant (fd uid : Z) : list message := [Message [0; 0] (Some [Rights fd; Creds uid])].

(** What [send_err] is documented to do. *)
Definition sends_err (send_err : Z -> Z -> bytes -> M daemon unit) : Prop :=
  forall fd text d, nonul text ->
    send_err fd (-1) text d = Ret tt (set_out (out d ++ (pair fd <$> refusal text)) d).

(** The text of an error message that was cut to fit. *)
Definition fitted (t : bytes) : bytes := cstr (take (MAXLINE - 2) t).

Inductive verdict := Refused (logged : bool) (text : bytes) | Granted (fd : Z).
Definition judge (open_ : bytes -> Z -> Z + Z) (strerror : Z -> bytes) (argv_of : bytes -> option (list bytes))
    (old : bytes) (r : bytes) (uid : Z) : verdict :=
  if negb (List.last r 0 =? 0) then
    Refused false (fitted (str "request from uid " ++ sdec (i32 uid) ++ str " not null terminated: " ++
                           unterminated r (length r) ++ [c_nl]))
  else
    match argv_of (cstr r) with
    | None => Refused true (cstr old)
    | Some [a0; a1; a2] =>
      if streq a0 CL_OPEN then
        match open_ a1 (atoi a2) with
        | inl fd => Granted fd
        | inr e => Refused true (fitted (str "can't open " ++ a1 ++ str ": " ++ strerror e ++ [c_nl]))
        end
      else Refused true usage
    | Some _ => Refused true usage
    end.

Definition errmsg_ok (d : daemon) : Prop := length (errmsg d) = MAXLINE.

Lemma cstr_end t r : cstr ((t ++ [0]) ++ r) = cstr t.
Proof. rewrite <-app_assoc. cbn [app]. induction t as [|c t IH]; [done|]. cbn. by destruct (c =? 0); [|rewrite IH]. Qed.

Lemma cstr_terminated t b : cstr (splice 0 (t ++ [0]) b) = cstr t.
Proof. by rewrite splice_front, cstr_end. Qed.

Lemma print_errmsg_run t d : errmsg_ok d ->
  exists d', print_errmsg t d = Ret tt d' /\ cstr (errmsg d') = fitted t /\ d' = set_errmsg (errmsg d') d /\ errmsg_ok d'.
Proof.
  intros H. eexists. split; [reflexivity|]. cbn [errmsg set_errmsg]. split; [apply cstr_terminated|]. split; [done|].
  unfold errmsg_ok in *. cbn [errmsg set_errmsg]. rewrite splice_length; [done|]. rewrite length_app, length_take. cbn [length].
  rewrite H. unfold MAXLINE. lia.
Qed.

Lemma copy_usage d : errmsg_ok d ->
  exists d', copy_errmsg usage d = Ret tt d' /\ cstr (errmsg d') = usage /\ d' = set_errmsg (errmsg d') d /\ errmsg_ok d'.
Proof.
  intros H. unfold copy_errmsg. unfold errmsg_ok in *. rewrite H.
  assert (E : (length usage <? MAXLINE)%nat = true) by by vm_compute. rewrite E. apply Nat.ltb_lt in E.
  eexists. split; [reflexivity|]. cbn [errmsg set_errmsg].
  split; [by rewrite cstr_terminated|]. split; [done|].
  rewrite splice_length; [done|]. rewrite length_app. cbn [length]. lia.
Qed.

(** The bytes of a request in the buffer. *)
Lemma last_byte r buf : r <> [] -> take (length r) buf = r -> buf !! (length r - 1)%nat = Some (List.last r 0).
Proof.
  intros Hr Hb. destruct (exists_last Hr) as (a & x & ->). rewrite last_last, length_app, Nat.add_sub.
  assert (E : take (length (a ++ [x])) buf !! length a = Some x) by by rewrite Hb, list_lookup_middle.
  by apply lookup_take_Some in E as [E _].
Qed.

Lemma cstr_request r buf : r <> [] -> take (length r) buf = r -> List.last r 0 = 0 -> cstr buf = cstr r.
Proof.
  intros Hr Hb H0. rewrite <-(take_drop (length r) buf), Hb. destruct (exists_last Hr) as (a & x & ->).
  rewrite last_last in H0. subst x. by rewrite cstr_end, <-(app_nil_r (a ++ [0])), cstr_end.
Qed.

Section answers.
Context (open_ : bytes -> Z -> Z + Z) (strerror : Z -> bytes) (argv_of : bytes -> option (list bytes))
  (senv : send_env) (send_err : Z -> Z -> bytes -> M daemon unit).
Hypothesis send_err_ok : sends_err send_err.
Hypothesis senv_ok : malloc_ok senv = true /\ sendmsg_ok senv = true.
(** [open] returns a descriptor that is not open. *)
Definition opens_new (d : daemon) : Prop := forall path flag fd, open_ path flag = inl fd -> 0 <= fd /\ (fd ∉ files d).


(** A request is refused with a text: unless the text is logged and is not a
    plain format, in which case anything can happen. *)
Definition refused (logged : bool) (d : daemon) (clifd : Z) (t : bytes) (o : outcome daemon unit) : Prop :=
  if negb logged || plain_format t then
    exists d', o = Ret tt d' /\ errmsg_ok d' /\ files d' = files d /\ out d' = out d ++ (pair clifd <$> refusal t) /\
      cstr (errmsg d') = t
  else exists why, o = Undef why.
Definition granted (d : daemon) (clifd fd : Z) (o : outcome daemon unit) : Prop :=
  exists d', o = Ret tt d' /\ errmsg_ok d' /\ files d' = files d /\
    out d' = out d ++ (pair clifd <$> grant fd (my_uid senv)) /\ errmsg d' = errmsg d.

Lemma req_refuse_run d clifd t :
  cstr (errmsg d) = t -> errmsg_ok d -> refused true d clifd t (refuse send_err clifd d).
Proof.
  intros Ht He. unfold refuse. rewrite bind_gets, Ht. rewrite (bind_run _ _ _ tt _ (send_err_ok clifd t d ltac:(rewrite <-Ht; apply cstr_nonul))).
  unfold log_format, refused. destruct (plain_format t); by eexists.
Qed.

Lemma grant_run d clifd fd path :
  0 <= fd -> (fd ∉ files d) -> errmsg_ok d ->
  granted d clifd fd ((let* r := send_fd_to senv clifd fd in
     die_if (r <? 0) "send_fd error";;;
     log_msg (str "sent fd " ++ sdec fd ++ str " over fd " ++ sdec clifd ++ str " for " ++ path);;;
     close_file fd) (set_files (fd :: files d) d)).
Proof.
  intros H0 Hnew He. destruct senv_ok as [Hm Hs]. eexists. split.
  - unfold send_fd_to, zoom, send_fd, bind. rewrite (proj2 (Z.eqb_neq fd _)), (proj2 (Z.ltb_ge fd 0)), Hm, andb_false_r, Hs by lia.
    reflexivity.
  - split; [done|]. split; [|done]. cbn [files set_files set_log log_msg set_cm set_out modify]. rewrite filter_cons_False by tauto.
    induction (files d) as [|f l IH]; [done|]. rewrite filter_cons_True by (intros ->; apply Hnew; by left).
    f_equal. apply IH. intros ?. apply Hnew. by right.
Qed.

Definition bad_args (argv : list bytes) : bool :=
  match argv with [a0; a1; a2] => negb (streq a0 CL_OPEN) | _ => true end.

Lemma usage_run argv d : bad_args argv = true -> errmsg_ok d ->
  exists d', cli_args argv d = Ret (-1) d' /\ cstr (errmsg d') = usage /\ errmsg_ok d' /\ files d' = files d /\ out d' = out d.
Proof.
  intros Ha He. destruct (copy_usage d He) as (d' & E & Ht & E' & He'). exists d'. split; [|by rewrite E'].
  unfold cli_args. destruct argv as [|a0 [|a1 [|a2 [|]]]]; cbv beta iota delta [bad_args] in Ha; cbv iota; try (rewrite Ha; cbv iota); by call E.
Qed.

Lemma req_send_file_run d clifd :
  errmsg_ok d -> opens_new d ->
  match open_ (pathname d) (oflag d) with
  | inl fd => granted d clifd fd (send_file open_ strerror senv send_err clifd d)
  | inr e => refused true d clifd (fitted (str "can't open " ++ pathname d ++ str ": " ++ strerror e ++ [c_nl]))
               (send_file open_ strerror senv send_err clifd d)
  end.
Proof.
  intros He Hnew. unfold send_file. rewrite !bind_gets. unfold open_file.
  destruct (open_ (pathname d) (oflag d)) as [fd|e] eqn:Ho.
  - rewrite bind_assoc, bind_modify. unfold bind at 1, ret at 1. destruct (Hnew _ _ _ Ho). by apply grant_run.
  - unfold bind at 1, ret at 1.
    destruct (print_errmsg_run (str "can't open " ++ pathname d ++ str ": " ++ strerror e ++ [c_nl]) d He) as (d3 & E & Ht & E3 & He3).
    call E. pose proof (req_refuse_run d3 clifd _ Ht He3) as W. assert (files d3 = files d /\ out d3 = out d) as [Hf Ho'] by by rewrite E3.
    unfold refused in *. rewrite Hf, Ho' in W. exact W.
Qed.

Lemma handle_terminated d buf r clifd uid : r <> [] -> take (length r) buf = r -> List.last r 0 = 0 ->
  exists t, handle_request open_ strerror argv_of senv send_err buf (length r) clifd uid d =
    (let* x := buf_args argv_of r in
     if x <? 0 then refuse send_err clifd else send_file open_ strerror senv send_err clifd) (set_log t d).
Proof.
  intros Hr Hb H0. unfold handle_request. rewrite (proj2 (Nat.eqb_neq _ 0)), (last_byte _ _ Hr Hb), H0 by by destruct r.
  eexists. unfold buf_args. by rewrite (cstr_request r buf Hr Hb H0).
Qed.

(** Every request gets exactly one answer, its judgement; the file that was
    opened for it is closed again. *)
Definition answered (d : daemon) (r : bytes) (clifd uid : Z) (o : outcome daemon unit) : Prop :=
  match judge open_ strerror argv_of (errmsg d) r uid with
  | Refused logged text => refused logged d clifd text o
  | Granted fd => granted d clifd fd o
  end.

Lemma handle_request_run d buf r clifd uid :
  errmsg_ok d -> opens_new d -> r <> [] -> take (length r) buf = r ->
  answered d r clifd uid (handle_request open_ strerror argv_of senv send_err buf (length r) clifd uid d).
Proof.
  intros He Hnew Hr Hbuf. unfold answered, judge. destruct (List.last r 0 =? 0) eqn:Hlast; cbn [negb].
  2:{ unfold handle_request, unterminated.
    rewrite (proj2 (Nat.eqb_neq _ 0)), (last_byte _ _ Hr Hbuf), Hlast by by destruct r. cbn [negb]. rewrite Hbuf, firstn_all.
    destruct (print_errmsg_run (str "request from uid " ++ sdec (i32 uid) ++ str " not null terminated: " ++
       padl (length r) (cstr r) ++ [c_nl]) d He) as (d1 & E & Ht & E1 & He1).
    call E. rewrite bind_gets, Ht. rewrite send_err_ok by apply cstr_nonul. eexists. split; [reflexivity|]. by rewrite E1. }
  apply Z.eqb_eq in Hlast. destruct (handle_terminated d buf r clifd uid Hr Hbuf Hlast) as (t & E). rewrite E. clear E.
  set (d1 := set_log t d). unfold buf_args.
  destruct (argv_of (cstr r)) as [argv|] eqn:Hargv; [|exact (req_refuse_run d1 clifd _ eq_refl He)].
  assert (Husage : bad_args argv = true -> refused true d clifd usage ((let* r0 := cli_args argv in
      if r0 <? 0 then refuse send_err clifd else send_file open_ strerror senv send_err clifd) d1)).
  { intros Ha. destruct (usage_run argv d1 Ha He) as (d2 & E & Ht & He2 & Hf & Ho). call E.
    change (-1 <? 0) with true. cbv iota. pose proof (req_refuse_run d2 clifd _ Ht He2) as W.
    unfold refused in *. rewrite Hf, Ho in W. exact W. }
  destruct argv as [|a0 [|a1 [|a2 [|]]]];
    lazymatch goal with |- context [streq a0 CL_OPEN] => idtac | _ => exact (Husage eq_refl) end.
  destruct (streq a0 CL_OPEN) eqn:Ha; [|apply Husage; unfold bad_args; by rewrite Ha]. clear Husage.
  unfold cli_args. rewrite Ha. cbn [negb].
  destruct (open_ a1 (atoi a2)) as [fd|e] eqn:Ho;
    rewrite bind_assoc, bind_modify, bind_assoc, bind_modify; unfold bind at 1, ret at 1; change (0 <? 0) with false; cbv iota;
    pose proof (req_send_file_run (set_oflag (atoi a2) (set_pathname a1 d1)) clifd He Hnew) as W;
    cbn [pathname oflag set_oflag set_pathname] in W; rewrite Ho in W; exact W.
Qed.
End answers.

(** * From csopen to the server and back *)

Definition request (name : bytes) (oflag : Z) : bytes := (CL_OPEN ++ [c_space]) ++ name ++ ([c_space] ++ sdec oflag ++ [0]).

(** A word: what [buf_args] takes for one argument. *)
Definition word (b : bytes) : Prop := b <> [] /\ Forall (fun c => isspace c = false /\ c <> 0) b.
(** [buf_args] is documented to break its buffer at white space. *)
Definition splits (argv_of : bytes -> option (list bytes)) : Prop :=
  forall a b c, word a -> word b -> word c ->
    argv_of (a ++ [c_space] ++ b ++ [c_space] ++ c) = Some [a; b; c].

(** The system delivers a message whole, and gives the descriptor in it a
    number in the receiving process. *)
Definition renumber (dup : Z -> Z) (c : cmsg) : cmsg := match c with Rights fd => Rights (dup fd) | c => c end.
Definition deliver (dup : Z -> Z) (m : message) : recv_env :=
  RecvEnv true (Some (Message (m_data m) (option_map (List.map (renumber dup)) (m_control m)))) true.

Lemma word_digits n : 0 <= n -> word (udec n).
Proof.
  intros Hn. destruct (udec_spec n Hn) as (H1 & H2 & _). split; [done|]. eapply Forall_impl; [|exact H2].
  intros c Hc. split; [by apply isdigit_not_space|]. intros ->. by vm_compute in Hc.
Qed.

Lemma word_nonul b : word b -> Forall (fun c => c <> 0) b.
Proof. intros [_ H]. eapply Forall_impl; [|exact H]. by intros c [_ ?]. Qed.

Lemma cstr_of_request name flag : word name -> 0 <= flag ->
  cstr (request name flag) = CL_OPEN ++ [c_space] ++ name ++ [c_space] ++ udec flag.
Proof.
  intros Hn Hf. unfold request, sdec. rewrite (proj2 (Z.ltb_ge flag 0)) by lia.
  replace ((CL_OPEN ++ [c_space]) ++ name ++ ([c_space] ++ udec flag ++ [0]))
    with (((CL_OPEN ++ [c_space] ++ name ++ [c_space] ++ udec flag) ++ [0]) ++ []) by (by rewrite app_nil_r, <-!app_assoc).
  rewrite cstr_end. apply cstr_id. rewrite !Forall_app. split_and!.
  - by repeat constructor.
  - by repeat constructor.
  - by apply word_nonul.
  - by repeat constructor.
  - by apply word_nonul, word_digits.
Qed.

(** What [csopen] receives for an answer of the server. *)
Lemma receive_refusal dup text r :
  nonul text -> (length text <= MAXLINE)%nat ->
  exists r', recv_ufd (deliver dup <$> refusal text) r = Ret (-1) r' /\ shown r' = shown r ++ text.
Proof.
  intros Hn Hl. unfold recv_ufd. set (r0 := Receiver _ (-1) _ _ _).
  assert (Hf : final_env (deliver dup (Message [0; status_byte (-1)] None)) [] 1 None) by (repeat constructor; cbn; unfold MAXLINE; lia).
  unfold refusal. destruct (decide (text = [])) as [->|Hne].
  - change (deliver dup <$> _) with ([] ++ deliver dup (Message [0; status_byte (-1)] None) :: []).
    erewrite (recv_reply [] [] _ [] 1 None []); [|constructor|done|lia|done|reflexivity].
    eexists. split; [reflexivity|]. cbn. by rewrite !app_nil_r.
  - change (deliver dup <$> _) with ([deliver dup (Message text None)] ++ deliver dup (Message [0; status_byte (-1)] None) :: []).
    erewrite (recv_reply [deliver dup (Message text None)] [text] _ [] 1 None []); [| |exact Hf|lia|done|reflexivity].
    + eexists. split; [reflexivity|]. cbn. by rewrite !app_nil_r.
    + apply Forall2_cons; [|by apply Forall2_nil]. split_and!; try done; [destruct text; [done|cbn; lia]|by eexists].
Qed.

Lemma receive_grant dup fd uid0 r :
  exists r', recv_ufd (deliver dup <$> grant fd uid0) r = Ret (dup fd) r' /\ shown r' = shown r.
Proof.
  unfold recv_ufd. set (r0 := Receiver _ (-1) _ _ _).
  change (deliver dup <$> _) with ([] ++ deliver dup (Message [0; 0] (Some [Rights fd; Creds uid0])) :: []).
  erewrite (recv_reply [] [] _ [] 0 (Some [Rights (dup fd); Creds uid0]) []);
    [|constructor|repeat constructor; cbn; unfold MAXLINE; lia|lia|done|reflexivity].
  eexists. split; [reflexivity|]. cbn. by rewrite !app_nil_r.
Qed.

Lemma csopen_run conn recv name flag c v r' :
  (csfd c < 0 -> 0 <= conn) -> 0 <= flag < 2 ^ 31 -> recv (rcv c) = Ret v r' ->
  exists c', csopen conn true recv name flag c = Ret v c' /\ written c' = written c ++ [request name flag] /\ rcv c' = r'.
Proof.
  intros Hc Hf Hr. unfold csopen. rewrite bind_gets.
  assert (Hlen : (12 <? length ([c_space] ++ sdec flag) + 1)%nat = false).
  { apply Nat.ltb_ge. unfold sdec. rewrite (proj2 (Z.ltb_ge flag 0)), length_app by lia. cbn [length].
    pose proof (udec_length flag 9 ltac:(change (10 ^ Z.of_nat 10) with 10000000000; lia)). lia. }
  assert (A : forall c, recv (rcv c) = Ret v r' -> exists c', ask 12 true recv name flag c = Ret v c' /\
    written c' = written c ++ [request name flag] /\ rcv c' = r').
  { intros c0 Hr0. unfold ask. rewrite Hlen. cbn [negb]. rewrite bind_modify.
    rewrite (zoom_run _ _ _ (set_written _ c0) v r') by done.
    eexists. split; [reflexivity|]. split; [|done]. cbn [written set_rcv set_written]. unfold request. by rewrite <-!app_assoc. }
  destruct (Z.ltb_spec (csfd c) 0) as [Hneg|]; [|by apply A]. rewrite bind_modify, (proj2 (Z.ltb_ge conn 0)) by auto.
  destruct (A (set_csfd conn c) Hr) as (c' & E & W & R). by exists c'.
Qed.

(** * The theorems *)

Lemma dval_lt b acc : digits b -> 0 <= acc -> dval acc b < (acc + 1) * 10 ^ Z.of_nat (length b).
Proof.
  intros Hb. revert acc. induction Hb as [|c b Hc _ IH]; intros acc Ha; [cbn; lia|]. cbn [dval length].
  apply isdigit_spec in Hc. rewrite Nat2Z.inj_succ, Z.pow_succ_r by lia.
  eapply Z.lt_le_trans; [apply IH; lia|]. rewrite Z.mul_assoc. apply Z.mul_le_mono_nonneg_r; lia.
Qed.

(** How many digits a number has. *)
Lemma udec_length_iff n k : 0 <= n -> (length (udec n) <= S k)%nat <-> n < 10 ^ Z.of_nat (S k).
Proof.
  intros Hn. split; [|intros ?; by apply udec_length]. intros Hl. destruct (udec_spec n Hn) as (_ & Hd & Hv).
  pose proof (dval_lt _ 0 Hd ltac:(lia)) as H. rewrite Hv in H. eapply Z.lt_le_trans; [exact H|].
  rewrite Z.mul_1_l. apply Z.pow_le_mono_r; lia.
Qed.

(** A flag in a buffer of [k + 4] characters: a blank, the digits with their
    sign, and the terminator. *)
Lemma flag_fits k flag :
  (S (S (S (S k))) <? length ([c_space] ++ sdec flag) + 1)%nat = false <-> - 10 ^ Z.of_nat (S k) < flag < 10 ^ Z.of_nat (S (S k)).
Proof.
  rewrite Nat.ltb_ge, length_app. cbn [length]. unfold sdec. destruct (Z.ltb_spec flag 0) as [Hneg|Hpos].
  - cbn [length]. pose proof (udec_length_iff (- flag) k ltac:(lia)). pose proof (Z.pow_nonneg 10 (Z.of_nat (S (S k))) ltac:(lia)).
    pose proof (Z.pow_pos_nonneg 10 (Z.of_nat (S (S k))) ltac:(lia) ltac:(lia)). lia.
  - pose proof (udec_length_iff flag (S k) ltac:(lia)). pose proof (Z.pow_pos_nonneg 10 (Z.of_nat (S k)) ltac:(lia) ltac:(lia)). lia.
Qed.

(** C24: What the open server does with each request it reads.  When the
    bytes end with a null byte and hold "open", a name the system opens and
    the flag, the answer on the connection the request came from is the
    descriptor of the file, which is closed again.  Otherwise it is a
    refusal, with the text [judge] gives: of the missing null byte, of the
    usage, of the error of [open]; or, when [buf_args] cannot break up the
    request, whatever text an earlier request has left in [errmsg].  A
    refusal that is logged is one only if its text has no conversion of
    [printf]: otherwise the call of [log_msg] is undefined, and the theorem
    says so. *)
Theorem handle_request_answers open_ strerror argv_of senv send_err d buf r clifd uid :
  sends_err send_err -> malloc_ok senv = true /\ sendmsg_ok senv = true -> errmsg_ok d -> opens_new open_ d ->
  r <> [] -> take (length r) buf = r ->
  match judge open_ strerror argv_of (errmsg d) r uid with
  | Granted fd =>
    exists d', handle_request open_ strerror argv_of senv send_err buf (length r) clifd uid d = Ret tt d' /\
      errmsg_ok d' /\ files d' = files d /\ out d' = out d ++ (pair clifd <$> grant fd (my_uid senv)) /\ errmsg d' = errmsg d
  | Refused logged text =>
    if negb logged || plain_format text then
      exists d', handle_request open_ strerror argv_of senv send_err buf (length r) clifd uid d = Ret tt d' /\
        errmsg_ok d' /\ files d' = files d /\ out d' = out d ++ (pair clifd <$> refusal text) /\ cstr (errmsg d') = text
    else exists why, handle_request open_ strerror argv_of senv send_err buf (length r) clifd uid d = Undef why
  end.
Proof.
  intros Hse Hs He Hnew Hr Hb. pose proof (handle_request_run open_ strerror argv_of senv send_err Hse Hs d buf r clifd uid He Hnew Hr Hb) as W.
  unfold answered in W. by destruct (judge _ _ _ _ _ _).
Qed.

(** C23: From one program to the other: the request csopen writes for a name
    without white space, handled by the server, whose messages recv_ufd
    receives, makes csopen return a descriptor of the file the server opened
    with that name and flag, or -1 with the server's message shown. *)
Theorem csopen_end_to_end open_ strerror argv_of senv send_err dup conn name flag d buf clifd uid c :
  sends_err send_err -> malloc_ok senv = true /\ sendmsg_ok senv = true -> splits argv_of ->
  errmsg_ok d -> opens_new open_ d -> word name -> 0 <= flag < 2 ^ 31 -> (csfd c < 0 -> 0 <= conn) ->
  take (length (request name flag)) buf = request name flag ->
  let text e := fitted (str "can't open " ++ name ++ str ": " ++ strerror e ++ [c_nl]) in
  (forall e, open_ name flag = inr e -> plain_format (text e) = true) ->
  exists d' msgs c',
    handle_request open_ strerror argv_of senv send_err buf (length (request name flag)) clifd uid d = Ret tt d' /\
    out d' = out d ++ (pair clifd <$> msgs) /\
    csopen conn true (recv_ufd (deliver dup <$> msgs)) name flag c =
      Ret (match open_ name flag with inl fd => dup fd | inr _ => -1 end) c' /\
    written c' = written c ++ [request name flag] /\
    shown (rcv c') = shown (rcv c) ++ match open_ name flag with inl _ => [] | inr e => text e end.
Proof.
  intros Hse Hs Hsp He Hnew Hw Hf Hc Hb text Hplain.
  assert (Hr : request name flag <> []) by done.
  pose proof (handle_request_run open_ strerror argv_of senv send_err Hse Hs d buf (request name flag) clifd uid He Hnew Hr Hb) as W.
  unfold answered in W.
  assert (Hj : judge open_ strerror argv_of (errmsg d) (request name flag) uid =
    match open_ name flag with inl fd => Granted fd | inr e => Refused true (text e) end).
  { unfold judge. assert (List.last (request name flag) 0 = 0) as ->.
    { unfold request. rewrite !app_assoc. by rewrite last_last. }
    cbn [Z.eqb negb]. rewrite cstr_of_request by (done || lia). rewrite Hsp; [|by repeat constructor|done|apply word_digits; lia].
    replace (streq CL_OPEN CL_OPEN) with true by by vm_compute. by rewrite atoi_udec. }
  rewrite Hj in W. destruct (open_ name flag) as [fd|e] eqn:Ho.
  - destruct W as (d' & E & _ & _ & Hout & _). destruct (receive_grant dup fd (my_uid senv) (rcv c)) as (r' & Er & Hsh).
    destruct (csopen_run conn _ name flag c _ _ Hc Hf Er) as (c' & Ec & Hwr & Hrc).
    exists d', (grant fd (my_uid senv)), c'. split_and!; try done. by rewrite Hrc, Hsh, app_nil_r.
  - unfold refused in W. rewrite (Hplain e eq_refl) in W. cbn [negb orb] in W. destruct W as (d' & E & _ & _ & Hout & _).
    destruct (receive_refusal dup (text e) (rcv c)) as (r' & Er & Hsh).
    { apply cstr_nonul. }
    { unfold text, fitted. etransitivity; [apply cstr_length_le|]. rewrite length_take. unfold MAXLINE. lia. }
    destruct (csopen_run conn _ name flag c _ _ Hc Hf Er) as (c' & Ec & Hwr & Hrc).
    exists d', (refusal (text e)), c'. split_and!; try done. by rewrite Hrc, Hsh.
Qed.

(** The arrays csopen formats the flag into: in open/open.c the 12 bytes
    hold every flag above minus ten to the ninth, in open.fe/open.c
    the 10 bytes only flags of at most eight digits; any other flag is written
    past the end of the array. *)
Theorem flag_buffers conn ok recv name flag c :
  - 2 ^ 31 <= flag < 2 ^ 31 -> 0 <= csfd c -> (forall r, recv r <> Undef "sprintf") ->
  (csopen conn ok recv name flag c = Undef "sprintf" <-> flag <= - 10 ^ 9) /\
  (csopen_fe None 0 ok recv name flag c = Undef "sprintf" <-> flag <= - 10 ^ 7 \/ 10 ^ 8 <= flag).
Proof.
  intros Hf Hc Hr. unfold csopen, csopen_fe. rewrite !bind_gets, (proj2 (Z.ltb_ge (csfd c) 0)) by done. unfold ask.
  assert (A : forall b, (if b : bool then undef "sprintf" else if negb ok then ret (-1)
      else modify (fun c => set_written (written c ++ [(CL_OPEN ++ [c_space]) ++ name ++ ([c_space] ++ sdec flag) ++ [0]]) c);;;
           zoom rcv set_rcv recv) c = Undef "sprintf" <-> b = true).
  { intros []; [done|]. split; [|done]. destruct ok; [|done]. cbn [negb]. rewrite bind_modify. unfold zoom.
    specialize (Hr (rcv (set_written (written c ++ [(CL_OPEN ++ [c_space]) ++ name ++ ([c_space] ++ sdec flag) ++ [0]]) c))).
    destruct (recv _); try done. intros [= ->]. by destruct Hr. }
  rewrite !A. pose proof (flag_fits 8 flag) as F1. pose proof (flag_fits 6 flag) as F2.
  change (10 ^ Z.of_nat 9) with (10 ^ 9) in F1. change (10 ^ Z.of_nat 10) with 10000000000 in F1.
  change (10 ^ Z.of_nat 7) with (10 ^ 7) in F2. change (10 ^ Z.of_nat 8) with (10 ^ 8) in F2.
  destruct (12 <? _)%nat, (10 <? _)%nat; split; split; intros; try done; lia || (destruct F1, F2; lia).
Qed.

(** * A session *)

(** A [buf_args], and a [send_err], as they are documented. *)
Fixpoint tokens (cur b : bytes) : list bytes :=
  match b with
  | [] => if decide (cur = []) then [] else [cur]
  | c :: r =>
    if isspace c then (if decide (cur = []) then tokens [] r else cur :: tokens [] r)
    else tokens (cur ++ [c]) r
  end.
Definition demo_args (b : bytes) : option (list bytes) := Some (tokens [] b).
Definition demo_send_err (fd st : Z) (t : bytes) : M daemon unit :=
  modify (fun d => set_out (out d ++ (pair fd <$> refusal t)) d).

Lemma tokens_word w cur r : Forall (fun c => isspace c = false /\ c <> 0) w -> tokens cur (w ++ r) = tokens (cur ++ w) r.
Proof.
  intros Hw. revert cur. induction Hw as [|c w [Hc _] _ IH]; intros cur; [by rewrite app_nil_r|].
  cbn [app tokens]. by rewrite Hc, IH, <-app_assoc.
Qed.

Lemma demo_args_splits : splits demo_args.
Proof.
  intros a b c [Ha Fa] [Hb Fb] [Hc Fc]. unfold demo_args. f_equal.
  rewrite tokens_word by done. cbn [app tokens]. change (isspace c_space) with true. rewrite decide_False by done. f_equal.
  rewrite tokens_word by done. cbn [app tokens]. change (isspace c_space) with true. rewrite decide_False by done. f_equal.
  rewrite <-(app_nil_r c), tokens_word by done. cbn [app tokens]. rewrite app_nil_r. by rewrite decide_False.
Qed.

Definition demo_open (path : bytes) (flag : Z) : Z + Z := if decide (path = str "/etc/motd") then inl 9 else inr 2.
Definition demo_strerror (e : Z) : bytes := str "No such file".
Definition demo_daemon : daemon := Daemon (replicate MAXLINE 0) [] 0 false [] [] [].
Definition demo_senv : send_env := SendEnv true true 0.
Definition demo_client : client := Client (-1) [] (Receiver false 0 0 None []).
Definition demo_handle (r : bytes) : M daemon unit :=
  handle_request demo_open demo_strerror demo_args demo_senv demo_send_err r (length r) 5 501.

Lemma demo_daemon_ok : errmsg_ok demo_daemon /\ opens_new demo_open demo_daemon /\ sends_err demo_send_err.
Proof.
  split; [by vm_compute|]. split.
  - intros path flag fd. unfold demo_open. destruct (decide _); [intros [= <-]|done]. split; [done|apply not_elem_of_nil].
  - intros fd text d _. reflexivity.
Qed.

Lemma word_demo name : forallb (fun c => negb (isspace c) && negb (c =? 0)) name = true -> name <> [] -> word name.
Proof.
  intros H Hn. split; [done|]. rewrite forallb_forall in H. apply List.Forall_forall. intros c Hc. specialize (H c Hc).
  apply andb_true_iff in H as [H1%negb_true_iff H2%negb_true_iff%Z.eqb_neq]. done.
Qed.

Lemma handle_request_answers_witness :
  exists d', demo_handle (str "open /etc/motd 0" ++ [0]) demo_daemon = Ret tt d' /\ out d' = [(5, Message [0; 0] (Some [Rights 9; Creds 0]))].
Proof.
  destruct demo_daemon_ok as (H1 & H2 & H3).
  pose proof (handle_request_answers demo_open demo_strerror demo_args demo_senv demo_send_err demo_daemon
    (str "open /etc/motd 0" ++ [0]) (str "open /etc/motd 0" ++ [0]) 5 501 H3 (conj eq_refl eq_refl) H1 H2 ltac:(discriminate) eq_refl) as W.
  destruct W as (d' & E & _ & _ & Ho & _). exists d'. split; [exact E|exact Ho].
Defined.

Lemma csopen_end_to_end_witness :
  (exists c', csopen 3 true (recv_ufd [RecvEnv true (Some (Message [0; 0] (Some [Rights 12; Creds 0]))) true]) (str "/etc/motd") 0 demo_client = Ret 12 c') /\
  exists d' msgs c', demo_handle (request (str "/etc/xx") 0) demo_daemon = Ret tt d' /\ out d' = pair 5 <$> msgs /\
    csopen 3 true (recv_ufd (deliver id <$> msgs)) (str "/etc/xx") 0 demo_client = Ret (-1) c'.
Proof.
  destruct demo_daemon_ok as (H1 & H2 & H3). split.
  - eexists. vm_compute. reflexivity.
  - destruct (csopen_end_to_end demo_open demo_strerror demo_args demo_senv demo_send_err id 3 (str "/etc/xx") 0 demo_daemon
      (request (str "/etc/xx") 0) 5 501 demo_client H3 (conj eq_refl eq_refl) demo_args_splits H1 H2) as (d' & msgs & c' & A & B & D & _ & _).
    + by apply word_demo.
    + done.
    + done.
    + reflexivity.
    + intros e _. by vm_compute.
    + exists d', msgs, c'. split; [exact A|]. split; [exact B|exact D].
Defined.

Lemma flag_buffers_witness :
  csopen_fe None 0 true (fun _ => NoFuel) (str "x") 536870912 (Client 4 [] (Receiver false 0 0 None [])) = Undef "sprintf".
Proof.
  assert (536870912 <= - 10 ^ 7 \/ 10 ^ 8 <= 536870912) as H by (right; vm_compute; discriminate).
  apply (flag_buffers 0 true (fun _ => NoFuel) (str "x") 536870912 (Client 4 [] (Receiver false 0 0 None []))) in H;
    [exact H|split; [vm_compute; discriminate|vm_compute; reflexivity]|vm_compute; discriminate|discriminate].
Defined.

(** A name with a conversion in it. *)
Example percent_undefined :
  demo_handle (request (str "%n") 0) demo_daemon = Undef "log_msg: no argument for a conversion".
Proof. vm_compute. reflexivity. Qed.
