(* ===== verification/OpenTable.v ===== *)
(** The table of clients of the open server: apue.3e/ipc2/opend/client.c. *)
From Stdlib Require Import ZArith Lia.
From stdpp Require Import base list strings numbers.
From S2P Require Import Prelude CFile EventLoop.
Local Open Scope c_scope.

Definition NALLOC : Z := 10.

(** An element of [client]; [uid] is unset until a client takes it. *)
Record Client := mk_client { c_fd : Z; c_uid : option Z }.

(** The array [client] ([None] for the null pointer) and [client_size]. *)
Record clients := Clients { client : option (list Client); client_size : Z }.
Definition set_client v s := Clients v (client_size s).
Definition set_client_size v s := Clients (client s) v.

(** What malloc and realloc put into the new elements is not known; an
    allocation can fail. *)
Record memory := Memory { alloc_ok : bool; junk : nat -> Client }.

Definition at_client (i : Z) : M clients Client := fun s =>
  match client s with
  | None => Undef "client"
  | Some l => if i <? 0 then Undef "client"
              else match l !! Z.to_nat i with Some c => Ret c s | None => Undef "client" end
  end.
Definition put_client (i : Z) (f : Client -> Client) : M clients unit :=
  let* c := at_client i in
  modify (fun s => set_client ((fun l => <[Z.to_nat i := f c]> l) <$> client s) s).
Definition with_fd v c := mk_client v (c_uid c).
Definition with_uid v c := mk_client (c_fd c) (Some v).

(** [for (i = client_size; i < client_size + NALLOC; i++) client\[i\].fd = -1;] *)
Fixpoint init_loop (n : nat) (i : Z) : M clients unit :=
  match n with O => skip | S n => put_client i (with_fd (-1));;; init_loop n (i + 1) end.

Definition client_alloc (m : memory) : M clients unit :=
  let* size := gets client_size in
  die_if (negb (alloc_ok m)) "can't alloc for client array";;;
  modify (fun s => set_client (Some (match client s with
    | None => junk m <$> seq 0 (Z.to_nat NALLOC)
    | Some l => l ++ (junk m <$> seq (length l) (Z.to_nat (size + NALLOC) - length l))
    end)) s);;;
  init_loop (Z.to_nat NALLOC) size;;;
  modify (set_client_size (size + NALLOC)).

(** [for (i = 0; i < client_size; i++)]: [n] is the number of elements left. *)
Fixpoint add_loop (n : nat) (i fd uid : Z) : M clients (option Z) :=
  match n with
  | O => ret None
  | S n =>
    let* c := at_client i in
    if c_fd c =? -1 then
      put_client i (with_fd fd);;;
      put_client i (with_uid uid);;;
      ret (Some i)
    else add_loop n (i + 1) fd uid
  end.

(** [again:], at most [fuel] times. *)
Fixpoint again (fuel : nat) (m : memory) (fd uid : Z) : M clients Z :=
  match fuel with
  | O => nofuel
  | S fuel =>
    let* size := gets client_size in
    let* r := add_loop (Z.to_nat size) 0 fd uid in
    match r with
    | Some i => ret i
    | None => client_alloc m;;; again fuel m fd uid
    end
  end.

Definition client_add (m : memory) (fd uid : Z) : M clients Z :=
  let* c := gets client in
  (if c is None then client_alloc m else skip);;;
  again 2 m fd uid.

Fixpoint del_loop (n : nat) (i fd : Z) : M clients unit :=
  match n with
  | O => die "can't find client entry"
  | S n =>
    let* c := at_client i in
    if c_fd c =? fd then put_client i (with_fd (-1)) else del_loop n (i + 1) fd
  end.
Definition client_del (fd : Z) : M clients unit :=
  let* size := gets client_size in
  del_loop (Z.to_nat size) 0 fd.

Definition no_clients : clients := Clients None 0.

(** * Invariant *)

(** The elements of the table. *)
Definition entries (s : clients) : list Client := default [] (client s).

(** Free elements hold -1; elements in use have the identity of their client,
    and so do all elements before the last one that was ever used. *)
Record table_ok (s : clients) : Prop := {
  tb_size : client_size s = Z.of_nat (length (entries s));
  tb_null : client s = None -> client_size s = 0;
  tb_free : forall i c, entries s !! i = Some c -> c_fd c = -1 \/ (0 <= c_fd c /\ is_Some (c_uid c));
  tb_nodup : NoDup (used c_fd (entries s))
}.

(** The clients connected, with their identities, in the order of the table. *)
Definition connected (s : clients) : list (Z * Z) :=
  omap (fun c => if 0 <=? c_fd c then (fun u => (c_fd c, u)) <$> c_uid c else None) (entries s).

(** * The operations *)

Lemma wp_at_client s l i c (Q : Client -> clients -> Prop) :
  client s = Some l -> l !! i = Some c -> Q c s -> wp (at_client (Z.of_nat i)) Q s.
Proof. intros Hl Hc HQ. unfold wp, at_client. by rewrite Hl, (proj2 (Z.ltb_ge _ _)), Nat2Z.id, Hc by lia. Qed.

Lemma wp_put_client s l i c f (Q : unit -> clients -> Prop) :
  client s = Some l -> l !! i = Some c -> Q tt (set_client (Some (<[i := f c]> l)) s) -> wp (put_client (Z.of_nat i) f) Q s.
Proof.
  intros Hl Hc HQ. apply wp_bind, (wp_at_client _ _ _ _ _ Hl Hc). unfold wp, modify. rewrite Hl, Nat2Z.id. exact HQ.
Qed.

(** The loop over new elements frees them. *)
Lemma init_loop_run n i s l :
  client s = Some l -> (i + n <= length l)%nat ->
  wp (init_loop n (Z.of_nat i))
    (fun _ s' => client_size s' = client_size s /\
       client s' = Some (take i l ++ (with_fd (-1) <$> take n (drop i l)) ++ drop (i + n) l)) s.
Proof.
  revert i s l. induction n as [|n IH]; intros i s l Hl Hn.
  { cbn [init_loop]. apply wp_ret. split; [done|]. rewrite take_0. cbn. by rewrite Nat.add_0_r, take_drop. }
  destruct (lookup_lt_is_Some_2 l i ltac:(lia)) as [c Hc]. cbn [init_loop].
  apply wp_bind, (wp_put_client _ _ _ _ _ _ Hl Hc). replace (Z.of_nat i + 1) with (Z.of_nat (S i)) by lia.
  eapply wp_mono; [apply (IH (S i) _ (<[i := with_fd (-1) c]> l)); [done|rewrite length_insert; lia]|].
  intros _ s' [-> ->]. split; [done|]. f_equal.
  rewrite (take_S_r _ _ (with_fd (-1) c)) by (apply list_lookup_insert_eq; lia).
  rewrite take_insert_ge, !drop_insert_lt by lia. rewrite (drop_S _ _ _ Hc), <-app_assoc. cbn [take fmap list_fmap app].
  do 3 f_equal. by rewrite Nat.add_succ_r.
Qed.

(** Free elements. *)
Definition free (l : list Client) : Prop := Forall (fun c => c_fd c = -1) l.

Lemma client_alloc_run m s :
  table_ok s ->
  wpd (client_alloc m) (fun _ s' => exists l, client s' = Some (entries s ++ l) /\ free l /\ length l = Z.to_nat NALLOC /\
    client_size s' = client_size s + NALLOC) (fun _ => alloc_ok m = false) s.
Proof.
  intros H. unfold client_alloc. apply wpd_bind, wpd_gets, wpd_bind, wpd_die_if; [by intros ->%negb_true_iff|]. intros _.
  apply wpd_bind, wpd_modify, wpd_bind. pose proof (tb_size _ H) as Hsz.
  set (new := match client s with None => _ | Some l => _ end).
  assert (Hnew : exists x, new = entries s ++ x /\ length x = Z.to_nat NALLOC).
  { unfold new, entries in *. destruct (client s) as [l|] eqn:E; cbn in *.
    - eexists. split; [done|]. rewrite length_fmap, length_seq. unfold NALLOC. lia.
    - eexists (_ <$> _). split; [done|]. by rewrite length_fmap, length_seq. }
  destruct Hnew as (x & -> & Hx). rewrite Hsz at 1.
  eapply wpd_mono; [apply wpd_of_wp, (init_loop_run _ _ _ (entries s ++ x)); [done|rewrite length_app; lia]|].
  intros ? s' [Hs' Hc]. apply wpd_modify. cbn [client client_size set_client_size].
  exists (with_fd (-1) <$> x). split_and!; [|by apply Forall_fmap, Forall_true|by rewrite length_fmap|done].
  rewrite Hc. rewrite take_app_length, drop_app_length, <-Hx, firstn_all, drop_ge by (rewrite length_app; lia).
  by rewrite app_nil_r.
Qed.

(** The search finds the first free element, or there is none. *)
Lemma add_loop_run n i s l fd uid :
  client s = Some l -> (i + n = length l)%nat ->
  wp (add_loop n (Z.of_nat i) fd uid)
    (fun r s' => match r with
       | None => s' = s /\ (forall j c, (i <= j)%nat -> l !! j = Some c -> c_fd c <> -1)
       | Some r => exists j c, r = Z.of_nat j /\ (i <= j)%nat /\ l !! j = Some c /\ c_fd c = -1 /\
           (forall j' c', (i <= j' < j)%nat -> l !! j' = Some c' -> c_fd c' <> -1) /\
           s' = set_client (Some (<[j := mk_client fd (Some uid)]> l)) s
       end) s.
Proof.
  revert i. induction n as [|n IH]; intros i Hl Hn.
  { apply wp_ret. split; [done|]. intros j c Hj ?%lookup_lt_Some. lia. }
  destruct (lookup_lt_is_Some_2 l i ltac:(lia)) as [c Hc]. cbn [add_loop].
  apply wp_bind, (wp_at_client _ _ _ _ _ Hl Hc). destruct (Z.eqb_spec (c_fd c) (-1)) as [Hf|Hne].
  - apply wp_bind, (wp_put_client _ _ _ _ _ _ Hl Hc), wp_bind.
    apply (wp_put_client _ (<[i := with_fd fd c]> l) i (with_fd fd c)); [done|apply list_lookup_insert_eq; lia|].
    apply wp_ret. exists i, c. split_and!; try done; [intros; lia|]. rewrite list_insert_insert_eq. by destruct s.
  - replace (Z.of_nat i + 1) with (Z.of_nat (S i)) by lia. eapply wp_mono; [apply IH; [done|lia]|].
    intros [r|] s'.
    + intros (j & d & -> & Hj & H1 & H2 & H3 & H4). exists j, d. split_and!; try done; [lia|].
      intros j' c' Hj' Hc'. destruct (decide (i = j')) as [->|]; [congruence|]. apply (H3 j'); [lia|done].
    + intros [-> H]. split; [done|]. intros j d Hj Hd. destruct (decide (i = j)) as [->|]; [congruence|]. apply (H j d); [lia|done].
Qed.

(** * The contract *)

Lemma used_free_app l l' : free l' -> used c_fd (l ++ l') = used c_fd l.
Proof.
  intros Hf. rewrite used_app. assert (used c_fd l' = []) as ->; [|apply app_nil_r].
  induction Hf as [|c l' Hc _ IH]; [done|]. rewrite used_cons, IH, Hc. done.
Qed.

Lemma table_ok_app s l' sz :
  table_ok s -> free l' -> sz = Z.of_nat (length (entries s ++ l')) -> table_ok (Clients (Some (entries s ++ l')) sz).
Proof.
  intros H Hf ->. constructor; cbn [entries client client_size default]; [done|done| |].
  - intros i c [Hi|[_ Hi]]%lookup_app_Some; [by apply (tb_free _ H i)|]. left. by apply (Forall_lookup_1 _ _ _ _ Hf Hi).
  - change (NoDup (used c_fd (entries s ++ l'))). rewrite used_free_app by done. apply H.
Qed.

Lemma table_ok_insert s l sz j c fd uid :
  table_ok s -> s = Clients (Some l) sz -> l !! j = Some c -> c_fd c = -1 -> 0 <= fd -> (fd ∉ used c_fd l) ->
  table_ok (Clients (Some (<[j := mk_client fd (Some uid)]> l)) sz).
Proof.
  intros H -> Hj Hc Hfd Hn. constructor; cbn [entries client client_size default].
  - pose proof (tb_size _ H) as E. cbn in E |- *. by rewrite length_insert.
  - done.
  - intros i d Hi. change (<[j := mk_client fd (Some uid)]> l !! i = Some d) in Hi.
    destruct (decide (i = j)) as [->|]; [|rewrite list_lookup_insert_ne in Hi by done; by apply (tb_free _ H i)].
    rewrite list_lookup_insert_eq in Hi by by eapply lookup_lt_Some. injection Hi as <-. right. cbn. eauto.
  - change (NoDup (used c_fd (<[j := mk_client fd (Some uid)]> l))).
    rewrite (used_fill c_fd l j c) by (done || cbn; lia). constructor; [done|]. exact (tb_nodup _ H).
Qed.

(** The list with a client in the first free place; the table grows when it
    has none. *)
Definition added (l : list Client) (fd uid : Z) (i : nat) (l' : list Client) : Prop :=
  exists fr c, free fr /\ (l ++ fr) !! i = Some c /\ c_fd c = -1 /\
    (forall j d, (j < i)%nat -> (l ++ fr) !! j = Some d -> c_fd d <> -1) /\ l' = <[i := mk_client fd (Some uid)]> (l ++ fr).

Lemma again_run m s fd uid :
  table_ok s  -> client s <> None -> 0 <= fd -> (fd ∉ used c_fd (entries s)) ->
  wpd (again 2 m fd uid) (fun r s' => table_ok s' /\ exists i, r = Z.of_nat i /\ added (entries s) fd uid i (entries s')) (fun _ => alloc_ok m = false) s.
Proof.
  intros H Hnn Hfd Hn. cbn [again]. apply wpd_bind, wpd_gets, wpd_bind.
  pose proof (tb_size _ H) as Hsz. destruct s as [[l|] sz]; [|done]. cbn [entries client client_size default] in *. change (id l) with l in *.
  rewrite Hsz at 1. rewrite Nat2Z.id. eapply wpd_mono; [apply wpd_of_wp, (add_loop_run _ 0 _ l); done|].
  intros [r|] s1.
  - intros (j & c & -> & _ & Hj & Hc & Hfst & ->). apply wpd_ret. split.
    + by apply (table_ok_insert (Clients (Some l) sz) l sz j c).
    + exists j. split; [done|]. exists [], c. rewrite app_nil_r. split_and!; [constructor|done|done| |done].
      intros j' d Hj'. apply Hfst. lia.
  - intros [-> Hall]. apply wpd_bind. eapply wpd_mono; [apply client_alloc_run; done|].
    intros ? s2 (fr & Hc & Hf & Hlen & Hsz2). cbn [entries client default client_size] in *. change (id l) with l in *. cbn [again].
    apply wpd_bind, wpd_gets, wpd_bind.
    assert (Hsz3 : client_size s2 = Z.of_nat (length (l ++ fr))) by (rewrite length_app; unfold NALLOC in *; lia).
    rewrite Hsz3, Nat2Z.id. eapply wpd_mono; [apply wpd_of_wp, (add_loop_run _ 0 _ (l ++ fr)); done|].
    intros [r|] s3.
    + intros (j & c & -> & _ & Hj & Hcf & Hfst & ->). apply wpd_ret. destruct s2 as [cl sz2]. cbn in Hc, Hsz3. subst cl. split.
      * apply (table_ok_insert (Clients (Some (l ++ fr)) sz2) (l ++ fr) sz2 j c); try done.
        -- by apply (table_ok_app (Clients (Some l) sz) fr sz2).
        -- by rewrite used_free_app.
      * exists j. split; [done|]. exists fr, c. split_and!; try done. intros j' d Hj'. apply Hfst. lia.
    + intros [_ Hno]. destruct fr as [|c fr]; [done|]. exfalso. apply (Hno (length l) c); [lia|by rewrite list_lookup_middle|].
      by inversion Hf.
Qed.

Lemma client_add_run m s fd uid :
  table_ok s  -> 0 <= fd -> (fd ∉ used c_fd (entries s)) ->
  wpd (client_add m fd uid) (fun r s' => table_ok s' /\ exists i, r = Z.of_nat i /\ added (entries s) fd uid i (entries s')) (fun _ => alloc_ok m = false) s.
Proof.
  intros H Hfd Hn. unfold client_add. apply wpd_bind, wpd_gets, wpd_bind.
  destruct (client s) as [l|] eqn:Hc.
  - apply wpd_ret. apply again_run; try done. by rewrite Hc.
  - eapply wpd_mono; [by apply client_alloc_run|]. intros ? s1 (fr & Hc1 & Hf & Hlen & Hsz).
    assert (E : entries s = []) by (unfold entries; by rewrite Hc).
    assert (H1 : table_ok s1).
    { destruct s1 as [c1 z1]. cbn in Hc1, Hsz. subst c1. apply table_ok_app; [done|done|].
      rewrite Hsz, (tb_size _ H), E. cbn. rewrite Hlen. done. }
    assert (E1 : entries s1 = fr) by (unfold entries; by rewrite Hc1, E).
    assert (U : used c_fd fr = []) by exact (used_free_app [] fr Hf).
    eapply wpd_mono; [apply (again_run m s1 fd uid); try done|].
    + by rewrite Hc1.
    + rewrite E1, U. apply not_elem_of_nil.
    + intros r s2 (H2 & i & -> & fr2 & c & Hf2 & Hi & Hcf & Hfst & He). split; [done|]. exists i. split; [done|].
      exists (fr ++ fr2), c. rewrite E. cbn [app]. rewrite E1 in Hi, He, Hfst. split_and!; try done. by apply Forall_app.
Qed.

(** [client_del] frees the element of the client, or ends the process. *)
Lemma del_loop_run n i s l fd :
  client s = Some l -> (i + n = length l)%nat ->
  match del_loop n (Z.of_nat i) fd s with
  | Ret _ s' => exists j c, (i <= j)%nat /\ l !! j = Some c /\ c_fd c = fd /\ s' = set_client (Some (<[j := with_fd (-1) c]> l)) s
  | Died _ _ => forall j c, (i <= j)%nat -> l !! j = Some c -> c_fd c <> fd
  | _ => False
  end.
Proof.
  revert i. induction n as [|n IH]; intros i Hl Hn.
  { cbn. intros j c Hj ?%lookup_lt_Some. lia. }
  destruct (lookup_lt_is_Some_2 l i ltac:(lia)) as [c Hc]. cbn [del_loop].
  assert (E : at_client (Z.of_nat i) s = Ret c s).
  { unfold at_client. by rewrite Hl, (proj2 (Z.ltb_ge _ _)), Nat2Z.id, Hc by lia. }
  rewrite (bind_run _ _ _ _ _ E). destruct (Z.eqb_spec (c_fd c) fd) as [Hf|Hne].
  - pose proof (wp_put_client s l i c (with_fd (-1)) (fun _ s' => s' = set_client (Some (<[i := with_fd (-1) c]> l)) s) Hl Hc eq_refl) as W.
    unfold wp in W. destruct (put_client _ _ s); try done. exists i, c. by split_and!.
  - replace (Z.of_nat i + 1) with (Z.of_nat (S i)) by lia. specialize (IH (S i) Hl ltac:(lia)).
    destruct (del_loop n _ fd s); try done.
    + destruct IH as (j & d & Hj & H). exists j, d. split; [lia|done].
    + intros j d Hj Hd. destruct (decide (i = j)) as [->|]; [congruence|]. apply (IH j d); [lia|done].
Qed.

Lemma table_ok_clear s l sz j c :
  table_ok s -> s = Clients (Some l) sz -> l !! j = Some c -> table_ok (Clients (Some (<[j := with_fd (-1) c]> l)) sz).
Proof.
  intros H -> Hj. constructor; cbn [entries client client_size default].
  - pose proof (tb_size _ H) as E. cbn in E |- *. by rewrite length_insert.
  - done.
  - intros i d Hi. change (<[j := with_fd (-1) c]> l !! i = Some d) in Hi.
    destruct (decide (i = j)) as [->|]; [|rewrite list_lookup_insert_ne in Hi by done; by apply (tb_free _ H i)].
    rewrite list_lookup_insert_eq in Hi by by eapply lookup_lt_Some. injection Hi as <-. by left.
  - change (NoDup (used c_fd (<[j := with_fd (-1) c]> l))). pose proof (tb_nodup _ H) as Hn. change (entries _) with l in Hn.
    destruct (decide (0 <= c_fd c)) as [Hc|Hc].
    + rewrite (used_clear c_fd l j c (with_fd (-1) c)) in Hn by (done || cbn; lia). by apply list.NoDup_cons in Hn as [_ ?].
    + rewrite (used_insert c_fd l j c) by done. rewrite (used_split c_fd l j c), decide_False in Hn by done.
      rewrite decide_False by (cbn; lia). exact Hn.
Qed.

Lemma client_del_run s l i c :
  table_ok s -> client s = Some l -> l !! i = Some c -> 0 <= c_fd c ->
  client_del (c_fd c) s = Ret tt (set_client (Some (<[i := with_fd (-1) c]> l)) s).
Proof.
  intros H Hl Hi Hc. unfold client_del. rewrite bind_gets.
  assert (E : client_size s = Z.of_nat (length l)) by (rewrite (tb_size _ H); unfold entries; by rewrite Hl).
  rewrite E, Nat2Z.id. pose proof (del_loop_run (length l) 0 s l (c_fd c) Hl eq_refl) as W.
  change (Z.of_nat 0) with 0 in W. destruct (del_loop _ 0 _ s) as [[] s'|msg s'| |]; try done.
  - destruct W as (j & d & _ & Hj & E' & ->). assert (j = i) as ->; [|by simplify_eq].
    apply (used_unique c_fd l j i d c); try done; [|lia]. pose proof (tb_nodup _ H) as Hn. unfold entries in Hn. by rewrite Hl in Hn.
  - by destruct (W i c ltac:(lia) Hi).
Qed.
