(* ===== verification/OpenLoop.v ===== *)
(** What the two event loops of the open server share (apue.3e/ipc2/opend,
    loop.select.c and loop.poll.c): the system's side of a round, the calls of
    the loop, the interface to the request handler, and the abstract server. *)
From Stdlib Require Import ZArith Lia.
From stdpp Require Import base list strings gmap sets numbers.
From S2P Require Import Prelude CString CFile EventLoop OpenPass OpenReq OpenTable.
Local Open Scope c_scope.

(** The system's side of a round: as for the echo servers, with the identity
    [serv_accept] finds for a new client, and the memory for the table. *)
Record system := System { base : kernel; peer : Z; mem : memory }.
Definition client_fd (k : system) : Z := EventLoop.newfd (base k).

(** What a loop does for its clients. *)
Inductive event :=
| Accepted (fd uid : Z) | Got (fd : Z) (d : bytes) | Handled (fd uid : Z) (d : bytes) | Closed (fd : Z).

(** The handler of requests, as the loops rely on it: on requests that are
    [fine] it returns, and keeps its part of the state in order. *)
Class Handler (handle : bytes -> nat -> Z -> Z -> M daemon unit) := {
  h_inv : daemon -> Prop;
  h_fine : bytes -> Prop;
  handle_returns buf d fd uid s : h_inv s -> h_fine d -> d <> [] -> take (length d) buf = d ->
    wp (handle buf (length d) fd uid) (fun _ => h_inv) s;
  h_log d t : h_inv d -> h_inv (set_log t d)
}.

(** The requests that a round brings are fine. *)
Definition fine_requests (handle : bytes -> nat -> Z -> Z -> M daemon unit) `{!Handler handle} (k : system) : Prop :=
  forall fd d, EventLoop.reads (base k) fd = Data d -> d <> [] -> h_fine (take MAXLINE d).

(** * The abstract server *)

(** For a ready client: its request goes to the handler with its identity, or
    it has closed the connection. *)
Definition served (k : system) (fd uid : Z) : list event :=
  match reads (base k) fd with
  | Data [] => [Got fd []; Closed fd]
  | Data d => [Got fd (take MAXLINE d); Handled fd uid (take MAXLINE d)]
  | Failed _ => []
  end.

Definition hangs_up (k : system) (fd : Z) : Prop := reads (base k) fd = Data [].
#[export] Instance hangs_up_dec k fd : Decision (hangs_up k fd).
Proof. unfold hangs_up. destruct (reads _ _) as [[|]|]; [by left|by right..]. Defined.

(** The connections, with the identities of the clients. *)
Definition ready_conns (k : system) (m : gmap Z Z) : gmap Z Z := filter (fun p => ready (base k) p.1) m.
Definition remain (k : system) (m : gmap Z Z) : gmap Z Z :=
  filter (fun p => ~ (ready (base k) p.1 /\ hangs_up k p.1)) m.

(** A round takes the connection that waits, or serves each ready client. *)
Definition after_round (l : Z) (k : system) (m : gmap Z Z) : gmap Z Z :=
  if decide (ready (base k) l) then <[client_fd k := peer k]> m else remain k m.
Inductive attends (l : Z) : list system -> gmap Z Z -> list event -> Prop :=
| attends_nil m : attends l [] m []
| attends_accept k ks m tr :
  ready (base k) l -> attends l ks (<[client_fd k := peer k]> m) tr ->
  attends l (k :: ks) m (Accepted (client_fd k) (peer k) :: tr)
| attends_serve k ks m order tr :
  ~ ready (base k) l -> order ≡ₚ map_to_list (ready_conns k m) -> attends l ks (remain k m) tr ->
  attends l (k :: ks) m (concat ((fun p => served k p.1 p.2) <$> order) ++ tr).

(** What the system promises along such a run. *)
Fixpoint promises (ok : system -> gmap Z Z -> Prop) (l : Z) (ks : list system) (m : gmap Z Z) : Prop :=
  match ks with [] => True | k :: ks => ok k m /\ promises ok l ks (after_round l k m) end.
#[export] Instance promises_dec ok `{!forall k m, Decision (ok k m)} l ks m : Decision (promises ok l ks m).
Proof. revert m. induction ks as [|k ks IH]; intros m; cbn; apply _. Defined.

(** A system call that failed: the loop ends the process. *)
Definition sys_fails (k : system) : Prop := EventLoop.fails (base k) \/ alloc_ok (mem k) = false.

(** What the calls did: the connections open. *)
Fixpoint attended (tr : list event) (m : gmap Z Z) : gmap Z Z :=
  match tr with
  | [] => m
  | Accepted fd uid :: tr => attended tr (<[fd := uid]> m)
  | Closed fd :: tr => attended tr (delete fd m)
  | _ :: tr => attended tr m
  end.
Lemma attended_app t1 t2 m : attended (t1 ++ t2) m = attended t2 (attended t1 m).
Proof. revert m. induction t1 as [|[] t1 IH]; intros m; cbn; auto. Qed.

(** Every request is handled with the identity its client was accepted with. *)
Fixpoint identified (tr : list event) (m : gmap Z Z) : Prop :=
  match tr with
  | [] => True
  | Accepted fd uid :: tr => identified tr (<[fd := uid]> m)
  | Closed fd :: tr => identified tr (delete fd m)
  | Got _ _ :: tr => identified tr m
  | Handled fd uid _ :: tr => m !! fd = Some uid /\ identified tr m
  end.
Lemma identified_app t1 t2 m : identified (t1 ++ t2) m <-> identified t1 m /\ identified t2 (attended t1 m).
Proof. revert m. induction t1 as [|[] t1 IH]; intros m; cbn; rewrite ?IH; tauto. Qed.

Lemma served_round k order m :
  NoDup order.*1 -> (forall p, p ∈ order -> m !! p.1 = Some p.2) ->
  identified (concat ((fun p => served k p.1 p.2) <$> order)) m /\
  forall fd, attended (concat ((fun p => served k p.1 p.2) <$> order)) m !! fd =
    if decide (fd ∈ order.*1 /\ hangs_up k fd) then None else m !! fd.
Proof.
  revert m. induction order as [|[fd u] order IH]; intros m Hn Hm.
  { cbn. split; [done|]. intros fd. rewrite decide_False; [done|]. intros [?%not_elem_of_nil _]. done. }
  cbn [fmap list_fmap fst snd] in Hn. apply list.NoDup_cons in Hn as [Hfd Hn]. cbn [fmap list_fmap concat fst snd].
  assert (Hmu : m !! fd = Some u) by (apply (Hm (fd, u)); by left).
  destruct (IH (if decide (hangs_up k fd) then delete fd m else m) Hn) as [I1 I2].
  { intros p Hp. destruct (decide (hangs_up k fd)); [|apply Hm; by right].
    rewrite lookup_delete_ne; [apply Hm; by right|]. intros E. apply Hfd, list_elem_of_fmap. eauto. }
  assert (E : attended (served k fd u) m = if decide (hangs_up k fd) then delete fd m else m).
  { unfold served. destruct (decide (hangs_up k fd)) as [Hh|Hh]; [by rewrite Hh|].
    destruct (reads (base k) fd) as [[|c d]|e] eqn:Er; [by destruct Hh|done|done]. }
  split.
  - apply identified_app. rewrite E. split; [|done]. unfold served. by destruct (reads (base k) fd) as [[|c d]|e].
  - intros x. rewrite attended_app, E, I2.
    destruct (decide (hangs_up k fd)) as [Hh|Hh].
    + destruct (decide (x = fd)) as [->|Hx].
      * rewrite lookup_delete_eq. rewrite (decide_True (P := fd ∈ fd :: order.*1 /\ hangs_up k fd)) by (split; [by left|done]).
        by destruct (decide _).
      * rewrite lookup_delete_ne by done. apply decide_ext. rewrite elem_of_cons, list_elem_of_fmap. naive_solver.
    + apply decide_ext. rewrite elem_of_cons, list_elem_of_fmap. naive_solver.
Qed.

Lemma attends_round k m order :
  order ≡ₚ map_to_list (ready_conns k m) ->
  identified (concat ((fun p => served k p.1 p.2) <$> order)) m /\
  attended (concat ((fun p => served k p.1 p.2) <$> order)) m = remain k m.
Proof.
  intros E. destruct (served_round k order m) as [H1 H2].
  - rewrite E. apply NoDup_fst_map_to_list.
  - intros [fd u]. rewrite E, elem_of_map_to_list. unfold ready_conns. by intros [? _]%map_lookup_filter_Some.
  - split; [done|]. apply map_eq. intros fd. rewrite H2. unfold remain. destruct (m !! fd) as [u|] eqn:Hm.
    + destruct (decide (ready (base k) fd /\ hangs_up k fd)) as [[Hr Hh]|Hno].
      * rewrite decide_True.
        -- symmetry. apply map_lookup_filter_None. right. intros x _. cbn. tauto.
        -- split; [|done]. rewrite E. apply list_elem_of_fmap. exists (fd, u). split; [done|].
           apply elem_of_map_to_list, map_lookup_filter_Some. done.
      * rewrite decide_False; [symmetry; by apply map_lookup_filter_Some|]. intros [Hin Hh]. apply Hno. split; [|done].
        rewrite E in Hin. apply list_elem_of_fmap in Hin as ([x y] & -> & Hin). cbn.
        apply elem_of_map_to_list, map_lookup_filter_Some in Hin. tauto.
    + rewrite (proj2 (map_lookup_filter_None _ _ _)) by (left; done). by destruct (decide _).
Qed.

Lemma attends_identified l ks m tr : attends l ks m tr -> identified tr m.
Proof.
  induction 1 as [|k ks m tr _ _ IH|k ks m order tr _ E _ IH]; [done|done|].
  destruct (attends_round k m order E) as [H1 H2]. apply identified_app. by rewrite H2.
Qed.

(** * The handler of OpenReq *)

(** Requests whose refusal holds no percent sign. *)
Definition harmless (open_ : bytes -> Z -> Z + Z) (strerror : Z -> bytes) (argv_of : bytes -> option (list bytes)) (r : bytes) : Prop :=
  forall old uid, plain_format (cstr old) = true ->
    match judge open_ strerror argv_of old r uid with Refused _ text => plain_format text = true | Granted _ => True end.

Section handler.
Context (open_ : bytes -> Z -> Z + Z) (strerror : Z -> bytes) (argv_of : bytes -> option (list bytes))
  (senv : send_env) (send_err : Z -> Z -> bytes -> M daemon unit).
Hypothesis send_err_ok : sends_err send_err.
Hypothesis senv_ok : malloc_ok senv = true /\ sendmsg_ok senv = true.

Lemma request_handler : Handler (handle_request open_ strerror argv_of senv send_err).
Proof.
  unshelve econstructor.
  - exact (fun d => errmsg_ok d /\ opens_new open_ d /\ plain_format (cstr (errmsg d)) = true).
  - exact (harmless open_ strerror argv_of).
  - intros buf r fd uid s (H1 & H2 & H3) Hf Hr Hb.
    pose proof (handle_request_run open_ strerror argv_of senv send_err send_err_ok senv_ok s buf r fd uid H1 H2 Hr Hb) as W.
    unfold answered in W. specialize (Hf (errmsg s) uid H3). unfold opens_new in *.
    destruct (judge _ _ _ _ _ _) as [logged text|newfd].
    + unfold refused in W. rewrite Hf, orb_true_r in W. destruct W as (d' & E & A & B & _ & C). unfold wp. rewrite E, B, C. done.
    + destruct W as (d' & E & A & B & _ & C). unfold wp. rewrite E, B, C. done.
  - done.
Defined.
End handler.
