(* ===== verification/OpenSelect.v ===== *)
(** apue.3e/ipc2/opend/loop.select.c: the event loop of the open server on
    select. *)
From Stdlib Require Import ZArith Lia.
From stdpp Require Import base list strings gmap sets numbers.
From S2P Require Import Prelude CString CFile EventLoop OpenPass OpenReq OpenTable OpenLoop.
Local Open Scope c_scope.

(** The table of clients, the state of the handler, the variables of [loop],
    and what was done. *)
Record server := Server {
  tbl : clients;
  dm : daemon;
  maxi : Z;
  maxfd : Z;
  allset : gset Z;
  buf : bytes;
  evs : list event
}.
Definition set_tbl v s := Server v (dm s) (maxi s) (maxfd s) (allset s) (buf s) (evs s).
Definition set_dm v s := Server (tbl s) v (maxi s) (maxfd s) (allset s) (buf s) (evs s).
Definition set_maxi v s := Server (tbl s) (dm s) v (maxfd s) (allset s) (buf s) (evs s).
Definition set_maxfd v s := Server (tbl s) (dm s) (maxi s) v (allset s) (buf s) (evs s).
Definition set_allset v s := Server (tbl s) (dm s) (maxi s) (maxfd s) v (buf s) (evs s).
Definition set_buf v s := Server (tbl s) (dm s) (maxi s) (maxfd s) (allset s) v (evs s).
Definition record_event e s := Server (tbl s) (dm s) (maxi s) (maxfd s) (allset s) (buf s) (evs s ++ [e]).

(** Before the loop, with the descriptor [serv_listen] returned. *)
Definition start (listenfd : Z) (d : daemon) (junk : bytes) : server :=
  Server no_clients d (-1) listenfd {[listenfd]} junk [].

Definition on_table {A} (m : M clients A) : M server A := zoom tbl set_tbl m.
Definition on_daemon {A} (m : M daemon A) : M server A := zoom dm set_dm m.

Definition FD_SET (fd : Z) : M server unit :=
  if in_set fd then modify (fun s => set_allset ({[fd]} ∪ allset s) s) else undef "FD_SET".
Definition FD_CLR (fd : Z) : M server unit :=
  if in_set fd then modify (fun s => set_allset (allset s ∖ {[fd]}) s) else undef "FD_CLR".
Definition FD_ISSET (fd : Z) (rset : gset Z) : M server bool :=
  if in_set fd then ret (bool_decide (fd ∈ rset)) else undef "FD_ISSET".

(** [client\[i\].uid] *)
Definition uid_at (i : Z) : M server Z :=
  let* c := on_table (at_client i) in
  match c_uid c with Some u => ret u | None => undef "client[i].uid" end.

Section loop.
Context (handle : bytes -> nat -> Z -> Z -> M daemon unit).

Definition accept_client (k : system) : M server unit :=
  let clifd := client_fd k in
  die_if (clifd <? 0) "serv_accept error";;;
  modify (record_event (Accepted clifd (peer k)));;;
  let* i := on_table (client_add (mem k) clifd (peer k)) in
  FD_SET clifd;;;
  modify (fun s => if clifd >? maxfd s then set_maxfd clifd s else s);;;
  modify (fun s => if i >? maxi s then set_maxi i s else s);;;
  on_daemon (log_msg (str "new connection: uid " ++ sdec (i32 (peer k)) ++ str ", fd " ++ sdec clifd)).

(** A client that is ready: the body of the [for] loop. *)
Definition serve_client (k : system) (i clifd : Z) : M server unit :=
  match reads (base k) clifd with
  | Failed _ => die "read error"
  | Data d =>
    let d := take MAXLINE d in
    modify (fun s => set_buf (splice 0 d (buf s)) s);;;
    modify (record_event (Got clifd d));;;
    if (length d =? 0)%nat then
      let* u := uid_at i in
      on_daemon (log_msg (str "closed: uid " ++ sdec (i32 u) ++ str ", fd " ++ sdec clifd));;;
      on_table (client_del clifd);;;
      FD_CLR clifd;;;
      modify (record_event (Closed clifd))
    else
      let* u := uid_at i in
      modify (record_event (Handled clifd u d));;;
      let* b := gets buf in
      on_daemon (handle b (length d) clifd u)
  end.

(** [for (i = 0; i <= maxi; i++)]. *)
Fixpoint serve_loop (k : system) (rset : gset Z) (n : nat) (i : Z) : M server unit :=
  match n with
  | O => skip
  | S n =>
    let* c := on_table (at_client i) in
    let clifd := c_fd c in
    if clifd <? 0 then serve_loop k rset n (i + 1)
    else
      let* set := FD_ISSET clifd rset in
      (if set then serve_client k i clifd else skip);;;
      serve_loop k rset n (i + 1)
  end.

Definition round (listenfd : Z) (k : system) : M server unit :=
  die_if (wait_fails (base k)) "select error";;;
  let* rset := gets (fun s => select (base k) (maxfd s + 1) (allset s)) in
  let* set := FD_ISSET listenfd rset in
  if set then accept_client k
  else
    let* m := gets maxi in
    serve_loop k rset (Z.to_nat (m + 1)) 0.

Fixpoint loop (listenfd : Z) (ks : list system) : M server unit :=
  match ks with [] => skip | k :: ks => round listenfd k;;; loop listenfd ks end.
End loop.

(** * Serving *)

Abbreviation used := (EventLoop.used c_fd).
Abbreviation todo := (EventLoop.todo c_fd).

Section serving.
Context (handle : bytes -> nat -> Z -> Z -> M daemon unit) `{!Handler handle}.
Variable k : system.
Variable m : gmap Z Z.

(** What is done for the client with a descriptor. *)
Definition acts (fd : Z) : list event := served k fd (default 0 (m !! fd)).
Abbreviation swept := (EventLoop.swept c_fd (with_fd (-1)) (hangs_up k) acts).
Abbreviation serve_entry := (EventLoop.serve_entry c_fd (with_fd (-1)) (hangs_up k)).

Lemma wpd_at s l i c (Q : Client -> server -> Prop) (D : server -> Prop) :
  client (tbl s) = Some l -> l !! i = Some c -> Q c s -> wpd (on_table (at_client (Z.of_nat i))) Q D s.
Proof.
  intros Hl Hc HQ. apply wpd_zoom, wpd_of_wp, (wp_at_client _ _ _ _ _ Hl Hc). by destruct s.
Qed.

(** The state after a client at index [i] has been served. *)
Definition served_state (s : server) (l : list Client) (i : nat) (c : Client) (s' : server) : Prop :=
  client (tbl s') = Some (serve_entry i c l) /\ table_ok (tbl s') /\ h_inv (dm s') /\ length (buf s') = MAXLINE /\
  maxi s' = maxi s /\ maxfd s' = maxfd s /\ evs s' = evs s ++ acts (c_fd c) /\
  allset s' = (if decide (hangs_up k (c_fd c)) then allset s ∖ {[c_fd c]} else allset s).

Lemma os_serve_one s l i c uid (D : server -> Prop) :
  (forall s', sys_fails k -> D s') -> fine_requests handle k ->
  client (tbl s) = Some l -> table_ok (tbl s) -> l !! i = Some c -> 0 <= c_fd c -> in_set (c_fd c) = true ->
  c_uid c = Some uid -> m !! c_fd c = Some uid -> h_inv (dm s) -> length (buf s) = MAXLINE ->
  wpd (serve_client handle k (Z.of_nat i) (c_fd c)) (fun _ => served_state s l i c) D s.
Proof.
  intros HD Hfine Hl Ht Hi Hpos Hin Hu Hm Hinv Hb. unfold serve_client.
  destruct (reads (base k) (c_fd c)) as [d|e] eqn:Er; [|apply HD; left; right; right; eauto].
  assert (Hlen : length (splice 0 (take MAXLINE d) (buf s)) = MAXLINE).
  { rewrite splice_length; [done|]. rewrite length_take. lia. }
  apply wpd_bind, wpd_modify, wpd_bind, wpd_modify.
  assert (Hact : acts (c_fd c) = served k (c_fd c) uid) by (unfold acts; by rewrite Hm).
  destruct d as [|x d].
  - assert (Hh : hangs_up k (c_fd c)) by done. rewrite take_nil. cbn [length Nat.eqb].
    apply wpd_bind, wpd_bind, (wpd_at _ l i c); [done|done|]. rewrite Hu.
    apply wpd_ret, wpd_bind, wpd_zoom, wpd_modify, wpd_bind, wpd_zoom. cbn [tbl set_dm record_event set_buf].
    unfold wpd at 1. rewrite (client_del_run _ l i c) by done. unfold FD_CLR. rewrite Hin.
    apply wpd_bind, wpd_modify, wpd_modify. unfold served_state, EventLoop.serve_entry. rewrite Hact, !decide_True by done. cbn. split_and!; try done.
    + destruct (tbl s) as [t sz] eqn:Es. cbn in Hl. subst t. by apply (table_ok_clear (Clients (Some l) sz)).
    + by apply h_log.
    + unfold served. rewrite Er. by rewrite <-app_assoc.
  - assert (Hh : ~ hangs_up k (c_fd c)) by (unfold hangs_up; congruence).
    change (length (take MAXLINE (x :: d)) =? 0)%nat with false. cbv iota.
    apply wpd_bind, wpd_bind, (wpd_at _ l i c); [done|done|]. rewrite Hu.
    apply wpd_ret, wpd_bind, wpd_modify, wpd_bind, wpd_gets, wpd_zoom, wpd_of_wp.
    cbn [dm buf record_event set_buf]. eapply wp_mono.
    { apply handle_returns; [done|by apply (Hfine (c_fd c))|done|]. rewrite splice_front. by apply take_app_length. }
    intros ? d' Hd'. unfold served_state, EventLoop.serve_entry. rewrite Hact, !decide_False by done. cbn. split_and!; try done.
    unfold served. rewrite Er. by rewrite <-app_assoc.
Qed.

(** The elements in use carry the identities of [m]. *)
Definition named (l : list Client) : Prop :=
  forall i c, l !! i = Some c -> 0 <= c_fd c -> exists uid, c_uid c = Some uid /\ m !! c_fd c = Some uid.

Lemma named_serve l i c : named l -> named (serve_entry i c l).
Proof.
  intros H j d. unfold EventLoop.serve_entry. destruct (decide _); [|apply H].
  destruct (decide (j = i)) as [->|]; [|rewrite list_lookup_insert_ne by done; apply H].
  intros Hj. destruct (decide (i < length l)%nat).
  - rewrite list_lookup_insert_eq in Hj by done. injection Hj as <-. cbn. lia.
  - rewrite list_insert_ge in Hj by lia. by apply (H i).
Qed.

Lemma os_serve_loop_run rset n i s l (D : server -> Prop) :
  (forall s', sys_fails k -> D s') -> fine_requests handle k ->
  (forall fd, fd ∈ rset -> 0 <= fd) -> (forall fd, fd ∈ used l -> in_set fd = true) ->
  client (tbl s) = Some l -> table_ok (tbl s) -> named l -> h_inv (dm s) -> length (buf s) = MAXLINE ->
  (i + n <= length l)%nat -> used (drop (i + n) l) = [] ->
  wpd (serve_loop handle k rset n (Z.of_nat i))
    (fun _ s' => exists l', client (tbl s') = Some l' /\ swept rset i l (evs s) l' (evs s') /\
       table_ok (tbl s') /\ h_inv (dm s') /\ length (buf s') = MAXLINE /\ maxi s' = maxi s /\ maxfd s' = maxfd s /\
       allset s' = allset s ∖ list_to_set (filter (hangs_up k) (todo rset i l))) D s.
Proof.
  intros HD Hfine Hr. revert i s l. induction n as [|n IH]; intros i s l Hin Hl Ht Hn Hinv Hb Hlen Hend.
  { assert (E : todo rset i l = []) by (unfold EventLoop.todo; by rewrite Nat.add_0_r in Hend; rewrite Hend).
    cbn [serve_loop]. apply wpd_ret. exists l. split; [done|]. split; [by apply swept_end|]. rewrite E. split_and!; try done. set_solver. }
  destruct (lookup_lt_is_Some_2 l i ltac:(lia)) as [c Hc]. cbn [serve_loop].
  apply wpd_bind, (wpd_at _ l i c); [done|done|]. replace (Z.of_nat i + 1) with (Z.of_nat (S i)) by lia.
  pose proof (todo_step c_fd rset Hr i _ _ Hc) as Hstep.
  assert (Hskip : (c_fd c ∉ rset) -> wpd (serve_loop handle k rset n (Z.of_nat (S i)))
    (fun _ s' => exists l', client (tbl s') = Some l' /\ swept rset i l (evs s) l' (evs s') /\
       table_ok (tbl s') /\ h_inv (dm s') /\ length (buf s') = MAXLINE /\ maxi s' = maxi s /\ maxfd s' = maxfd s /\
       allset s' = allset s ∖ list_to_set (filter (hangs_up k) (todo rset i l))) D s).
  { intros N. rewrite decide_False in Hstep by done. cbn [app] in Hstep. rewrite Hstep.
    eapply wpd_mono; [apply (IH (S i) s l); try done; [lia|by rewrite Nat.add_succ_l, <-Nat.add_succ_r]|].
    intros ? s' (l' & H1 & H2 & H3). exists l'. split; [done|]. split; [|done].
    by apply (swept_skip c_fd _ (hangs_up k) _ rset Hr i _ _ _ _ c). }
  destruct (Z.ltb_spec (c_fd c) 0) as [Hneg|Hpos]; [apply Hskip; intros ?%Hr; lia|].
  assert (Hci : in_set (c_fd c) = true) by (apply Hin, elem_of_used; by exists i, c).
  unfold FD_ISSET. rewrite Hci. apply wpd_bind, wpd_ret, wpd_bind.
  destruct (decide (c_fd c ∈ rset)) as [Hcr|Hcr]; [rewrite bool_decide_true by done|rewrite bool_decide_false by done].
  2:{ apply wpd_ret. by apply Hskip. }
  clear Hskip. destruct (Hn i c Hc Hpos) as (uid & Hu & Hm).
  eapply wpd_mono; [apply (os_serve_one s l i c uid D); done|].
  intros ? s1 (C1 & T1 & I1 & B1 & M1 & F1 & E1 & A1).
  eapply wpd_mono; [apply (IH (S i) s1 (serve_entry i c l))|]; try done.
  - intros fd Hfd. apply Hin. eapply elem_of_submseteq; [exact Hfd|]. by apply serve_entry_used.
  - by apply named_serve.
  - rewrite serve_entry_length. lia.
  - rewrite serve_entry_drop by lia. by rewrite Nat.add_succ_l, <-Nat.add_succ_r.
  - intros ? s' (l' & H1 & H2 & H3 & H4 & H5 & H6 & H7 & H8). exists l'. split; [done|]. split.
    { apply (swept_serve c_fd _ (hangs_up k) _ rset Hr i _ _ _ _ c); [done..|]. by rewrite E1 in H2. }
    split_and!; try done; [congruence..|]. rewrite H8, A1, serve_entry_todo, Hstep. cbn [app].
    rewrite filter_cons. destruct (decide (hangs_up k (c_fd c))); [rewrite list_to_set_cons|]; set_solver.
Qed.
End serving.

(** * Between rounds *)

Section rounds.
Context (handle : bytes -> nat -> Z -> Z -> M daemon unit) `{!Handler handle}.

Record server_ok (l : Z) (m : gmap Z Z) (s : server) : Prop := {
  ok_table : table_ok (tbl s);
  ok_named : named m (entries (tbl s));
  ok_conns : forall fd, is_Some (m !! fd) <-> fd ∈ used (entries (tbl s));
  ok_listen : 0 <= l /\ m !! l = None;
  ok_allset : allset s = {[l]} ∪ dom m;
  ok_maxfd : maxfd s < FD_SETSIZE /\ forall fd, fd ∈ allset s -> fd <= maxfd s;
  ok_maxi : -1 <= maxi s < Z.of_nat (length (entries (tbl s))) /\ used (drop (Z.to_nat (maxi s + 1)) (entries (tbl s))) = [];
  ok_buf : length (buf s) = MAXLINE;
  ok_daemon : h_inv (dm s)
}.

Lemma os_in_set_ok l m s fd : server_ok l m s -> fd ∈ allset s -> in_set fd = true.
Proof.
  intros H Hfd. pose proof (proj2 (ok_maxfd _ _ _ H) _ Hfd). pose proof (proj1 (ok_maxfd _ _ _ H)).
  assert (0 <= fd); [|unfold in_set; lia].
  rewrite (ok_allset _ _ _ H) in Hfd. apply elem_of_union in Hfd as [->%elem_of_singleton|Hfd]; [apply H|].
  apply elem_of_dom, (ok_conns _ _ _ H), elem_of_used in Hfd as (? & ? & _ & _ & ?). done.
Qed.

Lemma os_server_start l d junk : 0 <= l < FD_SETSIZE -> length junk = MAXLINE -> h_inv d -> server_ok l ∅ (start l d junk).
Proof.
  intros Hl Hj Hd. constructor; cbn [start tbl dm maxi maxfd allset buf]; try done.
  - constructor; cbn; [done|done|by intros i c Hi; rewrite lookup_nil in Hi|constructor].
  - intros fd. rewrite lookup_empty. split; [by intros []|by intros ?%not_elem_of_nil].
  - split; [lia|apply lookup_empty].
  - rewrite dom_empty_L. set_solver.
  - split; [lia|]. intros fd ->%elem_of_singleton. lia.
Qed.

(** Which systems the loop works with. *)
Definition new_fits (k : system) (m : gmap Z Z) : Prop := m !! client_fd k = None /\ client_fd k < FD_SETSIZE.

Lemma os_accept_phase l m s k :
  server_ok l m s -> m !! client_fd k = None -> client_fd k <> l -> client_fd k < FD_SETSIZE ->
  wpd (accept_client k)
    (fun _ s' => server_ok l (<[client_fd k := peer k]> m) s' /\ evs s' = evs s ++ [Accepted (client_fd k) (peer k)])
    (fun _ => sys_fails k) s.
Proof.
  intros H Hnew Hnl Hlim. unfold accept_client. apply wpd_bind, wpd_die_if.
  { intros ?. left. right. left. unfold client_fd in *. lia. }
  intros Hpos. apply wpd_bind, wpd_modify, wpd_bind, wpd_zoom. cbn [tbl record_event].
  assert (Hnu : client_fd k ∉ used (entries (tbl s))) by (rewrite <-(ok_conns _ _ _ H), Hnew; by intros []).
  eapply wpd_conseq; [by apply (client_add_run (mem k) (tbl s) (client_fd k) (peer k) (ok_table _ _ _ H)); [lia|]| |by right].
  intros r t (Ht & i & -> & fr & c & Hfr & Hi & Hc & _ & He). pose proof (lookup_lt_Some _ _ _ Hi) as Hlt.
  unfold FD_SET. replace (in_set (client_fd k)) with true by (unfold in_set; lia).
  apply wpd_bind, wpd_modify, wpd_bind, wpd_modify, wpd_bind, wpd_modify, wpd_zoom, wpd_modify.
  set (m' := <[client_fd k := peer k]> m). set (es := entries (tbl s)) in *.
  destruct (ok_maxfd _ _ _ H) as [Hm1 Hm2]. destruct (ok_maxi _ _ _ H) as [Hi1 Hi2]. destruct (ok_listen _ _ _ H) as [Hl1 Hl2].
  assert (P : used (entries t) ≡ₚ client_fd k :: used es).
  { rewrite He, (used_fill c_fd _ i c) by (done || cbn; lia). by rewrite used_free_app. }
  set (s0 := set_tbl t (record_event _ s)). set (s1 := set_allset _ s0).
  set (s2 := if client_fd k >? maxfd s1 then _ else s1). set (s3 := if _ >? maxi s2 then _ else s2).
  assert (E : tbl s3 = t /\ h_inv (dm s3) /\ allset s3 = {[client_fd k]} ∪ allset s /\ buf s3 = buf s /\
    maxfd s3 = Z.max (client_fd k) (maxfd s) /\ maxi s3 = Z.max (Z.of_nat i) (maxi s) /\
    evs s3 = evs s ++ [Accepted (client_fd k) (peer k)]).
  { pose proof (ok_daemon _ _ _ H). subst s3 s2 s1 s0. repeat case_match; cbn in *; split_and!; try done; lia. }
  destruct E as (E1 & E2 & E3 & E4 & E5 & E6 & E7). clearbody s3. split; [|by cbn; rewrite E7].
  constructor; cbn [tbl dm maxi maxfd allset buf set_dm]; rewrite ?E1, ?E3, ?E4, ?E5, ?E6; try done.
  - intros j d. rewrite He. destruct (decide (j = i)) as [->|Hne].
    + rewrite list_lookup_insert_eq by done. intros [= <-] _. exists (peer k). cbn. split; [done|]. apply lookup_insert_eq.
    + rewrite list_lookup_insert_ne by done. intros Hj Hd. assert (Hj' : es !! j = Some d).
      { apply lookup_app_Some in Hj as [?|[_ Hj]]; [done|]. pose proof (Forall_lookup_1 _ _ _ _ Hfr Hj) as Hx. cbn in Hx. lia. }
      destruct (ok_named _ _ _ H j d Hj' Hd) as (u & Hu & Hmu). exists u. split; [done|]. unfold m'.
      rewrite lookup_insert_ne; [done|]. intros E. rewrite E, Hmu in Hnew. done.
  - intros fd. pose proof (ok_conns _ _ _ H fd) as Hf. fold es in Hf. rewrite P, elem_of_cons, <-Hf. unfold m'. rewrite lookup_insert_is_Some.
    destruct (decide (client_fd k = fd)) as [->|]; naive_solver.
  - split; [done|]. unfold m'. by rewrite lookup_insert_ne.
  - rewrite (ok_allset _ _ _ H). unfold m'. rewrite dom_insert_L. set_solver.
  - split; [lia|]. intros fd [->%elem_of_singleton|Hfd]%elem_of_union; [lia|]. apply Hm2 in Hfd. lia.
  - fold es in Hi1, Hi2. rewrite length_app in Hlt. rewrite He, length_insert, length_app. split; [lia|].
    rewrite drop_insert_lt by lia.
    apply (used_drop_nil c_fd _ (Z.to_nat (maxi s + 1))); [|lia]. rewrite drop_app_le by lia.
    rewrite used_free_app; done.
  - apply H.
  - by apply h_log.
Qed.

(** What the loop leaves is in order for the connections that remain. *)
Lemma remain_ok l m s k rset es s' l' :
  server_ok l m s -> entries (tbl s) = es ->
  (forall fd, fd ∈ rset <-> is_Some (m !! fd) /\ ready (base k) fd) ->
  (forall fd, fd ∈ todo rset 0 es <-> fd ∈ rset) ->
  client (tbl s') = Some l' -> l' = entry_after c_fd (with_fd (-1)) (hangs_up k) rset <$> es ->
  table_ok (tbl s') -> h_inv (dm s') -> length (buf s') = MAXLINE -> maxi s' = maxi s -> maxfd s' = maxfd s ->
  allset s' = allset s ∖ list_to_set (filter (hangs_up k) (todo rset 0 es)) ->
  server_ok l (remain k m) s'.
Proof.
  intros H He Hr Htodo C' L' T' I' B' M' F' A'.
  assert (He' : entries (tbl s') = l') by (unfold entries; by rewrite C').
  assert (Hrem : forall fd u, remain k m !! fd = Some u <-> m !! fd = Some u /\ ~ (fd ∈ rset /\ hangs_up k fd)).
  { intros fd u. unfold remain. rewrite map_lookup_filter_Some, Hr. cbn. split; [|intros [? N]; split; [done|]; intros [? ?]; apply N; eauto].
    intros [? N]. split; [done|]. intros [[_ ?] ?]. tauto. }
  assert (Hused : used l' = filter (fun fd => ~ (fd ∈ rset /\ hangs_up k fd)) (used es)).
  { rewrite L'. apply used_after. intros; cbn; lia. }
  constructor; rewrite ?He', ?M', ?F'; try done.
  - intros i c Hi Hpos. rewrite L' in Hi. apply list_lookup_fmap_Some in Hi as (d & -> & Hd).
    unfold entry_after in *. destruct (decide _) as [|N]; [cbn in Hpos; lia|].
    rewrite <-He in Hd. destruct (ok_named _ _ _ H i d Hd Hpos) as (u & Hu & Hm). exists u. split; [done|]. by apply Hrem.
  - intros fd. rewrite Hused, list_elem_of_filter, <-He, <-(ok_conns _ _ _ H). unfold is_Some. setoid_rewrite Hrem. naive_solver.
  - split; [apply H|]. apply eq_None_not_Some. intros [u [Hm _]%Hrem]. by rewrite (proj2 (ok_listen _ _ _ H)) in Hm.
  - rewrite A', (ok_allset _ _ _ H). apply set_eq. intros fd.
    rewrite elem_of_difference, !elem_of_union, elem_of_singleton, elem_of_list_to_set, list_elem_of_filter, Htodo, !elem_of_dom.
    unfold is_Some at 2. setoid_rewrite Hrem. pose proof (proj2 (ok_listen _ _ _ H)) as Hl. split.
    + intros [[->|[u Hu]] N]; [by left|]. right. exists u. split; [done|tauto].
    + intros [->|(u & Hu & N)]; [|split; [right; by eexists|tauto]]. split; [by left|]. intros [_ [[u Hu] _]%Hr]. congruence.
  - split; [apply H|]. intros fd Hfd. apply (ok_maxfd _ _ _ H). rewrite A' in Hfd. set_solver.
  - destruct (ok_maxi _ _ _ H) as [Hi1 Hi2]. rewrite He in *. rewrite L', length_fmap. split; [done|].
    rewrite <-fmap_drop, used_after, Hi2; [done|]. intros; cbn; lia.
Qed.

Lemma os_serve_phase l m s k :
  server_ok l m s -> fine_requests handle k -> ~ ready (base k) l ->
  wpd (serve_loop handle k (select (base k) (maxfd s + 1) (allset s)) (Z.to_nat (maxi s + 1)) 0)
    (fun _ s' => server_ok l (remain k m) s' /\
       exists order, order ≡ₚ map_to_list (ready_conns k m) /\
         evs s' = evs s ++ concat ((fun p => served k p.1 p.2) <$> order)) (fun _ => sys_fails k) s.
Proof.
  intros H Hfine Hrl. set (rset := select _ _ _).
  assert (Hr : forall fd, fd ∈ rset <-> is_Some (m !! fd) /\ ready (base k) fd).
  { intros fd. unfold rset, select. rewrite elem_of_filter. pose proof (proj2 (ok_maxfd _ _ _ H) fd) as Hm.
    rewrite (ok_allset _ _ _ H) in Hm |- *. rewrite elem_of_union, elem_of_singleton, elem_of_dom in *. unfold ready in *.
    split; [|intros [Hs Hev]; split; [split; [specialize (Hm (or_intror Hs)); lia|done]|by right]].
    intros [[_ ?] [->|?]]; done. }
  destruct (client (tbl s)) as [es|] eqn:Hc.
  2:{ assert (He : entries (tbl s) = []) by (unfold entries; by rewrite Hc).
    pose proof (ok_maxi _ _ _ H) as [Hi1 _]. rewrite He in Hi1. cbn [length] in Hi1.
    replace (Z.to_nat (maxi s + 1)) with 0%nat by lia. apply wpd_ret.
    assert (Hm : m = ∅).
    { apply map_empty. intros fd. apply eq_None_not_Some. rewrite (ok_conns _ _ _ H), He. apply not_elem_of_nil. }
    subst m. unfold remain, ready_conns. rewrite !map_filter_empty. split; [done|]. exists []. rewrite map_to_list_empty, app_nil_r. done. }
  assert (He : entries (tbl s) = es) by (unfold entries; by rewrite Hc).
  pose proof (ok_named _ _ _ H) as Hn. pose proof (ok_conns _ _ _ H) as Hconns. pose proof (tb_nodup _ (ok_table _ _ _ H)) as Hnd.
  destruct (ok_maxi _ _ _ H) as [Hi1 Hi2]. rewrite He in *.
  assert (Htodo : forall fd, fd ∈ todo rset 0 es <-> fd ∈ rset).
  { intros fd. unfold EventLoop.todo. rewrite drop_0, list_elem_of_filter. split; [tauto|]. intros Hin. split; [done|]. by apply Hconns, Hr. }
  eapply wpd_mono; [apply (os_serve_loop_run handle k m rset _ 0 s es); try done|].
  - intros fd [Hs _]%Hr. apply Hconns, elem_of_used in Hs as (? & ? & _ & _ & ?). done.
  - intros fd Hfd. apply (os_in_set_ok l m s fd H). rewrite (ok_allset _ _ _ H). apply elem_of_union_r, elem_of_dom. by apply Hconns.
  - apply H.
  - apply H.
  - apply H.
  - lia.
  - intros ? s' (l' & C' & [L' E'] & T' & I' & B' & M' & F' & A'). rewrite take_0, app_nil_l, drop_0 in L'. split.
    + by apply (remain_ok l m s k rset es s' l').
    + exists ((fun fd => (fd, default 0 (m !! fd))) <$> todo rset 0 es). rewrite E', <-list_fmap_compose. split; [|done].
      apply NoDup_Permutation; [|apply NoDup_map_to_list|].
      * apply NoDup_fmap_2; [by intros ? ? [= ->]|]. apply list.NoDup_filter. by rewrite drop_0.
      * intros [fd u]. rewrite elem_of_map_to_list. unfold ready_conns. rewrite map_lookup_filter_Some, list_elem_of_fmap. cbn. split.
        -- intros (x & [= -> ->] & Hx). apply Htodo, Hr in Hx as [[v Hv] ?]. by rewrite Hv.
        -- intros [Hm Hrd]. exists fd. rewrite Hm. split; [done|]. apply Htodo, Hr. split; [by eexists|done].
Qed.

(** What the system promises: [accept] returns a new descriptor that fits in a
    set, and the requests are fine. *)
Definition promise (l : Z) (k : system) (m : gmap Z Z) : Prop :=
  m !! client_fd k = None /\ client_fd k <> l /\ client_fd k < FD_SETSIZE /\ fine_requests handle k.

Lemma loop_ok l ks m s :
  server_ok l m s -> promises (promise l) l ks m ->
  wpd (loop handle l ks) (fun _ s' => exists tr m', server_ok l m' s' /\ evs s' = evs s ++ tr /\ attends l ks m tr /\
      m' = attended tr m)
    (fun _ => Exists sys_fails ks) s.
Proof.
  revert m s. induction ks as [|k ks IH]; intros m s H.
  { intros _. apply wpd_ret. exists [], m. rewrite app_nil_r. by split_and!; [|done|constructor|]. }
  intros Hks. cbn [promises] in Hks. destruct Hks as [(Hnew & Hnl & Hlim & Hfine) Hks]. cbn [loop].
  apply wpd_bind, wpd_bind, wpd_die_if; [intros ?; apply Exists_cons_hd; left; by left|]. intros _. apply wpd_bind, wpd_gets.
  assert (Hl : l ∈ allset s) by (rewrite (ok_allset _ _ _ H); set_solver).
  unfold FD_ISSET. rewrite (os_in_set_ok _ _ _ _ H Hl). apply wpd_bind, wpd_ret.
  assert (Hsel : l ∈ select (base k) (maxfd s + 1) (allset s) <-> ready (base k) l).
  { unfold select, ready. rewrite elem_of_filter. pose proof (proj2 (ok_maxfd _ _ _ H) _ Hl). intuition lia. }
  destruct (decide (ready (base k) l)) as [Hr|Hr].
  - rewrite bool_decide_true by by apply Hsel.
    eapply wpd_conseq; [by apply (os_accept_phase l m s k)| |by intros; apply Exists_cons_hd].
    intros ? s1 [H1 E1]. unfold after_round in Hks. rewrite decide_True in Hks by done.
    eapply wpd_conseq; [by apply (IH _ s1 H1)| |by intros; apply Exists_cons_tl].
    intros ? s2 (tr & m' & H2 & E2 & Ha & Hm). exists (Accepted (client_fd k) (peer k) :: tr), m'.
    split_and!; [done|by rewrite E2, E1, <-app_assoc|by constructor|done].
  - rewrite bool_decide_false by tauto. apply wpd_bind, wpd_gets.
    eapply wpd_conseq; [by apply (os_serve_phase l m s k)| |by intros; apply Exists_cons_hd].
    intros ? s1 [H1 (order & Ho & E1)]. unfold after_round in Hks. rewrite decide_False in Hks by done.
    eapply wpd_conseq; [by apply (IH _ s1 H1)| |by intros; apply Exists_cons_tl].
    intros ? s2 (tr & m' & H2 & E2 & Ha & Hm). eexists _, m'.
    split_and!; [done|by rewrite E2, E1, <-app_assoc|by apply (attends_serve l k ks m order tr)|].
    rewrite attended_app. by rewrite (proj2 (attends_round k m order Ho)).
Qed.
End rounds.

(** * The theorem *)

(** C21: Against any handler of requests that returns, loop.select.c behaves as
    the abstract open server: each round takes the connection that waits, or
    reads from every ready client once, in which case a request goes to the
    handler with the identity the client was accepted with, and a client that
    has closed is closed and forgotten.  The table and the set hold exactly
    the connections that are open.  A run ends only because a call failed. *)
Theorem select_loop_attends handle `{!Handler handle} l d junk ks :
  0 <= l < FD_SETSIZE -> length junk = MAXLINE -> h_inv d -> promises (promise handle l) l ks ∅ ->
  wpd (loop handle l ks)
    (fun _ s => attends l ks ∅ (evs s) /\ identified (evs s) ∅ /\
       (forall fd, is_Some (attended (evs s) ∅ !! fd) <-> fd ∈ used (entries (tbl s))) /\
       allset s = {[l]} ∪ dom (attended (evs s) ∅))
    (fun _ => Exists sys_fails ks) (start l d junk).
Proof.
  intros Hl Hj Hd Hk. eapply wpd_mono; [apply (loop_ok handle l ks ∅); [by apply os_server_start|done]|].
  intros ? s (tr & m' & H & -> & Ha & ->). cbn [start evs app].
  split_and!; [done|by apply attends_identified in Ha|apply H|apply H].
Qed.

(** * A run *)

(** Two clients; the first leaves, the second sends a request, a third takes
    the element of the first. *)
Definition demo_system (ev : list Z) (fd uid : Z) (rd : list (Z * bytes)) : system :=
  System (Kernel false (fun f => if bool_decide (f ∈ ev) then 1 else 0) fd
      (fun f => match list_find (fun p => p.1 = f) rd with Some (_, (_, d)) => Data d | None => Data [] end)
      (fun _ => true)) uid (Memory true (fun _ => mk_client 0 None)).
Definition demo : list system :=
  [demo_system [3] 4 501 []; demo_system [3] 5 502 [];
   demo_system [4; 5] 6 0 [(4, []); (5, str "open /etc/motd 0" ++ [0])]; demo_system [3] 6 503 [];
   demo_system [6] 7 0 [(6, str "open /etc/xx 0" ++ [0])]].
Definition demo_handler : bytes -> nat -> Z -> Z -> M daemon unit :=
  handle_request demo_open demo_strerror demo_args demo_senv demo_send_err.
#[export] Instance demo_handler_ok : Handler demo_handler.
Proof. apply request_handler; [intros fd text d _; reflexivity|done]. Defined.

Example select_demo :
  match loop demo_handler 3 demo (start 3 demo_daemon (replicate MAXLINE 0)) with
  | Ret _ s => evs s = [Accepted 4 501; Accepted 5 502; Got 4 []; Closed 4;
      Got 5 (str "open /etc/motd 0" ++ [0]); Handled 5 502 (str "open /etc/motd 0" ++ [0]); Accepted 6 503;
      Got 6 (str "open /etc/xx 0" ++ [0]); Handled 6 503 (str "open /etc/xx 0" ++ [0])] /\
      (fst <$> out (dm s)) = [5; 6; 6]
  | _ => False
  end.
Proof. vm_compute. done. Qed.

Lemma demo_system_fine ev fd uid rd :
  Forall (fun p => p.2 = [] \/ h_fine (take MAXLINE p.2)) rd -> fine_requests demo_handler (demo_system ev fd uid rd).
Proof.
  intros H f d. cbn. destruct (list_find _ rd) as [[i [f' d']]|] eqn:E; [|by intros [= <-]].
  intros [= <-] Hne. apply list_find_Some in E as (E & _ & _). pose proof (Forall_lookup_1 _ _ _ _ H E) as [?|?]; done.
Qed.

Lemma demo_promise m ev fd uid rd :
  m !! fd = None -> fd <> 3 -> fd < FD_SETSIZE -> Forall (fun p => p.2 = [] \/ h_fine (take MAXLINE p.2)) rd ->
  promise demo_handler 3 (demo_system ev fd uid rd) m.
Proof. intros ????. split_and!; [done..|by apply demo_system_fine]. Qed.

Lemma demo_promises : promises (promise demo_handler 3) 3 demo ∅.
Proof.
  assert (F1 : h_fine (take MAXLINE (str "open /etc/motd 0" ++ [0]))) by (intros old uid _; vm_compute; exact I).
  assert (F2 : h_fine (take MAXLINE (str "open /etc/xx 0" ++ [0]))) by (intros old uid _; vm_compute; reflexivity).
  unfold demo. cbn [promises].
  repeat (apply conj; [apply demo_promise; [vm_compute; reflexivity|done|done|]|]); [..|exact I];
    repeat apply list.Forall_cons_2; try apply list.Forall_nil_2; cbn [snd];
    first [by left|right; exact F1|right; exact F2].
Qed.

Lemma os_select_demo_returns : returns (loop demo_handler 3 demo) (start 3 demo_daemon (replicate MAXLINE 0)) = true.
Proof. vm_compute. reflexivity. Qed.

Lemma select_loop_attends_witness :
  exists s, loop demo_handler 3 demo (start 3 demo_daemon (replicate MAXLINE 0)) = Ret tt s /\ attends 3 demo ∅ (evs s).
Proof.
  assert (D : h_inv demo_daemon).
  { split; [apply demo_daemon_ok|]. split; [apply demo_daemon_ok|]. vm_compute. reflexivity. }
  pose proof (select_loop_attends demo_handler 3 demo_daemon (replicate MAXLINE 0) demo ltac:(done)
    ltac:(by rewrite length_replicate) D demo_promises) as W.
  pose proof (wpd_returns _ _ _ _ W) as V.
  specialize (V os_select_demo_returns).
  destruct V as ([] & s & E & V).
  exists s.
  split; [exact E|].
  exact (proj1 V).
Defined.
