(* ===== verification/OpenPoll.v ===== *)
(** apue.3e/ipc2/opend/loop.poll.c: the event loop of the open server on
    poll. *)
From Stdlib Require Import ZArith Lia.
From stdpp Require Import base list strings gmap sets numbers.
From S2P Require Import Prelude CString CFile EventLoop OpenPass OpenReq OpenTable OpenLoop.
Local Open Scope c_scope.

Definition NALLOC : Z := 10.
Definition POLLIN : Z := 1.
Definition POLLERR : Z := 8.
Definition POLLHUP : Z := 16.
Definition POLLNVAL : Z := 32.

Record pollfd := Pollfd { p_fd : Z; p_events : Z; p_revents : Z }.
Definition with_pfd v p := Pollfd v (p_events p) (p_revents p).
Definition with_events v p := Pollfd (p_fd p) v (p_revents p).
Definition with_revents v p := Pollfd (p_fd p) (p_events p) v.

(** An allocation of the array can fail, and does not set the new elements. *)
Record pmemory := PMemory { p_ok : bool; p_junk : nat -> pollfd }.

(** The table of clients, the state of the handler, the variables of [loop]
    (the array [pollfd], [numfd], [maxfd], [buf]), and what was done. *)
Record server := Server {
  tbl : clients;
  dm : daemon;
  pollfds : list pollfd;
  numfd : Z;
  maxfd : Z;
  buf : bytes;
  evs : list event
}.
Definition set_tbl v s := Server v (dm s) (pollfds s) (numfd s) (maxfd s) (buf s) (evs s).
Definition set_dm v s := Server (tbl s) v (pollfds s) (numfd s) (maxfd s) (buf s) (evs s).
Definition set_pollfds v s := Server (tbl s) (dm s) v (numfd s) (maxfd s) (buf s) (evs s).
Definition set_numfd v s := Server (tbl s) (dm s) (pollfds s) v (maxfd s) (buf s) (evs s).
Definition set_maxfd v s := Server (tbl s) (dm s) (pollfds s) (numfd s) v (buf s) (evs s).
Definition set_buf v s := Server (tbl s) (dm s) (pollfds s) (numfd s) (maxfd s) v (evs s).
Definition record_event e s := Server (tbl s) (dm s) (pollfds s) (numfd s) (maxfd s) (buf s) (evs s ++ [e]).

(** When [loop] is entered. *)
Definition start (d : daemon) (junk : bytes) : server := Server no_clients d [] 1 NALLOC junk [].

Definition on_table {A} (m : M clients A) : M server A := zoom tbl set_tbl m.
Definition on_daemon {A} (m : M daemon A) : M server A := zoom dm set_dm m.

Definition pollfd_at (i : Z) : M server pollfd := fun s =>
  if i <? 0 then Undef "pollfd[]"
  else match pollfds s !! Z.to_nat i with Some p => Ret p s | None => Undef "pollfd[]" end.
Definition put_pollfd (i : Z) (f : pollfd -> pollfd) : M server unit :=
  let* p := pollfd_at i in
  modify (fun s => set_pollfds (<[Z.to_nat i := f p]> (pollfds s)) s).

(** [client\[i\].uid] *)
Definition uid_at (i : Z) : M server Z :=
  let* c := on_table (at_client i) in
  match c_uid c with Some u => ret u | None => undef "client[i].uid" end.

(** The loops that set new elements. *)
Fixpoint fill_loop (n : nat) (i : Z) : M server unit :=
  match n with
  | O => skip
  | S n =>
    put_pollfd i (with_pfd (-1));;;
    put_pollfd i (with_events POLLIN);;;
    put_pollfd i (with_revents 0);;;
    fill_loop n (i + 1)
  end.

Definition grow_pollfd (pm : pmemory) : M server unit :=
  let* oldmax := gets maxfd in
  let newmax := oldmax + NALLOC in
  die_if (negb (p_ok pm)) "realloc error";;;
  modify (fun s => set_pollfds (pollfds s ++ (p_junk pm <$> seq (length (pollfds s)) (Z.to_nat newmax - length (pollfds s)))) s);;;
  fill_loop (Z.to_nat (newmax - oldmax)) oldmax;;;
  modify (set_maxfd newmax).

(** Before the [for] loop. *)
Definition setup (listenfd : Z) (m : memory) (pm : pmemory) : M server unit :=
  die_if (negb (p_ok pm)) "malloc error";;;
  modify (set_pollfds (p_junk pm <$> seq 0 (Z.to_nat NALLOC)));;;
  fill_loop (Z.to_nat NALLOC) 0;;;
  die_if (listenfd <? 0) "serv_listen error";;;
  on_table (client_add m listenfd 0);;;
  put_pollfd 0 (with_pfd listenfd).

(** [poll] sets [revents] in the first [nfds] elements. *)
Definition poll_entry (k : kernel) (p : pollfd) : pollfd :=
  with_revents (if p_fd p <? 0 then 0
    else Z.land (events k (p_fd p)) (Z.lor (p_events p) (Z.lor POLLERR (Z.lor POLLHUP POLLNVAL)))) p.
Definition poll (k : kernel) (nfds : Z) : M server unit := fun s =>
  if (length (pollfds s) <? Z.to_nat nfds)%nat then Undef "poll"
  else Ret tt (set_pollfds ((poll_entry k <$> take (Z.to_nat nfds) (pollfds s)) ++ drop (Z.to_nat nfds) (pollfds s)) s).

(** The system's side of a round, with the memory for the array. *)
Record round_env := RoundEnv { sys : system; pmem : pmemory }.

Section loop.
Context (handle : bytes -> nat -> Z -> Z -> M daemon unit).

Definition accept_client (k : round_env) : M server unit :=
  let clifd := client_fd (sys k) in
  die_if (clifd <? 0) "serv_accept error";;;
  modify (record_event (Accepted clifd (peer (sys k))));;;
  on_table (client_add (mem (sys k)) clifd (peer (sys k)));;;
  let* n := gets numfd in
  let* mx := gets maxfd in
  (if n =? mx then grow_pollfd (pmem k) else skip);;;
  put_pollfd n (with_pfd clifd);;;
  put_pollfd n (with_events POLLIN);;;
  put_pollfd n (with_revents 0);;;
  modify (set_numfd (n + 1));;;
  on_daemon (log_msg (str "new connection: uid " ++ sdec (i32 (peer (sys k))) ++ str ", fd " ++ sdec clifd)).

(** [hungup:], which returns the new [i]. *)
Definition hungup (i : Z) : M server Z :=
  let* u := uid_at i in
  let* p := pollfd_at i in
  on_daemon (log_msg (str "closed: uid " ++ sdec (i32 u) ++ str ", fd " ++ sdec (p_fd p)));;;
  on_table (client_del (p_fd p));;;
  modify (record_event (Closed (p_fd p)));;;
  let* n := gets numfd in
  let* i := (if i <? n - 1 then
    let* q := pollfd_at (n - 1) in
    put_pollfd i (with_pfd (p_fd q));;;
    put_pollfd i (with_events (p_events q));;;
    put_pollfd i (with_revents (p_revents q));;;
    ret (i - 1)
  else ret i) in
  modify (set_numfd (n - 1));;;
  ret i.

(** The body of the loop over the array; it returns the new [i]. *)
Definition serve_client (k : round_env) (i : Z) : M server Z :=
  let* p := pollfd_at i in
  if negb (Z.land (p_revents p) POLLHUP =? 0) then hungup i
  else if negb (Z.land (p_revents p) POLLIN =? 0) then
    match reads (base (sys k)) (p_fd p) with
    | Failed _ => die "read error"
    | Data d =>
      let d := take MAXLINE d in
      modify (fun s => set_buf (splice 0 d (buf s)) s);;;
      modify (record_event (Got (p_fd p) d));;;
      if (length d =? 0)%nat then hungup i
      else
        let* u := uid_at i in
        modify (record_event (Handled (p_fd p) u d));;;
        let* b := gets buf in
        on_daemon (handle b (length d) (p_fd p) u);;;
        ret i
    end
  else ret i.

(** [for (i = 1; i < numfd; i++)]: each step either goes to the next element
    or shortens the array, so [numfd - i] steps are enough. *)
Fixpoint serve_loop (k : round_env) (n : nat) (i : Z) : M server unit :=
  let* nf := gets numfd in
  if i <? nf then
    match n with
    | O => nofuel
    | S n => let* i := serve_client k i in serve_loop k n (i + 1)
    end
  else skip.

Definition round (k : round_env) : M server unit :=
  die_if (wait_fails (base (sys k))) "poll error";;;
  let* n := gets numfd in
  poll (base (sys k)) n;;;
  let* p := pollfd_at 0 in
  (if negb (Z.land (p_revents p) POLLIN =? 0) then accept_client k else skip);;;
  let* n := gets numfd in
  serve_loop k (Z.to_nat (n - 1)) 1.

Fixpoint rounds (ks : list round_env) : M server unit :=
  match ks with [] => skip | k :: ks => round k;;; rounds ks end.

Definition loop (listenfd : Z) (m : memory) (pm : pmemory) (ks : list round_env) : M server unit :=
  setup listenfd m pm;;; rounds ks.
End loop.

(** * A run *)

(** The first of three clients leaves, and the third takes its place in
    [pollfd], but not in [client]. *)
Definition demo_round (ev : Z -> Z) (fd uid : Z) (rd : list (Z * bytes)) : round_env :=
  RoundEnv (System (Kernel false ev fd
      (fun f => match list_find (fun p => p.1 = f) rd with Some (_, (_, d)) => Data d | None => Data [] end)
      (fun _ => true)) uid (Memory true (fun _ => mk_client 0 None))) (PMemory true (fun _ => Pollfd 0 0 0)).
Definition pollin (l : list Z) (fd : Z) : Z := if bool_decide (fd ∈ l) then POLLIN else 0.
Definition demo : list round_env :=
  [demo_round (pollin [3]) 4 501 []; demo_round (pollin [3]) 5 502 []; demo_round (pollin [3]) 6 503 [];
   demo_round (pollin [5]) 7 0 [(5, str "open /etc/motd 0" ++ [0])];
   demo_round (fun fd => if fd =? 4 then POLLHUP else 0) 7 0 [];
   demo_round (pollin [6]) 7 0 [(6, str "open /etc/motd 0" ++ [0])]].
Definition demo_handler : bytes -> nat -> Z -> Z -> M daemon unit :=
  handle_request demo_open demo_strerror demo_args demo_senv demo_send_err.
#[export] Instance demo_handler_ok : Handler demo_handler.
Proof. apply request_handler; [intros fd text d _; reflexivity|done]. Defined.
Definition demo_memory : memory := Memory true (fun _ => mk_client 0 None).
Definition demo_pmemory : pmemory := PMemory true (fun _ => Pollfd 0 0 0).

(** The third client, accepted with identity 503, is served with the identity
    of the first, 501. *)
Example poll_wrong_identity :
  match loop demo_handler 3 demo_memory demo_pmemory demo (start demo_daemon (replicate MAXLINE 0)) with
  | Ret _ s => evs s = [Accepted 4 501; Accepted 5 502; Accepted 6 503;
      Got 5 (str "open /etc/motd 0" ++ [0]); Handled 5 502 (str "open /etc/motd 0" ++ [0]); Closed 4;
      Got 6 (str "open /etc/motd 0" ++ [0]); Handled 6 501 (str "open /etc/motd 0" ++ [0])]
  | _ => False
  end.
Proof. vm_compute. reflexivity. Qed.

(** * The abstract server *)

Definition asks : Z := Z.lor POLLIN POLLHUP.
Definition hup (k : system) (fd : Z) : Prop := Z.land (events (base k) fd) POLLHUP <> 0.
(** A client that has sent something, or that has gone. *)
Definition stirs (k : system) (fd : Z) : Prop := Z.land (events (base k) fd) asks <> 0.
Definition departs (k : system) (fd : Z) : Prop := hup k fd \/ hangs_up k fd.
Definition knocks (k : system) (l : Z) : Prop := Z.land (events (base k) l) POLLIN <> 0.
#[export] Instance hup_dec k fd : Decision (hup k fd).
Proof. unfold hup. apply _. Defined.
#[export] Instance stirs_dec k fd : Decision (stirs k fd).
Proof. unfold stirs. apply _. Defined.
#[export] Instance knocks_dec k l : Decision (knocks k l).
Proof. unfold knocks. apply _. Defined.
#[export] Instance departs_dec k fd : Decision (departs k fd).
Proof. unfold departs. apply _. Defined.

(** What is done for it: a request goes to the handler with some identity. *)
Definition tend (k : system) (fd uid : Z) : list event :=
  if decide (hup k fd) then [Closed fd] else served k fd uid.

Definition stirring (k : system) (c : gset Z) : gset Z := filter (stirs k) c.
Definition staying (k : system) (c : gset Z) : gset Z := filter (fun fd => ~ (stirs k fd /\ departs k fd)) c.
Definition arrival (l : Z) (k : system) : list event :=
  if decide (knocks k l) then [Accepted (client_fd k) (peer k)] else [].
Definition next_conns (l : Z) (k : system) (c : gset Z) : gset Z :=
  staying k c ∪ (if decide (knocks k l) then {[client_fd k]} else ∅).

Inductive tends (l : Z) : list system -> gset Z -> list event -> Prop :=
| tends_nil c : tends l [] c []
| tends_round k ks c order tr :
  order.*1 ≡ₚ elements (stirring k c) -> tends l ks (next_conns l k c) tr ->
  tends l (k :: ks) c (arrival l k ++ concat ((fun p => tend k p.1 p.2) <$> order) ++ tr).

(** Until the first client leaves, every request is handled with the identity
    its client was accepted with. *)
Fixpoint honest (tr : list event) (m : gmap Z Z) : Prop :=
  match tr with
  | [] => True
  | Accepted fd uid :: tr => honest tr (<[fd := uid]> m)
  | Closed _ :: _ => True
  | Got _ _ :: tr => honest tr m
  | Handled fd uid _ :: tr => m !! fd = Some uid /\ honest tr m
  end.
Definition closes (e : event) : Prop := match e with Closed _ => True | _ => False end.
Definition none_left (tr : list event) : Prop := Forall (fun e => ~ closes e) tr.

Lemma honest_snoc tr e m :
  honest tr m -> (none_left tr -> honest [e] (attended tr m)) -> honest (tr ++ [e]) m.
Proof.
  revert m. induction tr as [|x tr IH]; intros m; cbn [app].
  { intros _ H. apply H. constructor. }
  destruct x; cbn [honest attended]; intros H He; [apply IH; [done|]| |split; [apply H|]; apply IH; [apply H|]|done];
    [|apply IH; [done|]|]; intros Hn; apply He; constructor; auto; by intros [].
Qed.

Lemma none_left_snoc tr e : none_left (tr ++ [e]) <-> none_left tr /\ ~ closes e.
Proof. unfold none_left. rewrite list.Forall_app, list.Forall_singleton. done. Qed.

(** * Lists *)

(** Putting the last element in the place of one that goes. *)
Lemma pack_last {A} (l : list A) (i : nat) p q :
  l !! i = Some p -> (S i < length l)%nat -> l !! (length l - 1)%nat = Some q ->
  take i (take (length l - 1) (<[i := q]> l)) = take i l /\ drop i (take (length l - 1) (<[i := q]> l)) ≡ₚ drop (S i) l.
Proof.
  intros Hi Hlt Hq. rewrite <-(take_drop_middle l i p Hi) in Hlt, Hq |- *. set (a := take i l) in *. set (b := drop (S i) l) in *.
  assert (Ha : length a = i) by (apply length_take_le; pose proof (lookup_lt_Some _ _ _ Hi); lia).
  clearbody a b. subst i. destruct b as [|x b] using rev_ind; [rewrite !length_app in Hlt; cbn in Hlt; lia|clear IHb].
  rewrite app_comm_cons, app_assoc, length_app in Hq |- *. cbn [length] in *.
  replace (length (a ++ p :: b) + 1 - 1)%nat with (length (a ++ p :: b)) in * by lia.
  rewrite list_lookup_middle in Hq by done. injection Hq as ->.
  rewrite insert_app_l by (rewrite length_app; cbn; lia).
  replace (length (a ++ p :: b)) with (length (<[length a := q]> (a ++ p :: b))) by apply length_insert.
  rewrite take_app_length, insert_app_r_alt, Nat.sub_diag by lia. cbn [insert list_insert].
  rewrite <-app_assoc, take_app_length, take_app_length, drop_app_length. split; [done|].
  cbn [app]. change (p :: b ++ [q]) with ([p] ++ (b ++ [q])). rewrite app_assoc.
  rewrite drop_app_ge by (rewrite length_app; cbn; lia). rewrite length_app. cbn [length].
  replace (S (length a) - (length a + 1))%nat with 0%nat by lia. by rewrite Permutation_cons_append.
Qed.

(** * The array *)

Section array.
Context (D : server -> Prop).

Lemma wpd_pollfd_at s i p (Q : pollfd -> server -> Prop) :
  pollfds s !! i = Some p -> Q p s -> wpd (pollfd_at (Z.of_nat i)) Q D s.
Proof. intros H HQ. unfold wpd, pollfd_at. by rewrite (proj2 (Z.ltb_ge _ _)), Nat2Z.id, H by lia. Qed.

Lemma wpd_put_pollfd s i p f (Q : unit -> server -> Prop) :
  pollfds s !! i = Some p -> Q tt (set_pollfds (<[i := f p]> (pollfds s)) s) -> wpd (put_pollfd (Z.of_nat i) f) Q D s.
Proof. intros H HQ. apply wpd_bind, (wpd_pollfd_at _ _ _ _ H). cbn. by rewrite Nat2Z.id. Qed.

(** Setting the three fields of an element. *)
Lemma wpd_put_entry {A} s i p q z (Q : A -> server -> Prop) (k : unit -> M server A) :
  z = Z.of_nat i -> pollfds s !! i = Some p ->
  wpd (k tt) Q D (set_pollfds (<[i := q]> (pollfds s)) s) ->
  wpd (put_pollfd z (with_pfd (p_fd q));;; put_pollfd z (with_events (p_events q));;;
    (let* u := put_pollfd z (with_revents (p_revents q)) in k u)) Q D s.
Proof.
  intros -> H HQ. pose proof (lookup_lt_Some _ _ _ H) as Hlt.
  apply wpd_bind, (wpd_put_pollfd s i p); [done|]. apply wpd_bind. set (s1 := set_pollfds _ s).
  assert (H1 : pollfds s1 !! i = Some (with_pfd (p_fd q) p)) by (by apply list_lookup_insert_eq).
  apply (wpd_put_pollfd s1 i _ _ _ H1), wpd_bind. set (s2 := set_pollfds _ s1).
  assert (H2 : pollfds s2 !! i = Some (with_events (p_events q) (with_pfd (p_fd q) p))).
  { apply list_lookup_insert_eq. unfold s1. cbn. by rewrite length_insert. }
  apply (wpd_put_pollfd s2 i _ _ _ H2). unfold s2, s1, set_pollfds in *. cbn in *. rewrite !list_insert_insert_eq. destruct q. exact HQ.
Qed.

Definition blank : pollfd := Pollfd (-1) POLLIN 0.

Lemma fill_loop_run n i s :
  (i + n <= length (pollfds s))%nat ->
  wpd (fill_loop n (Z.of_nat i))
    (fun _ s' => s' = set_pollfds (take i (pollfds s) ++ replicate n blank ++ drop (i + n) (pollfds s)) s) D s.
Proof.
  revert i s. induction n as [|n IH]; intros i s Hn.
  { apply wpd_ret. cbn. rewrite Nat.add_0_r, take_drop. by destruct s. }
  destruct (lookup_lt_is_Some_2 (pollfds s) i ltac:(lia)) as [p Hp]. cbn [fill_loop].
  apply (wpd_put_entry s i p blank); [done|done|]. replace (Z.of_nat i + 1) with (Z.of_nat (S i)) by lia.
  eapply wpd_mono; [apply IH; cbn; rewrite length_insert; lia|]. intros ? s' ->. unfold set_pollfds. cbn [pollfds tbl dm numfd maxfd buf evs].
  f_equal. rewrite (take_S_r _ _ blank) by (apply list_lookup_insert_eq; lia).
  rewrite take_insert_ge, drop_insert_lt by lia. rewrite <-app_assoc. cbn [app replicate]. do 3 f_equal. by rewrite Nat.add_succ_r.
Qed.

Lemma grow_pollfd_run pm s :
  (p_ok pm = false -> forall s', D s') -> maxfd s = Z.of_nat (length (pollfds s)) ->
  wpd (grow_pollfd pm) (fun _ s' => s' = set_maxfd (maxfd s + NALLOC)
    (set_pollfds (pollfds s ++ replicate (Z.to_nat NALLOC) blank) s)) D s.
Proof.
  intros HD Hm. unfold grow_pollfd. apply wpd_bind, wpd_gets, wpd_bind, wpd_die_if; [intros ?%negb_true_iff; by apply HD|].
  intros _. apply wpd_bind, wpd_modify, wpd_bind. replace (Z.to_nat (maxfd s + NALLOC - maxfd s)) with (Z.to_nat NALLOC) by (unfold NALLOC; lia).
  set (x := p_junk pm <$> _).
  assert (Hx : length x = Z.to_nat NALLOC) by (unfold x; rewrite length_fmap, length_seq, Hm; unfold NALLOC; lia).
  rewrite Hm at 1. eapply wpd_mono; [apply fill_loop_run; cbn [pollfds set_pollfds]; rewrite length_app; lia|].
  intros ? s' ->. apply wpd_modify. cbn [pollfds set_pollfds]. rewrite take_app_length, <-Hx, drop_ge, app_nil_r by (rewrite length_app; lia).
  by rewrite Hx.
Qed.
End array.

(** * Invariant *)

Abbreviation used := (EventLoop.used c_fd).

(** The elements that are polled. *)
Definition live (s : server) : list pollfd := take (Z.to_nat (numfd s)) (pollfds s).

(** The elements of [client] that were ever used come first. *)
Definition filled (l : list Client) : Prop :=
  exists hw, forall i c, l !! i = Some c -> ((i < hw)%nat -> is_Some (c_uid c)) /\ ((hw <= i)%nat -> c_fd c = -1).

(** As long as no client has left, the two arrays agree. *)
Definition aligned (s : server) : Prop :=
  (forall i p, live s !! i = Some p -> exists u, entries (tbl s) !! i = Some (mk_client (p_fd p) (Some u)) /\
     (i <> 0%nat -> attended (evs s) ∅ !! p_fd p = Some u)) /\
  (forall i c, (Z.to_nat (numfd s) <= i)%nat -> entries (tbl s) !! i = Some c -> c_fd c = -1).

Section rounds.
Context (handle : bytes -> nat -> Z -> Z -> M daemon unit) `{!Handler handle}.

Record server_ok (l : Z) (s : server) : Prop := {
  ok_length : maxfd s = Z.of_nat (length (pollfds s));
  ok_numfd : 1 <= numfd s <= maxfd s;
  ok_head : p_fd <$> pollfds s !! 0%nat = Some l;
  ok_live : Forall (fun p => 0 <= p_fd p /\ p_events p = POLLIN) (live s);
  ok_table : table_ok (tbl s);
  ok_used : used (entries (tbl s)) ≡ₚ p_fd <$> live s;
  ok_filled : filled (entries (tbl s));
  ok_aligned : none_left (evs s) -> aligned s;
  ok_honest : honest (evs s) ∅;
  ok_daemon : h_inv (dm s);
  ok_buf : length (buf s) = MAXLINE
}.

Lemma live_length l s : server_ok l s -> length (live s) = Z.to_nat (numfd s).
Proof. intros H. unfold live. rewrite length_take. pose proof (ok_length _ _ H). pose proof (ok_numfd _ _ H). lia. Qed.

Lemma live_lookup s i p : live s !! i = Some p -> pollfds s !! i = Some p /\ (i < Z.to_nat (numfd s))%nat.
Proof. unfold live. by rewrite lookup_take_Some. Qed.

(** Each element polled has an element of [client] with an identity. *)
Lemma named_at l s i : server_ok l s -> (i < Z.to_nat (numfd s))%nat ->
  exists c u, entries (tbl s) !! i = Some c /\ c_uid c = Some u.
Proof.
  intros H Hi. destruct (ok_filled _ _ H) as [hw Hf].
  assert (Hlen : length (used (entries (tbl s))) = Z.to_nat (numfd s)).
  { by rewrite (ok_used _ _ H), length_fmap, (live_length _ _ H). }
  rewrite <-(take_drop hw (entries (tbl s))), used_app in Hlen.
  assert (E : used (drop hw (entries (tbl s))) = []).
  { destruct (used (drop hw _)) as [|fd fds] eqn:E; [done|]. assert (Hfd : fd ∈ used (drop hw (entries (tbl s)))) by (rewrite E; by left).
    apply elem_of_used in Hfd as (j & c & Hj & <- & Hc). rewrite lookup_drop in Hj. apply Hf in Hj as [_ Hj]. specialize (Hj ltac:(lia)). lia. }
  rewrite E, app_nil_r in Hlen. assert (Hle : (length (used (take hw (entries (tbl s)))) <= length (take hw (entries (tbl s))))%nat).
  { unfold EventLoop.used. etrans; [apply length_filter|]. by rewrite length_fmap. }
  rewrite length_take in Hle. destruct (lookup_lt_is_Some_2 (entries (tbl s)) i ltac:(lia)) as [c Hc].
  destruct (Hf i c Hc) as [[u Hu] _]; [lia|]. eauto.
Qed.

Lemma wpd_uid_at l s i (Q : Z -> server -> Prop) (D : server -> Prop) :
  server_ok l s -> (i < Z.to_nat (numfd s))%nat ->
  (forall c u, entries (tbl s) !! i = Some c -> c_uid c = Some u -> Q u s) -> wpd (uid_at (Z.of_nat i)) Q D s.
Proof.
  intros H Hi HQ. destruct (named_at l s i H Hi) as (c & u & Hc & Hu). unfold uid_at.
  assert (exists es, client (tbl s) = Some es) as [es Hes].
  { destruct (client (tbl s)) eqn:E; [eauto|]. unfold entries in Hc. by rewrite E in Hc. }
  assert (Hc' : es !! i = Some c) by (unfold entries in Hc; by rewrite Hes in Hc).
  apply wpd_bind, wpd_zoom, wpd_of_wp, (wp_at_client _ _ _ _ _ Hes Hc'). rewrite Hu.
  replace (set_tbl (tbl s) s) with s by by destruct s. apply wpd_ret, (HQ c u Hc Hu).
Qed.

(** Changes that keep the invariant. *)
Lemma server_ok_log l s t : server_ok l s -> server_ok l (set_dm (set_log t (dm s)) s).
Proof. intros [? ? ? ? ? ? ? ? ? ? ?]. constructor; try done. by apply h_log. Qed.

Lemma server_ok_got l s fd d b :
  server_ok l s -> length b = MAXLINE -> server_ok l (record_event (Got fd d) (set_buf b s)).
Proof.
  intros [? ? ? ? ? ? ? Ha Hh ? ?] Hb. constructor; try done; cbn [evs record_event set_buf].
  - rewrite none_left_snoc. intros [[H1 H2]%Ha _]. split; [|done]. intros i p Hp. destruct (H1 i p Hp) as (u & E1 & E2).
    exists u. split; [done|]. cbn. rewrite attended_app. done.
  - by apply honest_snoc.
Qed.

(** * A client that goes *)

(** The state when the client of a descriptor has left: its element of
    [client] is free, and the array holds the others. *)
Definition gone_state (s : server) (fd : Z) (t : clients) (pf : list pollfd) : server :=
  set_numfd (numfd s - 1) (set_pollfds pf (record_event (Closed fd) (set_tbl t s))).

Lemma server_ok_gone l s p es sz n c pf :
  server_ok l s -> tbl s = Clients (Some es) sz -> es !! n = Some c -> c_fd c = p_fd p -> 0 <= p_fd p ->
  length pf = length (pollfds s) -> pf !! 0%nat = pollfds s !! 0%nat -> 1 <= numfd s - 1 ->
  live s ≡ₚ p :: take (Z.to_nat (numfd s - 1)) pf ->
  server_ok l (gone_state s (p_fd p) (Clients (Some (<[n := with_fd (-1) c]> es)) sz) pf).
Proof.
  intros H Et Hc Hcf Hpos L1 L2 Hn P.
  pose proof (ok_table _ _ H) as Ht. pose proof (ok_used _ _ H) as U. pose proof (ok_filled _ _ H) as F. rewrite Et in Ht, U, F.
  change (entries _) with es in U, F.
  constructor; cbn [gone_state tbl dm pollfds numfd maxfd buf evs set_numfd set_pollfds record_event set_tbl];
    change (entries (Clients (Some ?x) _)) with x.
  - rewrite L1. apply H.
  - pose proof (ok_numfd _ _ H). lia.
  - rewrite L2. apply H.
  - pose proof (ok_live _ _ H) as V. rewrite P in V. by inversion V.
  - by apply (table_ok_clear (Clients (Some es) sz)).
  - rewrite P in U. rewrite (used_clear c_fd es n c (with_fd (-1) c)), Hcf in U by (done || cbn; lia).
    by apply Permutation.Permutation_cons_inv in U.
  - destruct F as [hw Hf]. exists hw. intros j d. destruct (decide (j = n)) as [->|].
    + rewrite list_lookup_insert_eq by by eapply lookup_lt_Some. intros [= <-]. split; [intros; by apply (Hf n c Hc)|done].
    + rewrite list_lookup_insert_ne by done. apply Hf.
  - rewrite none_left_snoc. intros [_ []]. done.
  - apply honest_snoc; [apply H|done].
  - apply H.
  - apply H.
Qed.

(** What [hungup] leaves, with the index it goes on from: the elements before
    it and the elements still to visit are those there were. *)
Definition left_state (l : Z) (s : server) (i : nat) (p : pollfd) (r : Z) (s' : server) : Prop :=
  server_ok l s' /\ evs s' = evs s ++ [Closed (p_fd p)] /\
  exists j, (j <> 0)%nat /\ r + 1 = Z.of_nat j /\ (Z.to_nat (numfd s') - j <= Z.to_nat (numfd s) - i - 1)%nat /\
    take j (live s') ≡ₚ take i (live s) /\ drop j (live s') ≡ₚ drop (S i) (live s).

Lemma left_state_intro l s i p es sz n c pf j :
  server_ok l s -> (i <> 0)%nat -> live s !! i = Some p ->
  tbl s = Clients (Some es) sz -> es !! n = Some c -> c_fd c = p_fd p -> 0 <= p_fd p ->
  length pf = length (pollfds s) -> pf !! 0%nat = pollfds s !! 0%nat ->
  (i <= j)%nat ->
  take j (take (Z.to_nat (numfd s - 1)) pf) ≡ₚ take i (live s) ->
  drop j (take (Z.to_nat (numfd s - 1)) pf) ≡ₚ drop (S i) (live s) ->
  left_state l s i p (Z.of_nat j - 1) (gone_state s (p_fd p) (Clients (Some (<[n := with_fd (-1) c]> es)) sz) pf).
Proof.
  intros H Hi Hp Et Hc Hcf Hpos L1 L2 Hj T1 T2. pose proof (live_lookup _ _ _ Hp) as [_ Hlt]. pose proof (ok_numfd _ _ H).
  split; [|split; [done|exists j; cbn [numfd gone_state set_numfd]; split_and!; [lia|lia|lia|done..]]].
  apply server_ok_gone; try done; [lia|].
  rewrite <-(take_drop_middle _ _ _ Hp), <-T1, <-T2, <-Permutation_middle. by rewrite take_drop.
Qed.

Lemma hungup_run l s i p (D : server -> Prop) :
  server_ok l s -> (i <> 0)%nat -> live s !! i = Some p -> wpd (hungup (Z.of_nat i)) (left_state l s i p) D s.
Proof.
  intros H Hi Hp. destruct (live_lookup _ _ _ Hp) as [Hpf Hlt]. unfold hungup.
  apply wpd_bind, (wpd_uid_at l); [done..|]. intros _ u _ _.
  apply wpd_bind, (wpd_pollfd_at D _ _ p); [done|]. apply wpd_bind, wpd_zoom, wpd_modify.
  set (s1 := set_dm _ s). assert (H1 : server_ok l s1) by by apply server_ok_log.
  change (left_state l s i p) with (left_state l s1 i p). change (live s) with (live s1) in *.
  change (numfd s) with (numfd s1) in *. change (pollfds s) with (pollfds s1) in Hpf. clearbody s1. clear H.
  apply wpd_bind, wpd_zoom.
  assert (Hu : p_fd p ∈ used (entries (tbl s1))).
  { rewrite (ok_used _ _ H1). apply list_elem_of_fmap. exists p. split; [done|]. by eapply list_elem_of_lookup_2. }
  apply elem_of_used in Hu as (n & c & Hc & Hcf & Hpos).
  destruct (tbl s1) as [[es|] sz] eqn:Et; [|done]. change (entries _) with es in Hc.
  pose proof (ok_table _ _ H1) as Ht. rewrite Et in Ht. unfold wpd at 1.
  pose proof (client_del_run (Clients (Some es) sz) es n c Ht eq_refl Hc ltac:(lia)) as R. rewrite Hcf in R. rewrite R. clear R.
  apply wpd_bind, wpd_modify, wpd_bind, wpd_gets. set (s2 := record_event _ _). change (numfd s2) with (numfd s1) in *.
  pose proof (ok_numfd _ _ H1) as Hn. pose proof (live_length _ _ H1) as Hll.
  destruct (Z.ltb_spec (Z.of_nat i) (numfd s1 - 1)) as [Hlt2|Hge].
  - destruct (lookup_lt_is_Some_2 (live s1) (length (live s1) - 1) ltac:(lia)) as [q Hq].
    pose proof (live_lookup _ _ _ Hq) as [Hq' _]. rewrite Hll in Hq'. apply wpd_bind, wpd_bind.
    replace (numfd s1 - 1) with (Z.of_nat (Z.to_nat (numfd s1) - 1)) at 1 by lia.
    apply (wpd_pollfd_at D _ _ q); [done|]. apply (wpd_put_entry D s2 i p q); [done|done|].
    apply wpd_ret, wpd_bind, wpd_modify, wpd_ret.
    destruct (pack_last (live s1) i p q Hp ltac:(lia) Hq) as [T1 T2].
    assert (E : take (length (live s1) - 1) (<[i := q]> (live s1)) = take (Z.to_nat (numfd s1 - 1)) (<[i := q]> (pollfds s1))).
    { rewrite Hll. unfold live. rewrite <-take_insert_lt, take_take by done. f_equal. lia. }
    rewrite E in T1, T2. apply (left_state_intro l s1 i p es sz n c (<[i := q]> (pollfds s1)) i); try done;
      [apply length_insert|by apply list_lookup_insert_ne|by rewrite T1].
  - apply wpd_bind, wpd_ret, wpd_bind, wpd_modify, wpd_ret. replace (Z.of_nat i) with (Z.of_nat (S i) - 1) by lia.
    apply (left_state_intro l s1 i p es sz n c (pollfds s1) (S i)); try done; [lia| |].
    + unfold live. rewrite !take_take.
      replace (S i `min` Z.to_nat (numfd s1 - 1))%nat with (i `min` Z.to_nat (numfd s1))%nat by lia. done.
    + rewrite !drop_ge; [done|rewrite Hll; lia|rewrite length_take; lia].
Qed.

(** * The sweep *)

(** What poll reported for an element: nothing for one that was not polled. *)
Definition mask (k : kernel) (fd : Z) : Z := Z.land (events k fd) (Z.lor POLLIN (Z.lor POLLERR (Z.lor POLLHUP POLLNVAL))).
Definition reports (k : kernel) (p : pollfd) : Prop := p_revents p = 0 \/ p_revents p = mask k (p_fd p).
Definition active (p : pollfd) : Prop := Z.land (p_revents p) asks <> 0.
#[local] Instance active_dec p : Decision (active p).
Proof. unfold active. apply _. Defined.

Lemma mask_land k fd x : Z.land (Z.lor POLLIN (Z.lor POLLERR (Z.lor POLLHUP POLLNVAL))) x = x ->
  Z.land (mask k fd) x = Z.land (events k fd) x.
Proof. intros E. unfold mask. by rewrite <-Z.land_assoc, E. Qed.

Lemma active_iff p : active p <-> Z.land (p_revents p) POLLHUP <> 0 \/ Z.land (p_revents p) POLLIN <> 0.
Proof. unfold active, asks. rewrite Z.land_lor_distr_r, Z.lor_eq_0_iff. destruct (decide (Z.land (p_revents p) POLLHUP = 0)); tauto. Qed.

Lemma reports_active k p : reports (base k) p -> active p -> p_revents p = mask (base k) (p_fd p) /\ stirs k (p_fd p).
Proof.
  intros [E|E] H; unfold active in H; rewrite E in H; [by rewrite Z.land_0_l in H|]. split; [done|].
  unfold stirs. by rewrite <-(mask_land (base k)).
Qed.

Lemma server_ok_handled l s i p c u r d :
  server_ok l s -> i <> 0%nat -> live s !! i = Some p -> entries (tbl s) !! i = Some c -> c_uid c = Some u -> h_inv d ->
  server_ok l (set_dm d (record_event (Handled (p_fd p) u r) s)).
Proof.
  intros [? ? ? ? ? ? ? Ha Hh ? ?] Hi Hp Hc Hu Hd. constructor; try done; cbn [evs record_event set_dm].
  - rewrite none_left_snoc. intros [[H1 H2]%Ha _]. split; [|done]. intros j q Hq. destruct (H1 j q Hq) as (v & E1 & E2).
    exists v. split; [done|]. cbn. by rewrite attended_app.
  - apply honest_snoc; [done|]. intros [H1 _]%Ha. destruct (H1 i p Hp) as (v & E1 & E2). rewrite Hc in E1. injection E1 as ->.
    cbn in Hu. injection Hu as ->. cbn. split; [by apply E2|done].
Qed.

Definition round_fails (k : round_env) : Prop := sys_fails (sys k) \/ p_ok (pmem k) = false.

(** A step of the sweep at an element. *)
Definition step_state (k : round_env) (l : Z) (s : server) (i : nat) (p : pollfd) (r : Z) (s' : server) : Prop :=
  server_ok l s' /\ (exists u, evs s' = evs s ++ (if decide (active p) then tend (sys k) (p_fd p) u else [])) /\
  exists j, (j <> 0)%nat /\ r + 1 = Z.of_nat j /\ (Z.to_nat (numfd s') - j <= Z.to_nat (numfd s) - i - 1)%nat /\
    take j (live s') ≡ₚ take i (live s) ++ (if decide (active p /\ departs (sys k) (p_fd p)) then [] else [p]) /\
    drop j (live s') ≡ₚ drop (S i) (live s).

Lemma step_stays k l s i p s' u tr :
  server_ok l s' -> live s !! i = Some p -> live s' = live s -> numfd s' = numfd s -> ~ (active p /\ departs (sys k) (p_fd p)) ->
  tr = (if decide (active p) then tend (sys k) (p_fd p) u else []) -> evs s' = evs s ++ tr ->
  step_state k l s i p (Z.of_nat i) s'.
Proof.
  intros H Hp Hl Hn N -> E. split; [done|]. split; [by exists u|]. exists (S i). rewrite Hl, Hn, decide_False by done.
  split_and!; [lia|lia|lia| |done]. by rewrite (take_S_r _ _ _ Hp).
Qed.

Lemma step_leaves k l s0 s i p r s' u tr :
  left_state l s i p r s' -> live s = live s0 -> numfd s = numfd s0 -> active p -> departs (sys k) (p_fd p) ->
  evs s = evs s0 ++ tr -> tend (sys k) (p_fd p) u = tr ++ [Closed (p_fd p)] -> step_state k l s0 i p r s'.
Proof.
  intros (H & E & j & H1 & H2 & H3 & H4 & H5) Hl Hn A Dp Es Et. split; [done|]. rewrite Hl in H4, H5. rewrite Hn in H3. split.
  - exists u. by rewrite decide_True, E, Es, Et, <-app_assoc by done.
  - exists j. rewrite decide_True by done. rewrite app_nil_r. split_and!; done.
Qed.

Lemma serve_client_run k l s i p (D : server -> Prop) :
  (forall s', round_fails k -> D s') -> fine_requests handle (sys k) ->
  server_ok l s -> (i <> 0)%nat -> live s !! i = Some p -> reports (base (sys k)) p ->
  wpd (serve_client handle k (Z.of_nat i)) (step_state k l s i p) D s.
Proof.
  intros HD Hfine H Hi Hp Hrep. pose proof (live_lookup _ _ _ Hp) as [Hpf Hlt]. unfold serve_client.
  apply wpd_bind, (wpd_pollfd_at D _ _ p); [done|].
  pose proof (active_iff p) as Ha. pose proof (reports_active (sys k) p Hrep) as Hact.
  destruct (Z.eqb_spec (Z.land (p_revents p) POLLHUP) 0) as [Hh|Hh]; cbn [negb].
  2:{ destruct Hact as [Hm _]; [by apply Ha; left|].
    assert (Hup : hup (sys k) (p_fd p)) by (unfold hup; rewrite <-(mask_land (base (sys k))), <-Hm by done; done).
    eapply wpd_mono; [by apply (hungup_run l s i p)|]. intros r s' Hs'. apply (step_leaves k l s s i p r s' 0 []); try done.
    - apply Ha. by left.
    - by left.
    - by rewrite app_nil_r.
    - unfold tend. by rewrite decide_True. }
  destruct (Z.eqb_spec (Z.land (p_revents p) POLLIN) 0) as [Hin|Hin]; cbn [negb].
  { apply wpd_ret. apply (step_stays k l s i p s 0 []); try done; rewrite ?decide_False by tauto; try done; [tauto|by rewrite app_nil_r]. }
  destruct Hact as [Hm _]; [by apply Ha; right|].
  assert (Hup : ~ hup (sys k) (p_fd p)) by (unfold hup; rewrite <-(mask_land (base (sys k))), <-Hm by done; tauto).
  destruct (reads (base (sys k)) (p_fd p)) as [d|e] eqn:Er; [|apply HD; left; left; right; right; eauto].
  apply wpd_bind, wpd_modify, wpd_bind, wpd_modify. set (s1 := record_event _ _).
  assert (H1 : server_ok l s1).
  { apply server_ok_got; [done|]. rewrite splice_length; [apply H|]. rewrite length_take, (ok_buf _ _ H). lia. }
  destruct d as [|x d].
  - rewrite take_nil. cbn [length Nat.eqb]. eapply wpd_mono; [by apply (hungup_run l s1 i p)|].
    intros r s' Hs'. apply (step_leaves k l s s1 i p r s' 0 [Got (p_fd p) []]); try done.
    + apply Ha. by right.
    + by right.
    + unfold tend, served. by rewrite decide_False, Er.
  - change (length (take MAXLINE (x :: d)) =? 0)%nat with false. cbv iota.
    apply wpd_bind, (wpd_uid_at l); [done|done|]. intros c u Hc Hu.
    apply wpd_bind, wpd_modify, wpd_bind, wpd_gets, wpd_bind, wpd_zoom, wpd_of_wp. eapply wp_mono.
    { apply handle_returns; [apply H1|by apply (Hfine (p_fd p))|done|].
      cbn [buf s1 record_event set_buf]. rewrite splice_front. by apply take_app_length. }
    intros ? d' Hd'. apply wpd_ret.
    apply (step_stays k l s i p _ u [Got (p_fd p) (take MAXLINE (x :: d)); Handled (p_fd p) u (take MAXLINE (x :: d))]); try done.
    + by apply (server_ok_handled l s1 i p c).
    + intros [_ [?|Hg]]; [done|]. unfold hangs_up in Hg. congruence.
    + rewrite decide_True by (apply Ha; by right). unfold tend, served. by rewrite decide_False, Er.
    + cbn. by rewrite <-app_assoc.
Qed.

Lemma op_serve_loop_run k l n i s (D : server -> Prop) :
  (forall s', round_fails k -> D s') -> fine_requests handle (sys k) ->
  server_ok l s -> (i <> 0)%nat -> (Z.to_nat (numfd s) - i <= n)%nat -> Forall (reports (base (sys k))) (drop i (live s)) ->
  wpd (serve_loop handle k n (Z.of_nat i)) (fun _ s' => server_ok l s' /\
    (exists order, order.*1 ≡ₚ p_fd <$> filter active (drop i (live s)) /\
       evs s' = evs s ++ concat ((fun p => tend (sys k) p.1 p.2) <$> order)) /\
    live s' ≡ₚ take i (live s) ++ filter (fun p => ~ (active p /\ departs (sys k) (p_fd p))) (drop i (live s))) D s.
Proof.
  intros HD Hfine. revert i s. induction n as [|n IH]; intros i s H Hi Hn Hrep; cbn [serve_loop];
    apply wpd_bind, wpd_gets; pose proof (live_length _ _ H) as Hlen; pose proof (ok_numfd _ _ H) as Hnum.
  all: destruct (Z.ltb_spec (Z.of_nat i) (numfd s)) as [Hlt|Hge]; try lia.
  2: rename n into n'.
  1, 3: apply wpd_ret; rewrite drop_ge, take_ge by lia; split; [done|split; [exists []|]]; cbn; by rewrite ?app_nil_r.
  destruct (lookup_lt_is_Some_2 (live s) i ltac:(lia)) as [p Hp]. rewrite (drop_S _ _ _ Hp) in Hrep |- *.
  apply list.Forall_cons in Hrep as [Hp1 Hp2]. apply wpd_bind.
  eapply wpd_mono; [by apply (serve_client_run k l s i p)|]. intros r s1 (H1 & (u & E1) & j & J1 & -> & J3 & J4 & J5).
  eapply wpd_mono; [apply (IH j s1); [done|done|lia|by rewrite J5]|].
  intros ? s2 (H2 & (order & O & E2) & L2). split; [done|]. rewrite J5 in O, L2. rewrite !filter_cons. split.
  - destruct (decide (active p)) as [A|A].
    + exists ((p_fd p, u) :: order). split; [cbn; by rewrite O|]. cbn. by rewrite E2, E1, <-app_assoc.
    + exists order. split; [done|]. by rewrite E2, E1, app_nil_r.
  - rewrite L2, J4, <-app_assoc. f_equiv. destruct (decide (active p /\ departs (sys k) (p_fd p))) as [A|A].
    + rewrite decide_False by tauto. done.
    + rewrite decide_True by tauto. done.
Qed.

(** * Accepting, waiting, starting *)

Lemma filled_added es fr j c fd uid :
  filled es -> free fr -> (es ++ fr) !! j = Some c -> c_fd c = -1 ->
  (forall j' d, (j' < j)%nat -> (es ++ fr) !! j' = Some d -> c_fd d <> -1) ->
  filled (<[j := mk_client fd (Some uid)]> (es ++ fr)).
Proof.
  intros [hw Hf] Hfr Hj Hc Hfst.
  assert (Hf' : forall i d, (es ++ fr) !! i = Some d -> ((i < hw `min` length es)%nat -> is_Some (c_uid d)) /\ ((hw `min` length es <= i)%nat -> c_fd d = -1)).
  { intros i d [Hi|[Hle Hi]]%lookup_app_Some.
    - pose proof (lookup_lt_Some _ _ _ Hi). destruct (Hf i d Hi). split; intros; [|]; auto with lia.
    - split; [lia|]. intros _. by apply (Forall_lookup_1 _ _ _ _ Hfr Hi). }
  assert (Hle : (j <= hw `min` length es)%nat).
  { destruct (decide (j <= hw `min` length es)%nat); [done|]. exfalso.
    destruct (lookup_lt_is_Some_2 (es ++ fr) (hw `min` length es)) as [d Hd]; [pose proof (lookup_lt_Some _ _ _ Hj); lia|].
    apply (Hfst (hw `min` length es)%nat d ltac:(lia) Hd). by apply (Hf' _ _ Hd). }
  exists (Nat.max (hw `min` length es) (S j)). intros i d. destruct (decide (i = j)) as [->|Hne].
  - rewrite list_lookup_insert_eq by by eapply lookup_lt_Some. intros [= <-]. split; [by eexists|lia].
  - rewrite list_lookup_insert_ne by done. intros Hi. split; intros; apply (Hf' i d Hi); lia.
Qed.

(** Where a client is put as long as the arrays agree. *)
Lemma aligned_added s fr j c :
  aligned s -> free fr -> (entries (tbl s) ++ fr) !! j = Some c -> c_fd c = -1 ->
  (forall j' d, (j' < j)%nat -> (entries (tbl s) ++ fr) !! j' = Some d -> c_fd d <> -1) ->
  length (live s) = Z.to_nat (numfd s) -> Forall (fun p => 0 <= p_fd p) (live s) ->
  j = Z.to_nat (numfd s).
Proof.
  intros [A1 A2] Hfr Hj Hc Hfst Hlen Hpos. apply Nat.le_antisymm.
  - destruct (decide (j <= Z.to_nat (numfd s))%nat); [done|]. exfalso.
    destruct (lookup_lt_is_Some_2 (entries (tbl s) ++ fr) (Z.to_nat (numfd s))) as [d Hd]; [pose proof (lookup_lt_Some _ _ _ Hj); lia|].
    apply (Hfst (Z.to_nat (numfd s)) d ltac:(lia) Hd). apply lookup_app_Some in Hd as [Hd|[_ Hd]]; [by apply (A2 _ _ ltac:(done) Hd)|].
    by apply (Forall_lookup_1 _ _ _ _ Hfr Hd).
  - destruct (decide (Z.to_nat (numfd s) <= j)%nat); [done|]. exfalso.
    destruct (lookup_lt_is_Some_2 (live s) j ltac:(lia)) as [p Hp]. destruct (A1 j p Hp) as (u & E & _).
    rewrite (lookup_app_l_Some _ _ _ _ E) in Hj. injection Hj as <-. cbn in Hc.
    pose proof (Forall_lookup_1 _ _ _ _ Hpos Hp) as Hx. cbn in Hx. lia.
Qed.

(** The state after a client was added to both arrays. *)
Lemma server_ok_accepted l s fd uid t j pf :
  server_ok l s -> 0 <= fd -> (fd ∉ p_fd <$> live s) -> table_ok t -> added (entries (tbl s)) fd uid j (entries t) ->
  (Z.to_nat (numfd s) < length pf)%nat ->
  take (Z.to_nat (numfd s)) pf = live s -> pf !! Z.to_nat (numfd s) = Some (Pollfd fd POLLIN 0) ->
  server_ok l (Server t (dm s) pf (numfd s + 1) (Z.of_nat (length pf)) (buf s) (evs s ++ [Accepted fd uid])) /\
  take (Z.to_nat (numfd s + 1)) pf = live s ++ [Pollfd fd POLLIN 0].
Proof.
  intros H Hfd Hnew Ht (fr & c & Hfr & Hj & Hc & Hfst & He) Hlt T L. pose proof (ok_numfd _ _ H) as Hn.
  assert (Hlive : take (Z.to_nat (numfd s + 1)) pf = live s ++ [Pollfd fd POLLIN 0]).
  { replace (Z.to_nat (numfd s + 1)) with (S (Z.to_nat (numfd s))) by lia. by rewrite (take_S_r _ _ _ L), T. }
  pose proof (live_length _ _ H) as Hlen. split; [|done].
  assert (Hpos : Forall (fun p => 0 <= p_fd p) (live s)).
  { eapply Forall_impl; [|apply (ok_live _ _ H)]. by intros ? []. }
  constructor; unfold live; cbn [tbl dm pollfds numfd maxfd buf evs]; rewrite ?Hlive; try apply H; try done.
  - lia.
  - rewrite <-(ok_head _ _ H). f_equal. transitivity (live s !! 0%nat).
    + rewrite <-T. symmetry. apply lookup_take_lt. lia.
    + unfold live. apply lookup_take_lt. lia.
  - apply list.Forall_app. split; [apply H|]. by repeat constructor.
  - rewrite He, (used_fill c_fd _ j c) by (done || cbn; lia). rewrite used_free_app by done.
    rewrite fmap_app, (ok_used _ _ H). cbn. by rewrite Permutation_cons_append.
  - rewrite He. apply (filled_added _ fr j c); try done. apply H.
  - rewrite none_left_snoc. intros [A%(ok_aligned _ _ H) _].
    pose proof (aligned_added s fr j c A Hfr Hj Hc Hfst Hlen Hpos) as ->. destruct A as [A1 A2].
    split; unfold live; cbn [tbl dm pollfds numfd maxfd buf evs]; rewrite ?Hlive, He.
    + intros i p [Hp|[Hle Hp]]%lookup_app_Some.
      * pose proof (lookup_lt_Some _ _ _ Hp) as Hl. destruct (A1 i p Hp) as (u & E1 & E2). exists u. split.
        -- rewrite list_lookup_insert_ne by lia. by apply lookup_app_l_Some.
        -- intros Hi. cbn. rewrite attended_app. cbn. rewrite lookup_insert_ne; [by apply E2|].
           intros ->. apply Hnew, list_elem_of_fmap. exists p. split; [done|]. by eapply list_elem_of_lookup_2.
      * apply list_lookup_singleton_Some in Hp as [Hi <-]. replace i with (Z.to_nat (numfd s)) by lia. exists uid. split.
        -- by apply list_lookup_insert_eq, (lookup_lt_Some _ _ c).
        -- intros _. rewrite attended_app. cbn. by rewrite lookup_insert_eq.
    + intros i d Hi Hd. rewrite list_lookup_insert_ne in Hd by lia.
      apply lookup_app_Some in Hd as [Hd|[_ Hd]]; [apply (A2 i d); [lia|done]|by apply (Forall_lookup_1 _ _ _ _ Hfr Hd)].
  - by apply honest_snoc; [apply H|].
Qed.

Lemma accept_client_run k l s (D : server -> Prop) :
  (forall s', round_fails k -> D s') -> server_ok l s -> (client_fd (sys k) ∉ p_fd <$> live s) ->
  wpd (accept_client k) (fun _ s' => server_ok l s' /\ evs s' = evs s ++ [Accepted (client_fd (sys k)) (peer (sys k))] /\
    live s' = live s ++ [Pollfd (client_fd (sys k)) POLLIN 0]) D s.
Proof.
  intros HD H Hnew. pose proof (ok_numfd _ _ H) as Hn. pose proof (ok_length _ _ H) as Hlen. unfold accept_client.
  apply wpd_bind, wpd_die_if. { intros ?. apply HD. left. left. right. left. unfold client_fd in *. lia. }
  intros Hpos. apply wpd_bind, wpd_modify, wpd_bind, wpd_zoom. cbn [tbl record_event].
  eapply wpd_conseq; [apply (client_add_run (mem (sys k)) (tbl s) (client_fd (sys k)) (peer (sys k)) (ok_table _ _ H)); [lia|]| |].
  { by rewrite (ok_used _ _ H). }
  2:{ intros. apply HD. left. by right. }
  intros r t (Ht & j & -> & Had). apply wpd_bind, wpd_gets, wpd_bind, wpd_gets, wpd_bind.
  set (s1 := set_tbl t _). change (numfd s1) with (numfd s). change (maxfd s1) with (maxfd s).
  assert (Hgrown : wpd (if numfd s =? maxfd s then grow_pollfd (pmem k) else skip)
    (fun _ s2 => exists x, s2 = set_maxfd (Z.of_nat (length (pollfds s ++ x))) (set_pollfds (pollfds s ++ x) s1) /\
       numfd s < Z.of_nat (length (pollfds s ++ x))) D s1).
  { destruct (Z.eqb_spec (numfd s) (maxfd s)).
    - eapply wpd_mono; [apply grow_pollfd_run; [intros E ?; apply HD; by right|done]|]. intros ? s2 ->. eexists. 
      change (pollfds s1) with (pollfds s). change (maxfd s1) with (maxfd s).
      replace (Z.of_nat (length (pollfds s ++ replicate (Z.to_nat NALLOC) blank))) with (maxfd s + NALLOC); [split; [done|unfold NALLOC; lia]|].
      rewrite length_app, length_replicate. unfold NALLOC. lia.
    - apply wpd_ret. exists []. rewrite app_nil_r, <-Hlen. split; [by destruct s|lia]. }
  eapply wpd_mono; [exact Hgrown|]. intros ? s2 (x & -> & Hlt). set (s2 := set_maxfd _ _).
  destruct (lookup_lt_is_Some_2 (pollfds s2) (Z.to_nat (numfd s))) as [p Hp]; [cbn; lia|].
  apply (wpd_put_entry D s2 (Z.to_nat (numfd s)) p (Pollfd (client_fd (sys k)) POLLIN 0)); [lia|done|]. apply wpd_bind, wpd_modify, wpd_zoom, wpd_modify. cbn [pollfds s2 set_maxfd set_pollfds].
  set (pf := <[_ := _]> _). assert (Hpf : length pf = length (pollfds s ++ x)) by apply length_insert.
  destruct (server_ok_accepted l s (client_fd (sys k)) (peer (sys k)) t j pf) as [H1 H2]; try done; [lia|lia| |by apply list_lookup_insert_eq; lia|].
  { unfold pf. rewrite take_insert_ge by lia. unfold live. rewrite take_app_le by lia. done. }
  rewrite Hpf in H1. split; [exact (server_ok_log _ _ _ H1)|done].
Qed.

Lemma setup_run l m pm d junk (D : server -> Prop) :
  0 <= l -> length junk = MAXLINE -> h_inv d -> (alloc_ok m = false \/ p_ok pm = false -> forall s', D s') ->
  wpd (setup l m pm) (fun _ s' => server_ok l s' /\ p_fd <$> live s' = [l] /\ evs s' = []) D (start d junk).
Proof.
  intros Hl Hj Hd HD. unfold setup. apply wpd_bind, wpd_die_if; [intros ?%negb_true_iff; apply HD; by right|]. intros _.
  apply wpd_bind, wpd_modify, wpd_bind. set (x := p_junk pm <$> _). assert (Hx : length x = 10%nat) by (unfold x; by rewrite length_fmap, length_seq).
  eapply wpd_mono; [apply (fill_loop_run D _ 0); cbn [pollfds set_pollfds]; rewrite Hx; unfold NALLOC; lia|]. intros ? s' ->.
  apply wpd_bind, wpd_die_if; [intros; lia|]. intros _. apply wpd_bind, wpd_zoom.
  change (tbl (set_pollfds _ _)) with no_clients.
  eapply wpd_conseq; [apply (client_add_run m no_clients l 0); [|done|apply not_elem_of_nil]| |].
  { constructor; cbn; [done|done| |constructor]. intros i c Hi. by rewrite lookup_nil in Hi. }
  2:{ intros. apply HD. by left. }
  intros r t (Ht & j & -> & fr & c & Hfr & Hjc & Hc & Hfst & He). cbn [app entries client no_clients default] in *.
  assert (j = 0)%nat as ->.
  { destruct j as [|j]; [done|]. destruct fr as [|c0 fr]; [done|]. exfalso. apply (Hfst 0%nat c0); [lia|done|]. by inversion Hfr. }
  destruct fr as [|c0 fr]; [done|]. injection Hjc as ->. apply list.Forall_cons in Hfr as [_ Hfr]. cbn in He.
  change (put_pollfd 0) with (put_pollfd (Z.of_nat 0)). cbn [pollfds set_pollfds take app].
  apply (wpd_put_pollfd D _ 0 blank); [done|]. cbn [pollfds set_pollfds set_tbl]. rewrite drop_ge by (rewrite Hx; unfold NALLOC; lia).
  assert (Hc' : filled (entries t) /\ used (entries t) = [l]).
  { rewrite He. split.
    - exists 1%nat. intros [|i] e Hi; cbn in Hi; [injection Hi as <-; split; [intros _; by eexists|lia]|].
      split; [lia|]. intros _. by apply (Forall_lookup_1 _ _ _ _ Hfr Hi).
    - rewrite used_cons, decide_True by done. cbn [app]. f_equal. apply (used_free_app [] fr Hfr). }
  split; [|done]. constructor; unfold live; cbn; try done.
  - by repeat constructor.
  - by rewrite (proj2 Hc').
  - apply Hc'.
  - intros _. split; unfold live; cbn; rewrite He.
    + intros [|i] p Hp; cbn in Hp; [|done]. injection Hp as <-. exists 0. by split.
    + intros [|i] e Hi Hp; [lia|]. by apply (Forall_lookup_1 _ _ _ _ Hfr Hp).
Qed.

(** * A round *)

Lemma poll_entry_reports k p : p_events p = POLLIN -> 0 <= p_fd p -> p_revents (poll_entry k p) = mask k (p_fd p).
Proof. intros E Hp. unfold poll_entry, mask. cbn. rewrite E, (proj2 (Z.ltb_ge _ _)) by done. done. Qed.

Lemma poll_entry_active k p : p_events p = POLLIN -> 0 <= p_fd p -> active (poll_entry (base k) p) <-> stirs k (p_fd p).
Proof. intros E Hp. unfold active, stirs. by rewrite poll_entry_reports, mask_land by done. Qed.

Lemma op_poll_run l k s : server_ok l s ->
  exists s', poll k (numfd s) s = Ret tt s' /\ server_ok l s' /\ live s' = poll_entry k <$> live s /\ evs s' = evs s.
Proof.
  intros H. pose proof (ok_numfd _ _ H). pose proof (ok_length _ _ H). unfold poll.
  destruct (Nat.ltb_spec (length (pollfds s)) (Z.to_nat (numfd s))); [lia|]. eexists. split; [done|]. fold (live s).
  set (pf := (poll_entry k <$> live s) ++ _).
  assert (Hl : live (set_pollfds pf s) = poll_entry k <$> live s).
  { unfold live at 1. cbn. unfold pf. replace (Z.to_nat (numfd s)) with (length (poll_entry k <$> live s)) at 1; [apply take_app_length|].
    by rewrite length_fmap, (live_length _ _ H). }
  split; [|done]. constructor; rewrite ?Hl; try apply H.
  - cbn. unfold pf. rewrite length_app, length_fmap, (live_length _ _ H), length_drop. lia.
  - cbn. rewrite <-(ok_head _ _ H). unfold pf. pose proof (live_length _ _ H) as E. unfold live in *.
    destruct (pollfds s) as [|p l']; [cbn in *; lia|]. destruct (Z.to_nat (numfd s)) eqn:?; [lia|]. done.
  - apply Forall_fmap. apply (ok_live _ _ H).
  - rewrite <-list_fmap_compose. apply (ok_used _ _ H).
  - intros A%(ok_aligned _ _ H). destruct A as [A1 A2]. split; [|done]. rewrite Hl. intros i p Hp.
    apply list_lookup_fmap_Some in Hp as (q & -> & Hq). apply (A1 i q Hq).
Qed.

Lemma polled_fds k rest (P : pollfd -> Prop) (Q : Z -> Prop) `{!forall p, Decision (P p), !forall x, Decision (Q x)} :
  Forall (fun p => 0 <= p_fd p /\ p_events p = POLLIN) rest ->
  (forall p, 0 <= p_fd p /\ p_events p = POLLIN -> P (poll_entry k p) <-> Q (p_fd p)) ->
  p_fd <$> filter P (poll_entry k <$> rest) = filter Q (p_fd <$> rest).
Proof.
  intros F E. induction F as [|p l Hp _ IH]; [done|]. cbn [fmap list_fmap]. rewrite !filter_cons. specialize (E p Hp).
  destruct (decide (P _)), (decide (Q _)); cbn [fmap list_fmap]; rewrite ?IH; try done; tauto.
Qed.

Lemma elements_filter_set (P : Z -> Prop) `{!forall x, Decision (P x)} (c : gset Z) : elements (filter P c) ≡ₚ filter P (elements c).
Proof.
  apply NoDup_Permutation; [apply NoDup_elements|apply list.NoDup_filter, NoDup_elements|]. intros x.
  rewrite elem_of_elements, elem_of_filter, list_elem_of_filter, elem_of_elements. done.
Qed.

Lemma filter_every {A} (P : A -> Prop) `{!forall x, Decision (P x)} (l : list A) : Forall P l -> filter P l = l.
Proof. induction 1 as [|x l Hx _ IH]; [done|]. by rewrite filter_cons_True, IH. Qed.

(** What the system promises in a round: [accept] returns a new descriptor,
    and the requests are fine. *)
Definition promise (l : Z) (k : round_env) (c : gset Z) : Prop :=
  (client_fd (sys k) ∉ c) /\ client_fd (sys k) <> l /\ fine_requests handle (sys k).
Fixpoint promises (l : Z) (ks : list round_env) (c : gset Z) : Prop :=
  match ks with [] => True | k :: ks => promise l k c /\ promises l ks (next_conns l (sys k) c) end.

(** The listening descriptor and the connections are those in the array. *)
Definition holds (l : Z) (c : gset Z) (s : server) : Prop := p_fd <$> live s ≡ₚ l :: elements c.

Lemma sweep_run k l c s rest extra (D : server -> Prop) :
  (forall s', round_fails k -> D s') -> fine_requests handle (sys k) ->
  server_ok l s -> drop 1 (live s) = (poll_entry (base (sys k)) <$> rest) ++ extra ->
  Forall (fun p => 0 <= p_fd p /\ p_events p = POLLIN) rest -> Forall (fun p => p_revents p = 0) extra ->
  p_fd <$> rest ≡ₚ elements c ->
  wpd (serve_loop handle k (Z.to_nat (numfd s - 1)) 1) (fun _ s' => server_ok l s' /\
    (exists order, order.*1 ≡ₚ elements (stirring (sys k) c) /\ evs s' = evs s ++ concat ((fun p => tend (sys k) p.1 p.2) <$> order)) /\
    p_fd <$> live s' ≡ₚ l :: elements (staying (sys k) c) ++ (p_fd <$> extra)) D s.
Proof.
  intros HD Hfine H Hl Hrest Hextra Hc. pose proof (ok_numfd _ _ H) as Hn.
  assert (Hidle : forall p, p ∈ extra -> ~ active p).
  { intros p Hp A. unfold active in A. rewrite (proj1 (list.Forall_forall _ _) Hextra p Hp) in A. by rewrite Z.land_0_l in A. }
  eapply wpd_mono; [apply (op_serve_loop_run k l _ 1 s D HD Hfine H); [done|lia|]|].
  { rewrite Hl. apply list.Forall_app. split.
    - apply Forall_fmap. eapply Forall_impl; [|exact Hrest]. intros p [H1 H2]. right. exact (poll_entry_reports (base (sys k)) p H2 H1).
    - eapply Forall_impl; [|exact Hextra]. by left. }
  intros ? s' (H' & (order & O & E) & L). split; [done|]. rewrite Hl in O, L. rewrite list.filter_app in O, L. split.
  - exists order. split; [|done]. rewrite O, fmap_app.
    rewrite (polled_fds _ rest active (stirs (sys k)) Hrest) by (intros p []; by apply poll_entry_active).
    assert (filter active extra = []) as ->.
    { destruct (filter active extra) as [|p q] eqn:F; [done|]. assert (Hp : p ∈ filter active extra) by (rewrite F; by left).
      apply list_elem_of_filter in Hp as [A Hp]. by destruct (Hidle p Hp). }
    unfold stirring. by rewrite app_nil_r, Hc, elements_filter_set.
  - rewrite L, !fmap_app.
    rewrite (polled_fds _ rest _ (fun fd => ~ (stirs (sys k) fd /\ departs (sys k) fd)) Hrest)
      by (intros p []; rewrite poll_entry_active by done; done).
    rewrite (filter_every _ extra).
    2:{ apply list.Forall_forall. intros p Hp [A _]. by apply (Hidle p). }
    assert (E1 : p_fd <$> take 1 (live s) = [l]).
    { pose proof (ok_head _ _ H) as Hh. unfold live. destruct (pollfds s) as [|p0 pf]; [done|].
      destruct (Z.to_nat (numfd s)) eqn:?; [lia|]. injection Hh as <-. cbn. by rewrite take_0. }
    unfold staying. by rewrite E1, Hc, elements_filter_set.
Qed.

Lemma op_round_run l c k s (D : server -> Prop) :
  0 <= l -> server_ok l s -> holds l c s -> promise l k c -> (forall s', round_fails k -> D s') ->
  wpd (round handle k) (fun _ s' => server_ok l s' /\ holds l (next_conns l (sys k) c) s' /\
    exists order, order.*1 ≡ₚ elements (stirring (sys k) c) /\
      evs s' = evs s ++ arrival l (sys k) ++ concat ((fun p => tend (sys k) p.1 p.2) <$> order)) D s.
Proof.
  intros Hl H Hc (Hnew & Hnl & Hfine) HD. unfold round, holds in *.
  apply wpd_bind, wpd_die_if; [intros ?; apply HD; left; left; by left|]. intros _. apply wpd_bind, wpd_gets, wpd_bind.
  destruct (op_poll_run l (base (sys k)) s H) as (s1 & Ep & H1 & L1 & <-). unfold wpd at 1. rewrite Ep. clear Ep.
  pose proof (ok_head _ _ H1) as Hh. destruct (pollfds s1) as [|p0 pf] eqn:Epf; [done|]. cbn in Hh.
  assert (exists q0 rest, live s = q0 :: rest /\ p0 = poll_entry (base (sys k)) q0) as (q0 & rest & Eq & E0).
  { pose proof (live_length _ _ H1) as Hlen. pose proof (ok_numfd _ _ H1). destruct (live s) as [|q0 rest]; [rewrite L1 in Hlen; cbn in Hlen; lia|].
    exists q0, rest. split; [done|]. unfold live in L1. rewrite Epf in L1. destruct (Z.to_nat (numfd s1)); [done|]. by injection L1. }
  pose proof (ok_live _ _ H) as Hlive. rewrite Eq in Hlive, Hc, L1. apply list.Forall_cons in Hlive as [[Hq1 Hq2] Hrest].
  assert (Eq0 : p_fd q0 = l) by (rewrite E0 in Hh; by injection Hh).
  assert (Hcr : p_fd <$> rest ≡ₚ elements c) by (cbn in Hc; rewrite Eq0 in Hc; by apply Permutation.Permutation_cons_inv in Hc).
  apply wpd_bind. change 0 with (Z.of_nat 0) at 1. apply (wpd_pollfd_at D _ _ p0); [by rewrite Epf|]. apply wpd_bind.
  assert (Hk : Z.land (p_revents p0) POLLIN <> 0 <-> knocks (sys k) l).
  { unfold knocks. rewrite <-Eq0, <-(mask_land (base (sys k))), E0, poll_entry_reports by done. done. }
  unfold arrival, next_conns. destruct (Z.eqb_spec (Z.land (p_revents p0) POLLIN) 0) as [Hz|Hz]; cbn [negb].
  - rewrite decide_False by tauto. apply wpd_ret, wpd_bind, wpd_gets. rewrite decide_False by tauto.
    eapply wpd_mono; [apply (sweep_run k l c s1 rest [] D); try done; by rewrite L1, app_nil_r|].
    intros ? s' (H' & O & L). rewrite app_nil_r in L. rewrite union_empty_r_L. done.
  - rewrite decide_True by tauto. rewrite decide_True by tauto.
    assert (Hfresh : client_fd (sys k) ∉ p_fd <$> live s1).
    { rewrite L1. cbn. rewrite elem_of_cons, <-list_fmap_compose. change (p_fd ∘ poll_entry _) with p_fd.
      rewrite Hcr, elem_of_elements, Eq0. tauto. }
    eapply wpd_mono; [by apply (accept_client_run k l s1)|]. intros ? s2 (H2 & E2 & L2). apply wpd_bind, wpd_gets.
    eapply wpd_mono; [apply (sweep_run k l c s2 rest [Pollfd (client_fd (sys k)) POLLIN 0] D); try done|].
    + by rewrite L2, L1.
    + by repeat constructor.
    + intros ? s' (H' & (order & O & E) & L). split; [done|]. split.
      * rewrite L. cbn. constructor. rewrite elements_disj_union, elements_singleton; [done|].
        unfold staying. apply disjoint_singleton_r. rewrite elem_of_filter. tauto.
      * exists order. split; [done|]. by rewrite E, E2, <-app_assoc.
Qed.

Fixpoint conns_after (l : Z) (ks : list system) (c : gset Z) : gset Z :=
  match ks with [] => c | k :: ks => conns_after l ks (next_conns l k c) end.

Lemma rounds_run l ks c s :
  0 <= l -> server_ok l s -> holds l c s -> promises l ks c ->
  wpd (rounds handle ks) (fun _ s' => server_ok l s' /\ holds l (conns_after l (sys <$> ks) c) s' /\
    exists tr, tends l (sys <$> ks) c tr /\ evs s' = evs s ++ tr) (fun _ => Exists round_fails ks) s.
Proof.
  intros Hl. revert c s. induction ks as [|k ks IH]; intros c s H Hc Hks; cbn [rounds].
  { apply wpd_ret. split; [done|]. split; [done|]. exists []. split; [constructor|by rewrite app_nil_r]. }
  destruct Hks as [Hk Hks]. apply wpd_bind.
  eapply wpd_mono; [apply (op_round_run l c k s); try done; intros; by apply Exists_cons_hd|].
  intros ? s1 (H1 & Hc1 & order & O & E1). eapply wpd_conseq; [by apply (IH (next_conns l (sys k) c) s1)| |intros; by apply Exists_cons_tl].
  intros ? s2 (H2 & Hc2 & tr & T & E2). split; [done|]. split; [done|]. eexists. split; [by apply tends_round|].
  by rewrite E2, E1, <-!app_assoc.
Qed.
End rounds.

(** * The theorem *)

(** C22: Against any handler of requests that returns, loop.poll.c behaves as
    the abstract server on poll: each round takes the connection that waits,
    closes each client that hung up or has nothing more to say, and gives
    every other client's request to the handler; packing the array while it is
    swept neither skips nor repeats a client.  The array holds the listening
    descriptor and exactly the open connections, and the table of clients the
    same descriptors.  Until the first client leaves, a request is handled
    with the identity its client was accepted with.  A run ends only because a
    call failed. *)
Theorem poll_loop_tends handle `{!Handler handle} l m pm d junk ks :
  0 <= l -> length junk = MAXLINE -> h_inv d -> promises handle l ks ∅ ->
  wpd (loop handle l m pm ks)
    (fun _ s => tends l (sys <$> ks) ∅ (evs s) /\ honest (evs s) ∅ /\
       p_fd <$> live s ≡ₚ l :: elements (conns_after l (sys <$> ks) ∅) /\ used (entries (tbl s)) ≡ₚ p_fd <$> live s)
    (fun _ => alloc_ok m = false \/ p_ok pm = false \/ Exists round_fails ks) (start d junk).
Proof.
  intros Hl Hj Hd Hks. apply wpd_bind. eapply wpd_mono; [apply (setup_run handle l m pm d junk); try done; tauto|].
  intros ? s (H & Hc & He). eapply wpd_conseq; [apply (rounds_run handle l ks ∅ s); try done| |tauto].
  { unfold holds. by rewrite Hc. }
  intros ? s' (H' & Hc' & tr & T & E). rewrite He in E. cbn in E. subst tr. split_and!; [done|apply H'|done|apply H'].
Qed.

Lemma demo_fine ev fd uid rd :
  Forall (fun p => p.2 = [] \/ h_fine (take MAXLINE p.2)) rd -> fine_requests demo_handler (sys (demo_round ev fd uid rd)).
Proof.
  intros H f d. cbn. destruct (list_find _ rd) as [[i [f' d']]|] eqn:E; [|by intros [= <-]].
  intros [= <-] Hne. apply list_find_Some in E as (E & _ & _). pose proof (Forall_lookup_1 _ _ _ _ H E) as [?|?]; done.
Qed.

Lemma op_demo_promise c ev fd uid rd :
  bool_decide (fd ∉ c) = true -> fd <> 3 -> Forall (fun p => p.2 = [] \/ h_fine (take MAXLINE p.2)) rd ->
  promise demo_handler 3 (demo_round ev fd uid rd) c.
Proof. intros ?%bool_decide_eq_true ??. split_and!; [done..|by apply demo_fine]. Qed.

Lemma op_demo_promises : promises demo_handler 3 demo ∅.
Proof.
  assert (F : h_fine (take MAXLINE (str "open /etc/motd 0" ++ [0]))) by (intros old uid _; vm_compute; exact I).
  unfold demo. cbn [promises].
  repeat (apply conj; [apply op_demo_promise; [vm_compute; reflexivity|done|]|]); [..|exact I];
    repeat apply list.Forall_cons_2; try apply list.Forall_nil_2; cbn [snd]; right; exact F.
Qed.

Lemma op_poll_demo_returns :
  returns (loop demo_handler 3 demo_memory demo_pmemory demo) (start demo_daemon (replicate MAXLINE 0)) = true.
Proof. vm_compute. reflexivity. Qed.

Lemma poll_loop_tends_witness :
  exists s, loop demo_handler 3 demo_memory demo_pmemory demo (start demo_daemon (replicate MAXLINE 0)) = Ret tt s /\
    tends 3 (sys <$> demo) ∅ (evs s).
Proof.
  assert (D : h_inv demo_daemon).
  { split; [apply demo_daemon_ok|]. split; [apply demo_daemon_ok|]. vm_compute. reflexivity. }
  pose proof (poll_loop_tends demo_handler 3 demo_memory demo_pmemory demo_daemon (replicate MAXLINE 0) demo ltac:(done)
    ltac:(by rewrite length_replicate) D op_demo_promises) as W.
  pose proof (wpd_returns _ _ _ _ W) as V.
  specialize (V op_poll_demo_returns).
  destruct V as ([] & s & E & V).
  exists s.
  split; [exact E|].
  exact (proj1 V).
Defined.
