(* ===== verification/Ftw.v ===== *)
(** apue.3e/filedir/ftw8.c: the walk of a file hierarchy with one growing path
    buffer, and the program that counts the types of files. *)
From Stdlib Require Import ZArith Lia.
From stdpp Require Import base list strings numbers.
From S2P Require Import Prelude CString CFile.
Local Open Scope c_scope.

Definition NAME_MAX : Z := 255.
Definition INT_MAX : Z := 2 ^ 31 - 1.
Definition c_slash : Z := 47.

Definition FTW_F : Z := 1.
Definition FTW_D : Z := 2.
Definition FTW_DNR : Z := 3.
Definition FTW_NS : Z := 4.

(** [st_mode & S_IFMT]. *)
Inductive ftype := S_IFREG | S_IFDIR | S_IFBLK | S_IFCHR | S_IFIFO | S_IFLNK | S_IFSOCK | S_other.
#[export] Instance ftype_eq_dec : EqDecision ftype.
Proof. solve_decision. Defined.

(** The file system during the walk: the type [lstat] finds for a path, and
    the names [readdir] returns for a directory that can be opened. *)
Record fsys := Fsys { lstat : bytes -> option ftype; opendir : bytes -> option (list bytes) }.

(** What [realloc] does: whether it finds room, and what the new bytes hold. *)
Record memory := Memory { realloc_ok : Z -> bool; fresh : nat -> Z }.

(** The globals of the walk, and the state of the function it calls. *)
Record walk (U : Type) := Walk { fullpath : bytes; pathlen : Z; user : U }.
Arguments Walk {U} fullpath pathlen user.
Arguments fullpath {U} w.
Arguments pathlen {U} w.
Arguments user {U} w.

Section walk.
Context {U : Type}.
Definition set_fullpath v (s : walk U) : walk U := Walk v (pathlen s) (user s).
Definition set_pathlen v (s : walk U) := Walk (fullpath s) v (user s).
Definition set_user (v : U) (s : walk U) : walk U := Walk (fullpath s) (pathlen s) v.

(** The string in the buffer. *)
Definition read_path : M (walk U) bytes := fun s =>
  if bool_decide (0 ∈ fullpath s) then Ret (cstr (fullpath s)) s else Undef "fullpath not terminated".
Definition put_char (i : nat) (c : Z) : M (walk U) unit := fun s =>
  if (i <? length (fullpath s))%nat then Ret tt (set_fullpath (<[i := c]> (fullpath s)) s) else Undef "fullpath[]".
Definition strcpy_at (i : nat) (t : bytes) : M (walk U) unit := fun s =>
  if (i + length t + 1 <=? length (fullpath s))%nat then Ret tt (set_fullpath (splice i (t ++ [0]) (fullpath s)) s)
  else Undef "strcpy".
Definition realloc (m : memory) (size : Z) : M (walk U) unit :=
  die_if (negb (realloc_ok m size)) "realloc failed";;;
  modify (fun s => set_fullpath (take (Z.to_nat size) (fullpath s) ++
    (fresh m <$> seq (length (fullpath s)) (Z.to_nat size - length (fullpath s)))) s).

Section dopath.
Context (fs : fsys) (m : memory) (func : bytes -> option ftype -> Z -> M U Z).

Definition call (path : bytes) (mode : option ftype) (type : Z) : M (walk U) Z := zoom user set_user (func path mode type).

Definition dot (name : bytes) : bool := streq name (str ".") || streq name (str "..").

(** The loop over [readdir], with the offset of the names. *)
Fixpoint entry_loop (dopath : M (walk U) Z) (n : nat) (names : list bytes) (r : Z) : M (walk U) Z :=
  match names with
  | [] => ret r
  | name :: names =>
    if dot name then entry_loop dopath n names r
    else
      strcpy_at n name;;;
      let* r := dopath in
      if negb (r =? 0) then ret r else entry_loop dopath n names r
  end.

(** [fuel] bounds the depth of the recursion. *)
Fixpoint dopath (fuel : nat) : M (walk U) Z :=
  match fuel with
  | O => nofuel
  | S fuel =>
    let* path := read_path in
    match lstat fs path with
    | None => call path None FTW_NS
    | Some mode =>
      if negb (bool_decide (mode = S_IFDIR)) then call path (Some mode) FTW_F
      else
        let* r := call path (Some mode) FTW_D in
        if negb (r =? 0) then ret r
        else
          let n := length path in
          (if INT_MAX - NAME_MAX - 2 <? Z.of_nat n then undef "n" else skip);;;
          let* len := gets pathlen in
          (if Z.of_nat n + NAME_MAX + 2 >? len then
             modify (set_pathlen (u64 (len * 2)));;;
             realloc m (u64 (len * 2))
           else skip);;;
          put_char n c_slash;;;
          put_char (S n) 0;;;
          let* path := read_path in
          match opendir fs path with
          | None => call path (Some mode) FTW_DNR
          | Some names =>
            let* r := entry_loop (dopath fuel) (S n) names r in
            put_char n 0;;;
            ret r
          end
    end
  end.

(** [path_alloc] returns a buffer of [size] bytes. *)
Definition myftw (fuel : nat) (size : Z) (pathname : bytes) : M (walk U) Z :=
  modify (fun s => set_fullpath (fresh m <$> seq 0 (Z.to_nat size)) (set_pathlen size s));;;
  (if size <=? Z.of_nat (length pathname) then
     modify (set_pathlen (u64 (Z.of_nat (length pathname) * 2)));;;
     realloc m (u64 (Z.of_nat (length pathname) * 2))
   else skip);;;
  strcpy_at 0 pathname;;;
  dopath fuel.
End dopath.
End walk.

(** * Counting *)

Record counts := Counts { nreg : Z; ndir : Z; nblk : Z; nchr : Z; nfifo : Z; nslink : Z; nsock : Z; ntot : Z }.
Definition no_counts : counts := Counts 0 0 0 0 0 0 0 0.
Definition set_nreg v c := Counts v (ndir c) (nblk c) (nchr c) (nfifo c) (nslink c) (nsock c) (ntot c).
Definition set_ndir v c := Counts (nreg c) v (nblk c) (nchr c) (nfifo c) (nslink c) (nsock c) (ntot c).
Definition set_nblk v c := Counts (nreg c) (ndir c) v (nchr c) (nfifo c) (nslink c) (nsock c) (ntot c).
Definition set_nchr v c := Counts (nreg c) (ndir c) (nblk c) v (nfifo c) (nslink c) (nsock c) (ntot c).
Definition set_nfifo v c := Counts (nreg c) (ndir c) (nblk c) (nchr c) v (nslink c) (nsock c) (ntot c).
Definition set_nslink v c := Counts (nreg c) (ndir c) (nblk c) (nchr c) (nfifo c) v (nsock c) (ntot c).
Definition set_nsock v c := Counts (nreg c) (ndir c) (nblk c) (nchr c) (nfifo c) (nslink c) v (ntot c).
Definition set_ntot v c := Counts (nreg c) (ndir c) (nblk c) (nchr c) (nfifo c) (nslink c) (nsock c) v.

(** [++] of a long. *)
Definition incr (get : counts -> Z) (set : Z -> counts -> counts) : M counts unit := fun c =>
  if get c <? LONG_MAX then Ret tt (set (get c + 1) c) else Undef "long overflow".

Definition myfunc (pathname : bytes) (mode : option ftype) (type : Z) : M counts Z :=
  (if type =? FTW_F then
     match mode with
     | Some S_IFREG => incr nreg set_nreg
     | Some S_IFBLK => incr nblk set_nblk
     | Some S_IFCHR => incr nchr set_nchr
     | Some S_IFIFO => incr nfifo set_nfifo
     | Some S_IFLNK => incr nslink set_nslink
     | Some S_IFSOCK => incr nsock set_nsock
     | Some S_IFDIR => die "for S_IFDIR"
     | Some S_other => skip
     | None => undef "statptr"
     end
   else if type =? FTW_D then incr ndir set_ndir
   else if (type =? FTW_DNR) || (type =? FTW_NS) then skip
   else die "unknown type");;;
  ret 0.

(** [main] with its one argument: the status of [exit]. *)
Definition ftw_main (fs : fsys) (m : memory) (fuel : nat) (size : Z) (arg : bytes) : M (walk counts) Z :=
  let* r := myftw fs m myfunc fuel size arg in
  let* c := gets user in
  let t := nreg c + ndir c + nblk c + nchr c + nfifo c + nslink c + nsock c in
  (if LONG_MAX <? t then undef "long overflow" else skip);;;
  modify (set_user (set_ntot (if t =? 0 then 1 else t) c));;;
  ret r.

(** * The reference: visits of a tree *)

(** A part of the hierarchy: a path that [lstat] does not know, a file, a
    directory that cannot be opened, a directory with its entries. *)
#[warnings="-register-all"]
Inductive tree := Missing | Leaf (mode : ftype) | Unreadable | Folder (es : list (bytes * tree)).

Record visit := Visit { v_path : bytes; v_mode : option ftype; v_type : Z }.

(** In which order, and with which paths, the hierarchy at [path] is visited. *)
Fixpoint visits (path : bytes) (t : tree) : list visit :=
  match t with
  | Missing => [Visit path None FTW_NS]
  | Leaf mode => [Visit path (Some mode) FTW_F]
  | Unreadable => [Visit path (Some S_IFDIR) FTW_D; Visit (path ++ [c_slash]) (Some S_IFDIR) FTW_DNR]
  | Folder es =>
    Visit path (Some S_IFDIR) FTW_D :: foldr (fun e vs => visits ((path ++ [c_slash]) ++ e.1) e.2 ++ vs) [] es
  end.

(** The function is called for each, until it returns something else than
    zero. *)
Fixpoint visit_all {U} (func : bytes -> option ftype -> Z -> M U Z) (vs : list visit) : M U Z :=
  match vs with
  | [] => ret 0
  | v :: vs =>
    let* r := func (v_path v) (v_mode v) (v_type v) in
    if r =? 0 then visit_all func vs else ret r
  end.

Fixpoint height (t : tree) : nat :=
  match t with Folder es => S (foldr (fun e h => Nat.max (height e.2) h) 0%nat es) | _ => 1%nat end.

(** What the kernel and the file system keep to: names are strings of a
    bounded length, and paths of a reasonable one. *)
Definition PATH_LIMIT : Z := 2 ^ 30.
Definition name_ok (name : bytes) : Prop := Forall (fun c => c <> 0) name /\ Z.of_nat (length name) <= NAME_MAX.

(** The file system shows a hierarchy at a path. *)
Fixpoint shows (fs : fsys) (path : bytes) (t : tree) : Prop :=
  Z.of_nat (length path) < PATH_LIMIT /\
  match t with
  | Missing => lstat fs path = None
  | Leaf mode => lstat fs path = Some mode /\ mode <> S_IFDIR
  | Unreadable => lstat fs path = Some S_IFDIR /\ opendir fs (path ++ [c_slash]) = None
  | Folder es =>
    lstat fs path = Some S_IFDIR /\
    (exists names, opendir fs (path ++ [c_slash]) = Some names /\ filter (fun n => dot n = false) names = es.*1) /\
    foldr (fun e P => name_ok e.1 /\ shows fs ((path ++ [c_slash]) ++ e.1) e.2 /\ P) True es
  end.

(** * The buffer *)

(** The buffer holds a path, has the size it is said to have, and room for a
    name. *)
Record holds {U} (path : bytes) (s : walk U) : Prop := {
  h_size : pathlen s = Z.of_nat (length (fullpath s));
  h_room : NAME_MAX + 2 <= pathlen s < 2 ^ 62;
  h_path : exists rest, fullpath s = path ++ 0 :: rest;
  h_nonul : Forall (fun c => c <> 0) path
}.
(** Only the first characters are known. *)
Definition keeps {U} (pre : bytes) (s : walk U) : Prop :=
  pathlen s = Z.of_nat (length (fullpath s)) /\ NAME_MAX + 2 <= pathlen s < 2 ^ 62 /\ exists rest, fullpath s = pre ++ rest.

(** The walk does to the state of the function what [o] does, and leaves the
    buffer as [Q] says. *)
Definition follows {U A} (o : outcome U A) (o' : outcome (walk U) A) (Q : walk U -> Prop) : Prop :=
  match o with
  | Ret a u => exists s, o' = Ret a s /\ user s = u /\ Q s
  | Died msg u => exists s, o' = Died msg s /\ user s = u
  | Undef why => o' = Undef why
  | NoFuel => o' = NoFuel
  end.

Section refine.
Context {U : Type}.

Lemma follows_bind {A B} (m : M U A) (k : A -> M U B) (m' : M (walk U) A) (k' : A -> M (walk U) B) (P Q : walk U -> Prop) s :
  follows (m (user s)) (m' s) P ->
  (forall a s', P s' -> follows (k a (user s')) (k' a s') Q) ->
  follows (bind m k (user s)) (bind m' k' s) Q.
Proof.
  unfold bind, follows at 1. intros H Hk. destruct (m (user s)) as [a u|msg u|why|].
  - destruct H as (s' & -> & <- & HP). by apply Hk.
  - destruct H as (s' & -> & Hu). cbn. eauto.
  - by rewrite H.
  - by rewrite H.
Qed.

Lemma follows_skip {A B} (m' : M (walk U) B) (k' : B -> M (walk U) A) (o : outcome U A) (P : B -> walk U -> Prop) (Q : walk U -> Prop) s :
  wp m' (fun b s' => P b s' /\ user s' = user s) s -> (forall b s', P b s' -> user s' = user s -> follows o (k' b s') Q) -> follows o (bind m' k' s) Q.
Proof. unfold wp, bind. destruct (m' s); try done. intros [HP Hu] H. by apply H. Qed.

Lemma follows_mono {A} (o : outcome U A) o' (P Q : walk U -> Prop) : follows o o' P -> (forall s, P s -> Q s) -> follows o o' Q.
Proof. unfold follows. destruct o; naive_solver. Qed.

Lemma read_path_run path (s : walk U) : holds path s -> wp read_path (fun p s' => (p = path /\ s' = s) /\ user s' = user s) s.
Proof.
  intros [_ _ [rest E] Hn]. unfold wp, read_path. rewrite bool_decide_true by (rewrite E; apply elem_of_app; right; left).
  rewrite E. by rewrite cstr_app_nul.
Qed.

Lemma put_char_run i c (s : walk U) : (i < length (fullpath s))%nat ->
  wp (put_char i c) (fun _ s' => s' = set_fullpath (<[i := c]> (fullpath s)) s /\ user s' = user s) s.
Proof. intros H. unfold wp, put_char. by rewrite (proj2 (Nat.ltb_lt _ _) H). Qed.

Lemma strcpy_at_run pre name (s : walk U) :
  keeps pre s -> Forall (fun c => c <> 0) (pre ++ name) -> (length pre + length name + 1 <= length (fullpath s))%nat ->
  wp (strcpy_at (length pre) name) (fun _ s' => (holds (pre ++ name) s' /\ length (fullpath s') = length (fullpath s)) /\ user s' = user s) s.
Proof.
  intros (H1 & H2 & rest & E) Hn Hl. unfold wp, strcpy_at. rewrite (proj2 (Nat.leb_le _ _) Hl).
  assert (Hlen : length (splice (length pre) (name ++ [0]) (fullpath s)) = length (fullpath s)).
  { apply splice_length. rewrite length_app. cbn. lia. }
  split; [split; [|done]|done]. constructor; cbn [fullpath pathlen set_fullpath]; try done; [by rewrite Hlen|].
  exists (drop (length name + 1) rest). unfold splice. rewrite E, take_app_length.
  rewrite drop_app_ge by lia. rewrite <-!app_assoc. cbn [app]. 
  replace (length pre - length (pre ++ rest))%nat with 0%nat by (rewrite length_app; lia). cbn [replicate app].
  do 4 f_equal. rewrite length_app. cbn. lia.
Qed.

Lemma realloc_run m size (s : walk U) : realloc_ok m size = true -> 0 <= size ->
  wp (realloc m size) (fun _ s' => (exists rest, fullpath s' = take (Z.to_nat size) (fullpath s) ++ rest /\
      length (fullpath s') = Z.to_nat size) /\ pathlen s' = pathlen s /\ user s' = user s) s.
Proof.
  intros Hok Hs. unfold realloc. apply wp_bind, wp_die_if; [by rewrite Hok|]. apply wp_modify. cbn. split; [|done].
  eexists. split; [done|]. rewrite length_app, length_take, length_fmap, length_seq. lia.
Qed.
End refine.

(** * The walk visits the tree *)

Definition kept {U} (pre : bytes) (n : nat) (s : walk U) : Prop := keeps pre s /\ (n <= length (fullpath s))%nat.

Lemma keeps_prefix {U} a b (s : walk U) : keeps (a ++ b) s -> keeps a s.
Proof. intros (H1 & H2 & rest & E). split_and!; try done; try lia. exists (b ++ rest). by rewrite E, app_assoc. Qed.
Lemma holds_keeps {U} path (s : walk U) : holds path s -> keeps path s.
Proof. intros [H1 H2 [rest E] _]. split_and!; try done; try lia. by eexists. Qed.

Section visits.
Context {U : Type} (fs : fsys) (m : memory) (func : bytes -> option ftype -> Z -> M U Z).
Hypothesis mem_ok : forall size, realloc_ok m size = true.

Lemma visit_all_app vs1 vs2 u :
  visit_all func (vs1 ++ vs2) u = bind (visit_all func vs1) (fun r => if r =? 0 then visit_all func vs2 else ret r) u.
Proof.
  revert u. induction vs1 as [|v vs1 IH]; intros u; [done|]. cbn [app visit_all]. rewrite bind_assoc. unfold bind at 1 2.
  destruct (func _ _ _ u) as [r u'| | |]; try done. destruct (Z.eqb_spec r 0) as [->|Hr]; [apply IH|].
  unfold bind, ret. by rewrite (proj2 (Z.eqb_neq r 0) Hr).
Qed.

Lemma visit_all_cons v vs u : visit_all func (v :: vs) u =
  bind (func (v_path v) (v_mode v) (v_type v)) (fun r => if r =? 0 then visit_all func vs else ret r) u.
Proof. done. Qed.

Lemma visit_all_one v u : visit_all func [v] u = func (v_path v) (v_mode v) (v_type v) u.
Proof. cbn. unfold bind. destruct (func _ _ _ u) as [r u'| | |]; try done. by destruct (Z.eqb_spec r 0) as [->|]. Qed.

Lemma call_run path mode type (s : walk U) :
  follows (func path mode type (user s)) (call func path mode type s)
    (fun s' => fullpath s' = fullpath s /\ pathlen s' = pathlen s).
Proof. unfold call, zoom, follows. destruct (func _ _ _ _); eauto. Qed.

Lemma holds_same path (s s' : walk U) : holds path s -> fullpath s' = fullpath s -> pathlen s' = pathlen s -> holds path s'.
Proof. intros [] E1 E2. constructor; by rewrite ?E1, ?E2. Qed.

(** Making room for a name. *)
Lemma grow_run path (s : walk U) : holds path s -> Z.of_nat (length path) < PATH_LIMIT ->
  wp (if Z.of_nat (length path) + NAME_MAX + 2 >? pathlen s then
        modify (set_pathlen (u64 (pathlen s * 2)));;; realloc m (u64 (pathlen s * 2)) else skip)
    (fun _ s' => (holds path s' /\ Z.of_nat (length path) + NAME_MAX + 2 <= pathlen s' /\ (length (fullpath s) <= length (fullpath s'))%nat) /\
       user s' = user s) s.
Proof.
  intros H Hlim. destruct H as [H1 H2 [rest E] H4]. unfold PATH_LIMIT, NAME_MAX in *.
  assert (Hle : (length path + 1 <= length (fullpath s))%nat) by (rewrite E, length_app; cbn; lia).
  destruct (Z.of_nat (length path) + 255 + 2 >? pathlen s) eqn:Hc.
  - assert (Hu : u64 (pathlen s * 2) = pathlen s * 2) by (apply wrapu_small; lia). rewrite Hu.
    apply wp_bind, wp_modify. eapply wp_mono; [apply realloc_run; [done|lia]|].
    intros ? s' ((r2 & E2 & L2) & P2 & U2). cbn [pathlen fullpath set_pathlen user] in *.
    split; [|done]. split; [|lia]. constructor; unfold NAME_MAX; try done; try lia.
    exists (rest ++ r2). rewrite E2, take_ge by lia. by rewrite E, <-app_assoc.
  - apply wp_ret. split; [|done]. split; [|lia]. by constructor; [|unfold NAME_MAX|exists rest|].
Qed.

(** Appending the slash. *)
Lemma slash_run path (s : walk U) : holds path s -> Z.of_nat (length path) + NAME_MAX + 2 <= pathlen s ->
  wp (put_char (length path) c_slash;;; put_char (S (length path)) 0)
    (fun _ s' => (holds (path ++ [c_slash]) s' /\ length (fullpath s') = length (fullpath s)) /\ user s' = user s) s.
Proof.
  intros [H1 H2 [rest E] H4] Hr. unfold NAME_MAX in *. apply wp_bind. eapply wp_mono; [apply put_char_run; lia|].
  intros ? s1 [-> _]. eapply wp_mono; [apply put_char_run; cbn; rewrite length_insert; lia|].
  intros ? s2 [-> _]. cbn [fullpath set_fullpath user]. split; [|done]. split; [|by rewrite !length_insert].
  destruct rest as [|c rest]; [rewrite E, length_app in H1; cbn in H1; lia|].
  constructor; cbn [fullpath set_fullpath pathlen]; unfold NAME_MAX; try done; [by rewrite !length_insert| |].
  - exists rest. rewrite E, insert_app_r_alt by lia. rewrite Nat.sub_diag. cbn [insert list_insert].
    rewrite insert_app_r_alt by lia. replace (S (length path) - length path)%nat with 1%nat by lia. cbn. by rewrite <-app_assoc.
  - apply list.Forall_app. split; [done|]. by repeat constructor.
Qed.

Definition walks (fuel : nat) : Prop := forall path t (s : walk U),
  holds path s -> shows fs path t -> (height t <= fuel)%nat ->
  follows (visit_all func (visits path t) (user s)) (dopath fs m func fuel s) (kept path (length (fullpath s))).

Lemma entry_loop_run fuel pre es names n (s : walk U) :
  walks fuel -> kept pre n s -> Forall (fun c => c <> 0) pre -> Z.of_nat (length pre) + NAME_MAX + 1 <= Z.of_nat n ->
  filter (fun n => dot n = false) names = es.*1 ->
  foldr (fun e P => name_ok e.1 /\ shows fs (pre ++ e.1) e.2 /\ P) True es ->
  Forall (fun e => (height e.2 <= fuel)%nat) es ->
  follows (visit_all func (foldr (fun e vs => visits (pre ++ e.1) e.2 ++ vs) [] es) (user s))
    (entry_loop (dopath fs m func fuel) (length pre) names 0 s) (kept pre n).
Proof.
  intros IH. revert es s. induction names as [|name names IHn]; intros es s Hk Hpre Hroom Hf Hes Hh.
  { destruct es; [|done]. by exists s. }
  rewrite filter_cons in Hf. cbn [entry_loop]. destruct (dot name) eqn:Hd.
  { rewrite decide_False in Hf by done. by apply IHn. }
  rewrite decide_True in Hf by done. destruct es as [|[name' t] es]; [done|]. injection Hf as -> Hf.
  cbn [foldr fst snd] in *. destruct Hes as ([Hn1 Hn2] & Ht & Hes). apply list.Forall_cons in Hh as [Hh1 Hh2].
  destruct Hk as [Hk Hlen]. rewrite visit_all_app.
  eapply follows_skip; [apply strcpy_at_run; [done|by apply list.Forall_app|lia]|]. intros ? s1 [H1 L1] <-.
  eapply follows_bind; [by apply IH|]. intros r s2 [H2 L2]. cbn [negb].
  destruct (Z.eqb_spec r 0) as [->|Hr]; cbn [negb].
  - apply IHn; try done. split; [by apply keeps_prefix in H2|lia].
  - exists s2. split_and!; [done|done|]. split; [by apply keeps_prefix in H2|lia].
Qed.

Lemma heights_le es n : (foldr (fun (e : bytes * tree) h => Nat.max (height e.2) h) 0%nat es <= n)%nat ->
  Forall (fun e => (height e.2 <= n)%nat) es.
Proof. induction es as [|e es IH]; cbn; constructor; [lia|apply IH; lia]. Qed.

Lemma bind_ret_r {S A} (p : M S A) s : bind p ret s = p s.
Proof. unfold bind. by destruct (p s). Qed.

(** Between the call for a directory and [opendir]. *)
Lemma enter_run {A} path (s : walk U) (o : outcome U A) (k : bytes -> M (walk U) A) (Q : walk U -> Prop) :
  holds path s -> Z.of_nat (length path) < PATH_LIMIT ->
  (forall s', holds (path ++ [c_slash]) s' -> Z.of_nat (length path) + NAME_MAX + 2 <= pathlen s' ->
     (length (fullpath s) <= length (fullpath s'))%nat -> user s' = user s -> follows o (k (path ++ [c_slash]) s') Q) ->
  follows o
    (((if INT_MAX - NAME_MAX - 2 <? Z.of_nat (length path) then undef "n" else skip);;;
      let* len := gets pathlen in
      (if Z.of_nat (length path) + NAME_MAX + 2 >? len then
         modify (set_pathlen (u64 (len * 2)));;;
         realloc m (u64 (len * 2))
       else skip);;;
      put_char (length path) c_slash;;;
      put_char (S (length path)) 0;;;
      let* path := read_path in
      k path) s) Q.
Proof.
  intros H Hlim Hk. replace (INT_MAX - NAME_MAX - 2 <? Z.of_nat (length path)) with false by (unfold PATH_LIMIT, INT_MAX, NAME_MAX in *; lia).
  change ((skip;;; ?k) s) with (k s). rewrite bind_gets.
  eapply follows_skip; [by apply grow_run|]. intros ? s1 (H1 & R1 & L1) U1.
  rewrite <-bind_assoc. eapply follows_skip; [by apply slash_run|]. intros ? s2 [H2 L2] U2.
  eapply follows_skip; [by apply read_path_run|]. intros ? ? [-> ->] _. apply Hk; [done| |lia|congruence].
  rewrite (h_size _ _ H2), L2, <-(h_size _ _ H1). done.
Qed.

Lemma dopath_run fuel : walks fuel.
Proof.
  induction fuel as [|fuel IH]; intros path t s H Hs Hf; [destruct t; cbn in Hf; lia|].
  cbn [dopath]. eapply follows_skip; [by apply read_path_run|]. intros ? ? [-> ->] _.
  assert (Hsame : forall s' : walk U, fullpath s' = fullpath s /\ pathlen s' = pathlen s -> kept path (length (fullpath s)) s').
  { intros s' [E1 E2]. split; [by apply holds_keeps, (holds_same _ s)|by rewrite E1]. }
  destruct t as [|mode| |es]; cbn [shows visits height] in Hs, Hf |- *.
  - destruct Hs as [_ ->]. rewrite visit_all_one. eapply follows_mono; [apply call_run|done].
  - destruct Hs as (_ & -> & Hd). rewrite bool_decide_false by done. rewrite visit_all_one. eapply follows_mono; [apply call_run|done].
  - destruct Hs as (Hlim & -> & Ho). rewrite bool_decide_true by done. cbn [negb].
    rewrite visit_all_cons. eapply follows_bind; [apply call_run|]. intros r s1 [E1 E2].
    destruct (Z.eqb_spec r 0) as [->|Hr]; cbn [negb]; [|exists s1; split_and!; [done..|by apply Hsame]].
    apply enter_run; [by apply (holds_same _ s)|done|]. intros s2 H2 _ L2 <-. rewrite Ho, visit_all_one.
    eapply follows_mono; [apply call_run|]. intros s3 [F1 F2].
    split; [apply (keeps_prefix _ [c_slash]), holds_keeps, (holds_same _ s2); done|]. rewrite F1, <-E1. done.
  - destruct Hs as (Hlim & -> & (names & Ho & Hnames) & Hes). rewrite bool_decide_true by done. cbn [negb].
    rewrite visit_all_cons. eapply follows_bind; [apply call_run|]. intros r s1 [E1 E2].
    destruct (Z.eqb_spec r 0) as [->|Hr]; cbn [negb]; [|exists s1; split_and!; [done..|by apply Hsame]].
    apply enter_run; [by apply (holds_same _ s)|done|]. intros s2 H2 R2 L2 <-. rewrite Ho.
    rewrite <-bind_ret_r. replace (S (length path)) with (length (path ++ [c_slash])) by (rewrite length_app; cbn; lia).
    eapply follows_bind.
    + apply (entry_loop_run fuel (path ++ [c_slash]) es names (length (fullpath s2)) s2); try done.
      * split; [by apply holds_keeps|done].
      * apply H2.
      * rewrite <-(h_size _ _ H2), length_app. cbn. unfold NAME_MAX in *. lia.
      * apply heights_le. lia.
    + intros r s3 [H3 L3]. apply keeps_prefix in H3. destruct H3 as (K1 & K2 & rest & K3).
      eapply follows_skip; [apply put_char_run; pose proof (h_size _ _ H2); unfold NAME_MAX in *; lia|].
      intros ? s4 -> _. eexists. split_and!; [done..|]. split.
      * split; [cbn; by rewrite length_insert|]. split; [done|]. cbn. rewrite K3. exists (<[0%nat := 0]> rest).
        by rewrite insert_app_r_alt, Nat.sub_diag.
      * cbn. rewrite length_insert. rewrite <-E1. lia.
Qed.
End visits.

(** * The program *)

Lemma myftw_run {U} (fs : fsys) (m : memory) (func : bytes -> option ftype -> Z -> M U Z) fuel size pathname t (s : walk U) :
  (forall n, realloc_ok m n = true) -> NAME_MAX + 2 <= size < 2 ^ 62 ->
  Forall (fun c => c <> 0) pathname -> shows fs pathname t -> (height t <= fuel)%nat ->
  follows (visit_all func (visits pathname t) (user s)) (myftw fs m func fuel size pathname s) (fun _ => True).
Proof.
  intros Hm Hsize Hn Hs Hf. unfold myftw. rewrite bind_modify. set (s0 := set_fullpath _ _).
  assert (Hlim : Z.of_nat (length pathname) < PATH_LIMIT) by (destruct t; apply Hs).
  assert (H0 : length (fullpath s0) = Z.to_nat size) by (cbn; by rewrite length_fmap, length_seq).
  change (user s) with (user s0). change size with (pathlen s0) in Hsize, H0 |- *. clearbody s0.
  eapply (follows_skip _ _ _ (fun _ s1 => keeps [] s1 /\ (length pathname + 1 <= length (fullpath s1))%nat)).
  - unfold PATH_LIMIT, NAME_MAX in *. destruct (Z.leb_spec (pathlen s0) (Z.of_nat (length pathname))).
    + assert (Hu : u64 (Z.of_nat (length pathname) * 2) = Z.of_nat (length pathname) * 2) by (apply wrapu_small; lia).
      rewrite Hu. apply wp_bind, wp_modify. eapply wp_mono; [apply realloc_run; [done|lia]|].
      intros ? s1 ((r & E & L) & P & Us). cbn [pathlen set_pathlen user] in *. split; [|done]. split; [|lia].
      split; [lia|]. split; [unfold NAME_MAX; lia|]. by eexists.
    + apply wp_ret. split; [|done]. split; [|lia]. split; [lia|]. split; [unfold NAME_MAX; lia|]. by eexists.
  - intros ? s1 [K L] <-. eapply follows_skip; [by apply (strcpy_at_run [])|].
    intros ? s2 [H2 _] <-. eapply follows_mono; [by apply (dopath_run fs m func Hm fuel)|done].
Qed.

(** C33: ftw8.c's walk calls the function on exactly the visits of the
    hierarchy, a directory before its entries and the entries in the order of
    the directory, with the right path each time, until the function returns
    something else than zero, which it returns; whatever the function does
    (die included), the walk does.  The path buffer is never overrun, for any
    depth and any length of names. *)
Theorem ftw_visits {U} (fs : fsys) (m : memory) (func : bytes -> option ftype -> Z -> M U Z) fuel size pathname t (s : walk U) :
  (forall n, realloc_ok m n = true) -> NAME_MAX + 2 <= size < 2 ^ 62 ->
  Forall (fun c => c <> 0) pathname -> shows fs pathname t -> (height t <= fuel)%nat ->
  follows (visit_all func (visits pathname t) (user s)) (myftw fs m func fuel size pathname s) (fun _ => True).
Proof. apply myftw_run. Qed.

(** How many files of a type the hierarchy has. *)
Definition is_type (type : Z) (mode : ftype) (v : visit) : bool :=
  (v_type v =? type) && bool_decide (v_mode v = Some mode).
Definition tally (type : Z) (mode : ftype) (vs : list visit) : Z := Z.of_nat (length (filter (fun v => is_type type mode v = true) vs)).
Definition totals (vs : list visit) : counts :=
  Counts (tally FTW_F S_IFREG vs) (tally FTW_D S_IFDIR vs) (tally FTW_F S_IFBLK vs) (tally FTW_F S_IFCHR vs)
    (tally FTW_F S_IFIFO vs) (tally FTW_F S_IFLNK vs) (tally FTW_F S_IFSOCK vs) 0.
Definition plus (a b : counts) : counts :=
  Counts (nreg a + nreg b) (ndir a + ndir b) (nblk a + nblk b) (nchr a + nchr b) (nfifo a + nfifo b)
    (nslink a + nslink b) (nsock a + nsock b) (ntot a + ntot b).

(** What the walk produces: types and modes that belong together. *)
Definition regular (v : visit) : Prop :=
  (v_type v = FTW_F /\ exists mode, v_mode v = Some mode /\ mode <> S_IFDIR) \/
  (v_type v = FTW_D /\ v_mode v = Some S_IFDIR) \/ v_type v = FTW_DNR \/ v_type v = FTW_NS.
Definition small (c : counts) (n : Z) : Prop :=
  nreg c + n <= LONG_MAX /\ ndir c + n <= LONG_MAX /\ nblk c + n <= LONG_MAX /\ nchr c + n <= LONG_MAX /\
  nfifo c + n <= LONG_MAX /\ nslink c + n <= LONG_MAX /\ nsock c + n <= LONG_MAX.

Lemma tally_cons type mode v vs : tally type mode (v :: vs) = (if is_type type mode v then 1 else 0) + tally type mode vs.
Proof. unfold tally. rewrite filter_cons. destruct (is_type type mode v); [rewrite decide_True by done; cbn; lia|by rewrite decide_False]. Qed.

Lemma myfunc_run v c : regular v -> small c 1 -> myfunc (v_path v) (v_mode v) (v_type v) c = Ret 0 (plus c (totals [v])).
Proof.
  destruct v as [p mode type], c. unfold small, regular. cbn [v_type v_mode v_path nreg ndir nblk nchr nfifo nslink nsock].
  intros H (H1 & H2 & H3 & H4 & H5 & H6 & H7).
  destruct H as [(-> & md & -> & Hd)|[[-> ->]|[->| ->]]]; unfold myfunc, bind, incr, plus, totals;
    [destruct md; try done| | |]; cbn; rewrite ?(proj2 (Z.ltb_lt _ _)) by (cbn; lia); cbn; rewrite ?Z.add_0_r; done.
Qed.

Lemma visits_regular fs path t : shows fs path t -> Forall regular (visits path t).
Proof.
  remember (height t) as n eqn:E. assert (Hn : (height t <= n)%nat) by lia. clear E.
  revert path t Hn. induction n as [|n IH]; intros path [|mode| |es] Hn; cbn [height shows visits] in *; try lia.
  - intros _. constructor; [|constructor]. by right; right; right.
  - intros (_ & _ & Hd). constructor; [|constructor]. left. cbn. eauto.
  - intros _. constructor; [by right; left|constructor; [by right; right; left|constructor]].
  - intros (_ & _ & _ & Hes). constructor; [by right; left|]. apply le_S_n in Hn.
    induction es as [|e es IHes]; [constructor|]. cbn [foldr] in *. destruct Hes as (_ & Ht & Hes).
    apply list.Forall_app. split; [apply IH; [lia|done]|apply IHes; [lia|done]].
Qed.

Lemma plus_totals c v vs : plus (plus c (totals [v])) (totals vs) = plus c (totals (v :: vs)).
Proof.
  unfold plus, totals. cbn [nreg ndir nblk nchr nfifo nslink nsock ntot]. rewrite !(tally_cons _ _ v vs), !(tally_cons _ _ v []).
  f_equal; unfold tally; cbn [filter list_filter length]; lia.
Qed.

Lemma tally_bound type mode v : 0 <= tally type mode [v] <= 1.
Proof. rewrite tally_cons. change (tally type mode []) with 0. destruct (is_type type mode v); lia. Qed.

Lemma visit_all_count vs c : Forall regular vs -> small c (Z.of_nat (length vs)) ->
  visit_all myfunc vs c = Ret 0 (plus c (totals vs)).
Proof.
  intros H. revert c. induction H as [|v vs Hv _ IH]; intros c Hs.
  { cbn. unfold ret, plus, totals, tally. destruct c. cbn. by rewrite !Z.add_0_r. }
  cbn [visit_all length] in *. unfold small in Hs.
  rewrite (bind_run _ _ _ _ _ (myfunc_run v c Hv ltac:(unfold small; lia))). cbv beta. rewrite Z.eqb_refl, IH; [by rewrite plus_totals|].
  unfold small, plus, totals. cbn [nreg ndir nblk nchr nfifo nslink nsock].
  pose proof (tally_bound FTW_F S_IFREG v). pose proof (tally_bound FTW_D S_IFDIR v). pose proof (tally_bound FTW_F S_IFBLK v).
  pose proof (tally_bound FTW_F S_IFCHR v). pose proof (tally_bound FTW_F S_IFIFO v). pose proof (tally_bound FTW_F S_IFLNK v).
  pose proof (tally_bound FTW_F S_IFSOCK v). lia.
Qed.

(** The sum of the counts is at most the number of visits. *)
Definition sum (c : counts) : Z := nreg c + ndir c + nblk c + nchr c + nfifo c + nslink c + nsock c.
Lemma sum_plus a b : sum (plus a b) = sum a + sum b.
Proof. unfold sum, plus. cbn [nreg ndir nblk nchr nfifo nslink nsock]. lia. Qed.

Lemma sum_one v : 0 <= sum (totals [v]) <= 1.
Proof.
  unfold sum, totals. cbn [nreg ndir nblk nchr nfifo nslink nsock]. rewrite !tally_cons. unfold tally, is_type. cbn [filter list_filter length].
  destruct v as [p [[]|] type]; cbn [v_type v_mode]; repeat (rewrite bool_decide_false by done || rewrite bool_decide_true by done);
    rewrite ?andb_false_r, ?andb_true_r; destruct (type =? FTW_F) eqn:E1; destruct (type =? FTW_D) eqn:E2; unfold FTW_F, FTW_D in *; lia.
Qed.

Lemma sum_totals vs : 0 <= sum (totals vs) <= Z.of_nat (length vs).
Proof.
  induction vs as [|v vs IH]; [done|]. pose proof (plus_totals (Counts 0 0 0 0 0 0 0 0) v vs) as E.
  assert (P : forall c, plus (Counts 0 0 0 0 0 0 0 0) c = c) by (by intros []).
  rewrite !P in E. rewrite <-E, sum_plus. pose proof (sum_one v). cbn [length]. lia.
Qed.

(** The program counts every file of the hierarchy once under its type,
    directories that cannot be read included, and exits with status zero; the
    total is the number of files counted, or one when there is none. *)
Theorem ftw_counts (fs : fsys) (m : memory) fuel size arg t (s : walk counts) :
  (forall n, realloc_ok m n = true) -> NAME_MAX + 2 <= size < 2 ^ 62 -> Forall (fun c => c <> 0) arg ->
  shows fs arg t -> (height t <= fuel)%nat -> Z.of_nat (length (visits arg t)) < LONG_MAX -> user s = no_counts ->
  exists s', ftw_main fs m fuel size arg s = Ret 0 s' /\
    user s' = set_ntot (if sum (totals (visits arg t)) =? 0 then 1 else sum (totals (visits arg t))) (totals (visits arg t)).
Proof.
  intros Hm Hsize Hn Hs Hf Hlen Hu.
  pose proof (myftw_run fs m myfunc fuel size arg t s Hm Hsize Hn Hs Hf) as W. pose proof (sum_totals (visits arg t)) as Hsum.
  rewrite Hu, visit_all_count in W; [|by eapply visits_regular|unfold small; cbn [nreg ndir nblk nchr nfifo nslink nsock no_counts]; lia].
  destruct W as (s1 & E & U1 & _). replace (plus no_counts _) with (totals (visits arg t)) in U1 by (by destruct (totals _)).
  unfold ftw_main. rewrite (bind_run _ _ _ _ _ E). cbv beta. rewrite bind_gets, U1.
  change (nreg ?c + ndir ?c + nblk ?c + nchr ?c + nfifo ?c + nslink ?c + nsock ?c) with (sum c).
  rewrite (proj2 (Z.ltb_ge _ _)) by lia. eexists. split; [reflexivity|]. cbn [user set_user]. done.
Qed.

(** * A run *)

Definition demo_fs : fsys :=
  Fsys (fun p => if decide (p = str "r") then Some S_IFDIR else if decide (p = str "r/a") then Some S_IFREG
                 else if decide (p = str "r/d") then Some S_IFDIR else if decide (p = str "r/d/f") then Some S_IFIFO
                 else if decide (p = str "r/u") then Some S_IFDIR else None)
    (fun p => if decide (p = str "r/") then Some [str "."; str "a"; str ".."; str "d"; str "u"; str "x"]
              else if decide (p = str "r/d/") then Some [str "."; str ".."; str "f"] else None).
Definition demo_tree : tree :=
  Folder [(str "a", Leaf S_IFREG); (str "d", Folder [(str "f", Leaf S_IFIFO)]); (str "u", Unreadable); (str "x", Missing)].
Definition demo_memory : memory := Memory (fun _ => true) (fun _ => 170).

Lemma demo_shows : shows demo_fs (str "r") demo_tree.
Proof.
  cbn [demo_tree shows foldr fst snd]. repeat apply conj; try exact I; try (vm_compute; first [reflexivity|discriminate]);
    try (eexists; split; vm_compute; reflexivity); apply (bool_decide_unpack _); vm_compute; exact I.
Qed.

Lemma demo_name : Forall (fun c => c <> 0) (str "r").
Proof. apply (bool_decide_unpack _). vm_compute. exact I. Qed.

(** The fourth call stops the walk. *)
Definition demo_func (path : bytes) (mode : option ftype) (type : Z) : M (list bytes) Z := fun l =>
  Ret (if (length l =? 3)%nat then 7 else 0) (l ++ [path]).

Lemma ftw_visits_witness :
  exists s, myftw demo_fs demo_memory demo_func 3 1025 (str "r") (Walk [] 0 []) = Ret 7 s /\
    user s = [str "r"; str "r/a"; str "r/d"; str "r/d/f"].
Proof.
  pose proof (ftw_visits demo_fs demo_memory demo_func 3 1025 (str "r") demo_tree (Walk [] 0 []) ltac:(done)
    ltac:(done) demo_name demo_shows ltac:(cbn; lia)) as W.
  destruct W as (s & E & U & _). exists s. split; [exact E|exact U].
Defined.

Lemma ftw_counts_witness :
  exists s, ftw_main demo_fs demo_memory 3 1025 (str "r") (Walk [] 0 no_counts) = Ret 0 s /\
    user s = Counts 1 3 0 0 1 0 0 5.
Proof.
  pose proof (ftw_counts demo_fs demo_memory 3 1025 (str "r") demo_tree (Walk [] 0 no_counts) ltac:(done)
    ltac:(done) demo_name demo_shows ltac:(cbn; lia) ltac:(vm_compute; reflexivity) ltac:(done)) as W.
  destruct W as (s & E & U). exists s. split; [exact E|exact U].
Defined.
