(* ===== verification/WebThreads.v ===== *)
(** unpv13e/threads/web03.c: a Web client that fetches files with one thread
    for each, a bounded number of them at a time. *)
From Stdlib Require Import ZArith Lia.
From stdpp Require Import base list strings numbers.
From S2P Require Import Prelude.
Local Open Scope c_scope.

Definition MAXFILES : Z := 20.
Definition F_CONNECTING : Z := 1.
Definition F_READING : Z := 2.
Definition F_DONE : Z := 4.
Definition F_JOINED : Z := 8.

(** Where the main thread is: the tests of its two loops, the calls on the
    mutex and the condition variable, the scan for threads that are done. *)
Inductive main_pc :=
| M_outer | M_inner | M_lock | M_test | M_waiting | M_relock
| M_scan (i : nat) | M_join (i : nat) | M_unlock | M_exit | M_quit (msg : string).

(** Where the thread of a file is; [T_none] before it is created, and with the
    pointer it returns when it has terminated. *)
Inductive thread_pc :=
| T_none | T_connect | T_write | T_read | T_close | T_done
| T_lock | T_count | T_signal | T_unlock | T_exited (fptr : nat).

(** An element of the array [file], with its thread. *)
Record file := File { f_flags : Z; thread : thread_pc }.

(** The thread that holds [ndone_mutex]. *)
Inductive owner := Main | Worker (i : nat).

(** What the threads do on the network. *)
Inductive event := Connected (i : nat) | Sent (i : nat) | Received (i : nat) | End_of_file (i : nat).

Record state := State {
  files : list file;
  nconn : Z;
  nlefttoconn : Z;
  nlefttoread : Z;
  ndone : Z;
  mutex : option owner;
  mpc : main_pc;
  trace : list event
}.
Definition set_files v s := State v (nconn s) (nlefttoconn s) (nlefttoread s) (ndone s) (mutex s) (mpc s) (trace s).
Definition set_nconn v s := State (files s) v (nlefttoconn s) (nlefttoread s) (ndone s) (mutex s) (mpc s) (trace s).
Definition set_nlefttoconn v s := State (files s) (nconn s) v (nlefttoread s) (ndone s) (mutex s) (mpc s) (trace s).
Definition set_nlefttoread v s := State (files s) (nconn s) (nlefttoconn s) v (ndone s) (mutex s) (mpc s) (trace s).
Definition set_ndone v s := State (files s) (nconn s) (nlefttoconn s) (nlefttoread s) v (mutex s) (mpc s) (trace s).
Definition set_mutex v s := State (files s) (nconn s) (nlefttoconn s) (nlefttoread s) (ndone s) v (mpc s) (trace s).
Definition goto v s := State (files s) (nconn s) (nlefttoconn s) (nlefttoread s) (ndone s) (mutex s) v (trace s).
Definition record_event e s := State (files s) (nconn s) (nlefttoconn s) (nlefttoread s) (ndone s) (mutex s) (mpc s) (trace s ++ [e]).
Definition put_file (i : nat) (f : file) (s : state) : state := set_files (<[i := f]> (files s)) s.

(** [main] before its loop, with [argc] arguments. *)
Definition start (argc : Z) : state :=
  let nfiles := Z.min (argc - 4) MAXFILES in
  State (replicate (Z.to_nat nfiles) (File 0 T_none)) 0 nfiles nfiles 0 None M_outer [].

(** [for (i = 0; i < nfiles; i++) if (file\[i\].f_flags == 0) break;] *)
Fixpoint find_file (i : nat) (l : list file) : option nat :=
  match l with [] => None | f :: l => if f_flags f =? 0 then Some i else find_file (S i) l end.

(** A step of the main thread; [None] when it cannot go on.  [wakeup] is a
    return of [pthread_cond_wait] that no signal caused, which the standard
    allows. *)
Definition main_step (maxnconn : Z) (wakeup : bool) (s : state) : option state :=
  match mpc s with
  | M_outer => Some (goto (if nlefttoread s >? 0 then M_inner else M_exit) s)
  | M_inner =>
    if (nconn s <? maxnconn) && (nlefttoconn s >? 0) then
      match find_file 0 (files s) with
      | None => Some (goto (M_quit "nothing found") s)
      | Some i => Some (set_nlefttoconn (nlefttoconn s - 1) (set_nconn (nconn s + 1) (put_file i (File F_CONNECTING T_connect) s)))
      end
    else Some (goto M_lock s)
  | M_lock | M_relock => if mutex s is None then Some (goto M_test (set_mutex (Some Main) s)) else None
  | M_test => Some (if ndone s =? 0 then goto M_waiting (set_mutex None s) else goto (M_scan 0) s)
  | M_waiting => if wakeup then Some (goto M_relock s) else None
  | M_scan i =>
    match files s !! i with
    | None => Some (goto M_unlock s)
    | Some f => Some (goto (if Z.land (f_flags f) F_DONE =? 0 then M_scan (S i) else M_join i) s)
    end
  | M_join i =>
    match files s !! i with
    | Some (File v (T_exited fptr)) =>
      if (i =? fptr)%nat then
        Some (goto (M_scan (S i)) (set_nlefttoread (nlefttoread s - 1) (set_nconn (nconn s - 1)
          (set_ndone (ndone s - 1) (put_file i (File F_JOINED (T_exited fptr)) s)))))
      else Some (goto (M_quit "file[i] != fptr") s)
    | _ => None
    end
  | M_unlock => Some (goto M_outer (set_mutex None s))
  | M_exit | M_quit _ => None
  end.

(** A step of the thread of file [i], [do_get_read]; [more] says whether [Read]
    finds data or the end of the file.  Calls on the network that fail end the
    process. *)
Definition thread_step (i : nat) (more : bool) (s : state) : option state :=
  match files s !! i with
  | None => None
  | Some (File v pc) =>
    match pc with
    | T_none | T_exited _ => None
    | T_connect => Some (put_file i (File v T_write) (record_event (Connected i) s))
    | T_write => Some (put_file i (File F_READING T_read) (record_event (Sent i) s))
    | T_read =>
      Some (if more then record_event (Received i) s else put_file i (File v T_close) (record_event (End_of_file i) s))
    | T_close => Some (put_file i (File v T_done) s)
    | T_done => Some (put_file i (File F_DONE T_lock) s)
    | T_lock => if mutex s is None then Some (put_file i (File v T_count) (set_mutex (Some (Worker i)) s)) else None
    | T_count => Some (put_file i (File v T_signal) (set_ndone (ndone s + 1) s))
    | T_signal => Some (put_file i (File v T_unlock) (if mpc s is M_waiting then goto M_relock s else s))
    | T_unlock => Some (put_file i (File v (T_exited i)) (set_mutex None s))
    end
  end.

Inductive choice := Main_goes (wakeup : bool) | Thread_goes (i : nat) (more : bool).
(** When the main thread has left, the process has ended. *)
Definition ended (s : state) : bool := match mpc s with M_exit | M_quit _ => true | _ => false end.
Definition step (maxnconn : Z) (c : choice) (s : state) : option state :=
  if ended s then None
  else match c with
       | Main_goes wakeup => main_step maxnconn wakeup s
       | Thread_goes i more => thread_step i more s
       end.
Fixpoint run (maxnconn : Z) (cs : list choice) (s : state) : option state :=
  match cs with [] => Some s | c :: cs => match step maxnconn c s with Some s => run maxnconn cs s | None => None end end.

(** The states of the runs of the program. *)
Inductive reachable (argc maxnconn : Z) : state -> Prop :=
| reachable_start : reachable argc maxnconn (start argc)
| reachable_step c s s' : reachable argc maxnconn s -> step maxnconn c s = Some s' -> reachable argc maxnconn s'.

Lemma run_reachable argc maxnconn cs s s' :
  reachable argc maxnconn s -> run maxnconn cs s = Some s' -> reachable argc maxnconn s'.
Proof.
  revert s. induction cs as [|c cs IH]; cbn; intros s H E; [by injection E as <-|].
  destruct (step maxnconn c s) as [s1|] eqn:Es; [|done]. eapply IH; [|done]. by eapply reachable_step.
Qed.

(** No thread can take a step, a wake-up without cause apart. *)
Definition stuck (maxnconn : Z) (s : state) : Prop :=
  step maxnconn (Main_goes false) s = None /\ forall i more, step maxnconn (Thread_goes i more) s = None.

(** * Invariant *)

(** How many elements satisfy a test. *)
Fixpoint tally (p : file -> bool) (l : list file) : Z :=
  match l with [] => 0 | f :: l => (if p f then 1 else 0) + tally p l end.

Definition fresh (f : file) : bool := f_flags f =? 0.
Definition unjoined (f : file) : bool := negb (f_flags f =? F_JOINED).
Definition active (f : file) : bool := negb (f_flags f =? 0) && negb (f_flags f =? F_JOINED).
Definition counted (f : file) : bool :=
  unjoined f && match thread f with T_signal | T_unlock | T_exited _ => true | _ => false end.

(** The flags say where the thread is. *)
Definition file_ok (i : nat) (f : file) : Prop :=
  match thread f with
  | T_none => f_flags f = 0
  | T_connect | T_write => f_flags f = F_CONNECTING
  | T_read | T_close | T_done => f_flags f = F_READING
  | T_lock | T_count | T_signal | T_unlock => f_flags f = F_DONE
  | T_exited fptr => fptr = i /\ (f_flags f = F_DONE \/ f_flags f = F_JOINED)
  end.

Definition holds_mutex (t : thread_pc) : bool := match t with T_count | T_signal | T_unlock => true | _ => false end.
Definition main_holds (p : main_pc) : bool :=
  match p with M_test | M_scan _ | M_join _ | M_unlock => true | _ => false end.

(** What a file's thread has done on the network. *)
Definition file_of (e : event) : nat := match e with Connected i | Sent i | Received i | End_of_file i => i end.
Definition events_of (i : nat) (tr : list event) : list event := filter (fun e => file_of e = i) tr.
Definition fetching (i n : nat) : list event := [Connected i; Sent i] ++ replicate n (Received i).
Definition fetched (i n : nat) : list event := fetching i n ++ [End_of_file i].
Definition trace_ok (i : nat) (t : thread_pc) (tr : list event) : Prop :=
  match t with
  | T_none | T_connect => tr = []
  | T_write => tr = [Connected i]
  | T_read => exists n, tr = fetching i n
  | _ => exists n, tr = fetched i n
  end.

(** What the main thread knows where it is. *)
Definition main_ok (maxnconn : Z) (s : state) : Prop :=
  match mpc s with
  | M_inner => 0 < nlefttoread s
  | M_lock | M_test | M_relock => 0 < nlefttoread s /\ (maxnconn <= nconn s \/ nlefttoconn s = 0)
  | M_waiting => (0 < nlefttoread s /\ (maxnconn <= nconn s \/ nlefttoconn s = 0)) /\
      (ndone s = 0 \/ exists i f, files s !! i = Some f /\ thread f = T_signal)
  | M_join i => exists f, files s !! i = Some f /\ f_flags f = F_DONE
  | M_exit => nlefttoread s <= 0
  | M_quit _ => False
  | _ => True
  end.

Record state_ok (maxnconn : Z) (s : state) : Prop := {
  ok_files : forall i f, files s !! i = Some f -> file_ok i f;
  ok_tconn : nlefttoconn s = tally fresh (files s);
  ok_tread : nlefttoread s = tally unjoined (files s);
  ok_nconn : nconn s = tally active (files s);
  ok_ndone : ndone s = tally counted (files s);
  ok_max : nconn s <= Z.max 0 maxnconn;
  ok_main_mutex : mutex s = Some Main <-> main_holds (mpc s) = true;
  ok_mutex : forall i, mutex s = Some (Worker i) <-> exists f, files s !! i = Some f /\ holds_mutex (thread f) = true;
  ok_trace : forall i f, files s !! i = Some f -> trace_ok i (thread f) (events_of i (trace s));
  ok_main : main_ok maxnconn s
}.

Lemma tally_insert p l i f g : l !! i = Some f ->
  tally p (<[i := g]> l) = tally p l - (if p f then 1 else 0) + (if p g then 1 else 0).
Proof.
  revert i. induction l as [|h l IH]; intros [|i] E; try done.
  - injection E as ->. cbn. lia.
  - change (<[S i := g]> (h :: l)) with (h :: <[i := g]> l). cbn [tally]. rewrite (IH i E). lia.
Qed.

Lemma tally_nonneg p l : 0 <= tally p l.
Proof. induction l as [|f l IH]; cbn; [lia|]. destruct (p f); lia. Qed.

Lemma tally_zero p l : tally p l <= 0 -> forall i f, l !! i = Some f -> p f = false.
Proof.
  induction l as [|g l IH]; cbn; intros H [|i] f E; try done; pose proof (tally_nonneg p l).
  - injection E as ->. by destruct (p f); [lia|].
  - apply (IH ltac:(destruct (p g); lia) i f E).
Qed.

Lemma tally_none p l : (forall i f, l !! i = Some f -> p f = false) -> tally p l = 0.
Proof.
  induction l as [|f l IH]; cbn; intros H; [done|]. rewrite (H 0%nat f eq_refl). rewrite IH; [done|]. intros i g. apply (H (S i) g).
Qed.

Lemma tally_replicate p n f : tally p (replicate n f) = if p f then Z.of_nat n else 0.
Proof. induction n as [|n IH]; cbn [replicate tally]; [by destruct (p f)|]. rewrite IH. destruct (p f); lia. Qed.

Lemma find_file_Some l k i : find_file k l = Some i -> (k <= i)%nat /\ exists f, l !! (i - k)%nat = Some f /\ f_flags f = 0.
Proof.
  revert k. induction l as [|f l IH]; cbn; intros k; [done|]. destruct (Z.eqb_spec (f_flags f) 0).
  - intros [= ->]. split; [lia|]. exists f. by rewrite Nat.sub_diag.
  - intros [H1 (g & H2 & H3)]%IH. split; [lia|]. exists g. replace (i - k)%nat with (S (i - S k)) by lia. done.
Qed.

Lemma find_file_None l k : find_file k l = None -> tally fresh l = 0.
Proof.
  revert k. induction l as [|f l IH]; cbn; intros k; [done|]. unfold fresh at 1. destruct (f_flags f =? 0); [done|]. by intros ->%IH.
Qed.

Lemma web_start_ok argc maxnconn : 4 <= argc -> state_ok maxnconn (start argc).
Proof.
  intros Ha. assert (Hf : forall i f, files (start argc) !! i = Some f -> f = File 0 T_none).
  { intros i f. cbn. intros [-> _]%lookup_replicate. done. }
  constructor; cbn; rewrite ?tally_replicate; cbn; unfold MAXFILES; try lia; try done.
  - by intros i f ->%Hf.
  - intros i. split; [done|]. intros (f & E & H). apply Hf in E as ->. done.
  - by intros i f ->%Hf.
Qed.

(** * Preservation *)

Lemma lookup_update {A} (l : list A) i x j y : <[i := x]> l !! j = Some y -> (j = i /\ y = x) \/ (j <> i /\ l !! j = Some y).
Proof.
  destruct (decide (j = i)) as [->|Hne].
  - intros H. left. split; [done|]. pose proof (lookup_lt_Some _ _ _ H) as Hl. rewrite length_insert in Hl.
    rewrite list_lookup_insert_eq in H by done. by injection H.
  - rewrite list_lookup_insert_ne by done. auto.
Qed.

Lemma events_of_snoc i tr e : events_of i (tr ++ [e]) = events_of i tr ++ (if decide (file_of e = i) then [e] else []).
Proof. unfold events_of. rewrite list.filter_app, filter_cons. by destruct (decide _). Qed.

(** Only the file [i] changes, its counter apart, and the events are its
    own. *)
Lemma file_step_ok maxnconn s i f g dn mtx mp es :
  state_ok maxnconn s -> files s !! i = Some f -> file_ok i g ->
  fresh g = fresh f -> unjoined g = unjoined f -> active g = active f ->
  dn = ndone s - (if counted f then 1 else 0) + (if counted g then 1 else 0) ->
  (mtx = Some Main <-> main_holds mp = true) ->
  (forall j, mtx = Some (Worker j) <-> (j = i /\ holds_mutex (thread g) = true) \/ (j <> i /\ mutex s = Some (Worker j))) ->
  Forall (fun e => file_of e = i) es -> trace_ok i (thread g) (events_of i (trace s) ++ es) ->
  main_ok maxnconn (State (<[i := g]> (files s)) (nconn s) (nlefttoconn s) (nlefttoread s) dn mtx mp (trace s ++ es)) ->
  state_ok maxnconn (State (<[i := g]> (files s)) (nconn s) (nlefttoconn s) (nlefttoread s) dn mtx mp (trace s ++ es)).
Proof.
  intros H Ei Hg H1 H2 H3 -> Hm1 Hm2 Hes Htr Hmain.
  assert (Hev : forall j, events_of j (trace s ++ es) = events_of j (trace s) ++ (if decide (j = i) then es else [])).
  { intros j. unfold events_of. rewrite list.filter_app. f_equal. clear Htr Hmain. destruct (decide (j = i)) as [->|Hne].
    - induction Hes as [|e es He _ IH]; [done|]. by rewrite filter_cons_True, IH.
    - induction Hes as [|e es He _ IH]; [done|]. rewrite filter_cons_False; [done|]. congruence. }
  constructor; cbn [files nconn nlefttoconn nlefttoread ndone mutex mpc trace]; rewrite ?(tally_insert _ _ _ _ _ Ei); try done.
  - intros j h [[-> ->]|[_ Hj]]%lookup_update; [done|by apply (ok_files _ _ H)].
  - rewrite H1, (ok_tconn _ _ H). lia.
  - rewrite H2, (ok_tread _ _ H). lia.
  - rewrite H3, (ok_nconn _ _ H). lia.
  - rewrite (ok_ndone _ _ H). done.
  - apply H.
  - intros j. rewrite Hm2, (ok_mutex _ _ H j). split.
    + intros [[-> Hh]|[Hne (h & Hj & Hh)]]; [exists g|exists h; by rewrite list_lookup_insert_ne].
      split; [apply list_lookup_insert_eq; by eapply lookup_lt_Some|done].
    + intros (h & [[-> ->]|[Hne Hj]]%lookup_update & Hh); [by left|right; split; [done|eauto]].
  - intros j h [[-> ->]|[Hne Hj]]%lookup_update; rewrite Hev; [by rewrite decide_True|].
    rewrite decide_False, app_nil_r by done. by apply (ok_trace _ _ H).
Qed.

(** What the main thread knows survives. *)
Lemma main_ok_file maxnconn s i f g dn mtx mp tr :
  state_ok maxnconn s -> files s !! i = Some f ->
  (f_flags f = F_DONE -> f_flags g = F_DONE) ->
  mp = mpc s /\ (mp = M_waiting -> (dn = ndone s /\ thread f <> T_signal) \/ thread g = T_signal) \/
    (mpc s = M_waiting /\ mp = M_relock) ->
  main_ok maxnconn (State (<[i := g]> (files s)) (nconn s) (nlefttoconn s) (nlefttoread s) dn mtx mp tr).
Proof.
  intros H Ei Hfl Hmp. pose proof (ok_main _ _ H) as K. unfold main_ok in *. cbn [mpc files nconn nlefttoconn nlefttoread ndone].
  destruct Hmp as [[-> Hw]|[Em ->]]; [|by rewrite Em in K; destruct K].
  assert (Hlt : (i < length (files s))%nat) by by eapply lookup_lt_Some.
  destruct (mpc s) as [| | | | | |j|j| | |]; try done.
  - destruct K as [K1 K2]. split; [done|]. destruct (Hw eq_refl) as [[-> Hf]|Hg].
    + destruct K2 as [?|(j & h & Hj & Hh)]; [by left|]. right. exists j, h. split; [|done].
      rewrite list_lookup_insert_ne; [done|]. intros <-. congruence.
    + right. exists i, g. by rewrite list_lookup_insert_eq.
  - destruct K as (h & Hj & Hh). destruct (decide (j = i)) as [->|Hne].
    + exists g. rewrite list_lookup_insert_eq by done. split; [done|]. apply Hfl. congruence.
    + exists h. by rewrite list_lookup_insert_ne.
Qed.

Lemma main_not_in maxnconn s i f : state_ok maxnconn s -> files s !! i = Some f -> holds_mutex (thread f) = true ->
  mutex s = Some (Worker i) /\ main_holds (mpc s) = false.
Proof.
  intros H Ei Hh. assert (E : mutex s = Some (Worker i)) by (apply (ok_mutex _ _ H); eauto). split; [done|].
  destruct (main_holds (mpc s)) eqn:Em; [|done]. apply (ok_main_mutex _ _ H) in Em. congruence.
Qed.

(** The same without events. *)
Lemma file_quiet_ok maxnconn s i f g dn mtx mp :
  state_ok maxnconn s -> files s !! i = Some f -> file_ok i g ->
  fresh g = fresh f -> unjoined g = unjoined f -> active g = active f ->
  dn = ndone s - (if counted f then 1 else 0) + (if counted g then 1 else 0) ->
  (mtx = Some Main <-> main_holds mp = true) ->
  (forall j, mtx = Some (Worker j) <-> (j = i /\ holds_mutex (thread g) = true) \/ (j <> i /\ mutex s = Some (Worker j))) ->
  trace_ok i (thread g) (events_of i (trace s)) ->
  main_ok maxnconn (State (<[i := g]> (files s)) (nconn s) (nlefttoconn s) (nlefttoread s) dn mtx mp (trace s)) ->
  state_ok maxnconn (State (<[i := g]> (files s)) (nconn s) (nlefttoconn s) (nlefttoread s) dn mtx mp (trace s)).
Proof.
  intros H Ei Hg H1 H2 H3 H4 Hm1 Hm2 Htr Hmain.
  pose proof (file_step_ok maxnconn s i f g dn mtx mp [] H Ei Hg H1 H2 H3 H4 Hm1 Hm2 (list.Forall_nil_2 _)) as P.
  rewrite !app_nil_r in P. by apply P.
Qed.

(** The mutex when a file's thread neither takes nor releases it. *)
Lemma mutex_same maxnconn s i f b : state_ok maxnconn s -> files s !! i = Some f -> holds_mutex (thread f) = b ->
  forall j, mutex s = Some (Worker j) <-> (j = i /\ b = true) \/ (j <> i /\ mutex s = Some (Worker j)).
Proof.
  intros H Ei Hb j. split.
  - intros Hj. destruct (decide (j = i)) as [->|]; [left; split; [done|]|by right].
    apply (ok_mutex _ _ H) in Hj as (g & Eg & Hg). rewrite Ei in Eg. injection Eg as <-. congruence.
  - intros [[-> Hh]|[_ ?]]; [|done]. apply (ok_mutex _ _ H). exists f. split; [done|congruence].
Qed.

(** The goals that a step of a file's thread leaves. *)
Ltac file_goals H Ei :=
  first [reflexivity | assumption | exact (ok_main_mutex _ _ H) | by repeat constructor | by (cbn; lia)
        | apply (mutex_same _ _ _ _ _ H Ei); reflexivity
        | apply (main_ok_file _ _ _ _ _ _ _ _ _ H Ei); [by cbn|]; first [by left; split; [done|intros _; left]|by left; split; [done|intros _; right]]
        | idtac].

Lemma web_thread_step_ok maxnconn i more s s' :
  state_ok maxnconn s -> thread_step i more s = Some s' -> state_ok maxnconn s'.
Proof.
  intros H. unfold thread_step. destruct (files s !! i) as [[v pc]|] eqn:Ei; [|done].
  pose proof (ok_files _ _ H _ _ Ei) as Hok. pose proof (ok_trace _ _ H _ _ Ei) as Htr. cbn in Htr.
  destruct pc as [| | | | | | | | | |r]; try done; unfold file_ok in Hok; cbn [thread f_flags] in Hok; subst v.
  - intros [= <-]. apply (file_step_ok maxnconn s i _ (File _ T_write) _ _ _ [Connected i] H Ei); file_goals H Ei.
    cbn [thread]. rewrite Htr. done.
  - intros [= <-]. apply (file_step_ok maxnconn s i _ (File _ T_read) _ _ _ [Sent i] H Ei); file_goals H Ei.
    cbn [thread]. rewrite Htr. by exists 0%nat.
  - destruct Htr as [n Htr]. destruct more; intros [= <-].
    + pose proof (file_step_ok maxnconn s i _ (File F_READING T_read) (ndone s) (mutex s) (mpc s) [Received i] H Ei) as P.
      rewrite list_insert_id in P by done. apply P; file_goals H Ei.
      * cbn [thread]. rewrite Htr. exists (S n). unfold fetching. rewrite replicate_S_end. by rewrite <-app_assoc.
      * unfold main_ok. apply (ok_main _ _ H).
    + apply (file_step_ok maxnconn s i _ (File _ T_close) _ _ _ [End_of_file i] H Ei); file_goals H Ei.
      cbn [thread]. rewrite Htr. by exists n.
  - intros [= <-]. apply (file_quiet_ok maxnconn s i _ (File _ T_done) _ _ _ H Ei); file_goals H Ei.
  - intros [= <-]. apply (file_quiet_ok maxnconn s i _ (File _ T_lock) _ _ _ H Ei); file_goals H Ei.
  - destruct (mutex s) eqn:Em; [done|]. intros [= <-].
    apply (file_quiet_ok maxnconn s i _ (File _ T_count) _ _ _ H Ei); file_goals H Ei.
    + split; [done|]. intros Hm. apply (ok_main_mutex _ _ H) in Hm. congruence.
    + rewrite Em. naive_solver.
  - destruct (main_not_in _ _ _ _ H Ei eq_refl) as [Em Hh]. intros [= <-].
    apply (file_quiet_ok maxnconn s i _ (File _ T_signal) _ _ _ H Ei); file_goals H Ei.
  - destruct (main_not_in _ _ _ _ H Ei eq_refl) as [Em Hh]. intros [= <-].
    assert (P : state_ok maxnconn (State (<[i := File F_DONE T_unlock]> (files s)) (nconn s) (nlefttoconn s) (nlefttoread s)
      (ndone s) (mutex s) (if mpc s is M_waiting then M_relock else mpc s) (trace s))).
    { apply (file_quiet_ok maxnconn s i _ _ _ _ _ H Ei); file_goals H Ei.
      - rewrite (ok_main_mutex _ _ H). by destruct (mpc s).
      - apply (main_ok_file _ _ _ _ _ _ _ _ _ H Ei); [done|]. destruct (mpc s); try (left; done). by right. }
    by destruct s, mpc0.
  - destruct (main_not_in _ _ _ _ H Ei eq_refl) as [Em Hh]. intros [= <-].
    apply (file_quiet_ok maxnconn s i _ (File _ (T_exited i)) _ _ _ H Ei); file_goals H Ei.
    + split; [done|]. cbn. rewrite Hh. done.
    + rewrite Em. naive_solver.
Qed.

(** The main thread: a file that is started, or joined. *)
Lemma main_file_ok maxnconn s i f g nc ntc ntr nd mp :
  state_ok maxnconn s -> files s !! i = Some f -> file_ok i g ->
  ntc = nlefttoconn s - (if fresh f then 1 else 0) + (if fresh g then 1 else 0) ->
  ntr = nlefttoread s - (if unjoined f then 1 else 0) + (if unjoined g then 1 else 0) ->
  nc = nconn s - (if active f then 1 else 0) + (if active g then 1 else 0) ->
  nd = ndone s - (if counted f then 1 else 0) + (if counted g then 1 else 0) ->
  nc <= Z.max 0 maxnconn -> main_holds mp = main_holds (mpc s) ->
  holds_mutex (thread f) = false -> holds_mutex (thread g) = false ->
  trace_ok i (thread g) (events_of i (trace s)) ->
  main_ok maxnconn (State (<[i := g]> (files s)) nc ntc ntr nd (mutex s) mp (trace s)) ->
  state_ok maxnconn (State (<[i := g]> (files s)) nc ntc ntr nd (mutex s) mp (trace s)).
Proof.
  intros H Ei Hg -> -> Hnc -> Hmax Hmp Hf1 Hg1 Htr Hmain.
  constructor; cbn [files nconn nlefttoconn nlefttoread ndone mutex mpc trace]; rewrite ?(tally_insert _ _ _ _ _ Ei); try done.
  - intros j h [[-> ->]|[_ Hj]]%lookup_update; [done|by apply (ok_files _ _ H)].
  - by rewrite (ok_tconn _ _ H).
  - by rewrite (ok_tread _ _ H).
  - by rewrite Hnc, (ok_nconn _ _ H).
  - by rewrite (ok_ndone _ _ H).
  - rewrite Hmp. apply H.
  - intros j. rewrite (ok_mutex _ _ H j). split; intros (h & Hj & Hh).
    + exists h. split; [|done]. rewrite list_lookup_insert_ne; [done|]. intros <-. congruence.
    + apply lookup_update in Hj as [[-> ->]|[_ Hj]]; [congruence|eauto].
  - intros j h [[-> ->]|[_ Hj]]%lookup_update; [done|by apply (ok_trace _ _ H)].
Qed.

(** The main thread goes on without touching a file. *)
Lemma main_goto_ok maxnconn s mtx mp :
  state_ok maxnconn s -> (mtx = Some Main <-> main_holds mp = true) ->
  (forall i, mtx = Some (Worker i) <-> mutex s = Some (Worker i)) ->
  main_ok maxnconn (goto mp s) -> state_ok maxnconn (goto mp (set_mutex mtx s)).
Proof.
  intros H Hm1 Hm2 Hmain. constructor; cbn [files nconn nlefttoconn nlefttoread ndone mutex mpc trace goto set_mutex]; try apply H; try done.
  intros i. rewrite Hm2. apply H.
Qed.

Lemma main_goto_same maxnconn s mp :
  state_ok maxnconn s -> main_holds mp = main_holds (mpc s) -> main_ok maxnconn (goto mp s) -> state_ok maxnconn (goto mp s).
Proof.
  intros H Hmp Hmain. assert (P : state_ok maxnconn (goto mp (set_mutex (mutex s) s))).
  { apply main_goto_ok; try done. rewrite Hmp. apply H. }
  by destruct s.
Qed.

Lemma web_main_step_ok maxnconn wakeup s s' :
  state_ok maxnconn s -> main_step maxnconn wakeup s = Some s' -> state_ok maxnconn s'.
Proof.
  intros H. unfold main_step. pose proof (ok_main _ _ H) as K. unfold main_ok in K. pose proof (ok_main_mutex _ _ H) as Hmm.
  destruct (mpc s) as [| | | | | |i|i| | |msg] eqn:Ep; try done.
  - intros [= <-]. apply main_goto_same; [done| |]; destruct (Z.gtb_spec (nlefttoread s) 0); try (by rewrite Ep); unfold main_ok; cbn; lia.
  - destruct ((nconn s <? maxnconn) && (nlefttoconn s >? 0)) eqn:Hc.
    + destruct (find_file 0 (files s)) as [i|] eqn:Ef.
      * apply find_file_Some in Ef as (_ & [v pc] & Ei & Hv). rewrite Nat.sub_0_r in Ei. cbn in Hv. subst v. intros [= <-].
        pose proof (ok_files _ _ H _ _ Ei) as Hok. pose proof (ok_trace _ _ H _ _ Ei) as Htr.
        destruct pc; unfold file_ok in Hok; cbn in Hok; try done; [|destruct Hok as [_ [?|?]]; done].
        apply (main_file_ok maxnconn s i _ (File F_CONNECTING T_connect) _ _ _ _ _ H Ei); try done; cbn; try lia.
        -- unfold main_ok. cbn. by rewrite Ep.
      * apply find_file_None in Ef. rewrite <-(ok_tconn _ _ H) in Ef. lia.
    + intros [= <-]. apply main_goto_same; [done|by rewrite Ep|]. unfold main_ok. cbn. split; [done|].
      pose proof (tally_nonneg fresh (files s)). rewrite <-(ok_tconn _ _ H) in *. lia.
  - destruct (mutex s) eqn:Em; [done|]. intros [= <-]. apply main_goto_ok; try done; intros; rewrite Em; done.
  - destruct (Z.eqb_spec (ndone s) 0); intros [= <-].
    + assert (Em : mutex s = Some Main) by by apply Hmm. apply (main_goto_ok maxnconn s None M_waiting); try done.
      * intros i. by rewrite Em.
      * unfold main_ok. cbn. auto.
    + apply main_goto_same; [done|by rewrite Ep|done].
  - destruct wakeup; [|done]. intros [= <-]. apply main_goto_same; [done|by rewrite Ep|]. unfold main_ok. cbn. apply K.
  - destruct (mutex s) eqn:Em; [done|]. intros [= <-]. apply main_goto_ok; try done; intros; rewrite Em; done.
  - destruct (files s !! i) as [[v pc]|] eqn:Ei; intros [= <-]; apply main_goto_same; try done; try (by rewrite Ep).
    + rewrite Ep. by destruct (_ =? 0).
    + unfold main_ok. cbn [mpc goto f_flags]. destruct (Z.eqb_spec (Z.land v F_DONE) 0); [done|]. eexists. split; [exact Ei|]. cbn.
      pose proof (ok_files _ _ H _ _ Ei) as Hok. destruct pc; unfold file_ok in Hok; cbn in Hok; subst; try done.
      by destruct Hok as [_ [->| ->]].
  - destruct K as ([v pc] & Ei & Hv). cbn in Hv. subst v. rewrite Ei. pose proof (ok_files _ _ H _ _ Ei) as Hok.
    destruct pc; try done. destruct Hok as [-> _]. rewrite Nat.eqb_refl. intros [= <-].
    pose proof (ok_max _ _ H). pose proof (ok_trace _ _ H _ _ Ei) as Htr.
    apply (main_file_ok maxnconn s i _ (File F_JOINED (T_exited i)) _ _ _ _ _ H Ei); try done; cbn; try lia.
    + by rewrite Ep.
  - intros [= <-]. assert (Em : mutex s = Some Main) by by apply Hmm. apply (main_goto_ok maxnconn s None M_outer); try done.
    intros i. by rewrite Em.
Qed.

Lemma web_reachable_ok argc maxnconn s : 4 <= argc -> reachable argc maxnconn s -> state_ok maxnconn s.
Proof.
  intros Ha. induction 1 as [|c s s' _ IH Hs]; [by apply web_start_ok|]. unfold step in Hs. destruct (ended s); [done|].
  destruct c; [by eapply web_main_step_ok|by eapply web_thread_step_ok].
Qed.

(** * The theorems *)

(** C31: Whatever the order in which its threads run, web03.c never has more
    connections open than it was told, its counters say how many files are
    not started, not joined, and being fetched, it never takes one of the ways
    out it thinks impossible, and when it exits every file has been fetched:
    one connection, one request, and the answer read to its end. *)
Theorem web_fetches argc maxnconn s :
  5 <= argc -> reachable argc maxnconn s ->
  nconn s <= Z.max 0 maxnconn /\
  nlefttoconn s = tally fresh (files s) /\ nlefttoread s = tally unjoined (files s) /\ nconn s = tally active (files s) /\
  (forall msg, mpc s <> M_quit msg) /\
  (mpc s = M_exit -> forall i f, files s !! i = Some f -> exists n, events_of i (trace s) = fetched i n).
Proof.
  intros Ha Hr. pose proof (web_reachable_ok argc maxnconn s ltac:(lia) Hr) as H. pose proof (ok_main _ _ H) as K.
  split_and!; try apply H.
  - intros msg E. unfold main_ok in K. by rewrite E in K.
  - intros E i f Hi. unfold main_ok in K. rewrite E, (ok_tread _ _ H) in K.
    pose proof (tally_zero unjoined _ K i f Hi) as Hu. pose proof (ok_files _ _ H i f Hi) as Hf. pose proof (ok_trace _ _ H i f Hi) as Ht.
    unfold unjoined in Hu. destruct (Z.eqb_spec (f_flags f) F_JOINED) as [Ej|]; [|done].
    unfold file_ok in Hf. rewrite Ej in Hf. by destruct (thread f).
Qed.

(** A thread that can take no step. *)
Lemma thread_blocked i more s f : files s !! i = Some f -> thread_step i more s = None ->
  thread f = T_none \/ (thread f = T_lock /\ mutex s <> None) \/ exists r, thread f = T_exited r.
Proof.
  intros Ei. unfold thread_step. rewrite Ei. destruct f as [v pc]. cbn. destruct pc; try done; eauto.
  destruct (mutex s); [|done]. auto.
Qed.

Lemma stuck_threads maxnconn s : ended s = false -> stuck maxnconn s ->
  main_step maxnconn false s = None /\
  forall i f, files s !! i = Some f -> thread f = T_none \/ (thread f = T_lock /\ mutex s <> None) \/ exists r, thread f = T_exited r.
Proof.
  unfold stuck, step. intros -> [H1 H2]. split; [done|]. intros i f Ei. apply (thread_blocked i true s f Ei (H2 i true)).
Qed.

(** No thread of a file holds the mutex then. *)
Lemma stuck_mutex maxnconn s : state_ok maxnconn s -> ended s = false -> stuck maxnconn s -> mutex s = None \/ mutex s = Some Main.
Proof.
  intros H He Hs. destruct (stuck_threads _ _ He Hs) as [_ Ht]. destruct (mutex s) as [[|i]|] eqn:Em; [by right| |by left].
  apply (ok_mutex _ _ H) in Em as (f & Ei & Hf). destruct (Ht i f Ei) as [E|[[E _]|[r E]]]; by rewrite E in Hf.
Qed.

(** C32: With at least one connection allowed, the only way for web03.c to come
    to a halt before it exits is that the main thread waits for a thread to
    terminate while it holds the mutex that this thread waits for. *)
Theorem web_only_deadlock argc maxnconn s :
  5 <= argc -> 1 <= maxnconn -> reachable argc maxnconn s -> stuck maxnconn s ->
  mpc s = M_exit \/
  exists i f, mpc s = M_join i /\ mutex s = Some Main /\ files s !! i = Some f /\ thread f = T_lock.
Proof.
  intros Ha Hmax Hr Hs. pose proof (web_reachable_ok argc maxnconn s ltac:(lia) Hr) as H. pose proof (ok_main _ _ H) as K.
  destruct (ended s) eqn:He.
  { unfold ended in He. unfold main_ok in K. destruct (mpc s); try done. by left. }
  right. pose proof (stuck_mutex _ _ H He Hs) as Hm. destruct (stuck_threads _ _ He Hs) as [H1 Ht].
  pose proof (ok_main_mutex _ _ H) as Hmm. unfold main_step in H1. unfold main_ok in K. unfold ended in He.
  destruct (mpc s) as [| | | | | |i|i| | |msg] eqn:Ep; try done.
  - repeat case_match; done.
  - destruct (mutex s) as [o|] eqn:Em; [|done]. destruct Hm as [?|Hm]; [done|]. by apply Hmm in Hm.
  - exfalso. destruct K as [[K1 K2] K3].
    assert (Em : mutex s = None) by (destruct Hm as [?|Hm]; [done|by apply Hmm in Hm]).
    assert (Hall : forall i f, files s !! i = Some f -> thread f = T_none \/ exists r, thread f = T_exited r).
    { intros i f Ei. destruct (Ht i f Ei) as [?|[[_ ?]|?]]; [by left|done|by right]. }
    assert (Hd : ndone s = 0).
    { destruct K3 as [?|(i & f & Ei & Ef)]; [done|]. destruct (Hall i f Ei) as [?|[r ?]]; congruence. }
    rewrite (ok_ndone _ _ H) in Hd.
    assert (Hjoined : forall i f, files s !! i = Some f -> active f = false).
    { intros i f Ei. pose proof (tally_zero counted (files s) ltac:(lia) i f Ei) as Hc. pose proof (ok_files _ _ H i f Ei) as Hf.
      unfold counted, unjoined, active, file_ok in *. destruct (Hall i f Ei) as [E|[r E]]; rewrite E in *; [by rewrite Hf|].
      rewrite andb_true_r in Hc. by rewrite Hc, andb_false_r. }
    assert (Ha0 : nconn s = 0) by (rewrite (ok_nconn _ _ H); by apply tally_none).
    destruct K2 as [K2|K2]; [lia|]. rewrite (ok_tconn _ _ H) in K2. rewrite (ok_tread _ _ H) in K1.
    assert (Hu : tally unjoined (files s) = 0); [|lia]. apply tally_none. intros i f Ei.
    pose proof (tally_zero fresh (files s) ltac:(lia) i f Ei) as Hf. specialize (Hjoined i f Ei). unfold fresh, active, unjoined in *.
    by rewrite Hf in Hjoined.
  - destruct (mutex s) as [o|] eqn:Em; [|done]. destruct Hm as [?|Hm]; [done|]. by apply Hmm in Hm.
  - by destruct (files s !! i).
  - destruct K as ([v pc] & Ei & Hv). exists i, (File v pc). rewrite Ei in H1.
    assert (Em : mutex s = Some Main) by by apply Hmm. split_and!; try done.
    destruct (Ht i _ Ei) as [E|[[E _]|[r E]]]; cbn in E |- *; subst pc; try done.
    + pose proof (ok_files _ _ H i _ Ei) as Hf. cbn in Hf, Hv. unfold file_ok in Hf. cbn in Hf. by subst v.
    + pose proof (ok_files _ _ H i _ Ei) as Hf. destruct Hf as [-> _]. by rewrite Nat.eqb_refl in H1.
Qed.

(** * Runs *)

Definition mains (n : nat) : list choice := replicate n (Main_goes false).
(** A thread connects, asks, reads once, and comes to the mutex. *)
Definition fetch (i : nat) : list choice := replicate 3 (Thread_goes i true) ++ replicate 3 (Thread_goes i false).
Definition finish (i : nat) : list choice := replicate 4 (Thread_goes i false).

(** Two files, two connections.  Thread 0 is done and counted; while the main
    thread, which holds the mutex, looks for it, thread 1 sets its flag and
    comes to the mutex.  The main thread then waits for thread 1. *)
Definition deadlock_schedule : list choice := mains 4 ++ fetch 0 ++ finish 0 ++ mains 4 ++ fetch 1 ++ mains 1.
Definition deadlock_state : state :=
  State [File F_JOINED (T_exited 0); File F_DONE T_lock] 1 0 1 0 (Some Main) (M_join 1)
    [Connected 0; Sent 0; Received 0; End_of_file 0; Connected 1; Sent 1; Received 1; End_of_file 1].

Lemma web_deadlock_run : run 2 deadlock_schedule (start 6) = Some deadlock_state.
Proof. vm_compute. reflexivity. Qed.

Lemma deadlock_stuck : stuck 2 deadlock_state.
Proof. split; [done|]. intros [|[|i]] more; done. Qed.

Lemma web_only_deadlock_witness :
  exists i f, mpc deadlock_state = M_join i /\ mutex deadlock_state = Some Main /\
    files deadlock_state !! i = Some f /\ thread f = T_lock.
Proof.
  destruct (web_only_deadlock 6 2 deadlock_state ltac:(lia) ltac:(lia)
    (run_reachable 6 2 deadlock_schedule (start 6) _ (reachable_start 6 2) web_deadlock_run) deadlock_stuck) as [W|W]; [done|exact W].
Defined.

(** A run to the end. *)
Definition demo_schedule : list choice :=
  mains 4 ++ fetch 0 ++ finish 0 ++ mains 8 ++ fetch 1 ++ finish 1 ++ mains 9.
Lemma web_demo_run : exists s, run 2 demo_schedule (start 6) = Some s /\ mpc s = M_exit.
Proof. eexists. split; [vm_compute; reflexivity|done]. Qed.

Lemma web_fetches_witness :
  exists s, mpc s = M_exit /\ nconn s <= Z.max 0 2 /\ exists n, events_of 1 (trace s) = fetched 1 n.
Proof.
  destruct web_demo_run as (s & E & Hx). exists s.
  destruct (web_fetches 6 2 s ltac:(lia) (run_reachable 6 2 demo_schedule (start 6) s (reachable_start 6 2) E))
    as (W1 & _ & _ & _ & _ & W2).
  split; [exact Hx|]. split; [exact W1|].
  assert (L : is_Some (files s !! 1%nat)) by (revert E; vm_compute; intros [= <-]; eauto).
  destruct L as [f Hf]. exact (W2 Hx 1%nat f Hf).
Defined.
