(* ===== verification/Ring.v ===== *)
(** Arrays used as circular queues: an index to take from, an index to put
    at, both wrapping at the size [Q] of the array. *)
From Stdlib Require Import ZArith Lia.
From stdpp Require Import base list numbers.
From S2P Require Import Prelude.
Local Open Scope c_scope.

(** The index of the element [j] places after [get]. *)
Definition ring_slot (Q get : Z) (j : nat) : nat := Z.to_nat ((get + Z.of_nat j) mod Q).

Section ring.
Context {A : Type} `{!Inhabited A}.
Implicit Types l : list A.

(** The [n] elements from [get] on. *)
Definition ring_view (Q : Z) l (get : Z) (n : nat) : list A := (fun j => l !!! ring_slot Q get j) <$> seq 0 n.

Lemma ring_next Q i : 0 <= i < Q -> (if i + 1 >=? Q then 0 else i + 1) = (i + 1) mod Q.
Proof.
  intros H. destruct (Z.geb_spec (i + 1) Q).
  - replace (i + 1) with Q by lia. by rewrite Z.mod_same by lia.
  - by rewrite Z.mod_small by lia.
Qed.

Lemma ring_next_eq Q i : 0 <= i < Q -> (if i + 1 =? Q then 0 else i + 1) = (i + 1) mod Q.
Proof.
  intros H. rewrite <-ring_next by done. destruct (Z.eqb_spec (i + 1) Q), (Z.geb_spec (i + 1) Q); done || lia.
Qed.

Lemma ring_slot_lt Q get j : 0 < Q -> (ring_slot Q get j < Z.to_nat Q)%nat.
Proof. unfold ring_slot. intros H. pose proof (Z.mod_pos_bound (get + Z.of_nat j) Q H). lia. Qed.

Lemma ring_slot_inj Q get j k : (j < k < Z.to_nat Q)%nat -> ring_slot Q get j <> ring_slot Q get k.
Proof.
  unfold ring_slot. intros H E. assert (HQ : 0 < Q) by lia.
  pose proof (Z.mod_pos_bound (get + Z.of_nat j) Q HQ). pose proof (Z.mod_pos_bound (get + Z.of_nat k) Q HQ).
  apply Z2Nat.inj in E; [|lia..].
  pose proof (Z.div_mod (get + Z.of_nat j) Q ltac:(lia)). pose proof (Z.div_mod (get + Z.of_nat k) Q ltac:(lia)).
  assert (D : Q * ((get + Z.of_nat k) / Q - (get + Z.of_nat j) / Q) = Z.of_nat k - Z.of_nat j) by lia.
  assert (0 < (get + Z.of_nat k) / Q - (get + Z.of_nat j) / Q) by nia. nia.
Qed.

Lemma ring_slot_0 Q get : 0 <= get < Q -> ring_slot Q get 0 = Z.to_nat get.
Proof. intros H. unfold ring_slot. by rewrite Z.add_0_r, Z.mod_small. Qed.

Lemma ring_slot_S Q get j : 0 < Q -> ring_slot Q get (S j) = ring_slot Q ((get + 1) mod Q) j.
Proof. intros H. unfold ring_slot. rewrite Z.add_mod_idemp_l by lia. do 2 f_equal. lia. Qed.

Lemma ring_view_length Q l get n : length (ring_view Q l get n) = n.
Proof. unfold ring_view. by rewrite length_fmap, length_seq. Qed.

(** A store behind the elements leaves them as they are, and a longer view
    has it at its end. *)
Lemma ring_store Q l get n x : (n < Z.to_nat Q)%nat -> ring_view Q (<[ring_slot Q get n := x]> l) get n = ring_view Q l get n.
Proof.
  intros H. unfold ring_view. apply list_fmap_ext. intros j y [-> Hj]%lookup_seq. apply list_lookup_total_insert_ne.
  intros E. by apply (ring_slot_inj Q get (0 + j) n); [lia|].
Qed.

Lemma ring_view_last Q l get n : ring_view Q l get (S n) = ring_view Q l get n ++ [l !!! ring_slot Q get n].
Proof. unfold ring_view. by rewrite seq_S, fmap_app. Qed.

Lemma ring_pop Q l get n : 0 <= get < Q ->
  ring_view Q l get (S n) = (l !!! Z.to_nat get) :: ring_view Q l ((get + 1) mod Q) n.
Proof.
  intros H. unfold ring_view. cbn [seq fmap list_fmap]. rewrite ring_slot_0 by done. f_equal.
  rewrite <-fmap_S_seq, <-list_fmap_compose. apply list_fmap_ext. intros j x _. unfold compose.
  by rewrite ring_slot_S by lia.
Qed.

(** The index to put at moves with the number of elements. *)
Lemma ring_put_next Q get n : 0 < Q -> ((get + Z.of_nat n) mod Q + 1) mod Q = (get + Z.of_nat (S n)) mod Q.
Proof. intros H. rewrite Z.add_mod_idemp_l by lia. f_equal. lia. Qed.

Lemma ring_get_next Q get n : 0 < Q -> ((get + 1) mod Q + Z.of_nat n) mod Q = (get + Z.of_nat (S n)) mod Q.
Proof. intros H. rewrite Z.add_mod_idemp_l by lia. f_equal. lia. Qed.

(** The indices meet when the ring is empty or full. *)
Lemma ring_meet Q get n : 0 <= get < Q -> Z.of_nat n <= Q ->
  (get + Z.of_nat n) mod Q = get -> n = 0%nat \/ Z.of_nat n = Q.
Proof.
  intros H1 H2 E. destruct (Z.ltb_spec (get + Z.of_nat n) Q).
  - rewrite Z.mod_small in E by lia. left. lia.
  - pose proof (Z.div_mod (get + Z.of_nat n) Q ltac:(lia)) as D. rewrite E in D.
    assert (D' : Q * ((get + Z.of_nat n) / Q) = Z.of_nat n) by lia. set (q := (get + Z.of_nat n) / Q) in *. clearbody q.
    assert (0 < q) by nia. assert (q <= 1) by nia. right. nia.
Qed.
End ring.
