(* ===== verification/SigIo.v ===== *)
(** unpv13e/sigio/dgecho01.c: the UDP echo server that reads datagrams in the
    handler of SIGIO into a circular queue. *)
From Stdlib Require Import ZArith Lia.
From stdpp Require Import base list strings numbers.
From S2P Require Import Prelude CFile Ring.
Local Open Scope c_scope.

Definition QSIZE : Z := 8.
Definition MAXDG : nat := 4096.

(** An element of the queue: the buffers and the lengths in use. *)
Record DG := mk_DG { dg_data : bytes; dg_len : nat; dg_sa : bytes; dg_salen : nat }.

(** A datagram on the network, with the address of its sender. *)
Record dgram := Dgram { payload : bytes; from : bytes }.

(** Where [dg_echo] is: ready for SIGIO and before it is blocked, the test of [while (nqueue == 0)], in [sigsuspend],
    unblocking SIGIO, [Sendto], [++iget], blocking SIGIO, [nqueue--]. *)
Inductive pc := P_enter | P_test | P_suspend | P_unblock | P_send | P_advance | P_block | P_decr.
#[export] Instance pc_eq_dec : EqDecision pc.
Proof. solve_decision. Defined.

Record server := Server {
  dg : list DG;
  cntread : list Z;
  iget : Z;
  iput : Z;
  nqueue : Z;
  clilen : nat;
  at_pc : pc;
  received : list dgram;
  sent : list dgram
}.
Definition set_dg v s := Server v (cntread s) (iget s) (iput s) (nqueue s) (clilen s) (at_pc s) (received s) (sent s).
Definition set_cntread v s := Server (dg s) v (iget s) (iput s) (nqueue s) (clilen s) (at_pc s) (received s) (sent s).
Definition set_iget v s := Server (dg s) (cntread s) v (iput s) (nqueue s) (clilen s) (at_pc s) (received s) (sent s).
Definition set_iput v s := Server (dg s) (cntread s) (iget s) v (nqueue s) (clilen s) (at_pc s) (received s) (sent s).
Definition set_nqueue v s := Server (dg s) (cntread s) (iget s) (iput s) v (clilen s) (at_pc s) (received s) (sent s).
Definition goto v s := Server (dg s) (cntread s) (iget s) (iput s) (nqueue s) (clilen s) v (received s) (sent s).
Definition record_received v s := Server (dg s) (cntread s) (iget s) (iput s) (nqueue s) (clilen s) (at_pc s) (received s ++ [v]) (sent s).
Definition record_sent v s := Server (dg s) (cntread s) (iget s) (iput s) (nqueue s) (clilen s) (at_pc s) (received s) (sent s ++ [v]).

(** [dg_echo] has made the socket non-blocking and not yet blocked SIGIO;
    [junk] is what malloc left in a buffer. *)
Definition start (clilen_arg : nat) (junk : nat -> Z) : server :=
  Server (replicate (Z.to_nat QSIZE) (mk_DG (junk <$> seq 0 MAXDG) 0 (junk <$> seq 0 clilen_arg) clilen_arg))
    (replicate (Z.to_nat QSIZE + 1) 0) 0 0 0 clilen_arg P_enter [] [].

Definition dg_at (i : Z) : M server DG := fun s =>
  if i <? 0 then Undef "dg[]" else match dg s !! Z.to_nat i with Some p => Ret p s | None => Undef "dg[]" end.
Definition put_dg (i : Z) (f : DG -> DG) : M server unit :=
  let* p := dg_at i in
  modify (fun s => set_dg (<[Z.to_nat i := f p]> (dg s)) s).
Definition count (i : nat) : M server unit := fun s =>
  match cntread s !! i with Some n => Ret tt (set_cntread (<[i := n + 1]> (cntread s)) s) | None => Undef "cntread[]" end.

(** [recvfrom] into an element: a longer datagram is cut, and the length of
    the address replaces [clilen]. *)
Definition recvfrom (n : nat) (d : dgram) (p : DG) : DG :=
  mk_DG (splice 0 (take MAXDG (payload d)) (dg_data p)) (dg_len p) (splice 0 (take n (from d)) (dg_sa p)) (length (from d)).
(** Both have to fit in the buffers of the element. *)
Definition recv_fits (n : nat) (d : dgram) (p : DG) : bool :=
  (length (take MAXDG (payload d)) <=? length (dg_data p))%nat && (length (take n (from d)) <=? length (dg_sa p))%nat.
Definition with_salen v p := mk_DG (dg_data p) (dg_len p) (dg_sa p) v.
Definition with_len v p := mk_DG (dg_data p) v (dg_sa p) (dg_salen p).

Definition recv_into (i : Z) (n : nat) (d : dgram) : M server unit :=
  let* p := dg_at i in
  (if recv_fits n d p then skip else undef "recvfrom");;;
  put_dg i (recvfrom n d).

(** [sig_io]: [ds] are the datagrams it can read before [recvfrom] finds no
    more ([fails] for another error). *)
Fixpoint sig_io (ds : list dgram) (fails : bool) (nread : nat) : M server unit :=
  let* n := gets nqueue in
  die_if (n >=? QSIZE) "receive overflow";;;
  let* i := gets iput in
  let* len := gets clilen in
  put_dg i (with_salen len);;;
  match ds with
  | [] => die_if fails "recvfrom error";;; count nread
  | d :: ds =>
    recv_into i len d;;;
    put_dg i (with_len (length (take MAXDG (payload d))));;;
    modify (record_received (Dgram (take MAXDG (payload d)) (from d)));;;
    modify (set_nqueue (n + 1));;;
    modify (set_iput (if i + 1 >=? QSIZE then 0 else i + 1));;;
    sig_io ds fails (S nread)
  end.

(** [Sendto] of an element. *)
Definition sendto (p : DG) : M server unit := fun s =>
  if (length (dg_data p) <? dg_len p)%nat || (length (dg_sa p) <? dg_salen p)%nat then Undef "sendto"
  else Ret tt (record_sent (Dgram (take (dg_len p) (dg_data p)) (take (dg_salen p) (dg_sa p))) s).

(** A step of [dg_echo]; [None] while it waits in [sigsuspend]. *)
Definition main_step (s : server) : option (outcome server unit) :=
  match at_pc s with
  | P_enter => Some (Ret tt (goto P_test s))
  | P_test => Some (Ret tt (goto (if nqueue s =? 0 then P_suspend else P_unblock) s))
  | P_suspend => None
  | P_unblock => Some (Ret tt (goto P_send s))
  | P_send => Some ((let* p := dg_at (iget s) in sendto p;;; modify (goto P_advance)) s)
  | P_advance => Some (Ret tt (goto P_block (set_iget (if iget s + 1 >=? QSIZE then 0 else iget s + 1) s)))
  | P_block => Some (Ret tt (goto P_decr s))
  | P_decr => Some (Ret tt (goto P_test (set_nqueue (nqueue s - 1) s)))
  end.

(** SIGIO is blocked outside [sigsuspend] and the part around [Sendto]; the
    handler runs with SIGIO blocked. *)
Definition deliverable (s : server) : bool :=
  match at_pc s with P_enter | P_suspend | P_send | P_advance | P_block => true | _ => false end.
(** [sigsuspend] returns after a handler. *)
Definition resume (s : server) : server := match at_pc s with P_suspend => goto P_test s | _ => s end.
Definition signal (ds : list dgram) (s : server) : outcome server unit := (sig_io ds false 0;;; modify resume) s.

Inductive step : server -> server -> Prop :=
| step_main s s' : main_step s = Some (Ret tt s') -> step s s'
| step_signal ds s s' : deliverable s = true -> signal ds s = Ret tt s' -> step s s'.

(** The states of the runs in which the senders' addresses fit. *)
Definition fits (n : nat) (d : dgram) : Prop := (length (from d) <= n)%nat.
Inductive reachable (n : nat) (junk : nat -> Z) : server -> Prop :=
| reachable_start : reachable n junk (start n junk)
| reachable_step s s' : reachable n junk s -> step s s' -> Forall (fits n) (received s') -> reachable n junk s'.

(** * The queue *)

#[export] Instance DG_inhabited : Inhabited DG := populate (mk_DG [] 0 [] 0).

(** Between [++iget] and [nqueue--] the element that was sent is still
    counted; just before [++iget] it is still the first. *)
Definition extra (p : pc) : Z := match p with P_block | P_decr => 1 | _ => 0 end.
Definition lead (p : pc) : nat := match p with P_advance => 1 | _ => 0 end.
Definition slot (s : server) (j : nat) : nat := ring_slot QSIZE (iget s) j.
Definition contents (p : DG) : dgram := Dgram (take (dg_len p) (dg_data p)) (take (dg_salen p) (dg_sa p)).
Definition size (s : server) : nat := Z.to_nat (nqueue s - extra (at_pc s)).
Definition queued (s : server) : list dgram :=
  (fun j => contents (dg s !!! slot s j)) <$> seq (lead (at_pc s)) (size s - lead (at_pc s)).

Definition dg_ok (n : nat) (p : DG) : Prop :=
  length (dg_data p) = MAXDG /\ length (dg_sa p) = n /\ (dg_len p <= MAXDG)%nat /\ (dg_salen p <= n)%nat.

Record ring_ok (n : nat) (s : server) : Prop := {
  ok_size : length (dg s) = Z.to_nat QSIZE;
  ok_elems : Forall (dg_ok n) (dg s);
  ok_cntread : length (cntread s) = S (Z.to_nat QSIZE);
  ok_clilen : clilen s = n;
  ok_iget : 0 <= iget s < QSIZE;
  ok_count : extra (at_pc s) + Z.of_nat (lead (at_pc s)) <= nqueue s <= QSIZE;
  ok_iput : iput s = (iget s + Z.of_nat (size s)) mod QSIZE
}.
Definition server_ok (n : nat) (s : server) : Prop :=
  ring_ok n s /\ nqueue s < QSIZE /\
  match at_pc s with P_unblock | P_send => 0 < nqueue s | P_suspend => nqueue s = 0 | _ => True end.

Definition cut (d : dgram) : dgram := Dgram (take MAXDG (payload d)) (from d).
Definition stored (n : nat) (d : dgram) (p : DG) : DG :=
  with_len (length (take MAXDG (payload d))) (recvfrom n d (with_salen n p)).

Lemma stored_ok n d p : dg_ok n p -> fits n d -> dg_ok n (stored n d p) /\ contents (stored n d p) = cut d.
Proof.
  intros (H1 & H2 & H3 & H4) Hd. unfold fits in Hd. unfold stored, with_len, recvfrom, with_salen, dg_ok, contents, cut. cbn [dg_data dg_len dg_sa dg_salen].
  assert (Hl : (length (take MAXDG (payload d)) <= MAXDG)%nat) by (rewrite length_take; lia).
  rewrite (take_ge (from d) n) by done. split.
  - split_and!; try done; rewrite splice_length; lia.
  - change (splice 0 ?a ?b) with (a ++ drop (length a) b). by rewrite !take_app_length.
Qed.

(** One datagram into the queue. *)
Definition enqueue (d : dgram) (s : server) : server :=
  let i := iput s in
  set_iput (if i + 1 >=? QSIZE then 0 else i + 1) (set_nqueue (nqueue s + 1) (record_received (cut d)
    (set_dg (<[Z.to_nat i := stored (clilen s) d (dg s !!! Z.to_nat i)]> (dg s)) s))).

Lemma enqueue_ok n d s : ring_ok n s -> nqueue s < QSIZE -> fits n d ->
  ring_ok n (enqueue d s) /\ queued (enqueue d s) = queued s ++ [cut d].
Proof.
  intros H Hlt Hd. destruct H as [H1 H2 H3 H4 H5 H6 H7].
  assert (Hsz : size (enqueue d s) = S (size s)) by (unfold size; cbn; lia).
  assert (Hm : (size s < Z.to_nat QSIZE)%nat) by (unfold size; destruct (at_pc s); cbn in *; lia).
  assert (Hi : 0 <= iput s < QSIZE) by (rewrite H7; apply Z.mod_pos_bound; done).
  assert (Hslot : Z.to_nat (iput s) = slot s (size s)) by (unfold slot, ring_slot; by rewrite H7).
  assert (Hat : dg_ok n (dg s !!! Z.to_nat (iput s))).
  { apply (Forall_lookup_1 _ (dg s) (Z.to_nat (iput s))); [done|]. apply list_lookup_lookup_total_lt. lia. }
  destruct (stored_ok (clilen s) d (dg s !!! Z.to_nat (iput s))) as [Hs1 Hs2]; [by rewrite H4..|].
  split.
  - constructor; cbn [enqueue dg cntread iget iput nqueue clilen at_pc set_iput set_nqueue record_received set_dg]; try done.
    + by rewrite length_insert.
    + apply Forall_insert; [done|by rewrite H4 in Hs1 |- *].
    + lia.
    + rewrite ring_next by done. rewrite Hsz, H7, Z.add_mod_idemp_l by done. f_equal. lia.
  - unfold queued. rewrite Hsz. cbn [enqueue dg iget at_pc set_iput set_nqueue record_received set_dg].
    change (slot (enqueue d s)) with (slot s). 
    assert (Hl : (lead (at_pc s) <= size s)%nat) by (unfold size; destruct (at_pc s); cbn in *; lia).
    replace (S (size s) - lead (at_pc s))%nat with (size s - lead (at_pc s) + 1)%nat by lia. rewrite seq_app, fmap_app. f_equal.
    + apply list_fmap_ext. intros j x [-> Hj]%lookup_seq. f_equal. apply list_lookup_total_insert_ne.
      rewrite Hslot. intros E. apply (ring_slot_inj QSIZE (iget s) (lead (at_pc s) + j) (size s)); [lia|done].
    + cbn [seq fmap list_fmap]. replace (lead (at_pc s) + (size s - lead (at_pc s)))%nat with (size s) by lia.
      rewrite <-Hslot, list_lookup_total_insert_eq by lia. by rewrite Hs2.
Qed.

(** * The handler *)

Lemma put_dg_run i f s : 0 <= i -> (Z.to_nat i < length (dg s))%nat ->
  put_dg i f s = Ret tt (set_dg (<[Z.to_nat i := f (dg s !!! Z.to_nat i)]> (dg s)) s).
Proof.
  intros H1 H2. unfold put_dg, bind, dg_at. rewrite (proj2 (Z.ltb_ge _ _)) by done.
  by rewrite (list_lookup_lookup_total_lt _ _ H2).
Qed.

Lemma iput_lt n s : ring_ok n s -> 0 <= iput s /\ (Z.to_nat (iput s) < length (dg s))%nat.
Proof.
  intros H. rewrite (ok_size _ _ H), (ok_iput _ _ H). pose proof (Z.mod_pos_bound (iget s + Z.of_nat (size s)) QSIZE). unfold QSIZE in *. lia.
Qed.

(** Clearing the length of the next address changes nothing in the queue. *)
Lemma salen_ok n s : ring_ok n s -> nqueue s < QSIZE ->
  let s' := set_dg (<[Z.to_nat (iput s) := with_salen n (dg s !!! Z.to_nat (iput s))]> (dg s)) s in
  ring_ok n s' /\ queued s' = queued s.
Proof.
  intros H Hlt s'. destruct (iput_lt _ _ H) as [Hi1 Hi2]. split.
  - destruct H as [H1 H2 H3 H4 H5 H6 H7]. constructor; cbn [s' dg cntread iget iput nqueue clilen at_pc set_dg]; try done.
    + by rewrite length_insert.
    + apply Forall_insert; [done|]. pose proof (Forall_lookup_1 _ (dg s) _ _ H2 (list_lookup_lookup_total_lt _ _ Hi2)) as (E1 & E2 & E3 & E4).
      by split_and!.
  - unfold queued. cbn [s' dg at_pc set_dg]. change (size s') with (size s). change (slot s') with (slot s).
    apply list_fmap_ext. intros j x [-> Hj]%lookup_seq. f_equal. apply list_lookup_total_insert_ne. rewrite (ok_iput _ _ H). intros E.
    apply (ring_slot_inj QSIZE (iget s) (lead (at_pc s) + j) (size s)); [|unfold slot in E; by rewrite <-E].
    unfold size in *. pose proof (ok_count _ _ H). destruct (at_pc s); cbn in *; lia.
Qed.

(** The body of the loop. *)
Lemma recv_into_run i n d s : 0 <= i -> (Z.to_nat i < length (dg s))%nat -> recv_fits n d (dg s !!! Z.to_nat i) = true ->
  recv_into i n d s = put_dg i (recvfrom n d) s.
Proof.
  intros H1 H2 H3. unfold recv_into, bind at 1, dg_at. rewrite (proj2 (Z.ltb_ge _ _)) by done.
  by rewrite (list_lookup_lookup_total_lt _ _ H2), H3.
Qed.

Lemma sig_io_cons n d ds fails nread s : ring_ok n s -> nqueue s < QSIZE ->
  sig_io (d :: ds) fails nread s = sig_io ds fails (S nread) (enqueue d s).
Proof.
  intros H Hlt. destruct (iput_lt _ _ H) as [Hi1 Hi2]. cbn [sig_io]. rewrite bind_gets. cbv beta.
  unfold die_if. replace (nqueue s >=? QSIZE) with false by (symmetry; destruct (Z.geb_spec (nqueue s) QSIZE); [lia|done]).
  change ((skip;;; ?k) s) with (k s). rewrite !bind_gets. cbv beta.
  rewrite (bind_run _ _ _ _ _ (put_dg_run (iput s) _ s Hi1 Hi2)). cbv beta.
  set (s1 := set_dg _ s). assert (L1 : (Z.to_nat (iput s) < length (dg s1))%nat) by (cbn; by rewrite length_insert).
  assert (F1 : recv_fits (clilen s) d (dg s1 !!! Z.to_nat (iput s)) = true).
  { cbn [s1 set_dg dg]. rewrite list_lookup_total_insert_eq by done. unfold recv_fits, with_salen. cbn [dg_data dg_sa].
    pose proof (Forall_lookup_1 _ (dg s) _ _ (ok_elems _ _ H) (list_lookup_lookup_total_lt _ _ Hi2)) as (-> & -> & _).
    rewrite !length_take, (ok_clilen _ _ H), !(proj2 (Nat.leb_le _ _)) by lia. done. }
  unfold bind at 1. rewrite (recv_into_run (iput s) (clilen s) d s1 Hi1 L1 F1), (put_dg_run (iput s) _ s1 Hi1 L1). cbv beta.
  set (s2 := set_dg _ s1). assert (L2 : (Z.to_nat (iput s) < length (dg s2))%nat) by (cbn; by rewrite !length_insert).
  rewrite (bind_run _ _ _ _ _ (put_dg_run (iput s) _ s2 Hi1 L2)). cbv beta. rewrite !bind_modify. f_equal.
  unfold enqueue, stored, s2, s1. cbn [dg set_dg]. rewrite !list_insert_insert_eq.
  rewrite !list_lookup_total_insert_eq by (rewrite ?length_insert; done). done.
Qed.

Definition handled (n : nat) (ds : list dgram) (fails : bool) (s : server) (o : outcome server unit) : Prop :=
  match o with
  | Ret _ s' => nqueue s + Z.of_nat (length ds) < QSIZE /\ fails = false /\ ring_ok n s' /\ at_pc s' = at_pc s /\
      nqueue s' = nqueue s + Z.of_nat (length ds) /\ received s' = received s ++ (cut <$> ds) /\ sent s' = sent s /\
      queued s' = queued s ++ (cut <$> ds)
  | Died _ _ => QSIZE <= nqueue s + Z.of_nat (length ds) \/ fails = true
  | _ => False
  end.

Lemma sig_io_run n ds fails nread s :
  ring_ok n s -> Forall (fits n) ds -> Z.of_nat nread <= nqueue s -> handled n ds fails s (sig_io ds fails nread s).
Proof.
  revert nread s. induction ds as [|d ds IH]; intros nread s H Hf Hr.
  - cbn [sig_io]. rewrite bind_gets. cbv beta. destruct (Z.geb_spec (nqueue s) QSIZE) as [Hge|Hlt].
    { cbn. left. lia. }
    change ((die_if false _;;; ?k) s) with (k s). rewrite !bind_gets. cbv beta. rewrite (ok_clilen _ _ H).
    destruct (iput_lt _ _ H) as [Hi1 Hi2]. rewrite (bind_run _ _ _ _ _ (put_dg_run (iput s) _ s Hi1 Hi2)). cbv beta.
    destruct (salen_ok n s H Hlt) as [H1 Hq]. set (s1 := set_dg _ s) in *. destruct fails; [by right|].
    change ((die_if false _;;; ?k) s1) with (k s1). unfold count.
    destruct (lookup_lt_is_Some_2 (cntread s1) nread) as [v Hv]; [rewrite (ok_cntread _ _ H1); unfold QSIZE in *; lia|].
    rewrite Hv. cbn [handled length fmap list_fmap]. rewrite !app_nil_r. split_and!; try done; try (cbn; lia).
    destruct H1 as [G1 G2 G3 G4 G5 G6 G7]. constructor; cbn in *; try done. by rewrite length_insert.
  - apply list.Forall_cons in Hf as [Hd Hf]. destruct (Z.ltb_spec (nqueue s) QSIZE) as [Hlt|Hge].
    + rewrite (sig_io_cons n) by done. destruct (enqueue_ok n d s H Hlt Hd) as [H1 Hq].
      specialize (IH (S nread) (enqueue d s) H1 Hf ltac:(cbn; lia)). unfold handled in *. cbn [length].
      change (nqueue (enqueue d s)) with (nqueue s + 1) in IH.
      destruct (sig_io ds fails (S nread) (enqueue d s)) as [[] s'|msg s'| |]; try done.
      * destruct IH as (I1 & I2 & I3 & I4 & I5 & I6 & I7 & I8). rewrite Hq in I8. cbn [enqueue received set_iput set_nqueue record_received set_dg sent at_pc] in *.
        rewrite <-app_assoc in I6, I8. split_and!; try done; lia.
      * destruct IH; [left; lia|by right].
    + cbn [sig_io]. rewrite bind_gets. cbv beta. destruct (Z.geb_spec (nqueue s) QSIZE); [|lia]. cbn [handled length]. left. lia.
Qed.

(** * The server *)

Lemma fresh_ok m n (junk : nat -> Z) :
  length (junk <$> seq 0 m) = m /\ length (junk <$> seq 0 n) = n /\ (0 <= m)%nat /\ (n <= n)%nat.
Proof. rewrite !length_fmap, !length_seq. split_and!; lia. Qed.

Lemma dgecho_start_ok n junk : server_ok n (start n junk).
Proof.
  assert (H : dg_ok n (mk_DG (junk <$> seq 0 MAXDG) 0 (junk <$> seq 0 n) n)) by exact (fresh_ok MAXDG n junk).
  unfold start. revert H. generalize (mk_DG (junk <$> seq 0 MAXDG) 0 (junk <$> seq 0 n) n). intros p H.
  split; [|split; [reflexivity|exact I]].
  constructor; cbn [dg cntread iget iput nqueue clilen at_pc].
  - apply length_replicate.
  - by apply Forall_replicate.
  - apply length_replicate.
  - reflexivity.
  - unfold QSIZE. lia.
  - unfold extra, lead, QSIZE. lia.
  - reflexivity.
Qed.

(** What came in is what went out, followed by the queue. *)
Definition conserved (s : server) : Prop := received s = sent s ++ queued s.

Lemma ring_ok_goto n s p : ring_ok n s -> extra p = extra (at_pc s) -> extra p + Z.of_nat (lead p) <= nqueue s -> ring_ok n (goto p s).
Proof.
  intros [H1 H2 H3 H4 H5 H6 H7] E L. constructor; cbn; try done; [lia|]. unfold size in *. cbn. by rewrite E.
Qed.

Lemma queued_goto s p : extra p = extra (at_pc s) -> lead p = lead (at_pc s) -> queued (goto p s) = queued s.
Proof. intros E L. unfold queued, size. cbn. by rewrite E, L. Qed.

Lemma send_ok n s : ring_ok n s -> at_pc s = P_send -> 0 < nqueue s -> conserved s ->
  exists s', (let* p := dg_at (iget s) in sendto p;;; modify (goto P_advance)) s = Ret tt s' /\
    ring_ok n s' /\ at_pc s' = P_advance /\ nqueue s' = nqueue s /\ conserved s'.
Proof.
  intros H Ep Hn Hc. assert (Hi : (Z.to_nat (iget s) < length (dg s))%nat).
  { rewrite (ok_size _ _ H). pose proof (ok_iget _ _ H). lia. }
  pose proof (list_lookup_lookup_total_lt _ _ Hi) as E. set (p := dg s !!! Z.to_nat (iget s)) in *.
  pose proof (Forall_lookup_1 _ _ _ _ (ok_elems _ _ H) E) as (E1 & E2 & E3 & E4).
  unfold bind at 1, dg_at. rewrite (proj2 (Z.ltb_ge _ _)), E by apply (ok_iget _ _ H).
  unfold bind, sendto. rewrite !(proj2 (Nat.ltb_ge _ _)) by lia. cbn [orb]. eexists. split; [reflexivity|].
  split_and!; try done.
  - apply (ring_ok_goto n (record_sent _ s)); cbn; rewrite ?Ep; try done; [|lia].
    destruct H as [H1 H2 H3 H4 H5 H6 H7]. by constructor.
  - unfold conserved, queued, size in *. cbn. rewrite Hc, Ep. cbn [extra lead]. rewrite Z.sub_0_r, Nat.sub_0_r, <-app_assoc. f_equal.
    destruct (Z.to_nat (nqueue s)) as [|m] eqn:Em; [lia|]. cbn [seq fmap list_fmap app]. rewrite Nat.sub_succ, Nat.sub_0_r. f_equal.
    unfold slot. by rewrite ring_slot_0 by apply (ok_iget _ _ H).
Qed.

Lemma advance_ok n s : ring_ok n s -> at_pc s = P_advance -> conserved s ->
  let s' := goto P_block (set_iget (if iget s + 1 >=? QSIZE then 0 else iget s + 1) s) in
  ring_ok n s' /\ conserved s'.
Proof.
  intros H Ep Hc s'. pose proof (ok_iget _ _ H) as Hi. assert (Hn : iget s' = (iget s + 1) mod QSIZE) by by apply ring_next.
  pose proof (ok_count _ _ H) as Hq. rewrite Ep in Hq. cbn in Hq.
  assert (Hsz : size s = S (size s')) by (unfold size; rewrite Ep; cbn; lia).
  assert (Hslot : forall j, slot s' j = slot s (S j)).
  { intros j. unfold slot. rewrite Hn. symmetry. by apply ring_slot_S. }
  split.
  - destruct H as [H1 H2 H3 H4 H5 H6 H7]. constructor; try done.
    + rewrite Hn. apply Z.mod_pos_bound. done.
    + change (iput s') with (iput s). rewrite H7, Hn, Z.add_mod_idemp_l by done. rewrite Hsz. f_equal.
      clear -n; rewrite Nat2Z.inj_succ; lia.
  - unfold conserved in *. change (received s') with (received s). change (sent s') with (sent s). rewrite Hc. f_equal.
    unfold queued. rewrite Ep. change (at_pc s') with P_block. cbn [lead]. rewrite Hsz, Nat.sub_succ, Nat.sub_0_r.
    rewrite <-fmap_S_seq, <-list_fmap_compose. apply list_fmap_ext. intros j x _. unfold compose. by rewrite Hslot.
Qed.

Lemma dgecho_main_step_ok n s o : server_ok n s -> conserved s -> main_step s = Some o ->
  exists s', o = Ret tt s' /\ server_ok n s' /\ conserved s'.
Proof.
  intros (H & Hlt & Hb) Hc. unfold main_step. pose proof (ok_count _ _ H) as Hq.
  destruct (at_pc s) eqn:Ep; intros [= <-]; cbn in Hq.
  - eexists. split; [reflexivity|]. split; [split; [apply ring_ok_goto; rewrite ?Ep; cbn; try done; lia|done]|].
    unfold conserved. rewrite queued_goto by (by rewrite Ep). done.
  - eexists. split; [reflexivity|]. destruct (Z.eqb_spec (nqueue s) 0).
    + split; [split; [apply ring_ok_goto; rewrite ?Ep; cbn; try done; lia|done]|]. unfold conserved. rewrite queued_goto by (by rewrite Ep). done.
    + split; [split; [apply ring_ok_goto; rewrite ?Ep; cbn; try done; lia|cbn; lia]|]. unfold conserved. rewrite queued_goto by (by rewrite Ep). done.
  - eexists. split; [reflexivity|]. split; [split; [apply ring_ok_goto; rewrite ?Ep; cbn; try done; lia|done]|].
    unfold conserved. rewrite queued_goto by (by rewrite Ep). done.
  - destruct (send_ok n s H Ep Hb Hc) as (s' & E & H' & Ep' & Hn & Hc'). exists s'. split; [done|]. split; [|done].
    split; [done|]. rewrite Ep', Hn. done.
  - destruct (advance_ok n s H Ep Hc) as [H' Hc']. eexists. split; [reflexivity|]. done.
  - eexists. split; [reflexivity|]. split; [split; [apply ring_ok_goto; rewrite ?Ep; cbn; try done; lia|done]|].
    unfold conserved. rewrite queued_goto by (by rewrite Ep). done.
  - eexists. split; [reflexivity|]. set (s' := goto _ _). assert (Hsz : size s' = size s) by (unfold size; rewrite Ep; cbn; lia). split.
    + split; [|cbn; lia]. destruct H as [H1 H2 H3 H4 H5 H6 H7]. constructor; try done; [cbn; lia|]. by rewrite Hsz.
    + unfold conserved, queued. rewrite Hsz. unfold conserved, queued in Hc. by rewrite Ep in Hc.
Qed.

Lemma sent_step s s' : (let* p := dg_at (iget s) in sendto p;;; modify (goto P_advance)) s = Ret tt s' -> received s' = received s.
Proof.
  unfold bind, dg_at, sendto. destruct (iget s <? 0); [done|]. destruct (dg s !! Z.to_nat (iget s)); [|done].
  destruct (_ || _); [done|]. by intros [= <-].
Qed.

(** What a handler that returns has recorded. *)
Lemma put_dg_received i f s s' : put_dg i f s = Ret tt s' -> received s' = received s /\ iput s' = iput s.
Proof. unfold put_dg, bind, dg_at. destruct (i <? 0); [done|]. destruct (dg s !! _); [|done]. by intros [= <-]. Qed.

Lemma recv_into_received i n d s s' : recv_into i n d s = Ret tt s' -> received s' = received s /\ iput s' = iput s.
Proof.
  unfold recv_into, bind at 1, dg_at. destruct (i <? 0); [done|]. destruct (dg s !! _); [|done].
  destruct (recv_fits _ _ _); [|done]. change ((skip;;; ?k) s) with (k s). apply put_dg_received.
Qed.

Lemma sig_io_received ds fails nread s s' : sig_io ds fails nread s = Ret tt s' -> received s' = received s ++ (cut <$> ds).
Proof.
  revert nread s. induction ds as [|d ds IH]; intros nread s; cbn [sig_io]; rewrite bind_gets; cbv beta; unfold die_if;
    destruct (nqueue s >=? QSIZE); try done;
    match goal with |- context [(skip;;; ?k) s] => change ((skip;;; k) s) with (k s) end; rewrite !bind_gets; cbv beta; unfold bind at 1;
    (destruct (put_dg (iput s) _ s) as [[] s1| | |] eqn:E1; try done); apply put_dg_received in E1 as [E1 _]; rewrite <-E1.
  - destruct fails; [done|]. change ((skip;;; ?k) s1) with (k s1). unfold count. destruct (cntread s1 !! nread); [|done].
    intros [= <-]. cbn. by rewrite app_nil_r.
  - unfold bind at 1. destruct (recv_into _ _ _ s1) as [[] s2| | |] eqn:E2; try done. apply recv_into_received in E2 as [E2 _].
    unfold bind at 1. destruct (put_dg _ _ s2) as [[] s3| | |] eqn:E3; try done. apply put_dg_received in E3 as [E3 _].
    rewrite !bind_modify. intros E%IH. rewrite E. cbn. by rewrite E3, E2, <-app_assoc.
Qed.

(** The addresses of the datagrams that a handler read are those recorded. *)
Lemma signal_fits n ds s s' : signal ds s = Ret tt s' -> Forall (fits n) (received s') -> Forall (fits n) ds.
Proof.
  unfold signal, bind. destruct (sig_io ds false 0 s) as [[] s1| | |] eqn:E; try done. apply sig_io_received in E.
  intros [= <-]. replace (received (resume s1)) with (received s1) by (unfold resume; by destruct (at_pc s1)).
  rewrite E. intros [_ H]%list.Forall_app. exact (proj1 (list.Forall_fmap cut (fits n) ds) H).
Qed.

Lemma signal_ok n ds s s' : server_ok n s -> conserved s -> Forall (fits n) ds -> deliverable s = true -> signal ds s = Ret tt s' ->
  server_ok n s' /\ conserved s'.
Proof.
  intros (H & Hlt & Hb) Hc Hf Hd. unfold signal, bind. pose proof (ok_count _ _ H) as Hq.
  assert (Hn0 : 0 <= nqueue s) by (destruct (at_pc s); cbn in Hq; lia).
  pose proof (sig_io_run n ds false 0 s H Hf ltac:(lia)) as W. destruct (sig_io ds false 0 s) as [[] s1| | |]; try done.
  destruct W as (W1 & _ & W3 & W4 & W5 & W6 & W7 & W8). intros [= <-].
  assert (Hc1 : conserved s1) by (unfold conserved in *; by rewrite W6, W7, W8, Hc, app_assoc).
  unfold deliverable in Hd. unfold resume. rewrite W4. destruct (at_pc s) eqn:Ep; try discriminate Hd; clear Hd; cbn in Hq.
  - split; [|done]. split; [done|]. rewrite W4. split; [lia|done].
  - split; [|unfold conserved; by rewrite queued_goto by by rewrite W4].
    split; [apply ring_ok_goto; rewrite ?W4; cbn; try done; lia|cbn; split; [lia|done]].
  - split; [|done]. split; [done|]. rewrite W4. split; lia.
  - split; [|done]. split; [done|]. rewrite W4. split; [lia|done].
  - split; [|done]. split; [done|]. rewrite W4. split; [lia|done].
Qed.

Lemma dgecho_reachable_ok n junk s : reachable n junk s -> server_ok n s /\ conserved s.
Proof.
  induction 1 as [|s s' _ [Hok Hc] Hstep Hf]; [split; [apply dgecho_start_ok|done]|].
  destruct Hstep as [s s' E|ds s s' Hd E].
  - destruct (dgecho_main_step_ok n s _ Hok Hc E) as (s1 & [= <-] & H); done.
  - apply (signal_ok n ds s); try done. by apply (signal_fits n ds s s').
Qed.

(** * Emptying the queue *)

Fixpoint main_run (k : nat) (s : server) : option server :=
  match k with
  | O => Some s
  | S k => match main_step s with Some (Ret _ s') => main_run k s' | _ => None end
  end.

(** The steps up to [sigsuspend]: six for each datagram. *)
Definition weight (p : pc) : Z :=
  match p with P_enter => 2 | P_test => 1 | P_suspend => 0 | P_unblock => 0 | P_send => -1 | P_advance => -2 | P_block => -3 | P_decr => -4 end.
Definition distance (s : server) : Z := 6 * nqueue s + weight (at_pc s).

Lemma main_step_distance n s : server_ok n s -> conserved s -> at_pc s <> P_suspend ->
  exists s', main_step s = Some (Ret tt s') /\ distance s' = distance s - 1 /\ received s' = received s.
Proof.
  intros (H & Hlt & Hb) Hc Hp. unfold main_step, distance. destruct (at_pc s) eqn:Ep; try done;
    try (eexists; split; [reflexivity|]; split; [cbn; lia|done]).
  - eexists. split; [reflexivity|]. destruct (Z.eqb_spec (nqueue s) 0); split; cbn; done || lia.
  - destruct (send_ok n s H Ep Hb Hc) as (s' & E & H' & Ep' & Hn & Hc'). exists s'. rewrite E, Ep', Hn. split; [done|]. split; [cbn; lia|].
    by rewrite <-(sent_step s s') by done.
Qed.

Lemma distance_pos n s : server_ok n s -> 0 <= distance s /\ (distance s = 0 -> at_pc s = P_suspend).
Proof.
  intros (H & Hlt & Hb). pose proof (ok_count _ _ H) as Hq. unfold distance. destruct (at_pc s); cbn in *; split; done || lia.
Qed.

Lemma main_run_empties n k s : server_ok n s -> conserved s -> distance s = Z.of_nat k ->
  exists s', main_run k s = Some s' /\ at_pc s' = P_suspend /\ received s' = received s /\ sent s' = received s.
Proof.
  revert s. induction k as [|k IH]; intros s Hok Hc Hk.
  - pose proof (proj2 (distance_pos _ _ Hok) Hk) as Ep. exists s. split_and!; try done. rewrite Hc.
    unfold queued, size. destruct Hok as (_ & _ & Hb). rewrite Ep in Hb |- *. rewrite Hb. cbn. by rewrite app_nil_r.
  - destruct (decide (at_pc s = P_suspend)) as [Ep|Ep].
    { exfalso. destruct Hok as (_ & _ & Hb). unfold distance in Hk. rewrite Ep in Hb, Hk. cbn in Hk. lia. }
    destruct (main_step_distance n s Hok Hc Ep) as (s1 & E & Hd & Hr). destruct (dgecho_main_step_ok n s _ Hok Hc E) as (s2 & [= <-] & Hok1 & Hc1).
    destruct (IH s1 Hok1 Hc1 ltac:(lia)) as (s' & R & Ep' & R1 & R2). exists s'. cbn [main_run]. rewrite E. split_and!; congruence.
Qed.

(** The handler, in a state of a run. *)
Definition handler_ok (s : server) (ds : list dgram) (fails : bool) (o : outcome server unit) : Prop :=
  match o with
  | Ret _ s' => nqueue s' = nqueue s + Z.of_nat (length ds) /\ nqueue s' < QSIZE /\ fails = false /\
      queued s' = queued s ++ (cut <$> ds) /\ sent s' = sent s
  | Died _ _ => QSIZE <= nqueue s + Z.of_nat (length ds) \/ fails = true
  | _ => False
  end.

Lemma handler_run n s ds fails : server_ok n s -> Forall (fits n) ds -> handler_ok s ds fails (sig_io ds fails 0 s).
Proof.
  intros Hok Hf. pose proof (ok_count _ _ (proj1 Hok)) as Hq.
  assert (Hn : Z.of_nat 0 <= nqueue s) by (destruct (at_pc s); cbn in *; lia).
  pose proof (sig_io_run n ds fails 0 s (proj1 Hok) Hf Hn) as W. unfold handler_ok.
  destruct (sig_io ds fails 0 s) as [[] s'| | |]; try done.
  destruct W as (W1 & W2 & _ & _ & W5 & _ & W7 & W8). rewrite W5. by split_and!.
Qed.

(** * Properties *)

(** C30: The server is a first-in first-out queue. In every reachable state of
    [dg_echo] and its handler, whatever the moments at which SIGIO arrives,
    the datagrams read so far are those sent back, in order, followed by those
    in the ring; fewer than QSIZE are queued; no step of the main loop leaves
    the arrays; a handler that is entered there, whatever it reads from senders
    whose addresses fit, does not leave them either: it queues all of it in
    order, or ends the program, which happens only when the ring would be full
    or on an error of [recvfrom]; and without further signals the loop gets back
    to [sigsuspend] in at most six steps for each datagram, with all that was
    read sent. *)
Theorem dgecho_fifo n junk s : reachable n junk s ->
  received s = sent s ++ queued s /\ 0 <= nqueue s < QSIZE /\
  (forall o, main_step s = Some o -> exists s', o = Ret tt s') /\
  (forall ds fails, deliverable s = true -> Forall (fits n) ds -> handler_ok s ds fails (sig_io ds fails 0 s)) /\
  exists s', main_run (Z.to_nat (6 * nqueue s + weight (at_pc s))) s = Some s' /\
    at_pc s' = P_suspend /\ received s' = received s /\ sent s' = received s.
Proof.
  intros [Hok Hc]%dgecho_reachable_ok. split; [done|]. split.
  { pose proof (ok_count _ _ (proj1 Hok)) as Hq. split; [|apply Hok]. destruct (at_pc s); cbn in Hq; lia. }
  split.
  { intros o E. destruct (dgecho_main_step_ok n s o Hok Hc E) as (s' & -> & _). by exists s'. }
  split; [intros; by apply (handler_run n)|].
  apply (main_run_empties n); try done. unfold distance. pose proof (proj1 (distance_pos _ _ Hok)). unfold distance in *. lia.
Qed.

(** Two clients, and the state after the first signal. *)
Definition sample : list dgram := [Dgram [104; 105] [1; 2]; Dgram [] [3]].
Definition junk7 (i : nat) : Z := 7.

Lemma sample_signal : exists s, signal sample (start 2 junk7) = Ret tt s /\ received s = sample /\ nqueue s = 2 /\ deliverable s = true.
Proof.
  assert (H : match signal sample (start 2 junk7) with Ret _ s => Some (received s, nqueue s, deliverable s) | _ => None end = Some (sample, 2, true))
    by (vm_compute; reflexivity).
  destruct (signal sample (start 2 junk7)) as [[] s| | |]; try discriminate H. exists s. by injection H as -> -> ->.
Qed.

Lemma sample_reachable : exists s, reachable 2 junk7 s /\ received s = sample /\ nqueue s = 2 /\ deliverable s = true.
Proof.
  destruct sample_signal as (s & E & H1 & H2 & H3). exists s. split; [|done].
  apply (reachable_step 2 junk7 (start 2 junk7)); [constructor|by apply (step_signal sample)|].
  rewrite H1. repeat constructor; unfold fits; cbn; lia.
Qed.

Lemma dgecho_fifo_witness : exists s, reachable 2 junk7 s /\ nqueue s = 2 /\
  sample = sent s ++ queued s /\ (exists k s', main_run k s = Some s' /\ at_pc s' = P_suspend /\ sent s' = sample) /\
  handler_ok s (replicate 5 (Dgram [9] [1])) false (sig_io (replicate 5 (Dgram [9] [1])) false 0 s).
Proof.
  destruct sample_reachable as (s & H & H1 & H2 & H3). exists s. split; [done|]. split; [done|].
  destruct (dgecho_fifo 2 junk7 s H) as (F1 & _ & _ & F2 & s' & R1 & R2 & _ & R4). rewrite H1 in F1, R4.
  split; [done|]. split; [by eexists _, s'|]. apply F2; [done|]. apply Forall_replicate; unfold fits; cbn; lia.
Defined.

(** The handler queues all that it reads, in order and cut to MAXDG
    bytes, exactly when fewer than QSIZE datagrams are then queued; with as
    many as fill the ring, or on an error of [recvfrom], it ends the program. *)
Theorem sig_io_overflow n junk s ds fails :
  reachable n junk s -> deliverable s = true -> Forall (fits n) ds -> handler_ok s ds fails (sig_io ds fails 0 s).
Proof. intros [Hok _]%dgecho_reachable_ok _ Hf. by apply (handler_run n). Qed.

(** Five more datagrams fit; a sixth would leave as many as the ring has
    elements, and the program ends. *)
Lemma sig_io_overflow_witness : exists s, reachable 2 junk7 s /\
  (exists s', sig_io (replicate 5 (Dgram [9] [1])) false 0 s = Ret tt s' /\ nqueue s' = 7) /\
  (exists msg s', sig_io (replicate 6 (Dgram [9] [1])) false 0 s = Died msg s').
Proof.
  destruct sample_reachable as (s & H & H1 & H2 & H3). exists s. split; [exact H|].
  pose proof (fun k => sig_io_overflow 2 junk7 s (replicate k (Dgram [9] [1])) false H H3) as W.
  assert (F : forall k, Forall (fits 2) (replicate k (Dgram [9] [1]))) by (intros k; apply Forall_replicate; unfold fits; cbn; lia).
  split.
  - specialize (W 5%nat (F 5%nat)). unfold handler_ok in W; rewrite H2 in W. destruct (sig_io _ false 0 s) as [[] s'| | |].
    + exists s'. split; [reflexivity|]. exact (proj1 W).
    + exfalso. destruct W as [W|W]; [cbn in W; unfold QSIZE in W; lia|discriminate W].
    + destruct W.
    + destruct W.
  - specialize (W 6%nat (F 6%nat)). unfold handler_ok in W; rewrite H2 in W. destruct (sig_io _ false 0 s) as [[] s'|msg s'| |].
    + exfalso. destruct W as (W1 & W2 & _). rewrite W1 in W2. cbn in W2. unfold QSIZE in W2. lia.
    + by exists msg, s'.
    + destruct W.
    + destruct W.
Defined.
