(* ===== verification/ThreadPool.v ===== *)
(** unpv13e/server/serv08.c and pthread08.c: a server whose main thread accepts
    connections and hands them to a pool of threads through an array guarded by
    a mutex and a condition variable. *)
From Stdlib Require Import ZArith Lia.
From stdpp Require Import base list strings numbers.
From S2P Require Import Prelude CString Ring.
Local Open Scope c_scope.

Definition MAXNCLI : Z := 32.

(** Where the main thread is, with the connection it has accepted: [Accept],
    locking, the two halves of [clifd\[iput\] = connfd, ++iput], the test for a
    full array, the signal, unlocking. *)
Inductive main_pc :=
| A_accept | A_lock (connfd : Z) | A_store (connfd : Z) | A_advance (connfd : Z) | A_check | A_signal | A_unlock | A_quit.

(** Where a thread is; [T_wait] in [pthread_cond_wait], [T_relock] when it has
    been woken and needs the mutex again. *)
Inductive thread_pc :=
| T_lock | T_test | T_wait | T_relock | T_take | T_advance (connfd : Z) | T_unlock (connfd : Z)
| T_count (connfd : Z) | T_serve (connfd : Z) | T_close (connfd : Z).

Record Thread := mk_Thread { thread_count : Z; at_pc : thread_pc }.

Inductive owner := Main | Worker (i : nat).

(** The globals, where the threads are, and what happened: the connections
    accepted, taken from the array and closed, with the thread that did. *)
Record server := Server {
  clifd : list Z;
  iget : Z;
  iput : Z;
  clifd_mutex : option owner;
  main : main_pc;
  tptr : list Thread;
  accepted : list Z;
  taken : list (nat * Z);
  closed : list (nat * Z)
}.
Definition set_clifd v s := Server v (iget s) (iput s) (clifd_mutex s) (main s) (tptr s) (accepted s) (taken s) (closed s).
Definition set_iget v s := Server (clifd s) v (iput s) (clifd_mutex s) (main s) (tptr s) (accepted s) (taken s) (closed s).
Definition set_iput v s := Server (clifd s) (iget s) v (clifd_mutex s) (main s) (tptr s) (accepted s) (taken s) (closed s).
Definition set_mutex v s := Server (clifd s) (iget s) (iput s) v (main s) (tptr s) (accepted s) (taken s) (closed s).
Definition goto v s := Server (clifd s) (iget s) (iput s) (clifd_mutex s) v (tptr s) (accepted s) (taken s) (closed s).
Definition set_tptr v s := Server (clifd s) (iget s) (iput s) (clifd_mutex s) (main s) v (accepted s) (taken s) (closed s).
Definition record_accepted fd s := Server (clifd s) (iget s) (iput s) (clifd_mutex s) (main s) (tptr s) (accepted s ++ [fd]) (taken s) (closed s).
Definition record_taken i fd s := Server (clifd s) (iget s) (iput s) (clifd_mutex s) (main s) (tptr s) (accepted s) (taken s ++ [(i, fd)]) (closed s).
Definition record_closed i fd s := Server (clifd s) (iget s) (iput s) (clifd_mutex s) (main s) (tptr s) (accepted s) (taken s) (closed s ++ [(i, fd)]).
Definition put_thread (i : nat) (t : Thread) (s : server) : server := set_tptr (<[i := t]> (tptr s)) s.

(** [main] has made its threads. *)
Definition start (nthreads : nat) : server :=
  Server (replicate (Z.to_nat MAXNCLI) 0) 0 0 None A_accept (replicate nthreads (mk_Thread 0 T_lock)) [] [] [].

Definition waiting (t : Thread) : bool := match at_pc t with T_wait => true | _ => false end.

(** [pthread_cond_signal] wakes one of the threads that wait, if there are
    any. *)
Definition signal (w : nat) (s : server) : option server :=
  if existsb waiting (tptr s) then
    match tptr s !! w with
    | Some (mk_Thread c T_wait) => Some (put_thread w (mk_Thread c T_relock) s)
    | _ => None
    end
  else Some s.

(** A step of the main thread: [connfd] is what [Accept] returns, [w] the
    thread a signal wakes. *)
Definition main_step (connfd : Z) (w : nat) (s : server) : option (outcome server unit) :=
  match main s with
  | A_accept => Some (Ret tt (goto (A_lock connfd) (record_accepted connfd s)))
  | A_lock connfd => if clifd_mutex s is None then Some (Ret tt (goto (A_store connfd) (set_mutex (Some Main) s))) else None
  | A_store connfd =>
    Some (if (iput s <? 0) || (Z.of_nat (length (clifd s)) <=? iput s) then Undef "clifd[]"
          else Ret tt (goto (A_advance connfd) (set_clifd (<[Z.to_nat (iput s) := connfd]> (clifd s)) s)))
  | A_advance _ => Some (Ret tt (goto A_check (set_iput (if iput s + 1 =? MAXNCLI then 0 else iput s + 1) s)))
  | A_check => Some (Ret tt (goto (if iput s =? iget s then A_quit else A_signal) s))
  | A_signal => match signal w s with Some s => Some (Ret tt (goto A_unlock s)) | None => None end
  | A_unlock => Some (Ret tt (goto A_accept (set_mutex None s)))
  | A_quit => None
  end.

(** A step of thread [i]; [spurious] is a return of [pthread_cond_wait] that
    no signal caused, which the standard allows. *)
Definition thread_step (i : nat) (spurious : bool) (s : server) : option (outcome server unit) :=
  match tptr s !! i with
  | None => None
  | Some (mk_Thread c pc) =>
    match pc with
    | T_lock | T_relock =>
      if clifd_mutex s is None then Some (Ret tt (put_thread i (mk_Thread c T_test) (set_mutex (Some (Worker i)) s))) else None
    | T_test =>
      Some (Ret tt (if iget s =? iput s then put_thread i (mk_Thread c T_wait) (set_mutex None s)
                    else put_thread i (mk_Thread c T_take) s))
    | T_wait => if spurious then Some (Ret tt (put_thread i (mk_Thread c T_relock) s)) else None
    | T_take =>
      Some (if iget s <? 0 then Undef "clifd[]"
            else match clifd s !! Z.to_nat (iget s) with
                 | None => Undef "clifd[]"
                 | Some connfd => Ret tt (put_thread i (mk_Thread c (T_advance connfd)) s)
                 end)
    | T_advance connfd =>
      Some (Ret tt (put_thread i (mk_Thread c (T_unlock connfd))
        (record_taken i connfd (set_iget (if iget s + 1 =? MAXNCLI then 0 else iget s + 1) s))))
    | T_unlock connfd => Some (Ret tt (put_thread i (mk_Thread c (T_count connfd)) (set_mutex None s)))
    | T_count connfd =>
      Some (if c <? LONG_MAX then Ret tt (put_thread i (mk_Thread (c + 1) (T_serve connfd)) s) else Undef "long overflow")
    | T_serve connfd => Some (Ret tt (put_thread i (mk_Thread c (T_close connfd)) s))
    | T_close connfd => Some (Ret tt (put_thread i (mk_Thread c T_lock) (record_closed i connfd s)))
    end
  end.

Inductive choice := Main_goes (connfd : Z) (w : nat) | Thread_goes (i : nat) (spurious : bool).
(** After [err_quit] the process has ended. *)
Definition step (c : choice) (s : server) : option (outcome server unit) :=
  if main s is A_quit then None
  else match c with
       | Main_goes connfd w => main_step connfd w s
       | Thread_goes i spurious => thread_step i spurious s
       end.
Fixpoint run (cs : list choice) (s : server) : option server :=
  match cs with
  | [] => Some s
  | c :: cs => match step c s with Some (Ret _ s') => run cs s' | _ => None end
  end.

Inductive reachable (nthreads : nat) : server -> Prop :=
| reachable_start : reachable nthreads (start nthreads)
| reachable_step c s s' : reachable nthreads s -> step c s = Some (Ret tt s') -> reachable nthreads s'.

Lemma pool_run_reachable nthreads cs s s' : reachable nthreads s -> run cs s = Some s' -> reachable nthreads s'.
Proof.
  revert s. induction cs as [|c cs IH]; cbn; intros s H E; [by injection E as <-|].
  destruct (step c s) as [[[] s1| | |]|] eqn:Es; try done. eapply IH; [|done]. by eapply reachable_step.
Qed.

(** Nothing can happen but a new connection, or a wake-up without cause. *)
Definition quiet (s : server) : Prop :=
  (forall i, thread_step i false s = None) /\ (main s = A_accept \/ forall connfd w, main_step connfd w s = None).

(** * What the state means *)

(** The connection that is accepted and not yet in the array. *)
Definition in_hand (p : main_pc) : list Z := match p with A_lock fd | A_store fd | A_advance fd => [fd] | _ => [] end.
(** The connection a thread has taken and not yet closed. *)
Definition holds (t : Thread) : list Z :=
  match at_pc t with T_unlock fd | T_count fd | T_serve fd | T_close fd => [fd] | _ => [] end.
Definition uncounted (t : Thread) : Z := match at_pc t with T_unlock _ | T_count _ => 1 | _ => 0 end.
(** The connections of a thread in a list of events. *)
Definition connections (i : nat) (l : list (nat * Z)) : list Z := snd <$> filter (fun e => e.1 = i) l.
(** The connections in the array. *)
Definition queued (s : server) : list Z :=
  ring_view MAXNCLI (clifd s) (iget s) (length (accepted s) - length (taken s) - length (in_hand (main s))).

(** The parts of the programs that need the mutex. *)
Definition main_inside (p : main_pc) : bool := match p with A_accept | A_lock _ => false | _ => true end.
(** The main thread has put a connection and not yet sent the signal. *)
Definition signal_due (p : main_pc) : bool := match p with A_check | A_signal | A_quit => true | _ => false end.
Definition inside (t : Thread) : bool := match at_pc t with T_test | T_take | T_advance _ | T_unlock _ => true | _ => false end.

(** * Invariant *)

Definition thread_ok (n : nat) (s : server) (i : nat) (t : Thread) : Prop :=
  connections i (taken s) = connections i (closed s) ++ holds t /\
  thread_count t = Z.of_nat (length (connections i (taken s))) - uncounted t /\
  match at_pc t with
  | T_take => (0 < n)%nat
  | T_advance fd => (0 < n)%nat /\ clifd s !!! Z.to_nat (iget s) = fd
  | _ => True
  end.

Definition main_ok (n : nat) (s : server) : Prop :=
  match main s with
  | A_advance fd => clifd s !!! Z.to_nat (iput s) = fd
  | A_check => (0 < n)%nat
  | A_quit => Z.of_nat n = MAXNCLI
  | _ => True
  end.

(** [n] is the number of elements in the array. *)
Record pool_ok (nthreads n : nat) (s : server) : Prop := {
  ok_size : Z.of_nat (length (clifd s)) = MAXNCLI;
  ok_iget : 0 <= iget s < MAXNCLI;
  ok_iput : iput s = (iget s + Z.of_nat n) mod MAXNCLI;
  ok_count : Z.of_nat n <= MAXNCLI;
  ok_full : Z.of_nat n = MAXNCLI -> main s = A_check \/ main s = A_quit;
  ok_flow : accepted s = (snd <$> taken s) ++ ring_view MAXNCLI (clifd s) (iget s) n ++ in_hand (main s);
  ok_main : main_ok n s;
  ok_main_mutex : clifd_mutex s = Some Main <-> main_inside (main s) = true;
  ok_mutex : forall i, clifd_mutex s = Some (Worker i) <-> exists t, tptr s !! i = Some t /\ inside t = true;
  ok_threads : forall i t, tptr s !! i = Some t -> thread_ok n s i t;
  ok_number : length (tptr s) = nthreads;
  ok_wake : (0 < n)%nat -> signal_due (main s) = true \/ exists i t, tptr s !! i = Some t /\ waiting t = false
}.

Lemma queued_ok nthreads n s : pool_ok nthreads n s -> queued s = ring_view MAXNCLI (clifd s) (iget s) n.
Proof.
  intros H. unfold queued. rewrite (ok_flow _ _ _ H), !length_app, length_fmap, ring_view_length. f_equal. lia.
Qed.

Lemma start_pool_ok nthreads : pool_ok nthreads 0 (start nthreads).
Proof.
  constructor; cbn [start clifd iget iput clifd_mutex main tptr accepted taken closed]; try done.
  - intros i. split; [done|]. intros (t & [-> _]%lookup_replicate & Ht). done.
  - intros i t [-> _]%lookup_replicate. done.
  - by rewrite length_replicate.
  - lia.
Qed.

(** The step of a thread that does not move the queue: only its own state and
    the mutex change. *)
Definition mutex_moves (i : nat) (m m' : option owner) (b b' : bool) : Prop :=
  (m' = m /\ b' = b) \/ (m = None /\ m' = Some (Worker i) /\ b' = true) \/ (m = Some (Worker i) /\ m' = None /\ b' = false).

Lemma mutex_moves_ok nthreads n s i t t' m : pool_ok nthreads n s -> tptr s !! i = Some t ->
  mutex_moves i (clifd_mutex s) m (inside t) (inside t') ->
  (m = Some Main <-> main_inside (main s) = true) /\
  (forall j, m = Some (Worker j) <-> exists u, <[i := t']> (tptr s) !! j = Some u /\ inside u = true).
Proof.
  intros H Ei Hm. pose proof (ok_main_mutex _ _ _ H) as Hmm. pose proof (ok_mutex _ _ _ H) as Hw.
  assert (Li : (i < length (tptr s))%nat) by by eapply lookup_lt_Some.
  assert (Hi : clifd_mutex s = Some (Worker i) <-> inside t = true).
  { rewrite Hw. split; [intros (u & E & Hu); congruence|by exists t]. }
  split.
  - destruct Hm as [[-> _]|[(E & -> & _)|(E & -> & _)]]; [done|split; [done|]|split; [done|]]; intros Hx; apply Hmm in Hx; congruence.
  - intros j. destruct (decide (j = i)) as [->|Hj].
    + rewrite list_lookup_insert_eq by done. transitivity (inside t' = true); [|split; [intros ?; by exists t'|intros (u & [= <-] & ?); done]].
      destruct Hm as [[-> ->]|[(E & -> & ->)|(E & -> & ->)]]; [done|done|]. split; done.
    + rewrite list_lookup_insert_ne by done. rewrite <-Hw.
      destruct Hm as [[-> _]|[(E & -> & _)|(E & -> & _)]]; rewrite ?E; [done|split; [congruence|done]|split; [done|congruence]].
Qed.

Lemma wake_insert (l : list Thread) i t t' : l !! i = Some t -> waiting t' = false \/ waiting t = true ->
  (exists j u, l !! j = Some u /\ waiting u = false) -> exists j u, <[i := t']> l !! j = Some u /\ waiting u = false.
Proof.
  intros Ei Ht (j & u & Ej & Hu). destruct (decide (j = i)) as [->|Hj].
  - destruct Ht as [Ht|Ht]; [|congruence]. exists i, t'. by rewrite list_lookup_insert_eq by by eapply lookup_lt_Some.
  - exists j, u. by rewrite list_lookup_insert_ne.
Qed.

Lemma thread_goes nthreads n s i t t' m : pool_ok nthreads n s -> tptr s !! i = Some t ->
  mutex_moves i (clifd_mutex s) m (inside t) (inside t') -> thread_ok n s i t' -> (waiting t' = true -> n = 0%nat) ->
  pool_ok nthreads n (put_thread i t' (set_mutex m s)).
Proof.
  intros H Ei Hm Ht Hw. destruct (mutex_moves_ok _ _ _ _ _ t' m H Ei Hm) as [M1 M2].
  assert (Li : (i < length (tptr s))%nat) by by eapply lookup_lt_Some.
  destruct H as [H1 H2 H3 H4 H5 H6 H7 H8 H9 H10 H11 H12]. constructor; try done.
  - intros j u. cbn [put_thread set_tptr set_mutex tptr]. destruct (decide (j = i)) as [->|Hj].
    + rewrite list_lookup_insert_eq by done. by intros [= <-].
    + rewrite list_lookup_insert_ne by done. apply H10.
  - cbn. by rewrite length_insert.
  - intros Hn. destruct (waiting t') eqn:Ew; [specialize (Hw eq_refl); lia|]. right.
    exists i, t'. cbn [put_thread set_tptr set_mutex tptr]. by rewrite list_lookup_insert_eq.
Qed.

Lemma set_mutex_same s : set_mutex (clifd_mutex s) s = s.
Proof. by destruct s. Qed.

Lemma connections_snoc i j fd l : connections i (l ++ [(j, fd)]) = connections i l ++ (if decide (j = i) then [fd] else []).
Proof.
  unfold connections. rewrite list.filter_app, fmap_app. f_equal. destruct (decide (j = i)) as [->|Hj].
  - by rewrite filter_cons_True.
  - by rewrite filter_cons_False.
Qed.

(** A thread with the mutex is alone in the part it protects. *)
Lemma alone nthreads n s i t j u : pool_ok nthreads n s -> tptr s !! i = Some t -> inside t = true ->
  tptr s !! j = Some u -> j <> i -> inside u = false.
Proof.
  intros H Ei Hi Ej Hj. destruct (inside u) eqn:Hu; [|done]. pose proof (ok_mutex _ _ _ H) as Hw.
  assert (E1 : clifd_mutex s = Some (Worker i)) by (apply Hw; by exists t).
  assert (E2 : clifd_mutex s = Some (Worker j)) by (apply Hw; by exists u). congruence.
Qed.

Lemma not_main nthreads n s i t : pool_ok nthreads n s -> tptr s !! i = Some t -> inside t = true -> main_inside (main s) = false.
Proof.
  intros H Ei Hi. destruct (main_inside (main s)) eqn:E; [|done]. apply (ok_main_mutex _ _ _ H) in E.
  assert (E1 : clifd_mutex s = Some (Worker i)) by (apply (ok_mutex _ _ _ H); by exists t). congruence.
Qed.

Lemma outside_ok n n' s s' i t : inside t = false -> taken s' = taken s -> closed s' = closed s -> thread_ok n s i t -> thread_ok n' s' i t.
Proof. intros Ho E1 E2 (A & B & C). split_and!; rewrite ?E1, ?E2; try done. by destruct t as [c []]. Qed.

(** [connfd = clifd\[iget\], ++iget]: the first element leaves the array. *)
Lemma thread_takes nthreads n s i c fd : pool_ok nthreads n s -> tptr s !! i = Some (mk_Thread c (T_advance fd)) ->
  pool_ok nthreads (pred n) (put_thread i (mk_Thread c (T_unlock fd))
    (record_taken i fd (set_iget (if iget s + 1 =? MAXNCLI then 0 else iget s + 1) s))).
Proof.
  intros H Ei. assert (Li : (i < length (tptr s))%nat) by by eapply lookup_lt_Some.
  pose proof (not_main _ _ _ _ _ H Ei eq_refl) as Hmain.
  destruct (ok_threads _ _ _ H i _ Ei) as (T1 & T2 & Hn & Hfd). destruct n as [|n]; [lia|]. cbn [pred].
  pose proof (fun j u => alone _ _ _ _ _ j u H Ei eq_refl) as Al.
  destruct (mutex_moves_ok _ _ _ _ _ (mk_Thread c (T_unlock fd)) (clifd_mutex s) H Ei) as [M1 M2]; [by left|].
  destruct H as [H1 H2 H3 H4 H5 H6 H7 H8 H9 H10 H11 H12].
  constructor; cbn [put_thread set_tptr record_taken set_iget clifd iget iput clifd_mutex main tptr accepted taken closed]; try done.
  - rewrite ring_next_eq by done. apply Z.mod_pos_bound. done.
  - rewrite ring_next_eq by done. by rewrite ring_get_next.
  - lia.
  - lia.
  - rewrite ring_next_eq by done. rewrite H6, ring_pop by done. rewrite fmap_app. cbn [fmap list_fmap snd]. by rewrite Hfd, <-app_assoc.
  - unfold main_ok. cbn [put_thread set_tptr record_taken set_iget main]. by destruct (main s).
  - intros j u. destruct (decide (j = i)) as [->|Hj].
    + rewrite list_lookup_insert_eq by done. intros [= <-]. unfold thread_ok, holds, uncounted.
      cbn [put_thread set_tptr record_taken set_iget taken closed at_pc thread_count]. rewrite connections_snoc, decide_True by done.
      unfold holds, uncounted in T1, T2. cbn [at_pc thread_count] in T1, T2. rewrite app_nil_r in T1. rewrite length_app, T1.
      rewrite T1 in T2. cbn [length]. split_and!; [done|lia|done].
    + rewrite list_lookup_insert_ne by done. intros Ej. pose proof (Al j u Ej Hj) as Ho.
      destruct (H10 j u Ej) as (A & B & C). unfold thread_ok. cbn [put_thread set_tptr record_taken set_iget taken closed clifd iget].
      rewrite connections_snoc, decide_False, app_nil_r by done. split_and!; try done. by destruct u as [d []].
  - by rewrite length_insert.
  - intros Hn'. destruct (H12 Hn) as [E|Hx]; [by destruct (main s)|]. right. apply (wake_insert _ _ _ _ Ei); [by left|done].
Qed.

Lemma thread_closes nthreads n s i c fd : pool_ok nthreads n s -> tptr s !! i = Some (mk_Thread c (T_close fd)) ->
  pool_ok nthreads n (put_thread i (mk_Thread c T_lock) (record_closed i fd s)).
Proof.
  intros H Ei. assert (Li : (i < length (tptr s))%nat) by by eapply lookup_lt_Some.
  destruct (ok_threads _ _ _ H i _ Ei) as (T1 & T2 & _).
  destruct (mutex_moves_ok _ _ _ _ _ (mk_Thread c T_lock) (clifd_mutex s) H Ei) as [M1 M2]; [by left|].
  destruct H as [H1 H2 H3 H4 H5 H6 H7 H8 H9 H10 H11 H12].
  constructor; cbn [put_thread set_tptr record_closed clifd iget iput clifd_mutex main tptr accepted taken closed]; try done.
  - intros j u. destruct (decide (j = i)) as [->|Hj].
    + rewrite list_lookup_insert_eq by done. intros [= <-]. unfold thread_ok, holds, uncounted.
      cbn [put_thread set_tptr record_closed taken closed at_pc thread_count]. rewrite connections_snoc, decide_True by done.
      by rewrite app_nil_r.
    + rewrite list_lookup_insert_ne by done. intros Ej. destruct (H10 j u Ej) as (A & B & C). unfold thread_ok.
      cbn [put_thread set_tptr record_closed taken closed clifd iget]. by rewrite connections_snoc, decide_False, app_nil_r.
  - by rewrite length_insert.
  - intros Hn. destruct (H12 Hn) as [E|Hx]; [by left|]. right. apply (wake_insert _ _ _ _ Ei); [by left|done].
Qed.

Lemma connections_le i l : (length (connections i l) <= length l)%nat.
Proof. unfold connections. rewrite length_fmap. apply length_filter. Qed.

Lemma meet_ok nthreads n s : pool_ok nthreads n s -> (iget s = iput s <-> n = 0%nat \/ Z.of_nat n = MAXNCLI).
Proof.
  intros H. pose proof (ok_iget _ _ _ H) as H2. rewrite (ok_iput _ _ _ H). split.
  - intros E. apply (ring_meet MAXNCLI (iget s)); [done|apply H|done].
  - intros [->| ->].
    + by rewrite Z.add_0_r, Z.mod_small.
    + replace (iget s + MAXNCLI) with (iget s + 1 * MAXNCLI) by lia. by rewrite Z_mod_plus_full, Z.mod_small.
Qed.

Lemma thread_step_pool nthreads n s i spurious o : pool_ok nthreads n s -> Z.of_nat (length (taken s)) <= LONG_MAX ->
  thread_step i spurious s = Some o -> exists s' n', o = Ret tt s' /\ pool_ok nthreads n' s'.
Proof.
  intros H Hl. unfold thread_step. destruct (tptr s !! i) as [[c pc]|] eqn:Ei; [|done].
  pose proof (ok_threads _ _ _ H i _ Ei) as Ht. pose proof Ht as (T1 & T2 & T3). pose proof (not_main _ _ _ _ _ H Ei) as Hmain.
  assert (Same : forall t' m, mutex_moves i (clifd_mutex s) m (inside (mk_Thread c pc)) (inside t') -> thread_ok n s i t' ->
    (waiting t' = true -> n = 0%nat) -> exists s' n', Ret tt (put_thread i t' (set_mutex m s)) = Ret tt s' /\ pool_ok nthreads n' s').
  { intros t' m Hm Ht' Hw. eexists _, n. split; [reflexivity|]. by apply (thread_goes _ _ _ _ _ t' m H Ei). }
  assert (Stay : forall t', inside t' = inside (mk_Thread c pc) -> thread_ok n s i t' -> (waiting t' = true -> n = 0%nat) ->
    exists s' n', Ret tt (put_thread i t' s) = Ret tt s' /\ pool_ok nthreads n' s').
  { intros t' Hm Ht' Hw. replace (put_thread i t' s) with (put_thread i t' (set_mutex (clifd_mutex s) s)) by by rewrite set_mutex_same. apply Same; [by left|done|done]. }
  assert (Owner : inside (mk_Thread c pc) = true -> clifd_mutex s = Some (Worker i)).
  { intros Hi. apply (ok_mutex _ _ _ H). by exists (mk_Thread c pc). }
  destruct pc as [| | | | |fd|fd|fd|fd|fd].
  - destruct (clifd_mutex s) eqn:Em; [done|]. intros [= <-]. apply Same; [by right; left|done|done].
  - destruct (Z.eqb_spec (iget s) (iput s)) as [E|E]; intros [= <-].
    + assert (n = 0%nat) as ->.
      { apply (meet_ok _ _ _ H) in E as [?|E]; [done|]. specialize (Hmain eq_refl).
        destruct (ok_full _ _ _ H E) as [E'|E']; by rewrite E' in Hmain. }
      apply Same; [right; right; by rewrite (Owner eq_refl)|done|done].
    + apply Stay; [done| |done]. split_and!; try done. destruct n; [|cbn; lia]. exfalso. apply E, (meet_ok _ _ _ H). by left.
  - destruct spurious; [|done]. intros [= <-]. by apply Stay.
  - destruct (clifd_mutex s) eqn:Em; [done|]. intros [= <-]. apply Same; [by right; left|done|done].
  - pose proof (ok_iget _ _ _ H) as Hg. rewrite (proj2 (Z.ltb_ge _ _)) by lia.
    assert (Lg : (Z.to_nat (iget s) < length (clifd s))%nat) by (pose proof (ok_size _ _ _ H); lia).
    pose proof (list_lookup_lookup_total_lt _ _ Lg) as Eg. rewrite Eg. intros [= <-]. apply Stay; [done| |done]. by split_and!.
  - intros [= <-]. eexists _, (pred n). split; [reflexivity|]. by apply thread_takes.
  - intros [= <-]. apply Same; [right; right; by rewrite (Owner eq_refl)|done|done].
  - pose proof (connections_le i (taken s)). cbn in T2. rewrite (proj2 (Z.ltb_lt _ _)) by lia.
    intros [= <-]. apply Stay; [done| |done]. split_and!; [done|cbn; lia|done].
  - intros [= <-]. by apply Stay.
  - intros [= <-]. eexists _, n. split; [reflexivity|]. by apply thread_closes.
Qed.

(** While the main thread is inside, no other is. *)
Lemma main_alone nthreads n s i t : pool_ok nthreads n s -> main_inside (main s) = true -> tptr s !! i = Some t -> inside t = false.
Proof.
  intros H Hm Ei. destruct (inside t) eqn:E; [|done]. by rewrite (not_main _ _ _ _ _ H Ei E) in Hm.
Qed.

(** A step of the main thread that does not move the queue. *)
Lemma main_goes nthreads n s p : pool_ok nthreads n s -> main_inside p = main_inside (main s) -> in_hand p = in_hand (main s) ->
  main_ok n (goto p s) -> (Z.of_nat n = MAXNCLI -> p = A_check \/ p = A_quit) ->
  ((0 < n)%nat -> signal_due p = true \/ exists i t, tptr s !! i = Some t /\ waiting t = false) ->
  pool_ok nthreads n (goto p s).
Proof.
  intros [H1 H2 H3 H4 H5 H6 H7 H8 H9 H10 H11 H12] Hi Hh Hm Hf Hw. constructor; try done.
  - cbn. by rewrite Hh.
  - cbn. by rewrite Hi.
Qed.

Lemma awake nthreads n s : pool_ok nthreads n s -> signal_due (main s) = false -> (0 < n)%nat ->
  exists i t, tptr s !! i = Some t /\ waiting t = false.
Proof. intros H Hs Hn. destruct (ok_wake _ _ _ H Hn) as [E|Hx]; [by rewrite Hs in E|done]. Qed.

Lemma main_accepts nthreads n s fd : pool_ok nthreads n s -> main s = A_accept ->
  pool_ok nthreads n (goto (A_lock fd) (record_accepted fd s)).
Proof.
  intros H Ep. destruct H as [H1 H2 H3 H4 H5 H6 H7 H8 H9 H10 H11 H12].
  rewrite Ep in *. constructor; cbn [goto record_accepted clifd iget iput clifd_mutex main tptr accepted taken closed]; try done.
  - intros Hn. by destruct (H5 Hn).
  - rewrite H6. cbn [in_hand]. by rewrite app_nil_r, <-app_assoc.
Qed.

Lemma main_locks nthreads n s fd : pool_ok nthreads n s -> main s = A_lock fd -> clifd_mutex s = None ->
  pool_ok nthreads n (goto (A_store fd) (set_mutex (Some Main) s)).
Proof.
  intros H Ep Em. destruct H as [H1 H2 H3 H4 H5 H6 H7 H8 H9 H10 H11 H12].
  rewrite Ep, Em in *. constructor; cbn [goto set_mutex clifd iget iput clifd_mutex main tptr accepted taken closed]; try done.
  - intros Hn. by destruct (H5 Hn).
  - intros i. split; [done|]. intros Hx. by apply H9 in Hx.
Qed.

Lemma main_unlocks nthreads n s : pool_ok nthreads n s -> main s = A_unlock -> pool_ok nthreads n (goto A_accept (set_mutex None s)).
Proof.
  intros H Ep. pose proof (fun i t => main_alone _ _ _ i t H) as Al.
  destruct H as [H1 H2 H3 H4 H5 H6 H7 H8 H9 H10 H11 H12].
  rewrite Ep in *. constructor; cbn [goto set_mutex clifd iget iput clifd_mutex main tptr accepted taken closed]; try done.
  - intros Hn. by destruct (H5 Hn).
  - intros i. split; [done|]. intros (t & Ei & Ht). by rewrite (Al i t eq_refl Ei) in Ht.
Qed.

Lemma iput_slot nthreads n s : pool_ok nthreads n s -> Z.to_nat (iput s) = ring_slot MAXNCLI (iget s) n.
Proof. intros H. unfold ring_slot. by rewrite (ok_iput _ _ _ H). Qed.

Lemma main_stores nthreads n s fd : pool_ok nthreads n s -> main s = A_store fd ->
  pool_ok nthreads n (goto (A_advance fd) (set_clifd (<[Z.to_nat (iput s) := fd]> (clifd s)) s)).
Proof.
  intros H Ep. pose proof (iput_slot _ _ _ H) as Hs.
  pose proof (fun i t => main_alone _ _ _ i t H) as Al. destruct H as [H1 H2 H3 H4 H5 H6 H7 H8 H9 H10 H11 H12].
  rewrite Ep in *. assert (Hlt : (n < Z.to_nat MAXNCLI)%nat).
  { destruct (decide (Z.of_nat n = MAXNCLI)) as [E|E]; [by destruct (H5 E)|lia]. }
  constructor; cbn [goto set_clifd clifd iget iput clifd_mutex main tptr accepted taken closed]; try done.
  - by rewrite length_insert.
  - intros Hn. by destruct (H5 Hn).
  - rewrite Hs, ring_store by done. done.
  - unfold main_ok. cbn [goto set_clifd main clifd iput]. apply list_lookup_total_insert_eq.
    rewrite Hs. pose proof (ring_slot_lt MAXNCLI (iget s) n eq_refl). lia.
  - intros i t Ei. apply (outside_ok n n s); [by eapply Al|done..|by apply H10].
Qed.

Lemma main_advances nthreads n s fd : pool_ok nthreads n s -> main s = A_advance fd ->
  pool_ok nthreads (S n) (goto A_check (set_iput (if iput s + 1 =? MAXNCLI then 0 else iput s + 1) s)).
Proof.
  intros H Ep. pose proof (iput_slot _ _ _ H) as Hs.
  pose proof (fun i t => main_alone _ _ _ i t H) as Al. destruct H as [H1 H2 H3 H4 H5 H6 H7 H8 H9 H10 H11 H12].
  unfold main_ok in H7. rewrite Ep in *. assert (Hlt : Z.of_nat n < MAXNCLI).
  { destruct (decide (Z.of_nat n = MAXNCLI)) as [E|E]; [by destruct (H5 E)|lia]. }
  constructor; cbn [goto set_iput clifd iget iput clifd_mutex main tptr accepted taken closed]; try done.
  - rewrite ring_next_eq by (rewrite H3; by apply Z.mod_pos_bound). rewrite H3. by apply ring_put_next.
  - lia.
  - by left.
  - rewrite H6, ring_view_last, <-Hs, H7. cbn [in_hand]. by rewrite app_nil_r.
  - unfold main_ok. cbn. lia.
  - intros i t Ei. apply (outside_ok n (S n) s); [by eapply Al|done..|by apply H10].
  - by left.
Qed.

(** The signal wakes a thread, or finds one that does not wait. *)
Lemma signal_pool nthreads n w s s' : pool_ok nthreads n s -> (0 < nthreads)%nat -> main s = A_signal -> signal w s = Some s' ->
  pool_ok nthreads n (goto A_unlock s').
Proof.
  intros H Hn Ep. unfold signal. pose proof (ok_full _ _ _ H) as Hf. rewrite Ep in Hf. destruct (existsb waiting (tptr s)) eqn:Ex.
  - destruct (tptr s !! w) as [[c []]|] eqn:Ei; try done. intros [= <-].
    pose proof (ok_threads _ _ _ H w _ Ei) as (T1 & T2 & _). pose proof (main_alone _ _ _ w _ H ltac:(by rewrite Ep) Ei) as Ho.
    assert (H' : pool_ok nthreads n (put_thread w (mk_Thread c T_relock) s)).
    { rewrite <-(set_mutex_same s) at 1. apply (thread_goes nthreads n s w (mk_Thread c T_wait)); [done|done|by left|done|done]. }
    apply main_goes; [done|cbn; by rewrite Ep..|done|intros E; by destruct (Hf E)|]. intros _. right. exists w, (mk_Thread c T_relock).
    cbn [put_thread set_tptr tptr]. by rewrite list_lookup_insert_eq by by eapply lookup_lt_Some.
  - intros [= <-]. apply main_goes; [done|by rewrite Ep..|done|intros E; by destruct (Hf E)|]. intros _. right.
    pose proof (ok_number _ _ _ H) as HN. destruct (tptr s) as [|t l] eqn:El; [cbn in HN; lia|]. exists 0%nat, t. split; [done|].
    cbn in Ex. by destruct (waiting t).
Qed.

Lemma main_step_pool nthreads n s connfd w o : pool_ok nthreads n s -> (0 < nthreads)%nat -> main_step connfd w s = Some o ->
  exists s' n', o = Ret tt s' /\ pool_ok nthreads n' s'.
Proof.
  intros H HN. unfold main_step. pose proof (ok_main _ _ _ H) as Hmain. unfold main_ok in Hmain.
  destruct (main s) as [|fd|fd|fd| | | |] eqn:Ep; try done.
  - intros [= <-]. eexists _, n. split; [reflexivity|]. by apply main_accepts.
  - destruct (clifd_mutex s) eqn:Em; [done|]. intros [= <-]. eexists _, n. split; [reflexivity|]. by apply main_locks.
  - pose proof (ok_iget _ _ _ H) as Hg. pose proof (ok_size _ _ _ H) as Hs.
    pose proof (Z.mod_pos_bound (iget s + Z.of_nat n) MAXNCLI eq_refl) as Hb. rewrite <-(ok_iput _ _ _ H) in Hb.
    rewrite (proj2 (Z.ltb_ge _ _)), (proj2 (Z.leb_gt _ _)) by lia. cbn [orb].
    intros [= <-]. eexists _, n. split; [reflexivity|]. by apply main_stores.
  - intros [= <-]. eexists _, (S n). split; [reflexivity|]. by eapply main_advances.
  - intros [= <-]. eexists _, n. split; [reflexivity|]. pose proof (meet_ok _ _ _ H) as Hmeet.
    destruct (Z.eqb_spec (iput s) (iget s)) as [E|E].
    + assert (Z.of_nat n = MAXNCLI) by (symmetry in E; apply Hmeet in E as [->|?]; [lia|done]).
      apply main_goes; [done|by rewrite Ep..|done|by right|by left].
    + apply main_goes; [done|by rewrite Ep..|done| |by left]. intros En. exfalso. apply E. symmetry. apply Hmeet. by right.
  - destruct (signal w s) as [s'|] eqn:Es; [|done]. intros [= <-]. eexists _, n. split; [reflexivity|]. by eapply signal_pool.
  - intros [= <-]. eexists _, n. split; [reflexivity|]. by apply main_unlocks.
Qed.

(** Only [taken] grows when a thread takes a connection. *)
Lemma step_taken c s s' : step c s = Some (Ret tt s') -> (length (taken s) <= length (taken s'))%nat.
Proof.
  unfold step, main_step, thread_step, signal. intros E.
  repeat case_match; simplify_eq/=; rewrite ?length_app; lia.
Qed.

Lemma pool_reachable nthreads s : (0 < nthreads)%nat -> Z.of_nat (length (taken s)) <= LONG_MAX -> reachable nthreads s ->
  exists n, pool_ok nthreads n s.
Proof.
  intros HN Hl. induction 1 as [|c s s' _ IH E]; [exists 0%nat; apply start_pool_ok|].
  pose proof (step_taken _ _ _ E) as Hle. destruct IH as [n H]; [lia|]. unfold step in E.
  assert (K : exists s1 n', Ret tt s' = Ret tt s1 /\ pool_ok nthreads n' s1).
  { destruct c as [fd0 w|i sp].
    - apply (main_step_pool nthreads n s fd0 w); [done..|]. by destruct (main s).
    - apply (thread_step_pool nthreads n s i sp); [done|lia|]. by destruct (main s). }
  destruct K as (s1 & n' & [= <-] & H'). by exists n'.
Qed.

(** Nothing but a new connection can happen: the mutex is free, and every
    thread waits. *)
Lemma quiet_free nthreads n s : pool_ok nthreads n s -> quiet s -> main s <> A_quit -> clifd_mutex s = None.
Proof.
  intros H [Ht Hm] Hq. destruct (clifd_mutex s) as [[|i]|] eqn:Em; [| |done].
  - apply (ok_main_mutex _ _ _ H) in Em. destruct Hm as [Hm|Hm]; [by rewrite Hm in Em|]. unfold main_step in Hm.
    destruct (main s) eqn:Ep; try done; try (by specialize (Hm 0 0%nat)).
    unfold signal in Hm. destruct (existsb waiting (tptr s)) eqn:Ex; [|by specialize (Hm 0 0%nat)].
    apply existsb_exists in Ex as (t & Et & Hw). apply list_elem_of_In, list_elem_of_lookup in Et as [w Ew].
    specialize (Hm 0 w). rewrite Ew in Hm. by destruct t as [c []].
  - apply (ok_mutex _ _ _ H) in Em as (t & Ei & Hi). specialize (Ht i). unfold thread_step in Ht. rewrite Ei in Ht. by destruct t as [c []].
Qed.

Lemma quiet_waiting nthreads n s i t : pool_ok nthreads n s -> quiet s -> main s <> A_quit -> tptr s !! i = Some t -> at_pc t = T_wait.
Proof.
  intros H Hq Hm Ei. pose proof (quiet_free _ _ _ H Hq Hm) as Em. destruct Hq as [Ht _]. specialize (Ht i). unfold thread_step in Ht.
  rewrite Ei, Em in Ht. by destruct t as [c []].
Qed.

(** * Properties *)

(** C34: Whatever the schedule, no connection is lost, taken twice or reordered:
    those accepted are those the threads took, in order, then those in the
    array, then the one the main thread holds.  Each thread closes its
    connections in the order it took them and counts them, the part under the
    mutex is never entered by two threads, no index leaves the array, and the
    server gives up only when the array is full. *)
Theorem pool_conserves nthreads s :
  (0 < nthreads)%nat -> reachable nthreads s -> Z.of_nat (length (taken s)) <= LONG_MAX ->
  accepted s = (snd <$> taken s) ++ queued s ++ in_hand (main s) /\
  (forall i t, tptr s !! i = Some t ->
    connections i (taken s) = connections i (closed s) ++ holds t /\
    thread_count t = Z.of_nat (length (connections i (taken s))) - uncounted t /\
    (inside t = true -> clifd_mutex s = Some (Worker i))) /\
  (main_inside (main s) = true -> clifd_mutex s = Some Main) /\
  (forall c o, step c s = Some o -> exists s', o = Ret tt s') /\
  (main s = A_quit -> Z.of_nat (length (queued s)) = MAXNCLI).
Proof.
  intros HN Hr Hl. destruct (pool_reachable nthreads s HN Hl Hr) as [n H]. rewrite (queued_ok _ _ _ H).
  split; [apply H|]. split; [|split; [apply H|split]].
  - intros i t Ei. destruct (ok_threads _ _ _ H i t Ei) as (T1 & T2 & _). split_and!; try done.
    intros Hi. apply (ok_mutex _ _ _ H). by exists t.
  - intros c o E. unfold step in E. assert (Hq : main s <> A_quit) by (intros Em; by rewrite Em in E).
    replace (match main s with A_quit => _ | _ => _ end) with
      (match c with Main_goes connfd w => main_step connfd w s | Thread_goes i sp => thread_step i sp s end) in E by by destruct (main s).
    destruct c as [fd w|i sp].
    + destruct (main_step_pool _ _ _ _ _ _ H HN E) as (s' & _ & -> & _). by exists s'.
    + destruct (thread_step_pool _ _ _ _ _ _ H Hl E) as (s' & _ & -> & _). by exists s'.
  - intros Em. rewrite ring_view_length. pose proof (ok_main _ _ _ H) as K. unfold main_ok in K. by rewrite Em in K.
Qed.

(** C35: No wake-up is lost: when nothing can happen but a new connection, all
    the threads wait, the array is empty and every connection that was accepted
    has been closed. *)
Theorem pool_comes_to_rest nthreads s :
  (0 < nthreads)%nat -> reachable nthreads s -> Z.of_nat (length (taken s)) <= LONG_MAX -> quiet s -> main s <> A_quit ->
  main s = A_accept /\ queued s = [] /\ accepted s = snd <$> taken s /\
  forall i t, tptr s !! i = Some t -> at_pc t = T_wait /\ connections i (closed s) = connections i (taken s).
Proof.
  intros HN Hr Hl Hq Hm. destruct (pool_reachable nthreads s HN Hl Hr) as [n H].
  pose proof (quiet_free _ _ _ H Hq Hm) as Em. pose proof (fun i t => quiet_waiting _ _ _ i t H Hq Hm) as Hw.
  assert (Ha : main s = A_accept).
  { pose proof (ok_main_mutex _ _ _ H) as K. rewrite Em in K. destruct Hq as [_ [Hx|Hx]]; [done|]. unfold main_step in Hx.
    rewrite Em in Hx. destruct (main s); try done; try (by specialize (Hx 0 0%nat)); by destruct K as [_ K]; specialize (K eq_refl). }
  assert (n = 0%nat) as ->.
  { destruct n as [|n]; [done|]. destruct (ok_wake _ _ _ H ltac:(lia)) as [E|(i & t & Ei & Ht)]; [by rewrite Ha in E|].
    apply Hw in Ei. unfold waiting in Ht. by rewrite Ei in Ht. }
  rewrite (queued_ok _ _ _ H). split_and!; try done.
  - rewrite (ok_flow _ _ _ H), Ha. cbn. by rewrite app_nil_r.
  - intros i t Ei. split; [by eapply Hw|]. destruct (ok_threads _ _ _ H i t Ei) as (T1 & _). rewrite T1. unfold holds.
    rewrite (Hw i t Ei). by rewrite app_nil_r.
Qed.

(** * A run *)

Definition goes (i n : nat) : list choice := replicate n (Thread_goes i false).
Definition accepts (fd : Z) (w : nat) : list choice := replicate 7 (Main_goes fd w).
(** Two threads wait; two connections come, the second while the first is
    served; both are closed, and the threads wait again. *)
Definition demo_schedule : list choice :=
  goes 0 2 ++ goes 1 2 ++ accepts 7 0 ++ goes 0 7 ++ accepts 9 1 ++ goes 1 10 ++ goes 0 3.
Definition demo_busy : server := default (start 2) (run (goes 0 2 ++ goes 1 2 ++ accepts 7 0 ++ goes 0 5 ++ accepts 9 1) (start 2)).
Definition demo_rest : server := default (start 2) (run demo_schedule (start 2)).

Lemma demo_busy_run : run (goes 0 2 ++ goes 1 2 ++ accepts 7 0 ++ goes 0 5 ++ accepts 9 1) (start 2) = Some demo_busy.
Proof. vm_compute. reflexivity. Qed.
Lemma demo_rest_run : run demo_schedule (start 2) = Some demo_rest.
Proof. vm_compute. reflexivity. Qed.

Lemma pool_conserves_witness :
  accepted demo_busy = [7; 9] /\ taken demo_busy = [(0%nat, 7)] /\ [7; 9] = 7 :: queued demo_busy.
Proof.
  assert (Hr : reachable 2 demo_busy) by exact (pool_run_reachable 2 _ _ _ (reachable_start 2) demo_busy_run).
  assert (E1 : accepted demo_busy = [7; 9]) by (vm_compute; reflexivity).
  assert (E2 : taken demo_busy = [(0%nat, 7)]) by (vm_compute; reflexivity).
  assert (E3 : main demo_busy = A_accept) by (vm_compute; reflexivity).
  split; [exact E1|]. split; [exact E2|].
  destruct (pool_conserves 2 demo_busy ltac:(lia) Hr) as (W & _); [rewrite E2; cbn; unfold LONG_MAX; lia|].
  rewrite E1, E2, E3 in W. cbn [snd fmap list_fmap app in_hand] in W. rewrite app_nil_r in W. exact W.
Defined.

Lemma demo_quiet : quiet demo_rest.
Proof. split; [intros [|[|i]]; vm_compute; reflexivity|left; vm_compute; reflexivity]. Qed.

Lemma pool_comes_to_rest_witness :
  accepted demo_rest = [7; 9] /\ queued demo_rest = [] /\ connections 1 (closed demo_rest) = connections 1 (taken demo_rest).
Proof.
  assert (Hr : reachable 2 demo_rest) by exact (pool_run_reachable 2 _ _ _ (reachable_start 2) demo_rest_run).
  assert (E1 : accepted demo_rest = [7; 9]) by (vm_compute; reflexivity).
  assert (E2 : length (taken demo_rest) = 2%nat) by (vm_compute; reflexivity).
  assert (E3 : main demo_rest <> A_quit) by (vm_compute; discriminate).
  destruct (pool_comes_to_rest 2 demo_rest ltac:(lia) Hr) as (_ & W2 & _ & W4);
    [rewrite E2; unfold LONG_MAX; lia|exact demo_quiet|exact E3|].
  split; [exact E1|]. split; [exact W2|].
  assert (L : is_Some (tptr demo_rest !! 1%nat)) by (vm_compute; eauto). destruct L as [t Ht].
  exact (proj2 (W4 1%nat t Ht)).
Defined.
