(* ===== verification/Bounded.v ===== *)
(** unpv13e/threads/example03.c: a producer and a consumer with a bounded
    buffer, a mutex and two condition variables. *)
From Stdlib Require Import ZArith Lia.
From stdpp Require Import base list strings numbers.
From S2P Require Import Prelude Ring.
Local Open Scope c_scope.

Definition NLOOP : Z := 50.
Definition BUFFSIZE : Z := 10.

(** Where the threads are: the test of the loop, locking, the test of the
    number of items, [pthread_cond_wait] and locking again after it, storing or
    fetching the value, moving the index, counting, signalling, unlocking. *)
Inductive producer_pc :=
| P_loop | P_lock | P_test | P_wait | P_relock | P_store | P_advance | P_count | P_signal | P_unlock | P_done.
Inductive consumer_pc :=
| C_loop | C_lock | C_test | C_wait | C_relock | C_fetch | C_advance (val : Z) | C_count | C_signal | C_unlock | C_done.

Inductive owner := Producer | Consumer.

(** The buffer, the threads with their loop counters, and the values
    consumed. *)
Record buf_t := mk_buf {
  b_buf : list Z;
  b_nitems : Z;
  b_nextget : Z;
  b_nextput : Z;
  b_mutex : option owner;
  producer : producer_pc;
  p_i : Z;
  consumer : consumer_pc;
  c_i : Z;
  consumed : list Z
}.
Definition set_buf v s := mk_buf v (b_nitems s) (b_nextget s) (b_nextput s) (b_mutex s) (producer s) (p_i s) (consumer s) (c_i s) (consumed s).
Definition set_nitems v s := mk_buf (b_buf s) v (b_nextget s) (b_nextput s) (b_mutex s) (producer s) (p_i s) (consumer s) (c_i s) (consumed s).
Definition set_nextget v s := mk_buf (b_buf s) (b_nitems s) v (b_nextput s) (b_mutex s) (producer s) (p_i s) (consumer s) (c_i s) (consumed s).
Definition set_nextput v s := mk_buf (b_buf s) (b_nitems s) (b_nextget s) v (b_mutex s) (producer s) (p_i s) (consumer s) (c_i s) (consumed s).
Definition set_mutex v s := mk_buf (b_buf s) (b_nitems s) (b_nextget s) (b_nextput s) v (producer s) (p_i s) (consumer s) (c_i s) (consumed s).
Definition p_goto v s := mk_buf (b_buf s) (b_nitems s) (b_nextget s) (b_nextput s) (b_mutex s) v (p_i s) (consumer s) (c_i s) (consumed s).
Definition set_p_i v s := mk_buf (b_buf s) (b_nitems s) (b_nextget s) (b_nextput s) (b_mutex s) (producer s) v (consumer s) (c_i s) (consumed s).
Definition c_goto v s := mk_buf (b_buf s) (b_nitems s) (b_nextget s) (b_nextput s) (b_mutex s) (producer s) (p_i s) v (c_i s) (consumed s).
Definition set_c_i v s := mk_buf (b_buf s) (b_nitems s) (b_nextget s) (b_nextput s) (b_mutex s) (producer s) (p_i s) (consumer s) v (consumed s).
Definition record_consumed v s := mk_buf (b_buf s) (b_nitems s) (b_nextget s) (b_nextput s) (b_mutex s) (producer s) (p_i s) (consumer s) (c_i s) (consumed s ++ [v]).

(** The global [buf_t] is zero; both threads have been created. *)
Definition start : buf_t := mk_buf (replicate (Z.to_nat BUFFSIZE) 0) 0 0 0 None P_loop 0 C_loop 0 [].

Definition outside_buf (i : Z) (s : buf_t) : bool := (i <? 0) || (Z.of_nat (length (b_buf s)) <=? i).

(** A step of the producer, [produce_loop] and [produce]; [spurious] is a return
    of [pthread_cond_wait] that no signal caused. *)
Definition producer_step (spurious : bool) (s : buf_t) : option (outcome buf_t unit) :=
  match producer s with
  | P_loop => Some (Ret tt (p_goto (if p_i s <? NLOOP then P_lock else P_done) s))
  | P_lock | P_relock => if b_mutex s is None then Some (Ret tt (p_goto P_test (set_mutex (Some Producer) s))) else None
  | P_test => Some (Ret tt (if b_nitems s >=? BUFFSIZE then p_goto P_wait (set_mutex None s) else p_goto P_store s))
  | P_wait => if spurious then Some (Ret tt (p_goto P_relock s)) else None
  | P_store =>
    Some (if outside_buf (b_nextput s) s then Undef "b_buf[]"
          else Ret tt (p_goto P_advance (set_buf (<[Z.to_nat (b_nextput s) := p_i s]> (b_buf s)) s)))
  | P_advance => Some (Ret tt (p_goto P_count (set_nextput (if b_nextput s + 1 >=? BUFFSIZE then 0 else b_nextput s + 1) s)))
  | P_count => Some (Ret tt (p_goto P_signal (set_nitems (b_nitems s + 1) s)))
  | P_signal => Some (Ret tt (p_goto P_unlock (if consumer s is C_wait then c_goto C_relock s else s)))
  | P_unlock => Some (Ret tt (p_goto P_loop (set_p_i (p_i s + 1) (set_mutex None s))))
  | P_done => None
  end.

(** A step of the consumer, [consume_loop] and [consume]. *)
Definition consumer_step (spurious : bool) (s : buf_t) : option (outcome buf_t unit) :=
  match consumer s with
  | C_loop => Some (Ret tt (c_goto (if c_i s <? NLOOP then C_lock else C_done) s))
  | C_lock | C_relock => if b_mutex s is None then Some (Ret tt (c_goto C_test (set_mutex (Some Consumer) s))) else None
  | C_test => Some (Ret tt (if b_nitems s <=? 0 then c_goto C_wait (set_mutex None s) else c_goto C_fetch s))
  | C_wait => if spurious then Some (Ret tt (c_goto C_relock s)) else None
  | C_fetch =>
    Some (if outside_buf (b_nextget s) s then Undef "b_buf[]"
          else Ret tt (c_goto (C_advance (b_buf s !!! Z.to_nat (b_nextget s))) s))
  | C_advance val =>
    Some (Ret tt (c_goto C_count (record_consumed val (set_nextget (if b_nextget s + 1 >=? BUFFSIZE then 0 else b_nextget s + 1) s))))
  | C_count => Some (Ret tt (c_goto C_signal (set_nitems (b_nitems s - 1) s)))
  | C_signal => Some (Ret tt (c_goto C_unlock (if producer s is P_wait then p_goto P_relock s else s)))
  | C_unlock => Some (Ret tt (c_goto C_loop (set_c_i (c_i s + 1) (set_mutex None s))))
  | C_done => None
  end.

Inductive choice := Producer_goes (spurious : bool) | Consumer_goes (spurious : bool).
Definition step (c : choice) (s : buf_t) : option (outcome buf_t unit) :=
  match c with Producer_goes b => producer_step b s | Consumer_goes b => consumer_step b s end.

Inductive reachable : buf_t -> Prop :=
| reachable_start : reachable start
| reachable_step c s s' : reachable s -> step c s = Some (Ret tt s') -> reachable s'.

(** A schedule in which no thread wakes without a signal: who goes next. *)
Definition goes (t : owner) : choice := match t with Producer => Producer_goes false | Consumer => Consumer_goes false end.
Fixpoint run (ts : list owner) (s : buf_t) : option buf_t :=
  match ts with
  | [] => Some s
  | t :: ts => match step (goes t) s with Some (Ret _ s') => run ts s' | _ => None end
  end.

(** * Invariant *)

(** The values 0, 1, ..., n - 1. *)
Definition first (n : nat) : list Z := Z.of_nat <$> seq 0 n.

Definition p_inside (p : producer_pc) : bool :=
  match p with P_test | P_store | P_advance | P_count | P_signal | P_unlock => true | _ => false end.
Definition c_inside (p : consumer_pc) : bool :=
  match p with C_test | C_fetch | C_advance _ | C_count | C_signal | C_unlock => true | _ => false end.
(** The index has moved and the item is not yet counted. *)
Definition p_due (p : producer_pc) : Z := match p with P_count => 1 | _ => 0 end.
Definition c_due (p : consumer_pc) : Z := match p with C_count => 1 | _ => 0 end.
(** The values that are in the buffer or were. *)
Definition stored (s : buf_t) : Z := p_i s + match producer s with P_count | P_signal | P_unlock => 1 | _ => 0 end.
Definition fetched (s : buf_t) : Z := c_i s + match consumer s with C_count | C_signal | C_unlock => 1 | _ => 0 end.

Definition producer_ok (n : nat) (s : buf_t) : Prop :=
  match producer s with
  | P_loop => p_i s <= NLOOP
  | P_done => p_i s = NLOOP
  | P_store => p_i s < NLOOP /\ Z.of_nat n < BUFFSIZE
  | P_advance => p_i s < NLOOP /\ Z.of_nat n < BUFFSIZE /\ b_buf s !!! Z.to_nat (b_nextput s) = p_i s
  | P_wait => p_i s < NLOOP /\
      (Z.of_nat n = BUFFSIZE \/ match consumer s with C_count | C_signal => True | _ => False end)
  | _ => p_i s < NLOOP
  end.
Definition consumer_ok (n : nat) (s : buf_t) : Prop :=
  match consumer s with
  | C_loop => c_i s <= NLOOP
  | C_done => c_i s = NLOOP
  | C_fetch => c_i s < NLOOP /\ (0 < n)%nat
  | C_advance val => c_i s < NLOOP /\ (0 < n)%nat /\ b_buf s !!! Z.to_nat (b_nextget s) = val
  | C_wait => c_i s < NLOOP /\ (n = 0%nat \/ match producer s with P_count | P_signal => True | _ => False end)
  | _ => c_i s < NLOOP
  end.

(** [n] values are in the buffer. *)
Record buf_ok (n : nat) (s : buf_t) : Prop := {
  ok_size : Z.of_nat (length (b_buf s)) = BUFFSIZE;
  ok_get : 0 <= b_nextget s < BUFFSIZE;
  ok_put : b_nextput s = (b_nextget s + Z.of_nat n) mod BUFFSIZE;
  ok_n : Z.of_nat n <= BUFFSIZE;
  ok_nitems : b_nitems s = Z.of_nat n - p_due (producer s) + c_due (consumer s);
  ok_p_i : 0 <= p_i s;
  ok_c_i : 0 <= c_i s;
  ok_values : first (Z.to_nat (stored s)) = consumed s ++ ring_view BUFFSIZE (b_buf s) (b_nextget s) n;
  ok_consumed : Z.of_nat (length (consumed s)) = fetched s;
  ok_p_mutex : b_mutex s = Some Producer <-> p_inside (producer s) = true;
  ok_c_mutex : b_mutex s = Some Consumer <-> c_inside (consumer s) = true;
  ok_producer : producer_ok n s;
  ok_consumer : consumer_ok n s
}.

Lemma start_buf_ok : buf_ok 0 start.
Proof. constructor; try done; cbn; unfold BUFFSIZE, NLOOP; lia. Qed.

(** * Steps *)

Lemma first_S n : first (S n) = first n ++ [Z.of_nat n].
Proof. unfold first. by rewrite seq_S, fmap_app. Qed.

Lemma exclusive n s : buf_ok n s -> p_inside (producer s) = true -> c_inside (consumer s) = true -> False.
Proof.
  intros H Hp Hc. apply (ok_p_mutex _ _ H) in Hp. apply (ok_c_mutex _ _ H) in Hc. congruence.
Qed.

Lemma put_slot n s : buf_ok n s -> Z.to_nat (b_nextput s) = ring_slot BUFFSIZE (b_nextget s) n.
Proof. intros H. unfold ring_slot. by rewrite (ok_put _ _ H). Qed.

Lemma put_bounds n s : buf_ok n s -> 0 <= b_nextput s < BUFFSIZE.
Proof. intros H. rewrite (ok_put _ _ H). by apply Z.mod_pos_bound. Qed.

Ltac fields :=
  cbn [p_goto c_goto set_buf set_nitems set_nextget set_nextput set_mutex set_p_i set_c_i record_consumed
       b_buf b_nitems b_nextget b_nextput b_mutex producer p_i consumer c_i consumed] in *.
Ltac facts := unfold producer_ok, consumer_ok, stored, fetched, p_due, c_due, p_inside, c_inside in *.
Ltac crunch := try done; try lia; try (intuition (congruence || lia)).

Ltac p_case H Ep := destruct H as [H1 H2 H3 H4 H5 H6 H7 H8 H9 H10 H11 H12 H13]; facts; rewrite Ep in *.
Ltac p_done Ep :=
  constructor; fields; facts; rewrite ?Ep in *; fields; crunch;
  repeat match goal with _ : context [consumer ?s] |- _ => destruct (consumer s) end; fields; crunch.

Lemma producer_step_ok n s spurious o : buf_ok n s -> producer_step spurious s = Some o ->
  exists s' n', o = Ret tt s' /\ buf_ok n' s'.
Proof.
  intros H. unfold producer_step. pose proof (exclusive n s H) as Hex. pose proof (put_slot n s H) as Hslot.
  pose proof (put_bounds n s H) as Hput. destruct (producer s) eqn:Ep; try done.
  - intros [= <-]. eexists _, n. split; [reflexivity|]. p_case H Ep. destruct (Z.ltb_spec (p_i s) NLOOP); p_done Ep.
  - destruct (b_mutex s) eqn:Em; [done|]. intros [= <-]. eexists _, n. split; [reflexivity|]. p_case H Ep. p_done Ep.
  - intros [= <-]. eexists _, n. split; [reflexivity|]. p_case H Ep. destruct (Z.geb_spec (b_nitems s) BUFFSIZE); p_done Ep.
  - destruct spurious; [|done]. intros [= <-]. eexists _, n. split; [reflexivity|]. p_case H Ep. p_done Ep.
  - destruct (b_mutex s) eqn:Em; [done|]. intros [= <-]. eexists _, n. split; [reflexivity|]. p_case H Ep. p_done Ep.
  - unfold outside_buf. rewrite (proj2 (Z.ltb_ge _ _)), (proj2 (Z.leb_gt _ _)) by (pose proof (ok_size _ _ H); lia). cbn [orb].
    intros [= <-]. eexists _, n. split; [reflexivity|]. p_case H Ep.
    set (b := <[Z.to_nat (b_nextput s) := p_i s]> (b_buf s)).
    assert (Lb : length b = length (b_buf s)) by apply length_insert.
    assert (Vb : ring_view BUFFSIZE b (b_nextget s) n = ring_view BUFFSIZE (b_buf s) (b_nextget s) n).
    { unfold b. rewrite Hslot. apply ring_store. lia. }
    assert (Eb : b !!! Z.to_nat (b_nextput s) = p_i s) by (apply list_lookup_total_insert_eq; lia).
    clearbody b. rewrite <-Vb in H8. rewrite <-Lb in H1. p_done Ep.
  - intros [= <-]. eexists _, (S n). split; [reflexivity|]. p_case H Ep. destruct H12 as (G1 & G2 & G3).
    assert (Hn : (if b_nextput s + 1 >=? BUFFSIZE then 0 else b_nextput s + 1) = (b_nextget s + Z.of_nat (S n)) mod BUFFSIZE).
    { rewrite ring_next by done. rewrite H3. by apply ring_put_next. }
    assert (Hv : first (Z.to_nat (p_i s + 1)) = consumed s ++ ring_view BUFFSIZE (b_buf s) (b_nextget s) (S n)).
    { rewrite ring_view_last, <-Hslot, G3, app_assoc, <-H8. replace (Z.to_nat (p_i s + 1)) with (S (Z.to_nat (p_i s + 0))) by lia.
      rewrite first_S. do 2 f_equal. lia. }
    p_done Ep.
  - intros [= <-]. eexists _, n. split; [reflexivity|]. p_case H Ep. p_done Ep.
  - intros [= <-]. eexists _, n. split; [reflexivity|]. p_case H Ep. destruct (consumer s) eqn:Ec; p_done Ep.
  - intros [= <-]. eexists _, n. split; [reflexivity|]. p_case H Ep. p_done Ep; by rewrite Z.add_0_r.
Qed.

Ltac c_done Ep :=
  constructor; fields; facts; rewrite ?Ep in *; fields; crunch;
  repeat match goal with _ : context [producer ?s] |- _ => destruct (producer s) end; fields; crunch.

Lemma consumer_step_ok n s spurious o : buf_ok n s -> consumer_step spurious s = Some o ->
  exists s' n', o = Ret tt s' /\ buf_ok n' s'.
Proof.
  intros H. unfold consumer_step. pose proof (exclusive n s H) as Hex.
  pose proof (ok_get _ _ H) as Hget. destruct (consumer s) as [| | | | | |val| | | |] eqn:Ep; try done.
  - intros [= <-]. eexists _, n. split; [reflexivity|]. p_case H Ep. destruct (Z.ltb_spec (c_i s) NLOOP); c_done Ep.
  - destruct (b_mutex s) eqn:Em; [done|]. intros [= <-]. eexists _, n. split; [reflexivity|]. p_case H Ep. c_done Ep.
  - intros [= <-]. eexists _, n. split; [reflexivity|]. p_case H Ep. destruct (Z.leb_spec (b_nitems s) 0); c_done Ep.
  - destruct spurious; [|done]. intros [= <-]. eexists _, n. split; [reflexivity|]. p_case H Ep. c_done Ep.
  - destruct (b_mutex s) eqn:Em; [done|]. intros [= <-]. eexists _, n. split; [reflexivity|]. p_case H Ep. c_done Ep.
  - unfold outside_buf. rewrite (proj2 (Z.ltb_ge _ _)), (proj2 (Z.leb_gt _ _)) by (pose proof (ok_size _ _ H); lia). cbn [orb].
    intros [= <-]. eexists _, n. split; [reflexivity|]. p_case H Ep. c_done Ep.
  - intros [= <-]. eexists _, (pred n). split; [reflexivity|]. p_case H Ep. destruct H13 as (G1 & G2 & G3).
    destruct n as [|n]; [lia|]. cbn [pred].
    assert (Hn : (if b_nextget s + 1 >=? BUFFSIZE then 0 else b_nextget s + 1) = (b_nextget s + 1) mod BUFFSIZE) by by apply ring_next.
    assert (Hb : 0 <= (b_nextget s + 1) mod BUFFSIZE < BUFFSIZE) by by apply Z.mod_pos_bound.
    rewrite ring_pop, G3 in H8 by done. rewrite <-(ring_get_next BUFFSIZE (b_nextget s) n eq_refl) in H3.
    rewrite cons_middle, app_assoc in H8. rewrite Hn. 
    c_done Ep; rewrite ?length_app; cbn [length]; lia.
  - intros [= <-]. eexists _, n. split; [reflexivity|]. p_case H Ep. c_done Ep.
  - intros [= <-]. eexists _, n. split; [reflexivity|]. p_case H Ep. destruct (producer s) eqn:Ec; c_done Ep.
  - intros [= <-]. eexists _, n. split; [reflexivity|]. p_case H Ep. c_done Ep.
Qed.

Lemma buf_reachable s : reachable s -> exists n, buf_ok n s.
Proof.
  induction 1 as [|c s s' _ [n H] E]; [exists 0%nat; apply start_buf_ok|]. destruct c as [b|b].
  - destruct (producer_step_ok n s b _ H E) as (s1 & n' & [= <-] & H'). by exists n'.
  - destruct (consumer_step_ok n s b _ H E) as (s1 & n' & [= <-] & H'). by exists n'.
Qed.

(** * Termination *)

(** A signal brings a waiting thread back before its test, and costs more than
    that. *)
Definition p_weight (p : producer_pc) : Z :=
  match p with
  | P_loop => 11 | P_lock | P_relock => 10 | P_test => 9 | P_wait => 8 | P_store => 7 | P_advance => 6 | P_count => 5
  | P_signal => 4 | P_unlock => 1 | P_done => 0
  end.
Definition c_weight (p : consumer_pc) : Z :=
  match p with
  | C_loop => 11 | C_lock | C_relock => 10 | C_test => 9 | C_wait => 8 | C_fetch => 7 | C_advance _ => 6 | C_count => 5
  | C_signal => 4 | C_unlock => 1 | C_done => 0
  end.
Definition distance (s : buf_t) : Z := 11 * (NLOOP - p_i s) + p_weight (producer s) + (11 * (NLOOP - c_i s) + c_weight (consumer s)).

Lemma step_distance t s s' : step (goes t) s = Some (Ret tt s') -> distance s' < distance s.
Proof.
  unfold distance. destruct t; cbn [step goes]; unfold producer_step, consumer_step; intros E;
    repeat case_match; simplify_eq; fields; unfold p_weight, c_weight; repeat case_match; simplify_eq; lia.
Qed.

Lemma bounded_distance_pos n s : buf_ok n s -> 0 <= distance s.
Proof.
  intros H. pose proof (ok_producer _ _ H) as Hp. pose proof (ok_consumer _ _ H) as Hc. unfold distance. facts.
  assert (p_i s <= NLOOP) by (destruct (producer s); lia). assert (c_i s <= NLOOP) by (destruct (consumer s); lia).
  assert (0 <= p_weight (producer s)) by (destruct (producer s); cbn; lia).
  assert (0 <= c_weight (consumer s)) by (destruct (consumer s); cbn; lia). lia.
Qed.

Lemma bounded_run_reachable ts s s' : reachable s -> run ts s = Some s' -> reachable s' /\ Z.of_nat (length ts) <= distance s - distance s'.
Proof.
  revert s. induction ts as [|t ts IH]; cbn [run]; intros s H E; [injection E as <-; cbn; split; [done|lia]|].
  destruct (step (goes t) s) as [[[] s1| | |]|] eqn:Es; try done. pose proof (step_distance _ _ _ Es).
  destruct (IH s1 ltac:(by eapply reachable_step) E) as [H1 H2]. split; [done|]. cbn [length]. lia.
Qed.

(** No thread can go on. *)
Definition stuck (s : buf_t) : Prop := forall t, step (goes t) s = None.

Lemma stuck_done n s : buf_ok n s -> stuck s -> producer s = P_done /\ consumer s = C_done.
Proof.
  intros H Hs. pose proof (Hs Producer) as Hp. pose proof (Hs Consumer) as Hc. cbn in Hp, Hc. unfold producer_step in Hp. unfold consumer_step in Hc.
  pose proof (ok_values _ _ H) as Hv. apply (f_equal length) in Hv. unfold first in Hv.
  rewrite length_fmap, length_seq, length_app, ring_view_length in Hv. pose proof (ok_consumed _ _ H) as Hl.
  pose proof (ok_p_mutex _ _ H) as Mp. pose proof (ok_c_mutex _ _ H) as Mc. pose proof (ok_producer _ _ H) as Kp. pose proof (ok_consumer _ _ H) as Kc.
  pose proof (ok_p_i _ _ H). pose proof (ok_c_i _ _ H). facts. unfold NLOOP, BUFFSIZE in *.
  destruct (producer s); try done; destruct (consumer s); try done; destruct (b_mutex s) as [[]|]; try done; exfalso;
    (intuition (congruence || lia)).
Qed.

Lemma first_prefix k a b : first k = a ++ b -> a = first (length a).
Proof.
  intros E. apply (f_equal (take (length a))) in E. rewrite take_app_length in E. rewrite <-E at 1. unfold first.
  rewrite <-fmap_take. f_equal. apply (f_equal length) in E. unfold first in E. rewrite length_take, length_fmap, length_seq in E.
  rewrite take_seq. f_equal. lia.
Qed.

(** * Property *)

(** C36: The values are consumed in the order in which they are produced, under
    any schedule and any spurious wake-ups; no index leaves the buffer; and if
    no thread wakes without a signal then the threads come to their end in a
    bounded number of steps, without a deadlock, with all fifty values
    consumed. *)
Theorem bounded_delivers s : reachable s ->
  consumed s = first (length (consumed s)) /\
  (forall c o, step c s = Some o -> exists s', o = Ret tt s') /\
  forall ts s', run ts s = Some s' ->
    Z.of_nat (length ts) <= distance s /\
    (stuck s' -> producer s' = P_done /\ consumer s' = C_done /\ consumed s' = first (Z.to_nat NLOOP)).
Proof.
  intros Hr. destruct (buf_reachable s Hr) as [n H]. split; [|split].
  - eapply first_prefix. apply H.
  - intros [b|b] o E; [destruct (producer_step_ok n s b o H E) as (s' & _ & -> & _)|destruct (consumer_step_ok n s b o H E) as (s' & _ & -> & _)]; eauto.
  - intros ts s' E. destruct (bounded_run_reachable ts s s' Hr E) as [Hr' Hl]. destruct (buf_reachable s' Hr') as [n' H'].
    pose proof (bounded_distance_pos _ _ H'). split; [lia|]. intros Hs. destruct (stuck_done _ _ H' Hs) as [E1 E2]. split_and!; try done.
    pose proof (ok_consumer _ _ H') as Kc. pose proof (ok_consumed _ _ H') as Hc. facts. rewrite E2 in Kc, Hc.
    rewrite (first_prefix _ _ _ (ok_values _ _ H')). f_equal. lia.
Qed.

(** The producer fills the buffer and waits; the consumer wakes it and runs on;
    in turns, to the end. *)
Definition demo_schedule : list owner :=
  replicate 83 Producer ++ replicate 8 Consumer ++ replicate 3 Producer.
Definition demo_state : buf_t := default start (run demo_schedule start).
Lemma demo_run : run demo_schedule start = Some demo_state.
Proof. vm_compute. reflexivity. Qed.

Lemma bounded_delivers_witness :
  consumed demo_state = first 1 /\ forall ts s', run ts demo_state = Some s' -> stuck s' -> consumed s' = first 50.
Proof.
  destruct (bounded_run_reachable _ _ _ reachable_start demo_run) as [Hr _].
  destruct (bounded_delivers demo_state Hr) as (W1 & _ & W3).
  assert (L : length (consumed demo_state) = 1%nat) by (vm_compute; reflexivity).
  rewrite L in W1. split; [exact W1|]. intros ts s' E Hs. exact (proj2 (proj2 (proj2 (W3 ts s' E) Hs))).
Defined.
