(* ===== verification/UdpFile.v ===== *)
(** unpv13e/udpfileserv: a server that sends a file in datagrams with every
    byte combined with a key, and its client. *)
From Stdlib Require Import ZArith Lia.
From stdpp Require Import base list strings numbers.
From S2P Require Import Prelude CString CFile.
Local Open Scope c_scope.

Definition NET_BUF_SIZE : nat := 32.
Definition cipherKey : Z := 83.
Definition nofile : bytes := str "File Not Found!".
Definition EOF : Z := -1.

(** * Both programs *)

Definition get (i : nat) : M bytes Z := fun b =>
  match b !! i with Some c => Ret c b | None => Undef "buf[]" end.
Definition strcpy (t : bytes) : M bytes unit := fun b =>
  if (length t + 1 <=? length b)%nat then Ret tt (splice 0 (t ++ [0]) b) else Undef "strcpy".

Fixpoint clear_loop (n i : nat) : M bytes unit :=
  match n with O => skip | S n => poke i 0;;; clear_loop n (S i) end.
Definition clearBuf : M bytes unit := clear_loop NET_BUF_SIZE 0.

(** On a [char], of which only the low eight bits are kept. *)
Definition Cipher (ch : Z) : Z := u8 (Z.lxor ch cipherKey).

(** [recvfrom] cuts a datagram that is too long. *)
Definition recvfrom (d : bytes) : M bytes unit := modify (splice 0 (take NET_BUF_SIZE d)).

(** * The server *)

(** The buffer, the file that is open (what [fgetc] has not read yet) and the
    datagrams sent. *)
Record server := Server { net_buf : bytes; fp : option bytes; sent : list bytes }.
Definition set_buf v s := Server v (fp s) (sent s).
Definition set_fp v s := Server (net_buf s) v (sent s).
Definition on_buf {A} (m : M bytes A) : M server A := zoom net_buf set_buf m.
Definition sendto : M server unit := modify (fun s => Server (net_buf s) (fp s) (sent s ++ [net_buf s])).

Definition fgetc : M server Z := fun s =>
  match fp s with
  | None => Undef "fgetc"
  | Some [] => Ret EOF s
  | Some (c :: r) => Ret c (set_fp (Some r) s)
  end.

(** [for (i = 0; i <= len; i++) buf\[i\] = Cipher(buf\[i\]);] *)
Fixpoint cipher_loop (n i : nat) : M bytes unit :=
  match n with
  | O => skip
  | S n => let* c := get i in poke i (Cipher c);;; cipher_loop n (S i)
  end.

(** The loop over the buffer; a [char] is compared with EOF as a signed
    number. *)
Fixpoint send_loop (n i : nat) : M server Z :=
  match n with
  | O => ret 0
  | S n =>
    let* c := fgetc in
    let ch := u8 c in
    on_buf (poke i (Cipher ch));;;
    if i8 ch =? EOF then ret 1 else send_loop n (S i)
  end.

Definition say_nofile : M bytes unit :=
  strcpy nofile;;;
  let len := length nofile in
  poke len (u8 EOF);;;
  cipher_loop (S len) 0.

Definition sendFile (s : nat) : M server Z :=
  let* f := gets fp in
  match f with
  | None => on_buf say_nofile;;; ret 1
  | Some _ => send_loop s 0
  end.

(** The inner loop of [main]. *)
Fixpoint send_all (fuel : nat) : M server unit :=
  match fuel with
  | O => nofuel
  | S fuel =>
    let* r := sendFile NET_BUF_SIZE in
    sendto;;;
    if negb (r =? 0) then skip
    else on_buf clearBuf;;; send_all fuel
  end.

(** The body of the outer loop, for the datagram [d]; [files] are the files
    [fopen] can open. *)
Definition serve (files : bytes -> option bytes) (fuel : nat) (d : bytes) : M server unit :=
  on_buf clearBuf;;;
  on_buf (recvfrom d);;;
  let* b := gets net_buf in
  (if bool_decide (0 ∈ b) then skip else undef "fopen");;;
  modify (set_fp (files (cstr b)));;;
  send_all fuel.

(** * The client *)

(** The buffer, and what is shown. *)
Record client := Client { c_buf : bytes; screen : bytes }.
Definition set_c_buf v s := Client v (screen s).
Definition on_c_buf {A} (m : M bytes A) : M client A := zoom c_buf set_c_buf m.
Definition show (c : Z) : M client unit := modify (fun s => Client (c_buf s) (screen s ++ [c])).

Fixpoint recv_loop (n i : nat) : M client Z :=
  match n with
  | O => ret 0
  | S n =>
    let* c := on_c_buf (get i) in
    let ch := Cipher c in
    if i8 ch =? EOF then ret 1 else show ch;;; recv_loop n (S i)
  end.
Definition recvFile (s : nat) : M client Z := recv_loop s 0.

(** [scanf("%s")] of a word, and the datagram that is sent. *)
Definition request (name : bytes) : M client bytes :=
  on_c_buf (strcpy name);;; gets c_buf.

(** The loop over the answer, given the datagrams that arrive; [None] when it
    waits for another, otherwise those that are left. *)
Fixpoint receive (ds : list bytes) : M client (option (list bytes)) :=
  match ds with
  | [] => ret None
  | d :: ds =>
    on_c_buf clearBuf;;;
    on_c_buf (recvfrom d);;;
    let* r := recvFile NET_BUF_SIZE in
    if negb (r =? 0) then ret (Some ds) else receive ds
  end.

(** * Bytes and buffers *)

Lemma forall_bytes (P : Z -> bool) : forallb P (Z.of_nat <$> seq 0 256) = true -> forall c, is_byte c -> P c = true.
Proof.
  intros H c Hc. unfold is_byte in Hc. rewrite forallb_forall in H. apply H. apply list_elem_of_In, list_elem_of_fmap.
  exists (Z.to_nat c). split; [lia|]. apply elem_of_seq. lia.
Qed.

Lemma Cipher_Cipher c : is_byte c -> Cipher (Cipher c) = c.
Proof. intros H. apply Z.eqb_eq. revert c H. apply (forall_bytes (fun c => Cipher (Cipher c) =? c)). vm_compute. reflexivity. Qed.

Lemma is_eof c : is_byte c -> (i8 c =? EOF) = (c =? 255).
Proof.
  intros H. apply eqb_prop. revert c H. apply (forall_bytes (fun c => Bool.eqb (i8 c =? EOF) (c =? 255))). vm_compute. reflexivity.
Qed.

Lemma u8_byte c : is_byte c -> u8 c = c.
Proof. intros H. by apply wrapu_small. Qed.

Lemma clear_loop_run n i b : (i + n <= length b)%nat -> clear_loop n i b = Ret tt (splice i (replicate n 0) b).
Proof.
  revert i b. induction n as [|n IH]; intros i b H; cbn [clear_loop replicate].
  - by rewrite buf_splice_nil by lia.
  - rewrite (bind_run _ _ _ _ _ (buf_poke_run i 0 b ltac:(lia))). rewrite IH by (rewrite length_insert; lia). by rewrite splice_insert by lia.
Qed.

Lemma clearBuf_run b : length b = NET_BUF_SIZE -> clearBuf b = Ret tt (replicate NET_BUF_SIZE 0).
Proof.
  intros H. unfold clearBuf. rewrite clear_loop_run by (rewrite H; done). by rewrite splice_all by (by rewrite length_replicate).
Qed.

Lemma recvfrom_run d b : length d = NET_BUF_SIZE -> length b = NET_BUF_SIZE -> recvfrom d b = Ret tt d.
Proof. intros H1 H2. unfold recvfrom, modify. rewrite take_ge by lia. by rewrite splice_all by lia. Qed.

(** * The server *)

(** What goes through: the bytes before the first that looks like EOF. *)
Definition before_eof (f : bytes) : bytes := take_while (fun c => negb (c =? 255)) f.

Lemma send_loop_run n i b f o : (i + n <= length b)%nat -> Forall is_byte f ->
  send_loop n i (Server b (Some f) o) =
  (if (n <=? length (before_eof f))%nat then Ret 0 (Server (splice i (Cipher <$> take n (before_eof f)) b) (Some (drop n f)) o)
   else Ret 1 (Server (splice i (Cipher <$> (before_eof f ++ [255])) b) (Some (drop (S (length (before_eof f))) f)) o)).
Proof.
  revert i b f. induction n as [|n IH]; intros i b f H Hf; cbn [send_loop].
  - cbn. by rewrite buf_splice_nil by lia.
  - destruct f as [|c f].
    + unfold bind at 1. cbn [fgetc fp]. change (u8 EOF) with 255. unfold bind, on_buf, zoom. cbn [net_buf].
      rewrite buf_poke_run by lia. cbn. rewrite <-splice_insert by lia. by rewrite buf_splice_nil by (rewrite length_insert; lia).
    + apply list.Forall_cons in Hf as [Hc Hf]. unfold bind at 1. cbn [fgetc fp set_fp net_buf sent].
      rewrite u8_byte by done. change (set_fp (Some f) _) with (Server b (Some f) o). unfold bind, on_buf, zoom. cbn [net_buf]. rewrite buf_poke_run by lia. rewrite is_eof by done.
      cbn [before_eof take_while set_buf fp sent]. destruct (Z.eqb_spec c 255) as [->|Hn]; cbn [negb].
      * cbn [length app fmap list_fmap drop]. replace (S n <=? 0)%nat with false by done.
        rewrite <-splice_insert by lia. by rewrite buf_splice_nil by (rewrite length_insert; lia).
      * change (set_buf ?b' _) with (Server b' (Some f) o). rewrite IH by (rewrite ?length_insert; lia || done). fold (before_eof f). cbn [length take fmap list_fmap drop app].
        change (S n <=? S (length (before_eof f)))%nat with (n <=? length (before_eof f))%nat.
        rewrite !splice_insert by lia. done.
Qed.

(** A full buffer of the file, or the rest of it with the mark at its end. *)
Definition datagram (b p : bytes) : bytes :=
  if (NET_BUF_SIZE <=? length p)%nat then Cipher <$> take NET_BUF_SIZE p else splice 0 (Cipher <$> (p ++ [255])) b.

Lemma datagram_length b p : length b = NET_BUF_SIZE -> length (datagram b p) = NET_BUF_SIZE.
Proof.
  intros H. unfold datagram. destruct (Nat.leb_spec NET_BUF_SIZE (length p)).
  - rewrite length_fmap, length_take. lia.
  - rewrite splice_length; [done|]. rewrite length_fmap, length_app. cbn [length]. lia.
Qed.

Lemma before_eof_drop n f : (n <= length (before_eof f))%nat -> before_eof (drop n f) = drop n (before_eof f).
Proof.
  revert n. induction f as [|c f IH]; intros [|n] H; try done. unfold before_eof in *. cbn [take_while] in *.
  destruct (negb (c =? 255)); cbn [length drop] in *; [apply IH; lia|lia].
Qed.

(** The datagrams for a file, the first over the buffer [b]. *)
Fixpoint datagrams (k : nat) (b p : bytes) : list bytes :=
  match k with
  | O => []
  | S k =>
    if (NET_BUF_SIZE <=? length p)%nat then datagram b p :: datagrams k (replicate NET_BUF_SIZE 0) (drop NET_BUF_SIZE p) else [datagram b p]
  end.

Lemma div_step n : (NET_BUF_SIZE <= n)%nat -> (n / NET_BUF_SIZE = S ((n - NET_BUF_SIZE) / NET_BUF_SIZE))%nat.
Proof.
  intros H. replace n with (1 * NET_BUF_SIZE + (n - NET_BUF_SIZE))%nat at 1 by lia. by rewrite Nat.div_add_l.
Qed.

Lemma send_all_run k b f o : length b = NET_BUF_SIZE -> Forall is_byte f -> (length (before_eof f) / NET_BUF_SIZE < k)%nat ->
  exists s', send_all k (Server b (Some f) o) = Ret tt s' /\ sent s' = o ++ datagrams k b (before_eof f) /\
    length (net_buf s') = NET_BUF_SIZE.
Proof.
  revert b f o. induction k as [|k IH]; intros b f o Hb Hf Hk; [lia|]. cbn [send_all datagrams]. unfold sendFile.
  rewrite bind_assoc, bind_gets. cbn [fp]. unfold bind at 1. rewrite send_loop_run by (rewrite ?Hb; done).
  pose proof (datagram_length b (before_eof f) Hb) as Hd. unfold datagram in Hd |- *.
  destruct (Nat.leb_spec NET_BUF_SIZE (length (before_eof f))) as [Hle|Hlt].
  - rewrite splice_all by (rewrite Hd; done). unfold sendto. rewrite bind_modify. cbv beta. cbn [net_buf fp sent Z.eqb negb].
    unfold bind, on_buf, zoom. cbn [net_buf]. rewrite clearBuf_run by done.
    change (set_buf ?b' _) with (Server b' (Some (drop NET_BUF_SIZE f)) (o ++ [Cipher <$> take NET_BUF_SIZE (before_eof f)])).
    destruct (IH (replicate NET_BUF_SIZE 0) (drop NET_BUF_SIZE f) (o ++ [Cipher <$> take NET_BUF_SIZE (before_eof f)])) as (s' & E & Es & El).
    + apply length_replicate.
    + by apply Forall_drop.
    + rewrite before_eof_drop, length_drop by done. rewrite (div_step _ Hle) in Hk. lia.
    + exists s'. rewrite E. split; [done|]. split; [|done]. rewrite Es, before_eof_drop by done. by rewrite <-app_assoc.
  - unfold sendto. rewrite bind_modify. cbv beta. eexists. split; [reflexivity|]. split; [done|exact Hd].
Qed.

(** Without the file, one datagram says so. *)
Lemma cipher_loop_run n i b : (i + n <= length b)%nat -> cipher_loop n i b = Ret tt (splice i (Cipher <$> take n (drop i b)) b).
Proof.
  revert i b. induction n as [|n IH]; intros i b H; cbn [cipher_loop].
  - cbn. by rewrite buf_splice_nil by lia.
  - destruct (lookup_lt_is_Some_2 b i ltac:(lia)) as [c Hc]. unfold bind at 1, get. rewrite Hc.
    rewrite (bind_run _ _ _ _ _ (buf_poke_run i (Cipher c) b ltac:(lia))). rewrite IH by (rewrite length_insert; lia).
    rewrite (drop_S _ _ _ Hc). cbn [take fmap list_fmap]. rewrite <-splice_insert by lia. by rewrite drop_insert_lt by lia.
Qed.

Lemma send_nofile k b o : length b = NET_BUF_SIZE ->
  exists s', send_all (S k) (Server b None o) = Ret tt s' /\ sent s' = o ++ datagrams 1 b nofile /\ length (net_buf s') = NET_BUF_SIZE.
Proof.
  intros Hb. cbn [send_all]. unfold sendFile.
  assert (E : say_nofile b = Ret tt (splice 0 (Cipher <$> (nofile ++ [255])) b)).
  { do 32 (destruct b as [|? b]; [done|]). destruct b; [|done]. vm_compute. reflexivity. }
  rewrite bind_assoc, bind_gets. cbn [fp]. rewrite bind_assoc.
  rewrite (bind_run _ _ _ _ _ (zoom_run net_buf set_buf say_nofile (Server b None o) _ _ E)).
  eexists. split; [reflexivity|]. split; [done|]. cbn [net_buf set_buf]. rewrite splice_length; [done|]. rewrite Hb. vm_compute. lia.
Qed.

(** * The client *)

Lemma recv_loop_run n i b sc p r : take n (drop i b) = (Cipher <$> p) ++ r -> (length p <= n)%nat -> Forall is_byte p ->
  Forall (fun c => c <> 255) p -> (i + n <= length b)%nat ->
  (length p = n -> recv_loop n i (Client b sc) = Ret 0 (Client b (sc ++ p))) /\
  (head r = Some (Cipher 255) -> recv_loop n i (Client b sc) = Ret 1 (Client b (sc ++ p))).
Proof.
  revert i sc p. induction n as [|n IH]; intros i sc p E Hl Hp Hq Hn.
  - destruct p; [|cbn in Hl; lia]. cbn [recv_loop]. rewrite app_nil_r. split; [done|]. intros Hr. by destruct r.
  - destruct (lookup_lt_is_Some_2 b i ltac:(lia)) as [x Hx]. rewrite (drop_S _ _ _ Hx) in E. cbn [take] in E.
    cbn [recv_loop]. unfold bind at 1 3, on_c_buf, zoom, get. cbn [c_buf]. rewrite Hx. cbn [set_c_buf screen].
    destruct p as [|c p].
    + split; [done|]. intros Hr. cbn in E. destruct r as [|y r]; [done|]. injection E as -> E. injection Hr as ->.
      rewrite Cipher_Cipher by done. cbn. by rewrite app_nil_r.
    + injection E as -> E. apply list.Forall_cons in Hp as [Hc Hp]. apply list.Forall_cons in Hq as [Hc2 Hq].
      rewrite Cipher_Cipher by done. rewrite is_eof by done. rewrite (proj2 (Z.eqb_neq _ _)) by done.
      destruct (IH (S i) (sc ++ [c]) p E ltac:(cbn in Hl; lia) Hp Hq ltac:(lia)) as [I1 I2].
      unfold show. rewrite !bind_modify. cbv beta. cbn [c_buf screen]. rewrite <-app_assoc in I1, I2. cbn [app] in I1, I2.
      split; [|exact I2]. intros Hlen. apply I1. cbn in Hlen. lia.
Qed.

Lemma receive_datagram d more cb sc : length d = NET_BUF_SIZE -> length cb = NET_BUF_SIZE ->
  receive (d :: more) (Client cb sc) =
  (let* r := recvFile NET_BUF_SIZE in if negb (r =? 0) then ret (Some more) else receive more) (Client d sc).
Proof.
  intros Hd Hc. cbn [receive]. rewrite (bind_run _ _ _ _ _ (zoom_run c_buf set_c_buf clearBuf (Client cb sc) _ _ (clearBuf_run cb Hc))).
  cbn [set_c_buf screen].
  by rewrite (bind_run _ _ _ _ _ (zoom_run c_buf set_c_buf (recvfrom d) (Client (replicate NET_BUF_SIZE 0) sc) _ _
    (recvfrom_run d _ Hd (length_replicate _ _)))).
Qed.

Lemma receive_datagrams k b p more cb sc : length b = NET_BUF_SIZE -> length cb = NET_BUF_SIZE ->
  Forall is_byte p -> Forall (fun c => c <> 255) p -> (length p / NET_BUF_SIZE < k)%nat ->
  exists cb', receive (datagrams k b p ++ more) (Client cb sc) = Ret (Some more) (Client cb' (sc ++ p)).
Proof.
  revert b p cb sc. induction k as [|k IH]; intros b p cb sc Hb Hcb Hp Hq Hk; [lia|]. cbn [datagrams].
  pose proof (datagram_length b p Hb) as Hd. unfold datagram in Hd |- *.
  destruct (Nat.leb_spec NET_BUF_SIZE (length p)) as [Hle|Hlt]; cbn [app]; rewrite receive_datagram by done; unfold recvFile, bind.
  - set (d := Cipher <$> take NET_BUF_SIZE p) in *.
    destruct (recv_loop_run NET_BUF_SIZE 0 d sc (take NET_BUF_SIZE p) []) as [R _].
    + rewrite drop_0, app_nil_r, take_ge by lia. done.
    + rewrite length_take. lia.
    + by apply Forall_take.
    + by apply Forall_take.
    + lia.
    + rewrite R by (rewrite length_take; lia). cbn [Z.eqb negb].
      destruct (IH (replicate NET_BUF_SIZE 0) (drop NET_BUF_SIZE p) d (sc ++ take NET_BUF_SIZE p)) as [cb' E].
      * apply length_replicate.
      * done.
      * by apply Forall_drop.
      * by apply Forall_drop.
      * rewrite length_drop. rewrite (div_step _ Hle) in Hk. lia.
      * exists cb'. rewrite E. by rewrite <-app_assoc, take_drop.
  - set (d := splice 0 _ b) in *. destruct (recv_loop_run NET_BUF_SIZE 0 d sc p (Cipher 255 :: drop (S (length p)) b)) as [_ R].
    + rewrite drop_0, take_ge by lia. unfold d, splice. cbn [take Nat.sub replicate app]. rewrite fmap_app, <-app_assoc.
      rewrite length_app, length_fmap. cbn [length fmap list_fmap app]. by rewrite Nat.add_0_l, Nat.add_1_r.
    + lia.
    + done.
    + done.
    + lia.
    + exists d. rewrite R by done. done.
Qed.

Lemma datagrams_length k b p : (length p / NET_BUF_SIZE < k)%nat -> length (datagrams k b p) = S (length p / NET_BUF_SIZE).
Proof.
  revert b p. induction k as [|k IH]; intros b p Hk; [lia|]. cbn [datagrams]. destruct (Nat.leb_spec NET_BUF_SIZE (length p)) as [Hle|Hlt].
  - cbn [length]. rewrite (div_step _ Hle) in Hk |- *. rewrite IH; rewrite length_drop; lia.
  - by rewrite Nat.div_small.
Qed.

Lemma before_eof_ok f : Forall is_byte f -> Forall is_byte (before_eof f) /\ Forall (fun c => c <> 255) (before_eof f).
Proof.
  induction 1 as [|c f Hc _ [I1 I2]]; [done|]. unfold before_eof in *. cbn [take_while].
  destruct (Z.eqb_spec c 255); cbn [negb]; [done|]. split; by constructor.
Qed.

Lemma before_eof_id f : Forall (fun c => c <> 255) f -> before_eof f = f.
Proof.
  induction 1 as [|c f Hc _ IH]; [done|]. unfold before_eof in *. cbn [take_while]. rewrite (proj2 (Z.eqb_neq _ _)) by done.
  cbn [negb]. by rewrite IH.
Qed.

(** * The transfer *)

(** What the client shows for a name. *)
Definition answer (files : bytes -> option bytes) (name : bytes) : bytes :=
  match files name with Some f => before_eof f | None => nofile end.

Lemma request_run name cb sc : (length name < NET_BUF_SIZE)%nat -> length cb = NET_BUF_SIZE ->
  request name (Client cb sc) = Ret (splice 0 (name ++ [0]) cb) (Client (splice 0 (name ++ [0]) cb) sc).
Proof.
  intros Hn Hc. unfold request, bind, on_c_buf, zoom, strcpy. cbn [c_buf]. by rewrite (proj2 (Nat.leb_le _ _)) by lia.
Qed.

Lemma serve_run files fuel d s : length d = NET_BUF_SIZE -> 0 ∈ d -> length (net_buf s) = NET_BUF_SIZE ->
  serve files fuel d s = send_all fuel (Server d (files (cstr d)) (sent s)).
Proof.
  intros Hd H0 Hs. unfold serve. rewrite (bind_run _ _ _ _ _ (zoom_run net_buf set_buf clearBuf s _ _ (clearBuf_run _ Hs))).
  rewrite (bind_run _ _ _ _ _ (zoom_run net_buf set_buf (recvfrom d) (set_buf (replicate NET_BUF_SIZE 0) s) _ _
    (recvfrom_run d _ Hd (length_replicate _ _)))).
  rewrite bind_gets. cbn [set_buf net_buf]. by rewrite bool_decide_true by done.
Qed.

(** For every name and file, the datagrams the server sends for the
    client's request make the client show the file up to the first byte that
    looks like EOF (all of it, when there is none), or the text for a file that
    is not found; the server sends one datagram for each full buffer and one
    for the rest, and the client takes all of them and waits for no more. *)
Theorem file_transfer files name fuel (c : client) (s : server) :
  Forall (fun x => x <> 0) name -> (length name < NET_BUF_SIZE)%nat ->
  length (c_buf c) = NET_BUF_SIZE -> length (net_buf s) = NET_BUF_SIZE ->
  (forall f, files name = Some f -> Forall is_byte f) -> (length (answer files name) / NET_BUF_SIZE < fuel)%nat ->
  exists d c1 s1 ds c2,
    request name c = Ret d c1 /\ serve files fuel d s = Ret tt s1 /\ sent s1 = sent s ++ ds /\
    length ds = S (length (answer files name) / NET_BUF_SIZE) /\
    receive ds c1 = Ret (Some []) c2 /\ screen c2 = screen c ++ answer files name /\
    (forall f, files name = Some f -> Forall (fun x => x <> 255) f -> answer files name = f).
Proof.
  intros Hz Hn Hc Hs Hb Hk. destruct c as [cb sc]. cbn [c_buf] in Hc. set (d := splice 0 (name ++ [0]) cb).
  assert (Ed : d = name ++ 0 :: drop (S (length name)) cb).
  { unfold d, splice. cbn [take Nat.sub replicate app]. rewrite <-app_assoc, length_app. cbn [length app]. by rewrite Nat.add_0_l, Nat.add_1_r. }
  assert (Hd : length d = NET_BUF_SIZE) by (unfold d; rewrite splice_length; [done|rewrite length_app; cbn [length]; lia]).
  assert (Hcs : cstr d = name) by (rewrite Ed; by apply cstr_app_nul).
  assert (H0 : 0 ∈ d) by (rewrite Ed; apply elem_of_app; right; left).
  exists d, (Client d sc). rewrite request_run by done. pose proof (serve_run files fuel d s Hd H0 Hs) as R. rewrite Hcs in R.
  assert (K : exists s1, send_all fuel (Server d (files name) (sent s)) = Ret tt s1 /\
    sent s1 = sent s ++ datagrams fuel d (answer files name)).
  { unfold answer in *. destruct (files name) as [f|].
    - destruct (send_all_run fuel d f (sent s) Hd (Hb f eq_refl) Hk) as (s1 & E1 & E2 & _). by exists s1.
    - destruct fuel as [|fuel]; [lia|]. destruct (send_nofile fuel d (sent s) Hd) as (s1 & E1 & E2 & _). by exists s1. }
  destruct K as (s1 & E1 & E2). assert (Ha : Forall is_byte (answer files name) /\ Forall (fun x => x <> 255) (answer files name)).
  { unfold answer. destruct (files name) as [f|]; [by apply before_eof_ok, Hb|].
    split; apply (bool_decide_unpack _); vm_compute; exact I. }
  destruct (receive_datagrams fuel d (answer files name) [] d sc Hd Hd (proj1 Ha) (proj2 Ha) Hk) as [cb' E3]. rewrite app_nil_r in E3.
  exists s1, (datagrams fuel d (answer files name)), (Client cb' (sc ++ answer files name)).
  split; [done|]. split; [by rewrite R|]. split; [done|]. split; [by apply datagrams_length|]. split; [done|]. split; [done|].
  intros f E Hf. unfold answer. rewrite E. by apply before_eof_id.
Qed.

(** A file of 40 bytes, and one that is not there. *)
Definition demo_files (name : bytes) : option bytes :=
  if bool_decide (name = str "notes") then Some (replicate 40 97) else None.
Definition demo_client : client := Client (replicate NET_BUF_SIZE 7) [].
Definition demo_server : server := Server (replicate NET_BUF_SIZE 9) None [].

Lemma file_transfer_witness :
  (exists d c1 s1 c2, request (str "notes") demo_client = Ret d c1 /\ serve demo_files 2 d demo_server = Ret tt s1 /\
    length (sent s1) = 2%nat /\ receive (sent s1) c1 = Ret (Some []) c2 /\ screen c2 = replicate 40 97) /\
  exists d c1 s1 c2, request (str "other") demo_client = Ret d c1 /\ serve demo_files 2 d demo_server = Ret tt s1 /\
    length (sent s1) = 1%nat /\ receive (sent s1) c1 = Ret (Some []) c2 /\ screen c2 = nofile.
Proof.
  split.
  - destruct (file_transfer demo_files (str "notes") 2 demo_client demo_server) as (d & c1 & s1 & ds & c2 & W1 & W2 & W3 & W4 & W5 & W6 & _).
    + repeat constructor; discriminate.
    + vm_compute. lia.
    + reflexivity.
    + reflexivity.
    + intros f E. vm_compute in E. injection E as <-. repeat constructor; discriminate.
    + vm_compute. lia.
    + cbn [demo_server sent app] in W3. subst ds. exists d, c1, s1, c2. split; [exact W1|]. split; [exact W2|]. split; [exact W4|].
      split; [exact W5|exact W6].
  - destruct (file_transfer demo_files (str "other") 2 demo_client demo_server) as (d & c1 & s1 & ds & c2 & W1 & W2 & W3 & W4 & W5 & W6 & _).
    + repeat constructor; discriminate.
    + vm_compute. lia.
    + reflexivity.
    + reflexivity.
    + intros f E. vm_compute in E. discriminate E.
    + vm_compute. lia.
    + cbn [demo_server sent app] in W3. subst ds. exists d, c1, s1, c2. split; [exact W1|]. split; [exact W2|]. split; [exact W4|].
      split; [exact W5|exact W6].
Defined.
