(* ===== verification/SockTcp.v ===== *)
(** unpv13e/sock: the loop that copies between standard input, a connection
    and standard output (looptcp.c), with its conversion of line ends (crlf.c)
    and its writes in pieces (write.c, writen.c). *)
From Stdlib Require Import ZArith Lia.
From stdpp Require Import base list strings numbers.
From S2P Require Import Prelude CFile.
Local Open Scope c_scope.

Definition UIO_MAXIOV : nat := 16.

(** * Line ends *)

Fixpoint crlf_add_loop (dstsize : Z) (src : bytes) (lenout : Z) (j : nat) : M bytes Z :=
  match src with
  | [] => ret lenout
  | c :: src =>
    if c =? c_nl then
      die_if (lenout + 1 >=? dstsize) "crlf_add: destination not big enough";;;
      poke j c_cr;;;
      poke (S j) c;;;
      crlf_add_loop dstsize src (lenout + 1) (S (S j))
    else
      poke j c;;;
      crlf_add_loop dstsize src lenout (S j)
  end.
Definition crlf_add (dstsize : Z) (src : bytes) : M bytes Z :=
  let lenin := Z.of_nat (length src) in
  die_if (lenin >? dstsize) "crlf_add: destination not big enough";;;
  crlf_add_loop dstsize src lenin 0.

(** The length so far is the index to write at. *)
Fixpoint crlf_strip_loop (dstsize : Z) (src : bytes) (lenout : nat) : M bytes Z :=
  match src with
  | [] => ret (Z.of_nat lenout)
  | c :: src =>
    if negb (c =? c_cr) then
      die_if (Z.of_nat lenout + 1 >=? dstsize) "crlf_strip: destination not big enough";;;
      poke lenout c;;;
      crlf_strip_loop dstsize src (S lenout)
    else crlf_strip_loop dstsize src lenout
  end.
Definition crlf_strip (dstsize : Z) (src : bytes) : M bytes Z := crlf_strip_loop dstsize src 0.

(** * The program *)

Record options := Options {
  crlf : bool;
  halfclose : bool;
  msgpeek : bool;
  chunkwrite : bool;
  usewritev : bool;
  readlen : nat;
  writelen : nat
}.

(** The buffers; what was read from standard input, sent, received (data that
    was peeked at counts each time) and written to standard output; how often
    the sending side was shut down; what the kernel will answer to the next
    writes to the connection and to standard output: an error, or how much it
    takes at most. *)
Record sock := Sock {
  rbuf : bytes;
  wbuf : bytes;
  stdineof : bool;
  typed : bytes;
  sent : bytes;
  received : bytes;
  shown : bytes;
  fins : nat;
  sock_script : list (Z + nat);
  out_script : list (Z + nat)
}.
Definition set_rbuf v s := Sock v (wbuf s) (stdineof s) (typed s) (sent s) (received s) (shown s) (fins s) (sock_script s) (out_script s).
Definition set_wbuf v s := Sock (rbuf s) v (stdineof s) (typed s) (sent s) (received s) (shown s) (fins s) (sock_script s) (out_script s).
Definition set_eof s := Sock (rbuf s) (wbuf s) true (typed s) (sent s) (received s) (shown s) (fins s) (sock_script s) (out_script s).
Definition set_typed v s := Sock (rbuf s) (wbuf s) (stdineof s) v (sent s) (received s) (shown s) (fins s) (sock_script s) (out_script s).
Definition set_sent v s := Sock (rbuf s) (wbuf s) (stdineof s) (typed s) v (received s) (shown s) (fins s) (sock_script s) (out_script s).
Definition set_received v s := Sock (rbuf s) (wbuf s) (stdineof s) (typed s) (sent s) v (shown s) (fins s) (sock_script s) (out_script s).
Definition set_shown v s := Sock (rbuf s) (wbuf s) (stdineof s) (typed s) (sent s) (received s) v (fins s) (sock_script s) (out_script s).
Definition set_fins v s := Sock (rbuf s) (wbuf s) (stdineof s) (typed s) (sent s) (received s) (shown s) v (sock_script s) (out_script s).
Definition set_sock_script v s := Sock (rbuf s) (wbuf s) (stdineof s) (typed s) (sent s) (received s) (shown s) (fins s) v (out_script s).
Definition set_out_script v s := Sock (rbuf s) (wbuf s) (stdineof s) (typed s) (sent s) (received s) (shown s) (fins s) (sock_script s) v.

Inductive dest := To_sock | To_stdout.
Definition script (o : dest) (s : sock) : list (Z + nat) := match o with To_sock => sock_script s | To_stdout => out_script s end.
Definition deliver (o : dest) (d : bytes) (s : sock) : sock :=
  match o with
  | To_sock => set_sent (sent s ++ d) (set_sock_script (tail (sock_script s)) s)
  | To_stdout => set_shown (shown s ++ d) (set_out_script (tail (out_script s)) s)
  end.

(** [write], and [writev] of pieces taken together: -1, or the number of bytes
    taken, all of them once the script has ended. *)
Definition write (o : dest) (d : bytes) : M sock Z := fun s =>
  match script o s with
  | [] => Ret (Z.of_nat (length d)) (deliver o d s)
  | inl _ :: _ => Ret (-1) (deliver o [] s)
  | inr n :: _ => Ret (Z.of_nat (length (take n d))) (deliver o (take n d) s)
  end.

(** The pieces of at most [chunksize] bytes; [None] when the array is full
    before the data ends. *)
Fixpoint iov_loop (n : nat) (chunksize : nat) (d : bytes) : option (list bytes) :=
  match n with
  | O => None
  | S n =>
    let len := if (chunksize <=? length d)%nat then chunksize else length d in
    if (length d - len =? 0)%nat then Some [take len d]
    else (fun l => take len d :: l) <$> iov_loop n chunksize (drop len d)
  end.

Fixpoint write_loop (o : dest) (l : list bytes) (ntotal : Z) : M sock Z :=
  match l with
  | [] => ret ntotal
  | d :: l =>
    let* nwritten := write o d in
    if negb (nwritten =? Z.of_nat (length d)) then ret (-1) else write_loop o l (ntotal + nwritten)
  end.

Definition chunk_size (nbytes : nat) : nat :=
  let c := (nbytes / UIO_MAXIOV)%nat in
  if (c <=? 0)%nat then 1%nat else if negb (nbytes mod UIO_MAXIOV =? 0)%nat then S c else c.

Definition dowrite (opt : options) (d : bytes) : M sock Z :=
  if negb (chunkwrite opt) && negb (usewritev opt) then write To_sock d
  else
    match iov_loop UIO_MAXIOV (chunk_size (length d)) d with
    | None => die "i == UIO_MAXIOV"
    | Some l => if usewritev opt then write To_sock (concat l) else write_loop To_sock l 0
    end.

(** [writen] of the part of [b] from [ptr] on; [nwritten] is unsigned, so the
    test for an error never holds and the pointer moves back by one. *)
Fixpoint writen_loop (fuel : nat) (b : bytes) (n ptr nleft : Z) : M sock Z :=
  match fuel with
  | O => nofuel
  | S fuel =>
    if nleft >? 0 then
      (if (ptr <? 0) || (Z.of_nat (length b) <? ptr + nleft) then undef "ptr" else skip);;;
      let* r := write To_stdout (take (Z.to_nat nleft) (drop (Z.to_nat ptr) b)) in
      let nwritten := u64 r in
      if nwritten <=? 0 then ret nwritten
      else writen_loop fuel b n (i64 (ptr + nwritten)) (u64 (nleft - nwritten))
    else ret n
  end.
Definition writen (b : bytes) (n : Z) : M sock Z := writen_loop (S (Z.to_nat n)) b n 0 n.

(** What the kernel answers in a round: an error, or data (none at the end). *)
Record answers := Answers {
  select_fails : bool;
  stdin_ready : bool;
  sock_ready : bool;
  stdin_read : Z + bytes;
  recv_first : Z + bytes;
  recv_again : Z + bytes
}.

(** Accesses to the buffers, inside their bounds. *)
Definition on_wbuf {A} (m : M bytes A) : M sock A := zoom wbuf set_wbuf m.
Definition on_rbuf {A} (m : M bytes A) : M sock A := zoom rbuf set_rbuf m.

(** Data from standard input to the connection. *)
Definition send_data (opt : options) (nread : nat) : M sock unit :=
  let* data := on_rbuf (fetch 0 nread) in
  if crlf opt then
    let* ntowrite := on_wbuf (crlf_add (Z.of_nat (writelen opt)) data) in
    let* w := on_wbuf (fetch 0 (Z.to_nat ntowrite)) in
    let* r := dowrite opt w in
    die_if (negb (r =? ntowrite)) "write error"
  else
    let* r := dowrite opt data in
    die_if (negb (r =? Z.of_nat nread)) "write error".

(** The code for standard input: [Some true] goes back to select, [Some false]
    leaves the loop, [None] goes on. *)
Definition from_stdin (opt : options) (r : Z + bytes) : M sock (option bool) :=
  match r with
  | inl _ => die "read error from stdin"
  | inr d =>
    let d := take (readlen opt) d in
    on_rbuf (store 0 d);;;
    modify (fun s => set_typed (typed s ++ d) s);;;
    if (length d =? 0)%nat then
      if halfclose opt then
        modify (fun s => set_fins (S (fins s)) s);;;
        modify set_eof;;;
        ret (Some true)
      else ret (Some false)
    else send_data opt (length d);;; ret None
  end.

(** Data from the connection to standard output. *)
Definition show_data (opt : options) (nread : nat) : M sock unit :=
  let* b := gets rbuf in
  if crlf opt then
    let* data := on_rbuf (fetch 0 nread) in
    let* ntowrite := on_wbuf (crlf_strip (Z.of_nat (writelen opt)) data) in
    let* w := gets wbuf in
    let* r := writen w ntowrite in
    die_if (negb (r =? ntowrite)) "writen error to stdout"
  else
    let* r := writen b (Z.of_nat nread) in
    die_if (negb (r =? Z.of_nat nread)) "writen error to stdout".

(** The code for the connection, with a second pass when the first only
    peeked; false leaves the loop. *)
Definition recv_once (opt : options) (r : Z + bytes) : M sock bool :=
  match r with
  | inl _ => die "recv error"
  | inr d =>
    let d := take (readlen opt) d in
    on_rbuf (store 0 d);;;
    modify (fun s => set_received (received s ++ d) s);;;
    if (length d =? 0)%nat then ret false else show_data opt (length d);;; ret true
  end.
Definition from_sock (opt : options) (r1 r2 : Z + bytes) : M sock bool :=
  let* go := recv_once opt r1 in
  if negb go then ret false
  else if msgpeek opt then recv_once opt r2 else ret true.

Definition round (opt : options) (a : answers) : M sock bool :=
  die_if (select_fails a) "select error";;;
  let* eof := gets stdineof in
  let* r := (if stdin_ready a && negb eof then from_stdin opt (stdin_read a) else ret None) in
  match r with
  | Some b => ret b
  | None => if sock_ready a then from_sock opt (recv_first a) (recv_again a) else ret true
  end.

(** The loop, over rounds; true when it is still going. *)
Fixpoint loop_tcp (opt : options) (l : list answers) : M sock bool :=
  match l with
  | [] => ret true
  | a :: l =>
    let* go := round opt a in
    if go then loop_tcp opt l else ret false
  end.

(** * What the conversions mean *)

Definition add_cr (b : bytes) : bytes := concat ((fun c => if c =? c_nl then [c_cr; c] else [c]) <$> b).
Definition strip_cr (b : bytes) : bytes := filter (fun c => c <> c_cr) b.

Lemma add_cr_cons c b : add_cr (c :: b) = (if c =? c_nl then [c_cr; c] else [c]) ++ add_cr b.
Proof. done. Qed.

Lemma strip_cr_cons c b : strip_cr (c :: b) = if c =? c_cr then strip_cr b else c :: strip_cr b.
Proof. unfold strip_cr. rewrite filter_cons. destruct (Z.eqb_spec c c_cr), (decide (c <> c_cr)); done. Qed.

Lemma strip_cr_app a b : strip_cr (a ++ b) = strip_cr a ++ strip_cr b.
Proof. apply list.filter_app. Qed.

Lemma add_cr_app a b : add_cr (a ++ b) = add_cr a ++ add_cr b.
Proof. unfold add_cr. by rewrite fmap_app, concat_app. Qed.

Lemma strip_add b : strip_cr (add_cr b) = strip_cr b.
Proof.
  induction b as [|c b IH]; [done|]. rewrite add_cr_cons, strip_cr_app, IH, strip_cr_cons.
  destruct (Z.eqb_spec c c_nl) as [->|Hn]; [done|]. rewrite strip_cr_cons. by destruct (c =? c_cr).
Qed.

Lemma strip_id b : Forall (fun c => c <> c_cr) b -> strip_cr b = b.
Proof. induction 1 as [|c b Hc _ IH]; [done|]. rewrite strip_cr_cons, (proj2 (Z.eqb_neq _ _)) by done. by rewrite IH. Qed.

(** * The conversions *)

Lemma crlf_add_loop_run src j dst : (j + length src <= length dst)%nat ->
  wpd (crlf_add_loop (Z.of_nat (length dst)) src (Z.of_nat (j + length src)) j)
    (fun n dst' => n = Z.of_nat (j + length (add_cr src)) /\ dst' = splice j (add_cr src) dst /\
       (add_cr src = src \/ n < Z.of_nat (length dst)) /\ (j + length (add_cr src) <= length dst)%nat)
    (fun _ => (length dst <= j + length (add_cr src))%nat /\ add_cr src <> src) dst.
Proof.
  revert j dst. induction src as [|c src IH]; intros j dst H; cbn [crlf_add_loop length] in *.
  - apply wpd_ret. cbn [add_cr fmap list_fmap concat length]. rewrite buf_splice_nil by lia. split; [done|]. split; [done|]. split; [by left|lia].
  - rewrite add_cr_cons. destruct (Z.eqb_spec c c_nl) as [->|Hc].
    + cbn [app length]. apply wpd_bind, wpd_die_if.
      { intros E. destruct (Z.geb_spec (Z.of_nat (j + S (length src)) + 1) (Z.of_nat (length dst))); [|done].
        assert (length src <= length (add_cr src))%nat; [|split; [lia|done]].
        clear. induction src as [|c src IH]; [done|]. rewrite add_cr_cons, length_app. destruct (c =? c_nl); cbn [length]; lia. }
      intros E. destruct (Z.geb_spec (Z.of_nat (j + S (length src)) + 1) (Z.of_nat (length dst))) as [|Hlt]; [done|].
      unfold wpd. rewrite (bind_run _ _ _ _ _ (buf_poke_run j c_cr dst ltac:(lia))).
      rewrite (bind_run _ _ _ _ _ (buf_poke_run (S j) c_nl (<[j := c_cr]> dst) ltac:(rewrite length_insert; lia))).
      set (dst2 := <[S j := c_nl]> (<[j := c_cr]> dst)). assert (L : length dst2 = length dst) by (unfold dst2; by rewrite !length_insert).
      specialize (IH (S (S j)) dst2 ltac:(lia)). unfold wpd in IH. rewrite <-L.
      replace (Z.of_nat (j + S (length src)) + 1) with (Z.of_nat (S (S j) + length src)) by lia.
      destruct (crlf_add_loop _ src _ (S (S j)) dst2) as [n d|msg d| |]; try done.
      * destruct IH as (-> & -> & I3 & I4). split_and!; [f_equal; lia| | |lia].
        { unfold dst2. rewrite splice_insert by (rewrite length_insert; lia). by rewrite splice_insert by lia. }
        right. destruct I3 as [I3|I3]; [|lia]. rewrite I3 in *. lia.
      * destruct IH as [I1 I2]. split; [lia|done].
    + cbn [app length]. unfold wpd. rewrite (bind_run _ _ _ _ _ (buf_poke_run j c dst ltac:(lia))).
      set (dst1 := <[j := c]> dst). assert (L : length dst1 = length dst) by (unfold dst1; by rewrite !length_insert).
      specialize (IH (S j) dst1 ltac:(lia)). unfold wpd in IH. rewrite <-L.
      replace (j + S (length src))%nat with (S j + length src)%nat by lia.
      destruct (crlf_add_loop _ src _ (S j) dst1) as [n d|msg d| |]; try done.
      * destruct IH as (-> & -> & I3 & I4). split_and!; [f_equal; lia| | |lia].
        { unfold dst1. by rewrite splice_insert by lia. }
        destruct I3 as [I3|I3]; [left; by rewrite I3|by right].
      * destruct IH as [I1 I2]. split; [lia|]. intros [= E]. done.
Qed.

Lemma add_cr_length b : (length b <= length (add_cr b))%nat.
Proof. induction b as [|c b IH]; [done|]. rewrite add_cr_cons, length_app. destruct (c =? c_nl); cbn [length]; lia. Qed.

(** [crlf_add]: the text with a return before each newline, when it fits; with
    no newline a full buffer will do, otherwise it must have one byte more. *)
Lemma crlf_add_run src dst :
  wpd (crlf_add (Z.of_nat (length dst)) src)
    (fun n dst' => n = Z.of_nat (length (add_cr src)) /\ dst' = splice 0 (add_cr src) dst /\
       (length (add_cr src) <= length dst)%nat /\ (add_cr src = src \/ (length (add_cr src) < length dst)%nat))
    (fun _ => (length dst <= length (add_cr src))%nat /\ (add_cr src = src -> (length dst < length src)%nat)) dst.
Proof.
  unfold crlf_add. apply wpd_bind, wpd_die_if.
  - intros E. apply Z.gtb_lt in E. pose proof (add_cr_length src). split; [lia|]. intros E2. lia.
  - intros E. assert (H : (0 + length src <= length dst)%nat) by (destruct (Z.gtb_spec (Z.of_nat (length src)) (Z.of_nat (length dst))); [done|lia]).
    eapply wpd_conseq; [exact (crlf_add_loop_run src 0 dst H)| |].
    + intros n d (-> & -> & I3 & I4). split_and!; try done. destruct I3 as [I3|I3]; [by left|right; lia].
    + intros d [I1 I2]. split; [lia|]. intros E2. done.
Qed.

Lemma crlf_strip_loop_run src j dst : (j <= length dst)%nat ->
  wpd (crlf_strip_loop (Z.of_nat (length dst)) src j)
    (fun n dst' => n = Z.of_nat (j + length (strip_cr src)) /\ dst' = splice j (strip_cr src) dst /\
       (j + length (strip_cr src) <= length dst)%nat)
    (fun _ => (length dst <= j + length (strip_cr src))%nat) dst.
Proof.
  revert j dst. induction src as [|c src IH]; intros j dst H; cbn [crlf_strip_loop].
  - apply wpd_ret. unfold strip_cr. rewrite filter_nil. cbn [length]. rewrite buf_splice_nil by lia. split; [f_equal; lia|]. split; [done|lia].
  - rewrite strip_cr_cons. destruct (Z.eqb_spec c c_cr) as [->|Hc]; cbn [negb]; [by apply IH|].
    cbn [length]. apply wpd_bind, wpd_die_if.
    { intros E. destruct (Z.geb_spec (Z.of_nat j + 1) (Z.of_nat (length dst))); [lia|done]. }
    intros E. destruct (Z.geb_spec (Z.of_nat j + 1) (Z.of_nat (length dst))) as [|Hlt]; [done|].
    unfold wpd. rewrite (bind_run _ _ _ _ _ (buf_poke_run j c dst ltac:(lia))).
    set (dst1 := <[j := c]> dst). assert (L : length dst1 = length dst) by (unfold dst1; by rewrite !length_insert).
    specialize (IH (S j) dst1 ltac:(lia)). unfold wpd in IH. rewrite <-L.
    destruct (crlf_strip_loop _ src (S j) dst1) as [n d|msg d| |]; try done.
    + destruct IH as (-> & -> & I4). split_and!; [f_equal; lia| |lia]. unfold dst1. by rewrite splice_insert by lia.
    + lia.
Qed.

(** * Writing in pieces *)

Lemma iov_loop_all n c d : (0 < n)%nat -> (0 < c)%nat -> (length d <= n * c)%nat -> exists l, iov_loop n c d = Some l /\ concat l = d.
Proof.
  revert d. induction n as [|n IH]; intros d Hn Hc Hd; [lia|]. cbn [iov_loop].
  set (len := if (c <=? length d)%nat then c else length d). assert (Hl : (len <= length d)%nat) by (unfold len; destruct (Nat.leb_spec c (length d)); lia).
  destruct (Nat.eqb_spec (length d - len) 0) as [E|E].
  - exists [take len d]. split; [done|]. cbn. rewrite app_nil_r. apply take_ge. lia.
  - assert (len = c) as -> by (unfold len in *; destruct (Nat.leb_spec c (length d)); lia).
    destruct (IH (drop c d)) as (l & El & Ec); [lia|lia|rewrite length_drop; lia|]. exists (take c d :: l). rewrite El. split; [done|].
    cbn. by rewrite Ec, take_drop.
Qed.

Lemma chunk_size_enough n : (0 < chunk_size n)%nat /\ (n <= UIO_MAXIOV * chunk_size n)%nat.
Proof.
  unfold chunk_size. pose proof (Nat.div_mod_eq n UIO_MAXIOV) as D. pose proof (Nat.mod_upper_bound n UIO_MAXIOV ltac:(done)) as B.
  set (q := (n / UIO_MAXIOV)%nat) in *. set (r := (n mod UIO_MAXIOV)%nat) in *. clearbody q r. unfold UIO_MAXIOV in *.
  destruct (Nat.leb_spec q 0); [split; lia|]. destruct (Nat.eqb_spec r 0); cbn [negb]; split; lia.
Qed.

(** The calls that write to the connection change nothing else. *)
Definition only_sent (s s' : sock) : Prop :=
  rbuf s' = rbuf s /\ wbuf s' = wbuf s /\ stdineof s' = stdineof s /\ typed s' = typed s /\ received s' = received s /\
  shown s' = shown s /\ fins s' = fins s /\ out_script s' = out_script s.

Lemma only_sent_trans s1 s2 s3 : only_sent s1 s2 -> only_sent s2 s3 -> only_sent s1 s3.
Proof.
  intros (A1 & A2 & A3 & A4 & A5 & A6 & A7 & A8) (B1 & B2 & B3 & B4 & B5 & B6 & B7 & B8). unfold only_sent. split_and!; congruence.
Qed.

(** All of [d] was taken, and the result says so, or a part of it. *)
Definition took (d : bytes) (before after : bytes) (r : Z) (total : Z) : Prop :=
  (r = total /\ after = before ++ d) \/ (r < total /\ exists p, p `prefix_of` d /\ after = before ++ p).

Lemma loop_write_run o d s : wp (write o d) (fun r s' => r <= Z.of_nat (length d) /\ exists n, s' = deliver o (take n d) s /\
  (r = Z.of_nat (length d) -> take n d = d)) s.
Proof.
  unfold wp, write. destruct (script o s) as [|[e|n] l].
  - split; [done|]. exists (length d). by rewrite take_ge.
  - split; [lia|]. exists 0%nat. split; [done|]. intros E. lia.
  - split; [rewrite length_take; lia|]. exists n. split; [done|]. intros E. apply take_ge. rewrite length_take in E. lia.
Qed.

Lemma write_sock d s : wp (write To_sock d) (fun r s' => only_sent s s' /\ took d (sent s) (sent s') r (Z.of_nat (length d))) s.
Proof.
  eapply wp_mono; [apply loop_write_run|]. intros r s' (Hr & n & -> & Ht). split; [done|]. cbn [deliver set_sent set_sock_script sent].
  destruct (decide (r = Z.of_nat (length d))) as [E|E]; [left; split; [done|by rewrite Ht]|].
  right. split; [lia|]. exists (take n d). split; [apply prefix_take|done].
Qed.

Lemma write_loop_run l total s : 0 <= total -> wp (write_loop To_sock l total)
  (fun r s' => only_sent s s' /\ took (concat l) (sent s) (sent s') r (total + Z.of_nat (length (concat l)))) s.
Proof.
  revert total s. induction l as [|d l IH]; intros total s Ht; cbn [write_loop concat].
  - apply wp_ret. split; [done|]. left. cbn. by rewrite Z.add_0_r, app_nil_r.
  - apply wp_bind. eapply wp_mono; [apply write_sock|]. intros r s1 [Hs Htook]. destruct Htook as [[-> E1]|(Hr & p & Hp & E1)].
    + rewrite Z.eqb_refl. cbn [negb]. eapply wp_mono; [apply IH; lia|]. intros r s2 [Hs2 Ht2].
      split; [by eapply only_sent_trans|]. rewrite length_app. unfold took in *. rewrite E1 in Ht2.
      destruct Ht2 as [[-> E2]|(Hr & p & Hp & E2)].
      * left. split; [lia|]. by rewrite E2, <-app_assoc.
      * right. split; [lia|]. exists (d ++ p). split; [by apply prefix_app|]. by rewrite E2, <-app_assoc.
    + rewrite (proj2 (Z.eqb_neq _ _)) by lia. cbn [negb]. apply wp_ret. split; [done|]. right. rewrite length_app. split; [lia|].
      exists p. split; [by apply prefix_app_r|done].
Qed.

Lemma dowrite_run opt d s : wp (dowrite opt d) (fun r s' => only_sent s s' /\ took d (sent s) (sent s') r (Z.of_nat (length d))) s.
Proof.
  unfold dowrite. destruct (_ && _); [apply write_sock|]. destruct (chunk_size_enough (length d)) as [H1 H2].
  destruct (iov_loop_all UIO_MAXIOV (chunk_size (length d)) d ltac:(unfold UIO_MAXIOV; lia) H1 H2) as (l & -> & E).
  destruct (usewritev opt); [rewrite E; apply write_sock|]. subst d. by apply (write_loop_run l 0).
Qed.

(** The calls that write to standard output. *)
Definition only_shown (s s' : sock) : Prop :=
  rbuf s' = rbuf s /\ wbuf s' = wbuf s /\ stdineof s' = stdineof s /\ typed s' = typed s /\ received s' = received s /\
  sent s' = sent s /\ fins s' = fins s /\ sock_script s' = sock_script s.

Lemma only_shown_trans s1 s2 s3 : only_shown s1 s2 -> only_shown s2 s3 -> only_shown s1 s3.
Proof.
  intros (A1 & A2 & A3 & A4 & A5 & A6 & A7 & A8) (B1 & B2 & B3 & B4 & B5 & B6 & B7 & B8). unfold only_shown. split_and!; congruence.
Qed.

(** Standard output takes what it can and reports no error. *)
Definition no_error (a : Z + nat) : Prop := if a is inr _ then True else False.
Definition out_ok (s : sock) : Prop := Forall no_error (out_script s).

Lemma write_out d s : out_ok s -> wp (write To_stdout d) (fun r s' => only_shown s s' /\ out_ok s' /\ 0 <= r <= Z.of_nat (length d) /\
  shown s' = shown s ++ take (Z.to_nat r) d) s.
Proof.
  intros H. unfold wp, write, script. unfold out_ok in *. destruct (out_script s) as [|[e|n] l] eqn:E.
  - split_and!; try done; cbn; try lia; [by rewrite E|]. by rewrite Nat2Z.id, take_ge by lia.
  - by apply list.Forall_cons in H as [[] _].
  - apply list.Forall_cons in H as [_ H]. split_and!; try done; cbn; rewrite ?length_take, ?E; try lia; [done|].
    rewrite Nat2Z.id. f_equal. destruct (Nat.le_gt_cases n (length d)); [by rewrite Nat.min_l|].
    rewrite Nat.min_r by lia. by rewrite !take_ge by lia.
Qed.

Lemma writen_loop_run fuel b n ptr nleft s : out_ok s -> 0 <= ptr -> 0 <= nleft -> n = ptr + nleft -> n <= Z.of_nat (length b) -> n < 2 ^ 63 ->
  nleft < Z.of_nat fuel ->
  wp (writen_loop fuel b n ptr nleft) (fun r s' => only_shown s s' /\ out_ok s' /\
    took (take (Z.to_nat nleft) (drop (Z.to_nat ptr) b)) (shown s) (shown s') r n) s.
Proof.
  revert ptr nleft s. induction fuel as [|fuel IH]; intros ptr nleft s Ho Hp Hl Hn Hb Hs Hf; [lia|]. cbn [writen_loop].
  destruct (Z.gtb_spec nleft 0) as [Hpos|Hz].
  - rewrite (proj2 (Z.ltb_ge _ _)), (proj2 (Z.ltb_ge _ _)) by lia. cbn [orb]. apply wp_bind, wp_ret, wp_bind.
    set (d := take (Z.to_nat nleft) (drop (Z.to_nat ptr) b)).
    assert (Ld : Z.of_nat (length d) = nleft) by (unfold d; rewrite length_take, length_drop; lia).
    eapply wp_mono; [by apply write_out|]. intros r s1 (H1 & H2 & H3 & H4). assert (Er : u64 r = r) by (apply wrapu_small; lia).
    cbv zeta. rewrite !Er. destruct (Z.leb_spec r 0).
    + assert (r = 0) as -> by lia. apply wp_ret. split_and!; try done. right. split; [lia|]. exists []. split; [apply prefix_nil|]. done.
    + rewrite wraps_small, wrapu_small by lia. eapply wp_mono; [apply IH; done || lia|].
      intros r2 s2 (K1 & K2 & K3). split; [by eapply only_shown_trans|]. split; [done|].
      assert (Ed : d = take (Z.to_nat r) d ++ take (Z.to_nat (nleft - r)) (drop (Z.to_nat (ptr + r)) b)).
      { rewrite <-(take_drop (Z.to_nat r) d) at 1. f_equal. unfold d. rewrite skipn_firstn_comm, drop_drop. f_equal; [lia|f_equal; lia]. }
      unfold took in *. rewrite H4 in K3. rewrite Ed. destruct K3 as [[-> E]|(Hr & p & Hpre & E)].
      * left. split; [done|]. by rewrite E, <-app_assoc.
      * right. split; [done|]. exists (take (Z.to_nat r) d ++ p). split; [by apply prefix_app|]. by rewrite E, <-app_assoc.
  - apply wp_ret. split; [done|]. split; [done|]. left. split; [done|]. replace (Z.to_nat nleft) with 0%nat by lia. by rewrite take_0, app_nil_r.
Qed.

Lemma writen_run b n s : out_ok s -> 0 <= n <= Z.of_nat (length b) -> n < 2 ^ 63 ->
  wp (writen b n) (fun r s' => only_shown s s' /\ out_ok s' /\ took (take (Z.to_nat n) b) (shown s) (shown s') r n) s.
Proof. intros H Hn Hs. unfold writen. eapply (writen_loop_run _ b n 0 n s); done || lia. Qed.

(** An error of [write] is taken for a number of bytes: the pointer goes back
    in front of the buffer. *)
Lemma writen_error e rest s : out_script s = inl e :: rest -> writen [97] 1 s = Undef "ptr".
Proof. destruct s. cbn. intros ->. vm_compute. reflexivity. Qed.

(** * The loop *)

(** What goes to each side. *)
Definition outgoing (opt : options) (b : bytes) : bytes := if crlf opt then add_cr b else b.
Definition incoming (opt : options) (b : bytes) : bytes := if crlf opt then strip_cr b else b.

Record loop_ok (opt : options) (s : sock) : Prop := {
  ok_rbuf : length (rbuf s) = readlen opt;
  ok_wbuf : length (wbuf s) = writelen opt;
  ok_sent : sent s = outgoing opt (typed s);
  ok_shown : shown s = incoming opt (received s);
  ok_out : out_ok s
}.
(** When the program dies, what was written is what it had to write so far. *)
Definition dead_ok (opt : options) (s : sock) : Prop :=
  sent s `prefix_of` outgoing opt (typed s) /\ shown s `prefix_of` incoming opt (received s).

Lemma loop_dead opt s : loop_ok opt s -> dead_ok opt s.
Proof. intros H. split; [rewrite (ok_sent _ _ H)|rewrite (ok_shown _ _ H)]; done. Qed.

Lemma outgoing_app opt a b : outgoing opt (a ++ b) = outgoing opt a ++ outgoing opt b.
Proof. unfold outgoing. destruct (crlf opt); [apply add_cr_app|done]. Qed.
Lemma incoming_app opt a b : incoming opt (a ++ b) = incoming opt a ++ incoming opt b.
Proof. unfold incoming. destruct (crlf opt); [apply strip_cr_app|done]. Qed.

Lemma splice_prefix (d b : bytes) : take (length d) (splice 0 d b) = d.
Proof. rewrite splice_front. apply take_app_length. Qed.

(** Accesses inside the buffers. *)
Lemma on_rbuf_store s d : (length d <= length (rbuf s))%nat -> on_rbuf (store 0 d) s = Ret tt (set_rbuf (splice 0 d (rbuf s)) s).
Proof. intros H. unfold on_rbuf. by rewrite (zoom_run _ _ _ _ _ _ (store_run 0 d (rbuf s) H)). Qed.
Lemma on_rbuf_fetch s n : (n <= length (rbuf s))%nat -> on_rbuf (fetch 0 n) s = Ret (take n (rbuf s)) s.
Proof. intros H. unfold on_rbuf. rewrite (zoom_run _ _ _ _ _ _ (fetch_run 0 n (rbuf s) H)). by destruct s. Qed.
Lemma on_wbuf_fetch s n : (n <= length (wbuf s))%nat -> on_wbuf (fetch 0 n) s = Ret (take n (wbuf s)) s.
Proof. intros H. unfold on_wbuf. rewrite (zoom_run _ _ _ _ _ _ (fetch_run 0 n (wbuf s) H)). by destruct s. Qed.

(** Sizes are those of an [int]. *)
Definition sizes_ok (opt : options) : Prop := Z.of_nat (readlen opt) < 2 ^ 31 /\ Z.of_nat (writelen opt) < 2 ^ 31.

(** Data [d] from standard input, in the buffer. *)
Lemma send_data_run opt d s : loop_ok opt s -> (length d <= readlen opt)%nat ->
  let s1 := set_typed (typed s ++ d) (set_rbuf (splice 0 d (rbuf s)) s) in
  wpd (send_data opt (length d)) (fun _ s' => loop_ok opt s' /\ received s' = received s /\ typed s' = typed s ++ d) (dead_ok opt) s1.
Proof.
  intros H Hd s1. assert (Lr : length (rbuf s1) = readlen opt) by (unfold s1; cbn; rewrite splice_length; rewrite (ok_rbuf _ _ H); done).
  assert (Et : take (length d) (rbuf s1) = d) by apply splice_prefix.
  assert (Hdone : forall s2 s' r, rbuf s2 = rbuf s1 -> length (wbuf s2) = writelen opt -> only_sent s2 s' -> typed s2 = typed s1 ->
    received s2 = received s1 -> sent s2 = sent s1 -> shown s2 = shown s1 -> out_script s2 = out_script s1 ->
    took (outgoing opt d) (sent s2) (sent s') r (Z.of_nat (length (outgoing opt d))) ->
    wpd (die_if (negb (r =? Z.of_nat (length (outgoing opt d)))) "write error")
      (fun _ s' => loop_ok opt s' /\ received s' = received s /\ typed s' = typed s ++ d) (dead_ok opt) s').
  { intros s2 s' r E1 E2 (A1 & A2 & A3 & A4 & A5 & A6 & A7 & A8) E3 E4 E5 E6 E7 Ht.
    assert (Hty : typed s' = typed s ++ d) by (rewrite A4, E3; done).
    assert (Hsh : shown s' = incoming opt (received s')) by (rewrite A6, E6, A5, E4; apply (ok_shown _ _ H)).
    rewrite E5 in Ht. change (sent s1) with (sent s) in Ht. rewrite (ok_sent _ _ H) in Ht.
    destruct Ht as [[-> Es]|(Hr & p & Hp & Es)].
    - rewrite Z.eqb_refl. apply wpd_ret. split_and!; [|by rewrite A5, E4|done]. constructor; try congruence.
      + rewrite Hty, outgoing_app. done.
      + unfold out_ok. rewrite A8, E7. apply (ok_out _ _ H).
    - rewrite (proj2 (Z.eqb_neq _ _)) by lia. cbn. split; [|by rewrite Hsh]. rewrite Es, Hty, outgoing_app. by apply prefix_app. }
  unfold send_data. rewrite (wpd_call _ _ _ _ _ _ _ (on_rbuf_fetch s1 (length d) ltac:(lia))), Et. unfold outgoing in Hdone. destruct (crlf opt) eqn:Ec.
  - apply wpd_bind, wpd_zoom. change (wbuf s1) with (wbuf s). rewrite <-(ok_wbuf _ _ H).
    eapply wpd_conseq; [apply crlf_add_run| |].
    + intros n w (-> & -> & Hlen & _). set (s2 := set_wbuf (splice 0 (add_cr d) (wbuf s)) s1).
      assert (Lw : length (wbuf s2) = length (wbuf s)) by (cbn [s2 set_wbuf wbuf]; apply splice_length; lia).
      rewrite Nat2Z.id, (wpd_call _ _ _ _ _ _ _ (on_wbuf_fetch s2 (length (add_cr d)) ltac:(lia))). cbn [s2 set_wbuf wbuf]. rewrite splice_prefix.
      apply wpd_bind, wpd_of_wp. eapply wp_mono; [apply dowrite_run|]. intros r s' [Hs Ht].
      apply (Hdone s2 s' r); try done. cbn [s2 set_wbuf wbuf]. rewrite splice_length by lia. apply (ok_wbuf _ _ H).
    + intros w _. split; cbn [set_wbuf sent typed shown received].
      * unfold s1. cbn. rewrite (ok_sent _ _ H), outgoing_app. by apply prefix_app_r.
      * unfold s1. cbn. by rewrite (ok_shown _ _ H).
  - apply wpd_bind, wpd_of_wp. eapply wp_mono; [apply dowrite_run|]. intros r s' [Hs Ht].
    apply (Hdone s1 s' r); try done. apply (ok_wbuf _ _ H).
Qed.

(** Data [d] from the connection, in the buffer. *)
Lemma show_data_run opt d s : loop_ok opt s -> sizes_ok opt -> (length d <= readlen opt)%nat ->
  let s1 := set_received (received s ++ d) (set_rbuf (splice 0 d (rbuf s)) s) in
  wpd (show_data opt (length d)) (fun _ s' => loop_ok opt s' /\ received s' = received s ++ d /\ typed s' = typed s) (dead_ok opt) s1.
Proof.
  intros H [Z1 Z2] Hd s1. assert (Lr : length (rbuf s1) = readlen opt) by (unfold s1; cbn; rewrite splice_length; rewrite (ok_rbuf _ _ H); done).
  assert (Et : take (length d) (rbuf s1) = d) by apply splice_prefix.
  assert (Hdone : forall s2 s' r, rbuf s2 = rbuf s1 -> length (wbuf s2) = writelen opt -> only_shown s2 s' -> typed s2 = typed s1 ->
    received s2 = received s1 -> sent s2 = sent s1 -> shown s2 = shown s1 -> out_ok s' ->
    took (incoming opt d) (shown s2) (shown s') r (Z.of_nat (length (incoming opt d))) ->
    wpd (die_if (negb (r =? Z.of_nat (length (incoming opt d)))) "writen error to stdout")
      (fun _ s' => loop_ok opt s' /\ received s' = received s ++ d /\ typed s' = typed s) (dead_ok opt) s').
  { intros s2 s' r E1 E2 (A1 & A2 & A3 & A4 & A5 & A6 & A7 & A8) E3 E4 E5 E6 E7 Ht.
    assert (Hre : received s' = received s ++ d) by (rewrite A5, E4; done).
    assert (Hse : sent s' = outgoing opt (typed s')) by (rewrite A6, E5, A4, E3; apply (ok_sent _ _ H)).
    rewrite E6 in Ht. change (shown s1) with (shown s) in Ht. rewrite (ok_shown _ _ H) in Ht.
    destruct Ht as [[-> Es]|(Hr & p & Hp & Es)].
    - rewrite Z.eqb_refl. apply wpd_ret. split_and!; [|done|by rewrite A4, E3]. constructor; try congruence.
      rewrite Hre, incoming_app. done.
    - rewrite (proj2 (Z.eqb_neq _ _)) by lia. cbn. split; [by rewrite Hse|]. rewrite Es, Hre, incoming_app. by apply prefix_app. }
  unfold show_data. apply wpd_bind, wpd_gets. unfold incoming in Hdone. destruct (crlf opt) eqn:Ec.
  - rewrite (wpd_call _ _ _ _ _ _ _ (on_rbuf_fetch s1 (length d) ltac:(lia))), Et. apply wpd_bind, wpd_zoom. change (wbuf s1) with (wbuf s). rewrite <-(ok_wbuf _ _ H).
    eapply wpd_conseq; [apply (crlf_strip_loop_run d 0); lia| |].
    + cbn [Nat.add]. intros n w (-> & -> & Hlen). set (s2 := set_wbuf (splice 0 (strip_cr d) (wbuf s)) s1).
      assert (Lw : length (splice 0 (strip_cr d) (wbuf s)) = writelen opt) by (rewrite splice_length by lia; apply (ok_wbuf _ _ H)).
      apply wpd_bind, wpd_gets. cbn [s2 set_wbuf wbuf].
      apply wpd_bind, wpd_of_wp. eapply wp_mono; [apply writen_run; [apply (ok_out _ _ H)| |]; rewrite ?Lw, <-?(ok_wbuf _ _ H) in *; lia|].
      intros r s' (Hs & Ho & Ht). rewrite Nat2Z.id, splice_prefix in Ht. by apply (Hdone s2 s' r).
    + intros w _. split; cbn [set_wbuf sent typed shown received].
      * unfold s1. cbn. by rewrite (ok_sent _ _ H).
      * unfold s1. cbn. rewrite (ok_shown _ _ H), incoming_app. by apply prefix_app_r.
  - apply wpd_bind, wpd_of_wp. eapply wp_mono; [apply writen_run; [apply (ok_out _ _ H)| |]; lia|]. intros r s' (Hs & Ho & Ht).
    rewrite Nat2Z.id, Et in Ht. apply (Hdone s1 s' r); try done. apply (ok_wbuf _ _ H).
Qed.

Lemma recv_once_run opt r s : loop_ok opt s -> sizes_ok opt -> wpd (recv_once opt r) (fun _ s' => loop_ok opt s' /\ typed s' = typed s) (dead_ok opt) s.
Proof.
  intros H Hz. unfold recv_once. destruct r as [e|d0]; [by apply loop_dead|]. set (d := take (readlen opt) d0).
  assert (Hd : (length d <= readlen opt)%nat) by (unfold d; rewrite length_take; lia). rewrite (wpd_call _ _ _ _ _ _ _ (on_rbuf_store s d ltac:(rewrite (ok_rbuf _ _ H); lia))). apply wpd_bind, wpd_modify.
  change (received (set_rbuf _ s)) with (received s). set (s1 := set_received _ _). destruct (Nat.eqb_spec (length d) 0) as [E|E].
  - apply wpd_ret. apply nil_length_inv in E. split; [|done]. unfold s1. rewrite E, app_nil_r, buf_splice_nil by lia.
    destruct H as [H1 H2 H3 H4 H5]. by constructor.
  - apply wpd_bind. eapply wpd_mono; [by apply show_data_run|]. intros _ s' (I1 & _ & I3). by apply wpd_ret.
Qed.

Lemma loop_from_sock_run opt r1 r2 s : loop_ok opt s -> sizes_ok opt -> wpd (from_sock opt r1 r2) (fun _ s' => loop_ok opt s' /\ typed s' = typed s) (dead_ok opt) s.
Proof.
  intros H Hz. unfold from_sock. apply wpd_bind. eapply wpd_mono; [by apply recv_once_run|]. intros go s' [H' E].
  destruct go; cbn [negb]; [|by apply wpd_ret]. destruct (msgpeek opt); [|by apply wpd_ret]. rewrite <-E. by apply recv_once_run.
Qed.

Lemma loop_from_stdin_run opt r s : loop_ok opt s -> wpd (from_stdin opt r) (fun _ s' => loop_ok opt s' /\ received s' = received s) (dead_ok opt) s.
Proof.
  intros H. unfold from_stdin. destruct r as [e|d0]; [by apply loop_dead|]. set (d := take (readlen opt) d0).
  assert (Hd : (length d <= readlen opt)%nat) by (unfold d; rewrite length_take; lia). rewrite (wpd_call _ _ _ _ _ _ _ (on_rbuf_store s d ltac:(rewrite (ok_rbuf _ _ H); lia))). apply wpd_bind, wpd_modify.
  change (typed (set_rbuf _ s)) with (typed s). set (s1 := set_typed _ _). destruct (Nat.eqb_spec (length d) 0) as [E|E].
  - apply nil_length_inv in E. assert (H1 : loop_ok opt s1).
    { unfold s1. rewrite E, app_nil_r, buf_splice_nil by lia. destruct H as [H1 H2 H3 H4 H5]. by constructor. }
    destruct (halfclose opt); [|by apply wpd_ret]. apply wpd_bind, wpd_modify, wpd_bind, wpd_modify, wpd_ret. split; [|done].
    destruct H1 as [H1 H2 H3 H4 H5]. by constructor.
  - apply wpd_bind. eapply wpd_mono; [by apply send_data_run|]. intros _ s' (I1 & I2 & _). by apply wpd_ret.
Qed.

Lemma loop_round_run opt a s : loop_ok opt s -> sizes_ok opt -> wpd (round opt a) (fun _ s' => loop_ok opt s') (dead_ok opt) s.
Proof.
  intros H Hz. unfold round. apply wpd_bind, wpd_die_if; [intros _; by apply loop_dead|]. intros _. apply wpd_bind, wpd_gets, wpd_bind.
  eapply (wpd_mono _ (fun _ s' => loop_ok opt s')).
  - destruct (_ && _); [|by apply wpd_ret]. eapply wpd_mono; [by apply loop_from_stdin_run|]. by intros _ s' [H' _].
  - intros [b|] s' H'; [by apply wpd_ret|]. destruct (sock_ready a); [|by apply wpd_ret].
    eapply wpd_mono; [by apply loop_from_sock_run|]. by intros _ s2 [H2 _].
Qed.

Lemma loop_tcp_run opt l s : loop_ok opt s -> sizes_ok opt -> wpd (loop_tcp opt l) (fun _ s' => loop_ok opt s') (dead_ok opt) s.
Proof.
  revert s. induction l as [|a l IH]; intros s H Hz; cbn [loop_tcp]; [by apply wpd_ret|]. apply wpd_bind.
  eapply wpd_mono; [by apply loop_round_run|]. intros go s' H'. destruct go; [by apply IH|by apply wpd_ret].
Qed.

(** * Properties *)

(** At the start of the loop; the buffers hold anything. *)
Definition start (r w : bytes) (to_sock to_stdout : list (Z + nat)) : sock := Sock r w false [] [] [] [] 0 to_sock to_stdout.

(** C37: However select and the reads behave and however the connection
    answers writes, whatever the options, as long as standard output reports no
    error (it may take part of the data): after any number of rounds what was
    sent is what was read from standard input, and what was shown is what was
    received, each with its line ends converted when that is asked for, in
    order and without loss; when the program dies instead, what it wrote is a
    prefix of that; and no access leaves the buffers.  An error of standard
    output is outside of this: [writen_error]. *)
Theorem loop_tcp_copies opt l r w to_sock to_stdout :
  length r = readlen opt -> length w = writelen opt -> sizes_ok opt -> Forall no_error to_stdout ->
  match loop_tcp opt l (start r w to_sock to_stdout) with
  | Ret _ s => sent s = outgoing opt (typed s) /\ shown s = incoming opt (received s)
  | Died _ s => sent s `prefix_of` outgoing opt (typed s) /\ shown s `prefix_of` incoming opt (received s)
  | _ => False
  end.
Proof.
  intros Hr Hw Hz Ho. pose proof (loop_tcp_run opt l (start r w to_sock to_stdout)) as W. unfold wpd in W.
  assert (H : loop_ok opt (start r w to_sock to_stdout)) by (constructor; cbn; unfold outgoing, incoming; try done; by destruct (crlf opt)).
  specialize (W H Hz). destruct (loop_tcp opt l _) as [b s|msg s| |]; try done. destruct W as [_ _ W1 W2 _]. done.
Qed.

(** Stripping the text that [crlf_add] made gives back every text without
    returns: [crlf_add] writes the text with a return before each newline, or
    ends the program when it does not fit, and [crlf_strip] then gives the
    text again when its buffer has a byte to spare. *)
Theorem crlf_round_trip src dst1 dst2 :
  Forall (fun c => c <> c_cr) src -> (length src < length dst2)%nat ->
  match crlf_add (Z.of_nat (length dst1)) src dst1 with
  | Ret n out =>
    n = Z.of_nat (length (add_cr src)) /\ take (Z.to_nat n) out = add_cr src /\
    exists out2, crlf_strip (Z.of_nat (length dst2)) (take (Z.to_nat n) out) dst2 = Ret (Z.of_nat (length src)) out2 /\
      take (length src) out2 = src
  | Died _ _ => (length dst1 <= length (add_cr src))%nat
  | _ => False
  end.
Proof.
  intros Hs Hl. pose proof (crlf_add_run src dst1) as W. unfold wpd in W.
  destruct (crlf_add _ src dst1) as [n out|msg out| |]; try done; [|by destruct W].
  destruct W as (-> & -> & _). rewrite Nat2Z.id, splice_prefix. split; [done|]. split; [done|].
  pose proof (crlf_strip_loop_run (add_cr src) 0 dst2 ltac:(lia)) as W. unfold wpd in W. unfold crlf_strip.
  rewrite strip_add, (strip_id src Hs) in W.
  destruct (crlf_strip_loop _ _ 0 dst2) as [n out2|msg out2| |]; try done; [|cbn in W; lia].
  destruct W as (-> & -> & _). exists (splice 0 src dst2). split; [done|]. apply splice_prefix.
Qed.

(** * Examples *)

Definition demo_options : options := Options true true false true false 16 16.
(** A line is typed and one arrives, then standard input ends; the write of the
    second piece of the line is the last the kernel was asked about. *)
Definition demo_rounds : list answers :=
  [Answers false true true (inr [104; 105; 10]) (inr [111; 107; 13; 10]) (inr []);
   Answers false true true (inr []) (inr [120]) (inr []);
   Answers false true true (inr [121]) (inr [122]) (inr [])].
Definition demo_start : sock := start (replicate 16 0) (replicate 16 0) [] [inr 1%nat].

Lemma loop_tcp_copies_witness :
  match loop_tcp demo_options demo_rounds demo_start with
  | Ret true s => typed s = [104; 105; 10] /\ sent s = [104; 105; 13; 10] /\ shown s = strip_cr (received s) /\ fins s = 1%nat
  | _ => False
  end.
Proof.
  pose proof (loop_tcp_copies demo_options demo_rounds (replicate 16 0) (replicate 16 0) [] [inr 1%nat] eq_refl eq_refl) as W.
  unfold demo_start.
  assert (E : match loop_tcp demo_options demo_rounds (start (replicate 16 0) (replicate 16 0) [] [inr 1%nat]) with
    | Ret b s => Some (b, typed s, fins s) | _ => None end = Some (true, [104; 105; 10], 1%nat)) by (vm_compute; reflexivity).
  destruct (loop_tcp demo_options demo_rounds _) as [b s|msg s|why|]; [|discriminate E..].
  injection E as -> E1 E2. destruct W as [W1 W2]; [split; vm_compute; reflexivity|repeat constructor|].
  split; [exact E1|]. split; [|split; [exact W2|exact E2]]. rewrite W1, E1. vm_compute. reflexivity.
Defined.

Lemma crlf_round_trip_witness :
  match crlf_add 8 [104; 10; 105; 10] (replicate 8 0) with
  | Ret n out => n = 6 /\ take 6 out = [104; 13; 10; 105; 13; 10]
  | _ => False
  end.
Proof.
  pose proof (crlf_round_trip [104; 10; 105; 10] (replicate 8 0) (replicate 8 0)) as W.
  assert (E : match crlf_add 8 [104; 10; 105; 10] (replicate 8 0) with Ret n _ => Some n | _ => None end = Some 6) by (vm_compute; reflexivity).
  change (Z.of_nat (length (replicate 8 0))) with 8 in W.
  destruct (crlf_add 8 [104; 10; 105; 10] (replicate 8 0)) as [n out|msg out|why|]; [|discriminate E..].
  injection E as ->. destruct W as (_ & W2 & _); [repeat constructor; discriminate|vm_compute; lia|].
  split; [reflexivity|exact W2].
Defined.
