(* ===== verification/UdpPacket.v ===== *)
(** unpv13e/udpcksum: building a DNS query in a UDP datagram with its checksum
    for a raw socket (senddnsquery-raw.c, udpwrite.c), checking a captured
    datagram (udpread.c) and asking again after a timeout (udpcksum.c). *)
From Stdlib Require Import ZArith Lia.
From stdpp Require Import base list strings numbers.
From S2P Require Import Prelude CFile Cksum.
Local Open Scope c_scope.

Definition TTL_OUT : Z := 64.
Definition IPVERSION : Z := 4.
Definition IPPROTO_UDP : Z := 17.
Definition ETHERTYPE_IP : Z := 2048.
Definition sizeof_ip : Z := 20.
Definition sizeof_udphdr : Z := 8.
Definition sizeof_udpiphdr : Z := 28.

(** * Fields in a buffer, on a host with the low byte first *)

Definition get8 (i : nat) : M bytes Z := fun b =>
  match b !! i with Some c => Ret c b | None => Undef "buf[]" end.
Definition get16 (i : nat) : M bytes Z :=
  let* lo := get8 i in let* hi := get8 (S i) in ret (lo + 256 * hi).
Definition put16 (i : nat) (v : Z) : M bytes unit := poke i (v mod 256);;; poke (S i) (v / 256 mod 256).
Fixpoint put_bytes (i : nat) (l : bytes) : M bytes unit :=
  match l with [] => skip | c :: l => poke i c;;; put_bytes (S i) l end.
(** A computation on memory that it does not change. *)
Definition on_memory (f : bytes -> M unit Z) : M bytes Z := fun b =>
  match f b tt with Ret v _ => Ret v b | Died e _ => Died e b | Undef w => Undef w | NoFuel => NoFuel end.

(** * Sending *)

(** [local] and [dest], as they are in memory (network byte order); whether
    the checksum is to be left out, and whether the host is one of those on
    which [ip_len] is in network byte order. *)
Record conf := Conf {
  local_addr : bytes; local_port : bytes; dest_addr : bytes; dest_port : bytes; zerosum : bool; net_order : bool
}.

(** The pseudo header and the UDP header. *)
Definition udp_header (cf : conf) (userlen : Z) : M bytes unit :=
  put_bytes 0 (replicate 28 0);;;
  put16 10 (htons (u16 (sizeof_udphdr + userlen)));;;
  poke 9 IPPROTO_UDP;;;
  put_bytes 12 (local_addr cf);;;
  put_bytes 16 (dest_addr cf);;;
  put_bytes 20 (local_port cf);;;
  put_bytes 22 (dest_port cf);;;
  let* len := get16 10 in
  put16 24 len.

Definition udp_sum (userlen : Z) : M bytes unit :=
  let* sum := on_memory (fun b => in_cksum b userlen) in
  put16 26 (if sum =? 0 then 65535 else sum).

(** The rest of the IP header; ip_output stores its checksum. *)
Definition ip_header (cf : conf) (userlen : Z) : M bytes unit :=
  let* vhl := get8 0 in
  poke 0 (Z.lor (Z.land vhl 15) (Z.shiftl IPVERSION 4));;;
  let* vhl := get8 0 in
  poke 0 (Z.lor (Z.land vhl 240) (Z.shiftr sizeof_ip 2));;;
  poke 1 0;;;
  put16 2 (if net_order cf then htons (u16 userlen) else u16 userlen);;;
  put16 4 0;;;
  put16 6 0;;;
  poke 8 TTL_OUT.

(** [udp_write]: what [Sendto] is given. *)
Definition udp_write (cf : conf) (userlen : Z) : M bytes bytes :=
  udp_header cf userlen;;;
  let userlen := userlen + sizeof_udpiphdr in
  (if zerosum cf then skip else udp_sum userlen);;;
  ip_header cf userlen;;;
  gets (take (Z.to_nat userlen)).

(** [send_dns_query], in the buffer [junk] that Malloc returned. *)
Definition question : bytes := 1 :: str "a" ++ 12 :: str "root-servers" ++ 3 :: str "net" ++ [0].
Definition send_dns_query (cf : conf) : M bytes bytes :=
  let ptr := 28%nat in
  put16 ptr (htons 1234);;;
  put16 (ptr + 2) (htons 256);;;
  put16 (ptr + 4) (htons 1);;;
  put16 (ptr + 6) 0;;;
  put16 (ptr + 8) 0;;;
  put16 (ptr + 10) 0;;;
  put_bytes (ptr + 12) question;;;
  put16 (ptr + 32) (htons 1);;;
  put16 (ptr + 34) (htons 1);;;
  udp_write cf 36.

(** * Receiving *)

(** [udp_check] of the packet at [ptr]: [len] is an [int] that is compared as a
    [size_t]. *)
Definition udp_check (ptr : nat) (len : Z) : M bytes unit :=
  die_if (u64 len <? sizeof_ip + sizeof_udphdr) "len = %d";;;
  let* vhl := get8 ptr in
  die_if (negb (Z.shiftr vhl 4 =? IPVERSION)) "ip_v = %d";;;
  let hlen := Z.shiftl (Z.land vhl 15) 2 in
  die_if (hlen <? sizeof_ip) "ip_hl = %d";;;
  die_if (u64 len <? hlen + sizeof_udphdr) "len = %d, hlen = %d";;;
  let* sum := on_memory (fun b => in_cksum (drop ptr b) hlen) in
  put16 (ptr + 10) sum;;;
  die_if (negb (sum =? 0)) "ip checksum error";;;
  let* p := get8 (ptr + 9) in
  die_if (negb (p =? IPPROTO_UDP)) "not a UDP packet".

Definition DLT_NULL : Z := 0.
Definition DLT_EN10MB : Z := 1.
Definition DLT_SLIP : Z := 8.
Definition DLT_PPP : Z := 9.

(** [udp_read] of a captured packet: the place of the datagram in it. *)
Definition udp_read (datalink : Z) : M bytes nat :=
  let* len := gets (fun b => Z.of_nat (length b)) in
  if datalink =? DLT_NULL then udp_check 4 (len - 4);;; ret 4%nat
  else if datalink =? DLT_EN10MB then
    let* type := get16 12 in
    die_if (negb (htons type =? ETHERTYPE_IP)) "Ethernet type %x not IP";;;
    udp_check 14 (len - 14);;; ret 14%nat
  else if (datalink =? DLT_SLIP) || (datalink =? DLT_PPP) then udp_check 24 (len - 24);;; ret 24%nat
  else die "unsupported datalink".

(** [test_udp]: the timeouts of the queries that were sent, and the answer to
    the last; [replies] says what came within each timeout. *)
Inductive verdict := No_response | Checksums_off | Checksums_on | Waiting.
Fixpoint test_udp (replies : list (option Z)) (nsent timeout : Z) : list Z * verdict :=
  match replies with
  | [] => ([], Waiting)
  | r :: replies =>
    match r with
    | Some ui_sum => ([timeout], if ui_sum =? 0 then Checksums_off else Checksums_on)
    | None =>
      let nsent := nsent + 1 in
      if nsent >=? 3 then ([timeout], No_response)
      else let '(l, v) := test_udp replies nsent (timeout * 2) in (timeout :: l, v)
    end
  end.

(** * What the packet must be *)

(** RFC 768: the checksum covers the addresses, the protocol and the length
    of the UDP part, the UDP header and the data. *)
Definition pseudo (pkt : bytes) : bytes := replicate 9 0 ++ slice 9 1 pkt ++ slice 24 2 pkt ++ drop 12 pkt.
(** RFC 1035: a query for the address of a.root-servers.net. *)
Definition dns_message : bytes := [4; 210; 1; 0; 0; 1; 0; 0; 0; 0; 0; 0] ++ question ++ [0; 1; 0; 1].

Definition conf_ok (cf : conf) : Prop :=
  length (local_addr cf) = 4%nat /\ length (dest_addr cf) = 4%nat /\ length (local_port cf) = 2%nat /\ length (dest_port cf) = 2%nat /\
  Forall is_byte (local_addr cf ++ dest_addr cf ++ local_port cf ++ dest_port cf).

(** * The headers *)

Definition be16 (v : Z) : bytes := [v / 256 mod 256; v mod 256].

(** Storing a number that was read from memory stores its bytes. *)
Lemma word_bytes lo hi : is_byte lo -> is_byte hi -> (lo + 256 * hi) mod 256 = lo /\ (lo + 256 * hi) / 256 mod 256 = hi.
Proof.
  unfold is_byte. intros H1 H2. rewrite (Z.mul_comm 256). split.
  - by rewrite Z_mod_plus_full, Z.mod_small by lia.
  - rewrite Z.div_add, (Z.div_small lo) by lia. by rewrite Z.add_0_l, Z.mod_small by lia.
Qed.

(** The bytes of the datagram that the checksum covers, with the fields before
    the protocol and the checksum [sum]. *)
Definition header_bytes (cf : conf) (first : bytes) (len : Z) (sum : bytes) : bytes :=
  first ++ IPPROTO_UDP :: be16 len ++ local_addr cf ++ dest_addr cf ++ local_port cf ++ dest_port cf ++ be16 len ++ sum.

Lemma length_split {A} (n : nat) (l : list A) : (n <= length l)%nat -> exists l1 l2, l = l1 ++ l2 /\ length l1 = n.
Proof. intros H. exists (take n l), (drop n l). split; [by rewrite take_drop|]. rewrite length_take. lia. Qed.

Ltac explode l H := repeat (let x := fresh "x" in destruct l as [|x l]; [discriminate H|]); destruct l; [clear H|discriminate H].

Lemma udp_header_run cf userlen b : conf_ok cf -> (28 <= length b)%nat ->
  udp_header cf userlen b = Ret tt (header_bytes cf (replicate 9 0) (u16 (sizeof_udphdr + userlen)) [0; 0] ++ drop 28 b).
Proof.
  intros (H1 & H2 & H3 & H4 & _) Hb. destruct cf as [la lp da dp z no]. cbn [local_addr local_port dest_addr dest_port] in *.
  destruct (length_split 28 b Hb) as (h & r & -> & Hh). rewrite drop_app_length' by done.
  explode la H1. explode da H2. explode lp H3. explode dp H4. explode h Hh.
  unfold header_bytes, be16, udp_header. cbn [local_addr local_port dest_addr dest_port].
  set (v := u16 (sizeof_udphdr + userlen)). destruct (htons_bytes v) as [E1 E2]. set (w := htons v) in *. clearbody w.
  cbv [bind put16 get16 get8 poke put_bytes replicate skip ret insert list_insert lookup list_lookup length app Nat.ltb Nat.leb].
  destruct (word_bytes (w mod 256) (w / 256 mod 256)) as [W1 W2]; [apply Z.mod_pos_bound; lia..|]. by rewrite W1, W2, E1, E2.
Qed.

Definition le16 (v : Z) : bytes := [v mod 256; v / 256 mod 256].

(** The other fields of the IP header before the protocol. *)
Definition ip_fields (cf : conf) (len : Z) : bytes :=
  [69; 0] ++ (if net_order cf then be16 len else le16 len) ++ [0; 0; 0; 0; TTL_OUT].

Lemma ip_header_run cf userlen len sum r : conf_ok cf -> length sum = 2%nat ->
  ip_header cf userlen (header_bytes cf (replicate 9 0) len sum ++ r) = Ret tt (header_bytes cf (ip_fields cf (u16 userlen)) len sum ++ r).
Proof.
  intros (H1 & H2 & H3 & H4 & _) Hs. destruct cf as [la lp da dp z no]. cbn [local_addr local_port dest_addr dest_port] in *.
  explode la H1. explode da H2. explode lp H3. explode dp H4. explode sum Hs.
  unfold header_bytes, ip_fields, ip_header, be16, le16. cbn [local_addr local_port dest_addr dest_port net_order].
  set (v := u16 userlen). destruct (htons_bytes v) as [E1 E2].
  set (w := if no then htons v else v). assert (Ew : [w mod 256; w / 256 mod 256] = if no then [v / 256 mod 256; v mod 256] else [v mod 256; v / 256 mod 256]).
  { unfold w. destruct no; [by rewrite E1, E2|done]. }
  rewrite <-Ew. clearbody w. cbv [bind put16 get8 poke replicate ret insert list_insert lookup list_lookup length app Nat.ltb Nat.leb].
  change (Z.lor (Z.land (Z.lor (Z.land 0 15) (Z.shiftl IPVERSION 4)) 240) (Z.shiftr sizeof_ip 2)) with 69. done.
Qed.

(** * The checksum *)

(** What is stored makes the whole sum vanish. *)
Lemma complement_sum T ws : total ws = T -> 0 < T ->
  let s := 65535 - ones_sum ws in let c := if s =? 0 then 65535 else s in
  0 < c <= 65535 /\ (T + c) mod 65535 = 0.
Proof.
  intros <- HT s c. unfold c, s, ones_sum. rewrite (proj2 (Z.eqb_neq (total ws) 0)) by lia.
  pose proof (Z.mod_pos_bound (total ws - 1) 65535 ltac:(lia)). pose proof (Z.div_mod (total ws - 1) 65535 ltac:(lia)) as D.
  set (q := (total ws - 1) / 65535) in *. set (m := (total ws - 1) mod 65535) in *. clearbody q m.
  destruct (Z.eqb_spec (65535 - (m + 1)) 0); split; try lia.
  - symmetry. apply (Z.mod_unique _ _ (q + 2)); lia.
  - symmetry. apply (Z.mod_unique _ _ (q + 1)); lia.
Qed.

Lemma be16_bytes v : Forall is_byte (be16 v).
Proof. unfold be16, is_byte. repeat constructor; apply Z.mod_pos_bound; lia. Qed.

Lemma header_bytes_ok cf first len sum : conf_ok cf -> Forall is_byte first -> Forall is_byte sum -> Forall is_byte (header_bytes cf first len sum).
Proof.
  intros (_ & _ & _ & _ & H) Hf Hs. unfold header_bytes. rewrite !list.Forall_app in *. destruct H as (G1 & G2 & G3 & G4).
  split; [done|]. constructor; [unfold is_byte, IPPROTO_UDP; lia|]. rewrite !list.Forall_app. pose proof (be16_bytes len). by split_and!.
Qed.

Lemma header_bytes_length cf first len sum : conf_ok cf -> length (header_bytes cf first len sum) = (17 + length first + length sum)%nat.
Proof. intros (H1 & H2 & H3 & H4 & _). unfold header_bytes. rewrite length_app. cbn [length]. rewrite !length_app, H1, H2, H3, H4. cbn [length be16]. lia. Qed.

Lemma total_mid cf first len (a b : Z) r : conf_ok cf -> length first = 9%nat ->
  total (words16 (header_bytes cf first len [a; b] ++ r)) = total (words16 (header_bytes cf first len [0; 0] ++ r)) + (a + 256 * b).
Proof.
  intros H Hf. pose proof (header_bytes_length cf first len [] H) as L. unfold header_bytes in *. rewrite app_nil_r in L.
  set (pre := first ++ IPPROTO_UDP :: be16 len ++ local_addr cf ++ dest_addr cf ++ local_port cf ++ dest_port cf ++ be16 len).
  assert (E : forall x y, (first ++ IPPROTO_UDP :: be16 len ++ local_addr cf ++ dest_addr cf ++ local_port cf ++ dest_port cf ++ be16 len ++ [x; y]) ++ r =
    pre ++ x :: y :: r) by (intros; unfold pre; by rewrite <-!app_assoc; cbn [app]; rewrite <-!app_assoc).
  rewrite !E. apply words16_mid. fold pre in L. rewrite L, Hf. exists 13%nat. cbn [length]. lia.
Qed.

(** [ui->ui_sum = in_cksum(ui, userlen)] over the headers and the data. *)
Lemma udp_sum_run cf len data r : conf_ok cf -> Forall is_byte data -> 28 + Z.of_nat (length data) <= 65535 ->
  exists sum, udp_sum (28 + Z.of_nat (length data)) (header_bytes cf (replicate 9 0) len [0; 0] ++ data ++ r) =
      Ret tt (header_bytes cf (replicate 9 0) len sum ++ data ++ r) /\
    length sum = 2%nat /\ Forall is_byte sum /\ sum <> [0; 0] /\
    total (words16 (header_bytes cf (replicate 9 0) len sum ++ data)) mod 65535 = 0 /\
    total (words16 (header_bytes cf (replicate 9 0) len sum ++ data)) <> 0.
Proof.
  intros H Hd Hl. set (hd := header_bytes cf (replicate 9 0) len [0; 0]). assert (Zb : Forall is_byte (replicate 9 0)) by (apply Forall_replicate; done).
  assert (Hb : Forall is_byte (hd ++ data)).
  { apply list.Forall_app. split; [|done]. apply header_bytes_ok; [done|done|]. repeat constructor; done. }
  assert (Lh : length hd = 28%nat) by (unfold hd; by rewrite header_bytes_length).
  assert (Len : 28 + Z.of_nat (length data) = Z.of_nat (length (hd ++ data))) by (rewrite length_app, Lh; lia).
  pose proof (words16_bound _ Hb) as [B _]. set (T := total (words16 (hd ++ data))) in *.
  assert (HT : 0 < T).
  { unfold T. set (m := be16 len ++ local_addr cf ++ dest_addr cf ++ local_port cf ++ dest_port cf ++ be16 len ++ [0; 0]).
    assert (E : hd ++ data = replicate 8 0 ++ 0 :: IPPROTO_UDP :: m ++ data) by done. rewrite E in Hb |- *.
    rewrite words16_mid by by exists 4%nat. apply list.Forall_app in Hb as [_ Hb]. apply list.Forall_cons in Hb as [_ Hb].
    apply list.Forall_cons in Hb as [_ Hb].
    destruct (words16_bound (replicate 8 0 ++ 0 :: 0 :: m ++ data)) as [B2 _]; [|unfold IPPROTO_UDP; lia].
    apply list.Forall_app. split; [by apply Forall_replicate|]. constructor; [done|]. constructor; [done|exact Hb]. }
  set (c := if 65535 - ones_sum (words16 (hd ++ data)) =? 0 then 65535 else 65535 - ones_sum (words16 (hd ++ data))).
  destruct (complement_sum T (words16 (hd ++ data)) eq_refl HT) as [Hc Hm]. fold c in Hc, Hm.
  assert (Hc2 : 0 <= c / 256 < 256) by (split; [apply Z.div_pos; lia|apply Z.div_lt_upper_bound; lia]).
  pose proof (Z.mod_pos_bound c 256 ltac:(lia)). pose proof (Z.div_mod c 256 ltac:(lia)) as D.
  exists [c mod 256; c / 256]. split; [|split; [done|split; [constructor; [done|by constructor; [|constructor]]|split]]].
  - unfold udp_sum, bind, on_memory. rewrite Len, app_assoc, in_cksum_app by (done || lia). fold c.
    unfold put16, bind, poke. rewrite (proj2 (Nat.ltb_lt _ _)) by (rewrite !length_app, Lh; lia).
    rewrite (proj2 (Nat.ltb_lt _ _)) by (rewrite length_insert, !length_app, Lh; lia).
    rewrite (Z.mod_small (c / 256)) by done. f_equal. rewrite <-app_assoc. unfold hd in Lh |- *.
    destruct (length_split 26 (header_bytes cf (replicate 9 0) len [0; 0])) as (h & z & E & L); [lia|].
    assert (Ez : z = [0; 0] /\ header_bytes cf (replicate 9 0) len [c mod 256; c / 256] = h ++ [c mod 256; c / 256]).
    { destruct H as (H1 & H2 & H3 & H4 & _). destruct cf as [la lp da dp zz no]. cbn [local_addr local_port dest_addr dest_port] in *.
      explode la H1. explode da H2. explode lp H3. explode dp H4. explode h L. unfold header_bytes in E |- *.
      cbn [local_addr local_port dest_addr dest_port be16 replicate app] in E |- *. injection E. intros; subst. done. }
    destruct Ez as [-> ->]. rewrite E, <-!app_assoc. cbn [app].
    rewrite (insert_app_r_alt h _ 26) by lia. replace (26 - length h)%nat with 0%nat by lia.
    rewrite insert_app_r_alt by lia. by replace (27 - length h)%nat with 1%nat by lia.
  - intros [= E1 E2]. lia.
  - assert (Et : total (words16 (header_bytes cf (replicate 9 0) len [c mod 256; c / 256] ++ data)) = T + c).
    { rewrite total_mid by done. fold hd. unfold T. lia. }
    rewrite Et. split; [done|lia].
Qed.

(** * Properties *)

(** C38: For every data that fits in a datagram, what udp_write gives to the raw
    socket is an IP header and a UDP header with the addresses, ports and
    lengths asked for, then the data; and with a checksum that makes the one's
    complement sum over the pseudo header of RFC 768 and the data, an odd byte
    at the end padded with zero, all ones, as a receiver requires ([verifies]);
    never the zero that would mean there is none - unless it was asked to leave
    it out. *)
Theorem udp_write_verifies cf data b :
  conf_ok cf -> Forall is_byte data -> 28 + Z.of_nat (length data) <= 65535 -> length b = 28%nat ->
  forall r, exists sum b',
    let len := 8 + Z.of_nat (length data) in
    let pkt := header_bytes cf (ip_fields cf (20 + len)) len sum ++ data in
    udp_write cf (Z.of_nat (length data)) (b ++ data ++ r) = Ret pkt b' /\ length sum = 2%nat /\
    (if zerosum cf then sum = [0; 0]
     else sum <> [0; 0] /\ verifies (pseudo pkt) = true).
Proof.
  intros H Hd Hl Hb r. set (n := Z.of_nat (length data)) in *. unfold udp_write.
  assert (U1 : u16 (sizeof_udphdr + n) = 8 + n) by (apply wrapu_small; unfold sizeof_udphdr; lia).
  assert (U2 : u16 (n + sizeof_udpiphdr) = 20 + (8 + n)) by (unfold sizeof_udpiphdr; rewrite wrapu_small; lia).
  rewrite (bind_run _ _ _ _ _ (udp_header_run cf n (b ++ data ++ r) H ltac:(rewrite length_app; lia))).
  rewrite drop_app_length' by done. cbv zeta. rewrite U1.
  assert (Hpre : forall sum, length sum = 2%nat ->
    (ip_header cf (n + sizeof_udpiphdr);;; gets (take (Z.to_nat (n + sizeof_udpiphdr)))) (header_bytes cf (replicate 9 0) (8 + n) sum ++ data ++ r) =
    Ret (header_bytes cf (ip_fields cf (20 + (8 + n))) (8 + n) sum ++ data) (header_bytes cf (ip_fields cf (20 + (8 + n))) (8 + n) sum ++ data ++ r)).
  { intros sum Hs. rewrite (bind_run _ _ _ _ _ (ip_header_run cf _ _ sum _ H Hs)), U2. unfold gets. f_equal. rewrite app_assoc.
    apply take_app_length'. rewrite length_app, header_bytes_length, Hs by done. unfold sizeof_udpiphdr, ip_fields. cbn [length app].
    destruct (net_order cf); cbn [length app be16 le16]; lia. }
  destruct (zerosum cf) eqn:Ez.
  - exists [0; 0]. eexists. split; [|done]. change ((skip;;; ?k) ?s) with (k s). by apply Hpre.
  - destruct (udp_sum_run cf (8 + n) data r H Hd Hl) as (sum & E & Ls & Fs & Hs & T1 & T2). exists sum. eexists.
    split; [|split; [done|split; [done|]]].
    + replace (n + sizeof_udpiphdr) with (28 + n) in Hpre |- * by (unfold sizeof_udpiphdr; lia).
      rewrite (bind_run _ _ _ _ _ E). by apply Hpre.
    + set (pkt := header_bytes cf (ip_fields cf (20 + (8 + n))) (8 + n) sum ++ data).
      assert (Ep : pseudo pkt = header_bytes cf (replicate 9 0) (8 + n) sum ++ data).
      { unfold pkt. destruct H as (H1 & H2 & H3 & H4 & _). destruct cf as [la lp da dp zz no]. cbn [local_addr local_port dest_addr dest_port] in *.
        explode la H1. explode da H2. explode lp H3. explode dp H4. explode sum Ls. unfold header_bytes, ip_fields. by destruct no. }
      rewrite Ep. unfold verifies. by rewrite (proj2 (Z.eqb_neq _ _) T2), (proj2 (Z.eqb_eq _ _) T1).
Qed.

(** The query: what it puts in its buffer, and what goes to udp_write. *)
Lemma send_dns_query_run cf junk : (64 <= length junk)%nat ->
  exists h r, send_dns_query cf junk = udp_write cf 36 (h ++ dns_message ++ r) /\ length h = 28%nat.
Proof.
  intros Hl. destruct (length_split 28 junk) as (h & m & -> & Hh); [lia|]. rewrite length_app, Hh in Hl.
  destruct (length_split 36 m) as (q & r & -> & Hq); [lia|]. exists h, r. split; [|done].
  unfold send_dns_query. explode h Hh. explode q Hq. reflexivity.
Qed.

(** * Receiving *)

(** RFC 791 and 768: an IPv4 header that verifies, and room for the UDP
    header. *)
Definition header_len (d : bytes) : Z := 4 * (hd 0 d mod 16).
Definition acceptable (d : bytes) : bool :=
  (28 <=? Z.of_nat (length d)) && (hd 0 d / 16 =? IPVERSION) && (20 <=? header_len d) && (header_len d + 8 <=? Z.of_nat (length d)) &&
  (ones_sum (words16 (take (Z.to_nat (header_len d)) d)) =? 65535) && (nth 9 d 0 =? IPPROTO_UDP).

Lemma get8_run i b : (i < length b)%nat -> get8 i b = Ret (nth i b 0) b.
Proof. intros H. unfold get8. destruct (lookup_lt_is_Some_2 b i H) as [c E]. by rewrite E, (nth_lookup_Some _ _ _ _ E). Qed.

Lemma get16_run i b : (S i < length b)%nat -> get16 i b = Ret (nth i b 0 + 256 * nth (S i) b 0) b.
Proof. intros H. unfold get16, bind. by rewrite !get8_run by lia. Qed.

Lemma put16_run i v b : (S i < length b)%nat -> put16 i v b = Ret tt (<[S i := v / 256 mod 256]> (<[i := v mod 256]> b)).
Proof. intros H. unfold put16, bind. rewrite buf_poke_run by lia. by rewrite buf_poke_run by (rewrite length_insert; lia). Qed.

Lemma header_len_code d : is_byte (hd 0 d) -> Z.shiftl (Z.land (hd 0 d) 15) 2 = header_len d /\ Z.shiftr (hd 0 d) 4 = hd 0 d / 16.
Proof.
  intros H. unfold header_len. change 15 with (Z.ones 4). rewrite Z.land_ones, Z.shiftl_mul_pow2, Z.shiftr_div_pow2 by lia. split; [|done].
  change (2 ^ 4) with 16. change (2 ^ 2) with 4. lia.
Qed.

Lemma udp_check_run ptr b : Forall is_byte b -> (ptr <= length b)%nat -> Z.of_nat (length b) < 2 ^ 31 ->
  wpd (udp_check ptr (Z.of_nat (length (drop ptr b)))) (fun _ _ => acceptable (drop ptr b) = true) (fun _ => acceptable (drop ptr b) = false) b.
Proof.
  intros F Hp Hs. set (d := drop ptr b). assert (Ld : length d = (length b - ptr)%nat) by apply length_drop.
  assert (Fd : Forall is_byte d) by by apply Forall_drop. unfold udp_check, acceptable.
  rewrite !wrapu_small by lia. unfold sizeof_ip, sizeof_udphdr.
  apply wpd_bind, wpd_die_if; intros E1; [apply Z.ltb_lt in E1; by rewrite (proj2 (Z.leb_gt _ _)) by lia|].
  apply Z.ltb_ge in E1. rewrite (proj2 (Z.leb_le _ _)) by lia. cbn [andb].
  assert (Hd : b !! ptr = Some (hd 0 d) /\ is_byte (hd 0 d)).
  { destruct d as [|x r] eqn:Ed; [cbn in E1; lia|]. apply list.Forall_cons in Fd as [Fx _]. split; [|done].
    rewrite <-(Nat.add_0_r ptr), <-lookup_drop. fold d. by rewrite Ed. }
  destruct Hd as [Hd Fh]. destruct (header_len_code d Fh) as [C1 C2].
  apply wpd_bind. unfold wpd at 1, get8. rewrite Hd, C1, C2. set (hl := header_len d). cbv zeta.
  apply wpd_bind, wpd_die_if; intros E2; [by destruct (hd 0 d / 16 =? IPVERSION)|].
  replace (hd 0 d / 16 =? IPVERSION) with true by (by destruct (hd 0 d / 16 =? IPVERSION)). cbn [andb].
  apply wpd_bind, wpd_die_if; intros E3; [apply Z.ltb_lt in E3; by rewrite (proj2 (Z.leb_gt 20 _)) by lia|].
  apply Z.ltb_ge in E3. rewrite (proj2 (Z.leb_le 20 _)) by lia. cbn [andb].
  apply wpd_bind, wpd_die_if; intros E4; [apply Z.ltb_lt in E4; by rewrite (proj2 (Z.leb_gt (hl + 8) _)) by lia|].
  apply Z.ltb_ge in E4. rewrite (proj2 (Z.leb_le (hl + 8) _)) by lia. cbn [andb].
  assert (Hhl : hl <= 60) by (unfold hl, header_len; pose proof (Z.mod_pos_bound (hd 0 d) 16); lia).
  assert (Lt : length (take (Z.to_nat hl) d) = Z.to_nat hl) by (rewrite length_take; lia).
  assert (Ec : in_cksum d hl tt = Ret (65535 - ones_sum (words16 (take (Z.to_nat hl) d))) tt).
  { pose proof (in_cksum_app (take (Z.to_nat hl) d) (drop (Z.to_nat hl) d) ltac:(by apply Forall_take) ltac:(lia)) as E.
    rewrite take_drop, Lt, Z2Nat.id in E by lia. exact E. }
  set (o := ones_sum (words16 (take (Z.to_nat hl) d))) in *.
  apply wpd_bind. unfold wpd at 1, on_memory. fold d. rewrite Ec.
  apply wpd_bind. unfold wpd at 1. rewrite put16_run by lia. set (b2 := <[_ := _]> (<[_ := _]> b)).
  apply wpd_bind, wpd_die_if; intros E5; [destruct (Z.eqb_spec (65535 - o) 0); [done|]; by rewrite (proj2 (Z.eqb_neq o 65535)) by lia|].
  destruct (Z.eqb_spec (65535 - o) 0) as [Eo|]; [|done]. rewrite (proj2 (Z.eqb_eq o 65535)) by lia. cbn [andb].
  assert (E9 : b2 !! (ptr + 9)%nat = Some (nth 9 d 0)).
  { unfold b2. rewrite !list_lookup_insert_ne by lia. rewrite <-lookup_drop. fold d.
    destruct (lookup_lt_is_Some_2 d 9 ltac:(lia)) as [c E]. by rewrite E, (nth_lookup_Some _ _ _ _ E). }
  apply wpd_bind. unfold wpd at 1, get8. rewrite E9.
  apply wpd_die_if; intros E6; by destruct (nth 9 d 0 =? IPPROTO_UDP).
Qed.

(** The header of the link layer. *)
Definition link_header (datalink : Z) : option nat :=
  if datalink =? DLT_NULL then Some 4%nat else if datalink =? DLT_EN10MB then Some 14%nat
  else if (datalink =? DLT_SLIP) || (datalink =? DLT_PPP) then Some 24%nat else None.
(** For Ethernet, the type of the frame is IP. *)
Definition frame_ok (datalink : Z) (b : bytes) : bool :=
  if datalink =? DLT_EN10MB then (256 * nth 12 b 0 + nth 13 b 0 =? ETHERTYPE_IP) else true.

Lemma drop_len (n : nat) (b : bytes) : (n <= length b)%nat -> Z.of_nat (length b) - Z.of_nat n = Z.of_nat (length (drop n b)).
Proof. intros H. rewrite length_drop. lia. Qed.

(** Udp_read takes a captured packet exactly when it holds an IPv4 header
    whose checksum verifies, with the protocol UDP and room for a UDP header,
    behind a link header of the right length and type; everything else ends
    the program, and no packet that is long enough for its link header makes
    it look outside the packet. *)
Theorem udp_read_accepts datalink h b :
  link_header datalink = Some h -> (h <= length b)%nat -> Forall is_byte b -> Z.of_nat (length b) < 2 ^ 31 ->
  match udp_read datalink b with
  | Ret p _ => p = h /\ acceptable (drop h b) = true /\ frame_ok datalink b = true
  | Died _ _ => acceptable (drop h b) = false \/ frame_ok datalink b = false
  | _ => False
  end.
Proof.
  intros Hk Hh F Hs. set (Q := fun (p : nat) (s : bytes) => p = h /\ acceptable (drop h b) = true /\ frame_ok datalink b = true).
  set (D := fun s : bytes => acceptable (drop h b) = false \/ frame_ok datalink b = false).
  change (wpd (udp_read datalink) Q D b). unfold udp_read. apply wpd_bind, wpd_gets. unfold link_header in Hk.
  assert (K : frame_ok datalink b = true -> wpd (udp_check h (Z.of_nat (length b) - Z.of_nat h);;; ret h) Q D b).
  { intros Ef. rewrite drop_len by done. apply wpd_bind. eapply wpd_conseq; [by apply udp_check_run| |].
    - intros ? s E. by apply wpd_ret.
    - intros s E. by left. }
  destruct (datalink =? DLT_NULL) eqn:E0.
  { injection Hk as <-. apply K. unfold frame_ok. apply Z.eqb_eq in E0. by rewrite E0. }
  destruct (datalink =? DLT_EN10MB) eqn:E1.
  - injection Hk as <-. apply wpd_bind. unfold wpd at 1. rewrite get16_run by lia.
    assert (B : is_byte (nth 12 b 0) /\ is_byte (nth 13 b 0)).
    { destruct (lookup_lt_is_Some_2 b 12 ltac:(lia)) as [c1 C1]. destruct (lookup_lt_is_Some_2 b 13 ltac:(lia)) as [c2 C2].
      rewrite (nth_lookup_Some _ _ _ _ C1), (nth_lookup_Some _ _ _ _ C2). split; [exact (Forall_lookup_1 _ _ _ _ F C1)|exact (Forall_lookup_1 _ _ _ _ F C2)]. }
    destruct B as [B1 B2]. assert (Eh : htons (nth 12 b 0 + 256 * nth 13 b 0) = 256 * nth 12 b 0 + nth 13 b 0).
    { unfold htons. destruct (word_bytes _ _ B1 B2) as [-> ->]. done. }
    rewrite Eh. unfold frame_ok in K |- *. rewrite E1 in K. apply wpd_bind, wpd_die_if.
    + intros En. right. unfold frame_ok. rewrite E1. by destruct (_ =? ETHERTYPE_IP).
    + intros En. apply K. by destruct (_ =? ETHERTYPE_IP).
  - destruct ((datalink =? DLT_SLIP) || (datalink =? DLT_PPP)); [|done]. injection Hk as <-. apply K. unfold frame_ok. by rewrite E1.
Qed.

(** A packet shorter than its link header passes the test of its length, which
    is made on unsigned numbers, and is read behind its end. *)
Lemma udp_read_short : udp_read DLT_NULL [2; 0; 0] = Undef "buf[]".
Proof. vm_compute. reflexivity. Qed.

(** With no answer the query is sent three times, with timeouts of 3, 6 and
    12 seconds; an answer ends it at once. *)
Lemma test_udp_retries : test_udp [None; None; None] 0 3 = ([3; 6; 12], No_response).
Proof. reflexivity. Qed.
Lemma test_udp_answered ui_sum rest : test_udp (Some ui_sum :: rest) 0 3 = ([3], if ui_sum =? 0 then Checksums_off else Checksums_on).
Proof. done. Qed.

(** * Examples *)

Definition demo_conf : conf := Conf [192; 168; 1; 2] [4; 0] [198; 41; 0; 4] [0; 53] false true.

(** The DNS query of the program, from a buffer of zeros. *)
(** Data of an odd length. *)
Example udp_write_odd :
  match udp_write demo_conf 3 (replicate 28 0 ++ [1; 2; 3]) with
  | Ret pkt _ => verifies (pseudo pkt) = true /\ drop 28 pkt = [1; 2; 3]
  | _ => False
  end.
Proof. vm_compute. done. Qed.

Lemma udp_write_verifies_witness : exists sum b' pkt,
  send_dns_query demo_conf (replicate 128 0) = Ret pkt b' /\ length pkt = 64%nat /\ drop 28 pkt = dns_message /\ sum <> [0; 0] /\
  slice 26 2 pkt = sum /\ verifies (pseudo pkt) = true.
Proof.
  destruct (send_dns_query_run demo_conf (replicate 128 0)) as (h & r & E & Hh); [rewrite length_replicate; lia|].
  destruct (udp_write_verifies demo_conf dns_message h) with (r := r) as (sum & b' & W1 & W2 & W3 & W4).
  - repeat split; repeat constructor; discriminate.
  - apply (bool_decide_unpack _). vm_compute. exact I.
  - vm_compute. discriminate.
  - exact Hh.
  - exists sum, b'. eexists. rewrite E. split; [exact W1|]. destruct sum as [|x [|y [|]]]; try discriminate W2.
    split; [reflexivity|]. split; [reflexivity|]. split; [exact W3|]. split; [reflexivity|exact W4].
Defined.

(** A captured datagram on the loopback, its header checksum in place. *)
Definition demo_packet : bytes :=
  [2; 0; 0; 0] ++ [69; 0; 0; 30; 0; 0; 0; 0; 64; 17; 124; 205; 127; 0; 0; 1; 127; 0; 0; 1] ++ [0; 53; 4; 0; 0; 10; 0; 0] ++ [1; 2].

Lemma udp_read_accepts_witness :
  match udp_read DLT_NULL demo_packet with Ret p _ => p = 4%nat /\ acceptable (drop 4 demo_packet) = true | _ => False end.
Proof.
  pose proof (udp_read_accepts DLT_NULL 4 demo_packet eq_refl) as W.
  assert (E : match udp_read DLT_NULL demo_packet with Ret _ _ => true | _ => false end = true) by (vm_compute; reflexivity).
  destruct (udp_read DLT_NULL demo_packet) as [p s|msg s|why|]; [|discriminate E..].
  destruct W as (W1 & W2 & _); [vm_compute; lia|apply (bool_decide_unpack _); vm_compute; exact I|vm_compute; reflexivity|].
  split; [exact W1|exact W2].
Defined.
