(* ===== verification/Packet.v ===== *)
(** Packets and messages in a buffer: reading their fields inside the buffer's
    bounds, and what is read at a place in a concatenation. *)
From Stdlib Require Import ZArith Lia.
From stdpp Require Import base list strings numbers.
From S2P Require Import Prelude CFile.
Local Open Scope c_scope.

(** * Reading *)

(** Fields of a packet in [buf], on a host with the low byte first. *)
Definition field (buf : bytes) (i : Z) : M unit Z :=
  if i <? 0 then undef "buf[]" else match buf !! Z.to_nat i with Some c => ret c | None => undef "buf[]" end.
Definition field16 (buf : bytes) (i : Z) : M unit Z :=
  let* lo := field buf i in let* hi := field buf (i + 1) in ret (lo + 256 * hi).
Definition fields (buf : bytes) (i : Z) (n : nat) : M unit bytes :=
  if (i <? 0) || (Z.of_nat (length buf) <? i + Z.of_nat n) then undef "buf[]"
  else ret (slice (Z.to_nat i) n buf).

(** Reading fields inside the buffer. *)
Lemma field_run buf i : 0 <= i < Z.of_nat (length buf) -> exists c, field buf i tt = Ret c tt.
Proof.
  intros H. unfold field. rewrite (proj2 (Z.ltb_ge _ _)) by lia.
  destruct (lookup_lt_is_Some_2 buf (Z.to_nat i) ltac:(lia)) as [c ->]. by exists c.
Qed.

(** Parsing returns or ends the process; it reads inside the buffer. *)
Definition safe {A} (m : M unit A) : Prop := wpd m (fun _ _ => True) (fun _ => True) tt.

Lemma safe_field {A} buf i (f : Z -> M unit A) :
  0 <= i < Z.of_nat (length buf) -> (forall c, safe (f c)) -> safe (let* c := field buf i in f c).
Proof. intros Hi Hf. destruct (field_run buf i Hi) as [c E]. unfold safe, wpd. rewrite (bind_run _ _ _ _ _ E). apply Hf. Qed.

Lemma safe_field16 {A} buf i (f : Z -> M unit A) :
  0 <= i < Z.of_nat (length buf) - 1 -> (forall c, safe (f c)) -> safe (let* c := field16 buf i in f c).
Proof.
  intros Hi Hf. destruct (field_run buf i ltac:(lia)) as [lo E]. destruct (field_run buf (i + 1) ltac:(lia)) as [hi E'].
  unfold safe, wpd. rewrite (bind_run _ _ _ (lo + 256 * hi) tt); [apply Hf|].
  unfold field16. by rewrite (bind_run _ _ _ _ _ E), (bind_run _ _ _ _ _ E').
Qed.

Lemma safe_fields {A} buf i n (f : bytes -> M unit A) :
  0 <= i /\ i + Z.of_nat n <= Z.of_nat (length buf) -> (forall c, safe (f c)) -> safe (let* c := fields buf i n in f c).
Proof.
  intros [H0 Hi] Hf. unfold fields. rewrite (proj2 (Z.ltb_ge i _)), (proj2 (Z.ltb_ge _ _)) by lia. apply Hf.
Qed.

Lemma safe_die_if {A} c msg (f : M unit A) : safe f -> safe (die_if c msg;;; f).
Proof. intros Hf. unfold safe. by apply wpd_bind, wpd_die_if. Qed.

(** A port as a program compares it. *)
Definition port_of (p : bytes) : Z := match p with [lo; hi] => lo + 256 * hi | _ => 0 end.

Section reading.
Implicit Types (pre post : bytes).

Lemma field_skip pre post i j : i = Z.of_nat (length pre) + j -> 0 <= j -> field (pre ++ post) i = field post j.
Proof.
  intros -> Hj. unfold field. rewrite !(proj2 (Z.ltb_ge _ _)) by lia.
  replace (Z.to_nat (Z.of_nat (length pre) + j)) with (length pre + Z.to_nat j)%nat by lia.
  by rewrite lookup_app_r, Nat.add_comm, Nat.add_sub by lia.
Qed.

Lemma fields_skip pre post i j n :
  i = Z.of_nat (length pre) + j -> 0 <= j -> fields (pre ++ post) i n = fields post j n.
Proof.
  intros -> Hj. unfold fields. rewrite !(proj2 (Z.ltb_ge _ 0)) by lia. rewrite length_app.
  replace (Z.of_nat (length pre + length post) <? Z.of_nat (length pre) + j + Z.of_nat n)
    with (Z.of_nat (length post) <? j + Z.of_nat n) by (apply eq_true_iff_eq; rewrite !Z.ltb_lt; lia).
  unfold slice.
  replace (Z.to_nat (Z.of_nat (length pre) + j)) with (length pre + Z.to_nat j)%nat by lia.
  by rewrite drop_app, drop_ge, Nat.add_comm, Nat.add_sub by lia.
Qed.

Lemma field_here pre post i c : 0 <= i -> pre !! Z.to_nat i = Some c -> field (pre ++ post) i tt = Ret c tt.
Proof. intros Hi Hc. unfold field. by rewrite (proj2 (Z.ltb_ge _ _)), (lookup_app_l_Some _ _ _ _ Hc) by lia. Qed.

Lemma fields_here pre post i n :
  0 <= i -> i + Z.of_nat n <= Z.of_nat (length pre) -> fields (pre ++ post) i n tt = Ret (slice (Z.to_nat i) n pre) tt.
Proof.
  intros H0 Hi. unfold fields. rewrite (proj2 (Z.ltb_ge i _)), length_app, (proj2 (Z.ltb_ge _ _)) by lia.
  cbn [orb]. unfold ret, slice. rewrite drop_app_le, take_app_le by (rewrite ?length_drop; lia). done.
Qed.

Lemma field16_port p post : length p = 2%nat -> field16 (p ++ post) 0 tt = Ret (port_of p) tt.
Proof. intros H. destruct p as [|lo p]; [done|]. destruct p as [|hi p]; [done|]. by destruct p. Qed.

Lemma field16_slice b i : 0 <= i -> i + 2 <= Z.of_nat (length b) -> field16 b i tt = Ret (port_of (slice (Z.to_nat i) 2 b)) tt.
Proof.
  intros H0 Hi. rewrite <-(take_drop (Z.to_nat i) b) at 1.
  rewrite <-(take_drop 2 (drop (Z.to_nat i) b)) at 1. unfold field16.
  rewrite (field_skip _ _ i 0), (field_skip _ _ (i + 1) 1) by (rewrite ?length_take; lia).
  apply (field16_port (slice (Z.to_nat i) 2 b)). unfold slice. rewrite length_take, length_drop. lia.
Qed.
End reading.

Lemma field16_skip pre post i j : i = Z.of_nat (length pre) + j -> 0 <= j -> field16 (pre ++ post) i = field16 post j.
Proof. intros E Hj. unfold field16. by rewrite (field_skip pre post i j), (field_skip pre post (i + 1) (j + 1)) by lia. Qed.


(** * Writing *)

(** Bytes written at an offset of a block of memory. *)
Definition put (o : Z) (bs : bytes) (mem : bytes) : M unit bytes :=
  if (o <? 0) || (Z.of_nat (length mem) <? o + Z.of_nat (length bs)) then undef "write"
  else ret (splice (Z.to_nat o) bs mem).

Section writing.
Implicit Types (bs mem : bytes).

Lemma put_run o bs mem : 0 <= o -> o + Z.of_nat (length bs) <= Z.of_nat (length mem) ->
  put o bs mem tt = Ret (splice (Z.to_nat o) bs mem) tt.
Proof. intros H1 H2. unfold put. by rewrite (proj2 (Z.ltb_ge o 0)), (proj2 (Z.ltb_ge _ _)) by lia. Qed.

Lemma drop_splice_after n o bs mem : (o + length bs <= n)%nat -> (o + length bs <= length mem)%nat ->
  drop n (splice o bs mem) = drop n mem.
Proof.
  intros H1 H2. unfold splice. replace (o - length mem)%nat with 0%nat by lia. cbn [replicate app].
  rewrite drop_app_ge, drop_app_ge, drop_drop by (rewrite ?length_take; lia). f_equal. rewrite length_take. lia.
Qed.

Lemma drop_splice_at o bs mem : (o + length bs <= length mem)%nat ->
  drop o (splice o bs mem) = bs ++ drop (o + length bs) mem.
Proof.
  intros H. unfold splice. replace (o - length mem)%nat with 0%nat by lia. cbn [replicate app].
  rewrite drop_app_length' by (rewrite length_take; lia). done.
Qed.

Lemma slice_splice_before a n o bs mem : (a + n <= o)%nat -> (o + length bs <= length mem)%nat ->
  slice a n (splice o bs mem) = slice a n mem.
Proof.
  intros H1 H2. unfold splice, slice. replace (o - length mem)%nat with 0%nat by lia. cbn [replicate app].
  rewrite drop_app_le, take_app_le by (rewrite ?length_drop, ?length_take; lia).
  by rewrite skipn_firstn_comm, firstn_firstn, Nat.min_l by lia.
Qed.

Lemma slice_splice_at o n bs mem : n = length bs -> (o + length bs <= length mem)%nat ->
  slice o n (splice o bs mem) = bs.
Proof. intros -> H. unfold slice. by rewrite drop_splice_at, take_app_length by done. Qed.

Lemma slice_splice_after a n o bs mem : (o + length bs <= a)%nat -> (o + length bs <= length mem)%nat ->
  slice a n (splice o bs mem) = slice a n mem.
Proof. intros H1 H2. unfold slice. by rewrite drop_splice_after. Qed.
End writing.
