(* ===== verification/Icmp.v ===== *)
(** ICMP packets (unpv13e/icmpd, traceroute and ping):
    constants and the layout of an ICMP error about a UDP datagram. *)
From Stdlib Require Import ZArith Lia.
From stdpp Require Import base list strings numbers.
From S2P Require Import Prelude CFile Packet.
Local Open Scope c_scope.

Definition IPPROTO_ICMP : Z := 1.
Definition IPPROTO_UDP : Z := 17.
Definition ICMP_ECHOREPLY : Z := 0.
Definition ICMP_ECHO : Z := 8.
Definition ICMP_UNREACH : Z := 3.
Definition ICMP_SOURCEQUENCH : Z := 4.
Definition ICMP_TIMXCEED : Z := 11.
Definition ICMP_UNREACH_PORT : Z := 3.
Definition ICMP_UNREACH_NEEDFRAG : Z := 4.
Definition ICMP_TIMXCEED_INTRANS : Z := 0.
Definition ICMP6_DST_UNREACH : Z := 1.
Definition ICMP6_PACKET_TOO_BIG : Z := 2.
Definition ICMP6_TIME_EXCEEDED : Z := 3.
Definition ICMP6_DST_UNREACH_NOPORT : Z := 4.
Definition ICMP6_TIME_EXCEED_TRANSIT : Z := 0.
Definition ICMP6_ECHO_REQUEST : Z := 128.
Definition ICMP6_ECHO_REPLY : Z := 129.

(** * An ICMP error *)

(** An ICMP error about a UDP datagram: the IP header, the type and code and
    the rest of the ICMP header, the IP header of the datagram, its ports, and
    what follows of it. *)
Record message := Message {
  outer : bytes; type : Z; code : Z; rest : bytes; inner : bytes; sport : bytes; dport : bytes; tail : bytes
}.
Definition ip4_bytes (m : message) : bytes :=
  outer m ++ [type m; code m] ++ rest m ++ inner m ++ sport m ++ dport m ++ tail m.
(** Over IPv6 the kernel gives the packet without its IP header. *)
Definition ip6_bytes (m : message) : bytes := [type m; code m] ++ rest m ++ inner m ++ sport m ++ dport m ++ tail m.
Record parts_ok (m : message) : Prop := {
  pt_rest : length (rest m) = 6%nat;
  pt_sport : length (sport m) = 2%nat;
  pt_dport : length (dport m) = 2%nat
}.
(** The low half of the first byte of a header is its length in words. *)
Definition ip4_header (h : bytes) : Prop := exists c l, h = c :: l /\ 4 * (c mod 16) = Z.of_nat (length h).

(** The length as the programs compute it. *)
Definition hl_bytes (vhl : Z) : Z := Z.shiftl (Z.land vhl 15) 2.

Lemma hl_bytes_mod c : hl_bytes c = 4 * (c mod 16).
Proof.
  unfold hl_bytes. rewrite Z.shiftl_mul_pow2 by lia. replace 15 with (Z.ones 4) by done. rewrite Z.land_ones by lia.
  change (2 ^ 4) with 16. change (2 ^ 2) with 4. lia.
Qed.

Lemma hl_bytes_range c : 0 <= hl_bytes c <= 60.
Proof. rewrite hl_bytes_mod. pose proof (Z.mod_pos_bound c 16 ltac:(lia)). lia. Qed.

(** What is read of a packet laid out like that. *)
Record ip4_read (m : message) (b : bytes) : Prop := {
  r4_outer : exists c, field b 0 tt = Ret c tt /\ hl_bytes c = Z.of_nat (length (outer m));
  r4_type : field b (Z.of_nat (length (outer m))) tt = Ret (type m) tt;
  r4_code : field b (Z.of_nat (length (outer m)) + 1) tt = Ret (code m) tt;
  r4_inner : exists c, field b (Z.of_nat (length (outer m)) + 8) tt = Ret c tt /\ hl_bytes c = Z.of_nat (length (inner m));
  r4_field i c : 0 <= i -> inner m !! Z.to_nat i = Some c -> field b (Z.of_nat (length (outer m)) + 8 + i) tt = Ret c tt;
  r4_fields i n : 0 <= i -> i + Z.of_nat n <= Z.of_nat (length (inner m)) ->
    fields b (Z.of_nat (length (outer m)) + 8 + i) n tt = Ret (slice (Z.to_nat i) n (inner m)) tt;
  r4_sport : field16 b (Z.of_nat (length (outer m)) + 8 + Z.of_nat (length (inner m))) tt = Ret (port_of (sport m)) tt;
  r4_dport : field16 b (Z.of_nat (length (outer m)) + 8 + Z.of_nat (length (inner m)) + 2) tt = Ret (port_of (dport m)) tt;
  r4_dbytes : fields b (Z.of_nat (length (outer m)) + 8 + Z.of_nat (length (inner m)) + 2) 2 tt = Ret (dport m) tt
}.

Lemma ip4_header_length h post : ip4_header h -> exists c, field (h ++ post) 0 tt = Ret c tt /\ hl_bytes c = Z.of_nat (length h).
Proof. intros (c & l & -> & E). exists c. split; [done|]. by rewrite hl_bytes_mod. Qed.

(** The part after the ICMP header. *)
Lemma inner_reads m junk :
  parts_ok m -> let b := inner m ++ sport m ++ dport m ++ tail m ++ junk in let n := Z.of_nat (length (inner m)) in
  field16 b n tt = Ret (port_of (sport m)) tt /\ field16 b (n + 2) tt = Ret (port_of (dport m)) tt /\
  fields b (n + 2) 2 tt = Ret (dport m) tt.
Proof.
  intros [_ Hs Hd] b n. subst b n.
  rewrite (field16_skip (inner m) _ _ 0), (field16_skip (inner m) _ _ 2), (fields_skip (inner m) _ _ 2) by lia.
  rewrite (field16_skip (sport m) _ 2 0), (fields_skip (sport m) _ 2 0) by (rewrite ?Hs; lia).
  split; [by apply field16_port|]. split; [by apply field16_port|].
  rewrite fields_here by (rewrite ?Hd; lia). unfold slice. cbn [Z.to_nat]. by rewrite drop_0, take_ge by lia.
Qed.

Lemma ip4_reads m junk : parts_ok m -> ip4_header (outer m) -> ip4_header (inner m) -> ip4_read m (ip4_bytes m ++ junk).
Proof.
  intros P Ho Hi. destruct (inner_reads m junk P) as (Es & Ed & Eb). pose proof (pt_rest _ P) as Hr.
  unfold ip4_bytes. rewrite <-!app_assoc. set (b := inner m ++ _) in *.
  set (pre := outer m ++ [type m; code m] ++ rest m).
  assert (Hpre : Z.of_nat (length pre) = Z.of_nat (length (outer m)) + 8) by (subst pre; rewrite !length_app, Hr; cbn [length]; lia).
  assert (E : outer m ++ [type m; code m] ++ rest m ++ b = pre ++ b) by (subst pre; by rewrite <-!app_assoc).
  constructor.
  - by apply ip4_header_length.
  - by rewrite (field_skip (outer m) _ _ 0) by lia.
  - by rewrite (field_skip (outer m) _ _ 1) by lia.
  - rewrite E, (field_skip pre _ _ 0) by lia. by apply ip4_header_length.
  - intros i c H0 Hc. rewrite E, (field_skip pre _ _ i) by lia. by apply field_here.
  - intros i n H0 Hn. rewrite E, (fields_skip pre _ _ i) by lia. by apply fields_here.
  - by rewrite E, (field16_skip pre _ _ (Z.of_nat (length (inner m)))) by lia.
  - by rewrite E, (field16_skip pre _ _ (Z.of_nat (length (inner m)) + 2)) by lia.
  - by rewrite E, (fields_skip pre _ _ (Z.of_nat (length (inner m)) + 2)) by lia.
Qed.

Record ip6_read (m : message) (b : bytes) : Prop := {
  r6_type : field b 0 tt = Ret (type m) tt;
  r6_code : field b 1 tt = Ret (code m) tt;
  r6_field i c : 0 <= i -> inner m !! Z.to_nat i = Some c -> field b (8 + i) tt = Ret c tt;
  r6_fields i n : 0 <= i -> i + Z.of_nat n <= Z.of_nat (length (inner m)) ->
    fields b (8 + i) n tt = Ret (slice (Z.to_nat i) n (inner m)) tt;
  r6_sport : field16 b (8 + Z.of_nat (length (inner m))) tt = Ret (port_of (sport m)) tt;
  r6_dport : field16 b (8 + Z.of_nat (length (inner m)) + 2) tt = Ret (port_of (dport m)) tt;
  r6_dbytes : fields b (8 + Z.of_nat (length (inner m)) + 2) 2 tt = Ret (dport m) tt
}.

Lemma ip6_reads m junk : parts_ok m -> ip6_read m (ip6_bytes m ++ junk).
Proof.
  intros P. destruct (inner_reads m junk P) as (Es & Ed & Eb). pose proof (pt_rest _ P) as Hr.
  unfold ip6_bytes. rewrite <-!app_assoc. set (b := inner m ++ _) in *. set (pre := [type m; code m] ++ rest m).
  assert (Hpre : Z.of_nat (length pre) = 8) by (subst pre; rewrite length_app, Hr; done).
  assert (E : [type m; code m] ++ rest m ++ b = pre ++ b) by (subst pre; by rewrite <-!app_assoc).
  constructor; [done|done|..].
  - intros i c H0 Hc. rewrite E, (field_skip pre _ _ i) by lia. by apply field_here.
  - intros i n H0 Hn. rewrite E, (fields_skip pre _ _ i) by lia. by apply fields_here.
  - by rewrite E, (field16_skip pre _ _ (Z.of_nat (length (inner m)))) by lia.
  - by rewrite E, (field16_skip pre _ _ (Z.of_nat (length (inner m)) + 2)) by lia.
  - by rewrite E, (fields_skip pre _ _ (Z.of_nat (length (inner m)) + 2)) by lia.
Qed.

Lemma ip4_bytes_length m : parts_ok m ->
  length (ip4_bytes m) = (length (outer m) + 8 + length (inner m) + 4 + length (tail m))%nat.
Proof. intros [H1 H2 H3]. unfold ip4_bytes. rewrite !length_app, H1, H2, H3. cbn [length]. lia. Qed.

Lemma ip6_bytes_length m : parts_ok m -> length (ip6_bytes m) = (8 + length (inner m) + 4 + length (tail m))%nat.
Proof. intros [H1 H2 H3]. unfold ip6_bytes. rewrite !length_app, H1, H2, H3. cbn [length]. lia. Qed.
