(* ===== verification/Icmpd.v ===== *)
(** unpv13e/icmpd (icmpd.c, readable_listen.c, readable_conn.c, readable_v4.c,
    readable_v6.c): the daemon that reads ICMP errors from raw sockets and tells
    the clients that have passed it the UDP socket an error is for. *)
From Stdlib Require Import ZArith Lia.
From stdpp Require Import base list strings gmap sets numbers.
From S2P Require Import Prelude CFile EventLoop Packet Icmp.
Local Open Scope c_scope.

Definition AF_INET : Z := 2.
Definition AF_INET6 : Z := 30.
Definition EMSGSIZE : Z := 40.
Definition ECONNREFUSED : Z := 61.
Definition EHOSTUNREACH : Z := 65.
Definition sizeof_sockaddr_in : Z := 16.
Definition sizeof_sockaddr_in6 : Z := 28.
(** [sockaddr_storage] is aligned to 8 bytes: [icmpd_dest] is at 16. *)
Definition sizeof_icmpd_err : nat := 144.

(** * The state *)

Record client_t := Client { connfd : Z; family : Z; lport : Z }.

(** System calls that succeeded: a connection, what came with a message on a
    connection (-1 for no descriptor), a message, and a descriptor closed. *)
Inductive event :=
| Accepted (fd : Z)
| Got_fd (fd : Z) (n : nat) (recvfd : Z)
| Wrote (fd : Z) (d : bytes)
| Closed (fd : Z).

(** The global variables, and the calls made so far. *)
Record daemon := Daemon {
  client : list client_t;
  maxi : Z;
  maxfd : Z;
  nready : Z;
  allset : gset Z;
  trace : list event
}.
Definition set_client v s := Daemon v (maxi s) (maxfd s) (nready s) (allset s) (trace s).
Definition set_maxi v s := Daemon (client s) v (maxfd s) (nready s) (allset s) (trace s).
Definition set_maxfd v s := Daemon (client s) (maxi s) v (nready s) (allset s) (trace s).
Definition set_nready v s := Daemon (client s) (maxi s) (maxfd s) v (allset s) (trace s).
Definition set_allset v s := Daemon (client s) (maxi s) (maxfd s) (nready s) v (trace s).
Definition log e s := Daemon (client s) (maxi s) (maxfd s) (nready s) (allset s) (trace s ++ [e]).

Record sockets := Sockets { fd4 : Z; fd6 : Z; listenfd : Z }.

(** What comes from outside in one round: whether waiting fails, which
    descriptors are ready, the descriptor of a new connection, the datagrams on
    the raw sockets, what [read_fd] gives on a connection (the number of bytes
    and the descriptor, or an error), the family and port of a socket that was
    received, the port given to it when it had none, whether [write] succeeds;
    and what the stack holds where [buf] and [icmpd_err] are placed. *)
Record kernel := Kernel {
  wait_fails : bool;
  ready : Z -> bool;
  newfd : Z;
  datagram4 : option bytes;
  datagram6 : option bytes;
  read_fds : Z -> option (nat * Z);
  getsockname : Z -> option (Z * Z);
  bind_wild : Z -> Z -> Z;
  writes : Z -> bool;
  stack_buf : bytes;
  stack_err : bytes
}.

(** [main] before the loop: what the global variables hold then. *)
Definition start (sk : sockets) : daemon :=
  Daemon (replicate (Z.to_nat FD_SETSIZE) (Client (-1) 0 0)) (-1)
    (Z.max (Z.max (fd4 sk) (fd6 sk)) (listenfd sk)) 0
    ({[listenfd sk]} ∪ ({[fd6 sk]} ∪ {[fd4 sk]})) [].

Definition client_at (i : Z) : M daemon client_t := fun s =>
  if i <? 0 then Undef "client[]"
  else match client s !! Z.to_nat i with Some c => Ret c s | None => Undef "client[]" end.
Definition put_client (i : Z) (f : client_t -> client_t) : M daemon unit :=
  let* c := client_at i in modify (fun s => set_client (<[Z.to_nat i := f c]> (client s)) s).
Definition with_connfd fd (c : client_t) := Client fd (family c) (lport c).
Definition with_family f (c : client_t) := Client (connfd c) f (lport c).
Definition with_lport p (c : client_t) := Client (connfd c) (family c) p.

Definition FD_SET (fd : Z) : M daemon unit :=
  if in_set fd then modify (fun s => set_allset ({[fd]} ∪ allset s) s) else undef "FD_SET".
Definition FD_CLR (fd : Z) : M daemon unit :=
  if in_set fd then modify (fun s => set_allset (allset s ∖ {[fd]}) s) else undef "FD_CLR".
Definition FD_ISSET (fd : Z) (rset : gset Z) : M daemon bool :=
  if in_set fd then ret (bool_decide (fd ∈ rset)) else undef "FD_ISSET".

(** The wrappers end the process when the call fails. *)
Definition Write_ (k : kernel) (fd : Z) (d : bytes) : M daemon unit :=
  die_if (negb (writes k fd)) "write error";;; modify (log (Wrote fd d)).
Definition Close_ (fd : Z) : M daemon unit := modify (log (Closed fd)).
(** [return(--nready)] *)
Definition return_nready : M daemon Z :=
  modify (fun s => set_nready (nready s - 1) s);;; gets nready.

(** * readable_listen *)

Fixpoint slot_loop (n : nat) (i fd : Z) : M daemon Z :=
  match n with
  | O => ret i
  | S n =>
    let* c := client_at i in
    if connfd c <? 0 then put_client i (with_connfd fd);;; ret i else slot_loop n (i + 1) fd
  end.

Definition readable_listen (k : kernel) : M daemon Z :=
  let fd := newfd k in
  die_if (fd <? 0) "accept error";;;
  modify (log (Accepted fd));;;
  let* i := slot_loop (Z.to_nat FD_SETSIZE) 0 fd in
  if i =? FD_SETSIZE then Close_ fd;;; return_nready
  else
    FD_SET fd;;;
    modify (fun s => if fd >? maxfd s then set_maxfd fd s else s);;;
    modify (fun s => if i >? maxi s then set_maxi i s else s);;;
    return_nready.

(** * readable_conn *)

(** The labels [clienterr] and [clientdone]. *)
Definition clientdone (i unixfd recvfd : Z) : M daemon Z :=
  Close_ unixfd;;;
  (if recvfd >=? 0 then Close_ recvfd else skip);;;
  FD_CLR unixfd;;;
  put_client i (with_connfd (-1));;;
  return_nready.
Definition clienterr (k : kernel) (i unixfd recvfd : Z) : M daemon Z :=
  Write_ k unixfd (str "0");;; clientdone i unixfd recvfd.

Definition readable_conn (k : kernel) (i : Z) : M daemon Z :=
  let* c := client_at i in
  let unixfd := connfd c in
  match read_fds k unixfd with
  | None => die "read_fd error"
  | Some (n, recvfd) =>
    modify (log (Got_fd unixfd n recvfd));;;
    if (n =? 0)%nat then clientdone i unixfd recvfd
    else if recvfd <? 0 then clienterr k i unixfd recvfd
    else
      match getsockname k recvfd with
      | None => clienterr k i unixfd recvfd
      | Some (fam, port) =>
        put_client i (with_family fam);;;
        put_client i (with_lport port);;;
        let* ok := (if port =? 0 then
          let* c := client_at i in
          let port := bind_wild k recvfd (family c) in
          put_client i (with_lport port);;;
          ret (negb (port <=? 0))
        else ret true) in
        if negb ok then clienterr k i unixfd recvfd
        else
          Write_ k unixfd (str "1");;;
          Close_ recvfd;;;
          return_nready
      end
  end.

(** * readable_v4 and readable_v6 *)

(** What a client is told: the type and code, the address the datagram was
    sent to, and an error number. *)
Record report := Report { icmpd_type : Z; icmpd_code : Z; icmpd_dest : bytes; icmpd_errno : Z }.

(** The assignments to [icmpd_err], over what it held. *)
Definition fill_err (r : report) (frame : bytes) : bytes :=
  let frame := splice 4 [icmpd_type r] frame in
  let frame := splice 5 [icmpd_code r] frame in
  let frame := splice 8 (int_bytes 4 (Z.of_nat (length (icmpd_dest r)))) frame in
  let frame := splice 16 (icmpd_dest r) frame in
  splice 0 (int_bytes 4 (icmpd_errno r)) frame.

Definition errno_v4 (type code : Z) : Z :=
  if type =? ICMP_UNREACH then
    if code =? ICMP_UNREACH_PORT then ECONNREFUSED
    else if code =? ICMP_UNREACH_NEEDFRAG then EMSGSIZE else EHOSTUNREACH
  else EHOSTUNREACH.

Definition dest_v4 (port addr : bytes) : bytes :=
  let dest := replicate 16 0 in
  let dest := splice 1 [AF_INET] dest in
  let dest := splice 0 [sizeof_sockaddr_in] dest in
  let dest := splice 4 addr dest in
  splice 2 port dest.

(** What [readable_v4] takes from a packet of [n] bytes in [buf]: the source
    port of the datagram an error is about, and the report; [None] when the
    packet is not an error about a UDP datagram. *)
Definition parse_v4 (buf : bytes) (n : Z) : M unit (option (Z * report)) :=
  let* vhl := field buf 0 in
  let hlen1 := hl_bytes vhl in
  let icmplen := n - hlen1 in
  die_if (icmplen <? 8) "icmplen (%d) < 8";;;
  let* type := field buf hlen1 in
  let* code := field buf (hlen1 + 1) in
  if (type =? ICMP_UNREACH) || (type =? ICMP_TIMXCEED) || (type =? ICMP_SOURCEQUENCH) then
    die_if (icmplen <? 8 + 20 + 8) "icmplen (%d) < 8 + 20 + 8";;;
    let hip := hlen1 + 8 in
    let* vhl := field buf hip in
    let hlen2 := hl_bytes vhl in
    let* p := field buf (hip + 9) in
    if p =? IPPROTO_UDP then
      let udp := hip + hlen2 in
      let* sport := field16 buf udp in
      let* addr := fields buf (hip + 16) 4 in
      let* dport := fields buf (udp + 2) 2 in
      ret (Some (sport, Report type code (dest_v4 dport addr) (errno_v4 type code)))
    else ret None
  else ret None.

Definition errno_v6 (type code : Z) : Z :=
  let errno := EHOSTUNREACH in
  let errno := if (type =? ICMP6_DST_UNREACH) && (code =? ICMP6_DST_UNREACH_NOPORT) then ECONNREFUSED else errno in
  if type =? ICMP6_PACKET_TOO_BIG then EMSGSIZE else errno.

Definition dest_v6 (port addr : bytes) : bytes :=
  let dest := replicate 28 0 in
  let dest := splice 1 [AF_INET6] dest in
  let dest := splice 0 [sizeof_sockaddr_in6] dest in
  let dest := splice 8 addr dest in
  splice 2 port dest.

Definition parse_v6 (buf : bytes) (n : Z) : M unit (option (Z * report)) :=
  let icmp6len := n in
  die_if (icmp6len <? 8) "icmp6len (%d) < 8";;;
  let* type := field buf 0 in
  let* code := field buf 1 in
  if (type =? ICMP6_DST_UNREACH) || (type =? ICMP6_PACKET_TOO_BIG) || (type =? ICMP6_TIME_EXCEEDED) then
    die_if (icmp6len <? 8 + 8) "icmp6len (%d) < 8 + 8";;;
    let hip6 := 8 in
    let hlen2 := 40 in
    let* nxt := field buf (hip6 + 6) in
    if nxt =? IPPROTO_UDP then
      let udp := hip6 + hlen2 in
      let* sport := field16 buf udp in
      let* addr := fields buf (hip6 + 24) 16 in
      let* dport := fields buf (udp + 2) 2 in
      ret (Some (sport, Report type code (dest_v6 dport addr) (errno_v6 type code)))
    else ret None
  else ret None.

(** [for (i = 0; i <= maxi; i++)]: every client of the family with the port is
    told; [n] is the number of entries left. *)
Fixpoint notify_loop (k : kernel) (fam sport : Z) (r : report) (n : nat) (i : Z) (frame : bytes) : M daemon unit :=
  match n with
  | O => skip
  | S n =>
    let* c := client_at i in
    if (connfd c >=? 0) && (family c =? fam) && (lport c =? sport) then
      let frame := fill_err r frame in
      Write_ k (connfd c) frame;;;
      notify_loop k fam sport r n (i + 1) frame
    else notify_loop k fam sport r n (i + 1) frame
  end.

Definition readable_raw (k : kernel) (datagram : option bytes) (fam : Z)
    (parse : bytes -> Z -> M unit (option (Z * report))) : M daemon Z :=
  match datagram with
  | None => die "recvfrom error"
  | Some d =>
    let d := take MAXLINE d in
    let buf := splice 0 d (stack_buf k) in
    let* e := zoom (fun _ => tt) (fun _ s => s) (parse buf (Z.of_nat (length d))) in
    let* m := gets maxi in
    match e with
    | Some (sport, r) => notify_loop k fam sport r (Z.to_nat (m + 1)) 0 (stack_err k)
    | None => skip
    end;;;
    return_nready
  end.
Definition readable_v4 (k : kernel) : M daemon Z := readable_raw k (datagram4 k) AF_INET parse_v4.
Definition readable_v6 (k : kernel) : M daemon Z := readable_raw k (datagram6 k) AF_INET6 parse_v6.

(** * The loop *)

Fixpoint conn_loop (k : kernel) (rset : gset Z) (n : nat) (i : Z) : M daemon unit :=
  match n with
  | O => skip
  | S n =>
    let* c := client_at i in
    if connfd c <? 0 then conn_loop k rset n (i + 1)
    else
      let* set := FD_ISSET (connfd c) rset in
      if set then
        let* r := readable_conn k i in
        if r <=? 0 then skip else conn_loop k rset n (i + 1)
      else conn_loop k rset n (i + 1)
  end.

(** [if (FD_ISSET(fd, &rset)) if (body <= 0) continue;] *)
Definition if_ready (fd : Z) (rset : gset Z) (body : M daemon Z) (rest : M daemon unit) : M daemon unit :=
  let* set := FD_ISSET fd rset in
  if set then let* r := body in if r <=? 0 then skip else rest else rest.

Definition select (k : kernel) (nfds : Z) (set : gset Z) : gset Z :=
  filter (fun fd => fd < nfds /\ ready k fd = true) set.

Definition round (sk : sockets) (k : kernel) : M daemon unit :=
  die_if (wait_fails k) "select error";;;
  let* rset := gets (fun s => select k (maxfd s + 1) (allset s)) in
  modify (set_nready (Z.of_nat (size rset)));;;
  if_ready (listenfd sk) rset (readable_listen k) (
  if_ready (fd4 sk) rset (readable_v4 k) (
  if_ready (fd6 sk) rset (readable_v6 k) (
  let* m := gets maxi in
  conn_loop k rset (Z.to_nat (m + 1)) 0))).

Fixpoint icmpd (sk : sockets) (ks : list kernel) : M daemon unit :=
  match ks with [] => skip | k :: ks => round sk k;;; icmpd sk ks end.

(** * What the daemon promises *)

(** The clients, by their descriptor, each with the family and port of the
    socket it has registered, if it has. *)
Abbreviation table := (gmap Z (option (Z * Z))).
Abbreviation used := (EventLoop.used connfd).

(** A message on a connection registers a socket, or ends the connection. *)
Inductive verdict := Leaves | Registers (fam port : Z).
Definition verdict_of (k : kernel) (fd : Z) : verdict :=
  match read_fds k fd with
  | None | Some (O, _) => Leaves
  | Some (S _, r) =>
    if r <? 0 then Leaves
    else match getsockname k r with
         | None => Leaves
         | Some (fam, port) =>
           if negb (port =? 0) then Registers fam port
           else if bind_wild k r fam <=? 0 then Leaves else Registers fam (bind_wild k r fam)
         end
  end.
Definition close_received (r : Z) : list event := if r >=? 0 then [Closed r] else [].
Definition conn_events (k : kernel) (fd : Z) : list event :=
  match read_fds k fd with
  | None => []
  | Some (n, r) =>
    Got_fd fd n r ::
    match n, verdict_of k fd with
    | O, _ => Closed fd :: close_received r
    | S _, Leaves => Wrote fd (str "0") :: Closed fd :: close_received r
    | S _, Registers _ _ => [Wrote fd (str "1"); Closed r]
    end
  end.
Definition settle_one (k : kernel) (fd : Z) (T : table) : table :=
  match verdict_of k fd with Leaves => delete fd T | Registers fam port => <[fd := Some (fam, port)]> T end.
Definition settle (k : kernel) (fds : list Z) (T : table) : table := foldl (fun T fd => settle_one k fd T) T fds.

(** An error for a port goes to every client that has registered it, and to no
    client that has registered another socket. *)
Record receivers (T : table) (fam port : Z) (fds : list Z) : Prop := {
  rcv_nodup : NoDup fds;
  rcv_all fd : T !! fd = Some (Some (fam, port)) -> fd ∈ fds;
  rcv_only fd : fd ∈ fds -> T !! fd = Some (Some (fam, port)) \/ T !! fd = Some None
}.

(** What is sent because of the packet on a raw socket. *)
Inductive tells (k : kernel) (T : table) (fd : Z) (datagram : option bytes) (fam : Z)
    (parse : bytes -> Z -> M unit (option (Z * report))) : list event -> Prop :=
| tells_idle : ready k fd = false -> tells k T fd datagram fam parse []
| tells_other d :
  ready k fd = true -> datagram = Some d ->
  parse (splice 0 (take MAXLINE d) (stack_buf k)) (Z.of_nat (length (take MAXLINE d))) tt = Ret None tt ->
  tells k T fd datagram fam parse []
| tells_error d sport r fds :
  ready k fd = true -> datagram = Some d ->
  parse (splice 0 (take MAXLINE d) (stack_buf k)) (Z.of_nat (length (take MAXLINE d))) tt = Ret (Some (sport, r)) tt ->
  receivers T fam sport fds ->
  tells k T fd datagram fam parse ((fun c => Wrote c (fill_err r (stack_err k))) <$> fds).

Section abstract.
Variable sk : sockets.

Definition socket_set : gset Z := {[listenfd sk]} ∪ ({[fd6 sk]} ∪ {[fd4 sk]}).
Definition ready_clients (k : kernel) (T : table) : gset Z := filter (fun fd => ready k fd = true) (dom T).
Definition arrive (k : kernel) (T : table) : table := if ready k (listenfd sk) then <[newfd k := None]> T else T.
Definition arrivals (k : kernel) : list event := if ready k (listenfd sk) then [Accepted (newfd k)] else [].
Definition after (k : kernel) (T : table) : table := settle k (elements (ready_clients k T)) (arrive k T).

(** In every round the connection that waits is taken, the errors that have
    arrived are told, and each client that has sent something is served once. *)
Inductive serves : list kernel -> table -> list event -> table -> Prop :=
| serves_nil T : serves [] T [] T
| serves_round k ks T e4 e6 fds tr T' :
  tells k (arrive k T) (fd4 sk) (datagram4 k) AF_INET parse_v4 e4 ->
  tells k (arrive k T) (fd6 sk) (datagram6 k) AF_INET6 parse_v6 e6 ->
  fds ≡ₚ elements (ready_clients k T) ->
  Forall (fun fd => is_Some (read_fds k fd)) fds ->
  serves ks (after k T) tr T' ->
  serves (k :: ks) T (arrivals k ++ e4 ++ e6 ++ concat (conn_events k <$> fds) ++ tr) T'.

(** A descriptor that is received is one that was not open. *)
Definition received_new (k : kernel) (T : table) (fd : Z) : Prop :=
  match read_fds k fd with Some (_, r) => r < 0 \/ (r ∉ socket_set ∪ dom (arrive k T)) | None => True end.

(** What the kernel promises: new descriptors are new and fit in a set. *)
Record fits (k : kernel) (T : table) : Prop := {
  fits_new : newfd k ∉ socket_set ∪ dom T;
  fits_set : newfd k < FD_SETSIZE;
  fits_received : set_Forall (received_new k T) (ready_clients k T);
  fits_buf : length (stack_buf k) = MAXLINE;
  fits_err : length (stack_err k) = sizeof_icmpd_err
}.
Fixpoint keeps (ks : list kernel) (T : table) : Prop :=
  match ks with [] => True | k :: ks => fits k T /\ keeps ks (after k T) end.
End abstract.

(** A call that fails, or a packet too short to be an ICMP message. *)
Definition rejected (k : kernel) (datagram : option bytes) (parse : bytes -> Z -> M unit (option (Z * report))) : Prop :=
  match datagram with
  | None => True
  | Some d => returns (parse (splice 0 (take MAXLINE d) (stack_buf k)) (Z.of_nat (length (take MAXLINE d)))) tt = false
  end.
Definition fails (k : kernel) : Prop :=
  wait_fails k = true \/ newfd k < 0 \/ rejected k (datagram4 k) parse_v4 \/ rejected k (datagram6 k) parse_v6 \/
  exists fd, writes k fd = false \/ read_fds k fd = None.

(** The descriptors the calls have left open. *)
Definition open_after (tr : list event) (o : gset Z) : gset Z :=
  foldl (fun o e => match e with
    | Accepted fd => {[fd]} ∪ o
    | Got_fd _ _ r => if r <? 0 then o else {[r]} ∪ o
    | Wrote _ _ => o
    | Closed fd => o ∖ {[fd]}
    end) o tr.
