(* ===== verification/IcmpdRounds.v ===== *)
(** Rounds of icmpd: each keeps the table of the program in step with the
    abstract table, serves what the specification says, and leaves no received
    descriptor open. *)
From Stdlib Require Import ZArith Lia.
From stdpp Require Import base list strings gmap sets numbers.
From S2P Require Import Prelude CFile EventLoop Packet Icmp Icmpd.
Local Open Scope c_scope.

Abbreviation used := (EventLoop.used connfd).

(** * The table *)

Lemma settle_lookup k fds T fd :
  settle k fds T !! fd =
    if decide (fd ∈ fds) then match verdict_of k fd with Leaves => None | Registers f p => Some (Some (f, p)) end else T !! fd.
Proof.
  revert T. induction fds as [|x fds IH]; intros T; [done|]. cbn [settle foldl] in *. unfold settle in IH. rewrite IH.
  unfold settle_one. destruct (decide (fd ∈ fds)) as [H|H]; [by rewrite decide_True by set_solver|].
  destruct (decide (fd = x)) as [->|N].
  - rewrite decide_True by set_solver. destruct (verdict_of k x); [apply lookup_delete_eq|apply lookup_insert_eq].
  - rewrite decide_False by set_solver. destruct (verdict_of k x); [by apply lookup_delete_ne|by apply lookup_insert_ne].
Qed.

Lemma settle_perm k f1 f2 T : f1 ≡ₚ f2 -> settle k f1 T = settle k f2 T.
Proof.
  intros E. apply map_eq. intros fd. rewrite !settle_lookup.
  destruct (decide (fd ∈ f1)) as [H|H]; rewrite E in H; [by rewrite decide_True|by rewrite decide_False].
Qed.

(** The table of the program holds the abstract one. *)
Record daemon_ok (sk : sockets) (s : daemon) (T : table) : Prop := {
  ok_length : length (client s) = Z.to_nat FD_SETSIZE;
  ok_nodup : NoDup (used (client s));
  ok_dom : dom T = list_to_set (used (client s));
  ok_socks : forall fd, fd ∈ socket_set sk -> 0 <= fd /\ (fd ∉ dom T);
  ok_allset : allset s = socket_set sk ∪ dom T;
  ok_reg : forall i c, client s !! i = Some c -> 0 <= connfd c ->
    T !! connfd c = Some None \/ T !! connfd c = Some (Some (family c, lport c));
  ok_maxfd : maxfd s < FD_SETSIZE /\ forall fd, fd ∈ allset s -> fd <= maxfd s;
  ok_maxi : -1 <= maxi s < FD_SETSIZE /\ used (drop (Z.to_nat (maxi s + 1)) (client s)) = []
}.

Section table_facts.
Context (sk : sockets) (s : daemon) (T : table) (H : daemon_ok sk s T).

Lemma allset_pos fd : fd ∈ allset s -> 0 <= fd /\ in_set fd = true.
Proof using H.
  intros Hfd. pose proof (proj2 (ok_maxfd _ _ _ H) _ Hfd). pose proof (proj1 (ok_maxfd _ _ _ H)).
  assert (0 <= fd); [|unfold in_set; lia].
  rewrite (ok_allset _ _ _ H) in Hfd. apply elem_of_union in Hfd as [Hfd|Hfd]; [by apply (ok_socks _ _ _ H)|].
  rewrite (ok_dom _ _ _ H) in Hfd. apply elem_of_list_to_set, elem_of_used in Hfd as (? & ? & _ & _ & ?). done.
Qed.

Lemma client_dom i c : client s !! i = Some c -> 0 <= connfd c -> connfd c ∈ dom T.
Proof using H. intros Hi Hc. rewrite (ok_dom _ _ _ H). apply elem_of_list_to_set, elem_of_used. eauto. Qed.

(** The entry of a client that leaves is cleared. *)
Lemma ok_leave i c x nr tr :
  client s !! i = Some c -> 0 <= connfd c -> connfd x < 0 ->
  daemon_ok sk (Daemon (<[i := x]> (client s)) (maxi s) (maxfd s) nr (allset s ∖ {[connfd c]}) tr) (delete (connfd c) T).
Proof using H.
  intros Hi Hc Hx. pose proof (client_dom _ _ Hi Hc) as Hd.
  pose proof (used_clear connfd _ _ _ _ Hi Hc Hx) as P. pose proof (ok_nodup _ _ _ H) as N. rewrite P in N.
  apply list.NoDup_cons in N as [N1 N2].
  assert (D : dom T = {[connfd c]} ∪ list_to_set (used (<[i := x]> (client s)))).
  { rewrite (ok_dom _ _ _ H). apply set_eq. intros y. rewrite elem_of_union, elem_of_singleton, !elem_of_list_to_set, P, elem_of_cons. done. }
  constructor; cbn [client allset maxfd maxi].
  - rewrite length_insert. apply H.
  - done.
  - rewrite dom_delete_L, D. set_solver.
  - intros fd Hfd. destruct (ok_socks _ _ _ H fd Hfd). split; [done|]. rewrite dom_delete_L. set_solver.
  - rewrite (ok_allset _ _ _ H), dom_delete_L. apply set_eq. intros y.
    assert (connfd c ∉ socket_set sk) by (intros Hs; by apply (ok_socks _ _ _ H) in Hs as []). set_solver.
  - intros j d Hj Hd0. destruct (decide (j = i)) as [->|Nj].
    { rewrite list_lookup_insert_eq in Hj by by eapply lookup_lt_Some. injection Hj as <-. lia. }
    rewrite list_lookup_insert_ne in Hj by done. rewrite lookup_delete_ne; [by eapply ok_reg|].
    intros E. apply Nj. symmetry. eapply (used_unique connfd); [apply H|done..].
  - split; [apply H|]. intros fd Hfd. apply (ok_maxfd _ _ _ H). set_solver.
  - destruct (ok_maxi _ _ _ H) as [Hm Hu]. split; [done|].
    destruct (decide (i < Z.to_nat (maxi s + 1))%nat); [by rewrite drop_insert_lt|].
    destruct (not_elem_of_nil (connfd c)). rewrite <-Hu. apply elem_of_used.
    exists (i - Z.to_nat (maxi s + 1))%nat, c. rewrite lookup_drop. split; [|done]. rewrite <-Hi. f_equal. lia.
Qed.

(** A client registers a socket. *)
Lemma ok_register i c x nr tr :
  client s !! i = Some c -> 0 <= connfd c -> connfd x = connfd c ->
  daemon_ok sk (Daemon (<[i := x]> (client s)) (maxi s) (maxfd s) nr (allset s) tr)
    (<[connfd c := Some (family x, lport x)]> T).
Proof using H.
  intros Hi Hc Hx. pose proof (client_dom _ _ Hi Hc) as Hd.
  assert (U : used (<[i := x]> (client s)) = used (client s)).
  { by rewrite (used_insert connfd _ _ _ _ Hi), (used_split connfd _ _ _ Hi), Hx. }
  assert (D : dom (<[connfd c := Some (family x, lport x)]> T) = dom T) by (rewrite dom_insert_L; set_solver).
  constructor; cbn [client allset maxfd maxi]; rewrite ?D.
  - rewrite length_insert. apply H.
  - rewrite U. apply H.
  - rewrite U. apply H.
  - apply H.
  - apply H.
  - intros j d Hj Hd0. destruct (decide (j = i)) as [->|Nj].
    { rewrite list_lookup_insert_eq in Hj by by eapply lookup_lt_Some. injection Hj as <-.
      right. rewrite Hx. by rewrite lookup_insert_eq. }
    rewrite list_lookup_insert_ne in Hj by done. rewrite lookup_insert_ne; [by eapply ok_reg|].
    intros E. apply Nj. symmetry. eapply (used_unique connfd); [apply H|done..].
  - apply H.
  - destruct (ok_maxi _ _ _ H) as [Hm Hu]. split; [done|]. rewrite <-Hu.
    unfold EventLoop.used. f_equal. rewrite !fmap_drop. f_equal. rewrite list_fmap_insert, Hx.
    apply list_insert_id. by rewrite list_lookup_fmap, Hi.
Qed.
End table_facts.

(** * One client *)

Lemma icmpd_wpd_client_at s i c (P : client_t -> daemon -> Prop) (D : daemon -> Prop) :
  client s !! i = Some c -> P c s -> wpd (client_at (Z.of_nat i)) P D s.
Proof. intros H HP. unfold wpd, client_at. rewrite (proj2 (Z.ltb_ge _ _)), Nat2Z.id, H by lia. done. Qed.

Lemma icmpd_wpd_put_client s i c f (Q : unit -> daemon -> Prop) (D : daemon -> Prop) :
  client s !! i = Some c -> Q tt (set_client (<[i := f c]> (client s)) s) -> wpd (put_client (Z.of_nat i) f) Q D s.
Proof. intros H HQ. apply wpd_bind, (icmpd_wpd_client_at _ _ _ _ _ H), wpd_modify. by rewrite Nat2Z.id. Qed.

Lemma wpd_write k fd d s (Q : unit -> daemon -> Prop) (D : daemon -> Prop) :
  (forall s', writes k fd = false -> D s') -> Q tt (log (Wrote fd d) s) -> wpd (Write_ k fd d) Q D s.
Proof. intros HD HQ. apply wpd_bind, wpd_die_if; [|by intros _]. intros Hw. apply HD. by destruct (writes k fd). Qed.

Section conn.
Context (sk : sockets) (k : kernel) (D : daemon -> Prop) (HD : forall s', fails k -> D s').

Lemma icmpd_write_run fd d s (Q : unit -> daemon -> Prop) : Q tt (log (Wrote fd d) s) -> wpd (Write_ k fd d) Q D s.
Proof using HD. apply wpd_write. intros s' Hw. apply HD. do 4 right. eauto. Qed.

(** What serving the client of entry [i] leaves. *)
Definition served (i : nat) (fd : Z) (T : table) (s : daemon) (r : Z) (s' : daemon) : Prop :=
  daemon_ok sk s' (settle_one k fd T) /\ trace s' = trace s ++ conn_events k fd /\
  r = nready s - 1 /\ nready s' = nready s - 1 /\ maxi s' = maxi s /\ drop (S i) (client s') = drop (S i) (client s) /\
  is_Some (read_fds k fd).

Lemma clientdone_run i c c0 s s0 T tr r :
  daemon_ok sk s0 T -> client s0 !! i = Some c0 -> 0 <= connfd c0 -> connfd c = connfd c0 ->
  s = Daemon (<[i := c]> (client s0)) (maxi s0) (maxfd s0) (nready s0) (allset s0) (trace s0 ++ tr) ->
  verdict_of k (connfd c0) = Leaves -> is_Some (read_fds k (connfd c0)) ->
  conn_events k (connfd c0) = tr ++ Closed (connfd c0) :: close_received r ->
  wpd (clientdone (Z.of_nat i) (connfd c0) r) (served i (connfd c0) T s0) D s.
Proof using HD.
  intros H Hi Hc E -> Hv Hsome Htr. pose proof (lookup_lt_Some _ _ _ Hi) as Hlt. unfold clientdone, Close_, FD_CLR.
  apply wpd_bind, wpd_modify, wpd_bind.
  set (s1 := log _ _). assert (W : forall s2, s2 = Daemon (client s1) (maxi s1) (maxfd s1) (nready s1) (allset s1)
      (trace s0 ++ conn_events k (connfd c0)) ->
    wpd ((if in_set (connfd c0) then modify (fun s => set_allset (allset s ∖ {[connfd c0]}) s) else undef "FD_CLR");;;
         put_client (Z.of_nat i) (with_connfd (-1));;; return_nready) (served i (connfd c0) T s0) D s2).
  { intros s2 ->. rewrite (proj2 (allset_pos _ _ _ H (connfd c0) ltac:(rewrite (ok_allset _ _ _ H); apply elem_of_union_r; by eapply client_dom))).
    apply wpd_bind, wpd_modify, wpd_bind, (icmpd_wpd_put_client _ _ c); [by apply list_lookup_insert_eq|].
    apply wpd_bind, wpd_modify, wpd_gets. unfold served, settle_one. rewrite Hv. split_and!; try done.
    - unfold set_nready, set_client, set_allset, s1, log. cbn [client maxi maxfd nready allset trace].
      rewrite list_insert_insert_eq. by apply (ok_leave _ s0).
    - cbn. by rewrite !drop_insert_lt by lia. }
  unfold close_received in Htr. destruct (r >=? 0).
  - apply wpd_modify, W. unfold s1, log. cbn. by rewrite Htr, <-!app_assoc.
  - apply wpd_ret, W. unfold s1, log. cbn. by rewrite Htr, <-!app_assoc.
Qed.

Lemma clienterr_run i c c0 s s0 T tr r :
  daemon_ok sk s0 T -> client s0 !! i = Some c0 -> 0 <= connfd c0 -> connfd c = connfd c0 ->
  s = Daemon (<[i := c]> (client s0)) (maxi s0) (maxfd s0) (nready s0) (allset s0) (trace s0 ++ tr) ->
  verdict_of k (connfd c0) = Leaves -> is_Some (read_fds k (connfd c0)) ->
  conn_events k (connfd c0) = tr ++ Wrote (connfd c0) (str "0") :: Closed (connfd c0) :: close_received r ->
  wpd (clienterr k (Z.of_nat i) (connfd c0) r) (served i (connfd c0) T s0) D s.
Proof using HD.
  intros H Hi Hc E -> Hv Hsome Htr. apply wpd_bind, icmpd_write_run.
  eapply (clientdone_run _ c); try done; [|rewrite Htr; by rewrite (cons_middle _ tr), app_assoc].
  unfold log. cbn. by rewrite <-app_assoc.
Qed.

Lemma readable_conn_run i c s T :
  daemon_ok sk s T -> client s !! i = Some c -> 0 <= connfd c ->
  wpd (readable_conn k (Z.of_nat i)) (served i (connfd c) T s) D s.
Proof using HD.
  intros H Hi Hc. pose proof (lookup_lt_Some _ _ _ Hi) as Hlt. unfold readable_conn.
  apply wpd_bind, (icmpd_wpd_client_at _ _ _ _ _ Hi).
  assert (Hself : forall tr, Daemon (client s) (maxi s) (maxfd s) (nready s) (allset s) tr =
    Daemon (<[i := c]> (client s)) (maxi s) (maxfd s) (nready s) (allset s) tr) by by rewrite list_insert_id.
  destruct (read_fds k (connfd c)) as [[n r]|] eqn:Er; [|apply HD; do 4 right; eauto].
  assert (Hsome : is_Some (read_fds k (connfd c))) by by rewrite Er.
  apply wpd_bind, wpd_modify. unfold log at 1. rewrite Hself.
  assert (Hv : verdict_of k (connfd c) = verdict_of k (connfd c)) by done. unfold verdict_of at 2 in Hv. rewrite Er in Hv.
  assert (He : conn_events k (connfd c) = conn_events k (connfd c)) by done. unfold conn_events at 2 in He. rewrite Er in He.
  destruct n as [|n]; cbn [Nat.eqb].
  { by eapply (clientdone_run _ c). }
  destruct (r <? 0) eqn:Hr.
  { eapply (clienterr_run _ c); try done. by rewrite He, Hv. }
  destruct (getsockname k r) as [[fam port]|]; [|eapply (clienterr_run _ c); try done; by rewrite He, Hv].
  apply wpd_bind, (icmpd_wpd_put_client _ _ c); [by apply list_lookup_insert_eq|].
  apply wpd_bind, (icmpd_wpd_put_client _ _ (with_family fam c)); [by cbn; rewrite list_insert_insert_eq; apply list_lookup_insert_eq|].
  unfold set_client. cbn [client maxi maxfd nready allset trace]. rewrite !list_insert_insert_eq.
  assert (Reg : forall port', verdict_of k (connfd c) = Registers fam port' ->
    wpd (Write_ k (connfd c) (str "1");;; Close_ r;;; return_nready) (served i (connfd c) T s) D
      (Daemon (<[i := Client (connfd c) fam port']> (client s)) (maxi s) (maxfd s) (nready s) (allset s)
         (trace s ++ [Got_fd (connfd c) (S n) r]))).
  { intros port' V. apply wpd_bind, icmpd_write_run, wpd_bind, wpd_modify, wpd_bind, wpd_modify, wpd_gets.
    unfold served, settle_one. rewrite V. split_and!; try done.
    - by apply (ok_register _ s _ H i c (Client (connfd c) fam port')).
    - cbn. by rewrite He, V, <-!app_assoc.
    - cbn. by rewrite drop_insert_lt by lia. }
  apply wpd_bind. destruct (port =? 0) eqn:Ep; cbn [negb] in Hv.
  - apply wpd_bind, (icmpd_wpd_client_at _ _ (Client (connfd c) fam port)); [by apply list_lookup_insert_eq|].
    apply wpd_bind, (icmpd_wpd_put_client _ _ (Client (connfd c) fam port)); [by apply list_lookup_insert_eq|].
    apply wpd_ret. unfold set_client. cbn [client maxi maxfd nready allset trace family]. rewrite list_insert_insert_eq, negb_involutive.
    destruct (bind_wild k r fam <=? 0); [|by apply Reg].
    eapply (clienterr_run _ (Client (connfd c) fam (bind_wild k r fam))); try done. by rewrite He, Hv.
  - apply wpd_ret. cbn [negb]. by apply Reg.
Qed.
End conn.

(** * The loop over the clients *)

Abbreviation todo := (EventLoop.todo connfd).

Lemma conn_loop_run sk k rset n i s T (D : daemon -> Prop) :
  (forall s', fails k -> D s') ->
  daemon_ok sk s T -> (forall fd, fd ∈ rset -> 0 <= fd) ->
  (i + n <= length (client s))%nat -> used (drop (i + n) (client s)) = [] ->
  nready s = Z.of_nat (length (todo rset i (client s))) ->
  wpd (conn_loop k rset n (Z.of_nat i))
    (fun _ s' => daemon_ok sk s' (settle k (todo rset i (client s)) T) /\
       trace s' = trace s ++ concat (conn_events k <$> todo rset i (client s)) /\
       Forall (fun fd => is_Some (read_fds k fd)) (todo rset i (client s))) D s.
Proof.
  intros HD H Hr. revert i s T H. induction n as [|n IH]; intros i s T H Hlen Hend Hnr.
  { assert (todo rset i (client s) = []) as -> by (unfold EventLoop.todo; by rewrite Nat.add_0_r in Hend; rewrite Hend).
    cbn [conn_loop]. apply wpd_ret. cbn. rewrite app_nil_r. split_and!; [done..|constructor]. }
  destruct (lookup_lt_is_Some_2 (client s) i ltac:(lia)) as [c Hc]. cbn [conn_loop].
  apply wpd_bind, (icmpd_wpd_client_at _ _ _ _ _ Hc). replace (Z.of_nat i + 1) with (Z.of_nat (S i)) by lia.
  pose proof (todo_step connfd rset Hr i _ _ Hc) as Hstep.
  destruct (Z.ltb_spec (connfd c) 0) as [Hneg|Hpos].
  { rewrite decide_False in Hstep by (intros ?%Hr; lia). cbn [app] in Hstep. rewrite Hstep in *.
    apply IH; try done; [lia|by rewrite Nat.add_succ_l, <-Nat.add_succ_r]. }
  unfold FD_ISSET. rewrite (proj2 (allset_pos _ _ _ H (connfd c) ltac:(rewrite (ok_allset _ _ _ H); apply elem_of_union_r; by eapply client_dom))).
  apply wpd_bind, wpd_ret. destruct (decide (connfd c ∈ rset)) as [Hin|Hout].
  2:{ rewrite bool_decide_false by done. cbn [app] in Hstep. rewrite Hstep in *.
    apply IH; try done; [lia|by rewrite Nat.add_succ_l, <-Nat.add_succ_r]. }
  rewrite bool_decide_true by done. apply wpd_bind.
  eapply wpd_mono; [by apply (readable_conn_run sk k D HD i c s T)|].
  intros r s1 (H1 & Ht1 & -> & Hn1 & _ & Hd1 & Hsome).
  assert (Htd : todo rset (S i) (client s1) = todo rset (S i) (client s)) by (unfold EventLoop.todo; by rewrite Hd1).
  rewrite Hstep in Hnr |- *. cbn [app length] in Hnr |- *.
  change (settle k (connfd c :: ?l) T) with (settle k l (settle_one k (connfd c) T)).
  cbn [fmap list_fmap concat]. destruct (Z.leb_spec (nready s - 1) 0) as [Hz|Hz].
  - assert (todo rset (S i) (client s) = []) as -> by (apply nil_length_inv; lia).
    apply wpd_ret. cbn. rewrite app_nil_r. split_and!; [done..|by repeat constructor].
  - rewrite <-Htd. eapply wpd_mono; [apply (IH (S i) s1); try done|].
    + rewrite (ok_length _ _ _ H1), <-(ok_length _ _ _ H). lia.
    + rewrite <-Hend. replace (S i + n)%nat with (S i + n)%nat by done.
      replace (i + S n)%nat with (S i + n)%nat by lia. by rewrite <-!drop_drop, Hd1.
    + rewrite Htd, Hn1, Hnr. lia.
    + intros ? s2 (H2 & Ht2 & Hall). split; [done|]. rewrite Htd in Hall |- *. split; [|by constructor].
      by rewrite Ht2, Ht1, Htd, <-app_assoc.
Qed.

(** * A new connection *)

Lemma icmpd_slot_loop_run n i fd s (D : daemon -> Prop) :
  (i + n = length (client s))%nat -> (exists j c, (i <= j)%nat /\ client s !! j = Some c /\ connfd c < 0) ->
  wpd (slot_loop n (Z.of_nat i) fd)
    (fun r s' => exists j c, r = Z.of_nat j /\ client s !! j = Some c /\ connfd c < 0 /\
       s' = set_client (<[j := with_connfd fd c]> (client s)) s) D s.
Proof.
  revert i. induction n as [|n IH]; intros i Hlen (j & c & Hij & Hj & Hc).
  { apply lookup_lt_Some in Hj. lia. }
  destruct (lookup_lt_is_Some_2 (client s) i ltac:(lia)) as [d Hd]. cbn [slot_loop].
  apply wpd_bind, (icmpd_wpd_client_at _ _ _ _ _ Hd). destruct (Z.ltb_spec (connfd d) 0) as [Hneg|Hpos].
  - apply wpd_bind, (icmpd_wpd_put_client _ _ d); [done|]. apply wpd_ret. eauto 8.
  - replace (Z.of_nat i + 1) with (Z.of_nat (S i)) by lia. apply IH; [lia|]. exists j, c. split; [|done].
    destruct (decide (i = j)) as [->|]; [|lia]. rewrite Hd in Hj. injection Hj as ->. lia.
Qed.

(** There are not as many descriptors as entries: a free one is always left. *)
Lemma icmpd_free_entry sk s T : daemon_ok sk s T -> exists j c, client s !! j = Some c /\ connfd c < 0.
Proof.
  intros H. apply (used_free connfd). rewrite (ok_length _ _ _ H).
  assert (L : listenfd sk ∈ socket_set sk) by (unfold socket_set; set_solver).
  assert (N : listenfd sk ∉ used (client s)).
  { intros N. apply (ok_socks _ _ _ H) in L as [_ L]. apply L. rewrite (ok_dom _ _ _ H). by apply elem_of_list_to_set. }
  assert (Hl : listenfd sk :: used (client s) = EventLoop.used connfd (Client (listenfd sk) 0 0 :: client s)).
  { rewrite used_cons. cbn [connfd]. by rewrite decide_True by by apply (ok_socks _ _ _ H). }
  assert (length (listenfd sk :: used (client s)) <= Z.to_nat FD_SETSIZE)%nat; [|cbn in *; lia].
  rewrite Hl. apply used_length_range; rewrite <-Hl.
  - constructor; [done|apply H].
  - intros fd Hfd. assert (Ha : fd ∈ allset s).
    { rewrite (ok_allset _ _ _ H), (ok_dom _ _ _ H). apply elem_of_cons in Hfd as [->|Hfd]; set_solver. }
    apply (allset_pos _ _ _ H) in Ha as [_ Hi]. unfold in_set in Hi. lia.
Qed.

Lemma readable_listen_run sk k s T (D : daemon -> Prop) :
  (forall s', fails k -> D s') -> daemon_ok sk s T -> (newfd k ∉ socket_set sk ∪ dom T) -> newfd k < FD_SETSIZE ->
  wpd (readable_listen k)
    (fun r s' => daemon_ok sk s' (<[newfd k := None]> T) /\ trace s' = trace s ++ [Accepted (newfd k)] /\
       r = nready s - 1 /\ nready s' = nready s - 1) D s.
Proof.
  intros HD H Hnew Hlim. unfold readable_listen. apply wpd_bind, wpd_die_if; [intros ?; apply HD; right; left; lia|].
  intros Hpos. apply wpd_bind, wpd_modify, wpd_bind. set (s0 := log _ s).
  eapply wpd_mono; [apply (icmpd_slot_loop_run _ 0)|].
  { by rewrite <-(ok_length _ _ _ H). }
  { destruct (icmpd_free_entry _ _ _ H) as (j & c & ? & ?). exists j, c. split; [lia|done]. }
  intros i s1 (j & c & -> & Hj & Hc & ->). cbn in Hj. pose proof (lookup_lt_Some _ _ _ Hj) as Hlt.
  rewrite (ok_length _ _ _ H) in Hlt. rewrite (proj2 (Z.eqb_neq (Z.of_nat j) _)) by (unfold FD_SETSIZE in *; lia).
  apply wpd_bind. unfold FD_SET. replace (in_set (newfd k)) with true by (unfold in_set; lia).
  apply wpd_modify, wpd_bind, wpd_modify, wpd_bind, wpd_modify, wpd_bind, wpd_modify, wpd_gets.
  set (x := with_connfd (newfd k) c).
  assert (P : used (<[j := x]> (client s)) ≡ₚ newfd k :: used (client s)) by (apply (used_fill connfd _ _ c x); [done|done|cbn; lia]).
  destruct (ok_maxfd _ _ _ H) as [Hm1 Hm2]. destruct (ok_maxi _ _ _ H) as [Hi1 Hi2].
  set (s2 := if _ >? _ then _ else _).
  assert (E : client s2 = <[j := x]> (client s) /\ allset s2 = {[newfd k]} ∪ allset s /\ nready s2 = nready s /\
    maxfd s2 = Z.max (newfd k) (maxfd s) /\ maxi s2 = Z.max (Z.of_nat j) (maxi s) /\ trace s2 = trace s ++ [Accepted (newfd k)]).
  { subst s2 s0. unfold log. repeat case_match; cbn in *; split_and!; try done; lia. }
  clearbody s2. destruct E as (E1 & E2 & E3 & E4 & E5 & E6).
  unfold set_nready. cbn [nready trace client maxi maxfd allset]. rewrite E3, E6. split_and!; try done.
  assert (Hdom : dom (<[newfd k := None]> T) = {[newfd k]} ∪ dom T) by by rewrite dom_insert_L.
  constructor; cbn [nready trace client maxi maxfd allset]; rewrite ?E1, ?E2, ?E4, ?E5.
  - rewrite length_insert. apply H.
  - rewrite P. constructor; [|apply H]. intros N. apply Hnew. rewrite (ok_dom _ _ _ H). set_solver.
  - rewrite Hdom, (ok_dom _ _ _ H). apply set_eq. intros y. rewrite elem_of_union, elem_of_singleton, !elem_of_list_to_set, P, elem_of_cons. done.
  - intros fd Hfd. destruct (ok_socks _ _ _ H fd Hfd). split; [done|]. rewrite Hdom. set_solver.
  - rewrite Hdom, (ok_allset _ _ _ H). set_solver.
  - intros i d Hd Hd0. destruct (decide (i = j)) as [->|Ni].
    { rewrite list_lookup_insert_eq in Hd by by eapply lookup_lt_Some. injection Hd as <-. left. apply lookup_insert_eq. }
    rewrite list_lookup_insert_ne in Hd by done. rewrite lookup_insert_ne; [by eapply ok_reg|].
    intros E. apply Hnew, elem_of_union_r. rewrite E. by eapply (client_dom _ _ _ H).
  - split; [lia|]. intros fd [->%elem_of_singleton|Hfd]%elem_of_union; [lia|]. apply Hm2 in Hfd. lia.
  - split; [lia|]. rewrite drop_insert_lt by lia. apply (used_drop_nil connfd _ _ _ Hi2). lia.
Qed.

(** * The raw sockets *)

Lemma parse_v4_safe buf n : length buf = MAXLINE -> safe (parse_v4 buf n).
Proof.
  intros Hl. assert (L : Z.of_nat (length buf) = 4096) by by rewrite Hl.
  unfold parse_v4. apply safe_field; [lia|]. intros c. pose proof (hl_bytes_range c). apply safe_die_if, safe_field; [lia|].
  intros type. apply safe_field; [lia|]. intros code. case_match; [|done].
  apply safe_die_if, safe_field; [lia|]. intros c2. pose proof (hl_bytes_range c2).
  apply safe_field; [lia|]. intros p. case_match; [|done].
  apply safe_field16; [lia|]. intros sport. apply safe_fields; [lia|]. intros addr. by apply safe_fields; [lia|].
Qed.

Lemma parse_v6_safe buf n : length buf = MAXLINE -> safe (parse_v6 buf n).
Proof.
  intros Hl. assert (L : Z.of_nat (length buf) = 4096) by by rewrite Hl.
  unfold parse_v6. apply safe_die_if, safe_field; [lia|]. intros type. apply safe_field; [lia|]. intros code.
  case_match; [|done]. apply safe_die_if, safe_field; [lia|]. intros p. case_match; [|done].
  apply safe_field16; [lia|]. intros sport. apply safe_fields; [lia|]. intros addr. by apply safe_fields; [lia|].
Qed.

(** Filling the message twice changes nothing. *)
Definition err_bytes (r : report) (frame : bytes) : bytes :=
  int_bytes 4 (icmpd_errno r) ++ [icmpd_type r; icmpd_code r] ++ slice 6 2 frame ++
  int_bytes 4 (Z.of_nat (length (icmpd_dest r))) ++ slice 12 4 frame ++
  icmpd_dest r ++ drop (16 + length (icmpd_dest r)) frame.

Lemma fill_err_bytes r frame : (16 + length (icmpd_dest r) <= length frame)%nat -> fill_err r frame = err_bytes r frame.
Proof.
  intros H. do 16 (destruct frame as [|? frame]; [cbn in H; lia|]). cbn [length] in H.
  unfold fill_err, err_bytes, splice, slice. cbn [int_bytes length take drop Nat.sub Nat.add replicate app].
  by rewrite firstn_O.
Qed.

Lemma fill_err_again r frame : (16 + length (icmpd_dest r) <= length frame)%nat ->
  fill_err r (fill_err r frame) = fill_err r frame.
Proof.
  intros H. rewrite (fill_err_bytes r frame) by done. rewrite fill_err_bytes.
  - do 16 (destruct frame as [|? frame]; [cbn in H; lia|]). cbn [length] in H.
    unfold err_bytes, slice. cbn [int_bytes length take drop Nat.add app].
    rewrite !firstn_O. cbn [app]. by rewrite drop_app_length.
  - do 16 (destruct frame as [|? frame]; [cbn in H; lia|]). cbn [length] in H.
    unfold err_bytes, slice. cbn [int_bytes length take drop Nat.add app]. rewrite firstn_O. cbn [app length]. rewrite length_app, length_drop. lia.
Qed.

(** The addresses built from a port and an address. *)
Lemma dest_v4_bytes p a : length p = 2%nat -> length a = 4%nat -> dest_v4 p a = [16; 2] ++ p ++ a ++ replicate 8 0.
Proof. intros Hp Ha. do 2 (destruct p as [|? p]; [done|]). do 4 (destruct a as [|? a]; [done|]). by destruct p, a. Qed.

Lemma dest_v6_bytes p a : length p = 2%nat -> length a = 16%nat ->
  dest_v6 p a = [28; 30] ++ p ++ replicate 4 0 ++ a ++ replicate 4 0.
Proof.
  intros Hp Ha. do 2 (destruct p as [|? p]; [done|]). do 16 (destruct a as [|? a]; [done|]). by destruct p, a.
Qed.

Lemma fields_length buf i n l : fields buf i n tt = Ret l tt -> length l = n.
Proof.
  unfold fields. destruct (_ || _) eqn:E; [done|]. apply orb_false_iff in E as [E1 E2].
  intros H. change (Ret (slice (Z.to_nat i) n buf) tt = Ret l tt) in H. injection H as <-.
  unfold slice. rewrite length_take, length_drop. lia.
Qed.

Ltac step_inv E := apply bind_ret_inv in E as (? & [] & ?Hs & E).

Lemma parse_v4_dest buf n port r : parse_v4 buf n tt = Ret (Some (port, r)) tt -> length (icmpd_dest r) = 16%nat.
Proof.
  intros E. unfold parse_v4 in E. do 4 step_inv E. case_match; [|done]. do 3 step_inv E. case_match; [|done].
  do 3 step_inv E. apply fields_length in Hs7, Hs8. unfold ret in E. injection E as _ <-. cbn [icmpd_dest].
  by rewrite dest_v4_bytes, !length_app, Hs7, Hs8.
Qed.

Lemma parse_v6_dest buf n port r : parse_v6 buf n tt = Ret (Some (port, r)) tt -> length (icmpd_dest r) = 28%nat.
Proof.
  intros E. unfold parse_v6 in E. do 3 step_inv E. case_match; [|done]. do 2 step_inv E. case_match; [|done].
  do 3 step_inv E. apply fields_length in Hs5, Hs6. unfold ret in E. injection E as _ <-. cbn [icmpd_dest].
  by rewrite dest_v6_bytes, !length_app, Hs5, Hs6.
Qed.

(** The loop tells exactly the entries that match. *)
Definition matches (fam sport : Z) (c : client_t) : bool := (connfd c >=? 0) && (family c =? fam) && (lport c =? sport).
Definition told (fam sport : Z) (l : list client_t) : list Z := connfd <$> filter (fun c => matches fam sport c = true) l.

Lemma notify_loop_run k fam sport r n i frame s (D : daemon -> Prop) :
  (forall fd s', writes k fd = false -> D s') -> (i + n <= length (client s))%nat -> (16 + length (icmpd_dest r) <= length frame)%nat ->
  wpd (notify_loop k fam sport r n (Z.of_nat i) frame)
    (fun _ s' => s' = Daemon (client s) (maxi s) (maxfd s) (nready s) (allset s)
       (trace s ++ ((fun c => Wrote c (fill_err r frame)) <$> told fam sport (take n (drop i (client s)))))) D s.
Proof.
  intros HD. revert i s frame. induction n as [|n IH]; intros i s frame Hlen Hf.
  { cbn. rewrite app_nil_r. by destruct s. }
  destruct (lookup_lt_is_Some_2 (client s) i ltac:(lia)) as [c Hc]. cbn [notify_loop].
  apply wpd_bind, (icmpd_wpd_client_at _ _ _ _ _ Hc). replace (Z.of_nat i + 1) with (Z.of_nat (S i)) by lia.
  assert (Hs : take (S n) (drop i (client s)) = c :: take n (drop (S i) (client s))).
  { by rewrite (drop_S _ _ _ Hc). }
  unfold told. rewrite Hs, filter_cons. fold (matches fam sport c). destruct (matches fam sport c) eqn:Hm.
  - rewrite decide_True by done. cbn [fmap list_fmap]. apply wpd_bind, wpd_write; [apply HD|].
    eapply wpd_mono; [apply IH; cbn; try done; [lia|]|].
    + rewrite fill_err_bytes by done. do 16 (destruct frame as [|? frame]; [cbn in Hf; lia|]). cbn [length] in Hf.
      unfold err_bytes, slice. cbn [int_bytes length take drop Nat.add app]. rewrite firstn_O. cbn [app length].
      rewrite length_app, length_drop. lia.
    + intros ? s' ->. cbn. rewrite <-app_assoc, fill_err_again by done. done.
  - rewrite decide_False by done. eapply wpd_mono; [apply IH; [lia|done]|]. done.
Qed.

Lemma told_receivers sk s T fam sport : daemon_ok sk s T -> receivers T fam sport (told fam sport (take (Z.to_nat (maxi s + 1)) (client s))).
Proof.
  intros H. destruct (ok_maxi _ _ _ H) as [Hm Hu].
  assert (Hin : forall fd, fd ∈ told fam sport (take (Z.to_nat (maxi s + 1)) (client s)) <->
    exists i c, client s !! i = Some c /\ connfd c = fd /\ matches fam sport c = true).
  { intros fd. unfold told. rewrite list_elem_of_fmap. split.
    - intros (c & -> & Hc). apply list_elem_of_filter in Hc as [Hc [i Hi]%list_elem_of_lookup].
      apply lookup_take_Some in Hi as [Hi _]. eauto.
    - intros (i & c & Hi & <- & Hc). exists c. split; [done|]. apply list_elem_of_filter. split; [done|].
      assert (Hpos : 0 <= connfd c) by (unfold matches in Hc; lia).
      apply list_elem_of_lookup. exists i. apply lookup_take_Some. split; [done|].
      destruct (decide (i < Z.to_nat (maxi s + 1))%nat) as [|Nl]; [done|]. destruct (not_elem_of_nil (connfd c)).
      rewrite <-Hu. apply elem_of_used. exists (i - Z.to_nat (maxi s + 1))%nat, c. rewrite lookup_drop.
      split; [|done]. rewrite <-Hi. f_equal. lia. }
  constructor.
  - pose proof (ok_nodup _ _ _ H) as N. rewrite <-(take_drop (Z.to_nat (maxi s + 1)) (client s)), used_app in N.
    apply list.NoDup_app in N as (N & _). revert N. generalize (take (Z.to_nat (maxi s + 1)) (client s)). intros l N.
    unfold told. induction l as [|c l IH]; [constructor|]. rewrite filter_cons.
    rewrite used_cons in N. apply list.NoDup_app in N as (_ & N1 & N2). destruct (decide (matches fam sport c = true)) as [Hc|Hc]; [|by apply IH].
    cbn [fmap list_fmap]. constructor; [|by apply IH]. assert (Hpos : 0 <= connfd c) by (unfold matches in Hc; lia).
    intros Hi. rewrite decide_True in N1 by done. apply (N1 (connfd c)); [set_solver|].
    apply list_elem_of_fmap in Hi as (d & Hd & Hi). apply list_elem_of_filter in Hi as [_ [j Hj]%list_elem_of_lookup].
    rewrite Hd in Hpos |- *. apply elem_of_used. eauto.
  - intros fd Hfd. apply Hin. assert (Hd : fd ∈ dom T) by by eapply elem_of_dom_2.
    rewrite (ok_dom _ _ _ H) in Hd. apply elem_of_list_to_set, elem_of_used in Hd as (i & c & Hi & <- & Hc).
    exists i, c. split_and!; try done. destruct (ok_reg _ _ _ H i c Hi Hc) as [E|E]; rewrite Hfd in E; [done|].
    injection E as -> ->. unfold matches. lia.
  - intros fd (i & c & Hi & <- & Hc)%Hin. assert (0 <= connfd c /\ family c = fam /\ lport c = sport) as (Hpos & <- & <-) by (unfold matches in Hc; lia).
    destruct (ok_reg _ _ _ H i c Hi Hpos); auto.
Qed.

Lemma wpd_safe {A} (m : M unit A) (Q : A -> daemon -> Prop) (D : daemon -> Prop) s :
  safe m -> (returns m tt = false -> D s) -> (forall a, m tt = Ret a tt -> Q a s) ->
  wpd (zoom (fun _ => tt) (fun _ s => s) m) Q D s.
Proof.
  unfold safe, returns, wpd, zoom. intros Hs Hd Hq. destruct (m tt) as [a []|msg []| |]; try done; [by apply Hq|by apply Hd].
Qed.

Section raw.
Context (sk : sockets) (k : kernel) (D : daemon -> Prop) (HD : forall s', fails k -> D s').
Context (fd fam : Z) (datagram : option bytes) (parse : bytes -> Z -> M unit (option (Z * report))).
Hypothesis safe_parse : forall buf n, length buf = MAXLINE -> safe (parse buf n).
Hypothesis parse_dest : forall buf n port r, parse buf n tt = Ret (Some (port, r)) tt -> (length (icmpd_dest r) <= 28)%nat.
Hypothesis parse_fails : rejected k datagram parse -> fails k.
Hypothesis buf_size : length (stack_buf k) = MAXLINE.
Hypothesis err_size : length (stack_err k) = sizeof_icmpd_err.

Lemma readable_raw_run s T :
  daemon_ok sk s T -> ready k fd = true ->
  wpd (readable_raw k datagram fam parse)
    (fun r s' => daemon_ok sk s' T /\ r = nready s - 1 /\ nready s' = nready s - 1 /\
       exists e, tells k T fd datagram fam parse e /\ trace s' = trace s ++ e) D s.
Proof using All.
  intros H Hr. unfold readable_raw. unfold rejected in parse_fails. destruct datagram as [d|]; [|by apply HD, parse_fails].
  assert (Hb : length (splice 0 (take MAXLINE d) (stack_buf k)) = MAXLINE).
  { rewrite splice_length; [done|]. rewrite length_take. lia. }
  apply wpd_bind, wpd_safe; [by apply safe_parse|by intros Hf; apply HD, parse_fails|].
  intros [[sport r]|] Hp; apply wpd_bind, wpd_gets, wpd_bind.
  - pose proof (parse_dest _ _ _ _ Hp) as Hdest. destruct (ok_maxi _ _ _ H) as [Hm _]. pose proof (ok_length _ _ _ H) as Hl.
    eapply wpd_mono; [apply (notify_loop_run k _ _ _ _ 0)|]; [|  |rewrite err_size; unfold sizeof_icmpd_err; lia|].
    { intros fd' s' Hw. apply HD. do 4 right. eauto. }
    { unfold FD_SETSIZE in *. lia. }
    intros _ s' ->. apply wpd_bind, wpd_modify, wpd_gets. split_and!; try done.
    + destruct H. by constructor.
    + eexists. split; [|done]. eapply tells_error; [done..|]. rewrite drop_0. by eapply told_receivers.
  - apply wpd_ret, wpd_bind, wpd_modify, wpd_gets. split_and!; try done.
    + destruct H. by constructor.
    + exists []. split; [by eapply tells_other|]. by rewrite app_nil_r.
Qed.
End raw.

(** * A round *)

(** Work done when a descriptor is ready; when the count has come to nothing,
    nothing else is. *)
Lemma if_ready_run fd (rset left : gset Z) s (Q : daemon -> Prop) body rest (D : daemon -> Prop) :
  in_set fd = true -> (fd ∈ rset <-> fd ∈ left) -> nready s = Z.of_nat (size left) ->
  (fd ∈ left -> wpd body (fun r s' => r = nready s - 1 /\ (left ∖ {[fd]} = ∅ -> Q s') /\
     (nready s - 1 = Z.of_nat (size (left ∖ {[fd]})) -> wpd rest (fun _ => Q) D s')) D s) ->
  ((fd ∉ left) -> wpd rest (fun _ => Q) D s) ->
  wpd (if_ready fd rset body rest) (fun _ => Q) D s.
Proof.
  intros Hs Hin Hn Hb Hr. unfold if_ready, FD_ISSET. rewrite Hs. apply wpd_bind, wpd_ret.
  destruct (decide (fd ∈ left)) as [Hl|Hl].
  2:{ rewrite bool_decide_false by tauto. by apply Hr. }
  rewrite bool_decide_true by tauto. apply wpd_bind. eapply wpd_mono; [by apply Hb|].
  assert (Hsz : Z.of_nat (size left) - 1 = Z.of_nat (size (left ∖ {[fd]}))).
  { rewrite size_difference, size_singleton; [|set_solver].
    assert (size left <> 0%nat); [|lia]. apply size_non_empty_iff. set_solver. }
  intros r s' (-> & He & Hk). destruct (Z.leb_spec (nready s - 1) 0) as [Hz|Hz].
  - apply wpd_ret, He, leibniz_equiv, size_empty_iff. lia.
  - apply Hk. lia.
Qed.

Section one_round.
Context (sk : sockets) (k : kernel) (s : daemon) (T : table).
Context (H : daemon_ok sk s T) (F : fits sk k T) (N : NoDup [listenfd sk; fd4 sk; fd6 sk]).
Let R := select k (maxfd s + 1) (allset s).
Let T1 := arrive sk k T.
Abbreviation D := (fun _ : daemon => fails k).

Lemma fails_D : forall s', fails k -> D s'.
Proof using Type. done. Qed.

Lemma ready_spec fd : fd ∈ R <-> (fd ∈ socket_set sk \/ fd ∈ dom T) /\ ready k fd = true.
Proof using H.
  unfold R, select. rewrite elem_of_filter. pose proof (proj2 (ok_maxfd _ _ _ H) fd) as Hm.
  pose proof (ok_allset _ _ _ H) as Ha. rewrite Ha in Hm |- *. rewrite elem_of_union in *. intuition lia.
Qed.

Lemma client_not_socket fd : fd ∈ dom T -> fd ∉ socket_set sk.
Proof using H. intros Hd Hs. by apply (ok_socks _ _ _ H) in Hs as []. Qed.

(** What happens from the point on where the clients are served, where the
    socket for ICMPv6 is read, and where that for ICMP is read; [tr] is the trace
    before. *)
Definition after_conns (tr : list event) (s2 : daemon) : Prop :=
  daemon_ok sk s2 (after sk k T) /\
  exists fds, fds ≡ₚ elements (ready_clients k T) /\ trace s2 = tr ++ concat (conn_events k <$> fds) /\
    Forall (fun fd => is_Some (read_fds k fd)) fds.
Definition after_v6 (tr : list event) (s2 : daemon) : Prop :=
  exists e6, tells k T1 (fd6 sk) (datagram6 k) AF_INET6 parse_v6 e6 /\ after_conns (tr ++ e6) s2.
Definition after_v4 (tr : list event) (s2 : daemon) : Prop :=
  exists e4, tells k T1 (fd4 sk) (datagram4 k) AF_INET parse_v4 e4 /\ after_v6 (tr ++ e4) s2.

Lemma nothing_left s1 : daemon_ok sk s1 T1 -> ready_clients k T = ∅ -> after_conns (trace s1) s1.
Proof using Type.
  intros H1 E. unfold after_conns, after. rewrite E, elements_empty. split; [done|]. exists []. rewrite app_nil_r. by split_and!.
Qed.

Lemma conn_phase s1 :
  daemon_ok sk s1 T1 -> nready s1 = Z.of_nat (size (ready_clients k T)) ->
  wpd (let* m := gets maxi in conn_loop k R (Z.to_nat (m + 1)) 0) (fun _ => after_conns (trace s1)) D s1.
Proof using All.
  intros H1 Hn. destruct (ok_maxi _ _ _ H1) as [Hm1 Hm2]. pose proof (ok_length _ _ _ H1) as Hl.
  assert (Hr : forall fd, fd ∈ R -> 0 <= fd).
  { intros fd Hfd. apply (allset_pos _ _ _ H). by apply elem_of_filter in Hfd as [_ ?]. }
  assert (P : todo R 0 (client s1) ≡ₚ elements (ready_clients k T)).
  { apply NoDup_Permutation; [apply list.NoDup_filter; rewrite drop_0; apply H1|apply NoDup_elements|]. intros x.
    unfold EventLoop.todo. rewrite drop_0, list_elem_of_filter, elem_of_elements, ready_spec. unfold ready_clients.
    rewrite elem_of_filter, <-(elem_of_list_to_set (C := gset Z)), <-(ok_dom _ _ _ H1). pose proof (fits_new _ _ _ F) as Fn.
    pose proof (fun Hx => proj2 (ok_socks _ _ _ H1 x Hx)) as Hso. pose proof (client_not_socket x).
    unfold T1, arrive in Hso |- *. destruct (ready k (listenfd sk)); [rewrite dom_insert_L in *; set_solver|tauto]. }
  apply wpd_bind, wpd_gets. eapply wpd_mono; [apply (conn_loop_run sk k R _ 0 s1 T1); try done|].
  - unfold FD_SETSIZE in *. lia.
  - rewrite P. done.
  - intros ? s2 (H2 & Ht & Hsome). unfold after_conns, after. rewrite <-(settle_perm k _ _ _ P). eauto.
Qed.

(** Both raw sockets are read the same way. *)
Lemma raw_phase fd fam datagram parse (rset left : gset Z) (Q : list event -> daemon -> Prop) rest s1 :
  (forall buf n, length buf = MAXLINE -> safe (parse buf n)) ->
  (forall buf n port r, parse buf n tt = Ret (Some (port, r)) tt -> (length (icmpd_dest r) <= 28)%nat) ->
  (rejected k datagram parse -> fails k) ->
  fd ∈ socket_set sk -> (fd ∈ rset <-> fd ∈ left) -> (fd ∈ left <-> ready k fd = true) ->
  daemon_ok sk s1 T1 -> nready s1 = Z.of_nat (size left) ->
  (forall s2, daemon_ok sk s2 T1 -> left ∖ {[fd]} = ∅ -> Q (trace s2) s2) ->
  (forall s2, daemon_ok sk s2 T1 -> nready s2 = Z.of_nat (size (left ∖ {[fd]})) -> wpd rest (fun _ => Q (trace s2)) D s2) ->
  wpd (if_ready fd rset (readable_raw k datagram fam parse) rest)
    (fun _ s2 => exists e, tells k T1 fd datagram fam parse e /\ Q (trace s1 ++ e) s2) D s1.
Proof using All.
  intros Hsafe Hdest Hrej Hfd Hrs Hl H1 Hn Hdone Hrest.
  assert (Hin : in_set fd = true) by (apply (allset_pos _ _ _ H1); rewrite (ok_allset _ _ _ H1); set_solver).
  apply (if_ready_run fd rset left); try done.
  - intros Hleft. eapply wpd_mono; [apply (readable_raw_run sk k D fails_D fd); try done; [apply F|apply F|by apply Hl]|].
    intros r s2 (H2 & -> & Hn2 & e & He & Ht). split; [done|]. split.
    + intros El. exists e. split; [done|]. rewrite <-Ht. by apply Hdone.
    + intros El. eapply wpd_mono; [apply Hrest; [done|by rewrite Hn2]|]. intros ? s3 HQ. exists e. by rewrite <-Ht.
  - intros Hleft. assert (left ∖ {[fd]} = left) as E by set_solver.
    eapply wpd_mono; [apply Hrest; [done|by rewrite E]|]. intros ? s3 HQ. exists []. rewrite app_nil_r. split; [|done].
    apply tells_idle. destruct (ready k fd); [|done]. by destruct Hleft; apply Hl.
Qed.

Lemma sockets_left : R ∖ {[listenfd sk]} ∖ {[fd4 sk]} ∖ {[fd6 sk]} = ready_clients k T.
Proof using All.
  apply set_eq. intros x. unfold ready_clients. rewrite !elem_of_difference, ready_spec, elem_of_filter, !elem_of_singleton.
  pose proof (client_not_socket x). unfold socket_set in *. set_solver.
Qed.

Lemma raw_phases s1 :
  daemon_ok sk s1 T1 -> nready s1 = Z.of_nat (size (R ∖ {[listenfd sk]})) ->
  wpd (if_ready (fd4 sk) R (readable_v4 k) (if_ready (fd6 sk) R (readable_v6 k)
        (let* m := gets maxi in conn_loop k R (Z.to_nat (m + 1)) 0)))
    (fun _ => after_v4 (trace s1)) D s1.
Proof using All.
  intros H1 Hn. assert (Hne : listenfd sk <> fd4 sk /\ listenfd sk <> fd6 sk /\ fd4 sk <> fd6 sk).
  { clear -N. apply list.NoDup_cons in N as [N1 N]. apply list.NoDup_cons in N as [N2 _]. set_solver. }
  apply (raw_phase _ _ _ _ _ (R ∖ {[listenfd sk]}) after_v6); try done.
  - by intros; apply parse_v4_safe.
  - intros ???? E. rewrite (parse_v4_dest _ _ _ _ E). lia.
  - intros Hrej. right. right. by left.
  - unfold socket_set. set_solver.
  - set_solver.
  - rewrite elem_of_difference, ready_spec. unfold socket_set. set_solver.
  - intros s2 H2 E. exists []. split.
    + apply tells_idle. destruct (ready k (fd6 sk)) eqn:E6; [|done]. exfalso. apply (not_elem_of_empty (C := gset Z) (fd6 sk)).
      rewrite <-E, !elem_of_difference, ready_spec. unfold socket_set. set_solver.
    + rewrite app_nil_r. apply nothing_left; [done|]. rewrite <-sockets_left, E. set_solver.
  - intros s2 H2 Hn2. apply (raw_phase _ _ _ _ _ (R ∖ {[listenfd sk]} ∖ {[fd4 sk]}) after_conns); try done.
    + by intros; apply parse_v6_safe.
    + intros ???? E. rewrite (parse_v6_dest _ _ _ _ E). lia.
    + intros Hrej. do 3 right. by left.
    + unfold socket_set. set_solver.
    + set_solver.
    + rewrite !elem_of_difference, ready_spec. unfold socket_set. set_solver.
    + intros s3 H3 E. apply nothing_left; [done|]. by rewrite <-sockets_left, E.
    + intros s3 H3 Hn3. apply conn_phase; [done|]. by rewrite <-sockets_left.
Qed.

Lemma icmpd_round_run :
  wpd (round sk k) (fun _ => after_v4 (trace s ++ arrivals sk k)) D s.
Proof using All.
  apply wpd_bind, wpd_die_if; [by left|]. intros _. apply wpd_bind, wpd_gets. fold R. apply wpd_bind, wpd_modify.
  set (s0 := set_nready _ s). assert (H0 : daemon_ok sk s0 T) by (destruct H; by constructor).
  assert (Hl : listenfd sk ∈ socket_set sk) by (unfold socket_set; set_solver).
  assert (Hready : listenfd sk ∈ R <-> ready k (listenfd sk) = true) by (rewrite ready_spec; tauto).
  apply (if_ready_run _ R R); try done.
  { apply (allset_pos _ _ _ H). rewrite (ok_allset _ _ _ H). set_solver. }
  - intros Hin. apply Hready in Hin. eapply wpd_mono; [by apply (readable_listen_run sk k s0 T); [..|apply F|apply F]|].
    intros r s2 (H2 & Ht & -> & Hn). split; [done|]. unfold arrivals. rewrite Hin. change (trace s0) with (trace s) in Ht. rewrite <-Ht.
    assert (H2' : daemon_ok sk s2 T1) by (unfold T1, arrive; by rewrite Hin). split.
    + intros E. assert (Hidle : forall fd, fd ∈ socket_set sk -> fd <> listenfd sk -> ready k fd = false).
      { intros fd Hs Hne. destruct (ready k fd) eqn:Er; [|done]. exfalso. apply (not_elem_of_empty (C := gset Z) fd).
        rewrite <-E, elem_of_difference, ready_spec, elem_of_singleton. auto. }
      pose proof (proj1 (list.NoDup_cons _ _) N) as [N1 _]. exists []. split; [apply tells_idle, Hidle; unfold socket_set; set_solver|].
      exists []. split; [apply tells_idle, Hidle; unfold socket_set; set_solver|]. rewrite !app_nil_r.
      apply nothing_left; [done|]. rewrite <-sockets_left, E. set_solver.
    + intros E. apply raw_phases; [done|]. by rewrite Hn.
  - intros Hout. assert (Er : ready k (listenfd sk) = false) by (destruct (ready k (listenfd sk)); tauto).
    unfold arrivals. rewrite Er, app_nil_r. change (trace s) with (trace s0). apply raw_phases.
    + unfold T1, arrive. by rewrite Er.
    + cbn. assert (R ∖ {[listenfd sk]} = R) as -> by set_solver. done.
Qed.
End one_round.

(** * The descriptors *)

Lemma open_after_app t1 t2 o : open_after (t1 ++ t2) o = open_after t2 (open_after t1 o).
Proof. apply foldl_app. Qed.

Lemma open_wrote {A} (f : A -> Z) (g : A -> bytes) l o : open_after ((fun x => Wrote (f x) (g x)) <$> l) o = o.
Proof. induction l as [|x l IH]; [done|]. apply IH. Qed.

Lemma tells_open k T fd d fam parse e o : tells k T fd d fam parse e -> open_after e o = o.
Proof. intros [| |]; [done..|]. apply (open_wrote id). Qed.

(** Serving clients closes what was received, and the connections of those
    that leave. *)
Lemma open_conn k fd T (o : gset Z) :
  fd ∈ dom T -> (fd ∉ o) -> is_Some (read_fds k fd) ->
  match read_fds k fd with Some (_, r) => r < 0 \/ (r ∉ o ∪ dom T) | None => True end ->
  open_after (conn_events k fd) (o ∪ dom T) = o ∪ dom (settle_one k fd T).
Proof.
  intros Hd Ho [[n r] Er] Hr. unfold conn_events, settle_one. rewrite Er in Hr |- *.
  assert (Hreg : forall f p, verdict_of k fd = Registers f p -> (r <? 0) = false).
  { intros f p. unfold verdict_of. rewrite Er. destruct n; [done|]. by destruct (r <? 0). }
  assert (Hz : forall f p, n = O -> verdict_of k fd <> Registers f p) by (intros f p ->; unfold verdict_of; by rewrite Er).
  unfold close_received. assert (E : (r >=? 0) = negb (r <? 0)) by lia. rewrite E.
  destruct (verdict_of k fd) as [|f p].
  - rewrite dom_delete_L. destruct (Z.ltb_spec r 0) as [Hneg|Hpos]; cbn [negb].
    + destruct n; cbn; rewrite (proj2 (Z.ltb_lt _ _)) by done; set_solver.
    + destruct Hr as [Hr|Hr]; [lia|]. destruct n; cbn; rewrite (proj2 (Z.ltb_ge _ _)) by done; set_solver.
  - rewrite dom_insert_L. destruct n; [by destruct (Hz f p)|]. specialize (Hreg f p eq_refl). cbn. rewrite Hreg.
    apply Z.ltb_ge in Hreg. destruct Hr as [Hr|Hr]; [lia|]. set_solver.
Qed.

Lemma open_conns k fds T (o : gset Z) :
  NoDup fds -> Forall (fun fd => fd ∈ dom T /\ (fd ∉ o) /\ is_Some (read_fds k fd) /\
    match read_fds k fd with Some (_, r) => r < 0 \/ (r ∉ o ∪ dom T) | None => True end) fds ->
  open_after (concat (conn_events k <$> fds)) (o ∪ dom T) = o ∪ dom (settle k fds T).
Proof.
  revert T. induction fds as [|fd fds IH]; intros T N Hf; [done|]. apply list.NoDup_cons in N as [Nin N].
  apply list.Forall_cons in Hf as [(Hd & Ho & Hs & Hr) Hf]. cbn [fmap list_fmap concat].
  rewrite open_after_app, open_conn by done. change (settle k (fd :: fds) T) with (settle k fds (settle_one k fd T)).
  assert (Hsub : dom (settle_one k fd T) ⊆ dom T).
  { unfold settle_one. destruct (verdict_of k fd); [rewrite dom_delete_L|rewrite dom_insert_L]; set_solver. }
  apply IH; [done|]. apply list.Forall_forall. intros x Hx. pose proof (proj1 (list.Forall_forall _ _) Hf x Hx) as (Hd' & Ho' & Hs' & Hr').
  split_and!; [|done..|].
  - assert (x <> fd) by (intros ->; done). unfold settle_one.
    destruct (verdict_of k fd); [rewrite dom_delete_L|rewrite dom_insert_L]; set_solver.
  - destruct (read_fds k x) as [[? r]|]; [|done]. destruct Hr' as [|Hr']; [by left|]. right. set_solver.
Qed.

Lemma serves_open sk ks T tr T' :
  serves sk ks T tr T' -> keeps sk ks T -> dom T ## socket_set sk ->
  open_after tr (socket_set sk ∪ dom T) = socket_set sk ∪ dom T'.
Proof.
  induction 1 as [|k ks T e4 e6 fds tr T' H4 H6 P Hs _ IH]; [done|]. intros [Hk Hks] Hdis.
  assert (Ha : open_after (arrivals sk k) (socket_set sk ∪ dom T) = socket_set sk ∪ dom (arrive sk k T)).
  { unfold arrivals, arrive. destruct (ready k (listenfd sk)); [|done]. rewrite dom_insert_L. cbn. set_solver. }
  assert (Hsub : dom T ⊆ dom (arrive sk k T)).
  { unfold arrive. destruct (ready k (listenfd sk)); [rewrite dom_insert_L|]; set_solver. }
  pose proof (fits_new _ _ _ Hk) as Hnew. pose proof (fits_received _ _ _ Hk) as Hrec.
  assert (Hda : dom (arrive sk k T) ## socket_set sk).
  { unfold arrive. destruct (ready k (listenfd sk)); [rewrite dom_insert_L|]; set_solver. }
  assert (Hdf : dom (after sk k T) ## socket_set sk).
  { intros x Hx. apply Hda. apply elem_of_dom in Hx as [v Hx]. unfold after in Hx. rewrite settle_lookup in Hx.
    destruct (decide _) as [Hin|Hin]; [|by eapply elem_of_dom_2].
    apply elem_of_elements, elem_of_filter in Hin as [_ Hin]. set_solver. }
  rewrite !open_after_app, Ha, (tells_open _ _ _ _ _ _ _ _ H4), (tells_open _ _ _ _ _ _ _ _ H6), open_conns.
  - rewrite (settle_perm k _ _ _ P). by apply IH.
  - rewrite P. apply NoDup_elements.
  - apply list.Forall_forall. intros x Hx. pose proof (proj1 (list.Forall_forall _ _) Hs x Hx). rewrite P in Hx.
    apply elem_of_elements in Hx. pose proof (Hrec x Hx). apply elem_of_filter in Hx as [_ Hx]. split_and!; try done; set_solver.
Qed.

Definition initially (sk : sockets) : Prop := NoDup [listenfd sk; fd4 sk; fd6 sk] /\ set_Forall (fun fd => in_set fd = true) (socket_set sk).

Lemma icmpd_start_ok sk : initially sk -> daemon_ok sk (start sk) ∅.
Proof.
  intros [_ Hs]. assert (U : used (client (start sk)) = []) by by vm_compute.
  assert (Hr : forall fd, fd ∈ socket_set sk -> 0 <= fd < FD_SETSIZE).
  { intros fd Hfd. specialize (Hs _ Hfd). unfold in_set in Hs. lia. }
  assert (R4 := Hr (fd4 sk) ltac:(unfold socket_set; set_solver)). assert (R6 := Hr (fd6 sk) ltac:(unfold socket_set; set_solver)).
  assert (Rl := Hr (listenfd sk) ltac:(unfold socket_set; set_solver)).
  constructor; rewrite ?U; cbn [start allset maxfd maxi client].
  - by rewrite length_replicate.
  - constructor.
  - done.
  - intros fd Hfd. rewrite dom_empty_L. split; [by apply Hr|set_solver].
  - rewrite dom_empty_L. unfold socket_set. set_solver.
  - intros i c Hi Hc. apply lookup_replicate in Hi as [-> _]. cbn in Hc. lia.
  - split; [lia|]. intros fd Hfd. unfold socket_set in *. rewrite !elem_of_union, !elem_of_singleton in Hfd. lia.
  - split; [unfold FD_SETSIZE; lia|]. change (Z.to_nat (-1 + 1)) with 0%nat. by rewrite drop_0.
Qed.

Lemma icmpd_run sk ks s T :
  NoDup [listenfd sk; fd4 sk; fd6 sk] -> daemon_ok sk s T -> keeps sk ks T ->
  wpd (icmpd sk ks) (fun _ s' => exists T' tr, daemon_ok sk s' T' /\ trace s' = trace s ++ tr /\ serves sk ks T tr T')
    (fun _ => Exists fails ks) s.
Proof.
  intros N. revert s T. induction ks as [|k ks IH]; intros s T H Hk.
  { apply wpd_ret. exists T, []. rewrite app_nil_r. by split_and!; [| |constructor]. }
  destruct Hk as [Hk Hks]. apply wpd_bind.
  eapply wpd_conseq; [by apply (icmpd_round_run sk k s T)| |by intros; apply Exists_cons_hd].
  intros ? s1 (e4 & He4 & e6 & He6 & H1 & fds & P & Ht & Hsome).
  eapply wpd_conseq; [by apply (IH s1 (after sk k T))| |by intros; apply Exists_cons_tl].
  intros ? s2 (T' & tr & H2 & Ht2 & Hs). exists T', (arrivals sk k ++ e4 ++ e6 ++ concat (conn_events k <$> fds) ++ tr).
  split; [done|]. split; [|by econstructor]. by rewrite Ht2, Ht, <-!app_assoc.
Qed.
