(* ===== verification/IcmpdTheorems.v ===== *)
(** The theorems on icmpd: what an ICMP error is and whom it is told to, and
    runs of the daemon. *)
From Stdlib Require Import ZArith Lia.
From stdpp Require Import base list strings gmap sets numbers.
From S2P Require Import Prelude CFile EventLoop Packet Icmp Icmpd IcmpdRounds.
Local Open Scope c_scope.

(** * What an ICMP error is *)

Record icmp4_error (m : message) : Prop := {
  e4_parts : parts_ok m;
  e4_outer : ip4_header (outer m);
  e4_type : type m = ICMP_UNREACH \/ type m = ICMP_TIMXCEED \/ type m = ICMP_SOURCEQUENCH;
  e4_inner : ip4_header (inner m);
  e4_length : (20 <= length (inner m))%nat;
  e4_proto : inner m !! 9%nat = Some IPPROTO_UDP;
  e4_tail : (4 <= length (tail m))%nat;
  e4_size : (length (ip4_bytes m) <= MAXLINE)%nat
}.
Record icmp6_error (m : message) : Prop := {
  e6_parts : parts_ok m;
  e6_type : type m = ICMP6_DST_UNREACH \/ type m = ICMP6_PACKET_TOO_BIG \/ type m = ICMP6_TIME_EXCEEDED;
  e6_inner : length (inner m) = 40%nat;
  e6_proto : inner m !! 6%nat = Some IPPROTO_UDP;
  e6_tail : (4 <= length (tail m))%nat;
  e6_size : (length (ip6_bytes m) <= MAXLINE)%nat
}.
(** The message for a client, with what is not written in it taken from the stack. *)
Definition told_bytes (errno : Z) (m : message) (dest frame : bytes) : bytes :=
  int_bytes 4 errno ++ [type m; code m] ++ slice 6 2 frame ++ int_bytes 4 (Z.of_nat (length dest)) ++ slice 12 4 frame ++
  dest ++ drop (16 + length dest) frame.

Lemma parse_v4_error m junk : icmp4_error m ->
  parse_v4 (ip4_bytes m ++ junk) (Z.of_nat (length (ip4_bytes m))) tt =
    Ret (Some (port_of (sport m), Report (type m) (code m) (dest_v4 (dport m) (slice 16 4 (inner m))) (errno_v4 (type m) (code m)))) tt.
Proof.
  intros H. pose proof (e4_length _ H) as Hin. pose proof (ip4_bytes_length m (e4_parts _ H)) as Hl. pose proof (e4_tail _ H) as Ht.
  destruct (ip4_reads m junk (e4_parts _ H) (e4_outer _ H) (e4_inner _ H)) as [(c1 & E1 & Hc1) Ety Eco (c2 & E2 & Hc2) Ef Efs Esp _ Edb].
  unfold parse_v4. rewrite (bind_run _ _ _ _ _ E1), Hc1. cbv zeta.
  rewrite !(proj2 (Z.ltb_ge (_ - _) _)) by lia. cbn [die_if]. unfold bind at 1, skip, ret at 1.
  rewrite (bind_run _ _ _ _ _ Ety), (bind_run _ _ _ _ _ Eco).
  assert (Hty : (type m =? ICMP_UNREACH) || (type m =? ICMP_TIMXCEED) || (type m =? ICMP_SOURCEQUENCH) = true).
  { destruct (e4_type _ H) as [-> |[-> | ->]]; done. }
  rewrite Hty. unfold bind at 1, ret at 1. rewrite (bind_run _ _ _ _ _ E2), Hc2.
  rewrite (bind_run _ _ _ _ _ (Ef 9 _ ltac:(lia) (e4_proto _ H))). cbn [Z.eqb Pos.eqb IPPROTO_UDP].
  rewrite (bind_run _ _ _ _ _ Esp), (bind_run _ _ _ _ _ (Efs 16 4%nat ltac:(lia) ltac:(lia))). by rewrite (bind_run _ _ _ _ _ Edb).
Qed.

Lemma parse_v6_error m junk : icmp6_error m ->
  parse_v6 (ip6_bytes m ++ junk) (Z.of_nat (length (ip6_bytes m))) tt =
    Ret (Some (port_of (sport m), Report (type m) (code m) (dest_v6 (dport m) (slice 24 16 (inner m))) (errno_v6 (type m) (code m)))) tt.
Proof.
  intros H. pose proof (e6_inner _ H) as Hin. pose proof (ip6_bytes_length m (e6_parts _ H)) as Hl. pose proof (e6_tail _ H) as Ht.
  destruct (ip6_reads m junk (e6_parts _ H)) as [Ety Eco Ef Efs Esp _ Edb]. rewrite Hin in Esp, Edb.
  unfold parse_v6. rewrite !(proj2 (Z.ltb_ge _ _)) by lia. cbn [die_if]. unfold bind at 1, skip, ret at 1.
  rewrite (bind_run _ _ _ _ _ Ety), (bind_run _ _ _ _ _ Eco).
  assert (Hty : (type m =? ICMP6_DST_UNREACH) || (type m =? ICMP6_PACKET_TOO_BIG) || (type m =? ICMP6_TIME_EXCEEDED) = true).
  { destruct (e6_type _ H) as [-> |[-> | ->]]; done. }
  rewrite Hty. unfold bind at 1, ret at 1. cbv zeta.
  rewrite (bind_run _ _ _ _ _ (Ef 6 _ ltac:(lia) (e6_proto _ H))). cbn [Z.eqb Pos.eqb IPPROTO_UDP].
  rewrite (bind_run _ _ _ _ _ Esp), (bind_run _ _ _ _ _ (Efs 24 16%nat ltac:(lia) ltac:(lia))). by rewrite (bind_run _ _ _ _ _ Edb).
Qed.

(** Reading a raw socket, when the packet is an error and writing works. *)
Lemma raw_error sk k s T fam parse d port r :
  daemon_ok sk s T -> (length d <= MAXLINE)%nat -> length (stack_err k) = sizeof_icmpd_err -> (length (icmpd_dest r) <= 28)%nat ->
  parse (d ++ drop (length d) (stack_buf k)) (Z.of_nat (length d)) tt = Ret (Some (port, r)) tt ->
  (forall fd, writes k fd = true) ->
  exists fds, receivers T fam port fds /\
    readable_raw k (Some d) fam parse s = Ret (nready s - 1) (Daemon (client s) (maxi s) (maxfd s) (nready s - 1) (allset s)
      (trace s ++ ((fun fd => Wrote fd (err_bytes r (stack_err k))) <$> fds))).
Proof.
  intros H Hd He Hr Hp Hw. exists (told fam port (take (Z.to_nat (maxi s + 1)) (client s))).
  split; [by eapply told_receivers|]. unfold readable_raw. rewrite take_ge by done. rewrite splice_front.
  rewrite (bind_run _ _ s (Some (port, r)) s) by (unfold zoom; by rewrite Hp). rewrite bind_gets.
  destruct (ok_maxi _ _ _ H) as [Hm _]. pose proof (ok_length _ _ _ H) as Hl.
  pose proof (notify_loop_run k fam port r (Z.to_nat (maxi s + 1)) 0 (stack_err k) s (fun _ => False)) as W.
  apply wpd_wp, wp_run in W as ([] & s' & E & ->).
  - rewrite fill_err_bytes in E by (rewrite He; unfold sizeof_icmpd_err; lia). rewrite drop_0 in E.
    by rewrite (bind_run _ _ _ _ _ E).
  - intros fd s' Hf. by rewrite Hw in Hf.
  - unfold FD_SETSIZE in *. lia.
  - rewrite He. unfold sizeof_icmpd_err. lia.
Qed.

(** * Theorems *)

(** C26: An ICMP error about a UDP datagram, with IP headers of any length, is
    told to every client that has registered the port the datagram was sent
    from, and to no client that has registered another socket: what a client
    reads holds the type and code, the error number for them and the address
    and port the datagram was sent to. *)
Theorem icmp4_error_told sk k s T m :
  daemon_ok sk s T -> icmp4_error m -> datagram4 k = Some (ip4_bytes m) ->
  length (stack_err k) = sizeof_icmpd_err -> (forall fd, writes k fd = true) ->
  exists fds, receivers T AF_INET (port_of (sport m)) fds /\
    readable_v4 k s = Ret (nready s - 1) (Daemon (client s) (maxi s) (maxfd s) (nready s - 1) (allset s)
      (trace s ++ ((fun fd => Wrote fd (told_bytes (errno_v4 (type m) (code m)) m
         ([16; 2] ++ dport m ++ slice 16 4 (inner m) ++ replicate 8 0) (stack_err k))) <$> fds))).
Proof.
  intros H Hm Hd He Hw. destruct (e4_parts _ Hm) as [_ _ Hdp]. pose proof (e4_length _ Hm) as Hin.
  assert (Ha : length (slice 16 4 (inner m)) = 4%nat) by (unfold slice; rewrite length_take, length_drop; lia).
  pose proof (parse_v4_error m (drop (length (ip4_bytes m)) (stack_buf k)) Hm) as E. rewrite dest_v4_bytes in E by done.
  unfold readable_v4. rewrite Hd. eapply raw_error in E; [exact E|done|apply Hm|done| |done].
  cbn [icmpd_dest]. rewrite !length_app, Hdp, Ha. cbn. lia.
Qed.

(** The same over IPv6. *)
Theorem icmp6_error_told sk k s T m :
  daemon_ok sk s T -> icmp6_error m -> datagram6 k = Some (ip6_bytes m) ->
  length (stack_err k) = sizeof_icmpd_err -> (forall fd, writes k fd = true) ->
  exists fds, receivers T AF_INET6 (port_of (sport m)) fds /\
    readable_v6 k s = Ret (nready s - 1) (Daemon (client s) (maxi s) (maxfd s) (nready s - 1) (allset s)
      (trace s ++ ((fun fd => Wrote fd (told_bytes (errno_v6 (type m) (code m)) m
         ([28; 30] ++ dport m ++ replicate 4 0 ++ slice 24 16 (inner m) ++ replicate 4 0) (stack_err k))) <$> fds))).
Proof.
  intros H Hm Hd He Hw. destruct (e6_parts _ Hm) as [_ _ Hdp]. pose proof (e6_inner _ Hm) as Hin.
  assert (Ha : length (slice 24 16 (inner m)) = 16%nat) by (unfold slice; rewrite length_take, length_drop; lia).
  pose proof (parse_v6_error m (drop (length (ip6_bytes m)) (stack_buf k)) Hm) as E. rewrite dest_v6_bytes in E by done.
  unfold readable_v6. rewrite Hd. eapply raw_error in E; [exact E|done|apply Hm|done| |done].
  cbn [icmpd_dest]. rewrite !length_app, Hdp, Ha. cbn. lia.
Qed.

(** C25: Along any run in which descriptors fit in a set, icmpd either ends
    because a call failed or a packet was too short, or has behaved as
    specified: in each round the connection that waits is taken, errors are
    told to the clients of their port, and every client that has sent
    something is served once, although the daemon stops looking when it has
    counted enough of them; the descriptors left open are its three sockets
    and the connections in its table. *)
Theorem icmpd_serves sk ks :
  initially sk -> keeps sk ks ∅ ->
  wpd (icmpd sk ks)
    (fun _ s => exists T, daemon_ok sk s T /\ serves sk ks ∅ (trace s) T /\
       open_after (trace s) (socket_set sk) = socket_set sk ∪ dom T)
    (fun _ => Exists fails ks) (start sk).
Proof.
  intros Hi Hk. eapply wpd_mono; [apply (icmpd_run sk ks (start sk) ∅); [apply Hi|by apply icmpd_start_ok|done]|].
  intros ? s (T & tr & H & Ht & Hs). cbn in Ht. subst tr. exists T. split; [done|]. split; [done|].
  pose proof (serves_open sk ks ∅ _ T Hs Hk) as E. rewrite dom_empty_L, union_empty_r_L in E. apply E. set_solver.
Qed.

(** The test of readable_v6.c asks for 16 bytes, not for the 56 it reads: the
    port, the address and the client of a shorter packet come from what was
    on the stack. *)
Theorem icmp6_short_reads_stack code junk :
  length junk = MAXLINE ->
  parse_v6 (splice 0 ([1; code] ++ replicate 12 0 ++ [17; 0]) junk) 16 tt =
    Ret (Some (port_of (slice 48 2 junk), Report 1 code (dest_v6 (slice 50 2 junk) (slice 32 16 junk)) (errno_v6 1 code))) tt.
Proof.
  intros H. rewrite splice_front. set (d := [1; code] ++ replicate 12 0 ++ [17; 0]). set (J := drop (length d) junk).
  assert (HJ : (40 <= length J)%nat) by (subst J; rewrite length_drop, H; unfold MAXLINE; cbn; lia).
  assert (HS : forall i n, slice (16 + i) n junk = slice i n J) by (intros i n; unfold slice; subst J; by rewrite drop_drop).
  rewrite (HS 32%nat 2%nat : slice 48 2 junk = _), (HS 34%nat 2%nat : slice 50 2 junk = _), (HS 16%nat 16%nat : slice 32 16 junk = _).
  clearbody J. unfold parse_v6. change (16 <? 8) with false. change (16 <? 8 + 8) with false. cbn [die_if]. unfold bind at 1, skip, ret at 1.
  rewrite (bind_run _ _ tt 1 tt), (bind_run _ _ tt code tt) by done. cbn [Z.eqb Pos.eqb orb ICMP6_DST_UNREACH].
  unfold bind at 1, ret at 1. rewrite (bind_run _ _ tt 17 tt) by done. cbn [Z.eqb Pos.eqb IPPROTO_UDP].
  rewrite (field16_skip d J _ 32), (fields_skip d J _ 16), (fields_skip d J _ 34) by done.
  rewrite (bind_run _ _ _ _ _ (field16_slice J 32 ltac:(lia) ltac:(lia))).
  assert (HF : forall i n, 0 <= i -> i + Z.of_nat n <= 40 -> fields J i n tt = Ret (slice (Z.to_nat i) n J) tt).
  { intros i n H0 Hi. rewrite <-(app_nil_r J) at 1. apply fields_here; lia. }
  by rewrite (bind_run _ _ _ _ _ (HF 16 16%nat ltac:(lia) ltac:(lia))), (bind_run _ _ _ _ _ (HF 34 2%nat ltac:(lia) ltac:(lia))).
Qed.

(** * Runs *)

(** A client registers port 5353, a router reports the port unreachable, the
    client leaves; a second one connects. *)
Definition demo_sockets : sockets := Sockets 3 4 5.
Definition demo_message : message :=
  Message (69 :: replicate 19 0) 3 3 (replicate 6 0)
    (69 :: replicate 8 0 ++ [17] ++ replicate 6 0 ++ [10; 0; 0; 7]) [20; 233] [0; 53] (replicate 4 0).
Definition demo_message6 : message :=
  Message [] 1 4 (replicate 6 0) (replicate 6 0 ++ [17] ++ replicate 17 0 ++ replicate 16 9) [20; 233] [0; 53] (replicate 4 0).
Definition demo_round (rd : list Z) (fd : Z) (d4 : option bytes) (rf : option (nat * Z)) : kernel :=
  Kernel false (fun f => bool_decide (f ∈ rd)) fd d4 None (fun _ => rf) (fun _ => Some (AF_INET, 59668))
    (fun _ _ => 0) (fun _ => true) (replicate MAXLINE 0) (replicate sizeof_icmpd_err 0).
Definition demo : list kernel :=
  [demo_round [5] 6 None None; demo_round [6] 0 None (Some (1%nat, 7)); demo_round [3] 0 (Some (ip4_bytes demo_message)) None;
   demo_round [6] 0 None (Some (0%nat, -1)); demo_round [5] 6 None None].
Definition demo_told : bytes :=
  told_bytes ECONNREFUSED demo_message ([16; 2; 0; 53; 10; 0; 0; 7] ++ replicate 8 0) (replicate sizeof_icmpd_err 0).

Example icmpd_demo_trace :
  match icmpd demo_sockets demo (start demo_sockets) with
  | Ret _ s => trace s = [Accepted 6; Got_fd 6 1 7; Wrote 6 (str "1"); Closed 7; Wrote 6 demo_told; Got_fd 6 0 (-1); Closed 6; Accepted 6]
  | _ => False
  end.
Proof. vm_compute. reflexivity. Qed.

(** The entry of the table keeps the family and port of the client that has
    left: the next client in it is told the errors of the previous one, before
    it has registered anything. *)
Theorem icmpd_stale_registration :
  match icmpd demo_sockets (demo ++ [demo_round [3] 0 (Some (ip4_bytes demo_message)) None]) (start demo_sockets) with
  | Ret _ s => drop 6 (trace s) = [Closed 6; Accepted 6; Wrote 6 demo_told]
  | _ => False
  end.
Proof. vm_compute. reflexivity. Qed.

Lemma demo_returns : returns (icmpd demo_sockets demo) (start demo_sockets) = true.
Proof. vm_compute. reflexivity. Qed.

#[export] Instance received_new_dec sk k T fd : Decision (received_new sk k T fd).
Proof. unfold received_new. destruct (read_fds k fd) as [[? ?]|]; apply _. Defined.

#[export] Instance fits_dec sk k T : Decision (fits sk k T).
Proof.
  refine (cast_if_and5 (decide (newfd k ∉ socket_set sk ∪ dom T)) (decide (newfd k < FD_SETSIZE))
    (decide (set_Forall (received_new sk k T) (ready_clients k T)))
    (decide (length (stack_buf k) = MAXLINE)) (decide (length (stack_err k) = sizeof_icmpd_err))).
  all: try by intros []. all: by constructor.
Defined.

#[export] Instance keeps_dec sk ks T : Decision (keeps sk ks T).
Proof. revert T. induction ks as [|k ks IH]; intros T; cbn; apply _. Defined.

Lemma demo_initially : initially demo_sockets.
Proof. split; apply (bool_decide_unpack _); vm_compute; done. Qed.

Lemma demo_message_ok : icmp4_error demo_message.
Proof.
  constructor; try (by vm_compute).
  - refine (ex_intro _ 69 (ex_intro _ (replicate 19 0) _)). by vm_compute.
  - by left.
  - refine (ex_intro _ 69 (ex_intro _ (drop 1 (inner demo_message)) _)). by vm_compute.
  - apply (bool_decide_unpack _). by vm_compute.
Qed.

Lemma demo_message6_ok : icmp6_error demo_message6.
Proof.
  constructor; try (by vm_compute).
  - by left.
  - apply (bool_decide_unpack _). by vm_compute.
Qed.

Lemma icmpd_serves_witness :
  exists s T, icmpd demo_sockets demo (start demo_sockets) = Ret tt s /\ serves demo_sockets demo ∅ (trace s) T /\
    open_after (trace s) (socket_set demo_sockets) = socket_set demo_sockets ∪ dom T.
Proof.
  assert (K : keeps demo_sockets demo ∅) by (apply (bool_decide_unpack _); vm_compute; done).
  pose proof (icmpd_serves demo_sockets demo demo_initially K) as W.
  apply wpd_returns in W as ([] & s & E & T & _ & W); [|exact demo_returns]. by exists s, T.
Defined.

(** The run of the first two rounds, and then the error: the client that has
    registered the port is told. *)
Definition demo_error : kernel := demo_round [3] 0 (Some (ip4_bytes demo_message)) None.
Lemma demo_error_run :
  match icmpd demo_sockets (take 2 demo) (start demo_sockets) with
  | Ret _ s => match readable_v4 demo_error s with Ret _ s' => trace s' = trace s ++ [Wrote 6 demo_told] | _ => False end
  | _ => False
  end.
Proof. vm_compute. reflexivity. Qed.
Lemma demo_registered : returns (icmpd demo_sockets (take 2 demo)) (start demo_sockets) = true.
Proof. vm_compute. reflexivity. Qed.

Lemma icmp4_error_told_witness :
  exists s T, icmpd demo_sockets (take 2 demo) (start demo_sockets) = Ret tt s /\ receivers T AF_INET 59668 [6] /\
    exists s', readable_v4 demo_error s = Ret (nready s - 1) s' /\ trace s' = trace s ++ [Wrote 6 demo_told].
Proof.
  assert (K : keeps demo_sockets (take 2 demo) ∅) by (apply (bool_decide_unpack _); vm_compute; done).
  pose proof (icmpd_run demo_sockets (take 2 demo) (start demo_sockets) ∅ (proj1 demo_initially) (icmpd_start_ok _ demo_initially) K) as W.
  apply wpd_returns in W as ([] & s & E & T & tr & H & _); [|exact demo_registered].
  destruct (icmp4_error_told demo_sockets demo_error s T demo_message) as (fds & R & E2); [exact H|exact demo_message_ok|done|done|done|].
  pose proof demo_error_run as D. rewrite E, E2 in D. apply app_inv_head in D. assert (fds = [6]) as -> by (destruct fds as [|f [|]]; naive_solver).
  exists s, T. split; [exact E|]. split; [exact R|]. eexists. split; [exact E2|done].
Defined.

Lemma icmp6_error_told_witness :
  exists fds, receivers ∅ AF_INET6 59668 fds /\
    exists s, readable_v6 (Kernel false (fun _ => true) 0 None (Some (ip6_bytes demo_message6)) (fun _ => None) (fun _ => None)
      (fun _ _ => 0) (fun _ => true) (replicate MAXLINE 0) (replicate sizeof_icmpd_err 0)) (start demo_sockets) = Ret (-1) s /\
      length (trace s) = length fds.
Proof.
  destruct (icmp6_error_told demo_sockets (Kernel false (fun _ => true) 0 None (Some (ip6_bytes demo_message6)) (fun _ => None) (fun _ => None)
      (fun _ _ => 0) (fun _ => true) (replicate MAXLINE 0) (replicate sizeof_icmpd_err 0)) (start demo_sockets) ∅ demo_message6)
    as (fds & R & E); [exact (icmpd_start_ok _ demo_initially)|exact demo_message6_ok|done|done|done|].
  exists fds. split; [exact R|]. eexists. split; [exact E|]. apply (length_fmap _).
Defined.

Lemma icmp6_short_reads_stack_witness :
  parse_v6 (splice 0 ([1; 4] ++ replicate 12 0 ++ [17; 0]) (replicate MAXLINE 7)) 16 tt =
    Ret (Some (1799, Report 1 4 (dest_v6 [7; 7] (replicate 16 7)) ECONNREFUSED)) tt.
Proof. exact (icmp6_short_reads_stack 4 (replicate MAXLINE 7) (length_replicate _ _)). Defined.
