(* ===== verification/Traceroute.v ===== *)
(** unpv13e/traceroute (traceloop.c, recv_v4.c, recv_v6.c, sig_alrm.c,
    tv_sub.c): probes with a growing TTL, and the ICMP errors that answer them. *)
From Stdlib Require Import ZArith Lia.
From stdpp Require Import base list strings numbers.
From S2P Require Import Prelude CFile Packet Icmp.
Local Open Scope c_scope.

Definition BUFSIZE : nat := 1500.
#[global] Arguments BUFSIZE : simpl never.

(** [tv_sub], on seconds and microseconds: what it leaves in [out]. *)
Definition tv_sub (out into : Z * Z) : Z * Z :=
  let '(sec, usec) := out in
  let usec := usec - into.2 in
  let '(sec, usec) := (if usec <? 0 then (sec - 1, usec + 1000000) else (sec, usec)) in
  (sec - into.1, usec).

(** What the program does that can be seen: a line for each TTL, a probe (the
    sequence number and the TTL in it, and the port it goes to), no answer, the
    address of the host that answered, the time it took, an ICMP code. *)
Inductive event :=
| Hop (ttl : Z)
| Sent (rec_seq rec_ttl port : Z)
| Star
| From (addr : Z)
| Rtt (tv : Z * Z)
| Code (code : Z)
| Newline.

(** The global variables, and what was done.  Addresses are numbers, 0 for
    that of a cleared structure. *)
Record tracer := Tracer { recvbuf : bytes; gotalarm : bool; sarecv : Z; salast : Z; shown : list event }.
Definition set_gotalarm v s := Tracer (recvbuf s) v (sarecv s) (salast s) (shown s).
Definition set_salast v s := Tracer (recvbuf s) (gotalarm s) (sarecv s) v (shown s).
Definition receive from d s := Tracer (splice 0 d (recvbuf s)) (gotalarm s) from (salast s) (shown s).
Definition show e s := Tracer (recvbuf s) (gotalarm s) (sarecv s) (salast s) (shown s ++ [e]).

(** What [recvfrom] gives, and whether the alarm goes off before or during the
    call ([sig_alrm] sets [gotalarm]). *)
Inductive arrival := Packet (from : Z) (d : bytes) | Interrupted | Failed.
Record turn := Turn { alarmed : bool; arrives : arrival }.

Section receiving.
Context (sport dport : Z).

(** The datagram an error is about is the probe: its protocol and its ports;
    [hlen1] is where the ICMP header is. *)
Definition quotes_v4 (buf : bytes) (hlen1 icmplen seq : Z) : M unit bool :=
  if icmplen <? 8 + 20 then ret false
  else
    let hip := hlen1 + 8 in
    let* vhl := field buf hip in
    let hlen2 := hl_bytes vhl in
    if icmplen <? 8 + hlen2 + 4 then ret false
    else
      let udp := hlen1 + 8 + hlen2 in
      let* p := field buf (hip + 9) in
      let* sp := field16 buf udp in
      let* dp := field16 buf (udp + 2) in
      ret ((p =? IPPROTO_UDP) && (sp =? htons (u16 sport)) && (dp =? htons (u16 (dport + seq)))).

(** The body of the loop of [recv_v4] on a packet of [n] bytes: what the
    function returns, or [None] when it receives again. *)
Definition examine_v4 (seq : Z) (buf : bytes) (n : Z) : M unit (option Z) :=
  let* vhl := field buf 0 in
  let hlen1 := hl_bytes vhl in
  let icmplen := n - hlen1 in
  if icmplen <? 8 then ret None
  else
    let* type := field buf hlen1 in
    let* code := field buf (hlen1 + 1) in
    if (type =? ICMP_TIMXCEED) && (code =? ICMP_TIMXCEED_INTRANS) then
      let* q := quotes_v4 buf hlen1 icmplen seq in
      ret (if q then Some (-2) else None)
    else if type =? ICMP_UNREACH then
      let* q := quotes_v4 buf hlen1 icmplen seq in
      ret (if q then Some (if code =? ICMP_UNREACH_PORT then -1 else code) else None)
    else ret None.

(** The same over IPv6.  The [if] that tests the ports of a probe whose TTL
    ran out guards the assignment to [ret] only: [break] is outside, and what
    is returned otherwise is not set. *)
Definition quotes_v6 (buf : bytes) (seq : Z) : M unit bool :=
  let hip6 := 8 in
  let udp := 8 + 40 in
  let* p := field buf (hip6 + 6) in
  let* sp := field16 buf udp in
  let* dp := field16 buf (udp + 2) in
  ret ((p =? IPPROTO_UDP) && (sp =? htons (u16 sport)) && (dp =? htons (u16 (dport + seq)))).

Definition examine_v6 (seq : Z) (buf : bytes) (n : Z) : M unit (option Z) :=
  let icmp6len := n in
  if icmp6len <? 8 then ret None
  else
    let* type := field buf 0 in
    let* code := field buf 1 in
    if (type =? ICMP6_TIME_EXCEEDED) && (code =? ICMP6_TIME_EXCEED_TRANSIT) then
      if icmp6len <? 8 + 40 + 4 then ret None
      else
        let* q := quotes_v6 buf seq in
        if q then ret (Some (-2)) else undef "ret"
    else if type =? ICMP6_DST_UNREACH then
      if icmp6len <? 8 + 40 + 4 then ret None
      else
        let* q := quotes_v6 buf seq in
        ret (if q then Some (if code =? ICMP6_DST_UNREACH_NOPORT then -1 else code) else None)
    else ret None.

Variable examine : Z -> bytes -> Z -> M unit (option Z).

(** [for ( ; ; )], over what [recvfrom] gives; [None] when the call waits. *)
Fixpoint recv_loop (seq : Z) (ts : list turn) : M tracer (option Z) :=
  let* g := gets gotalarm in
  if g then ret (Some (-3))
  else
    match ts with
    | [] => ret None
    | t :: ts =>
      (if alarmed t then modify (set_gotalarm true) else skip);;;
      match arrives t with
      | Failed => die "recvfrom error"
      | Interrupted => recv_loop seq ts
      | Packet from d =>
        let d := take BUFSIZE d in
        modify (receive from d);;;
        let* buf := gets recvbuf in
        let* r := zoom (fun _ => tt) (fun _ s => s) (examine seq buf (Z.of_nat (length d))) in
        match r with None => recv_loop seq ts | Some code => ret (Some code) end
      end
    end.

(** [recv_v4] and [recv_v6] *)
Definition recv (seq : Z) (ts : list turn) : M tracer (option Z) :=
  modify (set_gotalarm false);;; recv_loop seq ts.

(** What the world does: what arrives while the answer to a probe is waited
    for, and the time when a probe leaves and when a packet has come. *)
Record world := World { turns : Z -> list turn; sent_at : Z -> Z * Z; received_at : Z -> Z * Z }.
Context (w : world).

(** One probe; the new value of [done], or [None] when it waits for ever. *)
Definition probe_once (ttl seq ndone : Z) : M tracer (option Z) :=
  modify (show (Sent (u16 seq) (u16 ttl) (u16 (dport + seq))));;;
  let* code := recv seq (turns w seq) in
  match code with
  | None => ret None
  | Some code =>
    if code =? -3 then modify (show Star);;; ret (Some ndone)
    else
      let* sarecv := gets sarecv in
      let* salast := gets salast in
      (if negb (sarecv =? salast) then modify (show (From sarecv));;; modify (set_salast sarecv) else skip);;;
      modify (show (Rtt (tv_sub (received_at w seq) (sent_at w seq))));;;
      if code =? -1 then ret (Some (ndone + 1))
      else (if code >=? 0 then modify (show (Code code)) else skip);;; ret (Some ndone)
  end.

(** [for (probe = 0; probe < nprobes; probe++)]; [n] probes are left, and
    [seq] is that of the last one sent. *)
Fixpoint probe_loop (n : nat) (ttl seq ndone : Z) : M tracer (option (Z * Z)) :=
  match n with
  | O => ret (Some (seq, ndone))
  | S n =>
    let seq := seq + 1 in
    let* r := probe_once ttl seq ndone in
    match r with None => ret None | Some ndone => probe_loop n ttl seq ndone end
  end.

(** [for (ttl = 1; ttl <= max_ttl && done == 0; ttl++)]; whether the loop has
    come to its end. *)
Fixpoint ttl_loop (nprobes : nat) (max_ttl : Z) (n : nat) (ttl seq ndone : Z) : M tracer bool :=
  if (ttl <=? max_ttl) && (ndone =? 0) then
    match n with
    | O => nofuel
    | S n =>
      modify (set_salast 0);;;
      modify (show (Hop ttl));;;
      let* r := probe_loop nprobes ttl seq ndone in
      match r with
      | None => ret false
      | Some (seq, ndone) =>
        modify (show Newline);;;
        ttl_loop nprobes max_ttl n (ttl + 1) seq ndone
      end
    end
  else ret true.

(** [traceloop] *)
Definition traceloop (nprobes : nat) (max_ttl : Z) : M tracer bool :=
  modify (set_gotalarm true);;;
  ttl_loop nprobes max_ttl (Z.to_nat max_ttl) 1 0 0.
End receiving.

(** [main]: 3 probes, 30 hops. *)
Definition datalen : Z := 24.
Definition first_port : Z := 32768 + 666.
Definition source_port (pid : Z) : Z := u16 (Z.lor (Z.land pid 65535) 32768).

(** * What a run must show *)

(** A probe is lost, or answered by a host with what the receiver returns:
    -2 for a router, -1 for the destination, another code otherwise. *)
Abbreviation reply := (option (Z * Z)).

Section report.
Context (dport : Z) (w : world) (route : Z -> reply) (nprobes : nat).

(** What is shown for the probes [seq + 1] to [seq + n]; [last] is the host shown last. *)
Fixpoint probes (n : nat) (ttl seq last : Z) : list event :=
  match n with
  | O => []
  | S n =>
    let seq := seq + 1 in
    Sent (u16 seq) (u16 ttl) (u16 (dport + seq)) ::
    match route seq with
    | None => Star :: probes n ttl seq last
    | Some (from, code) =>
      (if decide (from = last) then [] else [From from]) ++
      [Rtt (tv_sub (received_at w seq) (sent_at w seq))] ++
      (if decide (0 <= code) then [Code code] else []) ++
      probes n ttl seq from
    end
  end.
Definition hop (ttl : Z) : list event :=
  Hop ttl :: probes nprobes ttl ((ttl - 1) * Z.of_nat nprobes) 0 ++ [Newline].
(** One of the probes with this TTL has reached the destination. *)
Definition reached (ttl : Z) : Prop :=
  exists i from, 1 <= i <= Z.of_nat nprobes /\ route ((ttl - 1) * Z.of_nat nprobes + i) = Some (from, -1).
End report.

(** * Receiving *)

Section receives.
Context (examine : Z -> bytes -> Z -> M unit (option Z)).

(** A packet is an answer, or is passed over, whatever is behind it in the buffer. *)
Definition gives (seq : Z) (d : bytes) (r : option Z) : Prop :=
  (length d <= BUFSIZE)%nat /\ forall junk, examine seq (d ++ junk) (Z.of_nat (length d)) tt = Ret r tt.

Inductive delivers (seq : Z) : list turn -> reply -> Prop :=
| delivers_answer a from d c ts : gives seq d (Some c) -> c <> -3 -> delivers seq (Turn a (Packet from d) :: ts) (Some (from, c))
| delivers_other from d ts r : gives seq d None -> delivers seq ts r -> delivers seq (Turn false (Packet from d) :: ts) r
| delivers_again ts r : delivers seq ts r -> delivers seq (Turn false Interrupted :: ts) r
| delivers_alarm ts : delivers seq (Turn true Interrupted :: ts) None
| delivers_alarm_other from d ts : gives seq d None -> delivers seq (Turn true (Packet from d) :: ts) None.

(** What the receiver returns for a reply, and leaves. *)
Definition received (r : reply) (s s' : tracer) : Prop :=
  length (recvbuf s') = BUFSIZE /\ salast s' = salast s /\ shown s' = shown s /\
  match r with Some (from, _) => sarecv s' = from | None => True end.
Definition returned (r : reply) : Z := match r with Some (_, c) => c | None => -3 end.

Lemma packet_step seq from d s r (k : option Z -> M tracer (option Z)) :
  gives seq d r -> length (recvbuf s) = BUFSIZE ->
  exists s', length (recvbuf s') = BUFSIZE /\ salast s' = salast s /\ shown s' = shown s /\ sarecv s' = from /\ gotalarm s' = gotalarm s /\
    (modify (receive from (take BUFSIZE d));;;
     let* buf := gets recvbuf in
     let* r := zoom (fun _ => tt) (fun _ s => s) (examine seq buf (Z.of_nat (length (take BUFSIZE d)))) in k r) s = k r s'.
Proof.
  intros [Hd He] Hb. rewrite take_ge by done. exists (receive from d s). split_and!; try done.
  - unfold receive. cbn [recvbuf]. rewrite splice_length; lia.
  - rewrite bind_modify, bind_gets. unfold receive at 1. cbn [recvbuf]. rewrite splice_front.
    by rewrite (bind_run _ _ _ r (receive from d s)) by (unfold zoom; by rewrite He).
Qed.

Lemma recv_run seq ts r s :
  delivers seq ts r -> length (recvbuf s) = BUFSIZE ->
  exists s', recv examine seq ts s = Ret (Some (returned r)) s' /\ received r s s'.
Proof.
  intros H Hb. unfold recv. rewrite bind_modify.
  assert (G : forall s, gotalarm s = false -> length (recvbuf s) = BUFSIZE -> exists s',
    recv_loop examine seq ts s = Ret (Some (returned r)) s' /\ received r s s'); [|by apply (G (set_gotalarm false s))].
  clear s Hb. assert (Late : forall ts s, gotalarm s = true -> recv_loop examine seq ts s = Ret (Some (-3)) s).
  { intros ts' s Hg. destruct ts'; cbn [recv_loop]; by rewrite bind_gets, Hg. }
  induction H as [a from d c ts Hd _|from d ts r Hd H IH|ts r H IH|ts|from d ts Hd]; intros s Hg Hb;
    cbn [recv_loop alarmed arrives]; rewrite bind_gets, Hg; unfold skip; rewrite ?bind_modify.
  - destruct (packet_step seq from d (if a then set_gotalarm true s else s) (Some c)
      (fun r => match r with None => recv_loop examine seq ts | Some code => ret (Some code) end) Hd ltac:(by destruct a))
      as (s' & B & L & S & F & _ & E). exists s'. split.
    + destruct a; exact E.
    + unfold received. rewrite L, S. by destruct a.
  - destruct (packet_step seq from d s None
      (fun r => match r with None => recv_loop examine seq ts | Some code => ret (Some code) end) Hd Hb)
      as (s1 & B & L & S & F & G & E). destruct (IH s1 ltac:(by rewrite G) B) as (s' & E' & R).
    exists s'. split; [etransitivity; [exact E|exact E']|]. unfold received in *. by rewrite <-L, <-S.
  - destruct (IH s Hg Hb) as (s' & E & R). by exists s'.
  - rewrite Late by done. by exists (set_gotalarm true s).
  - destruct (packet_step seq from d (set_gotalarm true s) None
      (fun r => match r with None => recv_loop examine seq ts | Some code => ret (Some code) end) Hd Hb)
      as (s1 & B & L & S & F & G & E). exists s1. split; [etransitivity; [exact E|by apply Late]|]. done.
Qed.
End receives.

(** * The loops *)

Section loops.
Context (dport : Z) (w : world) (examine : Z -> bytes -> Z -> M unit (option Z)) (route : Z -> reply).

Definition is_done (r : reply) : bool := match r with Some (_, c) => c =? -1 | None => false end.

Lemma probe_once_run ttl seq ndone s :
  delivers examine seq (turns w seq) (route seq) -> length (recvbuf s) = BUFSIZE ->
  exists s', probe_once dport examine w ttl seq ndone s = Ret (Some (ndone + Z.b2z (is_done (route seq)))) s' /\
    length (recvbuf s') = BUFSIZE /\ salast s' = (match route seq with Some (from, _) => from | None => salast s end) /\
    forall n, shown s' ++ probes dport w route n ttl seq (salast s') = shown s ++ probes dport w route (S n) ttl (seq - 1) (salast s).
Proof.
  intros Hd Hb. unfold probe_once. rewrite bind_modify. set (s0 := show _ s).
  assert (Hc : match route seq with Some (_, c) => c <> -3 | None => True end) by (clear -Hd; by induction Hd).
  destruct (recv_run examine seq (turns w seq) (route seq) s0 Hd Hb) as (s1 & E & B & L & S & F).
  rewrite (bind_run _ _ _ _ _ E). cbn [probes]. rewrite Z.sub_add. unfold returned, is_done.
  destruct (route seq) as [[from c]|].
  - rewrite (proj2 (Z.eqb_neq c (-3))) by done. rewrite !bind_gets, F. rewrite L. change (salast s0) with (salast s).
    set (s2 := if decide (from = salast s) then s1 else set_salast from (show (From from) s1)).
    rewrite (bind_run _ _ _ tt s2).
    2:{ subst s2. destruct (decide (from = salast s)) as [->|N]; [by rewrite Z.eqb_refl|]. by rewrite (proj2 (Z.eqb_neq _ _)). }
    assert (H2 : length (recvbuf s2) = BUFSIZE /\ salast s2 = from /\ shown s2 = shown s1 ++ if decide (from = salast s) then [] else [From from]).
    { subst s2. destruct (decide (from = salast s)) as [->|N]; [by rewrite app_nil_r, L|done]. }
    destruct H2 as (B2 & L2 & S2). clearbody s2. rewrite bind_modify. set (s3 := show _ s2).
    destruct (Z.eqb_spec c (-1)) as [->|N].
    + exists s3. split_and!; try done. intros n. change (shown s3) with (shown s2 ++ [Rtt (tv_sub (received_at w seq) (sent_at w seq))]).
      change (salast s3) with (salast s2). rewrite (decide_False (P := 0 <= -1)) by lia. rewrite L2, S2, S. change (shown s0) with (shown s ++ [Sent (u16 seq) (u16 ttl) (u16 (dport + seq))]).
      by rewrite <-!app_assoc.
    + destruct (Z.geb_spec c 0) as [Hpos|Hneg].
      * exists (show (Code c) s3). split; [by rewrite Z.add_0_r|]. split_and!; try done. intros n. rewrite (decide_True (P := 0 <= c)) by lia.
        change (shown (show (Code c) s3)) with ((shown s2 ++ [Rtt (tv_sub (received_at w seq) (sent_at w seq))]) ++ [Code c]).
        change (salast (show (Code c) s3)) with (salast s2). rewrite L2, S2, S.
        change (shown s0) with (shown s ++ [Sent (u16 seq) (u16 ttl) (u16 (dport + seq))]). by rewrite <-!app_assoc.
      * exists s3. split; [by rewrite Z.add_0_r|]. split_and!; try done. intros n. rewrite (decide_False (P := 0 <= c)) by lia.
        change (shown s3) with (shown s2 ++ [Rtt (tv_sub (received_at w seq) (sent_at w seq))]).
        change (salast s3) with (salast s2). rewrite L2, S2, S.
        change (shown s0) with (shown s ++ [Sent (u16 seq) (u16 ttl) (u16 (dport + seq))]). by rewrite <-!app_assoc.
  - exists (show Star s1). split; [by rewrite Z.add_0_r|]. split_and!; try done. intros n.
    change (shown (show Star s1)) with (shown s1 ++ [Star]). change (salast (show Star s1)) with (salast s1). rewrite S, L.
    change (shown s0) with (shown s ++ [Sent (u16 seq) (u16 ttl) (u16 (dport + seq))]). by rewrite <-!app_assoc.
Qed.

Lemma probe_loop_run n ttl seq ndone s :
  (forall i, 1 <= i <= Z.of_nat n -> delivers examine (seq + i) (turns w (seq + i)) (route (seq + i))) ->
  length (recvbuf s) = BUFSIZE ->
  exists s' ndone', probe_loop dport examine w n ttl seq ndone s = Ret (Some (seq + Z.of_nat n, ndone')) s' /\
    length (recvbuf s') = BUFSIZE /\ shown s' = shown s ++ probes dport w route n ttl seq (salast s) /\ ndone <= ndone' /\
    (ndone < ndone' <-> exists i from, 1 <= i <= Z.of_nat n /\ route (seq + i) = Some (from, -1)).
Proof.
  revert seq ndone s. induction n as [|n IH]; intros seq ndone s Hd Hb.
  { exists s, ndone. split; [by rewrite Z.add_0_r|]. split; [done|]. split; [by cbn; rewrite app_nil_r|]. split; [lia|].
    split; [lia|]. intros (i & _ & Hi & _). lia. }
  cbn [probe_loop]. destruct (probe_once_run ttl (seq + 1) ndone s) as (s1 & E & B & _ & S); [apply Hd; lia|done|].
  rewrite (bind_run _ _ _ _ _ E). set (nd1 := ndone + Z.b2z _).
  assert (Hnd : ndone <= nd1 /\ (ndone < nd1 <-> exists from, route (seq + 1) = Some (from, -1))).
  { subst nd1. unfold is_done. destruct (route (seq + 1)) as [[from c]|]; [|split; [cbn; lia|split; [cbn; lia|by intros [? ?]]]].
    destruct (Z.eqb_spec c (-1)) as [->|N]; cbn; (split; [lia|]).
    - split; [eauto|lia].
    - split; [lia|]. intros [from' H]. congruence. }
  destruct (IH (seq + 1) nd1 s1) as (s2 & nd2 & E2 & B2 & S2 & Hle & Hiff); [|done|].
  { intros i Hi. replace (seq + 1 + i) with (seq + (i + 1)) by lia. apply Hd. lia. }
  exists s2, nd2. split; [rewrite E2; do 3 f_equal; lia|]. split; [done|]. split.
  { rewrite S2, S. by rewrite Z.add_simpl_r. }
  split; [lia|]. split.
  - intros Hlt. destruct (Z.eq_dec nd1 ndone) as [En|Nn].
    + destruct (proj1 Hiff ltac:(lia)) as (i & from & Hi & Hr). exists (i + 1), from. split; [lia|].
      by replace (seq + (i + 1)) with (seq + 1 + i) by lia.
    + destruct (proj1 (proj2 Hnd) ltac:(lia)) as (from & Hr). exists 1, from. split; [lia|done].
  - intros (i & from & Hi & Hr). destruct (Z.eq_dec i 1) as [->|Ni].
    + pose proof (proj2 (proj2 Hnd) (ex_intro _ from Hr)). lia.
    + assert (nd1 < nd2); [|lia]. apply Hiff. exists (i - 1), from. split; [lia|].
      by replace (seq + 1 + (i - 1)) with (seq + i) by lia.
Qed.

Lemma ttl_loop_run nprobes max_ttl n ttl s :
  0 < ttl -> Z.of_nat n = max_ttl - (ttl - 1) -> length (recvbuf s) = BUFSIZE ->
  (forall q, 1 <= q <= max_ttl * Z.of_nat nprobes -> delivers examine q (turns w q) (route q)) ->
  exists s' h, ttl_loop dport examine w nprobes max_ttl n ttl ((ttl - 1) * Z.of_nat nprobes) 0 s = Ret true s' /\
    ttl - 1 <= h <= max_ttl /\ (h = max_ttl \/ reached route nprobes h) /\
    (forall t, ttl <= t < h -> ~ reached route nprobes t) /\
    shown s' = shown s ++ concat (hop dport w route nprobes <$> seqZ ttl (h - ttl + 1)).
Proof.
  revert ttl s. induction n as [|n IH]; intros ttl s Ht Hn Hb Hd.
  { exists s, max_ttl. cbn [ttl_loop]. rewrite (proj2 (Z.leb_gt _ _)) by lia. cbn [andb].
    split; [done|]. split; [lia|]. split; [by left|]. split; [lia|]. rewrite seqZ_nil by lia. cbn. by rewrite app_nil_r. }
  cbn [ttl_loop]. rewrite (proj2 (Z.leb_le _ _)) by lia. cbn [Z.eqb andb]. rewrite !bind_modify.
  set (s0 := show _ _). destruct (probe_loop_run nprobes ttl ((ttl - 1) * Z.of_nat nprobes) 0 s0)
    as (s1 & nd & E & B & S & H0 & Hr); [|done|].
  { intros i Hi. apply Hd. nia. }
  rewrite (bind_run _ _ _ _ _ E), bind_modify. set (s2 := show Newline s1).
  replace ((ttl - 1) * Z.of_nat nprobes + Z.of_nat nprobes) with ((ttl + 1 - 1) * Z.of_nat nprobes) by lia.
  assert (Hs2 : shown s2 = shown s ++ hop dport w route nprobes ttl).
  { change (shown s2) with (shown s1 ++ [Newline]). rewrite S. change (salast s0) with 0.
    change (shown s0) with (shown s ++ [Hop ttl]). unfold hop. by rewrite <-!app_assoc. }
  destruct (Z.eqb_spec nd 0) as [->|Nd].
  - destruct (IH (ttl + 1) s2) as (s' & h & E' & Hh & Hend & Hnot & Hsh); [lia|lia|done|done|].
    exists s', h. split; [done|]. split; [lia|]. split; [done|]. split.
    + intros t Htt. destruct (Z.eq_dec t ttl) as [->|]; [|apply Hnot; lia]. intros (i & from & Hi & Hri).
      assert (0 < 0); [|lia]. apply Hr. eauto.
    + rewrite Hsh, Hs2, (seqZ_cons ttl) by lia. cbn [fmap list_fmap concat]. rewrite <-app_assoc.
      by replace (Z.pred (h - ttl + 1)) with (h - (ttl + 1) + 1) by lia.
  - exists s2, ttl. split.
    { destruct n; cbn [ttl_loop]; rewrite (proj2 (Z.eqb_neq nd 0)), andb_false_r by done; done. }
    split; [lia|]. split; [right; apply Hr; lia|]. split; [lia|].
    rewrite Hs2. replace (ttl - ttl + 1) with 1 by lia. rewrite seqZ_cons, seqZ_nil by lia. cbn. by rewrite app_nil_r.
Qed.
End loops.

(** * Answers over IPv4 *)

Section v4.
Context (sport dport : Z).

(** An ICMP error about a UDP datagram, small enough for the buffer. *)
Record error_v4 (m : message) : Prop := {
  x4_parts : parts_ok m;
  x4_outer : ip4_header (outer m);
  x4_inner : ip4_header (inner m);
  x4_length : (20 <= length (inner m))%nat;
  x4_proto : inner m !! 9%nat = Some IPPROTO_UDP;
  x4_size : (length (ip4_bytes m) <= BUFSIZE)%nat
}.
(** It is about probe [seq]. *)
Definition about (seq : Z) (m : message) : Prop :=
  port_of (Icmp.sport m) = htons (u16 sport) /\ port_of (Icmp.dport m) = htons (u16 (dport + seq)).
(** What the program makes of the type and the code. *)
Definition meaning_v4 (m : message) : option Z :=
  if decide (type m = ICMP_TIMXCEED /\ code m = ICMP_TIMXCEED_INTRANS) then Some (-2)
  else if decide (type m = ICMP_UNREACH) then Some (if decide (code m = ICMP_UNREACH_PORT) then -1 else code m)
  else None.

Lemma quotes_v4_run m junk seq : error_v4 m ->
  exists q, quotes_v4 sport dport (ip4_bytes m ++ junk) (Z.of_nat (length (outer m)))
    (Z.of_nat (length (ip4_bytes m)) - Z.of_nat (length (outer m))) seq tt = Ret q tt /\ (q = true <-> about seq m).
Proof.
  intros H. pose proof (x4_length _ H) as Hin. pose proof (ip4_bytes_length m (x4_parts _ H)) as Hl.
  destruct (ip4_reads m junk (x4_parts _ H) (x4_outer _ H) (x4_inner _ H)) as [_ _ _ (c2 & E2 & Hc2) Ef _ Esp Edp _].
  unfold quotes_v4. rewrite (proj2 (Z.ltb_ge _ (8 + 20))) by lia. rewrite (bind_run _ _ _ _ _ E2), Hc2. cbv zeta.
  rewrite (proj2 (Z.ltb_ge _ _)) by lia.
  rewrite (bind_run _ _ _ _ _ (Ef 9 _ ltac:(lia) (x4_proto _ H))), (bind_run _ _ _ _ _ Esp), (bind_run _ _ _ _ _ Edp).
  eexists. split; [done|]. unfold about. cbn [Z.eqb Pos.eqb IPPROTO_UDP]. rewrite !andb_true_iff, !Z.eqb_eq. tauto.
Qed.

Lemma examine_v4_run m junk seq : error_v4 m -> exists q, (q = true <-> about seq m) /\
  examine_v4 sport dport seq (ip4_bytes m ++ junk) (Z.of_nat (length (ip4_bytes m))) tt =
    Ret (if q then meaning_v4 m else None) tt.
Proof.
  intros H. destruct (quotes_v4_run m junk seq H) as (q & E & Hq). exists q. split; [done|].
  pose proof (x4_length _ H) as Hin. pose proof (ip4_bytes_length m (x4_parts _ H)) as Hl.
  destruct (ip4_reads m junk (x4_parts _ H) (x4_outer _ H) (x4_inner _ H)) as [(c1 & E1 & Hc1) Ety Eco _ _ _ _ _ _].
  unfold examine_v4. rewrite (bind_run _ _ _ _ _ E1), Hc1. cbv zeta. rewrite (proj2 (Z.ltb_ge _ 8)) by lia.
  rewrite (bind_run _ _ _ _ _ Ety), (bind_run _ _ _ _ _ Eco). unfold meaning_v4.
  destruct (Z.eqb_spec (type m) ICMP_TIMXCEED) as [Ht|Ht], (Z.eqb_spec (code m) ICMP_TIMXCEED_INTRANS) as [Hc|Hc]; cbn [andb].
  { rewrite decide_True by done. rewrite (bind_run _ _ _ _ _ E). by destruct q. }
  all: rewrite decide_False by tauto; destruct (Z.eqb_spec (type m) ICMP_UNREACH) as [Hu|Hu].
  1, 3, 5: rewrite decide_True by done; rewrite (bind_run _ _ _ _ _ E); destruct q; [|done];
    destruct (Z.eqb_spec (code m) ICMP_UNREACH_PORT); [by rewrite decide_True|by rewrite decide_False].
  all: rewrite decide_False by done; by destruct q.
Qed.

(** Ports of different probes differ. *)
Lemma about_one seq seq' m : about seq m -> about seq' m -> (seq - seq') mod 65536 = 0.
Proof.
  intros [_ E] [_ E']. rewrite E in E'. apply (f_equal htons) in E'. rewrite !htons_htons in E' by (apply (wrapu_range 16); lia).
  unfold wrapu in E'. change (2 ^ 16) with 65536 in E'.
  replace (seq - seq') with (dport + seq - (dport + seq')) by lia. rewrite Zminus_mod, E', Z.sub_diag. done.
Qed.

(** Another ICMP message. *)
Definition other_v4 (d : bytes) : Prop :=
  exists o t c b, d = o ++ [t; c] ++ b /\ ip4_header o /\ t <> ICMP_TIMXCEED /\ t <> ICMP_UNREACH /\
    (6 <= length b)%nat /\ (length d <= BUFSIZE)%nat.

Lemma other_gives seq d : other_v4 d -> gives (examine_v4 sport dport) seq d None.
Proof.
  intros (o & t & c & b & -> & Ho & Ht & Hu & Hb & Hl). split; [done|]. intros junk. unfold examine_v4.
  rewrite <-!app_assoc. destruct (ip4_header_length o ([t; c] ++ b ++ junk) Ho) as (v & E & Hv).
  rewrite (bind_run _ _ _ _ _ E), Hv. cbv zeta.
  rewrite !length_app, (proj2 (Z.ltb_ge _ 8)) by (cbn [length]; lia).
  rewrite (field_skip o _ _ 0), (field_skip o _ _ 1) by lia.
  rewrite (bind_run _ _ tt t tt), (bind_run _ _ tt c tt) by done.
  by rewrite (proj2 (Z.eqb_neq t _)), (proj2 (Z.eqb_neq t _)) by done.
Qed.

(** What can arrive while the answer to probe [seq] is waited for: the answer;
    answers to other probes, that come late; other ICMP messages; signals; and
    the alarm. *)
Inductive network (seq : Z) : list turn -> reply -> Prop :=
| net_answer a from m c ts : error_v4 m -> about seq m -> meaning_v4 m = Some c -> 0 <= code m ->
    network seq (Turn a (Packet from (ip4_bytes m)) :: ts) (Some (from, c))
| net_late from m seq' ts r : error_v4 m -> about seq' m -> (seq - seq') mod 65536 <> 0 -> network seq ts r ->
    network seq (Turn false (Packet from (ip4_bytes m)) :: ts) r
| net_other from d ts r : other_v4 d -> network seq ts r -> network seq (Turn false (Packet from d) :: ts) r
| net_signal ts r : network seq ts r -> network seq (Turn false Interrupted :: ts) r
| net_alarm ts : network seq (Turn true Interrupted :: ts) None.

Lemma network_delivers seq ts r : network seq ts r -> delivers (examine_v4 sport dport) seq ts r.
Proof.
  induction 1 as [a from m c ts Hm Ha Hc H0|from m seq' ts r Hm Ha Hne _ IH|from d ts r Hd _ IH|ts r _ IH|ts].
  - apply delivers_answer.
    + split; [apply Hm|]. intros junk. destruct (examine_v4_run m junk seq Hm) as (q & Hq & E).
      rewrite E, Hc. by destruct q; [|by apply Hq in Ha].
    + unfold meaning_v4 in Hc. repeat case_decide; try done; injection Hc as <-; lia.
  - apply delivers_other; [|done]. split; [apply Hm|]. intros junk. destruct (examine_v4_run m junk seq Hm) as (q & Hq & E).
    rewrite E. destruct q; [|done]. destruct Hne. apply (about_one seq seq' m); [by apply Hq|done].
  - apply delivers_other; [by apply other_gives|done].
  - by apply delivers_again.
  - apply delivers_alarm.
Qed.
End v4.

(** C27: Over IPv4, whatever the delays (answers that come after the alarm are
    not taken for answers to later probes), the trace shows each probe with
    the fate it had, and ends with the first TTL at which a probe reached the
    destination, or with the last one allowed. *)
Theorem traceroute_v4 sport dport w route nprobes max_ttl s :
  0 <= max_ttl -> length (recvbuf s) = BUFSIZE ->
  (forall q, 1 <= q <= max_ttl * Z.of_nat nprobes -> network sport dport q (turns w q) (route q)) ->
  exists s' h, traceloop dport (examine_v4 sport dport) w nprobes max_ttl s = Ret true s' /\
    0 <= h <= max_ttl /\ (h = max_ttl \/ reached route nprobes h) /\
    (forall t, 1 <= t < h -> ~ reached route nprobes t) /\
    shown s' = shown s ++ concat (hop dport w route nprobes <$> seqZ 1 h).
Proof.
  intros Hm Hb Hn. unfold traceloop. rewrite bind_modify.
  destruct (ttl_loop_run dport w (examine_v4 sport dport) route nprobes max_ttl (Z.to_nat max_ttl) 1 (set_gotalarm true s))
    as (s' & h & E & Hh & Hend & Hnot & Hs); [lia|lia|done|by intros; apply network_delivers, Hn|].
  exists s', h. split; [done|]. split; [lia|]. split; [done|]. split; [done|]. rewrite Hs. by replace (h - 1 + 1) with h by lia.
Qed.

(** * Answers over IPv6 *)

Section v6.
Context (sport dport : Z).

Record error_v6 (m : message) : Prop := {
  x6_parts : parts_ok m;
  x6_inner : length (inner m) = 40%nat;
  x6_proto : inner m !! 6%nat = Some IPPROTO_UDP;
  x6_size : (length (ip6_bytes m) <= BUFSIZE)%nat
}.
Definition expired_v6 (m : message) : Prop := type m = ICMP6_TIME_EXCEEDED /\ code m = ICMP6_TIME_EXCEED_TRANSIT.
Definition meaning_v6 (m : message) : option Z :=
  if decide (type m = ICMP6_TIME_EXCEEDED /\ code m = ICMP6_TIME_EXCEED_TRANSIT) then Some (-2)
  else if decide (type m = ICMP6_DST_UNREACH) then Some (if decide (code m = ICMP6_DST_UNREACH_NOPORT) then -1 else code m)
  else None.

Lemma examine_v6_run m junk seq : error_v6 m -> exists q, (q = true <-> about sport dport seq m) /\
  examine_v6 sport dport seq (ip6_bytes m ++ junk) (Z.of_nat (length (ip6_bytes m))) tt =
    if decide (expired_v6 m) then if q then Ret (Some (-2)) tt else Undef "ret"
    else Ret (if q then meaning_v6 m else None) tt.
Proof.
  intros H. pose proof (x6_inner _ H) as Hin. pose proof (ip6_bytes_length m (x6_parts _ H)) as Hl.
  destruct (ip6_reads m junk (x6_parts _ H)) as [Ety Eco Ef _ Esp Edp _]. rewrite Hin in Esp, Edp.
  assert (Q : exists q, quotes_v6 sport dport (ip6_bytes m ++ junk) seq tt = Ret q tt /\ (q = true <-> about sport dport seq m)).
  { unfold quotes_v6. cbv zeta. rewrite (bind_run _ _ _ _ _ (Ef 6 _ ltac:(lia) (x6_proto _ H))), (bind_run _ _ _ _ _ Esp), (bind_run _ _ _ _ _ Edp).
    eexists. split; [done|]. unfold about. cbn [Z.eqb Pos.eqb IPPROTO_UDP]. rewrite !andb_true_iff, !Z.eqb_eq. tauto. }
  destruct Q as (q & E & Hq). exists q. split; [done|]. unfold examine_v6. cbv zeta. rewrite (proj2 (Z.ltb_ge _ 8)) by lia.
  rewrite (bind_run _ _ _ _ _ Ety), (bind_run _ _ _ _ _ Eco), !(proj2 (Z.ltb_ge _ (8 + 40 + 4))) by lia. unfold meaning_v6, expired_v6.
  destruct (Z.eqb_spec (type m) ICMP6_TIME_EXCEEDED) as [Ht|Ht], (Z.eqb_spec (code m) ICMP6_TIME_EXCEED_TRANSIT) as [Hc|Hc]; cbn [andb].
  { rewrite !decide_True by done. rewrite (bind_run _ _ _ _ _ E). by destruct q. }
  all: rewrite !decide_False by tauto; destruct (Z.eqb_spec (type m) ICMP6_DST_UNREACH) as [Hu|Hu].
  1, 3, 5: rewrite decide_True by done; rewrite (bind_run _ _ _ _ _ E); destruct q; [|done];
    destruct (Z.eqb_spec (code m) ICMP6_DST_UNREACH_NOPORT); [by rewrite decide_True|by rewrite decide_False].
  all: rewrite decide_False by done; by destruct q.
Qed.

(** What can arrive, as over IPv4, but for errors of routers about other
    probes. *)
Inductive network6 (seq : Z) : list turn -> reply -> Prop :=
| net6_answer a from m c ts : error_v6 m -> about sport dport seq m -> meaning_v6 m = Some c -> 0 <= code m ->
    network6 seq (Turn a (Packet from (ip6_bytes m)) :: ts) (Some (from, c))
| net6_late from m seq' ts r : error_v6 m -> about sport dport seq' m -> (seq - seq') mod 65536 <> 0 -> ~ expired_v6 m ->
    network6 seq ts r -> network6 seq (Turn false (Packet from (ip6_bytes m)) :: ts) r
| net6_signal ts r : network6 seq ts r -> network6 seq (Turn false Interrupted :: ts) r
| net6_alarm ts : network6 seq (Turn true Interrupted :: ts) None.

Lemma network6_delivers seq ts r : network6 seq ts r -> delivers (examine_v6 sport dport) seq ts r.
Proof.
  induction 1 as [a from m c ts Hm Ha Hc H0|from m seq' ts r Hm Ha Hne Hx _ IH|ts r _ IH|ts].
  - apply delivers_answer.
    + split; [apply Hm|]. intros junk. destruct (examine_v6_run m junk seq Hm) as (q & Hq & ->).
      rewrite (proj2 Hq Ha), Hc. case_decide as Hx; [|done]. unfold meaning_v6 in Hc. by rewrite decide_True in Hc; [injection Hc as <-|].
    + unfold meaning_v6 in Hc. repeat case_decide; try done; injection Hc as <-; lia.
  - apply delivers_other; [|done]. split; [apply Hm|]. intros junk. destruct (examine_v6_run m junk seq Hm) as (q & Hq & ->).
    rewrite decide_False by done. destruct q; [|done]. destruct Hne. apply (about_one sport dport seq seq' m); [by apply Hq|done].
  - by apply delivers_again.
  - apply delivers_alarm.
Qed.
End v6.

(** Over IPv6 the same holds when no router answers late. *)
Theorem traceroute_v6 sport dport w route nprobes max_ttl s :
  0 <= max_ttl -> length (recvbuf s) = BUFSIZE ->
  (forall q, 1 <= q <= max_ttl * Z.of_nat nprobes -> network6 sport dport q (turns w q) (route q)) ->
  exists s' h, traceloop dport (examine_v6 sport dport) w nprobes max_ttl s = Ret true s' /\
    0 <= h <= max_ttl /\ (h = max_ttl \/ reached route nprobes h) /\
    (forall t, 1 <= t < h -> ~ reached route nprobes t) /\
    shown s' = shown s ++ concat (hop dport w route nprobes <$> seqZ 1 h).
Proof.
  intros Hm Hb Hn. unfold traceloop. rewrite bind_modify.
  destruct (ttl_loop_run dport w (examine_v6 sport dport) route nprobes max_ttl (Z.to_nat max_ttl) 1 (set_gotalarm true s))
    as (s' & h & E & Hh & Hend & Hnot & Hs); [lia|lia|done|by intros; apply network6_delivers, Hn|].
  exists s', h. split; [done|]. split; [lia|]. split; [done|]. split; [done|]. rewrite Hs. by replace (h - 1 + 1) with h by lia.
Qed.

(** An answer of a router to an earlier probe makes recv_v6 return a value
    that was never set. *)
Theorem recv_v6_late_router sport dport seq seq' from m ts s :
  error_v6 m -> expired_v6 m -> about sport dport seq' m -> (seq - seq') mod 65536 <> 0 -> length (recvbuf s) = BUFSIZE ->
  recv (examine_v6 sport dport) seq (Turn false (Packet from (ip6_bytes m)) :: ts) s = Undef "ret".
Proof.
  intros Hm Hx Ha Hne Hb. unfold recv. rewrite bind_modify. cbn [recv_loop alarmed arrives]. rewrite bind_gets. cbn [gotalarm set_gotalarm].
  unfold skip. unfold bind at 1, ret at 1. rewrite take_ge by apply (x6_size _ Hm). rewrite bind_modify, bind_gets.
  unfold receive at 1. cbn [recvbuf set_gotalarm]. rewrite splice_front.
  destruct (examine_v6_run sport dport m (drop (length (ip6_bytes m)) (recvbuf s)) seq Hm) as (q & Hq & E). rewrite decide_True in E by done.
  destruct q; [destruct Hne; apply (about_one sport dport seq seq' m); [by apply Hq|done]|].
  unfold bind, zoom. by rewrite E.
Qed.

(** The times shown are differences, in seconds and microseconds below a million. *)
Lemma tv_sub_spec out into :
  0 <= out.2 < 1000000 -> 0 <= into.2 < 1000000 ->
  let d := tv_sub out into in
  d.1 * 1000000 + d.2 = (out.1 * 1000000 + out.2) - (into.1 * 1000000 + into.2) /\ 0 <= d.2 < 1000000.
Proof.
  destruct out as [s u], into as [s' u']. cbn [fst snd]. intros H H'. unfold tv_sub. cbn [fst snd].
  destruct (Z.ltb_spec (u - u') 0); cbn [fst snd]; lia.
Qed.

(** * A run *)

(** Three probes a hop: a router, a lost probe and a late answer, then the
    destination. *)
Definition demo_error (t c seq : Z) : message :=
  Message (69 :: replicate 19 0) t c (replicate 6 0) (69 :: replicate 8 0 ++ [17] ++ replicate 10 0)
    (let p := htons (source_port 7) in [p mod 256; p / 256]) (let p := htons (u16 (first_port + seq)) in [p mod 256; p / 256]) [].
Definition demo_turns (seq : Z) : list turn :=
  if seq =? 2 then [Turn true Interrupted]
  else if seq =? 3 then [Turn false (Packet 10 (ip4_bytes (demo_error 11 0 2))); Turn false (Packet 10 (ip4_bytes (demo_error 11 0 3)))]
  else if seq <=? 3 then [Turn false (Packet 10 (ip4_bytes (demo_error 11 0 seq)))]
  else [Turn false Interrupted; Turn false (Packet 20 (ip4_bytes (demo_error 3 3 seq)))].
Definition demo_route (seq : Z) : reply := if seq =? 2 then None else if seq <=? 3 then Some (10, -2) else Some (20, -1).
Definition demo_world : world := World demo_turns (fun seq => (seq, 900000)) (fun seq => (seq + 1, 100000)).
Definition demo_start : tracer := Tracer (replicate BUFSIZE 0) false 0 0 [].

Definition demo_shown : list event :=
  [Hop 1; Sent 1 1 33435; From 10; Rtt (0, 200000); Sent 2 1 33436; Star; Sent 3 1 33437; Rtt (0, 200000); Newline;
   Hop 2; Sent 4 2 33438; From 20; Rtt (0, 200000); Sent 5 2 33439; Rtt (0, 200000); Sent 6 2 33440; Rtt (0, 200000); Newline].

Example traceroute_demo :
  match traceloop first_port (examine_v4 (source_port 7) first_port) demo_world 3 30 demo_start with
  | Ret true s => shown s = demo_shown
  | _ => False
  end.
Proof. vm_compute. reflexivity. Qed.

Lemma demo_error_ok t c seq : error_v4 (demo_error t c seq).
Proof.
  constructor; [by constructor| | |cbn; lia|done|].
  - refine (ex_intro _ 69 (ex_intro _ (replicate 19 0) _)). done.
  - refine (ex_intro _ 69 (ex_intro _ (replicate 8 0 ++ [17] ++ replicate 10 0) _)). done.
  - apply (bool_decide_unpack _). by vm_compute.
Qed.

Lemma demo_about t c seq : about (source_port 7) first_port seq (demo_error t c seq).
Proof.
  split; cbn [demo_error Icmp.sport Icmp.dport port_of]; [done|]. set (p := htons _).
  pose proof (Z.div_mod p 256 ltac:(lia)). lia.
Qed.

Lemma demo_network q : 1 <= q <= 30 * 3 -> network (source_port 7) first_port q (demo_turns q) (demo_route q).
Proof.
  intros H. unfold demo_turns, demo_route. destruct (Z.eqb_spec q 2) as [->|N]; [apply net_alarm|].
  destruct (Z.eqb_spec q 3) as [->|N3].
  { apply (net_late _ _ _ _ _ 2); [apply demo_error_ok|apply demo_about|done|].
    apply net_answer; [apply demo_error_ok|apply demo_about|done|done]. }
  destruct (Z.leb_spec q 3).
  - apply net_answer; [apply demo_error_ok|apply demo_about|done|done].
  - apply net_signal, net_answer; [apply demo_error_ok|apply demo_about|done|done].
Qed.

Lemma traceroute_v4_witness :
  exists s' h, traceloop first_port (examine_v4 (source_port 7) first_port) demo_world 3 30 demo_start = Ret true s' /\
    0 <= h <= 30 /\ shown s' = concat (hop first_port demo_world demo_route 3 <$> seqZ 1 h).
Proof.
  destruct (traceroute_v4 (source_port 7) first_port demo_world demo_route 3 30 demo_start) as (s' & h & E & Hh & _ & _ & Hs);
    [done|done|exact demo_network|]. by exists s', h.
Defined.

Definition demo_expired : message :=
  Message [] 3 0 (replicate 6 0) (replicate 6 0 ++ [17] ++ replicate 33 0)
    (let p := htons (source_port 7) in [p mod 256; p / 256]) (let p := htons (u16 (first_port + 1)) in [p mod 256; p / 256]) [].

Lemma demo_expired_ok : error_v6 demo_expired.
Proof. constructor; [by constructor|done|done|]. apply (bool_decide_unpack _). by vm_compute. Qed.

Lemma recv_v6_late_router_witness :
  recv (examine_v6 (source_port 7) first_port) 2 [Turn false (Packet 10 (ip6_bytes demo_expired))] demo_start = Undef "ret".
Proof.
  apply (recv_v6_late_router (source_port 7) first_port 2 1 10 demo_expired [] demo_start);
    [exact demo_expired_ok|done|split; vm_compute; done|done|done].
Defined.

Lemma traceroute_v6_witness :
  exists s' h, traceloop first_port (examine_v6 (source_port 7) first_port)
      (World (fun seq => if seq =? 1 then [Turn false (Packet 10 (ip6_bytes demo_expired))] else [Turn true Interrupted]) (fun _ => (0, 0)) (fun _ => (0, 0)))
      1 2 demo_start = Ret true s' /\ 0 <= h <= 2 /\ h = 2.
Proof.
  destruct (traceroute_v6 (source_port 7) first_port
    (World (fun seq => if seq =? 1 then [Turn false (Packet 10 (ip6_bytes demo_expired))] else [Turn true Interrupted]) (fun _ => (0, 0)) (fun _ => (0, 0)))
    (fun seq => if seq =? 1 then Some (10, -2) else None) 1 2 demo_start) as (s' & h & E & Hh & [Hend|(i & from & _ & Hr)] & _); [done|done| |by exists s', h|].
  - intros q Hq. cbn [turns]. destruct (Z.eqb_spec q 1) as [->|]; [|apply net6_alarm].
    apply net6_answer; [exact demo_expired_ok|split; vm_compute; done|done|done].
  - exfalso. revert Hr. by destruct (_ =? 1).
Defined.
