(* ===== verification/Ping.v ===== *)
(** unpv13e/ping (send_v4.c, send_v6.c, proc_v4.c, proc_v6.c, readloop.c,
    sig_alrm.c): echo requests, and what is made of the packets that arrive.
    A [struct timeval] has 16 bytes: a [long], an [int] and padding. *)
From Stdlib Require Import ZArith Lia.
From stdpp Require Import base list strings numbers.
From S2P Require Import Prelude CFile Cksum Packet Icmp Traceroute.
Local Open Scope c_scope.

Definition BUFSIZE : nat := 1500.
#[global] Arguments BUFSIZE : simpl never.

(** * Memory *)

(** [gettimeofday] sets both fields; the padding stays as it was. *)
Definition store_time (i : nat) (tv : Z * Z) : M bytes unit :=
  store i (int_bytes 8 tv.1);;; store (i + 8) (int_bytes 4 tv.2).
Definition load_time (buf : bytes) (i : Z) : M unit (Z * Z) :=
  let* sec := fields buf i 8 in
  let* usec := fields buf (i + 8) 4 in
  ret (i64 (bytes_int sec), i32 (bytes_int usec)).

(** * Sending *)

(** The global variables that change, and the packets given to [Sendto]. *)
Record pinger := Pinger { sendbuf : bytes; nsent : Z; sent : list bytes }.
Definition set_sendbuf b s := Pinger b (nsent s) (sent s).
Definition set_nsent n s := Pinger (sendbuf s) n (sent s).
Definition send d s := Pinger (sendbuf s) (nsent s) (sent s ++ [d]).
Definition on_sendbuf {A} (m : M bytes A) : M pinger A := zoom sendbuf set_sendbuf m.

Section ping.
Context (pid datalen : Z).

(** The header and the data, which are laid out alike in both versions. *)
Definition fill_packet (type seq : Z) (now : Z * Z) : M bytes unit :=
  store 0 [type];;;
  store 1 [0];;;
  store 4 (int_bytes 2 pid);;;
  store 6 (int_bytes 2 seq);;;
  store 8 (replicate (Z.to_nat datalen) 165);;;
  store_time 8 now.

Definition send_v4 (now : Z * Z) : M pinger unit :=
  let* seq := gets nsent in
  modify (set_nsent (i32 (seq + 1)));;;
  on_sendbuf (fill_packet ICMP_ECHO seq now);;;
  let len := 8 + datalen in
  on_sendbuf (store 2 [0; 0]);;;
  let* buf := gets sendbuf in
  let* sum := zoom (fun _ => tt) (fun _ s => s) (in_cksum buf len) in
  on_sendbuf (store 2 (int_bytes 2 sum));;;
  modify (fun s => send (take (Z.to_nat len) (sendbuf s)) s).

Definition send_v6 (now : Z * Z) : M pinger unit :=
  let* seq := gets nsent in
  modify (set_nsent (i32 (seq + 1)));;;
  on_sendbuf (fill_packet ICMP6_ECHO_REQUEST seq now);;;
  let len := 8 + datalen in
  modify (fun s => send (take (Z.to_nat len) (sendbuf s)) s).

(** * Receiving *)

(** The lines that are printed: of a reply, the size, the sequence number, the
    TTL or hop limit and the time it took; of another message, with -v, the
    size, the type and the code. *)
Inductive line := Reply (len seq ttl : Z) (rtt : Z * Z) | Other (len type code : Z).

Definition proc_v4 (verbose : bool) (ptr : bytes) (len : Z) (tvrecv : Z * Z) : M unit (option line) :=
  let* vhl := field ptr 0 in
  let hlen1 := hl_bytes vhl in
  let* p := field ptr 9 in
  if negb (p =? IPPROTO_ICMP) then ret None
  else
    let icmplen := len - hlen1 in
    if icmplen <? 8 then ret None
    else
      let* type := field ptr hlen1 in
      if type =? ICMP_ECHOREPLY then
        let* id := field16 ptr (hlen1 + 4) in
        if negb (id =? pid) then ret None
        else if icmplen <? 16 then ret None
        else
          let* tvsend := load_time ptr (hlen1 + 8) in
          let* seq := field16 ptr (hlen1 + 6) in
          let* ttl := field ptr 8 in
          ret (Some (Reply icmplen seq ttl (tv_sub tvrecv tvsend)))
      else if verbose then
        let* code := field ptr (hlen1 + 1) in ret (Some (Other icmplen type code))
      else ret None.

(** The control messages are those [recvmsg] returned: level, type, value. *)
Definition IPPROTO_IPV6 : Z := 41.
Definition IPV6_HOPLIMIT : Z := 47.
Fixpoint hop_limit (cmsgs : list (Z * Z * Z)) : Z :=
  match cmsgs with
  | [] => -1
  | (level, type, v) :: cmsgs =>
    if (level =? IPPROTO_IPV6) && (type =? IPV6_HOPLIMIT) then i32 v else hop_limit cmsgs
  end.

Definition proc_v6 (verbose : bool) (ptr : bytes) (len : Z) (cmsgs : list (Z * Z * Z)) (tvrecv : Z * Z) : M unit (option line) :=
  if len <? 8 then ret None
  else
    let* type := field ptr 0 in
    if type =? ICMP6_ECHO_REPLY then
      let* id := field16 ptr 4 in
      if negb (id =? pid) then ret None
      else if len <? 16 then ret None
      else
        let* tvsend := load_time ptr 8 in
        let hlim := hop_limit cmsgs in
        let* seq := field16 ptr 6 in
        ret (Some (Reply len seq hlim (tv_sub tvrecv tvsend)))
    else if verbose then
      let* code := field ptr 1 in ret (Some (Other len type code))
    else ret None.

(** * The loop *)

(** What happens to the process: the alarm ([sig_alrm] sends a packet), a
    packet, another signal, an error. *)
Inductive arrival := Alarm (now : Z * Z) | Packet (d : bytes) (tv : Z * Z) | Interrupted | Failed.

Record looper := Looper { sender : pinger; recvbuf : bytes; lines : list line }.
Definition set_sender p s := Looper p (recvbuf s) (lines s).

(** The functions of a protocol: [pr->fsend] and [pr->fproc]. *)
Context (fsend : Z * Z -> M pinger unit) (fproc : bytes -> Z -> Z * Z -> M unit (option line)).

Definition sig_alrm (now : Z * Z) : M looper unit := zoom sender set_sender (fsend now).

Definition take_packet (d : bytes) (tv : Z * Z) : M looper unit :=
  let d := take BUFSIZE d in
  zoom recvbuf (fun b s => Looper (sender s) b (lines s)) (store 0 d);;;
  let* buf := gets recvbuf in
  let* l := zoom (fun _ => tt) (fun _ s => s) (fproc buf (Z.of_nat (length d)) tv) in
  match l with Some l => modify (fun s => Looper (sender s) (recvbuf s) (lines s ++ [l])) | None => skip end.

Fixpoint recv_loop (arrivals : list arrival) : M looper unit :=
  match arrivals with
  | [] => skip
  | Alarm now :: arrivals => sig_alrm now;;; recv_loop arrivals
  | Packet d tv :: arrivals => take_packet d tv;;; recv_loop arrivals
  | Interrupted :: arrivals => recv_loop arrivals
  | Failed :: _ => die "recvmsg error"
  end.

(** [readloop]: the first packet is sent before anything is received. *)
Definition readloop (now : Z * Z) (arrivals : list arrival) : M looper unit := sig_alrm now;;; recv_loop arrivals.
End ping.

(** * The packet *)

Lemma ping_store_mid i pre old post l :
  i = length pre -> length old = length l -> store i l (pre ++ old ++ post) = Ret tt (pre ++ l ++ post).
Proof.
  intros -> H. rewrite store_run by (rewrite !length_app; lia). by rewrite splice_mid.
Qed.

(** The stored time: both fields, and the pattern in the padding. *)
Definition time_bytes (tv : Z * Z) : bytes := int_bytes 8 tv.1 ++ int_bytes 4 tv.2.

Definition packet (pid datalen type seq : Z) (now : Z * Z) (sum : bytes) : bytes :=
  [type; 0] ++ sum ++ int_bytes 2 pid ++ int_bytes 2 seq ++ time_bytes now ++ replicate (Z.to_nat datalen - 12) 165.

Lemma fill_packet_run pid datalen type seq now b :
  12 <= datalen -> (8 + Z.to_nat datalen <= length b)%nat ->
  exists sum, length sum = 2%nat /\
    fill_packet pid datalen type seq now b =
      Ret tt (packet pid datalen type seq now sum ++ drop (8 + Z.to_nat datalen) b).
Proof.
  intros Hd Hb. do 8 (destruct b as [|? b]; [cbn in Hb; lia|]). cbn [length] in Hb.
  rewrite <-(take_drop (Z.to_nat datalen) b). set (old := take _ b). set (post := drop _ b).
  assert (Hold : length old = Z.to_nat datalen) by (subst old; rewrite length_take; lia).
  exists [z1; z2]. split; [done|]. cbn [Nat.add drop]. rewrite (drop_app_length' old post) by done.
  unfold fill_packet, store_time.
  rewrite (bind_run _ _ _ _ _ (ping_store_mid 0 [] [z] (z0 :: z1 :: z2 :: z3 :: z4 :: z5 :: z6 :: old ++ post) [type] eq_refl eq_refl)).
  rewrite (bind_run _ _ _ _ _ (ping_store_mid 1 [type] [z0] (z1 :: z2 :: z3 :: z4 :: z5 :: z6 :: old ++ post) [0] eq_refl eq_refl)).
  rewrite (bind_run _ _ _ _ _ (ping_store_mid 4 [type; 0; z1; z2] [z3; z4] (z5 :: z6 :: old ++ post) (int_bytes 2 pid) eq_refl eq_refl)).
  set (pre := [type; 0; z1; z2] ++ int_bytes 2 pid).
  rewrite (bind_run _ _ _ _ _ (ping_store_mid 6 pre [z5; z6] (old ++ post) (int_bytes 2 seq) eq_refl eq_refl)).
  set (pre8 := pre ++ int_bytes 2 seq). change (pre ++ int_bytes 2 seq ++ old ++ post) with (pre8 ++ old ++ post).
  rewrite (bind_run _ _ _ _ _ (ping_store_mid 8 pre8 old post (replicate (Z.to_nat datalen) 165) eq_refl ltac:(by rewrite length_replicate))).
  replace (Z.to_nat datalen) with (8 + (4 + (Z.to_nat datalen - 12)))%nat at 1 by lia.
  rewrite !replicate_add, <-!app_assoc. set (pad := replicate (Z.to_nat datalen - 12) 165).
  rewrite (bind_run _ _ _ _ _ (ping_store_mid 8 pre8 (replicate 8 165) (replicate 4 165 ++ pad ++ post) (int_bytes 8 now.1) eq_refl eq_refl)).
  rewrite (app_assoc pre8), (ping_store_mid (8 + 8) (pre8 ++ int_bytes 8 now.1) (replicate 4 165) (pad ++ post) (int_bytes 4 now.2) eq_refl eq_refl).
  unfold packet, time_bytes. fold pad. unfold pre8, pre. by rewrite <-!app_assoc.
Qed.

Lemma packet_length pid datalen type seq now sum :
  12 <= datalen -> length sum = 2%nat -> length (packet pid datalen type seq now sum) = (8 + Z.to_nat datalen)%nat.
Proof.
  intros Hd Hs. unfold packet, time_bytes. rewrite !length_app, !int_bytes_length, length_replicate, Hs. cbn [length]. lia.
Qed.

Lemma packet_bytes pid datalen type seq now sum :
  is_byte type -> Forall is_byte sum -> Forall is_byte (packet pid datalen type seq now sum).
Proof.
  intros Ht Hs. unfold packet, time_bytes. rewrite !Forall_app. split_and!; try apply int_bytes_byte; try done.
  - constructor; [done|]. constructor; [by unfold is_byte|constructor].
  - apply list.Forall_replicate. by unfold is_byte.
Qed.

(** * Sending *)

Lemma send_v4_run pid datalen now s :
  12 <= datalen -> 8 + datalen <= Z.of_nat BUFSIZE -> length (sendbuf s) = BUFSIZE ->
  exists sum p b, length sum = 2%nat /\ p = packet pid datalen ICMP_ECHO (nsent s) now sum /\ length b = BUFSIZE /\
    send_v4 pid datalen now s = Ret tt (Pinger b (i32 (nsent s + 1)) (sent s ++ [p])) /\
    in_cksum p (8 + datalen) tt = Ret 0 tt /\ verifies p = true.
Proof.
  intros Hd Hmax Hb. destruct s as [b n l]. cbn [sendbuf nsent sent] in *.
  destruct (fill_packet_run pid datalen ICMP_ECHO n now b Hd ltac:(rewrite Hb; lia)) as (s0 & Hs0 & E).
  set (post := drop (8 + Z.to_nat datalen) b) in *. set (r := packet pid datalen ICMP_ECHO n now) in *.
  set (q := int_bytes 2 pid ++ int_bytes 2 n ++ time_bytes now ++ replicate (Z.to_nat datalen - 12) 165).
  assert (Hr : forall x y, r [x; y] = [8; 0] ++ x :: y :: q) by done.
  assert (Hl : Z.of_nat (length ([8; 0] ++ 0 :: 0 :: q)) = 8 + datalen).
  { rewrite <-Hr. subst r. rewrite packet_length by done. lia. }
  assert (F0 : Forall is_byte ([8; 0] ++ 0 :: 0 :: q)).
  { rewrite <-Hr. apply packet_bytes; [by unfold is_byte, ICMP_ECHO|]. by repeat (constructor; [by unfold is_byte|]); constructor. }
  destruct (in_cksum_stored [8; 0] q F0) as (c & E1 & B1 & B2 & E2).
  { by exists 1%nat. }
  { rewrite Hl. unfold BUFSIZE in Hmax. lia. }
  { cbn [app words16 total foldr]. fold (total (words16 q)).
    assert (Fq : Forall is_byte q) by (unfold q, time_bytes; rewrite !Forall_app; split_and!; try apply int_bytes_byte; apply list.Forall_replicate; by unfold is_byte).
    pose proof (words16_bound q Fq). lia. }
  rewrite Hl in E1, E2. exists (int_bytes 2 c), (r (int_bytes 2 c)), (r (int_bytes 2 c) ++ post).
  split; [done|]. split; [done|]. split.
  { rewrite length_app. subst r post. rewrite packet_length, length_drop by done. lia. }
  assert (Hc : int_bytes 2 c = [c mod 256; c / 256]).
  { cbn [int_bytes]. by rewrite (Z.mod_small (c / 256) 256). }
  assert (Hck : in_cksum (r (int_bytes 2 c)) (8 + datalen) tt = Ret 0 tt) by by rewrite Hc, Hr.
  split; [|split; [done|]]; last first.
  { assert (Hz : Z.of_nat (length (r (int_bytes 2 c))) = 8 + datalen) by (subst r; rewrite packet_length by done; lia).
    apply in_cksum_verifies; [|rewrite Hz; unfold BUFSIZE in Hmax; lia|by rewrite Hz].
    apply packet_bytes; [by unfold is_byte, ICMP_ECHO|apply int_bytes_byte]. }
  unfold send_v4, on_sendbuf. rewrite bind_gets, bind_modify. cbn [nsent].
  set (n1 := i32 (n + 1)).
  assert (Z1 : forall m b1 b2, m b1 = Ret tt b2 -> zoom sendbuf set_sendbuf m (Pinger b1 n1 l) = Ret tt (Pinger b2 n1 l)).
  { intros m b1 b2 Hm. by rewrite (zoom_run _ _ _ (Pinger b1 n1 l) tt b2). }
  change (set_nsent (i32 (n + 1)) (Pinger b n l)) with (Pinger b n1 l).
  rewrite (bind_run _ _ _ _ _ (Z1 _ _ _ E)). cbv zeta.
  assert (Es : forall sm, r sm ++ post = [8; 0] ++ sm ++ q ++ post) by (intros; subst r q; unfold packet; by rewrite <-!app_assoc).
  rewrite Es. rewrite (bind_run _ _ _ _ _ (Z1 _ _ _ (ping_store_mid 2 [8; 0] s0 (q ++ post) [0; 0] eq_refl Hs0))).
  rewrite bind_gets. cbn [sendbuf].
  assert (E1' : in_cksum ([8; 0] ++ [0; 0] ++ q ++ post) (8 + datalen) tt = Ret c tt).
  { pose proof (in_cksum_app ([8; 0] ++ 0 :: 0 :: q) post) as Ea. rewrite Hl in Ea.
    change ([8; 0] ++ [0; 0] ++ q ++ post) with (([8; 0] ++ 0 :: 0 :: q) ++ post). rewrite Ea; [|exact F0|unfold BUFSIZE in Hmax; lia].
    rewrite <-E1, <-Hl. symmetry. apply in_cksum_run; [exact F0|rewrite Hl; unfold BUFSIZE in Hmax; lia]. }
  rewrite (bind_run _ _ _ c (Pinger ([8; 0] ++ [0; 0] ++ q ++ post) n1 l)) by (unfold zoom; by rewrite E1').
  rewrite (bind_run _ _ _ _ _ (Z1 _ _ _ (ping_store_mid 2 [8; 0] [0; 0] (q ++ post) (int_bytes 2 c) eq_refl eq_refl))).
  unfold modify, send. cbn [sendbuf nsent sent]. rewrite <-Es. rewrite take_app_length'; [done|].
  subst r. rewrite packet_length by done. lia.
Qed.

(** * Receiving *)

Lemma port_of_int v : port_of (int_bytes 2 v) = u16 v.
Proof.
  change (port_of (int_bytes 2 v)) with (v mod 256 + 256 * (v / 256 mod 256)).
  unfold wrapu. change (2 ^ 16) with (256 * 256). rewrite Z.rem_mul_r; lia.
Qed.

(** A time that fits is read back. *)
Definition time_ok (tv : Z * Z) : Prop := - 2 ^ 63 <= tv.1 < 2 ^ 63 /\ 0 <= tv.2 < 1000000.

Lemma load_time_bytes pre now post i :
  time_ok now -> i = Z.of_nat (length pre) -> load_time (pre ++ time_bytes now ++ post) i tt = Ret now tt.
Proof.
  intros [Hs Hu] ->. unfold load_time, time_bytes. rewrite <-app_assoc.
  rewrite (fields_skip pre _ _ 0), (fields_skip pre _ _ 8) by lia.
  rewrite (fields_skip (int_bytes 8 now.1) _ 8 0) by (rewrite ?int_bytes_length; lia).
  assert (E : forall n v r, fields (int_bytes n v ++ r) 0 n tt = Ret (int_bytes n v) tt).
  { intros n v r. rewrite fields_here by (rewrite ?int_bytes_length; lia). unfold slice. cbn [Z.to_nat].
    by rewrite drop_0, take_ge by (rewrite int_bytes_length; lia). }
  rewrite (bind_run _ _ _ _ _ (E _ _ _)), (bind_run _ _ _ _ _ (E _ _ _)). unfold ret.
  rewrite !bytes_int_bytes. change (8 * Z.of_nat 8) with 64. change (8 * Z.of_nat 4) with 32.
  rewrite !wraps_mod, !wraps_small by lia. by destruct now.
Qed.

(** What a host sends back: the type and the checksum are its own, the rest
    is that of the request. *)
Definition echo_reply (code : Z) (ck : bytes) (type : Z) (request : bytes) : bytes := [type; code] ++ ck ++ drop 4 request.

Section echo.
Context (pid datalen : Z) (verbose : bool) (seq code : Z) (now tvrecv : Z * Z) (ck junk : bytes).
Hypothesis datalen_ok : 12 <= datalen.
Hypothesis now_ok : time_ok now.
Hypothesis ck_ok : length ck = 2%nat.

Lemma echo_reads type t sum : length sum = 2%nat -> let b := echo_reply code ck type (packet pid datalen t seq now sum) ++ junk in
  field b 0 tt = Ret type tt /\ field16 b 4 tt = Ret (u16 pid) tt /\ field16 b 6 tt = Ret (u16 seq) tt /\ load_time b 8 tt = Ret now tt.
Proof using All.
  intros Hs. destruct ck as [|k1 [|k2 [|]]]; try done. destruct sum as [|s1 [|s2 [|]]]; try done. intros b.
  set (rest := replicate (Z.to_nat datalen - 12) 165 ++ junk).
  assert (E : b = [type; code; k1; k2] ++ int_bytes 2 pid ++ int_bytes 2 seq ++ time_bytes now ++ rest).
  { subst b rest. unfold echo_reply.
    change (drop 4 (packet pid datalen t seq now [s1; s2]))
      with (int_bytes 2 pid ++ int_bytes 2 seq ++ time_bytes now ++ replicate (Z.to_nat datalen - 12) 165).
    by rewrite <-!app_assoc. }
  clearbody b. subst b. split; [done|]. split.
  { rewrite (field16_skip [type; code; k1; k2] _ _ 0) by done. rewrite (field16_port (int_bytes 2 pid)) by done. by rewrite port_of_int. }
  split.
  { rewrite app_assoc, (field16_skip ([type; code; k1; k2] ++ int_bytes 2 pid) _ _ 0) by done.
    rewrite (field16_port (int_bytes 2 seq)) by done. by rewrite port_of_int. }
  rewrite !app_assoc, <-(app_assoc _ (time_bytes now)). by apply load_time_bytes.
Qed.

Lemma proc_v4_echo pid' h ttl sum :
  length sum = 2%nat -> ip4_header h -> (20 <= length h)%nat -> h !! 8%nat = Some ttl -> h !! 9%nat = Some IPPROTO_ICMP ->
  proc_v4 pid' verbose ((h ++ echo_reply code ck ICMP_ECHOREPLY (packet pid datalen ICMP_ECHO seq now sum)) ++ junk)
    (Z.of_nat (length h) + (8 + datalen)) tvrecv tt =
    Ret (if u16 pid =? pid' then Some (Reply (8 + datalen) (u16 seq) ttl (tv_sub tvrecv now)) else None) tt.
Proof using All.
  intros Hs Hh Hl Ht Hp. destruct (echo_reads ICMP_ECHOREPLY ICMP_ECHO sum Hs) as (E0 & E4 & E6 & E8).
  rewrite <-app_assoc. set (b := echo_reply _ _ _ _ ++ junk) in *. unfold proc_v4.
  destruct (ip4_header_length h b Hh) as (c & Ec & Hc). rewrite (bind_run _ _ _ _ _ Ec), Hc. cbv zeta.
  rewrite (bind_run _ _ _ _ _ (field_here h b 9 _ ltac:(lia) Hp)). cbn [Z.eqb Pos.eqb negb IPPROTO_ICMP].
  replace (Z.of_nat (length h) + (8 + datalen) - Z.of_nat (length h)) with (8 + datalen) by lia.
  rewrite (proj2 (Z.ltb_ge _ 8)) by lia.
  rewrite (field_skip h b _ 0), (bind_run _ _ _ _ _ E0) by lia. cbn [Z.eqb ICMP_ECHOREPLY].
  rewrite (field16_skip h b _ 4), (bind_run _ _ _ _ _ E4) by lia.
  destruct (u16 pid =? pid'); [|done]. cbn [negb]. rewrite (proj2 (Z.ltb_ge _ 16)) by lia.
  unfold load_time in E8 |- *. rewrite (fields_skip h b _ 8), (fields_skip h b _ (8 + 8)) by lia.
  rewrite (bind_run _ _ _ _ _ E8), (field16_skip h b _ 6), (bind_run _ _ _ _ _ E6) by lia.
  by rewrite (bind_run _ _ _ _ _ (field_here h b 8 _ ltac:(lia) Ht)).
Qed.

Lemma proc_v6_echo pid' cmsgs sum :
  length sum = 2%nat ->
  proc_v6 pid' verbose (echo_reply code ck ICMP6_ECHO_REPLY (packet pid datalen ICMP6_ECHO_REQUEST seq now sum) ++ junk) (8 + datalen) cmsgs tvrecv tt =
    Ret (if u16 pid =? pid' then Some (Reply (8 + datalen) (u16 seq) (hop_limit cmsgs) (tv_sub tvrecv now)) else None) tt.
Proof using All.
  intros Hs. destruct (echo_reads ICMP6_ECHO_REPLY ICMP6_ECHO_REQUEST sum Hs) as (E0 & E4 & E6 & E8).
  unfold proc_v6. rewrite (proj2 (Z.ltb_ge _ 8)) by lia. rewrite (bind_run _ _ _ _ _ E0). cbn [Z.eqb Pos.eqb ICMP6_ECHO_REPLY].
  rewrite (bind_run _ _ _ _ _ E4). destruct (u16 pid =? pid'); [|done]. cbn [negb]. rewrite (proj2 (Z.ltb_ge _ 16)) by lia.
  by rewrite (bind_run _ _ _ _ _ E8), (bind_run _ _ _ _ _ E6).
Qed.
End echo.

(** * The host at the other end *)

(** What a host makes of a packet: a request that verifies is answered, with
    any header [h] before the answer; anything else is not. *)
Definition reply_packet (h : bytes) (code : Z) (ck p : bytes) : bytes := h ++ echo_reply code ck ICMP_ECHOREPLY p.
Definition host (h : bytes) (code : Z) (ck p : bytes) : option bytes :=
  match p with
  | 8 :: 0 :: _ => if verifies p then Some (reply_packet h code ck p) else None
  | _ => None
  end.

(** An answer on its way: its header, the TTL in it, and when it is received. *)
Record answer := Answer { a_header : bytes; a_ttl : Z; a_code : Z; a_cksum : bytes; a_received : Z * Z }.

(** What happens, as seen from outside: a second passes; the answer of the host
    to the [k]-th packet of this run arrives, at any time, in any order, any
    number of times; the answer to another ping of the same machine; a signal. *)
Inductive event :=
| Tick (now : Z * Z)
| Answered (k : nat) (a : answer)
| Stray (pid' datalen' seq : Z) (now : Z * Z) (a : answer)
| Signal.

Section play.
Context (fsend : Z * Z -> M pinger unit) (fproc : bytes -> Z -> Z * Z -> M unit (option line)).

(** The packets that arrive are made from those that the program has sent. *)
Definition arrives (first : nat) (e : event) (s : looper) : list arrival :=
  let from p a := match host (a_header a) (a_code a) (a_cksum a) p with Some d => [Packet d (a_received a)] | None => [] end in
  match e with
  | Tick now => [Alarm now]
  | Answered k a => match sent (sender s) !! (first + k)%nat with Some p => from p a | None => [] end
  | Stray pid' datalen' seq now a =>
    [Packet (reply_packet (a_header a) (a_code a) (a_cksum a) (packet pid' datalen' ICMP_ECHO seq now [0; 0])) (a_received a)]
  | Signal => [Interrupted]
  end.

(** The program with the host; all that arrived. *)
Fixpoint play (first : nat) (evs : list event) : M looper (list arrival) :=
  match evs with
  | [] => ret []
  | e :: evs =>
    let* l := gets (arrives first e) in
    recv_loop fsend fproc l;;;
    let* ls := play first evs in
    ret (l ++ ls)
  end.
Definition ping_host (now : Z * Z) (evs : list event) : M looper (list arrival) :=
  let* first := gets (fun s => length (sent (sender s))) in
  sig_alrm fsend now;;;
  play first evs.

Lemma recv_loop_app l1 l2 s : recv_loop fsend fproc (l1 ++ l2) s = (recv_loop fsend fproc l1;;; recv_loop fsend fproc l2) s.
Proof.
  revert s. induction l1 as [|[now|d tv| |] l1 IH]; intros s; cbn [app recv_loop]; try done.
  - rewrite bind_assoc. unfold bind at 1 2. destruct (sig_alrm fsend now s); done.
  - rewrite bind_assoc. unfold bind at 1 2. destruct (take_packet fproc d tv s); done.
Qed.

(** It is a run of the loop on what arrived. *)
Lemma play_run first evs s l s' : play first evs s = Ret l s' -> recv_loop fsend fproc l s = Ret tt s'.
Proof.
  revert s l s'. induction evs as [|e evs IH]; intros s l s'; cbn [play]; [by intros [= <- <-]|].
  rewrite bind_gets. intros ([] & s1 & E1 & (ls & s2 & E2 & [= <- <-])%bind_ret_inv)%bind_ret_inv.
  rewrite recv_loop_app, (bind_run _ _ _ _ _ E1). by apply IH.
Qed.
End play.

(** * Runs of the loop *)

Section exchange.
Context (pid datalen : Z) (verbose : bool).
Hypothesis pid_ok : 0 <= pid < 65536.
Hypothesis datalen_ok : 12 <= datalen.
Hypothesis fits : 8 + datalen <= Z.of_nat BUFSIZE.

Record answer_ok (datalen : Z) (a : answer) : Prop := {
  a_ip : ip4_header (a_header a) /\ (20 <= length (a_header a))%nat;
  a_fields : a_header a !! 8%nat = Some (a_ttl a) /\ a_header a !! 9%nat = Some IPPROTO_ICMP;
  a_ck : length (a_cksum a) = 2%nat;
  a_size : Z.of_nat (length (a_header a)) + (8 + datalen) <= Z.of_nat BUFSIZE
}.
Definition event_ok (e : event) : Prop :=
  match e with
  | Tick now => time_ok now
  | Answered _ a => answer_ok datalen a
  | Stray pid' datalen' _ now a => u16 pid' <> pid /\ 12 <= datalen' /\ time_ok now /\ answer_ok datalen' a
  | Signal => True
  end.

(** What should be shown: [seq] is the number of the first packet of the run,
    [times] when each packet so far was sent. *)
Fixpoint expected (seq : Z) (times : list (Z * Z)) (evs : list event) : list line :=
  match evs with
  | [] => []
  | Tick now :: evs => expected seq (times ++ [now]) evs
  | Answered k a :: evs =>
    match times !! k with
    | Some t => Reply (8 + datalen) (u16 (seq + Z.of_nat k)) (a_ttl a) (tv_sub (a_received a) t) :: expected seq times evs
    | None => expected seq times evs
    end
  | _ :: evs => expected seq times evs
  end.

Lemma take_reply pid' datalen' a seq now sum s :
  answer_ok datalen' a -> 12 <= datalen' -> time_ok now -> length sum = 2%nat -> length (recvbuf s) = BUFSIZE ->
  exists b, length b = BUFSIZE /\
    take_packet (proc_v4 pid verbose) (reply_packet (a_header a) (a_code a) (a_cksum a) (packet pid' datalen' ICMP_ECHO seq now sum)) (a_received a) s
      = Ret tt (Looper (sender s) b (lines s ++
          if u16 pid' =? pid then [Reply (8 + datalen') (u16 seq) (a_ttl a) (tv_sub (a_received a) now)] else [])).
Proof using Type.
  intros [[Hh Hl] [H8 H9] Hck Hsz] Hd' Ht Hs Hb.
  set (d := reply_packet _ _ _ _). pose proof (packet_length pid' datalen' ICMP_ECHO seq now sum Hd' Hs) as Hp.
  assert (Hd : Z.of_nat (length d) = Z.of_nat (length (a_header a)) + (8 + datalen')).
  { unfold d, reply_packet, echo_reply. rewrite !length_app, length_drop, Hck. cbn [length]. lia. }
  exists (splice 0 d (recvbuf s)). split; [rewrite splice_length; lia|]. unfold take_packet.
  rewrite take_ge by lia. rewrite (bind_run _ _ _ _ _ (zoom_run _ _ _ _ _ _ (store_run 0 d (recvbuf s) ltac:(lia)))), bind_gets. cbn [recvbuf sender lines]. rewrite splice_front, Hd.
  pose proof (proc_v4_echo pid' datalen' verbose seq (a_code a) now (a_received a) (a_cksum a) (drop (length d) (recvbuf s)) Hd' Ht Hck pid
    _ _ _ Hs Hh Hl H8 H9) as E.
  set (r := if u16 pid' =? pid then _ else _) in E.
  rewrite (bind_run _ _ _ r (Looper (sender s) (d ++ drop (length d) (recvbuf s)) (lines s))) by (unfold zoom; fold (reply_packet (a_header a) (a_code a) (a_cksum a) (packet pid' datalen' ICMP_ECHO seq now sum)) in E; fold d in E; by rewrite E).
  subst r. destruct (u16 pid' =? pid); [done|]. by rewrite app_nil_r.
Qed.

(** The packets of the run: the [k]-th was sent at the [k]-th time, with the
    [k]-th number, and verifies. *)
Record sending (first : nat) (seq : Z) (times : list (Z * Z)) (s : looper) : Prop := {
  s_recvbuf : length (recvbuf s) = BUFSIZE;
  s_sendbuf : length (sendbuf (sender s)) = BUFSIZE;
  s_times : Forall time_ok times;
  s_next : u32 (nsent (sender s)) = u32 (seq + Z.of_nat (length times));
  s_count : length (sent (sender s)) = (first + length times)%nat;
  s_sent : forall k t, times !! k = Some t -> exists n sum, u16 n = u16 (seq + Z.of_nat k) /\ length sum = 2%nat /\
    sent (sender s) !! (first + k)%nat = Some (packet pid datalen ICMP_ECHO n t sum) /\
    verifies (packet pid datalen ICMP_ECHO n t sum) = true
}.

Lemma sending_tick first seq times now s :
  sending first seq times s -> time_ok now ->
  exists s', sig_alrm (send_v4 pid datalen) now s = Ret tt s' /\ sending first seq (times ++ [now]) s' /\ lines s' = lines s.
Proof using datalen_ok fits.
  intros [H1 H2 H3 H4 H5 H6] Hn.
  destruct (send_v4_run pid datalen now (sender s) datalen_ok fits H2) as (sum & p & b & Hs & Hp & Hlb & E & _ & V).
  unfold sig_alrm. eexists. split; [by apply (zoom_run sender set_sender _ s tt _ E)|]. split; [|done].
  constructor; cbn [set_sender recvbuf sender sendbuf nsent sent]; try done.
  - apply Forall_app. split; [done|]. by constructor.
  - rewrite length_app. cbn [length]. rewrite u32_i32, Nat2Z.inj_add, Z.add_assoc.
    unfold wrapu in *. by rewrite Zplus_mod, H4, <-Zplus_mod.
  - rewrite !length_app. cbn [length]. lia.
  - intros k t [Hk|[Hk Hn2]]%lookup_app_Some.
    + destruct (H6 k t Hk) as (n & sm & N1 & N2 & N3 & N4). exists n, sm. split; [done|]. split; [done|]. split; [|done].
      rewrite lookup_app_l; [done|]. apply lookup_lt_Some in Hk. lia.
    + apply list_lookup_singleton_Some in Hn2 as [E2 <-]. replace k with (length times) in * by lia.
      exists (nsent (sender s)), sum. split; [by apply u16_u32|]. split; [done|]. subst p. split; [|by apply V].
      rewrite lookup_app_r, H5, Nat.sub_diag by lia. done.
Qed.

Lemma event_run first seq times e evs s :
  sending first seq times s -> event_ok e ->
  exists s' times', recv_loop (send_v4 pid datalen) (proc_v4 pid verbose) (arrives first e s) s = Ret tt s' /\ sending first seq times' s' /\
    expected seq times (e :: evs) = drop (length (lines s)) (lines s') ++ expected seq times' evs /\ take (length (lines s)) (lines s') = lines s /\
    length times' = (length times + match e with Tick _ => 1 | _ => 0 end)%nat.
Proof using pid_ok datalen_ok fits.
  intros Hs He. destruct e as [now|k a|pid' datalen' sq now a|]; cbn [event_ok arrives expected recv_loop] in *.
  - destruct (sending_tick first seq times now s Hs He) as (s' & E & H' & Hl). exists s', (times ++ [now]).
    rewrite (bind_run _ _ _ _ _ E), Hl, drop_all, firstn_all, length_app. by split_and!.
  - destruct (times !! k) as [t|] eqn:Ek.
    + destruct (s_sent _ _ _ _ Hs k t Ek) as (n & sum & Hn & Hsum & Ep & Ev). rewrite Ep.
      assert (Eh : host (a_header a) (a_code a) (a_cksum a) (packet pid datalen ICMP_ECHO n t sum)
        = Some (reply_packet (a_header a) (a_code a) (a_cksum a) (packet pid datalen ICMP_ECHO n t sum))).
      { unfold host. rewrite Ev. done. }
      rewrite Eh. cbn [recv_loop].
      destruct (take_reply pid datalen a n t sum s He datalen_ok (Forall_lookup_1 _ _ _ _ (s_times _ _ _ _ Hs) Ek) Hsum (s_recvbuf _ _ _ _ Hs))
        as (b & Hb & E). rewrite (wrapu_small 16 pid), Z.eqb_refl, Hn in E by (change (2 ^ 16) with 65536; lia).
      rewrite (bind_run _ _ _ _ _ E). eexists _, times. split; [reflexivity|]. cbn [lines].
      rewrite drop_app_length, take_app_length. destruct Hs. by split_and!.
    + assert (En : sent (sender s) !! (first + k)%nat = None).
      { apply lookup_ge_None_2. rewrite (s_count _ _ _ _ Hs). apply lookup_ge_None_1 in Ek. lia. }
      rewrite En. cbn [recv_loop]. exists s, times. rewrite drop_all, firstn_all. by split_and!.
  - destruct He as (Hp & Hd & Ht & Ha). destruct (take_reply pid' datalen' a sq now [0; 0] s Ha Hd Ht eq_refl (s_recvbuf _ _ _ _ Hs)) as (b & Hb & E).
    rewrite (proj2 (Z.eqb_neq _ _) Hp), app_nil_r in E. rewrite (bind_run _ _ _ _ _ E). eexists _, times. split; [reflexivity|]. cbn [lines].
    rewrite drop_all, firstn_all. destruct Hs. by split_and!.
  - exists s, times. rewrite drop_all, firstn_all. by split_and!.
Qed.

Definition ticks (evs : list event) : nat := length (List.filter (fun e => match e with Tick _ => true | _ => false end) evs).

(** What is shown in a run. *)
Lemma ping_play evs first seq times s :
  sending first seq times s -> Forall event_ok evs ->
  exists l s', play (send_v4 pid datalen) (proc_v4 pid verbose) first evs s = Ret l s' /\
    lines s' = lines s ++ expected seq times evs /\ length (sent (sender s')) = (length (sent (sender s)) + ticks evs)%nat.
Proof using pid_ok datalen_ok fits.
  revert times s. induction evs as [|e evs IH]; intros times s Hs Hev.
  { exists [], s. cbn. by rewrite app_nil_r, Nat.add_0_r. }
  apply list.Forall_cons in Hev as [He Hev]. cbn [play]. rewrite bind_gets.
  destruct (event_run first seq times e evs s Hs He) as (s1 & times' & E & Hs' & X & T & L).
  rewrite (bind_run _ _ _ _ _ E). destruct (IH times' s1 Hs' Hev) as (l & s' & E2 & L2 & N2). rewrite (bind_run _ _ _ _ _ E2).
  eexists _, s'. split; [reflexivity|]. split.
  - rewrite X, L2, app_assoc. f_equal. rewrite <-(take_drop (length (lines s)) (lines s1)) at 1. by rewrite T.
  - rewrite N2, (s_count _ _ _ _ Hs'), (s_count _ _ _ _ Hs), L. unfold ticks. destruct e; cbn; lia.
Qed.
End exchange.

(** * Theorems *)

(** What send_v4 sends has a checksum that verifies; when a host echoes
    it, with any header before it and any checksum of its own, proc_v4 shows
    the size, the sequence number, the TTL and the time since it was sent; and
    a ping with another identifier shows nothing. *)
Theorem ping_v4_round_trip pid datalen now tvrecv verbose h ttl code ck junk s :
  0 <= pid < 65536 -> 12 <= datalen -> 8 + datalen <= Z.of_nat BUFSIZE -> length (sendbuf s) = BUFSIZE -> time_ok now ->
  ip4_header h -> (20 <= length h)%nat -> h !! 8%nat = Some ttl -> h !! 9%nat = Some IPPROTO_ICMP -> length ck = 2%nat ->
  exists p s', send_v4 pid datalen now s = Ret tt s' /\ sent s' = sent s ++ [p] /\ length (sendbuf s') = BUFSIZE /\
    nsent s' = i32 (nsent s + 1) /\ Z.of_nat (length p) = 8 + datalen /\ in_cksum p (Z.of_nat (length p)) tt = Ret 0 tt /\
    let packet := h ++ echo_reply code ck ICMP_ECHOREPLY p in
    proc_v4 pid verbose (packet ++ junk) (Z.of_nat (length packet)) tvrecv tt =
      Ret (Some (Reply (8 + datalen) (u16 (nsent s)) ttl (tv_sub tvrecv now))) tt /\
    forall pid', pid' <> pid -> proc_v4 pid' verbose (packet ++ junk) (Z.of_nat (length packet)) tvrecv tt = Ret None tt.
Proof.
  intros Hpid Hd Hmax Hb Hn Hh Hl Ht Hp Hck.
  destruct (send_v4_run pid datalen now s Hd Hmax Hb) as (sum & p & b & Hs & -> & Hlb & E & Ec & _).
  pose proof (packet_length pid datalen ICMP_ECHO (nsent s) now sum Hd Hs) as Hpl.
  assert (Hpz : Z.of_nat (length (packet pid datalen ICMP_ECHO (nsent s) now sum)) = 8 + datalen) by lia.
  exists (packet pid datalen ICMP_ECHO (nsent s) now sum), (Pinger b (i32 (nsent s + 1)) (sent s ++ [packet pid datalen ICMP_ECHO (nsent s) now sum])).
  split; [done|]. split; [done|]. split; [done|]. split; [done|]. split; [done|]. split; [by rewrite Hpz|].
  assert (Hlen : Z.of_nat (length (h ++ echo_reply code ck ICMP_ECHOREPLY (packet pid datalen ICMP_ECHO (nsent s) now sum))) = Z.of_nat (length h) + (8 + datalen)).
  { unfold echo_reply. rewrite !length_app, length_drop, Hck. cbn [length]. lia. }
  pose proof (fun pid' => proc_v4_echo pid datalen verbose (nsent s) code now tvrecv ck junk Hd Hn Hck pid' h ttl sum Hs Hh Hl Ht Hp) as Echo.
  cbv zeta. rewrite Hlen. split.
  - rewrite (Echo pid). by rewrite wrapu_small, Z.eqb_refl by (change (2 ^ 16) with 65536; lia).
  - intros pid' Hne. rewrite (Echo pid'), wrapu_small by (change (2 ^ 16) with 65536; lia).
    by rewrite (proj2 (Z.eqb_neq pid pid')) by congruence.
Qed.

(** C28: The program against a host that answers the requests that verify.
    Whatever the delays, losses, repetitions and the order of the answers, and
    whatever is answered to other pings, each answer that arrives is shown on a
    line with the sequence number of its request and the time since that very
    request was sent; nothing else is shown, and one packet is sent for each
    second that passes.  This is a run of [readloop] on the packets made by the
    host from those sent. *)
Theorem ping_shows pid datalen verbose now evs s :
  0 <= pid < 65536 -> 12 <= datalen -> 8 + datalen <= Z.of_nat BUFSIZE ->
  length (recvbuf s) = BUFSIZE -> length (sendbuf (sender s)) = BUFSIZE ->
  time_ok now -> Forall (event_ok pid datalen) evs ->
  exists arrivals s', ping_host (send_v4 pid datalen) (proc_v4 pid verbose) now evs s = Ret arrivals s' /\
    readloop (send_v4 pid datalen) (proc_v4 pid verbose) now arrivals s = Ret tt s' /\
    lines s' = lines s ++ expected datalen (nsent (sender s)) [now] evs /\
    length (sent (sender s')) = (length (sent (sender s)) + S (ticks evs))%nat.
Proof.
  intros Hp Hd Hf Hb Hsb Hn Hx.
  assert (H0 : sending pid datalen (length (sent (sender s))) (nsent (sender s)) [] s) by (constructor; try done; cbn; by rewrite ?Z.add_0_r, ?Nat.add_0_r).
  destruct (sending_tick pid datalen Hd Hf _ _ [] now s H0 Hn) as (s1 & E1 & H1 & L1).
  destruct (ping_play pid datalen verbose Hp Hd Hf evs _ _ _ s1 H1 Hx) as (l & s' & E2 & L2 & N2).
  exists l, s'. split; [unfold ping_host; by rewrite bind_gets, (bind_run _ _ _ _ _ E1)|].
  split; [unfold readloop; rewrite (bind_run _ _ _ _ _ E1); by apply (play_run _ _ _ _ _ _ _ E2)|].
  split; [by rewrite L2, L1|]. rewrite N2, (s_count _ _ _ _ _ _ H1). cbn. lia.
Qed.

(** A time needs 16 bytes after the 8 of the header, of which proc_v4 asks for
    8: for a shorter reply the microseconds are those of an earlier packet in
    the buffer. *)
Definition demo_header : bytes := 69 :: replicate 7 0 ++ [64; 1] ++ replicate 10 0.
Definition short_reply : bytes := demo_header ++ [0; 0; 0; 0; 7; 0; 1; 0] ++ replicate 8 0.

Theorem ping_short_reply_stale :
  let shown stale := proc_v4 7 false (short_reply ++ replicate 100 stale) (Z.of_nat (length short_reply)) (5, 0) tt in
  shown 0 = Ret (Some (Reply 16 1 64 (5, 0))) tt /\ shown 1 = Ret (Some (Reply 16 1 64 (4, -15843009))) tt.
Proof. split; vm_compute; reflexivity. Qed.

Definition demo_pinger : pinger := Pinger (replicate BUFSIZE 0) 3 [].

Lemma ping_v4_round_trip_witness :
  exists p s', send_v4 7 56 (1000, 999999) demo_pinger = Ret tt s' /\ sent s' = [p] /\
    in_cksum p 64 tt = Ret 0 tt /\
    proc_v4 7 false ((demo_header ++ echo_reply 0 [1; 2] ICMP_ECHOREPLY p) ++ []) 84 (1001, 1) tt =
      Ret (Some (Reply 64 3 64 (0, 2))) tt.
Proof.
  destruct (ping_v4_round_trip 7 56 (1000, 999999) (1001, 1) false demo_header 64 0 [1; 2] [] demo_pinger)
    as (p & s' & E & Hs & _ & _ & Hl & Hc & Hp & _); try done; try lia.
  - exists 69, (drop 1 demo_header). done.
  - exists p, s'. split; [done|]. split; [done|]. rewrite Hl in Hc. split; [done|].
    assert (Hlen : Z.of_nat (length (demo_header ++ echo_reply 0 [1; 2] ICMP_ECHOREPLY p)) = 84).
    { unfold echo_reply. rewrite !length_app, length_drop. cbn [length]. change (length demo_header) with 20%nat. lia. }
    rewrite Hlen in Hp. exact Hp.
Defined.

Definition demo_answer (t : Z) : answer := Answer demo_header 64 0 [1; 2] (t, 1).

Lemma demo_answer_ok t : answer_ok 56 (demo_answer t).
Proof. constructor; cbn [demo_answer a_header a_ttl a_cksum]; try done. split; [by exists 69, (drop 1 demo_header)|cbn; lia]. Qed.

(** Three requests: the answer to the second comes first, that to the first
    late and twice, that to the third never; another ping is answered. *)
Definition demo_events : list event :=
  [Tick (1, 999999); Answered 1 (demo_answer 2); Stray 8 56 4 (1, 0) (demo_answer 2); Tick (2, 999999);
   Answered 0 (demo_answer 3); Signal; Answered 0 (demo_answer 3); Answered 9 (demo_answer 3)].

Lemma ping_shows_witness :
  exists arrivals s', readloop (send_v4 7 56) (proc_v4 7 false) (0, 999999) arrivals (Looper demo_pinger (replicate BUFSIZE 0) []) = Ret tt s' /\
    lines s' = [Reply 64 4 64 (0, 2); Reply 64 3 64 (2, 2); Reply 64 3 64 (2, 2)] /\ length (sent (sender s')) = 3%nat.
Proof.
  destruct (ping_shows 7 56 false (0, 999999) demo_events (Looper demo_pinger (replicate BUFSIZE 0) []))
    as (l & s' & _ & E & Hl & Hn); [lia|lia|done|done|done|split; cbn; lia| |].
  { unfold demo_events. repeat (apply list.Forall_cons; split); cbn [event_ok]; try apply demo_answer_ok; try done; try (split; cbn; lia).
    split; [done|]. split; [lia|]. split; [split; cbn; lia|apply demo_answer_ok]. }
  exists l, s'. split; [exact E|]. split; [exact Hl|exact Hn].
Defined.
