(* ===== verification/RelReq.v ===== *)
(** unpv13e/rtt (dg_send_recv.c, dg_cli.c, dg_echo.c): requests over UDP that
    are sent again when no answer comes.  The estimator of round-trip times is
    an interface: its source is not in the repository. *)
From Stdlib Require Import ZArith Lia.
From stdpp Require Import base list strings numbers.
From S2P Require Import Prelude CString CFile.
Local Open Scope c_scope.

Definition MAXLINE : nat := 4096.
#[global] Arguments MAXLINE : simpl never.
Definition RTT_MAXNREXMT : nat := 3.
Definition sizeof_hdr : nat := 8.

(** The functions of unprtt.h on [struct rtt_info].  The clock is an argument
    of [rtt_ts] and of [rtt_init]. *)
Class Rtt := {
  rtt_info : Type;
  rtt_init : Z -> rtt_info;
  rtt_newpack : rtt_info -> rtt_info;
  rtt_start : rtt_info -> Z;
  rtt_timeout : rtt_info -> Z * rtt_info;
  rtt_stop : Z -> rtt_info -> rtt_info;
  rtt_ts : rtt_info -> Z -> Z
}.
(** "#times retransmitted" is cleared for a new packet, and [rtt_timeout] is
    negative once it exceeds the maximum. *)
Class RttLaws (R : Rtt) := {
  nrexmt : rtt_info -> nat;
  nrexmt_newpack r : nrexmt (rtt_newpack r) = 0%nat;
  nrexmt_timeout r : nrexmt (rtt_timeout r).2 = S (nrexmt r);
  timeout_sign r : (rtt_timeout r).1 < 0 <-> (RTT_MAXNREXMT <= nrexmt r)%nat
}.

(** What happens while an answer is waited for: what the server makes of the
    [k]-th packet that was ever sent arrives, or another datagram, after which
    the alarm may go off before it is stopped; or the alarm. *)
Inductive event := Answered (k : nat) (alarmed : bool) | Datagram (d : bytes) (alarmed : bool) | Alarm.
Inductive arrival := Answer (d : bytes) (alarmed : bool) | Alarmed.

Section client.
Context {R : Rtt}.

(** The static variables; the clock when each packet is sent, and when an
    answer is taken; the packets sent. *)
Record client := Client {
  rttinit : bool; rttinfo : rtt_info; sendseq : Z; recvhdr : bytes; sent : list bytes
}.
Definition set_rttinit b s := Client b (rttinfo s) (sendseq s) (recvhdr s) (sent s).
Definition set_rttinfo r s := Client (rttinit s) r (sendseq s) (recvhdr s) (sent s).
Definition set_sendseq q s := Client (rttinit s) (rttinfo s) q (recvhdr s) (sent s).
Definition set_recvhdr h s := Client (rttinit s) (rttinfo s) (sendseq s) h (sent s).
Definition send p s := Client (rttinit s) (rttinfo s) (sendseq s) (recvhdr s) (sent s ++ [p]).

Context (clock : nat -> Z).
(** The server at the other end of the socket. *)
Context (server : bytes -> bytes).

(** What an event brings, when these packets have been sent. *)
Definition arrives (sent : list bytes) (e : event) : option arrival :=
  match e with
  | Answered k alarmed => (fun p => Answer (server p) alarmed) <$> sent !! k
  | Datagram d alarmed => Some (Answer d alarmed)
  | Alarm => Some Alarmed
  end.

(** The header and the data, gathered from two buffers. *)
Definition packet (seq ts : Z) (data : bytes) : bytes := int_bytes 4 seq ++ int_bytes 4 ts ++ data.

(** From [sendagain]: the time is that of the packets sent so far. *)
Definition send_packet (outbuff : bytes) : M client unit :=
  let* t := gets (fun s => rtt_ts (rttinfo s) (clock (length (sent s)))) in
  modify (fun s => send (packet (sendseq s) t outbuff) s).

(** [-1] with [errno] set, the size of an answer with the buffer it is in, or
    that nothing more arrives. *)
Inductive result := Timed_out | Received (n : Z) (inbuff : bytes) | Waiting.

(** From the return of [sigsetjmp]: [None] when the packet was sent again. *)
Definition on_alarm (outbuff : bytes) : M client (option result) :=
  let* r := gets (fun s => rtt_timeout (rttinfo s)) in
  modify (set_rttinfo r.2);;;
  if r.1 <? 0 then modify (set_rttinit false);;; ret (Some Timed_out)
  else send_packet outbuff;;; ret None.

(** Data received into a buffer, which is undefined when it does not fit. *)
Definition receive (d b : bytes) : M client bytes := fun s =>
  match store 0 d b with Ret _ b => Ret b s | _ => Undef "iovrecv" end.

(** The loop that receives, and the jumps out of it. *)
Fixpoint exchange (outbuff : bytes) (inbytes : nat) (events : list event) (inbuff : bytes) : M client result :=
  match events with
  | [] => ret Waiting
  | e :: events =>
    let* arrival := gets (fun s => arrives (sent s) e) in
    match arrival with
    | None => exchange outbuff inbytes events inbuff
    | Some Alarmed =>
      let* r := on_alarm outbuff in
      match r with Some r => ret r | None => exchange outbuff inbytes events inbuff end
    | Some (Answer d alarmed) =>
      let d := take (sizeof_hdr + inbytes) d in
      let n := length d in
      let* hdr := gets recvhdr in
      let* hdr := receive (take sizeof_hdr d) hdr in
      modify (set_recvhdr hdr);;;
      let* inbuff := receive (drop sizeof_hdr d) inbuff in
      if alarmed then
        let* r := on_alarm outbuff in
        match r with Some r => ret r | None => exchange outbuff inbytes events inbuff end
      else
        let* seq := gets (fun s => bytes_int (take 4 (recvhdr s))) in
        let* cur := gets sendseq in
        if (n <? sizeof_hdr)%nat || negb (seq =? cur) then exchange outbuff inbytes events inbuff
        else
          let* ts := gets (fun s => bytes_int (drop 4 (recvhdr s))) in
          modify (fun s => set_rttinfo (rtt_stop (u32 (rtt_ts (rttinfo s) (clock (length (sent s))) - ts)) (rttinfo s)) s);;;
          ret (Received (Z.of_nat n - Z.of_nat sizeof_hdr) inbuff)
    end
  end.

Definition dg_send_recv (outbuff : bytes) (inbytes : nat) (events : list event) (inbuff : bytes) : M client result :=
  let* i := gets rttinit in
  (if i then skip
   else modify (fun s => set_rttinfo (rtt_init (clock (length (sent s)))) s);;; modify (set_rttinit true));;;
  modify (fun s => set_sendseq (u32 (sendseq s + 1)) s);;;
  modify (fun s => set_rttinfo (rtt_newpack (rttinfo s)) s);;;
  send_packet outbuff;;;
  exchange outbuff inbytes events inbuff.

(** [recvline[n] = 0]. *)
Definition terminate (n : Z) (b : bytes) : M client bytes := fun s =>
  match poke (Z.to_nat n) 0 b with Ret _ b => Ret b s | _ => Undef "recvline[n]" end.

Definition Dg_send_recv (outbuff : bytes) (inbytes : nat) (events : list event) (inbuff : bytes) : M client result :=
  let* r := dg_send_recv outbuff inbytes events inbuff in
  match r with Timed_out => die "dg_send_recv error" | _ => ret r end.

(** [dg_cli]: [lines] is what [fgets] gives, with what happens after each is
    sent; [recvline] is a buffer of one byte more than can be received.  What is
    shown, and whether the input has come to its end. *)
Fixpoint dg_cli (lines : list (bytes * list event)) (recvline : bytes) : M client (bytes * bool) :=
  match lines with
  | [] => ret ([], true)
  | (sendline, events) :: lines =>
    let* r := Dg_send_recv (cstr sendline) MAXLINE events recvline in
    match r with
    | Received n recvline =>
      let* recvline := terminate n recvline in
      let* shown := dg_cli lines recvline in
      ret (cstr recvline ++ shown.1, shown.2)
    | _ => ret ([], false)
    end
  end.

(** [dg_echo]: the answer to a datagram. *)
Definition dg_echo (d : bytes) : bytes := take MAXLINE d.
End client.

(** * What can happen *)

(** The events that leave a client waiting whose request was sent in the
    packets from [first] on, [n] of them before and [n'] after: short
    datagrams, answers to earlier requests, late or repeated, answers to this
    one or an earlier one that the alarm overtakes, and the alarm. *)
Inductive noise (first : nat) : nat -> nat -> list event -> Prop :=
| noise_nil n : noise first n n []
| noise_short d n n' l : (length d < sizeof_hdr)%nat -> noise first n n' l -> noise first n n' (Datagram d false :: l)
| noise_old k n n' l : (k < first)%nat -> noise first n n' l -> noise first n n' (Answered k false :: l)
| noise_overtaken k n n' l : (k < first + n)%nat -> noise first (S n) n' l -> noise first n n' (Answered k true :: l)
| noise_alarm n n' l : noise first (S n) n' l -> noise first n n' (Alarm :: l).

Lemma noise_le first n n' l : noise first n n' l -> (n <= n')%nat.
Proof. induction 1; lia. Qed.

(** The answer to a request of [n] packets: noise, in which the alarm goes off
    no more often than packets are sent again, and then the answer to any of
    them. *)
Inductive answered (first n : nat) : list event -> Prop :=
| answered_intro l k rest : (n <= S RTT_MAXNREXMT)%nat -> noise first 1 n l -> (first <= k < first + n)%nat ->
    answered first n (l ++ Answered k false :: rest).

Section proofs.
Context `{!RttLaws R} (clock : nat -> Z).

(** The client while it waits: the packets up to [first] were sent for other
    requests, and [n] since then for this one. *)
Definition other_request (q : Z) (p : bytes) : Prop := exists q' ts data, 0 <= q' < 2 ^ 32 /\ q' <> q /\ p = packet q' ts data.
Definition this_request (q : Z) (data p : bytes) : Prop := exists ts, p = packet q ts data.
Record waiting (q : Z) (data : bytes) (first n : nat) (s : client) : Prop := {
  w_seq : sendseq s = q;
  w_hdr : length (recvhdr s) = sizeof_hdr;
  w_count : S (nrexmt (rttinfo s)) = n;
  w_old : Forall (other_request q) (take first (sent s));
  w_first : (first <= length (sent s))%nat;
  w_new : length (drop first (sent s)) = n /\ Forall (this_request q data) (drop first (sent s))
}.

Lemma waiting_old q data first n s k : waiting q data first n s -> (k < first)%nat ->
  exists p, sent s !! k = Some p /\ other_request q p.
Proof.
  intros [_ _ _ Ho Hf _] Hk. destruct (lookup_lt_is_Some_2 (sent s) k) as [p Hp]; [lia|]. exists p. split; [done|].
  apply (Forall_lookup_1 _ _ k _ Ho). by rewrite lookup_take_lt.
Qed.

Lemma waiting_new q data first n s k : waiting q data first n s -> (first <= k < first + n)%nat ->
  exists ts, sent s !! k = Some (packet q ts data).
Proof.
  intros [_ _ _ _ Hf [Hl Hn]] Hk. destruct (lookup_lt_is_Some_2 (drop first (sent s)) (k - first)) as [p Hp]; [lia|].
  destruct (Forall_lookup_1 _ _ _ _ Hn Hp) as [ts ->]. exists ts. rewrite lookup_drop in Hp. by replace (first + (k - first))%nat with k in Hp by lia.
Qed.

Lemma waiting_any q data first n s k : waiting q data first n s -> (k < first + n)%nat -> exists p, sent s !! k = Some p.
Proof.
  intros W Hk. destruct (decide (k < first)%nat) as [Hlt|Hge].
  - destruct (waiting_old q data first n s k W Hlt) as (p & Hp & _). by exists p.
  - destruct (waiting_new q data first n s k W) as [ts Hp]; [lia|]. by eexists.
Qed.

(** What stays as it is while a client waits. *)
Record same_request (s s' : client) : Prop := {
  sm_init : rttinit s' = rttinit s;
  sm_sent : exists l, sent s' = sent s ++ l
}.
#[global] Instance same_request_trans : Transitive same_request.
Proof. intros s1 s2 s3 [A1 [l A2]] [B1 [l' B2]]. constructor; [congruence|]. exists (l ++ l'). by rewrite app_assoc, <-A2. Qed.
#[global] Instance same_request_refl : Reflexive same_request.
Proof. intros s. constructor; [done|]. exists []. by rewrite app_nil_r. Qed.

Lemma waiting_hdr q data first n s h : waiting q data first n s -> length h = sizeof_hdr ->
  waiting q data first n (set_recvhdr h s) /\ same_request s (set_recvhdr h s).
Proof. intros [] H. split; constructor; try done. exists []. by rewrite app_nil_r. Qed.

Lemma on_alarm_run q data first n s :
  waiting q data first n s -> (n <= RTT_MAXNREXMT)%nat ->
  exists s', on_alarm clock data s = Ret None s' /\ waiting q data first (S n) s' /\ same_request s s'.
Proof.
  intros [H1 H2 H3 H4 H5 [H6 H7]] Hn. unfold on_alarm. rewrite bind_gets, bind_modify.
  assert (E : ((rtt_timeout (rttinfo s)).1 <? 0) = false) by (apply Z.ltb_ge; pose proof (timeout_sign (rttinfo s)); lia).
  rewrite E. eexists. split; [reflexivity|]. split; constructor; cbn; try done; try (by eexists).
  - rewrite nrexmt_timeout. lia.
  - by rewrite take_app_le.
  - rewrite length_app. lia.
  - rewrite drop_app_le, length_app, H6 by done. cbn [length]. split; [lia|]. apply Forall_app. split; [done|].
    constructor; [|constructor]. rewrite <-H1. by eexists.
Qed.

Lemma no_more_sends s data : nrexmt (rttinfo s) = RTT_MAXNREXMT ->
  exists s', on_alarm clock data s = Ret (Some Timed_out) s' /\ sent s' = sent s /\ rttinit s' = false.
Proof.
  intros Hn. unfold on_alarm. rewrite bind_gets, bind_modify.
  assert (E : ((rtt_timeout (rttinfo s)).1 <? 0) = true) by (apply Z.ltb_lt, timeout_sign; lia).
  rewrite E. eexists. split; [done|]. done.
Qed.

Lemma echo_header q ts data n : (sizeof_hdr <= n)%nat ->
  take sizeof_hdr (take n (dg_echo (packet q ts data))) = int_bytes 4 q ++ int_bytes 4 ts.
Proof.
  intros H. unfold dg_echo, packet. rewrite take_take, Nat.min_l, take_take, Nat.min_l by (unfold sizeof_hdr, MAXLINE in *; lia).
  by rewrite app_assoc, take_app_length' by (rewrite length_app, !int_bytes_length; done).
Qed.

Lemma header_seq q ts : 0 <= q < 2 ^ 32 -> bytes_int (take 4 (int_bytes 4 q ++ int_bytes 4 ts)) = q.
Proof.
  intros H. rewrite take_app_length' by by rewrite int_bytes_length. rewrite bytes_int_bytes. apply Z.mod_small. done.
Qed.

(** The events [l] leave the client waiting, with [n] packets sent. *)
Definition passes (q : Z) (data : bytes) (inbytes first n : nat) (l : list event) (s : client) (inbuff : bytes) : Prop :=
  exists s' inbuff', length inbuff' = length inbuff /\ waiting q data first n s' /\ same_request s s' /\
    forall r, exchange clock dg_echo data inbytes (l ++ r) inbuff s = exchange clock dg_echo data inbytes r inbuff' s'.

Lemma passes_cons q data inbytes first n n' e l s inbuff :
  passes q data inbytes first n [e] s inbuff ->
  (forall s1 inbuff1, waiting q data first n s1 -> length inbuff1 = length inbuff -> passes q data inbytes first n' l s1 inbuff1) ->
  passes q data inbytes first n' (e :: l) s inbuff.
Proof.
  intros (s1 & b1 & L1 & W1 & M1 & E1) H. destruct (H s1 b1 W1 L1) as (s2 & b2 & L2 & W2 & M2 & E2).
  exists s2, b2. split; [congruence|]. split; [done|]. split; [by etrans|]. intros r. rewrite <-E2, <-(E1 (l ++ r)). done.
Qed.

(** What a datagram does to the buffers. *)
Lemma receive_run d b (s : client) : (length d <= length b)%nat -> receive d b s = Ret (splice 0 d b) s.
Proof. intros H. unfold receive. by rewrite store_run by lia. Qed.

Lemma receive_into inbytes d inbuff s {A} (k : bytes -> M client A) : length (recvhdr s) = sizeof_hdr -> (inbytes <= length inbuff)%nat ->
  (let* hdr := gets recvhdr in
   let* hdr := receive (take sizeof_hdr (take (sizeof_hdr + inbytes) d)) hdr in
   modify (set_recvhdr hdr);;;
   let* inbuff := receive (drop sizeof_hdr (take (sizeof_hdr + inbytes) d)) inbuff in k inbuff) s =
  k (splice 0 (drop sizeof_hdr (take (sizeof_hdr + inbytes) d)) inbuff)
    (set_recvhdr (splice 0 (take sizeof_hdr (take (sizeof_hdr + inbytes) d)) (recvhdr s)) s).
Proof.
  intros H Hi. set (d' := take (sizeof_hdr + inbytes) d).
  assert (Hd : (length d' <= sizeof_hdr + inbytes)%nat) by (unfold d'; rewrite length_take; lia).
  assert (H1 : (length (take sizeof_hdr d') <= length (recvhdr s))%nat) by (rewrite length_take; lia).
  assert (H2 : (length (drop sizeof_hdr d') <= length inbuff)%nat) by (rewrite length_drop; lia).
  by rewrite bind_gets, (bind_run _ _ _ _ _ (receive_run _ _ s H1)), bind_modify, (bind_run _ _ _ _ _ (receive_run _ _ _ H2)).
Qed.

Lemma header_length (h d : bytes) : length h = sizeof_hdr -> length (splice 0 (take sizeof_hdr d) h) = sizeof_hdr.
Proof. intros H. rewrite splice_length; [done|]. rewrite length_take. lia. Qed.

Lemma datagram_overtaken q data inbytes first n d inbuff s e :
  waiting q data first n s -> (n <= RTT_MAXNREXMT)%nat -> (inbytes <= length inbuff)%nat -> arrives dg_echo (sent s) e = Some (Answer d true) ->
  passes q data inbytes first (S n) [e] s inbuff.
Proof.
  intros W Hn Hi E. set (d' := take (sizeof_hdr + inbytes) d).
  assert (Hd : (length d' <= sizeof_hdr + inbytes)%nat) by (unfold d'; rewrite length_take; lia).
  destruct (waiting_hdr q data first n s (splice 0 (take sizeof_hdr d') (recvhdr s)) W) as [W1 M1]; [apply header_length, W|].
  destruct (on_alarm_run q data first n _ W1 Hn) as (s2 & E2 & W2 & M2). exists s2, (splice 0 (drop sizeof_hdr d') inbuff).
  split; [apply splice_length; rewrite length_drop; lia|]. split; [done|]. split; [by etrans|].
  intros r. cbn [app exchange]. rewrite bind_gets, E, receive_into by (apply W || done). fold d'. by rewrite (bind_run _ _ _ _ _ E2).
Qed.

Lemma datagram_ignored q data inbytes first n d inbuff s e :
  waiting q data first n s -> (inbytes <= length inbuff)%nat -> arrives dg_echo (sent s) e = Some (Answer d false) ->
  (length d < sizeof_hdr)%nat \/ (exists p, d = dg_echo p /\ other_request q p) ->
  passes q data inbytes first n [e] s inbuff.
Proof.
  intros W Hi E Hd. set (d' := take (sizeof_hdr + inbytes) d).
  assert (Hl : (length d' <= sizeof_hdr + inbytes)%nat) by (unfold d'; rewrite length_take; lia).
  set (h := splice 0 (take sizeof_hdr d') (recvhdr s)). destruct (waiting_hdr q data first n s h W) as [W1 M1]; [apply header_length, W|].
  exists (set_recvhdr h s), (splice 0 (drop sizeof_hdr d') inbuff).
  split; [apply splice_length; rewrite length_drop; lia|]. split; [done|]. split; [done|].
  intros r. cbn [app exchange]. rewrite bind_gets, E, receive_into by (apply W || done). fold d' h. rewrite !bind_gets. cbn [recvhdr set_recvhdr sendseq].
  replace ((length d' <? sizeof_hdr)%nat || negb (bytes_int (take 4 h) =? sendseq s)) with true; [done|].
  destruct Hd as [Hd|(p & -> & q' & ts & data' & Hq' & Hne & ->)].
  - by rewrite (proj2 (Nat.ltb_lt _ _)) by (unfold d'; rewrite length_take; lia).
  - assert (Eh : bytes_int (take 4 h) = q').
    { unfold h, d'. rewrite echo_header by lia. rewrite splice_all by (rewrite (w_hdr _ _ _ _ _ W), length_app, !int_bytes_length; done).
      by apply header_seq. }
    by rewrite Eh, (w_seq _ _ _ _ _ W), (proj2 (Z.eqb_neq q' q)), orb_true_r by done.
Qed.

(** Noise leaves the client waiting, with one more packet sent for each alarm. *)
Lemma noise_run q data inbytes first n n' l : noise first n n' l -> forall s inbuff,
  waiting q data first n s -> (n' <= S RTT_MAXNREXMT)%nat -> (inbytes <= length inbuff)%nat -> passes q data inbytes first n' l s inbuff.
Proof.
  induction 1 as [n|d n n' l Hd H IH|k n n' l Hk H IH|k n n' l Hk H IH|n n' l H IH]; intros s inbuff W Hn Hi;
    try pose proof (noise_le _ _ _ _ H).
  - exists s, inbuff. by split_and!.
  - apply (passes_cons _ _ _ _ n); [|intros; apply IH; done || lia]. by apply (datagram_ignored _ _ _ _ _ d); [..|by left].
  - apply (passes_cons _ _ _ _ n); [|intros; apply IH; done || lia]. destruct (waiting_old _ _ _ _ _ _ W Hk) as (p & Hp & Ho).
    apply (datagram_ignored _ _ _ _ _ (dg_echo p)); [done|done|by cbn; rewrite Hp|]. right. by exists p.
  - apply (passes_cons _ _ _ _ (S n)); [|intros; apply IH; done || lia]. destruct (waiting_any _ _ _ _ _ _ W Hk) as (p & Hp).
    apply (datagram_overtaken _ _ _ _ _ (dg_echo p)); [done|lia|done|by cbn; rewrite Hp].
  - apply (passes_cons _ _ _ _ (S n)); [|intros; apply IH; done || lia].
    destruct (on_alarm_run q data first n s W) as (s' & E & W' & M'); [lia|]. exists s', inbuff. split; [done|]. split; [done|]. split; [done|].
    intros r. cbn [app exchange arrives]. by rewrite bind_gets, (bind_run _ _ _ _ _ E).
Qed.
End proofs.

(** * Theorems *)

Section requests.
Context `{!RttLaws R} (clock : nat -> Z).

(** The client before a request: none of the packets sent had the number that
    the request will have. *)
Record client_ok (s : client) : Prop := {
  c_hdr : length (recvhdr s) = sizeof_hdr;
  c_fresh : Forall (other_request (u32 (sendseq s + 1))) (sent s)
}.

Lemma request_sent data s :
  client_ok s -> exists s1, waiting (u32 (sendseq s + 1)) data (length (sent s)) 1 s1 /\
    (exists t, sent s1 = sent s ++ [packet (u32 (sendseq s + 1)) t data]) /\
    forall inbytes l inbuff, dg_send_recv clock dg_echo data inbytes l inbuff s = exchange clock dg_echo data inbytes l inbuff s1.
Proof.
  intros [H F]. unfold dg_send_recv. set (s0 := if rttinit s then s else set_rttinit true (set_rttinfo (rtt_init (clock (length (sent s)))) s)).
  assert (H0 : recvhdr s0 = recvhdr s /\ sendseq s0 = sendseq s /\ sent s0 = sent s) by (subst s0; by destruct (rttinit s)).
  destruct H0 as (H0 & Q0 & T0). eexists. split; [|split]; last first.
  - intros inbytes l inbuff. rewrite bind_gets.
    rewrite (bind_run _ _ _ tt s0) by (subst s0; by destruct (rttinit s)). rewrite !bind_modify.
    by rewrite (bind_run (send_packet clock data) _ _ _ _ eq_refl).
  - cbn. rewrite Q0, T0. by eexists.
  - constructor; cbn; rewrite ?Q0, ?T0, ?H0; try done.
    + by rewrite nrexmt_newpack.
    + by rewrite take_app_length.
    + rewrite length_app. lia.
    + rewrite drop_app_length. split; [done|]. constructor; [by eexists|constructor].
Qed.

(** The part of the data that comes back: the server cuts the packet. *)
Definition echoed (inbytes : nat) (data : bytes) : bytes := take inbytes (take (MAXLINE - sizeof_hdr) data).

Lemma exchange_hit q data first n k rest inbytes inbuff s :
  0 <= q < 2 ^ 32 -> waiting q data first n s -> (first <= k < first + n)%nat -> (inbytes <= length inbuff)%nat ->
  exists s', length (recvhdr s') = sizeof_hdr /\ sendseq s' = q /\ sent s' = sent s /\
    exchange clock dg_echo data inbytes (Answered k false :: rest) inbuff s =
      Ret (Received (Z.of_nat (length (echoed inbytes data))) (splice 0 (echoed inbytes data) inbuff)) s'.
Proof.
  intros Hq W Hk Hi. destruct (waiting_new _ _ _ _ _ _ W Hk) as [ts Hp]. cbn [exchange arrives]. rewrite bind_gets, Hp. cbn [fmap option_fmap option_map].
  rewrite receive_into by (apply W || done).
  set (d := take (sizeof_hdr + inbytes) _).
  assert (Et : take sizeof_hdr d = int_bytes 4 q ++ int_bytes 4 ts) by (apply echo_header; lia).
  assert (Er : drop sizeof_hdr d = echoed inbytes data).
  { unfold d, dg_echo, packet, echoed. rewrite app_assoc, skipn_firstn_comm, skipn_firstn_comm, drop_app_length'
      by (rewrite length_app, !int_bytes_length; done). f_equal. lia. }
  assert (Hl : length d = (sizeof_hdr + length (echoed inbytes data))%nat).
  { rewrite <-(take_drop sizeof_hdr d), Et, Er, !length_app, !int_bytes_length. done. }
  rewrite Er, Et, Hl. clearbody d. clear d Et Er Hl.
  assert (Eh : splice 0 (int_bytes 4 q ++ int_bytes 4 ts) (recvhdr s) = int_bytes 4 q ++ int_bytes 4 ts).
  { apply splice_all. rewrite length_app, !int_bytes_length. by rewrite (w_hdr _ _ _ _ _ W). }
  rewrite !bind_gets. cbn [set_recvhdr recvhdr sendseq]. rewrite Eh, header_seq, (w_seq _ _ _ _ _ W), Z.eqb_refl by done.
  rewrite (proj2 (Nat.ltb_ge _ _)) by lia. cbn [negb orb]. rewrite bind_gets, bind_modify.
  eexists. split; [|split; [|split]]; [| | |unfold ret; f_equal; f_equal; lia]; [|by apply W|done].
  cbn [recvhdr set_rttinfo set_recvhdr]. by rewrite length_app, !int_bytes_length.
Qed.

(** A request that is answered in the end, after at most three alarms and
    whatever comes late, twice or for other requests, returns its own answer:
    the data that was sent, as far as a datagram of the server holds it, and
    nothing of another request; [n] packets are sent for it, one and then one for
    each alarm. *)
Theorem dg_send_recv_answers data inbytes n l inbuff s :
  client_ok s -> answered (length (sent s)) n l -> (inbytes <= length inbuff)%nat ->
  exists s' b, dg_send_recv clock dg_echo data inbytes l inbuff s = Ret (Received (Z.of_nat (length (echoed inbytes data))) b) s' /\
    take (length (echoed inbytes data)) b = echoed inbytes data /\ length b = length inbuff /\
    length (recvhdr s') = sizeof_hdr /\ sendseq s' = u32 (sendseq s + 1) /\
    exists ps, sent s' = sent s ++ ps /\ length ps = n /\ Forall (this_request (u32 (sendseq s + 1)) data) ps.
Proof.
  intros H Ha Hi. destruct (request_sent data s H) as (s1 & W1 & (t & T1) & E). rewrite E.
  pose proof (wrapu_range 32 (sendseq s + 1) ltac:(lia)) as Hq. set (q := u32 (sendseq s + 1)) in *.
  destruct Ha as [l k rest Hn Hl Hk].
  destruct (noise_run clock q data inbytes _ 1 n l Hl s1 inbuff W1 Hn Hi) as (s2 & b & Lb & W2 & [_ [ps M2]] & E2).
  destruct (exchange_hit q data _ n k rest inbytes b s2 Hq W2 Hk ltac:(lia)) as (s3 & H3 & Q3 & T3 & E3).
  assert (Hle : (length (echoed inbytes data) <= length b)%nat) by (unfold echoed; rewrite length_take; lia).
  exists s3, (splice 0 (echoed inbytes data) b). split; [by rewrite E2|]. split; [by rewrite splice_front, take_app_length|].
  split; [rewrite splice_length; lia|]. split; [done|]. split; [done|].
  rewrite T3. rewrite T1, <-app_assoc in M2. destruct (w_new _ _ _ _ _ W2) as [N1 N2]. rewrite M2, drop_app_length in N1, N2. eexists. split; [exact M2|done].
Qed.

(** When the alarm goes off a fourth time the request is given up, with
    ETIMEDOUT, after four packets, and the estimator is set up anew for the next. *)
Theorem dg_send_recv_gives_up data inbytes l rest inbuff s :
  client_ok s -> noise (length (sent s)) 1 (S RTT_MAXNREXMT) l -> (inbytes <= length inbuff)%nat ->
  exists s' ps, dg_send_recv clock dg_echo data inbytes (l ++ Alarm :: rest) inbuff s = Ret Timed_out s' /\ rttinit s' = false /\
    sent s' = sent s ++ ps /\ length ps = S RTT_MAXNREXMT /\ Forall (this_request (u32 (sendseq s + 1)) data) ps.
Proof.
  intros H Hn Hi. destruct (request_sent data s H) as (s1 & W1 & (t & T1) & E). rewrite E.
  destruct (noise_run clock _ data inbytes _ _ _ l Hn s1 inbuff W1 ltac:(lia) Hi) as (s2 & b & Lb & W2 & [_ [ps M2]] & E2).
  pose proof (w_count _ _ _ _ _ W2) as Hc. destruct (no_more_sends clock s2 data ltac:(lia)) as (s3 & E3 & T3 & I3).
  rewrite T1, <-app_assoc in M2. destruct (w_new _ _ _ _ _ W2) as [N1 N2]. rewrite M2, drop_app_length in N1, N2.
  eexists s3, _. split.
  { rewrite E2. cbn [exchange arrives]. by rewrite bind_gets, (bind_run _ _ _ _ _ E3). }
  split; [done|]. split; [by rewrite T3, M2|done].
Qed.

(** A line of text, as fgets reads it into [sendline]. *)
Definition line_ok (line : bytes) : Prop := Forall (fun c => c <> 0) line /\ (length line < MAXLINE)%nat.

Lemma cstr_line l b : Forall (fun c => c <> 0) l -> cstr (l ++ 0 :: b) = l.
Proof. induction 1 as [|c l Hc _ IH]; [done|]. cbn. by rewrite (proj2 (Z.eqb_neq c 0)), IH. Qed.

Lemma cstr_text l : Forall (fun c => c <> 0) l -> cstr l = l.
Proof. induction 1 as [|c l Hc _ IH]; [done|]. cbn. by rewrite (proj2 (Z.eqb_neq c 0)), IH. Qed.

(** Every request of a session is answered in the end; [first] packets are
    sent before it. *)
Fixpoint session (first : nat) (lines : list (bytes * list event)) : Prop :=
  match lines with
  | [] => True
  | (line, l) :: lines => line_ok line /\ exists n, answered first n l /\ session (first + n) lines
  end.

(** The client has sent [j] requests since it started, with the numbers that
    follow [q0]. *)
Record started (q0 : Z) (j : nat) (s : client) : Prop := {
  st_hdr : length (recvhdr s) = sizeof_hdr;
  st_seq : sendseq s = u32 (q0 + Z.of_nat j);
  st_sent : Forall (fun p => exists i ts data, (1 <= i <= j)%nat /\ p = packet (u32 (q0 + Z.of_nat i)) ts data) (sent s)
}.

Lemma u32_next q0 j : u32 (u32 (q0 + Z.of_nat j) + 1) = u32 (q0 + Z.of_nat (S j)).
Proof. unfold wrapu. rewrite Zplus_mod_idemp_l. f_equal. lia. Qed.

Lemma u32_apart q0 i j : (i < j)%nat -> Z.of_nat j - Z.of_nat i < 2 ^ 32 -> u32 (q0 + Z.of_nat i) <> u32 (q0 + Z.of_nat j).
Proof.
  intros Hlt Hb E. unfold wrapu in E.
  assert (D : (Z.of_nat j - Z.of_nat i) mod 2 ^ 32 = 0).
  { replace (Z.of_nat j - Z.of_nat i) with (q0 + Z.of_nat j - (q0 + Z.of_nat i)) by lia. by rewrite Zminus_mod, E, Z.sub_diag. }
  rewrite Z.mod_small in D by lia. lia.
Qed.

Lemma started_ok q0 j s : started q0 j s -> Z.of_nat (S j) < 2 ^ 32 -> client_ok s.
Proof.
  intros [H1 H2 H3] Hj. constructor; [done|]. rewrite H2, u32_next. apply (list.Forall_impl _ _ _ H3).
  intros p (i & ts & data & Hi & ->). eexists _, ts, data. split; [by apply wrapu_range|]. split; [|done]. apply u32_apart; lia.
Qed.

Lemma dg_cli_run lines : forall q0 j recvline s,
  started q0 j s -> Z.of_nat (j + length lines) < 2 ^ 32 -> session (length (sent s)) lines -> length recvline = S MAXLINE ->
  exists s', dg_cli clock dg_echo lines recvline s = Ret (concat (take (MAXLINE - sizeof_hdr) <$> lines.*1), true) s'.
Proof.
  induction lines as [|[line l] lines IH]; intros q0 j recvline s St Hj Hs Hl; [by exists s|]. cbn [length] in Hj.
  destruct Hs as ((Ht & _) & n & Ha & Hs). cbn [dg_cli fmap list_fmap concat fst]. rewrite (cstr_text line Ht).
  destruct (dg_send_recv_answers line MAXLINE n l recvline s (started_ok q0 j s St ltac:(lia)) Ha ltac:(lia))
    as (s1 & b & E & Hb & Lb & H1 & Q1 & ps & P1 & P2 & P3).
  assert (Ee : echoed MAXLINE line = take (MAXLINE - sizeof_hdr) line) by (unfold echoed; apply take_ge; rewrite length_take; lia).
  rewrite Ee in E, Hb. set (shown := take (MAXLINE - sizeof_hdr) line) in *.
  assert (Hlen : (length shown <= MAXLINE)%nat) by (unfold shown; rewrite length_take; lia).
  rewrite (bind_run _ _ _ (Received (Z.of_nat (length shown)) b) s1) by (unfold Dg_send_recv; by rewrite (bind_run _ _ _ _ _ E)).
  assert (Ed : terminate (Z.of_nat (length shown)) b s1 = Ret (shown ++ 0 :: drop (S (length shown)) b) s1).
  { unfold terminate. rewrite Nat2Z.id, buf_poke_run by lia. f_equal. rewrite insert_take_drop, Hb by lia. done. }
  assert (St1 : started q0 (S j) s1).
  { destruct St as [T1 T2 T3]. rewrite T2, u32_next in Q1, P3. constructor; [done|done|]. rewrite P1. apply Forall_app. split.
    - apply (list.Forall_impl _ _ _ T3). intros p (i & ts & data & Hi & ->). exists i, ts, data. split; [lia|done].
    - apply (list.Forall_impl _ _ _ P3). intros p (ts & ->). exists (S j), ts, line. split; [lia|done]. }
  rewrite (bind_run _ _ _ _ _ Ed). destruct (IH q0 (S j) (shown ++ 0 :: drop (S (length shown)) b) s1) as (s' & E'); [done|lia| |  |].
  { by rewrite P1, length_app, P2. }
  { rewrite length_app. cbn [length]. rewrite length_drop. lia. }
  exists s'. rewrite (bind_run _ _ _ _ _ E'). rewrite cstr_line; [done|]. by apply Forall_take.
Qed.

(** C29: With the echo server of the directory, on a network that loses,
    repeats, delays and reorders the datagrams it is given but brings an answer
    to each request in the end, the client that is started shows the lines that
    are typed, once and in order, each as far as a datagram of the server holds
    it (4088 bytes).  The answers are made from the packets the client sent. *)
Theorem dg_cli_echoes lines recvline s :
  length (recvhdr s) = sizeof_hdr -> sent s = [] -> 0 <= sendseq s < 2 ^ 32 ->
  Z.of_nat (length lines) < 2 ^ 32 -> session 0 lines -> length recvline = S MAXLINE ->
  exists s', dg_cli clock dg_echo lines recvline s = Ret (concat (take (MAXLINE - sizeof_hdr) <$> lines.*1), true) s'.
Proof.
  intros Hh He Hq Hj Hs Hl. apply (dg_cli_run lines (sendseq s) 0); [|done|by rewrite He|done].
  constructor; [done|by rewrite Z.add_0_r, wrapu_small|by rewrite He].
Qed.
End requests.

(** * A run *)

(** An estimator: it counts, and waits a little longer each time. *)
#[export] Instance demo_rtt : Rtt := {|
  rtt_info := nat;
  rtt_init _ := 0%nat;
  rtt_newpack _ := 0%nat;
  rtt_start n := 2 * (1 + Z.of_nat n);
  rtt_timeout n := (if decide (RTT_MAXNREXMT <= n)%nat then -1 else 0, S n);
  rtt_stop _ n := n;
  rtt_ts _ now := now
|}.
#[export] Instance demo_laws : RttLaws demo_rtt.
Proof.
  refine (Build_RttLaws demo_rtt (fun n : nat => n) _ _ _); try done.
  intros n. cbn. case_decide; lia.
Defined.

Definition demo_clock (n : nat) : Z := Z.of_nat n.
Definition demo_client : client := @Client demo_rtt false 0%nat 0 (replicate 8 0) [].
(** The first answer is lost, and comes again after the second request, with
    that to the packet sent again. *)
Definition demo_lines : list (bytes * list event) :=
  [(str "one", [Alarm; Answered 1 false]);
   (str "two", [Answered 0 false; Datagram (str "junk") false; Answered 1 false; Answered 2 false])].

Example dg_cli_demo :
  match dg_cli demo_clock dg_echo demo_lines (replicate 4097 0) demo_client with
  | Ret r s => r = (str "onetwo", true) /\ sent s = [packet 1 0 (str "one"); packet 1 1 (str "one"); packet 2 2 (str "two")]
  | _ => False
  end.
Proof. vm_compute. done. Qed.

(** A line longer than a datagram of the server holds is cut. *)
Example dg_cli_long :
  match dg_cli demo_clock dg_echo [(replicate 4090 97, [Answered 0 false])] (replicate 4097 0) demo_client with
  | Ret r s => r = (replicate 4088 97, true)
  | _ => False
  end.
Proof. vm_compute. done. Qed.

Lemma dg_cli_echoes_witness :
  exists s', dg_cli demo_clock dg_echo demo_lines (replicate (S MAXLINE) 0) demo_client = Ret (str "onetwo", true) s'.
Proof.
  apply (dg_cli_echoes demo_clock demo_lines (replicate (S MAXLINE) 0) demo_client); [done|done|cbn; lia|cbn; lia| |by rewrite length_replicate].
  assert (L1 : line_ok (str "one")) by (split; [by repeat constructor|apply (bool_decide_unpack _); by vm_compute]).
  assert (L2 : line_ok (str "two")) by (split; [by repeat constructor|apply (bool_decide_unpack _); by vm_compute]).
  cbn [session demo_lines]. split; [done|]. exists 2%nat. split; [|split; [done|exists 1%nat; split; [|done]]].
  - apply (answered_intro 0 2 [Alarm] 1 []); [unfold RTT_MAXNREXMT; lia| |lia]. apply noise_alarm, noise_nil.
  - apply (answered_intro 2 1 [Answered 0 false; Datagram (str "junk") false; Answered 1 false] 2 []); [unfold RTT_MAXNREXMT; lia| |lia].
    apply noise_old; [lia|]. apply noise_short; [apply (bool_decide_unpack _); by vm_compute|]. apply noise_old; [lia|]. apply noise_nil.
Defined.

Lemma dg_send_recv_gives_up_witness :
  exists s' ps, dg_send_recv demo_clock dg_echo (str "one") 4096 [Alarm; Alarm; Alarm; Alarm] (replicate 4096 0) demo_client = Ret Timed_out s' /\
    length ps = 4%nat /\ sent s' = ps.
Proof.
  destruct (dg_send_recv_gives_up demo_clock (str "one") 4096 [Alarm; Alarm; Alarm] [] (replicate 4096 0) demo_client) as (s' & ps & E & _ & Es & Et & _);
    [by constructor|do 3 apply noise_alarm; apply noise_nil|by rewrite length_replicate|].
  exists s', ps. split; [exact E|]. split; [exact Et|exact Es].
Defined.
