(* ===== verification/Route.v ===== *)
(** Messages of a routing socket (unpv13e/libroute): get_rtaddrs.c,
    net_rt_iflist.c, net_rt_dump.c and the loop over the messages the kernel
    gives, which the programs of libroute and route share.  The kernel aligns
    the addresses of a message to [sizeof(u_long)], as [get_rtaddrs] expects. *)
From Stdlib Require Import ZArith Lia.
From stdpp Require Import base list strings numbers gmap.
From S2P Require Import Prelude CFile Packet.
Local Open Scope c_scope.

Definition RTAX_DST : nat := 0.
Definition RTAX_GATEWAY : nat := 1.
Definition RTAX_IFP : nat := 4.
Definition RTAX_IFA : nat := 5.
Definition RTAX_BRD : nat := 7.
Definition RTAX_MAX : nat := 8.
Definition RTM_NEWADDR : Z := 12.
Definition RTM_IFINFO : Z := 14.
Definition AF_LINK : Z := 18.
(** [sizeof(u_long)], [sizeof(struct if_msghdr)], [sizeof(struct ifa_msghdr)] *)
Definition ULONG : Z := 8.
Definition IFM_SIZE : Z := 112.
Definition IFA_SIZE : Z := 20.

(** * get_rtaddrs *)

Definition ROUNDUP (a size : Z) : Z := if Z.land a (size - 1) =? 0 then a else 1 + Z.lor a (size - 1).

(** [NEXT_SA(ap)]: pointers into the buffer are offsets. *)
Definition NEXT_SA (buf : bytes) (ap : Z) : M unit Z :=
  let* sa_len := field buf ap in
  ret (ap + (if sa_len =? 0 then ULONG else ROUNDUP sa_len ULONG)).

Fixpoint get_rtaddrs_loop (buf : bytes) (addrs : Z) (i n : nat) (sa : Z) : M unit (list (option Z)) :=
  match n with
  | O => ret []
  | S n =>
      if negb (Z.land addrs (Z.shiftl 1 (Z.of_nat i)) =? 0) then
        let* sa' := NEXT_SA buf sa in
        let* rest := get_rtaddrs_loop buf addrs (S i) n sa' in
        ret (Some sa :: rest)
      else
        let* rest := get_rtaddrs_loop buf addrs (S i) n sa in
        ret (None :: rest)
  end.
(** [rti_info] *)
Definition get_rtaddrs (buf : bytes) (addrs sa : Z) : M unit (list (option Z)) :=
  get_rtaddrs_loop buf addrs 0 RTAX_MAX sa.
(** [rti_info\[i\]], NULL being [None]. *)
Definition rti (info : list (option Z)) (i : nat) : option Z := mjoin (info !! i).

(** An [int] in a message. *)
Definition field32 (buf : bytes) (i : Z) : M unit Z := let* b := fields buf i 4 in ret (i32 (bytes_int b)).
(** Fields of a header: [ifm_msglen], [ifm_type], [ifm_addrs], [ifm_flags]. *)
Definition msglen (buf : bytes) (next : Z) : M unit Z := field16 buf next.
Definition msgtype (buf : bytes) (next : Z) : M unit Z := field buf (next + 3).
Definition msgaddrs (buf : bytes) (next : Z) : M unit Z := field32 buf (next + 4).
Definition msgflags (buf : bytes) (next : Z) : M unit Z := field32 buf (next + 8).

(** * Memory and the kernel *)

(** The blocks allocated, and the number of calls made to malloc and to
    sysctl. *)
Record heap := Heap { mallocs : nat; sysctls : nat; live : gset nat }.

Definition free (b : nat) : M heap unit := fun h =>
  if decide (b ∈ live h) then Ret tt (Heap (mallocs h) (sysctls h) (live h ∖ {[b]})) else Undef "free".
(** Code that works on bytes, and reading a block. *)
Definition local {A} (m : M unit A) : M heap A := zoom (fun _ => tt) (fun _ h => h) m.
Definition load {A} (b : nat) (m : M unit A) : M heap A := fun h =>
  if decide (b ∈ live h) then local m h else Undef "freed block".

Section kernel.
(** Whether the n-th allocation succeeds, and the list the kernel has at the
    n-th call for a family and an interface. *)
Context (avail : nat -> bool) (table : nat -> Z -> Z -> option bytes).

Definition malloc : M heap (option nat) := fun h =>
  let h' := Heap (S (mallocs h)) (sysctls h) in
  if avail (mallocs h) then Ret (Some (mallocs h)) (h' ({[mallocs h]} ∪ live h)) else Ret None (h' (live h)).
(** [Calloc] *)
Definition Calloc : M heap nat :=
  let* p := malloc in match p with Some b => ret b | None => die "calloc error" end.
Definition sysctl (family flags : Z) : M heap (option bytes) := fun h =>
  Ret (table (sysctls h) family flags) (Heap (mallocs h) (S (sysctls h)) (live h)).

(** The length of the list, a block for it, and the list, which must fit. *)
Definition net_rt_iflist (family flags : Z) : M heap (option (nat * bytes)) :=
  let* len := sysctl family flags in
  match len with
  | None => ret None
  | Some l =>
      let* p := malloc in
      match p with
      | None => ret None
      | Some b =>
          let* r := sysctl family flags in
          match r with
          | Some d => if (length d <=? length l)%nat then ret (Some (b, d)) else (free b;;; ret None)
          | None => free b;;; ret None
          end
      end
  end.

(** The version for the routing table does not free its block. *)
Definition net_rt_dump (family flags : Z) : M heap (option (nat * bytes)) :=
  let* len := sysctl family flags in
  match len with
  | None => ret None
  | Some l =>
      let* p := malloc in
      match p with
      | None => ret None
      | Some b =>
          let* r := sysctl family flags in
          match r with
          | Some d => if (length d <=? length l)%nat then ret (Some (b, d)) else ret None
          | None => ret None
          end
      end
  end.

Definition Net_rt_iflist (family flags : Z) : M heap (nat * bytes) :=
  let* p := net_rt_iflist family flags in match p with Some r => ret r | None => die "net_rt_iflist error" end.
End kernel.

(** [for (next = buf; next < lim; next += ifm->ifm_msglen)]: the body has its
    local variables [a] and goes on with new ones or leaves with a result. *)
Fixpoint msg_loop {A R} (b : nat) (buf : bytes) (body : Z -> A -> M heap (A + R)) (fuel : nat) (next : Z) (a : A) : M heap (A + R) :=
  if next <? Z.of_nat (length buf) then
    match fuel with
    | O => nofuel
    | S fuel =>
        let* r := body next a in
        match r with
        | inl a => let* n := load b (msglen buf next) in msg_loop b buf body fuel (next + n) a
        | inr _ => ret r
        end
    end
  else ret (inl a).

(** * Layout of messages *)

(** An address of a message, with its length first; one of length 0 takes a
    [u_long]. *)
Definition sa_okb (sa : bytes) : bool :=
  match sa with [] => true | n :: _ => (2 <=? n) && (n <? 256) && (n =? Z.of_nat (length sa)) end.
Definition slot (sa : bytes) : bytes :=
  match sa with
  | [] => replicate (Z.to_nat ULONG) 0
  | n :: _ => sa ++ replicate (Z.to_nat (ROUNDUP n ULONG - n)) 0
  end.
Definition slots (l : list (option bytes)) : bytes := concat (from_option slot [] <$> l).
Fixpoint mask (l : list (option bytes)) : Z :=
  match l with [] => 0 | o :: l => (match o with Some _ => 1 | None => 0 end) + 2 * mask l end.

Record message := Msg { m_type : Z; m_vers : Z; m_flags : Z; m_rest : bytes; m_addrs : list (option bytes) }.
Definition hdr_size (m : message) : Z := if m_type m =? RTM_IFINFO then IFM_SIZE else IFA_SIZE.
Definition msg_size (m : message) : Z := hdr_size m + Z.of_nat (length (slots (m_addrs m))).
Definition msg_bytes (m : message) : bytes :=
  int_bytes 2 (msg_size m) ++ [m_vers m; m_type m] ++ int_bytes 4 (mask (m_addrs m)) ++ int_bytes 4 (m_flags m) ++
  m_rest m ++ slots (m_addrs m).
Definition msgs_bytes (ms : list message) : bytes := concat (msg_bytes <$> ms).

Record msg_ok (m : message) : Prop := {
  mk_rest : Z.of_nat (length (m_rest m)) = hdr_size m - 12;
  mk_flags : 0 <= m_flags m < 2 ^ 31;
  mk_count : length (m_addrs m) = RTAX_MAX;
  mk_addrs : Forall (fun o => from_option sa_okb true o = true) (m_addrs m);
  mk_size : msg_size m < 65536
}.
(** The address at an index. *)
Definition addr (m : message) (i : nat) : option bytes := mjoin (m_addrs m !! i).

(** * Reading a message *)

Section addresses.
Implicit Types (l : list (option bytes)) (pre post buf : bytes).

Fixpoint offsets (o : Z) l : list (option Z) :=
  match l with
  | [] => []
  | None :: l => None :: offsets o l
  | Some sa :: l => Some o :: offsets (o + Z.of_nat (length (slot sa))) l
  end.

Lemma mask_range l : 0 <= mask l < 2 ^ Z.of_nat (length l).
Proof.
  induction l as [|o l IH]; [by cbn|]. cbn [mask length]. rewrite Nat2Z.inj_succ, Z.pow_succ_r by lia. destruct o; lia.
Qed.

Lemma mask_testbit l i : Z.testbit (mask l) (Z.of_nat i) = bool_decide (is_Some (mjoin (l !! i))).
Proof.
  revert i. induction l as [|o l IH]; intros i; [by rewrite Z.testbit_0_l|]. cbn [mask]. destruct i as [|i].
  - change (Z.of_nat 0) with 0. rewrite Z.add_comm. destruct o; cbn [lookup].
    + rewrite Z.testbit_odd_0. symmetry. apply bool_decide_eq_true_2. by eexists.
    + rewrite Z.add_0_r, Z.testbit_even_0. symmetry. apply bool_decide_eq_false_2. by intros [? ?].
  - rewrite Nat2Z.inj_succ, Z.add_comm. cbn [lookup]. destruct o.
    + rewrite Z.testbit_odd_succ by lia. apply IH.
    + rewrite Z.add_0_r, Z.testbit_even_succ by lia. apply IH.
Qed.

(** The test [addrs & (1 << i)]. *)
Lemma land_bit a i : negb (Z.land a (Z.shiftl 1 (Z.of_nat i)) =? 0) = Z.testbit a (Z.of_nat i).
Proof.
  destruct (Z.testbit a (Z.of_nat i)) eqn:E.
  - apply negb_true_iff, Z.eqb_neq. intros H. pose proof (f_equal (fun x => Z.testbit x (Z.of_nat i)) H) as H'.
    cbn beta in H'. rewrite Z.land_spec, E, Z.shiftl_1_l, Z.pow2_bits_true, Z.bits_0 in H' by lia. done.
  - apply negb_false_iff, Z.eqb_eq. apply Z.bits_inj'. intros n Hn. rewrite Z.land_spec, Z.shiftl_1_l, Z.bits_0.
    destruct (decide (n = Z.of_nat i)) as [->|Hne]; [by rewrite E|]. rewrite Z.pow2_bits_false by lia. by rewrite andb_false_r.
Qed.

Lemma ROUNDUP_ge n : 0 <= n < 256 -> n <= ROUNDUP n ULONG < 2 ^ 9.
Proof.
  intros H. assert (E : forallb (fun k => (Z.of_nat k <=? ROUNDUP (Z.of_nat k) ULONG) && (ROUNDUP (Z.of_nat k) ULONG <? 2 ^ 9)) (seq 0 256) = true) by done.
  rewrite forallb_forall in E. specialize (E (Z.to_nat n)). rewrite andb_true_iff, Z.leb_le, Z.ltb_lt, Z2Nat.id in E by lia.
  apply E, in_seq. lia.
Qed.

(** What [NEXT_SA] reads of an address. *)
Lemma slot_head sa : sa_okb sa = true ->
  exists n r, slot sa = n :: r /\ Z.of_nat (length (slot sa)) = (if n =? 0 then ULONG else ROUNDUP n ULONG).
Proof.
  destruct sa as [|n r]; cbn [sa_okb]; intros H; [by exists 0, (replicate 7 0)|].
  rewrite !andb_true_iff, Z.leb_le, Z.ltb_lt, Z.eqb_eq in H. destruct H as [[H2 H3] E].
  pose proof (ROUNDUP_ge n ltac:(lia)) as R. exists n, (r ++ replicate (Z.to_nat (ROUNDUP n ULONG - n)) 0).
  split; [done|]. rewrite (proj2 (Z.eqb_neq n 0)) by lia. cbn [slot].
  rewrite length_app, length_replicate. lia.
Qed.

Lemma NEXT_SA_run pre sa post : sa_okb sa = true ->
  NEXT_SA (pre ++ slot sa ++ post) (Z.of_nat (length pre)) tt = Ret (Z.of_nat (length pre) + Z.of_nat (length (slot sa))) tt.
Proof.
  intros H. destruct (slot_head sa H) as (n & r & E & L). unfold NEXT_SA. rewrite (field_skip pre _ _ 0), L by lia.
  by rewrite E.
Qed.

Lemma rtaddrs_loop_run l : forall pre post addrs i,
  Forall (fun o => from_option sa_okb true o = true) l ->
  (forall k, (k < length l)%nat -> Z.testbit addrs (Z.of_nat (i + k)) = bool_decide (is_Some (mjoin (l !! k)))) ->
  get_rtaddrs_loop (pre ++ slots l ++ post) addrs i (length l) (Z.of_nat (length pre)) tt = Ret (offsets (Z.of_nat (length pre)) l) tt.
Proof.
  induction l as [|o l IH]; intros pre post addrs i Hl Hb; [done|]. apply list.Forall_cons in Hl as [Ho Hl].
  cbn [length get_rtaddrs_loop offsets]. rewrite land_bit. pose proof (Hb 0%nat ltac:(cbn [length]; lia)) as H0.
  rewrite Nat.add_0_r in H0. rewrite H0. cbn [lookup].
  assert (Hn : forall k, (k < length l)%nat -> Z.testbit addrs (Z.of_nat (S i + k)) = bool_decide (is_Some (mjoin (l !! k)))).
  { intros k Hk. rewrite Nat.add_succ_comm. apply (Hb (S k)). cbn [length]. lia. }
  destruct o as [sa|]; [rewrite bool_decide_true by by eexists|rewrite bool_decide_false by by intros [? ?]]; cbv iota.
  - replace (pre ++ slots (Some sa :: l) ++ post) with (pre ++ slot sa ++ (slots l ++ post)) by (unfold slots; cbn; by rewrite <-!app_assoc).
    call (NEXT_SA_run pre sa (slots l ++ post) Ho). rewrite app_assoc.
    pose proof (IH (pre ++ slot sa) post addrs (S i) Hl Hn) as E. rewrite length_app, Nat2Z.inj_add in E. by call E.
  - by call (IH pre post addrs (S i) Hl Hn).
Qed.

(** Where [get_rtaddrs] finds the addresses. *)
Lemma get_rtaddrs_run pre l post :
  length l = RTAX_MAX -> Forall (fun o => from_option sa_okb true o = true) l ->
  get_rtaddrs (pre ++ slots l ++ post) (mask l) (Z.of_nat (length pre)) tt = Ret (offsets (Z.of_nat (length pre)) l) tt.
Proof.
  intros Hn Hl. unfold get_rtaddrs. rewrite <-Hn. apply rtaddrs_loop_run; [done|]. intros k Hk. apply mask_testbit.
Qed.

Lemma slots_cons o l : slots (o :: l) = from_option slot [] o ++ slots l.
Proof. done. Qed.

Lemma offsets_spec l : forall pre post i,
  match mjoin (l !! i) with
  | Some sa => exists o pre' post', rti (offsets (Z.of_nat (length pre)) l) i = Some o /\
      (pre ++ slots l ++ post = pre' ++ slot sa ++ post')%list /\ o = Z.of_nat (length pre')
  | None => rti (offsets (Z.of_nat (length pre)) l) i = None
  end.
Proof.
  induction l as [|o l IH]; intros pre post i; [done|]. destruct o as [sa|], i as [|i]; cbn [lookup offsets rti].
  - exists (Z.of_nat (length pre)), pre, (slots l ++ post). split; [done|]. split; [|done].
    by rewrite slots_cons, <-!app_assoc.
  - specialize (IH (pre ++ slot sa) post i). rewrite length_app, Nat2Z.inj_add, <-!app_assoc in IH.
    rewrite slots_cons, <-!app_assoc. exact IH.
  - done.
  - exact (IH pre post i).
Qed.
End addresses.

(** Bytes that stand at an offset of a buffer. *)
Definition stands (buf : bytes) (o : Z) (b : bytes) : Prop := exists pre post, buf = pre ++ b ++ post /\ o = Z.of_nat (length pre).

Lemma stands_app buf o a b : stands buf o (a ++ b) -> stands buf o a /\ stands buf (o + Z.of_nat (length a)) b.
Proof.
  intros (pre & post & -> & ->). split; [exists pre, (b ++ post)|exists (pre ++ a), post]; rewrite ?length_app, <-?app_assoc; split; (done || lia).
Qed.

Lemma stands_field buf o i b c : stands buf o b -> 0 <= i -> b !! Z.to_nat i = Some c -> field buf (o + i) tt = Ret c tt.
Proof. intros (pre & post & -> & ->) Hi Hc. rewrite (field_skip pre _ _ i) by lia. by apply field_here. Qed.

Lemma stands_field0 buf o c b : stands buf o (c :: b) -> field buf o tt = Ret c tt.
Proof. intros H. rewrite <-(Z.add_0_r o). by apply (stands_field _ _ _ (c :: b)). Qed.

Lemma stands_fields buf o b n : stands buf o b -> length b = n -> fields buf o n tt = Ret b tt.
Proof.
  intros (pre & post & -> & ->) <-. rewrite (fields_skip pre _ _ 0), fields_here by lia.
  unfold slice. cbn [Z.to_nat]. by rewrite drop_0, take_ge by lia.
Qed.

Lemma stands_field16 buf o v : stands buf o (int_bytes 2 v) -> 0 <= v < 65536 -> field16 buf o tt = Ret v tt.
Proof.
  intros H Hv. unfold field16. call (stands_field0 _ _ _ _ H).
  call (stands_field _ _ 1 _ _ H ltac:(lia) eq_refl). unfold ret. f_equal.
  pose proof (bytes_int_bytes 2 v) as E. cbn [int_bytes bytes_int] in E. change (2 ^ (8 * Z.of_nat 2)) with 65536 in E.
  rewrite (Z.mod_small v 65536) in E by lia. lia.
Qed.

Lemma stands_field32 buf o v : stands buf o (int_bytes 4 v) -> 0 <= v < 2 ^ 31 -> field32 buf o tt = Ret v tt.
Proof.
  intros H Hv. unfold field32. call (stands_fields _ _ _ 4 H (int_bytes_length _ _)). rewrite bytes_int_bytes.
  change (2 ^ (8 * Z.of_nat 4)) with (2 ^ 32). unfold ret. f_equal. rewrite wraps_mod by lia. apply wraps_small; lia.
Qed.

(** What a program reads of the message at [p]. *)
Record message_at (buf : bytes) (p : Z) (m : message) : Prop := {
  at_len : msglen buf p tt = Ret (msg_size m) tt;
  at_type : msgtype buf p tt = Ret (m_type m) tt;
  at_addrs : msgaddrs buf p tt = Ret (mask (m_addrs m)) tt;
  at_flags : msgflags buf p tt = Ret (m_flags m) tt;
  at_info : exists info, get_rtaddrs buf (mask (m_addrs m)) (p + hdr_size m) tt = Ret info tt /\
    forall i, match addr m i with
              | Some sa => exists o, rti info i = Some o /\ stands buf o (slot sa)
              | None => rti info i = None
              end
}.

Lemma hdr_size_pos m : 20 <= hdr_size m.
Proof. unfold hdr_size, IFM_SIZE, IFA_SIZE. case_match; lia. Qed.

Lemma message_reads buf p m : msg_ok m -> stands buf p (msg_bytes m) -> message_at buf p m.
Proof.
  intros [Hr Hf Hn Ha Hs] H. pose proof (hdr_size_pos m) as Hh. unfold msg_bytes in H.
  assert (0 <= msg_size m) by (unfold msg_size; lia).
  apply stands_app in H as [H1 H]. apply stands_app in H as [H2 H]. apply stands_app in H as [H3 H].
  apply stands_app in H as [H4 H]. apply stands_app in H as [H5 H6].
  rewrite !int_bytes_length in *. cbn [length] in *. change (Z.of_nat 2) with 2 in *. change (Z.of_nat 4) with 4 in *.
  replace (p + 2 + 2) with (p + 4) in * by lia. replace (p + 4 + 4) with (p + 8) in * by lia.
  pose proof (mask_range (m_addrs m)) as Hm. rewrite Hn in Hm. change (Z.of_nat RTAX_MAX) with 8 in Hm.
  constructor.
  - by apply stands_field16.
  - unfold msgtype. replace (p + 3) with (p + 2 + 1) by lia. by apply (stands_field _ _ 1 _ _ H2).
  - apply stands_field32; [done|]. lia.
  - apply stands_field32; [done|]. lia.
  - replace (p + 8 + 4 + Z.of_nat (length (m_rest m))) with (p + hdr_size m) in H6 by lia. destruct H6 as (pre & post & E & ->).
    rewrite E. eexists. rewrite (get_rtaddrs_run pre _ post Hn Ha). split; [done|]. intros i.
    pose proof (offsets_spec (m_addrs m) pre post i) as O. unfold addr. destruct (mjoin (m_addrs m !! i)); [|done].
    destruct O as (o & pre' & post' & E1 & E2 & E3). exists o. split; [done|]. by exists pre', post'.
Qed.

Lemma msg_bytes_length m : msg_ok m -> Z.of_nat (length (msg_bytes m)) = msg_size m.
Proof.
  intros H. unfold msg_bytes, msg_size. rewrite !length_app, !int_bytes_length. cbn [length]. pose proof (mk_rest _ H). lia.
Qed.

(** * The loop over the messages *)

Lemma local_run {A} (m : M unit A) h a : m tt = Ret a tt -> local m h = Ret a h.
Proof. intros Hm. unfold local. by apply zoom_run with (t := tt). Qed.

Lemma heap_load_run {A} b (m : M unit A) h a : b ∈ live h -> m tt = Ret a tt -> load b m h = Ret a h.
Proof. intros Hb Hm. unfold load. rewrite decide_True by done. by apply local_run. Qed.

Section loop.
Context {A R : Type} (b : nat) (ms : list message) (body : Z -> A -> M heap (A + R)).
Context (I : list message -> A -> heap -> Prop) (Q : R -> heap -> Prop) (D : heap -> Prop).
Local Abbreviation buf := (msgs_bytes ms).
Context (ms_ok : Forall msg_ok ms) (I_live : forall done a h, I done a h -> b ∈ live h).
(** The body, on each message in turn. *)
Context (body_ok : forall before m after a h, ms = before ++ m :: after -> I before a h ->
  message_at buf (Z.of_nat (length (msgs_bytes before))) m ->
  wpd (body (Z.of_nat (length (msgs_bytes before))) a)
    (fun r h' => match r with inl a' => I (before ++ [m]) a' h' | inr x => Q x h' end) D h).

Definition loop_post (r : A + R) (h : heap) : Prop := match r with inl a => I ms a h | inr x => Q x h end.

Lemma msgs_bytes_app xs ys : msgs_bytes (xs ++ ys) = msgs_bytes xs ++ msgs_bytes ys.
Proof. unfold msgs_bytes. by rewrite fmap_app, concat_app. Qed.

Lemma msg_loop_from fuel : forall before after a h, ms = before ++ after -> I before a h ->
  (length (msgs_bytes after) <= fuel)%nat ->
  wpd (msg_loop b buf body fuel (Z.of_nat (length (msgs_bytes before))) a) loop_post D h.
Proof using ms_ok I_live body_ok.
  induction fuel as [|fuel IH]; intros before after a h E Hi Hf.
  - assert (after = []) as ->.
    { destruct after as [|m after]; [done|]. rewrite E, Forall_app in ms_ok. destruct ms_ok as [_ [Hm _]%list.Forall_cons].
      pose proof (msg_bytes_length m Hm) as L. pose proof (hdr_size_pos m). unfold msg_size in L.
      unfold msgs_bytes in Hf. cbn [fmap list_fmap concat] in Hf. rewrite length_app in Hf. lia. }
    rewrite app_nil_r in E. subst before. cbn [msg_loop]. by rewrite (proj2 (Z.ltb_ge _ _)) by lia.
  - destruct after as [|m after].
    { rewrite app_nil_r in E. subst before. cbn [msg_loop]. by rewrite (proj2 (Z.ltb_ge _ _)) by lia. }
    assert (Hm : msg_ok m) by (rewrite E, Forall_app in ms_ok; destruct ms_ok as [_ [? _]%list.Forall_cons]; done).
    pose proof (msg_bytes_length m Hm) as L. pose proof (hdr_size_pos m). assert (20 <= msg_size m) by (unfold msg_size; lia).
    assert (Hb : buf = msgs_bytes before ++ msg_bytes m ++ msgs_bytes after) by (rewrite E, msgs_bytes_app; done).
    assert (Hat : message_at buf (Z.of_nat (length (msgs_bytes before))) m).
    { apply message_reads; [done|]. by exists (msgs_bytes before), (msgs_bytes after). }
    assert (Hlen : length (msgs_bytes (m :: after)) = (length (msg_bytes m) + length (msgs_bytes after))%nat).
    { unfold msgs_bytes. cbn [fmap list_fmap concat]. by rewrite length_app. }
    cbn [msg_loop]. rewrite (proj2 (Z.ltb_lt _ _)) by (rewrite Hb, !length_app; lia).
    apply wpd_bind. eapply wpd_mono; [apply (body_ok before m after a h E Hi Hat)|].
    intros [a'|x] h' HI; [|done]. apply wpd_bind. unfold wpd at 1. rewrite (heap_load_run _ _ _ _ (I_live _ _ _ HI) (at_len _ _ _ Hat)).
    replace (Z.of_nat (length (msgs_bytes before)) + msg_size m) with (Z.of_nat (length (msgs_bytes (before ++ [m])))).
    + apply (IH _ after); [by rewrite E, <-app_assoc|done|lia].
    + rewrite msgs_bytes_app, length_app. unfold msgs_bytes at 2. cbn [fmap list_fmap concat]. rewrite app_nil_r. lia.
Qed.

(** The loop runs its body on every message, and ends. *)
Lemma msg_loop_run a h : I [] a h -> wpd (msg_loop b buf body (length buf) 0 a) loop_post D h.
Proof using ms_ok I_live body_ok. intros H. by apply (msg_loop_from _ [] ms). Qed.
End loop.

(** * Link-level addresses *)

(** The fields of a [sockaddr_dl], and its address family. *)
Definition sa_family (buf : bytes) (sa : Z) : M unit Z := field buf (sa + 1).
Definition sdl_index (buf : bytes) (sdl : Z) : M unit Z := field16 buf (sdl + 2).
Definition sdl_nlen (buf : bytes) (sdl : Z) : M unit Z := field buf (sdl + 5).
Definition sdl_alen (buf : bytes) (sdl : Z) : M unit Z := field buf (sdl + 6).
(** [&sdl->sdl_data\[0\]] *)
Definition sdl_data (sdl : Z) : Z := sdl + 8.

(** The test the functions on names start with: the address of an interface
    message when it is one of a link. *)
Definition link_addr (b : nat) (buf : bytes) (next : Z) : M heap (option Z) :=
  let* ifm_type := load b (msgtype buf next) in
  if ifm_type =? RTM_IFINFO then
    let* ifm_addrs := load b (msgaddrs buf next) in
    let* rti_info := load b (get_rtaddrs buf ifm_addrs (next + IFM_SIZE)) in
    match rti rti_info RTAX_IFP with
    | Some sa =>
        let* family := load b (sa_family buf sa) in
        ret (if family =? AF_LINK then Some sa else None)
    | None => ret None
    end
  else ret None.

(** An interface: its index, its name, its hardware address, and what follows
    that in the slot. *)
Record link := Link { l_index : Z; l_name : bytes; l_haddr : bytes; l_tail : bytes }.
Definition as_link (sa : bytes) : option link :=
  match slot sa with
  | _ :: f :: lo :: hi :: _ :: nlen :: alen :: _ :: data =>
      if f =? AF_LINK then
        Some (Link (lo + 256 * hi) (take (Z.to_nat nlen) data) (take (Z.to_nat alen) (drop (Z.to_nat nlen) data))
                (drop (Z.to_nat nlen + Z.to_nat alen) data))
      else None
  | _ => None
  end.
(** The lengths in a link-level address are inside it. *)
Definition link_okb (sa : bytes) : bool :=
  match slot sa with
  | _ :: f :: rest =>
      if f =? AF_LINK then
        match rest with
        | _ :: _ :: _ :: nlen :: alen :: _ :: data => (0 <=? nlen) && (0 <=? alen) && (nlen + alen <=? Z.of_nat (length data))
        | _ => false
        end
      else true
  | _ => true
  end.
(** The interface a message is about. *)
Definition m_link (m : message) : option link :=
  if m_type m =? RTM_IFINFO then addr m RTAX_IFP ≫= as_link else None.
Definition links (ms : list message) : list link := omap m_link ms.
Definition m_link_ok (m : message) : Prop :=
  m_type m = RTM_IFINFO -> forall sa, addr m RTAX_IFP = Some sa -> link_okb sa = true.

Record sdl_at (buf : bytes) (o : Z) (l : link) : Prop := {
  at_index : sdl_index buf o tt = Ret (l_index l) tt;
  at_nlen : sdl_nlen buf o tt = Ret (Z.of_nat (length (l_name l))) tt;
  at_alen : sdl_alen buf o tt = Ret (Z.of_nat (length (l_haddr l))) tt;
  at_data : stands buf (sdl_data o) (l_name l ++ l_haddr l ++ l_tail l)
}.

(** What is read of an address that is one of a link, and of one that is not. *)
Lemma sdl_reads buf o sa : sa_okb sa = true -> link_okb sa = true -> stands buf o (slot sa) ->
  exists f, sa_family buf o tt = Ret f tt /\
  match as_link sa with Some l => f = AF_LINK /\ sdl_at buf o l | None => f <> AF_LINK end.
Proof.
  intros Hs Hl H. assert (exists n f r, slot sa = n :: f :: r) as (n & f & r & E).
  { destruct sa as [|n r]; [by exists 0, 0, (replicate 6 0)|]. cbn [sa_okb] in Hs. destruct r as [|f r]; [|by eexists _, _, _].
    rewrite !andb_true_iff, Z.leb_le, Z.ltb_lt, Z.eqb_eq in Hs. cbn [length] in Hs. lia. }
  unfold link_okb in Hl. unfold as_link. rewrite E in *. exists f.
  split; [by apply (stands_field _ _ 1 _ _ H)|].
  destruct (Z.eqb_spec f AF_LINK) as [->|Hf].
  2: { by do 6 (destruct r as [|? r]; [done|]). }
  destruct r as [|lo [|hi [|ty [|nlen [|alen [|sl data]]]]]]; [done..|].
  rewrite !andb_true_iff, !Z.leb_le in Hl. destruct Hl as [[H1 H2] H3]. split; [done|]. constructor; cbn [l_index l_name l_haddr l_tail].
  - unfold sdl_index, field16. call (stands_field _ _ 2 _ _ H ltac:(lia) eq_refl).
    replace (o + 2 + 1) with (o + 3) by lia. by call (stands_field _ _ 3 _ _ H ltac:(lia) eq_refl).
  - rewrite length_take_le, Z2Nat.id by lia. by apply (stands_field _ _ 5 _ _ H).
  - rewrite length_take_le, Z2Nat.id by (rewrite ?length_drop; lia). by apply (stands_field _ _ 6 _ _ H).
  - rewrite <-drop_drop, !take_drop. apply (stands_app buf o [n; AF_LINK; lo; hi; ty; nlen; alen; sl]) in H as [_ H]. exact H.
Qed.

Lemma addr_ok m i sa : msg_ok m -> addr m i = Some sa -> sa_okb sa = true.
Proof.
  intros H Hi. unfold addr in Hi. destruct (m_addrs m !! i) as [o|] eqn:E; [|done]. cbn in Hi. subst o.
  by apply (Forall_lookup_1 _ _ _ _ (mk_addrs _ H) E).
Qed.

Lemma link_addr_run b buf p m h : msg_ok m -> m_link_ok m -> message_at buf p m -> b ∈ live h ->
  exists r, link_addr b buf p h = Ret r h /\
  match m_link m with Some l => exists o, r = Some o /\ sdl_at buf o l | None => r = None end.
Proof.
  intros Hm Hl [_ Ht Ha _ Hi] Hb. unfold link_addr, m_link. call (heap_load_run b _ h _ Hb Ht).
  destruct (Z.eqb_spec (m_type m) RTM_IFINFO) as [Ety|]; [|by exists None]. destruct Hi as (info & Ei & Hi).
  assert (hdr_size m = IFM_SIZE) as Eh by (unfold hdr_size; by rewrite Ety). rewrite Eh in Ei.
  call (heap_load_run b _ h _ Hb Ha). call (heap_load_run b _ h _ Hb Ei). specialize (Hi RTAX_IFP).
  destruct (addr m RTAX_IFP) as [sa|] eqn:Es; [|exists None; by rewrite Hi]. destruct Hi as (o & -> & Ho). cbn [option_bind mbind].
  destruct (sdl_reads buf o sa (addr_ok _ _ _ Hm Es) (Hl Ety sa Es) Ho) as (f & Ef & Hf). call (heap_load_run b _ h _ Hb Ef).
  destruct (as_link sa) as [l|].
  - destruct Hf as [-> Hf]. eexists. split; [done|]. by exists o.
  - rewrite (proj2 (Z.eqb_neq _ _) Hf). by exists None.
Qed.

(** The message of an interface has room for its name. *)
Lemma m_link_size m l : msg_ok m -> m_link_ok m -> m_link m = Some l ->
  IFM_SIZE + 8 + Z.of_nat (length (l_name l)) <= msg_size m.
Proof.
  intros Hm Hl H. unfold m_link in H. destruct (Z.eqb_spec (m_type m) RTM_IFINFO) as [Ety|]; [|done].
  destruct (addr m RTAX_IFP) as [sa|] eqn:Es; [|done]. cbn in H. specialize (Hl Ety sa Es).
  assert (Z.of_nat (length (slot sa)) <= Z.of_nat (length (slots (m_addrs m)))) as Hs.
  { unfold addr in Es. destruct (m_addrs m !! RTAX_IFP) as [x|] eqn:E; [|done]. cbn in Es. subst x.
    rewrite <-(take_drop_middle _ _ _ E). unfold slots.
    rewrite fmap_app, fmap_cons, concat_app. cbn [concat from_option]. rewrite !length_app. lia. }
  unfold msg_size, hdr_size. rewrite Ety, Z.eqb_refl. unfold link_okb in Hl. unfold as_link in H.
  destruct (slot sa) as [|n [|f [|lo [|hi [|ty [|nlen [|alen [|sl data]]]]]]]]; try done.
  destruct (f =? AF_LINK); [|done]. injection H as <-. cbn [l_name]. rewrite !andb_true_iff, !Z.leb_le in Hl.
  rewrite length_take_le by lia. cbn [length] in Hs. lia.
Qed.

(** * Memory *)

(** New blocks are new; what a call leaves when it has given back what it took. *)
Definition heap_ok (h : heap) : Prop := forall b, b ∈ live h -> (b < mallocs h)%nat.
Definition later (h h' : heap) : Prop := (mallocs h <= mallocs h')%nat /\ live h' = live h.

Lemma later_refl h : later h h.
Proof. by split. Qed.

Lemma later_trans h1 h2 h3 : later h1 h2 -> later h2 h3 -> later h1 h3.
Proof. intros [H1 E1] [H2 E2]. split; [lia|congruence]. Qed.

Lemma later_ok h h' : later h h' -> heap_ok h -> heap_ok h'.
Proof. intros [H1 E1] H b Hb. rewrite E1 in Hb. specialize (H b Hb). lia. Qed.

Lemma fresh_block h : heap_ok h -> mallocs h ∉ live h.
Proof. intros H Hb. specialize (H _ Hb). lia. Qed.

Lemma heap_free_run b h : b ∈ live h -> free b h = Ret tt (Heap (mallocs h) (sysctls h) (live h ∖ {[b]})).
Proof. intros H. unfold free. by rewrite decide_True. Qed.

(** The block of the list is the only one the function takes. *)
Lemma net_rt_iflist_run avail table family flags d h : (forall t, table t family flags = d) ->
  net_rt_iflist avail table family flags h =
  match d with
  | None => Ret None (Heap (mallocs h) (S (sysctls h)) (live h))
  | Some d =>
      if avail (mallocs h) then
        Ret (Some (mallocs h, d)) (Heap (S (mallocs h)) (S (S (sysctls h))) ({[mallocs h]} ∪ live h))
      else Ret None (Heap (S (mallocs h)) (S (sysctls h)) (live h))
  end.
Proof.
  intros H. unfold net_rt_iflist, sysctl, bind. rewrite H. destruct d as [d|]; [|done]. unfold malloc. cbn [mallocs sysctls].
  destruct (avail (mallocs h)); [|done]. rewrite H. by rewrite Nat.leb_refl.
Qed.

(** While a function holds one block, and after it has freed it. *)
Definition holding (b : nat) (h h' : heap) : Prop := (mallocs h < mallocs h')%nat /\ live h' = {[b]} ∪ live h.

Lemma holding_live b h h' : holding b h h' -> b ∈ live h'.
Proof. intros [_ ->]. set_solver. Qed.

Lemma holding_free b h h' : b ∉ live h -> holding b h h' -> exists h2, free b h' = Ret tt h2 /\ later h h2.
Proof.
  intros Hb [H1 H2]. eexists. split; [apply heap_free_run, (holding_live b h); by split|]. split; cbn [mallocs live]; [lia|].
  rewrite H2. set_solver.
Qed.

Lemma wpd_heap_free b h h' (Q : unit -> heap -> Prop) D : b ∉ live h -> holding b h h' -> (forall h2, later h h2 -> Q tt h2) -> wpd (free b) Q D h'.
Proof. intros Hb H HQ. destruct (holding_free b h h' Hb H) as (h2 & E & H2). unfold wpd. rewrite E. auto. Qed.
