(* ===== verification/IfNames.v ===== *)
(** unpv13e/libroute (if_nametoindex.c, if_indextoname.c, if_nameindex.c): the
    names and the indices of the interfaces, and the program that tests these
    functions against each other (unpv13e/route/prifnameindex.c). *)
From Stdlib Require Import ZArith Lia.
From stdpp Require Import base list strings numbers gmap.
From S2P Require Import Prelude CString CFile Packet Route.
Local Open Scope c_scope.

Definition IFNAMSIZ : Z := 16.

(** [strncmp(a, b, n) == 0], and what [strncpy] writes. *)
Definition strneq (n : nat) (a b : bytes) : bool := bool_decide (cstr (take n a) = cstr (take n b)).
Definition strncpy (n : nat) (src : bytes) : bytes :=
  let s := cstr (take n src) in s ++ replicate (n - length s) 0.

Section functions.
(** Memory and kernel; [junk] is what a new block holds, [base] its address. *)
Context (avail : nat -> bool) (table : nat -> Z -> Z -> option bytes) (junk : nat -> Z) (base : nat -> Z).

(** * if_nametoindex *)

(** The strings are the bytes from a pointer on. *)
Definition nametoindex_body (b : nat) (buf name : bytes) (next : Z) (_ : unit) : M heap (unit + Z) :=
  let* sdl := link_addr b buf next in
  match sdl with
  | Some sdl =>
      let* nlen := load b (sdl_nlen buf sdl) in
      if nlen =? strlen name then
        let* data := load b (fields buf (sdl_data sdl) (Z.to_nat nlen)) in
        if strneq (Z.to_nat nlen) data name then
          let* idx := load b (sdl_index buf sdl) in
          free b;;;
          ret (inr idx)
        else ret (inl tt)
      else ret (inl tt)
  | None => ret (inl tt)
  end.

Definition if_nametoindex (name : bytes) : M heap Z :=
  let* r := net_rt_iflist avail table 0 0 in
  match r with
  | None => ret 0
  | Some r =>
      let* found := msg_loop r.1 r.2 (nametoindex_body r.1 r.2 name) (length r.2) 0 tt in
      match found with
      | inr idx => ret idx
      | inl _ => free r.1;;; ret 0
      end
  end.

Definition If_nametoindex (name : bytes) : M heap Z :=
  let* idx := if_nametoindex name in
  if idx =? 0 then die "if_nametoindex error" else ret idx.

(** * if_indextoname *)

(** [name] is the caller's array; the result is NULL or the array filled. *)
Definition indextoname_body (b : nat) (buf : bytes) (idx : Z) (name : bytes) (next : Z) (_ : unit) : M heap (unit + bytes) :=
  let* sdl := link_addr b buf next in
  match sdl with
  | Some sdl =>
      let* index := load b (sdl_index buf sdl) in
      if index =? idx then
        let* nlen := load b (sdl_nlen buf sdl) in
        let slen := Z.min (IFNAMSIZ - 1) nlen in
        let* data := load b (fields buf (sdl_data sdl) (Z.to_nat slen)) in
        let* name := local (put 0 (strncpy (Z.to_nat slen) data) name) in
        let* name := local (put slen [0] name) in
        free b;;;
        ret (inr name)
      else ret (inl tt)
  | None => ret (inl tt)
  end.

Definition if_indextoname (idx : Z) (name : bytes) : M heap (option bytes) :=
  let* r := net_rt_iflist avail table 0 idx in
  match r with
  | None => ret None
  | Some r =>
      let* found := msg_loop r.1 r.2 (indextoname_body r.1 r.2 idx name) (length r.2) 0 tt in
      match found with
      | inr name => ret (Some name)
      | inl _ => free r.1;;; ret None
      end
  end.

Definition If_indextoname (idx : Z) (name : bytes) : M heap bytes :=
  let* p := if_indextoname idx name in
  match p with Some name => ret name | None => die "if_indextoname error" end.

(** * if_nameindex *)

(** A [struct if_nameindex] has 16 bytes: the index, padding, and the pointer
    to the name. *)
Definition ENTRY : Z := 16.
Definition put_entry (p idx name : Z) (mem : bytes) : M unit bytes :=
  let* mem := put (p + 8) (int_bytes 8 name) mem in
  put p (int_bytes 4 idx) mem.

(** The block allocated, and the offsets [ifptr] and [namptr] in it. *)
Record build := Build { b_mem : bytes; b_ifptr : Z; b_namptr : Z }.

Definition nameindex_body (b : nat) (buf : bytes) (at_ : Z) (next : Z) (s : build) : M heap (build + unit) :=
  let* sdl := link_addr b buf next in
  match sdl with
  | Some sdl =>
      let* nlen := load b (sdl_nlen buf sdl) in
      let namptr := b_namptr s - (nlen + 1) in
      let* data := load b (fields buf (sdl_data sdl) (Z.to_nat nlen)) in
      let* mem := local (put namptr (strncpy (Z.to_nat nlen) data) (b_mem s)) in
      let* mem := local (put (namptr + nlen) [0] mem) in
      let* index := load b (sdl_index buf sdl) in
      let* mem := local (put_entry (b_ifptr s) index (at_ + namptr) mem) in
      ret (inl (Build mem (b_ifptr s + ENTRY) namptr))
  | None => ret (inl s)
  end.

(** The block of the result and its bytes. *)
Definition if_nameindex : M heap (option (nat * bytes)) :=
  let* r := net_rt_iflist avail table 0 0 in
  match r with
  | None => ret None
  | Some r =>
      let len := length r.2 in
      let* result := malloc avail in
      match result with
      | None => ret None
      | Some result =>
          let* s := msg_loop r.1 r.2 (nameindex_body r.1 r.2 (base result)) len 0
                      (Build (junk <$> seq 0 len) 0 (Z.of_nat len)) in
          match s with
          | inl s =>
              let* mem := local (put_entry (b_ifptr s) 0 0 (b_mem s)) in
              free r.1;;;
              ret (Some (result, mem))
          | inr _ => ret None
          end
      end
  end.

Definition If_nameindex : M heap (nat * bytes) :=
  let* p := if_nameindex in
  match p with Some r => ret r | None => die "if_nameindex error" end.

Definition if_freenameindex (ptr : nat) : M heap unit := free ptr.

(** * prifnameindex *)

(** The memory, and the names and indices printed. *)
Record program := Program { p_heap : heap; p_out : list (bytes * Z) }.
Definition on_heap {A} (m : M heap A) : M program A :=
  zoom p_heap (fun h s => Program h (p_out s)) m.
Definition printf (name : bytes) (idx : Z) : M program unit :=
  modify (fun s => Program (p_heap s) (p_out s ++ [(name, idx)])).

(** Reading the table [if_nameindex] has built: [ifptr->if_index] and the
    string [ifptr->if_name] points to. *)
Definition if_index (mem : bytes) (p : Z) : M unit Z := let* b := fields mem p 4 in ret (bytes_int b).
Definition if_name (at_ : Z) (mem : bytes) (p : Z) : M unit bytes :=
  let* b := fields mem (p + 8) 8 in
  let off := bytes_int b - at_ in
  if (off <? 0) || negb (bool_decide (0 ∈ drop (Z.to_nat off) mem)) then undef "string"
  else ret (drop (Z.to_nat off) mem).

Fixpoint check_names (at_ : Z) (mem ifname : bytes) (fuel : nat) (ifptr : Z) : M program unit :=
  match fuel with
  | O => nofuel
  | S fuel =>
      let* index := on_heap (local (if_index mem ifptr)) in
      if 0 <? index then
        let* name := on_heap (local (if_name at_ mem ifptr)) in
        printf (cstr name) index;;;
        let* n := on_heap (If_nametoindex name) in
        die_if (negb (n =? index)) "if_nametoindex returned another index";;;
        let* ifname := on_heap (If_indextoname index ifname) in
        die_if (negb (streq ifname name)) "if_indextoname returned another name";;;
        check_names at_ mem ifname fuel (ifptr + ENTRY)
      else skip
  end.

(** [ifname] is uninitialized.  Returning is exit(0). *)
Definition prifnameindex : M program unit :=
  let ifname := junk <$> seq 0 (Z.to_nat IFNAMSIZ) in
  let* save := on_heap If_nameindex in
  check_names (base save.1) save.2 ifname (S (length save.2)) 0;;;
  let* n := on_heap (if_nametoindex (str "fkjhkjhgjhgjhgdjhguyetiuyiuyhkjhkjdh")) in
  die_if (negb (n =? 0)) "if_nametoindex returned an index for fkjh...";;;
  let* n := on_heap (if_nametoindex (str "")) in
  die_if (negb (n =? 0)) "if_nametoindex returned an index for (null)";;;
  let* p := on_heap (if_indextoname 0 ifname) in
  die_if (bool_decide (is_Some p)) "if_indextoname error for 0";;;
  let* p := on_heap (if_indextoname 888888 ifname) in
  die_if (bool_decide (is_Some p)) "if_indextoname error for 888888";;;
  on_heap (if_freenameindex save.1).
End functions.

(** * What the functions compute *)

Lemma omap_snoc {A B} (f : A -> option B) l x : omap f (l ++ [x]) = omap f l ++ match f x with Some y => [y] | None => [] end.
Proof. by rewrite omap_app. Qed.

(** The first interface with a property. *)
Definition first (P : link -> Prop) `{!forall l, Decision (P l)} (ls : list link) : option link := head (filter P ls).

Lemma first_here (P : link -> Prop) `{!forall l, Decision (P l)} ls l rest : filter P ls = [] -> P l -> first P (ls ++ l :: rest) = Some l.
Proof. intros H1 H2. unfold first. by rewrite filter_app, H1, filter_cons_True. Qed.

Lemma links_split before m after l : m_link m = Some l -> links (before ++ m :: after) = links before ++ l :: links after.
Proof. intros H. unfold links. rewrite omap_app. cbn. by rewrite H. Qed.

(** The test of if_nametoindex is equality of strings. *)
Lemma strneq_name n a b : length a = n -> strlen b = Z.of_nat n -> strneq n a b = bool_decide (a = cstr b).
Proof.
  intros Ha Hb. unfold strneq, strlen in *. apply Nat2Z.inj in Hb. apply bool_decide_ext. rewrite (take_ge a) by lia.
  assert (cstr (take n b) = cstr b) as ->.
  { clear Ha. revert n Hb. induction b as [|c b IH]; intros n Hb; [by rewrite take_nil|]. cbn [cstr] in *.
    destruct (Z.eqb_spec c 0) as [->|Hc]; cbn [length] in Hb; subst n; [done|]. cbn [take cstr].
    rewrite (proj2 (Z.eqb_neq c 0) Hc). f_equal. by apply IH. }
  split; intros H.
  - assert (length (cstr a) = length a) as E by (rewrite H; lia). rewrite <-H. clear -E.
    induction a as [|c a IH]; [done|]. cbn [cstr] in *. destruct (Z.eqb_spec c 0); [done|]. cbn [length] in E. f_equal. apply IH. lia.
  - rewrite H. apply cstr_id, cstr_nonul.
Qed.

Lemma strncpy_length n src : length (strncpy n src) = Nat.max n (length (cstr (take n src))).
Proof. unfold strncpy. rewrite length_app, length_replicate. lia. Qed.

Lemma strncpy_size n src : length (strncpy n src) = n.
Proof. rewrite strncpy_length. pose proof (cstr_length_le (take n src)). rewrite length_take in *. lia. Qed.

(** A string copied with a terminator. *)
Lemma cstr_strncpy n src rest : cstr (strncpy n src ++ 0 :: rest) = cstr (take n src).
Proof.
  unfold strncpy. set (s := cstr (take n src)). rewrite <-app_assoc, cstr_app by apply cstr_nonul.
  destruct (n - length s)%nat; cbn; by rewrite app_nil_r.
Qed.

Section search.
Context (ms : list message).
Context (ms_ok : Forall msg_ok ms) (ms_links : Forall m_link_ok ms).

Lemma links_body before m after b buf p h : ms = before ++ m :: after -> message_at buf p m -> b ∈ live h ->
  exists r, link_addr b buf p h = Ret r h /\
  match m_link m with Some l => exists o, r = Some o /\ sdl_at buf o l | None => r = None end.
Proof using ms_ok ms_links.
  intros E. rewrite E, Forall_app, list.Forall_cons in ms_ok, ms_links. intros. apply link_addr_run; tauto.
Qed.

(** A loop that looks for the first interface with a property. *)
Lemma search_run {R} (P : link -> Prop) `{!forall l, Decision (P l)} (Q : link -> R -> Prop) b h0 h1
    (body : Z -> unit -> M heap (unit + R)) :
  b ∉ live h0 -> holding b h0 h1 ->
  (forall p h, holding b h0 h -> link_addr b (msgs_bytes ms) p h = Ret None h -> body p tt h = Ret (inl tt) h) ->
  (forall p l o h, holding b h0 h -> link_addr b (msgs_bytes ms) p h = Ret (Some o) h -> sdl_at (msgs_bytes ms) o l ->
     wpd (body p tt) (fun r h' => if decide (P l) then exists x, r = inr x /\ Q l x /\ later h0 h' else r = inl tt /\ h' = h)
       (fun _ => False) h) ->
  wpd (msg_loop b (msgs_bytes ms) body (length (msgs_bytes ms)) 0 tt)
    (fun r h' => match first P (links ms) with
                 | Some l => exists x, r = inr x /\ Q l x /\ later h0 h'
                 | None => r = inl tt /\ holding b h0 h'
                 end) (fun _ => False) h1.
Proof using ms_ok ms_links.
  intros Hb H1 Hnone Hsome.
  pose (I := fun (done : list message) (_ : unit) (h : heap) => filter P (links done) = [] /\ holding b h0 h).
  pose (Q' := fun (x : R) (h : heap) => exists l, first P (links ms) = Some l /\ Q l x /\ later h0 h).
  eapply wpd_mono; [apply (msg_loop_run b ms body I Q' (fun _ => False)); [done|by intros ??? [_ ?%holding_live]| |by split]|].
  - intros before m after [] h E [Hf Hh] Hat. destruct (links_body before m after b _ _ h E Hat (holding_live _ _ _ Hh)) as (r & Er & Hr).
    destruct (m_link m) as [l|] eqn:El.
    + destruct Hr as (o & -> & Ho). eapply wpd_mono; [apply (Hsome _ l o h Hh Er Ho)|]. intros r h'.
      destruct (decide (P l)) as [HP|HP].
      * intros (x & -> & Hx & Hl). exists l. split; [|done]. rewrite E, (links_split _ _ _ _ El). by apply first_here.
      * intros [-> ->]. split; [|done]. unfold links. rewrite omap_snoc, El, filter_app. fold (links before). by rewrite Hf, filter_cons_False.
    + subst r. eapply wpd_run; [by apply Hnone|]. cbn beta iota. split; [|done].
      unfold links. by rewrite omap_snoc, El, app_nil_r.
  - intros [[]|x] h' Hpost; cbn [loop_post] in Hpost.
    + destruct Hpost as [Hf Hh]. unfold first. by rewrite Hf.
    + destruct Hpost as (l & -> & Hx). eauto.
Qed.
End search.

Section lookups.
Context (avail : nat -> bool) (table : nat -> Z -> Z -> option bytes).

(** What the kernel answers for an interface, whenever it is asked. *)
Definition answers (flags : Z) (o : option (list message)) : Prop :=
  (forall t, table t 0 flags = msgs_bytes <$> o) /\
  (forall ms, o = Some ms -> Forall msg_ok ms /\ Forall m_link_ok ms).

(** The index of a name, or 0. *)
Definition index_of (name : bytes) (ls : list link) : Z :=
  from_option l_index 0 (first (fun l => l_name l = cstr name) ls).

Lemma nametoindex_search b h0 h1 ms name :
  Forall msg_ok ms -> Forall m_link_ok ms -> b ∉ live h0 -> holding b h0 h1 ->
  wpd (msg_loop b (msgs_bytes ms) (nametoindex_body b (msgs_bytes ms) name) (length (msgs_bytes ms)) 0 tt)
    (fun r h' => match first (fun l => l_name l = cstr name) (links ms) with
                 | Some l => exists x, r = inr x /\ x = l_index l /\ later h0 h'
                 | None => r = inl tt /\ holding b h0 h'
                 end) (fun _ => False) h1.
Proof.
  intros Hm Hl Hb H1. apply (search_run ms Hm Hl (fun l => l_name l = cstr name) (fun l x => x = l_index l)); [done..| |].
  - intros p h Hh E. unfold nametoindex_body. by call E.
  - intros p l o h Hh E [Ei En _ Ed]. pose proof (holding_live _ _ _ Hh) as Hlive. unfold wpd, nametoindex_body. call E.
    call (heap_load_run b _ h _ Hlive En). destruct (Z.eqb_spec (Z.of_nat (length (l_name l))) (strlen name)) as [E'|E'].
    + apply stands_app in Ed as [Ed _]. rewrite Nat2Z.id. call (heap_load_run b _ h _ Hlive (stands_fields _ _ _ _ Ed eq_refl)).
      rewrite strneq_name by done. destruct (decide (l_name l = cstr name)) as [D|D].
      * rewrite bool_decide_true by done. call (heap_load_run b _ h _ Hlive Ei).
        destruct (holding_free b h0 h Hb Hh) as (h2 & Ef & H2). call Ef. by exists (l_index l).
      * by rewrite bool_decide_false.
    + unfold ret. cbv beta iota. rewrite decide_False; [done|]. intros E2. apply E'. by rewrite E2.
Qed.

(** With memory, if_nametoindex finds the first interface of that name; it
    keeps no block. *)
Lemma if_nametoindex_run name h ms : heap_ok h -> answers 0 (Some ms) ->
  wp (if_nametoindex avail table name)
    (fun r h' => later h h' /\ r = if avail (mallocs h) then index_of name (links ms) else 0) h.
Proof.
  intros Hh [Ht Hms]. destruct (Hms ms eq_refl) as [Hm Hl]. apply wpd_wp. unfold if_nametoindex. apply wpd_bind.
  unfold wpd at 1. rewrite (net_rt_iflist_run _ _ _ _ (Some (msgs_bytes ms))) by done.
  destruct (avail (mallocs h)); [|split; [split; [cbn; lia|done]|done]]. cbn [fst snd].
  pose proof (fresh_block h Hh) as Hb. apply wpd_bind.
  eapply wpd_mono; [apply (nametoindex_search _ h); [done..|by split; cbn; [lia|]]|]. intros r h' Hr. unfold index_of.
  destruct (first _ _) as [l|]; cbn [from_option].
  - destruct Hr as (x & -> & -> & Hr). by apply wpd_ret.
  - destruct Hr as [-> Hr]. apply wpd_bind. eapply wpd_heap_free; [done..|]. intros h2 H2. by apply wpd_ret.
Qed.

(** The array if_indextoname fills holds the name, cut to fifteen bytes. *)
Definition filled (l : link) (arr arr' : bytes) : Prop :=
  length arr' = length arr /\ cstr arr' = cstr (take (Z.to_nat (IFNAMSIZ - 1)) (l_name l)).

Lemma fill_name arr l : Z.of_nat (length arr) = IFNAMSIZ ->
  let slen := Z.min (IFNAMSIZ - 1) (Z.of_nat (length (l_name l))) in
  let data := take (Z.to_nat slen) (l_name l) in
  exists a1 a2, put 0 (strncpy (Z.to_nat slen) data) arr tt = Ret a1 tt /\ put slen [0] a1 tt = Ret a2 tt /\ filled l arr a2.
Proof.
  intros Ha slen data. unfold IFNAMSIZ in *. assert (0 <= slen <= 15) by (subst slen; lia).
  set (n := Z.to_nat slen). set (s := strncpy n data). assert (Hs : length s = n) by apply strncpy_size.
  exists (splice 0 s arr), (splice n [0] (splice 0 s arr)).
  assert (length (splice 0 s arr) = length arr) as L1 by (apply splice_length; lia).
  split; [by rewrite put_run by lia|]. split; [rewrite put_run by (rewrite ?L1; cbn [length]; lia); done|].
  split; [rewrite splice_length, L1; cbn [length]; lia|].
  rewrite splice_front. replace (splice n [0] (s ++ _)) with (s ++ 0 :: drop (S n) arr).
  - subst s. rewrite cstr_strncpy. subst data. rewrite take_take, Nat.min_id. f_equal. subst n slen.
    unfold IFNAMSIZ. destruct (decide (length (l_name l) <= 15)%nat); [by rewrite !take_ge by lia|]. f_equal. lia.
  - rewrite Hs. destruct (drop n arr) as [|c r] eqn:E; [apply (f_equal length) in E; rewrite length_drop in E; cbn in E; lia|].
    assert (splice n [0] (s ++ c :: r) = s ++ 0 :: r) as -> by (rewrite <-Hs; by apply (splice_mid s [c] r [0])). do 2 f_equal.
    replace (S n) with (n + 1)%nat by lia. by rewrite <-drop_drop, E.
Qed.

Lemma indextoname_search b h0 h1 ms idx arr : Z.of_nat (length arr) = IFNAMSIZ ->
  Forall msg_ok ms -> Forall m_link_ok ms -> b ∉ live h0 -> holding b h0 h1 ->
  wpd (msg_loop b (msgs_bytes ms) (indextoname_body b (msgs_bytes ms) idx arr) (length (msgs_bytes ms)) 0 tt)
    (fun r h' => match first (fun l => l_index l = idx) (links ms) with
                 | Some l => exists x, r = inr x /\ filled l arr x /\ later h0 h'
                 | None => r = inl tt /\ holding b h0 h'
                 end) (fun _ => False) h1.
Proof.
  intros Ha Hm Hl Hb H1. apply (search_run ms Hm Hl (fun l => l_index l = idx) (fun l x => filled l arr x)); [done..| |].
  - intros p h Hh E. unfold indextoname_body. by call E.
  - intros p l o h Hh E [Ei En _ Ed]. pose proof (holding_live _ _ _ Hh) as Hlive. unfold wpd, indextoname_body. call E.
    call (heap_load_run b _ h _ Hlive Ei). destruct (Z.eqb_spec (l_index l) idx) as [E'|E']; [|unfold ret; cbv beta iota; by rewrite decide_False].
    call (heap_load_run b _ h _ Hlive En). destruct (fill_name arr l Ha) as (a1 & a2 & E1 & E2 & F).
    set (slen := Z.min _ _) in *. rewrite <-(take_drop (Z.to_nat slen) (l_name l)), <-app_assoc in Ed.
    apply stands_app in Ed as [Ed _].
    assert (length (take (Z.to_nat slen) (l_name l)) = Z.to_nat slen) as L by (rewrite length_take; subst slen; unfold IFNAMSIZ; lia).
    call (heap_load_run b _ h _ Hlive (stands_fields _ _ _ _ Ed L)). call (local_run _ h _ E1). call (local_run _ h _ E2).
    destruct (holding_free b h0 h Hb Hh) as (h2 & Ef & H2). call Ef. unfold ret. cbv beta iota. rewrite decide_True by done. by exists a2.
Qed.

Lemma if_indextoname_run idx arr h o : Z.of_nat (length arr) = IFNAMSIZ -> heap_ok h -> answers idx o -> avail (mallocs h) = true ->
  wp (if_indextoname avail table idx arr)
    (fun r h' => later h h' /\
       match first (fun l => l_index l = idx) (from_option links [] o) with
       | Some l => exists x, r = Some x /\ filled l arr x
       | None => r = None
       end) h.
Proof.
  intros Ha Hh [Ht Hms] Hav. apply wpd_wp. unfold if_indextoname. apply wpd_bind.
  unfold wpd at 1. rewrite (net_rt_iflist_run _ _ _ _ (msgs_bytes <$> o)), Hav by done.
  destruct o as [ms|]; cbn [fmap option_fmap option_map from_option]; [|split; [split; [cbn; lia|done]|done]]. destruct (Hms ms eq_refl) as [Hm Hl].
  cbn [fst snd]. pose proof (fresh_block h Hh) as Hb. apply wpd_bind.
  eapply wpd_mono; [apply (indextoname_search _ h); [done..|by split; cbn; [lia|]]|]. intros r h' Hr.
  destruct (first _ _) as [l|].
  - destruct Hr as (x & -> & F & Hr). apply wpd_ret. eauto.
  - destruct Hr as [-> Hr]. apply wpd_bind. eapply wpd_heap_free; [done..|]. intros h2 H2. by apply wpd_ret.
Qed.
End lookups.

(** * The table of if_nameindex *)

(** Room for the names with their terminators. *)
Definition names_size (ls : list link) : Z := foldr (fun l n => Z.of_nat (length (l_name l)) + 1 + n) 0 ls.

Lemma names_size_app l1 l2 : names_size (l1 ++ l2) = names_size l1 + names_size l2.
Proof. induction l1 as [|l l1 IH]; cbn; [done|]. unfold names_size in *. lia. Qed.

Lemma names_size_pos ls : 0 <= names_size ls.
Proof. induction ls as [|l ls IH]; cbn; [done|]. unfold names_size in *. lia. Qed.

(** The messages are longer than the table: the estimate is safe, with room
    for the last entry as soon as there is one interface. *)
Lemma messages_room ms : Forall msg_ok ms -> Forall m_link_ok ms ->
  (ENTRY + 103) * Z.of_nat (length (links ms)) + names_size (links ms) <= Z.of_nat (length (msgs_bytes ms)).
Proof.
  induction ms as [|m ms IH]; intros Hm Hl; [done|]. apply list.Forall_cons in Hm as [Hm Hms], Hl as [Hl Hls].
  specialize (IH Hms Hls). unfold msgs_bytes in *. cbn [fmap list_fmap concat]. rewrite length_app.
  pose proof (msg_bytes_length m Hm) as L. unfold links in *. cbn [omap list_omap]. pose proof (hdr_size_pos m). unfold ENTRY in *.
  destruct (m_link m) as [l|] eqn:E; [|unfold msg_size in L; lia]. pose proof (m_link_size m l Hm Hl E) as S. unfold IFM_SIZE in S.
  cbn [length names_size foldr]. unfold names_size in *. lia.
Qed.

(** Entry [k] of the table has the index and a pointer to the name, at [lo] or
    behind. *)
Definition entry_at (at_ lo : Z) (mem : bytes) (k : nat) (l : link) : Prop :=
  slice (16 * k) 4 mem = int_bytes 4 (l_index l) /\
  exists off rest, lo <= off <= Z.of_nat (length mem) /\ slice (16 * k + 8) 8 mem = int_bytes 8 (at_ + off) /\
    drop (Z.to_nat off) mem = strncpy (length (l_name l)) (l_name l) ++ 0 :: rest.

(** The table while it is built. *)
Record table_ok (at_ : Z) (len : nat) (s : build) (ls : list link) : Prop := {
  tb_len : length (b_mem s) = len;
  tb_ifptr : b_ifptr s = ENTRY * Z.of_nat (length ls);
  tb_namptr : b_namptr s = Z.of_nat len - names_size ls;
  tb_entries : forall k l, ls !! k = Some l -> entry_at at_ (b_namptr s) (b_mem s) k l
}.

(** A write between the entries and the names leaves both. *)
Lemma entry_between at_ lo mem k l o bs :
  entry_at at_ lo mem k l -> (16 * k + 16 <= o)%nat -> Z.of_nat (o + length bs) <= lo -> (o + length bs <= length mem)%nat ->
  entry_at at_ lo (splice o bs mem) k l.
Proof.
  intros (E & off & rest & Hoff & Ep & Ed) H1 H2 H3. split.
  - by rewrite slice_splice_before by lia.
  - exists off, rest. rewrite splice_length by lia. split; [done|]. split.
    + by rewrite slice_splice_before by lia.
    + by rewrite drop_splice_after by lia.
Qed.

Lemma entry_lower at_ lo lo' mem k l : lo' <= lo -> entry_at at_ lo mem k l -> entry_at at_ lo' mem k l.
Proof. intros H (E & off & rest & Hoff & Hp). split; [done|]. exists off, rest. split; [lia|done]. Qed.

Lemma put_entry_run p idx name mem : 0 <= p -> p + 16 <= Z.of_nat (length mem) ->
  put_entry p idx name mem tt =
  Ret (splice (Z.to_nat p) (int_bytes 4 idx) (splice (Z.to_nat (p + 8)) (int_bytes 8 name) mem)) tt.
Proof.
  intros H1 H2. unfold put_entry. erewrite bind_run by (apply put_run; rewrite ?int_bytes_length; lia). cbv beta.
  apply put_run; rewrite ?int_bytes_length, ?splice_length; rewrite ?int_bytes_length; lia.
Qed.

(** The writes for one interface. *)
Definition add_name (at_ : Z) (s : build) (l : link) : bytes :=
  let nlen := Z.of_nat (length (l_name l)) in
  let namptr := b_namptr s - (nlen + 1) in
  splice (Z.to_nat (b_ifptr s)) (int_bytes 4 (l_index l))
    (splice (Z.to_nat (b_ifptr s + 8)) (int_bytes 8 (at_ + namptr))
       (splice (Z.to_nat (namptr + nlen)) [0]
          (splice (Z.to_nat namptr) (strncpy (length (l_name l)) (l_name l)) (b_mem s)))).

Lemma drop_name o s mem : (o + length s < length mem)%nat ->
  drop o (splice (o + length s) [0] (splice o s mem)) = s ++ 0 :: drop (o + length s + 1) mem.
Proof.
  intros H. assert (length (splice o s mem) = length mem) as L by (apply splice_length; lia).
  assert (splice o s mem = (take o mem ++ s) ++ drop (o + length s) mem) as E.
  { unfold splice. replace (o - length mem)%nat with 0%nat by lia. cbn [replicate app]. by rewrite <-app_assoc. }
  destruct (drop (o + length s) mem) as [|c r] eqn:D; [apply (f_equal length) in D; rewrite length_drop in D; cbn in D; lia|].
  rewrite E. assert (length (take o mem ++ s) = (o + length s)%nat) as Lp by (rewrite length_app, length_take; lia).
  rewrite <-Lp at 1. rewrite (splice_mid _ [c] r [0]) by done. rewrite <-app_assoc, drop_app_length' by (rewrite length_take; lia).
  by rewrite <-drop_drop, D.
Qed.

Lemma table_add at_ len s ls l : table_ok at_ len s ls ->
  b_ifptr s + ENTRY <= b_namptr s - (Z.of_nat (length (l_name l)) + 1) ->
  table_ok at_ len (Build (add_name at_ s l) (b_ifptr s + ENTRY) (b_namptr s - (Z.of_nat (length (l_name l)) + 1))) (ls ++ [l]).
Proof.
  intros [Hlen Hif Hnam Hents] Hroom. pose proof (names_size_pos ls). unfold ENTRY in *.
  set (nlen := Z.of_nat (length (l_name l))) in *. set (namptr := b_namptr s - (nlen + 1)) in *.
  pose proof (strncpy_size (length (l_name l)) (l_name l)) as Hs.
  set (m1 := splice (Z.to_nat namptr) (strncpy (length (l_name l)) (l_name l)) (b_mem s)).
  assert (length m1 = len) as L1 by (subst m1; rewrite splice_length; lia).
  set (m2 := splice (Z.to_nat (namptr + nlen)) [0] m1).
  assert (length m2 = len) as L2 by (subst m2; rewrite splice_length; cbn [length]; lia).
  set (m3 := splice (Z.to_nat (b_ifptr s + 8)) (int_bytes 8 (at_ + namptr)) m2).
  assert (length m3 = len) as L3 by (subst m3; rewrite splice_length; rewrite ?int_bytes_length; lia).
  assert (length (add_name at_ s l) = len) as L4.
  { unfold add_name. fold nlen namptr. fold m1. fold m2. fold m3. rewrite splice_length; rewrite ?int_bytes_length; lia. }
  constructor; cbn [b_mem b_ifptr b_namptr]; [done|..].
  - unfold ENTRY. rewrite length_app. cbn [length]. lia.
  - rewrite names_size_app. cbn. lia.
  - unfold add_name. fold nlen namptr. fold m1. fold m2. fold m3. intros k l' Hk. apply lookup_app_Some in Hk as [Hk|[Hk1 Hk]].
    + pose proof (lookup_lt_Some _ _ _ Hk). specialize (Hents k l' Hk).
      assert (entry_at at_ (b_namptr s) m2 k l') as H2.
      { subst m2 m1. apply entry_between; [apply entry_between; [done|lia..]|lia|cbn [length]; lia|rewrite L1; cbn [length]; lia]. }
      apply (entry_lower _ (b_namptr s)); [lia|].
      subst m3. apply entry_between; [apply entry_between; [done|..]|..]; rewrite ?int_bytes_length; lia.
    + apply list_lookup_singleton_Some in Hk as [Hk <-]. unfold entry_at. assert (16 * k = Z.to_nat (b_ifptr s))%nat as -> by lia. split.
      * by rewrite slice_splice_at by (rewrite ?int_bytes_length; lia).
      * exists namptr, (drop (Z.to_nat namptr + length (l_name l) + 1) (b_mem s)).
        rewrite splice_length by (rewrite int_bytes_length; lia). split; [lia|].
        replace (Z.to_nat (b_ifptr s) + 8)%nat with (Z.to_nat (b_ifptr s + 8)) by lia. split.
        -- rewrite slice_splice_after by (rewrite int_bytes_length; lia). subst m3.
           by rewrite slice_splice_at by (rewrite ?int_bytes_length; lia).
        -- rewrite drop_splice_after by (rewrite int_bytes_length; lia). subst m3.
           rewrite drop_splice_after by (rewrite int_bytes_length; lia). subst m2 m1.
           replace (Z.to_nat (namptr + nlen)) with (Z.to_nat namptr + length (strncpy (length (l_name l)) (l_name l)))%nat by lia.
           rewrite drop_name by lia. by rewrite Hs.
Qed.

Lemma add_name_puts at_ s l :
  0 <= b_ifptr s -> b_ifptr s + ENTRY <= b_namptr s - (Z.of_nat (length (l_name l)) + 1) -> b_namptr s <= Z.of_nat (length (b_mem s)) ->
  let nlen := Z.of_nat (length (l_name l)) in let namptr := b_namptr s - (nlen + 1) in
  exists m1 m2, put namptr (strncpy (length (l_name l)) (l_name l)) (b_mem s) tt = Ret m1 tt /\
    put (namptr + nlen) [0] m1 tt = Ret m2 tt /\ put_entry (b_ifptr s) (l_index l) (at_ + namptr) m2 tt = Ret (add_name at_ s l) tt.
Proof.
  intros H1 H2 H3 nlen namptr. unfold ENTRY in *. fold nlen in H2. fold namptr in H2.
  pose proof (strncpy_size (length (l_name l)) (l_name l)) as Hs.
  set (m1 := splice (Z.to_nat namptr) (strncpy (length (l_name l)) (l_name l)) (b_mem s)).
  assert (length m1 = length (b_mem s)) as L1 by (subst m1; rewrite splice_length; lia).
  set (m2 := splice (Z.to_nat (namptr + nlen)) [0] m1).
  assert (length m2 = length (b_mem s)) as L2 by (subst m2; rewrite splice_length; rewrite ?L1; cbn [length]; lia).
  exists m1, m2. split; [apply put_run; lia|]. split; [apply put_run; rewrite ?L1; cbn [length]; lia|].
  by rewrite put_entry_run by lia.
Qed.

Section nameindex.
Context (junk : nat -> Z) (ms : list message) (ms_ok : Forall msg_ok ms) (ms_links : Forall m_link_ok ms).

Lemma nameindex_loop b at_ h : b ∈ live h ->
  wpd (msg_loop b (msgs_bytes ms) (nameindex_body b (msgs_bytes ms) at_) (length (msgs_bytes ms)) 0
         (Build (junk <$> seq 0 (length (msgs_bytes ms))) 0 (Z.of_nat (length (msgs_bytes ms)))))
    (fun r h' => h' = h /\ exists s, r = inl s /\ table_ok at_ (length (msgs_bytes ms)) s (links ms)) (fun _ => False) h.
Proof using ms_ok ms_links.
  intros Hb. set (len := length (msgs_bytes ms)).
  pose (I := fun (done : list message) (s : build) (h' : heap) => h' = h /\ table_ok at_ len s (links done)).
  eapply wpd_mono; [apply (msg_loop_run b ms _ I (fun _ _ => False) (fun _ => False) ms_ok)|].
  - by intros ??? [-> _].
  - intros before m after s h' E [-> Hs] Hat. destruct (links_body ms ms_ok ms_links before m after b _ _ h E Hat Hb) as (r & Er & Hr).
    unfold nameindex_body. unfold wpd. call Er. destruct (m_link m) as [l|] eqn:El.
    + destruct Hr as (o & -> & [Ei En _ Ed]). call (heap_load_run b _ h _ Hb En). apply stands_app in Ed as [Ed _].
      rewrite Nat2Z.id. call (heap_load_run b _ h _ Hb (stands_fields _ _ _ _ Ed eq_refl)).
      pose proof (messages_room ms ms_ok ms_links) as Hroom. rewrite E in Hroom at 1 2. rewrite (links_split _ _ _ _ El) in Hroom.
      rewrite names_size_app, length_app in Hroom. cbn [length names_size foldr] in Hroom. fold (names_size (links after)) in Hroom.
      pose proof (names_size_pos (links after)). pose proof Hs as [Hlen Hif Hnam _]. fold len in Hroom. unfold ENTRY in Hroom.
      assert (b_ifptr s + ENTRY <= b_namptr s - (Z.of_nat (length (l_name l)) + 1)) as Hr by (unfold ENTRY in *; lia).
      pose proof (names_size_pos (links before)).
      destruct (add_name_puts at_ s l ltac:(unfold ENTRY in *; lia) Hr ltac:(lia)) as (m1 & m2 & E1 & E2 & E3).
      call (local_run _ h _ E1). call (local_run _ h _ E2). call (heap_load_run b _ h _ Hb Ei). call (local_run _ h _ E3).
      unfold ret. cbv beta iota. split; [done|]. unfold links. rewrite omap_snoc, El. by apply table_add.
    + subst r. cbn. split; [done|]. unfold links in *. by rewrite omap_snoc, El, app_nil_r.
  - split; [done|]. constructor; cbn; rewrite ?length_fmap, ?length_seq; try done; unfold names_size; cbn; lia.
  - intros [s|[]] h' Hp; [|done]. destruct Hp as [-> Hp]. split; [done|]. by exists s.
Qed.
End nameindex.

(** The table a program is given. *)
Definition name_table (at_ : Z) (mem : bytes) (ls : list link) : Prop :=
  (forall k l, ls !! k = Some l -> entry_at at_ 0 mem k l) /\
  slice (16 * length ls) 4 mem = int_bytes 4 0 /\ (16 * length ls + 16 <= length mem)%nat.

(** The last entry marks the end. *)
Lemma table_end at_ len s ls : table_ok at_ len s ls -> b_ifptr s + ENTRY <= b_namptr s ->
  exists mem, put_entry (b_ifptr s) 0 0 (b_mem s) tt = Ret mem tt /\ name_table at_ mem ls /\ length mem = len.
Proof.
  intros [Hlen Hif Hnam Hents] Hroom. pose proof (names_size_pos ls). unfold ENTRY in *.
  eexists. split; [apply put_entry_run; lia|]. set (m1 := splice _ (int_bytes 8 0) _).
  assert (length m1 = len) as L1 by (subst m1; rewrite splice_length; rewrite ?int_bytes_length; lia).
  split; [split|rewrite splice_length; rewrite ?int_bytes_length; lia].
  - intros k l Hk. pose proof (lookup_lt_Some _ _ _ Hk). apply (entry_lower _ (b_namptr s)); [lia|].
    apply entry_between; [apply entry_between; [by apply Hents|..]|..]; rewrite ?int_bytes_length; lia.
  - replace (16 * length ls)%nat with (Z.to_nat (b_ifptr s)) by lia.
    rewrite slice_splice_at by (rewrite ?int_bytes_length; lia). split; [done|].
    rewrite splice_length; rewrite ?int_bytes_length; lia.
Qed.

Section table.
Context (avail : nat -> bool) (table : nat -> Z -> Z -> option bytes) (junk : nat -> Z) (base : nat -> Z).

Lemma free_second (a b : nat) (X : gset nat) : a <> b -> b ∉ X -> ({[a]} ∪ ({[b]} ∪ X)) ∖ {[b]} = {[a]} ∪ X.
Proof. intros. set_solver. Qed.

(** With memory, the table has every interface, in the order of the kernel's
    list; it is the block the caller has to free. *)
Lemma if_nameindex_run h ms : heap_ok h -> answers table 0 (Some ms) -> links ms <> [] ->
  avail (mallocs h) = true -> avail (S (mallocs h)) = true ->
  wp (if_nameindex avail table junk base)
    (fun r h' => exists mem, r = Some (S (mallocs h), mem) /\ name_table (base (S (mallocs h))) mem (links ms) /\
       length mem = length (msgs_bytes ms) /\ holding (S (mallocs h)) h h' /\ (S (mallocs h) < mallocs h')%nat) h.
Proof.
  intros Hh [Ht Hms] Hne Ha1 Ha2. destruct (Hms ms eq_refl) as [Hm Hl]. apply wpd_wp. unfold if_nameindex. apply wpd_bind.
  unfold wpd at 1. rewrite (net_rt_iflist_run _ _ _ _ (Some (msgs_bytes ms))), Ha1 by done. cbn [fst snd].
  apply wpd_bind. unfold wpd at 1, malloc. cbn [mallocs sysctls live]. rewrite Ha2.
  set (h2 := Heap _ _ _). apply wpd_bind. eapply wpd_mono; [apply (nameindex_loop _ ms Hm Hl), elem_of_union_r, elem_of_union_l, elem_of_singleton, eq_refl|].
  intros r h' (-> & s & -> & Hs). pose proof (messages_room ms Hm Hl) as Hroom. pose proof Hs as [_ Hif Hnam _].
  assert (0 < Z.of_nat (length (links ms))) by (destruct (links ms); [done|cbn [length]; lia]).
  destruct (table_end _ _ _ _ Hs) as (mem & Em & Hmem & Lmem); [unfold ENTRY in *; lia|]. unfold wpd.
  call (local_run _ h2 _ Em). assert (mallocs h ∈ live h2) as Hin by apply elem_of_union_r, elem_of_union_l, elem_of_singleton, eq_refl. call (heap_free_run _ _ Hin). unfold ret. cbv beta iota.
  exists mem. split; [done|]. split; [done|]. split; [done|]. pose proof (fresh_block h Hh) as Hf.
  subst h2. cbn [mallocs live]. split; [split; cbn [mallocs live]; [lia|]|lia]. apply free_second; [lia|done].
Qed.

(** Without memory for the table the list is not given back. *)
Lemma if_nameindex_leaks h ms : answers table 0 (Some ms) -> avail (mallocs h) = true -> avail (S (mallocs h)) = false ->
  exists h', if_nameindex avail table junk base h = Ret None h' /\ live h' = {[mallocs h]} ∪ live h.
Proof.
  intros [Ht _] Ha1 Ha2. unfold if_nameindex, bind. rewrite (net_rt_iflist_run _ _ _ _ (Some (msgs_bytes ms))), Ha1 by done.
  unfold malloc. cbn [mallocs sysctls live fst snd]. rewrite Ha2. by eexists.
Qed.

(** With no interface the last entry is written outside the table. *)
Lemma if_nameindex_empty h : answers table 0 (Some []) -> avail (mallocs h) = true -> avail (S (mallocs h)) = true ->
  exists why, if_nameindex avail table junk base h = Undef why.
Proof.
  intros [Ht _] Ha1 Ha2. unfold if_nameindex, bind. rewrite (net_rt_iflist_run _ _ _ _ (Some [])), Ha1 by apply Ht.
  unfold malloc. cbn [mallocs sysctls live fst snd]. rewrite Ha2. by eexists.
Qed.
End table.

(** * The program *)

Lemma first_unique (P : link -> Prop) `{!forall l, Decision (P l)} ls l :
  l ∈ ls -> P l -> (forall l', l' ∈ ls -> P l' -> l' = l) -> first P ls = Some l.
Proof.
  intros Hin HP Hu. unfold first. destruct (filter P ls) as [|x r] eqn:E.
  - assert (l ∈ filter P ls) as Hx by (by apply list_elem_of_filter). rewrite E in Hx. by apply elem_of_nil in Hx.
  - cbn. f_equal. assert (x ∈ filter P ls) as Hx by (rewrite E; apply list_elem_of_here). apply list_elem_of_filter in Hx as [H1 H2]. by apply Hu.
Qed.

Lemma first_none (P : link -> Prop) `{!forall l, Decision (P l)} ls : (forall l, l ∈ ls -> ~ P l) -> first P ls = None.
Proof.
  intros Hno. unfold first. destruct (filter P ls) as [|x r] eqn:E; [done|].
  assert (x ∈ filter P ls) as Hx by (rewrite E; apply list_elem_of_here). apply list_elem_of_filter in Hx as [H1 H2]. by destruct (Hno x H2).
Qed.

Lemma NoDup_fmap_inj {A B} (f : A -> B) l x y : NoDup (f <$> l) -> x ∈ l -> y ∈ l -> f x = f y -> x = y.
Proof.
  intros Hn (i & Hi)%list_elem_of_lookup_1 (j & Hj)%list_elem_of_lookup_1 E.
  assert (i = j) as ->; [|congruence]. eapply (NoDup_lookup _ _ _ (f x) Hn); rewrite list_lookup_fmap; [by rewrite Hi|by rewrite Hj, E].
Qed.

(** A name as the system has them: short, not empty, without NUL. *)
Definition name_ok (l : link) : Prop :=
  0 < l_index l < 65536 /\ l_name l <> [] /\ Z.of_nat (length (l_name l)) < IFNAMSIZ /\ Forall (fun c => c <> 0) (l_name l).

(** The interfaces of a system: the kernel lists them all for index 0 and one
    alone for its index. *)
Record interfaces (table : nat -> Z -> Z -> option bytes) (ms : list message) (one : Z -> option (list message)) : Prop := {
  if_all : answers table 0 (Some ms);
  if_one i : i <> 0 -> answers table i (one i) /\ from_option links [] (one i) = filter (fun l => l_index l = i) (links ms);
  if_names : Forall name_ok (links ms);
  if_by_name : NoDup (l_name <$> links ms);
  if_by_index : NoDup (l_index <$> links ms)
}.

Section prifnameindex.
Context (avail : nat -> bool) (table : nat -> Z -> Z -> option bytes) (junk : nat -> Z) (base : nat -> Z).
Context (ms : list message) (one : Z -> option (list message)) (sys : interfaces table ms one) (memory : forall n, avail n = true).

Lemma index_of_link l buf : l ∈ links ms -> cstr buf = l_name l -> index_of buf (links ms) = l_index l.
Proof using sys.
  intros Hl Hb. unfold index_of. rewrite (first_unique _ _ l); [done|done|by rewrite Hb|].
  intros l' Hl' E. rewrite Hb in E. by apply (NoDup_fmap_inj l_name (links ms) l' l (if_by_name _ _ _ sys)).
Qed.

Lemma link_of_index l : l ∈ links ms -> first (fun l' => l_index l' = l_index l) (filter (fun l' => l_index l' = l_index l) (links ms)) = Some l.
Proof using sys.
  intros Hl. apply first_unique; [by apply list_elem_of_filter|done|]. intros l' [_ Hl']%list_elem_of_filter E.
  by apply (NoDup_fmap_inj l_index (links ms) l' l (if_by_index _ _ _ sys)).
Qed.

Lemma link_name l : l ∈ links ms -> name_ok l.
Proof using sys. intros H. by apply (proj1 (list.Forall_forall _ _) (if_names _ _ _ sys)). Qed.

(** No interface has an empty name or one that is too long. *)
Lemma index_unknown name : name = [] \/ (16 <= length name)%nat -> cstr name = name -> index_of name (links ms) = 0.
Proof using sys.
  intros Hname Hc. unfold index_of. rewrite first_none; [done|]. intros l Hl E. rewrite Hc in E.
  destruct (link_name l Hl) as (_ & Hn & H16 & _). rewrite E in *. unfold IFNAMSIZ in H16. destruct Hname; [done|lia].
Qed.

(** Running code of the library in the program. *)
Lemma wp_on_heap {A B} (m : M heap A) (k : A -> M program B) (P : A -> heap -> Prop) Q s :
  wp m P (p_heap s) -> (forall a h, P a h -> wp (k a) Q (Program h (p_out s))) -> wp (let* a := on_heap m in k a) Q s.
Proof.
  intros H HQ. apply wp_run in H as (a & h & E & HP). unfold wp, on_heap. rewrite (bind_run _ _ _ _ _ (zoom_run _ _ _ _ _ _ E)).
  apply (HQ a h HP).
Qed.

Lemma wp_local {A B} (m : M unit A) (k : A -> M program B) a Q s :
  m tt = Ret a tt -> wp (k a) Q s -> wp (let* a := on_heap (local m) in k a) Q s.
Proof.
  intros E H. eapply (wp_on_heap _ _ (fun a' h => a' = a /\ h = p_heap s)).
  - apply wp_run. exists a, (p_heap s). split; [by apply local_run|done].
  - intros ?? [-> ->]. by destruct s.
Qed.

Lemma wp_die_none (c : bool) msg {B} (k : M program B) Q s : c = false -> wp k Q s -> wp (die_if c msg;;; k) Q s.
Proof. by intros -> H. Qed.

Lemma fields_inside b i n : 0 <= i -> i + Z.of_nat n <= Z.of_nat (length b) -> fields b i n tt = Ret (slice (Z.to_nat i) n b) tt.
Proof. intros H1 H2. rewrite <-(app_nil_r b) at 1. by apply fields_here. Qed.

(** What the program reads of an entry. *)
Lemma entry_reads at_ mem k l : name_ok l -> entry_at at_ 0 mem k l -> (16 * k + 16 <= length mem)%nat ->
  0 <= at_ -> at_ + Z.of_nat (length mem) < 2 ^ 64 ->
  if_index mem (ENTRY * Z.of_nat k) tt = Ret (l_index l) tt /\
  exists name, if_name at_ mem (ENTRY * Z.of_nat k) tt = Ret name tt /\ cstr name = l_name l.
Proof.
  intros (Hi & _ & _ & Hn) (E & off & rest & Hoff & Ep & Ed) Hk Ha1 Ha2. unfold ENTRY, if_index, if_name. split.
  - erewrite bind_run by (apply fields_inside; lia). replace (Z.to_nat (16 * Z.of_nat k)) with (16 * k)%nat by lia.
    rewrite E, bytes_int_bytes, Z.mod_small by lia. done.
  - exists (drop (Z.to_nat off) mem). erewrite bind_run by (apply fields_inside; lia). cbv beta zeta.
    replace (Z.to_nat (16 * Z.of_nat k + 8)) with (16 * k + 8)%nat by lia. rewrite Ep, bytes_int_bytes, Z.mod_small by lia.
    replace (at_ + off - at_) with off by lia. rewrite (proj2 (Z.ltb_ge off 0)), Ed by lia.
    rewrite bool_decide_true by (apply elem_of_app; right; apply list_elem_of_here). split; [done|].
    rewrite cstr_strncpy, take_ge by done. by apply cstr_id.
Qed.

(** The loop prints the rest of the table and finds no contradiction. *)
Lemma check_names_run at_ mem rest : name_table at_ mem (links ms) -> 0 <= at_ -> at_ + Z.of_nat (length mem) < 2 ^ 64 ->
  forall done_ fuel arr s, links ms = done_ ++ rest -> (length rest < fuel)%nat -> Z.of_nat (length arr) = IFNAMSIZ -> heap_ok (p_heap s) ->
  wp (check_names avail table at_ mem arr fuel (ENTRY * Z.of_nat (length done_)))
    (fun _ s' => later (p_heap s) (p_heap s') /\ p_out s' = p_out s ++ ((fun l => (l_name l, l_index l)) <$> rest)) s.
Proof using sys memory.
  intros (Hents & Hend & Hmem) Ha1 Ha2. induction rest as [|l rest IH]; intros done_ fuel arr s E Hf Harr Hh.
  - destruct fuel as [|fuel]; [by apply Nat.nlt_0_r in Hf|]. rewrite app_nil_r in E. cbn [check_names]. rewrite <-E.
    apply (wp_local _ _ 0).
    + unfold if_index, ENTRY. erewrite bind_run by (apply fields_inside; lia).
      replace (Z.to_nat (16 * Z.of_nat (length (links ms)))) with (16 * length (links ms))%nat by lia. by rewrite Hend.
    + change (0 <? 0) with false. cbv iota. apply wp_ret. split; [apply later_refl|]. cbn. by rewrite app_nil_r.
  - destruct fuel as [|fuel]; [by apply Nat.nlt_0_r in Hf|]. cbn [check_names].
    assert (Hl : l ∈ links ms) by (rewrite E; apply elem_of_app; right; apply list_elem_of_here).
    pose proof (link_name l Hl) as Hok. assert (Hk : links ms !! length done_ = Some l) by (rewrite E; by apply list_lookup_middle).
    pose proof (f_equal length E) as Elen. rewrite length_app in Elen. cbn [length] in Elen, Hf.
    destruct (entry_reads at_ mem (length done_) l Hok (Hents _ _ Hk) ltac:(lia) Ha1 Ha2) as (Ei & name & En & Hname).
    pose proof Hok as (Hi & Hne & H16 & Hnul). apply (wp_local _ _ _ _ _ Ei). rewrite (proj2 (Z.ltb_lt _ _)) by lia.
    apply (wp_local _ _ _ _ _ En). apply wp_bind, wp_modify. rewrite Hname.
    eapply (wp_on_heap _ _ (fun n h => later (p_heap s) h /\ n = l_index l)); [apply wp_bind; eapply wp_mono; [by apply (if_nametoindex_run avail table name _ ms Hh (if_all _ _ _ sys))|]|].
    { intros n h [Hn ->]. rewrite memory, (index_of_link l name Hl Hname), (proj2 (Z.eqb_neq _ _)) by lia.
      by apply wp_ret. }
    intros n h [Hn1 ->]. apply wp_die_none; [by rewrite Z.eqb_refl|]. cbn [p_heap p_out] in *.
    destruct (if_one _ _ _ sys (l_index l) ltac:(lia)) as [Hans Hone].
    eapply (wp_on_heap _ _ (fun x h2 => later h h2 /\ filled l arr x)); [apply wp_bind; eapply wp_mono; [apply (if_indextoname_run avail table (l_index l) arr h _ Harr (later_ok _ _ Hn1 Hh) Hans (memory _))|]|].
    { intros r h2 [Hn2 Hr]. rewrite Hone, (link_of_index l Hl) in Hr. destruct Hr as (x & -> & Hx). by apply wp_ret. }
    intros x h2 [Hn2 [Hx1 Hx2]]. assert (cstr x = l_name l) as Hx by (rewrite Hx2, take_ge; [by apply cstr_id|unfold IFNAMSIZ in *; lia]).
    apply wp_die_none; [unfold streq; by rewrite Hx, Hname, bool_decide_true|]. cbn [p_heap p_out] in *.
    pose proof (later_trans _ _ _ Hn1 Hn2) as Hn. replace (ENTRY * Z.of_nat (length done_) + ENTRY) with (ENTRY * Z.of_nat (length (done_ ++ [l]))).
    + eapply wp_mono; [apply IH; [by rewrite E, <-app_assoc|lia|congruence|by apply (later_ok (p_heap s))]|].
      intros _ s' [H1 H2]. cbn [p_heap p_out] in *. split; [by apply (later_trans _ h2)|]. by rewrite H2, <-app_assoc.
    + unfold ENTRY. rewrite length_app. cbn [length]. lia.
Qed.
End prifnameindex.

(** C40: On any system whose interfaces have distinct indices and distinct names
    that fit, the three functions of libroute agree with each other: the test
    program prints every interface, in the kernel's order, with the name and
    the index the kernel has for it, finds that each name leads back to its
    index and each index to its name and that no others are known, and gives
    all memory back.  The table it walks is built inside one block of the size
    of the messages. *)
Theorem prifnameindex_agrees avail table junk base ms one :
  interfaces table ms one -> links ms <> [] -> (forall n, avail n = true) ->
  (forall b, 0 <= base b /\ base b + Z.of_nat (length (msgs_bytes ms)) < 2 ^ 64) ->
  exists s, prifnameindex avail table junk base (Program (Heap 0 0 ∅) []) = Ret tt s /\
    p_out s = (fun l => (l_name l, l_index l)) <$> links ms /\ live (p_heap s) = ∅.
Proof.
  intros sys Hne Hav Hbase. set (arr := junk <$> seq 0 (Z.to_nat IFNAMSIZ)).
  assert (Harr : Z.of_nat (length arr) = IFNAMSIZ) by (subst arr; by rewrite length_fmap, length_seq).
  pose proof (index_unknown table ms one sys) as Hnone.
  set (s0 := Program (Heap 0 0 ∅) []). assert (Hh0 : heap_ok (p_heap s0)) by (intros b Hb; by apply elem_of_empty in Hb).
  pose (Post := fun (_ : unit) (s : program) => p_out s = ((fun l => (l_name l, l_index l)) <$> links ms) /\ live (p_heap s) = ∅).
  enough (wp (prifnameindex avail table junk base) Post s0) as H by (apply wp_run in H as ([] & s & E & H); by exists s).
  unfold prifnameindex. fold arr.
  eapply (wp_on_heap _ _ (fun r h => exists mem, r = (1%nat, mem) /\ name_table (base 1%nat) mem (links ms) /\
    length mem = length (msgs_bytes ms) /\ holding 1 (Heap 0 0 ∅) h /\ (1 < mallocs h)%nat)).
  { apply wp_bind. eapply wp_mono; [by apply (if_nameindex_run avail table junk base (Heap 0 0 ∅) ms Hh0 (if_all _ _ _ sys))|].
    intros r h (mem & -> & H). by exists mem. }
  intros r h (mem & -> & Htab & Hlen & [_ Hl1] & Hm1). cbn [fst snd].
  set (s1 := Program h _). assert (Hh1 : heap_ok (p_heap s1)).
  { intros b Hb. cbn in Hb. rewrite Hl1 in Hb. apply elem_of_union in Hb as [->%elem_of_singleton|Hb]; [done|by apply elem_of_empty in Hb]. }
  destruct (Hbase 1%nat) as [Hb1 Hb2]. rewrite <-Hlen in Hb2. pose proof Htab as (_ & _ & Hsize).
  apply wp_bind. eapply wp_mono.
  { apply (check_names_run avail table ms one sys Hav (base 1%nat) mem (links ms) Htab Hb1 Hb2 [] (S (length mem)) arr s1); (done || lia). }
  intros _ [h2 out2] [Hh2 Hout]. cbn [p_heap p_out s1 app] in Hh2, Hout. pose proof (later_ok _ _ Hh2 Hh1) as Hok2.
  eapply wp_on_heap; [apply (if_nametoindex_run avail table _ _ ms Hok2 (if_all _ _ _ sys))|].
  intros n h3 [Hh3 ->]. cbn [p_heap p_out] in *. rewrite Hav, Hnone by (vm_compute; (done || (right; lia))).
  apply wp_die_none; [done|]. pose proof (later_ok _ _ Hh3 Hok2) as Hok3.
  eapply wp_on_heap; [apply (if_nametoindex_run avail table _ _ ms Hok3 (if_all _ _ _ sys))|].
  intros n h4 [Hh4 ->]. cbn [p_heap p_out] in *. rewrite Hav, Hnone by (vm_compute; (done || by left)).
  apply wp_die_none; [done|]. pose proof (later_ok _ _ Hh4 Hok3) as Hok4.
  eapply wp_on_heap; [apply (if_indextoname_run avail table 0 arr _ (Some ms) Harr Hok4 (if_all _ _ _ sys) (Hav _))|].
  intros r h5 [Hh5 Hr]. cbn [p_heap p_out from_option] in *. rewrite first_none in Hr.
  2: { intros l Hl El. destruct (link_name table ms one sys l Hl) as (? & _). lia. }
  subst r. apply wp_die_none; [done|]. pose proof (later_ok _ _ Hh5 Hok4) as Hok5.
  destruct (if_one _ _ _ sys 888888 ltac:(done)) as [Hans Hone].
  eapply wp_on_heap; [apply (if_indextoname_run avail table 888888 arr _ _ Harr Hok5 Hans (Hav _))|].
  intros r h6 [Hh6 Hr]. cbn [p_heap p_out] in *. rewrite Hone, first_none in Hr.
  2: { intros l [_ Hl]%list_elem_of_filter El. destruct (link_name table ms one sys l Hl) as (? & _). lia. }
  subst r. apply wp_die_none; [done|].
  assert (Hl6 : live h6 = {[1%nat]}).
  { destruct Hh2 as [_ E2], Hh3 as [_ E3], Hh4 as [_ E4], Hh5 as [_ E5], Hh6 as [_ E6]. rewrite E6, E5, E4, E3, E2, Hl1. apply (right_id_L ∅ (∪)). }
  unfold wp, on_heap, zoom, if_freenameindex. cbn [p_heap p_out]. rewrite heap_free_run by (rewrite Hl6; by apply elem_of_singleton).
  split; cbn [p_heap p_out live]; [exact Hout|]. rewrite Hl6. set_solver.
Qed.

(** * Two interfaces *)

(** lo0 with an address, and en0, which has a hardware address. *)
Definition demo_lo0 : bytes := [20; 18; 1; 0; 24; 3; 0; 0] ++ str "lo0" ++ replicate 9 0.
Definition demo_en0 : bytes := [20; 18; 4; 0; 6; 3; 6; 0] ++ str "en0" ++ [164; 131; 231; 12; 5; 9] ++ replicate 3 0.
Definition demo_addr : bytes := [16; 2; 0; 0; 127; 0; 0; 1] ++ replicate 8 0.
Definition demo_if (flags : Z) (sdl : bytes) : message :=
  Msg RTM_IFINFO 5 flags (replicate 100 0) [None; None; None; None; Some sdl; None; None; None].
Definition demo_ifa (sa : bytes) : message :=
  Msg RTM_NEWADDR 5 0 (replicate 8 0) [None; None; Some []; None; None; Some sa; None; None].
Definition demo_ms : list message := [demo_if 73 demo_lo0; demo_ifa demo_addr; demo_if 67 demo_en0].
Definition demo_one (i : Z) : option (list message) :=
  if i =? 1 then Some [demo_if 73 demo_lo0; demo_ifa demo_addr] else if i =? 4 then Some [demo_if 67 demo_en0] else None.
Definition demo_table (_ : nat) (_ i : Z) : option bytes :=
  msgs_bytes <$> (if i =? 0 then Some demo_ms else demo_one i).

Lemma demo_msgs : Forall msg_ok demo_ms /\ Forall m_link_ok demo_ms.
Proof.
  split.
  - repeat constructor; try (by vm_compute); by apply (proj1 (Z.ltb_lt _ _)).
  - repeat constructor; intros H sa E; vm_compute in H, E; (done || (injection E as <-; done)).
Qed.

Lemma demo_interfaces : interfaces demo_table demo_ms demo_one.
Proof.
  destruct demo_msgs as [Hm Hl]. constructor.
  - split; [done|]. by intros ? [= <-].
  - intros i Hi. unfold demo_one. split.
    + split; [intros t; unfold demo_table; by rewrite (proj2 (Z.eqb_neq _ _) Hi)|].
      intros ms. apply list.Forall_cons in Hm as [Hm1 Hm], Hl as [Hl1 Hl].
      apply list.Forall_cons in Hm as [Hm2 Hm], Hl as [Hl2 Hl].
      destruct (i =? 1); [|destruct (i =? 4); [|done]]; intros [= <-]; [by repeat constructor|done].
    + destruct (Z.eqb_spec i 1) as [->|H1]; [done|]. destruct (Z.eqb_spec i 4) as [->|H4]; [done|].
      change (links demo_ms) with [Link 1 (str "lo0") [] (replicate 13 0); Link 4 (str "en0") [164; 131; 231; 12; 5; 9] (replicate 7 0)].
      by rewrite !filter_cons_False by (cbn; lia).
  - repeat constructor; cbn; try lia; done.
  - apply (bool_decide_unpack _). by vm_compute.
  - apply (bool_decide_unpack _). by vm_compute.
Qed.

Lemma prifnameindex_agrees_witness :
  exists s, prifnameindex (fun _ => true) demo_table (fun _ => 7) (fun b => 4096 * Z.of_nat (S (Nat.min b 8))) (Program (Heap 0 0 ∅) []) = Ret tt s /\
    p_out s = [(str "lo0", 1); (str "en0", 4)] /\ live (p_heap s) = ∅.
Proof.
  apply (prifnameindex_agrees _ _ _ (fun b => 4096 * Z.of_nat (S (Nat.min b 8))) demo_ms demo_one); [exact demo_interfaces|done|done|].
  intros b. change (length (msgs_bytes demo_ms)) with 316%nat. lia.
Defined.
