(* ===== verification/IfInfo.v ===== *)
(** unpv13e/route/get_ifi_info.c: the list of the interfaces with their
    addresses, from the messages of a routing socket.  The structure [ifi_info]
    is declared in a header the repository does not hold: the sizes of its
    arrays are arguments, and its other fields hold what is assigned to them.
    This file holds the functions, and what their steps do to the list. *)
From Stdlib Require Import ZArith Lia.
From stdpp Require Import base list strings numbers gmap.
From S2P Require Import Prelude CString CFile Packet Route.
Local Open Scope c_scope.

Definition IFF_UP : Z := 1.
Definition IFF_BROADCAST : Z := 2.
Definition IFF_POINTOPOINT : Z := 16.

(** Pointers are the blocks they point to; NULL is [None]. *)
Record ifi_info := Info {
  ifi_name : bytes; ifi_index : Z; ifi_flags : Z; ifi_hlen : Z; ifi_haddr : bytes;
  ifi_addr : option nat; ifi_brdaddr : option nat; ifi_dstaddr : option nat; ifi_next : option nat
}.
(** What the blocks hold. *)
Record store := Store { infos : gmap nat ifi_info; sas : gmap nat bytes }.

(** The variables of get_ifi_info: [ifipnext] is [&ifihead] ([None]) or the
    [ifi_next] of a structure; [ifi] and [flags] start without a value. *)
Record locals := Locals {
  ifihead : option nat; ifipnext : option nat; ifi : option nat; flags : option Z; mem : store
}.

Definition set_flags (f : Z) (s : locals) : locals := Locals (ifihead s) (ifipnext s) (ifi s) (Some f) (mem s).
Definition set_mem (m : store) (s : locals) : locals := Locals (ifihead s) (ifipnext s) (ifi s) (flags s) m.
Definition with_info (p : nat) (i : ifi_info) (m : store) : store := Store (<[p := i]> (infos m)) (sas m).

Definition info_at (p : option nat) (m : store) : M heap ifi_info :=
  match p with
  | Some p => match infos m !! p with Some i => ret i | None => undef "ifi" end
  | None => undef "ifi"
  end.
Definition update_info (f : ifi_info -> ifi_info) (s : locals) : M heap locals :=
  match ifi s with
  | Some p => let* i := info_at (Some p) (mem s) in ret (set_mem (with_info p (f i) (mem s)) s)
  | None => undef "ifi"
  end.

Definition set_next (p : nat) (i : ifi_info) : ifi_info :=
  Info (ifi_name i) (ifi_index i) (ifi_flags i) (ifi_hlen i) (ifi_haddr i) (ifi_addr i) (ifi_brdaddr i) (ifi_dstaddr i) (Some p).
Definition set_info_flags (f : Z) (i : ifi_info) : ifi_info :=
  Info (ifi_name i) (ifi_index i) f (ifi_hlen i) (ifi_haddr i) (ifi_addr i) (ifi_brdaddr i) (ifi_dstaddr i) (ifi_next i).
Definition set_link (name : bytes) (index hlen : Z) (haddr : bytes) (i : ifi_info) : ifi_info :=
  Info name index (ifi_flags i) hlen haddr (ifi_addr i) (ifi_brdaddr i) (ifi_dstaddr i) (ifi_next i).
Definition set_addr (p : nat) (i : ifi_info) : ifi_info :=
  Info (ifi_name i) (ifi_index i) (ifi_flags i) (ifi_hlen i) (ifi_haddr i) (Some p) (ifi_brdaddr i) (ifi_dstaddr i) (ifi_next i).
Definition set_brdaddr (p : nat) (i : ifi_info) : ifi_info :=
  Info (ifi_name i) (ifi_index i) (ifi_flags i) (ifi_hlen i) (ifi_haddr i) (ifi_addr i) (Some p) (ifi_dstaddr i) (ifi_next i).
Definition set_dstaddr (p : nat) (i : ifi_info) : ifi_info :=
  Info (ifi_name i) (ifi_index i) (ifi_flags i) (ifi_hlen i) (ifi_haddr i) (ifi_addr i) (ifi_brdaddr i) (Some p) (ifi_next i).

(** A C string in the buffer. *)
Definition string_at (buf : bytes) (o : Z) : M unit bytes :=
  if (0 <=? o) && bool_decide (0 ∈ drop (Z.to_nat o) buf) then ret (cstr (drop (Z.to_nat o) buf)) else undef "string".

Section get_ifi_info.
Context (avail : nat -> bool) (table : nat -> Z -> Z -> option bytes) (IFI_NAME IFI_HADDR : nat).

Definition zeroed : ifi_info := Info (replicate IFI_NAME 0) 0 0 0 (replicate IFI_HADDR 0) None None None None.

(** [snprintf(ifi->ifi_name, IFI_NAME, ...)] and [memcpy(ifi->ifi_haddr, ...)],
    into arrays of zeros. *)
Definition name_array (s : bytes) : bytes := let t := take (IFI_NAME - 1) s in t ++ replicate (IFI_NAME - length t) 0.
Definition haddr_array (s : bytes) : bytes := s ++ replicate (IFI_HADDR - length s) 0.

(** [ifi = Calloc(1, sizeof(struct ifi_info)); *ifipnext = ifi; ifipnext = &ifi->ifi_next;] *)
Definition new_info (s : locals) : M heap locals :=
  let* p := Calloc avail in
  let m := with_info p zeroed (mem s) in
  match ifipnext s with
  | None => ret (Locals (Some p) (Some p) (Some p) (flags s) m)
  | Some q =>
      let* i := info_at (Some q) m in
      ret (Locals (ifihead s) (Some p) (Some p) (flags s) (with_info q (set_next p i) m))
  end.

(** [Calloc(1, sa->sa_len)] and [memcpy]: the block, and the memory with it. *)
Definition copy_sa (b : nat) (buf : bytes) (sa : Z) (s : locals) : M heap (nat * locals) :=
  let* sa_len := load b (field buf sa) in
  let* p := Calloc avail in
  let* d := load b (fields buf sa (Z.to_nat sa_len)) in
  ret (p, set_mem (Store (infos (mem s)) (<[p := d]> (sas (mem s)))) s).

Definition link_body (b : nat) (buf : bytes) (sdl : Z) (s : locals) : M heap locals :=
  let* index := load b (sdl_index buf sdl) in
  let* nlen := load b (sdl_nlen buf sdl) in
  let* name :=
    (if 0 <? nlen then
       let* str := load b (string_at buf (sdl_data sdl)) in
       ret (name_array (padl (Z.to_nat nlen) str))
     else ret (name_array (str "index " ++ udec index))) in
  let* alen := load b (sdl_alen buf sdl) in
  let* haddr :=
    (if 0 <? alen then load b (fields buf (sdl_data sdl + nlen) (Nat.min IFI_HADDR (Z.to_nat alen)))
     else ret []) in
  update_info (set_link name index alen (haddr_array haddr)) s.

(** [if (ifm->ifm_type == RTM_IFINFO)] *)
Definition ifinfo_body (b : nat) (buf : bytes) (next : Z) (s : locals) : M heap locals :=
  let* f := load b (msgflags buf next) in
  let s := set_flags f s in
  if Z.land f IFF_UP =? 0 then ret s
  else
    let* addrs := load b (msgaddrs buf next) in
    let* info := load b (get_rtaddrs buf addrs (next + IFM_SIZE)) in
    match rti info RTAX_IFP with
    | None => ret s
    | Some sa =>
        let* s := new_info s in
        let* s := update_info (set_info_flags f) s in
        let* family := load b (sa_family buf sa) in
        if family =? AF_LINK then link_body b buf sa s else ret s
    end.

(** A new structure for another address of the interface. *)
Definition alias (s : locals) : M heap locals :=
  let* ifisave := info_at (ifi s) (mem s) in
  let* s := new_info s in
  let* s := update_info (set_info_flags (ifi_flags ifisave)) s in
  update_info (set_link (ifi_name ifisave) (ifi_index ifisave) (ifi_hlen ifisave) (ifi_haddr ifisave)) s.

Definition flag_set (s : locals) (bit : Z) : M heap bool :=
  match flags s with Some f => ret (negb (Z.land f bit =? 0)) | None => undef "flags" end.

(** An address copied when there is one. *)
Definition copy_if (c : bool) (b : nat) (buf : bytes) (sa : option Z) (set : nat -> ifi_info -> ifi_info) (s : locals) : M heap locals :=
  match sa with
  | Some sa =>
      if c then let* r := copy_sa b buf sa s in update_info (set r.1) r.2 else ret s
  | None => ret s
  end.

(** [else if (ifm->ifm_type == RTM_NEWADDR)] *)
Definition newaddr_body (doaliases : Z) (b : nat) (buf : bytes) (next : Z) (s : locals) : M heap locals :=
  let* i := info_at (ifi s) (mem s) in
  if bool_decide (is_Some (ifi_addr i)) && (doaliases =? 0) then ret s
  else
    let* s := (if bool_decide (is_Some (ifi_addr i)) then alias s else ret s) in
    let* addrs := load b (msgaddrs buf next) in
    let* info := load b (get_rtaddrs buf addrs (next + IFA_SIZE)) in
    let* s := copy_if true b buf (rti info RTAX_IFA) set_addr s in
    let* broadcast := flag_set s IFF_BROADCAST in
    let* s := copy_if broadcast b buf (rti info RTAX_BRD) set_brdaddr s in
    let* pointopoint := flag_set s IFF_POINTOPOINT in
    copy_if pointopoint b buf (rti info RTAX_BRD) set_dstaddr s.

Definition ifi_body (doaliases : Z) (b : nat) (buf : bytes) (next : Z) (s : locals) : M heap (locals + unit) :=
  let* ifm_type := load b (msgtype buf next) in
  if ifm_type =? RTM_IFINFO then let* s := ifinfo_body b buf next s in ret (inl s)
  else if ifm_type =? RTM_NEWADDR then let* s := newaddr_body doaliases b buf next s in ret (inl s)
  else die "unexpected message type".

(** The head of the list, and the memory that holds it. *)
Definition get_ifi_info (family doaliases : Z) : M heap (option nat * store) :=
  let* r := Net_rt_iflist avail table family 0 in
  let* s := msg_loop r.1 r.2 (ifi_body doaliases r.1 r.2) (length r.2) 0 (Locals None None None None (Store ∅ ∅)) in
  match s with
  | inl s => ret (ifihead s, mem s)
  | inr _ => undef "get_ifi_info"
  end.

Definition Get_ifi_info (family doaliases : Z) : M heap (option nat * store) :=
  let* r := get_ifi_info family doaliases in
  match r.1 with Some _ => ret r | None => die "get_ifi_info error" end.
End get_ifi_info.

(** [if (p != NULL) free(p)] *)
Definition free_ptr (p : option nat) : M heap unit := match p with Some p => free p | None => skip end.

Fixpoint free_ifi_info (m : store) (fuel : nat) (p : option nat) : M heap unit :=
  match p with
  | None => skip
  | Some q =>
      match fuel with
      | O => nofuel
      | S fuel =>
          let* i := info_at (Some q) m in
          free_ptr (ifi_addr i);;;
          free_ptr (ifi_brdaddr i);;;
          free_ptr (ifi_dstaddr i);;;
          free q;;;
          free_ifi_info m fuel (ifi_next i)
      end
  end.

(** * The list *)

(** An element of the list, with the addresses it points to. *)
Record entry := Entry {
  e_name : bytes; e_index : Z; e_flags : Z; e_hlen : Z; e_haddr : bytes;
  e_addr : option bytes; e_brdaddr : option bytes; e_dstaddr : option bytes
}.
Definition entry_of (m : gmap nat bytes) (i : ifi_info) : entry :=
  Entry (ifi_name i) (ifi_index i) (ifi_flags i) (ifi_hlen i) (ifi_haddr i)
    (ifi_addr i ≫= fun p => m !! p) (ifi_brdaddr i ≫= fun p => m !! p) (ifi_dstaddr i ≫= fun p => m !! p).

(** The blocks of an element, in the order in which they are freed. *)
Definition ptrs (i : ifi_info) : list nat := option_list (ifi_addr i) ++ option_list (ifi_brdaddr i) ++ option_list (ifi_dstaddr i).
Definition node_blocks (x : nat * ifi_info) : list nat := ptrs x.2 ++ [x.1].
Definition blocks (l : list (nat * ifi_info)) : list nat := l ≫= node_blocks.
Fixpoint nexts (l : list (nat * ifi_info)) : Prop :=
  match l with [] => True | x :: l => ifi_next x.2 = fst <$> head l /\ nexts l end.

(** A list in memory: its structures, and the blocks it owns besides [B]. *)
Record list_ok (B : gset nat) (m : store) (h : heap) (p : option nat) (l : list (nat * ifi_info)) : Prop := {
  lo_infos : Forall (fun x => infos m !! x.1 = Some x.2) l;
  lo_sas : Forall (fun x => Forall (fun a => is_Some (sas m !! a)) (ptrs x.2)) l;
  lo_next : nexts l;
  lo_head : p = fst <$> head l;
  lo_ids : NoDup l.*1;
  lo_nodup : NoDup (blocks l);
  lo_live : live h = list_to_set (blocks l) ∪ B;
  lo_sep : forall x, x ∈ blocks l -> x ∉ B
}.
Definition entries (m : store) (l : list (nat * ifi_info)) : list entry := (fun x => entry_of (sas m) x.2) <$> l.

Record state_ok (B : gset nat) (s : locals) (h : heap) (l : list (nat * ifi_info)) : Prop := {
  so_list : list_ok B (mem s) h (ifihead s) l;
  so_pnext : ifipnext s = fst <$> last l;
  so_ifi : ifi s = fst <$> last l;
  so_heap : heap_ok h
}.
(** The variables while the list has some elements. *)
Definition models (B : gset nat) (s : locals) (h : heap) (es : list entry) : Prop :=
  exists l, state_ok B s h l /\ entries (mem s) l = es.

Lemma blocks_app l1 l2 : blocks (l1 ++ l2) = blocks l1 ++ blocks l2.
Proof. apply bind_app. Qed.

Lemma blocks_one x : blocks [x] = node_blocks x.
Proof. unfold blocks. cbn. apply app_nil_r. Qed.

Lemma nexts_app l x y : nexts (l ++ [x]) -> ifi_next y.2 = ifi_next x.2 -> y.1 = x.1 -> nexts (l ++ [y]).
Proof.
  intros H E1 E2. induction l as [|z l IH]; cbn in *; [rewrite E1; tauto|]. destruct H as [H1 H2]. split; [|by apply IH].
  rewrite H1. destruct l; cbn; [by rewrite E2|done].
Qed.

Lemma nexts_snoc l x p i : nexts (l ++ [x]) -> ifi_next i = None -> nexts (l ++ [(x.1, set_next p x.2); (p, i)]).
Proof.
  intros H E. induction l as [|z l IH]; cbn in *; [done|]. destruct H as [H1 H2]. split; [|by apply IH].
  rewrite H1. by destruct l.
Qed.

Lemma in_blocks x l : x ∈ l -> x.1 ∈ blocks l.
Proof.
  intros H. unfold blocks. apply list_elem_of_bind. exists x. split; [|done].
  unfold node_blocks. rewrite elem_of_app. right. by apply list_elem_of_singleton.
Qed.

(** Other addresses do not matter to an element. *)
Lemma entry_of_insert m p d i : p ∉ ptrs i -> entry_of (<[p := d]> m) i = entry_of m i.
Proof.
  intros H. unfold ptrs in H. rewrite !elem_of_app in H. unfold entry_of.
  f_equal; [destruct (ifi_addr i) as [q|] eqn:E|destruct (ifi_brdaddr i) as [q|] eqn:E|destruct (ifi_dstaddr i) as [q|] eqn:E];
    cbn; try done; rewrite lookup_insert_ne; try done; intros ->; apply H; cbn; rewrite list_elem_of_singleton; tauto.
Qed.

Lemma heap_ok_alloc h : heap_ok h -> heap_ok (Heap (S (mallocs h)) (sysctls h) ({[mallocs h]} ∪ live h)).
Proof. intros H b [->%elem_of_singleton|Hb]%elem_of_union; cbn; [lia|]. specialize (H b Hb). lia. Qed.

Section operations.
Context (avail : nat -> bool) (IFI_NAME IFI_HADDR : nat) (B : gset nat).
Local Abbreviation dies := (fun _ : heap => exists n, avail n = false).

Lemma Calloc_run h :
  wpd (Calloc avail) (fun p h' => p = mallocs h /\ h' = Heap (S (mallocs h)) (sysctls h) ({[mallocs h]} ∪ live h)) dies h.
Proof. unfold wpd, Calloc, bind, malloc. destruct (avail (mallocs h)) eqn:E; [done|]. by exists (mallocs h). Qed.

Lemma fresh_node m h p l : list_ok B m h p l -> heap_ok h -> (mallocs h ∉ blocks l) /\ (mallocs h ∉ B) /\ (mallocs h ∉ l.*1).
Proof.
  intros H Hh. pose proof (fresh_block h Hh) as Hf. rewrite (lo_live _ _ _ _ _ H) in Hf.
  apply not_elem_of_union in Hf as [Hf1 Hf2]. rewrite elem_of_list_to_set in Hf1. split; [done|]. split; [done|].
  intros (x & E & Hx)%list_elem_of_fmap_1. apply Hf1. rewrite E. by apply in_blocks.
Qed.

(** The last element replaced by one with the same blocks. *)
Lemma update_ok s h l p i f :
  state_ok B s h (l ++ [(p, i)]) -> ptrs (f i) = ptrs i -> ifi_next (f i) = ifi_next i ->
  update_info f s h = Ret (set_mem (with_info p (f i) (mem s)) s) h /\
  state_ok B (set_mem (with_info p (f i) (mem s)) s) h (l ++ [(p, f i)]).
Proof using Type.
  intros [[Hi Ha Hn Hhd Hids Hnd Hlive Hsep] Hp Hcur Hh] Eb En.
  rewrite last_snoc in Hcur, Hp. cbn in Hcur, Hp. apply Forall_app in Hi as [Hi [Hpi _]%list.Forall_cons]. cbn in Hpi.
  assert (blocks (l ++ [(p, f i)]) = blocks (l ++ [(p, i)])) as Ebl by (rewrite !blocks_app, !blocks_one; unfold node_blocks; cbn [fst snd]; by rewrite Eb).
  rewrite fmap_app in Hids. split.
  - unfold update_info. rewrite Hcur. unfold info_at, bind, ret. by rewrite Hpi.
  - constructor; cbn [ifihead ifipnext ifi mem set_mem]; try (rewrite last_snoc; done); [|done]. constructor.
    + apply Forall_app. split.
      * apply list.Forall_forall. intros x Hx. cbn [infos with_info]. rewrite lookup_insert_ne; [by apply (proj1 (list.Forall_forall _ _) Hi)|].
        intros ->. apply NoDup_app in Hids as (_ & Hd & _). apply (Hd x.1); [by apply list_elem_of_fmap_2|apply list_elem_of_singleton; done].
      * constructor; [|done]. cbn. by rewrite lookup_insert_eq.
    + apply Forall_app in Ha as [Ha [Hai _]%list.Forall_cons]. apply Forall_app. split; [done|]. constructor; [|done]. cbn [fst snd]. by rewrite Eb.
    + by apply (nexts_app l (p, i)).
    + rewrite Hhd. by destruct l.
    + by rewrite fmap_app.
    + by rewrite Ebl.
    + by rewrite Ebl.
    + by rewrite Ebl.
Qed.

Lemma new_info_ok s h l : state_ok B s h l ->
  wpd (new_info avail IFI_NAME IFI_HADDR s)
    (fun s' h' => exists l0, state_ok B s' h' (l0 ++ [(mallocs h, zeroed IFI_NAME IFI_HADDR)]) /\
       flags s' = flags s /\ sas (mem s') = sas (mem s) /\
       (fun x => entry_of (sas (mem s)) x.2) <$> l0 = entries (mem s) l /\ live h ⊆ live h') dies h.
Proof.
  intros [Hl Hp Hcur Hh]. pose proof (fresh_node _ _ _ _ Hl Hh) as (Hf1 & Hf2 & Hf3). destruct Hl as [Hi Ha Hn Hhd Hids Hnd Hlive Hsep].
  unfold new_info. apply wpd_bind. eapply wpd_mono; [apply Calloc_run|]. intros p h' [-> ->]. set (p := mallocs h) in *.
  rewrite Hp. destruct (last l) as [[q i]|] eqn:El; cbn [fmap option_fmap option_map fst].
  - apply last_Some in El as [l0 ->]. apply Forall_app in Hi as [Hi [Hq _]%list.Forall_cons]. cbn in Hq.
    assert (q <> p) as Hqp by (intros ->; apply Hf3; rewrite fmap_app; apply elem_of_app; right; by apply list_elem_of_singleton).
    rewrite fmap_app in Hids. unfold wpd. erewrite bind_run by (unfold info_at; cbn [infos with_info]; by rewrite lookup_insert_ne, Hq by done).
    unfold ret. exists (l0 ++ [(q, set_next p i)]). rewrite <-app_assoc. cbn [app].
    set (z := zeroed IFI_NAME IFI_HADDR).
    assert (blocks (l0 ++ [(q, set_next p i); (p, z)]) = blocks (l0 ++ [(q, i)]) ++ [p]) as Ebl.
    { rewrite !blocks_app, <-app_assoc, blocks_one. done. }
    repeat split; cbn [ifihead ifipnext ifi mem flags sas infos with_info]; rewrite ?Ebl.
    + apply Forall_app. split.
      * apply list.Forall_forall. intros x Hx. assert (x.1 <> q /\ x.1 <> p) as [Hx1 Hx2].
        { split; intros E; [apply NoDup_app in Hids as (_ & Hd & _); apply (Hd x.1); [by apply list_elem_of_fmap_2|by apply list_elem_of_singleton, E]|].
          apply Hf3. rewrite <-E, fmap_app. apply elem_of_app. left. by apply list_elem_of_fmap_2. }
        rewrite !lookup_insert_ne by done. by apply (proj1 (list.Forall_forall _ _) Hi).
      * repeat constructor; cbn; [by rewrite lookup_insert_eq|by rewrite lookup_insert_ne, lookup_insert_eq].
    + apply Forall_app in Ha as [Ha [Hai _]%list.Forall_cons]. apply Forall_app. split; [done|]. by repeat constructor.
    + by apply (nexts_snoc l0 (q, i)).
    + rewrite Hhd. by destruct l0.
    + replace (l0 ++ [(q, set_next p i); (p, z)]) with ((l0 ++ [(q, set_next p i)]) ++ [(p, z)]) by by rewrite <-app_assoc.
      rewrite !fmap_app. cbn. apply NoDup_app. split; [by rewrite fmap_app in *|]. split; [|apply NoDup_singleton].
      intros x Hx ->%list_elem_of_singleton. apply Hf3. by rewrite fmap_app.
    + apply NoDup_app. split; [done|]. split; [|apply NoDup_singleton]. intros x Hx ->%list_elem_of_singleton. done.
    + cbn [live]. rewrite Hlive. set_solver.
    + intros x [Hx| ->%list_elem_of_singleton]%elem_of_app; [by apply Hsep|done].
    + replace (l0 ++ [(q, set_next p i); (p, z)]) with ((l0 ++ [(q, set_next p i)]) ++ [(p, z)]) by by rewrite <-app_assoc. by rewrite last_snoc.
    + replace (l0 ++ [(q, set_next p i); (p, z)]) with ((l0 ++ [(q, set_next p i)]) ++ [(p, z)]) by by rewrite <-app_assoc. by rewrite last_snoc.
    + by apply heap_ok_alloc.
    + unfold entries. by rewrite !fmap_app.
    + cbn [live]. set_solver.
  - apply last_None in El as ->. unfold wpd, ret. exists []. cbn [app].
    repeat split; cbn [ifihead ifipnext ifi mem flags sas infos with_info]; try done.
    + repeat constructor. cbn. by rewrite lookup_insert_eq.
    + by repeat constructor.
    + apply NoDup_singleton.
    + cbn. apply NoDup_singleton.
    + cbn [live]. rewrite Hlive. cbn. set_solver.
    + intros x ->%list_elem_of_singleton. done.
    + by apply heap_ok_alloc.
    + cbn [live]. set_solver.
Qed.

(** * Its elements *)

Definition blank : entry := Entry (replicate IFI_NAME 0) 0 0 0 (replicate IFI_HADDR 0) None None None.

Lemma new_info_models s h es : models B s h es ->
  wpd (new_info avail IFI_NAME IFI_HADDR s)
    (fun s' h' => models B s' h' (es ++ [blank]) /\ flags s' = flags s /\ live h ⊆ live h') dies h.
Proof.
  intros (l & Hl & <-). eapply wpd_mono; [by apply new_info_ok|]. intros s' h' (l0 & Hl0 & Hf & Hs & Hes & Hlive).
  split; [|done]. eexists. split; [exact Hl0|]. unfold entries in *. rewrite fmap_app, Hs. by f_equal.
Qed.

Lemma update_models s h es e f g : models B s h (es ++ [e]) ->
  (forall i, ptrs (f i) = ptrs i /\ ifi_next (f i) = ifi_next i /\ forall m, entry_of m (f i) = g (entry_of m i)) ->
  exists s', update_info f s h = Ret s' h /\ models B s' h (es ++ [g e]) /\ flags s' = flags s.
Proof using Type.
  intros (l & Hl & E) Hf. unfold entries in E. apply fmap_app_inv in E as (l0 & [|[p i] [|? ?]] & -> & E & ->); [done| |done].
  injection E as ->. destruct (Hf i) as (H1 & H2 & H3). destruct (update_ok s h l0 p i f Hl H1 H2) as [Er Hs].
  eexists. split; [exact Er|]. split; [|done]. eexists. split; [exact Hs|]. unfold entries. cbn [mem set_mem sas with_info].
  rewrite fmap_app. cbn. by rewrite H3.
Qed.

(** A pointer of the structure that can be set, and what it points to. *)
Record setter (set : nat -> ifi_info -> ifi_info) (get : entry -> option bytes) (put : bytes -> entry -> entry) : Prop := {
  st_next q i : ifi_next (set q i) = ifi_next i;
  st_ptrs m q i : Forall (fun a => is_Some (m !! a)) (ptrs i) -> get (entry_of m i) = None -> ptrs (set q i) ≡ₚ q :: ptrs i;
  st_entry m q i d : m !! q = Some d -> entry_of m (set q i) = put d (entry_of m i)
}.

Lemma copy_ok s h l p i q d set get put : setter set get put ->
  state_ok B s h (l ++ [(p, i)]) -> get (entry_of (sas (mem s)) i) = None -> q = mallocs h ->
  let s1 := set_mem (Store (infos (mem s)) (<[q := d]> (sas (mem s)))) s in
  let s2 := set_mem (with_info p (set q i) (mem s1)) s1 in
  update_info (set q) s1 = (fun h => Ret s2 h) /\
  state_ok B s2 (Heap (S (mallocs h)) (sysctls h) ({[q]} ∪ live h)) (l ++ [(p, set q i)]) /\
  entries (mem s2) (l ++ [(p, set q i)]) = entries (mem s) l ++ [put d (entry_of (sas (mem s)) i)].
Proof using avail IFI_NAME B.
  intros Hset Hok Hget -> s1 s2. set (q := mallocs h) in *. pose proof (so_heap _ _ _ _ Hok) as Hh.
  destruct (fresh_node _ _ _ _ (so_list _ _ _ _ Hok) Hh) as (Hf1 & Hf2 & Hf3). fold q in Hf1, Hf2, Hf3.
  destruct Hok as [[Hi Ha Hn Hhd Hids Hnd Hlive Hsep] Hp Hcur _]. rewrite last_snoc in Hcur, Hp. cbn in Hcur, Hp.
  apply Forall_app in Hi as [Hi [Hpi _]%list.Forall_cons], Ha as [Ha [Hai _]%list.Forall_cons]. cbn [fst snd] in *.
  pose proof (st_ptrs _ _ _ Hset _ q i Hai Hget) as Hptrs.
  assert (Hperm : blocks (l ++ [(p, set q i)]) ≡ₚ q :: blocks (l ++ [(p, i)])).
  { rewrite !blocks_app, !blocks_one. unfold node_blocks. cbn [fst snd]. rewrite Hptrs. cbn [app]. by rewrite <-Permutation_middle. }
  rewrite fmap_app in Hids. split; [|split].
  - unfold update_info. cbn [ifi s1 set_mem]. rewrite Hcur. unfold info_at, bind, ret. cbn [infos mem s1 set_mem]. by rewrite Hpi.
  - constructor; cbn [ifihead ifipnext ifi mem set_mem s2 s1]; try (rewrite last_snoc; done); [|by apply heap_ok_alloc].
    constructor; cbn [infos sas with_info].
    + apply Forall_app. split.
      * apply list.Forall_forall. intros x Hx. rewrite lookup_insert_ne; [by apply (proj1 (list.Forall_forall _ _) Hi)|].
        intros ->. apply NoDup_app in Hids as (_ & Hd & _). apply (Hd x.1); [by apply list_elem_of_fmap_2|apply list_elem_of_singleton; done].
      * constructor; [|done]. cbn. by rewrite lookup_insert_eq.
    + assert (Hsome : forall a, is_Some (sas (mem s) !! a) -> is_Some (<[q:=d]> (sas (mem s)) !! a)).
      { intros a [x Hx]. destruct (decide (a = q)) as [->|]; [rewrite lookup_insert_eq|rewrite lookup_insert_ne by done]; by eexists. }
      apply Forall_app. split; [eapply Forall_impl; [exact Ha|]; intros x Hx; eapply Forall_impl; [exact Hx|exact Hsome]|].
      constructor; [|done]. cbn [snd]. rewrite Hptrs. constructor; [by rewrite lookup_insert_eq; eexists|]. eapply Forall_impl; [exact Hai|exact Hsome].
    + apply (nexts_app l (p, i)); [done| |done]. apply (st_next _ _ _ Hset).
    + rewrite Hhd. by destruct l.
    + by rewrite fmap_app.
    + rewrite Hperm. by apply NoDup_cons.
    + cbn [live]. rewrite Hlive. apply set_eq. intros x. rewrite !elem_of_union, !elem_of_list_to_set, elem_of_singleton, Hperm, elem_of_cons. tauto.
    + intros x. rewrite Hperm, elem_of_cons. intros [->|Hx]; [done|by apply Hsep].
  - assert (Hq : forall x, x ∈ l ++ [(p, i)] -> q ∉ ptrs x.2).
    { intros x Hx Hqx. apply Hf1. unfold blocks. apply list_elem_of_bind. exists x. split; [|done]. unfold node_blocks. apply elem_of_app. by left. }
    unfold entries. cbn [mem set_mem s2 s1 sas with_info]. rewrite fmap_app. cbn. f_equal.
    + apply list_fmap_ext. intros k x Hx. apply entry_of_insert, Hq, elem_of_app. left. by apply (list_elem_of_lookup_2 _ k).
    + f_equal. rewrite (st_entry _ _ _ Hset _ _ _ d) by apply lookup_insert_eq. f_equal. apply entry_of_insert, (Hq (p, i)), elem_of_app.
      right. by apply list_elem_of_singleton.
Qed.
End operations.
