(* ===== verification/IfInfoTheorems.v ===== *)
(** The theorem on get_ifi_info: the list is the one the messages describe, and
    what happens with the addresses of interfaces that are down. *)
From Stdlib Require Import ZArith Lia.
From stdpp Require Import base list strings numbers gmap.
From S2P Require Import Prelude CString CFile Packet Route IfInfo.
Local Open Scope c_scope.

(** * What the messages say *)

Definition put_addr (d : bytes) (e : entry) : entry :=
  Entry (e_name e) (e_index e) (e_flags e) (e_hlen e) (e_haddr e) (Some d) (e_brdaddr e) (e_dstaddr e).
Definition put_brdaddr (d : bytes) (e : entry) : entry :=
  Entry (e_name e) (e_index e) (e_flags e) (e_hlen e) (e_haddr e) (e_addr e) (Some d) (e_dstaddr e).
Definition put_dstaddr (d : bytes) (e : entry) : entry :=
  Entry (e_name e) (e_index e) (e_flags e) (e_hlen e) (e_haddr e) (e_addr e) (e_brdaddr e) (Some d).
Definition put_flags (f : Z) (e : entry) : entry :=
  Entry (e_name e) (e_index e) f (e_hlen e) (e_haddr e) (e_addr e) (e_brdaddr e) (e_dstaddr e).
Definition put_link (name : bytes) (index hlen : Z) (haddr : bytes) (e : entry) : entry :=
  Entry name index (e_flags e) hlen haddr (e_addr e) (e_brdaddr e) (e_dstaddr e).

Lemma addr_setter : setter set_addr e_addr put_addr.
Proof.
  constructor; [done|..].
  - intros m q i Hp Hg. unfold ptrs in *. cbn in *. destruct (ifi_addr i) as [a|]; [|done].
    cbn in *. apply list.Forall_cons in Hp as [[x Hx] _]. by rewrite Hx in Hg.
  - intros m q i d Hq. unfold entry_of, put_addr. cbn. by rewrite Hq.
Qed.

Lemma brdaddr_setter : setter set_brdaddr e_brdaddr put_brdaddr.
Proof.
  constructor; [done|..].
  - intros m q i Hp Hg. unfold ptrs in *. cbn in *. apply Forall_app in Hp as [_ Hp].
    destruct (ifi_brdaddr i) as [a|]; [cbn in *; apply list.Forall_cons in Hp as [[x Hx] _]; by rewrite Hx in Hg|].
    cbn [option_list app]. by rewrite <-Permutation_middle.
  - intros m q i d Hq. unfold entry_of, put_brdaddr. cbn. by rewrite Hq.
Qed.

Lemma dstaddr_setter : setter set_dstaddr e_dstaddr put_dstaddr.
Proof.
  constructor; [done|..].
  - intros m q i Hp Hg. unfold ptrs in *. cbn in *. rewrite !Forall_app in Hp. destruct Hp as (_ & _ & Hp).
    destruct (ifi_dstaddr i) as [a|]; [cbn in *; apply list.Forall_cons in Hp as [[x Hx] _]; by rewrite Hx in Hg|].
    cbn [option_list]. rewrite app_nil_r, app_assoc. by rewrite <-Permutation_cons_append.
  - intros m q i d Hq. unfold entry_of, put_dstaddr. cbn. by rewrite Hq.
Qed.

Section messages.
Context (avail : nat -> bool) (IFI_NAME IFI_HADDR : nat) (B : gset nat) (doaliases : Z).
Local Abbreviation dies := (fun _ : heap => exists n, avail n = false).
Local Abbreviation blank := (blank IFI_NAME IFI_HADDR).

(** The name as [snprintf] makes it: the string goes on behind the name, into
    the hardware address. *)
Definition shown_name (l : link) : bytes :=
  match l_name l with
  | [] => name_array IFI_NAME (str "index " ++ udec (l_index l))
  | _ => name_array IFI_NAME (padl (length (l_name l)) (cstr (l_name l ++ l_haddr l ++ l_tail l)))
  end.
Definition entry_link (l : link) : entry -> entry :=
  put_link (shown_name l) (l_index l) (Z.of_nat (length (l_haddr l))) (haddr_array IFI_HADDR (take IFI_HADDR (l_haddr l))).

Definition flag (f bit : Z) : bool := negb (Z.land f bit =? 0).
Definition fill_if (c : bool) (sa : option bytes) (put : bytes -> entry -> entry) (e : entry) : entry :=
  match sa with Some d => if c then put d e else e | None => e end.
(** An element with the addresses of a message. *)
Definition fill (f : Z) (m : message) (e : entry) : entry :=
  fill_if (flag f IFF_POINTOPOINT) (addr m RTAX_BRD) put_dstaddr
    (fill_if (flag f IFF_BROADCAST) (addr m RTAX_BRD) put_brdaddr (fill_if true (addr m RTAX_IFA) put_addr e)).
(** The same interface again. *)
Definition same_interface (e : entry) : entry := Entry (e_name e) (e_index e) (e_flags e) (e_hlen e) (e_haddr e) None None None.
Definition interface_entry (m : message) : entry :=
  let e := put_flags (m_flags m) blank in match m_link m with Some l => entry_link l e | None => e end.

(** What a message does to the list; [None] when the code has no interface yet. *)
Definition msg_step (m : message) (st : list entry * option Z) : option (list entry * option Z) :=
  let '(es, fl) := st in
  if m_type m =? RTM_IFINFO then
    Some (if flag (m_flags m) IFF_UP && bool_decide (is_Some (addr m RTAX_IFP)) then es ++ [interface_entry m] else es, Some (m_flags m))
  else
    match last es, fl with
    | Some e, Some f =>
        Some (match e_addr e with
              | Some _ => if doaliases =? 0 then es else es ++ [fill f m (same_interface e)]
              | None => removelast es ++ [fill f m e]
              end, fl)
    | _, _ => None
    end.
Definition run_msgs (ms : list message) : option (list entry * option Z) :=
  foldl (fun o m => o ≫= msg_step m) (Some ([], None)) ms.

(** Messages get_ifi_info is made for. *)
Record gi_ok (m : message) : Prop := {
  gk_type : m_type m = RTM_IFINFO \/ m_type m = RTM_NEWADDR;
  gk_name l : m_link m = Some l -> 0 ∈ l_name l ++ l_haddr l ++ l_tail l;
  gk_addr : m_type m = RTM_NEWADDR -> is_Some (addr m RTAX_IFA)
}.

Lemma slot_reads buf o sa : sa_okb sa = true -> stands buf o (slot sa) ->
  exists n, field buf o tt = Ret n tt /\ fields buf o (Z.to_nat n) tt = Ret sa tt.
Proof.
  intros H Hs. destruct sa as [|n r]; cbn [sa_okb slot] in *.
  - exists 0. split; [by apply (stands_field0 _ _ _ (replicate 7 0))|]. apply (stands_fields _ _ []); [|done].
    by apply (stands_app _ _ [] (replicate 8 0)).
  - rewrite !andb_true_iff, Z.leb_le, Z.ltb_lt, Z.eqb_eq in H. destruct H as [_ E]. apply stands_app in Hs as [Hs _].
    exists n. split; [by apply (stands_field0 _ _ _ r)|]. apply (stands_fields _ _ _ _ Hs). lia.
Qed.

Lemma copy_if_models c b buf sao set get put s h es e o :
  setter set get put -> models B s h (es ++ [e]) -> b ∈ B -> get e = None ->
  match o with Some sa => sa_okb sa = true /\ exists off, sao = Some off /\ stands buf off (slot sa) | None => sao = None end ->
  wpd (copy_if avail c b buf sao set s) (fun s' h' => models B s' h' (es ++ [fill_if c o put e]) /\ flags s' = flags s) dies h.
Proof.
  intros Hset Hm Hb Hget Ho. unfold copy_if. destruct o as [sa|]; [|rewrite Ho; by split]. destruct Ho as [Hok (off & -> & Hoff)].
  destruct c; [|by split]. cbn [fill_if]. destruct Hm as (l & Hl & E). unfold entries in E.
  apply fmap_app_inv in E as (l0 & [|[p i] [|? ?]] & -> & E & ->); [done| |done]. injection E as ->.
  assert (b ∈ live h) as Hbl by (rewrite (lo_live _ _ _ _ _ (so_list _ _ _ _ Hl)); by apply elem_of_union_r).
  destruct (slot_reads buf off sa Hok Hoff) as (n & E1 & E2). unfold copy_sa.
  apply wpd_bind, wpd_bind. unfold wpd at 1. rewrite (heap_load_run b _ h _ Hbl E1).
  apply wpd_bind. eapply wpd_mono; [apply Calloc_run|]. intros q h' [-> ->]. apply wpd_bind. unfold wpd at 1.
  erewrite heap_load_run; [|by apply elem_of_union_r|exact E2]. apply wpd_ret. cbn [fst snd].
  destruct (copy_ok avail IFI_NAME B s h l0 p i (mallocs h) sa set get put Hset Hl Hget eq_refl) as (Er & Hs & He).
  unfold wpd. rewrite Er. split; [|done]. eexists. split; [exact Hs|]. by rewrite He.
Qed.
End messages.

Lemma cstr_in a b : 0 ∈ a -> cstr (a ++ b) = cstr a.
Proof.
  induction a as [|c a IH]; intros H; [by apply elem_of_nil in H|]. cbn [app cstr]. destruct (Z.eqb_spec c 0) as [|Hc]; [done|].
  f_equal. apply IH. by apply elem_of_cons in H as [H|H]; [congruence|].
Qed.

Lemma string_at_run buf o s : stands buf o s -> 0 ∈ s -> string_at buf o tt = Ret (cstr s) tt.
Proof.
  intros (pre & post & -> & ->) H. unfold string_at. rewrite (proj2 (Z.leb_le _ _)) by lia. rewrite Nat2Z.id, drop_app_length.
  rewrite bool_decide_true by (apply elem_of_app; by left). cbn [andb]. by rewrite cstr_in.
Qed.

Section bodies.
Context (avail : nat -> bool) (IFI_NAME IFI_HADDR : nat) (B : gset nat) (doaliases : Z) (b : nat) (buf : bytes) (b_in : b ∈ B).
Local Abbreviation dies := (fun _ : heap => exists n, avail n = false).
Local Abbreviation blank := (blank IFI_NAME IFI_HADDR).

Lemma models_live s h es : models B s h es -> b ∈ live h.
Proof using b_in. intros (l & Hl & _). rewrite (lo_live _ _ _ _ _ (so_list _ _ _ _ Hl)). by apply elem_of_union_r. Qed.

Lemma wpd_load {A C} (m : M unit A) (k : A -> M heap C) a Q h : b ∈ live h -> m tt = Ret a tt -> wpd (k a) Q dies h -> wpd (let* a := load b m in k a) Q dies h.
Proof using Type. intros Hb Hm H. unfold wpd. by rewrite (bind_run _ _ _ _ _ (heap_load_run b m h a Hb Hm)). Qed.

Lemma update_wpd s h es e f g : models B s h (es ++ [e]) ->
  (forall i, ptrs (f i) = ptrs i /\ ifi_next (f i) = ifi_next i /\ forall m, entry_of m (f i) = g (entry_of m i)) ->
  wpd (update_info f s) (fun s' h' => models B s' h' (es ++ [g e]) /\ flags s' = flags s) dies h.
Proof using Type. intros H Hf. destruct (update_models B s h es e f g H Hf) as (s' & E & H'). unfold wpd. by rewrite E. Qed.

Lemma link_body_run s h es e o l : models B s h (es ++ [e]) -> sdl_at buf o l -> 0 ∈ l_name l ++ l_haddr l ++ l_tail l ->
  wpd (link_body IFI_NAME IFI_HADDR b buf o s)
    (fun s' h' => models B s' h' (es ++ [entry_link IFI_NAME IFI_HADDR l e]) /\ flags s' = flags s) dies h.
Proof using b_in.
  intros Hm [Ei En Ea Ed] Hz. pose proof (models_live _ _ _ Hm) as Hb. unfold link_body.
  apply (wpd_load _ _ _ _ h Hb Ei), (wpd_load _ _ _ _ h Hb En).
  assert (forall (k : bytes -> M heap locals) Q, wpd (k (shown_name IFI_NAME l)) Q dies h ->
    wpd (let* name := (if 0 <? Z.of_nat (length (l_name l)) then
       let* str := load b (string_at buf (sdl_data o)) in
       ret (name_array IFI_NAME (padl (Z.to_nat (Z.of_nat (length (l_name l)))) str))
     else ret (name_array IFI_NAME (str "index " ++ udec (l_index l)))) in k name) Q dies h) as Hname.
  { intros k Q Hk. apply wpd_bind. unfold shown_name in Hk. destruct (l_name l) as [|c r] eqn:E; [exact Hk|].
    rewrite (proj2 (Z.ltb_lt _ _)) by (cbn [length]; lia). apply (wpd_load _ _ _ _ h Hb (string_at_run _ _ _ Ed Hz)).
    rewrite Nat2Z.id. exact Hk. }
  apply Hname. apply (wpd_load _ _ _ _ h Hb Ea). apply stands_app in Ed as [_ Ed]. apply stands_app in Ed as [Ed _].
  assert (forall (k : bytes -> M heap locals) Q, wpd (k (take IFI_HADDR (l_haddr l))) Q dies h ->
    wpd (let* haddr := (if 0 <? Z.of_nat (length (l_haddr l)) then
       load b (fields buf (sdl_data o + Z.of_nat (length (l_name l))) (Nat.min IFI_HADDR (Z.to_nat (Z.of_nat (length (l_haddr l)))))) else ret [])
       in k haddr) Q dies h) as Haddr.
  { intros k Q Hk. destruct (Z.ltb_spec 0 (Z.of_nat (length (l_haddr l)))) as [Hp|Hp].
    - rewrite <-(take_drop IFI_HADDR (l_haddr l)) in Ed. apply stands_app in Ed as [Ed _].
      assert (length (take IFI_HADDR (l_haddr l)) = Nat.min IFI_HADDR (Z.to_nat (Z.of_nat (length (l_haddr l))))) as Et by by rewrite length_take, Nat2Z.id.
      apply (wpd_load _ _ _ _ h Hb (stands_fields _ _ _ _ Ed Et)). exact Hk.
    - assert (l_haddr l = []) as E by (apply length_zero_iff_nil; lia). rewrite E, take_nil in Hk. exact Hk. }
  apply Haddr. by apply update_wpd.
Qed.

(** An interface message. *)
Lemma ifinfo_body_run s h es p m : models B s h es -> message_at buf p m -> msg_ok m -> m_link_ok m -> gi_ok m -> m_type m = RTM_IFINFO ->
  wpd (ifinfo_body avail IFI_NAME IFI_HADDR b buf p s)
    (fun s' h' => models B s' h' (if flag (m_flags m) IFF_UP && bool_decide (is_Some (addr m RTAX_IFP)) then es ++ [interface_entry IFI_NAME IFI_HADDR m] else es) /\
       flags s' = Some (m_flags m)) dies h.
Proof using b_in.
  intros Hm Hat Hok Hlok Hgi Ety. pose proof (models_live _ _ _ Hm) as Hb. pose proof Hat as [_ _ Ea Ef Hinfo]. unfold ifinfo_body.
  apply (wpd_load _ _ _ _ h Hb Ef). assert (models B (set_flags (m_flags m) s) h es) as Hm1.
  { destruct Hm as (l & [H1 H2 H3 H4] & E). exists l. split; [|done]. by constructor. }
  unfold flag. destruct (Z.land (m_flags m) IFF_UP =? 0); cbn [negb andb]; [by split|].
  apply (wpd_load _ _ _ _ h Hb Ea). destruct Hinfo as (info & Ei & Hi).
  assert (hdr_size m = IFM_SIZE) as Eh by (unfold hdr_size; by rewrite Ety). rewrite Eh in Ei. apply (wpd_load _ _ _ _ h Hb Ei).
  specialize (Hi RTAX_IFP). unfold interface_entry, m_link. rewrite Ety, Z.eqb_refl.
  destruct (addr m RTAX_IFP) as [sa|] eqn:Es; [|by rewrite Hi, bool_decide_false by (by intros [? ?])].
  destruct Hi as (o & -> & Ho). rewrite bool_decide_true by by eexists. cbn [option_bind mbind].
  apply wpd_bind. eapply wpd_mono; [by apply new_info_models|]. intros s1 h1 (Hm2 & Hf2 & _).
  apply wpd_bind. eapply wpd_mono; [apply (update_wpd _ _ _ _ _ (put_flags (m_flags m)) Hm2); done|]. intros s2 h2 [Hm3 Hf3].
  pose proof (models_live _ _ _ Hm3) as Hb2. destruct (sdl_reads buf o sa (addr_ok _ _ _ Hok Es) (Hlok Ety sa Es) Ho) as (f & Efam & Hf).
  apply (wpd_load _ _ _ _ h2 Hb2 Efam). destruct (as_link sa) as [l|] eqn:El.
  - destruct Hf as [-> Hsdl]. cbn [Z.eqb]. rewrite Z.eqb_refl. eapply wpd_mono; [apply (link_body_run _ _ _ _ _ _ Hm3 Hsdl)|].
    + apply (gk_name _ Hgi). unfold m_link. rewrite Ety, Z.eqb_refl, Es. exact El.
    + intros s3 h3 [Hm4 Hf4]. split; [exact Hm4|]. by rewrite Hf4, Hf3, Hf2.
  - rewrite (proj2 (Z.eqb_neq _ _) Hf). apply wpd_ret. split; [exact Hm3|]. by rewrite Hf3, Hf2.
Qed.

(** Only an element without an address has no others either. *)
Definition clean (es : list entry) : Prop :=
  forall e, last es = Some e -> e_addr e = None -> e_brdaddr e = None /\ e_dstaddr e = None.

(** An address message, to an element without an address. *)
Lemma fill_addrs_run s h es e f p m : models B s h (es ++ [e]) -> flags s = Some f -> message_at buf p m -> msg_ok m -> m_type m = RTM_NEWADDR ->
  e_addr e = None -> e_brdaddr e = None -> e_dstaddr e = None ->
  wpd (let* addrs := load b (msgaddrs buf p) in
       let* info := load b (get_rtaddrs buf addrs (p + IFA_SIZE)) in
       let* s := copy_if avail true b buf (rti info RTAX_IFA) set_addr s in
       let* broadcast := flag_set s IFF_BROADCAST in
       let* s := copy_if avail broadcast b buf (rti info RTAX_BRD) set_brdaddr s in
       let* pointopoint := flag_set s IFF_POINTOPOINT in
       copy_if avail pointopoint b buf (rti info RTAX_BRD) set_dstaddr s)
    (fun s' h' => models B s' h' (es ++ [fill f m e]) /\ flags s' = Some f) dies h.
Proof using IFI_NAME b_in.
  intros Hm Hf Hat Hok Ety Ha Hb' Hd. pose proof (models_live _ _ _ Hm) as Hb. pose proof Hat as [_ _ Ea _ Hinfo].
  apply (wpd_load _ _ _ _ h Hb Ea). destruct Hinfo as (info & Ei & Hi).
  assert (hdr_size m = IFA_SIZE) as Eh by (unfold hdr_size; by rewrite Ety). rewrite Eh in Ei. apply (wpd_load _ _ _ _ h Hb Ei).
  assert (Haddr : forall i, match addr m i with Some sa => sa_okb sa = true /\ exists off, rti info i = Some off /\ stands buf off (slot sa) | None => rti info i = None end).
  { intros i. specialize (Hi i). destruct (addr m i) as [sa|] eqn:E; [|done]. split; [by apply (addr_ok m i)|done]. }
  apply wpd_bind. eapply wpd_mono; [apply (copy_if_models avail IFI_NAME B _ _ _ _ _ _ _ _ _ _ _ (addr m RTAX_IFA) addr_setter Hm b_in Ha (Haddr RTAX_IFA))|].
  intros s1 h1 [Hm1 Hf1]. apply wpd_bind. unfold flag_set at 1. rewrite Hf1, Hf. apply wpd_ret. fold (flag f IFF_BROADCAST).
  apply wpd_bind. eapply wpd_mono; [apply (copy_if_models avail IFI_NAME B _ _ _ _ _ _ _ _ _ _ _ (addr m RTAX_BRD) brdaddr_setter Hm1 b_in)|].
  { by destruct (addr m RTAX_IFA). }
  { exact (Haddr RTAX_BRD). }
  intros s2 h2 [Hm2 Hf2]. apply wpd_bind. unfold flag_set at 1. rewrite Hf2, Hf1, Hf. apply wpd_ret. fold (flag f IFF_POINTOPOINT).
  eapply wpd_mono; [apply (copy_if_models avail IFI_NAME B _ _ _ _ _ _ _ _ _ _ _ (addr m RTAX_BRD) dstaddr_setter Hm2 b_in)|].
  { destruct (addr m RTAX_IFA), (addr m RTAX_BRD), (flag f IFF_BROADCAST); exact Hd. }
  { exact (Haddr RTAX_BRD). }
  intros s3 h3 [Hm3 Hf3]. split; [exact Hm3|]. by rewrite Hf3, Hf2, Hf1.
Qed.
End bodies.

(** * The function *)

Section get.
Context (avail : nat -> bool) (table : nat -> Z -> Z -> option bytes) (IFI_NAME IFI_HADDR : nat) (doaliases : Z).
Local Abbreviation dies := (fun _ : heap => exists n, avail n = false).
Local Abbreviation msg_step := (msg_step IFI_NAME IFI_HADDR doaliases).
Local Abbreviation run_msgs := (run_msgs IFI_NAME IFI_HADDR doaliases).

Lemma current B s h es e : models B s h (es ++ [e]) ->
  exists i, info_at (ifi s) (mem s) h = Ret i h /\ e = entry_of (sas (mem s)) i /\ (is_Some (ifi_addr i) <-> is_Some (e_addr e)).
Proof.
  intros (l & Hl & E). unfold entries in E. apply fmap_app_inv in E as (l0 & [|[p i] [|? ?]] & -> & E & ->); [done| |done].
  injection E as ->. exists i. pose proof (so_ifi _ _ _ _ Hl) as Hcur. rewrite last_snoc in Hcur. cbn in Hcur.
  pose proof (lo_infos _ _ _ _ _ (so_list _ _ _ _ Hl)) as Hi. apply Forall_app in Hi as [_ [Hi _]%list.Forall_cons]. cbn in Hi.
  pose proof (lo_sas _ _ _ _ _ (so_list _ _ _ _ Hl)) as Ha. apply Forall_app in Ha as [_ [Ha _]%list.Forall_cons]. cbn [snd] in Ha.
  unfold info_at, ret. rewrite Hcur, Hi. split; [done|]. split; [done|]. cbn. unfold ptrs in Ha.
  destruct (ifi_addr i) as [a|]; cbn in *; [|done]. apply list.Forall_cons in Ha as [Ha _]. split; [done|by eexists].
Qed.

Lemma alias_run B s h es e : models B s h (es ++ [e]) ->
  wpd (alias avail IFI_NAME IFI_HADDR s)
    (fun s' h' => models B s' h' ((es ++ [e]) ++ [same_interface e]) /\ flags s' = flags s) dies h.
Proof.
  intros Hm. destruct (current _ _ _ _ _ Hm) as (i & Ei & -> & _). unfold alias. apply wpd_bind. unfold wpd at 1. rewrite Ei.
  apply wpd_bind. eapply wpd_mono; [by apply new_info_models|]. intros s1 h1 (Hm1 & Hf1 & _).
  apply wpd_bind. eapply wpd_mono; [apply (update_wpd _ _ _ _ _ _ _ (put_flags (ifi_flags i)) Hm1); done|]. intros s2 h2 [Hm2 Hf2].
  eapply wpd_mono; [apply (update_wpd _ _ _ _ _ _ _ (put_link (ifi_name i) (ifi_index i) (ifi_hlen i) (ifi_haddr i)) Hm2); done|].
  intros s3 h3 [Hm3 Hf3]. split; [exact Hm3|]. by rewrite Hf3, Hf2, Hf1.
Qed.

(** An address message. *)
Lemma newaddr_body_run B b buf s h es es' fl p m : b ∈ B -> models B s h es -> clean es -> message_at buf p m -> msg_ok m ->
  m_type m = RTM_NEWADDR -> msg_step m (es, flags s) = Some (es', fl) ->
  wpd (newaddr_body avail IFI_NAME IFI_HADDR doaliases b buf p s) (fun s' h' => models B s' h' es' /\ flags s' = fl) dies h.
Proof.
  intros Hb Hm Hc Hat Hok Ety Hs. unfold IfInfoTheorems.msg_step in Hs. rewrite Ety in Hs. cbn in Hs.
  destruct (last es) as [e|] eqn:El; [|done]. destruct (flags s) as [f|] eqn:Ef; [|done].
  pose proof (Hc e El) as Hce. apply last_Some in El as [es0 ->].
  destruct (current _ _ _ _ _ Hm) as (i & Ei & Ee & Ha). unfold newaddr_body. apply wpd_bind. unfold wpd at 1. rewrite Ei.
  destruct (e_addr e) as [a|] eqn:Ea.
  - rewrite bool_decide_true by (by apply Ha; eexists). cbn [andb]. destruct (doaliases =? 0); injection Hs as <- <-; [by split|].
    apply wpd_bind. eapply wpd_mono; [by apply alias_run|]. intros s1 h1 [Hm1 Hf1]. rewrite Ef in Hf1.
    by apply (fill_addrs_run avail IFI_NAME B b buf Hb _ _ _ _ _ _ _ Hm1 Hf1 Hat Hok Ety).
  - rewrite bool_decide_false by (rewrite Ha; by intros [? ?]). cbn [andb]. injection Hs as <- <-.
    destruct (Hce eq_refl) as [Hbrd Hdst]. rewrite removelast_last. apply wpd_bind, wpd_ret.
    by apply (fill_addrs_run avail IFI_NAME B b buf Hb _ _ _ _ _ _ _ Hm Ef Hat Hok Ety).
Qed.

Lemma run_msgs_snoc ms m : run_msgs (ms ++ [m]) = run_msgs ms ≫= msg_step m.
Proof. unfold IfInfoTheorems.run_msgs. by rewrite foldl_app. Qed.

Lemma run_msgs_prefix ms1 ms2 st : run_msgs (ms1 ++ ms2) = Some st -> exists st1, run_msgs ms1 = Some st1.
Proof.
  revert st. induction ms2 as [|m ms2 IH] using rev_ind; intros st H; [rewrite app_nil_r in H; eauto|].
  rewrite app_assoc, run_msgs_snoc in H. apply bind_Some in H as (st' & H & _). by apply (IH st').
Qed.

Lemma clean_snoc es e : is_Some (e_addr e) \/ (e_brdaddr e = None /\ e_dstaddr e = None) -> clean (es ++ [e]).
Proof. intros H e' E He'. rewrite last_snoc in E. injection E as <-. destruct H as [[? H]|H]; [by rewrite H in He'|done]. Qed.

Lemma fill_addr f m e : is_Some (addr m RTAX_IFA) -> is_Some (e_addr (fill f m e)).
Proof.
  intros [a Ha]. unfold fill. rewrite Ha. cbn [fill_if]. destruct (addr m RTAX_BRD); cbn [fill_if]; [|by eexists].
  destruct (flag f IFF_BROADCAST), (flag f IFF_POINTOPOINT); by eexists.
Qed.

Lemma step_clean m es fl es' fl' : gi_ok m -> clean es -> msg_step m (es, fl) = Some (es', fl') -> clean es'.
Proof.
  intros Hg Hc Hs. unfold IfInfoTheorems.msg_step in Hs. destruct (Z.eqb_spec (m_type m) RTM_IFINFO) as [E|E].
  - injection Hs as <- _. destruct (_ && _); [|done]. apply clean_snoc. right. unfold interface_entry. by destruct (m_link m).
  - assert (is_Some (addr m RTAX_IFA)) as Ha by (apply (gk_addr _ Hg); by destruct (gk_type _ Hg)).
    destruct (last es) as [e|]; [|done]. destruct fl as [f|]; [|done]. injection Hs as <- _.
    destruct (e_addr e); [destruct (doaliases =? 0); [done|]|]; apply clean_snoc; left; by apply fill_addr.
Qed.

(** The loop builds the list the messages say. *)
Lemma ifi_loop B b ms es fl s h : b ∈ B -> Forall msg_ok ms -> Forall m_link_ok ms -> Forall gi_ok ms -> run_msgs ms = Some (es, fl) ->
  models B s h [] -> flags s = None ->
  wpd (msg_loop b (msgs_bytes ms) (ifi_body avail IFI_NAME IFI_HADDR doaliases b (msgs_bytes ms)) (length (msgs_bytes ms)) 0 s)
    (fun r h' => exists s', r = inl s' /\ models B s' h' es) dies h.
Proof.
  intros Hb Hok Hlok Hgi Hrun Hm Hf.
  pose (I := fun (before : list message) (s : locals) (h : heap) =>
    exists es, run_msgs before = Some (es, flags s) /\ models B s h es /\ clean es).
  eapply wpd_mono; [apply (msg_loop_run b ms _ I (fun _ _ => False) dies Hok)|].
  - intros ? ? ? (? & _ & H & _). by apply (models_live B b Hb _ _ _ H).
  - intros before m after s1 h1 E (es1 & Hr & Hm1 & Hc) Hat.
    rewrite E, Forall_app, list.Forall_cons in Hok, Hlok, Hgi. destruct Hok as (_ & Hok & _), Hlok as (_ & Hlok & _), Hgi as (_ & Hgi & _).
    assert (exists st, run_msgs (before ++ [m]) = Some st) as [[es2 fl2] Hr2].
    { rewrite E in Hrun. replace (before ++ m :: after) with ((before ++ [m]) ++ after) in Hrun by by rewrite <-app_assoc. by apply run_msgs_prefix in Hrun. }
    pose proof Hr2 as Hstep. rewrite run_msgs_snoc, Hr in Hstep. cbn [mbind option_bind] in Hstep.
    pose proof (step_clean _ _ _ _ _ Hgi Hc Hstep) as Hc2. unfold ifi_body.
    apply (wpd_load avail _ _ _ _ _ h1 (models_live B b Hb _ _ _ Hm1) (at_type _ _ _ Hat)).
    destruct (Z.eqb_spec (m_type m) RTM_IFINFO) as [Ety|Ety].
    + apply wpd_bind. eapply wpd_mono; [apply (ifinfo_body_run avail IFI_NAME IFI_HADDR B b _ Hb _ _ _ _ _ Hm1 Hat Hok Hlok Hgi Ety)|].
      intros s2 h2 [Hm2 Hf2]. apply wpd_ret. exists es2. unfold IfInfoTheorems.msg_step in Hstep. rewrite Ety, Z.eqb_refl in Hstep.
      injection Hstep as E1 E2. rewrite E1 in Hm2. rewrite Hr2, Hf2, E2. done.
    + assert (m_type m = RTM_NEWADDR) as Ety2 by (by destruct (gk_type _ Hgi)). rewrite Ety2. cbn [Z.eqb RTM_NEWADDR Pos.eqb].
      apply wpd_bind. eapply wpd_mono; [apply (newaddr_body_run B b _ _ _ _ _ _ _ _ Hb Hm1 Hc Hat Hok Ety2 Hstep)|].
      intros s2 h2 [Hm2 Hf2]. apply wpd_ret. exists es2. rewrite Hr2, Hf2. done.
  - exists []. rewrite Hf. split; [done|]. split; [done|]. by intros ? ?.
  - intros [s'|x] h' Hp; [|done]. destruct Hp as (es' & Hr & Hm' & _). rewrite Hrun in Hr. injection Hr as <- _. eauto.
Qed.
End get.

(** * Freeing the list *)

Definition free_all : list nat -> M heap unit := foldr (fun a k => free a;;; k) skip.

Lemma free_all_run l h : NoDup l -> (forall a, a ∈ l -> a ∈ live h) ->
  free_all l h = Ret tt (Heap (mallocs h) (sysctls h) (live h ∖ list_to_set l)).
Proof.
  revert h. induction l as [|a l IH]; intros h Hn Hl.
  - cbn. unfold skip, ret. destruct h as [n k X]. cbn. do 2 f_equal. set_solver.
  - apply NoDup_cons in Hn as [Ha Hn]. cbn [free_all foldr]. call (heap_free_run a h (Hl a (list_elem_of_here _ _))).
    change (foldr _ skip l) with (free_all l). rewrite IH; [|done|].
    + cbn [mallocs sysctls live list_to_set]. do 2 f_equal. set_solver.
    + intros x Hx. cbn [live]. apply elem_of_difference. split; [by apply Hl, list_elem_of_further|].
      intros ->%elem_of_singleton. done.
Qed.

Lemma free_node i q {A} (k : M heap A) h :
  (free_ptr (ifi_addr i);;; free_ptr (ifi_brdaddr i);;; free_ptr (ifi_dstaddr i);;; free q;;; k) h =
  (free_all (node_blocks (q, i));;; k) h.
Proof.
  unfold node_blocks, ptrs, free_ptr. cbn [fst snd].
  destruct (ifi_addr i), (ifi_brdaddr i), (ifi_dstaddr i); cbn; unfold bind, skip, ret; by repeat (case_match; try done).
Qed.

Lemma free_ifi_info_run B m l : forall h p fuel, list_ok B m h p l -> (length l <= fuel)%nat ->
  exists h', free_ifi_info m fuel p h = Ret tt h' /\ live h' = B.
Proof.
  induction l as [|[q i] l IH]; intros h p fuel [Hi Ha Hn Hhd Hids Hnd Hlive Hsep] Hf.
  - cbn in Hhd. subst p. exists h. destruct fuel; (split; [done|]); rewrite Hlive; cbn; set_solver.
  - cbn in Hhd. subst p. destruct fuel as [|fuel]; [by apply Nat.nle_succ_0 in Hf|].
    apply list.Forall_cons in Hi as [Hq Hi], Ha as [Hai Ha]. cbn [fst snd] in *. destruct Hn as [Hnext Hn]. cbn [snd] in Hnext.
    assert (blocks ((q, i) :: l) = node_blocks (q, i) ++ blocks l) as Eb by done. rewrite Eb in *.
    apply NoDup_app in Hnd as (Hnd1 & Hdisj & Hnd2). apply NoDup_cons in Hids as [_ Hids].
    cbn [free_ifi_info]. erewrite bind_run by (unfold info_at; rewrite Hq; done). cbv beta.
    rewrite free_node. erewrite bind_run; [|apply free_all_run; [done|]].
    2: { intros a Haa. rewrite Hlive. apply elem_of_union_l, elem_of_list_to_set, elem_of_app. by left. }
    cbv beta. rewrite Hnext. apply IH; [|cbn [length] in Hf; lia]. constructor; try done.
    + cbn [live]. rewrite Hlive, list_to_set_app_L. apply set_eq. intros x.
      rewrite elem_of_difference, !elem_of_union, !elem_of_list_to_set. split; [tauto|]. intros [Hx|Hx].
      * split; [tauto|]. intros Hx2. by apply (Hdisj x).
      * split; [tauto|]. intros Hx2. by apply (Hsep x); [apply elem_of_app; left|].
    + intros x Hx. apply Hsep, elem_of_app. by right.
Qed.

(** * Interfaces and their addresses *)

(** An interface in the kernel's list: its message and those of its addresses. *)
Record iface := Iface { i_msg : message; i_ifas : list message }.
Definition listing (l : list iface) : list message := l ≫= fun i => i_msg i :: i_ifas i.

Record iface_ok (i : iface) : Prop := {
  ik_msg : m_type (i_msg i) = RTM_IFINFO /\ is_Some (addr (i_msg i) RTAX_IFP);
  ik_ifas : Forall (fun m => m_type m = RTM_NEWADDR) (i_ifas i);
  ik_down : flag (m_flags (i_msg i)) IFF_UP = false -> i_ifas i = []
}.

Section lists.
Context (IFI_NAME IFI_HADDR : nat) (doaliases : Z).
Local Abbreviation msg_step := (msg_step IFI_NAME IFI_HADDR doaliases).

(** The elements for an interface: none when it is down, one for its first
    address, and, when they are asked for, one for each of the others. *)
Definition iface_entries (i : iface) : list entry :=
  let f := m_flags (i_msg i) in
  let e := interface_entry IFI_NAME IFI_HADDR (i_msg i) in
  if flag f IFF_UP then
    match i_ifas i with
    | [] => [e]
    | a :: r => fill f a e :: (if doaliases =? 0 then [] else (fun a => fill f a (same_interface e)) <$> r)
    end
  else [].
Definition ifi_list (l : list iface) : list entry := l ≫= iface_entries.

Lemma same_fill f m e : same_interface (fill f m e) = same_interface e.
Proof.
  unfold fill, fill_if. destruct (addr m RTAX_IFA), (addr m RTAX_BRD), (flag f IFF_BROADCAST), (flag f IFF_POINTOPOINT); done.
Qed.

Lemma other_ifas f r : forall es e, Forall (fun m => m_type m = RTM_NEWADDR /\ gi_ok m) r -> is_Some (e_addr e) ->
  foldl (fun o m => o ≫= msg_step m) (Some (es ++ [e], Some f)) r =
  Some ((es ++ [e]) ++ (if doaliases =? 0 then [] else (fun a => fill f a (same_interface e)) <$> r), Some f).
Proof.
  induction r as [|m r IH]; intros es e Hr [a Ha]; [cbn; destruct (doaliases =? 0); by rewrite app_nil_r|].
  apply list.Forall_cons in Hr as [[Ety Hg] Hr]. cbn [foldl mbind option_bind]. unfold IfInfoTheorems.msg_step at 2. rewrite Ety, last_snoc, Ha. cbn [Z.eqb RTM_NEWADDR RTM_IFINFO Pos.eqb].
  pose proof (gk_addr _ Hg Ety) as Hm. destruct (doaliases =? 0) eqn:Ed.
  - rewrite (IH es e Hr); [done|by eexists].
  - rewrite (IH (es ++ [e]) _ Hr) by by apply fill_addr. rewrite same_fill. by rewrite <-app_assoc.
Qed.

Lemma iface_step i es fl : iface_ok i -> Forall gi_ok (i_msg i :: i_ifas i) ->
  foldl (fun o m => o ≫= msg_step m) (Some (es, fl)) (i_msg i :: i_ifas i) = Some (es ++ iface_entries i, Some (m_flags (i_msg i))).
Proof.
  intros [[Ety Hifp] Hifas Hdown] [_ Hg]%list.Forall_cons. cbn [foldl mbind option_bind]. unfold IfInfoTheorems.msg_step at 2.
  rewrite Ety, Z.eqb_refl, (bool_decide_true _ Hifp), andb_true_r. unfold iface_entries.
  destruct (flag (m_flags (i_msg i)) IFF_UP); [|rewrite (Hdown eq_refl), app_nil_r; done].
  destruct (i_ifas i) as [|a r]; [done|]. apply list.Forall_cons in Hifas as [Ea Hr], Hg as [Hga Hgr].
  cbn [foldl mbind option_bind]. unfold IfInfoTheorems.msg_step at 2. rewrite Ea, last_snoc, removelast_last. cbn [Z.eqb RTM_NEWADDR RTM_IFINFO Pos.eqb].
  assert (e_addr (interface_entry IFI_NAME IFI_HADDR (i_msg i)) = None) as -> by (unfold interface_entry; by destruct (m_link (i_msg i))).
  rewrite other_ifas; [by rewrite same_fill, <-app_assoc|by apply Forall_and|]. by apply fill_addr, (gk_addr _ Hga).
Qed.

Lemma listing_run l : forall es fl, Forall iface_ok l -> Forall gi_ok (listing l) ->
  exists fl', foldl (fun o m => o ≫= msg_step m) (Some (es, fl)) (listing l) = Some (es ++ ifi_list l, fl').
Proof.
  induction l as [|i l IH]; intros es fl Hok Hg; [exists fl; cbn; by rewrite app_nil_r|].
  apply list.Forall_cons in Hok as [Hi Hok]. unfold listing, ifi_list in *. rewrite !bind_cons, ?Forall_app in *. destruct Hg as [Hgi Hg].
  rewrite foldl_app, (iface_step i es fl Hi Hgi), app_assoc. by apply IH.
Qed.
End lists.

(** * The theorem *)

(** C39: When no interface that is down has addresses, get_ifi_info returns the
    list the messages of the kernel describe: an element for each interface
    that is up, in the kernel's order, with its first address, broadcast or
    destination address, and with [doaliases] one more for each other address,
    which repeats the interface.  Every access is inside its object.  The list
    owns what free_ifi_info gives back, all but the block of the kernel's
    messages, which get_ifi_info keeps. *)
Theorem get_ifi_info_lists avail table IFI_NAME IFI_HADDR family doaliases ifs h :
  heap_ok h -> (forall t, table t family 0 = Some (msgs_bytes (listing ifs))) -> (forall n, avail n = true) ->
  Forall msg_ok (listing ifs) -> Forall m_link_ok (listing ifs) -> Forall gi_ok (listing ifs) -> Forall iface_ok ifs ->
  exists p m h1 l h2,
    get_ifi_info avail table IFI_NAME IFI_HADDR family doaliases h = Ret (p, m) h1 /\
    list_ok ({[mallocs h]} ∪ live h) m h1 p l /\ entries m l = ifi_list IFI_NAME IFI_HADDR doaliases ifs /\
    free_ifi_info m (length l) p h1 = Ret tt h2 /\ live h2 = {[mallocs h]} ∪ live h.
Proof.
  intros Hh Ht Hav Hok Hlok Hgi Hifs. destruct (listing_run IFI_NAME IFI_HADDR doaliases ifs [] None Hifs Hgi) as [fl Hrun].
  set (B := {[mallocs h]} ∪ live h). set (h0 := Heap (S (mallocs h)) (S (S (sysctls h))) B).
  set (s0 := Locals None None None None (Store ∅ ∅)).
  assert (models B s0 h0 []) as Hm0.
  { exists []. split; [|done]. constructor; [|done..|].
    - constructor; try done; [apply NoDup_nil_2|apply NoDup_nil_2|cbn; set_solver|]. by intros x ?%elem_of_nil.
    - intros x [->%elem_of_singleton|Hx]%elem_of_union; cbn; [lia|]. specialize (Hh x Hx). lia. }
  pose proof (ifi_loop avail IFI_NAME IFI_HADDR doaliases B (mallocs h) (listing ifs) _ fl s0 h0 ltac:(set_solver) Hok Hlok Hgi Hrun Hm0 eq_refl) as W.
  unfold get_ifi_info, Net_rt_iflist. unfold wpd in W.
  assert (forall {A} (k : nat * bytes -> M heap A), (let* r := (let* p := net_rt_iflist avail table family 0 in
      match p with Some r => ret r | None => die "net_rt_iflist error" end) in k r) h = k (mallocs h, msgs_bytes (listing ifs)) h0) as Hk.
  { intros A k. unfold bind. rewrite (net_rt_iflist_run _ _ _ _ (Some (msgs_bytes (listing ifs)))), Hav by done. done. }
  rewrite Hk. cbn [fst snd]. unfold bind. destruct (msg_loop _ _ _ _ _ _ h0) as [r h1|msg h1|why|]; [|destruct W as [n Hn]; by rewrite Hav in Hn|done|done].
  destruct W as (s & -> & l & [Hl _ _ _] & He). destruct (free_ifi_info_run B (mem s) l h1 (ifihead s) (length l) Hl ltac:(done)) as (h2 & Ef & H2).
  by exists (ifihead s), (mem s), h1, l, h2.
Qed.

(** * An example *)

Definition ex_lo0 : bytes := [20; 18; 1; 0; 24; 3; 0; 0] ++ str "lo0" ++ replicate 9 0.
Definition ex_gif0 : bytes := [20; 18; 2; 0; 55; 4; 0; 0] ++ str "gif0" ++ replicate 8 0.
Definition ex_en0 : bytes := [20; 18; 4; 0; 6; 3; 6; 0] ++ str "en0" ++ [164; 131; 231; 12; 5; 9] ++ replicate 3 0.
Definition ex_addr (a b c d : Z) : bytes := [16; 2; 0; 0; a; b; c; d] ++ replicate 8 0.
Definition ex_if (flags : Z) (sdl : bytes) : message :=
  Msg RTM_IFINFO 5 flags (replicate 100 0) [None; None; None; None; Some sdl; None; None; None].
Definition ex_ifa (sa : bytes) (brd : option bytes) : message :=
  Msg RTM_NEWADDR 5 0 (replicate 8 0) [None; None; Some []; None; None; Some sa; None; brd].
Definition ex_ifs : list iface := [
  Iface (ex_if 73 ex_lo0) [ex_ifa (ex_addr 127 0 0 1) None; ex_ifa (ex_addr 127 0 0 2) None];
  Iface (ex_if 0 ex_gif0) [];
  Iface (ex_if 67 ex_en0) [ex_ifa (ex_addr 10 0 0 5) (Some (ex_addr 10 0 0 255))]].
Definition ex_table (_ : nat) (_ _ : Z) : option bytes := Some (msgs_bytes (listing ex_ifs)).

Lemma ex_ifa_ok sa brd : gi_ok (ex_ifa sa brd).
Proof. constructor; [by right|done|by eexists]. Qed.

Lemma ex_if_ok flags sdl :
  from_option (fun l => bool_decide (0 ∈ l_name l ++ l_haddr l ++ l_tail l)) true (as_link sdl) = true -> gi_ok (ex_if flags sdl).
Proof. intros H. constructor; [by left| |done]. intros l E. change (as_link sdl = Some l) in E. rewrite E in H. by apply bool_decide_eq_true in H. Qed.

Lemma ex_msgs : Forall msg_ok (listing ex_ifs) /\ Forall m_link_ok (listing ex_ifs) /\ Forall gi_ok (listing ex_ifs).
Proof.
  split; [|split].
  - repeat constructor; try (by vm_compute); by apply (proj1 (Z.ltb_lt _ _)).
  - repeat constructor; intros H sa E; vm_compute in H, E; (done || (injection E as <-; done)).
  - change (Forall gi_ok [ex_if 73 ex_lo0; ex_ifa (ex_addr 127 0 0 1) None; ex_ifa (ex_addr 127 0 0 2) None; ex_if 0 ex_gif0;
      ex_if 67 ex_en0; ex_ifa (ex_addr 10 0 0 5) (Some (ex_addr 10 0 0 255))]).
    repeat (apply list.Forall_cons; split); try done; (apply ex_ifa_ok || by apply ex_if_ok).
Qed.

Lemma ex_ifaces : Forall iface_ok ex_ifs.
Proof. repeat constructor; try (by eexists); done. Qed.

Lemma get_ifi_info_lists_witness : exists p m h1 l h2,
  get_ifi_info (fun _ => true) ex_table 16 8 2 1 (Heap 0 0 ∅) = Ret (p, m) h1 /\
  list_ok ({[0%nat]} ∪ ∅) m h1 p l /\ length (entries m l) = 3%nat /\
  free_ifi_info m (length l) p h1 = Ret tt h2 /\ live h2 = {[0%nat]} ∪ ∅.
Proof.
  destruct ex_msgs as (H1 & H2 & H3).
  destruct (get_ifi_info_lists (fun _ => true) ex_table 16 8 2 1 ex_ifs (Heap 0 0 ∅)) as (p & m & h1 & l & h2 & E1 & E2 & E3 & E4 & E5);
    [by intros b Hb; apply elem_of_empty in Hb|done|done|exact H1|exact H2|exact H3|exact ex_ifaces|].
  exists p, m, h1, l, h2. split; [exact E1|]. split; [exact E2|]. split; [by rewrite E3|]. split; [exact E4|exact E5].
Defined.

(** The field width of ["%*s"] is no limit: the name of an interface with a
    hardware address goes on with the bytes of that address. *)
Lemma name_runs_on :
  cstr (shown_name 16 (Link 4 (str "en0") [164; 131; 231; 12; 5; 9] (replicate 7 0))) = str "en0" ++ [164; 131; 231; 12; 5; 9].
Proof. done. Qed.

(** An address of an interface that is down is given to the one before it. *)
Lemma down_address_misplaced :
  exists e1 e2 fl, run_msgs 16 8 1 [ex_if 73 ex_lo0; ex_ifa (ex_addr 127 0 0 1) None; ex_if 0 ex_gif0; ex_ifa (ex_addr 10 9 9 9) None]
    = Some ([e1; e2], fl) /\ cstr (e_name e1) = str "lo0" /\ cstr (e_name e2) = str "lo0" /\ e_addr e2 = Some (ex_addr 10 9 9 9).
Proof. by eexists _, _, _. Qed.

(** When the first interface is down its address is stored through a pointer
    that has no value. *)
Lemma down_first_undefined : exists why,
  get_ifi_info (fun _ => true) (fun _ _ _ => Some (msgs_bytes [ex_if 0 ex_gif0; ex_ifa (ex_addr 10 9 9 9) None])) 16 8 2 0 (Heap 0 0 ∅) = Undef why.
Proof. eexists. by vm_compute. Qed.
